(* ===== verification/_CoqProject ===== *)
-Q . S2P
Prelude.v
Compat.v
Cbs.v
Cbb.v
CbbSpec.v
CbbBuild.v
Ber.v
Tls13Buffer.v
Tls13Record.v
KeySchedule.v
HandshakeMsg.v
RecordLayer.v
Handshake.v
RecordLayerSpec.v
RecordLayerIO.v
RecordLayerQuiet.v
HandshakeSpec.v
Words.v
Chacha.v
Poly1305.v
ChachaPoly.v
Md32.v
Sha256.v
EvpDigest.v
Hmac.v
Hkdf.v
Suite.v
Lhash.v
LhashSpec.v
Base64.v
Versions.v
Hello.v
Tlsext.v
TlsextSpec.v
S3Cbc.v
S3CbcSpec.v
Tls12Record.v
Tls12RecordSpec.v
Tls12Roundtrip.v
DtlsReplay.v
Pqueue.v
SslPkt.v
SslPktSpec.v
SslConn.v
SslWriteSpec.v
BnWord.v
BnMul.v
BnMulSpec.v
Bn.v
BnSpec.v
BnCtx.v
BnCtxSpec.v
BnArith.v
BnDiv.v
BnDivSpec.v
BnShift.v
BnDivision.v
BnMod.v
Buffer.v
HmacSign.v
Transcript.v
TranscriptSpec.v
Tls1Prf.v
