(* ===== verification/Prelude.v ===== *)
(** * A verification of LibreSSL: the records of TLS and DTLS, TLSv1.3 handshakes, their cryptography, byte strings and big numbers

    The repository packages LibreSSL (src/libressl): libcrypto (crypto/), libssl (ssl/), libtls (tls/) and
    programs (apps/).  This library models the TLSv1.3 half of libssl from the byte strings to the handshake
    driver, the extensions, the record layer of TLS up to 1.2 and DTLS with its buffers, the primitives of libcrypto that the cipher suite
    TLS_CHACHA20_POLY1305_SHA256 needs, the big numbers under its public key code, and shared data structures, and proves what makes them correct.

    ** The parts and how they interact

    A TLSv1.3 connection drives its handshake with a table of message sequences (tls13_handshake.c).  A message is
    built in or read from a byte string (bs_cbb.c, bs_cbs.c) by tls13_handshake_msg.c, and carried by the record layer
    (tls13_record_layer.c), which cuts it into records (tls13_record.c), received through a resumable buffer
    (tls13_buffer.c) and protected with an AEAD (evp_aead.c, e_chacha20poly1305.c, chacha.c, poly1305.c) under keys that
    the key schedule (tls13_key_schedule.c) derives with HKDF (hkdf.c) on HMAC (hmac.c) on message digests (digest.c,
    sha256.c, md32_common.h).  Connections of TLS up to 1.2 and DTLS have a record layer of their own (tls12_record_layer.c), with
    AEADs or with ciphers and HMAC, whose CBC records are checked in constant time (s3_cbc.c); ssl_pkt.c reads its records from and
    writes them to a BIO that may take or give only part of them, and DTLS drops records that come twice (d1_pkt.c) and queues the ones that come
    early (pqueue.c).  Every handshake message is recorded in the transcript (ssl_transcript.c), a growing buffer (buffer.c) with a running hash; in TLS up to
    1.2 the hash goes into Finished messages, and the keys are derived (t1_enc.c), through the signature interface for HMAC keys (m_sigver.c,
    hm_pmeth.c).  The hello messages of all versions carry extensions (ssl_tlsext.c), and the version is negotiated in them.

    The big numbers of libcrypto (bn_lib.c) are arrays of words.  Routines on arrays (bn_asm.c, bn_mul.c, bn_sqr.c) do the arithmetic, the functions on
    numbers find memory and signs (bn_add.c, bn_shift.c, bn_mul.c), and temporary numbers come from frames of a context (bn_ctx.c).

    ** Files

    - Prelude (this file): machine integers, byte arrays, the state-and-failure monad [M], the tactic [zl]
      for lengths, and the hint databases [zlist] and [bytes].  Words: little-endian integers, shifts and masks.
    - Compat (crypto/compat): [timingsafe_memcmp], [recallocarray] and others; the class [Allocator] of malloc.
    - Cbs (ssl/bs_cbs.c): the reader is the record [CBS], its window of bytes; every function is in the monad [M CBS].
    - Cbb (ssl/bs_cbb.c): builders point to each other, so the state is a [store] of the shared buffer and the CBB objects by
      address.  CbbSpec: the refinement to sequences of bytes with open length prefixes.  CbbBuild: whole messages.
    - Ber (ssl/bs_ber.c): indefinite-length BER to DER.
    - Tls13Buffer, Tls13Record (ssl/tls13_buffer.c, tls13_record.c): reading and writing one record in pieces.
    - KeySchedule (ssl/tls13_key_schedule.c): the secrets, the stages and the labels; the hash and HKDF are the class [Hkdf].
    - RecordLayer (ssl/tls13_record_layer.c): the record layer's state and every operation; the AEAD is the class [Aead], with
      its laws [AeadLaws].  RecordLayerSpec: sealing and opening.  RecordLayerIO: all operations, in any order.
      RecordLayerQuiet: what is kept while no post-handshake message is pending.
    - HandshakeMsg, Handshake (ssl/tls13_handshake_msg.c, tls13_handshake.c): messages, the tables and the driver.
      HandshakeSpec: the sequences of RFC 8446 by the types of the messages; the laws of the message handlers are the
      classes [HandlerLaws] and [MessageLaws].
    - Versions (ssl/ssl_versions.c, ssl_methods.c): which protocol versions a connection may use.  Hello: how the hello messages
      fix the version (parts of tls13_client.c, tls13_server.c, ssl_clnt.c, ssl_srvr.c, tls13_legacy.c).
    - Tlsext (ssl/ssl_tlsext.c): the table of extensions, the functions that decide whether to send them, build them and parse them,
      and the loops over them.  TlsextSpec: which extension blocks are accepted.
    - S3Cbc (ssl/s3_cbc.c): padding and MAC of CBC records in constant time.  S3CbcSpec: what they compute.
    - Tls12Record (ssl/tls12_record_layer.c, and the body of [do_ssl3_write] of ssl_pkt.c): the record layer of TLS up to 1.2 and
      DTLS; ciphers, EVP_DigestSign and the names of the AEADs are the classes [Ciphers], [Macs], [Aead12].  Tls12RecordSpec: the
      laws of these classes and what sealing writes.  Tls12Roundtrip: what opening accepts, and both composed.
    - SslPkt (ssl/ssl_pkt.c, ssl_both.c): the read buffer, [ssl3_read_n] and the packets; a BIO is the class [Transport].  SslPktSpec: the
      buffer is a window on the peer's bytes.  SslConn: the state of a connection's records and all of writing, [do_ssl3_write],
      [ssl3_write_bytes], alerts, and [do_dtls1_write] of d1_pkt.c.  SslWriteSpec: what becomes of the data.
    - DtlsReplay (ssl/d1_pkt.c): the replay window.  Pqueue (ssl/pqueue.c): the queues of records and fragments.
    - Chacha, Poly1305, ChachaPoly (crypto/chacha, crypto/poly1305, crypto/evp/e_chacha20poly1305.c, evp_aead.c): the AEADs.
    - Md32, Sha256, EvpDigest, Hmac, Hkdf (crypto/md32_common.h, crypto/sha/sha256.c, crypto/evp/digest.c, crypto/hmac,
      crypto/hkdf): the hash, the digest contexts and the key derivation.
    - Suite: the instances by which ChachaPoly and Hkdf discharge the interfaces [Aead] and [Hkdf].
    - Buffer (crypto/buffer): growing buffers, [BUF_reverse], [strlcpy] and [strlcat].
    - Transcript (ssl/ssl_transcript.c, and the synthetic message of tls13_lib.c): the state is the record [SSL] of the fields used.  TranscriptSpec: the
      specification [transcript_spec] and the refinement.
    - HmacSign (crypto/hmac/hm_pmeth.c, crypto/evp/m_sigver.c): signing with HMAC keys.  Tls1Prf (ssl/t1_enc.c): the pseudorandom function of TLS up to 1.2,
      the master secret, the key block, Finished and exported keys; the digests of the cipher suites are the class [SuiteDigests].
    - Lhash, LhashSpec (crypto/lhash/lhash.c): hash tables and their refinement to finite maps.
    - Base64 (crypto/evp/encode.c): the encoder and the decoder.
    - BnWord (crypto/bn/bn_asm.c, bn_lcl.h): words and arrays of words.  BnMul (bn_asm.c, bn_mul.c, bn_sqr.c): products of arrays by rows, by columns and
      by Karatsuba's recursion; BnMulSpec: all of them compute the product.
    - Bn (crypto/bn/bn_lib.c, bn_add.c, bn_shift.c, bn_word.c, bn_mod.c, bn_mont.c): numbers at addresses of a store, so that operands and results may be the same
      number.  BnSpec: addition, subtraction, comparison.
    - BnCtx (crypto/bn/bn_ctx.c, [BN_mul], [BN_sqr]): the pool of temporary numbers and its frames.  BnCtxSpec: the frames.  BnArith: products.
    - BnDiv (crypto/bn/bn_div.c): division.  BnDivSpec: the digits of a quotient.  BnShift: shifts.  BnDivision: [BN_div].  BnMod (bn_mod.c): residues.

    ** What the theorems show

    - Byte strings: a reader never leaves its input, on any sequence of calls ([cbs_reader_safe]); it accepts exactly
      canonical DER ([CBS_get_asn1_iff_der], and [CBS_get_asn1_uint64_iff_der] for integers); a builder writes exactly the encoding of a message,
      in a growable or a fixed buffer ([cbb_marshal_encodes], [cbb_marshal_fixed_encodes]), that a reader gives back
      ([cbb_cbs_roundtrip]); what is taken for indefinite-length BER is converted to its definite-length
      form, and what is converted, what is passed on unread and what is refused is told apart exactly ([indefinite_to_definite_correct]).
    - Records: reception is resumable at every byte ([tls13_record_recv_resumable]); what is sealed is opened, in order
      ([protected_records_roundtrip]); nonces never repeat ([record_nonces_unique]); nothing unauthenticated is delivered
      ([open_record_authenticated]) and nothing goes out in the clear that must not ([seal_record_protects]); closed channels stay
      closed ([record_layer_only_forward]); alerts are sent and close what they must ([tls13_send_alert_closes]).
    - Records of TLS up to 1.2 and DTLS: what is sealed under an AEAD, a CBC or a stream cipher is opened, in order, up to the last
      record a key may be used for ([tls12_records_roundtrip]); which CBC records are accepted ([tls12_cbc_record_accepted]); padding and
      MAC checks that look at every byte compute what RFC 5246 says ([ssl3_cbc_remove_padding_rfc5246],
      [ssl3_cbc_digest_record_hmac]).
    - Extensions: a block is accepted exactly when no extension comes twice, every one is allowed in the message, and the
      parser of every one accepts ([tlsext_parse_accepts]).
    - Record buffers: an application's data reaches the peer once and in order whatever part of it the BIO takes, and a write that is repeated
      ends ([ssl3_write_completes]); a record of DTLS is delivered exactly when it is authentic, not too old and new
      ([dtls_replay_window_exact]); a queue is a finite map of which the least key comes first ([pqueue_refines_map]).
    - Keys and handshake: the secrets are those of RFC 8446 ([key_schedule_rfc8446]), derived in order
      ([key_schedule_stages]); a handshake completes only if the messages received and sent
      are, by their types, one of its sequences ([handshake_completes_legally]), and its driver ends ([handshake_perform_terminates]).
    - Transcript and keys of TLS up to 1.2: any sequence of transcript operations returns what the specification returns ([transcript_refines]), so the hash
      is that of the messages ([handshake_hash_of_messages]), also after a hello retry request ([synthetic_message_rfc8446]); Finished messages and keys
      are those of RFC 5246 ([tls1_finished_rfc5246], [tls1_keys_rfc5246]); exported keys never share a seed with them ([exporter_seed_separated]).
    - Versions: settings stay well-formed ([version_settings_wf]); the best version in common is negotiated
      ([ssl_max_shared_version_best]); when it is at least TLSv1.2, hello messages that were tampered with to get a lower one are
      refused, and hello messages that were not lead to it ([downgrade_is_detected]); of TLSv1.1 and before nothing is noticed
      ([tls11_downgrade_unnoticed]).
    - Cryptography: the limb and unrolled code computes the functions of the standards (RFC 8439, FIPS 180-4, RFC 2104,
      RFC 5869), each written as a definition of its own that does not share code with the model.
    - The composition ([chacha_records_end_to_end]): from a traffic secret to the bytes of the records and back, with no
      interface left open.
    - Data structures: [lhash_refines_map], [b64_roundtrip].
    - Big numbers: addition and subtraction ([BN_add_sub_exact]), multiplication and squaring ([BN_mul_sqr_exact]), division ([BN_div_exact]) and residues
      ([BN_mod_exact]) are exact, for every sign and size and whichever operands are the same number, or they fail for want of memory; temporary numbers of
      nested frames are never mixed up, whatever memory fails ([BN_CTX_frames_apart]).
    - Where the code does not do what it means to, a theorem says what it does: [nested_indefinite_unconverted], [not_ber_accepted],
      [tls12_cbc_record_accepted], [tls13_send_alert_terminates], [aead_seal_truncates], [realloc_failure_loses_items],
      [BN_mul_copy_failure_unnoticed], [BN_div_wrong_sign], [BN_div_negative_zero], [BN_rshift_negative_zero],
      [failed_record_is_hashed].

    ** Conventions

    A [w]-bit unsigned integer is a [Z] whose wrap-around is written out; [size_t] and [unsigned long] have 64 bits.  A byte
    array is a list of [Z]; a window into it is a list and what the source writes through a pointer is returned.  A function that
    can fail returns an [option], with the state it leaves behind on failure too where the source leaves one.  Code outside
    the repository (the socket callbacks, the allocator) is a class or an argument; so are parts of the repository behind
    a callback table, which an instance discharges where they are modelled.

    ** Fuel

    Loops that are not structural take fuel, and the theorems are about the fuel the definitions pass: the length of the input for
    the parsers and the block loops (each pass consumes at least one byte), and so of the stream of records; for the [do ... while (WANT_RETRY)] loops of the
    record layer and the loop of the handshake driver the theorems [tls13_send_alert_terminates] and
    [handshake_perform_terminates] show that two and sixteen passes are enough.  The loops that write a buffer are given a step for each byte left, since
    the BIO takes a byte or stops them.  Karatsuba's recursion halves arrays of fewer than 2^32 words, so 33 levels are enough; an
    estimated digit of a quotient is lowered at most three times in the division of words and two times in [BN_div]; shifting modulo a number takes at most
    as many passes as bits.  The loop of [tls1_P_hash] is given one pass more than there are bytes to write, and each pass writes one or more.

    ** Not modelled

    - The handlers of single handshake messages (tls13_client.c, tls13_server.c) beyond the version, the extensions and
      their composition: they depend on X.509, ASN.1 and public key code; the handshake driver sees them as an interface.
    - The handshakes of TLS up to 1.2 and DTLS (ssl_clnt.c, ssl_srvr.c, s3_lib.c, d1_both.c) beyond the transcript and t1_enc.c's key derivation, [ssl3_get_record] and [ssl3_read_bytes], which mix records
      with the handshake, libtls and the programs.
    - Exponentiation, greatest common divisors, primes and binary fields of big numbers; elliptic curves, RSA, DSA, DH, X.509, ASN.1 templates, ciphers and
      digests other than the ones above; generated tables and assembler.
    - [EVP_DigestSign] for keys other than HMAC's, and engines that implement them.
    - Functions that only release or wipe memory; constant-time behaviour.

    ** What comes next

    The reassembly of handshake messages of DTLS (d1_both.c); the handlers of the messages; modular exponentiation on the
    Montgomery reduction of Bn; stack.c. *)
From stdpp Require Export base numbers tactics gmap list.
#[global] Open Scope Z_scope.

(** * Machine integers

    A [w]-bit unsigned integer is a [Z] in [0, 2^w); the operations that can
    leave the range write their wrap-around out.  [size_t] is 64 bits wide. *)

Definition wrap8 (z : Z) : Z := z mod 2 ^ 8.
Definition wrap16 (z : Z) : Z := z mod 2 ^ 16.
Definition wrap32 (z : Z) : Z := z mod 2 ^ 32.
Definition wrap64 (z : Z) : Z := z mod 2 ^ 64.

Definition SIZE_MAX : Z := 2 ^ 64 - 1.
(** A [size_t] passed as an [int]. *)
Definition to_int (n : Z) : Z := let w := n mod 2 ^ 32 in if w <? 2 ^ 31 then w else w - 2 ^ 32.

(** [is_byte b]: [b] is the value of a [uint8_t]. *)
Definition is_byte (b : Z) : Prop := 0 <= b < 256.

(** The length of a byte array as a [size_t]. *)
Definition zlen {A} (l : list A) : Z := Z.of_nat (length l).
Definition ztake {A} (n : Z) (l : list A) : list A := take (Z.to_nat n) l.
Definition zdrop {A} (n : Z) (l : list A) : list A := drop (Z.to_nat n) l.
(** [l[i]], with 0 outside the array (callers are shown to stay inside). *)
Definition znth (l : list Z) (i : Z) : Z := nth (Z.to_nat i) l 0.
(** [memcpy(buf + off, bs, |bs|)] on an array. *)
Definition overwrite {A} (buf : list A) (off : Z) (bs : list A) : list A :=
  ztake off buf ++ bs ++ zdrop (off + zlen bs) buf.
(** [slice buf off n]: the [n] elements from [off]. *)
Definition slice {A} (buf : list A) (off n : Z) : list A := ztake n (zdrop off buf).
(** [n] zero bytes ([calloc], [memset(p, 0, n)]). *)
Definition zeros (n : Z) : list Z := replicate (Z.to_nat n) 0.

(** Equality of byte arrays ([memcmp(..) == 0] at equal lengths). *)
Definition bytes_eqb (a b : list Z) : bool := bool_decide (a = b).

(** * Big-endian integers *)

Fixpoint be_bytes (n : nat) (v : Z) : list Z :=
  match n with
  | O => []
  | S k => be_bytes k (v / 256) ++ [v mod 256]
  end.

Definition be_val (l : list Z) : Z := fold_left (fun acc b => acc * 256 + b) l 0.

(** * Functions that return 1 or 0 and update their arguments

    [M S A]: a C function that mutates an object of type [S]; [None] is
    [return 0], [Some a] is [return 1] with the output parameters [a].  The
    object is returned in both cases, so what a failing call leaves behind is
    part of the model. *)

Definition M (S A : Type) : Type := S -> option A * S.

#[global] Instance M_ret {S} : MRet (M S) := fun A a s => (Some a, s).
#[global] Instance M_bind {S} : MBind (M S) := fun A B f m s =>
  match m s with
  | (Some a, s') => f a s'
  | (None, s') => (None, s')
  end.
#[global] Instance M_fmap {S} : FMap (M S) := fun A B f m s =>
  match m s with
  | (Some a, s') => (Some (f a), s')
  | (None, s') => (None, s')
  end.

Definition fail {S A} : M S A := fun s => (None, s).
Definition getS {S} : M S S := fun s => (Some s, s).
Definition putS {S} (s : S) : M S unit := fun _ => (Some tt, s).
Definition modS {S} (f : S -> S) : M S unit := fun s => (Some tt, f s).
(** [if (!b) return 0;] *)
Definition check {S} (b : bool) : M S unit := fun s => (if b then Some tt else None, s).
(** Run a function on another object (a local copy); its final state is the result's. *)
Definition on {S T A} (m : M T A) (t : T) : M S (A * T) := fun s =>
  match m t with
  | (Some a, t') => (Some (a, t'), s)
  | (None, _) => (None, s)
  end.
(** Did the call return 1? *)
Definition succ {S A} (m : M S A) (s : S) : bool :=
  match m s with (Some _, _) => true | (None, _) => false end.

(** [State S A]: a C function that mutates an object of type [S] and returns an [A], such as
    the functions that return an [ssize_t]. *)
Definition State (S A : Type) : Type := S -> A * S.

#[global] Instance State_ret {S} : MRet (State S) := fun A a s => (a, s).
#[global] Instance State_bind {S} : MBind (State S) := fun A B f m s => let '(a, s') := m s in f a s'.

Definition get {S} : State S S := fun s => (s, s).
Definition modify {S} (f : S -> S) : State S unit := fun s => (tt, f s).
Definition gets {S A} (f : S -> A) : State S A := fun s => (f s, s).

(** * Generic lemmas *)

Create Rewrite HintDb zlist.
Create HintDb bytes.

Lemma to_int_id n : 0 <= n < 2 ^ 31 -> to_int n = n.
Proof. intros Hn. unfold to_int. rewrite Z.mod_small by lia. by rewrite (proj2 (Z.ltb_lt n (2 ^ 31))) by lia. Qed.
Lemma zlen_nil {A} : zlen (@nil A) = 0.
Proof. reflexivity. Qed.
Lemma zlen_cons {A} (x : A) l : zlen (x :: l) = 1 + zlen l.
Proof. unfold zlen. simpl. lia. Qed.
Lemma zlen_nonneg {A} (l : list A) : 0 <= zlen l.
Proof. unfold zlen. lia. Qed.
Lemma zlen_app {A} (l k : list A) : zlen (l ++ k) = zlen l + zlen k.
Proof. unfold zlen. rewrite length_app. lia. Qed.
Lemma zlen_replicate {A} n (x : A) : zlen (replicate n x) = Z.of_nat n.
Proof. unfold zlen. by rewrite length_replicate. Qed.
Lemma zlen_zeros n : 0 <= n -> zlen (zeros n) = n.
Proof. intros. unfold zeros. rewrite zlen_replicate. lia. Qed.
Lemma zlen_ztake {A} n (l : list A) : 0 <= n -> zlen (ztake n l) = Z.min n (zlen l).
Proof. intros. unfold zlen, ztake. rewrite length_take. lia. Qed.
Lemma zlen_zdrop {A} n (l : list A) : 0 <= n -> zlen (zdrop n l) = Z.max 0 (zlen l - n).
Proof. intros. unfold zlen, zdrop. rewrite length_drop. lia. Qed.
Lemma zlen_insert {A} i (x : A) l : zlen (<[i:=x]> l) = zlen l.
Proof. unfold zlen. by rewrite length_insert. Qed.
Lemma zlen_0_nil {A} (l : list A) : zlen l = 0 -> l = [].
Proof. unfold zlen. destruct l; simpl; [done | lia]. Qed.
Lemma zlen_be_bytes n v : zlen (be_bytes n v) = Z.of_nat n.
Proof.
  revert v. induction n as [|n IH]; intros v; [done|].
  cbn [be_bytes]. rewrite zlen_app, IH. unfold zlen. simpl. lia.
Qed.

#[export] Hint Rewrite @zlen_nil @zlen_cons @zlen_app @zlen_insert @zlen_replicate
  @zlen_be_bytes : zlist.
#[export] Hint Rewrite @zlen_ztake @zlen_zdrop zlen_zeros using lia : zlist.

(** [zl]: arithmetic on lengths of byte arrays. *)
Ltac zl_pose :=
  repeat match goal with
  | |- context [zlen ?l] =>
      lazymatch goal with H : 0 <= zlen l |- _ => fail | _ => pose proof (zlen_nonneg l) end
  | H0 : context [zlen ?l] |- _ =>
      lazymatch goal with H : 0 <= zlen l |- _ => fail | _ => pose proof (zlen_nonneg l) end
  end.
Ltac zl := zl_pose; autorewrite with zlist in *; zl_pose; lia.

Lemma ztake_nonpos {A} n (l : list A) : n <= 0 -> ztake n l = [].
Proof. intros. unfold ztake. by replace (Z.to_nat n) with 0%nat by lia. Qed.
Lemma zdrop_nonpos {A} n (l : list A) : n <= 0 -> zdrop n l = l.
Proof. intros. unfold zdrop. by replace (Z.to_nat n) with 0%nat by lia. Qed.
Lemma ztake_ge {A} n (l : list A) : zlen l <= n -> ztake n l = l.
Proof. unfold zlen, ztake. intros. apply take_ge. lia. Qed.
Lemma zdrop_ge {A} n (l : list A) : zlen l <= n -> zdrop n l = [].
Proof. unfold zlen, zdrop. intros. apply drop_ge. lia. Qed.
Lemma ztake_zdrop {A} n (l : list A) : ztake n l ++ zdrop n l = l.
Proof. apply take_drop. Qed.
Lemma ztake_app_l {A} n (l k : list A) : n <= zlen l -> ztake n (l ++ k) = ztake n l.
Proof. unfold zlen, ztake. intros. apply take_app_le. lia. Qed.
Lemma ztake_app_r {A} n (l k : list A) :
  zlen l <= n -> ztake n (l ++ k) = l ++ ztake (n - zlen l) k.
Proof.
  unfold zlen, ztake. intros. rewrite take_app_ge by lia.
  do 2 f_equal. lia.
Qed.
Lemma ztake_app_eq {A} n (l k : list A) : n = zlen l -> ztake n (l ++ k) = l.
Proof. intros ->. rewrite ztake_app_l by lia. by apply ztake_ge. Qed.
Lemma zdrop_app_eq {A} n (l k : list A) : n = zlen l -> zdrop n (l ++ k) = k.
Proof.
  intros ->. unfold zlen, zdrop. rewrite Nat2Z.id. apply drop_app_length.
Qed.
Lemma zdrop_app_r {A} n (l k : list A) :
  zlen l <= n -> zdrop n (l ++ k) = zdrop (n - zlen l) k.
Proof.
  unfold zlen, zdrop. intros. rewrite drop_app_ge by lia. f_equal. lia.
Qed.
Lemma zdrop_app_l {A} n (l k : list A) :
  n <= zlen l -> zdrop n (l ++ k) = zdrop n l ++ k.
Proof. unfold zlen, zdrop. intros. apply drop_app_le. lia. Qed.
Lemma zdrop_zdrop {A} m n (l : list A) :
  0 <= m -> 0 <= n -> zdrop n (zdrop m l) = zdrop (m + n) l.
Proof. intros. unfold zdrop. rewrite drop_drop. f_equal. lia. Qed.
Lemma ztake_ztake {A} m n (l : list A) : ztake n (ztake m l) = ztake (Z.min n m) l.
Proof. unfold ztake. rewrite take_take. f_equal. lia. Qed.
Lemma ztake_add {A} m n (l : list A) :
  0 <= m -> 0 <= n -> ztake (m + n) l = ztake m l ++ ztake n (zdrop m l).
Proof.
  intros. unfold ztake, zdrop. rewrite Z2Nat.inj_add by lia.
  rewrite take_add_app || rewrite <- take_take_drop. done.
Qed.

(** A split of an array at [n] bytes. *)
Lemma zsplit {A} n (l : list A) :
  0 <= n <= zlen l -> exists a b, l = a ++ b /\ zlen a = n /\ ztake n l = a /\ zdrop n l = b.
Proof.
  intros Hn. exists (ztake n l), (zdrop n l).
  rewrite ztake_zdrop. repeat split. rewrite zlen_ztake by lia. lia.
Qed.

Lemma overwrite_app {A} (a b c d : list A) off :
  off = zlen a -> zlen d = zlen b -> overwrite (a ++ b ++ c) off d = a ++ d ++ c.
Proof.
  intros -> Hl. unfold overwrite. rewrite ztake_app_eq by done.
  rewrite zdrop_app_r by zl. f_equal. f_equal. apply zdrop_app_eq. lia.
Qed.
Lemma zlen_overwrite {A} (buf : list A) off bs :
  0 <= off -> off + zlen bs <= zlen buf -> zlen (overwrite buf off bs) = zlen buf.
Proof. intros. unfold overwrite. zl. Qed.
Lemma insert_app_at {A} (a : list A) x y c i :
  i = length a -> <[i:=y]> (a ++ x :: c) = a ++ y :: c.
Proof. intros ->. by rewrite insert_app_r_alt, Nat.sub_diag by lia. Qed.

Lemma znth_app_at a x c i : i = zlen a -> znth (a ++ x :: c) i = x.
Proof.
  intros ->. unfold znth, zlen. rewrite Nat2Z.id, app_nth2, Nat.sub_diag by lia. done.
Qed.

(** Big-endian encoding and decoding. *)
Lemma be_val_app l k : be_val (l ++ k) = be_val l * 256 ^ zlen k + be_val k.
Proof.
  unfold be_val. rewrite fold_left_app.
  generalize (fold_left (fun acc b => acc * 256 + b) l 0) as a. clear l.
  induction k as [|x k IH] using rev_ind; intros a.
  - simpl. rewrite zlen_nil. lia.
  - rewrite (fold_left_app _ k [x] a), (fold_left_app _ k [x] 0). cbn [fold_left]. rewrite IH.
    autorewrite with zlist.
    replace (zlen k + (1 + 0)) with (Z.succ (zlen k)) by lia.
    rewrite Z.pow_succ_r by apply zlen_nonneg. ring.
Qed.
Lemma be_val_snoc l x : be_val (l ++ [x]) = be_val l * 256 + x.
Proof. rewrite be_val_app. unfold be_val at 2. cbn [fold_left]. autorewrite with zlist. lia. Qed.
Lemma be_val_bound l : Forall is_byte l -> 0 <= be_val l < 256 ^ zlen l.
Proof.
  induction l as [|x l IH] using rev_ind; intros H.
  - done.
  - apply Forall_app in H as [Hl Hx]. apply Forall_cons_1 in Hx as [Hx _].
    rewrite be_val_snoc. autorewrite with zlist.
    replace (zlen l + (1 + 0)) with (Z.succ (zlen l)) by lia.
    rewrite Z.pow_succ_r by apply zlen_nonneg.
    specialize (IH Hl). unfold is_byte in Hx.
    set (p := 256 ^ zlen l) in *. lia.
Qed.
Lemma be_val_be_bytes n v : 0 <= v -> be_val (be_bytes n v) = v mod 256 ^ Z.of_nat n.
Proof.
  revert v. induction n as [|n IH]; intros v Hv.
  - simpl. rewrite Z.mod_1_r. done.
  - cbn [be_bytes]. rewrite be_val_snoc, IH by (apply Z.div_pos; lia).
    rewrite Nat2Z.inj_succ, Z.pow_succ_r by lia.
    rewrite Z.rem_mul_r by lia. lia.
Qed.
Lemma be_bytes_be_val l : Forall is_byte l -> be_bytes (length l) (be_val l) = l.
Proof.
  induction l as [|x l IH] using rev_ind; intros H; [done|].
  apply Forall_app in H as [Hl Hx]. apply Forall_cons_1 in Hx as [Hx _]. unfold is_byte in Hx.
  rewrite length_app, Nat.add_1_r. cbn [be_bytes]. rewrite be_val_snoc.
  rewrite Z.div_add_l, (Z.div_small x), Z.add_0_r, IH by (done || lia).
  f_equal. f_equal. rewrite Z.add_comm, Z.mod_add by lia. apply Z.mod_small. lia.
Qed.
Lemma be_bytes_bytes n v : Forall is_byte (be_bytes n v).
Proof.
  revert v. induction n as [|n IH]; intros v; cbn [be_bytes]; [constructor|].
  apply Forall_app. split; [apply IH|]. apply Forall_singleton.
  unfold is_byte. apply Z.mod_pos_bound. lia.
Qed.
Lemma be_val_inj n v : 0 <= v < 256 ^ Z.of_nat n -> be_val (be_bytes n v) = v.
Proof. intros. rewrite be_val_be_bytes by lia. apply Z.mod_small. lia. Qed.

Lemma Forall_ztake {A} (P : A -> Prop) n l : Forall P l -> Forall P (ztake n l).
Proof. apply Forall_take. Qed.
Lemma Forall_zdrop {A} (P : A -> Prop) n l : Forall P l -> Forall P (zdrop n l).
Proof. apply Forall_drop. Qed.
Lemma Forall_zeros n : Forall is_byte (zeros n).
Proof. apply Forall_replicate. unfold is_byte. lia. Qed.
#[export] Hint Resolve be_bytes_bytes Forall_ztake Forall_zdrop Forall_zeros : bytes.

(** The monad's equations, as rewrite rules for symbolic execution. *)
Lemma bind_eq {S A B} (m : M S A) (f : A -> M S B) s :
  (m ≫= f) s = match m s with (Some a, s') => f a s' | (None, s') => (None, s') end.
Proof. reflexivity. Qed.
Lemma bind_some {S A B} (m : M S A) (f : A -> M S B) s a s' :
  m s = (Some a, s') -> (m ≫= f) s = f a s'.
Proof. intros H. rewrite bind_eq, H. done. Qed.
Lemma bind_none {S A B} (m : M S A) (f : A -> M S B) s s' :
  m s = (None, s') -> (m ≫= f) s = (None, s').
Proof. intros H. rewrite bind_eq, H. done. Qed.
Lemma bind_inv {S A B} (m : M S A) (f : A -> M S B) s b s' :
  (m ≫= f) s = (Some b, s') -> exists a s1, m s = (Some a, s1) /\ f a s1 = (Some b, s').
Proof.
  rewrite bind_eq. destruct (m s) as [[a|] s1]; intros H; [|done]. eauto.
Qed.

Lemma on_some {S T A} (m : M T A) t (s : S) a t' :
  m t = (Some a, t') -> on m t s = (Some (a, t'), s).
Proof. unfold on. by intros ->. Qed.
Lemma on_none {S T A} (m : M T A) t (s : S) t' :
  m t = (None, t') -> on m t s = (None, s).
Proof. unfold on. by intros ->. Qed.
Lemma on_inv {S T A} (m : M T A) t (s s' : S) p :
  on m t s = (Some p, s') -> m t = (Some p.1, p.2) /\ s' = s.
Proof. unfold on. destruct (m t) as [[a|] t']; [|done]. by intros [= <- <-]. Qed.

(** [mstep tac]: run the next call, which returns 1 by [tac]. *)
Tactic Notation "mstep" tactic3(tac) := erewrite bind_some by tac; cbv beta iota.

(** A decidable statement about every byte is checked on the 256 values. *)
Lemma byte_forall (P : Z -> bool) b :
  is_byte b -> forallb P (seqZ 0 256) = true -> P b = true.
Proof.
  unfold is_byte. intros Hb HP. rewrite forallb_forall in HP. apply HP.
  apply list_elem_of_In, elem_of_seqZ. lia.
Qed.
Lemma byte_land_80 b : is_byte b -> Z.land b 0x80 = if b <? 128 then 0 else 0x80.
Proof.
  intros Hb. apply Z.eqb_eq.
  apply (byte_forall (fun b => Z.land b 0x80 =? if b <? 128 then 0 else 0x80) b Hb).
  by vm_compute.
Qed.
Lemma byte_land_7f b : is_byte b -> Z.land b 0x7f = if b <? 128 then b else b - 128.
Proof.
  intros Hb. apply Z.eqb_eq.
  apply (byte_forall (fun b => Z.land b 0x7f =? if b <? 128 then b else b - 128) b Hb).
  by vm_compute.
Qed.

(** Concrete byte arrays are checked by evaluation. *)
Lemma bytes_ok l : forallb (fun b => (0 <=? b) && (b <? 256)) l = true -> Forall is_byte l.
Proof.
  intros Hl. apply Forall_forall. intros b Hb%list_elem_of_In. rewrite forallb_forall in Hl.
  specialize (Hl b Hb). unfold is_byte. lia.
Qed.

(** [decide_cmp]: settle the boolean comparisons of a goal that [lia] can decide. *)
Ltac decide_cmp :=
  repeat match goal with
  | |- context [?a <? ?b] =>
      first [rewrite (proj2 (Z.ltb_lt a b)) by lia | rewrite (proj2 (Z.ltb_ge a b)) by lia]
  | |- context [?a <=? ?b] =>
      first [rewrite (proj2 (Z.leb_le a b)) by lia | rewrite (proj2 (Z.leb_gt a b)) by lia]
  | |- context [?a =? ?b] =>
      first [rewrite (proj2 (Z.eqb_eq a b)) by lia | rewrite (proj2 (Z.eqb_neq a b)) by lia]
  end; cbn [andb orb negb].

(** * Outcomes

    [outcome r post err]: a call that returned 1 established [post] and one that
    returned 0 shows [err], the reason. *)
Definition outcome {S A} (r : option A * S) (post : A -> S -> Prop) (err : Prop) : Prop :=
  match r with (Some a, s) => post a s | (None, _) => err end.

Lemma outcome_bind {S A B} (m : M S A) (f : A -> M S B) s P Q (E E' : Prop) :
  outcome (m s) P E -> (E -> E') ->
  (forall a s', P a s' -> outcome (f a s') Q E') -> outcome ((m ≫= f) s) Q E'.
Proof.
  intros Hm HE Hf. rewrite bind_eq. destruct (m s) as [[a|] s1]; simpl in *; eauto.
Qed.
Lemma outcome_step {S A B} (m : M S A) (f : A -> M S B) s a s' Q E :
  m s = (Some a, s') -> outcome (f a s') Q E -> outcome ((m ≫= f) s) Q E.
Proof. intros Hm Hf. by rewrite (bind_some _ _ _ _ _ Hm). Qed.
Lemma outcome_ret {S A} (a : A) (s : S) (Q : A -> S -> Prop) E : Q a s -> outcome ((mret a : M S A) s) Q E.
Proof. done. Qed.
Lemma outcome_fail {S A} (s : S) (Q : A -> S -> Prop) (E : Prop) : E -> outcome ((fail : M S A) s) Q E.
Proof. done. Qed.
Lemma outcome_impl {S A} (r : option A * S) (P Q : A -> S -> Prop) (E E' : Prop) :
  outcome r P E -> (forall a s, P a s -> Q a s) -> (E -> E') -> outcome r Q E'.
Proof. destruct r as [[a|] s]; simpl; eauto. Qed.
