(* ===== verification/Compat.v ===== *)
(** * Portability routines of libcrypto (crypto/compat)

    The C library replacements the other components rely on: the constant-time
    comparisons, [recallocarray], [strnlen] and [strndup].  The allocator is the
    class [Allocator]: can a request of this many bytes be served, and the page size. *)
From S2P Require Import Prelude.

Definition CHAR_BIT : Z := 8.

(** ** timingsafe_memcmp *)

Fixpoint timingsafe_memcmp_loop (p1 p2 : list Z) (res done : Z) : Z :=
  match p1, p2 with
  | a :: p1', b :: p2' =>
      let lt := Z.shiftr (a - b) CHAR_BIT in
      let gt := Z.shiftr (b - a) CHAR_BIT in
      let cmp := lt - gt in
      let res := Z.lor res (Z.land cmp (Z.lnot done)) in
      let done := Z.lor done (Z.lor lt gt) in
      timingsafe_memcmp_loop p1' p2' res done
  | _, _ => res
  end.

Definition timingsafe_memcmp (b1 b2 : list Z) (len : Z) : Z :=
  timingsafe_memcmp_loop (ztake len b1) (ztake len b2) 0 0.

(** ** timingsafe_bcmp *)

Fixpoint timingsafe_bcmp_loop (p1 p2 : list Z) (ret : Z) : Z :=
  match p1, p2 with
  | a :: p1', b :: p2' => timingsafe_bcmp_loop p1' p2' (Z.lor ret (Z.lxor a b))
  | _, _ => ret
  end.

Definition timingsafe_bcmp (b1 b2 : list Z) (n : Z) : bool :=
  negb (timingsafe_bcmp_loop (ztake n b1) (ztake n b2) 0 =? 0).

(** ** strnlen and strndup *)

Fixpoint strnlen (str : list Z) (maxlen : nat) : Z :=
  match maxlen, str with
  | S m, c :: s => if c =? 0 then 0 else 1 + strnlen s m
  | _, _ => 0
  end.

Class Allocator := { malloc_ok : Z -> bool; getpagesize : Z }.

Section Allocation.
Context `{Allocator}.

(** The copy without its terminating NUL. *)
Definition strndup (str : list Z) (maxlen : Z) : option (list Z) :=
  let len := strnlen str (Z.to_nat maxlen) in
  if malloc_ok (len + 1) then Some (ztake len str) else None.

(** ** recallocarray

    [None] for [ptr] is NULL; the result is the new array, or [None] for NULL
    (then the old array is untouched). *)

Definition MUL_NO_OVERFLOW : Z := 2 ^ 32.

Definition recallocarray (ptr : option (list Z)) (oldnmemb newnmemb size : Z)
    : option (list Z) :=
  match ptr with
  | None => if malloc_ok (newnmemb * size) then Some (zeros (newnmemb * size)) else None
  | Some p =>
      if ((MUL_NO_OVERFLOW <=? newnmemb) || (MUL_NO_OVERFLOW <=? size)) &&
         (0 <? newnmemb) && (SIZE_MAX / newnmemb <? size) then None
      else
      let newsize := wrap64 (newnmemb * size) in
      if ((MUL_NO_OVERFLOW <=? oldnmemb) || (MUL_NO_OVERFLOW <=? size)) &&
         (0 <? oldnmemb) && (SIZE_MAX / oldnmemb <? size) then None
      else
      let oldsize := wrap64 (oldnmemb * size) in
      let d := oldsize - newsize in
      if (newsize <=? oldsize) && (d <? oldsize / 2) && (d <? getpagesize)
      then Some (ztake newsize p)
      else if malloc_ok newsize then
        if oldsize <? newsize
        then Some (ztake oldsize p ++ zeros (newsize - oldsize))
        else Some (ztake newsize p)
      else None
  end.

End Allocation.

(** An allocator that never fails, to run the models with. *)
Definition ample : Allocator := {| malloc_ok := fun _ => true; getpagesize := 4096 |}.

(** ** Reference definitions *)

(** The sign [memcmp] documents: the first differing byte decides. *)
Fixpoint memcmp_sign (p1 p2 : list Z) : Z :=
  match p1, p2 with
  | a :: p1', b :: p2' => if a =? b then memcmp_sign p1' p2' else if a <? b then -1 else 1
  | _, _ => 0
  end.

(** ** Lemmas *)

Lemma shiftr8_byte_diff a b :
  is_byte a -> is_byte b -> Z.shiftr (a - b) CHAR_BIT = if a <? b then -1 else 0.
Proof.
  unfold is_byte. intros Ha Hb. unfold CHAR_BIT. rewrite Z.shiftr_div_pow2 by lia.
  change (2 ^ 8) with 256.
  destruct (Z.ltb_spec a b).
  - symmetry. apply (Z.div_unique _ _ _ (a - b + 256)); lia.
  - apply Z.div_small. lia.
Qed.

Lemma memcmp_loop_done p1 p2 res :
  timingsafe_memcmp_loop p1 p2 res (-1) = res.
Proof.
  revert p2 res. induction p1 as [|a p1 IH]; intros [|b p2] res; try done.
  cbn [timingsafe_memcmp_loop].
  change (Z.lnot (-1)) with 0. rewrite Z.land_0_r, Z.lor_0_r, Z.lor_m1_l. apply IH.
Qed.

Lemma memcmp_loop_sign p1 p2 :
  Forall is_byte p1 -> Forall is_byte p2 ->
  timingsafe_memcmp_loop p1 p2 0 0 = memcmp_sign p1 p2.
Proof.
  revert p2. induction p1 as [|a p1 IH]; intros [|b p2] H1 H2; try done.
  apply Forall_cons_1 in H1 as [Ha H1]. apply Forall_cons_1 in H2 as [Hb H2].
  cbn [timingsafe_memcmp_loop memcmp_sign].
  rewrite !shiftr8_byte_diff by done.
  destruct (Z.eqb_spec a b) as [->|Hne].
  - rewrite Z.ltb_irrefl. simpl. by apply IH.
  - destruct (Z.ltb_spec a b), (Z.ltb_spec b a); try lia; simpl; apply memcmp_loop_done.
Qed.

Lemma memcmp_sign_eq p1 p2 :
  length p1 = length p2 -> memcmp_sign p1 p2 = 0 <-> p1 = p2.
Proof.
  revert p2. induction p1 as [|a p1 IH]; intros [|b p2]; cbn [length memcmp_sign]; try done.
  intros [= Hl]. destruct (Z.eqb_spec a b) as [->|Hne].
  - rewrite IH by done. split; [by intros ->|by intros [= ->]].
  - destruct (a <? b); split; (lia || congruence).
Qed.

(** [timingsafe_memcmp] decides equality of byte arrays: the form the callers use. *)
Lemma timingsafe_memcmp_eqb b1 b2 len :
  Forall is_byte b1 -> Forall is_byte b2 -> zlen b1 = len -> zlen b2 = len ->
  (timingsafe_memcmp b1 b2 len =? 0) = bytes_eqb b1 b2.
Proof.
  intros H1 H2 L1 L2. unfold timingsafe_memcmp, bytes_eqb.
  rewrite !ztake_ge by lia. rewrite memcmp_loop_sign by done.
  assert (Hl : length b1 = length b2) by (unfold zlen in *; lia).
  apply Bool.eq_iff_eq_true. rewrite Z.eqb_eq, bool_decide_eq_true.
  by apply memcmp_sign_eq.
Qed.

Lemma bcmp_loop_0 p1 p2 ret :
  0 <= ret -> Forall is_byte p1 -> Forall is_byte p2 -> length p1 = length p2 ->
  timingsafe_bcmp_loop p1 p2 ret = 0 <-> ret = 0 /\ p1 = p2.
Proof.
  revert p2 ret. induction p1 as [|a p1 IH]; intros [|b p2] ret Hr H1 H2 Hl; try done.
  { split; [done|by intros [-> _]]. }
  apply Forall_cons_1 in H1 as [Ha H1]. apply Forall_cons_1 in H2 as [Hb H2].
  unfold is_byte in Ha, Hb. injection Hl as Hl. cbn [timingsafe_bcmp_loop].
  rewrite IH; [|apply Z.lor_nonneg; split; [done|apply Z.lxor_nonneg; lia] | done..].
  rewrite Z.lor_eq_0_iff, Z.lxor_eq_0_iff.
  split; [by intros [[-> ->] ->]|by intros [-> [= -> ->]]].
Qed.

Lemma recallocarray_grow `{Allocator} p old new :
  zlen p = old -> old < new -> new <= SIZE_MAX ->
  recallocarray (Some p) old new 1 =
  if malloc_ok new then Some (p ++ zeros (new - old)) else None.
Proof.
  unfold SIZE_MAX. intros Hp Hlt Hmax. pose proof (zlen_nonneg p).
  assert (Hov : forall n, 0 < n <= 2 ^ 64 - 1 -> ((2 ^ 64 - 1) / n <? 1) = false).
  { intros n Hn. apply Z.ltb_ge. apply Z.div_le_lower_bound; lia. }
  unfold recallocarray, wrap64, SIZE_MAX.
  rewrite Hov by lia. rewrite andb_false_r.
  replace (_ && _ && _) with false.
  2: { destruct (Z.ltb_spec 0 old); [rewrite Hov by lia|]; by rewrite ?andb_false_r. }
  rewrite !Z.mul_1_r, !Z.mod_small by lia.
  rewrite (proj2 (Z.leb_gt new old)), (proj2 (Z.ltb_lt old new)) by lia.
  cbn [andb]. by rewrite ztake_ge by lia.
Qed.

(** The array that [recallocarray] returns has the new size and keeps the common prefix. *)
Lemma recallocarray_resize `{Allocator} p old new :
  zlen p = old -> old <= SIZE_MAX -> 0 <= new <= SIZE_MAX ->
  match recallocarray (Some p) old new 1 with
  | Some r => zlen r = new /\ forall k, k <= old -> k <= new -> ztake k r = ztake k p
  | None => malloc_ok new = false
  end.
Proof.
  unfold SIZE_MAX. intros Hp Hold Hnew. pose proof (zlen_nonneg p).
  assert (Hov : forall n, 0 < n <= 2 ^ 64 - 1 -> ((2 ^ 64 - 1) / n <? 1) = false).
  { intros n Hn. apply Z.ltb_ge. apply Z.div_le_lower_bound; lia. }
  assert (Hc : forall n b, 0 <= n <= 2 ^ 64 - 1 -> b && (0 <? n) && ((2 ^ 64 - 1) / n <? 1) = false).
  { intros n b Hn. destruct (Z.ltb_spec 0 n); [rewrite Hov by lia|]; by rewrite ?andb_false_r. }
  unfold recallocarray, wrap64, SIZE_MAX. rewrite !Hc by lia.
  rewrite !Z.mul_1_r, !Z.mod_small by lia. cbv zeta.
  assert (Htake : new <= old -> zlen (ztake new p) = new /\
    forall k, k <= old -> k <= new -> ztake k (ztake new p) = ztake k p).
  { intros Hle. split; [rewrite zlen_ztake by lia; lia|]. intros k _ Hk. rewrite ztake_ztake. f_equal. lia. }
  destruct ((new <=? old) && _ && _) eqn:E.
  { apply andb_true_iff in E as [E _]. apply andb_true_iff in E as [E _]. apply Htake. lia. }
  destruct (malloc_ok new); [|done].
  destruct (Z.ltb_spec old new); [|apply Htake; lia].
  rewrite ztake_ge by lia. split; [zl|]. intros k Hk _. by rewrite ztake_app_l by lia.
Qed.

(** ** Properties *)

(** The branch-free [timingsafe_memcmp] computes the sign that [memcmp] documents:
    the first differing byte decides, and 0 means equal. *)
Theorem timingsafe_memcmp_is_memcmp b1 b2 len :
  Forall is_byte b1 -> Forall is_byte b2 ->
  timingsafe_memcmp b1 b2 len = memcmp_sign (ztake len b1) (ztake len b2).
Proof. intros. apply memcmp_loop_sign; auto with bytes. Qed.

Lemma timingsafe_memcmp_is_memcmp_witness :
  timingsafe_memcmp [1; 2; 9] [1; 7; 3] 3 = -1 /\ memcmp_sign [1; 2; 9] [1; 7; 3] = -1.
Proof.
  split; [|reflexivity].
  rewrite (timingsafe_memcmp_is_memcmp [1; 2; 9] [1; 7; 3] 3) by (repeat constructor; lia).
  reflexivity.
Defined.
