(* ===== verification/Cbs.v ===== *)
(** * CBS, the bounds-checked byte string reader (ssl/bs_cbs.c)

    [cbs_data] is the window of bytes a CBS may read: the [cbs_len] bytes at its
    data pointer.  Advancing the pointer by [n] drops [n] bytes of the window.
    Functions that advance a CBS are in the monad [M CBS]: they return the
    reader they leave behind on failure too.  Output parameters are results, of
    the successful return only. *)
From S2P Require Import Prelude Compat.

(** ** The reader *)

Record CBS := mkCBS { cbs_data : list Z; cbs_initial_len : Z; cbs_len : Z }.

#[global] Instance CBS_eq_dec : EqDecision CBS.
Proof. solve_decision. Defined.

Definition CBS_init (data : list Z) (len : Z) : CBS := mkCBS data len len.

Definition CBS_data (cbs : CBS) : list Z := cbs_data cbs.
Definition CBS_len (cbs : CBS) : Z := cbs_len cbs.

Definition CBS_dup (cbs : CBS) : CBS :=
  let out := CBS_init (CBS_data cbs) (CBS_len cbs) in
  mkCBS (cbs_data out) (cbs_initial_len cbs) (cbs_len out).

Definition cbs_get (n : Z) : M CBS (list Z) := fun cbs =>
  if cbs_len cbs <? n then (None, cbs)
  else (Some (ztake n (cbs_data cbs)),
        mkCBS (zdrop n (cbs_data cbs)) (cbs_initial_len cbs) (cbs_len cbs - n)).

Definition CBS_offset (cbs : CBS) : Z := wrap64 (cbs_initial_len cbs - cbs_len cbs).

Definition CBS_skip (len : Z) : M CBS unit := _ ← cbs_get len; mret tt.

(** ** Copying out *)

Section Alloc.
Context `{Allocator}.

(** The copy ([None] for a NULL pointer) and its length. *)
Definition CBS_stow (cbs : CBS) : option (option (list Z) * Z) :=
  if cbs_len cbs =? 0 then Some (None, 0)
  else if malloc_ok (cbs_len cbs)
  then Some (Some (ztake (cbs_len cbs) (cbs_data cbs)), cbs_len cbs)
  else None.

Definition CBS_strdup (cbs : CBS) : option (list Z) :=
  strndup (cbs_data cbs) (cbs_len cbs).

End Alloc.

(** The destination array after the copy, and the number of bytes copied. *)
Definition CBS_write_bytes (cbs : CBS) (dst : list Z) (dst_len : Z) : option (list Z * Z) :=
  if dst_len <? cbs_len cbs then None
  else Some (overwrite dst 0 (ztake (cbs_len cbs) (cbs_data cbs)), cbs_len cbs).

Definition CBS_contains_zero_byte (cbs : CBS) : bool :=
  existsb (fun b => b =? 0) (ztake (cbs_len cbs) (cbs_data cbs)).

Definition CBS_mem_equal (cbs : CBS) (data : list Z) (len : Z) : bool :=
  if negb (len =? cbs_len cbs) then false
  else timingsafe_memcmp (cbs_data cbs) data len =? 0.

(** ** Integers *)

(** [result <<= 8; result |= data[i]] on a [uint32_t]. *)
Fixpoint cbs_get_u_loop (data : list Z) (result : Z) : Z :=
  match data with
  | [] => result
  | b :: data' => cbs_get_u_loop data' (Z.lor (wrap32 (Z.shiftl result 8)) b)
  end.

Definition cbs_get_u (len : Z) : M CBS Z :=
  if (len <? 1) || (4 <? len) then fail
  else data ← cbs_get len; mret (cbs_get_u_loop data 0).

Definition CBS_get_u8 : M CBS Z := v ← cbs_get 1; mret (znth v 0).
Definition CBS_get_u16 : M CBS Z := v ← cbs_get_u 2; mret (wrap16 v).
Definition CBS_get_u24 : M CBS Z := cbs_get_u 3.
Definition CBS_get_u32 : M CBS Z := cbs_get_u 4.

Definition CBS_get_bytes (len : Z) : M CBS CBS := v ← cbs_get len; mret (CBS_init v len).

Definition cbs_get_length_prefixed (len_len : Z) : M CBS CBS :=
  len ← cbs_get_u len_len; CBS_get_bytes len.

Definition CBS_get_u8_length_prefixed : M CBS CBS := cbs_get_length_prefixed 1.
Definition CBS_get_u16_length_prefixed : M CBS CBS := cbs_get_length_prefixed 2.
Definition CBS_get_u24_length_prefixed : M CBS CBS := cbs_get_length_prefixed 3.

(** ** ASN.1 *)

Definition CBS_ASN1_CONSTRUCTED : Z := 0x20.
Definition CBS_ASN1_BOOLEAN : Z := 0x1.
Definition CBS_ASN1_INTEGER : Z := 0x2.
Definition CBS_ASN1_OCTETSTRING : Z := 0x4.
Definition CBS_ASN1_SEQUENCE : Z := Z.lor CBS_ASN1_CONSTRUCTED 0x10.
Definition CBS_ASN1_SET : Z := Z.lor CBS_ASN1_CONSTRUCTED 0x11.

(** The element (header included), its tag and the length of its header. *)
Definition cbs_get_any_asn1_element_internal (strict : bool) : M CBS (CBS * Z * Z) :=
  header ← getS;
  '(tag, header) ← on CBS_get_u8 header;
  '(length_byte, header) ← on CBS_get_u8 header;
  if Z.land tag 0x1f =? 0x1f then fail
  else if Z.land length_byte 0x80 =? 0 then
    (* Short form length. *)
    let len := length_byte + 2 in
    out ← CBS_get_bytes len; mret (out, tag, 2)
  else
    (* Long form length. *)
    let num_bytes := Z.land length_byte 0x7f in
    if num_bytes =? 0x7f then fail
    else if num_bytes =? 0 then
      if strict then fail
      else if Z.land tag CBS_ASN1_CONSTRUCTED =? 0 then fail
      else out ← CBS_get_bytes 2; mret (out, tag, 2)
    else if 4 <? num_bytes then fail
    else
      '(len32, header) ← on (cbs_get_u num_bytes) header;
      if len32 <? 128 then fail
      else if Z.shiftr len32 ((num_bytes - 1) * 8) =? 0 then fail
      else if wrap64 (len32 + 2 + num_bytes) <? len32 then fail
      else
        let len := wrap64 (len32 + 2 + num_bytes) in
        out ← CBS_get_bytes len; mret (out, tag, 2 + num_bytes).

Definition CBS_get_any_asn1_element : M CBS (CBS * Z * Z) :=
  cbs_get_any_asn1_element_internal true.

Definition cbs_get_asn1 (tag_value : Z) (skip_header : bool) : M CBS CBS :=
  '(out, tag, header_len) ← CBS_get_any_asn1_element;
  if negb (tag =? tag_value) then fail
  else if skip_header then
    '(_, out) ← on (CBS_skip header_len) out; mret out
  else mret out.

Definition CBS_get_asn1 (tag_value : Z) : M CBS CBS := cbs_get_asn1 tag_value true.
Definition CBS_get_asn1_element (tag_value : Z) : M CBS CBS := cbs_get_asn1 tag_value false.

Definition CBS_peek_asn1_tag (cbs : CBS) (tag_value : Z) : bool :=
  if CBS_len cbs <? 1 then false
  else if Z.land tag_value 0x1f =? 0x1f then false
  else znth (CBS_data cbs) 0 =? tag_value.

Fixpoint asn1_uint64_loop (data : list Z) (out : Z) : option Z :=
  match data with
  | [] => Some out
  | b :: data' =>
      if negb (Z.shiftr out 56 =? 0) then None
      else asn1_uint64_loop data' (Z.lor (wrap64 (Z.shiftl out 8)) b)
  end.

Definition CBS_get_asn1_uint64 : M CBS Z :=
  bytes ← CBS_get_asn1 CBS_ASN1_INTEGER;
  let data := CBS_data bytes in
  let len := CBS_len bytes in
  if len =? 0 then fail
  else if negb (Z.land (znth data 0) 0x80 =? 0) then fail
  else if (znth data 0 =? 0) && (1 <? len) && (Z.land (znth data 1) 0x80 =? 0) then fail
  else match asn1_uint64_loop (ztake len data) 0 with
       | Some out => mret out
       | None => fail
       end.

(** The element's contents when it is present. *)
Definition CBS_get_optional_asn1 (tag : Z) : M CBS (option CBS) :=
  cbs ← getS;
  if CBS_peek_asn1_tag cbs tag then out ← CBS_get_asn1 tag; mret (Some out)
  else mret None.

Definition CBS_get_optional_asn1_octet_string (tag : Z) : M CBS (CBS * bool) :=
  present ← CBS_get_optional_asn1 tag;
  match present with
  | Some child =>
      '(out, child) ← on (CBS_get_asn1 CBS_ASN1_OCTETSTRING) child;
      if negb (CBS_len child =? 0) then fail else mret (out, true)
  | None => mret (CBS_init [] 0, false)
  end.

Definition CBS_get_optional_asn1_uint64 (tag default_value : Z) : M CBS Z :=
  present ← CBS_get_optional_asn1 tag;
  match present with
  | Some child =>
      '(out, child) ← on CBS_get_asn1_uint64 child;
      if negb (CBS_len child =? 0) then fail else mret out
  | None => mret default_value
  end.

Definition CBS_get_optional_asn1_bool (tag : Z) (default_value : Z) : M CBS Z :=
  present ← CBS_get_optional_asn1 tag;
  match present with
  | Some child =>
      '(child2, child) ← on (CBS_get_asn1 CBS_ASN1_BOOLEAN) child;
      if negb (CBS_len child2 =? 1) || negb (CBS_len child =? 0) then fail
      else
        let boolean := znth (CBS_data child2) 0 in
        if boolean =? 0 then mret 0
        else if boolean =? 0xff then mret 1
        else fail
  | None => mret default_value
  end.

(** ** Reference definitions *)

(** A reader over exactly the bytes [l], out of an input of [i] bytes. *)
Definition rd (i : Z) (l : list Z) : CBS := mkCBS l i (zlen l).

(** What a CBS is as long as only this file's functions change it. *)
Definition wf_cbs (c : CBS) : Prop :=
  cbs_len c = zlen (cbs_data c) /\ cbs_len c <= cbs_initial_len c <= SIZE_MAX /\
  Forall is_byte (cbs_data c).

(** DER, X.690 sections 8.1.3 and 10.1: the length octets and an element. *)
Definition der_len_len (L : Z) : nat :=
  if L <=? 0x7f then 0 else if L <=? 0xff then 1 else if L <=? 0xffff then 2
  else if L <=? 0xffffff then 3 else 4.

Definition der_len (L : Z) : list Z :=
  match der_len_len L with
  | O => [L]
  | n => (0x80 + Z.of_nat n) :: be_bytes n L
  end.

Definition der_element (tag : Z) (contents : list Z) : list Z :=
  (tag :: der_len (zlen contents)) ++ contents.

Definition valid_tag (tag : Z) : Prop := is_byte tag /\ Z.land tag 0x1f <> 0x1f.

(** X.690 section 8.3: the octets of a non-negative INTEGER, the fewest that
    leave the sign bit clear. *)
Definition der_uint_len (v : Z) : nat :=
  if v <? 2 ^ 7 then 1 else if v <? 2 ^ 15 then 2 else if v <? 2 ^ 23 then 3
  else if v <? 2 ^ 31 then 4 else if v <? 2 ^ 39 then 5 else if v <? 2 ^ 47 then 6
  else if v <? 2 ^ 55 then 7 else if v <? 2 ^ 63 then 8 else 9.

Definition der_uint64 (v : Z) : list Z :=
  der_element CBS_ASN1_INTEGER (be_bytes (der_uint_len v) v).

(** ** Lemmas *)

Lemma rd_wf i l : Forall is_byte l -> zlen l <= i <= SIZE_MAX -> wf_cbs (rd i l).
Proof. intros Hl Hi. repeat split; simpl; (done || lia). Qed.
Lemma wf_rd c : wf_cbs c -> exists l, c = rd (cbs_initial_len c) l /\ Forall is_byte l.
Proof. destruct c as [d i n]. intros (Hn & _ & Hb). exists d. simpl in *. by subst. Qed.

Lemma cbs_get_ok i a b n :
  n = zlen a -> cbs_get n (rd i (a ++ b)) = (Some a, rd i b).
Proof.
  intros ->. unfold cbs_get, rd. simpl. rewrite (proj2 (Z.ltb_ge _ _)) by zl.
  rewrite ztake_app_eq, zdrop_app_eq, zlen_app by done.
  do 2 f_equal. lia.
Qed.
Lemma cbs_get_short i l n : zlen l < n -> cbs_get n (rd i l) = (None, rd i l).
Proof. intros. unfold cbs_get. simpl. by rewrite (proj2 (Z.ltb_lt _ _)) by lia. Qed.
Lemma cbs_get_inv i l n a c :
  0 <= n -> cbs_get n (rd i l) = (Some a, c) ->
  exists b, l = a ++ b /\ zlen a = n /\ c = rd i b.
Proof.
  intros Hn. destruct (Z.ltb_spec (zlen l) n).
  { rewrite cbs_get_short by done. done. }
  destruct (zsplit n l) as (x & y & -> & Hx & _); [lia|].
  rewrite cbs_get_ok by done. intros [= <- <-]. eauto.
Qed.

Lemma lor_shiftl8 r b : 0 <= r -> is_byte b -> Z.lor (Z.shiftl r 8) b = r * 256 + b.
Proof.
  unfold is_byte. intros Hr Hb.
  assert (Hd : Z.land (Z.shiftl r 8) b = 0).
  { apply Z.bits_inj'. intros k Hk. rewrite Z.land_spec, Z.bits_0.
    destruct (Z.ltb_spec k 8); [by rewrite Z.shiftl_spec_low|].
    rewrite <- (Z.mod_small b (2 ^ 8)), Z.mod_pow2_bits_high by lia. apply andb_false_r. }
  rewrite <- Z.lxor_lor, <- Z.add_nocarry_lxor, Z.shiftl_mul_pow2 by (done || lia). done.
Qed.

Lemma be_val_cons b l : be_val (b :: l) = b * 256 ^ zlen l + be_val l.
Proof. change (b :: l) with ([b] ++ l). rewrite be_val_app. done. Qed.

Lemma cbs_get_u_loop_val data r :
  Forall is_byte data -> 0 <= r -> (r + 1) * 256 ^ zlen data <= 2 ^ 32 ->
  cbs_get_u_loop data r = r * 256 ^ zlen data + be_val data.
Proof.
  revert r. induction data as [|b data IH]; intros r Hb Hr Hle.
  { unfold be_val, zlen. simpl. lia. }
  apply Forall_cons_1 in Hb as [Hb Hd].
  autorewrite with zlist in Hle. rewrite Z.pow_add_r in Hle by zl.
  pose proof (Z.pow_pos_nonneg 256 (zlen data) ltac:(lia) (zlen_nonneg _)) as Hp.
  set (p := 256 ^ zlen data) in *.
  cbn [cbs_get_u_loop]. unfold wrap32.
  rewrite (Z.mod_small (Z.shiftl r 8)).
  2: { rewrite Z.shiftl_mul_pow2 by lia. change (2 ^ 8) with 256. nia. }
  rewrite lor_shiftl8 by done. pose proof Hb as Hb'. unfold is_byte in Hb'.
  rewrite IH; [|done|lia|nia].
  rewrite be_val_cons, zlen_cons, Z.pow_add_r by zl. fold p. lia.
Qed.

Lemma cbs_get_u_ok i a b n :
  n = zlen a -> 1 <= n <= 4 -> Forall is_byte a ->
  cbs_get_u n (rd i (a ++ b)) = (Some (be_val a), rd i b).
Proof.
  intros -> Hn Ha. unfold cbs_get_u.
  rewrite (proj2 (Z.ltb_ge _ 1)), (proj2 (Z.ltb_ge 4 _)) by lia. cbn [orb].
  erewrite bind_some by (by apply cbs_get_ok). unfold mret, M_ret.
  rewrite cbs_get_u_loop_val; [done|done|lia|].
  rewrite Z.add_0_l, Z.mul_1_l. change (2 ^ 32) with (256 ^ 4).
  apply Z.pow_le_mono_r; lia.
Qed.
Lemma cbs_get_u_inv i l n v c :
  Forall is_byte l -> cbs_get_u n (rd i l) = (Some v, c) ->
  exists a b, l = a ++ b /\ zlen a = n /\ 1 <= n <= 4 /\ v = be_val a /\ c = rd i b.
Proof.
  intros Hb. unfold cbs_get_u at 1.
  destruct (Z.ltb_spec n 1); [done|]. destruct (Z.ltb_spec 4 n); [done|]. cbn [orb].
  intros (a & s & Ha & Hr)%bind_inv.
  apply cbs_get_inv in Ha as (b & -> & Hl & ->); [|lia].
  injection Hr as <- <-. apply Forall_app in Hb as [Hb _].
  exists a, b. repeat split; try done; try lia.
  rewrite cbs_get_u_loop_val; [done|done|lia|].
  rewrite Z.add_0_l, Z.mul_1_l. change (2 ^ 32) with (256 ^ 4).
  apply Z.pow_le_mono_r; lia.
Qed.
Lemma cbs_get_u_state i l n :
  exists b, snd (cbs_get_u n (rd i l)) = rd i b /\ b `suffix_of` l.
Proof.
  unfold cbs_get_u. destruct (_ || _) eqn:E; [by exists l|].
  apply orb_false_iff in E as [E1 E2]. apply Z.ltb_ge in E1, E2.
  rewrite bind_eq. destruct (cbs_get n (rd i l)) as [[a|] c] eqn:Ec.
  - apply cbs_get_inv in Ec as (b & -> & _ & ->); [|lia]. exists b. split; [done|].
    by exists a.
  - exists l. unfold cbs_get in Ec. destruct (_ <? _); [|done]. by injection Ec as <-.
Qed.

Lemma CBS_get_u8_ok i b l : CBS_get_u8 (rd i (b :: l)) = (Some b, rd i l).
Proof.
  unfold CBS_get_u8. change (b :: l) with ([b] ++ l).
  erewrite bind_some by (by apply cbs_get_ok). done.
Qed.
Lemma CBS_get_u8_nil i : CBS_get_u8 (rd i []) = (None, rd i []).
Proof. reflexivity. Qed.
Lemma CBS_get_u16_ok i a b :
  zlen a = 2 -> Forall is_byte a -> CBS_get_u16 (rd i (a ++ b)) = (Some (be_val a), rd i b).
Proof.
  intros Hl Ha. unfold CBS_get_u16. erewrite bind_some by (apply cbs_get_u_ok; done || lia).
  unfold mret, M_ret, wrap16. rewrite Z.mod_small; [done|].
  pose proof (be_val_bound a Ha) as Hv. rewrite Hl in Hv. lia.
Qed.
Lemma CBS_get_bytes_ok i a b n :
  n = zlen a -> CBS_get_bytes n (rd i (a ++ b)) = (Some (rd n a), rd i b).
Proof.
  intros ->. unfold CBS_get_bytes. erewrite bind_some by (by apply cbs_get_ok). done.
Qed.
Lemma CBS_get_bytes_inv i l n out c :
  0 <= n -> CBS_get_bytes n (rd i l) = (Some out, c) ->
  exists a b, l = a ++ b /\ zlen a = n /\ out = rd n a /\ c = rd i b.
Proof.
  intros Hn (a & s & Ha & Hr)%bind_inv.
  apply cbs_get_inv in Ha as (b & -> & Hl & ->); [|lia].
  injection Hr as <- <-. exists a, b. unfold rd, CBS_init. by rewrite Hl.
Qed.
Lemma CBS_skip_ok i a b n : n = zlen a -> CBS_skip n (rd i (a ++ b)) = (Some tt, rd i b).
Proof. intros ->. unfold CBS_skip. by erewrite bind_some by (by apply cbs_get_ok). Qed.

(** *** DER elements *)

Lemma der_len_cases L :
  0 <= L < 2 ^ 32 ->
  (der_len L = [L] /\ L < 128) \/
  (exists n, der_len L = (0x80 + Z.of_nat n) :: be_bytes n L /\ 1 <= Z.of_nat n <= 4 /\
     128 <= L /\ 256 ^ (Z.of_nat n - 1) <= L < 256 ^ Z.of_nat n).
Proof.
  intros HL. unfold der_len, der_len_len.
  destruct (Z.leb_spec L 0x7f); [left; split; [done|lia]|right].
  destruct (Z.leb_spec L 0xff); [exists 1%nat; repeat split; lia|].
  destruct (Z.leb_spec L 0xffff); [exists 2%nat; repeat split; lia|].
  destruct (Z.leb_spec L 0xffffff); [exists 3%nat; repeat split; lia|].
  exists 4%nat. repeat split; lia.
Qed.
Lemma der_len_long n L :
  1 <= Z.of_nat n <= 4 -> 128 <= L -> 256 ^ (Z.of_nat n - 1) <= L < 256 ^ Z.of_nat n ->
  der_len L = (0x80 + Z.of_nat n) :: be_bytes n L.
Proof.
  intros Hn H128 HL. unfold der_len, der_len_len.
  destruct n as [|[|[|[|[|n]]]]]; try lia.
  all: change (Z.of_nat 1) with 1 in HL || change (Z.of_nat 2) with 2 in HL
    || change (Z.of_nat 3) with 3 in HL || change (Z.of_nat 4) with 4 in HL.
  all: decide_cmp; done.
Qed.
Lemma der_len_bytes L : 0 <= L < 2 ^ 32 -> Forall is_byte (der_len L).
Proof.
  intros HL. destruct (der_len_cases L HL) as [[-> ?]|(n & -> & ? & _)].
  - repeat constructor; lia.
  - constructor; [unfold is_byte; lia|apply be_bytes_bytes].
Qed.
Lemma zlen_der_len L : 0 <= L < 2 ^ 32 -> 1 <= zlen (der_len L) <= 5.
Proof. intros HL. destruct (der_len_cases L HL) as [[-> ?]|(n & -> & ? & _)]; zl. Qed.
Lemma zlen_der_element t c :
  zlen (der_element t c) = 1 + zlen (der_len (zlen c)) + zlen c.
Proof. unfold der_element. zl. Qed.
Lemma der_element_bytes t c :
  is_byte t -> zlen c < 2 ^ 32 -> Forall is_byte c -> Forall is_byte (der_element t c).
Proof.
  intros Ht Hc Hb. constructor; [done|]. apply Forall_app. split; [|done].
  apply der_len_bytes. zl.
Qed.

Lemma any_asn1_element_complete strict i t c rest :
  valid_tag t -> Forall is_byte c -> zlen c < 2 ^ 32 ->
  let e := der_element t c in
  cbs_get_any_asn1_element_internal strict (rd i (e ++ rest)) =
  (Some (rd (zlen e) e, t, zlen e - zlen c), rd i rest).
Proof.
  intros [Ht Ht5] Hc Hlen e. pose proof (zlen_nonneg c).
  assert (He : zlen e = 1 + zlen (der_len (zlen c)) + zlen c) by apply zlen_der_element.
  unfold cbs_get_any_asn1_element_internal.
  mstep reflexivity.
  destruct (der_len_cases (zlen c)) as [[Hd Hs]|(n & Hd & Hn & H128 & HL)]; [lia| |].
  - assert (Hshape : e ++ rest = t :: zlen c :: c ++ rest).
    { unfold e, der_element. rewrite Hd. done. }
    rewrite Hd in He. rewrite Hshape at 1 2.
    mstep (apply on_some, CBS_get_u8_ok).
    mstep (apply on_some, CBS_get_u8_ok).
    rewrite (proj2 (Z.eqb_neq _ _) Ht5), byte_land_80 by (unfold is_byte; lia).
    decide_cmp. rewrite <- Hshape.
    mstep (apply CBS_get_bytes_ok; zl).
    unfold mret, M_ret. replace (zlen c + 2) with (zlen e) by zl. repeat f_equal. zl.
  - assert (Hshape : e ++ rest = t :: (0x80 + Z.of_nat n) :: be_bytes n (zlen c) ++ c ++ rest).
    { unfold e, der_element. rewrite Hd. cbn [app]. by rewrite <- !app_assoc. }
    rewrite Hd in He. rewrite Hshape at 1 2.
    mstep (apply on_some, CBS_get_u8_ok).
    mstep (apply on_some, CBS_get_u8_ok).
    rewrite (proj2 (Z.eqb_neq _ _) Ht5), byte_land_80, byte_land_7f by (unfold is_byte; lia).
    decide_cmp. replace (0x80 + Z.of_nat n - 128) with (Z.of_nat n) by lia. decide_cmp.
    mstep (apply on_some, cbs_get_u_ok; [zl|lia|apply be_bytes_bytes]).
    rewrite be_val_inj by lia.
    rewrite Z.shiftr_div_pow2 by lia.
    replace (2 ^ ((Z.of_nat n - 1) * 8)) with (256 ^ (Z.of_nat n - 1)).
    2: { change 256 with (2 ^ 8). rewrite <- Z.pow_mul_r by lia. f_equal. lia. }
    assert (0 < zlen c / 256 ^ (Z.of_nat n - 1)).
    { apply Z.div_str_pos. split; [apply Z.pow_pos_nonneg|]; lia. }
    unfold wrap64. rewrite Z.mod_small by lia. decide_cmp. rewrite <- Hshape.
    mstep (apply CBS_get_bytes_ok; zl).
    unfold mret, M_ret. replace (zlen c + 2 + Z.of_nat n) with (zlen e) by zl.
    repeat f_equal. zl.
Qed.

Lemma CBS_get_u8_inv i l b c :
  CBS_get_u8 (rd i l) = (Some b, c) -> exists r, l = b :: r /\ c = rd i r.
Proof.
  destruct l as [|x l]; [by rewrite CBS_get_u8_nil|].
  rewrite CBS_get_u8_ok. intros [= <- <-]. eauto.
Qed.

(** The octets the long-form checks let through are the shortest ones. *)
Lemma der_element_long t a k n :
  Forall is_byte a -> zlen a = n -> 1 <= n <= 4 -> 128 <= be_val a ->
  Z.shiftr (be_val a) ((n - 1) * 8) <> 0 -> zlen k = be_val a ->
  der_element t k = t :: (0x80 + n) :: a ++ k.
Proof.
  intros Ha Hn Hr H128 Hmin Hk. pose proof (be_val_bound a Ha) as Hv.
  assert (Hlow : 256 ^ (n - 1) <= be_val a).
  { rewrite Z.shiftr_div_pow2 in Hmin by lia.
    replace (2 ^ ((n - 1) * 8)) with (256 ^ (n - 1)) in Hmin.
    2: { change 256 with (2 ^ 8). rewrite <- Z.pow_mul_r by lia. f_equal. lia. }
    apply Z.nlt_ge. intros ?. apply Hmin, Z.div_small. lia. }
  assert (Hla : Z.of_nat (length a) = n) by done.
  unfold der_element. rewrite Hk, (der_len_long (length a)) by (rewrite ?Hla; subst; lia).
  by rewrite be_bytes_be_val, Hla by done.
Qed.

Lemma any_asn1_element_sound strict i l out t h c' :
  Forall is_byte l ->
  cbs_get_any_asn1_element_internal strict (rd i l) = (Some (out, t, h), c') ->
  (exists c rest, let e := der_element t c in
     l = e ++ rest /\ valid_tag t /\ zlen c < 2 ^ 32 /\ out = rd (zlen e) e /\
     h = zlen e - zlen c /\ c' = rd i rest) \/
  (strict = false /\ valid_tag t /\ Z.land t CBS_ASN1_CONSTRUCTED <> 0 /\
   exists rest, l = t :: 0x80 :: rest /\ out = rd 2 [t; 0x80] /\ h = 2 /\ c' = rd i rest).
Proof.
  intros Hb. unfold cbs_get_any_asn1_element_internal.
  erewrite bind_some by reflexivity.
  intros ((t' & h1) & s1 & [H1 ->]%on_inv & HH)%bind_inv. cbn [fst snd] in H1.
  apply CBS_get_u8_inv in H1 as (l1 & -> & ->). cbv beta iota in HH.
  apply bind_inv in HH as ((lb & h2) & s2 & [H2 ->]%on_inv & HH). cbn [fst snd] in H2.
  apply CBS_get_u8_inv in H2 as (l2 & -> & ->). cbv beta iota in HH.
  apply Forall_cons_1 in Hb as [Ht' Hb]. apply Forall_cons_1 in Hb as [Hlb Hb].
  destruct (Z.eqb_spec (Z.land t' 0x1f) 0x1f) as [|Ht5]; [done|].
  rewrite byte_land_80, byte_land_7f in HH by done. unfold is_byte in Hlb.
  destruct (Z.ltb_spec lb 128) as [Hs|Hs].
  - (* short form *)
    cbv beta iota in HH. apply bind_inv in HH as (o & s3 & Ho & HH).
    apply CBS_get_bytes_inv in Ho as (a & rest & Hl & Hal & -> & ->); [|lia].
    injection HH as <- <- <- <-. left.
    destruct a as [|x [|y a]]; try (autorewrite with zlist in Hal; lia).
    cbn [app] in Hl. injection Hl as <- <- ->. exists a, rest.
    assert (Hla : zlen a = lb) by zl.
    assert (He : der_element t' a = t' :: lb :: a).
    { unfold der_element, der_len, der_len_len. rewrite Hla. by decide_cmp. }
    rewrite !He. do 5 (split; [first [done | by split | zl | f_equal; zl]|]). done.
  - (* long form *)
    change (0x80 =? 0) with false in HH. cbv beta iota in HH.
    destruct (Z.eqb_spec (lb - 128) 0x7f); [done|].
    destruct (Z.eqb_spec (lb - 128) 0) as [H0|H0].
    { (* indefinite *)
      destruct strict; [done|]. destruct (Z.eqb_spec (Z.land t' CBS_ASN1_CONSTRUCTED) 0); [done|].
      apply bind_inv in HH as (o & s3 & Ho & HH).
      assert (lb = 0x80) as -> by lia.
      change (t' :: 0x80 :: l2) with ([t'; 0x80] ++ l2) in Ho.
      rewrite CBS_get_bytes_ok in Ho by done. injection Ho as <- <-.
      injection HH as <- <- <- <-. right. do 3 (split; [done || by split|]). eauto. }
    destruct (Z.ltb_spec 4 (lb - 128)); [done|].
    apply bind_inv in HH as ((len32 & h3) & s3 & [H3 ->]%on_inv & HH). cbn [fst snd] in H3.
    apply cbs_get_u_inv in H3 as (a & b & -> & Ha & Hn & -> & ->); [|done].
    cbv beta iota in HH. apply Forall_app in Hb as [Hba Hbb].
    destruct (Z.ltb_spec (be_val a) 128) as [|H128]; [done|].
    destruct (Z.eqb_spec (Z.shiftr (be_val a) ((lb - 128 - 1) * 8)) 0) as [|Hmin]; [done|].
    destruct (Z.ltb_spec (wrap64 (be_val a + 2 + (lb - 128))) (be_val a)); [done|].
    apply bind_inv in HH as (o & s3 & Ho & HH).
    pose proof (be_val_bound a Hba) as Hv. rewrite Ha in Hv.
    assert (Hv32 : be_val a < 2 ^ 32).
    { eapply Z.lt_le_trans; [apply Hv|]. change (2 ^ 32) with (256 ^ 4).
      apply Z.pow_le_mono_r; lia. }
    unfold wrap64 in *. rewrite Z.mod_small in * by lia.
    apply CBS_get_bytes_inv in Ho as (e & rest & Hl & Hel & -> & ->); [|lia].
    injection HH as <- <- <- <-. left.
    destruct e as [|x [|y e]]; try (autorewrite with zlist in Hel; lia).
    cbn [app] in Hl. injection Hl as <- <- Hl.
    apply app_eq_inv in Hl as [(k & Hae & _)|(k & -> & ->)].
    { exfalso. rewrite Hae in Ha. zl. }
    exists k, rest. autorewrite with zlist in Hel.
    assert (Hlk : zlen k = be_val a) by zl.
    assert (He : der_element t' k = t' :: lb :: a ++ k).
    { rewrite (der_element_long _ a k (lb - 128)) by (done || lia). do 2 f_equal. lia. }
    rewrite !He. split; [cbn [app]; by rewrite <- app_assoc|].
    do 4 (split; [first [done | by split | zl | f_equal; zl]|]). done.
Qed.

Lemma CBS_get_asn1_complete i t c rest :
  valid_tag t -> Forall is_byte c -> zlen c < 2 ^ 32 ->
  CBS_get_asn1 t (rd i (der_element t c ++ rest)) =
  (Some (rd (zlen (der_element t c)) c), rd i rest).
Proof.
  intros Ht Hc Hl. unfold CBS_get_asn1, cbs_get_asn1, CBS_get_any_asn1_element.
  mstep (by apply any_asn1_element_complete).
  rewrite Z.eqb_refl. cbn [negb]. unfold der_element at 4.
  mstep (apply on_some, CBS_skip_ok; rewrite zlen_der_element; zl). done.
Qed.

Lemma CBS_get_asn1_sound i l t out c' :
  Forall is_byte l -> CBS_get_asn1 t (rd i l) = (Some out, c') ->
  exists c rest, l = der_element t c ++ rest /\ valid_tag t /\ zlen c < 2 ^ 32 /\
    out = rd (zlen (der_element t c)) c /\ c' = rd i rest.
Proof.
  intros Hb. unfold CBS_get_asn1, cbs_get_asn1, CBS_get_any_asn1_element.
  intros (((o & t') & h) & s1 & He & HH)%bind_inv. cbv beta iota in HH.
  apply any_asn1_element_sound in He as [(c & rest & -> & Ht & Hl & -> & -> & ->)|[? _]]; try done.
  destruct (Z.eqb_spec t' t) as [->|]; [|done]. cbn [negb] in HH.
  apply bind_inv in HH as ((u & o') & s2 & [Hs ->]%on_inv & HH). cbn [fst snd] in Hs.
  unfold der_element at 3 in Hs.
  rewrite CBS_skip_ok in Hs by (rewrite zlen_der_element; zl).
  injection Hs as _ <-. injection HH as <- <-. exists c, rest. done.
Qed.

(** *** Unsigned INTEGERs *)

Lemma asn1_uint64_loop_val data out :
  Forall is_byte data -> 0 <= out < 2 ^ 64 ->
  asn1_uint64_loop data out =
  let v := out * 256 ^ zlen data + be_val data in if v <? 2 ^ 64 then Some v else None.
Proof.
  revert out. induction data as [|b data IH]; intros out Hb Hout.
  { unfold be_val, zlen. cbn [asn1_uint64_loop fold_left length]. cbv zeta.
    change (256 ^ Z.of_nat 0) with 1. rewrite Z.mul_1_r, Z.add_0_r. by decide_cmp. }
  apply Forall_cons_1 in Hb as [Hb Hd]. cbn [asn1_uint64_loop]. cbv zeta.
  rewrite be_val_cons, zlen_cons, Z.pow_add_r by zl.
  pose proof (be_val_bound data Hd) as Hv.
  set (p := 256 ^ zlen data) in *. assert (0 < p) by lia.
  rewrite Z.shiftr_div_pow2 by lia. unfold is_byte in Hb.
  destruct (Z.eqb_spec (out / 2 ^ 56) 0) as [Hq|Hq]; cbn [negb].
  - assert (out < 2 ^ 56) by (apply Z.div_small_iff in Hq; lia).
    unfold wrap64. rewrite Z.mod_small.
    2: { rewrite Z.shiftl_mul_pow2 by lia. lia. }
    rewrite lor_shiftl8 by (done || lia). rewrite IH by (done || lia). cbv zeta. fold p.
    replace ((out * 256 + b) * p + be_val data) with (out * (256 ^ 1 * p) + (b * p + be_val data)) by lia.
    done.
  - assert (2 ^ 56 <= out).
    { apply Z.nlt_ge. intros ?. apply Hq, Z.div_small. lia. }
    rewrite (proj2 (Z.ltb_ge _ _)); [done|]. nia.
Qed.

Lemma der_uint_len_spec v n :
  0 <= v < 2 ^ 64 -> (1 <= n)%nat ->
  v < 128 * 256 ^ (Z.of_nat n - 1) -> (n = 1%nat \/ 128 * 256 ^ (Z.of_nat n - 2) <= v) ->
  der_uint_len v = n.
Proof.
  intros Hv Hn Hhi Hlo.
  assert (Hn9 : (n <= 9)%nat).
  { destruct Hlo as [->|Hlo]; [lia|]. apply Nat.nlt_ge. intros H9.
    assert (256 ^ 8 <= 256 ^ (Z.of_nat n - 2)) by (apply Z.pow_le_mono_r; lia). lia. }
  unfold der_uint_len.
  assert (Hc : (n = 1 \/ n = 2 \/ n = 3 \/ n = 4 \/ n = 5 \/ n = 6 \/ n = 7 \/ n = 8 \/ n = 9)%nat)
    by lia.
  destruct_or! Hc; subst n; simpl in Hhi, Hlo; (destruct Hlo as [Hlo|Hlo]; [try done|]);
    by decide_cmp.
Qed.
Lemma der_uint_len_bounds v :
  0 <= v < 2 ^ 64 -> let n := der_uint_len v in
  (1 <= n <= 9)%nat /\ v < 128 * 256 ^ (Z.of_nat n - 1) /\
  (n = 1%nat \/ 128 * 256 ^ (Z.of_nat n - 2) <= v).
Proof.
  intros Hv n. unfold n, der_uint_len.
  repeat match goal with |- context [v <? ?k] => destruct (Z.ltb_spec v k) end;
    (split; [lia|split; [simpl; lia|]]); first [by left | right; simpl; lia].
Qed.

(** The checks of [CBS_get_asn1_uint64] on the first octets say that the
    encoding is non-negative and minimal. *)
Lemma uint_checks_spec data :
  Forall is_byte data -> 0 < zlen data ->
  let n := zlen data in let v := be_val data in
  (Z.land (znth data 0) 0x80 = 0 <-> v < 128 * 256 ^ (n - 1)) /\
  ((znth data 0 =? 0) && (1 <? n) && (Z.land (znth data 1) 0x80 =? 0) = false <->
   n = 1 \/ 128 * 256 ^ (n - 2) <= v).
Proof.
  intros Hb Hl n v. destruct data as [|d0 data]; [done|].
  apply Forall_cons_1 in Hb as [H0 Hb]. unfold n, v in *. clear n v Hl.
  rewrite be_val_cons, zlen_cons. replace (1 + zlen data - 1) with (zlen data) by lia.
  pose proof (be_val_bound data Hb) as Hv. pose proof H0 as H0'. unfold is_byte in H0'.
  change (znth (d0 :: data) 0) with d0. rewrite byte_land_80 by done. split.
  { destruct (Z.ltb_spec d0 128); split; (done || nia). }
  destruct data as [|d1 data].
  { change (1 <? 1 + zlen []) with false. rewrite andb_false_r. cbn [andb].
    split; [by left|done]. }
  apply Forall_cons_1 in Hb as [H1 Hb]. change (znth (d0 :: d1 :: data) 1) with d1.
  rewrite be_val_cons in *. rewrite byte_land_80 by done. unfold is_byte in H1.
  pose proof (be_val_bound data Hb) as Hw.
  autorewrite with zlist in *. pose proof (zlen_nonneg data) as Hnn.
  replace (1 + (1 + zlen data) - 2) with (zlen data) by lia.
  rewrite Z.pow_add_r in * by lia. set (p := 256 ^ zlen data) in *.
  rewrite (proj2 (Z.ltb_lt 1 _)) by lia. rewrite andb_true_r.
  destruct (Z.eqb_spec d0 0) as [->|]; destruct (Z.ltb_spec d1 128); simpl;
    split; intros Hc; try done; try (destruct Hc; [lia|nia]); right; nia.
Qed.

Lemma CBS_get_asn1_uint64_complete i v rest :
  0 <= v < 2 ^ 64 ->
  CBS_get_asn1_uint64 (rd i (der_uint64 v ++ rest)) = (Some v, rd i rest).
Proof.
  intros Hv. unfold CBS_get_asn1_uint64, der_uint64.
  destruct (der_uint_len_bounds v Hv) as (Hn & Hhi & Hlo). set (n := der_uint_len v) in *.
  mstep (apply CBS_get_asn1_complete; [done|apply be_bytes_bytes|zl]).
  unfold CBS_len, CBS_data, rd. cbn [cbs_len cbs_data]. cbv zeta.
  destruct (uint_checks_spec (be_bytes n v)) as [Hsign Hmin]; [apply be_bytes_bytes|zl|].
  rewrite be_val_inj, zlen_be_bytes in *.
  2-3: split; [lia|]; eapply Z.lt_le_trans; [apply Hhi|];
    replace (Z.of_nat n) with (1 + (Z.of_nat n - 1)) at 2 by lia; rewrite Z.pow_add_r by lia; nia.
  rewrite (proj2 Hsign), (proj2 Hmin) by lia. decide_cmp.
  rewrite ztake_ge by zl. rewrite asn1_uint64_loop_val by (apply be_bytes_bytes || lia).
  rewrite be_val_inj, Z.mul_0_l, Z.add_0_l.
  2: { split; [lia|]; eapply Z.lt_le_trans; [apply Hhi|];
    replace (Z.of_nat n) with (1 + (Z.of_nat n - 1)) at 2 by lia; rewrite Z.pow_add_r by lia; nia. }
  cbv zeta. by rewrite (proj2 (Z.ltb_lt _ _)) by lia.
Qed.

Lemma CBS_get_asn1_uint64_sound i l v c' :
  Forall is_byte l -> CBS_get_asn1_uint64 (rd i l) = (Some v, c') ->
  0 <= v < 2 ^ 64 /\ exists rest, l = der_uint64 v ++ rest /\ c' = rd i rest.
Proof.
  intros Hb. unfold CBS_get_asn1_uint64.
  intros (o & s1 & Ho & HH)%bind_inv.
  apply CBS_get_asn1_sound in Ho as (c & rest & -> & _ & Hlc & -> & ->); [|done].
  apply Forall_app in Hb as [Hb _]. unfold der_element in Hb. apply Forall_app in Hb as [_ Hb].
  unfold CBS_len, CBS_data, rd in HH. cbn [cbs_len cbs_data] in HH. cbv zeta in HH.
  destruct (Z.eqb_spec (zlen c) 0); [done|]. pose proof (zlen_nonneg c).
  destruct (uint_checks_spec c) as [Hsign Hmin]; [done|lia|].
  destruct (Z.eqb_spec (Z.land (znth c 0) 0x80) 0) as [Hs|]; [|done]. cbn [negb] in HH.
  destruct (_ && _ && _) eqn:Hm; [done|].
  rewrite ztake_ge, asn1_uint64_loop_val in HH by (done || lia).
  rewrite Z.mul_0_l, Z.add_0_l in HH. cbv zeta in HH.
  destruct (Z.ltb_spec (be_val c) (2 ^ 64)); [|done]. injection HH as <- <-.
  pose proof (be_val_bound c Hb). split; [lia|]. exists rest. split; [|done].
  unfold der_uint64. rewrite (der_uint_len_spec _ (length c)).
  - by rewrite be_bytes_be_val.
  - lia.
  - unfold zlen in *. lia.
  - by apply Hsign.
  - destruct (proj1 Hmin eq_refl); [left; unfold zlen in *; lia|right; done].
Qed.

(** ** Memory safety of every sequence of calls

    [within L o]: the reader [o] covers a contiguous part of the input [L].
    [safe Q m]: run on a reader within [L], [m] leaves a reader within [L],
    whether it returns 1 or 0, and its results satisfy [Q L]. *)

Definition within (L : list Z) (o : CBS) : Prop :=
  exists j k, o = rd j k /\ zlen k <= j <= zlen L /\ exists a b, L = a ++ k ++ b.

Definition safe {A} (Q : list Z -> A -> Prop) (m : M CBS A) : Prop :=
  forall L c, Forall is_byte L -> within L c ->
    within L (snd (m c)) /\ forall a, fst (m c) = Some a -> Q L a.

Definition any {A} : list Z -> A -> Prop := fun _ _ => True.

Lemma within_bytes L o : Forall is_byte L -> within L o -> Forall is_byte (cbs_data o).
Proof. intros H (j & k & -> & _ & a & b & ->). rewrite !Forall_app in H. apply H. Qed.
(** Continuations are safe for the inputs [L] at which the bound result is good. *)
Definition safe_at {A} (Q : list Z -> A -> Prop) (L : list Z) (m : M CBS A) : Prop :=
  forall c, within L c -> within L (snd (m c)) /\ forall a, fst (m c) = Some a -> Q L a.

Lemma safe_intro {A} (Q : list Z -> A -> Prop) m :
  (forall L, Forall is_byte L -> safe_at Q L m) -> safe Q m.
Proof. intros H L c HL Hc. by apply H. Qed.
Lemma safe_at_ret {A} Q L (a : A) : Q L a -> safe_at Q L (mret a).
Proof. intros HQ c Hc. split; [done|]. by intros a' [= <-]. Qed.
Lemma safe_at_fail {A} (Q : list Z -> A -> Prop) L : safe_at Q L fail.
Proof. intros c Hc. by split. Qed.
Lemma safe_at_of {A} (Q : list Z -> A -> Prop) L m :
  Forall is_byte L -> safe Q m -> safe_at Q L m.
Proof. intros HL Hm c Hc. by apply Hm. Qed.
Lemma safe_at_bind {A B} (Q : list Z -> A -> Prop) (R : list Z -> B -> Prop) L m f :
  safe_at Q L m -> (forall a, Q L a -> safe_at R L (f a)) -> safe_at R L (m ≫= f).
Proof.
  intros Hm Hf c Hc. rewrite bind_eq. destruct (Hm c Hc) as [Hs Ha].
  destruct (m c) as [[a|] c1]; cbn [fst snd] in *; [|by split].
  apply Hf; eauto.
Qed.
Lemma safe_at_get L : safe_at within L getS.
Proof. intros c Hc. split; [done|]. by intros a [= <-]. Qed.
Lemma safe_at_on {A} (Q : list Z -> A -> Prop) L m t :
  Forall is_byte L -> safe Q m -> within L t ->
  safe_at (fun L p => Q L p.1 /\ within L p.2) L (on m t).
Proof.
  intros HL Hm Ht c Hc. unfold on. destruct (Hm L t HL Ht) as [Hs Ha].
  destruct (m t) as [[a|] t']; cbn [fst snd] in *; split; try done.
  intros p [= <-]. split; [by apply Ha|done].
Qed.

Create HintDb safe.
#[export] Hint Extern 1 (0 <= _) => lia : safe.
#[export] Hint Resolve safe_at_ret safe_at_fail safe_at_get safe_at_of : safe.
Ltac safe_if :=
  repeat match goal with
  | |- safe_at _ _ (if ?b then _ else _) => destruct b eqn:?
  | |- safe_at _ _ (match ?b with Some _ => _ | None => _ end) => destruct b eqn:?
  end.

Lemma cbs_get_safe n :
  0 <= n ->
  safe (fun L a => zlen a = n /\ Forall is_byte a /\ exists x y, L = x ++ a ++ y) (cbs_get n).
Proof.
  intros Hn L c HL (j & k & -> & Hl & a & b & ->).
  destruct (Z.ltb_spec (zlen k) n).
  { rewrite cbs_get_short by done. split; [|done]. exists j, k. eauto 10. }
  destruct (zsplit n k) as (x & y & -> & Hx & _); [lia|].
  rewrite cbs_get_ok by done. split.
  - exists j, y. split; [done|]. split; [zl|].
    exists (a ++ x), b. by rewrite <- !app_assoc.
  - intros z [= <-]. rewrite !Forall_app in HL. split; [done|]. split; [apply HL|].
    exists a, (y ++ b). by rewrite <- !app_assoc.
Qed.

Lemma CBS_skip_safe n : 0 <= n -> safe any (CBS_skip n).
Proof.
  intros Hn. apply safe_intro. intros L HL. eapply safe_at_bind.
  - apply safe_at_of, cbs_get_safe; done.
  - intros. by apply safe_at_ret.
Qed.
Lemma CBS_get_u8_safe : safe (fun _ b => is_byte b) CBS_get_u8.
Proof.
  apply safe_intro. intros L HL. eapply safe_at_bind; [apply safe_at_of, cbs_get_safe; done|].
  intros a (Hl & Ha & _). apply safe_at_ret.
  destruct a as [|b [|]]; [done| |zl]. by apply Forall_cons_1 in Ha as [? _].
Qed.
Lemma cbs_get_u_safe n : safe (fun _ v => 0 <= v < 2 ^ 32) (cbs_get_u n).
Proof.
  apply safe_intro. intros L HL.
  unfold cbs_get_u. destruct (_ || _) eqn:E; [by apply safe_at_fail|].
  apply orb_false_iff in E as [E1 E2]. apply Z.ltb_ge in E1, E2.
  eapply safe_at_bind.
  { apply safe_at_of, cbs_get_safe; (done || lia). }
  intros a (Hl & Ha & _). apply safe_at_ret.
  rewrite cbs_get_u_loop_val, Z.mul_0_l, Z.add_0_l; [|done|lia|].
  - pose proof (be_val_bound a Ha) as Hv. split; [lia|].
    eapply Z.lt_le_trans; [apply Hv|]. change (2 ^ 32) with (256 ^ 4).
    apply Z.pow_le_mono_r; lia.
  - rewrite Z.add_0_l, Z.mul_1_l. change (2 ^ 32) with (256 ^ 4). apply Z.pow_le_mono_r; lia.
Qed.
Lemma CBS_get_bytes_safe n : 0 <= n -> safe within (CBS_get_bytes n).
Proof.
  intros Hn. apply safe_intro. intros L HL. eapply safe_at_bind.
  { apply safe_at_of, cbs_get_safe; done. }
  intros a (Hl & Ha & x & y & ->). apply safe_at_ret. exists n, a.
  unfold rd. rewrite Hl. split; [done|]. split; [zl|]. eauto.
Qed.
#[export] Hint Resolve CBS_get_u8_safe cbs_get_u_safe CBS_get_bytes_safe CBS_skip_safe : safe.

Ltac safe_call H :=
  first [ eapply safe_at_bind; [apply safe_at_on; [done|solve [eauto with safe]|done]|]
        | eapply safe_at_bind; [apply safe_at_of; [done|solve [eauto with safe]]|]
        | eapply safe_at_bind; [apply safe_at_get|] ];
  intros H.

Lemma any_asn1_element_safe strict :
  safe (fun L p => within L p.1.1 /\ 2 <= p.2) (cbs_get_any_asn1_element_internal strict).
Proof.
  apply safe_intro. intros L HL. unfold cbs_get_any_asn1_element_internal.
  safe_call h. intros Hh. safe_call p. destruct p as [tag h1]. intros [Htag Hh1].
  safe_call p. destruct p as [lb h2]. intros [Hlb Hh2]. cbn [fst snd] in *.
  unfold is_byte in *. rewrite byte_land_7f, byte_land_80 by done.
  destruct (Z.ltb_spec lb 128); safe_if; try apply safe_at_fail.
  all: try (eapply safe_at_bind; [apply safe_at_of; [done|apply CBS_get_bytes_safe; lia]|];
    intros o Ho; by apply safe_at_ret).
  all: safe_call p; destruct p as [len32 h3]; intros [Hl32 Hh3]; cbn [fst snd] in *;
    safe_if; try apply safe_at_fail.
  all: eapply safe_at_bind;
    [apply safe_at_of; [done|apply CBS_get_bytes_safe; apply Z.mod_pos_bound; lia]|];
    intros o Ho; apply safe_at_ret; split; [done|cbn [fst snd]; lia].
Qed.
#[export] Hint Resolve any_asn1_element_safe : safe.

Lemma cbs_get_asn1_safe t skip : safe within (cbs_get_asn1 t skip).
Proof.
  apply safe_intro. intros L HL. unfold cbs_get_asn1, CBS_get_any_asn1_element.
  safe_call p. destruct p as [[o tg] h]. intros [Ho Hh]. cbn [fst snd] in *.
  safe_if; try apply safe_at_fail; [|by apply safe_at_ret].
  eapply safe_at_bind; [apply safe_at_on; [done|apply CBS_skip_safe; lia|done]|].
  intros [u o'] [_ Ho']. by apply safe_at_ret.
Qed.
#[export] Hint Resolve cbs_get_asn1_safe : safe.

Lemma CBS_get_asn1_uint64_safe : safe any CBS_get_asn1_uint64.
Proof.
  apply safe_intro. intros L HL. unfold CBS_get_asn1_uint64, CBS_get_asn1.
  safe_call o. intros Ho. safe_if; (apply safe_at_fail || by apply safe_at_ret).
Qed.
#[export] Hint Resolve CBS_get_asn1_uint64_safe : safe.

Definition opt_within (L : list Z) (o : option CBS) : Prop :=
  match o with Some c => within L c | None => True end.

Lemma CBS_get_optional_asn1_safe t : safe opt_within (CBS_get_optional_asn1 t).
Proof.
  apply safe_intro. intros L HL. unfold CBS_get_optional_asn1, CBS_get_asn1.
  safe_call c. intros Hc. safe_if; [|by apply safe_at_ret].
  safe_call o. intros Ho. by apply safe_at_ret.
Qed.
#[export] Hint Resolve CBS_get_optional_asn1_safe : safe.

Lemma CBS_get_optional_asn1_octet_string_safe t :
  safe (fun L p => snd p = true -> within L p.1) (CBS_get_optional_asn1_octet_string t).
Proof.
  apply safe_intro. intros L HL. unfold CBS_get_optional_asn1_octet_string, CBS_get_asn1.
  safe_call o. intros Ho. destruct o as [child|]; [|by apply safe_at_ret].
  safe_call p. destruct p as [o c1]. intros [Hoo Hc]. safe_if; [apply safe_at_fail|].
  by apply safe_at_ret.
Qed.
Lemma CBS_get_optional_asn1_uint64_safe t d : safe any (CBS_get_optional_asn1_uint64 t d).
Proof.
  apply safe_intro. intros L HL. unfold CBS_get_optional_asn1_uint64.
  safe_call o. intros Ho. destruct o as [child|]; [|by apply safe_at_ret].
  safe_call p. destruct p as [o c1]. intros [Hoo Hc]. safe_if; [apply safe_at_fail|].
  by apply safe_at_ret.
Qed.
Lemma CBS_get_optional_asn1_bool_safe t d : safe any (CBS_get_optional_asn1_bool t d).
Proof.
  apply safe_intro. intros L HL. unfold CBS_get_optional_asn1_bool, CBS_get_asn1.
  safe_call o. intros Ho. destruct o as [child|]; [|by apply safe_at_ret].
  safe_call p. destruct p as [o c1]. intros [Hoo Hc].
  safe_if; (apply safe_at_fail || by apply safe_at_ret).
Qed.
Lemma cbs_get_length_prefixed_safe n : safe within (cbs_get_length_prefixed n).
Proof.
  apply safe_intro. intros L HL. unfold cbs_get_length_prefixed.
  safe_call v. intros Hv. cbv beta in Hv. apply safe_at_of; [done|].
  apply CBS_get_bytes_safe. lia.
Qed.
Lemma CBS_get_u16_safe : safe any CBS_get_u16.
Proof.
  apply safe_intro. intros L HL. unfold CBS_get_u16. safe_call v. intros Hv. by apply safe_at_ret.
Qed.
#[export] Hint Resolve CBS_get_optional_asn1_octet_string_safe CBS_get_u16_safe
  CBS_get_optional_asn1_uint64_safe CBS_get_optional_asn1_bool_safe
  cbs_get_length_prefixed_safe : safe.

(** The calls a client can make on a reader, with the readers they hand out. *)
Inductive cbs_call :=
  | CallSkip (len : N) | CallU8 | CallU16 | CallU24 | CallU32 | CallBytes (len : N)
  | CallU8LengthPrefixed | CallU16LengthPrefixed | CallU24LengthPrefixed
  | CallAnyElement | CallAnyElementNonStrict
  | CallAsn1 (tag : Z) | CallAsn1Element (tag : Z) | CallAsn1Uint64
  | CallOptionalAsn1 (tag : Z) | CallOptionalOctetString (tag : Z)
  | CallOptionalUint64 (tag dflt : Z) | CallOptionalBool (tag dflt : Z).

Definition cbs_exec (call : cbs_call) : M CBS (list CBS) :=
  match call with
  | CallSkip n => (fun _ => []) <$> CBS_skip (Z.of_N n)
  | CallU8 => (fun _ => []) <$> CBS_get_u8
  | CallU16 => (fun _ => []) <$> CBS_get_u16
  | CallU24 => (fun _ => []) <$> CBS_get_u24
  | CallU32 => (fun _ => []) <$> CBS_get_u32
  | CallBytes n => (fun o => [o]) <$> CBS_get_bytes (Z.of_N n)
  | CallU8LengthPrefixed => (fun o => [o]) <$> CBS_get_u8_length_prefixed
  | CallU16LengthPrefixed => (fun o => [o]) <$> CBS_get_u16_length_prefixed
  | CallU24LengthPrefixed => (fun o => [o]) <$> CBS_get_u24_length_prefixed
  | CallAnyElement => (fun p : CBS * Z * Z => [p.1.1]) <$> CBS_get_any_asn1_element
  | CallAnyElementNonStrict => (fun p : CBS * Z * Z => [p.1.1]) <$> cbs_get_any_asn1_element_internal false
  | CallAsn1 t => (fun o => [o]) <$> CBS_get_asn1 t
  | CallAsn1Element t => (fun o => [o]) <$> CBS_get_asn1_element t
  | CallAsn1Uint64 => (fun _ => []) <$> CBS_get_asn1_uint64
  | CallOptionalAsn1 t => option_list <$> CBS_get_optional_asn1 t
  | CallOptionalOctetString t =>
      (fun p : CBS * bool => if snd p then [p.1] else []) <$> CBS_get_optional_asn1_octet_string t
  | CallOptionalUint64 t d => (fun _ => []) <$> CBS_get_optional_asn1_uint64 t d
  | CallOptionalBool t d => (fun _ => []) <$> CBS_get_optional_asn1_bool t d
  end.

(** The readers a client can hold after any calls on a reader over [L]. *)
Inductive reader_of (L : list Z) : CBS -> Prop :=
  | reader_init : reader_of L (CBS_init L (zlen L))
  | reader_dup c : reader_of L c -> reader_of L (CBS_dup c)
  | reader_self c call : reader_of L c -> reader_of L (snd (cbs_exec call c))
  | reader_child c call outs o :
      reader_of L c -> fst (cbs_exec call c) = Some outs -> o ∈ outs -> reader_of L o.

Lemma safe_fmap {A B} (Q : list Z -> A -> Prop) (R : list Z -> B -> Prop) (f : A -> B) m :
  safe Q m -> (forall L a, Q L a -> R L (f a)) -> safe R (f <$> m).
Proof.
  intros Hm HQ L c HL Hc. destruct (Hm L c HL Hc) as [Hs Ha].
  change ((f <$> m) c) with
    (match m c with (Some a, s') => (Some (f a), s') | (None, s') => (None, s') end).
  destruct (m c) as [[a|] c1]; cbn [fst snd] in *; split; try done.
  intros b [= <-]. eauto.
Qed.

Lemma cbs_exec_safe call : safe (fun L outs => Forall (within L) outs) (cbs_exec call).
Proof.
  destruct call; cbn [cbs_exec]; (eapply safe_fmap; [solve [eauto with safe]|]);
    intros L a Ha; cbv beta in Ha.
  all: try by repeat constructor.
  all: try by (repeat constructor; apply Ha).
  - destruct a; by repeat constructor.
  - destruct (snd a); repeat constructor. by apply Ha.
Qed.

(** ** Properties *)

(** C2: Whatever calls a client makes on a reader over an input buffer, and on the
    readers those calls hand out (successful or not), every reader it can then hold
    covers a contiguous part of the input, with its length field equal to the bytes
    it covers: no call sequence reads outside the input. *)
Theorem cbs_reader_safe L o :
  Forall is_byte L -> zlen L <= SIZE_MAX -> reader_of L o ->
  wf_cbs o /\ exists a b, L = a ++ cbs_data o ++ b.
Proof.
  intros HL Hmax Ho. assert (Hw : within L o).
  { induction Ho as [|c _ IH|c call _ IH|c call outs o _ IH Hx Hin].
    - exists (zlen L), L. repeat split; try lia. exists [], []. by rewrite app_nil_r.
    - destruct IH as (j & k & -> & Hl & Hk). by exists j, k.
    - by apply cbs_exec_safe.
    - destruct (cbs_exec_safe call L c HL IH) as [_ Hq].
      specialize (Hq _ Hx). rewrite Forall_forall in Hq. by apply Hq. }
  pose proof (within_bytes _ _ HL Hw). destruct Hw as (j & k & -> & Hl & Hk).
  split; [|done]. apply rd_wf; [done|]. simpl in *. lia.
Qed.

Lemma cbs_reader_safe_witness :
  wf_cbs (rd 3 [0x07]) /\ exists a b, [0x02; 0x01; 0x07] = a ++ [0x07] ++ b.
Proof.
  apply (cbs_reader_safe [0x02; 0x01; 0x07] (rd 3 [0x07])).
  - repeat constructor; lia.
  - vm_compute. discriminate.
  - eapply (reader_child _ (CBS_init [0x02; 0x01; 0x07] 3) (CallAsn1 2)); [constructor|reflexivity|].
    apply list_elem_of_In. by left.
Defined.

(** C3: Strict DER acceptance: [CBS_get_asn1] succeeds with contents [c] exactly when
    the input starts with the one DER encoding (short tag, shortest length octets)
    of an element of that tag and contents [c], of less than 2^32 bytes; the reader
    is left on what follows, and the contents reader covers exactly [c]. *)
Theorem CBS_get_asn1_iff_der i l t out c' :
  Forall is_byte l ->
  (CBS_get_asn1 t (rd i l) = (Some out, c') <->
   exists c rest, l = der_element t c ++ rest /\ valid_tag t /\ zlen c < 2 ^ 32 /\
     out = rd (zlen (der_element t c)) c /\ c' = rd i rest).
Proof.
  intros Hb. split; [by apply CBS_get_asn1_sound|].
  intros (c & rest & -> & Ht & Hl & -> & ->). apply CBS_get_asn1_complete; try done.
  apply Forall_app in Hb as [Hb _]. by apply Forall_app in Hb as [_ Hb].
Qed.

Lemma CBS_get_asn1_iff_der_witness :
  CBS_get_asn1 0x30 (rd 5 [0x30; 0x02; 0x05; 0x00; 0xaa]) =
    (Some (rd 4 [0x05; 0x00]), rd 5 [0xaa]) /\
  fst (CBS_get_asn1 0x30 (rd 5 [0x30; 0x81; 0x02; 0x05; 0x00])) = None.
Proof.
  split; [|reflexivity].
  apply (CBS_get_asn1_iff_der 5 [0x30; 0x02; 0x05; 0x00; 0xaa] 0x30); [repeat constructor; lia|].
  exists [0x05; 0x00], [0xaa]. vm_compute. by repeat split.
Defined.

(** [CBS_get_asn1_uint64] returns [v] exactly when [v] fits in 64 bits and the
    input starts with the minimal DER INTEGER encoding of [v]: negative, over-long
    and zero-padded encodings are refused, and no accepted input has two values. *)
Theorem CBS_get_asn1_uint64_iff_der i l v c' :
  Forall is_byte l ->
  (CBS_get_asn1_uint64 (rd i l) = (Some v, c') <->
   0 <= v < 2 ^ 64 /\ exists rest, l = der_uint64 v ++ rest /\ c' = rd i rest).
Proof.
  intros Hb. split; [by apply CBS_get_asn1_uint64_sound|].
  intros (Hv & rest & -> & ->). by apply CBS_get_asn1_uint64_complete.
Qed.

Lemma CBS_get_asn1_uint64_iff_der_witness :
  CBS_get_asn1_uint64 (rd 4 [0x02; 0x02; 0x00; 0xff]) = (Some 255, rd 4 []) /\
  fst (CBS_get_asn1_uint64 (rd 4 [0x02; 0x02; 0x00; 0x7f])) = None.
Proof.
  split; [|reflexivity].
  apply (CBS_get_asn1_uint64_iff_der 4 [0x02; 0x02; 0x00; 0xff]); [repeat constructor; lia|].
  split; [lia|]. exists []. by vm_compute.
Defined.
