(* ===== verification/Cbb.v ===== *)
(** * CBB, the byte string builder (ssl/bs_cbb.c)

    A top-level CBB, its children and grandchildren share one growable buffer
    ([struct cbb_buffer_st]) and point to each other: a parent has the address of
    the child whose length prefix is pending, and a flushed child has a NULL
    [base].  The model is the store those pointers live in: [store] holds the
    shared buffer and the CBB objects by address.  [base] records whether an
    object's base pointer is NULL or the shared buffer. *)
From S2P Require Import Prelude Compat Cbs.

Definition addr : Type := nat.

(** ** The objects *)

Record cbb_buffer := mkBuffer { bb_buf : list Z; bb_len : Z; bb_cap : Z; bb_can_resize : bool }.

Record CBB := mkCBB {
  cbb_base : bool;
  cbb_offset : Z;
  cbb_child : option addr;
  cbb_pending_len_len : Z;
  cbb_pending_is_asn1 : bool;
  cbb_is_top_level : bool
}.

Record store := mkStore { s_base : option cbb_buffer; s_cbb : gmap addr CBB }.

(** [memset(cbb, 0, sizeof(CBB))] *)
Definition zero_cbb : CBB := mkCBB false 0 None 0 false false.

Definition CBB_INITIAL_SIZE : Z := 64.
(** [sizeof(struct cbb_buffer_st)] on an LP64 target. *)
Definition sizeof_cbb_buffer : Z := 32.

(** Reading and writing through pointers. *)
Definition get_cbb (h : addr) : M store CBB := fun s => (s_cbb s !! h, s).
Definition set_cbb (h : addr) (c : CBB) : M store unit :=
  modS (fun s => mkStore (s_base s) (<[h := c]> (s_cbb s))).
Definition get_base : M store cbb_buffer := fun s => (s_base s, s).
Definition set_base (b : cbb_buffer) : M store unit :=
  modS (fun s => mkStore (Some b) (s_cbb s)).
Definition set_bytes (bs : list Z) : M store unit :=
  b ← get_base; set_base (mkBuffer bs (bb_len b) (bb_cap b) (bb_can_resize b)).

(** [for (i = n - 1; i < n; i--) { p[i] = v; v >>= 8; }]: the array and what is left of [v]. *)
Fixpoint be_write (b : list Z) (p : nat) (n : nat) (v : Z) : list Z * Z :=
  match n with
  | O => (b, v)
  | S k => be_write (<[(p + k)%nat := wrap8 v]> b) p k (Z.shiftr v 8)
  end.

Section Builder.
Context `{Allocator}.

Definition cbb_init (h : addr) (bytes : list Z) (capacity : Z) : M store unit :=
  if malloc_ok sizeof_cbb_buffer then
    _ ← set_base (mkBuffer bytes 0 capacity true);
    c ← get_cbb h;
    set_cbb h (mkCBB true (cbb_offset c) (cbb_child c) (cbb_pending_len_len c) (cbb_pending_is_asn1 c) true)
  else fail.

Definition CBB_init (h : addr) (initial_capacity : Z) : M store unit :=
  _ ← set_cbb h zero_cbb;
  let initial_capacity := if initial_capacity =? 0 then CBB_INITIAL_SIZE else initial_capacity in
  if malloc_ok initial_capacity
  then cbb_init h (zeros initial_capacity) initial_capacity
  else fail.

Definition CBB_init_fixed (h : addr) (bytes : list Z) (blen : Z) : M store unit :=
  _ ← set_cbb h zero_cbb;
  _ ← cbb_init h bytes blen;
  b ← get_base;
  set_base (mkBuffer (bb_buf b) (bb_len b) (bb_cap b) false).

Definition CBB_cleanup (h : addr) : M store unit :=
  c ← get_cbb h;
  _ ← (if cbb_base c then modS (fun s => mkStore None (s_cbb s)) else mret tt);
  set_cbb h (mkCBB false (cbb_offset c) None (cbb_pending_len_len c) (cbb_pending_is_asn1 c) (cbb_is_top_level c)).

(** The index of the new bytes: [base->buf + base->len] before the call. *)
Definition cbb_buffer_add (n : Z) : M store Z :=
  b ← get_base;
  let newlen := wrap64 (bb_len b + n) in
  if newlen <? bb_len b then fail
  else if bb_cap b <? newlen then
    let newcap := wrap64 (bb_cap b * 2) in
    if negb (bb_can_resize b) then fail
    else
    let newcap := if (newcap <? bb_cap b) || (newcap <? newlen) then newlen else newcap in
    match recallocarray (Some (bb_buf b)) (bb_cap b) newcap 1 with
    | None => fail
    | Some newbuf =>
        _ ← set_base (mkBuffer newbuf newlen newcap (bb_can_resize b));
        mret (bb_len b)
    end
  else
    _ ← set_base (mkBuffer (bb_buf b) newlen (bb_cap b) (bb_can_resize b));
    mret (bb_len b).

(** The number of length octets of an ASN.1 element of [l] bytes. *)
Definition asn1_len_len (l : Z) : Z :=
  if 0xffffff <? l then 5 else if 0xffff <? l then 4 else if 0xff <? l then 3
  else if 0x7f <? l then 2 else 1.

(** The ASN.1 part of [CBB_flush]: write the initial length octet, making room for
    long-form octets; the length that is left to write. *)
Definition cbb_flush_asn1 (h : addr) (cbb : CBB) (child_start l : Z) : M store Z :=
  if negb (cbb_pending_len_len cbb =? 1) then fail
  else if 0xfffffffe <? l then fail
  else
  let len_len := asn1_len_len l in
  r ← (if len_len =? 1 then mret (l, 0)
       else
         let extra_bytes := len_len - 1 in
         _ ← cbb_buffer_add extra_bytes;
         b ← get_base;
         _ ← set_bytes (overwrite (bb_buf b) (child_start + extra_bytes) (slice (bb_buf b) child_start l));
         mret (Z.lor 0x80 (len_len - 1), l));
  b ← get_base;
  _ ← set_bytes (<[Z.to_nat (cbb_offset cbb) := wrap8 (fst r)]> (bb_buf b));
  _ ← set_cbb h (mkCBB (cbb_base cbb) (cbb_offset cbb + 1) (cbb_child cbb) (len_len - 1)
                   (cbb_pending_is_asn1 cbb) (cbb_is_top_level cbb));
  mret (snd r).

(** The last part of [CBB_flush]: write the pending length, detach the child. *)
Definition cbb_flush_prefix (h ch : addr) (l : Z) : M store unit :=
  cbb ← get_cbb h;
  b ← get_base;
  let w := be_write (bb_buf b) (Z.to_nat (cbb_offset cbb)) (Z.to_nat (cbb_pending_len_len cbb)) l in
  _ ← set_bytes (fst w);
  if negb (snd w =? 0) then fail
  else
  c ← get_cbb ch;
  _ ← set_cbb ch (mkCBB false (cbb_offset c) (cbb_child c) (cbb_pending_len_len c) (cbb_pending_is_asn1 c)
                    (cbb_is_top_level c));
  set_cbb h (mkCBB (cbb_base cbb) 0 None 0 false (cbb_is_top_level cbb)).

(** [fuel] bounds the recursion along child pointers. *)
Fixpoint cbb_flush (fuel : nat) (h : addr) : M store unit :=
  match fuel with
  | O => fail
  | S fuel' =>
      cbb ← get_cbb h;
      if negb (cbb_base cbb) then fail
      else match cbb_child cbb with
      | None => mret tt
      | Some ch =>
          if cbb_pending_len_len cbb =? 0 then mret tt
          else
          let child_start := wrap64 (cbb_offset cbb + cbb_pending_len_len cbb) in
          _ ← cbb_flush fuel' ch;
          b ← get_base;
          if (child_start <? cbb_offset cbb) || (bb_len b <? child_start) then fail
          else
          let l := bb_len b - child_start in
          l ← (if cbb_pending_is_asn1 cbb then cbb_flush_asn1 h cbb child_start l else mret l);
          cbb_flush_prefix h ch l
      end
  end.

Definition CBB_flush (h : addr) : M store unit := fun s =>
  cbb_flush (S (size (s_cbb s))) h s.

Definition CBB_finish (h : addr) (want_out : bool) : M store (list Z * Z) :=
  cbb ← get_cbb h;
  if negb (cbb_is_top_level cbb) then fail
  else
  _ ← CBB_flush h;
  b ← get_base;
  if bb_can_resize b && negb want_out then fail
  else
  _ ← CBB_cleanup h;
  mret (bb_buf b, bb_len b).

Definition CBB_discard_child (h : addr) : M store unit :=
  cbb ← get_cbb h;
  match cbb_child cbb with
  | None => mret tt
  | Some ch =>
      b ← get_base;
      _ ← set_base (mkBuffer (bb_buf b) (cbb_offset cbb) (bb_cap b) (bb_can_resize b));
      c ← get_cbb ch;
      _ ← set_cbb ch (mkCBB false (cbb_offset c) (cbb_child c) (cbb_pending_len_len c) (cbb_pending_is_asn1 c)
                        (cbb_is_top_level c));
      set_cbb h (mkCBB (cbb_base cbb) 0 None 0 false (cbb_is_top_level cbb))
  end.

(** ** Adding data *)

Definition cbb_add_u (h : addr) (v : Z) (len_len : Z) : M store unit :=
  if len_len =? 0 then mret tt
  else if 4 <? len_len then fail
  else
  _ ← CBB_flush h;
  p ← cbb_buffer_add len_len;
  b ← get_base;
  set_bytes (fst (be_write (bb_buf b) (Z.to_nat p) (Z.to_nat len_len) v)).

Definition cbb_add_length_prefixed (h out : addr) (len_len : Z) : M store unit :=
  _ ← CBB_flush h;
  cbb ← get_cbb h;
  b ← get_base;
  let off := bb_len b in
  _ ← set_cbb h (mkCBB (cbb_base cbb) off (cbb_child cbb) (cbb_pending_len_len cbb) (cbb_pending_is_asn1 cbb)
                   (cbb_is_top_level cbb));
  p ← cbb_buffer_add len_len;
  b ← get_base;
  _ ← set_bytes (overwrite (bb_buf b) p (zeros len_len));
  _ ← set_cbb out (mkCBB (cbb_base cbb) 0 None 0 false false);
  set_cbb h (mkCBB (cbb_base cbb) off (Some out) len_len false (cbb_is_top_level cbb)).

Definition CBB_add_u8_length_prefixed (h out : addr) : M store unit := cbb_add_length_prefixed h out 1.
Definition CBB_add_u16_length_prefixed (h out : addr) : M store unit := cbb_add_length_prefixed h out 2.
Definition CBB_add_u24_length_prefixed (h out : addr) : M store unit := cbb_add_length_prefixed h out 3.

Definition CBB_add_u8 (h : addr) (value : Z) : M store unit :=
  if 0xff <? value then fail else cbb_add_u h (wrap32 value) 1.
Definition CBB_add_u16 (h : addr) (value : Z) : M store unit :=
  if 0xffff <? value then fail else cbb_add_u h (wrap32 value) 2.
Definition CBB_add_u24 (h : addr) (value : Z) : M store unit :=
  if 0xffffff <? value then fail else cbb_add_u h (wrap32 value) 3.
Definition CBB_add_u32 (h : addr) (value : Z) : M store unit :=
  if 0xffffffff <? value then fail else cbb_add_u h (wrap32 value) 4.

Definition CBB_add_asn1 (h out : addr) (tag : Z) : M store unit :=
  if 0xff <? tag then fail
  else if Z.land tag 0x1f =? 0x1f then fail
  else
  _ ← CBB_flush h;
  _ ← CBB_add_u8 h tag;
  cbb ← get_cbb h;
  b ← get_base;
  let off := bb_len b in
  _ ← set_cbb h (mkCBB (cbb_base cbb) off (cbb_child cbb) (cbb_pending_len_len cbb) (cbb_pending_is_asn1 cbb)
                   (cbb_is_top_level cbb));
  _ ← CBB_add_u8 h 0;
  _ ← set_cbb out (mkCBB (cbb_base cbb) 0 None 0 false false);
  set_cbb h (mkCBB (cbb_base cbb) off (Some out) 1 true (cbb_is_top_level cbb)).

Definition CBB_add_bytes (h : addr) (data : list Z) (n : Z) : M store unit :=
  _ ← CBB_flush h;
  p ← cbb_buffer_add n;
  b ← get_base;
  set_bytes (overwrite (bb_buf b) p (ztake n data)).

(** The index of the zeroed space. *)
Definition CBB_add_space (h : addr) (n : Z) : M store Z :=
  _ ← CBB_flush h;
  p ← cbb_buffer_add n;
  b ← get_base;
  _ ← set_bytes (overwrite (bb_buf b) p (zeros n));
  mret p.

(** The loop over the octets [8 - n .. 7] of [value]; has a non-zero octet been written? *)
Fixpoint asn1_uint64_octets (ch : addr) (value : Z) (n : nat) (started : bool) : M store bool :=
  match n with
  | O => mret started
  | S k =>
      let byte := Z.land (Z.shiftr value (8 * Z.of_nat k)) 0xff in
      if negb started && (byte =? 0) then asn1_uint64_octets ch value k false
      else
      _ ← (if negb started && negb (Z.land byte 0x80 =? 0) then CBB_add_u8 ch 0 else mret tt);
      _ ← CBB_add_u8 ch byte;
      asn1_uint64_octets ch value k true
  end.

Definition CBB_add_asn1_uint64 (h ch : addr) (value : Z) : M store unit :=
  _ ← CBB_add_asn1 h ch CBS_ASN1_INTEGER;
  started ← asn1_uint64_octets ch value 8 false;
  _ ← (if negb started then CBB_add_u8 ch 0 else mret tt);
  CBB_flush h.

End Builder.
