(* ===== verification/CbbSpec.v ===== *)
(** * What CBB promises: a refinement of the builder to sequences of bytes

    The abstract state of a builder is the list of open length prefixes: each
    open parent with the bytes it already has and the kind of its pending prefix,
    and the bytes of the innermost child.  [collapse] closes the prefixes.  The
    lemmas show what every operation of [Cbb] does to that state, in both
    outcomes; the theorems are about whole messages described as trees. *)
From S2P Require Import Prelude Compat Cbs Cbb.

(** ** Abstract state *)

Inductive pend := LenPrefix (n : nat) | Asn1Prefix.

Definition plen (p : pend) : Z := match p with LenPrefix n => Z.of_nat n | Asn1Prefix => 1 end.
Definition is_asn1 (p : pend) : bool := match p with LenPrefix _ => false | Asn1Prefix => true end.
Definition valid_pend (p : pend) : Prop := 1 <= plen p <= 4.

(** The prefix that announces [L] bytes, when there is one. *)
Definition enc_prefix (p : pend) (L : Z) : option (list Z) :=
  match p with
  | LenPrefix n => if L <? 256 ^ Z.of_nat n then Some (be_bytes n L) else None
  | Asn1Prefix => if L <=? 0xfffffffe then Some (der_len L) else None
  end.

Record frame := mkFrame { fh : addr; fb : list Z; fp : pend }.

Fixpoint collapse (fs : list frame) (bl : list Z) : option (list Z) :=
  match fs with
  | [] => Some bl
  | f :: fs' =>
      c ← collapse fs' bl;
      e ← enc_prefix (fp f) (zlen c);
      Some (fb f ++ e ++ c)
  end.

Definition hd_addr (fs : list frame) (nh : addr) : addr :=
  match fs with [] => nh | f :: _ => fh f end.

(** [seg m start fs nh c]: in [m] the open parents [fs] are linked to each other and
    to [nh], and their bytes and placeholders, from index [start] on, are [c]. *)
Fixpoint seg (m : gmap addr CBB) (start : Z) (fs : list frame) (nh : addr) (c : list Z) : Prop :=
  match fs with
  | [] => c = []
  | f :: fs' => exists top ph rest,
      m !! fh f = Some (mkCBB true (start + zlen (fb f)) (Some (hd_addr fs' nh))
                          (plen (fp f)) (is_asn1 (fp f)) top) /\
      zlen ph = plen (fp f) /\ valid_pend (fp f) /\ c = fb f ++ ph ++ rest /\
      seg m (start + zlen (fb f) + plen (fp f)) fs' nh rest
  end.

Definition is_last (m : gmap addr CBB) (h : addr) : Prop :=
  exists c, m !! h = Some c /\ cbb_base c = true /\ cbb_child c = None.

(** A buffer that grows, or a fixed one of this capacity. *)
Inductive mode := Grow | Fixed (k : Z).

Definition buf_mode (md : mode) (b : cbb_buffer) : Prop :=
  match md with
  | Grow => bb_can_resize b = true
  | Fixed k => bb_can_resize b = false /\ bb_cap b = k
  end.

(** The first bytes of the buffer are [used], the rest is spare. *)
Definition has_buf (md : mode) (s : store) (used : list Z) : Prop :=
  exists b spare, s_base s = Some b /\ bb_buf b = used ++ spare /\ bb_len b = zlen used /\
    bb_cap b = zlen (bb_buf b) /\ bb_cap b <= SIZE_MAX /\ buf_mode md b.

(** Can a buffer of this mode hold [N] bytes? *)
Definition room `{Allocator} (md : mode) (N : Z) : Prop :=
  match md with
  | Grow => (forall k, 0 <= k <= SIZE_MAX -> malloc_ok k = true) /\ N <= SIZE_MAX
  | Fixed k => N <= k
  end.

Definition handles (fs : list frame) (hl : addr) : list addr := (fh <$> fs) ++ [hl].

(** The store [s] represents, after [pre] bytes of outer context, the open parents
    [fs] and the innermost child [hl] with bytes [bl]. *)
Definition reps (md : mode) (s : store) (pre : list Z) (fs : list frame) (hl : addr)
    (bl : list Z) : Prop :=
  exists c, has_buf md s (pre ++ c ++ bl) /\ seg (s_cbb s) (zlen pre) fs hl c /\
    is_last (s_cbb s) hl /\ NoDup (handles fs hl).

(** Objects outside [hs] are untouched, and no object changes its rank. *)
Definition frame_ok (hs : list addr) (m m' : gmap addr CBB) : Prop :=
  (forall k, k ∉ hs -> m' !! k = m !! k) /\
  (forall k, cbb_is_top_level <$> m' !! k = cbb_is_top_level <$> m !! k).

Section Refinement.
Context `{Allocator}.

(** ** The buffer *)

Lemma room_mono md N N' : N <= N' -> room md N' -> room md N.
Proof. destruct md; simpl; intros; [split; [tauto|lia]|lia]. Qed.

Lemma buffer_add_spec md s used n :
  has_buf md s used -> 0 <= n <= SIZE_MAX ->
  outcome (cbb_buffer_add n s)
    (fun p s' => p = zlen used /\ s_cbb s' = s_cbb s /\
       exists x, zlen x = n /\ has_buf md s' (used ++ x))
    (~ room md (zlen used + n)).
Proof.
  intros (b & spare & Hb & Hbuf & Hlen & Hcap & Hmax & Hmd) Hn.
  assert (Hu : zlen used + zlen spare = bb_cap b) by (rewrite Hcap, Hbuf; zl).
  pose proof (zlen_nonneg used). pose proof (zlen_nonneg spare).
  unfold SIZE_MAX in *. unfold cbb_buffer_add.
  eapply outcome_step; [unfold get_base; by rewrite Hb|]. cbv zeta. rewrite Hlen.
  destruct (Z.ltb_spec (zlen used + n) (2 ^ 64)) as [Hov|Hov].
  2: { assert (Hw : wrap64 (zlen used + n) = zlen used + n - 2 ^ 64).
       { symmetry. apply (Z.mod_unique _ _ 1); lia. }
       rewrite Hw. decide_cmp.
       apply outcome_fail. destruct md; simpl in *; unfold SIZE_MAX; lia. }
  assert (Hw : wrap64 (zlen used + n) = zlen used + n) by (apply Z.mod_small; lia).
  rewrite Hw. rewrite (proj2 (Z.ltb_ge (zlen used + n) _)) by lia.
  destruct (Z.ltb_spec (bb_cap b) (zlen used + n)) as [Hgrow|Hfit].
  - destruct md as [|k]; simpl in Hmd.
    2: { destruct Hmd as [-> Hk]. cbn [negb]. apply outcome_fail. simpl. lia. }
    rewrite Hmd. cbn [negb].
    set (nc := if _ || _ then _ else _).
    assert (Hnc : zlen used + n <= nc <= 2 ^ 64 - 1).
    { pose proof (Z.mod_pos_bound (bb_cap b * 2) (2 ^ 64) ltac:(lia)). unfold nc, wrap64 in *.
      destruct (_ || _) eqn:E; [lia|]. apply orb_false_iff in E as [_ E]. apply Z.ltb_ge in E. lia. }
    rewrite recallocarray_grow by (unfold SIZE_MAX; lia).
    destruct (malloc_ok nc) eqn:Em.
    2: { apply outcome_fail. intros [Hall _]. rewrite Hall in Em by (unfold SIZE_MAX; lia). done. }
    simpl. split; [done|]. split; [done|].
    destruct (zsplit n (spare ++ zeros (nc - bb_cap b))) as (x & y & Hxy & Hx & _); [zl|].
    exists x. split; [done|]. eexists _, y. split; [done|]. simpl.
    rewrite Hbuf, <- !app_assoc, Hxy. unfold SIZE_MAX.
    assert (zlen spare + (nc - bb_cap b) = zlen x + zlen y).
    { apply (f_equal zlen) in Hxy. zl. }
    repeat split; zl.
  - simpl. split; [done|]. split; [done|].
    destruct (zsplit n spare) as (x & y & -> & Hx & _); [lia|].
    exists x. split; [done|]. eexists _, y. split; [done|]. simpl.
    rewrite Hbuf, <- !app_assoc. rewrite Hbuf in Hcap. unfold SIZE_MAX.
    repeat split; try done; zl.
Qed.

(** Reading the buffer, and overwriting used bytes in place. *)
Lemma has_buf_open md s used :
  has_buf md s used -> exists b spare,
    get_base s = (Some b, s) /\ bb_len b = zlen used /\ bb_buf b = used ++ spare /\
    buf_mode md b /\
    forall used', zlen used' = zlen used -> exists s',
      set_bytes (used' ++ spare) s = (Some tt, s') /\ s_cbb s' = s_cbb s /\ has_buf md s' used'.
Proof.
  intros (b & spare & Hb & Hbuf & Hlen & Hcap & Hmax & Hmd). exists b, spare.
  unfold get_base. rewrite Hb. do 4 (split; [done|]). intros used' Hl.
  eexists. split; [unfold set_bytes; by erewrite bind_some by (unfold get_base; by rewrite Hb)|].
  split; [done|]. eexists _, spare. split; [done|]. simpl.
  rewrite Hbuf in Hcap. repeat split; try done; zl.
Qed.

Lemma be_write_spec a x c n v :
  zlen x = Z.of_nat n -> 0 <= v ->
  be_write (a ++ x ++ c) (length a) n v = (a ++ be_bytes n v ++ c, Z.shiftr v (8 * Z.of_nat n)).
Proof.
  revert x c v. induction n as [|n IH]; intros x c v Hx Hv.
  - apply zlen_0_nil in Hx as ->. by rewrite Z.shiftr_0_r.
  - destruct x as [|y x _] using rev_ind; [rewrite zlen_nil in Hx; lia|].
    cbn [be_write be_bytes]. rewrite <- !app_assoc. cbn [app].
    rewrite app_assoc, insert_app_at.
    2: { rewrite length_app. unfold zlen in Hx. rewrite length_app in Hx. simpl in Hx. lia. }
    rewrite <- app_assoc, IH by (zl || (apply Z.shiftr_nonneg; lia)).
    rewrite Z.shiftr_shiftr, Z.shiftr_div_pow2 by lia. change (2 ^ 8) with 256.
    f_equal. f_equal. lia.
Qed.

Lemma shiftr_zero_iff v n : 0 <= v -> Z.shiftr v (8 * Z.of_nat n) = 0 <-> v < 256 ^ Z.of_nat n.
Proof.
  intros Hv. rewrite Z.shiftr_div_pow2 by lia.
  replace (2 ^ (8 * Z.of_nat n)) with (256 ^ Z.of_nat n) by (rewrite Z.pow_mul_r by lia; done).
  pose proof (Z.pow_pos_nonneg 256 (Z.of_nat n) ltac:(lia) ltac:(lia)).
  rewrite Z.div_small_iff by lia. lia.
Qed.

(** [memmove] of [bs] by [k] bytes into the [k] bytes after it. *)
Lemma memmove_up {A} (p bs x sp : list A) k :
  zlen x = k ->
  overwrite (p ++ bs ++ x ++ sp) (zlen p + k) (slice (p ++ bs ++ x ++ sp) (zlen p) (zlen bs)) =
  p ++ ztake k (bs ++ x) ++ bs ++ sp.
Proof.
  intros Hk. unfold slice. rewrite zdrop_app_eq, ztake_app_eq by done.
  assert (E : p ++ bs ++ x ++ sp = (p ++ ztake k (bs ++ x)) ++ zdrop k (bs ++ x) ++ sp).
  { rewrite <- app_assoc, (app_assoc (ztake _ _)), ztake_zdrop. by rewrite <- app_assoc. }
  rewrite E, overwrite_app by zl. by rewrite <- app_assoc.
Qed.

(** ** Flushing *)

Lemma asn1_len_len_spec L : 0 <= L -> asn1_len_len L = 1 + Z.of_nat (der_len_len L).
Proof.
  intros. unfold asn1_len_len, der_len_len.
  repeat match goal with
  | |- context [?a <? ?b] => destruct (Z.ltb_spec a b)
  | |- context [?a <=? ?b] => destruct (Z.leb_spec a b)
  end; lia.
Qed.

Lemma flush_asn1_spec md s h cbb a y bs :
  has_buf md s (a ++ [y] ++ bs) -> cbb_offset cbb = zlen a -> cbb_pending_len_len cbb = 1 ->
  let n := der_len_len (zlen bs) in
  outcome (cbb_flush_asn1 h cbb (zlen a + 1) (zlen bs) s)
    (fun l s' => zlen bs <= 0xfffffffe /\
       (exists x, zlen x = Z.of_nat n /\
          has_buf md s' (a ++ [match n with O => zlen bs | S _ => 0x80 + Z.of_nat n end] ++ x ++ bs)) /\
       l = match n with O => 0 | S _ => zlen bs end /\
       s_cbb s' = <[h := mkCBB (cbb_base cbb) (zlen a + 1) (cbb_child cbb) (Z.of_nat n)
                          (cbb_pending_is_asn1 cbb) (cbb_is_top_level cbb)]> (s_cbb s))
    (0xfffffffe < zlen bs \/ ~ room md (zlen (a ++ [y] ++ bs) + Z.of_nat n)).
Proof.
  intros Hbuf Hoff Hpl n. unfold cbb_flush_asn1. rewrite Hpl, Hoff. cbn [negb Z.eqb].
  change (1 =? 1) with true. cbn [negb]. pose proof (zlen_nonneg bs).
  destruct (Z.ltb_spec 0xfffffffe (zlen bs)) as [Hbig|Hsmall]; [by left|].
  rewrite asn1_len_len_spec by lia. fold n.
  assert (Hn : (n <= 4)%nat).
  { unfold n, der_len_len. repeat case_match; lia. }
  (* make room *)
  eapply (outcome_bind _ _ _ (fun r s' => s_cbb s' = s_cbb s /\
    r = (match n with O => zlen bs | S _ => 0x80 + Z.of_nat n end,
         match n with O => 0 | S _ => zlen bs end) /\
    exists x, zlen x = Z.of_nat n /\ has_buf md s' (a ++ [y] ++ x ++ bs)) _
    (~ room md (zlen (a ++ [y] ++ bs) + Z.of_nat n))).
  - destruct n as [|n'] eqn:En.
    { replace (1 + Z.of_nat 0 =? 1) with true by done. simpl. split; [done|]. split; [done|].
      by exists []. }
    rewrite (proj2 (Z.eqb_neq _ 1)) by lia. replace (1 + Z.of_nat (S n') - 1) with (Z.of_nat (S n')) by lia.
    eapply outcome_bind; [apply buffer_add_spec; [done|unfold SIZE_MAX; lia]|done|].
    intros p s1 (_ & Hm & x & Hx & Hbuf1).
    destruct (has_buf_open _ _ _ Hbuf1) as (b & spare & Hg & _ & Hbb & _ & Hset).
    eapply outcome_step; [exact Hg|].
    assert (Hmove : overwrite (bb_buf b) (zlen a + 1 + Z.of_nat (S n')) (slice (bb_buf b) (zlen a + 1) (zlen bs))
      = (a ++ [y] ++ ztake (Z.of_nat (S n')) (bs ++ x) ++ bs) ++ spare).
    { rewrite Hbb. replace (((a ++ [y] ++ bs) ++ x) ++ spare) with ((a ++ [y]) ++ bs ++ x ++ spare)
        by (by rewrite <- !app_assoc).
      replace (zlen a + 1) with (zlen (a ++ [y])) by zl.
      rewrite memmove_up by done. by rewrite <- !app_assoc. }
    rewrite Hmove. destruct (Hset (a ++ [y] ++ ztake (Z.of_nat (S n')) (bs ++ x) ++ bs)) as (s2 & Hs & Hm2 & Hb2); [zl|].
    eapply outcome_step; [exact Hs|]. simpl. split; [congruence|]. split.
    + f_equal. assert (n' < 4)%nat by lia. destruct n' as [|[|[|[|n']]]]; try lia; done.
    + eexists. split; [|exact Hb2]. zl.
  - by right.
  - intros [r1 r2] s1 (Hm & [= -> ->] & x & Hx & Hb1).
    destruct (has_buf_open _ _ _ Hb1) as (b & spare & Hg & _ & Hbb & _ & Hset).
    eapply outcome_step; [exact Hg|]. rewrite Hbb. cbn [fst snd].
    rewrite <- app_assoc. cbn [app]. rewrite insert_app_at by (unfold zlen; lia).
    set (o := wrap8 _).
    assert (Ho : o = match n with O => zlen bs | S _ => 0x80 + Z.of_nat n end).
    { unfold o, wrap8. apply Z.mod_small. revert Hn. unfold n, der_len_len.
      repeat case_match; rewrite ?Z.leb_le in *; lia. }
    destruct (Hset (a ++ [o] ++ x ++ bs)) as (s2 & Hs & Hm2 & Hb2); [zl|].
    rewrite <- app_assoc in Hs. cbn [app] in Hs.
    eapply outcome_step; [exact Hs|]. simpl. split; [done|]. split.
    { exists x. split; [done|]. rewrite <- Ho. exact Hb2. }
    split; [done|]. rewrite Hm2, Hm. do 2 f_equal. lia.
Qed.

Definition detach (c : CBB) : CBB :=
  mkCBB false (cbb_offset c) (cbb_child c) (cbb_pending_len_len c) (cbb_pending_is_asn1 c)
    (cbb_is_top_level c).

Lemma flush_prefix_spec md s h ch a x bs n l asn top cc :
  has_buf md s (a ++ x ++ bs) -> zlen x = Z.of_nat n -> 0 <= l ->
  s_cbb s !! h = Some (mkCBB true (zlen a) (Some ch) (Z.of_nat n) asn top) ->
  s_cbb s !! ch = Some cc ->
  outcome (cbb_flush_prefix h ch l s)
    (fun _ s' => l < 256 ^ Z.of_nat n /\ has_buf md s' (a ++ be_bytes n l ++ bs) /\
       s_cbb s' = <[h := mkCBB true 0 None 0 false top]> (<[ch := detach cc]> (s_cbb s)))
    (256 ^ Z.of_nat n <= l).
Proof.
  intros Hbuf Hx Hl Hh Hch. unfold cbb_flush_prefix.
  eapply outcome_step; [unfold get_cbb; by rewrite Hh|].
  destruct (has_buf_open _ _ _ Hbuf) as (b & spare & Hg & _ & Hbb & _ & Hset).
  eapply outcome_step; [exact Hg|]. cbn [cbb_offset cbb_pending_len_len cbb_base cbb_is_top_level].
  rewrite Hbb, <- app_assoc, <- app_assoc. rewrite Nat2Z.id.
  replace (Z.to_nat (zlen a)) with (length a) by (unfold zlen; lia).
  rewrite be_write_spec by done. cbv zeta. cbn [fst snd].
  destruct (Hset (a ++ be_bytes n l ++ bs)) as (s1 & Hs & Hm & Hb1); [zl|].
  rewrite <- !app_assoc in Hs. eapply outcome_step; [exact Hs|].
  destruct (Z.eqb_spec (Z.shiftr l (8 * Z.of_nat n)) 0) as [Hz|Hz]; cbn [negb];
    rewrite shiftr_zero_iff in Hz by done; [|simpl; lia].
  eapply outcome_step; [unfold get_cbb; rewrite Hm; by rewrite Hch|].
  simpl. rewrite Hm. split; [done|]. split; [|done].
  destruct Hb1 as (b1 & sp1 & ?). by exists b1, sp1.
Qed.

Lemma frame_ok_refl hs m : frame_ok hs m m.
Proof. by split. Qed.
Lemma frame_ok_trans hs hs' m m1 m2 :
  (forall k, k ∈ hs -> k ∈ hs') -> frame_ok hs m m1 -> frame_ok hs' m1 m2 -> frame_ok hs' m m2.
Proof.
  intros Hsub [H1 T1] [H2 T2]. split; [|congruence].
  intros k Hk. rewrite H2, H1; [done| |done]. intros Hin. by apply Hk, Hsub.
Qed.
Lemma frame_ok_insert (hs : list addr) m h c :
  h ∈ hs -> cbb_is_top_level <$> m !! h = Some (cbb_is_top_level c) ->
  frame_ok hs m (<[h := c]> m).
Proof.
  intros Hin Ht. split; intros k.
  - intros Hk. rewrite lookup_insert_ne; [done|]. by intros ->.
  - destruct (decide (h = k)) as [<-|Hne]; [by rewrite lookup_insert_eq|by rewrite lookup_insert_ne].
Qed.

Lemma seg_frame m m' start fs nh c :
  (forall f, f ∈ fs -> m' !! fh f = m !! fh f) -> seg m start fs nh c -> seg m' start fs nh c.
Proof.
  revert start c. induction fs as [|f fs IH]; intros start c Hm; [done|].
  intros (top & ph & rest & Hf & Hph & Hv & -> & Hs). exists top, ph, rest.
  rewrite Hm by (left). do 4 (split; [done|]). apply IH; [|done]. intros. apply Hm. by right.
Qed.

(** What is written for a pending prefix is [enc_prefix]. *)
Lemma der_len_shape L :
  der_len L = match der_len_len L with O => L | S _ => 0x80 + Z.of_nat (der_len_len L) end
              :: be_bytes (der_len_len L) (match der_len_len L with O => 0 | S _ => L end).
Proof. unfold der_len. destruct (der_len_len L); done. Qed.
Lemma der_len_len_fits L : 0 <= L <= 0xfffffffe -> L < 256 ^ Z.of_nat (der_len_len L) \/ der_len_len L = 0%nat.
Proof. intros HL. unfold der_len_len. repeat case_match; rewrite ?Z.leb_gt in *; simpl; lia. Qed.

(** One step of the recursion, once the child is flushed to the bytes [bs]. *)
Lemma flush_step_spec md s h ch pre f ph bs top cc :
  has_buf md s (pre ++ fb f ++ ph ++ bs) -> zlen ph = plen (fp f) -> valid_pend (fp f) ->
  h <> ch ->
  let cbb := mkCBB true (zlen pre + zlen (fb f)) (Some ch) (plen (fp f)) (is_asn1 (fp f)) top in
  s_cbb s !! h = Some cbb -> s_cbb s !! ch = Some cc ->
  outcome
    ((l ← (if cbb_pending_is_asn1 cbb
           then cbb_flush_asn1 h cbb (zlen pre + zlen (fb f) + plen (fp f)) (zlen bs)
           else mret (zlen bs)); cbb_flush_prefix h ch l) s)
    (fun _ s' => exists e, enc_prefix (fp f) (zlen bs) = Some e /\
       has_buf md s' (pre ++ fb f ++ e ++ bs) /\
       s_cbb s' = <[h := mkCBB true 0 None 0 false top]> (<[ch := detach cc]> (s_cbb s)))
    (forall e, enc_prefix (fp f) (zlen bs) = Some e ->
       ~ room md (zlen pre + zlen (fb f ++ e ++ bs))).
Proof.
  intros Hbuf Hph Hv Hne cbb Hh Hch. pose proof (zlen_nonneg bs).
  destruct f as [hf b p]. cbn [fp fb] in *. unfold cbb. cbn [cbb_pending_is_asn1].
  destruct p as [n|]; cbn [is_asn1 plen enc_prefix] in *.
  - eapply outcome_step; [reflexivity|].
    eapply outcome_impl; [eapply (flush_prefix_spec md s h ch (pre ++ b) ph bs n)|..].
    + by rewrite <- app_assoc.
    + done.
    + lia.
    + rewrite Hh. do 2 f_equal. zl.
    + exact Hch.
    + intros _ s' (Hl & Hb & Hm). exists (be_bytes n (zlen bs)).
      rewrite (proj2 (Z.ltb_lt _ _)) by done. split; [done|]. split; [|done].
      by rewrite <- app_assoc in Hb.
    + intros Hl e. rewrite (proj2 (Z.ltb_ge _ _)) by done. done.
  - destruct ph as [|y [|]]; try (autorewrite with zlist in Hph; zl_pose; lia).
    set (n := der_len_len (zlen bs)).
    assert (Hbuf' : has_buf md s ((pre ++ b) ++ [y] ++ bs)) by (by rewrite <- app_assoc).
    eapply outcome_bind.
    { replace (zlen pre + zlen b + 1) with (zlen (pre ++ b) + 1) by zl.
      apply (flush_asn1_spec md s h _ (pre ++ b) y bs Hbuf'); [cbn; zl|done]. }
    { fold n. intros Herr e. destruct (Z.leb_spec (zlen bs) 0xfffffffe); [|done].
      intros [= <-] Hroom. destruct Herr as [|Herr]; [lia|]. apply Herr.
      eapply room_mono; [|exact Hroom]. rewrite der_len_shape. fold n. zl. }
    cbn [cbb_base cbb_child cbb_pending_is_asn1 cbb_is_top_level]. fold n.
    intros l s1 (Hle & (x & Hx & Hb1) & -> & Hm1).
    set (o := match n with O => zlen bs | S _ => 0x80 + Z.of_nat n end) in *.
    eapply outcome_impl; [eapply (flush_prefix_spec md s1 h ch ((pre ++ b) ++ [o]) x bs n)|..].
    + by rewrite <- (app_assoc (pre ++ b)).
    + done.
    + destruct n; lia.
    + rewrite Hm1, lookup_insert_eq. do 2 f_equal. zl.
    + rewrite Hm1, lookup_insert_ne by done. exact Hch.
    + intros _ s' (_ & Hb & Hm). exists (der_len (zlen bs)).
      rewrite (proj2 (Z.leb_le _ _)) by done. split; [done|]. split.
      * rewrite der_len_shape. fold n. fold o. by rewrite <- !app_assoc in Hb.
      * rewrite Hm, Hm1, (insert_insert_ne _ ch h) by done. by rewrite insert_insert_eq.
    + intros Hl. exfalso. unfold n in *. destruct (der_len_len_fits (zlen bs)) as [Hf|Hf]; [lia| |].
      * destruct (der_len_len (zlen bs)); lia.
      * rewrite Hf in Hl. simpl in Hl. lia.
Qed.

Lemma hd_addr_in fs hl : hd_addr fs hl ∈ handles fs hl.
Proof. destruct fs; cbn; left. Qed.
Lemma handles_not_in f fs hl : NoDup (handles (f :: fs) hl) ->
  (fh f ∉ handles fs hl) /\ NoDup (handles fs hl).
Proof. intros H0. by apply NoDup_cons in H0. Qed.

Lemma flush_spec md s pre fs hl bl fuel :
  reps md s pre fs hl bl -> (length fs < fuel)%nat ->
  outcome (cbb_flush fuel (hd_addr fs hl) s)
    (fun _ s' => exists bs, collapse fs bl = Some bs /\
       reps md s' pre [] (hd_addr fs hl) bs /\
       frame_ok (handles fs hl) (s_cbb s) (s_cbb s'))
    (forall bs, collapse fs bl = Some bs -> ~ room md (zlen pre + zlen bs)).
Proof.
  revert s pre fuel. induction fs as [|f fs IH]; intros s pre fuel (c & Hbuf & Hseg & Hlast & Hnd) Hfuel;
    (destruct fuel as [|fuel]; [lia|]); cbn [cbb_flush hd_addr].
  - destruct Hlast as (cl & Hl & Hbase & Hchild). simpl in Hseg. subst c.
    eapply outcome_step; [unfold get_cbb; by rewrite Hl|]. rewrite Hbase, Hchild. cbn [negb].
    apply outcome_ret. exists bl. split; [done|]. split; [|apply frame_ok_refl].
    exists []. split; [done|]. split; [done|]. split; [by exists cl|done].
  - destruct Hseg as (top & ph & rest & Hf & Hph & Hv & -> & Hseg).
    destruct (handles_not_in _ _ _ Hnd) as [Hnin Hnd'].
    set (ch := hd_addr fs hl) in *.
    assert (Hne : fh f <> ch) by (intros E; apply Hnin; rewrite E; apply hd_addr_in).
    pose proof Hbuf as (b0 & sp & _ & Hbb & _ & Hcap & Hmax & _). rewrite Hbb in Hcap.
    assert (Hcs : wrap64 (zlen pre + zlen (fb f) + plen (fp f)) = zlen pre + zlen (fb f) + plen (fp f)).
    { apply Z.mod_small. unfold SIZE_MAX in Hmax. unfold valid_pend in Hv. zl. }
    eapply outcome_step; [unfold get_cbb; by rewrite Hf|].
    cbn [cbb_base cbb_child cbb_pending_len_len cbb_offset negb]. unfold valid_pend in Hv.
    rewrite (proj2 (Z.eqb_neq (plen (fp f)) 0)) by lia. rewrite Hcs.
    eapply outcome_bind.
    { apply (IH s (pre ++ fb f ++ ph) fuel); [|simpl in Hfuel; lia].
      exists rest. split; [by rewrite <- !app_assoc in *|]. split; [|done].
      by replace (zlen (pre ++ fb f ++ ph)) with (zlen pre + zlen (fb f) + plen (fp f)) by zl. }
    { intros Herr bs. cbn [collapse]. destruct (collapse fs bl) as [cs|] eqn:Ec; [|done]. cbn.
      destruct (enc_prefix (fp f) (zlen cs)) as [e|] eqn:Ee; [|done]. cbn. intros [= <-] Hroom.
      apply (Herr cs eq_refl). eapply room_mono; [|exact Hroom].
      destruct (fp f); cbn in Ee, Hph; [destruct (_ <? _); [|done]|destruct (_ <=? _); [|done]];
        injection Ee as <-; rewrite ?der_len_shape; zl. }
    intros _ s1 (bs & Hc & (c1 & Hb1 & Hc1 & (cc & Hcc & Hcb & Hcch) & _) & Hfr). cbn in Hc1. subst c1.
    destruct (has_buf_open _ _ _ Hb1) as (b & spare & Hg & Hlen & _ & _ & _).
    eapply outcome_step; [exact Hg|]. rewrite Hlen. cbn [app].
    rewrite (proj2 (Z.ltb_ge _ _)), (proj2 (Z.ltb_ge _ _)) by zl. cbn [orb].
    replace (zlen _ - _) with (zlen bs) by zl.
    eapply outcome_impl; [apply (flush_step_spec md s1 (fh f) ch pre f ph bs top cc); try done|..].
    + by rewrite <- !app_assoc in Hb1.
    + destruct Hfr as [Hfr _]. by rewrite Hfr.
    + intros _ s' (e & He & Hb' & Hm). exists (fb f ++ e ++ bs). cbn [collapse]. rewrite Hc. cbn. rewrite He.
      split; [done|]. split.
      * exists []. split; [done|]. split; [done|]. split; [|by apply NoDup_singleton].
        rewrite Hm. eexists. by rewrite lookup_insert_eq.
      * rewrite Hm. destruct Hfr as [Hfr Htop].
        eapply (frame_ok_trans (handles fs hl)); [by intros; right|by split|].
        eapply (frame_ok_trans (handles fs hl) _ _ (<[ch := detach cc]> (s_cbb s1)));
          [by intros; right|..].
        { apply frame_ok_insert; [apply hd_addr_in|]. by rewrite Hcc. }
        apply frame_ok_insert; [left|]. rewrite lookup_insert_ne, Hfr, Hf by done. done.
    + intros Herr bs'. cbn [collapse]. rewrite Hc. cbn. destruct (enc_prefix _ _) as [e|]; [|done]. cbn.
      intros [= <-]. by apply Herr.
Qed.

(** ** A builder seen from one of its handles *)

(** The bytes and placeholders of the open parents. *)
Fixpoint ctx_len (fs : list frame) : Z :=
  match fs with [] => 0 | f :: fs' => zlen (fb f) + plen (fp f) + ctx_len fs' end.

Lemma ctx_len_app fs fs' : ctx_len (fs ++ fs') = ctx_len fs + ctx_len fs'.
Proof. induction fs; simpl; lia. Qed.
Lemma seg_len m start fs nh c : seg m start fs nh c -> zlen c = ctx_len fs.
Proof.
  revert start c. induction fs as [|f fs IH]; intros start c; [by intros ->|].
  intros (top & ph & rest & _ & Hph & _ & -> & Hs). apply IH in Hs. simpl. zl.
Qed.
Lemma seg_app m start fs fs' nh c :
  seg m start (fs ++ fs') nh c <->
  exists c1 c2, c = c1 ++ c2 /\ seg m start fs (hd_addr fs' nh) c1 /\
    seg m (start + zlen c1) fs' nh c2.
Proof.
  revert start c. induction fs as [|f fs IH]; intros start c.
  - simpl. split.
    + intros Hs. exists [], c. rewrite zlen_nil, Z.add_0_r. done.
    + intros (c1 & c2 & -> & -> & Hs). by rewrite zlen_nil, Z.add_0_r in Hs.
  - assert (Hhd : hd_addr (fs ++ fs') nh = hd_addr fs (hd_addr fs' nh)) by by destruct fs.
    simpl. rewrite Hhd. split.
    + intros (top & ph & rest & Hf & Hph & Hv & -> & Hs).
      apply IH in Hs as (c1 & c2 & -> & Hs1 & Hs2).
      exists (fb f ++ ph ++ c1), c2. split; [by rewrite <- !app_assoc|]. split.
      * exists top, ph, c1. done.
      * by replace (start + zlen (fb f ++ ph ++ c1)) with
          (start + zlen (fb f) + plen (fp f) + zlen c1) by zl.
    + intros (c1 & c2 & -> & (top & ph & rest & Hf & Hph & Hv & -> & Hs1) & Hs2).
      exists top, ph, (rest ++ c2). do 3 (split; [done|]). split; [by rewrite <- !app_assoc|].
      apply IH. exists rest, c2. split; [done|]. split; [done|].
      by replace (start + zlen (fb f) + plen (fp f) + zlen rest) with
        (start + zlen (fb f ++ ph ++ rest)) by zl.
Qed.

Lemma handles_app fs fs' hl : handles (fs ++ fs') hl = (fh <$> fs) ++ handles fs' hl.
Proof. unfold handles. by rewrite fmap_app, app_assoc. Qed.

Lemma reps_fuel md s pre fs hl bl : reps md s pre fs hl bl -> (length fs < S (size (s_cbb s)))%nat.
Proof.
  intros (c & _ & Hseg & (cl & Hl & _) & Hnd).
  assert (Hin : forall h, h ∈ handles fs hl -> is_Some (s_cbb s !! h)).
  { clear Hnd. unfold handles. intros h. rewrite elem_of_app, list_elem_of_singleton.
    intros [Hh| ->]; [|by exists cl]. clear Hl. revert c Hseg. generalize (zlen pre) as st.
    induction fs as [|f fs IH]; intros st c; [by apply not_elem_of_nil in Hh|].
    intros (top & ph & rest & Hf & _ & _ & _ & Hs). cbn in Hh. apply elem_of_cons in Hh as [->|Hh]; eauto. }
  assert (Hle : (size (list_to_set (handles fs hl) : gset addr) <= size (dom (s_cbb s)))%nat).
  { apply subseteq_size. intros h Hh. apply elem_of_list_to_set in Hh. by apply elem_of_dom, Hin. }
  rewrite size_list_to_set, size_dom in Hle by done.
  unfold handles in Hle. rewrite length_app, length_fmap in Hle. simpl in Hle. lia.
Qed.

(** The whole builder: the outermost object is the top-level one. *)
Definition builder (md : mode) (s : store) (fs : list frame) (hl : addr) (bl : list Z) : Prop :=
  reps md s [] fs hl bl /\ cbb_is_top_level <$> s_cbb s !! hd_addr fs hl = Some true.

(** [view md s fs h o]: below the open parents [fs], the object [h] holds (with its
    pending descendants closed) the bytes [o], [None] if a prefix cannot be closed. *)
Definition view (md : mode) (s : store) (fs : list frame) (h : addr) (o : option (list Z)) : Prop :=
  exists fs2 hl bl, h = hd_addr fs2 hl /\ builder md s (fs ++ fs2) hl bl /\ collapse fs2 bl = o.

Lemma CBB_flush_spec md s fs h o :
  view md s fs h o ->
  outcome (CBB_flush h s)
    (fun _ s' => exists bs, o = Some bs /\ builder md s' fs h bs)
    (forall bs, o = Some bs -> ~ room md (ctx_len fs + zlen bs)).
Proof.
  intros (fs2 & hl & bl & -> & [Hreps Htop] & <-). pose proof (reps_fuel _ _ _ _ _ _ Hreps) as Hfuel.
  destruct Hreps as (c & Hbuf & Hseg & Hlast & Hnd).
  apply seg_app in Hseg as (c1 & c2 & -> & Hs1 & Hs2). rewrite handles_app in Hnd.
  pose proof (seg_len _ _ _ _ _ Hs1) as Hc1. rewrite zlen_nil, Z.add_0_l in Hs2.
  assert (Hr2 : reps md s c1 fs2 hl bl).
  { exists c2. cbn [app] in Hbuf. rewrite <- app_assoc in Hbuf. do 3 (split; [done|]).
    by apply NoDup_app in Hnd as (_ & _ & ?). }
  eapply outcome_impl; [apply (flush_spec _ _ _ _ _ _ _ Hr2)|..].
  - rewrite length_app in Hfuel. lia.
  - intros _ s' (bs & Hc & (c' & Hb' & Hc' & Hl' & _) & Hfr & Htops). cbn in Hc'. subst c'.
    exists bs. split; [done|]. split.
    + exists c1. split; [done|]. split; [|split; [done|]].
      * eapply seg_frame; [|exact Hs1]. intros f Hf. apply Hfr. intros Hin.
        apply NoDup_app in Hnd as (_ & Hdis & _). eapply Hdis; [|exact Hin]. by apply list_elem_of_fmap_2.
      * unfold handles. apply NoDup_app in Hnd as (Hn1 & Hdis & _). apply NoDup_app.
        split; [done|]. split; [|by apply NoDup_singleton].
        intros x Hx ->%list_elem_of_singleton. eapply Hdis; [exact Hx|]. apply hd_addr_in.
    + rewrite Htops. rewrite <- Htop. do 2 f_equal. by destruct fs.
  - intros Herr bs Hbs. rewrite <- Hc1. by apply Herr.
Qed.

(** ** Appending *)

Lemma builder_view md s fs h bs : builder md s fs h bs -> view md s fs h (Some bs).
Proof. intros Hb. exists [], h, bs. by rewrite app_nil_r. Qed.

(** A write of [n] new bytes [new] at the end of the innermost object. *)
Lemma append_spec md s fs h bs n new (f : list Z -> Z -> list Z) :
  builder md s fs h bs -> 0 <= n <= SIZE_MAX -> zlen new = n ->
  (forall a x c, zlen x = n -> f (a ++ x ++ c) (zlen a) = a ++ new ++ c) ->
  outcome ((p ← cbb_buffer_add n; b ← get_base; set_bytes (f (bb_buf b) p)) s)
    (fun _ s' => builder md s' fs h (bs ++ new) /\ s_cbb s' = s_cbb s)
    (~ room md (ctx_len fs + zlen bs + n)).
Proof.
  intros [(c & Hbuf & Hseg & Hlast & Hnd) Htop] Hn Hnew Hf.
  pose proof (seg_len _ _ _ _ _ Hseg) as Hc. cbn [app] in Hbuf.
  eapply outcome_bind; [by apply buffer_add_spec| |].
  { intros Herr Hroom. apply Herr. by replace (zlen (c ++ bs)) with (ctx_len fs + zlen bs) by zl. }
  intros p s1 (-> & Hm1 & x & Hx & Hb1).
  destruct (has_buf_open _ _ _ Hb1) as (b & spare & Hg & _ & Hbb & _ & Hset).
  eapply outcome_step; [exact Hg|]. rewrite Hbb, <- app_assoc, Hf by done.
  destruct (Hset ((c ++ bs) ++ new)) as (s2 & Hs & Hm2 & Hb2); [zl|].
  rewrite app_assoc, Hs. simpl. rewrite Hm2, Hm1. split; [|done]. split.
  - exists c. rewrite Hm2, Hm1. split; [|done]. by rewrite <- app_assoc in Hb2.
  - by rewrite Hm2, Hm1.
Qed.

Lemma add_spec md s fs h o n new f :
  view md s fs h o -> 0 <= n <= SIZE_MAX -> zlen new = n ->
  (forall a x c, zlen x = n -> f (a ++ x ++ c) (zlen a) = a ++ new ++ c) ->
  outcome ((_ ← CBB_flush h; p ← cbb_buffer_add n; b ← get_base; set_bytes (f (bb_buf b) p)) s)
    (fun _ s' => exists bs, o = Some bs /\ builder md s' fs h (bs ++ new))
    (forall bs, o = Some bs -> ~ room md (ctx_len fs + zlen bs + n)).
Proof.
  intros Hv Hn Hnew Hf. eapply outcome_bind; [by apply CBB_flush_spec| |].
  { intros Herr bs Hbs Hroom. apply (Herr bs Hbs). eapply room_mono; [|exact Hroom]. lia. }
  intros _ s1 (bs & -> & Hb). eapply outcome_impl; [by apply append_spec|..].
  - intros _ s' [Hb' _]. eauto.
  - by intros Herr ? [= <-].
Qed.

Lemma CBB_add_bytes_spec md s fs h o data n :
  view md s fs h o -> zlen data = n -> n <= SIZE_MAX ->
  outcome (CBB_add_bytes h data n s)
    (fun _ s' => exists bs, o = Some bs /\ builder md s' fs h (bs ++ data))
    (forall bs, o = Some bs -> ~ room md (ctx_len fs + zlen bs + n)).
Proof.
  intros Hv Hd Hn. apply (add_spec _ _ _ _ _ _ _ (fun b p => overwrite b p (ztake n data))); [done|zl|done|].
  intros a x c Hx. rewrite ztake_ge by lia. apply overwrite_app; [done|lia].
Qed.

Lemma cbb_add_u_spec md s fs h o v n :
  view md s fs h o -> (1 <= n <= 4)%nat -> 0 <= v ->
  outcome (cbb_add_u h v (Z.of_nat n) s)
    (fun _ s' => exists bs, o = Some bs /\ builder md s' fs h (bs ++ be_bytes n v))
    (forall bs, o = Some bs -> ~ room md (ctx_len fs + zlen bs + Z.of_nat n)).
Proof.
  intros Hv Hn Hpos. unfold cbb_add_u. decide_cmp.
  apply (add_spec _ _ _ _ _ _ _ (fun b p => fst (be_write b (Z.to_nat p) (Z.to_nat (Z.of_nat n)) v)));
    [done|unfold SIZE_MAX; lia|zl|].
  intros a x c Hx. rewrite Nat2Z.id. unfold zlen. rewrite Nat2Z.id. by rewrite be_write_spec.
Qed.

Lemma CBB_add_space_spec md s fs h o n :
  view md s fs h o -> 0 <= n <= SIZE_MAX ->
  outcome (CBB_add_space h n s)
    (fun p s' => exists bs, o = Some bs /\ p = ctx_len fs + zlen bs /\
       builder md s' fs h (bs ++ zeros n))
    (forall bs, o = Some bs -> ~ room md (ctx_len fs + zlen bs + n)).
Proof.
  intros Hv Hn. unfold CBB_add_space. eapply outcome_bind; [by apply CBB_flush_spec| |].
  { intros Herr bs Hbs Hroom. apply (Herr bs Hbs). eapply room_mono; [|exact Hroom]. lia. }
  intros _ s1 (bs & -> & [(c & Hbuf & Hseg & Hlast & Hnd) Htop]).
  pose proof (seg_len _ _ _ _ _ Hseg) as Hc. cbn [app] in Hbuf.
  eapply outcome_bind; [by apply buffer_add_spec| |].
  { intros Herr ? [= <-] Hroom. apply Herr.
    by replace (zlen (c ++ bs)) with (ctx_len fs + zlen bs) by zl. }
  intros p s2 (-> & Hm1 & x & Hx & Hb1).
  destruct (has_buf_open _ _ _ Hb1) as (b & spare & Hg & _ & Hbb & _ & Hset).
  eapply outcome_step; [exact Hg|]. rewrite Hbb, <- app_assoc, overwrite_app by zl.
  destruct (Hset ((c ++ bs) ++ zeros n)) as (s3 & Hs & Hm2 & Hb2); [zl|].
  rewrite (app_assoc (c ++ bs)). eapply outcome_step; [exact Hs|]. simpl. exists bs. split; [done|]. split; [zl|].
  split; [|by rewrite Hm2, Hm1]. exists c. rewrite Hm2, Hm1. split; [|done]. by rewrite <- app_assoc in Hb2.
Qed.

(** The four fixed-width writers refuse what does not fit and append the rest. *)
Lemma add_uN_spec md s fs h o v n (maxv : Z) :
  view md s fs h o -> (1 <= n <= 4)%nat -> 0 <= v -> maxv < 2 ^ 32 ->
  outcome ((if maxv <? v then fail else cbb_add_u h (wrap32 v) (Z.of_nat n)) s)
    (fun _ s' => v <= maxv /\ exists bs, o = Some bs /\ builder md s' fs h (bs ++ be_bytes n v))
    (v <= maxv -> forall bs, o = Some bs -> ~ room md (ctx_len fs + zlen bs + Z.of_nat n)).
Proof.
  intros Hv Hn Hpos Hmax. destruct (Z.ltb_spec maxv v).
  { apply outcome_fail. lia. }
  unfold wrap32. rewrite Z.mod_small by lia.
  eapply outcome_impl; [by apply cbb_add_u_spec|..]; [|done]. intros [] s' Hs. split; [lia|done].
Qed.

(** ** Opening a child *)

Lemma view_top_ne md s fs h o : view md s fs h o -> exists c, s_cbb s !! h = Some c.
Proof.
  intros (fs2 & hl & bl & -> & [(c & _ & Hseg & (cl & Hl & _) & _) _] & _).
  apply seg_app in Hseg as (c1 & c2 & _ & _ & Hs2).
  destruct fs2 as [|f fs2]; [by exists cl|]. destruct Hs2 as (top & ? & ? & Hf & _). eauto.
Qed.

(** After its [plen p] placeholder bytes are in the buffer, [h] becomes an open parent of [out]. *)
Lemma open_child md s fs h bs p ph out off c0 :
  builder md s fs h (bs ++ ph) -> zlen ph = plen p -> valid_pend p ->
  out <> h -> (out ∉ fh <$> fs) -> off = ctx_len fs + zlen bs ->
  s_cbb s !! h = Some c0 ->
  builder md (mkStore (s_base s)
    (<[h := mkCBB true off (Some out) (plen p) (is_asn1 p) (cbb_is_top_level c0)]>
      (<[out := mkCBB true 0 None 0 false false]> (s_cbb s))))
    (fs ++ [mkFrame h bs p]) out [].
Proof.
  intros [(c & Hbuf & Hseg & (cl & Hl & Hbase & Hch) & Hnd) Htop] Hph Hv Hne Hout -> H0.
  pose proof (seg_len _ _ _ _ _ Hseg) as Hc. cbn [app] in Hbuf.
  assert (Hh : h ∉ fh <$> fs).
  { unfold handles in Hnd. apply NoDup_app in Hnd as (_ & Hd & _). intros Hin.
    eapply Hd; [exact Hin|]. by apply list_elem_of_singleton. }
  split; [exists (c ++ bs ++ ph); cbn [s_cbb app]; split; [|split; [|split]]|].
  - rewrite app_nil_r. destruct Hbuf as (b & sp & Hb). by exists b, sp.
  - apply seg_app. exists c, (bs ++ ph). split; [done|]. cbn [hd_addr fh]. split.
    + eapply seg_frame; [|exact Hseg]. intros f Hf.
      rewrite lookup_insert_ne, lookup_insert_ne; [done|..];
        intros E; [apply Hout|apply Hh]; rewrite E; by apply list_elem_of_fmap_2.
    + exists (cbb_is_top_level c0), ph, []. cbn [fh fb fp hd_addr]. rewrite lookup_insert_eq.
      split; [|by rewrite app_nil_r]. do 2 f_equal. rewrite zlen_nil. lia.
  - eexists. rewrite lookup_insert_ne by done. by rewrite lookup_insert_eq.
  - unfold handles in *. rewrite fmap_app. cbn [fmap list_fmap fh].
    apply NoDup_app. split; [done|]. split; [|by apply NoDup_singleton].
    intros x Hx ->%list_elem_of_singleton. apply elem_of_app in Hx as [Hx|Hx%list_elem_of_singleton]; done.
  - cbn [s_cbb]. destruct fs as [|f fs]; cbn [app hd_addr fh] in *.
    + rewrite lookup_insert_eq. rewrite H0 in Htop. done.
    + rewrite lookup_insert_ne, lookup_insert_ne; [done|..].
      * intros ->. apply Hout. by left.
      * intros ->. apply Hh. by left.
Qed.

(** Looking at the builder from the parent again. *)
Lemma view_close md s fs h bs p out o :
  view md s (fs ++ [mkFrame h bs p]) out o ->
  view md s fs h (c ← o; e ← enc_prefix p (zlen c); Some (bs ++ e ++ c)).
Proof.
  intros (fs2 & hl & bl & -> & Hb & <-). rewrite <- app_assoc in Hb.
  exists (mkFrame h bs p :: fs2), hl, bl. done.
Qed.

(** Changing fields of the innermost object that say nothing about its contents. *)
Lemma builder_set_offset md s fs h bs c0 off :
  builder md s fs h bs -> s_cbb s !! h = Some c0 ->
  builder md (mkStore (s_base s) (<[h := mkCBB (cbb_base c0) off (cbb_child c0)
    (cbb_pending_len_len c0) (cbb_pending_is_asn1 c0) (cbb_is_top_level c0)]> (s_cbb s))) fs h bs.
Proof.
  intros [(c & Hbuf & Hseg & (cl & Hl & Hbase & Hch) & Hnd) Htop] H0.
  assert (cl = c0) as -> by congruence.
  assert (Hh : h ∉ fh <$> fs).
  { unfold handles in Hnd. apply NoDup_app in Hnd as (_ & Hd & _). intros Hin.
    eapply Hd; [exact Hin|]. by apply list_elem_of_singleton. }
  split; [exists c; cbn [s_cbb]; split; [|split; [|split]]|]; try done.
  - eapply seg_frame; [|exact Hseg]. intros f Hf. rewrite lookup_insert_ne; [done|].
    intros ->. apply Hh. by apply list_elem_of_fmap_2.
  - eexists. by rewrite lookup_insert_eq.
  - cbn [s_cbb]. destruct (decide (h = hd_addr fs h)) as [E|E].
    + rewrite <- E in *. rewrite lookup_insert_eq. by rewrite H0 in Htop.
    + by rewrite lookup_insert_ne.
Qed.

Lemma builder_base md s fs h bs c0 : builder md s fs h bs -> s_cbb s !! h = Some c0 -> cbb_base c0 = true.
Proof. intros [(c & _ & _ & (cl & Hl & Hb & _) & _) _] H0. congruence. Qed.
Lemma builder_len md s fs h bs :
  builder md s fs h bs -> exists b, get_base s = (Some b, s) /\ bb_len b = ctx_len fs + zlen bs.
Proof.
  intros [(c & Hbuf & Hseg & _) _]. apply seg_len in Hseg.
  destruct (has_buf_open _ _ _ Hbuf) as (b & sp & Hg & Hlen & _). exists b. split; [done|].
  rewrite Hlen. cbn [app]. zl.
Qed.

Lemma add_length_prefixed_spec md s fs h o out n :
  view md s fs h o -> (1 <= n <= 3)%nat -> out <> h -> (out ∉ fh <$> fs) ->
  outcome (cbb_add_length_prefixed h out (Z.of_nat n) s)
    (fun _ s' => exists bs, o = Some bs /\
       builder md s' (fs ++ [mkFrame h bs (LenPrefix n)]) out [])
    (forall bs, o = Some bs -> ~ room md (ctx_len fs + zlen bs + Z.of_nat n)).
Proof.
  intros Hv Hn Hne Hout. unfold cbb_add_length_prefixed.
  eapply outcome_bind; [by apply CBB_flush_spec| |].
  { intros Herr bs Hbs Hroom. apply (Herr bs Hbs). eapply room_mono; [|exact Hroom]. lia. }
  intros _ s1 (bs & -> & Hb). destruct (view_top_ne _ _ _ _ _ (builder_view _ _ _ _ _ Hb)) as [c0 H0].
  pose proof (builder_base _ _ _ _ _ _ Hb H0) as Hbase.
  eapply outcome_step; [unfold get_cbb; by rewrite H0|].
  destruct (builder_len _ _ _ _ _ Hb) as (b & Hg & Hlen).
  eapply outcome_step; [exact Hg|]. rewrite Hlen. cbv zeta.
  eapply outcome_step; [reflexivity|].
  pose proof (builder_set_offset _ _ _ _ _ _ (ctx_len fs + zlen bs) Hb H0) as Hb2.
  match goal with |- outcome ((mbind ?k (cbb_buffer_add ?n)) ?st) _ _ =>
    pose proof (append_spec md st fs h bs n (zeros n) (fun b p => overwrite b p (zeros n)) Hb2) as Ha end.
  specialize (Ha ltac:(unfold SIZE_MAX; lia) ltac:(zl)
    ltac:(intros a x c Hx; apply overwrite_app; zl)).
  rewrite bind_eq in Ha |- *. destruct (cbb_buffer_add _ _) as [[p|] s2]; [|by simpl in *; intros ? [= <-]].
  rewrite bind_eq in Ha |- *. destruct (get_base s2) as [[b2|] s3]; [|by simpl in *; intros ? [= <-]].
  rewrite bind_eq. destruct (set_bytes _ s3) as [[[]|] s4]; [|by simpl in *; intros ? [= <-]].
  destruct Ha as [Hb4 Hm4]. cbn [s_cbb] in Hm4.
  eapply outcome_step; [reflexivity|]. simpl. exists bs. split; [done|].
  rewrite Hbase. cbn [s_base s_cbb].
  eapply (open_child md s4 fs h bs (LenPrefix n) (zeros (Z.of_nat n)) out _
    (mkCBB _ _ _ _ _ (cbb_is_top_level c0)) Hb4); try done.
  - simpl. zl.
  - unfold valid_pend. simpl. lia.
  - by rewrite Hm4, lookup_insert_eq.
Qed.

Lemma be_bytes_1 v : is_byte v -> be_bytes 1 v = [v].
Proof. intros Hv. cbn. by rewrite Z.mod_small. Qed.

Lemma CBB_add_u8_spec md s fs h o v :
  view md s fs h o -> 0 <= v ->
  outcome (CBB_add_u8 h v s)
    (fun _ s' => is_byte v /\ exists bs, o = Some bs /\ builder md s' fs h (bs ++ [v]))
    (is_byte v -> forall bs, o = Some bs -> ~ room md (ctx_len fs + zlen bs + 1)).
Proof.
  intros Hv Hpos. unfold CBB_add_u8.
  eapply outcome_impl; [apply (add_uN_spec md s fs h o v 1 0xff); (done || lia)|..].
  - intros _ s' (Hle & bs & -> & Hb). unfold is_byte. split; [lia|]. exists bs. split; [done|].
    rewrite be_bytes_1 in Hb by (unfold is_byte; lia). done.
  - unfold is_byte. intros Herr ? bs ->. by apply Herr; [lia|].
Qed.

(** [CBB_add_u8] leaves the objects alone when nothing is pending. *)
Lemma CBB_add_u8_store h v s s' c0 :
  s_cbb s !! h = Some c0 -> cbb_child c0 = None -> CBB_add_u8 h v s = (Some tt, s') ->
  s_cbb s' = s_cbb s.
Proof.
  intros H0 Hch. unfold CBB_add_u8. destruct (_ <? v); [done|].
  unfold cbb_add_u. change (1 =? 0) with false. change (4 <? 1) with false. cbv beta iota.
  intros (? & s1 & Hf & HH)%bind_inv. unfold CBB_flush in Hf. cbn [cbb_flush] in Hf.
  apply bind_inv in Hf as (c & s2 & Hc & Hf). unfold get_cbb in Hc. rewrite H0 in Hc.
  injection Hc as <- <-. rewrite Hch in Hf. destruct (cbb_base c0); [|done]. cbn [negb] in Hf.
  injection Hf; intros; subst. clear Hf. apply bind_inv in HH as (p & s3 & Hadd & HH).
  assert (Hs3 : s_cbb s3 = s_cbb s1).
  { unfold cbb_buffer_add in Hadd. apply bind_inv in Hadd as (b & s4 & Hb & Hadd).
    unfold get_base in Hb. destruct (s_base s1); [|done]. injection Hb as <- <-.
    cbv zeta in Hadd. repeat (destruct (_ <? _); try done); repeat (destruct (negb _); try done).
    all: try (destruct (recallocarray _ _ _ _); [|done]); by injection Hadd as <- <-. }
  apply bind_inv in HH as (b & s4 & Hb & HH). unfold get_base in Hb. injection Hb as _ <-.
  unfold set_bytes in HH. apply bind_inv in HH as (b' & s5 & Hb' & HH).
  unfold get_base in Hb'. injection Hb' as _ <-. injection HH as <-. exact Hs3.
Qed.

Lemma CBB_add_asn1_spec md s fs h o out tag :
  view md s fs h o -> 0 <= tag -> out <> h -> (out ∉ fh <$> fs) ->
  outcome (CBB_add_asn1 h out tag s)
    (fun _ s' => valid_tag tag /\ exists bs, o = Some bs /\
       builder md s' (fs ++ [mkFrame h (bs ++ [tag]) Asn1Prefix]) out [])
    (valid_tag tag -> forall bs, o = Some bs -> ~ room md (ctx_len fs + zlen bs + 2)).
Proof.
  intros Hv Ht Hne Hout. unfold CBB_add_asn1. unfold valid_tag, is_byte.
  destruct (Z.ltb_spec 0xff tag); [simpl; lia|].
  destruct (Z.eqb_spec (Z.land tag 0x1f) 0x1f); [simpl; tauto|].
  eapply outcome_bind; [by apply CBB_flush_spec| |].
  { intros Herr _ bs Hbs Hroom. apply (Herr bs Hbs). eapply room_mono; [|exact Hroom]. lia. }
  intros _ s1 (bs & -> & Hb1).
  eapply outcome_bind; [apply CBB_add_u8_spec; [by apply builder_view|lia]| |].
  { intros Herr _ ? [= <-] Hroom. unfold is_byte in Herr. apply (Herr ltac:(lia) bs eq_refl).
    eapply room_mono; [|exact Hroom]. lia. }
  intros _ s2 (_ & ? & [= <-] & Hb2).
  destruct (view_top_ne _ _ _ _ _ (builder_view _ _ _ _ _ Hb2)) as [c0 Hc0].
  pose proof (builder_base _ _ _ _ _ _ Hb2 Hc0) as Hbase.
  assert (Hch : cbb_child c0 = None).
  { destruct Hb2 as [(c & _ & _ & (cl & Hl & _ & Hch) & _) _]. congruence. }
  eapply outcome_step; [unfold get_cbb; by rewrite Hc0|].
  destruct (builder_len _ _ _ _ _ Hb2) as (b & Hg & Hlen).
  eapply outcome_step; [exact Hg|]. rewrite Hlen. cbv zeta. eapply outcome_step; [reflexivity|].
  pose proof (builder_set_offset _ _ _ _ _ _ (ctx_len fs + zlen (bs ++ [tag])) Hb2 Hc0) as Hb3.
  set (s3 := mkStore _ _) in *.
  pose proof (CBB_add_u8_spec md s3 fs h _ 0 (builder_view _ _ _ _ _ Hb3) ltac:(lia)) as Ha.
  rewrite bind_eq. destruct (CBB_add_u8 h 0 s3) as [[[]|] s4] eqn:E4.
  2: { simpl in *. intros _ ? [= <-] Hroom. unfold is_byte in Ha. apply (Ha ltac:(lia) _ eq_refl).
       eapply room_mono; [|exact Hroom]. zl. }
  destruct Ha as (_ & ? & [= <-] & Hb4).
  apply (CBB_add_u8_store _ _ _ _ (mkCBB (cbb_base c0) (ctx_len fs + zlen (bs ++ [tag])) None
    (cbb_pending_len_len c0) (cbb_pending_is_asn1 c0) (cbb_is_top_level c0))) in E4; [|by rewrite <- Hch; apply lookup_insert_eq|done].
  eapply outcome_step; [reflexivity|]. simpl. split; [lia|]. exists bs. split; [done|].
  rewrite Hbase. cbn [s_base s_cbb].
  eapply (open_child md s4 fs h (bs ++ [tag]) Asn1Prefix [0] out _
    (mkCBB _ _ _ _ _ (cbb_is_top_level c0)) Hb4); try done.
  rewrite E4. unfold s3. cbn [s_cbb]. by rewrite lookup_insert_eq.
Qed.

End Refinement.
