(* ===== verification/CbbBuild.v ===== *)
(** * Whole messages built with CBB

    A message is described as a tree of the calls a client makes; [encode] is
    the byte string it stands for and [cbb_build] the calls.  The theorems say
    that building gives exactly [encode], for growable and for fixed buffers,
    and that the readers of [Cbs] give the tree back. *)
From S2P Require Import Prelude Compat Cbs Cbb CbbSpec.

Inductive msg :=
| Done
| Bytes (bs : list Z) (k : msg)
| Space (n : Z) (k : msg)
| UInt (n : nat) (v : Z) (k : msg)
| Prefixed (n : nat) (c k : msg)
| Asn1 (tag : Z) (c k : msg)
| Asn1Uint64 (v : Z) (k : msg).

(** The arguments a C caller can pass. *)
Fixpoint wf_msg (m : msg) : Prop :=
  match m with
  | Done => True
  | Bytes bs k => zlen bs <= SIZE_MAX /\ Forall is_byte bs /\ wf_msg k
  | Space n k => 0 <= n <= SIZE_MAX /\ wf_msg k
  | UInt n v k => (1 <= n <= 4)%nat /\ 0 <= v <= SIZE_MAX /\ wf_msg k
  | Prefixed n c k => (1 <= n <= 3)%nat /\ wf_msg c /\ wf_msg k
  | Asn1 tag c k => 0 <= tag /\ wf_msg c /\ wf_msg k
  | Asn1Uint64 v k => 0 <= v < 2 ^ 64 /\ wf_msg k
  end.

Definition valid_tagb (tag : Z) : bool := (tag <? 256) && negb (Z.land tag 0x1f =? 0x1f).

Fixpoint encode (m : msg) : option (list Z) :=
  match m with
  | Done => Some []
  | Bytes bs k => r ← encode k; Some (bs ++ r)
  | Space n k => r ← encode k; Some (zeros n ++ r)
  | UInt n v k => if v <? 256 ^ Z.of_nat n then r ← encode k; Some (be_bytes n v ++ r) else None
  | Prefixed n c k =>
      c ← encode c; e ← enc_prefix (LenPrefix n) (zlen c); r ← encode k; Some (e ++ c ++ r)
  | Asn1 tag c k =>
      if valid_tagb tag then
        c ← encode c; e ← enc_prefix Asn1Prefix (zlen c); r ← encode k; Some (tag :: e ++ c ++ r)
      else None
  | Asn1Uint64 v k => r ← encode k; Some (der_uint64 v ++ r)
  end.

Section Build.
Context `{Allocator}.

Definition add_uint (n : nat) : addr -> Z -> M store unit :=
  match n with 1%nat => CBB_add_u8 | 2%nat => CBB_add_u16 | 3%nat => CBB_add_u24 | _ => CBB_add_u32 end.
Definition add_prefixed (n : nat) : addr -> addr -> M store unit :=
  match n with
  | 1%nat => CBB_add_u8_length_prefixed
  | 2%nat => CBB_add_u16_length_prefixed
  | _ => CBB_add_u24_length_prefixed
  end.

(** A client that keeps the child CBB of depth [d] in its local variable [d]. *)
Fixpoint cbb_build (h : addr) (m : msg) : M store unit :=
  match m with
  | Done => mret tt
  | Bytes bs k => _ ← CBB_add_bytes h bs (zlen bs); cbb_build h k
  | Space n k => _ ← CBB_add_space h n; cbb_build h k
  | UInt n v k => _ ← add_uint n h v; cbb_build h k
  | Prefixed n c k => _ ← add_prefixed n h (S h); _ ← cbb_build (S h) c; cbb_build h k
  | Asn1 tag c k => _ ← CBB_add_asn1 h (S h) tag; _ ← cbb_build (S h) c; cbb_build h k
  | Asn1Uint64 v k => _ ← CBB_add_asn1_uint64 h (S h) v; cbb_build h k
  end.

(** ** Integers *)

Lemma be_bytes_S n v : 0 <= v -> be_bytes (S n) v = (v / 256 ^ Z.of_nat n) mod 256 :: be_bytes n v.
Proof.
  revert v. induction n as [|n IH]; intros v Hv.
  - cbn. by rewrite Z.div_1_r.
  - change (be_bytes (S (S n)) v) with (be_bytes (S n) (v / 256) ++ [v mod 256]).
    rewrite IH by (apply Z.div_pos; lia). cbn [app be_bytes]. f_equal.
    rewrite Nat2Z.inj_succ, Z.pow_succ_r, Z.div_div by lia. done.
Qed.

(** What the loop of [CBB_add_asn1_uint64] appends. *)
Fixpoint uint64_octets (v : Z) (n : nat) (started : bool) : list Z :=
  match n with
  | O => []
  | S k =>
      let byte := (v / 256 ^ Z.of_nat k) mod 256 in
      if negb started && (byte =? 0) then uint64_octets v k false
      else (if negb started && (128 <=? byte) then [0] else []) ++ byte :: uint64_octets v k true
  end.

Lemma uint64_octets_started v n : 0 <= v -> uint64_octets v n true = be_bytes n v.
Proof.
  intros Hv. induction n as [|n IH]; [done|]. rewrite be_bytes_S by done. cbn [uint64_octets negb andb app].
  by rewrite IH.
Qed.
Lemma uint64_octets_spec v n :
  (n <= 8)%nat -> 0 <= v < 256 ^ Z.of_nat n ->
  uint64_octets v n false = if v =? 0 then [] else be_bytes (der_uint_len v) v.
Proof.
  intros Hn. induction n as [|n IH]; intros Hv.
  - change (256 ^ Z.of_nat 0) with 1 in Hv. by assert (v = 0) as -> by lia.
  - rewrite Nat2Z.inj_succ, Z.pow_succ_r in Hv by lia. set (p := 256 ^ Z.of_nat n) in *.
    assert (Hp : 0 < p) by (apply Z.pow_pos_nonneg; lia).
    pose proof (Z.div_mod v p ltac:(lia)) as Hdm. pose proof (Z.mod_pos_bound v p Hp) as Hm.
    assert (Hq : 0 <= v / p < 256) by (split; [apply Z.div_pos; lia|apply Z.div_lt_upper_bound; lia]).
    assert (Hmax : p <= 256 ^ 7) by (apply Z.pow_le_mono_r; lia).
    cbn [uint64_octets negb andb]. fold p. rewrite (Z.mod_small (v / p)) by lia.
    destruct (Z.eqb_spec (v / p) 0) as [Hz|Hz]; [apply IH; lia|].
    rewrite (proj2 (Z.eqb_neq v 0)) by nia. rewrite uint64_octets_started by lia.
    assert (Hbs : v / p :: be_bytes n v = be_bytes (S n) v).
    { rewrite be_bytes_S by lia. fold p. by rewrite (Z.mod_small (v / p)) by lia. }
    destruct (Z.leb_spec 128 (v / p)) as [Hhi|Hlo]; cbn [app]; rewrite Hbs.
    + rewrite (der_uint_len_spec v (S (S n))); [|change (2 ^ 64) with (256 * 256 ^ 7); nia|lia|..].
      * rewrite (be_bytes_S (S n)) by lia. f_equal. rewrite Nat2Z.inj_succ, Z.pow_succ_r by lia.
        fold p. by rewrite Z.div_small by lia.
      * replace (Z.of_nat (S (S n)) - 1) with (Z.succ (Z.of_nat n)) by lia.
        rewrite Z.pow_succ_r by lia. fold p. lia.
      * right. replace (Z.of_nat (S (S n)) - 2) with (Z.of_nat n) by lia. fold p. nia.
    + rewrite (der_uint_len_spec v (S n)); [done|change (2 ^ 64) with (256 * 256 ^ 7); nia|lia|..].
      * replace (Z.of_nat (S n) - 1) with (Z.of_nat n) by lia. fold p. nia.
      * destruct n as [|n]; [by left|right].
        replace (Z.of_nat (S (S n)) - 2) with (Z.of_nat n) by lia.
        unfold p in *. rewrite Nat2Z.inj_succ, Z.pow_succ_r in * by lia. nia.
Qed.

Lemma octet_eq v k : 0 <= v -> Z.land (Z.shiftr v (8 * Z.of_nat k)) 0xff = (v / 256 ^ Z.of_nat k) mod 256.
Proof.
  intros Hv. change 0xff with (Z.ones 8). rewrite Z.land_ones by lia. rewrite Z.shiftr_div_pow2 by lia.
  by replace (2 ^ (8 * Z.of_nat k)) with (256 ^ Z.of_nat k) by (rewrite Z.pow_mul_r by lia; done).
Qed.

(** [CBB_add_u8] of a byte, seen through [view]. *)
Lemma add_byte_spec md s fs h bs v :
  view md s fs h (Some bs) -> is_byte v ->
  outcome (CBB_add_u8 h v s) (fun _ s' => view md s' fs h (Some (bs ++ [v])))
    (~ room md (ctx_len fs + zlen bs + 1)).
Proof.
  intros Hv Hb. eapply outcome_impl; [apply CBB_add_u8_spec; [done|unfold is_byte in *; lia]|..].
  - intros _ s' (_ & ? & [= <-] & Hb'). by apply builder_view.
  - intros Herr. by apply Herr.
Qed.

Lemma uint64_loop_spec md s fs ch bs v n started :
  view md s fs ch (Some bs) -> 0 <= v ->
  let o := uint64_octets v n started in
  outcome (asn1_uint64_octets ch v n started s)
    (fun st s' => view md s' fs ch (Some (bs ++ o)) /\ (st = started || negb (bool_decide (o = []))))
    (~ room md (ctx_len fs + zlen bs + zlen o)).
Proof.
  intros Hv Hpos. revert s bs started Hv. induction n as [|n IH]; intros s bs started Hv; cbv zeta.
  - cbn. rewrite app_nil_r. by destruct started.
  - cbn [asn1_uint64_octets uint64_octets]. cbv zeta. rewrite octet_eq by done.
    set (b := (v / _) mod 256). assert (Hb : is_byte b) by (apply Z.mod_pos_bound; lia).
    destruct (negb started && (b =? 0)) eqn:Ez.
    { destruct started; [done|]. by apply IH. }
    rewrite byte_land_80 by done.
    replace (negb ((if b <? 128 then 0 else 128) =? 0)) with (128 <=? b)
      by (destruct (Z.ltb_spec b 128), (Z.leb_spec 128 b); try done; lia).
    set (pad := negb started && (128 <=? b)).
    eapply (outcome_bind _ _ _ (fun _ s' => view md s' fs ch (Some (bs ++ if pad then [0] else [])))).
    { destruct pad; [apply add_byte_spec; [done|unfold is_byte; lia]|]. cbn. by rewrite app_nil_r. }
    { intros Herr Hroom. apply Herr. eapply room_mono; [|exact Hroom]. destruct pad; zl. }
    intros [] s1 Hv1. eapply outcome_bind; [by apply add_byte_spec| |].
    { intros Herr Hroom. apply Herr. eapply room_mono; [|exact Hroom]. destruct pad; zl. }
    intros [] s2 Hv2. eapply outcome_impl; [exact (IH s2 _ true Hv2)|..].
    + intros st s3 [Hv3 ->]. rewrite <- !app_assoc in Hv3. split; [exact Hv3|].
      cbn [orb]. rewrite bool_decide_false by (destruct pad; done). by rewrite orb_true_r.
    + intros Herr Hroom. apply Herr. eapply room_mono; [|exact Hroom]. destruct pad; zl.
Qed.

(** The view of a parent whose child was opened, in the terms of [encode]. *)
Lemma CBB_add_asn1_uint64_spec md s fs h o v :
  view md s fs h o -> 0 <= v < 2 ^ 64 -> (S h ∉ fh <$> fs) ->
  outcome (CBB_add_asn1_uint64 h (S h) v s)
    (fun _ s' => exists bs, o = Some bs /\ view md s' fs h (Some (bs ++ der_uint64 v)))
    (forall bs, o = Some bs -> ~ room md (ctx_len fs + zlen bs + zlen (der_uint64 v))).
Proof.
  intros Hv Hrange Hout. unfold CBB_add_asn1_uint64.
  destruct (der_uint_len_bounds v Hrange) as (Hn & _ & _). set (n := der_uint_len v) in *.
  assert (Hd : der_uint64 v = 2 :: der_len (zlen (be_bytes n v)) ++ be_bytes n v) by done.
  assert (Hdl : 1 <= zlen (der_len (zlen (be_bytes n v)))) by (apply zlen_der_len; zl).
  eapply outcome_bind; [apply CBB_add_asn1_spec; [done|done|lia|done]| |].
  { intros Herr bs Hbs Hroom. apply (Herr ltac:(done) bs Hbs). eapply room_mono; [|exact Hroom].
    rewrite Hd. zl. }
  intros _ s1 (_ & bs & -> & Hb1).
  set (fs1 := fs ++ [mkFrame h (bs ++ [CBS_ASN1_INTEGER]) Asn1Prefix]) in *.
  assert (Hctx : ctx_len fs1 = ctx_len fs + zlen bs + 2).
  { unfold fs1. rewrite ctx_len_app. cbn. zl. }
  assert (Hoct : uint64_octets v 8 false = if v =? 0 then [] else be_bytes n v)
    by (apply uint64_octets_spec; [lia|simpl; lia]).
  eapply outcome_bind; [apply uint64_loop_spec; [by apply builder_view|lia]| |]; rewrite Hoct.
  { intros Herr ? [= <-] Hroom. apply Herr. eapply room_mono; [|exact Hroom].
    rewrite Hctx, Hd. destruct (v =? 0); zl. }
  intros st s2 [Hv2 Hst]. cbn [app] in Hv2.
  eapply (outcome_bind _ _ _ (fun _ s' => view md s' fs1 (S h) (Some (be_bytes n v)))).
  { destruct (Z.eqb_spec v 0) as [->|Hnz].
    - rewrite bool_decide_true in Hst by done. cbn in Hst. rewrite Hst. cbn [negb].
      apply (add_byte_spec md s2 fs1 (S h) []); [done|unfold is_byte; lia].
    - rewrite bool_decide_false in Hst by (intros E; apply (f_equal zlen) in E; zl).
      rewrite Hst. by cbn. }
  { intros Herr ? [= <-] Hroom. apply Herr. eapply room_mono; [|exact Hroom]. rewrite Hctx, Hd. zl. }
  intros [] s3 Hv3. apply view_close in Hv3. cbn [mbind option_bind enc_prefix] in Hv3.
  rewrite (proj2 (Z.leb_le _ _)) in Hv3 by zl. cbn in Hv3. rewrite <- app_assoc in Hv3.
  eapply outcome_impl; [by apply CBB_flush_spec|..].
  - intros _ s4 (? & [= <-] & Hb4). exists bs. split; [done|]. by apply builder_view.
  - intros Herr ? [= <-] Hroom. apply (Herr _ eq_refl). eapply room_mono; [|exact Hroom]. rewrite Hd. zl.
Qed.

(** ** Building a tree *)

(** A call on [h] that appends [new], and a call that opens a child of [h]. *)
Definition appends {A} (md : mode) (h : addr) (fs : list frame) (op : M store A) (new : list Z) : Prop :=
  forall s o, view md s fs h o ->
  outcome (op s) (fun _ s' => exists bs, o = Some bs /\ view md s' fs h (Some (bs ++ new)))
    (forall bs, o = Some bs -> ~ room md (ctx_len fs + zlen bs + zlen new)).
Definition opens (md : mode) (h : addr) (fs : list frame) (op : M store unit) (t : list Z) (p : pend) : Prop :=
  forall s o, view md s fs h o ->
  outcome (op s)
    (fun _ s' => exists bs, o = Some bs /\ builder md s' (fs ++ [mkFrame h (bs ++ t) p]) (S h) [])
    (forall bs, o = Some bs -> ~ room md (ctx_len fs + zlen bs + zlen t + plen p)).

(** The client's calls for [m] on [h] append [encode m]. *)
Definition builds (md : mode) (m : msg) : Prop :=
  forall s fs h o, view md s fs h o -> Forall (fun f => fh f < h)%nat fs ->
  outcome (cbb_build h m s)
    (fun _ s' => view md s' fs h (a ← o; c ← encode m; Some (a ++ c)))
    (forall a c, o = Some a -> encode m = Some c -> ~ room md (ctx_len fs + zlen a + zlen c)).

Lemma build_append {A} md s fs h o (op : M store A) new k :
  appends md h fs op new -> builds md k -> view md s fs h o -> Forall (fun f => fh f < h)%nat fs ->
  let m := r ← encode k; Some (new ++ r) in
  outcome ((_ ← op; cbb_build h k) s)
    (fun _ s' => view md s' fs h (a ← o; c ← m; Some (a ++ c)))
    (forall a c, o = Some a -> m = Some c -> ~ room md (ctx_len fs + zlen a + zlen c)).
Proof.
  intros Hop Hk Hv Hfs. cbv zeta. eapply outcome_bind; [by apply Hop| |].
  { intros Herr a c Ha. destruct (encode k) as [r|]; [|done]. intros [= <-] Hroom.
    apply (Herr a Ha). eapply room_mono; [|exact Hroom]. zl. }
  intros a1 s1 (bs & -> & Hv1). eapply outcome_impl; [by apply Hk|..].
  - intros [] s2. cbn. destruct (encode k); cbn; [|done]. by rewrite <- app_assoc.
  - intros Herr ? c [= <-]. destruct (encode k) as [r|]; [|done]. intros [= <-] Hroom.
    eapply Herr; [done|done|]. eapply room_mono; [|exact Hroom]. zl.
Qed.

Lemma enc_prefix_len p L e : valid_pend p -> enc_prefix p L = Some e -> plen p <= zlen e.
Proof.
  intros _. destruct p; cbn; [destruct (_ <? _); [|done]|destruct (_ <=? _); [|done]]; intros [= <-].
  - zl.
  - rewrite der_len_shape. zl.
Qed.

Lemma build_child md s fs h o op t p c k :
  opens md h fs op t p -> valid_pend p -> builds md c -> builds md k ->
  view md s fs h o -> Forall (fun f => fh f < h)%nat fs ->
  let m := c ← encode c; e ← enc_prefix p (zlen c); r ← encode k; Some (t ++ e ++ c ++ r) in
  outcome ((_ ← op; _ ← cbb_build (S h) c; cbb_build h k) s)
    (fun _ s' => view md s' fs h (a ← o; b ← m; Some (a ++ b)))
    (forall a b, o = Some a -> m = Some b -> ~ room md (ctx_len fs + zlen a + zlen b)).
Proof.
  intros Hop Hp Hc Hk Hv Hfs. cbv zeta.
  assert (Hm : forall b, (c ← encode c; e ← enc_prefix p (zlen c); r ← encode k; Some (t ++ e ++ c ++ r)) = Some b ->
    exists c' e r, encode c = Some c' /\ enc_prefix p (zlen c') = Some e /\ plen p <= zlen e /\
      encode k = Some r /\ b = t ++ e ++ c' ++ r).
  { intros b. destruct (encode c) as [c'|]; [cbn|done].
    destruct (enc_prefix p (zlen c')) as [e|] eqn:He; [cbn|done]. destruct (encode k) as [r|]; [cbn|done].
    intros [= <-]. exists c', e, r. split_and!; eauto using enc_prefix_len. }
  eapply outcome_bind; [by apply Hop| |].
  { intros Herr a b Ha (c' & e & r & _ & _ & He & _ & ->)%Hm Hroom.
    apply (Herr a Ha). eapply room_mono; [|exact Hroom]. zl. }
  intros _ s1 (bs & -> & Hb1). eapply outcome_bind.
  { apply Hc; [by apply builder_view|]. apply Forall_app. split.
    - eapply Forall_impl; [exact Hfs|]. intros f Hf. cbv beta in *. lia.
    - repeat constructor. }
  { intros Herr ? b [= <-] (c' & e & r & Hc' & _ & He & _ & ->)%Hm Hroom.
    eapply Herr; [done|done|]. eapply room_mono; [|exact Hroom].
    rewrite ctx_len_app. cbn [ctx_len fb fp]. zl. }
  intros [] s2 Hv2. apply view_close in Hv2. eapply outcome_impl; [by apply Hk|..].
  - intros [] s3. cbn. destruct (encode c) as [c'|]; cbn; [|done].
    destruct (enc_prefix p (zlen c')) as [e|]; cbn; [|done]. destruct (encode k); cbn; [|done].
    by rewrite <- !app_assoc.
  - intros Herr ? b [= <-] (c' & e & r & Hc' & He & _ & Hr & ->)%Hm Hroom. rewrite Hc' in Herr. cbn in Herr.
    rewrite He in Herr. cbn in Herr. eapply Herr; [done|done|]. eapply room_mono; [|exact Hroom]. zl.
Qed.

Lemma fresh_child fs (h : addr) : Forall (fun f => fh f < h)%nat fs -> S h ∉ fh <$> fs.
Proof.
  intros Hfs Hin. apply list_elem_of_fmap in Hin as (f & Hf & Hin). rewrite Forall_forall in Hfs.
  apply Hfs in Hin. lia.
Qed.

Lemma add_uint_spec md s fs h o n v :
  view md s fs h o -> (1 <= n <= 4)%nat -> 0 <= v ->
  outcome (add_uint n h v s)
    (fun _ s' => v < 256 ^ Z.of_nat n /\ exists bs, o = Some bs /\ view md s' fs h (Some (bs ++ be_bytes n v)))
    (v < 256 ^ Z.of_nat n -> forall bs, o = Some bs -> ~ room md (ctx_len fs + zlen bs + Z.of_nat n)).
Proof.
  intros Hv Hn Hpos.
  assert (Hgen : forall maxv, maxv = 256 ^ Z.of_nat n - 1 -> maxv < 2 ^ 32 ->
    outcome ((if maxv <? v then fail else cbb_add_u h (wrap32 v) (Z.of_nat n)) s)
    (fun _ s' => v < 256 ^ Z.of_nat n /\ exists bs, o = Some bs /\ view md s' fs h (Some (bs ++ be_bytes n v)))
    (v < 256 ^ Z.of_nat n -> forall bs, o = Some bs -> ~ room md (ctx_len fs + zlen bs + Z.of_nat n))).
  { intros maxv Hm Hmax. eapply outcome_impl; [by apply add_uN_spec|..].
    - intros _ s' (Hle & bs & -> & Hb). split; [lia|]. exists bs. split; [done|]. by apply builder_view.
    - intros Herr Hlt. apply Herr. lia. }
  destruct n as [|[|[|[|[|n]]]]]; try lia;
    [apply (Hgen 0xff)|apply (Hgen 0xffff)|apply (Hgen 0xffffff)|apply (Hgen 0xffffffff)]; done.
Qed.

Lemma add_prefixed_opens md fs h n :
  (1 <= n <= 3)%nat -> Forall (fun f => fh f < h)%nat fs -> opens md h fs (add_prefixed n h (S h)) [] (LenPrefix n).
Proof.
  intros Hn Hfs s o Hv.
  replace (add_prefixed n h (S h)) with (cbb_add_length_prefixed h (S h) (Z.of_nat n))
    by (destruct n as [|[|[|[|n]]]]; try lia; done).
  eapply outcome_impl; [apply add_length_prefixed_spec; [done|done|lia|]|..].
  - by apply fresh_child.
  - intros _ s' (bs & -> & Hb). exists bs. by rewrite app_nil_r.
  - intros Herr bs Hbs Hroom. apply (Herr bs Hbs). eapply room_mono; [|exact Hroom]. cbn [plen]. zl.
Qed.

Lemma valid_tagb_spec t : 0 <= t -> valid_tagb t = true <-> valid_tag t.
Proof.
  intros Ht. unfold valid_tagb, valid_tag, is_byte. rewrite andb_true_iff, negb_true_iff, Z.ltb_lt, Z.eqb_neq.
  split; intros []; split; (done || lia).
Qed.

Lemma appends_of {A} md h fs (op : M store A) new :
  (forall s o, view md s fs h o ->
     outcome (op s) (fun _ s' => exists bs, o = Some bs /\ builder md s' fs h (bs ++ new))
       (forall bs, o = Some bs -> ~ room md (ctx_len fs + zlen bs + zlen new))) ->
  appends md h fs op new.
Proof.
  intros Hop s o Hv. eapply outcome_impl; [by apply Hop| |done].
  intros a s' (bs & -> & Hb). exists bs. split; [done|]. by apply builder_view.
Qed.

Lemma cbb_build_spec md m : wf_msg m -> builds md m.
Proof.
  induction m as [|bs k IHk|n k IHk|n v k IHk|n c IHc k IHk|t c IHc k IHk|v k IHk]; intros Hwf s fs h o Hv Hfs;
    cbn [cbb_build encode wf_msg] in *; pose proof (fresh_child _ _ Hfs) as Hfresh.
  - cbn. destruct o; cbn; by rewrite ?app_nil_r.
  - destruct Hwf as (Hl & _ & Hk). apply build_append; [|by apply IHk|done|done].
    apply appends_of. intros. by apply CBB_add_bytes_spec.
  - destruct Hwf as (Hl & Hk). apply build_append; [|by apply IHk|done|done]. apply appends_of. intros s1 o1 Hv1.
    eapply outcome_impl; [by apply CBB_add_space_spec|..].
    + intros p s' (b & -> & -> & Hb). eauto.
    + intros Herr b Hb. rewrite zlen_zeros by lia. by apply Herr.
  - destruct Hwf as (Hn & Hl & Hk). destruct (Z.ltb_spec v (256 ^ Z.of_nat n)).
    + apply build_append; [|by apply IHk|done|done]. intros s1 o1 Hv1.
      eapply outcome_impl; [apply add_uint_spec; [done|done|lia]|..]; [by intros [] s' []|].
      intros Herr b Hb. rewrite zlen_be_bytes. by apply Herr.
    + eapply outcome_bind; [apply add_uint_spec; [done|done|lia]| |]; [done|]. intros _ s' []. lia.
  - destruct Hwf as (Hn & Hc & Hk). apply (build_child md s fs h o _ [] (LenPrefix n)); eauto using add_prefixed_opens.
    unfold valid_pend. cbn. lia.
  - destruct Hwf as (Ht & Hc & Hk). pose proof (valid_tagb_spec t Ht) as Hvt. destruct (valid_tagb t).
    + apply (build_child md s fs h o _ [t] Asn1Prefix); try done; eauto. intros s1 o1 Hv1.
      eapply outcome_impl; [apply CBB_add_asn1_spec; [done|done|lia|done]|..].
      * intros _ s' (_ & ?). done.
      * intros Herr b Hb Hroom. apply (Herr ltac:(by apply Hvt) b Hb). eapply room_mono; [|exact Hroom]. cbn [plen]. zl.
    + eapply outcome_bind; [apply CBB_add_asn1_spec; [done|done|lia|done]| |]; [done|].
      intros _ s' (Hbad & _). by apply Hvt in Hbad.
  - destruct Hwf as (Hl & Hk). apply build_append; [|by apply IHk|done|done]. intros s1 o1 Hv1.
    by apply CBB_add_asn1_uint64_spec.
Qed.

(** ** From initialisation to the finished message *)

Lemma fresh_builder md h bytes c0 m :
  bb_buf c0 = bytes -> bb_len c0 = 0 -> bb_cap c0 = zlen bytes -> zlen bytes <= SIZE_MAX -> buf_mode md c0 ->
  m !! h = Some (mkCBB true 0 None 0 false true) -> builder md (mkStore (Some c0) m) [] h [].
Proof.
  intros Hb Hl Hc Hm Hmd Hh. split; [|cbn; by rewrite Hh].
  exists []. split; [|split; [done|split; [by eexists|by apply NoDup_singleton]]].
  exists c0, bytes. split_and!; try done; rewrite ?Hb; (done || lia).
Qed.

Lemma CBB_init_spec s h cap :
  0 <= cap <= SIZE_MAX ->
  outcome (CBB_init h cap s) (fun _ s' => builder Grow s' [] h []) (~ room Grow 0).
Proof.
  intros Hcap. unfold CBB_init. eapply outcome_step; [done|]. cbv zeta.
  set (n := if cap =? 0 then _ else _).
  assert (Hn : 0 <= n <= SIZE_MAX) by (unfold n, CBB_INITIAL_SIZE, SIZE_MAX in *; destruct (cap =? 0); lia).
  destruct (malloc_ok n) eqn:E1; [|cbn; intros [Hall _]; rewrite Hall in E1 by lia; done].
  unfold cbb_init. destruct (malloc_ok sizeof_cbb_buffer) eqn:E2;
    [|cbn; intros [Hall _]; rewrite Hall in E2 by (unfold sizeof_cbb_buffer, SIZE_MAX; lia); done].
  eapply outcome_step; [done|]. eapply outcome_step; [unfold get_cbb; cbn; by rewrite lookup_insert_eq|].
  cbn. eapply (fresh_builder _ _ (zeros n)); try done; cbn; rewrite ?zlen_zeros by lia; (done || lia || idtac).
  by rewrite lookup_insert_eq.
Qed.

Lemma CBB_init_fixed_spec s h bytes :
  zlen bytes <= SIZE_MAX ->
  outcome (CBB_init_fixed h bytes (zlen bytes) s) (fun _ s' => builder (Fixed (zlen bytes)) s' [] h [])
    (malloc_ok sizeof_cbb_buffer = false).
Proof.
  intros Hl. unfold CBB_init_fixed. eapply outcome_step; [done|]. unfold cbb_init.
  destruct (malloc_ok sizeof_cbb_buffer); [|done]. eapply outcome_step.
  { erewrite bind_some by done. erewrite bind_some by (unfold get_cbb; cbn; by rewrite lookup_insert_eq). done. }
  cbn. eapply (fresh_builder _ _ bytes); try done. cbn. by rewrite lookup_insert_eq.
Qed.

Definition buf_size (md : mode) (buf : list Z) : Prop :=
  match md with Grow => True | Fixed k => zlen buf = k end.

(** The buffer that [CBB_finish] hands over starts with the message; the builder is gone. *)
Lemma CBB_finish_spec md s h o want :
  view md s [] h o ->
  outcome (CBB_finish h want s)
    (fun r s' => exists bs, o = Some bs /\ snd r = zlen bs /\ ztake (snd r) (fst r) = bs /\ buf_size md (fst r) /\ s_base s' = None)
    (forall bs, o = Some bs -> (md = Grow -> want = true) -> ~ room md (zlen bs)).
Proof.
  intros Hv. unfold CBB_finish.
  assert (Ht : exists c, s_cbb s !! h = Some c /\ cbb_is_top_level c = true).
  { destruct Hv as (fs2 & hl & bl & -> & [_ Ht] & _). cbn in Ht.
    destruct (s_cbb s !! _) as [c|]; [|done]. exists c. by injection Ht. }
  destruct Ht as (c & Hc & Ht). eapply outcome_step; [unfold get_cbb; by rewrite Hc|]. rewrite Ht. cbn [negb].
  eapply outcome_bind; [by apply CBB_flush_spec| |].
  { intros Herr bs Hbs _. specialize (Herr bs Hbs). by cbn in Herr. }
  intros _ s1 (bs & -> & Hb). destruct Hb as [(c1 & Hbuf & Hseg & (cl & Hl & Hbase & _) & _) _].
  cbn in Hseg. subst c1. cbn [app] in Hbuf.
  destruct Hbuf as (b & sp & Hg & Hbb & Hlen & Hcap & _ & Hmd).
  eapply outcome_step; [unfold get_base; by rewrite Hg|]. destruct (bb_can_resize b && negb want) eqn:E.
  { cbn. intros ? [= <-] Hw. destruct md; cbn in Hmd; [rewrite Hw in E by done|destruct Hmd as [Hmd _]];
      rewrite Hmd in E; done. }
  unfold CBB_cleanup. eapply (outcome_bind _ _ _ (fun _ s' => s_base s' = None) _ False).
  - eapply outcome_step; [unfold get_cbb; by rewrite Hl|]. rewrite Hbase. cbn. done.
  - done.
  - intros [] s2 Hs2. cbn. exists bs. rewrite Hlen. split_and!; try done.
    + rewrite Hbb. by apply ztake_app_eq.
    + destruct md; cbn in *; [done|]. destruct Hmd. congruence.
Qed.

(** The calls a client makes to marshal a message, with a buffer that grows and with
    a buffer of its own. *)
Definition cbb_marshal (capacity : Z) (m : msg) : M store (list Z * Z) :=
  _ ← CBB_init 0%nat capacity; _ ← cbb_build 0%nat m; CBB_finish 0%nat true.
Definition cbb_marshal_fixed (bytes : list Z) (m : msg) : M store (list Z * Z) :=
  _ ← CBB_init_fixed 0%nat bytes (zlen bytes); _ ← cbb_build 0%nat m; CBB_finish 0%nat false.

Lemma build_finish md s m want :
  wf_msg m -> builder md s [] 0%nat [] -> (md = Grow -> want = true) ->
  outcome ((_ ← cbb_build 0%nat m; CBB_finish 0%nat want) s)
    (fun r s' => exists bs, encode m = Some bs /\ snd r = zlen bs /\ ztake (snd r) (fst r) = bs /\ buf_size md (fst r) /\ s_base s' = None)
    (forall bs, encode m = Some bs -> ~ room md (zlen bs)).
Proof.
  intros Hm Hb Hw. eapply outcome_bind; [apply cbb_build_spec; [done|by apply builder_view|constructor]| |].
  { intros Herr bs Hbs Hroom. eapply Herr; [done|done|]. by cbn. }
  intros [] s1 Hv. cbn in Hv. eapply outcome_impl; [by apply CBB_finish_spec|..].
  - intros r s2 (bs & Hbs & ?). exists bs. by destruct (encode m).
  - intros Herr bs Hbs. apply Herr; [|done]. by rewrite Hbs.
Qed.

Lemma cbb_marshal_spec capacity m s :
  wf_msg m -> 0 <= capacity <= SIZE_MAX ->
  outcome (cbb_marshal capacity m s)
    (fun r s' => encode m = Some (ztake (snd r) (fst r)) /\ 0 <= snd r <= zlen (fst r) /\ s_base s' = None)
    (forall bs, encode m = Some bs -> ~ room Grow (zlen bs)).
Proof.
  intros Hm Hc. unfold cbb_marshal. eapply outcome_bind; [by apply CBB_init_spec|..].
  - intros Herr bs _ Hroom. apply Herr. eapply room_mono; [|exact Hroom]. zl.
  - intros [] s1 Hb. eapply outcome_impl; [by eapply build_finish|..]; [|done].
    intros [buf len] s2 (bs & He & Hl & Ht & _ & Hs). cbn [fst snd] in *. rewrite Ht.
    split; [done|]. split; [|done]. apply (f_equal zlen) in Ht. zl.
Qed.

(** Dropping a child drops its bytes, its descendants' and the length prefix. *)
Lemma seg_head_len m start f fs nh c :
  seg m start (f :: fs) nh c -> exists x, c = fb f ++ x.
Proof. intros (top & ph & rest & _ & _ & _ & -> & _). by exists (ph ++ rest). Qed.

Lemma CBB_discard_child_spec md s fs h bs p fs2 hl bl :
  builder md s (fs ++ mkFrame h bs p :: fs2) hl bl ->
  outcome (CBB_discard_child h s) (fun _ s' => builder md s' fs h bs) False.
Proof.
  intros [(c & Hbuf & Hseg & Hlast & Hnd) Htop]. rewrite handles_app in Hnd.
  apply NoDup_app in Hnd as (Hn1 & Hdis & Hn2). apply handles_not_in in Hn2 as [Hnin _].
  cbn [fh] in Hnin.
  apply seg_app in Hseg as (c1 & c2 & -> & Hs1 & Hs2). cbn [hd_addr fh] in Hs1.
  pose proof (seg_head_len _ _ _ _ _ _ Hs2) as [x Hx]. cbn [fb] in Hx.
  destruct Hs2 as (top & ph & rest & Hf & _ & _ & _ & Hs3). cbn [fh fb fp] in Hf.
  unfold CBB_discard_child. eapply outcome_step; [unfold get_cbb; by rewrite Hf|]. cbn [cbb_child cbb_offset].
  destruct Hbuf as (b & sp & Hg & Hbb & Hlen & Hcap & Hmax & Hmd).
  eapply outcome_step; [unfold get_base; by rewrite Hg|]. eapply outcome_step; [done|].
  set (ch := hd_addr fs2 hl) in *.
  assert (Hch : ch ∈ handles fs2 hl) by apply hd_addr_in.
  assert (Hchs : exists cc, s_cbb s !! ch = Some cc).
  { unfold ch. destruct fs2 as [|f2 fs2]; [by destruct Hlast as (cl & ? & _); exists cl|].
    destruct Hs3 as (t2 & ? & ? & Hf2 & _). by eexists. }
  destruct Hchs as [cc Hcc]. eapply outcome_step; [unfold get_cbb; cbn [s_cbb]; by rewrite Hcc|].
  eapply outcome_step; [done|]. cbn [set_cbb modS outcome s_base s_cbb].
  assert (Hne : ch <> h) by (intros ->; done).
  assert (Hfs : forall f, f ∈ fs -> fh f <> h /\ fh f <> ch).
  { intros f Hin. apply (list_elem_of_fmap_2 fh) in Hin. split; intros E; rewrite E in Hin; eapply Hdis; eauto;
      [by left|by right]. }
  split; [exists c1; cbn [s_cbb]; split; [|split; [|split]]|].
  - eexists _, (x ++ bl ++ sp). split; [done|]. cbn [bb_buf bb_len bb_cap app] in *.
    rewrite zlen_nil, Z.add_0_l. rewrite Hbb in Hcap |- *. subst c2. rewrite <- !app_assoc.
    split_and!; try done; zl.
  - eapply seg_frame; [|exact Hs1]. intros f [? ?]%Hfs. by rewrite !lookup_insert_ne.
  - eexists. by rewrite lookup_insert_eq.
  - unfold handles. apply NoDup_app. split_and!; [done| |by apply NoDup_singleton].
    intros y Hy ->%list_elem_of_singleton. eapply Hdis; [exact Hy|by left].
  - cbn [s_cbb]. destruct fs as [|f fs]; cbn [app hd_addr fh] in *.
    + rewrite Hf in Htop. by rewrite lookup_insert_eq.
    + destruct (Hfs f) as [? ?]; [by left|]. by rewrite !lookup_insert_ne.
Qed.

(** C4: A client that marshals a message (any tree of fixed-width integers, byte strings, zeroed
    space, length-prefixed parts, ASN.1 elements and ASN.1 integers) into a growing buffer gets, when
    the calls return 1, exactly the bytes of [encode], and the builder's buffer has been handed over;
    when they return 0, either the message has no encoding (a value or a length does not fit its
    field) or memory ran out. *)
Theorem cbb_marshal_encodes capacity m s :
  wf_msg m -> 0 <= capacity <= SIZE_MAX ->
  outcome (cbb_marshal capacity m s)
    (fun r s' => encode m = Some (ztake (snd r) (fst r)) /\ 0 <= snd r <= zlen (fst r) /\ s_base s' = None)
    (forall bs, encode m = Some bs -> ~ room Grow (zlen bs)).
Proof. apply cbb_marshal_spec. Qed.

(** The same into a caller's fixed buffer: on success the first bytes of the buffer are
    [encode m]; failure means that the message has no encoding or is longer than the buffer (or
    the small builder object could not be allocated).  Nothing is ever written past the buffer's end. *)
Theorem cbb_marshal_fixed_encodes bytes m s :
  wf_msg m -> zlen bytes <= SIZE_MAX ->
  outcome (cbb_marshal_fixed bytes m s)
    (fun r s' => encode m = Some (ztake (snd r) (fst r)) /\ snd r <= zlen bytes /\
                 zlen (fst r) = zlen bytes /\ s_base s' = None)
    (malloc_ok sizeof_cbb_buffer = true -> forall bs, encode m = Some bs -> zlen bytes < zlen bs).
Proof.
  intros Hm Hc. unfold cbb_marshal_fixed. eapply outcome_bind; [by apply CBB_init_fixed_spec|..].
  - congruence.
  - intros [] s1 Hb. eapply outcome_impl; [by eapply build_finish|..].
    + intros [buf len] s2 (bs & He & Hl & Ht & Hsz & Hs). cbn [fst snd buf_size] in *. rewrite Ht.
      split_and!; try done. apply (f_equal zlen) in Ht. zl.
    + cbn [room]. intros Herr _ bs Hbs. specialize (Herr bs Hbs). lia.
Qed.

(** Marshalling with a length-prefixed child that is dropped again. *)
Definition cbb_marshal_discard (capacity : Z) (a : msg) (n : nat) (c k : msg) : M store (list Z * Z) :=
  _ ← CBB_init 0%nat capacity; _ ← cbb_build 0%nat a;
  _ ← add_prefixed n 0%nat 1%nat; _ ← cbb_build 1%nat c; _ ← CBB_discard_child 0%nat;
  _ ← cbb_build 0%nat k; CBB_finish 0%nat true.

(** [CBB_discard_child] undoes the child: whatever was written into it (even contents too long
    for its length prefix), neither the contents nor the length prefix are part of the output, and
    what the client writes before and after it is. *)
Theorem CBB_discard_child_undoes capacity a n c k s :
  wf_msg a -> wf_msg c -> wf_msg k -> (1 <= n <= 3)%nat -> 0 <= capacity <= SIZE_MAX ->
  outcome (cbb_marshal_discard capacity a n c k s)
    (fun r s' => exists ea ek, encode a = Some ea /\ encode k = Some ek /\
                 ztake (snd r) (fst r) = ea ++ ek /\ s_base s' = None)
    (forall ea ec ek, encode a = Some ea -> encode c = Some ec -> encode k = Some ek ->
     ~ room Grow (zlen ea + Z.max (Z.of_nat n + zlen ec) (zlen ek))).
Proof.
  intros Ha Hc Hk Hn Hcap. unfold cbb_marshal_discard. eapply outcome_bind; [by apply CBB_init_spec|..].
  { intros Herr ea ec ek _ _ _ Hroom. apply Herr. eapply room_mono; [|exact Hroom]. zl. }
  intros [] s1 Hb. eapply outcome_bind; [apply cbb_build_spec; [done|by apply builder_view|constructor]| |].
  { intros Herr ea ec ek Hea _ _ Hroom. eapply Herr; [done|done|]. eapply room_mono; [|exact Hroom]. cbn. zl. }
  intros [] s2 Hv. cbn in Hv. eapply outcome_bind; [by apply (add_prefixed_opens Grow [] 0%nat n)| |].
  { intros Herr ea ec ek Hea _ _ Hroom. rewrite Hea in Herr. eapply Herr; [done|].
    eapply room_mono; [|exact Hroom]. cbn. zl. }
  intros [] s3 (ea & Hea & Hb3). destruct (encode a) as [ea'|]; [|done]. injection Hea as ->.
  eapply outcome_bind; [apply (cbb_build_spec Grow c Hc); [by apply builder_view|by repeat constructor]| |].
  { intros Herr ? ec ek [= <-] Hec _ Hroom. eapply Herr; [done|done|].
    eapply room_mono; [|exact Hroom]. cbn. zl. }
  intros [] s4 (fs2 & hl & bl & _ & Hb4 & _). cbn [app] in Hb4.
  eapply outcome_bind; [exact (CBB_discard_child_spec _ _ [] _ _ _ _ _ _ Hb4)|by intros []|].
  intros [] s5 Hb5. eapply outcome_bind; [apply (cbb_build_spec Grow k Hk); [by apply builder_view|constructor]| |].
  { intros Herr ? ec ek [= <-] _ Hek Hroom. eapply Herr; [done|done|]. eapply room_mono; [|exact Hroom]. cbn. zl. }
  intros [] s6 Hv6. eapply outcome_impl; [by apply CBB_finish_spec|..].
  - intros r s7 (bs & Hbs & _ & Ht & _ & Hs). rewrite app_nil_r in Hbs. cbn in Hbs.
    destruct (encode k) as [ek|]; [|done]. injection Hbs as <-. exists ea, ek. by split_and!.
  - intros Herr ? ec ek [= <-] _ Hek. rewrite app_nil_r, Hek in Herr. cbn [mbind option_bind] in Herr. intros Hroom.
    eapply Herr; [done|done|]. eapply room_mono; [|exact Hroom]. zl.
Qed.
End Build.

(** ** Reading a message back *)

(** What a reader has to know of a message to read it. *)
Inductive shape :=
| SDone
| SBytes (n : Z) (k : shape)
| SSpace (n : Z) (k : shape)
| SUInt (n : nat) (k : shape)
| SPrefixed (n : nat) (c k : shape)
| SAsn1 (tag : Z) (c k : shape)
| SAsn1Uint64 (k : shape).

Fixpoint shape_of (m : msg) : shape :=
  match m with
  | Done => SDone
  | Bytes bs k => SBytes (zlen bs) (shape_of k)
  | Space n k => SSpace n (shape_of k)
  | UInt n _ k => SUInt n (shape_of k)
  | Prefixed n c k => SPrefixed n (shape_of c) (shape_of k)
  | Asn1 tag c k => SAsn1 tag (shape_of c) (shape_of k)
  | Asn1Uint64 _ k => SAsn1Uint64 (shape_of k)
  end.

Definition get_uint (n : nat) : M CBS Z :=
  match n with 1%nat => CBS_get_u8 | 2%nat => CBS_get_u16 | 3%nat => CBS_get_u24 | _ => CBS_get_u32 end.
Definition get_prefixed (n : nat) : M CBS CBS :=
  match n with
  | 1%nat => CBS_get_u8_length_prefixed
  | 2%nat => CBS_get_u16_length_prefixed
  | _ => CBS_get_u24_length_prefixed
  end.

(** Read a message of a shape; the parts must be used up. *)
Fixpoint cbs_read (sh : shape) : M CBS msg :=
  match sh with
  | SDone => mret Done
  | SBytes n k => b ← CBS_get_bytes n; m ← cbs_read k; mret (Bytes (CBS_data b) m)
  | SSpace n k => _ ← CBS_skip n; m ← cbs_read k; mret (Space n m)
  | SUInt n k => v ← get_uint n; m ← cbs_read k; mret (UInt n v m)
  | SPrefixed n c k =>
      p ← get_prefixed n; c ← on (cbs_read c) p; _ ← check (CBS_len c.2 =? 0);
      m ← cbs_read k; mret (Prefixed n c.1 m)
  | SAsn1 tag c k =>
      p ← CBS_get_asn1 tag; c ← on (cbs_read c) p; _ ← check (CBS_len c.2 =? 0);
      m ← cbs_read k; mret (Asn1 tag c.1 m)
  | SAsn1Uint64 k => v ← CBS_get_asn1_uint64; m ← cbs_read k; mret (Asn1Uint64 v m)
  end.

Lemma encode_bytes m bs : wf_msg m -> encode m = Some bs -> Forall is_byte bs.
Proof.
  revert bs. induction m as [|b k IHk|n k IHk|n v k IHk|n c IHc k IHk|t c IHc k IHk|v k IHk];
    intros bs Hwf; cbn [encode wf_msg] in *.
  - by intros [= <-].
  - destruct Hwf as (_ & Hb & Hk). destruct (encode k); [|done]. intros [= <-]. apply Forall_app; eauto.
  - destruct Hwf as (_ & Hk). destruct (encode k); [|done]. intros [= <-]. apply Forall_app; eauto with bytes.
  - destruct Hwf as (_ & _ & Hk). destruct (_ <? _); [|done]. destruct (encode k); [|done].
    intros [= <-]. apply Forall_app; eauto with bytes.
  - destruct Hwf as (_ & Hc & Hk). destruct (encode c) as [c'|]; [cbn|done].
    destruct (zlen c' <? _); [cbn|done]. destruct (encode k); [cbn|done]. intros [= <-].
    apply Forall_app; split; [eauto with bytes|]. apply Forall_app; eauto.
  - destruct Hwf as (Ht & Hc & Hk). destruct (valid_tagb t) eqn:E; [|done].
    apply valid_tagb_spec in E as [E _]; [|done]. destruct (encode c) as [c'|]; [cbn|done].
    destruct (Z.leb_spec (zlen c') 0xfffffffe); [cbn|done]. destruct (encode k); [cbn|done].
    intros [= <-]. constructor; [done|].
    apply Forall_app; split; [apply der_len_bytes; zl|]. apply Forall_app; eauto.
  - destruct Hwf as (Hv & Hk). destruct (encode k) as [r|]; [|done]. intros [= <-].
    change (Forall is_byte (der_uint64 v ++ r)). apply Forall_app. split; [|eauto].
    destruct (der_uint_len_bounds v Hv) as (Hn & _ & _).
    apply der_element_bytes; [unfold is_byte, CBS_ASN1_INTEGER; lia|zl|auto with bytes].
Qed.

Lemma get_uint_ok i n v rest :
  (1 <= n <= 4)%nat -> 0 <= v < 256 ^ Z.of_nat n ->
  get_uint n (rd i (be_bytes n v ++ rest)) = (Some v, rd i rest).
Proof.
  intros Hn Hv. pose proof (be_val_inj n v Hv) as Hval. pose proof (be_bytes_bytes n v) as Hb.
  assert (Hl : Z.of_nat n = zlen (be_bytes n v)) by (by rewrite zlen_be_bytes).
  destruct n as [|[|[|[|[|n]]]]]; try lia; cbn [get_uint].
  - rewrite be_bytes_1 by done. apply CBS_get_u8_ok.
  - rewrite CBS_get_u16_ok by done. by rewrite Hval.
  - unfold CBS_get_u24. rewrite cbs_get_u_ok by done. by rewrite Hval.
  - unfold CBS_get_u32. rewrite cbs_get_u_ok by done. by rewrite Hval.
Qed.

Lemma get_prefixed_ok i n c rest :
  (1 <= n <= 3)%nat -> zlen c < 256 ^ Z.of_nat n ->
  get_prefixed n (rd i (be_bytes n (zlen c) ++ c ++ rest)) = (Some (rd (zlen c) c), rd i rest).
Proof.
  intros Hn Hc. replace (get_prefixed n) with (cbs_get_length_prefixed (Z.of_nat n))
    by (destruct n as [|[|[|[|n]]]]; try lia; done).
  unfold cbs_get_length_prefixed.
  mstep (apply cbs_get_u_ok; [by rewrite zlen_be_bytes|lia|apply be_bytes_bytes]).
  rewrite be_val_inj by zl. by apply CBS_get_bytes_ok.
Qed.

Lemma cbs_read_encode m :
  wf_msg m -> forall bs i rest, encode m = Some bs ->
  cbs_read (shape_of m) (rd i (bs ++ rest)) = (Some m, rd i rest).
Proof.
  assert (Hchild : forall c c' j, (forall i rest, cbs_read (shape_of c) (rd i (c' ++ rest)) = (Some c, rd i rest)) ->
    cbs_read (shape_of c) (rd j c') = (Some c, rd j [])).
  { intros c c' j Hc. rewrite <- (app_nil_r c') at 1. apply Hc. }
  induction m as [|b k IHk|n k IHk|n v k IHk|n c IHc k IHk|t c IHc k IHk|v k IHk];
    intros Hwf bs i rest; cbn [encode wf_msg shape_of cbs_read] in *.
  - by intros [= <-].
  - destruct Hwf as (_ & _ & Hk). destruct (encode k) as [r|]; [cbn [mbind option_bind]|done].
    intros [= <-]. rewrite <- app_assoc. mstep (by apply CBS_get_bytes_ok). mstep (by apply IHk). done.
  - destruct Hwf as (Hn & Hk). destruct (encode k) as [r|]; [cbn [mbind option_bind]|done].
    intros [= <-]. rewrite <- app_assoc. mstep (apply CBS_skip_ok; by rewrite zlen_zeros by lia).
    mstep (by apply IHk). done.
  - destruct Hwf as (Hn & Hv & Hk). destruct (Z.ltb_spec v (256 ^ Z.of_nat n)); [|done].
    destruct (encode k) as [r|]; [cbn [mbind option_bind]|done].
    intros [= <-]. rewrite <- app_assoc. mstep (apply get_uint_ok; [done|lia]). mstep (by apply IHk). done.
  - destruct Hwf as (Hn & Hc & Hk). destruct (encode c) as [c'|]; [cbn [mbind option_bind enc_prefix]|done].
    destruct (Z.ltb_spec (zlen c') (256 ^ Z.of_nat n)); [cbn [mbind option_bind]|done].
    destruct (encode k) as [r|]; [cbn [mbind option_bind]|done]. intros [= <-]. rewrite <- !app_assoc.
    mstep (by apply get_prefixed_ok). mstep (apply on_some, Hchild; intros; by apply IHc).
    mstep done. mstep (by apply IHk). done.
  - destruct Hwf as (Ht & Hc & Hk). destruct (valid_tagb t) eqn:E; [|done].
    apply valid_tagb_spec in E; [|done].
    destruct (encode c) as [c'|] eqn:Ec; [cbn [mbind option_bind enc_prefix]|done].
    destruct (Z.leb_spec (zlen c') 0xfffffffe); [cbn [mbind option_bind]|done].
    destruct (encode k) as [r|]; [cbn [mbind option_bind]|done]. intros [= <-].
    replace ((t :: der_len (zlen c') ++ c' ++ r) ++ rest) with (der_element t c' ++ r ++ rest)
      by (unfold der_element; cbn [app]; by rewrite <- !app_assoc).
    mstep (apply CBS_get_asn1_complete; [done|exact (encode_bytes _ _ Hc Ec)|lia]).
    mstep (apply on_some, Hchild; intros; by apply IHc). mstep done. mstep (by apply IHk). done.
  - destruct Hwf as (Hv & Hk). destruct (encode k) as [r|]; [cbn [mbind option_bind]|done].
    intros He. assert (bs = der_uint64 v ++ r) as -> by congruence. rewrite <- app_assoc.
    mstep (by apply CBS_get_asn1_uint64_complete). mstep (by apply IHk). done.
Qed.

(** C5: Writing with CBB and reading with CBS are inverse: whenever a client has marshalled a
    message, the readers called in the same order on the output return the same values, and use
    up every part and the whole output. *)
Theorem cbb_cbs_roundtrip `{Allocator} capacity m s buf len s' :
  wf_msg m -> 0 <= capacity <= SIZE_MAX ->
  cbb_marshal capacity m s = (Some (buf, len), s') ->
  cbs_read (shape_of m) (CBS_init (ztake len buf) len) = (Some m, rd len []).
Proof.
  intros Hm Hc Hrun. pose proof (cbb_marshal_spec capacity m s Hm Hc) as Hs. rewrite Hrun in Hs.
  destruct Hs as (He & Hl & _). cbn [fst snd] in *.
  pose proof (cbs_read_encode m Hm _ len [] He) as Hr. rewrite app_nil_r in Hr. rewrite <- Hr. f_equal.
  unfold CBS_init, rd. f_equal. rewrite zlen_ztake; lia.
Qed.

(** ** The theorems at concrete messages *)

Definition empty_store : store := mkStore None ∅.

(** A SEQUENCE of two INTEGERs, after a 16-bit tag and inside a 24-bit length prefix. *)
Definition sample : msg :=
  Prefixed 3 (UInt 2 0x0304 (Asn1 CBS_ASN1_SEQUENCE (Asn1Uint64 300 (Asn1Uint64 0 Done)) Done)) (Bytes [1; 2] Done).
Definition sample_bytes : list Z :=
  [0; 0; 11; 3; 4; 0x30; 7; 2; 2; 1; 44; 2; 1; 0; 1; 2].

Ltac wf_concrete :=
  cbn [wf_msg sample];
  repeat match goal with
  | |- _ /\ _ => split
  | |- Forall _ _ => constructor
  | |- True => exact I
  | |- is_byte _ => unfold is_byte
  | |- (_ <= _)%nat => lia
  | |- _ => by vm_compute
  end.

Lemma cbb_marshal_encodes_witness :
  exists buf s', @cbb_marshal ample 8 sample empty_store = (Some (buf, 16), s') /\
    encode sample = Some (ztake 16 buf) /\ ztake 16 buf = sample_bytes.
Proof.
  pose proof (@cbb_marshal_encodes ample 8 sample empty_store) as H.
  destruct (@cbb_marshal ample 8 sample empty_store) as [[[buf len]|] s'] eqn:E; vm_compute in E; [|discriminate E].
  injection E as <- <- <-. eexists _, _. split; [reflexivity|].
  specialize (H ltac:(wf_concrete) ltac:(wf_concrete)). destruct H as [H _].
  split; [exact H|reflexivity].
Defined.

Lemma cbb_marshal_fixed_encodes_witness :
  (forall bs, encode sample = Some bs -> 15 < zlen bs) /\ fst (@cbb_marshal_fixed ample (zeros 15) sample empty_store) = None.
Proof.
  pose proof (@cbb_marshal_fixed_encodes ample (zeros 15) sample empty_store) as H.
  destruct (@cbb_marshal_fixed ample (zeros 15) sample empty_store) as [[[buf len]|] s'] eqn:E;
    vm_compute in E; [discriminate E|].
  split; [|reflexivity]. exact (H ltac:(wf_concrete) ltac:(wf_concrete) eq_refl).
Defined.

Lemma cbb_cbs_roundtrip_witness :
  cbs_read (shape_of sample) (CBS_init sample_bytes 16) = (Some sample, rd 16 []).
Proof.
  refine (@cbb_cbs_roundtrip ample 8 sample empty_store sample_bytes 16 _ _ _ _);
    [wf_concrete
    |wf_concrete|vm_compute; reflexivity].
Defined.

Lemma CBB_discard_child_undoes_witness :
  exists buf s', @cbb_marshal_discard ample 4 (UInt 1 7 Done) 1 (Space 300 Done) (UInt 1 9 Done) empty_store
    = (Some (buf, 2), s') /\ ztake 2 buf = [7; 9].
Proof.
  pose proof (@CBB_discard_child_undoes ample 4 (UInt 1 7 Done) 1 (Space 300 Done) (UInt 1 9 Done) empty_store) as H.
  destruct (@cbb_marshal_discard ample 4 _ 1 _ _ empty_store) as [[[buf len]|] s'] eqn:E; vm_compute in E; [|discriminate E].
  injection E as <- <- <-. eexists _, _. split; [reflexivity|].
  specialize (H ltac:(wf_concrete) ltac:(wf_concrete) ltac:(wf_concrete) ltac:(lia) ltac:(wf_concrete)).
  destruct H as (ea & ek & [= <-] & [= <-] & H & _).
  exact H.
Defined.
