(* ===== verification/Ber.v ===== *)
(** * Conversion of indefinite-length BER to DER (ssl/bs_ber.c)

    [cbs_find_indefinite] looks for indefinite-length elements and
    [cbs_convert_indefinite] rewrites them with definite lengths, concatenating
    the fragments of primitive values.  A recursive C function with a loop is a
    fixpoint whose fuel bounds iterations and recursion together; the length of
    the input is enough fuel since every iteration consumes at least two bytes. *)
From S2P Require Import Prelude Compat Cbs Cbb CbbSpec CbbBuild.

Definition kMaxDepth : Z := 2048.

Definition cbs_nonstrict_get_any_asn1_element : M CBS (CBS * Z * Z) :=
  cbs_get_any_asn1_element_internal false.

(** Is the element an indefinite-length header? *)
Definition is_indefinite (contents : CBS) (header_len : Z) : bool :=
  (CBS_len contents =? header_len) && (0 <? header_len) &&
  (znth (CBS_data contents) (header_len - 1) =? 0x80).

(** The loop of [cbs_find_indefinite]; the state is [*indefinite_found]. *)
Fixpoint find_loop (fuel : nat) (inp : CBS) (depth : Z) : M bool unit :=
  match fuel with
  | O => fail
  | S fuel' =>
      if CBS_len inp =? 0 then putS false
      else match cbs_nonstrict_get_any_asn1_element inp with
      | (None, _) => fail
      | (Some (contents, tag, header_len), inp) =>
          if is_indefinite contents header_len then putS true
          else
          _ ← (if negb (Z.land tag CBS_ASN1_CONSTRUCTED =? 0) then
                 match CBS_skip header_len contents with
                 | (None, _) => fail
                 | (Some _, contents) =>
                     if kMaxDepth <? depth + 1 then fail
                     else find_loop fuel' (CBS_init (CBS_data contents) (CBS_len contents)) (depth + 1)
                 end
               else mret tt);
          find_loop fuel' inp depth
      end
  end.

Definition cbs_find_indefinite (orig_in : CBS) (depth : Z) : M bool unit :=
  if kMaxDepth <? depth then fail
  else find_loop (S (Z.to_nat (CBS_len orig_in))) (CBS_init (CBS_data orig_in) (CBS_len orig_in)) depth.

Definition is_primitive_type (tag : Z) : bool :=
  (Z.land tag 0xc0 =? 0) &&
  negb (Z.land tag 0x1f =? Z.land CBS_ASN1_SEQUENCE 0x1f) &&
  negb (Z.land tag 0x1f =? Z.land CBS_ASN1_SET 0x1f).

Definition is_eoc (header_len : Z) (contents : CBS) : bool :=
  (header_len =? 2) && CBS_mem_equal contents [0x0; 0x0] 2.

(** Should the headers of the children of an indefinite-length element be dropped?
    [inp] is the input after the header; [None]: it starts with no element. *)
Definition squash_child_headers (tag : Z) (inp : CBS) : option bool :=
  let context_specific := Z.land tag 0xc0 =? 0x80 in
  if context_specific && negb (Z.land tag CBS_ASN1_CONSTRUCTED =? 0) then
    match cbs_nonstrict_get_any_asn1_element (CBS_init (CBS_data inp) (CBS_len inp)) with
    | (None, _) => None
    | (Some (inner_contents, inner_tag, inner_header_len), _) =>
        Some (((inner_header_len <? CBS_len inner_contents) && is_primitive_type inner_tag)
              || is_primitive_type tag)
    end
  else Some (is_primitive_type tag).

Section Convert.
Context `{Allocator}.

(** The loop of [cbs_convert_indefinite]; the result is the input that is left.  The
    local [out_contents_storage] of the frame at [depth] has address [depth + 1]. *)
Fixpoint convert_loop (fuel : nat) (inp : CBS) (out : addr) (squash_header looking_for_eoc : bool)
    (depth : nat) : M store CBS :=
  match fuel with
  | O => fail
  | S fuel' =>
      if CBS_len inp =? 0 then (if looking_for_eoc then fail else mret inp)
      else match cbs_nonstrict_get_any_asn1_element inp with
      | (None, _) => fail
      | (Some (contents, tag, header_len), inp) =>
          if (CBS_len contents =? header_len) && is_eoc header_len contents
          then (if looking_for_eoc then mret inp else fail)
          else if is_indefinite contents header_len then
            match squash_child_headers tag inp with
            | None => fail
            | Some squash_child =>
                out_contents ←
                  (if squash_header then mret out
                   else
                     let out_tag := if squash_child then Z.land tag (Z.lnot CBS_ASN1_CONSTRUCTED) else tag in
                     _ ← CBB_add_asn1 out (S depth) out_tag; mret (S depth));
                inp ← (if kMaxDepth <? Z.of_nat depth + 1 then fail
                       else convert_loop fuel' inp out_contents squash_child true (S depth));
                _ ← (if negb (Nat.eqb out_contents out) then CBB_flush out else mret tt);
                convert_loop fuel' inp out squash_header looking_for_eoc depth
            end
          else
            out_contents ← (if squash_header then mret out
                            else _ ← CBB_add_asn1 out (S depth) tag; mret (S depth));
            match CBS_skip header_len contents with
            | (None, _) => fail
            | (Some _, contents) =>
                _ ← (if negb (Z.land tag CBS_ASN1_CONSTRUCTED =? 0) then
                       if kMaxDepth <? Z.of_nat depth + 1 then fail
                       else _ ← convert_loop fuel' contents out_contents false false (S depth); mret tt
                     else CBB_add_bytes out_contents (CBS_data contents) (CBS_len contents));
                _ ← (if negb (Nat.eqb out_contents out) then CBB_flush out else mret tt);
                convert_loop fuel' inp out squash_header looking_for_eoc depth
            end
      end
  end.

Definition cbs_convert_indefinite (inp : CBS) (out : addr) (squash_header looking_for_eoc : bool)
    (depth : nat) : M store CBS :=
  if kMaxDepth <? Z.of_nat depth then fail
  else convert_loop (S (Z.to_nat (CBS_len inp))) inp out squash_header looking_for_eoc depth.

(** [if (!m) { CBB_cleanup(&cbb); return 0; }] *)
Definition or_cleanup {A} (h : addr) (m : M store A) : M store A := fun s =>
  match m s with
  | (None, s') => (_ ← CBB_cleanup h; fail) s'
  | r => r
  end.

(** [Some None]: no conversion was needed, [*out] is NULL. *)
Definition CBS_asn1_indefinite_to_definite (inp : CBS) : M store (option (list Z * Z)) :=
  match cbs_find_indefinite inp 0 false with
  | (None, _) => fail
  | (Some _, false) => mret None
  | (Some _, true) =>
      _ ← CBB_init 0%nat (CBS_len inp);
      _ ← or_cleanup 0%nat (cbs_convert_indefinite inp 0%nat false false 0%nat);
      r ← CBB_finish 0%nat true;
      mret (Some r)
  end.
End Convert.

(** ** BER values *)

(** A sequence of elements: primitive, constructed of definite length, constructed of
    indefinite length. *)
Inductive ber :=
| BNil
| BPrim (t : Z) (c : list Z) (k : ber)
| BCons (t : Z) (f k : ber)
| BIndef (t : Z) (f k : ber).

Definition constructed (t : Z) : bool := negb (Z.land t CBS_ASN1_CONSTRUCTED =? 0).

Fixpoint print (b : ber) : list Z :=
  match b with
  | BNil => []
  | BPrim t c k => der_element t c ++ print k
  | BCons t f k => der_element t (print f) ++ print k
  | BIndef t f k => t :: 0x80 :: print f ++ [0; 0] ++ print k
  end.

Fixpoint wf_ber (b : ber) : Prop :=
  match b with
  | BNil => True
  | BPrim t c k =>
      valid_tag t /\ constructed t = false /\ Forall is_byte c /\ zlen c < 2 ^ 32 /\
      (t = 0 -> c <> []) /\ wf_ber k
  | BCons t f k => valid_tag t /\ constructed t = true /\ zlen (print f) < 2 ^ 32 /\ wf_ber f /\ wf_ber k
  | BIndef t f k => valid_tag t /\ constructed t = true /\ wf_ber f /\ wf_ber k
  end.

Fixpoint nesting (b : ber) : Z :=
  match b with
  | BNil => 0
  | BPrim _ _ k => nesting k
  | BCons _ f k | BIndef _ f k => Z.max (1 + nesting f) (nesting k)
  end.

(** Does the sequence start with a non-empty element of definite length and primitive type? *)
Definition starts_primitive (f : ber) : bool :=
  match f with
  | BPrim t c _ => (0 <? zlen c) && is_primitive_type t
  | BCons t g _ => (0 <? zlen (print g)) && is_primitive_type t
  | _ => false
  end.

Definition squash_child (t : Z) (f : ber) : bool :=
  is_primitive_type t || (Z.land t 0xc0 =? 0x80) && constructed t && starts_primitive f.

(** The elements with definite lengths; [squash] drops the outermost headers. *)
Fixpoint to_der (squash : bool) (b : ber) : list Z :=
  match b with
  | BNil => []
  | BPrim t c k => (if squash then c else der_element t c) ++ to_der squash k
  | BCons t f k =>
      (if squash then to_der false f else der_element t (to_der false f)) ++ to_der squash k
  | BIndef t f k =>
      let sq := squash_child t f in
      (if squash then to_der sq f
       else der_element (if sq then Z.land t (Z.lnot CBS_ASN1_CONSTRUCTED) else t) (to_der sq f))
      ++ to_der squash k
  end.

(** Is one of the outermost elements of indefinite length? *)
Fixpoint top_indefinite (b : ber) : bool :=
  match b with
  | BNil => false
  | BPrim _ _ k | BCons _ _ k => top_indefinite k
  | BIndef _ _ _ => true
  end.
Fixpoint any_indefinite (b : ber) : bool :=
  match b with
  | BNil => false
  | BPrim _ _ k => any_indefinite k
  | BCons _ f k => any_indefinite f || any_indefinite k
  | BIndef _ _ _ => true
  end.

(** What the search accepts, with [d] levels of nesting left, and what it reports: elements of
    definite length whose contents, where constructed, it accepts too, up to the first header of
    indefinite length, after which nothing is read.  What it finds in the contents is forgotten. *)
Inductive scans : Z -> list Z -> bool -> Prop :=
| scans_nil d : scans d [] false
| scans_prim d t c r found :
    valid_tag t -> constructed t = false -> zlen c < 2 ^ 32 -> scans d r found ->
    scans d (der_element t c ++ r) found
| scans_cons d t c r inner found :
    valid_tag t -> constructed t = true -> zlen c < 2 ^ 32 -> 0 < d -> scans (d - 1) c inner ->
    scans d r found -> scans d (der_element t c ++ r) found
| scans_indefinite d t r :
    valid_tag t -> constructed t = true -> scans d (t :: 0x80 :: r) true.

(** ** Reading one element *)

Lemma nonstrict_indefinite i t rest :
  valid_tag t -> constructed t = true ->
  cbs_nonstrict_get_any_asn1_element (rd i (t :: 0x80 :: rest)) = (Some (rd 2 [t; 0x80], t, 2), rd i rest).
Proof.
  intros [Ht Ht5] Hc. unfold cbs_nonstrict_get_any_asn1_element, cbs_get_any_asn1_element_internal.
  mstep done. mstep (apply on_some, CBS_get_u8_ok). mstep (apply on_some, CBS_get_u8_ok).
  rewrite (proj2 (Z.eqb_neq _ _)) by done. change (Z.land 0x80 0x80 =? 0) with false.
  change (Z.land 0x80 0x7f) with 0. cbv iota. cbn [Z.eqb]. unfold constructed in Hc.
  destruct (Z.land t CBS_ASN1_CONSTRUCTED =? 0); [done|].
  change (t :: 0x80 :: rest) with ([t; 0x80] ++ rest). mstep (by apply CBS_get_bytes_ok). done.
Qed.

Lemma nonstrict_eoc i rest :
  cbs_nonstrict_get_any_asn1_element (rd i (0 :: 0 :: rest)) = (Some (rd 2 [0; 0], 0, 2), rd i rest).
Proof. by apply (any_asn1_element_complete false i 0 [] rest). Qed.

Lemma nonstrict_definite i t c rest :
  valid_tag t -> Forall is_byte c -> zlen c < 2 ^ 32 -> let e := der_element t c in
  cbs_nonstrict_get_any_asn1_element (rd i (e ++ rest)) = (Some (rd (zlen e) e, t, zlen e - zlen c), rd i rest).
Proof. apply any_asn1_element_complete. Qed.

Lemma CBS_len_rd i l : CBS_len (rd i l) = zlen l.
Proof. done. Qed.

(** An element of definite length is neither a header of indefinite length nor,
    unless it is the null element, an end of contents. *)
Lemma definite_not_indefinite t c :
  Forall is_byte c -> zlen c < 2 ^ 32 -> let e := der_element t c in
  is_indefinite (rd (zlen e) e) (zlen e - zlen c) = false.
Proof.
  intros Hb Hl e. unfold is_indefinite, CBS_len, CBS_data, rd. cbn [cbs_len cbs_data].
  destruct c as [|x c].
  - done.
  - rewrite (proj2 (Z.eqb_neq _ _)); [done|]. zl.
Qed.
Lemma is_eoc_spec t c :
  is_byte t -> Forall is_byte c -> let e := der_element t c in
  (CBS_len (rd (zlen e) e) =? zlen e - zlen c) && is_eoc (zlen e - zlen c) (rd (zlen e) e) =
  bool_decide (t = 0 /\ c = []).
Proof.
  intros Ht Hb e. destruct c as [|x c].
  - change e with [t; 0]. unfold is_eoc, CBS_mem_equal, CBS_len. cbn [rd cbs_len cbs_data].
    change (zlen [t; 0]) with 2. change (2 - zlen []) with 2. change (2 =? 2) with true. cbn [negb andb].
    rewrite timingsafe_memcmp_eqb; try done.
    + apply bool_decide_ext. cbn. split; [by intros [= ->]|by intros [-> _]].
    + apply Forall_cons_2; [done|]. apply Forall_singleton. unfold is_byte; lia.
    + apply Forall_cons_2; [|apply Forall_singleton]; unfold is_byte; lia.
  - unfold CBS_len. cbn [rd cbs_len]. rewrite (proj2 (Z.eqb_neq _ _)) by zl. cbn [andb].
    by rewrite bool_decide_false by (intros [_ ?]; done).
Qed.

Lemma header_not_eoc t : is_byte t -> is_eoc 2 (rd 2 [t; 0x80]) = false.
Proof.
  intros Ht. unfold is_eoc, CBS_mem_equal. cbn [rd cbs_len cbs_data]. change (zlen [t; 128]) with 2.
  change (2 =? 2) with true. cbn [negb andb]. rewrite timingsafe_memcmp_eqb; try done.
  - by apply bool_decide_false.
  - apply Forall_cons_2; [done|]. apply Forall_singleton. unfold is_byte; lia.
  - apply Forall_cons_2; [|apply Forall_singleton]; unfold is_byte; lia.
Qed.

Lemma skip_header i t c : let e := der_element t c in
  CBS_skip (zlen e - zlen c) (rd i e) = (Some tt, rd i c).
Proof. intros e. unfold e at 2, der_element. apply CBS_skip_ok. unfold e, der_element. zl. Qed.

Lemma print_bytes b : wf_ber b -> Forall is_byte (print b).
Proof.
  induction b as [|t c k IH|t f IHf k IH|t f IHf k IH]; cbn [wf_ber print].
  - constructor.
  - intros ([Ht _] & _ & Hc & Hl & _ & Hk). apply Forall_app. split; [by apply der_element_bytes|auto].
  - intros ([Ht _] & _ & Hl & Hf & Hk). apply Forall_app. split; [apply der_element_bytes|]; auto.
  - intros ([Ht _] & _ & Hf & Hk). constructor; [done|]. constructor; [unfold is_byte; lia|].
    apply Forall_app. split; [auto|]. repeat (apply Forall_cons_2; [unfold is_byte; lia|]). auto.
Qed.
Lemma zlen_der_element_ge t c : zlen c < 2 ^ 32 -> 2 + zlen c <= zlen (der_element t c).
Proof. intros Hc. rewrite zlen_der_element. pose proof (zlen_der_len (zlen c)). zl. Qed.
Lemma constructed_eq t : constructed t = negb (Z.land t CBS_ASN1_CONSTRUCTED =? 0).
Proof. done. Qed.
Lemma valid_tag_byte t : valid_tag t -> is_byte t.
Proof. by intros []. Qed.
Lemma CBS_init_rd l : CBS_init l (zlen l) = rd (zlen l) l.
Proof. done. Qed.

Lemma nesting_nonneg b : 0 <= nesting b.
Proof. induction b; cbn [nesting]; lia. Qed.

Lemma scans_print b : forall d, wf_ber b -> nesting b <= d -> scans d (print b) (top_indefinite b).
Proof.
  induction b as [|t c k IH|t f IHf k IH|t f IHf k IH]; cbn [wf_ber print nesting top_indefinite];
    intros d Hwf Hd.
  - constructor.
  - destruct Hwf as (Ht & Hc & _ & Hl & _ & Hk). apply scans_prim; auto.
  - destruct Hwf as (Ht & Hc & Hl & Hf & Hk). pose proof (nesting_nonneg f).
    eapply scans_cons; try done; [lia|apply IHf; [done|lia]|apply IH; [done|lia]].
  - destruct Hwf as (Ht & Hc & Hf & Hk). by apply scans_indefinite.
Qed.

Lemma find_loop_complete d l b :
  scans d l b -> Forall is_byte l -> forall fuel i depth found,
  zlen l < Z.of_nat fuel -> d = kMaxDepth - depth ->
  find_loop fuel (rd i l) depth found = (Some tt, b).
Proof.
  induction 1 as [d|d t c r b Ht Hc Hl _ IH|d t c r b' b Ht Hc Hl Hd _ IHc _ IH|d t r Ht Hc];
    intros Hb fuel i depth found Hfuel ->; destruct fuel as [|fuel]; try (zl_pose; lia);
    cbn [find_loop]; [done|..]; rewrite CBS_len_rd, (proj2 (Z.eqb_neq _ _)) by
      (try pose proof (zlen_der_element_ge t c Hl); zl).
  1,2: pose proof (zlen_der_element_ge t c Hl); apply Forall_app in Hb as [He Hb];
    assert (Hcb : Forall is_byte c) by (by apply Forall_app in He as [_ He]);
    rewrite nonstrict_definite, definite_not_indefinite, <- constructed_eq, Hc by done.
  - mstep done. apply IH; [done|zl|done].
  - rewrite skip_header, (proj2 (Z.ltb_ge _ _)) by lia.
    erewrite bind_some; [apply IH; [done|zl|done]|]. apply IHc; [done|zl|lia].
  - by rewrite nonstrict_indefinite.
Qed.

Lemma find_loop_sound fuel :
  forall l i depth found b, Forall is_byte l ->
  find_loop fuel (rd i l) depth found = (Some tt, b) -> scans (kMaxDepth - depth) l b.
Proof.
  induction fuel as [|fuel IH]; intros l i depth found b Hl; [done|].
  cbn [find_loop]. rewrite CBS_len_rd. destruct (Z.eqb_spec (zlen l) 0) as [Hz|_].
  { intros [= <-]. apply zlen_0_nil in Hz as ->. constructor. }
  destruct (cbs_nonstrict_get_any_asn1_element (rd i l)) as [[[[out t] hl]|] c'] eqn:Hr; [|done].
  apply any_asn1_element_sound in Hr; [|done].
  destruct Hr as [(c & rest & -> & Ht & Hc & -> & -> & ->)|(_ & Ht & Hcon & rest & -> & -> & -> & ->)].
  - apply Forall_app in Hl as [He Hl]. assert (Hcb : Forall is_byte c) by (by apply Forall_app in He as [_ He]).
    rewrite definite_not_indefinite, skip_header, <- constructed_eq by done.
    destruct (constructed t) eqn:Et.
    + destruct (Z.ltb_spec kMaxDepth (depth + 1)); [done|].
      intros ([] & inner & Hin & Hrest)%bind_inv. apply IH in Hin, Hrest; try done.
      eapply scans_cons; try done; [lia|]. by replace (kMaxDepth - depth - 1) with (kMaxDepth - (depth + 1)) by lia.
    + intros ([] & s1 & _ & Hrest)%bind_inv. apply IH in Hrest; [|done]. by apply scans_prim.
  - change (is_indefinite (rd 2 [t; 128]) 2) with true. intros [= <-].
    apply scans_indefinite; [done|]. unfold constructed. by rewrite (proj2 (Z.eqb_neq _ _)).
Qed.

(** The search, exactly. *)
Lemma cbs_find_indefinite_iff i l found b :
  Forall is_byte l -> cbs_find_indefinite (rd i l) 0 found = (Some tt, b) <-> scans kMaxDepth l b.
Proof.
  intros Hl. unfold cbs_find_indefinite. change (kMaxDepth <? 0) with false. rewrite CBS_len_rd. split.
  - intros H. apply find_loop_sound in H; [|done]. by rewrite Z.sub_0_r in H.
  - intros H. eapply find_loop_complete; [done|done|zl|lia].
Qed.

(** ** Converting *)

Lemma clear_constructed t :
  valid_tag t -> let t' := Z.land t (Z.lnot CBS_ASN1_CONSTRUCTED) in valid_tag t' /\ constructed t' = false.
Proof.
  intros [Ht H5] t'.
  assert (E : (0 <=? t') && (t' <? 256) && (Z.land t' 0x1f =? Z.land t 0x1f) && negb (constructed t') = true).
  { unfold t'. apply (byte_forall (fun t => let t' := Z.land t (Z.lnot CBS_ASN1_CONSTRUCTED) in
      (0 <=? t') && (t' <? 256) && (Z.land t' 0x1f =? Z.land t 0x1f) && negb (constructed t')) t Ht).
    by vm_compute. }
  rewrite !andb_true_iff, Z.leb_le, Z.ltb_lt, Z.eqb_eq, negb_true_iff in E.
  unfold valid_tag, is_byte. destruct E as [[[] E] ->]. rewrite E. auto.
Qed.

Lemma squash_child_headers_spec i t f rest :
  wf_ber f -> squash_child_headers t (rd i (print f ++ [0; 0] ++ rest)) = Some (squash_child t f).
Proof.
  intros Hf. unfold squash_child_headers, squash_child. rewrite <- constructed_eq.
  destruct ((Z.land t 192 =? 128) && constructed t); [|by rewrite orb_false_r].
  unfold CBS_data, CBS_len. cbn [rd cbs_len cbs_data andb]. rewrite CBS_init_rd. set (j := zlen _).
  destruct f as [|u c k|u g k|u g k]; cbn [print starts_primitive wf_ber] in *.
  - cbn [app]. rewrite nonstrict_eoc. cbn.
    by rewrite orb_false_r.
  - destruct Hf as (Hu & _ & Hc & Hl & _ & Hk). rewrite <- app_assoc.
    rewrite nonstrict_definite by done.
    cbn [rd cbs_len]. rewrite orb_comm. do 3 f_equal.
    destruct (Z.ltb_spec 0 (zlen c)); destruct (Z.ltb_spec (zlen (der_element u c) - zlen c) (zlen (der_element u c)));
      (done || lia).
  - destruct Hf as (Hu & _ & Hl & Hg & Hk). rewrite <- app_assoc.
    rewrite nonstrict_definite by (done || by apply print_bytes).
    cbn [rd cbs_len]. rewrite orb_comm. do 3 f_equal. set (c := print g).
    destruct (Z.ltb_spec 0 (zlen c)); destruct (Z.ltb_spec (zlen (der_element u c) - zlen c) (zlen (der_element u c)));
      (done || lia).
  - destruct Hf as (Hu & Hc & Hg & Hk). cbn [app]. rewrite nonstrict_indefinite by done. cbn.
    by rewrite orb_false_r.
Qed.

Section ConvertSpec.
Context `{Allocator}.

(** The part of an iteration that writes one element: its header unless it is dropped,
    its contents, and the length. *)
Lemma element_spec {A B} md s fs h st bs t cnt (squash : bool) (body : addr -> M store A) (K : A -> M store B)
    (P : A -> Prop) Q (E : Prop) :
  let out := if squash then cnt else der_element t cnt in
  view md s fs h (Some bs) -> valid_tag t -> zlen cnt <= 0xfffffffe -> h <> st -> (st ∉ fh <$> fs) ->
  (forall s1 fs1 h1 b1, view md s1 fs1 h1 (Some b1) ->
     (fs1 = fs /\ h1 = h) \/ (exists b p, fs1 = fs ++ [mkFrame h b p] /\ h1 = st) ->
     outcome (body h1 s1) (fun r s2 => P r /\ view md s2 fs1 h1 (Some (b1 ++ cnt)))
       (~ room md (ctx_len fs1 + zlen b1 + zlen cnt))) ->
  (~ room md (ctx_len fs + zlen bs + zlen out) -> E) ->
  (forall r s2, P r -> view md s2 fs h (Some (bs ++ out)) -> outcome (K r s2) Q E) ->
  outcome ((oc ← (if squash then mret h else _ ← CBB_add_asn1 h st t; mret st);
            r ← body oc;
            _ ← (if negb (Nat.eqb oc h) then CBB_flush h else mret tt);
            K r) s) Q E.
Proof.
  intros out Hv Ht Hl Hne Hst Hbody HE HK. destruct squash.
  - eapply outcome_step; [done|]. rewrite Nat.eqb_refl. cbn [negb].
    eapply outcome_bind; [by apply Hbody; [|left]|done|].
    intros r s2 [Hr Hv2]. eapply outcome_step; [done|]. by apply HK.
  - assert (Hout : zlen out = 1 + zlen (der_len (zlen cnt)) + zlen cnt) by apply zlen_der_element.
    assert (Hdl : 1 <= zlen (der_len (zlen cnt))) by (apply zlen_der_len; zl).
    eapply (outcome_bind _ _ _ (fun oc s1 => oc = st /\ builder md s1 (fs ++ [mkFrame h (bs ++ [t]) Asn1Prefix]) st [])).
    { eapply outcome_bind; [apply CBB_add_asn1_spec; [done|by apply valid_tag_byte in Ht as []|done|done]|exact id|].
      intros [] s1 (_ & ? & [= <-] & Hb). done. }
    { intros Herr. apply HE. intros Hroom. apply (Herr Ht bs eq_refl). eapply room_mono; [|exact Hroom]. zl. }
    intros oc s1 [-> Hb1]. rewrite (proj2 (Nat.eqb_neq _ _)) by done. cbn [negb].
    eapply outcome_bind; [apply Hbody; [by apply builder_view|right; eauto]| |].
    { intros Herr. apply HE. intros Hroom. apply Herr. eapply room_mono; [|exact Hroom].
      rewrite ctx_len_app. cbn [ctx_len fb fp plen]. zl. }
    intros r s2 [Hr Hv2]. apply view_close in Hv2. cbn [mbind option_bind enc_prefix app] in Hv2.
    rewrite (proj2 (Z.leb_le _ _)) in Hv2 by done. cbn [mbind option_bind] in Hv2.
    replace ((bs ++ [t]) ++ der_len (zlen cnt) ++ cnt) with (bs ++ out) in Hv2 by (by rewrite <- app_assoc).
    eapply outcome_bind; [by apply CBB_flush_spec| |].
    { intros Herr. apply HE. intros Hroom. apply (Herr _ eq_refl). eapply room_mono; [|exact Hroom]. zl. }
    intros [] s3 (? & [= <-] & Hb3). apply HK; [done|by apply builder_view].
Qed.

(** What follows the elements: an end of contents and the rest, or nothing. *)
Definition tail (eoc : bool) (rest : list Z) : list Z := if eoc then 0 :: 0 :: rest else [].
Definition left_over (eoc : bool) (rest : list Z) : list Z := if eoc then rest else [].

Definition converts (md : mode) (b : ber) : Prop :=
  forall fuel i s fs h bs sq eoc depth rest,
  zlen (print b ++ tail eoc rest) < Z.of_nat fuel -> Z.of_nat depth + nesting b <= kMaxDepth ->
  zlen (to_der sq b) <= 0xfffffffe ->
  view md s fs h (Some bs) -> Forall (fun f => fh f <= depth)%nat fs -> (h <= depth)%nat ->
  outcome (convert_loop fuel (rd i (print b ++ tail eoc rest)) h sq eoc depth s)
    (fun inp s' => inp = rd i (left_over eoc rest) /\ view md s' fs h (Some (bs ++ to_der sq b)))
    (~ room md (ctx_len fs + zlen bs + zlen (to_der sq b))).

Lemma deep_fresh fs h depth : Forall (fun f => fh f <= depth)%nat fs -> (h <= depth)%nat ->
  h <> S depth /\ (S depth ∉ fh <$> fs).
Proof.
  intros Hfs Hh. split; [lia|]. intros (f & Hf & Hin)%list_elem_of_fmap. rewrite Forall_forall in Hfs.
  apply Hfs in Hin. lia.
Qed.

Lemma deep_step fs fs1 h h1 depth : Forall (fun f => fh f <= depth)%nat fs -> (h <= depth)%nat ->
  (fs1 = fs /\ h1 = h) \/ (exists b p, fs1 = fs ++ [mkFrame h b p] /\ h1 = S depth) ->
  Forall (fun f => fh f <= S depth)%nat fs1 /\ (h1 <= S depth)%nat.
Proof.
  intros Hfs Hh Hc.
  assert (Hfs' : Forall (fun f => fh f <= S depth)%nat fs).
  { eapply Forall_impl; [exact Hfs|]. intros f Hf. cbv beta in *. lia. }
  destruct Hc as [[-> ->]|(b & p & -> & ->)]; (split; [|lia]); [done|].
  apply Forall_app. split; [done|]. constructor; [cbn; lia|constructor].
Qed.

Lemma convert_loop_spec md b : wf_ber b -> converts md b.
Proof.
  induction b as [|t c k IH|t f IHf k IH|t f IHf k IH]; cbn [wf_ber print nesting to_der];
    intros Hwf fuel i s fs h bs sq eoc depth rest Hfuel Hd Hsz Hv Hfs Hh;
    cbn [print nesting to_der] in *;
    destruct fuel as [|fuel]; try (zl_pose; lia); cbn [convert_loop];
    destruct (deep_fresh _ _ _ Hfs Hh) as [Hne Hst].
  - cbn [app]. destruct eoc; cbn [tail left_over].
    + rewrite CBS_len_rd, (proj2 (Z.eqb_neq _ _)) by zl. rewrite nonstrict_eoc. cbn. by rewrite app_nil_r.
    + cbn. by rewrite app_nil_r.
  - destruct Hwf as (Ht & Hc & Hb & Hl & H0 & Hk). pose proof (zlen_der_element_ge t c Hl).
    rewrite <- app_assoc in *.
    rewrite CBS_len_rd, (proj2 (Z.eqb_neq _ _)) by zl.
    rewrite nonstrict_definite by done.
    rewrite is_eoc_spec by (done || by apply valid_tag_byte). rewrite bool_decide_false by (intros [? ?]; by apply H0).
    rewrite definite_not_indefinite by done. rewrite skip_header, <- constructed_eq, Hc.
    eapply (element_spec md s fs h (S depth) bs t c sq _ (fun _ => _) (fun _ => True)); try done.
    + destruct sq; zl.
    + intros s1 fs1 h1 b1 Hv1 _. eapply outcome_impl; [apply CBB_add_bytes_spec; [done|done|unfold SIZE_MAX; cbn; lia]|..].
      * intros [] s2 (? & [= <-] & Hb2). split; [done|]. by apply builder_view.
      * intros Herr. by apply Herr.
    + intros Herr Hroom. apply Herr. eapply room_mono; [|exact Hroom]. zl.
    + intros [] s2 _ Hv2. eapply outcome_impl; [apply IH; try done; (zl || lia)|..].
      * intros inp s3 [-> Hv3]. by rewrite <- app_assoc in Hv3.
      * intros Herr Hroom. apply Herr. eapply room_mono; [|exact Hroom]. zl.
  - destruct Hwf as (Ht & Hc & Hl & Hf & Hk). pose proof (zlen_der_element_ge t (print f) Hl).
    pose proof (print_bytes f Hf) as Hb. pose proof (nesting_nonneg f). rewrite <- app_assoc in *.
    rewrite CBS_len_rd, (proj2 (Z.eqb_neq _ _)) by zl. rewrite nonstrict_definite by done.
    rewrite is_eoc_spec by (done || by apply valid_tag_byte).
    rewrite bool_decide_false by (intros [-> _]; done).
    rewrite definite_not_indefinite by done. rewrite skip_header, <- constructed_eq, Hc.
    rewrite (proj2 (Z.ltb_ge _ _)) by lia.
    eapply (element_spec md s fs h (S depth) bs t (to_der false f) sq _ (fun _ => _) (fun _ => True)); try done.
    + destruct sq; [zl|]. rewrite zlen_app, zlen_der_element in Hsz. zl.
    + intros s1 fs1 h1 b1 Hv1 Hcase. destruct (deep_step _ _ _ _ _ Hfs Hh Hcase) as [Hfs1 Hh1].
      rewrite <- (app_nil_r (print f)). change [] with (tail false []) at 2.
      eapply outcome_bind; [apply (IHf Hf); try done; [cbn [tail]; zl|lia|..]|exact id|].
      * destruct sq; [zl|]. rewrite zlen_app, zlen_der_element in Hsz. zl.
      * intros inp s2 [_ Hv2]. by cbn.
    + intros Herr Hroom. apply Herr. eapply room_mono; [|exact Hroom]. zl.
    + intros [] s2 _ Hv2. eapply outcome_impl; [apply IH; try done; (zl || lia)|..].
      * intros inp s3 [-> Hv3]. by rewrite <- app_assoc in Hv3.
      * intros Herr Hroom. apply Herr. eapply room_mono; [|exact Hroom]. zl.
  - destruct Hwf as (Ht & Hc & Hf & Hk). pose proof (nesting_nonneg f).
    replace ((t :: 128 :: print f ++ [0; 0] ++ print k) ++ tail eoc rest)
      with (t :: 128 :: print f ++ tail true (print k ++ tail eoc rest)) in *
      by (cbn [app tail]; rewrite <- app_assoc; done).
    rewrite CBS_len_rd, (proj2 (Z.eqb_neq _ _)) by zl. rewrite nonstrict_indefinite by done.
    change (is_indefinite (rd 2 [t; 128]) 2) with true.
    rewrite header_not_eoc, andb_false_r by (by apply valid_tag_byte).
    cbn [tail]. change (0 :: 0 :: print k ++ tail eoc rest) with ([0; 0] ++ print k ++ tail eoc rest).
    rewrite squash_child_headers_spec by done.
    rewrite (proj2 (Z.ltb_ge _ _)) by lia. cbv zeta in *. set (sc := squash_child t f) in *.
    set (t' := if sc then _ else t) in *.
    eapply (element_spec md s fs h (S depth) bs t' (to_der sc f) sq _ _
      (fun inp => inp = rd i (print k ++ tail eoc rest))); try done.
    + unfold t'. destruct sc; [|done]. by apply clear_constructed.
    + destruct sq; [zl|]. rewrite zlen_app, zlen_der_element in Hsz. zl.
    + intros s1 fs1 h1 b1 Hv1 Hcase. destruct (deep_step _ _ _ _ _ Hfs Hh Hcase) as [Hfs1 Hh1].
      apply (IHf Hf fuel i s1 fs1 h1 b1 sc true (S depth) (print k ++ tail eoc rest)); try done; [zl|lia|].
      destruct sq; [zl|]. rewrite zlen_app, zlen_der_element in Hsz. zl.
    + intros Herr Hroom. apply Herr. eapply room_mono; [|exact Hroom]. zl.
    + intros inp s2 -> Hv2. cbn [tail] in Hfuel. eapply outcome_impl; [apply IH; try done; (zl || lia)|..].
      * intros inp s3 [-> Hv3]. by rewrite <- app_assoc in Hv3.
      * intros Herr Hroom. apply Herr. eapply room_mono; [|exact Hroom]. zl.
Qed.

(** Only BER is converted: the input that a successful call has consumed. *)
Lemma convert_loop_sound fuel :
  forall l i h sq eoc depth s inp' s', Forall is_byte l -> Z.of_nat depth <= kMaxDepth ->
  convert_loop fuel (rd i l) h sq eoc depth s = (Some inp', s') ->
  exists b rest, wf_ber b /\ l = print b ++ tail eoc rest /\ Z.of_nat depth + nesting b <= kMaxDepth /\
    inp' = rd i (left_over eoc rest).
Proof.
  induction fuel as [|fuel IH]; intros l i h sq eoc depth s inp' s' Hl Hd; [done|].
  cbn [convert_loop]. rewrite CBS_len_rd. destruct (Z.eqb_spec (zlen l) 0) as [Hz|_].
  { destruct eoc; [done|]. intros [= <- <-]. apply zlen_0_nil in Hz as ->. exists BNil, []. cbn. split_and!; (done || lia). }
  destruct (cbs_nonstrict_get_any_asn1_element (rd i l)) as [[[[out t] hl]|] c'] eqn:Hr; [|done].
  apply any_asn1_element_sound in Hr; [|done].
  destruct Hr as [(c & rest & -> & Ht & Hc & -> & -> & ->)|(_ & Ht & Hcon & rest & -> & -> & -> & ->)].
  - apply Forall_app in Hl as [He Hl]. assert (Hcb : Forall is_byte c) by (by apply Forall_app in He as [_ He]).
    rewrite is_eoc_spec by (done || by apply valid_tag_byte).
    destruct (bool_decide_reflect (t = 0 /\ c = [])) as [[-> ->]|Hne].
    { destruct eoc; [|done]. intros [= <- <-]. exists BNil, rest. cbn. split_and!; (done || lia). }
    rewrite definite_not_indefinite, skip_header, <- constructed_eq by done.
    intros (oc & s1 & _ & HH)%bind_inv. apply bind_inv in HH as ([] & s2 & Hbody & HH).
    apply bind_inv in HH as ([] & s3 & _ & HH). apply IH in HH as (k & r2 & Hk & -> & Hn & ->); [|done|done].
    destruct (constructed t) eqn:Et.
    + destruct (Z.ltb_spec kMaxDepth (Z.of_nat depth + 1)); [done|].
      apply bind_inv in Hbody as (i2 & s4 & Hf & _). apply IH in Hf as (f & r3 & Hf & -> & Hnf & _); [|done|lia].
      cbn [tail] in *. rewrite app_nil_r in *. exists (BCons t f k), r2. cbn [wf_ber print nesting].
      rewrite <- app_assoc. split_and!; (done || lia).
    + exists (BPrim t c k), r2. cbn [wf_ber print nesting]. rewrite <- app_assoc. split_and!; try done.
      intros -> ->. by apply Hne.
  - apply Forall_cons_1 in Hl as [Hbt Hl]. apply Forall_cons_1 in Hl as [_ Hl].
    change (is_indefinite (rd 2 [t; 128]) 2) with true.
    rewrite header_not_eoc, andb_false_r by done. destruct (squash_child_headers t (rd i rest)) as [sc|]; [|done].
    intros (oc & s1 & _ & HH)%bind_inv. apply bind_inv in HH as (inp2 & s2 & Hbody & HH).
    apply bind_inv in HH as ([] & s3 & _ & HH).
    destruct (Z.ltb_spec kMaxDepth (Z.of_nat depth + 1)); [done|].
    apply IH in Hbody as (f & r2 & Hf & -> & Hnf & ->); [|done|lia]. cbn [tail left_over] in *.
    apply Forall_app in Hl as [_ Hl]. apply Forall_cons_1 in Hl as [_ Hl]. apply Forall_cons_1 in Hl as [_ Hl].
    apply IH in HH as (k & r3 & Hk & -> & Hnk & ->); [|done|done].
    exists (BIndef t f k), r3. cbn [wf_ber print nesting]. split_and!; try done; try lia.
    + unfold constructed. by rewrite (proj2 (Z.eqb_neq _ _)).
    + cbn [app]. by rewrite <- app_assoc.
Qed.
End ConvertSpec.

(** ** The result is DER all the way down *)

Inductive definite : list Z -> Prop :=
| definite_nil : definite []
| definite_prim t c r :
    valid_tag t -> constructed t = false -> zlen c <= 0xfffffffe -> definite r -> definite (der_element t c ++ r)
| definite_cons t c r :
    valid_tag t -> constructed t = true -> zlen c <= 0xfffffffe -> definite c -> definite r ->
    definite (der_element t c ++ r).

Lemma to_der_definite b : wf_ber b -> zlen (to_der false b) <= 0xfffffffe -> definite (to_der false b).
Proof.
  induction b as [|t c k IH|t f IHf k IH|t f IHf k IH]; cbn [wf_ber to_der]; intros Hwf Hl.
  - constructor.
  - destruct Hwf as (Ht & Hc & Hb & _ & _ & Hk). rewrite zlen_app, zlen_der_element in Hl.
    apply definite_prim; try done; [zl|]. apply IH; [done|zl].
  - destruct Hwf as (Ht & Hc & _ & Hf & Hk). rewrite zlen_app, zlen_der_element in Hl.
    apply definite_cons; try done; [zl|apply IHf; [done|zl]|apply IH; [done|zl]].
  - destruct Hwf as (Ht & Hc & Hf & Hk). cbv zeta in *. rewrite zlen_app, zlen_der_element in Hl.
    destruct (clear_constructed t Ht) as [Ht' Hc'].
    destruct (squash_child t f).
    + apply definite_prim; try done; [zl|]. apply IH; [done|zl].
    + apply definite_cons; try done; [zl|apply IHf; [done|zl]|apply IH; [done|zl]].
Qed.

Lemma der_element_growth t c : 2 + zlen c <= zlen (der_element t c) <= 6 + zlen c.
Proof.
  rewrite zlen_der_element, der_len_shape. autorewrite with zlist.
  assert (der_len_len (zlen c) <= 4)%nat by (unfold der_len_len; repeat case_match; lia). lia.
Qed.
Lemma to_der_len b sq : zlen (to_der sq b) <= 3 * zlen (print b).
Proof.
  revert sq. induction b as [|t c k IH|t f IHf k IH|t f IHf k IH]; cbn [to_der print]; intros sq.
  - done.
  - pose proof (der_element_growth t c). specialize (IH sq). destruct sq; zl.
  - pose proof (der_element_growth t (print f)). pose proof (der_element_growth t (to_der false f)).
    specialize (IH sq). specialize (IHf false). destruct sq; zl.
  - cbv zeta. set (sc := squash_child t f). specialize (IH sq). specialize (IHf sc).
    pose proof (der_element_growth (if sc then Z.land t (Z.lnot CBS_ASN1_CONSTRUCTED) else t) (to_der sc f)).
    destruct sq; zl.
Qed.

(** ** The theorems *)

Section Theorems.
Context `{Allocator}.

Lemma or_cleanup_outcome {A} h (m : M store A) s P E :
  outcome (m s) P E -> outcome (or_cleanup h m s) P E.
Proof.
  unfold or_cleanup. destruct (m s) as [[a|] s1]; [done|]. cbn [outcome]. intros HE.
  rewrite bind_eq. by destruct (CBB_cleanup h s1) as [[[]|] s2].
Qed.

(** The conversion proper, on any input. *)
Definition convert (inp : CBS) : M store (list Z * Z) :=
  _ ← CBB_init 0%nat (CBS_len inp);
  _ ← or_cleanup 0%nat (cbs_convert_indefinite inp 0%nat false false 0%nat);
  CBB_finish 0%nat true.

Lemma indefinite_to_definite_unfold inp s :
  CBS_asn1_indefinite_to_definite inp s =
  match cbs_find_indefinite inp 0 false with
  | (None, _) => (None, s)
  | (Some _, false) => (Some None, s)
  | (Some _, true) => (r ← convert inp; mret (Some r)) s
  end.
Proof.
  unfold CBS_asn1_indefinite_to_definite, convert.
  destruct (cbs_find_indefinite inp 0 false) as [[[]|] []]; try done.
  rewrite !bind_eq. destruct (CBB_init _ _ s) as [[[]|] s1]; [|done].
  rewrite !bind_eq. by destruct (or_cleanup _ _ s1) as [[inp'|] s2].
Qed.

Lemma convert_correct l i s :
  Forall is_byte l -> zlen l < 2 ^ 30 ->
  outcome (convert (rd i l) s)
    (fun r s' => exists b, wf_ber b /\ l = print b /\ nesting b <= kMaxDepth /\
       ztake (snd r) (fst r) = to_der false b /\ definite (ztake (snd r) (fst r)))
    (forall b, wf_ber b -> l = print b -> nesting b <= kMaxDepth -> ~ room Grow (zlen (to_der false b))).
Proof.
  intros Hl Hlen. unfold convert. rewrite CBS_len_rd.
  assert (Hsz : forall b, l = print b -> zlen (to_der false b) <= 0xfffffffe).
  { intros b ->. pose proof (to_der_len b false). lia. }
  eapply outcome_bind; [apply CBB_init_spec; unfold SIZE_MAX; zl| |].
  { intros Herr b _ _ _ Hroom. apply Herr. eapply room_mono; [|exact Hroom]. zl. }
  intros [] s1 Hb1.
  assert (Hconv : forall b, wf_ber b -> l = print b -> nesting b <= kMaxDepth ->
    outcome (cbs_convert_indefinite (rd i l) 0%nat false false 0%nat s1)
      (fun _ s2 => view Grow s2 [] 0%nat (Some (to_der false b)))
      (~ room Grow (zlen (to_der false b)))).
  { intros b Hb -> Hn. unfold cbs_convert_indefinite. rewrite CBS_len_rd. change (kMaxDepth <? Z.of_nat 0) with false.
    replace (rd i (print b)) with (rd i (print b ++ tail false [])) by (cbn [tail]; by rewrite app_nil_r).
    eapply outcome_impl; [apply (convert_loop_spec Grow b Hb) with (bs := []);
      [cbn [tail]; rewrite !app_nil_r; zl|lia|by apply Hsz|by apply builder_view|constructor|lia]|..].
    - by intros inp s2 [_ Hv2].
    - done. }
  eapply (outcome_bind _ _ _ (fun _ s2 => (exists b, wf_ber b /\ l = print b /\ nesting b <= kMaxDepth) /\
      forall b, wf_ber b -> l = print b -> nesting b <= kMaxDepth -> view Grow s2 [] 0%nat (Some (to_der false b))) _
      (forall b, wf_ber b -> l = print b -> nesting b <= kMaxDepth -> ~ room Grow (zlen (to_der false b)))); [|done|].
  - apply or_cleanup_outcome.
    destruct (cbs_convert_indefinite (rd i l) 0%nat false false 0%nat s1) as [[inp|] s2] eqn:Ec; [|exact Hconv].
    cbn. split; [|exact Hconv]. unfold cbs_convert_indefinite in Ec.
    apply convert_loop_sound in Ec as (b & rest & Hb & -> & Hn & _); [|done|done].
    cbn [tail] in *. rewrite app_nil_r in *. by exists b.
  - intros _ s2 ((b & Hb & Hp & Hn) & Hv).
    destruct (CBB_finish 0%nat true s2) as [[[buf len]|] s3] eqn:Efin; cbn [outcome].
    + pose proof (CBB_finish_spec Grow s2 0%nat _ true (Hv b Hb Hp Hn)) as Hfin. rewrite Efin in Hfin.
      destruct Hfin as (bs & [= <-] & _ & Ht & _). cbn [fst snd] in Ht. exists b. cbn [fst snd]. rewrite Ht.
      split_and!; try done. apply to_der_definite; [done|by apply Hsz].
    + intros b' Hb' Hp' Hn'. pose proof (CBB_finish_spec Grow s2 0%nat _ true (Hv b' Hb' Hp' Hn')) as Hfin.
      rewrite Efin in Hfin. by apply Hfin.
Qed.


(** An element of indefinite length inside elements of definite length is not converted, since the
    loop of the search overwrites what its recursive call has found. *)
Theorem nested_indefinite_unconverted b i s :
  wf_ber b -> nesting b <= kMaxDepth -> top_indefinite b = false ->
  CBS_asn1_indefinite_to_definite (rd i (print b)) s = (Some None, s).
Proof.
  intros Hb Hn Ht. rewrite indefinite_to_definite_unfold.
  pose proof (scans_print b kMaxDepth Hb Hn) as Hs. rewrite Ht in Hs.
  by rewrite (proj2 (cbs_find_indefinite_iff i (print b) false false (print_bytes b Hb)) Hs).
Qed.

End Theorems.

(** An OCTET STRING in fragments inside a SEQUENCE of indefinite length. *)
Definition fragments : ber :=
  BIndef 0x30 (BIndef 0x24 (BPrim 0x04 [1; 2] (BPrim 0x04 [3] BNil)) BNil) BNil.

Ltac ber_concrete :=
  cbn [wf_ber fragments];
  repeat match goal with
  | |- _ /\ _ => split
  | |- Forall _ _ => constructor
  | |- _ => first [done | by vm_compute | by repeat split | unfold is_byte; lia]
  end.


Lemma nesting_print b : wf_ber b -> 2 * nesting b <= zlen (print b).
Proof.
  induction b as [|t c k IH|t f IHf k IH|t f IHf k IH]; cbn [wf_ber nesting print]; intros Hwf.
  - done.
  - destruct Hwf as (_ & _ & _ & Hl & _ & Hk). pose proof (zlen_der_element_ge t c Hl). specialize (IH Hk). zl.
  - destruct Hwf as (_ & _ & Hl & Hf & Hk). pose proof (zlen_der_element_ge t (print f) Hl).
    specialize (IH Hk). specialize (IHf Hf). zl_pose. zl.
  - destruct Hwf as (_ & _ & Hf & Hk). specialize (IH Hk). specialize (IHf Hf). zl_pose. zl.
Qed.

(** An input that is no BER, an indefinite length that is never ended inside an element of definite
    length, is accepted. *)
Lemma not_ber_accepted :
  let l := [0x30; 2; 0x30; 0x80] in
  @CBS_asn1_indefinite_to_definite ample (rd 4 l) empty_store = (Some None, empty_store) /\
  forall b, wf_ber b -> l = print b -> False.
Proof.
  intros l. split; [reflexivity|]. intros b Hb Hl.
  pose proof (@convert_correct ample l 4 empty_store ltac:(unfold l; ber_concrete) eq_refl) as H.
  vm_compute (@convert ample (rd 4 l) empty_store) in H. cbn [outcome] in H.
  pose proof (nesting_print b Hb) as Hn. pose proof (to_der_len b false) as Hd. rewrite <- Hl in Hn, Hd.
  change (zlen l) with 4 in *. apply (H b Hb Hl); [unfold kMaxDepth; lia|]. split; [done|unfold SIZE_MAX; lia].
Qed.

(** A SEQUENCE of definite length around a SEQUENCE of indefinite length. *)
Lemma nested_indefinite_unconverted_witness :
  let b := BCons 0x30 (BIndef 0x30 BNil BNil) BNil in
  any_indefinite b = true /\
  @CBS_asn1_indefinite_to_definite ample (rd 6 [0x30; 4; 0x30; 0x80; 0; 0]) empty_store = (Some None, empty_store).
Proof.
  split; [reflexivity|].
  apply (@nested_indefinite_unconverted ample (BCons 0x30 (BIndef 0x30 BNil BNil) BNil) 6); ber_concrete.
Defined.
