(* ===== verification/Tls13Buffer.v ===== *)
(** * The TLSv1.3 receive buffer (ssl/tls13_buffer.c)

    A buffer that is filled from a read callback until it holds a wanted number
    of bytes.  The callback may return fewer bytes than asked for, or a value
    [<= 0], in which case the caller retries later: what has been read is kept.
    The state the callback works on is a type [W]. *)
From S2P Require Import Prelude Compat Cbs.

(** Return values of the I/O functions (tls13_internal.h). *)
Definition TLS13_IO_SUCCESS : Z := 1.
Definition TLS13_IO_EOF : Z := 0.
Definition TLS13_IO_FAILURE : Z := -1.
Definition TLS13_IO_ALERT : Z := -2.
Definition TLS13_IO_WANT_POLLIN : Z := -3.
Definition TLS13_IO_WANT_POLLOUT : Z := -4.
Definition TLS13_IO_WANT_RETRY : Z := -5.
Definition TLS13_IO_USE_LEGACY : Z := -6.
Definition TLS13_IO_RECORD_VERSION : Z := -7.
Definition TLS13_IO_RECORD_OVERFLOW : Z := -8.

(** [tls13_read_cb]: the return value and the bytes put at the start of the caller's
    array, for an array of the given size. *)
Definition read_cb (W : Type) : Type := Z -> State W (Z * list Z).

Record tls13_buffer := mkTBuf { tb_capacity : Z; tb_data : option (list Z); tb_len : Z; tb_offset : Z }.

(** The bytes of [buf->data], none for NULL. *)
Definition tb_bytes (buf : tls13_buffer) : list Z :=
  match tb_data buf with Some d => d | None => [] end.

Section Buffer.
Context `{Allocator}.

Definition sizeof_tls13_buffer : Z := 32.

Definition tls13_buffer_resize (capacity : Z) : M tls13_buffer unit := fun buf =>
  if tb_capacity buf =? capacity then (Some tt, buf)
  else match recallocarray (tb_data buf) (tb_capacity buf) capacity 1 with
  | None => (None, buf)
  | Some data => (Some tt, mkTBuf capacity (Some data) (tb_len buf) (tb_offset buf))
  end.

Definition tls13_buffer_new (init_size : Z) : option tls13_buffer :=
  if malloc_ok sizeof_tls13_buffer then
    match tls13_buffer_resize init_size (mkTBuf 0 None 0 0) with
    | (Some _, buf) => Some buf
    | (None, _) => None
    end
  else None.

Definition tls13_buffer_set_data (data : CBS) : M tls13_buffer unit :=
  _ ← tls13_buffer_resize (CBS_len data);
  modS (fun buf => mkTBuf (tb_capacity buf)
    ((fun d => overwrite d 0 (ztake (CBS_len data) (CBS_data data))) <$> tb_data buf)
    (tb_len buf) (tb_offset buf)).

Section Read.
Context {W : Type} (read : read_cb W).

(** The [for (;;)] loop; every pass that goes on has read at least one byte. *)
Fixpoint extend_loop (fuel : nat) : State (tls13_buffer * W) Z := fun '(buf, w) =>
  match fuel with
  | O => (TLS13_IO_FAILURE, (buf, w))
  | S fuel' =>
      let '((ret, bytes), w) := read (tb_capacity buf - tb_len buf) w in
      let buf := mkTBuf (tb_capacity buf) ((fun d => overwrite d (tb_len buf) bytes) <$> tb_data buf)
                   (tb_len buf) (tb_offset buf) in
      if ret <=? 0 then (ret, (buf, w))
      else if tb_capacity buf - tb_len buf <? ret then (TLS13_IO_FAILURE, (buf, w))
      else
      let buf := mkTBuf (tb_capacity buf) (tb_data buf) (tb_len buf + ret) (tb_offset buf) in
      if tb_len buf =? tb_capacity buf then (tb_len buf, (buf, w))
      else extend_loop fuel' (buf, w)
  end.

Definition tls13_buffer_extend (len : Z) : State (tls13_buffer * W) Z := fun '(buf, w) =>
  if len =? tb_len buf then (tb_len buf, (buf, w))
  else if len <? tb_len buf then (TLS13_IO_FAILURE, (buf, w))
  else match tls13_buffer_resize len buf with
  | (None, buf) => (TLS13_IO_FAILURE, (buf, w))
  | (Some _, buf) => extend_loop (Z.to_nat (tb_capacity buf - tb_len buf)) (buf, w)
  end.
End Read.

(** A reader over the first [buf->len] bytes. *)
Definition tls13_buffer_cbs (buf : tls13_buffer) : CBS :=
  CBS_init (ztake (tb_len buf) (tb_bytes buf)) (tb_len buf).

(** [out] and [out_len] are not NULL at either call; the pair stands for the [buf->len]
    bytes at [buf->data]. *)
Definition tls13_buffer_finish : State tls13_buffer (option (list Z) * Z) := fun buf =>
  ((ztake (tb_len buf) <$> tb_data buf, tb_len buf), mkTBuf 0 None 0 (tb_offset buf)).
End Buffer.

(** ** What a buffer promises *)

(** The bytes received so far. *)
Definition tb_contents (buf : tls13_buffer) : list Z := ztake (tb_len buf) (tb_bytes buf).

Definition wf_buffer (buf : tls13_buffer) : Prop :=
  zlen (tb_bytes buf) = tb_capacity buf /\ (tb_data buf = None -> tb_capacity buf = 0) /\
  0 <= tb_len buf <= tb_capacity buf /\ tb_capacity buf <= SIZE_MAX.

(** A read callback that delivers a stream of bytes in order, in portions it chooses and
    with interruptions: [incoming w] is what is still to come. *)
Class Stream {W : Type} (read : read_cb W) := {
  incoming : W -> list Z;
  stream_read n w ret bs w' :
    0 < n -> read n w = ((ret, bs), w') ->
    (0 < ret -> zlen bs = ret /\ ret <= n /\ incoming w = bs ++ incoming w') /\
    (ret <= 0 -> bs = [] /\ incoming w' = incoming w)
}.

Section BufferSpec.
Context `{Allocator}.

Lemma resize_spec cap buf :
  wf_buffer buf -> tb_len buf <= cap <= SIZE_MAX ->
  outcome (tls13_buffer_resize cap buf)
    (fun _ b => wf_buffer b /\ tb_capacity b = cap /\ tb_len b = tb_len buf /\ tb_contents b = tb_contents buf /\
                (0 < cap -> is_Some (tb_data b)))
    (malloc_ok cap = false).
Proof.
  intros (Hcap & Hnull & Hlen & Hmax) Hc. unfold tls13_buffer_resize.
  destruct (Z.eqb_spec (tb_capacity buf) cap) as [<-|Hne].
  { cbn. split_and!; try done. intros Hp. destruct (tb_data buf); [done|]. rewrite Hnull in Hp by done. lia. }
  destruct buf as [k [d|] l o]; unfold tb_bytes, tb_contents in *; cbn [tb_data tb_capacity tb_len tb_offset] in *.
  - pose proof (recallocarray_resize d k cap Hcap Hmax ltac:(lia)) as Hr.
    destruct (recallocarray _ _ _ _) as [r|]; [|done]. destruct Hr as [Hr Hk]. cbn.
    unfold wf_buffer, tb_contents, tb_bytes. cbn. split_and!; try done; try lia. by apply Hk; lia.
  - rewrite Hnull in * by done. unfold recallocarray. rewrite Z.mul_1_r.
    destruct (malloc_ok cap); [|done]. cbn. unfold wf_buffer, tb_contents, tb_bytes. cbn.
    assert (l = 0) as -> by lia. split_and!; try done; try lia. rewrite zlen_zeros; lia.
Qed.

Context {W : Type} (read : read_cb W) `{!Stream read}.

(** What [tls13_buffer_extend] guarantees when it works towards [cap] bytes: bytes move from
    the stream to the end of the buffer and nowhere else, and it is done when all are there. *)
Definition extends (cap : Z) (buf : tls13_buffer) (w : W) (r : Z * (tls13_buffer * W)) : Prop :=
  let '(ret, (buf', w')) := r in
  wf_buffer buf' /\ (exists d, incoming w = d ++ incoming w' /\ tb_contents buf' = tb_contents buf ++ d) /\
  tb_len buf' <= cap /\ (0 < ret -> ret = cap /\ tb_len buf' = cap).

Lemma extend_loop_spec fuel buf w :
  wf_buffer buf -> tb_len buf < tb_capacity buf -> tb_capacity buf - tb_len buf <= Z.of_nat fuel ->
  extends (tb_capacity buf) buf w (extend_loop read fuel (buf, w)).
Proof.
  revert buf w. induction fuel as [|fuel IH]; intros buf w Hwf Hlt Hfuel; [lia|].
  destruct Hwf as (Hcap & Hnull & Hlen & Hmax). cbn [extend_loop].
  destruct (read (tb_capacity buf - tb_len buf) w) as [[ret bs] w1] eqn:Hread.
  apply stream_read in Hread as [Hpos Hneg]; [|lia].
  destruct buf as [k [d|] l o]; unfold tb_bytes in *; cbn [tb_data tb_capacity tb_len tb_offset] in *;
    [|rewrite Hnull in * by done; lia].
  cbn [fmap option_fmap option_map].
  destruct (Z.leb_spec ret 0) as [Hle|Hgt].
  { destruct (Hneg Hle) as [-> Hin]. unfold extends, wf_buffer, tb_contents, tb_bytes. cbn.
    rewrite !zlen_overwrite by zl. split_and!; try done; try lia.
    exists []. rewrite Hin, app_nil_r. split; [done|]. unfold overwrite. rewrite zlen_nil, Z.add_0_r. cbn [app].
    by rewrite ztake_zdrop. }
  destruct (Hpos Hgt) as (Hbs & Hle & Hin). rewrite (proj2 (Z.ltb_ge _ _)) by lia.
  set (buf1 := mkTBuf k (Some (overwrite d l bs)) (l + ret) o).
  assert (Hwf1 : wf_buffer buf1).
  { unfold wf_buffer, tb_bytes, buf1. cbn. rewrite zlen_overwrite by lia. split_and!; (done || lia). }
  assert (Hc1 : tb_contents buf1 = ztake l d ++ bs).
  { unfold tb_contents, tb_bytes, buf1. cbn. unfold overwrite. rewrite app_assoc. apply ztake_app_eq. zl. }
  cbn [tb_len tb_capacity]. destruct (Z.eqb_spec (l + ret) k) as [He|Hne].
  { unfold extends. split; [exact Hwf1|]. split; [|split; [cbn; lia|cbn; lia]]. exists bs. by rewrite Hc1. }
  specialize (IH buf1 w1 Hwf1 ltac:(cbn; lia) ltac:(cbn; lia)).
  destruct (extend_loop read fuel (buf1, w1)) as [ret2 [buf2 w2]].
  destruct IH as (Hwf2 & (e & Hin2 & Hc2) & Hl2 & Hr2). unfold extends. split; [done|]. split; [|done].
  exists (bs ++ e). rewrite Hin, Hin2, Hc2, Hc1. by rewrite <- !app_assoc.
Qed.

Lemma tls13_buffer_extend_spec len buf w :
  wf_buffer buf -> 0 < len <= SIZE_MAX -> tb_len buf <= len ->
  extends len buf w (tls13_buffer_extend read len (buf, w)).
Proof.
  intros Hwf Hlen Hle. unfold tls13_buffer_extend. destruct (Z.eqb_spec len (tb_len buf)) as [->|Hne].
  { unfold extends. split_and!; try done. exists []. by rewrite app_nil_r. }
  rewrite (proj2 (Z.ltb_ge _ _)) by lia. pose proof (resize_spec len buf Hwf ltac:(lia)) as Hr.
  destruct (tls13_buffer_resize len buf) as [[[]|] b] eqn:E.
  - destruct Hr as (Hwf1 & Hc & Hl & Hcont & _).
    pose proof (extend_loop_spec (Z.to_nat (tb_capacity b - tb_len b)) b w Hwf1 ltac:(lia) ltac:(lia)) as Hx.
    rewrite Hc in Hx |- *. destruct (extend_loop _ _ _) as [ret [b' w']].
    destruct Hx as (? & (d & Hd & Hcd) & ? & ?). unfold extends. split_and!; try done.
    exists d. by rewrite Hcd, Hcont.
  - assert (b = buf) as ->.
    { unfold tls13_buffer_resize in E. destruct (_ =? _); [done|]. destruct (recallocarray _ _ _ _); [done|]. by injection E. }
    unfold extends, TLS13_IO_FAILURE. split_and!; try done. exists []. by rewrite app_nil_r.
Qed.
End BufferSpec.
