(* ===== verification/Tls13Record.v ===== *)
(** * TLSv1.3 records on the wire (ssl/tls13_record.c, ssl/tls13_record.h)

    One record being received (its header, then its contents, resumable at every
    byte) or sent (from where the previous attempt stopped). *)
From S2P Require Import Prelude Compat Cbs Tls13Buffer.

Definition TLS13_RECORD_HEADER_LEN : Z := 5.
Definition TLS13_RECORD_MAX_AEAD_OVERHEAD : Z := 255.
Definition TLS13_RECORD_MAX_PLAINTEXT_LEN : Z := 16384.
Definition TLS13_RECORD_MAX_INNER_PLAINTEXT_LEN : Z := TLS13_RECORD_MAX_PLAINTEXT_LEN + 1.
Definition TLS13_RECORD_MAX_CIPHERTEXT_LEN : Z :=
  TLS13_RECORD_MAX_INNER_PLAINTEXT_LEN + TLS13_RECORD_MAX_AEAD_OVERHEAD.
Definition TLS13_RECORD_MAX_LEN : Z := TLS13_RECORD_HEADER_LEN + TLS13_RECORD_MAX_CIPHERTEXT_LEN.
Definition TLS13_RECORD_SEQ_NUM_LEN : nat := 8.

Definition SSL3_VERSION_MAJOR : Z := 3.

(** [tls13_write_cb]: the return value for these bytes. *)
Definition write_cb (W : Type) : Type := list Z -> State W Z.

Record tls13_record := mkRec {
  rec_version : Z;
  rec_content_type : Z;
  rec_rec_len : Z;
  rec_data : option (list Z);
  rec_data_len : Z;
  rec_cbs : CBS;
  rec_buf : tls13_buffer
}.

Definition sizeof_tls13_record : Z := 72.

(** [rec->data] as an array, empty for NULL. *)
Definition rec_bytes (rec : tls13_record) : list Z := match rec_data rec with Some d => d | None => [] end.

Definition set_rec_buf (rec : tls13_record) (b : tls13_buffer) : tls13_record :=
  mkRec (rec_version rec) (rec_content_type rec) (rec_rec_len rec) (rec_data rec) (rec_data_len rec)
    (rec_cbs rec) b.
Definition set_rec_cbs (rec : tls13_record) (c : CBS) : tls13_record :=
  mkRec (rec_version rec) (rec_content_type rec) (rec_rec_len rec) (rec_data rec) (rec_data_len rec)
    c (rec_buf rec).

Section Records.
Context `{Allocator}.

Definition tls13_record_new : option tls13_record :=
  if malloc_ok sizeof_tls13_record then
    buf ← tls13_buffer_new TLS13_RECORD_MAX_LEN;
    Some (mkRec 0 0 0 None 0 (CBS_init [] 0) buf)
  else None.

Definition tls13_record_version (rec : tls13_record) : Z := rec_version rec.
Definition tls13_record_content_type (rec : tls13_record) : Z := rec_content_type rec.

Definition tls13_record_header (rec : tls13_record) : option CBS :=
  if rec_data_len rec <? TLS13_RECORD_HEADER_LEN then None
  else Some (CBS_init (ztake TLS13_RECORD_HEADER_LEN (rec_bytes rec)) TLS13_RECORD_HEADER_LEN).

Definition tls13_record_data (rec : tls13_record) : CBS := CBS_init (rec_bytes rec) (rec_data_len rec).

Definition tls13_record_content (rec : tls13_record) : option CBS :=
  match CBS_skip TLS13_RECORD_HEADER_LEN (tls13_record_data rec) with
  | (None, _) => None
  | (Some _, content) => Some (CBS_dup content)
  end.

Definition tls13_record_set_data (data : list Z) (data_len : Z) : M tls13_record unit := fun rec =>
  if TLS13_RECORD_MAX_LEN <? data_len then (None, rec)
  else (Some tt, mkRec (rec_version rec) (rec_content_type rec) (rec_rec_len rec) (Some data) data_len
                   (CBS_init data data_len) (rec_buf rec)).

(** The three fields of a record header. *)
Definition parse_record_header : M CBS (Z * Z * Z) :=
  content_type ← CBS_get_u8; rec_version ← CBS_get_u16; rec_len ← CBS_get_u16;
  mret (content_type, rec_version, rec_len).

Section Receive.
Context {W : Type} (wire_read : read_cb W).

(** The second half of [tls13_record_recv]: the contents, once the header is known. *)
Definition record_recv_body : State (tls13_record * W) Z := fun '(rec, w) =>
  let '(ret, (buf, w)) :=
    tls13_buffer_extend wire_read (TLS13_RECORD_HEADER_LEN + rec_rec_len rec) (rec_buf rec, w) in
  if ret <=? 0 then (ret, (set_rec_buf rec buf, w))
  else
  let '((data, data_len), buf) := tls13_buffer_finish buf in
  (data_len, (mkRec (rec_version rec) (rec_content_type rec) (rec_rec_len rec) data data_len (rec_cbs rec) buf, w)).

Definition tls13_record_recv : State (tls13_record * W) Z := fun '(rec, w) =>
  match rec_data rec with
  | Some _ => (TLS13_IO_FAILURE, (rec, w))
  | None =>
      if rec_content_type rec =? 0 then
        let '(ret, (buf, w)) := tls13_buffer_extend wire_read TLS13_RECORD_HEADER_LEN (rec_buf rec, w) in
        let rec := set_rec_buf rec buf in
        if ret <=? 0 then (ret, (rec, w))
        else match parse_record_header (tls13_buffer_cbs buf) with
        | (None, _) => (TLS13_IO_FAILURE, (rec, w))
        | (Some (content_type, version, len), _) =>
            if negb (Z.shiftr version 8 =? SSL3_VERSION_MAJOR) then (TLS13_IO_RECORD_VERSION, (rec, w))
            else if TLS13_RECORD_MAX_CIPHERTEXT_LEN <? len then (TLS13_IO_RECORD_OVERFLOW, (rec, w))
            else record_recv_body
              (mkRec version content_type len (rec_data rec) (rec_data_len rec) (rec_cbs rec) buf, w)
        end
      else record_recv_body (rec, w)
  end.
End Receive.

Section Send.
Context {W : Type} (wire_write : write_cb W).

(** The [while] loop of [tls13_record_send]; every pass that goes on skips a byte or more. *)
Fixpoint record_send_loop (fuel : nat) : State (tls13_record * W) Z := fun '(rec, w) =>
  match fuel with
  | O => (rec_data_len rec, (rec, w))
  | S fuel' =>
      if CBS_len (rec_cbs rec) =? 0 then (rec_data_len rec, (rec, w))
      else
      let '(ret, w) := wire_write (ztake (CBS_len (rec_cbs rec)) (CBS_data (rec_cbs rec))) w in
      if ret <=? 0 then (ret, (rec, w))
      else match CBS_skip ret (rec_cbs rec) with
      | (None, c) => (TLS13_IO_FAILURE, (set_rec_cbs rec c, w))
      | (Some _, c) => record_send_loop fuel' (set_rec_cbs rec c, w)
      end
  end.

Definition tls13_record_send : State (tls13_record * W) Z := fun '(rec, w) =>
  match rec_data rec with
  | None => (TLS13_IO_FAILURE, (rec, w))
  | Some _ => record_send_loop (Z.to_nat (CBS_len (rec_cbs rec))) (rec, w)
  end.
End Send.
End Records.

(** [rec_consts]: expose the numbers behind the length constants to [lia]. *)
Ltac rec_consts :=
  unfold TLS13_RECORD_MAX_LEN, TLS13_RECORD_MAX_CIPHERTEXT_LEN, TLS13_RECORD_MAX_INNER_PLAINTEXT_LEN,
    TLS13_RECORD_MAX_PLAINTEXT_LEN, TLS13_RECORD_MAX_AEAD_OVERHEAD, TLS13_RECORD_HEADER_LEN in *.

(** ** Receiving *)

(** The header of a record. *)
Definition record_header (content_type version len : Z) : list Z :=
  be_bytes 1 content_type ++ be_bytes 2 version ++ be_bytes 2 len.

(** A record that is being received: what has arrived of it is in the buffer, and once
    [content_type] is set it starts with a header that says what the fields say. *)
Definition receiving (rec : tls13_record) : Prop :=
  0 <= rec_content_type rec < 256 /\ rec_data rec = None /\ wf_buffer (rec_buf rec) /\ Forall is_byte (tb_contents (rec_buf rec)) /\
  if rec_content_type rec =? 0 then tb_len (rec_buf rec) <= TLS13_RECORD_HEADER_LEN
  else 0 <= rec_rec_len rec <= TLS13_RECORD_MAX_CIPHERTEXT_LEN /\
    tb_len (rec_buf rec) <= TLS13_RECORD_HEADER_LEN + rec_rec_len rec /\
    Z.shiftr (rec_version rec) 8 = SSL3_VERSION_MAJOR /\
    exists body, tb_contents (rec_buf rec) = record_header (rec_content_type rec) (rec_version rec) (rec_rec_len rec) ++ body.

Lemma zlen_tb_contents buf : wf_buffer buf -> zlen (tb_contents buf) = tb_len buf.
Proof. intros (Hc & _ & Hl & _). unfold tb_contents. rewrite zlen_ztake by lia. lia. Qed.
Lemma zlen_record_header t v l : zlen (record_header t v l) = 5.
Proof. unfold record_header. zl. Qed.

Lemma parse_record_header_spec i l :
  zlen l = 5 -> Forall is_byte l ->
  exists t v n, parse_record_header (rd i l) = (Some (t, v, n), rd i []) /\ l = record_header t v n /\
    0 <= t < 2 ^ 8 /\ 0 <= v < 2 ^ 16 /\ 0 <= n < 2 ^ 16.
Proof.
  intros Hl Hb. destruct l as [|b0 [|b1 [|b2 [|b3 [|b4 [|]]]]]]; try (autorewrite with zlist in Hl; zl_pose; lia).
  rewrite !Forall_cons in Hb. destruct Hb as (Hb0 & Hb1 & Hb2 & Hb3 & Hb4 & _).
  assert (Hv : Forall is_byte [b1; b2]) by (rewrite !Forall_cons; auto).
  assert (Hn : Forall is_byte [b3; b4]) by (rewrite !Forall_cons; auto).
  exists b0, (be_val [b1; b2]), (be_val [b3; b4]).
  pose proof (be_val_bound _ Hv). pose proof (be_val_bound _ Hn).
  split; [|split; [|done]].
  - unfold parse_record_header. mstep (apply CBS_get_u8_ok).
    change [b1; b2; b3; b4] with ([b1; b2] ++ [b3; b4]). mstep (by apply CBS_get_u16_ok).
    rewrite <- (app_nil_r [b3; b4]). mstep (by apply CBS_get_u16_ok). done.
  - unfold record_header. rewrite (be_bytes_be_val [b1; b2] Hv : be_bytes 2 _ = _),
      (be_bytes_be_val [b3; b4] Hn : be_bytes 2 _ = _). cbn. by rewrite Z.mod_small.
Qed.

Lemma record_header_cons t v n l : zlen l = 5 -> l = record_header t v n -> 0 <= t < 256 -> exists l', l = t :: l'.
Proof. intros _ -> Ht. unfold record_header. cbn. rewrite Z.mod_small by lia. eauto. Qed.

Section ReceiveSpec.
Context `{Allocator} {W : Type} (wire_read : read_cb W) `{!Stream wire_read}.

(** All the bytes of the stream from the start of the record. *)
Definition rec_stream (rec : tls13_record) (w : W) : list Z := tb_contents (rec_buf rec) ++ incoming w.

(** A complete record. *)
Definition received (rec : tls13_record) (t v n : Z) (body : list Z) : Prop :=
  rec_data rec = Some (record_header t v n ++ body) /\ zlen body = n /\ rec_data_len rec = 5 + n /\
  rec_content_type rec = t /\ rec_version rec = v /\ 0 <= n <= TLS13_RECORD_MAX_CIPHERTEXT_LEN /\
  Z.shiftr v 8 = SSL3_VERSION_MAJOR.

Definition recv_post (stream : list Z) (r : Z * (tls13_record * W)) : Prop :=
  let '(ret, (rec', w')) := r in
  if 0 <? ret then
    exists t v n body, received rec' t v n body /\ ret = 5 + n /\
      stream = record_header t v n ++ body ++ incoming w'
  else rec_stream rec' w' = stream /\ (receiving rec' \/ exists l, stream = 0 :: l).

Lemma record_recv_body_spec rec w :
  rec_data rec = None -> wf_buffer (rec_buf rec) -> Forall is_byte (rec_stream rec w) ->
  0 <= rec_rec_len rec <= TLS13_RECORD_MAX_CIPHERTEXT_LEN ->
  tb_len (rec_buf rec) <= TLS13_RECORD_HEADER_LEN + rec_rec_len rec ->
  Z.shiftr (rec_version rec) 8 = SSL3_VERSION_MAJOR -> 0 <= rec_content_type rec < 256 ->
  (exists body, tb_contents (rec_buf rec) = record_header (rec_content_type rec) (rec_version rec) (rec_rec_len rec) ++ body) ->
  recv_post (rec_stream rec w) (record_recv_body wire_read (rec, w)).
Proof.
  intros Hd Hwf Hb Hn Hlen Hv Ht (body & Hhdr). unfold record_recv_body, rec_stream in *.
  rec_consts.
  pose proof (tls13_buffer_extend_spec wire_read (5 + rec_rec_len rec) (rec_buf rec) w Hwf
    ltac:(unfold SIZE_MAX; lia) ltac:(lia)) as Hx.
  destruct (tls13_buffer_extend wire_read _ _) as [ret [buf w1]].
  destruct Hx as (Hwf1 & (d & Hin & Hc) & Hl1 & Hret).
  pose proof (zlen_tb_contents _ Hwf1) as Hz.
  destruct (Z.leb_spec ret 0) as [Hle|Hgt].
  - unfold recv_post. rewrite (proj2 (Z.ltb_ge 0 ret)) by lia. unfold rec_stream. cbn [set_rec_buf rec_buf].
    split; [rewrite Hin, Hc; by rewrite app_assoc|].
    destruct (decide (rec_content_type rec = 0)) as [E|E].
    + right. rewrite Hhdr, E. cbn. eauto.
    + left. unfold receiving. rec_consts. cbn [set_rec_buf rec_data rec_buf rec_content_type rec_rec_len rec_version].
      rewrite (proj2 (Z.eqb_neq _ _)) by done. split_and!; try done; try lia.
      * rewrite Hc. rewrite Hin, app_assoc, Forall_app in Hb. by destruct Hb.
      * exists (body ++ d). by rewrite Hc, Hhdr, app_assoc.
  - destruct (Hret Hgt) as [-> Hfull]. cbn [tls13_buffer_finish]. unfold tls13_buffer_finish.
    cbn [recv_post]. rewrite Hfull, (proj2 (Z.ltb_lt _ _)) by lia.
    assert (Hdata : ztake (5 + rec_rec_len rec) <$> tb_data buf = Some (tb_contents buf)).
    { destruct Hwf1 as (Hcap & Hnull & Hb1 & _). unfold tb_contents, tb_bytes in *. rewrite Hfull.
      destruct (tb_data buf) as [dd|]; [done|]. rewrite Hnull in * by done. lia. }
    exists (rec_content_type rec), (rec_version rec), (rec_rec_len rec), (body ++ d).
    rewrite Hfull, Hc, Hhdr in Hz. pose proof (zlen_record_header (rec_content_type rec) (rec_version rec) (rec_rec_len rec)).
    split; [|split; [done|rewrite Hin, Hhdr; by rewrite <- !app_assoc]].
    unfold received. cbn [rec_data rec_data_len rec_content_type rec_version]. rec_consts. rewrite Hdata, Hc, Hhdr.
    split_and!; try done; try lia.
    all: try by rewrite <- app_assoc. all: autorewrite with zlist in Hz |- *; lia.
Qed.

Lemma tls13_record_recv_spec rec w :
  receiving rec -> Forall is_byte (incoming w) -> recv_post (rec_stream rec w) (tls13_record_recv wire_read (rec, w)).
Proof.
  intros (Ht & Hd & Hwf & Hb & Hhdr) Hbi.
  assert (Hbs : Forall is_byte (rec_stream rec w)) by (apply Forall_app; done).
  unfold tls13_record_recv. rewrite Hd.
  destruct (Z.eqb_spec (rec_content_type rec) 0) as [E0|E0].
  2: { destruct Hhdr as (? & ? & ? & ?). by apply record_recv_body_spec. }
  pose proof (tls13_buffer_extend_spec wire_read TLS13_RECORD_HEADER_LEN (rec_buf rec) w Hwf
    ltac:(unfold SIZE_MAX, TLS13_RECORD_HEADER_LEN; lia) Hhdr) as Hx.
  destruct (tls13_buffer_extend wire_read _ _) as [ret [buf w1]].
  destruct Hx as (Hwf1 & (d & Hin & Hc) & Hl1 & Hret).
  assert (Hst : rec_stream (set_rec_buf rec buf) w1 = rec_stream rec w).
  { unfold rec_stream. cbn. rewrite Hc, Hin. by rewrite app_assoc. }
  assert (Hb1 : Forall is_byte (tb_contents buf)).
  { rewrite <- Hst in Hbs. unfold rec_stream in Hbs. apply Forall_app in Hbs as [? _]. done. }
  assert (Hrec1 : receiving (set_rec_buf rec buf)).
  { unfold receiving. cbn [set_rec_buf rec_data rec_buf rec_content_type]. rewrite E0. by split_and!. }
  destruct (Z.leb_spec ret 0) as [Hle|Hgt].
  { cbn. rewrite (proj2 (Z.ltb_ge _ _)) by lia. auto. }
  destruct (Hret Hgt) as [-> Hfull]. pose proof (zlen_tb_contents _ Hwf1) as Hz. rewrite Hfull in Hz.
  assert (Hcbs : tls13_buffer_cbs buf = rd 5 (tb_contents buf)).
  { unfold tls13_buffer_cbs, CBS_init, rd. fold (tb_contents buf). by rewrite Hz, Hfull. }
  destruct (parse_record_header_spec 5 (tb_contents buf) Hz Hb1) as (t & v & n & Hp & Hh & Ht' & Hv' & Hn').
  rewrite Hcbs, Hp. destruct (Z.eqb_spec (Z.shiftr v 8) SSL3_VERSION_MAJOR) as [Hv|Hv]; cbn [negb].
  2: { cbn. auto. }
  destruct (Z.ltb_spec TLS13_RECORD_MAX_CIPHERTEXT_LEN n) as [Hbig|Hsmall]; [cbn; auto|].
  rewrite <- Hst. set (rec1 := mkRec v t n _ _ _ buf).
  change (rec_stream (set_rec_buf rec buf) w1) with (rec_stream rec1 w1).
  apply record_recv_body_spec; try done; unfold rec1;
    cbn [rec_data rec_buf rec_content_type rec_rec_len rec_version]; try done; try lia.
  - by rewrite <- Hst in Hbs.
  - exists []. by rewrite app_nil_r.
Qed.

(** Calls of [tls13_record_recv] that did not complete the record. *)
Definition recv_step (p q : tls13_record * W) : Prop :=
  exists ret, tls13_record_recv wire_read p = (ret, q) /\ ret <= 0.

Lemma recv_steps_spec rec w rec' w' stream :
  rtc recv_step (rec, w) (rec', w') -> receiving rec -> rec_stream rec w = stream -> Forall is_byte stream ->
  (forall l, stream <> 0 :: l) -> receiving rec' /\ rec_stream rec' w' = stream.
Proof.
  intros Hs. remember (rec, w) as p eqn:Ep. remember (rec', w') as q eqn:Eq. revert rec w Ep.
  induction Hs as [p|p q r (ret & Hstep & Hle) _ IH]; intros rec w -> Hrec Hst Hb H0.
  - by injection Eq as -> ->.
  - destruct q as [rec1 w1]. pose proof (tls13_record_recv_spec rec w Hrec) as Hp.
    rewrite Hst, Hstep in Hp. cbn in Hp. rewrite (proj2 (Z.ltb_ge _ _)) in Hp by lia.
    destruct Hp as [Hst1 [Hrec1|[l Hl]]].
    + rewrite <- Hst in Hb. apply Forall_app in Hb. tauto.
    + by apply (IH Eq rec1 w1).
    + by apply H0 in Hl.
Qed.

Lemma tls13_record_new_receiving rec : tls13_record_new = Some rec -> receiving rec /\ tb_contents (rec_buf rec) = [].
Proof.
  unfold tls13_record_new, tls13_buffer_new. destruct (malloc_ok _); [|done]. destruct (malloc_ok _); [|done].
  pose proof (resize_spec TLS13_RECORD_MAX_LEN (mkTBuf 0 None 0 0)) as Hr.
  destruct (tls13_buffer_resize _ _) as [[[]|] b]; [|done]. cbn. intros [= <-].
  destruct Hr as (Hwf & Hcap & Hlen & Hc & _); [done|done|]. unfold receiving. cbn in *. rewrite Hc, Hlen.
  by split_and!.
Qed.
End ReceiveSpec.

(** ** Sending *)

(** A write callback that takes some of the bytes, in order: [sent w] is what it has taken. *)
Class Sink {W : Type} (write : write_cb W) := {
  sent : W -> list Z;
  sink_write bs w ret w' :
    0 < zlen bs -> write bs w = (ret, w') ->
    (0 < ret -> ret <= zlen bs /\ sent w' = sent w ++ ztake ret bs) /\ (ret <= 0 -> sent w' = sent w)
}.

Section SendSpec.
Context {W : Type} (wire_write : write_cb W) `{!Sink wire_write}.

(** The bytes of a record that are still to be sent move to the wire in order. *)
Definition send_post (rec : tls13_record) (w : W) (i : Z) (l : list Z) (r : Z * (tls13_record * W)) : Prop :=
  let '(ret, (rec', w')) := r in
  exists a l', l = a ++ l' /\ sent w' = sent w ++ a /\ rec' = set_rec_cbs rec (rd i l') /\
    (if 0 <? ret then l' = [] /\ ret = rec_data_len rec else l' <> []).

Lemma set_rec_cbs_same rec c : rec_cbs rec = c -> rec = set_rec_cbs rec c.
Proof. intros <-. by destruct rec. Qed.

Lemma record_send_loop_spec fuel rec w i l :
  rec_cbs rec = rd i l -> zlen l <= Z.of_nat fuel -> 0 < rec_data_len rec ->
  send_post rec w i l (record_send_loop wire_write fuel (rec, w)).
Proof.
  revert rec w l. induction fuel as [|fuel IH]; intros rec w l Hc Hf Hlen.
  - assert (l = []) as -> by (apply zlen_0_nil; zl). cbn. exists [], []. split_and!; try done.
    + by rewrite app_nil_r.
    + by apply set_rec_cbs_same.
    + by rewrite (proj2 (Z.ltb_lt _ _)).
  - cbn [record_send_loop]. rewrite Hc. change (CBS_len (rd i l)) with (zlen l). change (CBS_data (rd i l)) with l.
    rewrite ztake_ge by lia. destruct (Z.eqb_spec (zlen l) 0) as [Hz|Hnz].
    { apply zlen_0_nil in Hz as ->. exists [], []. split_and!; try done.
      + by rewrite app_nil_r.
      + by apply set_rec_cbs_same.
      + by rewrite (proj2 (Z.ltb_lt _ _)). }
    destruct (wire_write l w) as [ret w1] eqn:Hw. apply sink_write in Hw as [Hpos Hneg]; [|zl].
    destruct (Z.leb_spec ret 0) as [Hle|Hgt].
    { exists [], l. rewrite Hneg, app_nil_r by done. split_and!; try done.
      + by apply set_rec_cbs_same.
      + rewrite (proj2 (Z.ltb_ge _ _)) by lia. intros ->. by rewrite zlen_nil in Hnz. }
    destruct (Hpos Hgt) as [Hr Hsent]. destruct (zsplit ret l) as (a & b & -> & Ha & Htk & _); [lia|].
    rewrite (CBS_skip_ok i a b ret) by lia.
    specialize (IH (set_rec_cbs rec (rd i b)) w1 b eq_refl ltac:(zl) Hlen).
    destruct (record_send_loop wire_write fuel _) as [ret2 [rec2 w2]].
    destruct IH as (c & l' & -> & Hs2 & -> & Hend). exists (a ++ c), l'.
    rewrite Hs2, Hsent, Htk, <- !app_assoc. split_and!; try done.
Qed.

Lemma tls13_record_send_spec rec w i l :
  is_Some (rec_data rec) -> rec_cbs rec = rd i l -> 0 < rec_data_len rec ->
  send_post rec w i l (tls13_record_send wire_write (rec, w)).
Proof.
  intros [d Hd] Hc Hl. unfold tls13_record_send. rewrite Hd. apply record_send_loop_spec; try done.
  rewrite Hc. unfold CBS_len. cbn. lia.
Qed.
End SendSpec.

(** ** A wire in memory

    The peer's bytes arrive in the given portions; [None] is a moment when nothing is there. *)
Definition portions : Type := list (option (list Z)).

Definition portions_read : read_cb portions := fun n ps =>
  match ps with
  | [] => ((TLS13_IO_EOF, []), [])
  | None :: ps' => ((TLS13_IO_WANT_POLLIN, []), ps')
  | Some bs :: ps' =>
      if zlen bs <=? n then
        if zlen bs =? 0 then ((TLS13_IO_WANT_POLLIN, []), ps') else ((zlen bs, bs), ps')
      else ((n, ztake n bs), Some (zdrop n bs) :: ps')
  end.

Definition portions_bytes (ps : portions) : list Z := concat (map (fun p => match p with Some bs => bs | None => [] end) ps).

#[global] Program Instance portions_stream : Stream portions_read := {| incoming := portions_bytes |}.
Next Obligation.
  intros n [|[bs|] ps] ret bs' w' Hn; cbn [portions_read].
  - intros [= <- <- <-]. done.
  - destruct (Z.leb_spec (zlen bs) n); [destruct (Z.eqb_spec (zlen bs) 0)|]; intros [= <- <- <-].
    + apply zlen_0_nil in e as ->. done.
    + split; [|zl]. done.
    + split; [|lia]. intros _. rewrite zlen_ztake by lia. split; [lia|]. split; [lia|].
      unfold portions_bytes. cbn. by rewrite app_assoc, ztake_zdrop.
  - intros [= <- <- <-]. done.
Qed.

(** C7: Receiving a record is resumable at every byte: after any number of calls of
    [tls13_record_recv] that did not complete (whatever portions the wire delivered), the next call
    that completes has, in [rec->data], exactly the first record of the peer's byte stream, with its
    type and version, of at most 2^14+256 content bytes, and the rest of the stream is still to be
    read; a call that does not complete loses no byte. *)
Theorem tls13_record_recv_resumable `{Allocator} {W} (wire_read : read_cb W) `{!Stream wire_read}
    rec0 w0 rec1 w1 ret rec2 w2 :
  tls13_record_new = Some rec0 -> Forall is_byte (incoming w0) -> (forall l, incoming w0 <> 0 :: l) ->
  rtc (recv_step wire_read) (rec0, w0) (rec1, w1) ->
  tls13_record_recv wire_read (rec1, w1) = (ret, (rec2, w2)) ->
  if 0 <? ret then
    exists t v n body, received rec2 t v n body /\ ret = 5 + n /\
      incoming w0 = record_header t v n ++ body ++ incoming w2
  else incoming w0 = tb_contents (rec_buf rec2) ++ incoming w2.
Proof.
  intros Hnew Hb H0 Hs Hr. apply tls13_record_new_receiving in Hnew as [Hrec Hc].
  assert (Hst : rec_stream wire_read rec0 w0 = incoming w0) by (unfold rec_stream; by rewrite Hc).
  destruct (recv_steps_spec wire_read _ _ _ _ _ Hs Hrec Hst Hb H0) as [Hrec1 Hst1].
  pose proof (tls13_record_recv_spec wire_read rec1 w1 Hrec1) as Hp. rewrite Hst1, Hr in Hp. cbn in Hp.
  assert (Forall is_byte (incoming w1)) as Hb1.
  { rewrite <- Hst1 in Hb. apply Forall_app in Hb. tauto. }
  specialize (Hp Hb1). destruct (0 <? ret); [done|]. destruct Hp as [<- _]. done.
Qed.

Lemma tls13_record_recv_resumable_witness :
  let wire : portions := [Some [23; 3]; None; Some [3; 0; 2; 0xaa]; None; Some [0xbb; 1]] in
  let rec0 := match @tls13_record_new ample with Some r => r | None => mkRec 0 0 0 None 0 (CBS_init [] 0) (mkTBuf 0 None 0 0) end in
  let p1 := snd (@tls13_record_recv ample _ portions_read (rec0, wire)) in
  let p2 := snd (@tls13_record_recv ample _ portions_read p1) in
  let r := @tls13_record_recv ample _ portions_read p2 in
  exists t v n body, received (r.2.1) t v n body /\ r.1 = 5 + n /\
    portions_bytes wire = record_header t v n ++ body ++ portions_bytes r.2.2.
Proof.
  intros wire rec0 p1 p2 r.
  refine (@tls13_record_recv_resumable ample _ portions_read _ rec0 wire p2.1 p2.2 7 r.2.1 r.2.2 _ _ _ _ _).
  - vm_compute. reflexivity.
  - by apply bytes_ok.
  - intros l. vm_compute. discriminate.
  - apply (rtc_l _ _ p1); [exists TLS13_IO_WANT_POLLIN; split; [vm_compute; reflexivity|discriminate]|].
    apply (rtc_l _ _ p2); [exists TLS13_IO_WANT_POLLIN; split; [vm_compute; reflexivity|discriminate]|].
    destruct p2. constructor.
  - vm_compute. reflexivity.
Defined.
