(* ===== verification/KeySchedule.v ===== *)
(** * The TLSv1.3 key schedule (ssl/tls13_key_schedule.c)

    The secrets of RFC 8446 section 7.1, the stages that derive them and the
    labels.  The hash and HKDF are an interface, [Hkdf]; every use of a label is
    also reported to the connection's claim callback, kept here as a log. *)
From Stdlib Require Import String Ascii.
From S2P Require Import Prelude Compat Cbs Cbb CbbSpec CbbBuild.

(** The bytes of a C string literal, without its NUL. *)
Definition str (s : string) : list Z := map (fun a => Z.of_N (N_of_ascii a)) (list_ascii_of_string s).
Arguments str s%_string_scope.

(** What the key schedule uses of libcrypto: digests and HKDF (RFC 5869). *)
Class Hkdf := {
  EVP_MD : Type;
  EVP_MD_size : EVP_MD -> Z;
  EVP_Digest : EVP_MD -> list Z -> option (list Z);
  HKDF_extract : EVP_MD -> list Z -> list Z -> option (list Z);   (* digest, secret, salt *)
  HKDF_expand : EVP_MD -> list Z -> list Z -> Z -> option (list Z) (* digest, prk, info, length *)
}.

(** Documented output sizes. *)
Class HkdfLaws `{Hkdf} := {
  md_size_bounds md : 0 < EVP_MD_size md <= 64;
  digest_size md l d : EVP_Digest md l = Some d -> zlen d = EVP_MD_size md /\ Forall is_byte d;
  extract_size md i s k : HKDF_extract md i s = Some k -> zlen k = EVP_MD_size md;
  expand_size md k i n o : HKDF_expand md k i n = Some o -> zlen o = n
}.

Record tls13_secret := mkSecret { ts_data : option (list Z); ts_len : Z }.
Definition no_secret : tls13_secret := mkSecret None 0.
Definition ts_bytes (s : tls13_secret) : list Z := match ts_data s with Some d => d | None => [] end.

(** The members of [struct tls13_secrets] that are secrets. *)
Inductive secret_id :=
| S_zeros | S_empty_hash | S_extracted_early | S_binder_key | S_client_early_traffic
| S_early_exporter_master | S_derived_early | S_extracted_handshake | S_client_handshake_traffic
| S_server_handshake_traffic | S_derived_handshake | S_extracted_master
| S_client_application_traffic | S_server_application_traffic | S_exporter_master | S_resumption_master.
#[global] Instance secret_id_eq : EqDecision secret_id.
Proof. solve_decision. Defined.

(** The types of claim that labels are reported as. *)
Inductive claim_type :=
| CLAIM_TRANSCRIPT_CH_SH | CLAIM_TRANSCRIPT_CH_SERVER_FIN | CLAIM_TRANSCRIPT_CH_CLIENT_FIN
| CLAIM_TRANSCRIPT_UNKNOWN.
Definition Claim : Type := claim_type * list Z.

Section Schedule.
Context `{Allocator} `{Hkdf}.

Record tls13_secrets := mkSecrets {
  ss_digest : EVP_MD;
  ss_resumption : bool;
  ss_init_done : bool;
  ss_early_done : bool;
  ss_handshake_done : bool;
  ss_schedule_done : bool;
  ss_insecure : bool;
  ss : secret_id -> tls13_secret
}.

Definition upd (f : secret_id -> tls13_secret) (i : secret_id) (v : tls13_secret) : secret_id -> tls13_secret :=
  fun j => if decide (j = i) then v else f j.
Definition set_secret (i : secret_id) (v : tls13_secret) (s : tls13_secrets) : tls13_secrets :=
  mkSecrets (ss_digest s) (ss_resumption s) (ss_init_done s) (ss_early_done s) (ss_handshake_done s)
    (ss_schedule_done s) (ss_insecure s) (upd (ss s) i v).

Definition tls13_secret_init (len : Z) : M tls13_secret unit := fun s =>
  match ts_data s with
  | Some _ => (None, s)
  | None => if malloc_ok len then (Some tt, mkSecret (Some (zeros len)) len) else (None, s)
  end.

Definition tls13_secret_cleanup (s : tls13_secret) : tls13_secret := no_secret.

(** The members in the order [tls13_secrets_create] allocates them. *)
Definition all_secrets : list secret_id :=
  [S_zeros; S_empty_hash; S_extracted_early; S_binder_key; S_client_early_traffic;
   S_early_exporter_master; S_derived_early; S_extracted_handshake; S_client_handshake_traffic;
   S_server_handshake_traffic; S_derived_handshake; S_extracted_master;
   S_client_application_traffic; S_server_application_traffic; S_exporter_master; S_resumption_master].

Definition sizeof_tls13_secrets : Z := 288.

Fixpoint init_secrets (ids : list secret_id) (len : Z) (f : secret_id -> tls13_secret)
    : option (secret_id -> tls13_secret) :=
  match ids with
  | [] => Some f
  | i :: ids' =>
      match tls13_secret_init len (f i) with
      | (None, _) => None
      | (Some _, v) => init_secrets ids' len (upd f i v)
      end
  end.

Definition tls13_secrets_create (digest : EVP_MD) (resumption : bool) : option tls13_secrets :=
  let hash_length := EVP_MD_size digest in
  if malloc_ok sizeof_tls13_secrets then
    f ← init_secrets all_secrets hash_length (fun _ => no_secret);
    md ← EVP_Digest digest [];
    if negb (ts_len (f S_empty_hash) =? zlen md) then None
    else Some (mkSecrets digest resumption true false false false false
                 (upd f S_empty_hash (mkSecret (Some md) (ts_len (f S_empty_hash)))))
  else None.

(** The secrets as [freezero] finds them: every member is wiped and freed. *)
Definition tls13_secrets_destroy (secrets : tls13_secrets) : tls13_secrets :=
  fold_left (fun s i => set_secret i (tls13_secret_cleanup (ss s i)) s) all_secrets secrets.

(** ** Labels *)

(** The type that a label's transcript is claimed as: the first match of the comparisons
    over [labellen] bytes, the constants padded by their NUL. *)
Definition label_eq (label : list Z) (c : string) : bool :=
  bytes_eqb label (ztake (zlen label) (str c ++ [0])).
Definition claim_of_label (label : list Z) : claim_type :=
  if label_eq label "ext binder" || label_eq label "res binder" || label_eq label "c e traffic"
     || label_eq label "e exp master" then CLAIM_TRANSCRIPT_CH_SH
  else if label_eq label "c hs traffic" || label_eq label "s hs traffic" then CLAIM_TRANSCRIPT_CH_SH
  else if label_eq label "c ap traffic" || label_eq label "s ap traffic" || label_eq label "exp master"
  then CLAIM_TRANSCRIPT_CH_SERVER_FIN
  else if label_eq label "res master" then CLAIM_TRANSCRIPT_CH_CLIENT_FIN
  else CLAIM_TRANSCRIPT_UNKNOWN.

(** The HkdfLabel of RFC 8446 section 7.1, as the CBB calls build it. *)
Definition hkdf_label_build (out_len : Z) (label context : list Z) : M store (list Z * Z) :=
  _ ← CBB_init 0%nat 256;
  _ ← CBB_add_u16 0%nat out_len;
  _ ← CBB_add_u8_length_prefixed 0%nat 1%nat;
  _ ← CBB_add_bytes 1%nat (str "tls13 ") (zlen (str "tls13 "));
  _ ← CBB_add_bytes 1%nat label (zlen label);
  _ ← CBB_add_u8_length_prefixed 0%nat 1%nat;
  _ ← CBB_add_bytes 1%nat context (zlen context);
  CBB_finish 0%nat true.

(** The state is the log of the claim callback; the result is what [HKDF_expand] puts in [out]. *)
Definition tls13_hkdf_expand_label_with_length (out_len : Z) (digest : EVP_MD) (secret : tls13_secret)
    (label : list Z) (context : tls13_secret) : M (list Claim) (list Z) := fun log =>
  let log := log ++ [(claim_of_label label, ts_bytes context)] in
  match hkdf_label_build out_len label (ts_bytes context) (mkStore None ∅) with
  | (None, _) => (None, log)
  | (Some (hkdf_label, hkdf_label_len), _) =>
      (HKDF_expand digest (ts_bytes secret) (ztake hkdf_label_len hkdf_label) out_len, log)
  end.

Definition tls13_hkdf_expand_label (out_len : Z) (digest : EVP_MD) (secret : tls13_secret)
    (label : string) (context : tls13_secret) : M (list Claim) (list Z) :=
  tls13_hkdf_expand_label_with_length out_len digest secret (str label) context.

Definition tls13_derive_secret_with_label_length (out_len : Z) (digest : EVP_MD) (secret : tls13_secret)
    (label : list Z) (context : tls13_secret) : M (list Claim) (list Z) :=
  tls13_hkdf_expand_label_with_length out_len digest secret label context.

(** ** Stages: the state is the secrets and the log *)

Definition ks : Type := tls13_secrets * list Claim.

(** [tls13_hkdf_expand_label(ctx, &secrets->out, secrets->digest, &secrets->from, label, context)] *)
Definition tls13_derive_secret (out from : secret_id) (label : string) (context : tls13_secret) : M ks unit :=
  fun '(s, log) =>
  match tls13_hkdf_expand_label (ts_len (ss s out)) (ss_digest s) (ss s from) label context log with
  | (None, log) => (None, (s, log))
  | (Some o, log) => (Some tt, (set_secret out (mkSecret (Some o) (ts_len (ss s out))) s, log))
  end.

(** [HKDF_extract(secrets->out.data, &secrets->out.len, secrets->digest, ikm, ikm_len, salt.data,
    salt.len)] and the check of its length. *)
Definition extract (out : secret_id) (ikm : list Z) (salt : secret_id) : M ks unit := fun '(s, log) =>
  match HKDF_extract (ss_digest s) ikm (ts_bytes (ss s salt)) with
  | None => (None, (s, log))
  | Some k =>
      let s := set_secret out (mkSecret (Some k) (zlen k)) s in
      (if zlen k =? ts_len (ss s S_zeros) then Some tt else None, (s, log))
  end.

(** [if (!secrets->insecure) explicit_bzero(secrets->i.data, secrets->i.len);] *)
Definition wipe (i : secret_id) : M ks unit := fun '(s, log) =>
  (Some tt, (if ss_insecure s then s
             else set_secret i (mkSecret (Some (zeros (ts_len (ss s i)))) (ts_len (ss s i))) s, log)).

Definition guard (f : tls13_secrets -> bool) : M ks unit := fun st => (if f st.1 then Some tt else None, st).
Definition sec (i : secret_id) : M ks tls13_secret := fun st => (Some (ss st.1 i), st).

Definition tls13_derive_early_secrets (psk : list Z) (context : tls13_secret) : M ks unit :=
  _ ← guard (fun s => ss_init_done s && negb (ss_early_done s));
  _ ← extract S_extracted_early psk S_zeros;
  st ← getS; empty_hash ← sec S_empty_hash;
  _ ← tls13_derive_secret S_binder_key S_extracted_early
        (if ss_resumption st.1 then "res binder" else "ext binder") empty_hash;
  _ ← tls13_derive_secret S_client_early_traffic S_extracted_early "c e traffic" context;
  _ ← tls13_derive_secret S_early_exporter_master S_extracted_early "e exp master" context;
  _ ← tls13_derive_secret S_derived_early S_extracted_early "derived" empty_hash;
  _ ← wipe S_extracted_early;
  modS (fun '(s, log) => (mkSecrets (ss_digest s) (ss_resumption s) (ss_init_done s) true (ss_handshake_done s)
                            (ss_schedule_done s) (ss_insecure s) (ss s), log)).

Definition tls13_derive_handshake_secrets (ecdhe : list Z) (context : tls13_secret) : M ks unit :=
  _ ← guard (fun s => ss_init_done s && ss_early_done s && negb (ss_handshake_done s));
  _ ← extract S_extracted_handshake ecdhe S_derived_early;
  _ ← wipe S_derived_early;
  empty_hash ← sec S_empty_hash;
  _ ← tls13_derive_secret S_client_handshake_traffic S_extracted_handshake "c hs traffic" context;
  _ ← tls13_derive_secret S_server_handshake_traffic S_extracted_handshake "s hs traffic" context;
  _ ← tls13_derive_secret S_derived_handshake S_extracted_handshake "derived" empty_hash;
  _ ← wipe S_extracted_handshake;
  modS (fun '(s, log) => (mkSecrets (ss_digest s) (ss_resumption s) (ss_init_done s) (ss_early_done s) true
                            (ss_schedule_done s) (ss_insecure s) (ss s), log)).

Definition tls13_derive_application_secrets (context : tls13_secret) : M ks unit :=
  _ ← guard (fun s => ss_init_done s && ss_early_done s && ss_handshake_done s && negb (ss_schedule_done s));
  zeros ← sec S_zeros;
  _ ← extract S_extracted_master (ts_bytes zeros) S_derived_handshake;
  _ ← wipe S_derived_handshake;
  _ ← tls13_derive_secret S_client_application_traffic S_extracted_master "c ap traffic" context;
  _ ← tls13_derive_secret S_server_application_traffic S_extracted_master "s ap traffic" context;
  _ ← tls13_derive_secret S_exporter_master S_extracted_master "exp master" context;
  _ ← tls13_derive_secret S_resumption_master S_extracted_master "res master" context;
  _ ← wipe S_extracted_master;
  modS (fun '(s, log) => (mkSecrets (ss_digest s) (ss_resumption s) (ss_init_done s) (ss_early_done s)
                            (ss_handshake_done s) true (ss_insecure s) (ss s), log)).

Definition all_done (s : tls13_secrets) : bool :=
  ss_init_done s && ss_early_done s && ss_handshake_done s && ss_schedule_done s.

Definition tls13_update_client_traffic_secret : M ks unit :=
  _ ← guard all_done;
  tls13_derive_secret S_client_application_traffic S_client_application_traffic "traffic upd" (mkSecret (Some []) 0).
Definition tls13_update_server_traffic_secret : M ks unit :=
  _ ← guard all_done;
  tls13_derive_secret S_server_application_traffic S_server_application_traffic "traffic upd" (mkSecret (Some []) 0).

(** ** The HkdfLabel *)

Definition label_msg (out_len : Z) (label context : list Z) : msg :=
  UInt 2 out_len (Prefixed 1 (Bytes (str "tls13 ") (Bytes label Done)) (Prefixed 1 (Bytes context Done) Done)).
(** struct { uint16 length; opaque label<7..255> = "tls13 " + Label; opaque context<0..255>; } *)
Definition hkdf_label (out_len : Z) (label context : list Z) : list Z :=
  be_bytes 2 out_len ++ be_bytes 1 (6 + zlen label) ++ str "tls13 " ++ label ++
  be_bytes 1 (zlen context) ++ context.

Lemma hkdf_label_build_marshal out_len label context s :
  hkdf_label_build out_len label context s = cbb_marshal 256 (label_msg out_len label context) s.
Proof.
  unfold hkdf_label_build, cbb_marshal, label_msg. cbn [cbb_build add_uint add_prefixed].
  rewrite !bind_eq. destruct (CBB_init _ _ s) as [[[]|] s1]; [|done].
  rewrite !bind_eq. destruct (CBB_add_u16 _ _ s1) as [[[]|] s2]; [|done].
  rewrite !bind_eq. destruct (CBB_add_u8_length_prefixed _ _ s2) as [[[]|] s3]; [|done].
  rewrite !bind_eq. destruct (CBB_add_bytes _ _ _ s3) as [[[]|] s4]; [|done].
  rewrite !bind_eq. destruct (CBB_add_bytes _ _ _ s4) as [[[]|] s5]; [|done].
  cbn [mret M_ret]. unfold mret, M_ret. rewrite !bind_eq.
  destruct (CBB_add_u8_length_prefixed _ _ s5) as [[[]|] s6]; [|done].
  rewrite !bind_eq. by destruct (CBB_add_bytes _ _ _ s6) as [[[]|] s7].
Qed.

Lemma encode_label out_len label context bs :
  encode (label_msg out_len label context) = Some bs ->
  bs = hkdf_label out_len label context /\ out_len < 2 ^ 16 /\ zlen label <= 249 /\ zlen context <= 255.
Proof.
  unfold label_msg, hkdf_label. cbn [encode mbind option_bind enc_prefix].
  destruct (Z.ltb_spec out_len (256 ^ Z.of_nat 2)); [|done]. rewrite !app_nil_r.
  destruct (Z.ltb_spec (zlen (str "tls13 " ++ label)) (256 ^ Z.of_nat 1)) as [Hl|]; [cbn [mbind option_bind]|done].
  destruct (Z.ltb_spec (zlen context) (256 ^ Z.of_nat 1)) as [Hc|]; [cbn [mbind option_bind]|done].
  intros Heq. apply (inj Some) in Heq as <-.
  rewrite zlen_app in *. change (zlen (str "tls13 ")) with 6 in *. change (256 ^ Z.of_nat 1) with 256 in *.
  split_and!; try lia. by rewrite <- !app_assoc.
Qed.

Lemma hkdf_label_build_sound out_len label context s buf len s' :
  0 <= out_len <= SIZE_MAX -> Forall is_byte label -> Forall is_byte context ->
  zlen label <= SIZE_MAX -> zlen context <= SIZE_MAX ->
  hkdf_label_build out_len label context s = (Some (buf, len), s') ->
  ztake len buf = hkdf_label out_len label context /\ out_len < 2 ^ 16 /\ zlen label <= 249 /\ zlen context <= 255.
Proof.
  intros Ho Hl Hc Hll Hcl. rewrite hkdf_label_build_marshal. intros E.
  pose proof (cbb_marshal_spec 256 (label_msg out_len label context) s) as Hs. rewrite E in Hs.
  destruct Hs as (He & _); [|unfold SIZE_MAX; lia|by apply encode_label].
  cbn [wf_msg label_msg]. split_and!; try done; try lia. by apply bytes_ok.
Qed.

(** ** Inversion of the steps of a stage *)

(** The log grows by claims only. *)
Lemma upd_eq f i v : upd f i v i = v.
Proof. unfold upd. by rewrite decide_True. Qed.
Lemma upd_ne f i j v : j <> i -> upd f i v j = f j.
Proof. intros. unfold upd. by rewrite decide_False. Qed.
Lemma ss_set_eq i v s : ss (set_secret i v s) i = v.
Proof. apply upd_eq. Qed.
Lemma ss_set_ne i j v s : j <> i -> ss (set_secret i v s) j = ss s j.
Proof. apply upd_ne. Qed.

Definition bytes_secret (x : tls13_secret) : Prop := Forall is_byte (ts_bytes x) /\ zlen (ts_bytes x) <= SIZE_MAX.

(** Derive-Secret and HKDF-Expand-Label of RFC 8446 section 7.1. *)
Definition expand_label (md : EVP_MD) (secret : list Z) (label : string) (context : list Z) (n : Z) : option (list Z) :=
  HKDF_expand md secret (hkdf_label n (str label) context) n.

Lemma str_bytes l : Forall is_byte (str l).
Proof.
  unfold str. apply Forall_forall. intros b Hb%list_elem_of_In. apply in_map_iff in Hb as (a & <- & _).
  unfold is_byte. pose proof (N_ascii_bounded a). lia.
Qed.

Lemma derive_inv out from label context s log st :
  bytes_secret context -> 0 <= ts_len (ss s out) <= SIZE_MAX -> zlen (str label) <= SIZE_MAX ->
  tls13_derive_secret out from label context (s, log) = (Some tt, st) ->
  exists o, expand_label (ss_digest s) (ts_bytes (ss s from)) label (ts_bytes context) (ts_len (ss s out)) = Some o /\
    st = (set_secret out (mkSecret (Some o) (ts_len (ss s out))) s, log ++ [(claim_of_label (str label), ts_bytes context)]).
Proof.
  intros [Hc Hcl] Hl Hll. unfold tls13_derive_secret, tls13_hkdf_expand_label, tls13_hkdf_expand_label_with_length.
  destruct (hkdf_label_build _ _ _ _) as [[[buf len]|] s'] eqn:E; [|done].
  apply hkdf_label_build_sound in E as [E _]; [|done|apply str_bytes|done|done|done]. rewrite E.
  unfold expand_label. destruct (HKDF_expand _ _ _ _) as [o|]; [|done]. intros [= <-]. eauto.
Qed.

Lemma extract_inv out ikm salt s log st :
  out <> S_zeros -> extract out ikm salt (s, log) = (Some tt, st) ->
  exists k, HKDF_extract (ss_digest s) ikm (ts_bytes (ss s salt)) = Some k /\ zlen k = ts_len (ss s S_zeros) /\
    st = (set_secret out (mkSecret (Some k) (zlen k)) s, log).
Proof.
  intros Hne. unfold extract. destruct (HKDF_extract _ _ _) as [k|]; [|done].
  rewrite ss_set_ne by done. destruct (Z.eqb_spec (zlen k) (ts_len (ss s S_zeros))); [|done].
  intros [= <-]. eauto.
Qed.

Context `{!HkdfLaws}.

(** A set of secrets as [tls13_secrets_create] leaves it and the stages keep it. *)
Definition wf_ks (s : tls13_secrets) : Prop :=
  (forall i, ts_len (ss s i) = EVP_MD_size (ss_digest s)) /\
  ts_data (ss s S_zeros) = Some (zeros (EVP_MD_size (ss_digest s))) /\
  ts_data (ss s S_empty_hash) = EVP_Digest (ss_digest s) [] /\ is_Some (EVP_Digest (ss_digest s) []) /\
  ss_init_done s = true /\ ss_insecure s = false.

Lemma init_secrets_spec ids len f g :
  init_secrets ids len f = Some g -> forall i, g i = if decide (i ∈ ids) then mkSecret (Some (zeros len)) len else f i.
Proof.
  revert f. induction ids as [|j ids IH]; intros f; cbn [init_secrets].
  - intros [= <-] i. by rewrite decide_False by (by apply not_elem_of_nil).
  - unfold tls13_secret_init. destruct (ts_data (f j)); [done|]. destruct (malloc_ok len); [|done].
    intros Hg i. rewrite (IH _ Hg i). destruct (decide (i ∈ ids)) as [Hi|Hi].
    + by rewrite decide_True by (by right).
    + unfold upd. case_decide as Hij; [subst; by rewrite decide_True by left|].
      rewrite decide_False; [done|]. by intros [?|?]%elem_of_cons.
Qed.

Lemma tls13_secrets_create_spec md r s :
  tls13_secrets_create md r = Some s ->
  wf_ks s /\ ss_digest s = md /\ ss_resumption s = r /\
  ss_early_done s = false /\ ss_handshake_done s = false /\ ss_schedule_done s = false.
Proof.
  unfold tls13_secrets_create. destruct (malloc_ok _); [|done].
  destruct (init_secrets _ _ _) as [f|] eqn:Ef; [cbn|done]. destruct (EVP_Digest md []) as [d|] eqn:Ed; [cbn|done].
  pose proof (init_secrets_spec _ _ _ _ Ef) as Hf.
  assert (Hall : forall i, f i = mkSecret (Some (zeros (EVP_MD_size md))) (EVP_MD_size md)).
  { intros i. rewrite Hf, decide_True; [done|]. by destruct i; apply list_elem_of_In; cbn; tauto. }
  rewrite !Hall. cbn. destruct (_ =? _); [|done]. cbn. intros [= <-]. cbn. split_and!; try done.
  unfold wf_ks. cbn. rewrite Ed. split_and!; try done.
  - intros i. unfold upd. case_decide; [done|]. by rewrite Hall.
  - by rewrite upd_ne, Hall by done.
Qed.

Lemma wf_empty_hash s : wf_ks s -> bytes_secret (ss s S_empty_hash) /\
  Some (ts_bytes (ss s S_empty_hash)) = EVP_Digest (ss_digest s) [].
Proof.
  intros (_ & _ & Hd & [d He] & _). unfold bytes_secret, ts_bytes. rewrite Hd, He.
  apply digest_size in He as [Hl Hb]. pose proof (md_size_bounds (ss_digest s)). unfold SIZE_MAX. split; [|done]. split; [done|lia].
Qed.

(** The state after a stage has assigned members. *)
Definition assigned (s : tls13_secrets) (l : list (secret_id * list Z)) : secret_id -> tls13_secret :=
  foldl (fun f p => upd f p.1 (mkSecret (Some p.2) (EVP_MD_size (ss_digest s)))) (ss s) l.

(** The steps of a stage on secrets of [n] bytes. *)
Definition lens (s : tls13_secrets) (n : Z) : Prop := 0 <= n <= SIZE_MAX /\ forall i, ts_len (ss s i) = n.

Lemma lens_set s n i k : lens s n -> lens (set_secret i (mkSecret (Some k) n) s) n.
Proof. intros [Hn Hl]. split; [done|]. intros j. cbn. unfold upd. by case_decide. Qed.

Lemma derive_step out from label context s log n st :
  lens s n -> bytes_secret context -> zlen (str label) <= SIZE_MAX ->
  tls13_derive_secret out from label context (s, log) = (Some tt, st) ->
  exists o, expand_label (ss_digest s) (ts_bytes (ss s from)) label (ts_bytes context) n = Some o /\
    st = (set_secret out (mkSecret (Some o) n) s, log ++ [(claim_of_label (str label), ts_bytes context)]).
Proof.
  intros [Hn Hl] Hc Hll HH. apply derive_inv in HH as (o & Ho & ->); [|done|by rewrite Hl|done].
  rewrite Hl in Ho. exists o. by rewrite Hl.
Qed.

Lemma wipe_step i s log n st :
  lens s n -> ss_insecure s = false -> wipe i (s, log) = (Some tt, st) ->
  st = (set_secret i (mkSecret (Some (zeros n)) n) s, log).
Proof. intros [_ Hl] Hi. unfold wipe. rewrite Hi, Hl. by intros [= <-]. Qed.

Lemma binder_short (b : bool) : zlen (str (if b then "res binder" else "ext binder")) <= SIZE_MAX.
Proof. destruct b; vm_compute; discriminate. Qed.
Ltac label_short := first [apply binder_short | vm_compute; discriminate].

(** [dstep HH o Ho]: invert a [tls13_derive_secret] at the head of [HH]. *)
Ltac dstep HH n o Ho :=
  let u := fresh in let st := fresh "st" in let E := fresh "E" in
  apply bind_inv in HH as (u & st & E & HH); destruct u;
  apply (derive_step _ _ _ _ _ _ n) in E as (o & Ho & ->); [|repeat apply lens_set; assumption|assumption|label_short];
  cbv beta iota in HH; cbn [ss_digest set_secret ss] in Ho.
Ltac upds := repeat (rewrite upd_eq in * || rewrite upd_ne in * by discriminate).

Lemma early_spec psk context s log s' log' :
  wf_ks s -> bytes_secret context ->
  tls13_derive_early_secrets psk context (s, log) = (Some tt, (s', log')) ->
  let md := ss_digest s in let n := EVP_MD_size md in let eh := ts_bytes (ss s S_empty_hash) in
  ss_early_done s = false /\
  exists early b c e d,
    HKDF_extract md psk (zeros n) = Some early /\
    expand_label md early (if ss_resumption s then "res binder" else "ext binder") eh n = Some b /\
    expand_label md early "c e traffic" (ts_bytes context) n = Some c /\
    expand_label md early "e exp master" (ts_bytes context) n = Some e /\
    expand_label md early "derived" eh n = Some d /\
    s' = mkSecrets md (ss_resumption s) true true (ss_handshake_done s) (ss_schedule_done s) false
      (assigned s [(S_extracted_early, early); (S_binder_key, b); (S_client_early_traffic, c);
                   (S_early_exporter_master, e); (S_derived_early, d); (S_extracted_early, zeros n)]).
Proof.
  intros Hwf Hctx HH md n eh. destruct (wf_empty_hash s Hwf) as [Hehb _].
  destruct Hwf as (Hlen & Hz & _ & _ & Hinit & Hins).
  assert (Hl : lens s n) by (split; [unfold n; pose proof (md_size_bounds md); unfold SIZE_MAX; lia|done]).
  apply bind_inv in HH as ([] & st1 & E1 & HH). unfold guard in E1. cbn [fst] in E1. rewrite Hinit in E1.
  destruct (ss_early_done s) eqn:Ee; [done|]. injection E1 as <-. split; [done|].
  apply bind_inv in HH as ([] & st2 & E2 & HH). apply extract_inv in E2 as (early & Hx & Hxl & ->); [|done].
  rewrite Hlen in Hxl. fold md n in Hxl. rewrite Hxl in HH.
  unfold ts_bytes in Hx at 1. rewrite Hz in Hx. fold md n in Hx.
  apply bind_inv in HH as (? & ? & E3 & HH). injection E3 as <- <-.
  apply bind_inv in HH as (? & ? & E4 & HH). injection E4 as <- <-. cbn [fst] in HH.
  rewrite upd_ne in HH by done. change (ss_resumption (set_secret _ _ s)) with (ss_resumption s) in HH.
  dstep HH n b Hb. dstep HH n c Hc. dstep HH n e He. dstep HH n d Hd. upds.
  apply bind_inv in HH as ([] & ? & E5 & HH). apply (wipe_step _ _ _ n) in E5 as ->; [|repeat apply lens_set; done|done].
  injection HH as <- <-. exists early, b, c, e, d. split_and!; try done. by rewrite Hinit, Hins.
Qed.

Lemma handshake_spec ecdhe context s log s' log' :
  wf_ks s -> bytes_secret context ->
  tls13_derive_handshake_secrets ecdhe context (s, log) = (Some tt, (s', log')) ->
  let md := ss_digest s in let n := EVP_MD_size md in let eh := ts_bytes (ss s S_empty_hash) in
  ss_early_done s = true /\ ss_handshake_done s = false /\
  exists hs c v d,
    HKDF_extract md ecdhe (ts_bytes (ss s S_derived_early)) = Some hs /\
    expand_label md hs "c hs traffic" (ts_bytes context) n = Some c /\
    expand_label md hs "s hs traffic" (ts_bytes context) n = Some v /\
    expand_label md hs "derived" eh n = Some d /\
    s' = mkSecrets md (ss_resumption s) true true true (ss_schedule_done s) false
      (assigned s [(S_extracted_handshake, hs); (S_derived_early, zeros n); (S_client_handshake_traffic, c);
                   (S_server_handshake_traffic, v); (S_derived_handshake, d); (S_extracted_handshake, zeros n)]).
Proof.
  intros Hwf Hctx HH md n eh. destruct (wf_empty_hash s Hwf) as [Hehb _].
  destruct Hwf as (Hlen & _ & _ & _ & Hinit & Hins).
  assert (Hl : lens s n) by (split; [unfold n; pose proof (md_size_bounds md); unfold SIZE_MAX; lia|done]).
  apply bind_inv in HH as ([] & st1 & E1 & HH). unfold guard in E1. cbn [fst] in E1. rewrite Hinit in E1.
  destruct (ss_early_done s) eqn:Ee; [|done]. destruct (ss_handshake_done s) eqn:Eh; [done|].
  injection E1 as <-. do 2 (split; [done|]).
  apply bind_inv in HH as ([] & st2 & E2 & HH). apply extract_inv in E2 as (hs & Hx & Hxl & ->); [|done].
  rewrite Hlen in Hxl. fold md n in Hxl. rewrite Hxl in HH.
  apply bind_inv in HH as ([] & ? & E5 & HH). apply (wipe_step _ _ _ n) in E5 as ->; [|repeat apply lens_set; done|done].
  apply bind_inv in HH as (? & ? & E4 & HH). injection E4 as <- <-. cbn [fst] in HH.
  rewrite !upd_ne in HH by done.
  dstep HH n c Hc. dstep HH n v Hv. dstep HH n d Hd. upds.
  apply bind_inv in HH as ([] & ? & E6 & HH). apply (wipe_step _ _ _ n) in E6 as ->; [|repeat apply lens_set; done|done].
  injection HH as <- <-. exists hs, c, v, d. split_and!; try done. by rewrite Hinit, Hins, Ee.
Qed.

Lemma application_spec context s log s' log' :
  wf_ks s -> bytes_secret context ->
  tls13_derive_application_secrets context (s, log) = (Some tt, (s', log')) ->
  let md := ss_digest s in let n := EVP_MD_size md in
  ss_early_done s = true /\ ss_handshake_done s = true /\ ss_schedule_done s = false /\
  exists m c v e r,
    HKDF_extract md (zeros n) (ts_bytes (ss s S_derived_handshake)) = Some m /\
    expand_label md m "c ap traffic" (ts_bytes context) n = Some c /\
    expand_label md m "s ap traffic" (ts_bytes context) n = Some v /\
    expand_label md m "exp master" (ts_bytes context) n = Some e /\
    expand_label md m "res master" (ts_bytes context) n = Some r /\
    s' = mkSecrets md (ss_resumption s) true true true true false
      (assigned s [(S_extracted_master, m); (S_derived_handshake, zeros n); (S_client_application_traffic, c);
                   (S_server_application_traffic, v); (S_exporter_master, e); (S_resumption_master, r);
                   (S_extracted_master, zeros n)]).
Proof.
  intros Hwf Hctx HH md n.
  destruct Hwf as (Hlen & Hz & _ & _ & Hinit & Hins).
  assert (Hl : lens s n) by (split; [unfold n; pose proof (md_size_bounds md); unfold SIZE_MAX; lia|done]).
  apply bind_inv in HH as ([] & st1 & E1 & HH). unfold guard in E1. cbn [fst] in E1. rewrite Hinit in E1.
  destruct (ss_early_done s) eqn:Ee; [|done]. destruct (ss_handshake_done s) eqn:Eh; [|done].
  destruct (ss_schedule_done s) eqn:Es; [done|]. injection E1 as <-. do 3 (split; [done|]).
  apply bind_inv in HH as (? & ? & E4 & HH). injection E4 as <- <-. cbn [fst] in HH.
  unfold ts_bytes in HH at 1. rewrite Hz in HH. fold md n in HH.
  apply bind_inv in HH as ([] & st2 & E2 & HH). apply extract_inv in E2 as (m & Hx & Hxl & ->); [|done].
  rewrite Hlen in Hxl. fold md n in Hxl. rewrite Hxl in HH.
  apply bind_inv in HH as ([] & ? & E5 & HH). apply (wipe_step _ _ _ n) in E5 as ->; [|repeat apply lens_set; done|done].
  dstep HH n c Hc. dstep HH n v Hv. dstep HH n e He. dstep HH n r Hr. upds.
  apply bind_inv in HH as ([] & ? & E6 & HH). apply (wipe_step _ _ _ n) in E6 as ->; [|repeat apply lens_set; done|done].
  injection HH as <- <-. exists m, c, v, e, r. split_and!; try done. by rewrite Hinit, Hins, Ee, Eh.
Qed.

Lemma assigned_keep n l f i :
  Forall (fun p : secret_id * list Z => p.1 <> i) l ->
  foldl (fun f p => upd f p.1 (mkSecret (Some p.2) n)) f l i = f i.
Proof.
  revert f. induction l as [|p l IH]; intros f Hl; [done|]. apply Forall_cons_1 in Hl as [Hp Hl].
  cbn. rewrite IH by done. by apply upd_ne.
Qed.
Lemma assigned_len n (l : list (secret_id * list Z)) f i :
  (forall j, ts_len (f j) = n) -> ts_len (foldl (fun f p => upd f p.1 (mkSecret (Some p.2) n)) f l i) = n.
Proof.
  revert f. induction l as [|p l IH]; intros f Hf; [done|]. cbn. apply IH. intros j. unfold upd. by case_decide.
Qed.

(** The members that hold the hash of nothing and zeros are never assigned. *)
Lemma wf_assigned s l r h sd e :
  wf_ks s -> Forall (fun p => p.1 <> S_zeros) l -> Forall (fun p => p.1 <> S_empty_hash) l ->
  wf_ks (mkSecrets (ss_digest s) r true e h sd false (assigned s l)).
Proof.
  intros (Hlen & Hz & He & Hs & _) Hl1 Hl2. unfold wf_ks. cbn [ss ss_digest ss_init_done ss_insecure].
  unfold assigned. rewrite !assigned_keep by done. split_and!; try done. intros i. by apply assigned_len.
Qed.

(** C8: A complete run of the key schedule computes the secrets of RFC 8446 section 7.1: each stage
    extracts from the previous one's "derived" secret and the new input, every secret is the
    HKDF-Expand-Label of its parent with its label and transcript hash, and the extracted and derived
    secrets of finished stages have been wiped. *)
Theorem key_schedule_rfc8446 digest resumption psk ecdhe c1 c2 c3 s0 s1 s2 s3 log0 log1 log2 log3 :
  bytes_secret c1 -> bytes_secret c2 -> bytes_secret c3 ->
  tls13_secrets_create digest resumption = Some s0 ->
  tls13_derive_early_secrets psk c1 (s0, log0) = (Some tt, (s1, log1)) ->
  tls13_derive_handshake_secrets ecdhe c2 (s1, log1) = (Some tt, (s2, log2)) ->
  tls13_derive_application_secrets c3 (s2, log2) = (Some tt, (s3, log3)) ->
  let n := EVP_MD_size digest in
  let derive k label ctx := expand_label digest k label ctx n in
  let has i v := exists b, v = Some b /\ ss s3 i = mkSecret (Some b) n in
  exists eh early de hs dh master,
    EVP_Digest digest [] = Some eh /\
    HKDF_extract digest psk (zeros n) = Some early /\ derive early "derived"%string eh = Some de /\
    HKDF_extract digest ecdhe de = Some hs /\ derive hs "derived"%string eh = Some dh /\
    HKDF_extract digest (zeros n) dh = Some master /\
    has S_binder_key (derive early (if resumption then "res binder" else "ext binder")%string eh) /\
    has S_client_early_traffic (derive early "c e traffic"%string (ts_bytes c1)) /\
    has S_early_exporter_master (derive early "e exp master"%string (ts_bytes c1)) /\
    has S_client_handshake_traffic (derive hs "c hs traffic"%string (ts_bytes c2)) /\
    has S_server_handshake_traffic (derive hs "s hs traffic"%string (ts_bytes c2)) /\
    has S_client_application_traffic (derive master "c ap traffic"%string (ts_bytes c3)) /\
    has S_server_application_traffic (derive master "s ap traffic"%string (ts_bytes c3)) /\
    has S_exporter_master (derive master "exp master"%string (ts_bytes c3)) /\
    has S_resumption_master (derive master "res master"%string (ts_bytes c3)) /\
    (forall i, i ∈ [S_extracted_early; S_derived_early; S_extracted_handshake; S_derived_handshake; S_extracted_master] ->
       ss s3 i = mkSecret (Some (zeros n)) n).
Proof.
  intros Hc1 Hc2 Hc3 Hcreate He Hh Ha n derive has.
  apply tls13_secrets_create_spec in Hcreate as (Hwf & <- & <- & _).
  destruct (wf_empty_hash s0 Hwf) as [_ Heh].
  apply (early_spec _ _ _ _ _ _ Hwf Hc1) in He as (_ & early & b & ce & ee & de & Hx1 & Hb & Hce & Hee & Hde & ->).
  match type of Hh with tls13_derive_handshake_secrets _ _ (?x, _) = _ => assert (Hwf1 : wf_ks x) end.
  { apply (wf_assigned _ _ _ _ _ _ Hwf); repeat constructor; discriminate. }
  apply (handshake_spec _ _ _ _ _ _ Hwf1 Hc2) in Hh as (_ & _ & hs & ch & sh & dh & Hx2 & Hch & Hsh & Hdh & ->).
  match type of Ha with tls13_derive_application_secrets _ (?x, _) = _ => assert (Hwf2 : wf_ks x) end.
  { apply (wf_assigned _ _ _ _ _ _ Hwf1); repeat constructor; discriminate. }
  apply (application_spec _ _ _ _ _ Hwf2 Hc3) in Ha as (_ & _ & _ & m & ca & sa & em & rm & Hx3 & Hca & Hsa & Hem & Hrm & ->).
  unfold assigned in *. cbn [foldl fst snd ss ss_digest ss_resumption] in *. upds.
  exists (ts_bytes (ss s0 S_empty_hash)), early, de, hs, dh, m. unfold derive, has. cbn [ss].
  split_and!; try done.
  all: try (eexists; split; [eassumption|]; by upds).
  intros i Hi. repeat (apply elem_of_cons in Hi as [->|Hi]; [by upds|]). by apply not_elem_of_nil in Hi.
Qed.

(** ** The order of the stages *)

Inductive ks_call :=
| DeriveEarly (psk : list Z) (context : tls13_secret)
| DeriveHandshake (ecdhe : list Z) (context : tls13_secret)
| DeriveApplication (context : tls13_secret)
| UpdateClient
| UpdateServer.

Definition ks_exec (call : ks_call) : M ks unit :=
  match call with
  | DeriveEarly psk c => tls13_derive_early_secrets psk c
  | DeriveHandshake e c => tls13_derive_handshake_secrets e c
  | DeriveApplication c => tls13_derive_application_secrets c
  | UpdateClient => tls13_update_client_traffic_secret
  | UpdateServer => tls13_update_server_traffic_secret
  end.

(** The states a connection can reach, by calls that succeed or fail. *)
Inductive ks_reachable (digest : EVP_MD) (resumption : bool) : ks -> Prop :=
| ks_created s log : tls13_secrets_create digest resumption = Some s -> ks_reachable digest resumption (s, log)
| ks_called st call : ks_reachable digest resumption st -> ks_reachable digest resumption (snd (ks_exec call st)).

Definition flags (st : ks) : bool * bool * bool * bool :=
  (ss_init_done st.1, ss_early_done st.1, ss_handshake_done st.1, ss_schedule_done st.1).

(** Stage [n]: the first [n] of the three derivations are done. *)
Definition at_stage (n : nat) (st : ks) : Prop :=
  flags st = (true, (1 <=? n)%nat, (2 <=? n)%nat, (3 <=? n)%nat) /\ (n <= 3)%nat.

(** The only stage in which a call can succeed, and the stage it leads to. *)
Definition stage_before (call : ks_call) : nat :=
  match call with DeriveEarly _ _ => 0 | DeriveHandshake _ _ => 1 | DeriveApplication _ => 2 | _ => 3 end.
Definition stage_after (call : ks_call) : nat :=
  match call with DeriveEarly _ _ => 1 | DeriveHandshake _ _ => 2 | _ => 3 end.

Definition keeps_flags {A} (m : M ks A) : Prop := forall st, flags (snd (m st)) = flags st.

Lemma keeps_bind {A B} (m : M ks A) (f : A -> M ks B) :
  keeps_flags m -> (forall a, keeps_flags (f a)) -> keeps_flags (m ≫= f).
Proof.
  intros Hm Hf st. rewrite bind_eq. specialize (Hm st). destruct (m st) as [[a|] st1]; [|done].
  cbn in Hm. by rewrite Hf.
Qed.
Lemma keeps_derive out from label c : keeps_flags (tls13_derive_secret out from label c).
Proof.
  intros [s log]. unfold tls13_derive_secret. by destruct (tls13_hkdf_expand_label _ _ _ _ _ _) as [[o|] log'].
Qed.
Lemma keeps_extract out ikm salt : keeps_flags (extract out ikm salt).
Proof. intros [s log]. unfold extract. by destruct (HKDF_extract _ _ _). Qed.
Lemma keeps_wipe i : keeps_flags (wipe i).
Proof. intros [s log]. unfold wipe. cbn. by destruct (ss_insecure s). Qed.
Lemma keeps_sec i : keeps_flags (sec i).
Proof. by intros []. Qed.
Lemma keeps_getS : keeps_flags getS.
Proof. done. Qed.

(** Work that keeps the flags, and then [fin]. *)
Definition finishes (fin : ks -> ks) (m : M ks unit) : Prop :=
  forall st, match m st with
  | (Some _, st') => exists st1, flags st1 = flags st /\ st' = fin st1
  | (None, st') => flags st' = flags st
  end.

Lemma finishes_mod fin : finishes fin (modS fin).
Proof. intros st. cbn. eauto. Qed.
Lemma finishes_keeps m : keeps_flags m -> finishes id m.
Proof. intros Hm st. specialize (Hm st). destruct (m st) as [[[]|] st']; cbn in *; eauto. Qed.
Lemma finishes_bind {A} fin (m : M ks A) f :
  keeps_flags m -> (forall a, finishes fin (f a)) -> finishes fin (m ≫= f).
Proof.
  intros Hm Hf st. rewrite bind_eq. specialize (Hm st). destruct (m st) as [[a|] st1]; [|done].
  cbn in Hm. specialize (Hf a st1). rewrite Hm in Hf. exact Hf.
Qed.

Ltac finishes := repeat first [apply finishes_mod | apply finishes_bind; [|intros ?] | apply keeps_derive
  | apply keeps_extract | apply keeps_wipe | apply keeps_sec | apply keeps_getS].

(** A guarded call that runs in stage [n] only, and then is in stage [n']. *)
Lemma guarded_stage g fin m call st n :
  finishes fin m -> at_stage n st ->
  (g st.1 = true <-> n = stage_before call) ->
  (forall st1, at_stage (stage_before call) st1 -> at_stage (stage_after call) (fin st1)) ->
  match (_ ← guard g; m) st with
  | (Some _, st') => n = stage_before call /\ at_stage (stage_after call) st'
  | (None, st') => at_stage n st'
  end.
Proof.
  intros Hm [Hf Hle] Hg Hfin. rewrite bind_eq. unfold guard. destruct (g st.1); [|done].
  specialize (Hm st). destruct (m st) as [[[]|] st'].
  - destruct Hm as (st1 & Hst1 & ->). assert (n = stage_before call) as -> by tauto. split; [done|].
    apply Hfin. split; [by rewrite Hst1|done].
  - split; [by rewrite Hm|done].
Qed.

Lemma at_stage_flags n st : at_stage n st ->
  ss_init_done st.1 = true /\ ss_early_done st.1 = (1 <=? n)%nat /\ ss_handshake_done st.1 = (2 <=? n)%nat /\
  ss_schedule_done st.1 = (3 <=? n)%nat /\ (n <= 3)%nat.
Proof. intros [Hf Hn]. by injection Hf. Qed.

Lemma ks_exec_stage call st n : at_stage n st ->
  match ks_exec call st with
  | (Some _, st') => n = stage_before call /\ at_stage (stage_after call) st'
  | (None, st') => at_stage n st'
  end.
Proof.
  intros Hst. pose proof (at_stage_flags _ _ Hst) as (Hi & He & Hh & Hs & Hn).
  assert (Hcase : (n = 0 \/ n = 1 \/ n = 2 \/ n = 3)%nat) by lia.
  destruct call; cbn [ks_exec];
    [unfold tls13_derive_early_secrets|unfold tls13_derive_handshake_secrets|unfold tls13_derive_application_secrets
    |unfold tls13_update_client_traffic_secret|unfold tls13_update_server_traffic_secret];
    (eapply guarded_stage; [first [apply finishes_keeps; apply keeps_derive | finishes]|exact Hst| |]);
    try (unfold all_done; rewrite ?Hi, ?He, ?Hh, ?Hs; destruct_or! Hcase; subst n; cbn; split; (done || lia)).
  all: intros [s1 log1] Hst1; apply at_stage_flags in Hst1 as (Hi1 & He1 & Hh1 & Hs1 & _); cbn in *.
  all: unfold at_stage, flags; cbn; (split; [by rewrite ?Hi1, ?He1, ?Hh1, ?Hs1|lia]).
Qed.

(** The key schedule is a state machine with four stages.  In every state that any sequence of
    calls can reach, the early, handshake and application secrets have been derived in that order, each
    at most once; a call succeeds only in its own stage (traffic secrets are updated only after the
    whole schedule), and a call that fails does not change the stage. *)
Theorem key_schedule_stages digest resumption st call :
  ks_reachable digest resumption st ->
  exists n, at_stage n st /\
  match ks_exec call st with
  | (Some _, st') => n = stage_before call /\ at_stage (stage_after call) st'
  | (None, st') => at_stage n st'
  end.
Proof.
  intros Hr. assert (Hn : exists n, at_stage n st).
  { clear call. induction Hr as [s log Hc|st call _ [n IH]].
    - apply tls13_secrets_create_spec in Hc as (Hwf & _ & _ & He & Hh & Hs). exists 0%nat.
      destruct Hwf as (_ & _ & _ & _ & Hi & _). unfold at_stage, flags. cbn. split; [by rewrite Hi, He, Hh, Hs|lia].
    - pose proof (ks_exec_stage call st n IH) as Hst1. destruct (ks_exec call st) as [[[]|] st']; cbn; [|by exists n].
      destruct Hst1 as [_ Hst1]. by eexists. }
  destruct Hn as [n Hn]. exists n. split; [done|]. by apply ks_exec_stage.
Qed.

(** Two derivations never share the HKDF info string: when the CBB calls of
    [tls13_hkdf_expand_label_with_length] build the same string, the output lengths, the labels and the
    contexts were the same. *)
Theorem hkdf_label_injective o1 l1 c1 s1 b1 n1 s1' o2 l2 c2 s2 b2 n2 s2' :
  0 <= o1 <= SIZE_MAX -> 0 <= o2 <= SIZE_MAX -> bytes_secret l1 -> bytes_secret l2 -> bytes_secret c1 -> bytes_secret c2 ->
  hkdf_label_build o1 (ts_bytes l1) (ts_bytes c1) s1 = (Some (b1, n1), s1') ->
  hkdf_label_build o2 (ts_bytes l2) (ts_bytes c2) s2 = (Some (b2, n2), s2') ->
  ztake n1 b1 = ztake n2 b2 -> o1 = o2 /\ ts_bytes l1 = ts_bytes l2 /\ ts_bytes c1 = ts_bytes c2.
Proof.
  intros Ho1 Ho2 [? ?] [? ?] [? ?] [? ?] E1 E2.
  apply hkdf_label_build_sound in E1 as (-> & Hb1 & Hl1 & Hc1); try done.
  apply hkdf_label_build_sound in E2 as (-> & Hb2 & Hl2 & Hc2); try done.
  generalize dependent (ts_bytes l1). generalize dependent (ts_bytes l2).
  generalize dependent (ts_bytes c1). generalize dependent (ts_bytes c2).
  intros x2 _ _ Hx2 x1 _ _ Hx1 y2 _ _ Hy2 y1 _ _ Hy1 HH. unfold hkdf_label in HH.
  apply app_inj_1 in HH as [Ho HH]; [|done].
  rewrite !be_bytes_1 in HH by (unfold is_byte; zl). injection HH as Hlen HH. cbn [app] in HH.
  apply app_inj_1 in HH as [-> HH]; [|unfold zlen in Hlen; lia]. injection HH as _ ->.
  split; [|done]. rewrite <- (be_val_inj 2 o1), <- (be_val_inj 2 o2), Ho by (simpl; lia). done.
Qed.
End Schedule.

(** ** A concrete hash to run the schedule with *)

Definition toy_mix (n : Z) (l : list Z) : list Z :=
  be_bytes (Z.to_nat n) (foldl (fun a b => Z.land (a * 31 + b) 0xffffffff) 7 l).
Definition toy_hkdf : Hkdf := {|
  EVP_MD := unit; EVP_MD_size := fun _ => 4; EVP_Digest := fun _ l => Some (toy_mix 4 l);
  HKDF_extract := fun _ ikm salt => Some (toy_mix 4 (salt ++ ikm));
  HKDF_expand := fun _ prk info n => if n <? 0 then None else Some (toy_mix n (prk ++ info)) |}.
Lemma toy_laws : @HkdfLaws toy_hkdf.
Proof.
  assert (Hl : forall l n, 0 <= n -> zlen (toy_mix n l) = n).
  { intros l n Hn. unfold toy_mix. rewrite zlen_be_bytes. lia. }
  split; cbn [toy_hkdf EVP_MD_size EVP_Digest HKDF_extract HKDF_expand].
  - lia.
  - intros _ l d Hd. injection Hd as <-. split; [by apply Hl|apply be_bytes_bytes].
  - intros _ l k d Hd. injection Hd as <-. by apply Hl.
  - intros _ k l n d. destruct (Z.ltb_spec n 0); [done|]. intros Hd. injection Hd as <-. by apply Hl.
Qed.

Definition toy_secrets : @tls13_secrets toy_hkdf :=
  match @tls13_secrets_create ample toy_hkdf tt false with
  | Some s => s
  | None => @mkSecrets toy_hkdf tt false false false false false false (fun _ => no_secret)
  end.
Definition toy_context (b : Z) : tls13_secret := mkSecret (Some [b; b; b; b]) 4.
Definition toy_early := @tls13_derive_early_secrets ample toy_hkdf [1] (toy_context 5) (toy_secrets, []).
Definition toy_handshake := @tls13_derive_handshake_secrets ample toy_hkdf [2; 3] (toy_context 6) toy_early.2.
Definition toy_application := @tls13_derive_application_secrets ample toy_hkdf (toy_context 7) toy_handshake.2.

Lemma returned {A B C} (r : option A * (B * C)) (a : A) : r.1 = Some a -> r = (Some a, (r.2.1, r.2.2)).
Proof. destruct r as [? []]. cbn. by intros ->. Qed.
Lemma toy_created : @tls13_secrets_create ample toy_hkdf tt false = Some toy_secrets.
Proof.
  assert (H : (if @tls13_secrets_create ample toy_hkdf tt false is Some _ then true else false) = true)
    by (vm_compute; reflexivity).
  unfold toy_secrets. by destruct (tls13_secrets_create _ _).
Qed.
Lemma key_schedule_rfc8446_witness :
  toy_application.1 = Some tt /\
  exists eh early de hs,
    EVP_Digest (Hkdf := toy_hkdf) tt [] = Some eh /\ HKDF_extract (Hkdf := toy_hkdf) tt [1] (zeros 4) = Some early /\
    @expand_label toy_hkdf tt early "derived" eh 4 = Some de /\ HKDF_extract (Hkdf := toy_hkdf) tt [2; 3] de = Some hs.
Proof.
  split; [vm_compute; reflexivity|].
  destruct (@key_schedule_rfc8446 ample toy_hkdf toy_laws tt false [1] [2; 3] (toy_context 5) (toy_context 6) (toy_context 7)
    toy_secrets toy_early.2.1 toy_handshake.2.1 toy_application.2.1 [] toy_early.2.2 toy_handshake.2.2 toy_application.2.2)
    as (eh & early & de & hs & dh & m & H1 & H2 & H3 & H4 & _).
  1-3: split; [by apply bytes_ok|by vm_compute].
  1: exact toy_created.
  1: exact (returned toy_early tt ltac:(vm_compute; reflexivity)).
  1: rewrite <- surjective_pairing; exact (returned toy_handshake tt ltac:(vm_compute; reflexivity)).
  1: rewrite <- surjective_pairing; exact (returned toy_application tt ltac:(vm_compute; reflexivity)).
  exists eh, early, de, hs. done.
Defined.

Lemma key_schedule_stages_witness :
  exists n, @at_stage toy_hkdf n toy_early.2 /\
  match @ks_exec ample toy_hkdf (@DeriveApplication (toy_context 7)) toy_early.2 with
  | (Some _, _) => n = 2%nat
  | (None, st') => @at_stage toy_hkdf n st'
  end.
Proof.
  destruct (@key_schedule_stages ample toy_hkdf tt false toy_early.2 (DeriveApplication (toy_context 7))) as (n & Hn & H).
  - apply (@ks_called ample toy_hkdf tt false (toy_secrets, []) (DeriveEarly [1] (toy_context 5))). constructor. exact toy_created.
  - exists n. split; [exact Hn|]. destruct (ks_exec _ _) as [[u|] st']; [exact (proj1 H)|exact H].
Defined.

Lemma hkdf_label_injective_witness :
  let iv := mkSecret (Some (str "iv")) 2 in let none := mkSecret (Some []) 0 in
  let r := @hkdf_label_build ample 12 (str "iv") [] empty_store in
  (if r.1 is Some _ then true else false) = true /\ (12 = 12 /\ ts_bytes iv = ts_bytes iv /\ ts_bytes none = ts_bytes none).
Proof.
  intros iv none r. split; [vm_compute; reflexivity|].
  destruct (@hkdf_label_build ample 12 (ts_bytes iv) (ts_bytes none) empty_store) as [[[b n]|] s'] eqn:E;
    [|vm_compute in E; discriminate E].
  refine (@hkdf_label_injective ample 12 iv none empty_store b n s' 12 iv none empty_store b n s' _ _ _ _ _ _ E E eq_refl); clear E;
    [by vm_compute|by vm_compute|..].
  all: split; [by apply bytes_ok|by vm_compute].
Defined.
