(* ===== verification/HandshakeMsg.v ===== *)
(** * TLSv1.3 handshake messages (ssl/tls13_handshake_msg.c)

    A message is built in a CBB of its own and sent, or received in pieces like a
    record.  The functions take the record layer's read and write functions for
    handshake data as callbacks; [Handshake] passes them. *)
From S2P Require Import Prelude Compat Cbs Cbb CbbSpec CbbBuild Tls13Buffer Tls13Record.

Definition TLS13_HANDSHAKE_MSG_HEADER_LEN : Z := 4.
Definition TLS13_HANDSHAKE_MSG_INITIAL_LEN : Z := 256.
Definition TLS13_HANDSHAKE_MSG_MAX_LEN : Z := 256 * 1024.

(** [hm_cbb] is the CBB at address 0 with the builders that belong to it. *)
Record tls13_handshake_msg := mkMsg {
  hm_msg_type : Z;
  hm_msg_len : Z;
  hm_data : option (list Z);
  hm_data_len : Z;
  hm_buf : tls13_buffer;
  hm_cbs : CBS;
  hm_cbb : store
}.

Definition sizeof_tls13_handshake_msg : Z := 104.

Definition hm_bytes (msg : tls13_handshake_msg) : list Z := match hm_data msg with Some d => d | None => [] end.
Definition set_hm_buf (msg : tls13_handshake_msg) (b : tls13_buffer) : tls13_handshake_msg :=
  mkMsg (hm_msg_type msg) (hm_msg_len msg) (hm_data msg) (hm_data_len msg) b (hm_cbs msg) (hm_cbb msg).
Definition set_hm_cbs (msg : tls13_handshake_msg) (c : CBS) : tls13_handshake_msg :=
  mkMsg (hm_msg_type msg) (hm_msg_len msg) (hm_data msg) (hm_data_len msg) (hm_buf msg) c (hm_cbb msg).
Definition set_hm_cbb (msg : tls13_handshake_msg) (s : store) : tls13_handshake_msg :=
  mkMsg (hm_msg_type msg) (hm_msg_len msg) (hm_data msg) (hm_data_len msg) (hm_buf msg) (hm_cbs msg) s.

Section Messages.
Context `{Allocator}.

Definition tls13_handshake_msg_new : option tls13_handshake_msg :=
  if malloc_ok sizeof_tls13_handshake_msg then
    buf ← tls13_buffer_new 0;
    Some (mkMsg 0 0 None 0 buf (CBS_init [] 0) (mkStore None ∅))
  else None.

Definition tls13_handshake_msg_data (msg : tls13_handshake_msg) : CBS := CBS_init (hm_bytes msg) (hm_data_len msg).

Definition tls13_handshake_msg_set_buffer (cbs : CBS) : M tls13_handshake_msg unit := fun msg =>
  let '(r, b) := tls13_buffer_set_data cbs (hm_buf msg) in (r, set_hm_buf msg b).

Definition tls13_handshake_msg_type (msg : tls13_handshake_msg) : Z := hm_msg_type msg.

(** The reader, whether or not the header could be skipped. *)
Definition tls13_handshake_msg_content (msg : tls13_handshake_msg) : option unit * CBS :=
  CBS_skip TLS13_HANDSHAKE_MSG_HEADER_LEN (tls13_handshake_msg_data msg).

(** The calls on [msg->cbb]; the body is the CBB at address 1. *)
Definition msg_start_build (msg_type : Z) : M store unit :=
  _ ← CBB_init 0%nat TLS13_HANDSHAKE_MSG_INITIAL_LEN;
  _ ← CBB_add_u8 0%nat msg_type;
  CBB_add_u24_length_prefixed 0%nat 1%nat.
Definition tls13_handshake_msg_start (msg_type : Z) : M tls13_handshake_msg unit := fun msg =>
  let '(r, s) := msg_start_build msg_type (hm_cbb msg) in (r, set_hm_cbb msg s).

(** [hm_data] is the [data_len] bytes of the message, without the spare bytes of the builder. *)
Definition tls13_handshake_msg_finish : M tls13_handshake_msg unit := fun msg =>
  match CBB_finish 0%nat true (hm_cbb msg) with
  | (None, s) => (None, set_hm_cbb msg s)
  | (Some (buf, len), s) =>
      let data := ztake len buf in
      (Some tt, mkMsg (hm_msg_type msg) (hm_msg_len msg) (Some data) len (hm_buf msg) (CBS_init data len) s)
  end.

(** The two fields of a message header. *)
Definition parse_msg_header : M CBS (Z * Z) :=
  msg_type ← CBS_get_u8; msg_len ← CBS_get_u24; mret (msg_type, msg_len).

Section Receive.
Context {W : Type} (read : read_cb W).

(** The second half of [tls13_handshake_msg_recv]. *)
Definition msg_recv_body : State (tls13_handshake_msg * W) Z := fun '(msg, w) =>
  let '(ret, (buf, w)) :=
    tls13_buffer_extend read (TLS13_HANDSHAKE_MSG_HEADER_LEN + hm_msg_len msg) (hm_buf msg, w) in
  if ret <=? 0 then (ret, (set_hm_buf msg buf, w))
  else
  let '((data, data_len), buf) := tls13_buffer_finish buf in
  (TLS13_IO_SUCCESS, (mkMsg (hm_msg_type msg) (hm_msg_len msg) data data_len buf (hm_cbs msg) (hm_cbb msg), w)).

Definition tls13_handshake_msg_recv : State (tls13_handshake_msg * W) Z := fun '(msg, w) =>
  match hm_data msg with
  | Some _ => (TLS13_IO_FAILURE, (msg, w))
  | None =>
      if hm_msg_type msg =? 0 then
        let '(ret, (buf, w)) := tls13_buffer_extend read TLS13_HANDSHAKE_MSG_HEADER_LEN (hm_buf msg, w) in
        let msg := set_hm_buf msg buf in
        if ret <=? 0 then (ret, (msg, w))
        else match parse_msg_header (tls13_buffer_cbs buf) with
        | (None, _) => (TLS13_IO_FAILURE, (msg, w))
        | (Some (msg_type, msg_len), _) =>
            if TLS13_HANDSHAKE_MSG_MAX_LEN <? msg_len then (TLS13_IO_FAILURE, (msg, w))
            else msg_recv_body (mkMsg msg_type msg_len (hm_data msg) (hm_data_len msg) buf (hm_cbs msg) (hm_cbb msg), w)
        end
      else msg_recv_body (msg, w)
  end.
End Receive.

Section Send.
Context {W : Type} (write : write_cb W).

(** The [while] loop; every pass that goes on skips a byte or more. *)
Fixpoint msg_send_loop (fuel : nat) : State (tls13_handshake_msg * W) Z := fun '(msg, w) =>
  match fuel with
  | O => (TLS13_IO_SUCCESS, (msg, w))
  | S fuel' =>
      if CBS_len (hm_cbs msg) =? 0 then (TLS13_IO_SUCCESS, (msg, w))
      else
      let '(ret, w) := write (ztake (CBS_len (hm_cbs msg)) (CBS_data (hm_cbs msg))) w in
      if ret <=? 0 then (ret, (msg, w))
      else match CBS_skip ret (hm_cbs msg) with
      | (None, c) => (TLS13_IO_FAILURE, (set_hm_cbs msg c, w))
      | (Some _, c) => msg_send_loop fuel' (set_hm_cbs msg c, w)
      end
  end.

Definition tls13_handshake_msg_send : State (tls13_handshake_msg * W) Z := fun '(msg, w) =>
  match hm_data msg with
  | None => (TLS13_IO_FAILURE, (msg, w))
  | Some _ =>
      if CBS_len (hm_cbs msg) =? 0 then (TLS13_IO_FAILURE, (msg, w))
      else msg_send_loop (Z.to_nat (CBS_len (hm_cbs msg))) (msg, w)
  end.
End Send.
End Messages.

(** ** What a message is *)

(** A message on the wire. *)
Definition msg_header (t n : Z) : list Z := be_bytes 1 t ++ be_bytes 3 n.
Definition msg_encode (t : Z) (body : list Z) : list Z := msg_header t (zlen body) ++ body.

Lemma zlen_msg_header t n : zlen (msg_header t n) = 4.
Proof. unfold msg_header. zl. Qed.

(** [msg_consts]: expose the numbers behind the length constants to [lia]. *)
Ltac msg_consts :=
  unfold TLS13_HANDSHAKE_MSG_HEADER_LEN, TLS13_HANDSHAKE_MSG_MAX_LEN, TLS13_HANDSHAKE_MSG_INITIAL_LEN in *.

Lemma parse_msg_header_spec i l :
  zlen l = 4 -> Forall is_byte l ->
  exists t n, parse_msg_header (rd i l) = (Some (t, n), rd i []) /\ l = msg_header t n /\ 0 <= t < 256 /\ 0 <= n < 2 ^ 24.
Proof.
  intros Hl Hb. destruct l as [|b0 l]; [done|]. rewrite zlen_cons in Hl. apply Forall_cons in Hb as [Hb0 Hb].
  exists b0, (be_val l). pose proof (be_val_bound l Hb) as Hv. assert (Hl3 : zlen l = 3) by lia. rewrite Hl3 in Hv.
  split; [|split; [|done]].
  - unfold parse_msg_header. mstep (apply CBS_get_u8_ok). unfold CBS_get_u24.
    rewrite <- (app_nil_r l) at 1. mstep (apply cbs_get_u_ok; (done || lia)). done.
  - unfold msg_header. rewrite be_bytes_1 by done. cbn [app]. f_equal.
    replace 3%nat with (length l) by (unfold zlen in Hl3; lia). by rewrite be_bytes_be_val.
Qed.

(** A message that is being received. *)
Definition msg_receiving (msg : tls13_handshake_msg) : Prop :=
  0 <= hm_msg_type msg < 256 /\ hm_data msg = None /\ wf_buffer (hm_buf msg) /\ Forall is_byte (tb_contents (hm_buf msg)) /\
  if hm_msg_type msg =? 0 then tb_len (hm_buf msg) <= TLS13_HANDSHAKE_MSG_HEADER_LEN
  else 0 <= hm_msg_len msg <= TLS13_HANDSHAKE_MSG_MAX_LEN /\
    tb_len (hm_buf msg) <= TLS13_HANDSHAKE_MSG_HEADER_LEN + hm_msg_len msg /\
    exists body, tb_contents (hm_buf msg) = msg_header (hm_msg_type msg) (hm_msg_len msg) ++ body.

(** A complete message. *)
Definition msg_received (msg : tls13_handshake_msg) (t : Z) (body : list Z) : Prop :=
  hm_data msg = Some (msg_encode t body) /\ hm_data_len msg = 4 + zlen body /\ hm_msg_type msg = t /\
  0 <= t < 256 /\ zlen body <= TLS13_HANDSHAKE_MSG_MAX_LEN.

Section ReceiveSpec.
Context `{Allocator} {W : Type} (read : read_cb W) `{!Stream read}.

(** All the bytes of the handshake stream from the start of the message. *)
Definition msg_stream (msg : tls13_handshake_msg) (w : W) : list Z := tb_contents (hm_buf msg) ++ incoming w.

Definition msg_recv_post (stream : list Z) (r : Z * (tls13_handshake_msg * W)) : Prop :=
  let '(ret, (msg', w')) := r in
  if 0 <? ret then exists t body, msg_received msg' t body /\ ret = TLS13_IO_SUCCESS /\ stream = msg_encode t body ++ incoming w'
  else msg_stream msg' w' = stream /\ (msg_receiving msg' \/ exists l, stream = 0 :: l).

Lemma msg_recv_body_spec msg w :
  hm_data msg = None -> wf_buffer (hm_buf msg) -> Forall is_byte (msg_stream msg w) ->
  0 <= hm_msg_len msg <= TLS13_HANDSHAKE_MSG_MAX_LEN -> tb_len (hm_buf msg) <= TLS13_HANDSHAKE_MSG_HEADER_LEN + hm_msg_len msg ->
  0 <= hm_msg_type msg < 256 ->
  (exists body, tb_contents (hm_buf msg) = msg_header (hm_msg_type msg) (hm_msg_len msg) ++ body) ->
  msg_recv_post (msg_stream msg w) (msg_recv_body read (msg, w)).
Proof.
  intros Hd Hwf Hb Hn Hlen Ht (body & Hhdr). unfold msg_recv_body, msg_stream in *. msg_consts.
  pose proof (tls13_buffer_extend_spec read (4 + hm_msg_len msg) (hm_buf msg) w Hwf ltac:(unfold SIZE_MAX; lia) ltac:(lia)) as Hx.
  destruct (tls13_buffer_extend read _ _) as [ret [buf w1]].
  destruct Hx as (Hwf1 & (d & Hin & Hc) & Hl1 & Hret). pose proof (zlen_tb_contents _ Hwf1) as Hz.
  destruct (Z.leb_spec ret 0) as [Hle|Hgt].
  - unfold msg_recv_post. rewrite (proj2 (Z.ltb_ge 0 ret)) by lia. unfold msg_stream. cbn [set_hm_buf hm_buf].
    split; [rewrite Hin, Hc; by rewrite app_assoc|].
    destruct (decide (hm_msg_type msg = 0)) as [E|E]; [right; rewrite Hhdr, E; cbn; eauto|].
    left. unfold msg_receiving. msg_consts. cbn [set_hm_buf hm_data hm_buf hm_msg_type hm_msg_len].
    rewrite (proj2 (Z.eqb_neq _ _)) by done. split_and!; try done; try lia.
    + rewrite Hc. rewrite Hin, app_assoc, Forall_app in Hb. by destruct Hb.
    + exists (body ++ d). by rewrite Hc, Hhdr, app_assoc.
  - destruct (Hret Hgt) as [-> Hfull]. unfold tls13_buffer_finish. cbn [msg_recv_post]. rewrite Hfull.
    change (0 <? TLS13_IO_SUCCESS) with true. cbv iota.
    assert (Hdata : ztake (4 + hm_msg_len msg) <$> tb_data buf = Some (tb_contents buf)).
    { destruct Hwf1 as (Hcap & Hnull & Hb1 & _). unfold tb_contents, tb_bytes in *. rewrite Hfull.
      destruct (tb_data buf) as [dd|]; [done|]. rewrite Hnull in * by done. lia. }
    rewrite Hfull, Hc, Hhdr, <- app_assoc, zlen_app, zlen_msg_header in Hz. assert (Hbl : zlen (body ++ d) = hm_msg_len msg) by lia.
    exists (hm_msg_type msg), (body ++ d). unfold msg_received, msg_encode. cbn [hm_data hm_data_len hm_msg_type].
    rewrite Hdata, Hc, Hhdr, Hbl, <- app_assoc. msg_consts. split_and!; try done; try lia.
    rewrite Hin. by rewrite <- !app_assoc.
Qed.

Lemma tls13_handshake_msg_recv_spec msg w :
  msg_receiving msg -> Forall is_byte (incoming w) -> msg_recv_post (msg_stream msg w) (tls13_handshake_msg_recv read (msg, w)).
Proof.
  intros (Ht & Hd & Hwf & Hb & Hhdr) Hbi.
  assert (Hbs : Forall is_byte (msg_stream msg w)) by (apply Forall_app; done).
  unfold tls13_handshake_msg_recv. rewrite Hd. destruct (Z.eqb_spec (hm_msg_type msg) 0) as [E0|E0].
  2: { destruct Hhdr as (? & ? & ?). by apply msg_recv_body_spec. }
  pose proof (tls13_buffer_extend_spec read TLS13_HANDSHAKE_MSG_HEADER_LEN (hm_buf msg) w Hwf
    ltac:(unfold SIZE_MAX, TLS13_HANDSHAKE_MSG_HEADER_LEN; lia) Hhdr) as Hx.
  destruct (tls13_buffer_extend read _ _) as [ret [buf w1]].
  destruct Hx as (Hwf1 & (d & Hin & Hc) & Hl1 & Hret).
  assert (Hst : msg_stream (set_hm_buf msg buf) w1 = msg_stream msg w).
  { unfold msg_stream. cbn. rewrite Hc, Hin. by rewrite app_assoc. }
  assert (Hb1 : Forall is_byte (tb_contents buf)).
  { rewrite <- Hst in Hbs. unfold msg_stream in Hbs. apply Forall_app in Hbs as [? _]. done. }
  assert (Hrec1 : msg_receiving (set_hm_buf msg buf)).
  { unfold msg_receiving. cbn [set_hm_buf hm_data hm_buf hm_msg_type]. rewrite E0. by split_and!. }
  destruct (Z.leb_spec ret 0) as [Hle|Hgt].
  { cbn. rewrite (proj2 (Z.ltb_ge _ _)) by lia. auto. }
  destruct (Hret Hgt) as [-> Hfull]. pose proof (zlen_tb_contents _ Hwf1) as Hz. rewrite Hfull in Hz.
  assert (Hcbs : tls13_buffer_cbs buf = rd 4 (tb_contents buf)).
  { unfold tls13_buffer_cbs, CBS_init, rd. fold (tb_contents buf). by rewrite Hz, Hfull. }
  destruct (parse_msg_header_spec 4 (tb_contents buf) Hz Hb1) as (t & n & Hp & Hh & Ht' & Hn').
  rewrite Hcbs, Hp. destruct (Z.ltb_spec TLS13_HANDSHAKE_MSG_MAX_LEN n) as [Hbig|Hsmall]; [cbn; auto|].
  rewrite <- Hst. set (msg1 := mkMsg t n _ _ buf _ _).
  change (msg_stream (set_hm_buf msg buf) w1) with (msg_stream msg1 w1).
  apply msg_recv_body_spec; try done; unfold msg1; cbn [hm_data hm_buf hm_msg_type hm_msg_len]; try done; try (msg_consts; lia).
  - by rewrite <- Hst in Hbs.
  - exists []. by rewrite app_nil_r.
Qed.

(** Calls of [tls13_handshake_msg_recv] that did not complete the message. *)
Definition msg_recv_step (p q : tls13_handshake_msg * W) : Prop :=
  exists ret, tls13_handshake_msg_recv read p = (ret, q) /\ ret <= 0.

Lemma msg_recv_steps_spec msg w msg' w' stream :
  rtc msg_recv_step (msg, w) (msg', w') -> msg_receiving msg -> msg_stream msg w = stream -> Forall is_byte stream ->
  (forall l, stream <> 0 :: l) -> msg_receiving msg' /\ msg_stream msg' w' = stream.
Proof.
  intros Hs. remember (msg, w) as p eqn:Ep. remember (msg', w') as q eqn:Eq. revert msg w Ep.
  induction Hs as [p|p q r (ret & Hstep & Hle) _ IH]; intros msg w -> Hrec Hst Hb Hz.
  - by injection Eq as -> ->.
  - destruct q as [msg1 w1]. assert (Hbw : Forall is_byte (incoming w)).
    { rewrite <- Hst in Hb. apply Forall_app in Hb. tauto. }
    pose proof (tls13_handshake_msg_recv_spec msg w Hrec Hbw) as Hp. rewrite Hst, Hstep in Hp. cbn in Hp.
    rewrite (proj2 (Z.ltb_ge _ _)) in Hp by lia. destruct Hp as [Hst1 [Hrec1|[l Hl]]]; [by apply (IH Eq msg1 w1)|by apply Hz in Hl].
Qed.
Lemma tls13_handshake_msg_new_receiving msg :
  tls13_handshake_msg_new = Some msg -> msg_receiving msg /\ tb_contents (hm_buf msg) = [].
Proof.
  unfold tls13_handshake_msg_new, tls13_buffer_new. destruct (malloc_ok _); [|done]. destruct (malloc_ok _); [|done].
  pose proof (resize_spec 0 (mkTBuf 0 None 0 0)) as Hr.
  destruct (tls13_buffer_resize _ _) as [[[]|] b]; [|done]. cbn. intros Hm. apply (inj Some) in Hm as <-.
  destruct Hr as (Hwf & Hcap & Hlen & Hc & _); [done|done|]. unfold msg_receiving. cbn in *. rewrite Hc, Hlen. by split_and!.
Qed.
End ReceiveSpec.

(** ** Building and sending *)

Section SendSpec.
Context `{Allocator}.

(** A message whose body is built by the CBB calls for [m]. *)
Definition msg_build (t : Z) (m : msg) : M tls13_handshake_msg unit :=
  _ ← tls13_handshake_msg_start t;
  _ ← (fun hm => let '(r, s) := cbb_build 1%nat m (hm_cbb hm) in (r, set_hm_cbb hm s));
  tls13_handshake_msg_finish.

Lemma set_hm_cbb_twice hm s s' : set_hm_cbb (set_hm_cbb hm s) s' = set_hm_cbb hm s'.
Proof. done. Qed.

(** It is the CBB calls for the whole message. *)
Lemma msg_build_marshal t m hm :
  msg_build t m hm =
    match cbb_marshal TLS13_HANDSHAKE_MSG_INITIAL_LEN (UInt 1 t (Prefixed 3 m Done)) (hm_cbb hm) with
    | (None, s) => (None, set_hm_cbb hm s)
    | (Some (buf, len), s) =>
        (Some tt, mkMsg (hm_msg_type hm) (hm_msg_len hm) (Some (ztake len buf)) len (hm_buf hm) (CBS_init (ztake len buf) len) s)
    end.
Proof.
  unfold msg_build, cbb_marshal, tls13_handshake_msg_start, msg_start_build, tls13_handshake_msg_finish.
  cbn [cbb_build add_uint add_prefixed]. rewrite !bind_eq.
  destruct (CBB_init _ _ (hm_cbb hm)) as [[[]|] s1]; [|done]. rewrite !bind_eq.
  destruct (CBB_add_u8 _ _ s1) as [[[]|] s2]; [|done]. rewrite !bind_eq.
  destruct (CBB_add_u24_length_prefixed _ _ s2) as [[[]|] s3]; [|done]. rewrite !bind_eq. cbn [set_hm_cbb hm_cbb].
  destruct (cbb_build 1%nat m s3) as [[[]|] s4]; [|done]. rewrite ?bind_eq. cbn [set_hm_cbb hm_cbb].
  unfold mret, M_ret. by destruct (CBB_finish _ _ s4) as [[[buf len]|] s5].
Qed.

Lemma encode_message t m body :
  0 <= t < 256 -> encode m = Some body -> zlen body < 2 ^ 24 ->
  encode (UInt 1 t (Prefixed 3 m Done)) = Some (msg_encode t body).
Proof.
  intros Ht Hm Hl. cbn [encode]. rewrite Hm. cbn [mbind option_bind enc_prefix].
  change (256 ^ Z.of_nat 1) with 256. change (256 ^ Z.of_nat 3) with (2 ^ 24). decide_cmp. cbn [mbind option_bind].
  unfold msg_encode, msg_header. by rewrite app_nil_r, <- app_assoc.
Qed.

Lemma msg_build_spec t m body hm hm' :
  0 <= t < 256 -> wf_msg m -> encode m = Some body -> zlen body < 2 ^ 24 -> msg_build t m hm = (Some tt, hm') ->
  hm_data hm' = Some (msg_encode t body) /\ hm_data_len hm' = zlen (msg_encode t body) /\
  hm_cbs hm' = CBS_init (msg_encode t body) (zlen (msg_encode t body)).
Proof.
  intros Ht Hm He Hl. rewrite msg_build_marshal.
  pose proof (cbb_marshal_spec TLS13_HANDSHAKE_MSG_INITIAL_LEN (UInt 1 t (Prefixed 3 m Done)) (hm_cbb hm)
    ltac:(cbn [wf_msg]; unfold SIZE_MAX; split_and!; (done || lia)) ltac:(msg_consts; unfold SIZE_MAX; lia)) as Hs.
  destruct (cbb_marshal _ _ _) as [[[buf len]|] s']; [|done]. intros Heq. injection Heq as <-. cbn [hm_data hm_data_len hm_cbs].
  destruct Hs as (Hs & Hlen & _). cbn [fst snd] in *. rewrite (encode_message t m body) in Hs by done. apply (inj Some) in Hs.
  rewrite <- Hs. assert (zlen (msg_encode t body) = len) as ->; [|done]. rewrite Hs, zlen_ztake by lia. lia.
Qed.

Context {W : Type} (write : write_cb W) `{!Sink write}.

(** The unsent bytes of a message move to the record layer in order. *)
Definition msg_send_post (hm : tls13_handshake_msg) (w : W) (i : Z) (l : list Z) (r : Z * (tls13_handshake_msg * W)) : Prop :=
  let '(ret, (hm', w')) := r in
  exists a l', l = a ++ l' /\ sent w' = sent w ++ a /\ hm' = set_hm_cbs hm (rd i l') /\
    (if 0 <? ret then l' = [] /\ ret = TLS13_IO_SUCCESS else l' <> []).

Lemma msg_send_loop_spec fuel hm w i l :
  hm_cbs hm = rd i l -> zlen l <= Z.of_nat fuel -> msg_send_post hm w i l (msg_send_loop write fuel (hm, w)).
Proof.
  assert (Hsame : forall hm c, hm_cbs hm = c -> hm = set_hm_cbs hm c) by (intros [] c <-; done).
  revert hm w l. induction fuel as [|fuel IH]; intros hm w l Hc Hf.
  - assert (l = []) as -> by (apply zlen_0_nil; zl). exists [], []. split_and!; try done; [by rewrite app_nil_r|by apply Hsame].
  - cbn [msg_send_loop]. rewrite Hc. change (CBS_len (rd i l)) with (zlen l). change (CBS_data (rd i l)) with l.
    rewrite ztake_ge by lia. destruct (Z.eqb_spec (zlen l) 0) as [Hz|Hnz].
    { apply zlen_0_nil in Hz as ->. exists [], []. split_and!; try done; [by rewrite app_nil_r|by apply Hsame]. }
    destruct (write l w) as [ret w1] eqn:Hw. apply sink_write in Hw as [Hpos Hneg]; [|zl].
    destruct (Z.leb_spec ret 0) as [Hle|Hgt].
    { exists [], l. split_and!; try done; [by rewrite Hneg, app_nil_r|by apply Hsame|].
      rewrite (proj2 (Z.ltb_ge _ _)) by lia. intros ->. by rewrite zlen_nil in Hnz. }
    destruct (Hpos Hgt) as [Hr Hsent]. destruct (zsplit ret l) as (a & b & -> & Ha & Htk & _); [lia|].
    rewrite (CBS_skip_ok i a b ret) by lia.
    specialize (IH (set_hm_cbs hm (rd i b)) w1 b eq_refl ltac:(zl)).
    destruct (msg_send_loop write fuel _) as [ret2 [hm2 w2]].
    destruct IH as (c & l' & -> & Hs2 & -> & Hend). exists (a ++ c), l'.
    rewrite Hs2, Hsent, Htk, <- !app_assoc. split_and!; try done.
Qed.
Lemma tls13_handshake_msg_send_spec hm w i l :
  is_Some (hm_data hm) -> hm_cbs hm = rd i l -> l <> [] -> msg_send_post hm w i l (tls13_handshake_msg_send write (hm, w)).
Proof.
  intros [d Hd] Hc Hl. unfold tls13_handshake_msg_send. rewrite Hd, Hc. change (CBS_len (rd i l)) with (zlen l).
  rewrite (proj2 (Z.eqb_neq _ _)) by (intros Hz; by apply zlen_0_nil in Hz).
  apply msg_send_loop_spec; [done|]. zl_pose. lia.
Qed.
End SendSpec.

Lemma msg_header_inj t n t' n' :
  0 <= t < 256 -> 0 <= t' < 256 -> 0 <= n < 2 ^ 24 -> 0 <= n' < 2 ^ 24 -> msg_header t n = msg_header t' n' -> t = t' /\ n = n'.
Proof.
  intros Ht Ht' Hn Hn' Hh. unfold msg_header in Hh. apply app_inj_1 in Hh as [Hf Hb]; [|done].
  apply (f_equal be_val) in Hf, Hb. rewrite !be_val_inj in Hf by (change (256 ^ Z.of_nat 1) with 256; lia).
  rewrite !be_val_inj in Hb by (change (256 ^ Z.of_nat 3) with (2 ^ 24); lia). done.
Qed.
(** The first message of a stream is determined by the stream. *)
Lemma msg_encode_unique t b r t' b' r' :
  0 <= t < 256 -> 0 <= t' < 256 -> zlen b < 2 ^ 24 -> zlen b' < 2 ^ 24 ->
  msg_encode t b ++ r = msg_encode t' b' ++ r' -> t = t' /\ b = b' /\ r = r'.
Proof.
  intros Ht Ht' Hb Hb' Hs. unfold msg_encode in Hs. rewrite <- !app_assoc in Hs. apply app_inj_1 in Hs as [Hh Hs].
  - apply msg_header_inj in Hh as [-> Hl]; [|zl..]. apply app_inj_1 in Hs as [-> ->]; [done|]. unfold zlen in Hl. lia.
  - pose proof (zlen_msg_header t (zlen b)). pose proof (zlen_msg_header t' (zlen b')). unfold zlen in *. lia.
Qed.

(** ** Theorems *)

(** C15: A handshake message survives the journey: a message built with [tls13_handshake_msg_start], any
    CBB calls on its body and [tls13_handshake_msg_finish], whose bytes are the next ones of the peer's
    handshake stream, is received by [tls13_handshake_msg_recv], in however many interrupted calls, with
    the same type and the encoded body as its content, and nothing more is taken from the stream. *)
Theorem handshake_msg_roundtrip `{Allocator} {W} (read : read_cb W) `{!Stream read} t m body rest hm0 hm
    msg0 w0 msg1 w1 ret msg2 w2 :
  0 < t < 256 -> wf_msg m -> encode m = Some body -> zlen body <= TLS13_HANDSHAKE_MSG_MAX_LEN ->
  msg_build t m hm0 = (Some tt, hm) ->
  tls13_handshake_msg_new = Some msg0 -> incoming w0 = hm_bytes hm ++ rest -> Forall is_byte (incoming w0) ->
  rtc (msg_recv_step read) (msg0, w0) (msg1, w1) ->
  tls13_handshake_msg_recv read (msg1, w1) = (ret, (msg2, w2)) -> 0 < ret ->
  tls13_handshake_msg_type msg2 = t /\
  tls13_handshake_msg_content msg2 = (Some tt, rd (4 + zlen body) body) /\ incoming w2 = rest.
Proof.
  intros Ht Hm He Hl Hbuild Hnew Hin Hb Hs Hr Hpos. msg_consts.
  destruct (msg_build_spec t m body hm0 hm ltac:(lia) Hm He ltac:(lia) Hbuild) as (Hd & _).
  unfold hm_bytes in Hin. rewrite Hd in Hin.
  apply tls13_handshake_msg_new_receiving in Hnew as [Hrec Hc].
  assert (Hst : msg_stream read msg0 w0 = incoming w0) by (unfold msg_stream; by rewrite Hc).
  assert (Hnz : forall l, incoming w0 <> 0 :: l).
  { intros l. rewrite Hin. unfold msg_encode, msg_header. rewrite be_bytes_1 by (unfold is_byte; lia). cbn. intros Hx. injection Hx. lia. }
  destruct (msg_recv_steps_spec read _ _ _ _ _ Hs Hrec Hst Hb Hnz) as [Hrec1 Hst1].
  assert (Hb1 : Forall is_byte (incoming w1)).
  { rewrite <- Hst1 in Hb. apply Forall_app in Hb. tauto. }
  pose proof (tls13_handshake_msg_recv_spec read msg1 w1 Hrec1 Hb1) as Hp. rewrite Hst1, Hr in Hp. cbn in Hp.
  rewrite (proj2 (Z.ltb_lt _ _)) in Hp by done. destruct Hp as (t' & body' & (Hd2 & Hdl & Hty & Htb & Hbl) & _ & Hst2).
  msg_consts. rewrite Hin in Hst2. apply msg_encode_unique in Hst2 as (<- & <- & <-); [|lia..].
  split_and!; [exact Hty| |done]. unfold tls13_handshake_msg_content, tls13_handshake_msg_data, hm_bytes. rewrite Hd2, Hdl.
  replace (CBS_init _ _) with (rd (4 + zlen body) (msg_encode t body)).
  - unfold msg_encode. apply CBS_skip_ok. by rewrite zlen_msg_header.
  - unfold rd, CBS_init, msg_encode. by rewrite zlen_app, zlen_msg_header.
Qed.

(** Sending a handshake message is resumable: whatever part of it each call of
    [tls13_handshake_msg_send] could hand over, the calls together hand over the bytes of the message
    once and in order, and the last one returns success exactly when all of them have been taken. *)
Theorem handshake_msg_send_resumable `{Allocator} {W} (write : write_cb W) `{!Sink write} t m body hm0 hm w0 hm1 w1 ret hm2 w2 :
  0 <= t < 256 -> wf_msg m -> encode m = Some body -> zlen body < 2 ^ 24 -> msg_build t m hm0 = (Some tt, hm) ->
  rtc (fun p q => exists r, tls13_handshake_msg_send write p = (r, q) /\ r <= 0) (hm, w0) (hm1, w1) ->
  tls13_handshake_msg_send write (hm1, w1) = (ret, (hm2, w2)) ->
  exists rest, sent w0 ++ msg_encode t body = sent w2 ++ rest /\ (rest = [] <-> 0 < ret) /\ (0 < ret -> ret = TLS13_IO_SUCCESS).
Proof.
  intros Ht Hm He Hl Hb Hs Hr. destruct (msg_build_spec t m body hm0 hm Ht Hm He Hl Hb) as (Hd & _ & Hc).
  set (d := msg_encode t body) in *. assert (Hdl : d <> []).
  { intros E. pose proof (zlen_msg_header t (zlen body)) as Hz. apply (f_equal zlen) in E. unfold d, msg_encode in E. zl. }
  assert (Hinv : is_Some (hm_data hm1) /\ exists i l, hm_cbs hm1 = rd i l /\ l <> [] /\ sent w0 ++ d = sent w1 ++ l).
  { assert (Hinv0 : is_Some (hm_data hm) /\ exists i l, hm_cbs hm = rd i l /\ l <> [] /\ sent w0 ++ d = sent w0 ++ l) by eauto 8.
    clear Hb Hd Hc Hr. revert Hinv0. generalize (sent w0 ++ d) as all.
    remember (hm, w0) as p eqn:Ep. remember (hm1, w1) as q eqn:Eq. revert hm w0 Ep.
    induction Hs as [p|p [hm' w'] r (rr & Hstep & Hle) _ IH]; intros hm w0 -> all; [by injection Eq as -> ->|].
    intros (Hdat & i & l & Hcl & Hnl & Hall). apply (IH Eq hm' w' eq_refl).
    pose proof (tls13_handshake_msg_send_spec write hm w0 i l Hdat Hcl Hnl) as Hp. rewrite Hstep in Hp.
    destruct Hp as (a & l' & -> & Hsent & -> & Hend). rewrite (proj2 (Z.ltb_ge _ _)) in Hend by lia.
    split; [done|]. exists i, l'. by rewrite Hall, Hsent, <- app_assoc. }
  destruct Hinv as (Hdat & i & l & Hcl & Hnl & Hall).
  pose proof (tls13_handshake_msg_send_spec write hm1 w1 i l Hdat Hcl Hnl) as Hp. rewrite Hr in Hp.
  destruct Hp as (a & l' & -> & Hsent & _ & Hend). exists l'. rewrite Hall, Hsent, <- app_assoc. split; [done|].
  destruct (Z.ltb_spec 0 ret); [|split; [split; [done|lia]|lia]]. destruct Hend as [-> ->]. done.
Qed.

(** *** Concrete instances *)

#[local] Existing Instance ample.

Definition toy_new : tls13_handshake_msg :=
  match tls13_handshake_msg_new with Some m => m | None => mkMsg 0 0 None 0 (mkTBuf 0 None 0 0) (CBS_init [] 0) empty_store end.
Definition toy_body : msg := Prefixed 1 (UInt 2 0x1301 Done) (Bytes [0xaa; 0xbb] Done).
Definition toy_body_bytes : list Z := [2; 0x13; 0x01; 0xaa; 0xbb].
Definition toy_built : tls13_handshake_msg := snd (msg_build 1 toy_body toy_new).
Lemma toy_build : msg_build 1 toy_body toy_new = (Some tt, toy_built).
Proof.
  unfold toy_built. assert (Hs : fst (msg_build 1 toy_body toy_new) = Some tt) by (vm_compute; reflexivity). revert Hs.
  generalize (msg_build 1 toy_body toy_new) as r. intros [o s] Hs. cbn [fst snd] in *. by rewrite Hs.
Qed.
Lemma toy_body_wf : wf_msg toy_body.
Proof. unfold toy_body. cbn [wf_msg]. unfold SIZE_MAX. split_and!; try lia; try done. by apply bytes_ok. Qed.

Lemma handshake_msg_roundtrip_witness :
  let wire : portions := [Some [1; 0]; None; Some [0; 5; 2; 0x13]; Some [1; 0xaa; 0xbb; 20; 0]] in
  let p1 := snd (tls13_handshake_msg_recv portions_read (toy_new, wire)) in
  let r := tls13_handshake_msg_recv portions_read p1 in
  tls13_handshake_msg_type r.2.1 = 1 /\ tls13_handshake_msg_content r.2.1 = (Some tt, rd 9 toy_body_bytes) /\
  portions_bytes r.2.2 = [20; 0].
Proof.
  intros wire p1 r.
  refine (handshake_msg_roundtrip portions_read 1 toy_body toy_body_bytes [20; 0] toy_new toy_built toy_new wire
    p1.1 p1.2 1 r.2.1 r.2.2 ltac:(lia) toy_body_wf eq_refl ltac:(by vm_compute) toy_build _ _ _ _ _ _).
  - vm_compute. reflexivity.
  - vm_compute. reflexivity.
  - by apply bytes_ok.
  - apply (rtc_l _ _ p1); [exists TLS13_IO_WANT_POLLIN; split; [vm_compute; reflexivity|discriminate]|]. destruct p1. constructor.
  - vm_compute. reflexivity.
  - lia.
Defined.

(** A sink that takes at most the next number of bytes; [None] is a moment when it takes none. *)
Definition throttle : Type := list (option Z) * list Z.
Definition throttle_write : write_cb throttle := fun bs '(plan, out) =>
  match plan with
  | Some n :: plan => if 0 <? Z.min n (zlen bs) then (Z.min n (zlen bs), (plan, out ++ ztake (Z.min n (zlen bs)) bs)) else (TLS13_IO_WANT_POLLOUT, (plan, out))
  | None :: plan => (TLS13_IO_WANT_POLLOUT, (plan, out))
  | [] => (TLS13_IO_WANT_POLLOUT, ([], out))
  end.
#[local] Program Instance throttle_sink : Sink throttle_write := {| sent := snd |}.
Next Obligation.
  intros bs [[|[n|] plan] out] ret w' Hl; cbn [throttle_write].
  - intros [= <- <-]. done.
  - destruct (Z.ltb_spec 0 (Z.min n (zlen bs))); intros [= <- <-]; cbn [snd]; split; try done;
      [intros _; split; [lia|done]|intros; exfalso; lia].
  - intros [= <- <-]. done.
Qed.

Lemma handshake_msg_send_resumable_witness :
  let w0 : throttle := ([Some 3; None; Some 2; Some 100], [7]) in
  let p1 := snd (tls13_handshake_msg_send throttle_write (toy_built, w0)) in
  let r := tls13_handshake_msg_send throttle_write p1 in
  r.1 = TLS13_IO_SUCCESS /\ exists rest, [7] ++ msg_encode 1 toy_body_bytes = r.2.2.2 ++ rest /\ (rest = [] <-> 0 < r.1).
Proof.
  intros w0 p1 r. assert (Hr : r.1 = TLS13_IO_SUCCESS) by (vm_compute; reflexivity). split; [exact Hr|].
  destruct (handshake_msg_send_resumable throttle_write 1 toy_body toy_body_bytes toy_new toy_built w0 p1.1 p1.2 r.1 r.2.1 r.2.2
    ltac:(lia) toy_body_wf eq_refl ltac:(by vm_compute) toy_build) as (rest & H1 & H2 & _).
  - apply (rtc_l _ _ p1); [exists TLS13_IO_WANT_POLLOUT; split; [vm_compute; reflexivity|discriminate]|]. destruct p1. constructor.
  - vm_compute. reflexivity.
  - exists rest. split; [exact H1|exact H2].
Defined.
