(* ===== verification/RecordLayer.v ===== *)
(** * The TLSv1.3 record layer (ssl/tls13_record_layer.c)

    Between the wire and the handshake or the application: records are sealed
    and opened (in plaintext, or with an AEAD and per-record nonces), alerts and
    post-handshake messages are queued, and reads and writes are resumed.  A
    function that returns an [ssize_t] is a state transformer on the record layer
    and the world [W] behind its callbacks; a [do ... while (ret == WANT_RETRY)]
    loop takes fuel and returns [TLS13_IO_WANT_RETRY] when it is used up. *)
From Stdlib Require Import String.
From S2P Require Import Prelude Compat Cbs Cbb CbbSpec CbbBuild Tls13Buffer Tls13Record KeySchedule.

(** Record types and versions (ssl3.h, tls1.h), alerts (tls13_internal.h). *)
Definition SSL3_RT_CHANGE_CIPHER_SPEC : Z := 20.
Definition SSL3_RT_ALERT : Z := 21.
Definition SSL3_RT_HANDSHAKE : Z := 22.
Definition SSL3_RT_APPLICATION_DATA : Z := 23.
Definition TLS1_2_VERSION : Z := 0x0303.

Definition TLS13_ALERT_LEVEL_WARNING : Z := 1.
Definition TLS13_ALERT_LEVEL_FATAL : Z := 2.
Definition TLS13_ALERT_CLOSE_NOTIFY : Z := 0.
Definition TLS13_ALERT_UNEXPECTED_MESSAGE : Z := 10.
Definition TLS13_ALERT_RECORD_OVERFLOW : Z := 22.
Definition TLS13_ALERT_ILLEGAL_PARAMETER : Z := 47.
Definition TLS13_ALERT_DECODE_ERROR : Z := 50.
Definition TLS13_ALERT_PROTOCOL_VERSION : Z := 70.
Definition TLS13_ALERT_USER_CANCELED : Z := 90.

(** What the record layer uses of the AEADs of libcrypto; the [Z] arguments of [seal] and
    [open] are the size of the output buffer. *)
Class Aead := {
  EVP_AEAD : Type;
  EVP_AEAD_nonce_length : EVP_AEAD -> Z;
  EVP_AEAD_key_length : EVP_AEAD -> Z;
  EVP_AEAD_max_tag_len : EVP_AEAD -> Z;
  EVP_AEAD_CTX : Type;
  EVP_AEAD_CTX_init : EVP_AEAD -> list Z -> option EVP_AEAD_CTX;
  EVP_AEAD_CTX_seal : EVP_AEAD_CTX -> Z -> list Z -> list Z -> list Z -> option (list Z); (* nonce, in, ad *)
  EVP_AEAD_CTX_open : EVP_AEAD_CTX -> Z -> list Z -> list Z -> list Z -> option (list Z)
}.

(** [r <| field := v |>]: a record with one field replaced. *)
Class Setter {R T : Type} (field : R -> T) := set_field : (T -> T) -> R -> R.
Arguments set_field {R T} field {Setter} f r.
Notation "r '<|' f ':=' v '|>'" := (set_field f (fun _ => v) r)
  (at level 1, f at level 0, left associativity, format "r  <| f  :=  v |>").

Section Types.
Context `{Hkdf} `{Aead}.

(** [aead_ctx] is [None] until a key is set. *)
Record tls13_record_protection := mkProt {
  aead_ctx : option EVP_AEAD_CTX;
  iv : tls13_secret;
  nonce : tls13_secret;
  seq_num : list Z
}.

Record tls13_record_layer := mkRl {
  legacy_version : Z;
  ccs_allowed : bool;
  ccs_seen : Z;
  ccs_sent : bool;
  handshake_completed : bool;
  legacy_alerts_allowed : bool;
  phh : bool;
  phh_retry : bool;
  read_closed : bool;
  write_closed : bool;
  rrec : option tls13_record;
  wrec : option tls13_record;
  wrec_content_type : Z;
  wrec_appdata_len : Z;
  wrec_content_len : Z;
  alert : Z;
  alert_data : option (list Z);
  alert_len : Z;
  alert_level : Z;
  alert_desc : Z;
  phh_cbs : CBS;
  phh_data : option (list Z);
  phh_len : Z;
  rbuf_content_type : Z;
  rbuf : option (list Z);
  rbuf_len : Z;
  rbuf_cbs : CBS;
  hash : option EVP_MD;
  aead : option EVP_AEAD;
  read : tls13_record_protection;
  write : tls13_record_protection
}.
End Types.

Section Setters.
Context `{Hkdf} `{Aead}.

Definition eta_rl (r : tls13_record_layer) : tls13_record_layer :=
  mkRl
    (legacy_version r) (ccs_allowed r) (ccs_seen r) (ccs_sent r) (handshake_completed r)
    (legacy_alerts_allowed r) (phh r) (phh_retry r) (read_closed r) (write_closed r) (rrec r) (wrec
    r) (wrec_content_type r) (wrec_appdata_len r) (wrec_content_len r) (alert r) (alert_data r)
    (alert_len r) (alert_level r) (alert_desc r) (phh_cbs r) (phh_data r) (phh_len r)
    (rbuf_content_type r) (rbuf r) (rbuf_len r) (rbuf_cbs r) (hash r) (aead r) (read r) (write r).

(** The setter of a field: [eta_rl] with the field's projection followed by the update. *)
Ltac mk_setter f :=
  let e := eval cbv beta delta [eta_rl] in eta_rl in
  let R := constr:(tls13_record_layer) in
  match eval pattern (f) in e with
  | ?P _ => let t := eval cbv beta in (fun g => P (fun r : R => g (f r))) in exact t
  end.

#[global] Instance set_legacy_version : Setter legacy_version := ltac:(mk_setter legacy_version).
#[global] Instance set_ccs_allowed : Setter ccs_allowed := ltac:(mk_setter ccs_allowed).
#[global] Instance set_ccs_seen : Setter ccs_seen := ltac:(mk_setter ccs_seen).
#[global] Instance set_ccs_sent : Setter ccs_sent := ltac:(mk_setter ccs_sent).
#[global] Instance set_handshake_completed : Setter handshake_completed := ltac:(mk_setter handshake_completed).
#[global] Instance set_legacy_alerts_allowed : Setter legacy_alerts_allowed := ltac:(mk_setter legacy_alerts_allowed).
#[global] Instance set_phh : Setter phh := ltac:(mk_setter phh).
#[global] Instance set_phh_retry : Setter phh_retry := ltac:(mk_setter phh_retry).
#[global] Instance set_read_closed : Setter read_closed := ltac:(mk_setter read_closed).
#[global] Instance set_write_closed : Setter write_closed := ltac:(mk_setter write_closed).
#[global] Instance set_rrec : Setter rrec := ltac:(mk_setter rrec).
#[global] Instance set_wrec : Setter wrec := ltac:(mk_setter wrec).
#[global] Instance set_wrec_content_type : Setter wrec_content_type := ltac:(mk_setter wrec_content_type).
#[global] Instance set_wrec_appdata_len : Setter wrec_appdata_len := ltac:(mk_setter wrec_appdata_len).
#[global] Instance set_wrec_content_len : Setter wrec_content_len := ltac:(mk_setter wrec_content_len).
#[global] Instance set_alert : Setter alert := ltac:(mk_setter alert).
#[global] Instance set_alert_data : Setter alert_data := ltac:(mk_setter alert_data).
#[global] Instance set_alert_len : Setter alert_len := ltac:(mk_setter alert_len).
#[global] Instance set_alert_level : Setter alert_level := ltac:(mk_setter alert_level).
#[global] Instance set_alert_desc : Setter alert_desc := ltac:(mk_setter alert_desc).
#[global] Instance set_phh_cbs : Setter phh_cbs := ltac:(mk_setter phh_cbs).
#[global] Instance set_phh_data : Setter phh_data := ltac:(mk_setter phh_data).
#[global] Instance set_phh_len : Setter phh_len := ltac:(mk_setter phh_len).
#[global] Instance set_rbuf_content_type : Setter rbuf_content_type := ltac:(mk_setter rbuf_content_type).
#[global] Instance set_rbuf : Setter rbuf := ltac:(mk_setter rbuf).
#[global] Instance set_rbuf_len : Setter rbuf_len := ltac:(mk_setter rbuf_len).
#[global] Instance set_rbuf_cbs : Setter rbuf_cbs := ltac:(mk_setter rbuf_cbs).
#[global] Instance set_hash : Setter hash := ltac:(mk_setter hash).
#[global] Instance set_aead : Setter aead := ltac:(mk_setter aead).
#[global] Instance set_read : Setter read := ltac:(mk_setter read).
#[global] Instance set_write : Setter write := ltac:(mk_setter write).

#[global] Instance set_seq_num : Setter seq_num :=
  fun g p => mkProt (aead_ctx p) (iv p) (nonce p) (g (seq_num p)).
#[global] Instance set_nonce : Setter nonce :=
  fun g p => mkProt (aead_ctx p) (iv p) (g (nonce p)) (seq_num p).
End Setters.

(** ** Record protection *)

Section Protection.
Context `{Allocator} `{Hkdf} `{Aead}.

Definition zero_prot : tls13_record_protection :=
  mkProt None no_secret no_secret (zeros (Z.of_nat TLS13_RECORD_SEQ_NUM_LEN)).

Definition sizeof_tls13_record_protection : Z := 80.

Definition tls13_record_protection_new : option tls13_record_protection :=
  if malloc_ok sizeof_tls13_record_protection then Some zero_prot else None.

Definition tls13_record_protection_clear (rp : tls13_record_protection) : tls13_record_protection :=
  mkProt None (tls13_secret_cleanup (iv rp)) (tls13_secret_cleanup (nonce rp))
    (zeros (Z.of_nat TLS13_RECORD_SEQ_NUM_LEN)).

Definition tls13_max_seq_num : list Z := replicate TLS13_RECORD_SEQ_NUM_LEN 0xff.

(** [for (i = n - 1; i >= 0; i--) if (++seq_num[i] != 0) break;] *)
Fixpoint inc_loop (seq : list Z) (n : nat) : list Z :=
  match n with
  | O => seq
  | S i =>
      let b := wrap8 (nth i seq 0 + 1) in
      let seq := <[i := b]> seq in
      if b =? 0 then inc_loop seq i else seq
  end.

Definition tls13_record_layer_inc_seq_num : M (list Z) unit := fun seq =>
  if bytes_eqb (ztake (Z.of_nat TLS13_RECORD_SEQ_NUM_LEN) seq) tls13_max_seq_num then (None, seq)
  else (Some tt, inc_loop seq TLS13_RECORD_SEQ_NUM_LEN).

(** The loop over [i] from [k - 1] down, with [j = i - len + 8]. *)
Fixpoint nonce_loop (nonce iv seq : list Z) (len : Z) (k : nat) : list Z :=
  match k with
  | O => nonce
  | S i =>
      let j := Z.of_nat i - len + Z.of_nat TLS13_RECORD_SEQ_NUM_LEN in
      nonce_loop (<[i := Z.lxor (nth i iv 0) (if 0 <=? j then znth seq j else 0)]> nonce) iv seq len i
  end.

Definition tls13_record_layer_update_nonce (iv : tls13_secret) (seq : list Z) : M tls13_secret unit := fun nonce =>
  if negb (ts_len nonce =? ts_len iv) then (None, nonce)
  else (Some tt, mkSecret
         ((fun d => nonce_loop d (ts_bytes iv) seq (ts_len nonce) (Z.to_nat (ts_len nonce))) <$> ts_data nonce)
         (ts_len nonce)).

(** The state is the protection and the claim log; the first member allocated that fails
    ends the call with what was assigned before. *)
Definition tls13_record_layer_set_traffic_key (aead : EVP_AEAD) (hash : EVP_MD) (traffic_key : tls13_secret)
    : M (tls13_record_protection * list Claim) unit := fun '(rp, log) =>
  let rp := tls13_record_protection_clear rp in
  match tls13_secret_init (EVP_AEAD_nonce_length aead) (iv rp) with
  | (None, _) => (None, (rp, log))
  | (Some _, v) =>
  let rp := mkProt (aead_ctx rp) v (nonce rp) (seq_num rp) in
  match tls13_secret_init (EVP_AEAD_nonce_length aead) (nonce rp) with
  | (None, _) => (None, (rp, log))
  | (Some _, n) =>
  let rp := mkProt (aead_ctx rp) (iv rp) n (seq_num rp) in
  match tls13_secret_init (EVP_AEAD_key_length aead) no_secret with
  | (None, _) => (None, (rp, log))
  | (Some _, key) =>
  match tls13_hkdf_expand_label (ts_len (iv rp)) hash traffic_key "iv" (mkSecret (Some []) 0) log with
  | (None, log) => (None, (rp, log))
  | (Some v, log) =>
  let rp := mkProt (aead_ctx rp) (mkSecret (Some v) (ts_len (iv rp))) (nonce rp) (seq_num rp) in
  match tls13_hkdf_expand_label (ts_len key) hash traffic_key "key" (mkSecret (Some []) 0) log with
  | (None, log) => (None, (rp, log))
  | (Some k, log) =>
  match EVP_AEAD_CTX_init aead k with
  | None => (None, (rp, log))
  | Some c => (Some tt, (mkProt (Some c) (iv rp) (nonce rp) (seq_num rp), log))
  end end end end end end.
End Protection.

(** The bytes a client builds in a CBB of its own. *)
Definition cbb_run `{Allocator} (m : M store (list Z * Z)) : option (list Z) :=
  match m (mkStore None ∅) with
  | (Some (buf, len), _) => Some (ztake len buf)
  | (None, _) => None
  end.

(** ** Opening and sealing *)

Section Records.
Context `{Allocator} `{Hkdf} `{Aead}.

Definition tls13_record_layer_rbuf_free (rl : tls13_record_layer) : tls13_record_layer :=
  rl<|rbuf_cbs := CBS_init [] 0|><|rbuf := None|><|rbuf_len := 0|><|rbuf_content_type := 0|>.
Definition tls13_record_layer_rrec_free (rl : tls13_record_layer) : tls13_record_layer := rl<|rrec := None|>.
Definition tls13_record_layer_wrec_free (rl : tls13_record_layer) : tls13_record_layer := rl<|wrec := None|>.

Definition sizeof_tls13_record_layer : Z := 440.

Definition tls13_record_layer_new : option tls13_record_layer :=
  if malloc_ok sizeof_tls13_record_layer then
    r ← tls13_record_protection_new; w ← tls13_record_protection_new;
    Some (mkRl TLS1_2_VERSION false 0 false false false false false false false None None 0 0 0 0 None 0 0 0
            (CBS_init [] 0) None 0 0 None 0 (CBS_init [] 0) None None r w)
  else None.

Definition tls13_record_layer_rbuf (rl : tls13_record_layer) : CBS := CBS_dup (rbuf_cbs rl).
Definition tls13_record_layer_allow_ccs (rl : tls13_record_layer) (allow : bool) : tls13_record_layer := rl<|ccs_allowed := allow|>.
Definition tls13_record_layer_allow_legacy_alerts (rl : tls13_record_layer) (allow : bool) : tls13_record_layer := rl<|legacy_alerts_allowed := allow|>.
Definition tls13_record_layer_set_aead (rl : tls13_record_layer) (a : EVP_AEAD) : tls13_record_layer := rl<|aead := Some a|>.
Definition tls13_record_layer_set_hash (rl : tls13_record_layer) (md : EVP_MD) : tls13_record_layer := rl<|hash := Some md|>.
Definition tls13_record_layer_set_legacy_version (rl : tls13_record_layer) (version : Z) : tls13_record_layer := rl<|legacy_version := version|>.
Definition tls13_record_layer_handshake_completed (rl : tls13_record_layer) : tls13_record_layer := rl<|handshake_completed := true|>.
Definition tls13_record_layer_set_retry_after_phh (rl : tls13_record_layer) (retry : bool) : tls13_record_layer := rl<|phh_retry := retry|>.

(** Both are called after the AEAD and the hash have been set. *)
Definition tls13_record_layer_set_read_traffic_key (key : tls13_secret) : M (tls13_record_layer * list Claim) unit := fun '(rl, log) =>
  match aead rl, hash rl with
  | Some a, Some md =>
      let '(r, (rp, log)) := tls13_record_layer_set_traffic_key a md key (read rl, log) in
      (r, (rl<|read := rp|>, log))
  | _, _ => (None, (rl, log))
  end.
Definition tls13_record_layer_set_write_traffic_key (key : tls13_secret) : M (tls13_record_layer * list Claim) unit := fun '(rl, log) =>
  match aead rl, hash rl with
  | Some a, Some md =>
      let '(r, (rp, log)) := tls13_record_layer_set_traffic_key a md key (write rl, log) in
      (r, (rl<|write := rp|>, log))
  | _, _ => (None, (rl, log))
  end.

(** [rl->rrec] is not NULL when a record is opened. *)
Definition tls13_record_layer_open_record_plaintext (rec : tls13_record) : M tls13_record_layer unit := fun rl =>
  match aead rl with
  | Some _ => (None, rl)
  | None =>
  match tls13_record_content rec with
  | None => (None, rl)
  | Some cbs =>
  if TLS13_RECORD_MAX_PLAINTEXT_LEN <? CBS_len cbs then (None, rl<|alert := TLS13_ALERT_RECORD_OVERFLOW|>)
  else
  let rl := tls13_record_layer_rbuf_free rl in
  match CBS_stow cbs with
  | None => (None, rl)
  | Some (data, len) =>
      let rl := rl<|rbuf := data|><|rbuf_len := len|><|rbuf_content_type := tls13_record_content_type rec|> in
      (Some tt, rl<|rbuf_cbs := CBS_init (match data with Some d => d | None => [] end) len|>)
  end end end.

(** The index of the last non-zero byte of the first [n], or -1. *)
Fixpoint last_nonzero (content : list Z) (n : nat) : Z :=
  match n with
  | O => -1
  | S k => if nth k content 0 =? 0 then last_nonzero content k else Z.of_nat k
  end.

Definition tls13_record_layer_open_record_protected (rec : tls13_record) : M tls13_record_layer unit := fun rl =>
  match aead rl with
  | None => (None, rl)
  | Some _ =>
  match tls13_record_header rec, tls13_record_content rec with
  | Some header, Some enc_record =>
  if negb (malloc_ok (CBS_len enc_record)) then (None, rl)
  else
  match tls13_record_layer_update_nonce (iv (read rl)) (seq_num (read rl)) (nonce (read rl)) with
  | (None, _) => (None, rl)
  | (Some _, n) =>
  let rl := rl<|read := (read rl)<|nonce := n|>|> in
  match ctx ← aead_ctx (read rl);
        EVP_AEAD_CTX_open ctx (CBS_len enc_record) (ts_bytes n) (CBS_data enc_record) (CBS_data header) with
  | None => (None, rl)
  | Some content =>
  let out_len := zlen content in
  if TLS13_RECORD_MAX_INNER_PLAINTEXT_LEN <? out_len then (None, rl<|alert := TLS13_ALERT_RECORD_OVERFLOW|>)
  else
  match tls13_record_layer_inc_seq_num (seq_num (read rl)) with
  | (None, _) => (None, rl)
  | (Some _, seq) =>
  let rl := rl<|read := (read rl)<|seq_num := seq|>|> in
  let inner_len := last_nonzero content (Z.to_nat out_len) in
  if inner_len <? 0 then (None, rl<|alert := TLS13_ALERT_UNEXPECTED_MESSAGE|>)
  else if TLS13_RECORD_MAX_PLAINTEXT_LEN <? inner_len then (None, rl<|alert := TLS13_ALERT_RECORD_OVERFLOW|>)
  else
  let rl := tls13_record_layer_rbuf_free rl in
  let rl := rl<|rbuf_content_type := znth content inner_len|><|rbuf := Some (ztake inner_len content)|><|rbuf_len := inner_len|> in
  (Some tt, rl<|rbuf_cbs := CBS_init (ztake inner_len content) inner_len|>)
  end end end
  | _, _ => (None, rl)
  end end.

Definition tls13_record_layer_open_record (rec : tls13_record) : M tls13_record_layer unit := fun rl =>
  match aead rl with
  | None => if handshake_completed rl then (None, rl) else tls13_record_layer_open_record_plaintext rec rl
  | Some _ => tls13_record_layer_open_record_protected rec rl
  end.

(** The CBB calls that build a plaintext record. *)
Definition plaintext_record_build (content_type version : Z) (content : list Z) : M store (list Z * Z) :=
  _ ← CBB_init 0%nat (TLS13_RECORD_HEADER_LEN + zlen content);
  _ ← CBB_add_u8 0%nat content_type;
  _ ← CBB_add_u16 0%nat version;
  _ ← CBB_add_u16_length_prefixed 0%nat 1%nat;
  _ ← CBB_add_bytes 1%nat content (zlen content);
  CBB_finish 0%nat true.

(** [tls13_record_set_data(rl->wrec, data, data_len)] and the description of what was sealed. *)
Definition set_wrec_data (wr : tls13_record) (data : list Z) (content_type content_len : Z) : M tls13_record_layer unit := fun rl =>
  match tls13_record_set_data data (zlen data) wr with
  | (None, _) => (None, rl)
  | (Some _, wr) => (Some tt, rl<|wrec := Some wr|><|wrec_content_len := content_len|><|wrec_content_type := content_type|>)
  end.

Definition tls13_record_layer_seal_record_plaintext (wr : tls13_record) (content_type : Z) (content : list Z)
    : M tls13_record_layer unit := fun rl =>
  if handshake_completed rl then (None, rl)
  else if (if aead rl is Some _ then true else false) && negb (content_type =? SSL3_RT_CHANGE_CIPHER_SPEC) then (None, rl)
  else match cbb_run (plaintext_record_build content_type (legacy_version rl) content) with
  | None => (None, rl)
  | Some data => set_wrec_data wr data content_type (zlen content) rl
  end.

Definition inner_plaintext_build (content_type : Z) (content : list Z) : M store (list Z * Z) :=
  _ ← CBB_init 0%nat (zlen content + 1);
  _ ← CBB_add_bytes 0%nat content (zlen content);
  _ ← CBB_add_u8 0%nat content_type;
  CBB_finish 0%nat true.
Definition record_header_build (enc_record_len : Z) : M store (list Z * Z) :=
  _ ← CBB_init 0%nat TLS13_RECORD_HEADER_LEN;
  _ ← CBB_add_u8 0%nat SSL3_RT_APPLICATION_DATA;
  _ ← CBB_add_u16 0%nat TLS1_2_VERSION;
  _ ← CBB_add_u16 0%nat enc_record_len;
  CBB_finish 0%nat true.
(** The record with room for the encrypted part, and where that starts. *)
Definition enc_record_build (header : list Z) (enc_record_len : Z) : M store (Z * list Z) :=
  _ ← CBB_init 0%nat (TLS13_RECORD_HEADER_LEN + enc_record_len);
  _ ← CBB_add_bytes 0%nat header (zlen header);
  enc_record ← CBB_add_space 0%nat enc_record_len;
  r ← CBB_finish 0%nat true;
  mret (enc_record, ztake (snd r) (fst r)).

Definition tls13_record_layer_seal_record_protected (wr : tls13_record) (content_type : Z) (content : list Z)
    : M tls13_record_layer unit := fun rl =>
  match aead rl with
  | None => (None, rl)
  | Some a =>
  match cbb_run (inner_plaintext_build content_type content) with
  | None => (None, rl)
  | Some inner =>
  if TLS13_RECORD_MAX_INNER_PLAINTEXT_LEN <? zlen inner then (None, rl)
  else
  let enc_record_len := zlen inner + EVP_AEAD_max_tag_len a in
  if TLS13_RECORD_MAX_CIPHERTEXT_LEN <? enc_record_len then (None, rl)
  else
  match cbb_run (record_header_build enc_record_len) with
  | None => (None, rl)
  | Some header =>
  match fst (enc_record_build header enc_record_len (mkStore None ∅)) with
  | None => (None, rl)
  | Some (enc_record, data) =>
  match tls13_record_layer_update_nonce (iv (write rl)) (seq_num (write rl)) (nonce (write rl)) with
  | (None, _) => (None, rl)
  | (Some _, n) =>
  let rl := rl<|write := (write rl)<|nonce := n|>|> in
  match ctx ← aead_ctx (write rl); EVP_AEAD_CTX_seal ctx enc_record_len (ts_bytes n) inner header with
  | None => (None, rl)
  | Some out =>
  let data := overwrite data enc_record out in
  if negb (zlen out =? enc_record_len) then (None, rl)
  else
  match tls13_record_layer_inc_seq_num (seq_num (write rl)) with
  | (None, _) => (None, rl)
  | (Some _, seq) =>
  let rl := rl<|write := (write rl)<|seq_num := seq|>|> in
  set_wrec_data wr data content_type (zlen content) rl
  end end end end end end end.

Definition tls13_record_layer_seal_record (content_type : Z) (content : list Z) : M tls13_record_layer unit := fun rl =>
  if handshake_completed rl && (if aead rl is None then true else false) then (None, rl)
  else
  let rl := tls13_record_layer_wrec_free rl in
  match tls13_record_new with
  | None => (None, rl)
  | Some wr =>
      let rl := rl<|wrec := Some wr|> in
      if (if aead rl is None then true else false) || (content_type =? SSL3_RT_CHANGE_CIPHER_SPEC)
      then tls13_record_layer_seal_record_plaintext wr content_type content rl
      else tls13_record_layer_seal_record_protected wr content_type content rl
  end.
End Records.

(** ** Reading and writing *)

Section IO.
Context `{Allocator} `{Hkdf} `{Aead}.

(** The callbacks.  [phh_recv] and [phh_sent] are implemented above the record layer and may
    call it, so they act on it too; [phh_recv] may be NULL. *)
Class Callbacks (W : Type) := {
  wire_read : read_cb W;
  wire_write : write_cb W;
  alert_recv : Z -> W -> W;
  alert_sent : Z -> W -> W;
  phh_recv : option (CBS -> State (tls13_record_layer * W) (Z * CBS));
  phh_sent : State (tls13_record_layer * W) unit
}.

Context {W : Type} `{!Callbacks W}.
Local Definition io (A : Type) : Type := State (tls13_record_layer * W) A.

(** A step given as a function on the record layer and the world. *)
Definition step {A} (f : tls13_record_layer -> W -> A * (tls13_record_layer * W)) : io A := fun '(rl, w) => f rl w.
Definition mod_rl (f : tls13_record_layer -> tls13_record_layer) : io unit := fun '(rl, w) => (tt, (f rl, w)).

(** [tls13_record_send(rl->wrec, ...)], and [wrec_free] after a complete send. *)
Definition send_wrec : io Z := fun '(rl, w) =>
  match wrec rl with
  | None => (TLS13_IO_FAILURE, (rl, w))
  | Some wr =>
      let '(ret, (wr, w)) := tls13_record_send wire_write (wr, w) in
      let rl := rl<|wrec := Some wr|> in
      (ret, (if ret <=? 0 then rl else tls13_record_layer_wrec_free rl, w))
  end.

(** The part of [tls13_record_layer_write_record] that seals and sends a new record. *)
Definition write_new_record (content_type : Z) (content : list Z) : io Z := fun '(rl, w) =>
  if TLS13_RECORD_MAX_PLAINTEXT_LEN <? zlen content then (TLS13_IO_FAILURE, (rl, w))
  else match tls13_record_layer_seal_record content_type content rl with
  | (None, rl) => (TLS13_IO_FAILURE, (rl, w))
  | (Some _, rl) =>
      let '(ret, st) := send_wrec (rl, w) in
      (if ret <=? 0 then ret else zlen content, st)
  end.

Definition tls13_record_layer_write_record (content_type : Z) (content : list Z) : io Z := fun '(rl, w) =>
  if write_closed rl then (TLS13_IO_EOF, (rl, w))
  else if (content_type =? SSL3_RT_APPLICATION_DATA) && negb (wrec_appdata_len rl =? 0)
  then (wrec_appdata_len rl, (rl<|wrec_appdata_len := 0|>, w))
  else match wrec rl with
  | None => write_new_record content_type content (rl, w)
  | Some _ =>
      let '(ret, (rl, w)) := send_wrec (rl, w) in
      if ret <=? 0 then (ret, (rl, w))
      else if wrec_content_type rl =? content_type
      then (wrec_content_len rl, (rl<|wrec_content_len := 0|><|wrec_content_type := 0|>, w))
      else if negb (wrec_content_type rl =? SSL3_RT_APPLICATION_DATA) then (TLS13_IO_FAILURE, (rl, w))
      else write_new_record content_type content (rl<|wrec_appdata_len := wrec_content_len rl|>, w)
  end.

Definition tls13_record_layer_write_chunk (content_type : Z) (buf : list Z) : io Z :=
  tls13_record_layer_write_record content_type (ztake TLS13_RECORD_MAX_PLAINTEXT_LEN buf).

(** The pending alert's bytes, none for NULL. *)
Definition tls13_record_layer_send_alert : io Z :=
  rl ← gets fst;
  ret ← tls13_record_layer_write_record SSL3_RT_ALERT (match alert_data rl with Some d => d | None => [] end);
  if negb (ret =? alert_len rl) then mret (if ret =? TLS13_IO_EOF then TLS13_IO_ALERT else ret)
  else
  _ ← mod_rl (fun rl => rl<|alert_data := None|><|alert_len := 0|>);
  ret ← (if alert_desc rl =? TLS13_ALERT_CLOSE_NOTIFY then
           _ ← mod_rl (fun rl => rl<|write_closed := true|>); mret TLS13_IO_SUCCESS
         else if alert_desc rl =? TLS13_ALERT_USER_CANCELED then mret TLS13_IO_SUCCESS
         else
           _ ← mod_rl (fun rl => rl<|read_closed := true|><|write_closed := true|>); mret TLS13_IO_ALERT);
  step (fun rl w => (ret, (rl, alert_sent (alert_desc rl) w))).

Definition tls13_record_layer_send_phh : io Z :=
  rl ← gets fst;
  ret ← tls13_record_layer_write_chunk SSL3_RT_HANDSHAKE (ztake (CBS_len (phh_cbs rl)) (CBS_data (phh_cbs rl)));
  if ret <=? 0 then mret ret
  else step (fun rl w =>
  match CBS_skip ret (phh_cbs rl) with
  | (None, _) => (TLS13_IO_FAILURE, (rl, w))
  | (Some _, c) =>
      let rl := rl<|phh_cbs := c|> in
      if negb (CBS_len c =? 0) then (TLS13_IO_WANT_RETRY, (rl, w))
      else
      let rl := rl<|phh_data := None|><|phh_len := 0|><|phh_cbs := CBS_init [] 0|> in
      let '(_, st) := phh_sent (rl, w) in
      (TLS13_IO_SUCCESS, st)
  end).

Definition tls13_record_layer_send_pending : io Z := fun '(rl, w) =>
  if (if phh_data rl is Some _ then true else false) && negb (CBS_len (phh_cbs rl) =? phh_len rl)
  then tls13_record_layer_send_phh (rl, w)
  else if (if alert_data rl is Some _ then true else false) then tls13_record_layer_send_alert (rl, w)
  else if (if phh_data rl is Some _ then true else false) then tls13_record_layer_send_phh (rl, w)
  else (TLS13_IO_SUCCESS, (rl, w)).

Definition alert_build (level desc : Z) : M store (list Z * Z) :=
  _ ← CBB_init 0%nat 0; _ ← CBB_add_u8 0%nat level; _ ← CBB_add_u8 0%nat desc; CBB_finish 0%nat true.

Definition tls13_record_layer_enqueue_alert (level desc : Z) : io Z := fun '(rl, w) =>
  if (if alert_data rl is Some _ then true else false) then (TLS13_IO_FAILURE, (rl, w))
  else match cbb_run (alert_build level desc) with
  | None => (TLS13_IO_FAILURE, (rl, w))
  | Some data =>
      tls13_record_layer_send_pending
        (rl<|alert_data := Some data|><|alert_len := zlen data|><|alert_level := level|><|alert_desc := desc|>, w)
  end.

Definition tls13_record_layer_phh (cbs : CBS) : io Z := fun '(rl, w) =>
  if (if phh_data rl is Some _ then true else false) then (TLS13_IO_FAILURE, (rl, w))
  else match CBS_stow cbs with
  | None => (TLS13_IO_FAILURE, (rl, w))
  | Some (data, len) =>
      tls13_record_layer_send_pending
        (rl<|phh_data := data|><|phh_len := len|><|phh_cbs := CBS_init (match data with Some d => d | None => [] end) len|>, w)
  end.

(** [do { ret = body } while (ret == TLS13_IO_WANT_RETRY)], at most [fuel] times. *)
Fixpoint while_retry {A} (fuel : nat) (stop : A) (ret : A -> Z) (body : io A) : io A :=
  match fuel with
  | O => mret stop
  | S fuel' =>
      r ← body;
      if ret r =? TLS13_IO_WANT_RETRY then while_retry fuel' stop ret body else mret r
  end.
Definition retry (fuel : nat) (body : io Z) : io Z := while_retry fuel TLS13_IO_WANT_RETRY id body.

(** Two passes are enough: the second cannot enqueue another alert. *)
Definition tls13_send_alert (desc : Z) : io Z :=
  let level := if (desc =? TLS13_ALERT_CLOSE_NOTIFY) || (desc =? TLS13_ALERT_USER_CANCELED)
               then TLS13_ALERT_LEVEL_WARNING else TLS13_ALERT_LEVEL_FATAL in
  retry 2 (tls13_record_layer_enqueue_alert level desc).

(** The end of [tls13_record_layer_process_alert], once the alert has been read. *)
Definition alert_received (level desc : Z) : io Z :=
  rl ← gets fst;
  if desc =? TLS13_ALERT_CLOSE_NOTIFY then
    _ ← mod_rl (fun rl => rl<|read_closed := true|>);
    step (fun rl w => (TLS13_IO_EOF, (rl, alert_recv desc w)))
  else if desc =? TLS13_ALERT_USER_CANCELED then
    step (fun rl w => (TLS13_IO_WANT_RETRY, (rl, alert_recv desc w)))
  else if level =? TLS13_ALERT_LEVEL_FATAL then
    _ ← mod_rl (fun rl => rl<|read_closed := true|><|write_closed := true|>);
    step (fun rl w => (TLS13_IO_ALERT, (rl, alert_recv desc w)))
  else if legacy_alerts_allowed rl && (level =? TLS13_ALERT_LEVEL_WARNING) then mret TLS13_IO_WANT_RETRY
  else tls13_send_alert TLS13_ALERT_ILLEGAL_PARAMETER.

Definition tls13_record_layer_process_alert : io Z := fun '(rl, w) =>
  match rbuf rl with
  | None => (TLS13_IO_FAILURE, (rl, w))
  | Some _ =>
  if negb (rbuf_content_type rl =? SSL3_RT_ALERT) then (TLS13_IO_FAILURE, (rl, w))
  else match CBS_get_u8 (rbuf_cbs rl) with
  | (None, c) => tls13_send_alert TLS13_ALERT_DECODE_ERROR (rl<|rbuf_cbs := c|>, w)
  | (Some alert_level, c) =>
  match CBS_get_u8 c with
  | (None, c) => tls13_send_alert TLS13_ALERT_DECODE_ERROR (rl<|rbuf_cbs := c|>, w)
  | (Some alert_desc, c) =>
  let rl := rl<|rbuf_cbs := c|> in
  if negb (CBS_len c =? 0) then tls13_send_alert TLS13_ALERT_DECODE_ERROR (rl, w)
  else alert_received alert_level alert_desc (tls13_record_layer_rbuf_free rl, w)
  end end end.

(** The dummy ChangeCipherSpec case of [tls13_record_layer_read_record]. *)
Definition read_ccs (rec : tls13_record) : io Z := fun '(rl, w) =>
  if negb (ccs_allowed rl) || (2 <=? ccs_seen rl) then tls13_send_alert TLS13_ALERT_UNEXPECTED_MESSAGE (rl, w)
  else match tls13_record_content rec with
  | None => tls13_send_alert TLS13_ALERT_DECODE_ERROR (rl, w)
  | Some cbs =>
  match CBS_get_u8 cbs with
  | (None, _) => tls13_send_alert TLS13_ALERT_DECODE_ERROR (rl, w)
  | (Some ccs, _) =>
  if negb (ccs =? 1) then tls13_send_alert TLS13_ALERT_ILLEGAL_PARAMETER (rl, w)
  else (TLS13_IO_WANT_RETRY, (tls13_record_layer_rrec_free (rl<|ccs_seen := ccs_seen rl + 1|>), w))
  end end.

(** What [tls13_record_layer_read_record] does with an opened record. *)
Definition dispatch_record : io Z := fun '(rl, w) =>
  let t := rbuf_content_type rl in
  if (CBS_len (rbuf_cbs rl) =? 0) && ((t =? SSL3_RT_ALERT) || (t =? SSL3_RT_HANDSHAKE))
  then tls13_send_alert TLS13_ALERT_UNEXPECTED_MESSAGE (rl, w)
  else if t =? SSL3_RT_ALERT then tls13_record_layer_process_alert (rl, w)
  else if t =? SSL3_RT_HANDSHAKE then (TLS13_IO_SUCCESS, (rl, w))
  else if t =? SSL3_RT_APPLICATION_DATA then
    if negb (handshake_completed rl) then tls13_send_alert TLS13_ALERT_UNEXPECTED_MESSAGE (rl, w)
    else (TLS13_IO_SUCCESS, (rl, w))
  else tls13_send_alert TLS13_ALERT_UNEXPECTED_MESSAGE (rl, w).

(** A record has been received. *)
Definition process_record (rec : tls13_record) : io Z := fun '(rl, w) =>
  if (legacy_version rl =? TLS1_2_VERSION) && negb (tls13_record_version rec =? TLS1_2_VERSION)
  then tls13_send_alert TLS13_ALERT_PROTOCOL_VERSION (rl, w)
  else
  let content_type := tls13_record_content_type rec in
  if content_type =? SSL3_RT_CHANGE_CIPHER_SPEC then read_ccs rec (rl, w)
  else if (if aead rl is Some _ then true else false) && negb (content_type =? SSL3_RT_APPLICATION_DATA)
  then tls13_send_alert TLS13_ALERT_UNEXPECTED_MESSAGE (rl, w)
  else match tls13_record_layer_open_record rec rl with
  | (None, rl) => (TLS13_IO_FAILURE, (rl, w))
  | (Some _, rl) => dispatch_record (tls13_record_layer_rrec_free rl, w)
  end.

Definition tls13_record_layer_read_record : io Z := fun '(rl, w) =>
  match (match rrec rl with Some r => Some r | None => tls13_record_new end) with
  | None => (TLS13_IO_FAILURE, (rl, w))
  | Some rec =>
      let '(ret, (rec, w)) := tls13_record_recv wire_read (rec, w) in
      let rl := rl<|rrec := Some rec|> in
      if ret <=? 0 then
        if ret =? TLS13_IO_RECORD_VERSION then tls13_send_alert TLS13_ALERT_PROTOCOL_VERSION (rl, w)
        else if ret =? TLS13_IO_RECORD_OVERFLOW then tls13_send_alert TLS13_ALERT_RECORD_OVERFLOW (rl, w)
        else (ret, (rl, w))
      else process_record rec (rl, w)
  end.

Definition tls13_record_layer_pending (content_type : Z) (rl : tls13_record_layer) : Z :=
  if negb (rbuf_content_type rl =? content_type) then 0 else CBS_len (rbuf_cbs rl).

Definition tls13_record_layer_recv_phh : io Z := fun '(rl, w) =>
  let rl := rl<|phh := true|> in
  let '(ret, (rl, w)) :=
    match phh_recv with
    | None => (TLS13_IO_FAILURE, (rl, w))
    | Some cb => let '((ret, c), (rl, w)) := cb (rbuf_cbs rl) (rl, w) in (ret, (rl<|rbuf_cbs := c|>, w))
    end in
  let rl := tls13_record_layer_rbuf_free rl in
  let rl := if negb (ret =? TLS13_IO_WANT_POLLIN) then rl<|phh := false|> else rl in
  if ret =? TLS13_IO_SUCCESS then
    (if phh_retry rl then TLS13_IO_WANT_RETRY else TLS13_IO_WANT_POLLIN, (rl, w))
  else (ret, (rl, w)).

(** The end of [tls13_record_layer_read_internal]: there is plaintext; the bytes are what is
    copied to the caller's array. *)
Definition read_plaintext (content_type n : Z) (peek : bool) : io (Z * list Z) := fun '(rl, w) =>
  if phh rl && negb (rbuf_content_type rl =? SSL3_RT_HANDSHAKE)
  then let '(ret, st) := tls13_send_alert TLS13_ALERT_UNEXPECTED_MESSAGE (rl, w) in ((ret, []), st)
  else if negb (rbuf_content_type rl =? content_type) then
    let '(ret, st) :=
      if (rbuf_content_type rl =? SSL3_RT_HANDSHAKE) && handshake_completed rl
      then tls13_record_layer_recv_phh (rl, w)
      else tls13_send_alert TLS13_ALERT_UNEXPECTED_MESSAGE (rl, w) in ((ret, []), st)
  else
  let n := Z.min n (CBS_len (rbuf_cbs rl)) in
  let bytes := ztake n (CBS_data (rbuf_cbs rl)) in
  match (if peek then (Some tt, rbuf_cbs rl) else CBS_skip n (rbuf_cbs rl)) with
  | (None, c) => ((TLS13_IO_FAILURE, bytes), (rl<|rbuf_cbs := c|>, w))
  | (Some _, c) =>
      let rl := rl<|rbuf_cbs := c|> in
      ((n, bytes), (if CBS_len c =? 0 then tls13_record_layer_rbuf_free rl else rl, w))
  end.

Definition tls13_record_layer_read_internal (content_type n : Z) (peek : bool) : io (Z * list Z) := fun st =>
  let '(ret, (rl, w)) := tls13_record_layer_send_pending st in
  if negb (ret =? TLS13_IO_SUCCESS) then ((ret, []), (rl, w))
  else if read_closed rl then ((TLS13_IO_EOF, []), (rl, w))
  else if CBS_len (rbuf_cbs rl) =? 0 then
    let '(ret, (rl, w)) := tls13_record_layer_read_record (rl, w) in
    if ret <=? 0 then ((ret, []), (rl, w))
    else if CBS_len (rbuf_cbs rl) =? 0 then ((TLS13_IO_WANT_POLLIN, []), (tls13_record_layer_rbuf_free rl, w))
    else read_plaintext content_type n peek (rl, w)
  else read_plaintext content_type n peek (rl, w).

(** [tls13_record_layer_peek] and [tls13_record_layer_read] differ in [peek] only. *)
Definition read_loop (fuel : nat) (content_type n : Z) (peek : bool) : io (Z * list Z) :=
  r ← while_retry fuel (TLS13_IO_WANT_RETRY, []) fst (tls13_record_layer_read_internal content_type n peek);
  rl ← gets fst;
  if negb (alert rl =? 0) then ret ← tls13_send_alert (alert rl); mret (ret, snd r) else mret r.
Definition tls13_record_layer_peek (fuel : nat) (content_type n : Z) : io (Z * list Z) := read_loop fuel content_type n true.
Definition tls13_record_layer_read (fuel : nat) (content_type n : Z) : io (Z * list Z) := read_loop fuel content_type n false.

Definition tls13_record_layer_write (fuel : nat) (content_type : Z) (buf : list Z) : io Z :=
  ret ← retry fuel tls13_record_layer_send_pending;
  if negb (ret =? TLS13_IO_SUCCESS) then mret ret
  else retry fuel (tls13_record_layer_write_chunk content_type buf).

Definition tls13_dummy_ccs : list Z := [0x01].

Definition tls13_send_dummy_ccs (fuel : nat) : io Z :=
  rl ← gets fst;
  if ccs_sent rl then mret TLS13_IO_FAILURE
  else
  ret ← tls13_record_layer_write fuel SSL3_RT_CHANGE_CIPHER_SPEC tls13_dummy_ccs;
  if ret <=? 0 then mret ret
  else _ ← mod_rl (fun rl => rl<|ccs_sent := true|>); mret TLS13_IO_SUCCESS.

Definition tls13_read_handshake_data (fuel : nat) (n : Z) : io (Z * list Z) :=
  tls13_record_layer_read fuel SSL3_RT_HANDSHAKE n.
Definition tls13_write_handshake_data (fuel : nat) (buf : list Z) : io Z :=
  tls13_record_layer_write fuel SSL3_RT_HANDSHAKE buf.
Definition tls13_pending_application_data (rl : tls13_record_layer) : Z :=
  if negb (handshake_completed rl) then 0 else tls13_record_layer_pending SSL3_RT_APPLICATION_DATA rl.
Definition tls13_peek_application_data (fuel : nat) (n : Z) : io (Z * list Z) :=
  rl ← gets fst;
  if negb (handshake_completed rl) then mret (TLS13_IO_FAILURE, [])
  else tls13_record_layer_peek fuel SSL3_RT_APPLICATION_DATA n.
Definition tls13_read_application_data (fuel : nat) (n : Z) : io (Z * list Z) :=
  rl ← gets fst;
  if negb (handshake_completed rl) then mret (TLS13_IO_FAILURE, [])
  else tls13_record_layer_read fuel SSL3_RT_APPLICATION_DATA n.
Definition tls13_write_application_data (fuel : nat) (buf : list Z) : io Z :=
  rl ← gets fst;
  if negb (handshake_completed rl) then mret TLS13_IO_FAILURE
  else tls13_record_layer_write fuel SSL3_RT_APPLICATION_DATA buf.
End IO.
