(* ===== verification/Handshake.v ===== *)
(** * The TLSv1.3 handshake state machine (ssl/tls13_handshake.c, ssl/tls13_handshake.h)

    Which message comes next is looked up in a table by the kind of handshake and the
    number of the message; the driver sends or receives it and lets the handler of the
    message (ssl/tls13_client.c, ssl/tls13_server.c) do its work.  The handlers are an
    interface here; what they may do to the stage is [flags_added]. *)
From Stdlib Require Import String.
From S2P Require Import Prelude Compat Cbs Cbb CbbSpec CbbBuild Tls13Buffer Tls13Record HandshakeMsg KeySchedule RecordLayer.

Definition INITIAL : Z := 0x00.
Definition NEGOTIATED : Z := 0x01.
Definition WITHOUT_HRR : Z := 0x02.
Definition WITHOUT_CR : Z := 0x04.
Definition WITH_PSK : Z := 0x08.
Definition WITH_CCV : Z := 0x10.
Definition WITH_0RTT : Z := 0x20.

Inductive tls13_message_type :=
  | INVALID | CLIENT_HELLO | SERVER_HELLO_RETRY_REQUEST | CLIENT_HELLO_RETRY | SERVER_HELLO
  | SERVER_ENCRYPTED_EXTENSIONS | SERVER_CERTIFICATE_REQUEST | SERVER_CERTIFICATE | SERVER_CERTIFICATE_VERIFY
  | SERVER_FINISHED | CLIENT_END_OF_EARLY_DATA | CLIENT_CERTIFICATE | CLIENT_CERTIFICATE_VERIFY | CLIENT_FINISHED
  | APPLICATION_DATA.
#[global] Instance message_type_eq_dec : EqDecision tls13_message_type.
Proof. solve_decision. Defined.

Definition TLS13_NUM_MESSAGE_TYPES : Z := 15.

(** Message types on the wire (tls13_internal.h). *)
Definition TLS13_MT_CLIENT_HELLO : Z := 1.
Definition TLS13_MT_SERVER_HELLO : Z := 2.
Definition TLS13_MT_END_OF_EARLY_DATA : Z := 5.
Definition TLS13_MT_ENCRYPTED_EXTENSIONS : Z := 8.
Definition TLS13_MT_CERTIFICATE : Z := 11.
Definition TLS13_MT_CERTIFICATE_REQUEST : Z := 13.
Definition TLS13_MT_CERTIFICATE_VERIFY : Z := 15.
Definition TLS13_MT_FINISHED : Z := 20.

Definition TLS13_HS_CLIENT : Z := 1.
Definition TLS13_HS_SERVER : Z := 2.
Definition TLS13_INFO_HANDSHAKE_STARTED : Z := 0x10.
Definition TLS13_INFO_HANDSHAKE_COMPLETED : Z := 0x20.
Definition TLS1_3_VERSION : Z := 0x0304.

(** The rows of the table; a row that the source does not give is all [INVALID], and so is the
    rest of a row. *)
Definition handshakes (hs_type : Z) : list tls13_message_type :=
  let hello := [CLIENT_HELLO; SERVER_HELLO_RETRY_REQUEST; CLIENT_HELLO_RETRY; SERVER_HELLO] in
  if hs_type =? INITIAL then hello
  else if hs_type =? NEGOTIATED then
    hello ++ [SERVER_ENCRYPTED_EXTENSIONS; SERVER_CERTIFICATE_REQUEST; SERVER_CERTIFICATE; SERVER_CERTIFICATE_VERIFY;
              SERVER_FINISHED; CLIENT_CERTIFICATE; CLIENT_FINISHED; APPLICATION_DATA]
  else if hs_type =? Z.lor NEGOTIATED WITHOUT_HRR then
    [CLIENT_HELLO; SERVER_HELLO; SERVER_ENCRYPTED_EXTENSIONS; SERVER_CERTIFICATE_REQUEST; SERVER_CERTIFICATE;
     SERVER_CERTIFICATE_VERIFY; SERVER_FINISHED; CLIENT_CERTIFICATE; CLIENT_FINISHED; APPLICATION_DATA]
  else if hs_type =? Z.lor NEGOTIATED WITHOUT_CR then
    hello ++ [SERVER_ENCRYPTED_EXTENSIONS; SERVER_CERTIFICATE; SERVER_CERTIFICATE_VERIFY; SERVER_FINISHED;
              CLIENT_FINISHED; APPLICATION_DATA]
  else if hs_type =? Z.lor (Z.lor NEGOTIATED WITHOUT_HRR) WITHOUT_CR then
    [CLIENT_HELLO; SERVER_HELLO; SERVER_ENCRYPTED_EXTENSIONS; SERVER_CERTIFICATE; SERVER_CERTIFICATE_VERIFY;
     SERVER_FINISHED; CLIENT_FINISHED; APPLICATION_DATA]
  else if hs_type =? Z.lor NEGOTIATED WITH_PSK then
    hello ++ [SERVER_ENCRYPTED_EXTENSIONS; SERVER_FINISHED; CLIENT_FINISHED; APPLICATION_DATA]
  else if hs_type =? Z.lor (Z.lor NEGOTIATED WITHOUT_HRR) WITH_PSK then
    [CLIENT_HELLO; SERVER_HELLO; SERVER_ENCRYPTED_EXTENSIONS; SERVER_FINISHED; CLIENT_FINISHED; APPLICATION_DATA]
  else if hs_type =? Z.lor NEGOTIATED WITH_CCV then
    hello ++ [SERVER_ENCRYPTED_EXTENSIONS; SERVER_CERTIFICATE_REQUEST; SERVER_CERTIFICATE; SERVER_CERTIFICATE_VERIFY;
              SERVER_FINISHED; CLIENT_CERTIFICATE; CLIENT_CERTIFICATE_VERIFY; CLIENT_FINISHED; APPLICATION_DATA]
  else if hs_type =? Z.lor (Z.lor NEGOTIATED WITHOUT_HRR) WITH_CCV then
    [CLIENT_HELLO; SERVER_HELLO; SERVER_ENCRYPTED_EXTENSIONS; SERVER_CERTIFICATE_REQUEST; SERVER_CERTIFICATE;
     SERVER_CERTIFICATE_VERIFY; SERVER_FINISHED; CLIENT_CERTIFICATE; CLIENT_CERTIFICATE_VERIFY; CLIENT_FINISHED;
     APPLICATION_DATA]
  else [].

(** The array reaches up to its highest designated index. *)
Definition handshake_count : Z := Z.lor (Z.lor NEGOTIATED WITHOUT_HRR) WITH_CCV + 1.

Definition active_state (hs_type message_number : Z) : tls13_message_type :=
  if handshake_count <=? hs_type then INVALID
  else if TLS13_NUM_MESSAGE_TYPES <=? message_number then INVALID
  else nth (Z.to_nat message_number) (handshakes hs_type) INVALID.

Section Driver.
Context `{Allocator} `{Hkdf} `{Aead} {W : Type} `{!Callbacks W}.

(** The part of [struct tls13_ctx] the driver works on; the rest, and [SSL], is in the world [W]. *)
Record tls13_ctx := mkCtx {
  mode : Z;
  hs_type : Z;
  message_number : Z;
  handshake_started : bool;
  ctx_handshake_completed : bool;
  send_dummy_ccs : bool;
  send_dummy_ccs_after : bool;
  ctx_rl : tls13_record_layer;
  hs_msg : option tls13_handshake_msg;
  ctx_alert : Z;
  transcript_hash : list Z
}.

Definition hs_world : Type := tls13_ctx * W.

Definition set_started (c : tls13_ctx) : tls13_ctx :=
  mkCtx (mode c) (hs_type c) (message_number c) true (ctx_handshake_completed c) (send_dummy_ccs c)
    (send_dummy_ccs_after c) (ctx_rl c) (hs_msg c) (ctx_alert c) (transcript_hash c).
Definition set_completed (c : tls13_ctx) : tls13_ctx :=
  mkCtx (mode c) (hs_type c) (message_number c) (handshake_started c) true (send_dummy_ccs c)
    (send_dummy_ccs_after c) (ctx_rl c) (hs_msg c) (ctx_alert c) (transcript_hash c).
Definition set_hs_type (t : Z) (c : tls13_ctx) : tls13_ctx :=
  mkCtx (mode c) t (message_number c) (handshake_started c) (ctx_handshake_completed c) (send_dummy_ccs c)
    (send_dummy_ccs_after c) (ctx_rl c) (hs_msg c) (ctx_alert c) (transcript_hash c).
Definition set_message_number (n : Z) (c : tls13_ctx) : tls13_ctx :=
  mkCtx (mode c) (hs_type c) n (handshake_started c) (ctx_handshake_completed c) (send_dummy_ccs c)
    (send_dummy_ccs_after c) (ctx_rl c) (hs_msg c) (ctx_alert c) (transcript_hash c).
Definition set_dummy_ccs (now after : bool) (c : tls13_ctx) : tls13_ctx :=
  mkCtx (mode c) (hs_type c) (message_number c) (handshake_started c) (ctx_handshake_completed c) now after
    (ctx_rl c) (hs_msg c) (ctx_alert c) (transcript_hash c).
Definition set_rl (rl : tls13_record_layer) (c : tls13_ctx) : tls13_ctx :=
  mkCtx (mode c) (hs_type c) (message_number c) (handshake_started c) (ctx_handshake_completed c) (send_dummy_ccs c)
    (send_dummy_ccs_after c) rl (hs_msg c) (ctx_alert c) (transcript_hash c).
Definition set_hs_msg (m : option tls13_handshake_msg) (c : tls13_ctx) : tls13_ctx :=
  mkCtx (mode c) (hs_type c) (message_number c) (handshake_started c) (ctx_handshake_completed c) (send_dummy_ccs c)
    (send_dummy_ccs_after c) (ctx_rl c) m (ctx_alert c) (transcript_hash c).
Definition set_ctx_alert (a : Z) (c : tls13_ctx) : tls13_ctx :=
  mkCtx (mode c) (hs_type c) (message_number c) (handshake_started c) (ctx_handshake_completed c) (send_dummy_ccs c)
    (send_dummy_ccs_after c) (ctx_rl c) (hs_msg c) a (transcript_hash c).
Definition set_transcript_hash (h : list Z) (c : tls13_ctx) : tls13_ctx :=
  mkCtx (mode c) (hs_type c) (message_number c) (handshake_started c) (ctx_handshake_completed c) (send_dummy_ccs c)
    (send_dummy_ccs_after c) (ctx_rl c) (hs_msg c) (ctx_alert c) h.

(** What the driver calls outside this file.  A send handler builds the body in the CBB at
    address 1 of the message under construction; a receive handler reads from the CBS it is given. *)
Class Handlers := {
  hs_send : tls13_message_type -> M hs_world unit;
  hs_sent : tls13_message_type -> M hs_world unit;
  hs_recv : tls13_message_type -> M (hs_world * CBS) unit;
  tls1_transcript_record : list Z -> M hs_world unit;
  tls1_transcript_hash_value : M hs_world (list Z);
  method_version : hs_world -> Z;
  info_cb : option (Z -> State hs_world unit);
  handshake_message_sent_cb : option (State hs_world unit);
  handshake_message_recv_cb : option (State hs_world unit)
}.
Context `{!Handlers}.

Record tls13_handshake_action := mkAction {
  handshake_type : Z;
  sender : Z;
  handshake_complete : bool;
  send_preserve_transcript_hash : bool;
  recv_preserve_transcript_hash : bool;
  act_send : option (M hs_world unit);
  act_sent : option (M hs_world unit);
  act_recv : option (M (hs_world * CBS) unit)
}.

Definition act (t s : Z) (sp rp : bool) (mt : tls13_message_type) (has_sent : bool) : tls13_handshake_action :=
  mkAction t s false sp rp (Some (hs_send mt)) (if has_sent then Some (hs_sent mt) else None) (Some (hs_recv mt)).
Definition state_machine (mt : tls13_message_type) : tls13_handshake_action :=
  match mt with
  | CLIENT_HELLO => act TLS13_MT_CLIENT_HELLO TLS13_HS_CLIENT false false mt true
  | CLIENT_HELLO_RETRY => act TLS13_MT_CLIENT_HELLO TLS13_HS_CLIENT false false mt false
  | CLIENT_END_OF_EARLY_DATA => act TLS13_MT_END_OF_EARLY_DATA TLS13_HS_CLIENT false false mt false
  | CLIENT_CERTIFICATE => act TLS13_MT_CERTIFICATE TLS13_HS_CLIENT true false mt false
  | CLIENT_CERTIFICATE_VERIFY => act TLS13_MT_CERTIFICATE_VERIFY TLS13_HS_CLIENT false true mt false
  | CLIENT_FINISHED => act TLS13_MT_FINISHED TLS13_HS_CLIENT false true mt true
  | SERVER_HELLO => act TLS13_MT_SERVER_HELLO TLS13_HS_SERVER false false mt true
  | SERVER_HELLO_RETRY_REQUEST => act TLS13_MT_SERVER_HELLO TLS13_HS_SERVER false false mt true
  | SERVER_ENCRYPTED_EXTENSIONS => act TLS13_MT_ENCRYPTED_EXTENSIONS TLS13_HS_SERVER false false mt false
  | SERVER_CERTIFICATE => act TLS13_MT_CERTIFICATE TLS13_HS_SERVER true false mt false
  | SERVER_CERTIFICATE_REQUEST => act TLS13_MT_CERTIFICATE_REQUEST TLS13_HS_SERVER false false mt false
  | SERVER_CERTIFICATE_VERIFY => act TLS13_MT_CERTIFICATE_VERIFY TLS13_HS_SERVER false true mt false
  | SERVER_FINISHED => act TLS13_MT_FINISHED TLS13_HS_SERVER true true mt true
  | APPLICATION_DATA => mkAction 0 0 true false false None None None
  | INVALID => mkAction 0 0 false false false None None None
  end.

Definition tls13_handshake_active_state (c : tls13_ctx) : tls13_message_type := active_state (hs_type c) (message_number c).

Definition tls13_handshake_active_action (c : tls13_ctx) : option tls13_handshake_action :=
  match tls13_handshake_active_state c with
  | INVALID => None
  | mt => Some (state_machine mt)
  end.

(** [++] on a [uint8_t]. *)
Definition tls13_handshake_advance_state_machine : M hs_world unit := fun '(c, w) =>
  let n := wrap8 (message_number c + 1) in
  (if TLS13_NUM_MESSAGE_TYPES <=? n then None else Some tt, (set_message_number n c, w)).

(** [ctx->hs_msg] is not NULL at the calls of the functions below that use it. *)
Definition tls13_handshake_msg_record : M hs_world unit := fun '(c, w) =>
  match hs_msg c with
  | None => (None, (c, w))
  | Some m =>
      let cbs := tls13_handshake_msg_data m in
      tls1_transcript_record (ztake (CBS_len cbs) (CBS_data cbs)) (c, w)
  end.

(** A function body with early returns: [inl] is the value returned. *)
Definition body (A : Type) : Type := hs_world -> (Z + A) * hs_world.
#[global] Instance body_ret : MRet body := fun A a s => (inr a, s).
#[global] Instance body_bind : MBind body := fun A B f m s =>
  match m s with (inr a, s') => f a s' | (inl r, s') => (inl r, s') end.
Definition return_ {A} (r : Z) : body A := fun s => (inl r, s).
(** [if (!f(...)) return TLS13_IO_FAILURE;] *)
Definition must {A} (m : M hs_world A) : body A := fun s =>
  match m s with (Some a, s') => (inr a, s') | (None, s') => (inl TLS13_IO_FAILURE, s') end.
Definition call {A} (m : State hs_world A) : body A := fun s => let '(a, s') := m s in (inr a, s').
Definition set_ctx (f : tls13_ctx -> tls13_ctx) : body unit := fun '(c, w) => (inr tt, (f c, w)).
Definition ctx_ : body tls13_ctx := fun '(c, w) => (inr c, (c, w)).
Definition run_body (m : body Z) : State hs_world Z := fun s =>
  match m s with (inl r, s') => (r, s') | (inr r, s') => (r, s') end.

(** A call on the record layer. *)
Definition on_rl {A} (m : State (tls13_record_layer * W) A) : State hs_world A := fun '(c, w) =>
  let '(a, (rl, w)) := m (ctx_rl c, w) in (a, (set_rl rl c, w)).
(** A call on the message and the record layer. *)
Definition on_msg {A} (none : A) (m : State (tls13_handshake_msg * (tls13_record_layer * W)) A) : State hs_world A := fun '(c, w) =>
  match hs_msg c with
  | None => (none, (c, w))
  | Some hm => let '(a, (hm, (rl, w))) := m (hm, (ctx_rl c, w)) in (a, (set_hs_msg (Some hm) (set_rl rl c), w))
  end.
(** A call on the message alone. *)
Definition edit_msg (m : M tls13_handshake_msg unit) : M hs_world unit := fun '(c, w) =>
  match hs_msg c with
  | None => (None, (c, w))
  | Some hm => let '(r, hm) := m hm in (r, (set_hs_msg (Some hm) c, w))
  end.
Definition new_msg : M hs_world unit := fun '(c, w) =>
  match tls13_handshake_msg_new with None => (None, (c, w)) | Some hm => (Some tt, (set_hs_msg (Some hm) c, w)) end.
Definition optional {A} (f : option A) (g : A -> State hs_world unit) : State hs_world unit :=
  match f with None => mret tt | Some a => g a end.
(** A handler of the table; NULL is never called. *)
Definition handler {S} (h : option (M S unit)) : M S unit := match h with Some f => f | None => fail end.

Context (fuel : nat).

Definition tls13_handshake_msg_read_cb : read_cb (tls13_record_layer * W) := fun n => tls13_read_handshake_data fuel n.
Definition msg_write_cb : write_cb (tls13_record_layer * W) := fun buf => tls13_write_handshake_data fuel buf.

(** A dummy ChangeCipherSpec owed from before; [true] if it ends the action. *)
Definition send_owed_ccs : body bool :=
  c ← ctx_;
  if send_dummy_ccs c then
    ret ← call (on_rl (tls13_send_dummy_ccs fuel));
    if negb (ret =? TLS13_IO_SUCCESS) then return_ ret
    else
    let after := send_dummy_ccs_after c in
    _ ← set_ctx (set_dummy_ccs false false);
    mret after
  else mret false.

(** If there is no handshake message, build one. *)
Definition build_message (a : tls13_handshake_action) : body unit :=
  c ← ctx_;
  match hs_msg c with
  | Some _ => mret tt
  | None =>
      _ ← must new_msg;
      _ ← must (edit_msg (tls13_handshake_msg_start (handshake_type a)));
      _ ← must (handler (act_send a));
      must (edit_msg tls13_handshake_msg_finish)
  end.

Definition preserve_transcript_hash (preserve : bool) : body unit :=
  if preserve then h ← must tls1_transcript_hash_value; set_ctx (set_transcript_hash h) else mret tt.

Definition tls13_handshake_send_action (a : tls13_handshake_action) : State hs_world Z := run_body (
  ended ← send_owed_ccs;
  if (ended : bool) then mret TLS13_IO_SUCCESS
  else
  _ ← build_message a;
  ret ← call (on_msg TLS13_IO_FAILURE (tls13_handshake_msg_send msg_write_cb));
  if ret <=? 0 then return_ ret
  else
  _ ← must tls13_handshake_msg_record;
  _ ← preserve_transcript_hash (send_preserve_transcript_hash a);
  _ ← call (optional handshake_message_sent_cb id);
  _ ← set_ctx (set_hs_msg None);
  _ ← (match act_sent a with Some f => must f | None => mret tt end);
  c ← ctx_;
  if send_dummy_ccs_after c then
    _ ← set_ctx (set_dummy_ccs true true);
    ret ← call (on_rl (tls13_send_dummy_ccs fuel));
    if negb (ret =? TLS13_IO_SUCCESS) then return_ ret
    else _ ← set_ctx (set_dummy_ccs false false); mret TLS13_IO_SUCCESS
  else mret TLS13_IO_SUCCESS).

(** The receive handler on the content of the message, and the check for trailing data. *)
Definition receive_content (a : tls13_handshake_action) (cbs : CBS) : State hs_world Z := fun s =>
  let '(r, ((c, w), cbs)) := handler (act_recv a) (s, cbs) in
  match r with
  | None => (TLS13_IO_FAILURE, (c, w))
  | Some _ =>
      if negb (CBS_len cbs =? 0) then (TLS13_IO_FAILURE, (set_ctx_alert TLS13_ALERT_DECODE_ERROR c, w))
      else (TLS13_IO_SUCCESS, (c, w))
  end.

(** A certificate may arrive where a certificate request is expected. *)
Definition unexpected_message (a : tls13_handshake_action) (msg_type : Z) : bool :=
  negb (msg_type =? handshake_type a) &&
  (negb (msg_type =? TLS13_MT_CERTIFICATE) || negb (handshake_type a =? TLS13_MT_CERTIFICATE_REQUEST)).

Definition tls13_handshake_recv_action (a : tls13_handshake_action) : State hs_world Z := run_body (
  c ← ctx_;
  _ ← (match hs_msg c with Some _ => mret tt | None => must new_msg end);
  ret ← call (on_msg TLS13_IO_FAILURE (tls13_handshake_msg_recv tls13_handshake_msg_read_cb));
  if ret <=? 0 then return_ ret
  else
  _ ← preserve_transcript_hash (recv_preserve_transcript_hash a);
  _ ← must tls13_handshake_msg_record;
  _ ← call (optional handshake_message_recv_cb id);
  c ← ctx_;
  match hs_msg c with
  | None => return_ TLS13_IO_FAILURE
  | Some hm =>
      if unexpected_message a (tls13_handshake_msg_type hm)
      then ret ← call (on_rl (tls13_send_alert TLS13_ALERT_UNEXPECTED_MESSAGE)); return_ ret
      else match tls13_handshake_msg_content hm with
      | (None, _) => return_ TLS13_IO_FAILURE
      | (Some _, cbs) =>
          ret ← call (receive_content a cbs);
          _ ← set_ctx (set_hs_msg None);
          legacy ← call (gets (fun s => method_version s <? TLS1_3_VERSION));
          mret (if legacy : bool then TLS13_IO_USE_LEGACY else ret)
      end
  end).

(** One pass of the loop: [None] when the loop goes on. *)
Definition perform_step : State hs_world (option Z) := fun '(c, w) =>
  match tls13_handshake_active_action c with
  | None => (Some TLS13_IO_FAILURE, (c, w))
  | Some a =>
      if handshake_complete a then
        let c := set_completed c in
        let c := set_rl (tls13_record_layer_handshake_completed (ctx_rl c)) c in
        let '(_, s) := optional info_cb (fun f => f TLS13_INFO_HANDSHAKE_COMPLETED) (c, w) in
        (Some TLS13_IO_SUCCESS, s)
      else if negb (ctx_alert c =? 0) then
        let '(ret, s) := on_rl (tls13_send_alert (ctx_alert c)) (c, w) in (Some ret, s)
      else
        let '(ret, (c, w)) :=
          (if sender a =? mode c then tls13_handshake_send_action a else tls13_handshake_recv_action a) (c, w) in
        if negb (ctx_alert c =? 0) then
          let '(ret, s) := on_rl (tls13_send_alert (ctx_alert c)) (c, w) in (Some ret, s)
        else if ret <=? 0 then (Some ret, (c, w))
        else match tls13_handshake_advance_state_machine (c, w) with
        | (None, s) => (Some TLS13_IO_FAILURE, s)
        | (Some _, s) => (None, s)
        end
  end.

Fixpoint perform_loop (passes : nat) : State hs_world Z := fun s =>
  match passes with
  | O => (TLS13_IO_FAILURE, s)
  | S n => match perform_step s with (Some ret, s) => (ret, s) | (None, s) => perform_loop n s end
  end.

(** Every pass that goes on increments the message number, which stays below
    [TLS13_NUM_MESSAGE_TYPES]: that many passes and one more are enough. *)
Definition tls13_handshake_perform : State hs_world Z := fun '(c, w) =>
  let '(_, s) :=
    if handshake_started c then (tt, (c, w))
    else optional info_cb (fun f => f TLS13_INFO_HANDSHAKE_STARTED) (set_started c, w) in
  perform_loop (Z.to_nat (TLS13_NUM_MESSAGE_TYPES + 1)) s.
End Driver.
