(* ===== verification/RecordLayerSpec.v ===== *)
(** * What the record layer promises

    Sequence numbers count up to the last one and never wrap; every record has its
    own nonce; what one side seals the other side opens; nothing is sent in the
    clear once it must not be; a closed channel stays silent. *)
From Stdlib Require Import String.
From S2P Require Import Prelude Compat Cbs Cbb CbbSpec CbbBuild Tls13Buffer Tls13Record KeySchedule RecordLayer.

(** [rl_simpl]: evaluate projections of updated record layers. *)
Ltac rl_simpl :=
  cbn [
    set_field set_legacy_version set_ccs_allowed set_ccs_seen set_ccs_sent set_handshake_completed
    set_legacy_alerts_allowed set_phh set_phh_retry set_read_closed set_write_closed set_rrec set_wrec
    set_wrec_content_type set_wrec_appdata_len set_wrec_content_len set_alert set_alert_data set_alert_len
    set_alert_level set_alert_desc set_phh_cbs set_phh_data set_phh_len set_rbuf_content_type set_rbuf
    set_rbuf_len set_rbuf_cbs set_hash set_aead set_read set_write set_seq_num set_nonce legacy_version
    ccs_allowed ccs_seen ccs_sent handshake_completed legacy_alerts_allowed phh phh_retry read_closed
    write_closed rrec wrec wrec_content_type wrec_appdata_len wrec_content_len alert alert_data alert_len
    alert_level alert_desc phh_cbs phh_data phh_len rbuf_content_type rbuf rbuf_len rbuf_cbs hash aead read
    write seq_num nonce iv aead_ctx] in *.

(** ** Sequence numbers *)

Definition seq_ok (seq : list Z) : Prop := zlen seq = 8 /\ Forall is_byte seq.

Lemma inc_loop_spec a c :
  Forall is_byte a -> exists a', inc_loop (a ++ c) (length a) = a' ++ c /\ length a' = length a /\
    Forall is_byte a' /\ be_val a' = (be_val a + 1) mod 256 ^ zlen a.
Proof.
  revert c. induction a as [|x a IH] using rev_ind; intros c Ha.
  - exists []. cbn. by rewrite Z.mod_1_r.
  - apply Forall_app in Ha as [Ha Hx]. apply Forall_cons_1 in Hx as [Hx _].
    rewrite length_app, Nat.add_comm. cbn [length Nat.add inc_loop]. rewrite <- app_assoc. cbn [app].
    rewrite app_nth2, Nat.sub_diag by lia. cbn [nth]. rewrite insert_app_at by done.
    set (b := wrap8 (x + 1)). pose proof (be_val_bound a Ha) as Hv.
    rewrite be_val_snoc, zlen_app. change (zlen [x]) with 1. rewrite Z.pow_add_r by zl.
    set (p := 256 ^ zlen a) in *. unfold is_byte in Hx. change (256 ^ 1) with 256.
    destruct (Z.eqb_spec b 0) as [Hz|Hz].
    + destruct (IH (b :: c) Ha) as (a' & -> & Hl & Hb & Hval). exists (a' ++ [0]). rewrite Hz, <- app_assoc.
      assert (x = 255) as ->.
      { unfold b, wrap8 in Hz. change (2 ^ 8) with 256 in Hz. destruct (decide (x = 255)); [done|].
        rewrite Z.mod_small in Hz by lia. lia. }
      split_and!; try done.
      * rewrite !length_app. cbn. lia.
      * apply Forall_app. split; [done|]. apply Forall_singleton. unfold is_byte. lia.
      * rewrite be_val_snoc, Hval. replace (be_val a * 256 + 255 + 1) with ((be_val a + 1) * 256) by lia.
        rewrite Z.mul_mod_distr_r by lia. lia.
    + exists (a ++ [b]). rewrite <- app_assoc. cbn [app].
      assert (Hb1 : b = x + 1).
      { unfold b, wrap8 in *. change (2 ^ 8) with 256 in *. destruct (decide (x = 255)) as [->|]; [done|].
        apply Z.mod_small. lia. }
      split_and!; try done.
      * rewrite !length_app. cbn. lia.
      * apply Forall_app. split; [done|]. apply Forall_singleton. unfold is_byte, b. apply Z.mod_pos_bound. lia.
      * assert (x <> 255) by (intros ->; apply Hz; done).
        rewrite be_val_snoc, Hb1, Z.mod_small by lia. lia.
Qed.

Lemma max_seq_num_val : be_val tls13_max_seq_num = 2 ^ 64 - 1.
Proof. reflexivity. Qed.

Lemma be_val_injective a b : Forall is_byte a -> Forall is_byte b -> length a = length b -> be_val a = be_val b -> a = b.
Proof. intros Ha Hb Hl Hv. rewrite <- (be_bytes_be_val a Ha), <- (be_bytes_be_val b Hb). by rewrite Hl, Hv. Qed.

Lemma inc_seq_num_spec seq :
  seq_ok seq ->
  match tls13_record_layer_inc_seq_num seq with
  | (Some _, seq') => seq_ok seq' /\ be_val seq' = be_val seq + 1
  | (None, seq') => seq' = seq /\ be_val seq = 2 ^ 64 - 1
  end.
Proof.
  intros [Hl Hb]. unfold tls13_record_layer_inc_seq_num. rewrite ztake_ge by (rewrite Hl; done).
  unfold bytes_eqb. case_bool_decide as E; [by subst|].
  destruct (inc_loop_spec seq [] Hb) as (s' & Hs & Hl' & Hb' & Hv). rewrite !app_nil_r in Hs.
  replace TLS13_RECORD_SEQ_NUM_LEN with (length seq) by (unfold zlen in Hl; unfold TLS13_RECORD_SEQ_NUM_LEN; lia).
  rewrite Hs. pose proof (be_val_bound seq Hb) as Hbd. rewrite Hl in *.
  assert (be_val seq <> 2 ^ 64 - 1).
  { intros Hm. apply E. apply be_val_injective; [done|by apply bytes_ok|unfold zlen in Hl; cbn; lia|done]. }
  split; [split; [unfold zlen in *; lia|done]|]. rewrite Hv. apply Z.mod_small.
  change (256 ^ 8) with (2 ^ 64) in *. lia.
Qed.

(** ** Nonces *)

(** RFC 8446 section 5.3: the sequence number, padded to the left, XORed with the IV. *)
Definition record_nonce (iv seq : list Z) : list Z := zip_with Z.lxor iv (zeros (zlen iv - 8) ++ seq).

Lemma nonce_loop_lookup nonce iv seq len k :
  (k <= length nonce)%nat ->
  length (nonce_loop nonce iv seq len k) = length nonce /\
  (forall i, (k <= i)%nat -> nonce_loop nonce iv seq len k !! i = nonce !! i) /\
  (forall i, (i < k)%nat -> nonce_loop nonce iv seq len k !! i =
     Some (Z.lxor (nth i iv 0) (let j := Z.of_nat i - len + 8 in if 0 <=? j then znth seq j else 0))).
Proof.
  revert nonce. induction k as [|k IH]; intros nonce Hk; [split_and!; (done || lia)|].
  cbn [nonce_loop]. set (v := Z.lxor _ _).
  destruct (IH (<[k:=v]> nonce)) as (Hl & Hge & Hlt); [rewrite length_insert; lia|].
  rewrite length_insert in Hl. split_and!; [done| |].
  - intros i Hi. rewrite Hge by lia. by rewrite list_lookup_insert_ne by lia.
  - intros i Hi. destruct (decide (i = k)) as [->|]; [|apply Hlt; lia].
    rewrite Hge by lia. by rewrite list_lookup_insert_eq by lia.
Qed.

Lemma update_nonce_spec v n seq d ivd :
  ts_data v = Some ivd -> ts_len v = zlen ivd -> ts_data n = Some d -> ts_len n = zlen d ->
  ts_len n = ts_len v -> 8 <= zlen ivd -> zlen seq = 8 ->
  tls13_record_layer_update_nonce v seq n = (Some tt, mkSecret (Some (record_nonce ivd seq)) (ts_len n)).
Proof.
  intros Hv Hvl Hn Hnl Heq H8 Hs. unfold tls13_record_layer_update_nonce. rewrite (proj2 (Z.eqb_eq _ _)) by done.
  cbn [negb]. do 3 f_equal. rewrite Hn. cbn. f_equal. unfold ts_bytes. rewrite Hv.
  assert (Hlen : length d = length ivd) by (unfold zlen in *; lia).
  destruct (nonce_loop_lookup d ivd seq (ts_len n) (Z.to_nat (ts_len n))) as (Hl & Hge & Hlt);
    [rewrite Hnl; unfold zlen; lia|].
  apply list_eq. intros i. destruct (decide (i < length d)%nat) as [Hi|Hi].
  - rewrite Hlt by (rewrite Hnl; unfold zlen; lia). unfold record_nonce.
    rewrite lookup_zip_with. destruct (lookup_lt_is_Some_2 ivd i) as [x Hx]; [lia|]. rewrite Hx. cbn.
    rewrite (nth_lookup ivd), Hx. cbn.
    destruct (decide (Z.of_nat i < zlen ivd - 8)) as [Hp|Hp].
    + rewrite lookup_app_l by (unfold zeros; rewrite length_replicate; lia).
      unfold zeros. rewrite lookup_replicate_2 by lia. cbn. rewrite (proj2 (Z.leb_gt _ _)) by lia. done.
    + rewrite lookup_app_r by (unfold zeros; rewrite length_replicate; lia).
      unfold zeros. rewrite length_replicate. rewrite (proj2 (Z.leb_le _ _)) by lia.
      destruct (lookup_lt_is_Some_2 seq (i - Z.to_nat (zlen ivd - 8))) as [y Hy]; [unfold zlen in *; lia|].
      rewrite Hy. cbn. unfold znth. rewrite nth_lookup.
      replace (Z.to_nat (Z.of_nat i - ts_len n + 8)) with (i - Z.to_nat (zlen ivd - 8))%nat by lia. by rewrite Hy.
  - rewrite (lookup_ge_None_2 _ i) by lia. symmetry. apply lookup_ge_None_2. unfold record_nonce.
    rewrite length_zip_with. lia.
Qed.

Lemma zip_xor_injective l a b :
  length a = length l -> length b = length l -> zip_with Z.lxor l a = zip_with Z.lxor l b -> a = b.
Proof.
  revert a b. induction l as [|x l IH]; intros [|y a] [|z b] Ha Hb; try done.
  cbn. intros [= Hxy Ht]. cbn in *. f_equal.
  - apply (f_equal (Z.lxor x)) in Hxy. by rewrite <- !Z.lxor_assoc, Z.lxor_nilpotent, !Z.lxor_0_l in Hxy.
  - apply IH; (done || lia).
Qed.
Lemma record_nonce_injective v s1 s2 :
  8 <= zlen v -> zlen s1 = 8 -> zlen s2 = 8 -> record_nonce v s1 = record_nonce v s2 -> s1 = s2.
Proof.
  intros Hv H1 H2 HH. apply zip_xor_injective in HH.
  - by apply app_inv_head in HH.
  - unfold zeros. rewrite length_app, length_replicate. unfold zlen in *. lia.
  - unfold zeros. rewrite length_app, length_replicate. unfold zlen in *. lia.
Qed.
Lemma zlen_record_nonce v s : 8 <= zlen v -> zlen s = 8 -> zlen (record_nonce v s) = zlen v.
Proof.
  intros Hv Hs. unfold record_nonce, zlen, zeros in *. rewrite length_zip_with, length_app, length_replicate. lia.
Qed.

(** ** The messages built with CBB *)

Section Built.
Context `{Allocator}.

Lemma cbb_run_marshal (build : M store (list Z * Z)) cap m :
  (forall s, build s = cbb_marshal cap m s) -> wf_msg m -> 0 <= cap <= SIZE_MAX ->
  match cbb_run build with
  | Some data => encode m = Some data
  | None => forall bs, encode m = Some bs -> ~ room Grow (zlen bs)
  end.
Proof.
  intros Hb Hm Hc. unfold cbb_run. rewrite Hb. pose proof (cbb_marshal_spec cap m (mkStore None ∅) Hm Hc) as Hs.
  destruct (cbb_marshal cap m _) as [[[buf len]|] s']; [|done]. by destruct Hs.
Qed.

Definition plaintext_msg (ct v : Z) (content : list Z) : msg := UInt 1 ct (UInt 2 v (Prefixed 2 (Bytes content Done) Done)).
Lemma plaintext_record_marshal ct v content s :
  plaintext_record_build ct v content s = cbb_marshal (TLS13_RECORD_HEADER_LEN + zlen content) (plaintext_msg ct v content) s.
Proof.
  unfold plaintext_record_build, cbb_marshal, plaintext_msg. cbn [cbb_build add_uint add_prefixed].
  rewrite !bind_eq. destruct (CBB_init _ _ s) as [[[]|] s1]; [|done].
  rewrite !bind_eq. destruct (CBB_add_u8 _ _ s1) as [[[]|] s2]; [|done].
  rewrite !bind_eq. destruct (CBB_add_u16 _ _ s2) as [[[]|] s3]; [|done].
  rewrite !bind_eq. destruct (CBB_add_u16_length_prefixed _ _ s3) as [[[]|] s4]; [|done].
  rewrite !bind_eq. by destruct (CBB_add_bytes _ _ _ s4) as [[[]|] s5].
Qed.
Lemma inner_plaintext_marshal ct content s :
  inner_plaintext_build ct content s = cbb_marshal (zlen content + 1) (Bytes content (UInt 1 ct Done)) s.
Proof.
  unfold inner_plaintext_build, cbb_marshal. cbn [cbb_build add_uint].
  rewrite !bind_eq. destruct (CBB_init _ _ s) as [[[]|] s1]; [|done].
  rewrite !bind_eq. destruct (CBB_add_bytes _ _ _ s1) as [[[]|] s2]; [|done].
  rewrite !bind_eq. by destruct (CBB_add_u8 _ _ s2) as [[[]|] s3].
Qed.
Lemma record_header_marshal n s :
  record_header_build n s =
  cbb_marshal TLS13_RECORD_HEADER_LEN (UInt 1 SSL3_RT_APPLICATION_DATA (UInt 2 TLS1_2_VERSION (UInt 2 n Done))) s.
Proof.
  unfold record_header_build, cbb_marshal. cbn [cbb_build add_uint].
  rewrite !bind_eq. destruct (CBB_init _ _ s) as [[[]|] s1]; [|done].
  rewrite !bind_eq. destruct (CBB_add_u8 _ _ s1) as [[[]|] s2]; [|done].
  rewrite !bind_eq. destruct (CBB_add_u16 _ _ s2) as [[[]|] s3]; [|done].
  rewrite !bind_eq. by destruct (CBB_add_u16 _ _ s3) as [[[]|] s4].
Qed.

Lemma plaintext_record_spec ct v content :
  is_byte ct -> 0 <= v < 2 ^ 16 -> Forall is_byte content -> zlen content <= TLS13_RECORD_MAX_PLAINTEXT_LEN ->
  match cbb_run (plaintext_record_build ct v content) with
  | Some data => data = record_header ct v (zlen content) ++ content
  | None => ~ room Grow (5 + zlen content)
  end.
Proof.
  intros Hct Hv Hb Hl. rec_consts. unfold is_byte in Hct.
  assert (He : encode (plaintext_msg ct v content) = Some (record_header ct v (zlen content) ++ content)).
  { unfold plaintext_msg. cbn [encode mbind option_bind enc_prefix]. rewrite app_nil_r.
    change (256 ^ Z.of_nat 1) with 256. change (256 ^ Z.of_nat 2) with 65536. decide_cmp.
    cbn [mbind option_bind]. rewrite !app_nil_r. decide_cmp. cbn [mbind option_bind]. unfold record_header.
    by rewrite <- !app_assoc, ?app_nil_r. }
  pose proof (cbb_run_marshal _ _ _ (plaintext_record_marshal ct v content)) as Hr.
  specialize (Hr ltac:(cbn [wf_msg plaintext_msg]; unfold SIZE_MAX; split_and!; (done || lia))
    ltac:(unfold SIZE_MAX; rec_consts; zl)).
  destruct (cbb_run _) as [data|]; [congruence|]. specialize (Hr _ He). rewrite zlen_app, zlen_record_header in Hr. done.
Qed.

Lemma inner_plaintext_spec ct content :
  is_byte ct -> Forall is_byte content -> zlen content < SIZE_MAX ->
  match cbb_run (inner_plaintext_build ct content) with
  | Some data => data = content ++ [ct]
  | None => ~ room Grow (zlen content + 1)
  end.
Proof.
  intros Hct Hb Hl. unfold SIZE_MAX, is_byte in *.
  assert (He : encode (Bytes content (UInt 1 ct Done)) = Some (content ++ [ct])).
  { cbn [encode mbind option_bind]. change (256 ^ Z.of_nat 1) with 256. decide_cmp. cbn [mbind option_bind].
    by rewrite be_bytes_1. }
  pose proof (cbb_run_marshal _ _ _ (inner_plaintext_marshal ct content)) as Hr.
  specialize (Hr ltac:(cbn [wf_msg]; unfold SIZE_MAX; split_and!; (done || lia)) ltac:(unfold SIZE_MAX; zl)).
  destruct (cbb_run _) as [data|]; [congruence|]. specialize (Hr _ He). rewrite zlen_app in Hr. done.
Qed.

Lemma record_header_spec n :
  0 <= n < 2 ^ 16 ->
  match cbb_run (record_header_build n) with
  | Some data => data = record_header SSL3_RT_APPLICATION_DATA TLS1_2_VERSION n
  | None => ~ room Grow 5
  end.
Proof.
  intros Hn. set (m := UInt 1 SSL3_RT_APPLICATION_DATA (UInt 2 TLS1_2_VERSION (UInt 2 n Done))).
  assert (He : encode m = Some (record_header SSL3_RT_APPLICATION_DATA TLS1_2_VERSION n)).
  { unfold m. cbn [encode mbind option_bind]. change (256 ^ Z.of_nat 1) with 256. change (256 ^ Z.of_nat 2) with 65536.
    unfold SSL3_RT_APPLICATION_DATA, TLS1_2_VERSION. decide_cmp. cbn [mbind option_bind].
    unfold record_header. by rewrite app_nil_r. }
  pose proof (cbb_run_marshal _ _ m (record_header_marshal n)) as Hr.
  specialize (Hr ltac:(cbn [wf_msg m]; unfold SIZE_MAX, SSL3_RT_APPLICATION_DATA, TLS1_2_VERSION; split_and!; (done || lia))
    ltac:(unfold SIZE_MAX, TLS13_RECORD_HEADER_LEN; lia)).
  destruct (cbb_run _) as [data|]; [congruence|]. specialize (Hr _ He). by rewrite zlen_record_header in Hr.
Qed.

Lemma enc_record_spec header n s :
  0 <= n <= 2 ^ 16 -> zlen header = 5 -> 
  outcome (enc_record_build header n s)
    (fun r _ => r = (5, header ++ zeros n)) (~ room Grow (5 + n)).
Proof.
  intros Hn Hh. unfold enc_record_build. eapply outcome_bind; [apply CBB_init_spec; unfold SIZE_MAX, TLS13_RECORD_HEADER_LEN; lia|..].
  { intros Herr Hroom. apply Herr. eapply room_mono; [|exact Hroom]. lia. }
  intros [] s1 Hb1. eapply outcome_bind; [apply CBB_add_bytes_spec; [by apply builder_view|done|unfold SIZE_MAX; lia]| |].
  { intros Herr Hroom. apply (Herr _ eq_refl). eapply room_mono; [|exact Hroom]. cbn. zl. }
  intros [] s2 (? & [= <-] & Hb2). cbn [app] in Hb2.
  eapply outcome_bind; [apply CBB_add_space_spec; [by apply builder_view|unfold SIZE_MAX; lia]| |].
  { intros Herr Hroom. apply (Herr _ eq_refl). eapply room_mono; [|exact Hroom]. cbn. zl. }
  intros p s3 (? & [= <-] & -> & Hb3).
  eapply outcome_bind; [apply CBB_finish_spec; by apply builder_view| |].
  { intros Herr Hroom. apply (Herr _ eq_refl ltac:(done)). eapply room_mono; [|exact Hroom]. zl. }
  intros [buf len] s4 (? & [= <-] & _ & Ht & _). cbn in *. rewrite Ht. f_equal. lia.
Qed.
End Built.


(** ** Sealing *)

(** What the record layer relies on of an AEAD: opening undoes sealing with the same nonce and
    additional data when there is room for the result (evp/e_chacha20poly1305.c, evp/e_aes.c), for
    inputs of up to 2 GB. *)
Class AeadLaws `{Aead} := {
  aead_open_seal ctx max n inp ad out :
    Forall is_byte inp -> zlen inp < 2 ^ 31 ->
    EVP_AEAD_CTX_seal ctx max n inp ad = Some out -> EVP_AEAD_CTX_open ctx (zlen out) n out ad = Some inp;
  aead_tag_len a : 0 <= EVP_AEAD_max_tag_len a <= 255
}.

Section Seal.
Context `{Allocator} `{Hkdf} `{Aead} `{!AeadLaws}.

(** The protection in force: the AEAD context, the IV, and the number of records so far. *)
Definition protection (p : tls13_record_protection) (ctx : EVP_AEAD_CTX) (ivd : list Z) (s : Z) : Prop :=
  aead_ctx p = Some ctx /\ iv p = mkSecret (Some ivd) (zlen ivd) /\ 8 <= zlen ivd /\
  (exists nd, nonce p = mkSecret (Some nd) (zlen nd) /\ zlen nd = zlen ivd) /\
  seq_num p = be_bytes 8 s /\ 0 <= s < 2 ^ 64.

(** The nonce of record [s]. *)
Definition nonce_of (ivd : list Z) (s : Z) : list Z := record_nonce ivd (be_bytes 8 s).

Lemma inc_seq_num_count s :
  0 <= s < 2 ^ 64 ->
  tls13_record_layer_inc_seq_num (be_bytes 8 s) =
    (if s =? 2 ^ 64 - 1 then (None, be_bytes 8 s) else (Some tt, be_bytes 8 (s + 1))).
Proof.
  intros Hs. assert (Hv : forall t, 0 <= t < 2 ^ 64 -> be_val (be_bytes 8 t) = t) by (intros; by apply be_val_inj).
  pose proof (inc_seq_num_spec (be_bytes 8 s)) as Hi.
  specialize (Hi ltac:(split; [by rewrite zlen_be_bytes|apply be_bytes_bytes])).
  destruct (tls13_record_layer_inc_seq_num _) as [[[]|] seq']; rewrite Hv in Hi by done.
  - destruct Hi as [[Hl Hb] Hval]. assert (s + 1 < 2 ^ 64).
    { pose proof (be_val_bound seq' Hb) as Hbd. rewrite Hl in Hbd. change (256 ^ 8) with (2 ^ 64) in Hbd. lia. }
    decide_cmp. f_equal. apply be_val_injective; [done|apply be_bytes_bytes| |rewrite Hv; lia].
    pose proof (zlen_be_bytes 8 (s + 1)). unfold zlen in *. lia.
  - destruct Hi as [-> ->]. done.
Qed.

Lemma protection_update_nonce p ctx ivd s :
  protection p ctx ivd s ->
  tls13_record_layer_update_nonce (iv p) (seq_num p) (nonce p) =
    (Some tt, mkSecret (Some (nonce_of ivd s)) (zlen (nonce_of ivd s))).
Proof.
  intros (Hc & Hv & H8 & (nd & Hn & Hnl) & Hs & Hr).
  rewrite Hv, Hs, Hn. rewrite (update_nonce_spec _ _ _ nd ivd) by (done || by rewrite zlen_be_bytes).
  cbn [ts_len]. unfold nonce_of. by rewrite zlen_record_nonce, Hnl by (done || by rewrite zlen_be_bytes).
Qed.
Lemma protection_nonce p ctx ivd s n :
  protection p ctx ivd s -> n = nonce_of ivd s -> protection (p <|nonce := mkSecret (Some n) (zlen n)|>) ctx ivd s.
Proof.
  intros (Hc & Hv & H8 & (nd & Hn & Hnl) & Hs & Hr) ->. unfold protection. rl_simpl. split_and!; try done; try lia.
  eexists. split; [done|]. apply zlen_record_nonce; [done|by rewrite zlen_be_bytes].
Qed.
Lemma protection_next p ctx ivd s :
  protection p ctx ivd s -> s < 2 ^ 64 - 1 -> protection (p <|seq_num := be_bytes 8 (s + 1)|>) ctx ivd (s + 1).
Proof. intros (Hc & Hv & H8 & Hn & Hs & Hr) Hlt. unfold protection. rl_simpl. split_and!; (done || lia). Qed.

(** A complete record ready to be sent. *)
Definition to_send (r : option tls13_record) (data : list Z) : Prop :=
  exists wr, r = Some wr /\ rec_data wr = Some data /\ rec_data_len wr = zlen data /\ rec_cbs wr = CBS_init data (zlen data).

(** RFC 8446 section 5.2: the protected form of [content] as record [s]. *)
Definition protected_header (a : EVP_AEAD) (content : list Z) : list Z :=
  record_header SSL3_RT_APPLICATION_DATA TLS1_2_VERSION (zlen content + 1 + EVP_AEAD_max_tag_len a).
Definition protect (a : EVP_AEAD) (ctx : EVP_AEAD_CTX) (ivd : list Z) (s ct : Z) (content : list Z) : option (list Z) :=
  let header := protected_header a content in
  let len := zlen content + 1 + EVP_AEAD_max_tag_len a in
  out ← EVP_AEAD_CTX_seal ctx len (nonce_of ivd s) (content ++ [ct]) header;
  if zlen out =? len then Some (header ++ out) else None.

(** No allocation fails. *)
Definition heap_ok : Prop := room Grow TLS13_RECORD_MAX_LEN.

Lemma heap_room n : heap_ok -> n <= TLS13_RECORD_MAX_LEN -> room Grow n.
Proof. intros Hh Hn. by eapply room_mono. Qed.

Lemma set_wrec_data_spec wr data ct n rl :
  zlen data <= TLS13_RECORD_MAX_LEN ->
  exists wr', set_wrec_data wr data ct n rl =
      (Some tt, rl<|wrec := Some wr'|><|wrec_content_len := n|><|wrec_content_type := ct|>) /\ to_send (Some wr') data.
Proof.
  intros Hl. unfold set_wrec_data, tls13_record_set_data. rewrite (proj2 (Z.ltb_ge _ _)) by done.
  eexists. split; [done|]. eexists. by split_and!.
Qed.

(** What sealing leaves alone: everything but the record to be sent and the write nonce and
    sequence number. *)
Definition same_but_write (rl rl' : tls13_record_layer) : Prop :=
  rl' = rl<|write := write rl'|><|wrec := wrec rl'|><|wrec_content_len := wrec_content_len rl'|>
          <|wrec_content_type := wrec_content_type rl'|>.

Lemma seal_record_protected_spec wr ct content rl a ctx ivd s :
  aead rl = Some a -> protection (write rl) ctx ivd s -> is_byte ct -> Forall is_byte content ->
  zlen content <= TLS13_RECORD_MAX_PLAINTEXT_LEN ->
  let '(r, rl') := tls13_record_layer_seal_record_protected wr ct content rl in
  same_but_write rl rl' /\
  match r with
  | Some _ => exists data, protect a ctx ivd s ct content = Some data /\ s < 2 ^ 64 - 1 /\
      to_send (wrec rl') data /\ protection (write rl') ctx ivd (s + 1) /\
      ts_bytes (nonce (write rl')) = nonce_of ivd s /\
      wrec_content_type rl' = ct /\ wrec_content_len rl' = zlen content
  | None => (protect a ctx ivd s ct content = None \/ s = 2 ^ 64 - 1 \/ ~ heap_ok) /\
      wrec rl' = wrec rl /\ protection (write rl') ctx ivd s
  end.
Proof.
  intros Ha Hp Hct Hb Hl. unfold tls13_record_layer_seal_record_protected. rewrite Ha.
  assert (Hsame : same_but_write rl rl) by (destruct rl; done).
  pose proof (aead_tag_len a) as Htag. pose proof (zlen_nonneg content) as Hnn.
  assert (Herr : ~ heap_ok -> protect a ctx ivd s ct content = None \/ s = 2 ^ 64 - 1 \/ ~ heap_ok) by tauto.
  pose proof (inner_plaintext_spec ct content Hct Hb ltac:(unfold SIZE_MAX; rec_consts; lia)) as Hin.
  destruct (cbb_run (inner_plaintext_build _ _)) as [inner|].
  2: { split; [done|]. split_and!; [|done..]. apply Herr. intros Hh. apply Hin, heap_room; [done|]. rec_consts; lia. }
  subst inner. rewrite zlen_app. change (zlen [ct]) with 1. rec_consts. decide_cmp.
  pose proof (record_header_spec (zlen content + 1 + EVP_AEAD_max_tag_len a) ltac:(lia)) as Hhd.
  destruct (cbb_run (record_header_build _)) as [header|].
  2: { split; [done|]. split_and!; [|done..]. apply Herr. intros Hh. apply Hhd, heap_room; [done|]. rec_consts; lia. }
  fold (protected_header a content) in Hhd. subst header.
  pose proof (enc_record_spec (protected_header a content) (zlen content + 1 + EVP_AEAD_max_tag_len a) (mkStore None ∅)
    ltac:(lia) ltac:(apply zlen_record_header)) as Hen.
  destruct (enc_record_build _ _ _) as [[[pos buf]|] s']; cbn [outcome fst] in Hen |- *.
  2: { split; [done|]. split_and!; [|done..]. apply Herr. intros Hh. apply Hen, heap_room; [done|]. rec_consts; lia. }
  apply pair_equal_spec in Hen as [-> ->]. clear s'. rewrite (protection_update_nonce _ _ _ _ Hp).
  set (rl1 := rl <|write := _|>).
  assert (Hw1 : write rl1 = (write rl)<|nonce := mkSecret (Some (nonce_of ivd s)) (zlen (nonce_of ivd s))|>) by reflexivity.
  assert (Hp1 : protection (write rl1) ctx ivd s) by (rewrite Hw1; by apply (protection_nonce _ _ _ _ _ Hp)).
  assert (Hs1 : same_but_write rl rl1) by (destruct rl; done).
  assert (Hx1 : wrec rl1 = wrec rl) by (destruct rl; done).
  rewrite (proj1 Hp1). cbn [mbind option_bind]. unfold protect. cbn [ts_bytes ts_data].
  destruct (EVP_AEAD_CTX_seal _ _ _ _ _) as [out|]; cbn [mbind option_bind]; [|split_and!; try done; by left].
  destruct (Z.eqb_spec (zlen out) (zlen content + 1 + EVP_AEAD_max_tag_len a)) as [Hlen|Hlen]; cbn [negb].
  2: { split_and!; try done. by left. }
  destruct Hp1 as (Hc1 & Hv1 & H81 & Hn1 & Hq1 & Hr1). rewrite Hq1, inc_seq_num_count by done.
  destruct (Z.eqb_spec s (2 ^ 64 - 1)) as [Hmax|Hmax].
  { split_and!; try done. by right; left. }
  replace (overwrite _ 5 out) with (protected_header a content ++ out).
  2: { symmetry. unfold overwrite. rewrite ztake_app_eq by (symmetry; apply zlen_record_header).
       rewrite zdrop_ge; [by rewrite app_nil_r|]. rewrite zlen_app, zlen_zeros by lia.
       unfold protected_header. rewrite zlen_record_header. lia. }
  destruct (set_wrec_data_spec wr (protected_header a content ++ out) ct (zlen content)
    (rl1<|write := (write rl1)<|seq_num := be_bytes 8 (s + 1)|>|>)) as (wr' & -> & Hsend).
  { rewrite zlen_app. unfold protected_header. rewrite zlen_record_header. rec_consts. lia. }
  split; [by destruct rl|]. eexists. split; [done|]. split; [lia|]. split; [exact Hsend|].
  split; [apply protection_next; [|lia]; rewrite Hw1; by apply (protection_nonce _ _ _ _ _ Hp)|]. done.
Qed.

(** Why [tls13_record_layer_seal_record] may fail. *)
Definition seal_error (rl : tls13_record_layer) (ctx : EVP_AEAD_CTX) (ivd : list Z) (s ct : Z) (content : list Z) : Prop :=
  (handshake_completed rl = true /\ (aead rl = None \/ ct = SSL3_RT_CHANGE_CIPHER_SPEC)) \/
  (exists a, aead rl = Some a /\ protect a ctx ivd s ct content = None) \/ s = 2 ^ 64 - 1 \/
  tls13_record_new = None \/ ~ heap_ok.

(** A record that was sealed: in the clear before there are keys, or protected. *)
Definition sealed (rl : tls13_record_layer) (ctx : EVP_AEAD_CTX) (ivd : list Z) (s ct : Z) (content : list Z)
    (rl' : tls13_record_layer) : Prop :=
  if (if aead rl is None then true else false) || (ct =? SSL3_RT_CHANGE_CIPHER_SPEC) then
    handshake_completed rl = false /\ write rl' = write rl /\
    to_send (wrec rl') (record_header ct (legacy_version rl) (zlen content) ++ content)
  else exists a data, aead rl = Some a /\ protect a ctx ivd s ct content = Some data /\ s < 2 ^ 64 - 1 /\
    to_send (wrec rl') data /\ protection (write rl') ctx ivd (s + 1) /\ ts_bytes (nonce (write rl')) = nonce_of ivd s.

Lemma seal_record_plaintext_spec wr ct content rl :
  is_byte ct -> Forall is_byte content -> zlen content <= TLS13_RECORD_MAX_PLAINTEXT_LEN ->
  0 <= legacy_version rl < 2 ^ 16 -> aead rl = None \/ ct = SSL3_RT_CHANGE_CIPHER_SPEC ->
  let '(r, rl') := tls13_record_layer_seal_record_plaintext wr ct content rl in
  match r with
  | Some _ => handshake_completed rl = false /\ same_but_write rl rl' /\ write rl' = write rl /\
      to_send (wrec rl') (record_header ct (legacy_version rl) (zlen content) ++ content) /\
      wrec_content_type rl' = ct /\ wrec_content_len rl' = zlen content
  | None => (handshake_completed rl = true \/ ~ heap_ok) /\ rl' = rl
  end.
Proof.
  intros Hct Hb Hl Hv Hcl. unfold tls13_record_layer_seal_record_plaintext.
  destruct (handshake_completed rl) eqn:Eh; [by auto|].
  replace (_ && _) with false by (destruct Hcl as [-> | ->]; [done|by destruct (aead rl)]).
  pose proof (plaintext_record_spec ct _ content Hct Hv Hb Hl) as Hp.
  destruct (cbb_run _) as [data|].
  2: { split; [|done]. right. intros Hh. apply Hp, heap_room; [done|]. rec_consts; lia. }
  subst data. edestruct set_wrec_data_spec as (wr' & -> & Hs).
  { rewrite zlen_app, zlen_record_header. rec_consts. lia. }
  split_and!; try done.
Qed.

Lemma seal_record_spec ct content rl ctx ivd s :
  is_byte ct -> Forall is_byte content -> zlen content <= TLS13_RECORD_MAX_PLAINTEXT_LEN ->
  0 <= legacy_version rl < 2 ^ 16 -> (forall a, aead rl = Some a -> protection (write rl) ctx ivd s) ->
  let '(r, rl') := tls13_record_layer_seal_record ct content rl in
  same_but_write rl rl' /\
  match r with
  | Some _ => sealed rl ctx ivd s ct content rl' /\ wrec_content_type rl' = ct /\ wrec_content_len rl' = zlen content
  | None => seal_error rl ctx ivd s ct content /\
      (wrec rl' = wrec rl \/ wrec rl' = None \/ exists wr, wrec rl' = Some wr /\ rec_data wr = None) /\
      forall a, aead rl = Some a -> protection (write rl') ctx ivd s
  end.
Proof.
  intros Hct Hb Hl Hv Hp. unfold tls13_record_layer_seal_record, sealed, seal_error.
  destruct (handshake_completed rl && _) eqn:E.
  { apply andb_true_iff in E as [E1 E2]. destruct (aead rl) eqn:Ea; [done|]. split; [by destruct rl|].
    split_and!; [by auto|by auto|done]. }
  destruct tls13_record_new as [wr|] eqn:En.
  2: { split; [by destruct rl|]. split_and!; [by auto 6|by auto|done]. }
  assert (Hd : rec_data wr = None).
  { unfold tls13_record_new in En. destruct (malloc_ok _); [|done]. destruct (tls13_buffer_new _); [|done].
    by injection En as <-. }
  set (rl1 := (tls13_record_layer_wrec_free rl)<|wrec := Some wr|>).
  assert (Ha1 : aead rl1 = aead rl) by reflexivity. assert (Hw1 : write rl1 = write rl) by reflexivity.
  assert (Hsame : forall rl', same_but_write rl1 rl' -> same_but_write rl rl').
  { intros rl' ->. by destruct rl. }
  rewrite Ha1. destruct (_ || _) eqn:Eo.
  - assert (Hcl : aead rl = None \/ ct = SSL3_RT_CHANGE_CIPHER_SPEC).
    { apply orb_true_iff in Eo as [Eo|Eo]; [left; by destruct (aead rl)|right; lia]. }
    pose proof (seal_record_plaintext_spec wr ct content rl1 Hct Hb Hl Hv Hcl) as Hs.
    destruct (tls13_record_layer_seal_record_plaintext _ _ _ _) as [[[]|] rl'].
    + destruct Hs as (Hh & Hsm & Hw & Hto & ? & ?). rewrite Hw1 in Hw. by split_and!; [apply Hsame|..].
    + destruct Hs as [Hs ->]. split; [apply Hsame; by destruct rl|]. split_and!; [destruct Hs; by auto 6| |done].
      right. right. by exists wr.
  - apply orb_false_iff in Eo as [Eo Ec]. destruct (aead rl) as [a|] eqn:Ea; [|done].
    pose proof (seal_record_protected_spec wr ct content rl1 a ctx ivd s Ha1 (Hp a eq_refl) Hct Hb Hl) as Hs.
    destruct (tls13_record_layer_seal_record_protected _ _ _ _) as [[[]|] rl']; destruct Hs as [Hsm Hs]; split; try by apply Hsame.
    + destruct Hs as (data & ? & ? & ? & ? & ? & ? & ?). by split; [exists a, data|].
    + destruct Hs as (He & Hwr & Hpr). split_and!.
      * destruct He as [?|[?|?]]; [right; left; by exists a|by auto 6|by auto 6].
      * right. right. by exists wr.
      * intros ? [= <-]. done.
Qed.

(** ** Opening *)

Lemma last_nonzero_app l k n : (n <= length l)%nat -> last_nonzero (l ++ k) n = last_nonzero l n.
Proof.
  induction n as [|n IH]; intros Hn; [done|]. cbn. rewrite app_nth1 by lia. rewrite IH by lia. done.
Qed.
(** The padding is skipped, and the byte before it is the content type. *)
Lemma last_nonzero_padded c ct k :
  ct <> 0 -> last_nonzero (c ++ ct :: replicate k 0) (length (c ++ ct :: replicate k 0)) = zlen c.
Proof.
  intros Hct. induction k as [|k IH].
  - cbn [replicate]. rewrite length_app. cbn [length]. rewrite Nat.add_1_r. cbn [last_nonzero].
    rewrite app_nth2, Nat.sub_diag by lia. cbn [nth]. by rewrite (proj2 (Z.eqb_neq _ _)) by done.
  - rewrite replicate_S_end, (app_comm_cons (replicate k 0) [0] ct), app_assoc.
    set (l := c ++ ct :: replicate k 0) in *. rewrite length_app. cbn [length]. rewrite Nat.add_1_r. cbn [last_nonzero].
    rewrite app_nth2, Nat.sub_diag by lia. cbn [nth]. by rewrite Z.eqb_refl, last_nonzero_app by lia.
Qed.
Lemma last_nonzero_spec l :
  (last_nonzero l (length l) = -1 /\ Forall (eq 0) l) \/
  exists c ct k, l = c ++ ct :: replicate k 0 /\ ct <> 0 /\ last_nonzero l (length l) = zlen c.
Proof.
  induction l as [|x l IH] using rev_ind; [by left|]. rewrite length_app, Nat.add_1_r. cbn [last_nonzero].
  rewrite app_nth2, Nat.sub_diag by lia. cbn [nth]. rewrite last_nonzero_app by done.
  destruct (Z.eqb_spec x 0) as [-> | Hx].
  - destruct IH as [[-> Hz]|(c & ct & k & -> & Hct & ->)].
    + left. split; [done|]. apply Forall_app. split; [done|by repeat constructor].
    + right. exists c, ct, (S k). by rewrite replicate_S_end, <- app_assoc, app_comm_cons.
  - right. by exists l, x, 0%nat.
Qed.

Lemma padded_unique c ct k c' ct' k' :
  ct <> 0 -> ct' <> 0 -> c ++ ct :: replicate k 0 = c' ++ ct' :: replicate k' 0 -> c = c' /\ ct = ct'.
Proof.
  intros Hc Hc' He. pose proof (last_nonzero_padded c ct k Hc) as Hl. rewrite He, last_nonzero_padded in Hl by done.
  apply app_inj_1 in He as [-> [= -> _]]; [done|]. unfold zlen in Hl. lia.
Qed.

(** The plaintext a reader finds. *)
Definition plaintext (rl : tls13_record_layer) (ct : Z) (content : list Z) : Prop :=
  rbuf rl = Some content /\ rbuf_len rl = zlen content /\ rbuf_content_type rl = ct /\
  rbuf_cbs rl = CBS_init content (zlen content).

Lemma received_parts rec t v n body :
  received rec t v n body ->
  tls13_record_header rec = Some (CBS_init (record_header t v n) 5) /\
  exists i, tls13_record_content rec = Some (mkCBS body i n).
Proof.
  intros (Hd & Hb & Hl & _ & _ & Hn & _). pose proof (zlen_record_header t v n) as Hh.
  unfold tls13_record_header, tls13_record_content, tls13_record_data, rec_bytes. rewrite Hd, Hl.
  rec_consts. decide_cmp. rewrite ztake_app_eq by done. split; [done|].
  replace (CBS_init _ (5 + n)) with (rd (5 + n) (record_header t v n ++ body)).
  - unfold CBS_skip. erewrite bind_some by (by apply cbs_get_ok). unfold CBS_dup, rd. cbn. rewrite Hb. by eexists.
  - unfold rd, CBS_init. rewrite zlen_app. do 2 f_equal; lia.
Qed.

(** [rbuf] is as it was. *)
Definition same_rbuf (rl rl' : tls13_record_layer) : Prop :=
  rbuf rl' = rbuf rl /\ rbuf_len rl' = rbuf_len rl /\ rbuf_content_type rl' = rbuf_content_type rl /\ rbuf_cbs rl' = rbuf_cbs rl.

(** What opening leaves alone: everything but the plaintext, the alert to send, and the read
    nonce and sequence number. *)
Definition same_but_read (rl rl' : tls13_record_layer) : Prop :=
  rl' = rl<|read := read rl'|><|alert := alert rl'|><|rbuf_cbs := rbuf_cbs rl'|><|rbuf := rbuf rl'|>
          <|rbuf_len := rbuf_len rl'|><|rbuf_content_type := rbuf_content_type rl'|>.

(** What opening a protected record may find. *)
Definition open_result (ctx : EVP_AEAD_CTX) (ivd : list Z) (s t v n : Z) (body : list Z) : option (list Z) :=
  EVP_AEAD_CTX_open ctx n (nonce_of ivd s) body (record_header t v n).

Lemma open_record_protected_spec rl rec t v n body a ctx ivd s :
  aead rl = Some a -> protection (read rl) ctx ivd s -> received rec t v n body ->
  let '(r, rl') := tls13_record_layer_open_record_protected rec rl in
  same_but_read rl rl' /\
  match r with
  | Some _ => exists c ct k, open_result ctx ivd s t v n body = Some (c ++ ct :: replicate k 0) /\ ct <> 0 /\
      zlen c <= TLS13_RECORD_MAX_PLAINTEXT_LEN /\ protection (read rl') ctx ivd (s + 1) /\ plaintext rl' ct c
  | None => same_rbuf rl rl' /\
      match open_result ctx ivd s t v n body with
      | None => protection (read rl') ctx ivd s
      | Some inner => malloc_ok n = false \/ TLS13_RECORD_MAX_INNER_PLAINTEXT_LEN < zlen inner \/ Forall (eq 0) inner \/ s = 2 ^ 64 - 1
      end
  end.
Proof.
  intros Ha Hp Hrec. unfold tls13_record_layer_open_record_protected, open_result. rewrite Ha.
  destruct (received_parts _ _ _ _ _ Hrec) as [-> [i ->]]. cbn [CBS_len cbs_len CBS_data cbs_data CBS_init].
  assert (Hsame : same_rbuf rl rl) by done.
  destruct (malloc_ok n) eqn:Em; cbn [negb].
  2: { split; [by destruct rl|]. split; [done|]. destruct (EVP_AEAD_CTX_open _ _ _ _ _); by auto. }
  rewrite (protection_update_nonce _ _ _ _ Hp). set (rl1 := rl <|read := _|>).
  assert (Hr1 : read rl1 = (read rl)<|nonce := mkSecret (Some (nonce_of ivd s)) (zlen (nonce_of ivd s))|>) by reflexivity.
  assert (Hp1 : protection (read rl1) ctx ivd s) by (rewrite Hr1; by apply (protection_nonce _ _ _ _ _ Hp)).
  rewrite (proj1 Hp1). cbn [mbind option_bind ts_bytes ts_data]. unfold ts_bytes. cbn [ts_data].
  destruct (EVP_AEAD_CTX_open _ _ _ _ _) as [inner|]; [|by split; [destruct rl|]].
  destruct (Z.ltb_spec TLS13_RECORD_MAX_INNER_PLAINTEXT_LEN (zlen inner)) as [Hbig|Hsmall]; [split; [by destruct rl|by auto 6]|].
  destruct (proj2 (proj2 (proj2 (proj2 Hp1)))) as [Hq Hs]. rewrite Hq, inc_seq_num_count by done.
  destruct (Z.eqb_spec s (2 ^ 64 - 1)) as [Hmax|Hmax]; [split; [by destruct rl|by auto 8]|].
  replace (Z.to_nat (zlen inner)) with (length inner) by (unfold zlen; lia).
  destruct (last_nonzero_spec inner) as [[-> Hz]|(c & ct & k & -> & Hct & ->)].
  { cbn [Z.ltb Z.compare]. split; [by destruct rl|by auto 8]. }
  rewrite (proj2 (Z.ltb_ge _ _)) by zl. rewrite zlen_app, zlen_cons, zlen_replicate in Hsmall.
  rewrite (proj2 (Z.ltb_ge _ _)) by (rec_consts; lia).
  split; [by destruct rl|]. exists c, ct, k. split; [done|]. split; [done|]. split; [rec_consts; lia|].
  rewrite ztake_app_eq, znth_app_at by done. split; [|done].
  change (protection ((read rl1)<|seq_num := be_bytes 8 (s + 1)|>) ctx ivd (s + 1)). apply protection_next; [done|lia].
Qed.

(** ** Runs of records *)

(** Seal these messages one after the other: the nonce and the bytes of each record. *)
Fixpoint seal_run (ms : list (Z * list Z)) (rl : tls13_record_layer) : option (list (list Z * list Z) * tls13_record_layer) :=
  match ms with
  | [] => Some ([], rl)
  | (ct, content) :: ms =>
      match tls13_record_layer_seal_record ct content rl with
      | (None, _) => None
      | (Some _, rl) =>
          wr ← wrec rl; '(rs, rl') ← seal_run ms rl;
          Some ((ts_bytes (nonce (write rl)), rec_bytes wr) :: rs, rl')
      end
  end.
(** Open these records one after the other: the type and the contents of each. *)
Fixpoint open_run (recs : list tls13_record) (rl : tls13_record_layer) : option (list (Z * list Z) * tls13_record_layer) :=
  match recs with
  | [] => Some ([], rl)
  | rec :: recs =>
      match tls13_record_layer_open_record rec rl with
      | (None, _) => None
      | (Some _, rl) =>
          '(ms, rl') ← open_run recs rl;
          Some ((rbuf_content_type rl, CBS_data (rbuf_cbs rl)) :: ms, rl')
      end
  end.

(** A message to be protected: any type but ChangeCipherSpec and 0, at most 2^14 bytes. *)
Definition message (m : Z * list Z) : Prop :=
  is_byte m.1 /\ m.1 <> 0 /\ m.1 <> SSL3_RT_CHANGE_CIPHER_SPEC /\ Forall is_byte m.2 /\ zlen m.2 <= TLS13_RECORD_MAX_PLAINTEXT_LEN.

Lemma seal_message rl rl' ct content a ctx ivd s :
  message (ct, content) -> 0 <= legacy_version rl < 2 ^ 16 -> aead rl = Some a -> protection (write rl) ctx ivd s ->
  tls13_record_layer_seal_record ct content rl = (Some tt, rl') ->
  exists data wr, protect a ctx ivd s ct content = Some data /\ s < 2 ^ 64 - 1 /\ wrec rl' = Some wr /\
    rec_data wr = Some data /\ ts_bytes (nonce (write rl')) = nonce_of ivd s /\ protection (write rl') ctx ivd (s + 1) /\
    aead rl' = Some a /\ legacy_version rl' = legacy_version rl.
Proof.
  intros (Hct & Hnz & Hccs & Hb & Hl) Hv Ha Hp Hs. cbn [fst snd] in *.
  pose proof (seal_record_spec ct content rl ctx ivd s Hct Hb Hl Hv (fun _ _ => Hp)) as Hss. rewrite Hs in Hss.
  destruct Hss as (Hsame & Hsd & _). unfold sealed in Hsd. rewrite Ha, (proj2 (Z.eqb_neq _ _)) in Hsd by done.
  destruct Hsd as (? & data & [= <-] & Hd & Hlt & (wr & Hwr & Hwd & _) & Hp' & Hn).
  exists data, wr. split_and!; try done; rewrite Hsame; by destruct rl.
Qed.

(** The nonces and bytes of records [s], [s + 1], ... *)
Fixpoint sealed_from (a : EVP_AEAD) (ctx : EVP_AEAD_CTX) (ivd : list Z) (s : Z) (ms : list (Z * list Z)) (rs : list (list Z * list Z)) : Prop :=
  match ms, rs with
  | [], [] => True
  | m :: ms, r :: rs =>
      r.1 = nonce_of ivd s /\ protect a ctx ivd s m.1 m.2 = Some r.2 /\ s < 2 ^ 64 - 1 /\ sealed_from a ctx ivd (s + 1) ms rs
  | _, _ => False
  end.

Lemma seal_run_spec ms rl rs rl' a ctx ivd s :
  Forall message ms -> 0 <= legacy_version rl < 2 ^ 16 -> aead rl = Some a -> protection (write rl) ctx ivd s ->
  seal_run ms rl = Some (rs, rl') -> protection (write rl') ctx ivd (s + zlen ms) /\ sealed_from a ctx ivd s ms rs.
Proof.
  revert rl rs s. induction ms as [|[ct content] ms IH]; intros rl rs s Hms Hv Ha Hp Hr.
  { apply (inj Some), pair_equal_spec in Hr as [<- <-]. by rewrite zlen_nil, Z.add_0_r. }
  apply Forall_cons in Hms as [Hm Hms]. cbn [seal_run] in Hr.
  destruct (tls13_record_layer_seal_record _ _ _) as [[[]|] rl1] eqn:Hs; [|done].
  destruct (seal_message _ _ _ _ _ _ _ _ Hm Hv Ha Hp Hs) as (data & wr & Hd & Hlt & Hwr & Hwd & Hn & Hp1 & Ha1 & Hv1).
  rewrite Hwr in Hr. cbn [mbind option_bind] in Hr. destruct (seal_run ms rl1) as [[rs1 rl2]|] eqn:Hrun; [|done].
  apply (inj Some), pair_equal_spec in Hr as [<- <-]. rewrite <- Hv1 in Hv.
  destruct (IH _ _ _ Hms Hv Ha1 Hp1 Hrun) as [Hp2 Hall]. rewrite zlen_cons, Z.add_assoc. split; [done|].
  cbn [sealed_from fst snd]. unfold rec_bytes. by rewrite Hwd.
Qed.

Lemma sealed_from_nonces a ctx ivd s ms rs :
  8 <= zlen ivd -> 0 <= s -> sealed_from a ctx ivd s ms rs ->
  NoDup rs.*1 /\ Forall (fun n => exists i, s <= i < 2 ^ 64 /\ n = nonce_of ivd i) rs.*1.
Proof.
  intros Hi. revert rs s. induction ms as [|m ms IH]; intros [|r rs] s Hs Hf; try done.
  { split; constructor. }
  destruct Hf as (Hn & _ & Hlt & Hf). destruct (IH rs (s + 1) ltac:(lia) Hf) as [Hnd Hall]. cbn [fmap list_fmap]. split.
  - constructor; [|done]. intros Hin. rewrite Forall_forall in Hall. destruct (Hall _ Hin) as (i & Hir & Hni).
    rewrite Hn in Hni. apply record_nonce_injective in Hni; [|done|by rewrite zlen_be_bytes..].
    apply (f_equal be_val) in Hni. rewrite !be_val_inj in Hni by (change (256 ^ Z.of_nat 8) with (2 ^ 64); lia). lia.
  - constructor; [exists s; split; [lia|done]|]. eapply Forall_impl; [exact Hall|]. intros n (i & Hir & ->).
    exists i. split; [lia|done].
Qed.

(** The receiver opens record [s] of the sender. *)
Lemma open_sealed rl rec t v n body a a' ctx ivd s m data :
  aead rl = Some a' -> protection (read rl) ctx ivd s -> s < 2 ^ 64 - 1 -> message m -> protect a ctx ivd s m.1 m.2 = Some data ->
  received rec t v n body -> rec_data rec = Some data -> malloc_ok n = true ->
  exists rl', tls13_record_layer_open_record rec rl = (Some tt, rl') /\ aead rl' = Some a' /\
    protection (read rl') ctx ivd (s + 1) /\ plaintext rl' m.1 m.2.
Proof.
  intros Ha Hp Hs (Hct & Hnz & Hccs & Hb & Hl) Hd Hrec Hdata Hm.
  assert (Hopen : open_result ctx ivd s t v n body = Some (m.2 ++ m.1 :: replicate 0 0)).
  { unfold protect in Hd. destruct (EVP_AEAD_CTX_seal _ _ _ _ _) as [out|] eqn:Hseal; [|done]. cbn [mbind option_bind] in Hd.
    destruct (Z.eqb_spec (zlen out) (zlen m.2 + 1 + EVP_AEAD_max_tag_len a)) as [Hlen|]; [|done].
    apply (inj Some) in Hd as <-. destruct Hrec as (Hd2 & Hbl & _). rewrite Hd2 in Hdata. apply (inj Some) in Hdata.
    apply app_inj_1 in Hdata as [Hh <-].
    2: { apply Nat2Z.inj. fold (zlen (record_header t v n)). fold (zlen (protected_header a m.2)).
         unfold protected_header. by rewrite !zlen_record_header. }
    unfold open_result. rewrite Hh, <- Hbl. apply aead_open_seal in Hseal; [done| |].
    - apply Forall_app. split; [done|]. by constructor.
    - rewrite zlen_app, zlen_cons, zlen_nil. rec_consts. lia. }
  unfold tls13_record_layer_open_record. rewrite Ha.
  pose proof (open_record_protected_spec rl rec t v n body a' ctx ivd s Ha Hp Hrec) as Ho.
  destruct (tls13_record_layer_open_record_protected rec rl) as [[[]|] rl'] eqn:Er; destruct Ho as [Hsame Ho]; rewrite Hopen in Ho.
  - destruct Ho as (c & ct & k & Hres & Hnz' & _ & Hp' & Hpl). apply (inj Some), padded_unique in Hres as [-> ->]; [|done..].
    exists rl'. split_and!; try done. rewrite Hsame. by destruct rl.
  - exfalso. destruct Ho as (_ & [Hf|[Hf|[Hf|Hf]]]); [congruence| | |lia].
    + rewrite zlen_app, zlen_cons in Hf. cbn [replicate] in Hf. rewrite zlen_nil in Hf. rec_consts. lia.
    + apply Forall_app in Hf as [_ Hf]. apply Forall_cons_1 in Hf as [Hf _]. congruence.
Qed.

(** The bytes of a record have been received. *)
Definition record_of (data : list Z) (rec : tls13_record) : Prop :=
  rec_data rec = Some data /\ exists t v n body, received rec t v n body.

Lemma open_run_spec ms rl recs rs a a' ctx ivd s :
  Forall message ms -> aead rl = Some a' -> protection (read rl) ctx ivd s -> sealed_from a ctx ivd s ms rs ->
  Forall2 record_of rs.*2 recs -> (forall n, malloc_ok n = true) ->
  exists rl', open_run recs rl = Some (ms, rl') /\ protection (read rl') ctx ivd (s + zlen ms).
Proof.
  intros Hms Ha Hp Hf Hrecs Hm. revert rl rs recs s Ha Hp Hf Hrecs.
  induction ms as [|[ct content] ms IH]; intros rl [|r rs] recs s Ha Hp Hf Hrecs; try done.
  { inversion Hrecs; subst. exists rl. by rewrite zlen_nil, Z.add_0_r. }
  apply Forall_cons in Hms as [Hmsg Hms]. destruct Hf as (_ & Hd & Hlt & Hf).
  inversion Hrecs as [|? rec ? recs' (Hrd & t & v & n & body & Hrec) Hrecs']; subst.
  destruct (open_sealed rl rec t v n body a a' ctx ivd s _ _ Ha Hp Hlt Hmsg Hd Hrec Hrd (Hm n)) as (rl1 & Ho & Ha1 & Hp1 & Hpl).
  destruct (IH Hms rl1 rs recs' (s + 1) Ha1 Hp1 Hf Hrecs') as (rl2 & Hrun & Hp2).
  exists rl2. cbn [open_run]. rewrite Ho, Hrun. cbn [mbind option_bind].
  destruct Hpl as (_ & _ & -> & ->). rewrite zlen_cons, Z.add_assoc. done.
Qed.
End Seal.

(** ** Theorems *)

(** C10: No two records sealed under one traffic key use the same nonce, however many are sealed:
    a run of messages sealed one after the other by [tls13_record_layer_seal_record] produces pairwise
    distinct nonces, each the IV XORed with a sequence number that is never reused nor wraps. *)
Theorem record_nonces_unique `{Allocator} `{Hkdf} `{Aead} `{!AeadLaws} ms rl rs rl' a ctx ivd s :
  Forall message ms -> 0 <= legacy_version rl < 2 ^ 16 -> aead rl = Some a -> protection (write rl) ctx ivd s ->
  seal_run ms rl = Some (rs, rl') ->
  NoDup rs.*1 /\ Forall (fun n => exists i, s <= i < 2 ^ 64 /\ n = nonce_of ivd i) rs.*1 /\ s + zlen ms < 2 ^ 64.
Proof.
  intros Hms Hv Ha Hp Hr. destruct (seal_run_spec _ _ _ _ _ _ _ _ Hms Hv Ha Hp Hr) as [Hp' Hf].
  destruct Hp as (_ & _ & H8 & _ & _ & Hs), Hp' as (_ & _ & _ & _ & _ & Hs').
  destruct (sealed_from_nonces _ _ _ _ _ _ H8 (proj1 Hs) Hf) as [Hnd Hall]. split_and!; (done || lia).
Qed.

(** C9: What the sender seals, the receiver opens: when both sides hold the same AEAD context, IV and
    sequence number, the records made from a run of messages open, in order, to exactly those content
    types and contents (padding and tag removed), and both sequence numbers have advanced by the number
    of records. *)
Theorem protected_records_roundtrip `{Allocator} `{Hkdf} `{Aead} `{!AeadLaws} ms rl1 rl1' rs rl2 recs a a' ctx ivd s :
  Forall message ms -> 0 <= legacy_version rl1 < 2 ^ 16 -> aead rl1 = Some a -> aead rl2 = Some a' ->
  protection (write rl1) ctx ivd s -> protection (read rl2) ctx ivd s ->
  seal_run ms rl1 = Some (rs, rl1') -> Forall2 record_of rs.*2 recs -> (forall n, malloc_ok n = true) ->
  exists rl2', open_run recs rl2 = Some (ms, rl2') /\
    protection (write rl1') ctx ivd (s + zlen ms) /\ protection (read rl2') ctx ivd (s + zlen ms).
Proof.
  intros Hms Hv Ha Ha' Hw Hr Hrun Hrecs Hm. destruct (seal_run_spec _ _ _ _ _ _ _ _ Hms Hv Ha Hw Hrun) as [Hp Hf].
  destruct (open_run_spec ms rl2 recs rs a a' ctx ivd s Hms Ha' Hr Hf Hrecs Hm) as (rl2' & Ho & Hp'). by exists rl2'.
Qed.

(** Nothing is sealed in the clear that must not be: a record that
    [tls13_record_layer_seal_record] has sealed is the plaintext record only while the handshake is not
    completed and there is no AEAD yet (or it is the dummy ChangeCipherSpec); otherwise it is the
    protected record of RFC 8446 and the sequence number has advanced by one.  When sealing fails, the
    reason is one of those listed, the sequence number is as before, and no record is left to be sent. *)
Theorem seal_record_protects `{Allocator} `{Hkdf} `{Aead} `{!AeadLaws} ct content rl ctx ivd s :
  is_byte ct -> Forall is_byte content -> zlen content <= TLS13_RECORD_MAX_PLAINTEXT_LEN ->
  0 <= legacy_version rl < 2 ^ 16 -> wrec rl = None -> (forall a, aead rl = Some a -> protection (write rl) ctx ivd s) ->
  let '(r, rl') := tls13_record_layer_seal_record ct content rl in
  same_but_write rl rl' /\
  match r with
  | Some _ => sealed rl ctx ivd s ct content rl'
  | None => seal_error rl ctx ivd s ct content /\ (forall wr, wrec rl' = Some wr -> rec_data wr = None) /\
      forall a, aead rl = Some a -> protection (write rl') ctx ivd s
  end.
Proof.
  intros Hct Hb Hl Hv Hw Hp. pose proof (seal_record_spec ct content rl ctx ivd s Hct Hb Hl Hv Hp) as Hs.
  destruct (tls13_record_layer_seal_record ct content rl) as [[[]|] rl']; [by destruct Hs as (? & ? & _)|].
  destruct Hs as (? & ? & Hwr & ?). split_and!; try done. intros wr Hwr'. rewrite Hw in Hwr.
  destruct Hwr as [?|[?|(? & ? & ?)]]; congruence.
Qed.

(** C11: A protected record is delivered only if the AEAD authenticates it under the nonce of the
    next sequence number with its header as additional data; then the plaintext is what is left when
    the padding and the type byte are removed, at most 2^14 bytes, and the sequence number advances.
    A record that is rejected leaves the plaintext buffer as it was, and one that fails authentication
    does not advance the sequence number. *)
Theorem open_record_authenticated `{Allocator} `{Hkdf} `{Aead} rl rec t v n body a ctx ivd s :
  aead rl = Some a -> protection (read rl) ctx ivd s -> received rec t v n body ->
  let '(r, rl') := tls13_record_layer_open_record rec rl in
  same_but_read rl rl' /\
  match r with
  | Some _ => exists c ct k, open_result ctx ivd s t v n body = Some (c ++ ct :: replicate k 0) /\ ct <> 0 /\
      zlen c <= TLS13_RECORD_MAX_PLAINTEXT_LEN /\ protection (read rl') ctx ivd (s + 1) /\ plaintext rl' ct c
  | None => same_rbuf rl rl' /\ (open_result ctx ivd s t v n body = None -> protection (read rl') ctx ivd s)
  end.
Proof.
  intros Ha Hp Hrec. unfold tls13_record_layer_open_record. rewrite Ha.
  pose proof (open_record_protected_spec rl rec t v n body a ctx ivd s Ha Hp Hrec) as Ho.
  destruct (tls13_record_layer_open_record_protected rec rl) as [[[]|] rl']; [done|].
  destruct Ho as (? & ? & Ho). split_and!; try done. intros E. by rewrite E in Ho.
Qed.

(** *** Concrete instances *)

(** An AEAD with no secrecy: the tag is made of the nonce and the additional data. *)
Definition toy_tag (n ad : list Z) : list Z := ztake 16 (n ++ ad ++ zeros 16).
#[local] Instance toy_aead : Aead := {|
  EVP_AEAD := unit;
  EVP_AEAD_nonce_length := fun _ => 12;
  EVP_AEAD_key_length := fun _ => 32;
  EVP_AEAD_max_tag_len := fun _ => 16;
  EVP_AEAD_CTX := list Z;
  EVP_AEAD_CTX_init := fun _ key => Some key;
  EVP_AEAD_CTX_seal := fun _ max n inp ad => if zlen inp + 16 <=? max then Some (inp ++ toy_tag n ad) else None;
  EVP_AEAD_CTX_open := fun _ max n inp ad =>
    if bytes_eqb (zdrop (zlen inp - 16) inp) (toy_tag n ad) then Some (ztake (zlen inp - 16) inp) else None
|}.
Lemma zlen_toy_tag n ad : zlen (toy_tag n ad) = 16.
Proof. unfold toy_tag. rewrite zlen_ztake, !zlen_app, zlen_zeros by lia. zl_pose. lia. Qed.
#[local] Instance toy_aead_laws : AeadLaws.
Proof.
  split; [|cbn; lia]. intros ctx max n inp ad out _ _. cbn. destruct (zlen inp + 16 <=? max); [|done].
  intros Ho. apply (inj Some) in Ho as <-. rewrite zlen_app, zlen_toy_tag.
  rewrite zdrop_app_eq, ztake_app_eq by lia. unfold bytes_eqb. by rewrite bool_decide_true.
Qed.
#[local] Existing Instances ample toy_hkdf.

Definition toy_iv : list Z := [1;2;3;4;5;6;7;8;9;10;11;12].
Definition toy_prot (s : Z) : tls13_record_protection :=
  mkProt (Some []) (mkSecret (Some toy_iv) 12) (mkSecret (Some (zeros 12)) 12) (be_bytes 8 s).
Definition toy_rl (s : Z) : tls13_record_layer :=
  mkRl TLS1_2_VERSION false 0 false true false false false false false None None 0 0 0 0 None 0 0 0
    (CBS_init [] 0) None 0 0 None 0 (CBS_init [] 0) None (Some tt) (toy_prot s) (toy_prot s).
Lemma toy_protection s : 0 <= s < 2 ^ 64 -> protection (toy_prot s) [] toy_iv s.
Proof. intros Hs. unfold protection. cbn. split_and!; try done; try lia. by exists (zeros 12). Qed.

Definition toy_msgs : list (Z * list Z) := [(SSL3_RT_APPLICATION_DATA, [104; 105; 0]); (SSL3_RT_HANDSHAKE, [])].
Lemma toy_msgs_ok : Forall message toy_msgs.
Proof. repeat constructor; by vm_compute. Qed.
(** A record whose bytes have arrived. *)
Definition toy_record (data : list Z) : tls13_record :=
  mkRec (be_val (slice data 1 2)) (znth data 0) (be_val (slice data 3 2)) (Some data) (zlen data) (CBS_init [] 0) (mkTBuf 0 None 0 0).

Lemma toy_record_ok s ct content data :
  protect tt [] toy_iv s ct content = Some data -> zlen content <= TLS13_RECORD_MAX_PLAINTEXT_LEN -> record_of data (toy_record data).
Proof.
  intros Hd Hl. unfold protect in Hd. destruct (EVP_AEAD_CTX_seal _ _ _ _ _) as [out|]; [|done]. cbn [mbind option_bind] in Hd.
  destruct (Z.eqb_spec (zlen out) (zlen content + 1 + @EVP_AEAD_max_tag_len toy_aead tt)) as [Hlen|]; [|done].
  apply (inj Some) in Hd as <-. split; [done|]. set (n := zlen content + 1 + @EVP_AEAD_max_tag_len toy_aead tt) in *.
  assert (Hn : 0 <= n <= TLS13_RECORD_MAX_CIPHERTEXT_LEN) by (unfold n; cbn [EVP_AEAD_max_tag_len toy_aead]; rec_consts; zl).
  exists SSL3_RT_APPLICATION_DATA, TLS1_2_VERSION, n, out. unfold received, toy_record. cbn [rec_data rec_data_len rec_content_type rec_version].
  split_and!; try done; try lia. rewrite zlen_app. unfold protected_header. rewrite zlen_record_header. lia.
Qed.

Lemma toy_seal_run : exists rs rl', seal_run toy_msgs (toy_rl 255) = Some (rs, rl').
Proof.
  assert (Hs : (if seal_run toy_msgs (toy_rl 255) is Some _ then true else false) = true) by (vm_compute; reflexivity). revert Hs.
  generalize (seal_run toy_msgs (toy_rl 255)) as o. intros [[rs rl']|] Hs; [by exists rs, rl'|discriminate Hs].
Qed.

Lemma record_nonces_unique_witness :
  exists rs rl', seal_run toy_msgs (toy_rl 255) = Some (rs, rl') /\ NoDup rs.*1 /\ 255 + zlen toy_msgs < 2 ^ 64.
Proof.
  destruct toy_seal_run as (rs & rl' & E). exists rs, rl'. split; [exact E|].
  destruct (record_nonces_unique toy_msgs (toy_rl 255) rs rl' tt [] toy_iv 255 toy_msgs_ok ltac:(cbn; unfold TLS1_2_VERSION; lia) eq_refl
    (toy_protection 255 ltac:(lia)) E) as (Hn & _ & Hl). clear E. by split.
Defined.

Lemma protected_records_roundtrip_witness :
  exists rs rl', seal_run toy_msgs (toy_rl 255) = Some (rs, rl') /\
  exists rl2', open_run (toy_record <$> rs.*2) (toy_rl 255) = Some (toy_msgs, rl2') /\ protection (read rl2') [] toy_iv 257.
Proof.
  destruct toy_seal_run as (rs & rl' & E). exists rs, rl'. split; [exact E|].
  destruct (protected_records_roundtrip toy_msgs (toy_rl 255) rl' rs (toy_rl 255) (toy_record <$> rs.*2) tt tt [] toy_iv 255
    toy_msgs_ok ltac:(cbn; unfold TLS1_2_VERSION; lia) eq_refl eq_refl (toy_protection 255 ltac:(lia)) (toy_protection 255 ltac:(lia)) E)
    as (rl2' & Ho & _ & Hp); [|reflexivity|exists rl2'; split; [exact Ho|exact Hp]].
  destruct (seal_run_spec toy_msgs (toy_rl 255) rs rl' tt [] toy_iv 255 toy_msgs_ok ltac:(cbn; unfold TLS1_2_VERSION; lia) eq_refl (toy_protection 255 ltac:(lia)) E) as [_ Hf].
  clear E. destruct rs as [|r1 [|r2 [|]]]; try (destruct Hf as (_ & _ & _ & _ & _ & _ & Hf); done); try (destruct Hf as (_ & _ & _ & Hf); done); [done|].
  destruct Hf as (_ & H1 & _ & _ & H2 & _ & _).
  constructor; [by eapply toy_record_ok|]. constructor; [by eapply toy_record_ok|constructor].
Defined.

Lemma seal_record_protects_witness :
  exists rl', tls13_record_layer_seal_record SSL3_RT_ALERT [1; 0] (toy_rl 7) = (Some tt, rl') /\
    sealed (toy_rl 7) [] toy_iv 7 SSL3_RT_ALERT [1; 0] rl'.
Proof.
  pose proof (seal_record_protects SSL3_RT_ALERT [1; 0] (toy_rl 7) [] toy_iv 7 ltac:(done) ltac:(by apply bytes_ok) ltac:(done)
    ltac:(cbn; unfold TLS1_2_VERSION; lia) eq_refl (fun _ _ => toy_protection 7 ltac:(lia))) as Hs.
  assert (Hr : fst (tls13_record_layer_seal_record SSL3_RT_ALERT [1; 0] (toy_rl 7)) = Some tt) by (vm_compute; reflexivity).
  destruct (tls13_record_layer_seal_record _ _ _) as [r rl']. cbn [fst] in Hr. subst r. exists rl'. by destruct Hs.
Defined.

Definition toy_wire_record : list Z :=
  match protect tt [] toy_iv 7 SSL3_RT_ALERT [1; 0] with Some d => d | None => [] end.
Lemma open_record_authenticated_witness :
  exists rl' c ct k, tls13_record_layer_open_record (toy_record toy_wire_record) (toy_rl 7) = (Some tt, rl') /\
    open_result [] toy_iv 7 23 0x303 19 (zdrop 5 toy_wire_record) = Some (c ++ ct :: replicate k 0) /\ plaintext rl' ct c.
Proof.
  pose proof (open_record_authenticated (toy_rl 7) (toy_record toy_wire_record) 23 0x303 19 (zdrop 5 toy_wire_record) tt [] toy_iv 7
    eq_refl (toy_protection 7 ltac:(lia))) as Ho.
  specialize (Ho ltac:(unfold received; split_and!; by vm_compute)).
  assert (Hr : fst (tls13_record_layer_open_record (toy_record toy_wire_record) (toy_rl 7)) = Some tt) by (vm_compute; reflexivity).
  destruct (tls13_record_layer_open_record _ _) as [r rl']. cbn [fst] in Hr. subst r.
  destruct Ho as (_ & c & ct & k & Hc & _ & _ & _ & Hpl). by exists rl', c, ct, k.
Defined.
