(* ===== verification/RecordLayerIO.v ===== *)
(** * The record layer over time

    Every operation of the record layer, in any order and with any arguments, only
    moves it forward: a closed channel stays closed and silent, a completed handshake
    stays completed, protection is never dropped, at most two ChangeCipherSpecs are
    accepted, and there are never more than 2^14 bytes of plaintext.  Alerts close
    the channels they must. *)
From Stdlib Require Import String.
From S2P Require Import Prelude Compat Cbs Cbb CbbSpec CbbBuild Tls13Buffer Tls13Record KeySchedule RecordLayer RecordLayerSpec.

Section Frames.
Context `{Allocator} `{Hkdf} `{Aead}.

Lemma same_but_write_refl rl : same_but_write rl rl.
Proof. by destruct rl. Qed.
Lemma same_but_write_trans rl1 rl2 rl3 : same_but_write rl1 rl2 -> same_but_write rl2 rl3 -> same_but_write rl1 rl3.
Proof. unfold same_but_write. intros -> ->. by destruct rl1. Qed.
Lemma set_wrec_data_frame wr d ct n rl : same_but_write rl (set_wrec_data wr d ct n rl).2.
Proof. unfold set_wrec_data. destruct (tls13_record_set_data _ _ _) as [[[]|] ?]; by destruct rl. Qed.
Lemma same_but_write_write rl p : same_but_write rl (rl<|write := p|>).
Proof. by destruct rl. Qed.
Lemma seal_record_frame ct content rl : same_but_write rl (tls13_record_layer_seal_record ct content rl).2.
Proof.
  unfold tls13_record_layer_seal_record. destruct (_ && _); [apply same_but_write_refl|].
  destruct tls13_record_new as [wr|]; [|by destruct rl].
  set (rl1 := (tls13_record_layer_wrec_free rl)<|wrec := Some wr|>).
  assert (Hs1 : same_but_write rl rl1) by (by destruct rl).
  destruct (_ || _); (eapply same_but_write_trans; [exact Hs1|]); generalize rl1 as r; clear.
  - intros rl. unfold tls13_record_layer_seal_record_plaintext.
    destruct (handshake_completed rl); [apply same_but_write_refl|]. destruct (_ && _); [apply same_but_write_refl|].
    destruct (cbb_run _); [apply set_wrec_data_frame|apply same_but_write_refl].
  - intros rl. unfold tls13_record_layer_seal_record_protected. destruct (aead rl) as [a|]; [|apply same_but_write_refl].
    destruct (cbb_run _) as [inner|]; [|apply same_but_write_refl].
    destruct (_ <? _); [apply same_but_write_refl|]. destruct (_ <? _); [apply same_but_write_refl|].
    destruct (cbb_run _) as [header|]; [|apply same_but_write_refl].
    destruct (fst _) as [[pos data]|]; [|apply same_but_write_refl].
    destruct (tls13_record_layer_update_nonce _ _ _) as [[[]|] n]; [|apply same_but_write_refl].
    destruct (_ ≫= _) as [out|]; [|apply same_but_write_write].
    destruct (negb _); [apply same_but_write_write|].
    destruct (tls13_record_layer_inc_seq_num _) as [[[]|] seq]; [|apply same_but_write_write].
    eapply same_but_write_trans; [apply same_but_write_write|]. eapply same_but_write_trans; [apply same_but_write_write|].
    apply set_wrec_data_frame.
Qed.

(** The plaintext buffer is within its bound. *)
Definition rbuf_bounded (rl : tls13_record_layer) : Prop := 0 <= CBS_len (rbuf_cbs rl) <= TLS13_RECORD_MAX_PLAINTEXT_LEN.

Lemma open_record_frame rec rl :
  same_but_read rl (tls13_record_layer_open_record rec rl).2 /\
  (rbuf_bounded rl -> rbuf_bounded (tls13_record_layer_open_record rec rl).2).
Proof.
  assert (Hr : forall r : tls13_record_layer, same_but_read r r) by (by intros []).
  unfold tls13_record_layer_open_record, rbuf_bounded. destruct (aead rl) as [a|] eqn:Ea.
  - unfold tls13_record_layer_open_record_protected. rewrite Ea.
    destruct (tls13_record_header rec) as [h|]; [|done]. destruct (tls13_record_content rec) as [c|]; [|done].
    destruct (negb _); [done|]. destruct (tls13_record_layer_update_nonce _ _ _) as [[[]|] n]; [|done].
    destruct (_ ≫= _) as [inner|]; [|by destruct rl].
    destruct (_ <? _); [by destruct rl|].
    destruct (tls13_record_layer_inc_seq_num _) as [[[]|] seq]; [|by destruct rl].
    destruct (Z.ltb_spec (last_nonzero inner (Z.to_nat (zlen inner))) 0) as [|Hge]; [by destruct rl|]. destruct (Z.ltb_spec TLS13_RECORD_MAX_PLAINTEXT_LEN (last_nonzero inner (Z.to_nat (zlen inner)))) as [|Hl];
      [by destruct rl|]. split; [by destruct rl|]. intros _. exact (conj Hge Hl).
  - destruct (handshake_completed rl); [done|]. unfold tls13_record_layer_open_record_plaintext. rewrite Ea.
    destruct (tls13_record_content rec) as [c|] eqn:Ec; [|done].
    assert (Hge : 0 <= CBS_len c).
    { unfold tls13_record_content in Ec. destruct (CBS_skip _ _) as [[[]|] c'] eqn:Esk; [|done]. apply (inj Some) in Ec as <-.
      unfold CBS_skip in Esk. rewrite bind_eq in Esk. unfold cbs_get in Esk.
      destruct (Z.ltb_spec (cbs_len (tls13_record_data rec)) TLS13_RECORD_HEADER_LEN); [done|]. injection Esk as <-. cbn in *. lia. }
    destruct (Z.ltb_spec TLS13_RECORD_MAX_PLAINTEXT_LEN (CBS_len c)) as [|Hl]; [by destruct rl|].
    destruct (CBS_stow c) as [[data len]|] eqn:Es; [|by destruct rl]. split; [by destruct rl|]. intros _.
    assert (len = CBS_len c) as ->; [|exact (conj Hge Hl)]. unfold CBS_stow in Es. unfold CBS_len.
    destruct (Z.eqb_spec (cbs_len c) 0) as [->|]; [by injection Es as <- <-|].
    destruct (malloc_ok _); [by injection Es as <- <-|done].
Qed.
End Frames.

(** ** Moving forward *)

Section ForwardRelation.
Context `{Allocator} `{Hkdf} `{Aead} {W : Type}.

(** What has gone out on the wire, as any observation of the world. *)
Context {T : Type} (out : W -> T).

(** From one state to a later one. *)
Definition forward (st st' : tls13_record_layer * W) : Prop :=
  let '(rl, w) := st in let '(rl', w') := st' in
  (read_closed rl = true -> read_closed rl' = true) /\
  (write_closed rl = true -> write_closed rl' = true /\ out w' = out w) /\
  (handshake_completed rl = true -> handshake_completed rl' = true) /\
  (is_Some (aead rl) -> is_Some (aead rl')) /\
  (ccs_seen rl <= 2 -> ccs_seen rl' <= 2) /\
  (rbuf_bounded rl -> rbuf_bounded rl').

#[global] Instance forward_preorder : PreOrder forward.
Proof.
  split; [intros [rl w]; unfold forward; split_and!; auto|]. intros [rl1 w1] [rl2 w2] [rl3 w3] (H11 & H12 & H13 & H14 & H15 & H16) (H21 & H22 & H23 & H24 & H25 & H26).
  unfold forward. split_and!; try tauto. intros Hc. destruct (H12 Hc) as [Hc2 Ho]. destruct (H22 Hc2) as [Hc3 Ho2].
  split; [done|congruence].
Qed.

End ForwardRelation.

(** [fwd]: a change of fields that does not go back. *)
Ltac fwd := solve [unfold forward, rbuf_bounded; rl_simpl; split_and!; eauto].

Section Forward.
Context `{Allocator} `{Hkdf} `{Aead} {W : Type} `{!Callbacks W} {T : Type} (out : W -> T).

Local Abbreviation state := (tls13_record_layer * W)%type.
Local Abbreviation forward := (forward out).

(** The callbacks: reading and alert notifications do not write, and the post-handshake
    callbacks only move the record layer forward. *)
Class Environment := {
  read_silent n w : out (wire_read n w).2 = out w;
  alert_recv_silent d w : out (alert_recv d w) = out w;
  alert_sent_silent d w : out (alert_sent d w) = out w;
  phh_recv_forward cb c st : phh_recv = Some cb -> forward st (cb c st).2;
  phh_sent_forward st : forward st (phh_sent st).2
}.
Context `{!Environment}.

Definition advances {A} (m : State state A) : Prop := forall st, forward st (m st).2.

Lemma advances_ret {A} (a : A) : advances (mret a).
Proof. intros st. reflexivity. Qed.
Lemma advances_bind {A B} (m : State state A) (f : A -> State state B) :
  advances m -> (forall a, advances (f a)) -> advances (m ≫= f).
Proof.
  intros Hm Hf st. unfold mbind, State_bind. specialize (Hm st). destruct (m st) as [a st1]. etrans; [exact Hm|apply Hf].
Qed.
Lemma advances_gets {A} (f : state -> A) : advances (gets f).
Proof. intros st. reflexivity. Qed.
Lemma advances_mod f : (forall rl w, forward (rl, w) (f rl, w)) -> advances (mod_rl f).
Proof. intros Hf [rl w]. apply Hf. Qed.
Lemma advances_retry {A} fuel (stop : A) ret body : advances body -> advances (while_retry fuel stop ret body).
Proof.
  intros Hb. induction fuel as [|fuel IH]; [apply advances_ret|]. apply advances_bind; [done|]. intros r.
  destruct (_ =? _); [done|apply advances_ret].
Qed.
(** An operation that starts by changing the record layer. *)
Lemma advances_after {A} (m : State state A) rl w rl' w' :
  advances m -> forward (rl, w) (rl', w') -> forward (rl, w) (m (rl', w')).2.
Proof. intros Hm Hf. etrans; [exact Hf|apply Hm]. Qed.

(** A notification of the layers above. *)
Lemma advances_step {A} (a : A) (f : tls13_record_layer -> W -> W) :
  (forall rl w, out (f rl w) = out w) -> advances (step (fun rl w => (a, (rl, f rl w)))).
Proof. intros Hf [rl w]. cbn [step snd]. unfold forward. rewrite Hf. split_and!; auto. Qed.
Lemma advances_notify {A} (a : A) (f : W -> W) :
  (forall w, out (f w) = out w) -> advances (step (fun rl w => (a, (rl, f w)))).
Proof. intros Hf. by apply (advances_step a (fun _ => f)). Qed.

(** Reading from the plaintext shortens it. *)
Lemma cbs_get_shorter {A} n (f : list Z -> A) c r c' :
  0 <= n -> (v ← cbs_get n; mret (f v)) c = (r, c') -> 0 <= CBS_len c -> 0 <= CBS_len c' <= CBS_len c.
Proof.
  intros Hn. rewrite bind_eq. unfold cbs_get, CBS_len. destruct (Z.ltb_spec (cbs_len c) n); intros He; injection He as _ <-; cbn; lia.
Qed.
Lemma get_u8_shorter c r c' : CBS_get_u8 c = (r, c') -> 0 <= CBS_len c -> 0 <= CBS_len c' <= CBS_len c.
Proof. by apply (cbs_get_shorter 1 (fun v => znth v 0)). Qed.
Lemma forward_rbuf rl w c :
  (0 <= CBS_len (rbuf_cbs rl) -> 0 <= CBS_len c <= CBS_len (rbuf_cbs rl)) -> forward (rl, w) (rl<|rbuf_cbs := c|>, w).
Proof. intros Hc. unfold forward, rbuf_bounded. rl_simpl. split_and!; auto. lia. Qed.
Lemma forward_rbuf_free rl w : forward (rl, w) (tls13_record_layer_rbuf_free rl, w).
Proof.
  unfold tls13_record_layer_rbuf_free, forward, rbuf_bounded. rl_simpl. split_and!; auto.
  intros _. cbn. rec_consts. lia.
Qed.

Lemma forward_write rl rl' w : same_but_write rl rl' -> forward (rl, w) (rl', w).
Proof. intros ->. destruct rl. fwd. Qed.
Lemma forward_wire rl w w' : write_closed rl = false -> forward (rl, w) (rl, w').
Proof. intros Hc. unfold forward. split_and!; auto. by rewrite Hc. Qed.

Lemma send_wrec_forward rl w : write_closed rl = false -> forward (rl, w) (send_wrec (rl, w)).2.
Proof.
  intros Hc. unfold send_wrec. destruct (wrec rl) as [wr|]; [|reflexivity].
  destruct (tls13_record_send _ _) as [ret [wr' w']]. cbn [snd]. etrans; [by apply (forward_wire _ _ w')|].
  unfold tls13_record_layer_wrec_free. destruct (ret <=? 0); fwd.
Qed.
Lemma write_new_record_forward ct content rl w :
  write_closed rl = false -> forward (rl, w) (write_new_record ct content (rl, w)).2.
Proof.
  intros Hc. unfold write_new_record. destruct (_ <? _); [reflexivity|].
  pose proof (seal_record_frame ct content rl) as Hs.
  destruct (tls13_record_layer_seal_record ct content rl) as [[[]|] rl1]; cbn [snd] in Hs; [|by apply forward_write].
  assert (Hc1 : write_closed rl1 = false) by (rewrite Hs; by destruct rl).
  pose proof (send_wrec_forward rl1 w Hc1) as Hf. destruct (send_wrec (rl1, w)) as [ret st]. cbn [snd] in *.
  etrans; [by apply forward_write|exact Hf].
Qed.
Lemma write_closed_send rl w ret rl' w' : send_wrec (rl, w) = (ret, (rl', w')) -> write_closed rl' = write_closed rl.
Proof.
  unfold send_wrec. destruct (wrec rl); [|by intros [= _ <- _]]. destruct (tls13_record_send _ _) as [? [? ?]].
  intros [= _ <- _]. by destruct (_ <=? 0).
Qed.
Lemma write_record_advances ct content : advances (tls13_record_layer_write_record ct content).
Proof.
  intros [rl w]. unfold tls13_record_layer_write_record. destruct (write_closed rl) eqn:Hc; [reflexivity|].
  destruct (_ && _); [cbn [snd]; fwd|]. destruct (wrec rl) as [wr|]; [|by apply write_new_record_forward].
  pose proof (send_wrec_forward rl w Hc) as Hf. destruct (send_wrec (rl, w)) as [ret [rl1 w1]] eqn:Es. cbn [snd] in Hf.
  apply write_closed_send in Es. rewrite Hc in Es.
  destruct (_ <=? 0); [done|]. destruct (_ =? _); [cbn [snd]; etrans; [exact Hf|fwd]|].
  destruct (negb _); [done|]. etrans; [exact Hf|]. etrans; [|apply write_new_record_forward; by rl_simpl]. fwd.
Qed.

Lemma send_alert_advances : advances tls13_record_layer_send_alert.
Proof.
  apply advances_bind; [apply advances_gets|]. intros rl. apply advances_bind; [apply write_record_advances|]. intros ret.
  destruct (negb _); [apply advances_ret|]. apply advances_bind; [apply advances_mod; intros; fwd|]. intros [].
  apply advances_bind.
  - repeat case_match; try apply advances_ret; (apply advances_bind; [apply advances_mod; intros; fwd|intros []; apply advances_ret]).
  - intros r. apply (fun H => advances_step r (fun rl => alert_sent (alert_desc rl)) H). intros; apply alert_sent_silent.
Qed.
Lemma send_phh_advances : advances tls13_record_layer_send_phh.
Proof.
  apply advances_bind; [apply advances_gets|]. intros rl0. apply advances_bind; [apply write_record_advances|]. intros ret.
  destruct (_ <=? 0); [apply advances_ret|]. intros [rl w]. unfold step. destruct (CBS_skip _ _) as [[[]|] c]; [|reflexivity].
  destruct (negb _); [cbn [snd]; fwd|]. set (rl1 := _ <|phh_cbs := _|>). pose proof (phh_sent_forward (rl1, w)) as Hs.
  destruct (phh_sent (rl1, w)) as [? st]. cbn [snd] in *. etrans; [|exact Hs]. unfold rl1. fwd.
Qed.
Lemma send_pending_advances : advances tls13_record_layer_send_pending.
Proof.
  intros [rl w]. unfold tls13_record_layer_send_pending. destruct (_ && _); [apply send_phh_advances|].
  destruct (if alert_data rl is Some _ then true else false); [apply send_alert_advances|].
  destruct (if phh_data rl is Some _ then true else false); [apply send_phh_advances|reflexivity].
Qed.
Lemma enqueue_alert_advances l d : advances (tls13_record_layer_enqueue_alert l d).
Proof.
  intros [rl w]. unfold tls13_record_layer_enqueue_alert. destruct (if alert_data rl is Some _ then true else false); [reflexivity|].
  destruct (cbb_run _); [|reflexivity]. apply advances_after; [apply send_pending_advances|fwd].
Qed.
Lemma phh_advances c : advances (tls13_record_layer_phh c).
Proof.
  intros [rl w]. unfold tls13_record_layer_phh. destruct (if phh_data rl is Some _ then true else false); [reflexivity|].
  destruct (CBS_stow _) as [[d n]|]; [|reflexivity]. apply advances_after; [apply send_pending_advances|fwd].
Qed.
Lemma tls13_send_alert_advances d : advances (tls13_send_alert d).
Proof. apply advances_retry, enqueue_alert_advances. Qed.

Lemma alert_received_advances l d : advances (alert_received l d).
Proof.
  pose proof (fun r : Z => advances_notify r (alert_recv d) (alert_recv_silent d)) as Hn.
  apply advances_bind; [apply advances_gets|]. intros rl.
  destruct (_ =? _); [apply advances_bind; [apply advances_mod; intros; fwd|intros []; apply Hn]|].
  destruct (_ =? _); [apply Hn|].
  destruct (_ =? _); [apply advances_bind; [apply advances_mod; intros; fwd|intros []; apply Hn]|].
  destruct (_ && _); [apply advances_ret|apply tls13_send_alert_advances].
Qed.
Lemma process_alert_advances : advances tls13_record_layer_process_alert.
Proof.
  intros [rl w]. unfold tls13_record_layer_process_alert. destruct (rbuf rl) as [b|]; [|reflexivity].
  destruct (negb _); [reflexivity|].
  destruct (CBS_get_u8 (rbuf_cbs rl)) as [[l|] c] eqn:E1.
  2: { apply advances_after; [apply tls13_send_alert_advances|]. apply forward_rbuf. by eapply get_u8_shorter. }
  destruct (CBS_get_u8 c) as [[d|] c2] eqn:E2.
  2: { apply advances_after; [apply tls13_send_alert_advances|]. apply forward_rbuf. intros Hc. apply get_u8_shorter in E1; [|done]. apply get_u8_shorter in E2; lia. }
  destruct (negb _).
  - apply advances_after; [apply tls13_send_alert_advances|]. apply forward_rbuf. intros Hc. apply get_u8_shorter in E1; [|done]. apply get_u8_shorter in E2; lia.
  - apply advances_after; [apply alert_received_advances|]. etrans; [|apply forward_rbuf_free].
    apply forward_rbuf. intros Hc. apply get_u8_shorter in E1; [|done]. apply get_u8_shorter in E2; lia.
Qed.
Lemma read_ccs_advances rec : advances (read_ccs rec).
Proof.
  intros [rl w]. unfold read_ccs. destruct (_ || _) eqn:E; [apply tls13_send_alert_advances|].
  destruct (tls13_record_content rec) as [c|]; [|apply tls13_send_alert_advances].
  destruct (CBS_get_u8 c) as [[x|] ?]; [|apply tls13_send_alert_advances]. destruct (negb (x =? 1)); [apply tls13_send_alert_advances|].
  apply orb_false_iff in E as [_ E]. apply Z.leb_gt in E. unfold tls13_record_layer_rrec_free, forward, rbuf_bounded. cbn [snd]. rl_simpl.
  split_and!; auto. lia.
Qed.
Lemma dispatch_record_advances : advances dispatch_record.
Proof.
  intros [rl w]. unfold dispatch_record. cbv zeta. destruct (_ && _); [apply tls13_send_alert_advances|].
  destruct (_ =? _); [apply process_alert_advances|]. destruct (_ =? _); [reflexivity|].
  destruct (_ =? _); [|apply tls13_send_alert_advances]. destruct (negb _); [apply tls13_send_alert_advances|reflexivity].
Qed.
Lemma process_record_advances rec : advances (process_record rec).
Proof.
  intros [rl w]. unfold process_record. destruct (_ && _); [apply tls13_send_alert_advances|].
  cbv zeta. destruct (_ =? _); [apply read_ccs_advances|]. destruct (_ && _); [apply tls13_send_alert_advances|].
  destruct (open_record_frame rec rl) as [Hs Hb].
  assert (Hf : forward (rl, w) ((tls13_record_layer_open_record rec rl).2, w)).
  { revert Hb. rewrite Hs. intros Hb. destruct rl. unfold forward. rl_simpl. split_and!; auto. }
  destruct (tls13_record_layer_open_record rec rl) as [[[]|] rl1]; [|exact Hf].
  apply advances_after; [apply dispatch_record_advances|]. etrans; [exact Hf|]. unfold tls13_record_layer_rrec_free. fwd.
Qed.

Lemma extend_silent n buf w : out (tls13_buffer_extend wire_read n (buf, w)).2.2 = out w.
Proof.
  unfold tls13_buffer_extend. destruct (_ =? _); [done|]. destruct (_ <? _); [done|].
  destruct (tls13_buffer_resize _ _) as [[[]|] b]; [|done]. generalize (Z.to_nat (tb_capacity b - tb_len b)) as fuel. intros fuel.
  revert b w. induction fuel as [|fuel IH]; intros b w; [done|]. cbn [extend_loop].
  pose proof (read_silent (tb_capacity b - tb_len b) w) as Hr. destruct (wire_read _ w) as [[ret bs] w1]. cbn [snd] in Hr.
  destruct (_ <=? _); [done|]. destruct (_ <? _); [done|]. destruct (_ =? _); [done|]. by rewrite IH.
Qed.
Lemma recv_silent rec w : out (tls13_record_recv wire_read (rec, w)).2.2 = out w.
Proof.
  assert (Hb : forall rec w, out (record_recv_body wire_read (rec, w)).2.2 = out w).
  { clear rec w. intros rec w. unfold record_recv_body. pose proof (extend_silent (TLS13_RECORD_HEADER_LEN + rec_rec_len rec) (rec_buf rec) w) as He.
    destruct (tls13_buffer_extend _ _ _) as [ret [b w1]]. cbn [snd] in He. destruct (_ <=? _); [done|].
    by destruct (tls13_buffer_finish b) as [[? ?] ?]. }
  unfold tls13_record_recv. destruct (rec_data rec); [done|]. destruct (_ =? _); [|apply Hb].
  pose proof (extend_silent TLS13_RECORD_HEADER_LEN (rec_buf rec) w) as He.
  destruct (tls13_buffer_extend _ _ _) as [ret [b w1]]. cbn [snd] in He. destruct (_ <=? _); [done|].
  destruct (parse_record_header _) as [[[[t v] l]|] ?]; [|done]. destruct (negb _); [done|]. destruct (_ <? _); [done|].
  by rewrite Hb.
Qed.
Lemma read_record_advances : advances tls13_record_layer_read_record.
Proof.
  intros [rl w]. unfold tls13_record_layer_read_record. destruct (match rrec rl with Some r => Some r | None => _ end) as [rec|]; [|reflexivity].
  pose proof (recv_silent rec w) as Hr. destruct (tls13_record_recv _ _) as [ret [rec1 w1]]. cbn [snd] in Hr.
  assert (Hf : forward (rl, w) (rl <|rrec := Some rec1|>, w1)) by (unfold forward, rbuf_bounded; rl_simpl; rewrite Hr; split_and!; auto).
  destruct (_ <=? _); [|apply advances_after; [apply process_record_advances|exact Hf]].
  destruct (_ =? _); [apply advances_after; [apply tls13_send_alert_advances|exact Hf]|].
  destruct (_ =? _); [apply advances_after; [apply tls13_send_alert_advances|exact Hf]|exact Hf].
Qed.
Lemma recv_phh_advances : advances tls13_record_layer_recv_phh.
Proof.
  intros [rl w]. unfold tls13_record_layer_recv_phh. set (p := match phh_recv with Some _ => _ | None => _ end).
  assert (Hp : forward (rl, w) (tls13_record_layer_rbuf_free p.2.1, p.2.2)).
  { unfold p. destruct phh_recv as [cb|] eqn:Ecb; cbn [snd fst].
    - pose proof (phh_recv_forward cb (rbuf_cbs (rl<|phh := true|>)) (rl<|phh := true|>, w) Ecb) as Hc.
      destruct (cb _ _) as [[ret c] [rl1 w1]]. cbn [snd fst] in *.
      etrans; [|etrans; [exact Hc|]]; [fwd|]. change (tls13_record_layer_rbuf_free (rl1 <|rbuf_cbs := c|>)) with (tls13_record_layer_rbuf_free rl1).
      apply forward_rbuf_free.
    - etrans; [|apply forward_rbuf_free]. fwd. }
  destruct p as [ret [rl1 w1]]. cbn [fst snd] in Hp. cbv zeta.
  destruct (_ =? TLS13_IO_SUCCESS); cbn [snd]; (destruct (negb _); [|exact Hp]); (etrans; [exact Hp|]; fwd).
Qed.
Lemma skip_shorter n c r c' : 0 <= n -> CBS_skip n c = (r, c') -> 0 <= CBS_len c -> 0 <= CBS_len c' <= CBS_len c.
Proof. intros Hn. by apply (cbs_get_shorter n (fun _ => tt)). Qed.

(** Turn a state transformer's result into one with no bytes. *)
Lemma advances_no_bytes (m : State state Z) st :
  advances m -> forward st (let '(ret, st') := m st in ((ret, @nil Z), st')).2.
Proof. intros Hm. specialize (Hm st). by destruct (m st). Qed.

Lemma read_plaintext_advances ct n peek : 0 <= n -> advances (read_plaintext ct n peek).
Proof.
  intros Hn [rl w]. unfold read_plaintext. destruct (_ && _); [apply advances_no_bytes, tls13_send_alert_advances|].
  destruct (negb _).
  { destruct (_ && _); [apply (advances_no_bytes _ (rl, w)), recv_phh_advances|apply advances_no_bytes, tls13_send_alert_advances]. }
  cbv zeta. destruct (if peek then _ else _) as [r c] eqn:E.
  assert (Hf : forward (rl, w) (rl<|rbuf_cbs := c|>, w)).
  { apply forward_rbuf. intros Hc. destruct peek; [injection E as _ <-; lia|]. eapply skip_shorter; [|exact E|done]. lia. }
  destruct r as [[]|]; [|exact Hf]. destruct (CBS_len c =? 0); [|exact Hf]. etrans; [exact Hf|apply forward_rbuf_free].
Qed.
Lemma read_internal_advances ct n peek : 0 <= n -> advances (tls13_record_layer_read_internal ct n peek).
Proof.
  intros Hn st. unfold tls13_record_layer_read_internal. pose proof (send_pending_advances st) as Hp.
  destruct (tls13_record_layer_send_pending st) as [ret [rl w]]. cbn [snd] in Hp. destruct (negb _); [exact Hp|].
  destruct (read_closed rl); [exact Hp|]. etrans; [exact Hp|].
  destruct (_ =? 0); [|by apply read_plaintext_advances].
  pose proof (read_record_advances (rl, w)) as Hr. destruct (tls13_record_layer_read_record (rl, w)) as [ret2 [rl2 w2]]. cbn [snd] in Hr.
  destruct (_ <=? 0); [exact Hr|]. destruct (_ =? 0); [etrans; [exact Hr|apply forward_rbuf_free]|].
  etrans; [exact Hr|]. by apply read_plaintext_advances.
Qed.
Lemma read_loop_advances fuel ct n peek : 0 <= n -> advances (read_loop fuel ct n peek).
Proof.
  intros Hn. apply advances_bind; [by apply advances_retry, read_internal_advances|]. intros r.
  apply advances_bind; [apply advances_gets|]. intros rl. destruct (negb _); [|apply advances_ret].
  apply advances_bind; [apply tls13_send_alert_advances|]. intros. apply advances_ret.
Qed.
Lemma write_advances fuel ct buf : advances (tls13_record_layer_write fuel ct buf).
Proof.
  apply advances_bind; [apply advances_retry, send_pending_advances|]. intros ret. destruct (negb _); [apply advances_ret|].
  apply advances_retry, write_record_advances.
Qed.
Lemma dummy_ccs_advances fuel : advances (tls13_send_dummy_ccs fuel).
Proof.
  apply advances_bind; [apply advances_gets|]. intros rl. destruct (ccs_sent rl); [apply advances_ret|].
  apply advances_bind; [apply write_advances|]. intros ret. destruct (_ <=? _); [apply advances_ret|].
  apply advances_bind; [apply advances_mod; intros; fwd|]. intros. apply advances_ret.
Qed.
End Forward.

(** ** Sequences of operations *)

Section Operations.
Context `{Allocator} `{Hkdf} `{Aead} {W : Type} `{!Callbacks W}.

(** The calls the handshake and the application make. *)
Inductive rl_op :=
  | OpRead (content_type n : Z) | OpPeek (content_type n : Z) | OpWrite (content_type : Z) (buf : list Z)
  | OpReadApp (n : Z) | OpPeekApp (n : Z) | OpWriteApp (buf : list Z)
  | OpSendAlert (desc : Z) | OpPhh (cbs : CBS) | OpSendPending | OpDummyCcs
  | OpAllowCcs (allow : bool) | OpAllowLegacyAlerts (allow : bool) | OpRetryAfterPhh (retry : bool)
  | OpHandshakeCompleted | OpSetAead (a : EVP_AEAD) | OpSetHash (md : EVP_MD) | OpSetLegacyVersion (v : Z)
  | OpSetReadKey (key : tls13_secret) | OpSetWriteKey (key : tls13_secret).

Definition ignore {A} (m : State (tls13_record_layer * W) A) : State (tls13_record_layer * W) unit := _ ← m; mret tt.
Definition set_key (f : M (tls13_record_layer * list Claim) unit) : State (tls13_record_layer * W) unit :=
  mod_rl (fun rl => (f (rl, [])).2.1).

Definition run_op (fuel : nat) (op : rl_op) : State (tls13_record_layer * W) unit :=
  match op with
  | OpRead ct n => ignore (tls13_record_layer_read fuel ct n)
  | OpPeek ct n => ignore (tls13_record_layer_peek fuel ct n)
  | OpWrite ct buf => ignore (tls13_record_layer_write fuel ct buf)
  | OpReadApp n => ignore (tls13_read_application_data fuel n)
  | OpPeekApp n => ignore (tls13_peek_application_data fuel n)
  | OpWriteApp buf => ignore (tls13_write_application_data fuel buf)
  | OpSendAlert desc => ignore (tls13_send_alert desc)
  | OpPhh cbs => ignore (tls13_record_layer_phh cbs)
  | OpSendPending => ignore tls13_record_layer_send_pending
  | OpDummyCcs => ignore (tls13_send_dummy_ccs fuel)
  | OpAllowCcs b => mod_rl (fun rl => tls13_record_layer_allow_ccs rl b)
  | OpAllowLegacyAlerts b => mod_rl (fun rl => tls13_record_layer_allow_legacy_alerts rl b)
  | OpRetryAfterPhh b => mod_rl (fun rl => tls13_record_layer_set_retry_after_phh rl b)
  | OpHandshakeCompleted => mod_rl tls13_record_layer_handshake_completed
  | OpSetAead a => mod_rl (fun rl => tls13_record_layer_set_aead rl a)
  | OpSetHash md => mod_rl (fun rl => tls13_record_layer_set_hash rl md)
  | OpSetLegacyVersion v => mod_rl (fun rl => tls13_record_layer_set_legacy_version rl v)
  | OpSetReadKey key => set_key (tls13_record_layer_set_read_traffic_key key)
  | OpSetWriteKey key => set_key (tls13_record_layer_set_write_traffic_key key)
  end.
Fixpoint run_ops (fuel : nat) (ops : list rl_op) : State (tls13_record_layer * W) unit :=
  match ops with
  | [] => mret tt
  | op :: ops => _ ← run_op fuel op; run_ops fuel ops
  end.

(** The sizes are [size_t]s. *)
Definition op_ok (op : rl_op) : Prop :=
  match op with OpRead _ n | OpPeek _ n | OpReadApp n | OpPeekApp n => 0 <= n | _ => True end.

Context {T : Type} (out : W -> T) `{!Environment out}.

Lemma run_op_advances fuel op : op_ok op -> advances out (run_op fuel op).
Proof.
  assert (Hi : forall A (m : State (tls13_record_layer * W) A), advances out m -> advances out (ignore m)).
  { intros A m Hm. apply advances_bind; [done|]. intros. apply advances_ret. }
  assert (Hm : forall f, (forall rl w, forward out (rl, w) (f rl, w)) -> advances out (mod_rl f)) by apply advances_mod.
  pose proof (read_loop_advances out fuel) as Hr. pose proof (write_advances out fuel) as Hw.
  assert (Hg : forall A (m : State (tls13_record_layer * W) A) (bad : A), advances out m ->
    advances out (rl ← gets fst; if negb (handshake_completed rl) then mret bad else m)).
  { intros A m bad Ha. apply advances_bind; [apply advances_gets|]. intros rl. destruct (negb _); [apply advances_ret|done]. }
  destruct op; cbn [op_ok run_op]; intros Hn; try (apply Hi; by (apply Hr || apply Hw || (apply Hg, Hr; done) || apply Hg, Hw)).
  - apply Hi. by apply tls13_send_alert_advances.
  - apply Hi. by apply phh_advances.
  - apply Hi. by apply send_pending_advances.
  - apply Hi. by apply dummy_ccs_advances.
  - apply Hm. intros. unfold tls13_record_layer_allow_ccs. fwd.
  - apply Hm. intros. unfold tls13_record_layer_allow_legacy_alerts. fwd.
  - apply Hm. intros. unfold tls13_record_layer_set_retry_after_phh. fwd.
  - apply Hm. intros. unfold tls13_record_layer_handshake_completed. fwd.
  - apply Hm. intros. unfold tls13_record_layer_set_aead. fwd.
  - apply Hm. intros. unfold tls13_record_layer_set_hash. fwd.
  - apply Hm. intros. unfold tls13_record_layer_set_legacy_version. fwd.
  - apply Hm. intros. unfold tls13_record_layer_set_read_traffic_key.
    destruct (aead rl); [|reflexivity]. destruct (hash rl); [|reflexivity].
    destruct (tls13_record_layer_set_traffic_key _ _ _ _) as [? [? ?]]. cbn [fst snd]. fwd.
  - apply Hm. intros. unfold tls13_record_layer_set_write_traffic_key.
    destruct (aead rl); [|reflexivity]. destruct (hash rl); [|reflexivity].
    destruct (tls13_record_layer_set_traffic_key _ _ _ _) as [? [? ?]]. cbn [fst snd]. fwd.
Qed.
Lemma run_ops_advances fuel ops : Forall op_ok ops -> advances out (run_ops fuel ops).
Proof.
  induction ops as [|op ops IH]; intros Hok; [apply advances_ret|]. apply Forall_cons in Hok as [Hop Hok].
  apply advances_bind; [by apply run_op_advances|]. intros. by apply IH.
Qed.
End Operations.

(** ** Alerts *)

Section Alerts.
Context `{Allocator} `{Hkdf} `{Aead} {W : Type} `{!Callbacks W}.

Lemma alert_build_marshal level desc s :
  alert_build level desc s = cbb_marshal 0 (UInt 1 level (UInt 1 desc Done)) s.
Proof.
  unfold alert_build, cbb_marshal. cbn [cbb_build add_uint].
  rewrite !bind_eq. destruct (CBB_init _ _ s) as [[[]|] s1]; [|done].
  rewrite !bind_eq. destruct (CBB_add_u8 _ _ s1) as [[[]|] s2]; [|done].
  rewrite !bind_eq. by destruct (CBB_add_u8 _ _ s2) as [[[]|] s3].
Qed.
Lemma alert_build_spec level desc :
  is_byte level -> is_byte desc ->
  match cbb_run (alert_build level desc) with Some data => data = [level; desc] | None => ~ heap_ok end.
Proof.
  intros Hl Hd. assert (He : encode (UInt 1 level (UInt 1 desc Done)) = Some [level; desc]).
  { unfold is_byte in *. cbn [encode mbind option_bind]. change (256 ^ Z.of_nat 1) with 256. decide_cmp. cbn [mbind option_bind].
    by rewrite !be_bytes_1. }
  pose proof (cbb_run_marshal _ _ _ (alert_build_marshal level desc)) as Hr.
  specialize (Hr ltac:(cbn [wf_msg]; unfold is_byte, SIZE_MAX in *; split_and!; (done || lia)) ltac:(unfold SIZE_MAX; lia)).
  destruct (cbb_run _) as [data|]; [congruence|]. intros Hh. apply (Hr _ He), heap_room; [done|]. rec_consts. zl.
Qed.

(** Once the alert is queued, a retry cannot queue it again. *)
Definition queued (rl : tls13_record_layer) : Prop := is_Some (alert_data rl).

Lemma send_wrec_alert rl w : alert_data (send_wrec (rl, w)).2.1 = alert_data rl.
Proof.
  unfold send_wrec. destruct (wrec rl); [|done]. destruct (tls13_record_send _ _) as [ret [? ?]]. cbn. by destruct (ret <=? 0).
Qed.
Lemma write_new_record_alert ct content rl w : alert_data (write_new_record ct content (rl, w)).2.1 = alert_data rl.
Proof.
  unfold write_new_record. destruct (_ <? _); [done|]. pose proof (seal_record_frame ct content rl) as Hs.
  assert (Ha : alert_data (tls13_record_layer_seal_record ct content rl).2 = alert_data rl) by (rewrite Hs; by destruct rl).
  destruct (tls13_record_layer_seal_record ct content rl) as [[[]|] rl1]; [|done].
  pose proof (send_wrec_alert rl1 w) as Hw. destruct (send_wrec (rl1, w)) as [ret st]. cbn in *. congruence.
Qed.
Lemma write_record_alert ct content rl w : alert_data (tls13_record_layer_write_record ct content (rl, w)).2.1 = alert_data rl.
Proof.
  unfold tls13_record_layer_write_record. destruct (write_closed rl); [done|]. destruct (_ && _); [done|].
  destruct (wrec rl); [|apply write_new_record_alert].
  pose proof (send_wrec_alert rl w) as Hs. destruct (send_wrec (rl, w)) as [ret [rl1 w1]]. cbn in Hs.
  destruct (_ <=? _); [done|]. destruct (_ =? _); [done|]. destruct (negb _); [done|]. by rewrite write_new_record_alert.
Qed.

Lemma send_phh_retry rl w rl' w' :
  queued rl -> tls13_record_layer_send_phh (rl, w) = (TLS13_IO_WANT_RETRY, (rl', w')) -> queued rl'.
Proof.
  intros Hq. unfold tls13_record_layer_send_phh, mbind, State_bind, gets. cbn [fst].
  unfold tls13_record_layer_write_chunk. pose proof (write_record_alert SSL3_RT_HANDSHAKE
    (ztake TLS13_RECORD_MAX_PLAINTEXT_LEN (ztake (CBS_len (phh_cbs rl)) (CBS_data (phh_cbs rl)))) rl w) as Hw.
  destruct (tls13_record_layer_write_record _ _ _) as [ret [rl1 w1]]. cbn [fst snd] in Hw. unfold queued in *.
  destruct (_ <=? _); [intros [= _ <- _]; by rewrite Hw|]. cbn [step]. destruct (CBS_skip _ _) as [[[]|] c]; [|by intros [= _ <- _]].
  destruct (negb _); [intros [= <- _]; by cbn; rewrite Hw|]. destruct (phh_sent _). done.
Qed.
Lemma send_alert_retry rl w rl' w' :
  queued rl -> tls13_record_layer_send_alert (rl, w) = (TLS13_IO_WANT_RETRY, (rl', w')) -> queued rl'.
Proof.
  intros Hq. unfold tls13_record_layer_send_alert, mbind, State_bind, gets. cbn [fst].
  pose proof (write_record_alert SSL3_RT_ALERT (match alert_data rl with Some d => d | None => [] end) rl w) as Hw.
  destruct (tls13_record_layer_write_record _ _ _) as [ret [rl1 w1]]. cbn [fst snd] in Hw. unfold queued in *.
  destruct (negb _); [destruct (ret =? TLS13_IO_EOF); intros [= _ <- _]; by rewrite Hw|].
  cbn [mod_rl]. destruct (_ =? _); [done|]. destruct (_ =? _); done.
Qed.
Lemma enqueue_alert_retry level desc rl w rl' w' :
  tls13_record_layer_enqueue_alert level desc (rl, w) = (TLS13_IO_WANT_RETRY, (rl', w')) -> queued rl'.
Proof.
  unfold tls13_record_layer_enqueue_alert. destruct (if alert_data rl is Some _ then true else false); [done|].
  destruct (cbb_run _) as [data|]; [|done]. set (rl1 := _ <|alert_desc := _|>). assert (Hq : queued rl1) by (by exists data).
  unfold tls13_record_layer_send_pending. destruct (_ && _); [by apply send_phh_retry|].
  destruct (if alert_data rl1 is Some _ then true else false); [by apply send_alert_retry|].
  destruct (if phh_data rl1 is Some _ then true else false); [by apply send_phh_retry|done].
Qed.
Lemma enqueue_alert_queued level desc rl w :
  queued rl -> tls13_record_layer_enqueue_alert level desc (rl, w) = (TLS13_IO_FAILURE, (rl, w)).
Proof. intros [d Hd]. unfold tls13_record_layer_enqueue_alert. by rewrite Hd. Qed.

(** *** An alert on the wire *)

Context `{!AeadLaws} `{!Sink wire_write}.

(** The wire takes whatever it is given. *)
Definition eager : Prop := forall bs w, 0 < zlen bs -> (wire_write bs w).1 = zlen bs.

Lemma record_send_eager rec w data :
  eager -> 0 < zlen data -> to_send (Some rec) data ->
  let '(ret, (_, w')) := tls13_record_send wire_write (rec, w) in ret = zlen data /\ sent w' = sent w ++ data.
Proof.
  intros He Hl (wr & Hwr & Hd & Hn & Hc). apply (inj Some) in Hwr as <-. unfold tls13_record_send. rewrite Hd, Hc.
  unfold CBS_len, CBS_init. cbn [cbs_len]. destruct (Z.to_nat (zlen data)) as [|fuel] eqn:Ef; [lia|].
  cbn [record_send_loop]. rewrite Hc. unfold CBS_init, CBS_len, CBS_data. cbn [cbs_len cbs_data].
  rewrite (proj2 (Z.eqb_neq _ _)), ztake_ge by lia. pose proof (He data w Hl) as Hw.
  destruct (wire_write data w) as [ret w1] eqn:Ew. cbn [fst] in Hw. subst ret.
  apply sink_write in Ew as [Hp _]; [|done]. destruct (Hp Hl) as [_ Hs]. rewrite ztake_ge in Hs by done.
  rewrite (proj2 (Z.leb_gt _ _)) by done.
  pose proof (CBS_skip_ok (zlen data) data [] (zlen data) eq_refl) as Hsk. rewrite app_nil_r in Hsk. unfold rd at 1 in Hsk. rewrite Hsk.
  assert (Hr : forall r : tls13_record, rec_cbs r = rd (zlen data) [] -> record_send_loop wire_write fuel (r, w1) = (rec_data_len r, (r, w1))).
  { intros r Hcr. destruct fuel; [done|]. cbn [record_send_loop]. by rewrite Hcr. }
  rewrite Hr by done. by cbn.
Qed.

(** An alert record: in the clear or protected, as the record layer's state says. *)
Definition alert_record (rl : tls13_record_layer) (ctx : EVP_AEAD_CTX) (ivd : list Z) (s level desc : Z) (data : list Z) : Prop :=
  match aead rl with
  | None => handshake_completed rl = false /\ data = record_header SSL3_RT_ALERT (legacy_version rl) 2 ++ [level; desc]
  | Some a => protect a ctx ivd s SSL3_RT_ALERT [level; desc] = Some data
  end.

Lemma sealed_alert rl ctx ivd s level desc rl' :
  sealed rl ctx ivd s SSL3_RT_ALERT [level; desc] rl' ->
  exists wr data, wrec rl' = Some wr /\ to_send (Some wr) data /\ alert_record rl ctx ivd s level desc data /\ 0 < zlen data.
Proof.
  unfold sealed, alert_record. destruct (aead rl) as [a|].
  - intros (? & data & [= <-] & Hp & _ & Hts & _). pose proof Hts as (wr & Hwr & _). exists wr, data. split_and!; try done.
    + by rewrite <- Hwr.
    + unfold protect in Hp. destruct (EVP_AEAD_CTX_seal _ _ _ _ _) as [out|]; [|done]. cbn [mbind option_bind] in Hp.
      destruct (_ =? _); [|done]. apply (inj Some) in Hp as <-. unfold protected_header. rewrite zlen_app, zlen_record_header. zl.
  - intros (Hh & _ & Hts). pose proof Hts as (wr & Hwr & _). exists wr, (record_header SSL3_RT_ALERT (legacy_version rl) 2 ++ [level; desc]).
    split_and!; try done. by rewrite <- Hwr.
Qed.

Lemma write_alert_record rl w ctx ivd s level desc :
  eager -> is_byte level -> is_byte desc -> 0 <= legacy_version rl < 2 ^ 16 ->
  write_closed rl = false -> wrec rl = None -> (forall a, aead rl = Some a -> protection (write rl) ctx ivd s) ->
  let '(ret, (rl', w')) := tls13_record_layer_write_record SSL3_RT_ALERT [level; desc] (rl, w) in
  same_but_write rl rl' /\
  ((ret = TLS13_IO_FAILURE /\ w' = w) \/
   (ret = 2 /\ exists data, alert_record rl ctx ivd s level desc data /\ sent w' = sent w ++ data)).
Proof.
  intros He Hl Hd Hv Hc Hw Hp. unfold tls13_record_layer_write_record. rewrite Hc, Hw. cbn [andb SSL3_RT_ALERT SSL3_RT_APPLICATION_DATA Z.eqb Pos.eqb].
  unfold write_new_record. change (TLS13_RECORD_MAX_PLAINTEXT_LEN <? zlen [level; desc]) with false. cbv iota.
  pose proof (seal_record_spec SSL3_RT_ALERT [level; desc] rl ctx ivd s ltac:(done)
    ltac:(rewrite !Forall_cons; by split_and!) ltac:(done) Hv Hp) as Hs.
  destruct (tls13_record_layer_seal_record _ _ _) as [[[]|] rl1]; destruct Hs as [Hsame Hs]; [|by split; [|left]].
  destruct Hs as (Hs & _). destruct (sealed_alert _ _ _ _ _ _ _ Hs) as (wr & data & Hwr & Hts & Har & Hpos).
  unfold send_wrec. rewrite Hwr. pose proof (record_send_eager wr w data He Hpos Hts) as Hsend.
  destruct (tls13_record_send _ _) as [ret [wr' w']]. destruct Hsend as [-> Hsent].
  rewrite (proj2 (Z.leb_gt _ _)) by done. split.
  - eapply same_but_write_trans; [exact Hsame|]. by destruct rl1.
  - right. split; [done|]. by exists data.
Qed.

(** What an alert does to the channels. *)
Definition alert_fatal (desc : Z) : bool := negb ((desc =? TLS13_ALERT_CLOSE_NOTIFY) || (desc =? TLS13_ALERT_USER_CANCELED)).
Definition alert_level_of (desc : Z) : Z := if alert_fatal desc then TLS13_ALERT_LEVEL_FATAL else TLS13_ALERT_LEVEL_WARNING.

Lemma alert_level_of_eq desc :
  alert_level_of desc = (if (desc =? TLS13_ALERT_CLOSE_NOTIFY) || (desc =? TLS13_ALERT_USER_CANCELED)
                         then TLS13_ALERT_LEVEL_WARNING else TLS13_ALERT_LEVEL_FATAL).
Proof. unfold alert_level_of, alert_fatal. by destruct (_ || _). Qed.

Definition alert_outcome (desc : Z) (rl : tls13_record_layer) (w : W) (ctx : EVP_AEAD_CTX) (ivd : list Z) (s : Z)
    (r : Z * (tls13_record_layer * W)) : Prop :=
  let '(ret, (rl', w')) := r in
  (ret = TLS13_IO_FAILURE /\ w' = w /\ read_closed rl' = read_closed rl /\ write_closed rl' = false) \/
  (ret = (if alert_fatal desc then TLS13_IO_ALERT else TLS13_IO_SUCCESS) /\ alert_data rl' = None /\
   read_closed rl' = (if alert_fatal desc then true else read_closed rl) /\
   write_closed rl' = (alert_fatal desc || (desc =? TLS13_ALERT_CLOSE_NOTIFY)) /\
   exists data w1, alert_record rl ctx ivd s (alert_level_of desc) desc data /\ sent w1 = sent w ++ data /\
     w' = alert_sent desc w1).

Lemma enqueue_alert_spec desc rl w ctx ivd s :
  eager -> is_byte desc -> 0 <= legacy_version rl < 2 ^ 16 ->
  write_closed rl = false -> wrec rl = None -> alert_data rl = None -> phh_data rl = None ->
  (forall a, aead rl = Some a -> protection (write rl) ctx ivd s) ->
  alert_outcome desc rl w ctx ivd s (tls13_record_layer_enqueue_alert (alert_level_of desc) desc (rl, w)).
Proof.
  intros He Hd Hv Hc Hw Ha Hph Hp. unfold tls13_record_layer_enqueue_alert, alert_outcome. rewrite Ha.
  assert (Hl : is_byte (alert_level_of desc)) by (unfold alert_level_of; by destruct (alert_fatal desc)).
  pose proof (alert_build_spec _ _ Hl Hd) as Hb. destruct (cbb_run _) as [d|]; [subst d|by left].
  set (rl1 := _ <|alert_desc := desc|>). unfold tls13_record_layer_send_pending.
  change (phh_data rl1) with (phh_data rl). rewrite Hph. cbn [andb]. change (alert_data rl1) with (Some [alert_level_of desc; desc]). cbv iota.
  unfold tls13_record_layer_send_alert, mbind, State_bind, gets. cbn [fst].
  change (alert_data rl1) with (Some [alert_level_of desc; desc]). cbv iota.
  pose proof (write_alert_record rl1 w ctx ivd s _ _ He Hl Hd Hv Hc Hw Hp) as Hwr.
  destruct (tls13_record_layer_write_record _ _ _) as [ret [rl2 w2]]. destruct Hwr as [Hs [[-> ->]|(-> & data & Har & Hsent)]].
  { left. change (alert_len rl1) with 2. cbn. rewrite Hs. split_and!; by destruct rl. }
  change (alert_len rl1) with 2. cbn [Z.eqb Pos.eqb negb]. change (alert_desc rl1) with desc.
  assert (Hd2 : alert_desc rl2 = desc) by (rewrite Hs; by destruct rl).
  assert (Hr2 : read_closed rl2 = read_closed rl) by (rewrite Hs; by destruct rl).
  assert (Hw2 : write_closed rl2 = false) by (rewrite Hs; by destruct rl).
  unfold alert_fatal, alert_level_of in *. change (alert_record rl1) with (alert_record rl) in Har.
  destruct (desc =? TLS13_ALERT_CLOSE_NOTIFY); [|destruct (desc =? TLS13_ALERT_USER_CANCELED)]; cbn [orb negb] in *;
    cbn [mod_rl step mret State_ret]; right; rl_simpl; rewrite Hd2; split_and!; try done; exists data, w2; by split_and!.
Qed.
End Alerts.

(** ** Theorems *)

(** Whatever sequence of calls the handshake and the application make, with whatever arguments,
    and whatever the peer sends: once closed, the read and write channels stay closed and nothing more
    goes out on the wire; a completed handshake stays completed; an AEAD once set stays set; at most
    two ChangeCipherSpec records are accepted; and there are never more than 2^14 bytes of plaintext
    waiting to be read. *)
Theorem record_layer_only_forward `{Allocator} `{Hkdf} `{Aead} {W} `{!Callbacks W} {T} (out : W -> T) `{!Environment out}
    fuel ops rl w rl' w' :
  Forall op_ok ops -> run_ops fuel ops (rl, w) = (tt, (rl', w')) -> ccs_seen rl <= 2 -> rbuf_bounded rl ->
  (read_closed rl = true -> read_closed rl' = true) /\
  (write_closed rl = true -> write_closed rl' = true /\ out w' = out w) /\
  (handshake_completed rl = true -> handshake_completed rl' = true) /\
  (is_Some (aead rl) -> is_Some (aead rl')) /\ ccs_seen rl' <= 2 /\ rbuf_bounded rl'.
Proof.
  intros Hok Hr Hc Hb. pose proof (run_ops_advances out fuel ops Hok (rl, w)) as Hf. rewrite Hr in Hf.
  destruct Hf as (H1' & H2' & H3' & H4' & H5' & H6'). by split_and!; auto.
Qed.

(** [tls13_send_alert] on an idle record layer puts exactly one alert record on the wire (in the
    clear before there are keys, protected afterwards) and closes what the alert closes: both channels
    for a fatal alert, which returns TLS13_IO_ALERT, the write channel for close_notify, none for
    user_canceled, which return success; or it fails with nothing sent and nothing closed. *)
Theorem tls13_send_alert_closes `{Allocator} `{Hkdf} `{Aead} `{!AeadLaws} {W} `{!Callbacks W} `{!Sink wire_write} desc rl w ctx ivd s :
  eager -> is_byte desc -> 0 <= legacy_version rl < 2 ^ 16 ->
  write_closed rl = false -> wrec rl = None -> alert_data rl = None -> phh_data rl = None ->
  (forall a, aead rl = Some a -> protection (write rl) ctx ivd s) ->
  alert_outcome desc rl w ctx ivd s (tls13_send_alert desc (rl, w)).
Proof.
  intros He Hd Hv Hc Hw Ha Hph Hp. pose proof (enqueue_alert_spec desc rl w ctx ivd s He Hd Hv Hc Hw Ha Hph Hp) as Hs.
  unfold tls13_send_alert. rewrite <- alert_level_of_eq.
  unfold retry. cbn [while_retry]. unfold mbind at 1, State_bind at 1.
  destruct (tls13_record_layer_enqueue_alert _ _ (rl, w)) as [ret [rl1 w1]]. unfold id.
  assert (ret <> TLS13_IO_WANT_RETRY) as Hne.
  { destruct Hs as [[-> _]|[-> _]]; [done|]. by destruct (alert_fatal desc). }
  rewrite (proj2 (Z.eqb_neq _ _)) by done. exact Hs.
Qed.

(** C12: The loop of [tls13_send_alert] ends after at most two passes, however many are allowed: when
    the first pass asks for a retry the alert is still queued, and the second pass fails because of it,
    so that the call reports TLS13_IO_FAILURE with the alert waiting to be sent. *)
Theorem tls13_send_alert_terminates `{Allocator} `{Hkdf} `{Aead} {W} `{!Callbacks W} desc level rl w fuel :
  (2 <= fuel)%nat ->
  level = (if (desc =? TLS13_ALERT_CLOSE_NOTIFY) || (desc =? TLS13_ALERT_USER_CANCELED)
           then TLS13_ALERT_LEVEL_WARNING else TLS13_ALERT_LEVEL_FATAL) ->
  retry fuel (tls13_record_layer_enqueue_alert level desc) (rl, w) = tls13_send_alert desc (rl, w) /\
  let '(ret, (rl1, w1)) := tls13_record_layer_enqueue_alert level desc (rl, w) in
  tls13_send_alert desc (rl, w) =
    (if ret =? TLS13_IO_WANT_RETRY then TLS13_IO_FAILURE else ret, (rl1, w1)) /\
  (ret = TLS13_IO_WANT_RETRY -> queued rl1).
Proof.
  intros Hf ->. unfold tls13_send_alert. rewrite <- alert_level_of_eq. set (level := alert_level_of desc).
  set (body := tls13_record_layer_enqueue_alert level desc).
  assert (Hall : forall f, (2 <= f)%nat ->
    retry f body (rl, w) = (if (body (rl, w)).1 =? TLS13_IO_WANT_RETRY then TLS13_IO_FAILURE else (body (rl, w)).1, (body (rl, w)).2)).
  { intros f Hle. destruct f as [|[|f]]; [lia|lia|]. unfold retry. cbn [while_retry]. unfold mbind, State_bind.
    destruct (body (rl, w)) as [ret [rl1 w1]] eqn:E. cbn [fst snd]. unfold id. destruct (Z.eqb_spec ret TLS13_IO_WANT_RETRY) as [->|]; [|done].
    unfold body in *. apply enqueue_alert_retry in E. by rewrite enqueue_alert_queued. }
  rewrite !Hall by lia. split; [done|]. destruct (body (rl, w)) as [ret [rl1 w1]] eqn:E. cbn [fst snd]. split; [done|].
  intros ->. by apply enqueue_alert_retry in E.
Qed.

(** *** Concrete instances *)

#[local] Existing Instances ample toy_hkdf toy_aead toy_aead_laws.

(** A wire in memory: what arrives, and what has been sent. *)
Definition toy_wire : Type := portions * list Z.
#[local] Instance toy_callbacks : Callbacks toy_wire := {|
  wire_read := fun n '(p, o) => let '(r, p) := portions_read n p in (r, (p, o));
  wire_write := fun bs '(p, o) => (zlen bs, (p, o ++ bs));
  alert_recv := fun _ w => w;
  alert_sent := fun _ w => w;
  phh_recv := None;
  phh_sent := fun st => (tt, st)
|}.
#[local] Instance toy_environment : Environment (snd : toy_wire -> list Z).
Proof.
  split; try done.
  - intros n [p o]. cbn. by destruct (portions_read n p).
Qed.
#[local] Program Instance toy_sink : Sink (wire_write (W := toy_wire)) := {| sent := snd |}.
Next Obligation.
  intros bs [p o] ret w' Hl. cbn. intros [= <- <-]. cbn. split; [|lia]. intros _. by rewrite ztake_ge.
Qed.

Lemma record_layer_only_forward_witness :
  let ops := [OpSendAlert TLS13_ALERT_CLOSE_NOTIFY; OpWriteApp [1; 2; 3]; OpSendAlert 40; OpReadApp 10] in
  let r1 := run_ops 3 [OpSendAlert TLS13_ALERT_CLOSE_NOTIFY] (toy_rl 7, ([Some [1]], [])) in
  let r := run_ops 3 ops r1.2 in
  write_closed r1.2.1 = true /\ zlen r1.2.2.2 = 24 /\ r.2.2.2 = r1.2.2.2 /\ rbuf_bounded r.2.1.
Proof.
  intros ops r1 r.
  assert (Hc : write_closed r1.2.1 = true) by (vm_compute; reflexivity).
  assert (Hz : zlen r1.2.2.2 = 24) by (vm_compute; reflexivity).
  assert (Hr : run_ops 3 ops (r1.2.1, r1.2.2) = (tt, (r.2.1, r.2.2))).
  { unfold r. generalize (r1.2) as st. intros [rl w]. cbn [fst snd]. by destruct (run_ops 3 ops (rl, w)) as [[] [? ?]]. }
  assert (Hs : ccs_seen r1.2.1 = 0) by (vm_compute; reflexivity).
  assert (Hl : CBS_len (rbuf_cbs r1.2.1) = 0) by (vm_compute; reflexivity).
  assert (Hok : Forall op_ok ops) by (unfold ops; rewrite !Forall_cons; split_and!; (exact I || (cbn; lia) || constructor)).
  assert (Hb1 : rbuf_bounded r1.2.1) by (unfold rbuf_bounded; rewrite Hl; split; discriminate).
  assert (Hs1 : ccs_seen r1.2.1 <= 2) by (rewrite Hs; discriminate).
  destruct (record_layer_only_forward snd 3 ops r1.2.1 r1.2.2 r.2.1 r.2.2 Hok Hr Hs1 Hb1) as (_ & Hw & _ & _ & _ & Hb).
  destruct (Hw Hc) as [_ Ho]. split; [exact Hc|]. split; [exact Hz|]. split; [exact Ho|exact Hb].
Defined.

Lemma toy_eager : eager (W := toy_wire).
Proof. by intros bs [p o] _. Qed.
Definition toy_idle : toy_wire := ([], []).
Lemma tls13_send_alert_closes_witness :
  alert_outcome 40 (toy_rl 7) toy_idle [] toy_iv 7 (tls13_send_alert 40 (toy_rl 7, toy_idle)).
Proof.
  exact (tls13_send_alert_closes 40 (toy_rl 7) toy_idle [] toy_iv 7 toy_eager ltac:(done) ltac:(cbn; unfold TLS1_2_VERSION; lia)
    eq_refl eq_refl eq_refl eq_refl (fun _ _ => toy_protection 7 ltac:(lia))).
Defined.
Lemma tls13_send_alert_terminates_witness :
  retry 100 (tls13_record_layer_enqueue_alert TLS13_ALERT_LEVEL_FATAL 40) (toy_rl 7, toy_idle) = tls13_send_alert 40 (toy_rl 7, toy_idle).
Proof.
  pose proof (tls13_send_alert_terminates 40 TLS13_ALERT_LEVEL_FATAL (toy_rl 7) toy_idle 100 ltac:(lia) eq_refl) as Ht.
  destruct Ht as [Ht _]. exact Ht.
Defined.
