(* ===== verification/RecordLayerQuiet.v ===== *)
(** * The record layer during the handshake

    Until the handshake is completed no post-handshake message is pending, so that nothing but the alert itself
    decides what [tls13_send_alert] returns: after a fatal alert it never reports success.  [quiet] is what reading,
    writing and alerts keep of such a record layer, whatever the callbacks do. *)
From Stdlib Require Import String.
From S2P Require Import Prelude Compat Cbs Cbb CbbSpec CbbBuild Tls13Buffer Tls13Record HandshakeMsg KeySchedule RecordLayer RecordLayerSpec RecordLayerIO.

Section Quiet.
Context `{Allocator} `{Hkdf} `{Aead}.

(** No post-handshake message, no completed handshake; an alert, pending or half sent, has two bytes. *)
Definition quiet (rl : tls13_record_layer) : Prop :=
  phh_data rl = None /\ handshake_completed rl = false /\
  (forall d, alert_data rl = Some d -> zlen d = 2 /\ alert_len rl = 2) /\
  (wrec_content_type rl = SSL3_RT_ALERT -> wrec_content_len rl = 2).

Lemma quiet_new rl : tls13_record_layer_new = Some rl -> quiet rl.
Proof.
  unfold tls13_record_layer_new. destruct (malloc_ok _); [|done]. destruct tls13_record_protection_new as [p|]; [|done]. cbn [mbind option_bind].
  intros [= <-]. unfold quiet. cbn. split_and!; done.
Qed.

Context {W : Type} `{!Callbacks W}.
Local Abbreviation state := (tls13_record_layer * W)%type.

(** [hushed m]: the record layer stays quiet. *)
Definition hushed {A} (m : State state A) : Prop := forall st, quiet st.1 -> quiet (m st).2.1.

Lemma hushed_ret {A} (a : A) : hushed (mret a).
Proof. by intros st. Qed.
Lemma hushed_bind {A B} (m : State state A) (f : A -> State state B) : hushed m -> (forall a, hushed (f a)) -> hushed (m ≫= f).
Proof. intros Hm Hf st Hq. unfold mbind, State_bind. specialize (Hm st Hq). destruct (m st) as [a st1]. by apply Hf. Qed.
Lemma hushed_gets {A} (f : state -> A) : hushed (gets f).
Proof. by intros st. Qed.
Lemma hushed_mod f : (forall rl, quiet rl -> quiet (f rl)) -> hushed (mod_rl f).
Proof. intros Hf [rl w] Hq. by apply Hf. Qed.
Lemma hushed_step {A} (a : A) (f : tls13_record_layer -> W -> W) : hushed (step (fun rl w => (a, (rl, f rl w)))).
Proof. by intros [rl w]. Qed.
Lemma hushed_retry {A} fuel (stop : A) ret body : hushed body -> hushed (while_retry fuel stop ret body).
Proof.
  intros Hb. induction fuel as [|fuel IH]; [apply hushed_ret|]. apply hushed_bind; [done|]. intros r. destruct (_ =? _); [done|apply hushed_ret].
Qed.

Ltac quiet_tac :=
  repeat match goal with H : quiet _ |- _ => destruct H as (? & ? & ? & ?) end; unfold quiet; rl_simpl; split_and!; solve [done | eauto].

Lemma quiet_seal ct content rl :
  quiet rl -> (ct = SSL3_RT_ALERT -> zlen content = 2) -> quiet (tls13_record_layer_seal_record ct content rl).2.
Proof.
  intros Hq Hc.
  assert (Hset : forall wr d rl, quiet rl -> quiet (set_wrec_data wr d ct (zlen content) rl).2).
  { intros wr d rl' Hq'. unfold set_wrec_data. destruct (tls13_record_set_data _ _ _) as [[[]|] ?]; [|done]. cbn [snd]. quiet_tac. }
  unfold tls13_record_layer_seal_record. destruct (_ && _); [done|]. destruct tls13_record_new as [wr|]; [|quiet_tac].
  set (rl1 := (tls13_record_layer_wrec_free rl)<|wrec := Some wr|>). assert (Hq1 : quiet rl1) by (unfold rl1, tls13_record_layer_wrec_free; quiet_tac).
  clearbody rl1. destruct (_ || _).
  - unfold tls13_record_layer_seal_record_plaintext. destruct (handshake_completed rl1); [done|]. destruct (_ && _); [done|].
    destruct (cbb_run _); [by apply Hset|done].
  - unfold tls13_record_layer_seal_record_protected. destruct (aead rl1) as [a|]; [|done]. destruct (cbb_run _) as [inner|]; [|done].
    destruct (_ <? _); [done|]. destruct (_ <? _); [done|]. destruct (cbb_run _) as [header|]; [|done]. destruct (fst _) as [[pos data]|]; [|done].
    destruct (tls13_record_layer_update_nonce _ _ _) as [[[]|] n]; [|done]. set (rl2 := rl1 <|write := _|>).
    assert (Hq2 : quiet rl2) by (unfold rl2; quiet_tac). clearbody rl2.
    destruct (_ ≫= _) as [out|]; [|done]. destruct (negb _); [done|].
    destruct (tls13_record_layer_inc_seq_num _) as [[[]|] seq]; [|done]. apply Hset. quiet_tac.
Qed.
Lemma quiet_send_wrec rl w : quiet rl -> quiet (send_wrec (rl, w)).2.1.
Proof.
  intros Hq. unfold send_wrec. destruct (wrec rl); [|done]. destruct (tls13_record_send _ _) as [ret [wr' w']]. cbn [fst snd].
  unfold tls13_record_layer_wrec_free. destruct (ret <=? 0); quiet_tac.
Qed.
(** What a write of an alert reports: the length of the alert, or no success. *)
Definition alert_written (ct ret : Z) : Prop := ct = SSL3_RT_ALERT -> ret <= 0 \/ ret = 2.
Lemma quiet_write_new ct content rl w :
  quiet rl -> (ct = SSL3_RT_ALERT -> zlen content = 2) ->
  quiet (write_new_record ct content (rl, w)).2.1 /\ alert_written ct (write_new_record ct content (rl, w)).1.
Proof.
  intros Hq Hc. unfold write_new_record, alert_written. destruct (_ <? _); [by split; [|left]|]. pose proof (quiet_seal ct content rl Hq Hc) as Hs.
  destruct (tls13_record_layer_seal_record ct content rl) as [[[]|] rl1]; [|by split; [|left]]. cbn [snd] in Hs.
  pose proof (quiet_send_wrec rl1 w Hs) as Hw. destruct (send_wrec (rl1, w)) as [ret st]. cbn [fst snd] in *. split; [done|].
  intros E. destruct (Z.leb_spec ret 0); [by left|right; by apply Hc].
Qed.
Lemma quiet_write_record ct content rl w :
  quiet rl -> (ct = SSL3_RT_ALERT -> zlen content = 2) ->
  quiet (tls13_record_layer_write_record ct content (rl, w)).2.1 /\ alert_written ct (tls13_record_layer_write_record ct content (rl, w)).1.
Proof.
  intros Hq Hc. unfold tls13_record_layer_write_record, alert_written. destruct (write_closed rl); [by split; [|left]|].
  destruct (_ && _) eqn:Ea. { split; [cbn [fst snd]; quiet_tac|]. intros ->. done. }
  destruct (wrec rl) as [wr|]; [|by apply quiet_write_new]. pose proof (quiet_send_wrec rl w Hq) as Hs.
  destruct (send_wrec (rl, w)) as [ret [rl1 w1]]. cbn [fst snd] in Hs. destruct (Z.leb_spec ret 0) as [Hle|_]; [by split; [|left]|].
  destruct (Z.eqb_spec (wrec_content_type rl1) ct) as [E|E].
  { cbn [fst snd]. split; [quiet_tac|]. intros Ect. right. apply Hs. congruence. }
  destruct (negb (wrec_content_type rl1 =? _)); [by split; [|left]|]. apply quiet_write_new; [quiet_tac|done].
Qed.

(** An alert has two bytes, whatever number it is given. *)
Lemma add_u8_appends s h v bs :
  builder Grow s [] h bs -> outcome (CBB_add_u8 h v s) (fun _ s' => exists b, builder Grow s' [] h (bs ++ [b])) True.
Proof.
  intros Hb. unfold CBB_add_u8. destruct (_ <? _); [done|].
  eapply outcome_impl; [apply (cbb_add_u_spec Grow s [] h (Some bs) (wrap32 v) 1); [by apply builder_view|lia|apply Z.mod_pos_bound; lia]|..]; [|done].
  intros _ s' (? & [= <-] & Hb'). pose proof (zlen_be_bytes 1 (wrap32 v)) as Hl. destruct (be_bytes 1 (wrap32 v)) as [|x [|y l]]; [done| |].
  - by exists x.
  - rewrite !zlen_cons in Hl. zl.
Qed.
Lemma alert_build_length level desc data : cbb_run (alert_build level desc) = Some data -> zlen data = 2.
Proof.
  assert (Ho : outcome (alert_build level desc (mkStore None ∅)) (fun r _ => zlen (ztake (snd r) (fst r)) = 2) True).
  { unfold alert_build. eapply outcome_bind; [apply CBB_init_spec; unfold SIZE_MAX; lia|done|]. intros [] s1 Hb.
    eapply outcome_bind; [by apply add_u8_appends|done|]. intros [] s2 [x Hb2].
    eapply outcome_bind; [by apply add_u8_appends|done|]. intros [] s3 [y Hb3].
    eapply outcome_impl; [apply (CBB_finish_spec Grow s3 0%nat (Some [x; y]) true); by apply builder_view|..]; [|done].
    intros r s4 (bs & [= <-] & _ & -> & _). done. }
  unfold cbb_run. destruct (alert_build level desc _) as [[[buf len]|] s1]; [|done]. cbn in Ho. by intros [= <-].
Qed.

(** Sending the pending alert. *)
Definition fatal (desc : Z) : Prop := desc <> TLS13_ALERT_CLOSE_NOTIFY /\ desc <> TLS13_ALERT_USER_CANCELED.
Lemma quiet_send_alert rl w :
  quiet rl -> alert_data rl <> None ->
  quiet (tls13_record_layer_send_alert (rl, w)).2.1 /\ (fatal (alert_desc rl) -> (tls13_record_layer_send_alert (rl, w)).1 <= 0).
Proof.
  intros Hq Hd. destruct (alert_data rl) as [d|] eqn:Ed; [|done]. pose proof Hq as (_ & _ & Ha & _). destruct (Ha d Ed) as [Hz Hl].
  unfold tls13_record_layer_send_alert, mbind, State_bind, gets. cbn [fst]. rewrite Ed.
  destruct (quiet_write_record SSL3_RT_ALERT d rl w Hq ltac:(done)) as [Hq1 Hw]. specialize (Hw eq_refl).
  destruct (tls13_record_layer_write_record SSL3_RT_ALERT d (rl, w)) as [ret [rl1 w1]]. cbn [fst snd] in *. rewrite Hl.
  destruct (Z.eqb_spec ret 2) as [->|Hne]; cbn [negb].
  2: { destruct (ret =? TLS13_IO_EOF); (split; [done|]); intros _; [done|cbn; lia]. }
  cbn [mod_rl]. unfold fatal.
  destruct (Z.eqb_spec (alert_desc rl) TLS13_ALERT_CLOSE_NOTIFY) as [E1|E1]; [split; [cbn; quiet_tac|intros [? _]; done]|].
  destruct (Z.eqb_spec (alert_desc rl) TLS13_ALERT_USER_CANCELED) as [E2|E2]; [split; [cbn; quiet_tac|intros [_ ?]; done]|].
  split; [cbn; quiet_tac|]. done.
Qed.

(** The calls of the record layer. *)
Lemma quiet_send_pending rl w :
  quiet rl -> quiet (tls13_record_layer_send_pending (rl, w)).2.1 /\
    (alert_data rl <> None -> fatal (alert_desc rl) -> (tls13_record_layer_send_pending (rl, w)).1 <= 0).
Proof.
  intros Hq. pose proof Hq as (Hp & _). unfold tls13_record_layer_send_pending. rewrite Hp. cbn [andb].
  destruct (alert_data rl) as [d|] eqn:Ed; [|done]. destruct (quiet_send_alert rl w Hq ltac:(by rewrite Ed)) as [Hk Hle]. split; [exact Hk|]. intros _. exact Hle.
Qed.
Lemma quiet_enqueue level desc rl w :
  quiet rl -> quiet (tls13_record_layer_enqueue_alert level desc (rl, w)).2.1 /\
    (fatal desc -> (tls13_record_layer_enqueue_alert level desc (rl, w)).1 <= 0).
Proof.
  intros Hq. unfold tls13_record_layer_enqueue_alert. destruct (alert_data rl) as [d|]; [by split|].
  destruct (cbb_run (alert_build level desc)) as [data|] eqn:Eb; [|by split]. apply alert_build_length in Eb. set (rl1 := _ <|alert_desc := _|>).
  assert (Hq1 : quiet rl1). { destruct Hq as (? & ? & _ & ?). unfold rl1, quiet. rl_simpl. split_and!; try done. by intros ? [= <-]. }
  destruct (quiet_send_pending rl1 w Hq1) as [Hk Hle]. split; [exact Hk|]. intros Hf. apply Hle; [unfold rl1; by rl_simpl|unfold rl1; by rl_simpl].
Qed.
Lemma hushed_send_pending : hushed tls13_record_layer_send_pending.
Proof. intros [rl w] Hq. by apply quiet_send_pending. Qed.
Lemma hushed_tls13_send_alert desc : hushed (tls13_send_alert desc).
Proof. apply hushed_retry. intros [rl w] Hq. by apply quiet_enqueue. Qed.
(** After a fatal alert there is no success. *)
Lemma fatal_alert_stops desc rl w : quiet rl -> fatal desc -> (tls13_send_alert desc (rl, w)).1 <= 0.
Proof.
  intros Hq Hf. unfold tls13_send_alert, retry. match goal with |- context [tls13_record_layer_enqueue_alert ?l _] => set (level := l) end. clearbody level. generalize 2%nat. intros n. revert rl w Hq.
  induction n as [|n IH]; intros rl w Hq; [done|]. cbn [while_retry]. unfold mbind, State_bind.
  destruct (quiet_enqueue level desc rl w Hq) as [Hq1 Hr]. destruct (tls13_record_layer_enqueue_alert level desc (rl, w)) as [ret [rl1 w1]]. cbn [fst snd] in *.
  destruct (_ =? _); [by apply IH|by apply Hr].
Qed.

Lemma hushed_alert_received l d : hushed (alert_received l d).
Proof.
  apply hushed_bind; [apply hushed_gets|]. intros rl0.
  destruct (_ =? _); [apply hushed_bind; [apply hushed_mod; intros; quiet_tac|intros []; apply hushed_step]|].
  destruct (_ =? _); [apply hushed_step|].
  destruct (_ =? _); [apply hushed_bind; [apply hushed_mod; intros; quiet_tac|intros []; apply hushed_step]|].
  destruct (_ && _); [apply hushed_ret|apply hushed_tls13_send_alert].
Qed.
Lemma hushed_process_alert : hushed tls13_record_layer_process_alert.
Proof.
  intros [rl w] Hq. unfold tls13_record_layer_process_alert. destruct (rbuf rl); [|done]. destruct (negb _); [done|].
  destruct (CBS_get_u8 (rbuf_cbs rl)) as [[lv|] c]; [|apply hushed_tls13_send_alert; quiet_tac].
  destruct (CBS_get_u8 c) as [[d|] c2]; [|apply hushed_tls13_send_alert; quiet_tac].
  destruct (negb _); [apply hushed_tls13_send_alert; quiet_tac|apply hushed_alert_received; unfold tls13_record_layer_rbuf_free; quiet_tac].
Qed.
Lemma hushed_read_ccs rec : hushed (read_ccs rec).
Proof.
  intros [rl w] Hq. unfold read_ccs. destruct (_ || _); [by apply hushed_tls13_send_alert|].
  destruct (tls13_record_content rec) as [c|]; [|by apply hushed_tls13_send_alert].
  destruct (CBS_get_u8 c) as [[x|] ?]; [|by apply hushed_tls13_send_alert]. destruct (negb _); [by apply hushed_tls13_send_alert|].
  cbn [snd]. unfold tls13_record_layer_rrec_free. quiet_tac.
Qed.
Lemma hushed_dispatch : hushed dispatch_record.
Proof.
  intros [rl w] Hq. unfold dispatch_record. cbv zeta. destruct (_ && _); [by apply hushed_tls13_send_alert|].
  destruct (_ =? _); [by apply hushed_process_alert|]. destruct (_ =? _); [done|].
  destruct (_ =? _); [|by apply hushed_tls13_send_alert]. destruct (negb _); [by apply hushed_tls13_send_alert|done].
Qed.
Lemma hushed_process_record rec : hushed (process_record rec).
Proof.
  intros [rl w] Hq. unfold process_record. destruct (_ && _); [by apply hushed_tls13_send_alert|].
  cbv zeta. destruct (_ =? _); [by apply hushed_read_ccs|]. destruct (_ && _); [by apply hushed_tls13_send_alert|].
  destruct (open_record_frame rec rl) as [Hs _].
  assert (Hq1 : quiet (tls13_record_layer_open_record rec rl).2) by (rewrite Hs; destruct rl; quiet_tac).
  destruct (tls13_record_layer_open_record rec rl) as [[[]|] rl1]; [|exact Hq1]. apply hushed_dispatch. cbn [fst snd] in *.
  unfold tls13_record_layer_rrec_free. quiet_tac.
Qed.
Lemma hushed_read_record : hushed tls13_record_layer_read_record.
Proof.
  intros [rl w] Hq. unfold tls13_record_layer_read_record. destruct (match rrec rl with Some r => Some r | None => _ end) as [rec|]; [|done].
  destruct (tls13_record_recv _ _) as [ret [rec1 w1]]. assert (Hq1 : quiet (rl <|rrec := Some rec1|>)) by quiet_tac.
  destruct (_ <=? _); [|by apply hushed_process_record].
  destruct (_ =? _); [by apply hushed_tls13_send_alert|]. destruct (_ =? _); [by apply hushed_tls13_send_alert|done].
Qed.
(** Post-handshake messages are not received before the handshake is completed. *)
Lemma hushed_read_plaintext ct n peek : hushed (read_plaintext ct n peek).
Proof.
  assert (Hno : forall st, quiet st.1 -> forall d, quiet (let '(ret, st') := tls13_send_alert d st in ((ret, @nil Z), st')).2.1).
  { intros st Hq d. pose proof (hushed_tls13_send_alert d st Hq). by destruct (tls13_send_alert d st). }
  intros [rl w] Hq. unfold read_plaintext. pose proof Hq as (_ & Hh & _). cbn [fst] in Hh. rewrite Hh, andb_false_r.
  destruct (_ && _); [by apply (Hno (rl, w))|]. destruct (negb _); [by apply (Hno (rl, w))|]. cbv zeta.
  destruct (if peek then _ else _) as [[[]|] c]; cbn [fst snd]; [|quiet_tac]. unfold tls13_record_layer_rbuf_free. destruct (_ =? _); quiet_tac.
Qed.
Lemma hushed_read_internal ct n peek : hushed (tls13_record_layer_read_internal ct n peek).
Proof.
  intros st Hq. unfold tls13_record_layer_read_internal. pose proof (hushed_send_pending st Hq) as Hp.
  destruct (tls13_record_layer_send_pending st) as [ret [rl w]]. cbn [fst snd] in Hp. destruct (negb _); [done|].
  destruct (read_closed rl); [done|]. destruct (_ =? 0); [|by apply hushed_read_plaintext].
  pose proof (hushed_read_record (rl, w) Hp) as Hr. destruct (tls13_record_layer_read_record (rl, w)) as [ret2 [rl2 w2]]. cbn [fst snd] in Hr.
  destruct (_ <=? _); [done|]. destruct (_ =? 0); [cbn [fst snd]; unfold tls13_record_layer_rbuf_free; quiet_tac|by apply hushed_read_plaintext].
Qed.
Lemma hushed_read fuel ct n : hushed (tls13_record_layer_read fuel ct n).
Proof.
  apply hushed_bind; [apply hushed_retry, hushed_read_internal|]. intros r. apply hushed_bind; [apply hushed_gets|]. intros rl.
  destruct (negb _); [|apply hushed_ret]. apply hushed_bind; [apply hushed_tls13_send_alert|]. intros. apply hushed_ret.
Qed.
Lemma hushed_write fuel ct buf : ct <> SSL3_RT_ALERT -> hushed (tls13_record_layer_write fuel ct buf).
Proof.
  intros Hct. apply hushed_bind; [apply hushed_retry, hushed_send_pending|]. intros ret. destruct (negb _); [apply hushed_ret|].
  apply hushed_retry. intros [rl w] Hq. by apply quiet_write_record.
Qed.
Lemma hushed_dummy_ccs fuel : hushed (tls13_send_dummy_ccs fuel).
Proof.
  apply hushed_bind; [apply hushed_gets|]. intros rl. destruct (ccs_sent rl); [apply hushed_ret|].
  apply hushed_bind; [by apply hushed_write|]. intros ret. destruct (_ <=? _); [apply hushed_ret|].
  apply hushed_bind; [apply hushed_mod; intros; quiet_tac|]. intros. apply hushed_ret.
Qed.

(** ** Messages *)

(** Receiving and sending a message keep whatever reading and writing keep. *)
Lemma extend_keeps (I : state -> Prop) (read : read_cb state) n buf st :
  (forall n st, I st -> I (read n st).2) -> I st -> I (tls13_buffer_extend read n (buf, st)).2.2.
Proof.
  intros Hr Hi. unfold tls13_buffer_extend. destruct (_ =? _); [done|]. destruct (_ <? _); [done|].
  destruct (tls13_buffer_resize _ _) as [[[]|] b]; [|done]. generalize (Z.to_nat (tb_capacity b - tb_len b)) as fuel. intros fuel.
  revert b st Hi. induction fuel as [|fuel IH]; intros b st Hi; [done|]. cbn [extend_loop].
  specialize (Hr (tb_capacity b - tb_len b) st Hi). destruct (read _ st) as [[ret bs] st1]. cbn [snd] in Hr.
  destruct (_ <=? _); [done|]. destruct (_ <? _); [done|]. destruct (_ =? _); [done|]. by apply IH.
Qed.
Lemma msg_recv_keeps (I : state -> Prop) (read : read_cb state) msg st :
  (forall n st, I st -> I (read n st).2) -> I st -> I (tls13_handshake_msg_recv read (msg, st)).2.2.
Proof.
  intros Hr. assert (Hb : forall msg st, I st -> I (msg_recv_body read (msg, st)).2.2).
  { clear msg st. intros msg st Hi. unfold msg_recv_body. pose proof (extend_keeps I read (TLS13_HANDSHAKE_MSG_HEADER_LEN + hm_msg_len msg) (hm_buf msg) st Hr Hi) as He.
    destruct (tls13_buffer_extend _ _ _) as [ret [b st1]]. cbn [snd] in He. destruct (_ <=? _); [done|]. by destruct (tls13_buffer_finish b) as [[? ?] ?]. }
  intros Hi. unfold tls13_handshake_msg_recv. destruct (hm_data msg); [done|]. destruct (_ =? _); [|by apply Hb].
  pose proof (extend_keeps I read TLS13_HANDSHAKE_MSG_HEADER_LEN (hm_buf msg) st Hr Hi) as He.
  destruct (tls13_buffer_extend _ _ _) as [ret [b st1]]. cbn [snd] in He. destruct (_ <=? _); [done|].
  destruct (parse_msg_header _) as [[[t l]|] ?]; [|done]. destruct (_ <? _); [done|by apply Hb].
Qed.
Lemma msg_send_keeps (I : state -> Prop) (write : write_cb state) msg st :
  (forall bs st, I st -> I (write bs st).2) -> I st -> I (tls13_handshake_msg_send write (msg, st)).2.2.
Proof.
  intros Hw Hi. unfold tls13_handshake_msg_send. destruct (hm_data msg); [|done]. destruct (_ =? _); [done|].
  generalize (Z.to_nat (CBS_len (hm_cbs msg))) as fuel. intros fuel. revert msg st Hi. induction fuel as [|fuel IH]; intros msg st Hi; [done|].
  cbn [msg_send_loop]. destruct (_ =? _); [done|]. specialize (Hw (ztake (CBS_len (hm_cbs msg)) (CBS_data (hm_cbs msg))) st Hi).
  destruct (write _ st) as [ret st1]. cbn [snd] in Hw. destruct (_ <=? _); [done|]. destruct (CBS_skip _ _) as [[[]|] c]; [|done]. by apply IH.
Qed.
End Quiet.
