(* ===== verification/HandshakeSpec.v ===== *)
(** * What the handshake driver promises

    However often it is interrupted and resumed, a handshake completes only along one
    of the message sequences of RFC 8446, as the types of the messages on the wire show
    it; the driver's loop ends. *)
From Stdlib Require Import String.
From S2P Require Import Prelude Compat Cbs Cbb CbbSpec CbbBuild Tls13Buffer Tls13Record HandshakeMsg KeySchedule RecordLayer RecordLayerSpec RecordLayerIO RecordLayerQuiet Handshake.

(** ** The stage and the handlers *)

(** The flags the handlers of a message may add to the kind of handshake: the places where
    tls13_client.c and tls13_server.c change [handshake_stage.hs_type]. *)
Definition flags_added (mode : Z) (mt : tls13_message_type) : list Z :=
  if mode =? TLS13_HS_CLIENT then
    match mt with
    | SERVER_HELLO_RETRY_REQUEST => [0; WITHOUT_HRR; Z.lor WITHOUT_HRR NEGOTIATED]
    | SERVER_HELLO => [0; NEGOTIATED]
    | SERVER_CERTIFICATE_REQUEST => [0; WITHOUT_CR]
    | CLIENT_CERTIFICATE => [0; WITH_CCV]
    | _ => [0]
    end
  else
    match mt with
    | CLIENT_HELLO => [0; Z.lor NEGOTIATED WITHOUT_HRR]
    | SERVER_HELLO => [0; NEGOTIATED; Z.lor NEGOTIATED WITHOUT_CR]
    | CLIENT_CERTIFICATE => [0; WITH_CCV]
    | _ => [0]
    end.

Lemma flags_closed (client : bool) mt :
  let fl := flags_added (if client then TLS13_HS_CLIENT else TLS13_HS_SERVER) mt in
  forallb (fun f => forallb (fun g => bool_decide (Z.lor f g ∈ fl)) fl) fl = true.
Proof. by destruct client, mt; vm_compute. Qed.
(** What a handler did is the work of both of its parts. *)
Lemma flags_added_lor mode mt f g :
  f ∈ flags_added mode mt -> g ∈ flags_added mode mt -> Z.lor f g ∈ flags_added mode mt.
Proof.
  intros Hf Hg. pose proof (flags_closed (mode =? TLS13_HS_CLIENT) mt) as Hc. unfold flags_added in *.
  destruct (mode =? TLS13_HS_CLIENT); rewrite forallb_forall in Hc; specialize (Hc f (proj1 (list_elem_of_In _ _) Hf));
    rewrite forallb_forall in Hc; specialize (Hc g (proj1 (list_elem_of_In _ _) Hg)); by apply bool_decide_eq_true in Hc.
Qed.
Lemma flags_added_0 mode mt : 0 ∈ flags_added mode mt.
Proof. unfold flags_added. destruct (mode =? _), mt; by left. Qed.

(** The sequences of messages of RFC 8446 section 2 without PSK, by sender and type on the wire: a retry request
    (which has the type of a ServerHello) and the second ClientHello, or none; a certificate request with the client's
    certificate and, if there is one, its verification, or none. *)
Definition rfc8446_sequence (hrr cr auth : bool) : list (Z * Z) :=
  let C := TLS13_HS_CLIENT in let S := TLS13_HS_SERVER in
  [(C, TLS13_MT_CLIENT_HELLO)] ++
  (if hrr then [(S, TLS13_MT_SERVER_HELLO); (C, TLS13_MT_CLIENT_HELLO)] else []) ++
  [(S, TLS13_MT_SERVER_HELLO); (S, TLS13_MT_ENCRYPTED_EXTENSIONS)] ++
  (if cr then [(S, TLS13_MT_CERTIFICATE_REQUEST)] else []) ++
  [(S, TLS13_MT_CERTIFICATE); (S, TLS13_MT_CERTIFICATE_VERIFY); (S, TLS13_MT_FINISHED)] ++
  (if cr then (C, TLS13_MT_CERTIFICATE) :: (if auth then [(C, TLS13_MT_CERTIFICATE_VERIFY)] else []) else []) ++
  [(C, TLS13_MT_FINISHED)].
Definition legal_handshake (l : list (Z * Z)) : Prop := exists hrr cr auth, l = rfc8446_sequence hrr cr auth.

(** Sender and type of the message that belongs to an entry of the table. *)
Definition sent_by (mt : tls13_message_type) : Z :=
  match mt with
  | CLIENT_HELLO | CLIENT_HELLO_RETRY | CLIENT_END_OF_EARLY_DATA | CLIENT_CERTIFICATE | CLIENT_CERTIFICATE_VERIFY | CLIENT_FINISHED => TLS13_HS_CLIENT
  | SERVER_HELLO | SERVER_HELLO_RETRY_REQUEST | SERVER_ENCRYPTED_EXTENSIONS | SERVER_CERTIFICATE_REQUEST | SERVER_CERTIFICATE
  | SERVER_CERTIFICATE_VERIFY | SERVER_FINISHED => TLS13_HS_SERVER
  | APPLICATION_DATA | INVALID => 0
  end.
Definition wire_type (mt : tls13_message_type) : Z :=
  match mt with
  | CLIENT_HELLO | CLIENT_HELLO_RETRY => TLS13_MT_CLIENT_HELLO
  | SERVER_HELLO | SERVER_HELLO_RETRY_REQUEST => TLS13_MT_SERVER_HELLO
  | CLIENT_END_OF_EARLY_DATA => TLS13_MT_END_OF_EARLY_DATA
  | SERVER_ENCRYPTED_EXTENSIONS => TLS13_MT_ENCRYPTED_EXTENSIONS
  | SERVER_CERTIFICATE_REQUEST => TLS13_MT_CERTIFICATE_REQUEST
  | SERVER_CERTIFICATE | CLIENT_CERTIFICATE => TLS13_MT_CERTIFICATE
  | SERVER_CERTIFICATE_VERIFY | CLIENT_CERTIFICATE_VERIFY => TLS13_MT_CERTIFICATE_VERIFY
  | SERVER_FINISHED | CLIENT_FINISHED => TLS13_MT_FINISHED
  | APPLICATION_DATA | INVALID => 0
  end.
(** The flag a client adds where it expects a certificate request, by the type of what it gets. *)
Definition request_flag (ty : Z) : Z := if ty =? TLS13_MT_CERTIFICATE then WITHOUT_CR else 0.
(** The flags and the type of a message with which the handshake may move on. *)
Definition moves (mode : Z) (mt : tls13_message_type) : list (Z * Z) :=
  if (mode =? TLS13_HS_CLIENT) && bool_decide (mt = SERVER_CERTIFICATE_REQUEST)
  then map (fun ty => (request_flag ty, ty)) [TLS13_MT_CERTIFICATE_REQUEST; TLS13_MT_CERTIFICATE]
  else map (fun f => (f, wire_type mt)) (flags_added mode mt).

Lemma moves_flags mode mt f ty : (f, ty) ∈ moves mode mt -> f ∈ flags_added mode mt.
Proof.
  unfold moves. destruct (mode =? TLS13_HS_CLIENT) eqn:Em; cbn [andb]; [case_bool_decide as Emt|].
  - intros Hin%list_elem_of_In. unfold flags_added. rewrite Em, Emt. apply list_elem_of_In. cbn in *. destruct Hin as [[= <- _]|[[= <- _]|[]]]; tauto.
  - intros Hin%list_elem_of_In. apply in_map_iff in Hin as (g & [= <- _] & Hg). by apply list_elem_of_In.
  - intros Hin%list_elem_of_In. apply in_map_iff in Hin as (g & [= <- _] & Hg). by apply list_elem_of_In.
Qed.

Definition stage : Type := Z * Z.

(** A stage changes while the handlers of its message run, and moves on when they are done. *)
Inductive stage_path (mode : Z) : stage -> list (Z * Z) -> stage -> Prop :=
  | path_nil st : stage_path mode st [] st
  | path_stay t n f l st :
      f ∈ flags_added mode (active_state t n) -> stage_path mode (Z.lor t f, n) l st -> stage_path mode (t, n) l st
  | path_next t n f ty l st :
      (f, ty) ∈ moves mode (active_state t n) -> n + 1 < TLS13_NUM_MESSAGE_TYPES ->
      stage_path mode (Z.lor t f, n + 1) l st -> stage_path mode (t, n) ((sent_by (active_state t n), ty) :: l) st
  | path_over t n f l st :
      f ∈ flags_added mode (active_state t n) -> TLS13_NUM_MESSAGE_TYPES <= n + 1 ->
      stage_path mode (Z.lor t f, n + 1) l st -> stage_path mode (t, n) l st.

(** *** Every path, by exploration *)

Definition state_list : Type := list (stage * list (Z * Z)).

(** A stage from which the handshake cannot complete. *)
Definition dead (st : stage) : bool := (handshake_count <=? st.1) || (zlen (handshakes st.1) <=? st.2).

(** The stages and sequences reached in one step. *)
Definition explore_step (mode : Z) (p : stage * list (Z * Z)) : state_list :=
  let '((t, n), l) := p in let mt := active_state t n in
  map (fun f => ((Z.lor t f, n), l)) (flags_added mode mt) ++
  map (fun '(f, ty) => ((Z.lor t f, n + 1), l ++ [(sent_by mt, ty)])) (moves mode mt).
Fixpoint explore (k : nat) (mode : Z) (known fresh : state_list) : state_list :=
  match k with
  | O => known
  | S k =>
      let next := filter (fun p => dead p.1 = false /\ p ∉ known) (remove_dups (flat_map (explore_step mode) fresh)) in
      explore k mode (known ++ next) next
  end.
Definition reachable (mode : Z) : state_list := explore 20 mode [((0, 0), [])] [((0, 0), [])].

Definition legal_sequences : list (list (Z * Z)) :=
  flat_map (fun hrr => flat_map (fun cr => map (rfc8446_sequence hrr cr) [false; true]) [false; true]) [false; true].

(** The exploration is complete, and what it found is legal. *)
Definition closed (mode : Z) (reach : state_list) : bool :=
  bool_decide (((0, 0), []) ∈ reach) &&
  forallb (fun p => forallb (fun q => dead q.1 || bool_decide (q ∈ reach)) (explore_step mode p)) reach &&
  forallb (fun p => negb (bool_decide (active_state p.1.1 p.1.2 = APPLICATION_DATA)) || bool_decide (p.2 ∈ legal_sequences)) reach.
Lemma client_closed : closed TLS13_HS_CLIENT (reachable TLS13_HS_CLIENT) = true.
Proof. vm_compute. reflexivity. Qed.
Lemma server_closed : closed TLS13_HS_SERVER (reachable TLS13_HS_SERVER) = true.
Proof. vm_compute. reflexivity. Qed.

Lemma dead_invalid t n : 0 <= n -> dead (t, n) = true -> active_state t n = INVALID.
Proof.
  unfold dead, active_state. cbn [fst snd]. intros Hn Hd. apply orb_true_iff in Hd as [Ht|Hl]; [by rewrite Ht|].
  destruct (handshake_count <=? t); [done|]. destruct (TLS13_NUM_MESSAGE_TYPES <=? n); [done|]. apply nth_overflow. unfold zlen in Hl. lia.
Qed.
Lemma dead_step mode t n f : 0 <= n -> dead (t, n) = true -> f ∈ flags_added mode (active_state t n) -> f = 0.
Proof.
  intros Hn Hd. rewrite (dead_invalid t n Hn Hd). unfold flags_added. destruct (mode =? _); by intros ?%list_elem_of_singleton.
Qed.
Lemma dead_late t n : TLS13_NUM_MESSAGE_TYPES <= n -> dead (t, n) = true.
Proof.
  intros Hn. apply orb_true_iff. right. cbn [fst snd]. apply Z.leb_le. trans 13; [|unfold TLS13_NUM_MESSAGE_TYPES in Hn; lia].
  unfold handshakes. repeat case_match; by vm_compute.
Qed.
Lemma dead_path mode st l st' : stage_path mode st l st' -> 0 <= st.2 -> dead st = true -> dead st' = true.
Proof.
  assert (Hnext : forall t n, dead (t, n) = true -> dead (t, n + 1) = true).
  { intros t n [Hd|Hd]%orb_true_iff; apply orb_true_iff; [by left|right]. cbn in *. lia. }
  induction 1 as [st|t n f l st Hf Hp IH|t n f ty l st Hf%moves_flags Hlt Hp IH|t n f l st Hf Hge Hp IH]; cbn [fst snd] in *; intros Hn Hd; [done|..];
    rewrite (dead_step mode t n f Hn Hd Hf), Z.lor_0_r in *; auto; try (apply IH; (lia || auto)).
Qed.

Definition is_mode (mode : Z) : Prop := mode = TLS13_HS_CLIENT \/ mode = TLS13_HS_SERVER.

Section Explored.
Context (mode : Z) (reach : state_list) (Hclosed : closed mode reach = true).

Lemma explored t n l0 q : ((t, n), l0) ∈ reach -> q ∈ explore_step mode ((t, n), l0) -> dead q.1 = true \/ q ∈ reach.
Proof using Hclosed.
  intros Hin Hq. pose proof Hclosed as Hc. apply andb_true_iff in Hc as [Hc _]. apply andb_true_iff in Hc as [_ Hc].
  rewrite forallb_forall in Hc. specialize (Hc _ (proj1 (list_elem_of_In _ _) Hin)). rewrite forallb_forall in Hc.
  specialize (Hc _ (proj1 (list_elem_of_In _ _) Hq)). apply orb_true_iff in Hc as [Hd|Hq']; [by left|right]. by apply bool_decide_eq_true in Hq'.
Qed.
Lemma explored_stay t n f l0 :
  ((t, n), l0) ∈ reach -> f ∈ flags_added mode (active_state t n) -> dead (Z.lor t f, n) = true \/ ((Z.lor t f, n), l0) ∈ reach.
Proof using Hclosed.
  intros Hin Hf. apply (explored t n l0 ((Z.lor t f, n), l0) Hin). apply list_elem_of_In, in_or_app. left.
  apply in_map_iff. exists f. split; [done|by apply list_elem_of_In].
Qed.
Lemma explored_next t n f ty l0 :
  ((t, n), l0) ∈ reach -> (f, ty) ∈ moves mode (active_state t n) ->
  dead (Z.lor t f, n + 1) = true \/ ((Z.lor t f, n + 1), l0 ++ [(sent_by (active_state t n), ty)]) ∈ reach.
Proof using Hclosed.
  intros Hin Hf. apply (explored t n l0 ((Z.lor t f, n + 1), l0 ++ [(sent_by (active_state t n), ty)]) Hin). apply list_elem_of_In, in_or_app. right.
  apply in_map_iff. exists (f, ty). split; [done|by apply list_elem_of_In].
Qed.

Lemma path_explored st l st' l0 :
  stage_path mode st l st' -> 0 <= st.2 -> (st, l0) ∈ reach -> dead st' = true \/ (st', l0 ++ l) ∈ reach.
Proof using Hclosed.
  intros Hp. revert l0. induction Hp as [st|t n f l st Hf Hp IH|t n f ty l st Hf Hlt Hp IH|t n f l st Hf Hge Hp IH];
    intros l0 Hn Hin; cbn [fst snd] in *.
  - right. by rewrite app_nil_r.
  - destruct (explored_stay t n f l0 Hin Hf) as [Hd|Hin']; [left; by eapply dead_path|auto].
  - destruct (explored_next t n f ty l0 Hin Hf) as [Hd|Hin']; [left; eapply dead_path; [exact Hp|cbn; lia|done]|].
    specialize (IH _ ltac:(lia) Hin'). by rewrite <- app_assoc in IH.
  - left. eapply dead_path; [exact Hp|cbn; unfold TLS13_NUM_MESSAGE_TYPES in Hge; lia|by apply dead_late].
Qed.

Lemma path_legal_in l t n :
  stage_path mode (0, 0) l (t, n) -> active_state t n = APPLICATION_DATA -> l ∈ legal_sequences.
Proof using Hclosed.
  intros Hp Ha. pose proof Hclosed as Hc. apply andb_true_iff in Hc as [Hc Hl]. apply andb_true_iff in Hc as [H00 _].
  apply bool_decide_eq_true in H00. destruct (path_explored _ _ _ [] Hp ltac:(cbn; lia) H00) as [Hd|Hin].
  - assert (Hn : 0 <= n). { clear -Hp. enough (forall st l st', stage_path mode st l st' -> 0 <= st.2 -> 0 <= st'.2) as Hall by (apply (Hall _ _ _ Hp); cbn; lia).
      induction 1; cbn [fst snd] in *; auto with lia. }
    rewrite (dead_invalid t n Hn Hd) in Ha. done.
  - rewrite forallb_forall in Hl. specialize (Hl _ (proj1 (list_elem_of_In _ _) Hin)). cbn [fst snd app] in Hl.
    rewrite Ha, bool_decide_true in Hl by done. cbn [negb orb] in Hl. by apply bool_decide_eq_true in Hl.
Qed.
End Explored.

Lemma path_legal mode l t n :
  is_mode mode -> stage_path mode (0, 0) l (t, n) -> active_state t n = APPLICATION_DATA -> legal_handshake l.
Proof.
  intros Hm Hp Ha. assert (Hl : l ∈ legal_sequences).
  { destruct Hm as [-> | ->]; [by eapply path_legal_in; [apply client_closed|..]|by eapply path_legal_in; [apply server_closed|..]]. }
  unfold legal_sequences in Hl. apply list_elem_of_In, in_flat_map in Hl as (hrr & _ & Hl).
  apply in_flat_map in Hl as (cr & _ & Hl). apply in_map_iff in Hl as (auth & <- & _). by exists hrr, cr, auth.
Qed.

(** ** The driver *)

Section DriverSpec.
Context `{Allocator} `{Hkdf} `{Aead} {W : Type} `{!Callbacks W} `{!Handlers (W := W)}.
Local Abbreviation hs_world := (tls13_ctx * W)%type.
Local Abbreviation body := (body (W := W)).

(** What the handlers promise: they leave the mode, the number of the message and the mark of
    completion alone, and add only the flags listed for their message; the other functions the driver
    calls leave the stage alone. *)
Definition keeps (c c' : tls13_ctx) : Prop :=
  mode c' = mode c /\ message_number c' = message_number c /\ ctx_handshake_completed c' = ctx_handshake_completed c.
Definition adds (mt : tls13_message_type) (c c' : tls13_ctx) : Prop :=
  keeps c c' /\ exists f, f ∈ flags_added (mode c) mt /\ hs_type c' = Z.lor (hs_type c) f.
Definition still (c c' : tls13_ctx) : Prop := keeps c c' /\ hs_type c' = hs_type c.

Class HandlerLaws := {
  hs_send_adds mt s : adds mt s.1 (hs_send mt s).2.1;
  hs_sent_adds mt s : adds mt s.1 (hs_sent mt s).2.1;
  hs_recv_adds mt s cbs : adds mt s.1 (hs_recv mt (s, cbs)).2.1.1;
  transcript_record_still l s : still s.1 (tls1_transcript_record l s).2.1;
  transcript_hash_still s : still s.1 (tls1_transcript_hash_value s).2.1;
  info_still f i s : info_cb = Some f -> still s.1 (f i s).2.1;
  message_sent_still f s : handshake_message_sent_cb = Some f -> still s.1 (f s).2.1;
  message_recv_still f s : handshake_message_recv_cb = Some f -> still s.1 (f s).2.1
}.
Context `{!HandlerLaws} (fuel : nat).

Lemma still_refl c : still c c.
Proof. done. Qed.
Lemma still_trans c1 c2 c3 : still c1 c2 -> still c2 c3 -> still c1 c3.
Proof. unfold still, keeps. intros ((? & ? & ?) & ?) ((? & ? & ?) & ?). split_and!; congruence. Qed.
Lemma still_adds mt c c' : still c c' -> adds mt c c'.
Proof. intros [Hk Ht]. split; [done|]. exists 0. rewrite Z.lor_0_r. split; [apply flags_added_0|done]. Qed.
Lemma adds_trans mt c1 c2 c3 : adds mt c1 c2 -> adds mt c2 c3 -> adds mt c1 c3.
Proof.
  intros ((Hm1 & Hn1 & Hc1) & f & Hf & Ht1) ((Hm2 & Hn2 & Hc2) & g & Hg & Ht2). rewrite Hm1 in Hg.
  split; [unfold keeps; split_and!; congruence|]. exists (Z.lor f g). split; [by apply flags_added_lor|].
  by rewrite Ht2, Ht1, Z.lor_assoc.
Qed.
Lemma adds_refl mt c : adds mt c c.
Proof. by apply still_adds. Qed.

#[export] Instance adds_preorder mt : PreOrder (adds mt).
Proof. split; [intros c; apply adds_refl|intros c1 c2 c3; apply adds_trans]. Qed.
Lemma adds_invalid c c' : adds INVALID c c' -> still c c'.
Proof.
  intros (Hk & f & Hf & Ht). split; [done|]. unfold flags_added in Hf. destruct (mode c =? _); apply list_elem_of_singleton in Hf as ->; by rewrite Z.lor_0_r in Ht.
Qed.

(** [grows R m]: running [m] changes the context along [R]. *)
Definition grows {A} (R : relation tls13_ctx) (m : hs_world -> A * hs_world) : Prop := forall s, R s.1 (m s).2.1.

(** A context that differs neither in its stage nor in its record layer. *)
Definition aside (c c' : tls13_ctx) : Prop := still c c' /\ ctx_rl c' = ctx_rl c.

(** What a relation must allow so that the actions for the message [mt] change the context along it. *)
Class Tolerant (R : relation tls13_ctx) (mt : tls13_message_type) := {
  tolerant_preorder :: PreOrder R;
  tolerant_aside c c' : aside c c' -> R c c';
  tolerant_ccs : grows R (on_rl (tls13_send_dummy_ccs fuel));
  tolerant_alert desc : grows R (on_rl (tls13_send_alert desc));
  tolerant_msg_send : grows R (on_msg TLS13_IO_FAILURE (tls13_handshake_msg_send (msg_write_cb fuel)));
  tolerant_msg_recv : grows R (on_msg TLS13_IO_FAILURE (tls13_handshake_msg_recv (tls13_handshake_msg_read_cb fuel)));
  tolerant_hs_send : grows R (hs_send mt);
  tolerant_hs_sent : grows R (hs_sent mt);
  tolerant_hs_recv s cbs : R s.1 (hs_recv mt (s, cbs)).2.1.1;
  tolerant_record l : grows R (tls1_transcript_record l);
  tolerant_hash : grows R tls1_transcript_hash_value;
  tolerant_info f i : info_cb = Some f -> grows R (f i);
  tolerant_sent_cb f : handshake_message_sent_cb = Some f -> grows R f;
  tolerant_recv_cb f : handshake_message_recv_cb = Some f -> grows R f
}.

Section Grows.
Context (R : relation tls13_ctx) (mt : tls13_message_type) `{!Tolerant R mt}.

Lemma grows_ret {A} (a : A) : grows R (mret a : body A).
Proof. intros s. reflexivity. Qed.
Lemma grows_return {A} r : grows R (return_ r : body A).
Proof. intros s. reflexivity. Qed.
Lemma grows_bind {A B} (m : body A) (f : A -> body B) : grows R m -> (forall a, grows R (f a)) -> grows R (m ≫= f).
Proof.
  intros Hm Hf s. unfold mbind, body_bind. specialize (Hm s). destruct (m s) as [[r|a] s1]; [done|]. etrans; [exact Hm|apply Hf].
Qed.
Lemma grows_must {A} (m : M hs_world A) : grows R m -> grows R (must m).
Proof. intros Hm s. unfold must. specialize (Hm s). by destruct (m s) as [[a|] s1]. Qed.
Lemma grows_call {A} (m : State hs_world A) : grows R m -> grows R (call m).
Proof. intros Hm s. unfold call. specialize (Hm s). by destruct (m s). Qed.
Lemma grows_set f : (forall c, aside c (f c)) -> grows R (set_ctx f).
Proof. intros Hf [c w]. apply tolerant_aside, Hf. Qed.
Lemma grows_ctx : grows R ctx_.
Proof. intros [c w]. reflexivity. Qed.
Lemma grows_run (m : body Z) : grows R m -> grows R (run_body m).
Proof. intros Hm s. unfold run_body. specialize (Hm s). by destruct (m s) as [[r|r] s1]. Qed.
Lemma grows_edit m : grows R (edit_msg m).
Proof. intros [c w]. unfold edit_msg. destruct (hs_msg c); [|reflexivity]. destruct (m _). by apply tolerant_aside. Qed.
Lemma grows_new : grows R new_msg.
Proof. intros [c w]. unfold new_msg. destruct tls13_handshake_msg_new; by apply tolerant_aside. Qed.
Lemma grows_record : grows R tls13_handshake_msg_record.
Proof. intros [c w]. unfold tls13_handshake_msg_record. destruct (hs_msg c); [|reflexivity]. apply (tolerant_record _ (c, w)). Qed.
Lemma grows_preserve b : grows R (preserve_transcript_hash b).
Proof.
  unfold preserve_transcript_hash. destruct b; [|apply grows_ret]. apply grows_bind; [|intros h; by apply grows_set].
  apply grows_must, tolerant_hash.
Qed.
Lemma grows_optional (f : option (State hs_world unit)) : (forall g, f = Some g -> grows R g) -> grows R (call (optional f id)).
Proof. intros Hf. apply grows_call. intros s. destruct f as [g|]; [by apply Hf|reflexivity]. Qed.
Lemma grows_calls :
  grows R (call (on_rl (tls13_send_dummy_ccs fuel))) /\ (forall desc, grows R (call (on_rl (tls13_send_alert desc)))) /\
  grows R (call (on_msg TLS13_IO_FAILURE (tls13_handshake_msg_send (msg_write_cb fuel)))) /\
  grows R (call (on_msg TLS13_IO_FAILURE (tls13_handshake_msg_recv (tls13_handshake_msg_read_cb fuel)))).
Proof.
  split_and!; intros; apply grows_call; [apply tolerant_ccs|apply tolerant_alert|apply tolerant_msg_send|apply tolerant_msg_recv].
Qed.

Create HintDb grows.
#[local] Hint Resolve grows_ret grows_return grows_must grows_call grows_ctx grows_run grows_edit grows_new grows_record grows_preserve
  tolerant_sent_cb tolerant_recv_cb : grows.
(** [grow]: follow the structure of a body. *)
Ltac grow :=
  repeat first
    [ solve [auto with grows]
    | apply grows_set; intros; done
    | apply grows_bind; [|intros]
    | apply grows_optional; eauto with grows
    | case_match ].

Lemma send_action_grows : grows R (tls13_handshake_send_action fuel (state_machine mt)).
Proof.
  unfold tls13_handshake_send_action, send_owed_ccs, build_message. apply grows_run.
  assert (Hs : grows R (must (handler (act_send (state_machine mt))))).
  { apply grows_must. intros s. pose proof (tolerant_hs_send s). by destruct mt. }
  assert (Hsent : forall f, act_sent (state_machine mt) = Some f -> grows R (must f)).
  { intros f Hf. apply grows_must. intros s. pose proof (tolerant_hs_sent s). destruct mt; try done; by injection Hf as <-. }
  destruct grows_calls as (? & ? & ? & ?). grow; eauto.
Qed.
Lemma content_grows cbs : grows R (call (receive_content (state_machine mt) cbs)).
Proof.
  apply grows_call. intros s. unfold receive_content. assert (Ha : R s.1 (handler (act_recv (state_machine mt)) (s, cbs)).2.1.1).
  { pose proof (tolerant_hs_recv s cbs). by destruct mt. }
  destruct (handler _ _) as [r [[c w] cbs']]. cbn [fst snd] in Ha. destruct r as [[]|]; [|done].
  destruct (negb _); [|done]. etrans; [exact Ha|by apply tolerant_aside].
Qed.
Lemma recv_action_grows : grows R (tls13_handshake_recv_action fuel (state_machine mt)).
Proof.
  unfold tls13_handshake_recv_action. apply grows_run. pose proof content_grows as Hr.
  assert (Hg : grows R (call (gets (fun s => method_version s <? TLS1_3_VERSION)))).
  { apply grows_call. intros s. reflexivity. }
  destruct grows_calls as (? & ? & ? & ?). grow; eauto.
Qed.
End Grows.

Lemma grows_on_rl {A} mt (m : State (tls13_record_layer * W) A) : grows (adds mt) (on_rl m).
Proof. intros [c w]. unfold on_rl. destruct (m _) as [a [rl w1]]. by apply still_adds. Qed.
Lemma grows_on_msg {A} mt (none : A) m : grows (adds mt) (on_msg none m).
Proof. intros [c w]. unfold on_msg. destruct (hs_msg c); [|apply adds_refl]. destruct (m _) as [a [hm [rl w1]]]. by apply still_adds. Qed.
#[export] Instance adds_tolerant mt : Tolerant (adds mt) mt.
Proof.
  split; try apply _; try (intros; apply grows_on_rl || apply grows_on_msg).
  - intros c c' [Hs _]. by apply still_adds.
  - intros s. apply hs_send_adds.
  - intros s. apply hs_sent_adds.
  - intros s cbs. apply hs_recv_adds.
  - intros l s. apply still_adds, transcript_record_still.
  - intros s. apply still_adds, transcript_hash_still.
  - intros f i Hf s. by apply still_adds, info_still.
  - intros f Hf s. by apply still_adds, message_sent_still.
  - intros f Hf s. by apply still_adds, message_recv_still.
Qed.

(** *** The record layer and the message *)

(** The record layer stays without post-handshake messages. *)
Definition hush (c c' : tls13_ctx) : Prop := quiet (ctx_rl c) -> quiet (ctx_rl c').

(** What the handlers and the other functions promise beyond that: none of them makes a post-handshake message or completes
    the handshake of the record layer, what runs between a message's arrival and its handler leaves
    the message alone, and the client's handler of a certificate request, when it succeeds, has added WITHOUT_CR exactly if
    the message was a certificate. *)
Class MessageLaws := {
  hs_send_hush mt s : hush s.1 (hs_send mt s).2.1;
  hs_sent_hush mt s : hush s.1 (hs_sent mt s).2.1;
  hs_recv_hush mt s cbs : hush s.1 (hs_recv mt (s, cbs)).2.1.1;
  transcript_record_hush l s : hush s.1 (tls1_transcript_record l s).2.1 /\ hs_msg (tls1_transcript_record l s).2.1 = hs_msg s.1;
  transcript_hash_hush s : hush s.1 (tls1_transcript_hash_value s).2.1 /\ hs_msg (tls1_transcript_hash_value s).2.1 = hs_msg s.1;
  info_hush f i s : info_cb = Some f -> hush s.1 (f i s).2.1;
  message_sent_hush f s : handshake_message_sent_cb = Some f -> hush s.1 (f s).2.1;
  message_recv_hush f s : handshake_message_recv_cb = Some f -> hush s.1 (f s).2.1 /\ hs_msg (f s).2.1 = hs_msg s.1;
  certificate_request_flag c w cbs hm s' :
    mode c = TLS13_HS_CLIENT -> hs_msg c = Some hm -> hs_recv SERVER_CERTIFICATE_REQUEST ((c, w), cbs) = (Some tt, s') ->
    hs_type s'.1.1 = Z.lor (hs_type c) (request_flag (tls13_handshake_msg_type hm))
}.
Context `{!MessageLaws}.

Lemma hush_on_rl {A} (m : State (tls13_record_layer * W) A) : hushed m -> grows hush (on_rl m).
Proof. intros Hm [c w] Hq. unfold on_rl. specialize (Hm (ctx_rl c, w) Hq). by destruct (m _) as [a [rl w1]]. Qed.
Lemma hush_on_msg none m :
  (forall hm st, quiet st.1 -> quiet (m (hm, st)).2.2.1) -> grows hush (on_msg (A := Z) none m).
Proof.
  intros Hm [c w] Hq. unfold on_msg. destruct (hs_msg c) as [hm|]; [|done]. specialize (Hm hm (ctx_rl c, w) Hq).
  by destruct (m _) as [a [hm' [rl w1]]].
Qed.
#[export] Instance hush_tolerant mt : Tolerant hush mt.
Proof.
  split.
  - split; [by intros c Hq|]. unfold hush. intros c1 c2 c3. tauto.
  - intros c c' [_ Hr]. unfold hush. by rewrite Hr.
  - apply hush_on_rl, hushed_dummy_ccs.
  - intros desc. apply hush_on_rl, hushed_tls13_send_alert.
  - apply hush_on_msg. intros hm st Hq. apply (msg_send_keeps (fun st => quiet st.1)); [|done]. intros bs st'. by apply hushed_write.
  - apply hush_on_msg. intros hm st Hq. apply (msg_recv_keeps (fun st => quiet st.1)); [|done]. intros n st'. apply hushed_read.
  - intros s. apply hs_send_hush.
  - intros s. apply hs_sent_hush.
  - intros s cbs. apply hs_recv_hush.
  - intros l s. apply transcript_record_hush.
  - intros s. apply transcript_hash_hush.
  - intros f i Hf s. by apply info_hush.
  - intros f Hf s. by apply message_sent_hush.
  - intros f Hf s. by apply message_recv_hush.
Qed.

(** *** What a receiving pass gets *)

(** The type of the message that a receiving pass from this state parses from what arrives. *)
Definition received_type : hs_world -> Z := fun '(c, w) =>
  let s := match hs_msg c with Some _ => (c, w) | None => (new_msg (c, w)).2 end in
  let s := on_msg TLS13_IO_FAILURE (tls13_handshake_msg_recv (tls13_handshake_msg_read_cb fuel)) s in
  match hs_msg s.2.1 with Some hm => tls13_handshake_msg_type hm | None => 0 end.

(** Along [glance] nothing happens to stage and message, and the record layer stays quiet. *)
Definition glance (c c' : tls13_ctx) : Prop := still c c' /\ hush c c' /\ hs_msg c' = hs_msg c.
Lemma glance_refl c : glance c c.
Proof. split_and!; [done|by intros Hq|done]. Qed.
Lemma glance_trans c1 c2 c3 : glance c1 c2 -> glance c2 c3 -> glance c1 c3.
Proof. intros (H12 & Q12 & E12) (H23 & Q23 & E23). split_and!; [by eapply still_trans|unfold hush in *; tauto|congruence]. Qed.
Lemma glance_preserve b s r s' : preserve_transcript_hash b s = (r, s') -> glance s.1 s'.1 /\ (forall ret, r = inl ret -> ret <= 0).
Proof.
  unfold preserve_transcript_hash. destruct b; [|intros [= <- <-]; split; [apply glance_refl|done]]. unfold mbind, body_bind, must.
  pose proof (transcript_hash_still s) as Hs. destruct (transcript_hash_hush s) as [Hh Hm].
  destruct (tls1_transcript_hash_value s) as [[h|] [c1 w1]]; cbn [fst snd] in *; intros [= <- <-]; (split; [done|]); [done|by intros ret [= <-]].
Qed.
Lemma glance_record s r s' : must tls13_handshake_msg_record s = (r, s') -> glance s.1 s'.1 /\ (forall ret, r = inl ret -> ret <= 0).
Proof.
  destruct s as [c w]. unfold must, tls13_handshake_msg_record. destruct (hs_msg c) as [m|] eqn:Em; [|intros [= <- <-]; split; [apply glance_refl|by intros ret [= <-]]].
  set (l := ztake _ _). pose proof (transcript_record_still l (c, w)) as Hs. destruct (transcript_record_hush l (c, w)) as [Hh Hm].
  destruct (tls1_transcript_record l (c, w)) as [[[]|] [c1 w1]]; cbn [fst snd] in *; intros [= <- <-]; (split; [done|]); [done|by intros ret [= <-]].
Qed.
Lemma glance_recv_cb s r s' : call (optional handshake_message_recv_cb id) s = (r, s') -> glance s.1 s'.1 /\ r = inr tt.
Proof.
  unfold call. destruct handshake_message_recv_cb as [f|] eqn:Ef; cbn [optional]; [|intros [= <- <-]; split; [apply glance_refl|done]].
  pose proof (message_recv_still f s Ef) as Hs. destruct (message_recv_hush f s Ef) as [Hh Hm]. unfold id.
  destruct (f s) as [[] s1]. intros [= <- <-]. done.
Qed.

Lemma body_bind_inv {A} (m : body A) (f : A -> body Z) s r s' :
  run_body (m ≫= f) s = (r, s') ->
  (exists s1, m s = (inl r, s1)) \/ exists a s1, m s = (inr a, s1) /\ run_body (f a) s1 = (r, s').
Proof.
  unfold run_body, mbind, body_bind. destruct (m s) as [[x|a] s1]; [|intros Hf; right; by exists a, s1].
  intros [= <- <-]. left. by exists s1.
Qed.

(** The part of a receiving pass up to the message. *)
Lemma message_arrives c w s1 s2 ret :
  quiet (ctx_rl c) -> (match hs_msg c with Some _ => mret tt | None => must new_msg end : body unit) (c, w) = (inr tt, s1) ->
  call (on_msg TLS13_IO_FAILURE (tls13_handshake_msg_recv (tls13_handshake_msg_read_cb fuel))) s1 = (inr ret, s2) ->
  still c s2.1 /\ quiet (ctx_rl s2.1) /\ received_type (c, w) = match hs_msg s2.1 with Some hm => tls13_handshake_msg_type hm | None => 0 end.
Proof.
  intros Hq Hnew Hrecv.
  assert (Hst1 : still c s1.1 /\ quiet (ctx_rl s1.1) /\ s1 = match hs_msg c with Some _ => (c, w) | None => (new_msg (c, w)).2 end).
  { destruct (hs_msg c); [injection Hnew as <-; done|]. unfold must in Hnew.
    pose proof (grows_new (adds INVALID) INVALID (c, w)) as Hs. pose proof (grows_new hush INVALID (c, w) Hq) as Hh.
    destruct (new_msg (c, w)) as [[[]|] s1']; [|done]. injection Hnew as <-. split; [by apply adds_invalid|done]. }
  destruct Hst1 as (Hs1 & Hq1 & E1). unfold call in Hrecv.
  assert (Er : received_type (c, w) = match hs_msg (on_msg TLS13_IO_FAILURE (tls13_handshake_msg_recv (tls13_handshake_msg_read_cb fuel)) s1).2.1 with
    Some hm => tls13_handshake_msg_type hm | None => 0 end) by (rewrite E1; done).
  rewrite Er. clear Er.
  pose proof (tolerant_msg_recv (R := adds INVALID) (mt := INVALID) s1) as Hs. pose proof (tolerant_msg_recv (R := hush) (mt := INVALID) s1 Hq1) as Hh.
  destruct (on_msg _ _ s1) as [ret' [c2 w2]]. injection Hrecv as -> <-. cbn [fst snd] in *. split; [|done].
  eapply still_trans; [exact Hs1|by apply adds_invalid].
Qed.

(** The handler of a certificate request has succeeded. *)
Lemma request_handled c w cbs hm ret c' w' :
  mode c = TLS13_HS_CLIENT -> hs_msg c = Some hm ->
  run_body (ret ← call (receive_content (state_machine SERVER_CERTIFICATE_REQUEST) cbs);
            _ ← set_ctx (set_hs_msg None);
            legacy ← call (gets (fun s => method_version s <? TLS1_3_VERSION));
            mret (if legacy : bool then TLS13_IO_USE_LEGACY else ret)) (c, w) = (ret, (c', w')) -> 0 < ret ->
  hs_type c' = Z.lor (hs_type c) (request_flag (tls13_handshake_msg_type hm)).
Proof.
  intros Hm Hhm Hact Hpos. unfold run_body, mbind, body_bind, call, gets in Hact. unfold receive_content in Hact.
  change (handler (act_recv (state_machine SERVER_CERTIFICATE_REQUEST)) ((c, w), cbs)) with (hs_recv SERVER_CERTIFICATE_REQUEST ((c, w), cbs)) in Hact.
  destruct (hs_recv SERVER_CERTIFICATE_REQUEST ((c, w), cbs)) as [[[]|] [[c1 w1] cbs1]] eqn:Eh; cbn in Hact.
  - apply (certificate_request_flag c w cbs hm _ Hm Hhm) in Eh. cbn in Eh. rewrite <- Eh.
    destruct (negb _); cbn in Hact; destruct (_ <? _); cbn in Hact; injection Hact as <- <- _; done.
  - destruct (_ <? _); cbn in Hact; injection Hact as <- _ _; done.
Qed.

(** A receiving pass that moves on has got a message of the expected type, or a certificate instead of a certificate request. *)
Lemma recv_action_type mt c w ret c' w' :
  quiet (ctx_rl c) -> tls13_handshake_recv_action fuel (state_machine mt) (c, w) = (ret, (c', w')) -> 0 < ret ->
  unexpected_message (state_machine mt) (received_type (c, w)) = false /\
  (mode c = TLS13_HS_CLIENT -> mt = SERVER_CERTIFICATE_REQUEST -> hs_type c' = Z.lor (hs_type c) (request_flag (received_type (c, w)))).
Proof.
  intros Hq Hact Hpos. unfold tls13_handshake_recv_action in Hact.
  apply body_bind_inv in Hact as [[s0 Hx]|(c0 & s0 & Hx & Hact)]; [done|]. injection Hx as <- <-.
  apply body_bind_inv in Hact as [[s1 Hx]|([] & s1 & Hnew & Hact)].
  { destruct (hs_msg c); [done|]. unfold must in Hx. destruct (new_msg (c, w)) as [[[]|] ?]; [done|]. injection Hx as <- _. done. }
  apply body_bind_inv in Hact as [[s2 Hx]|(ret2 & s2 & Hrecv & Hact)]; [unfold call in Hx; by destruct (on_msg _ _ s1)|].
  destruct (message_arrives c w s1 s2 ret2 Hq Hnew Hrecv) as (Hs2 & Hq2 & Hty).
  destruct (Z.leb_spec ret2 0) as [Hle|_]; [injection Hact as -> _; lia|].
  apply body_bind_inv in Hact as [[s3 Hx]|([] & s3 & Hpres & Hact)]; [apply glance_preserve in Hx as [_ Hx]; specialize (Hx _ eq_refl); lia|].
  apply body_bind_inv in Hact as [[s4 Hx]|([] & s4 & Hrec & Hact)]; [apply glance_record in Hx as [_ Hx]; specialize (Hx _ eq_refl); lia|].
  apply body_bind_inv in Hact as [[s5 Hx]|([] & s5 & Hcb & Hact)]; [by apply glance_recv_cb in Hx as [_ Hx]|].
  apply glance_preserve in Hpres as [G3 _]. apply glance_record in Hrec as [G4 _]. apply glance_recv_cb in Hcb as [G5 _].
  destruct (glance_trans _ _ _ (glance_trans _ _ _ G3 G4) G5) as (Hs5 & Hh5 & Hm5). specialize (Hh5 Hq2). clear G3 G4 G5 Hrecv Hnew.
  apply body_bind_inv in Hact as [[s6 Hx]|(c5 & s6 & Hx & Hact)]; [by destruct s5|]. destruct s5 as [c5' w5]. injection Hx as <- <-. cbn [fst] in *.
  rewrite <- Hm5 in Hty. destruct (hs_msg c5') as [hm|] eqn:Ehm; [|injection Hact as <- _ _; done]. rewrite Hty.
  destruct (unexpected_message _ _).
  { exfalso. pose proof (fatal_alert_stops TLS13_ALERT_UNEXPECTED_MESSAGE (ctx_rl c5') w5 Hh5 ltac:(done)) as Hle.
    unfold run_body, mbind, body_bind, call, on_rl, return_ in Hact. destruct (tls13_send_alert _ _) as [x [rl w6]]. injection Hact as <- _ _. cbn in Hle. lia. }
  split; [done|]. intros Hmode ->. destruct (tls13_handshake_msg_content hm) as [[[]|] cbs]; [|injection Hact as <- _ _; done].
  rewrite (request_handled c5' w5 cbs hm ret c' w'); [|destruct Hs2 as [(Hm1 & _) _], Hs5 as [(Hm2 & _) _]; congruence|done|exact Hact|done].
  destruct Hs2 as [_ Ht2], Hs5 as [_ Ht5]. by rewrite Ht5, Ht2.
Qed.
(** *** Runs of the driver *)

Definition stage_of (c : tls13_ctx) : stage := (hs_type c, message_number c).

(** Sender and type of the message of a pass: what it parses when it receives, the type it builds when it sends. *)
Definition pass_label (s : hs_world) : Z * Z :=
  match tls13_handshake_active_action s.1 with
  | None => (0, 0)
  | Some a => (sender a, if sender a =? mode s.1 then handshake_type a else received_type s)
  end.

(** The passes of the driver's loop, over any number of calls, with the messages exchanged; between
    the passes other code may run that leaves the stage alone and makes no post-handshake message. *)
Inductive handshake_run : hs_world -> list (Z * Z) -> hs_world -> Prop :=
  | run_nil s : handshake_run s [] s
  | run_pass c w c' w' l s :
      perform_step fuel (c, w) = (None, (c', w')) -> handshake_run (c', w') l s ->
      handshake_run (c, w) (pass_label (c, w) :: l) s
  | run_stop c w r c' w' l s :
      perform_step fuel (c, w) = (Some r, (c', w')) -> handshake_run (c', w') l s -> handshake_run (c, w) l s
  | run_other c w c' w' l s : still c c' -> hush c c' -> handshake_run (c', w') l s -> handshake_run (c, w) l s.

(** The messages of the passes of one call that go on, and those of several calls on a context, between which the
    application and the network do anything else. *)
Fixpoint loop_trace (passes : nat) (s : hs_world) : list (Z * Z) :=
  match passes with
  | O => []
  | S n => match perform_step fuel s with (None, s') => pass_label s :: loop_trace n s' | (Some _, _) => [] end
  end.
Definition perform_trace : hs_world -> list (Z * Z) := fun '(c, w) =>
  let '(_, s) :=
    if handshake_started c then (tt, (c, w))
    else optional info_cb (fun f => f TLS13_INFO_HANDSHAKE_STARTED) (set_started c, w) in
  loop_trace (Z.to_nat (TLS13_NUM_MESSAGE_TYPES + 1)) s.
Inductive handshake_calls : tls13_ctx -> list (Z * Z) -> tls13_ctx -> Prop :=
  | calls_none c : handshake_calls c [] c
  | calls_more c w ret c1 w1 l c' :
      tls13_handshake_perform fuel (c, w) = (ret, (c1, w1)) -> handshake_calls c1 l c' ->
      handshake_calls c (perform_trace (c, w) ++ l) c'.

Lemma adds_path mt c c' l st :
  adds mt c c' -> mt = active_state (hs_type c) (message_number c) ->
  stage_path (mode c) (stage_of c') l st -> stage_path (mode c) (stage_of c) l st.
Proof.
  intros ((_ & Hn & _) & f & Hf & Ht) -> Hp. unfold stage_of in *. rewrite Ht, Hn in Hp. by eapply path_stay.
Qed.

Lemma still_path mode c c' l st : still c c' -> stage_path mode (stage_of c') l st -> stage_path mode (stage_of c) l st.
Proof. intros ((_ & Hn & _) & Ht). unfold stage_of. by rewrite Hn, Ht. Qed.
Lemma on_rl_still {A} (m : State (tls13_record_layer * W) A) c w : still c (on_rl m (c, w)).2.1.
Proof. unfold on_rl. by destruct (m _) as [a [rl w1]]. Qed.

(** What a pass does to the stage. *)
Definition pass_effect (c : tls13_ctx) (r : option Z) (c' : tls13_ctx) : Prop :=
  mode c' = mode c /\ 0 <= message_number c' /\
  match r with
  | None => (message_number c' = message_number c + 1 /\ message_number c' < TLS13_NUM_MESSAGE_TYPES) /\
      ctx_handshake_completed c' = ctx_handshake_completed c
  | Some _ => (ctx_handshake_completed c' = ctx_handshake_completed c \/
               (active_state (hs_type c) (message_number c) = APPLICATION_DATA /\ stage_of c' = stage_of c)) /\
      forall l st, stage_path (mode c) (stage_of c') l st -> stage_path (mode c) (stage_of c) l st
  end.
Lemma still_effect c r c' : 0 <= message_number c -> still c c' -> pass_effect c (Some r) c'.
Proof.
  intros Hn Hs. pose proof Hs as ((Hm & Hn' & Hc) & _). unfold pass_effect. split_and!; [done|lia|by left|].
  intros l st. by apply still_path.
Qed.
Lemma adds_effect c r c' :
  0 <= message_number c -> adds (active_state (hs_type c) (message_number c)) c c' -> pass_effect c (Some r) c'.
Proof.
  intros Hn Hs. pose proof Hs as ((Hm & Hn' & Hc) & _). unfold pass_effect. split_and!; [done|lia|by left|].
  intros l st. by eapply adds_path.
Qed.

Lemma active_action_inv c a :
  tls13_handshake_active_action c = Some a ->
  a = state_machine (active_state (hs_type c) (message_number c)) /\ message_number c < TLS13_NUM_MESSAGE_TYPES.
Proof.
  unfold tls13_handshake_active_action, tls13_handshake_active_state. intros Ha. split; [by destruct (active_state _ _); simplify_eq|].
  unfold active_state in Ha. destruct (_ <=? _) in Ha; [done|].
  destruct (Z.leb_spec TLS13_NUM_MESSAGE_TYPES (message_number c)); [done|lia].
Qed.

(** The end of a pass that does not stop: the next message. *)
Lemma advance_effect c c1 (w1 : W) :
  0 <= message_number c < TLS13_NUM_MESSAGE_TYPES -> adds (active_state (hs_type c) (message_number c)) c c1 ->
  let '(r, s) := tls13_handshake_advance_state_machine (c1, w1) in
  pass_effect c (match r with None => Some TLS13_IO_FAILURE | Some _ => None end) s.1.
Proof.
  intros Hn ((Hm & Hn1 & Hc) & f & Hf & Ht). unfold tls13_handshake_advance_state_machine, TLS13_NUM_MESSAGE_TYPES in *.
  assert (wrap8 (message_number c1 + 1) = message_number c + 1) as ->.
  { unfold wrap8. rewrite Hn1. apply Z.mod_small. lia. }
  destruct (Z.leb_spec 15 (message_number c + 1)) as [Hge|Hlt]; unfold pass_effect, stage_of;
    cbn [fst set_message_number mode message_number ctx_handshake_completed hs_type]; rewrite ?Ht.
  - split_and!; [done|lia|by left|]. intros l st Hp. by eapply path_over.
  - split_and!; (done || lia).
Qed.

Lemma perform_step_effect c w r c' w' :
  0 <= message_number c -> perform_step fuel (c, w) = (r, (c', w')) -> pass_effect c r c'.
Proof.
  intros Hn. unfold perform_step. destruct (tls13_handshake_active_action c) as [a|] eqn:Ea.
  2: { intros [= <- <- <-]. by apply still_effect. }
  apply active_action_inv in Ea as [-> Hlt]. set (mt := active_state (hs_type c) (message_number c)) in *.
  destruct (handshake_complete _) eqn:Ec.
  { set (c1 := set_rl _ _). assert (Hmt : mt = APPLICATION_DATA) by (by destruct mt).
    assert (Hst : still c1 (optional info_cb (fun f => f TLS13_INFO_HANDSHAKE_COMPLETED) (c1, w)).2.1).
    { destruct info_cb as [f|] eqn:Ei; [by apply (info_still f _ (c1, w))|done]. }
    destruct (optional _ _ _) as [[] [c2 w2]]. cbn [fst snd] in Hst. intros [= <- <- <-].
    pose proof Hst as ((Hm & Hn2 & _) & Ht). change (mode c1) with (mode c) in Hm. change (message_number c1) with (message_number c) in Hn2.
    change (hs_type c1) with (hs_type c) in Ht. unfold pass_effect, stage_of. rewrite Hn2, Ht. split_and!; auto; lia. }
  destruct (negb (ctx_alert c =? 0)).
  { pose proof (on_rl_still (tls13_send_alert (ctx_alert c)) c w) as Hst.
    destruct (on_rl _ _) as [ret [c1 w1]]. intros [= <- <- <-]. by apply still_effect. }
  set (action := if _ =? _ then _ else _).
  assert (Hact : adds mt c (action (c, w)).2.1).
  { unfold action. destruct (_ =? _); [apply (send_action_grows (adds mt) mt (c, w))|apply (recv_action_grows (adds mt) mt (c, w))]. }
  destruct (action (c, w)) as [ret [c1 w1]]. cbn [fst snd] in Hact.
  destruct (negb (ctx_alert c1 =? 0)).
  { pose proof (on_rl_still (tls13_send_alert (ctx_alert c1)) c1 w1) as Hst.
    destruct (on_rl _ _) as [ret2 [c2 w2]]. intros [= <- <- <-]. apply adds_effect; [done|].
    eapply adds_trans; [exact Hact|by apply still_adds]. }
  destruct (ret <=? 0); [intros [= <- <- <-]; by apply adds_effect|].
  pose proof (advance_effect c c1 w1 ltac:(lia) Hact) as Hadv.
  destruct (tls13_handshake_advance_state_machine (c1, w1)) as [[[]|] [c2 w2]]; intros [= <- <- <-]; exact Hadv.
Qed.

(** At the end of the table every pass is the last. *)
Lemma perform_step_done c w r c' w' :
  active_state (hs_type c) (message_number c) = APPLICATION_DATA -> perform_step fuel (c, w) = (r, (c', w')) ->
  r = Some TLS13_IO_SUCCESS /\ stage_of c' = stage_of c.
Proof.
  intros Ha. unfold perform_step, tls13_handshake_active_action, tls13_handshake_active_state. rewrite Ha. cbn [handshake_complete state_machine].
  set (c1 := set_rl _ _).
  assert (Hst : still c1 (optional info_cb (fun f => f TLS13_INFO_HANDSHAKE_COMPLETED) (c1, w)).2.1).
  { destruct info_cb as [f|] eqn:Ei; [by apply (info_still f _ (c1, w))|done]. }
  destruct (optional _ _ _) as [[] [c2 w2]]. cbn [fst snd] in Hst. intros [= <- <- <-]. split; [done|].
  destruct Hst as ((_ & Hn & _) & Ht). unfold stage_of. by rewrite Hn, Ht.
Qed.
Lemma handshake_run_done s l s' :
  handshake_run s l s' -> active_state (hs_type s.1) (message_number s.1) = APPLICATION_DATA -> l = [].
Proof.
  induction 1 as [s|c w c' w' l s Hs Hr IH|c w r c' w' l s Hs Hr IH|c w c' w' l s Hs Hh Hr IH]; intros Ha; cbn [fst] in *; [done|..].
  - by apply perform_step_done in Hs as [? _].
  - apply perform_step_done in Hs as [_ Hst]; [|done]. apply IH. unfold stage_of in Hst. injection Hst as -> ->. done.
  - destruct Hs as ((_ & Hn & _) & Ht). apply IH. by rewrite Hn, Ht.
Qed.

(** A pass that goes on moves along the table with the message it has sent or received. *)
Lemma state_machine_wire mt : sender (state_machine mt) = sent_by mt /\ handshake_type (state_machine mt) = wire_type mt.
Proof. by destruct mt. Qed.
Lemma moves_received md mt f ty :
  is_mode md -> sent_by mt <> md -> f ∈ flags_added md mt -> unexpected_message (state_machine mt) ty = false ->
  (md = TLS13_HS_CLIENT -> mt = SERVER_CERTIFICATE_REQUEST -> f = request_flag ty) -> (f, ty) ∈ moves md mt.
Proof.
  intros Hmd Hne Hf Hu Hreq. unfold unexpected_message in Hu. rewrite (proj2 (state_machine_wire mt)) in Hu.
  unfold moves. destruct (Z.eqb_spec md TLS13_HS_CLIENT) as [Em|Em]; cbn [andb].
  - case_bool_decide as Emt.
    + rewrite (Hreq Em Emt). apply list_elem_of_In, in_map_iff. exists ty. split; [done|]. rewrite Emt in Hu. cbn [wire_type] in Hu.
      destruct (Z.eqb_spec ty TLS13_MT_CERTIFICATE_REQUEST) as [->|]; [by left|]. destruct (Z.eqb_spec ty TLS13_MT_CERTIFICATE) as [->|]; [by right; left|done].
    + apply list_elem_of_In, in_map_iff. exists f. split; [|by apply list_elem_of_In]. f_equal.
      destruct (Z.eqb_spec ty (wire_type mt)) as [->|]; [done|]. destruct (Z.eqb_spec (wire_type mt) TLS13_MT_CERTIFICATE_REQUEST); [by destruct mt|].
      by rewrite orb_true_r in Hu.
  - destruct Hmd as [?|Hmd]; [done|]. apply list_elem_of_In, in_map_iff. exists f. split; [|by apply list_elem_of_In]. f_equal.
    destruct (Z.eqb_spec ty (wire_type mt)) as [->|]; [done|]. destruct (Z.eqb_spec (wire_type mt) TLS13_MT_CERTIFICATE_REQUEST); [destruct mt; done || by rewrite Hmd in Hne|].
    by rewrite orb_true_r in Hu.
Qed.

Lemma action_moves c w f :
  let mt := active_state (hs_type c) (message_number c) in
  let action := if sent_by mt =? mode c then tls13_handshake_send_action fuel (state_machine mt) else tls13_handshake_recv_action fuel (state_machine mt) in
  is_mode (mode c) -> quiet (ctx_rl c) -> f ∈ flags_added (mode c) mt -> hs_type (action (c, w)).2.1 = Z.lor (hs_type c) f -> 0 < (action (c, w)).1 ->
  exists g, hs_type (action (c, w)).2.1 = Z.lor (hs_type c) g /\
    (g, if sent_by mt =? mode c then wire_type mt else received_type (c, w)) ∈ moves (mode c) mt.
Proof.
  intros mt action Hmd Hq Hf Ht Hpos. unfold action in *. clear action. destruct (Z.eqb_spec (sent_by mt) (mode c)) as [Es|Es].
  - exists f. split; [done|]. unfold moves. case_bool_decide as Emt; rewrite ?andb_false_r.
    + rewrite Emt in Es. rewrite <- Es. apply list_elem_of_In, in_map_iff. exists f. split; [by rewrite Emt|]. apply list_elem_of_In. by rewrite Es.
    + apply list_elem_of_In, in_map_iff. exists f. split; [done|by apply list_elem_of_In].
  - destruct (tls13_handshake_recv_action fuel (state_machine mt) (c, w)) as [ret [c1 w1]] eqn:Er. cbn [fst snd] in *.
    destruct (recv_action_type mt c w ret c1 w1 Hq Er Hpos) as [Hu Hreq].
    destruct (decide (mode c = TLS13_HS_CLIENT /\ mt = SERVER_CERTIFICATE_REQUEST)) as [[Em Emt]|Hno].
    + exists (request_flag (received_type (c, w))). split; [by apply Hreq|]. apply moves_received; try done.
      unfold flags_added, request_flag. rewrite Em, Emt. cbn. destruct (_ =? _); [by right; left|by left].
    + exists f. split; [done|]. apply moves_received; try done. intros Em Emt. by destruct Hno.
Qed.

Lemma perform_step_moves c w c' w' :
  is_mode (mode c) -> 0 <= message_number c -> quiet (ctx_rl c) -> perform_step fuel (c, w) = (None, (c', w')) ->
  quiet (ctx_rl c') /\
  forall l st, stage_path (mode c) (stage_of c') l st -> stage_path (mode c) (stage_of c) (pass_label (c, w) :: l) st.
Proof.
  intros Hmd Hn Hq Hstep. unfold pass_label. cbn [fst]. unfold perform_step in Hstep.
  destruct (tls13_handshake_active_action c) as [a|] eqn:Ea; [|done].
  apply active_action_inv in Ea as [-> Hlt]. set (mt := active_state (hs_type c) (message_number c)) in *.
  destruct (handshake_complete _); [by destruct (optional _ _ _)|]. destruct (negb (ctx_alert c =? 0)); [by destruct (on_rl _ _)|].
  destruct (state_machine_wire mt) as [Es Ew]. rewrite Es in *. rewrite Ew.
  set (action := if sent_by mt =? mode c then _ else _) in Hstep.
  assert (Hact : adds mt c (action (c, w)).2.1 /\ quiet (ctx_rl (action (c, w)).2.1)).
  { unfold action. destruct (_ =? _); [split; [apply (send_action_grows (adds mt) mt (c, w))|by apply (send_action_grows hush mt (c, w))]|
      split; [apply (recv_action_grows (adds mt) mt (c, w))|by apply (recv_action_grows hush mt (c, w))]]. }
  destruct Hact as [((Hm & Hn1 & _) & f & Hf & Ht) Hq1].
  assert (Hmove : 0 < (action (c, w)).1 -> exists g, hs_type (action (c, w)).2.1 = Z.lor (hs_type c) g /\
    (g, if sent_by mt =? mode c then wire_type mt else received_type (c, w)) ∈ moves (mode c) mt).
  { intros Hpos. by apply (action_moves c w f). }
  destruct (action (c, w)) as [ret [c1 w1]]. cbn [fst snd] in *.
  destruct (negb (ctx_alert c1 =? 0)); [by destruct (on_rl _ _)|]. destruct (Z.leb_spec ret 0) as [|Hpos]; [done|].
  destruct (Hmove Hpos) as (g & Hg & Hin). unfold tls13_handshake_advance_state_machine in Hstep.
  assert (wrap8 (message_number c1 + 1) = message_number c + 1) as Ew8.
  { unfold wrap8, TLS13_NUM_MESSAGE_TYPES in *. rewrite Hn1. apply Z.mod_small. lia. }
  rewrite Ew8 in Hstep. destruct (Z.leb_spec TLS13_NUM_MESSAGE_TYPES (message_number c + 1)); [done|]. injection Hstep as <- _.
  split; [done|]. intros l st Hp. unfold stage_of in *. cbn [set_message_number hs_type message_number] in Hp. rewrite Hg in Hp.
  by eapply path_next.
Qed.

(** A pass that stops leaves the record layer quiet, unless it completes the handshake. *)
Lemma perform_step_quiet c w r c' w' :
  quiet (ctx_rl c) -> perform_step fuel (c, w) = (Some r, (c', w')) ->
  quiet (ctx_rl c') \/ active_state (hs_type c) (message_number c) = APPLICATION_DATA.
Proof.
  intros Hq. unfold perform_step. destruct (tls13_handshake_active_action c) as [a|] eqn:Ea; [|intros [= _ <- _]; by left].
  apply active_action_inv in Ea as [-> _]. set (mt := active_state (hs_type c) (message_number c)) in *.
  destruct (handshake_complete _) eqn:Ec; [intros _; right; by destruct mt|]. intros Hs. left. revert Hs.
  assert (Hal : forall d s, quiet (ctx_rl s.1) -> quiet (ctx_rl (on_rl (tls13_send_alert d) s).2.1)).
  { intros d s. apply (tolerant_alert (R := hush) (mt := INVALID) d s). }
  destruct (negb (ctx_alert c =? 0)).
  { intros Hs. specialize (Hal (ctx_alert c) (c, w) Hq). destruct (on_rl _ _) as [? [? ?]]. by injection Hs as _ <- _. }
  set (action := if _ =? _ then _ else _).
  assert (Hact : quiet (ctx_rl (action (c, w)).2.1)).
  { unfold action. destruct (_ =? _); [by apply (send_action_grows hush mt (c, w))|by apply (recv_action_grows hush mt (c, w))]. }
  destruct (action (c, w)) as [ret [c1 w1]]. cbn [fst snd] in Hact. destruct (negb (ctx_alert c1 =? 0)).
  { intros Hs. specialize (Hal (ctx_alert c1) (c1, w1) Hact). destruct (on_rl _ _) as [? [? ?]]. by injection Hs as _ <- _. }
  destruct (ret <=? 0); [by intros [= _ <- _]|]. unfold tls13_handshake_advance_state_machine.
  destruct (_ <=? _); [by intros [= _ <- _]|done].
Qed.

(** Along a run the stage follows the table, and completion is marked only at its end. *)
Lemma handshake_run_path s l s' :
  handshake_run s l s' -> is_mode (mode s.1) -> 0 <= message_number s.1 -> quiet (ctx_rl s.1) -> ctx_handshake_completed s.1 = false ->
  ctx_handshake_completed s'.1 = true ->
  exists st, stage_path (mode s.1) (stage_of s.1) l st /\ active_state st.1 st.2 = APPLICATION_DATA.
Proof.
  induction 1 as [s|c w c' w' l s Hs Hr IH|c w r c' w' l s Hs Hr IH|c w c' w' l s Hs Hh Hr IH]; intros Hmd Hn Hq Hc Hd; cbn [fst] in *.
  - congruence.
  - pose proof (perform_step_effect _ _ _ _ _ Hn Hs) as (Hm & Hn' & _ & Hc'). rewrite Hc in Hc'.
    destruct (perform_step_moves _ _ _ _ Hmd Hn Hq Hs) as [Hq' Hp]. rewrite Hm in IH.
    destruct (IH Hmd Hn' Hq' Hc' Hd) as (st & Hst & Ha). exists st. auto.
  - pose proof (perform_step_effect _ _ _ _ _ Hn Hs) as (Hm & Hn' & [Hc'|[Ha Hst]] & Hp).
    + rewrite Hc in Hc'. rewrite Hm in IH. destruct (perform_step_quiet _ _ _ _ _ Hq Hs) as [Hq'|Ha].
      * destruct (IH Hmd Hn' Hq' Hc' Hd) as (st & Hst & Ha). exists st. auto.
      * destruct (perform_step_done _ _ _ _ _ Ha Hs) as [_ Hst]. unfold stage_of in Hst. injection Hst as Ht Hnn. rewrite <- Ht, <- Hnn in Ha.
        rewrite (handshake_run_done _ _ _ Hr Ha). exists (stage_of c). split; [constructor|]. unfold stage_of. cbn. by rewrite <- Ht, <- Hnn.
    + unfold stage_of in Hst. injection Hst as Ht Hnn. rewrite <- Ht, <- Hnn in Ha.
      rewrite (handshake_run_done _ _ _ Hr Ha). exists (stage_of c). split; [constructor|]. unfold stage_of. cbn. by rewrite <- Ht, <- Hnn.
  - pose proof Hs as ((Hm & Hn' & Hc') & Ht). rewrite Hm in IH. destruct (IH Hmd ltac:(lia) (Hh Hq) ltac:(congruence) Hd) as (st & Hst & Ha).
    exists st. split; [|done]. by eapply still_path.
Qed.

Lemma handshake_run_app s1 l1 s2 l2 s3 : handshake_run s1 l1 s2 -> handshake_run s2 l2 s3 -> handshake_run s1 (l1 ++ l2) s3.
Proof. induction 1; intros Hr; cbn [app]; eauto using handshake_run. Qed.

Lemma perform_loop_run n s r s' : perform_loop fuel n s = (r, s') -> handshake_run s (loop_trace n s) s'.
Proof.
  revert s. induction n as [|n IH]; intros [c w]; cbn [perform_loop loop_trace]; [intros [= _ <-]; constructor|].
  destruct (perform_step fuel (c, w)) as [[ret|] [c1 w1]] eqn:E.
  - intros [= _ <-]. eapply run_stop; [exact E|constructor].
  - intros Hl. eapply run_pass; [exact E|by apply IH].
Qed.
Lemma perform_run c w r s' : tls13_handshake_perform fuel (c, w) = (r, s') -> handshake_run (c, w) (perform_trace (c, w)) s'.
Proof.
  unfold tls13_handshake_perform, perform_trace. set (p := if handshake_started c then _ else _).
  assert (Hst : still c p.2.1 /\ hush c p.2.1).
  { unfold p. destruct (handshake_started c); [split; [done|by intros Hq]|]. destruct info_cb as [f|] eqn:Ei; [|split; [done|by intros Hq]].
    exact (conj (info_still f TLS13_INFO_HANDSHAKE_STARTED (set_started c, w) Ei) (info_hush f TLS13_INFO_HANDSHAKE_STARTED (set_started c, w) Ei)). }
  destruct p as [[] [c1 w1]]. cbn [fst snd] in Hst. destruct Hst as [Hst Hhu]. intros Hl%perform_loop_run. by eapply run_other.
Qed.
Lemma calls_run c l c' : handshake_calls c l c' -> forall w, exists w', handshake_run (c, w) l (c', w').
Proof.
  induction 1 as [c|c w1 ret c1 w2 l c' Hp _ IH]; intros w; [exists w; constructor|].
  destruct (IH w2) as [w' Hr]. exists w'. eapply (run_other c w c w1); [done|by intros Hq|].
  eapply handshake_run_app; [by eapply perform_run|exact Hr].
Qed.

(** The loop's bound: a pass that goes on brings the message number closer to its limit. *)
Lemma perform_loop_enough n m c w :
  0 <= message_number c -> TLS13_NUM_MESSAGE_TYPES - message_number c < Z.of_nat n -> (n <= m)%nat ->
  perform_loop fuel m (c, w) = perform_loop fuel n (c, w).
Proof.
  revert m c w. induction n as [|n IH]; intros m c w Hn Hb Hm.
  - destruct m as [|m]; [done|]. cbn [perform_loop]. unfold perform_step.
    assert (tls13_handshake_active_action c = None) as Hnone; [|rewrite Hnone; done].
    destruct (tls13_handshake_active_action c) as [a|] eqn:Ea; [|done]. apply active_action_inv in Ea as [_ Hlt]. lia.
  - destruct m as [|m]; [lia|]. cbn [perform_loop]. destruct (perform_step fuel (c, w)) as [[ret|] [c1 w1]] eqn:E; [done|].
    pose proof (perform_step_effect _ _ _ _ _ Hn E) as (_ & Hn1 & [Hnum _] & _). apply IH; lia.
Qed.
End DriverSpec.

(** ** Theorems *)


(** C14: The loop of [tls13_handshake_perform] ends: sixteen passes are as good as any greater number,
    because a pass that does not leave the loop has moved on to the next of the fifteen messages. *)
Theorem handshake_perform_terminates `{Allocator} `{Hkdf} `{Aead} {W} `{!Callbacks W} `{!Handlers (W := W)} `{!HandlerLaws} fuel
    n c w :
  0 <= message_number c -> (Z.to_nat (TLS13_NUM_MESSAGE_TYPES + 1) <= n)%nat ->
  perform_loop fuel n (c, w) = perform_loop fuel (Z.to_nat (TLS13_NUM_MESSAGE_TYPES + 1)) (c, w).
Proof. intros Hn Hle. apply perform_loop_enough; [done|unfold TLS13_NUM_MESSAGE_TYPES; lia|done]. Qed.

(** *** Concrete instances *)

#[local] Existing Instances ample toy_hkdf toy_aead toy_callbacks.

(** Handlers that accept every message and decide against everything optional; the client looks at the message where a
    certificate request may come. *)
Definition toy_flags (c : tls13_ctx) (mt : tls13_message_type) : Z :=
  if (mode c =? TLS13_HS_CLIENT) && bool_decide (mt = SERVER_CERTIFICATE_REQUEST)
  then match hs_msg c with Some hm => request_flag (tls13_handshake_msg_type hm) | None => 0 end
  else List.last (flags_added (mode c) mt) 0.
Definition toy_adds (mt : tls13_message_type) (c : tls13_ctx) : tls13_ctx := set_hs_type (Z.lor (hs_type c) (toy_flags c mt)) c.
#[local] Instance toy_handlers : Handlers (W := toy_wire) := {|
  hs_send := fun mt '(c, w) => (Some tt, (toy_adds mt c, w));
  hs_sent := fun mt s => (Some tt, s);
  hs_recv := fun mt '((c, w), cbs) => (Some tt, ((toy_adds mt c, w), CBS_init [] 0));
  tls1_transcript_record := fun _ s => (Some tt, s);
  tls1_transcript_hash_value := fun s => (Some [], s);
  method_version := fun _ => TLS1_3_VERSION;
  info_cb := None;
  handshake_message_sent_cb := None;
  handshake_message_recv_cb := None
|}.
Lemma toy_flags_ok c mt : toy_flags c mt ∈ flags_added (mode c) mt.
Proof.
  unfold toy_flags, flags_added, request_flag. destruct (mode c =? _); [case_bool_decide as E|]; cbn [andb].
  - rewrite E. destruct (hs_msg c); [destruct (_ =? _)|]; apply list_elem_of_In; cbn; auto.
  - destruct mt; apply list_elem_of_In; cbn; auto.
  - destruct mt; apply list_elem_of_In; cbn; auto.
Qed.
#[local] Instance toy_handler_laws : HandlerLaws.
Proof.
  split; try done.
  - intros mt [c w]. split; [done|]. exists (toy_flags c mt). split; [apply toy_flags_ok|done].
  - intros mt [c w] cbs. split; [done|]. exists (toy_flags c mt). split; [apply toy_flags_ok|done].
Qed.
#[local] Instance toy_message_laws : MessageLaws.
Proof.
  split; try (intros f; discriminate).
  - intros mt [c w]. exact id.
  - intros mt s. exact id.
  - intros mt [c w] cbs. exact id.
  - intros l s. split; [exact id|done].
  - intros s. split; [exact id|done].
  - intros c w cbs hm s' Hm Hhm [= <-]. cbn. unfold toy_flags. by rewrite Hm, Hhm.
Qed.

Definition toy_client_rl : tls13_record_layer :=
  mkRl 0x0301 false 0 false false false false false false false None None 0 0 0 0 None 0 0 0
    (CBS_init [] 0) None 0 0 None 0 (CBS_init [] 0) None None zero_prot zero_prot.
Definition toy_client : tls13_ctx := mkCtx TLS13_HS_CLIENT INITIAL 0 false false false false toy_client_rl None 0 [].
(** ServerHello, EncryptedExtensions, Certificate, CertificateVerify and Finished without contents; the
    record arrives in two pieces. *)
Definition toy_flight : portions :=
  [Some [22; 3; 3; 0; 20; 2; 0; 0; 0; 8; 0]; None; Some [0; 0; 11; 0; 0; 0; 15; 0; 0; 0; 20; 0; 0; 0]].
Definition toy_call (s : tls13_ctx * toy_wire) := tls13_handshake_perform 2 s.
Definition toy_first := toy_call (toy_client, (toy_flight, [])).
Definition toy_second := toy_call toy_first.2.

Lemma toy_client_quiet : quiet toy_client_rl.
Proof. unfold quiet. cbn. by split_and!. Qed.
Definition toy_trace : list (Z * Z) := perform_trace 2 (toy_client, (toy_flight, [])) ++ perform_trace 2 toy_first.2 ++ [].
Example toy_trace_eq : toy_trace = rfc8446_sequence false false false.
Proof. vm_compute. reflexivity. Qed.
Lemma two_calls c w :
  handshake_calls 2 c (perform_trace 2 (c, w) ++ perform_trace 2 (toy_call (c, w)).2 ++ []) (toy_call (toy_call (c, w)).2).2.1.
Proof.
  destruct (toy_call (c, w)) as [r1 [c1 w1]] eqn:E1. cbn [fst snd].
  destruct (toy_call (c1, w1)) as [r2 [c2 w2]] eqn:E2. cbn [fst snd].
  eapply calls_more; [exact E1|]. eapply calls_more; [exact E2|constructor].
Qed.
(** With the CertificateVerify left out the client stops, with an alert on the wire. *)
Example toy_verify_skipped :
  let s := toy_call (toy_client, ([Some [22; 3; 3; 0; 16; 2; 0; 0; 0; 8; 0; 0; 0; 11; 0; 0; 0; 20; 0; 0; 0]], [])) in
  s.1 = TLS13_IO_ALERT /\ ctx_handshake_completed s.2.1 = false /\ message_number s.2.1 = 4.
Proof. vm_compute. repeat split. Qed.

Lemma handshake_perform_terminates_witness :
  perform_loop 2 50 (toy_client, (toy_flight, [])) = perform_loop 2 16 (toy_client, (toy_flight, [])).
Proof.
  exact (handshake_perform_terminates 2 50 toy_client (toy_flight, []) ltac:(cbn; lia) ltac:(unfold TLS13_NUM_MESSAGE_TYPES; lia)).
Defined.
