(* ===== verification/Words.v ===== *)
(** * Little-endian integers and bit operations on words

    Shared by the components that work on 32-bit and 64-bit words: the value of a byte array
    as a little-endian integer, the array of an integer, and the rules that turn shifts,
    masks and disjoint [or]s into arithmetic. *)
From S2P Require Import Prelude.

Definition le_val (l : list Z) : Z := fold_right (fun b acc => b + 256 * acc) 0 l.
Fixpoint le_bytes (n : nat) (v : Z) : list Z :=
  match n with O => [] | S n => v mod 256 :: le_bytes n (v / 256) end.

(** The bytewise exclusive or, as long as the shorter argument. *)
Definition xor_bytes (a b : list Z) : list Z := zip_with Z.lxor a b.

(** [dlia]: linear arithmetic with division and remainder by constants. *)
Ltac dlia := Z.to_euclidean_division_equations; lia.

Lemma le_val_app a b : le_val (a ++ b) = le_val a + 256 ^ zlen a * le_val b.
Proof.
  induction a as [|x a IH]; cbn [app le_val fold_right].
  - fold (le_val b). change (256 ^ zlen []) with 1. lia.
  - fold (le_val (a ++ b)) (le_val a). rewrite IH, zlen_cons, Z.pow_add_r by zl. lia.
Qed.
Lemma le_val_bound l : Forall is_byte l -> 0 <= le_val l < 256 ^ zlen l.
Proof.
  induction 1 as [|x l Hx Hl IH]; [done|]. cbn [le_val fold_right]. fold (le_val l).
  rewrite zlen_cons, Z.pow_add_r by zl. unfold is_byte in Hx. set (p := 256 ^ zlen l) in *. lia.
Qed.
Lemma length_le_bytes n v : length (le_bytes n v) = n.
Proof. revert v. induction n; intros; cbn; auto. Qed.
Lemma zlen_le_bytes n v : zlen (le_bytes n v) = Z.of_nat n.
Proof. unfold zlen. by rewrite length_le_bytes. Qed.
Lemma le_bytes_bytes n v : Forall is_byte (le_bytes n v).
Proof. revert v. induction n; intros; constructor; [|done]. unfold is_byte. apply Z.mod_pos_bound. lia. Qed.
#[export] Hint Rewrite zlen_le_bytes : zlist.
#[export] Hint Resolve le_bytes_bytes : bytes.
Lemma le_val_le_bytes n v : le_val (le_bytes n v) = v mod 256 ^ Z.of_nat n.
Proof.
  revert v. induction n as [|n IH]; intros v; [cbn; by rewrite Z.mod_1_r|].
  cbn [le_bytes le_val fold_right]. fold (le_val (le_bytes n (v / 256))).
  rewrite IH, Nat2Z.inj_succ, Z.pow_succ_r, Z.rem_mul_r by lia. lia.
Qed.
Lemma le_bytes_le_val l : Forall is_byte l -> le_bytes (length l) (le_val l) = l.
Proof.
  induction 1 as [|x l Hx Hl IH]; [done|]. cbn [length le_bytes le_val fold_right]. fold (le_val l). unfold is_byte in Hx. f_equal.
  - rewrite Z.mul_comm, Z.mod_add by lia. apply Z.mod_small. lia.
  - rewrite Z.mul_comm, Z.div_add, Z.div_small by lia. done.
Qed.
Lemma le_bytes_mod n v : le_bytes n (v mod 256 ^ Z.of_nat n) = le_bytes n v.
Proof.
  rewrite <- le_val_le_bytes. rewrite <- (length_le_bytes n v) at 1. apply le_bytes_le_val, le_bytes_bytes.
Qed.
Lemma le_val_inj a b : Forall is_byte a -> Forall is_byte b -> length a = length b -> le_val a = le_val b -> a = b.
Proof. intros Ha Hb Hl Hv. by rewrite <- (le_bytes_le_val a Ha), <- (le_bytes_le_val b Hb), Hl, Hv. Qed.
Lemma le_bytes_app n m v : le_bytes (n + m) v = le_bytes n v ++ le_bytes m (v / 256 ^ Z.of_nat n).
Proof.
  revert v. induction n as [|n IH]; intros v; cbn [Nat.add le_bytes app].
  - by rewrite Z.div_1_r.
  - rewrite IH, Nat2Z.inj_succ, Z.pow_succ_r, Z.div_div by lia. done.
Qed.

(** ** Shifts and masks *)

Lemma land_mask k v : 0 <= k -> Z.land v (2 ^ k - 1) = v mod 2 ^ k.
Proof. intros. rewrite <- Z.land_ones by done. by rewrite Z.ones_equiv. Qed.
Lemma lor_shiftl a b k : 0 <= k -> 0 <= a < 2 ^ k -> Z.lor a (Z.shiftl b k) = a + b * 2 ^ k.
Proof.
  intros Hk Ha. rewrite <- Z.add_nocarry_lor; [by rewrite Z.shiftl_mul_pow2|].
  rewrite <- (Z.mod_small a (2 ^ k)), <- Z.land_ones by done.
  apply Z.bits_inj'. intros n Hn. rewrite !Z.land_spec, Z.bits_0, Z.shiftl_spec by done.
  destruct (Z.lt_ge_cases n k); [by rewrite (Z.testbit_neg_r b), andb_false_r by lia|].
  by rewrite Z.ones_spec_high, andb_false_r by lia.
Qed.
Lemma lxor_mod a b k : 0 <= k -> (Z.lxor a b) mod 2 ^ k = Z.lxor (a mod 2 ^ k) (b mod 2 ^ k).
Proof.
  intros. rewrite <- !Z.land_ones by done. apply Z.bits_inj'. intros n Hn.
  rewrite Z.lxor_spec, !Z.land_spec, Z.lxor_spec. by destruct (Z.testbit a n), (Z.testbit b n), (Z.testbit (Z.ones k) n).
Qed.
Lemma lxor_div a b k : 0 <= k -> Z.lxor a b / 2 ^ k = Z.lxor (a / 2 ^ k) (b / 2 ^ k).
Proof. intros. by rewrite <- !Z.shiftr_div_pow2, Z.shiftr_lxor by done. Qed.
Lemma land_mod a b k : 0 <= k -> (Z.land a b) mod 2 ^ k = Z.land (a mod 2 ^ k) (b mod 2 ^ k).
Proof.
  intros. rewrite <- !Z.land_ones by done. apply Z.bits_inj'. intros n Hn.
  rewrite !Z.land_spec. by destruct (Z.testbit a n), (Z.testbit b n), (Z.testbit (Z.ones k) n).
Qed.
Lemma land_div a b k : 0 <= k -> Z.land a b / 2 ^ k = Z.land (a / 2 ^ k) (b / 2 ^ k).
Proof. intros. by rewrite <- !Z.shiftr_div_pow2, Z.shiftr_land by done. Qed.
(** A mask below 2^k sees only the lower [k] bits. *)
Lemma land_low a b k : 0 <= k -> 0 <= b < 2 ^ k -> Z.land a b = Z.land (a mod 2 ^ k) b.
Proof.
  intros Hk Hb. rewrite <- (Z.mod_small b (2 ^ k)) at 2 by done. rewrite <- land_mod by done.
  rewrite <- Z.land_ones, <- Z.land_assoc, (Z.land_ones b), Z.mod_small by done. done.
Qed.
Lemma land_bound a b k : 0 <= k -> 0 <= b < 2 ^ k -> 0 <= Z.land a b < 2 ^ k.
Proof.
  intros Hk Hb. rewrite <- (Z.mod_small b (2 ^ k)) at 1 2 by done. rewrite <- Z.land_ones, Z.land_assoc, Z.land_ones by done.
  apply Z.mod_pos_bound. lia.
Qed.
Lemma le_bytes_lxor n a b : le_bytes n (Z.lxor a b) = xor_bytes (le_bytes n a) (le_bytes n b).
Proof.
  revert a b. induction n as [|n IH]; intros a b; [done|]. cbn [le_bytes xor_bytes zip_with]. f_equal.
  - by apply (lxor_mod a b 8).
  - change 256 with (2 ^ 8). rewrite lxor_div by lia. apply IH.
Qed.

(** ** The bytewise exclusive or *)

Lemma length_xor_bytes a b : length (xor_bytes a b) = min (length a) (length b).
Proof. apply length_zip_with. Qed.
Lemma zlen_xor_bytes a b : zlen (xor_bytes a b) = Z.min (zlen a) (zlen b).
Proof. unfold zlen. rewrite length_xor_bytes. lia. Qed.
Lemma lxor_byte a b : is_byte a -> is_byte b -> is_byte (Z.lxor a b).
Proof.
  unfold is_byte. intros Ha Hb. rewrite <- (Z.mod_small a (2 ^ 8)), <- (Z.mod_small b (2 ^ 8)), <- lxor_mod by lia.
  apply Z.mod_pos_bound. lia.
Qed.
Lemma xor_bytes_bytes a b : Forall is_byte a -> Forall is_byte b -> Forall is_byte (xor_bytes a b).
Proof. intros Ha. revert b. induction Ha; intros b Hb; destruct Hb; constructor; auto using lxor_byte. Qed.
#[export] Hint Resolve lxor_byte xor_bytes_bytes : bytes.
Lemma xor_bytes_app a b c d : length a = length c -> xor_bytes (a ++ b) (c ++ d) = xor_bytes a c ++ xor_bytes b d.
Proof. apply zip_with_app. Qed.
Lemma xor_bytes_involutive a b : length a = length b -> xor_bytes (xor_bytes a b) b = a.
Proof.
  revert b. induction a as [|x a IH]; intros [|y b] Hl; try done. cbn. f_equal; [|apply IH; by injection Hl].
  by rewrite Z.lxor_assoc, Z.lxor_nilpotent, Z.lxor_0_r.
Qed.
Lemma xor_bytes_comm a b : xor_bytes a b = xor_bytes b a.
Proof. revert b. induction a as [|x a IH]; intros [|y b]; try done. cbn. by rewrite Z.lxor_comm, IH. Qed.
Lemma xor_zeros b : xor_bytes (replicate (length b) 0) b = b.
Proof. unfold xor_bytes. induction b as [|x b IH]; [done|]. cbn [length replicate zip_with]. by rewrite IH. Qed.
Lemma ztake_xor n a b : ztake n (xor_bytes a b) = xor_bytes (ztake n a) (ztake n b).
Proof.
  unfold ztake, xor_bytes. generalize (Z.to_nat n) as k. intros k. revert a b.
  induction k as [|k IH]; intros [|x a] [|y b]; cbn; try done. by rewrite IH.
Qed.
Lemma xor_bytes_trunc n a b : zlen a <= n -> xor_bytes a (ztake n b) = xor_bytes a b.
Proof.
  intros Ha. rewrite <- (ztake_ge n a) at 1 by done. rewrite <- ztake_xor. apply ztake_ge. rewrite zlen_xor_bytes. lia.
Qed.

(** ** Writing into a buffer *)

Lemma ztake_overwrite (buf a b : list Z) :
  ztake (zlen a) buf = a -> zlen a + zlen b <= zlen buf ->
  zlen (overwrite buf (zlen a) b) = zlen buf /\ ztake (zlen a + zlen b) (overwrite buf (zlen a) b) = a ++ b.
Proof.
  intros Ha Hl. split; [apply zlen_overwrite; zl|]. unfold overwrite. rewrite Ha, app_assoc. apply ztake_app_eq. by rewrite zlen_app.
Qed.
Lemma overwrite_twice (buf a b : list Z) :
  zlen a + zlen b <= zlen buf -> overwrite (overwrite buf 0 a) (zlen a) b = overwrite buf 0 (a ++ b).
Proof.
  intros Hl. unfold overwrite. rewrite !(ztake_nonpos 0) by lia. cbn [app]. rewrite !Z.add_0_l, ztake_app_eq by done.
  rewrite <- app_assoc. do 2 f_equal. rewrite zdrop_app_r by zl. rewrite zdrop_zdrop by zl. f_equal. rewrite zlen_app. lia.
Qed.
Lemma ztake_overwrite_0 (buf a : list Z) : ztake (zlen a) (overwrite buf 0 a) = a.
Proof. unfold overwrite. rewrite (ztake_nonpos 0) by lia. cbn [app]. by apply ztake_app_eq. Qed.
Lemma overwrite_bytes buf off a : Forall is_byte buf -> Forall is_byte a -> Forall is_byte (overwrite buf off a).
Proof. intros. unfold overwrite. repeat (apply Forall_app; split); auto with bytes. Qed.
#[export] Hint Resolve overwrite_bytes : bytes.

(** Testing one bit with a mask. *)
Lemma land_shiftl1 x k : 0 <= k -> (Z.land x (Z.shiftl 1 k) =? 0) = negb (Z.testbit x k).
Proof.
  intros Hk. rewrite Z.shiftl_1_l. destruct (Z.testbit x k) eqn:E; cbn [negb].
  - apply Z.eqb_neq. intros Hz. apply (f_equal (fun v => Z.testbit v k)) in Hz. rewrite Z.land_spec, E, Z.pow2_bits_true, Z.bits_0 in Hz by lia. done.
  - apply Z.eqb_eq, Z.bits_inj'. intros n Hn. rewrite Z.land_spec, Z.bits_0. destruct (Z.eq_dec n k) as [->|Hne]; [by rewrite E|].
    rewrite Z.pow2_bits_false by lia. apply andb_false_r.
Qed.
