(* ===== verification/Chacha.v ===== *)
(** * The ChaCha20 stream cipher (crypto/chacha/chacha-merged.c, crypto/chacha/chacha.c)

    A context holds the sixteen input words, of which words 12 and 13 are a 64-bit block
    counter, and the part of the last keystream block that has not been used.  The words are
    [u_int], 32 bits wide, and every operation on them writes its wrap-around out.  Output
    buffers are returned: a function that writes [n] bytes to [out] returns these [n] bytes. *)
From S2P Require Import Prelude Words.

Definition CHACHA_BLOCKLEN : Z := 64.

Record chacha_ctx := mkChacha { input : list Z; ks : list Z; unused : Z }.

(** [x[i]] in the array of words. *)
Definition word (x : list Z) (i : nat) : Z := nth i x 0.

Definition U8V (v : Z) : Z := Z.land (wrap8 v) 0xff.
Definition U32V (v : Z) : Z := Z.land (wrap32 v) 0xffffffff.
Definition ROTL32 (v n : Z) : Z := Z.lor (U32V (Z.shiftl v n)) (Z.shiftr v (32 - n)).
(** The word at offset [p] of a byte array. *)
Definition U8TO32_LITTLE (m : list Z) (p : Z) : Z :=
  Z.lor (Z.lor (Z.lor (znth m p) (Z.shiftl (znth m (p + 1)) 8)) (Z.shiftl (znth m (p + 2)) 16)) (Z.shiftl (znth m (p + 3)) 24).
Definition U32TO8_LITTLE (v : Z) : list Z :=
  [U8V v; U8V (Z.shiftr v 8); U8V (Z.shiftr v 16); U8V (Z.shiftr v 24)].
Definition PLUS (v w : Z) : Z := U32V (v + w).
Definition PLUSONE (v : Z) : Z := PLUS v 1.

(** The macro, on the words [a], [b], [c] and [d] of the working state. *)
Definition QUARTERROUND (a b c d : nat) (x : list Z) : list Z :=
  let x := <[a := PLUS (word x a) (word x b)]> x in
  let x := <[d := ROTL32 (Z.lxor (word x d) (word x a)) 16]> x in
  let x := <[c := PLUS (word x c) (word x d)]> x in
  let x := <[b := ROTL32 (Z.lxor (word x b) (word x c)) 12]> x in
  let x := <[a := PLUS (word x a) (word x b)]> x in
  let x := <[d := ROTL32 (Z.lxor (word x d) (word x a)) 8]> x in
  let x := <[c := PLUS (word x c) (word x d)]> x in
  <[b := ROTL32 (Z.lxor (word x b) (word x c)) 7]> x.

Definition sigma : list Z :=
  [0x65; 0x78; 0x70; 0x61; 0x6e; 0x64; 0x20; 0x33; 0x32; 0x2d; 0x62; 0x79; 0x74; 0x65; 0x20; 0x6b].
Definition tau : list Z :=
  [0x65; 0x78; 0x70; 0x61; 0x6e; 0x64; 0x20; 0x31; 0x36; 0x2d; 0x62; 0x79; 0x74; 0x65; 0x20; 0x6b].

(** [words m p n]: the [n] words from offset [p] on. *)
Definition words (m : list Z) (p : Z) (n : nat) : list Z :=
  (fun i => U8TO32_LITTLE m (p + 4 * i)) <$> seqZ 0 (Z.of_nat n).

Definition chacha_keysetup (k : list Z) (kbits : Z) (x : chacha_ctx) : chacha_ctx :=
  let '(k', constants) := if kbits =? 256 then (16, sigma) else (0, tau) in
  mkChacha (words constants 0 4 ++ words k 0 4 ++ words k k' 4 ++ drop 12 (input x)) (ks x) (unused x).

(** [None] for [counter] is NULL. *)
Definition chacha_ivsetup (iv : list Z) (counter : option (list Z)) (x : chacha_ctx) : chacha_ctx :=
  let ctr p := match counter with None => 0 | Some c => U8TO32_LITTLE c p end in
  mkChacha (take 12 (input x) ++ [ctr 0; ctr 4; U8TO32_LITTLE iv 0; U8TO32_LITTLE iv 4]) (ks x) (unused x).

Definition double_round (x : list Z) : list Z :=
  let x := QUARTERROUND 0 4 8 12 x in
  let x := QUARTERROUND 1 5 9 13 x in
  let x := QUARTERROUND 2 6 10 14 x in
  let x := QUARTERROUND 3 7 11 15 x in
  let x := QUARTERROUND 0 5 10 15 x in
  let x := QUARTERROUND 1 6 11 12 x in
  let x := QUARTERROUND 2 7 8 13 x in
  QUARTERROUND 3 4 9 14 x.

(** [for (i = 20; i > 0; i -= 2)] *)
Definition rounds (x : list Z) : list Z := Nat.iter 10 double_round x.

(** The words of a keystream block. *)
Definition block (j : list Z) : list Z := zip_with PLUS (rounds j) j.

(** One pass of the loop of [chacha_encrypt_bytes] on a full block [m]. *)
Definition xor_block (x m : list Z) : list Z :=
  concat (imap (fun i v => U32TO8_LITTLE (Z.lxor v (U8TO32_LITTLE m (4 * Z.of_nat i)))) x).
Definition next_counter (j : list Z) : list Z :=
  let j := <[12%nat := PLUSONE (word j 12)]> j in
  if word j 12 =? 0 then <[13%nat := PLUSONE (word j 13)]> j else j.

(** The loop; [j] are the words, of which [input x] takes the counter at the end.  In the last
    pass the block is a copy in [tmp], whose bytes from [bytes] on are not initialised (0 here)
    and whose result from [bytes] on is not copied out. *)
Fixpoint encrypt_loop (fuel : nat) (x : chacha_ctx) (j m : list Z) (bytes : Z) : chacha_ctx * list Z :=
  match fuel with
  | O => (x, [])
  | S fuel' =>
      let m' := if bytes <? 64 then ztake bytes m ++ zeros (64 - bytes) else ztake 64 m in
      let b := block j in
      let x := if bytes <? 64 then mkChacha (input x) (concat (U32TO8_LITTLE <$> b)) (unused x) else x in
      let c := xor_block b m' in
      let j := next_counter j in
      if bytes <=? 64 then
        (mkChacha (<[13%nat := word j 13]> (<[12%nat := word j 12]> (input x))) (ks x) (wrap8 (64 - bytes)),
         ztake bytes c)
      else
        let '(x, out) := encrypt_loop fuel' x j (zdrop 64 m) (bytes - 64) in (x, c ++ out)
  end.

(** [bytes] is a [u32]; every pass but the last consumes 64 bytes. *)
Definition chacha_encrypt_bytes (x : chacha_ctx) (m : list Z) (bytes : Z) : chacha_ctx * list Z :=
  if bytes =? 0 then (x, []) else encrypt_loop (Z.to_nat bytes) x (input x) m bytes.

Definition CRYPTO_hchacha_20 (key nonce : list Z) : list Z :=
  let x := rounds (words sigma 0 4 ++ words key 0 8 ++ words nonce 0 4) in
  concat (U32TO8_LITTLE <$> take 4 x) ++ concat (U32TO8_LITTLE <$> drop 12 x).

(** ** chacha.c *)

Definition ChaCha_set_key (key : list Z) (keybits : Z) (ctx : chacha_ctx) : chacha_ctx :=
  let ctx := chacha_keysetup key keybits ctx in mkChacha (input ctx) (ks ctx) 0.

Definition ChaCha_set_iv (iv : list Z) (counter : option (list Z)) (ctx : chacha_ctx) : chacha_ctx :=
  let ctx := chacha_ivsetup iv counter ctx in mkChacha (input ctx) (ks ctx) 0.

(** The keystream left over from the last call comes first; [len] is cut down to 32 bits. *)
Definition ChaCha (ctx : chacha_ctx) (inp : list Z) (len : Z) : chacha_ctx * list Z :=
  let l := if 0 <? unused ctx then (if unused ctx <? len then unused ctx else len) else 0 in
  let out1 := zip_with Z.lxor (ztake l inp) (zdrop (64 - unused ctx) (ks ctx)) in
  let ctx := mkChacha (input ctx) (ks ctx) (unused ctx - l) in
  let '(ctx, out2) := chacha_encrypt_bytes ctx (zdrop l inp) (wrap32 (len - l)) in
  (ctx, out1 ++ out2).

(** A context on the stack, not initialised. *)
Definition blank_ctx : chacha_ctx := mkChacha (zeros 16) (zeros 64) 0.

Definition CRYPTO_chacha_20 (inp : list Z) (len : Z) (key iv : list Z) (counter : Z) : list Z :=
  let ctx := chacha_keysetup key 256 blank_ctx in
  let ctx := chacha_ivsetup iv None ctx in
  let ctx := if negb (counter =? 0)
    then mkChacha (<[13%nat := wrap32 (Z.shiftr counter 32)]> (<[12%nat := wrap32 counter]> (input ctx))) (ks ctx) (unused ctx)
    else ctx in
  snd (chacha_encrypt_bytes ctx inp (wrap32 len)).

Definition CRYPTO_xchacha_20 (inp : list Z) (len : Z) (key iv : list Z) : list Z :=
  CRYPTO_chacha_20 inp len (CRYPTO_hchacha_20 key iv) (zdrop 16 iv) 0.

(** The test vector of RFC 8439 section 2.4.2: "Ladies and Gentl". *)
Example chacha20_rfc8439 :
  CRYPTO_chacha_20 [0x4c; 0x61; 0x64; 0x69; 0x65; 0x73; 0x20; 0x61; 0x6e; 0x64; 0x20; 0x47; 0x65; 0x6e; 0x74; 0x6c] 16
    (seqZ 0 32) [0;0;0;0x4a;0;0;0;0] 1 =
  [0x6e; 0x2e; 0x35; 0x9a; 0x25; 0x68; 0xf9; 0x80; 0x41; 0xba; 0x07; 0x28; 0xdd; 0x0d; 0x69; 0x81].
Proof. vm_compute. reflexivity. Qed.

(** ** The keystream

    The keystream of a key and nonce is a sequence of bytes, numbered by positions; block [n]
    is made from the words with [n] as the 64-bit counter. *)

Definition at_counter (x : list Z) (n : Z) : list Z :=
  <[13%nat := (n / 2 ^ 32) mod 2 ^ 32]> (<[12%nat := n mod 2 ^ 32]> x).
Definition keystream_block (x : list Z) (n : Z) : list Z := concat (U32TO8_LITTLE <$> block (at_counter x n)).
Definition ks_byte (x : list Z) (p : Z) : Z := nth (Z.to_nat (p mod 64)) (keystream_block x (p / 64)) 0.
Definition keystream (x : list Z) (p n : Z) : list Z := ks_byte x <$> seqZ p n.

(** *** Words and bytes *)

Lemma U8V_mod v : U8V v = v mod 256.
Proof. unfold U8V, wrap8. change 0xff with (2 ^ 8 - 1). by rewrite land_mask, Z.mod_mod by lia. Qed.
Lemma U32V_mod v : U32V v = v mod 2 ^ 32.
Proof. unfold U32V, wrap32. change 0xffffffff with (2 ^ 32 - 1). by rewrite land_mask, Z.mod_mod by lia. Qed.
Lemma U32TO8_le v : U32TO8_LITTLE v = le_bytes 4 v.
Proof.
  unfold U32TO8_LITTLE. rewrite !U8V_mod, !Z.shiftr_div_pow2 by lia. cbn [le_bytes].
  by rewrite !Z.div_div by lia.
Qed.
Lemma U8TO32_le a b c d m : Forall is_byte [a; b; c; d] -> U8TO32_LITTLE (a :: b :: c :: d :: m) 0 = le_val [a; b; c; d].
Proof.
  intros Hb. repeat (apply Forall_cons in Hb as [? Hb]). unfold is_byte in *.
  unfold U8TO32_LITTLE. change (znth (a :: b :: c :: d :: m) 0) with a. change (znth (a :: b :: c :: d :: m) (0 + 1)) with b.
  change (znth (a :: b :: c :: d :: m) (0 + 2)) with c. change (znth (a :: b :: c :: d :: m) (0 + 3)) with d.
  rewrite (lor_shiftl a), (lor_shiftl _ c), (lor_shiftl _ d) by lia. cbn [le_val fold_right]. lia.
Qed.
Lemma U8TO32_drop m i : 0 <= i -> U8TO32_LITTLE m (4 + i) = U8TO32_LITTLE (zdrop 4 m) i.
Proof.
  intros. unfold U8TO32_LITTLE. assert (Hn : forall k, 0 <= k -> znth m (4 + k) = znth (zdrop 4 m) k).
  { intros k Hk. unfold znth, zdrop. rewrite !nth_lookup, lookup_drop. do 2 f_equal. lia. }
  by rewrite <- !Z.add_assoc, !Hn by lia.
Qed.

Lemma concat_words_length (x : list Z) : length (concat (U32TO8_LITTLE <$> x)) = (4 * length x)%nat.
Proof. induction x as [|v x IH]; cbn [fmap list_fmap concat length]; [done|]. rewrite length_app, IH. cbn. lia. Qed.

Lemma xor_block_spec x m :
  length m = (4 * length x)%nat -> Forall is_byte m -> xor_block x m = xor_bytes m (concat (U32TO8_LITTLE <$> x)).
Proof.
  unfold xor_block. revert m. induction x as [|v x IH]; intros m Hl Hb; [by destruct m|].
  destruct m as [|a [|b [|c [|d m]]]]; cbn [length] in Hl; try lia. cbn [imap fmap list_fmap concat].
  assert (H4 : Forall is_byte [a; b; c; d] /\ Forall is_byte m) by (rewrite <- Forall_app; done). destruct H4 as [H4 Hm].
  change (4 * Z.of_nat 0) with 0. rewrite U8TO32_le by done. change (a :: b :: c :: d :: m) with ([a; b; c; d] ++ m) at 2.
  rewrite xor_bytes_app by done. f_equal.
  - rewrite !U32TO8_le, le_bytes_lxor, xor_bytes_comm. f_equal. by apply (le_bytes_le_val [a; b; c; d]).
  - rewrite <- IH by (done || lia). f_equal. apply imap_ext. intros i w _. cbn [compose].
    do 2 f_equal. replace (4 * Z.of_nat (S i)) with (4 + 4 * Z.of_nat i) by lia. by rewrite U8TO32_drop by lia.
Qed.

Lemma length_set {A} (x : list A) i v n : length x = n -> length (<[i:=v]> x) = n.
Proof. intros <-. apply length_insert. Qed.
Lemma length_QUARTERROUND a b c d x : length (QUARTERROUND a b c d x) = length x.
Proof. unfold QUARTERROUND. repeat apply length_set. reflexivity. Qed.
Lemma length_double_round x : length (double_round x) = length x.
Proof. unfold double_round. cbv zeta. by rewrite !length_QUARTERROUND. Qed.
Lemma length_rounds x : length (rounds x) = length x.
Proof.
  unfold rounds. generalize 10%nat as k. induction k as [|k IH]; [done|].
  rewrite <- IH. exact (length_double_round _).
Qed.
Lemma length_block j : length (block j) = length j.
Proof. unfold block. rewrite length_zip_with, length_rounds. lia. Qed.
#[local] Opaque rounds block.
Lemma length_at_counter x n : length (at_counter x n) = length x.
Proof. unfold at_counter. by rewrite !length_insert. Qed.
Lemma length_keystream_block x n : length x = 16%nat -> length (keystream_block x n) = 64%nat.
Proof. intros Hx. unfold keystream_block. by rewrite concat_words_length, length_block, length_at_counter, Hx. Qed.
Lemma keystream_block_bytes x n : Forall is_byte (keystream_block x n).
Proof.
  unfold keystream_block. apply Forall_concat, Forall_fmap, Forall_true. intros v. cbn [compose].
  rewrite U32TO8_le. auto with bytes.
Qed.
Lemma keystream_bytes x p n : Forall is_byte (keystream x p n).
Proof.
  apply Forall_fmap, Forall_true. intros q. cbn [compose]. unfold ks_byte. rewrite nth_lookup.
  destruct (keystream_block x (q / 64) !! _) as [b|] eqn:E; cbn; [|unfold is_byte; lia].
  eapply Forall_lookup_1; [apply keystream_block_bytes|done].
Qed.
#[local] Hint Resolve keystream_block_bytes keystream_bytes : bytes.
Lemma length_keystream x p n : length (keystream x p n) = Z.to_nat n.
Proof. unfold keystream. by rewrite length_fmap, length_seqZ. Qed.
Lemma zlen_keystream x p n : 0 <= n -> zlen (keystream x p n) = n.
Proof. intros. unfold zlen. rewrite length_keystream. lia. Qed.
Lemma keystream_app x p n m : 0 <= n -> 0 <= m -> keystream x p (n + m) = keystream x p n ++ keystream x (p + n) m.
Proof. intros. unfold keystream. by rewrite seqZ_app, fmap_app by lia. Qed.
Lemma keystream_in_block x n i k :
  length x = 16%nat -> 0 <= i -> 0 <= k -> i + k <= 64 -> keystream x (64 * n + i) k = slice (keystream_block x n) i k.
Proof.
  intros Hx Hi Hk Hik. apply list_eq. intros j. unfold keystream, slice, ztake, zdrop. rewrite list_lookup_fmap.
  destruct (Nat.lt_ge_cases j (Z.to_nat k)) as [Hj|Hj].
  - rewrite lookup_seqZ_lt, lookup_take_lt, lookup_drop by lia. cbn [fmap option_fmap option_map]. unfold ks_byte.
    replace ((64 * n + i + Z.of_nat j) / 64) with n by dlia. replace ((64 * n + i + Z.of_nat j) mod 64) with (i + Z.of_nat j) by dlia.
    replace (Z.to_nat (i + Z.of_nat j)) with (Z.to_nat i + j)%nat by lia.
    rewrite nth_lookup. destruct (keystream_block x n !! _) eqn:E; [done|].
    apply lookup_ge_None in E. rewrite length_keystream_block in E by done. lia.
  - rewrite lookup_seqZ_ge, lookup_take_ge by lia. done.
Qed.
Lemma keystream_full_block x n : length x = 16%nat -> keystream x (64 * n) 64 = keystream_block x n.
Proof.
  intros Hx. rewrite <- (Z.add_0_r (64 * n)), keystream_in_block by (done || lia). unfold slice.
  rewrite zdrop_nonpos by lia. apply ztake_ge. unfold zlen. by rewrite length_keystream_block.
Qed.

(** *** The block counter *)

Lemma word_at_12 x n : length x = 16%nat -> word (at_counter x n) 12 = n mod 2 ^ 32.
Proof. intros Hx. unfold word, at_counter. rewrite nth_lookup, list_lookup_insert_ne, list_lookup_insert_eq by lia. done. Qed.
Lemma word_at_13 x n : length x = 16%nat -> word (at_counter x n) 13 = (n / 2 ^ 32) mod 2 ^ 32.
Proof. intros Hx. unfold word, at_counter. rewrite nth_lookup, list_lookup_insert_eq by (rewrite length_insert; lia). done. Qed.
Lemma at_counter_twice x n m : at_counter (at_counter x n) m = at_counter x m.
Proof.
  unfold at_counter. rewrite (list_insert_insert_ne _ 12 13) by lia.
  by rewrite !list_insert_insert_eq.
Qed.
Lemma keystream_at_counter x n p k : keystream (at_counter x n) p k = keystream x p k.
Proof. unfold keystream, ks_byte, keystream_block. apply list_fmap_ext. intros i q _. by rewrite at_counter_twice. Qed.

Lemma next_counter_spec x n : length x = 16%nat -> next_counter (at_counter x n) = at_counter x (n + 1).
Proof.
  intros Hx. unfold next_counter. set (j := at_counter x n). set (v := PLUSONE (word j 12)).
  assert (Hl : length j = 16%nat) by (unfold j; by rewrite length_at_counter).
  assert (E : word (<[12%nat:=v]> j) 12 = v) by (unfold word; rewrite nth_lookup, list_lookup_insert_eq by lia; done).
  assert (E13 : word (<[12%nat:=v]> j) 13 = word j 13) by (unfold word; rewrite !nth_lookup, list_lookup_insert_ne by lia; done).
  rewrite E, E13. unfold PLUSONE, PLUS in *. rewrite !U32V_mod. unfold v, j. rewrite !U32V_mod, word_at_12, word_at_13 by done. clear.
  unfold at_counter. rewrite (list_insert_insert_ne _ 12 13) by lia.
  destruct (Z.eqb_spec ((n mod 2 ^ 32 + 1) mod 2 ^ 32) 0) as [Hz|Hz].
  - rewrite !list_insert_insert_eq. f_equal; [dlia|f_equal; dlia].
  - rewrite !list_insert_insert_eq. f_equal; [dlia|f_equal; dlia].
Qed.

(** *** Positions in the keystream

    [at_pos x ctx p]: the context has used the first [p] bytes of the keystream of [x]. *)
Definition at_pos (x : list Z) (ctx : chacha_ctx) (p : Z) : Prop :=
  length x = 16%nat /\ input ctx = at_counter x ((p + 63) / 64) /\ unused ctx = (- p) mod 64 /\
  (0 < unused ctx -> ks ctx = keystream_block x (p / 64)).

(** The last pass of the loop. *)
Lemma last_block x n m bytes :
  length x = 16%nat -> 0 < bytes <= 64 -> bytes <= zlen m -> Forall is_byte m ->
  ztake bytes (xor_block (block (at_counter x n)) (if bytes <? 64 then ztake bytes m ++ zeros (64 - bytes) else ztake 64 m)) =
  xor_bytes (ztake bytes m) (keystream x (64 * n) bytes).
Proof.
  intros Hx Hb Hm Hbm.
  assert (Hk : keystream x (64 * n) bytes = ztake bytes (keystream_block x n)).
  { rewrite <- (Z.add_0_r (64 * n)), keystream_in_block by (done || lia). unfold slice. by rewrite zdrop_nonpos by lia. }
  rewrite xor_block_spec.
  - fold (keystream_block x n). rewrite ztake_xor, Hk. f_equal. destruct (Z.ltb_spec bytes 64).
    + rewrite ztake_app_l, ztake_ztake by zl. f_equal. lia.
    + rewrite ztake_ztake. f_equal. lia.
  - rewrite length_block, length_at_counter, Hx. apply Nat2Z.inj. fold (zlen (if bytes <? 64 then ztake bytes m ++ zeros (64 - bytes) else ztake 64 m)).
    destruct (Z.ltb_spec bytes 64); zl.
  - destruct (bytes <? 64); [apply Forall_app; split|]; auto with bytes.
Qed.

Lemma encrypt_loop_spec fuel x ctx n n0 m bytes :
  length x = 16%nat -> input ctx = at_counter x n0 -> 0 < bytes <= 64 * Z.of_nat fuel -> bytes <= zlen m -> Forall is_byte m ->
  exists ctx', encrypt_loop fuel ctx (at_counter x n) m bytes = (ctx', xor_bytes (ztake bytes m) (keystream x (64 * n) bytes)) /\
    at_pos x ctx' (64 * n + bytes).
Proof.
  intros Hx. revert ctx n m bytes. induction fuel as [|fuel IH]; intros ctx n m bytes Hi Hb Hm Hbm; [lia|].
  cbn [encrypt_loop]. cbv zeta. destruct (Z.leb_spec bytes 64) as [Hle|Hgt].
  - rewrite last_block by (done || lia). eexists. split; [reflexivity|].
    rewrite next_counter_spec, word_at_12, word_at_13 by done. unfold at_pos, wrap8. cbn [input ks unused].
    replace (64 * n + bytes + 63) with (bytes + 63 + n * 64) by lia. rewrite Z.div_add by lia.
    replace ((bytes + 63) / 64) with 1 by dlia. rewrite (Z.add_comm 1).
    split_and!; [done| | |].
    + destruct (bytes <? 64); cbn [input]; rewrite Hi; apply at_counter_twice.
    + rewrite Z.mod_small by lia. dlia.
    + intros Hu. destruct (Z.ltb_spec bytes 64) as [Hlt|]; [|rewrite Z.mod_small in Hu by lia; lia].
      cbn [ks]. by replace ((64 * n + bytes) / 64) with n by dlia.
  - rewrite (proj2 (Z.ltb_ge bytes 64)), next_counter_spec by (done || lia).
    destruct (IH ctx (n + 1) (zdrop 64 m) (bytes - 64) Hi) as (ctx' & E & Hp); [lia|zl|auto with bytes|].
    rewrite E. exists ctx'. split; [|by replace (64 * n + bytes) with (64 * (n + 1) + (bytes - 64)) by lia].
    f_equal. rewrite xor_block_spec; [|rewrite length_block, length_at_counter, Hx; unfold ztake; rewrite length_take; unfold zlen in Hm; lia|auto with bytes].
    fold (keystream_block x n). rewrite <- keystream_full_block by done.
    rewrite <- xor_bytes_app by (rewrite length_keystream; unfold ztake; rewrite length_take; unfold zlen in Hm; lia).
    f_equal; [rewrite <- ztake_add by lia; f_equal; lia|].
    replace (64 * (n + 1)) with (64 * n + 64) by lia. rewrite <- keystream_app by lia. f_equal. lia.
Qed.

Lemma chacha_encrypt_bytes_spec x ctx p m bytes :
  at_pos x ctx p -> unused ctx = 0 -> 0 <= bytes <= zlen m -> Forall is_byte m ->
  exists ctx', chacha_encrypt_bytes ctx m bytes = (ctx', xor_bytes (ztake bytes m) (keystream x p bytes)) /\ at_pos x ctx' (p + bytes).
Proof.
  intros Hp Hu Hb Hbm. pose proof Hp as (Hx & Hi & Hun & _). unfold chacha_encrypt_bytes. destruct (Z.eqb_spec bytes 0) as [->|Hne].
  { exists ctx. rewrite Z.add_0_r. split; [|done]. by rewrite ztake_nonpos by lia. }
  assert (Hp64 : p = 64 * ((p + 63) / 64)) by (rewrite Hu in Hun; dlia). rewrite Hi.
  destruct (encrypt_loop_spec (Z.to_nat bytes) x ctx ((p + 63) / 64) _ m bytes Hx Hi) as (ctx' & E & Hp'); [lia|lia|done|].
  rewrite <- Hp64 in E, Hp'. by exists ctx'.
Qed.

(** Using up the keystream left over. *)
Lemma at_pos_leftover x ctx p l :
  at_pos x ctx p -> 0 <= l <= unused ctx -> at_pos x (mkChacha (input ctx) (ks ctx) (unused ctx - l)) (p + l).
Proof.
  intros (Hx & Hi & Hu & Hk) Hl. unfold at_pos. cbn [input ks unused]. split_and!; [done| | |].
  - rewrite Hi. f_equal. dlia.
  - dlia.
  - intros Hpos. rewrite Hk by lia. f_equal. dlia.
Qed.

Lemma ChaCha_spec x ctx p inp len :
  at_pos x ctx p -> 0 <= len <= zlen inp -> len < 2 ^ 32 -> Forall is_byte inp ->
  exists ctx', ChaCha ctx inp len = (ctx', xor_bytes (ztake len inp) (keystream x p len)) /\ at_pos x ctx' (p + len).
Proof.
  intros Hp Hlen Hs Hb. unfold ChaCha.
  set (l := if 0 <? unused ctx then (if unused ctx <? len then unused ctx else len) else 0).
  pose proof Hp as (Hx & Hi & Hu & Hk).
  assert (Hl : 0 <= l <= unused ctx /\ l = Z.min (unused ctx) len).
  { unfold l. destruct (Z.ltb_spec 0 (unused ctx)); [destruct (Z.ltb_spec (unused ctx) len)|]; dlia. }
  destruct Hl as [Hl El]. assert (Hu64 : 0 <= unused ctx < 64) by dlia. unfold wrap32. rewrite Z.mod_small by lia.
  assert (Hout : zip_with Z.lxor (ztake l inp) (zdrop (64 - unused ctx) (ks ctx)) = xor_bytes (ztake l inp) (keystream x p l)).
  { destruct (Z.eqb_spec l 0) as [->|Hl0]; [by rewrite !ztake_nonpos by lia|]. rewrite Hk by lia.
    replace p with (64 * (p / 64) + (64 - unused ctx)) at 2 by dlia. rewrite keystream_in_block by (done || lia).
    unfold slice. change (zip_with Z.lxor ?a ?b) with (xor_bytes a b).
    by rewrite xor_bytes_trunc by zl. }
  rewrite Hout. clearbody l. clear Hout.
  pose proof (at_pos_leftover x ctx p l Hp Hl) as Hp1. set (ctx1 := mkChacha _ _ _) in *.
  destruct (Z.eqb_spec (unused ctx1) 0) as [Hu1|Hu1].
  - destruct (chacha_encrypt_bytes_spec x ctx1 (p + l) (zdrop l inp) (len - l) Hp1 Hu1) as (ctx' & E & Hp'); [zl|auto with bytes|].
    rewrite E. exists ctx'. split; [|by replace (p + len) with (p + l + (len - l)) by lia]. f_equal.
    rewrite <- xor_bytes_app by (rewrite length_keystream; unfold ztake; rewrite length_take; unfold zlen in Hlen; lia).
    rewrite <- ztake_add, <- keystream_app by lia. do 2 f_equal; lia.
  - assert (l = len) as -> by (cbn [ctx1 unused] in Hu1; lia). unfold chacha_encrypt_bytes. rewrite Z.sub_diag. cbn [Z.eqb].
    exists ctx1. split; [by rewrite app_nil_r|done].
Qed.

(** *** Keys and nonces *)

(** The words a key and nonce give, with counter 0. *)
Definition cipher_input (key : list Z) (kbits : Z) (iv : list Z) : list Z :=
  input (chacha_ivsetup iv None (chacha_keysetup key kbits blank_ctx)).

Lemma length_words m p n : length (words m p n) = n.
Proof. unfold words. rewrite length_fmap, length_seqZ. lia. Qed.
Lemma length_keysetup k kbits x : length (input x) = 16%nat -> length (input (chacha_keysetup k kbits x)) = 16%nat.
Proof.
  intros Hx. unfold chacha_keysetup. destruct (kbits =? 256); cbn [input]; rewrite !length_app, !length_words, length_drop, Hx; done.
Qed.
Lemma length_ivsetup iv c x : length (input x) = 16%nat -> length (input (chacha_ivsetup iv c x)) = 16%nat.
Proof. intros Hx. unfold chacha_ivsetup. cbn [input]. by rewrite length_app, length_take, Hx. Qed.
Lemma length_cipher_input key kbits iv : length (cipher_input key kbits iv) = 16%nat.
Proof. by apply length_ivsetup, length_keysetup. Qed.

(** Setting key and nonce of any context; the counter goes to words 12 and 13. *)
Lemma setup_input key kbits iv c x :
  length (input x) = 16%nat ->
  input (chacha_ivsetup iv c (chacha_keysetup key kbits x)) =
  <[13%nat := match c with None => 0 | Some c => U8TO32_LITTLE c 4 end]>
    (<[12%nat := match c with None => 0 | Some c => U8TO32_LITTLE c 0 end]> (cipher_input key kbits iv)).
Proof.
  intros Hx. unfold cipher_input, chacha_keysetup, chacha_ivsetup. cbn [input blank_ctx].
  set (kc := if kbits =? 256 then (16, sigma) else (0, tau)). destruct kc as [k' constants]. cbn [input].
  set (l := words constants 0 4 ++ words key 0 4 ++ words key k' 4).
  assert (Hl : length l = 12%nat) by (unfold l; by rewrite !length_app, !length_words).
  assert (E : forall d, take 12 (words constants 0 4 ++ words key 0 4 ++ words key k' 4 ++ d) = l).
  { intros d. rewrite <- (take_app_length l d), Hl. unfold l. by rewrite <- !app_assoc. }
  rewrite !E. by rewrite (insert_app_r_alt l), (insert_app_r_alt l), Hl by (rewrite Hl; lia).
Qed.

(** The value of the eight counter bytes, 0 for NULL. *)
Definition counter_val (c : option (list Z)) : Z := match c with None => 0 | Some c => le_val c end.

Lemma at_counter_setup key kbits iv c x :
  length (input x) = 16%nat -> (if c is Some c then length c = 8%nat /\ Forall is_byte c else True) ->
  input (chacha_ivsetup iv c (chacha_keysetup key kbits x)) = at_counter (cipher_input key kbits iv) (counter_val c).
Proof.
  intros Hx Hc. rewrite setup_input by done. unfold at_counter. destruct c as [c|]; [|done]. destruct Hc as [Hl Hb].
  do 8 (destruct c as [|? c]; [done|]). destruct c; [|done].
  change [z; z0; z1; z2; z3; z4; z5; z6] with ([z; z0; z1; z2] ++ [z3; z4; z5; z6]) in Hb. apply Forall_app in Hb as [Hb1 Hb2].
  change 4 with (4 + 0) at 1. rewrite U8TO32_drop by lia. change (zdrop 4 [z; z0; z1; z2; z3; z4; z5; z6]) with [z3; z4; z5; z6].
  rewrite !U8TO32_le by done. pose proof (le_val_bound _ Hb1) as B1. pose proof (le_val_bound _ Hb2) as B2.
  unfold counter_val. change [z; z0; z1; z2; z3; z4; z5; z6] with ([z; z0; z1; z2] ++ [z3; z4; z5; z6]). rewrite le_val_app.
  revert B1 B2. generalize (le_val [z; z0; z1; z2]) (le_val [z3; z4; z5; z6]). intros u v.
  change (zlen [z; z0; z1; z2]) with 4. change (zlen [z3; z4; z5; z6]) with 4. intros B1 B2.
  rewrite (Z.mul_comm (256 ^ 4)). change (256 ^ 4) with (2 ^ 32) in *. rewrite Z.div_add, Z.mod_add, (Z.div_small u), !Z.mod_small by lia. done.
Qed.

Lemma at_counter_small x n : length x = 16%nat -> 0 <= n < 2 ^ 64 ->
  at_counter x n = <[13%nat := wrap32 (Z.shiftr n 32)]> (<[12%nat := wrap32 n]> x).
Proof. intros. unfold at_counter, wrap32. by rewrite Z.shiftr_div_pow2 by lia. Qed.

(** [CRYPTO_chacha_20] encrypts the first [len mod 2^32] bytes. *)
Lemma CRYPTO_chacha_20_spec inp len key iv counter :
  0 <= counter < 2 ^ 64 -> 0 <= len <= zlen inp -> Forall is_byte inp ->
  CRYPTO_chacha_20 inp len key iv counter =
  xor_bytes (ztake (wrap32 len) inp) (keystream (cipher_input key 256 iv) (64 * counter) (wrap32 len)).
Proof.
  intros Hc Hl Hb. unfold CRYPTO_chacha_20. set (x := cipher_input key 256 iv).
  assert (Hx : length x = 16%nat) by apply length_cipher_input.
  set (ctx := if negb (counter =? 0) then _ else _).
  assert (Hp : at_pos x ctx (64 * counter) /\ unused ctx = 0).
  { unfold at_pos. replace ((64 * counter + 63) / 64) with counter by dlia. replace ((- (64 * counter)) mod 64) with 0 by dlia.
    assert (Hin : input (chacha_ivsetup iv None (chacha_keysetup key 256 blank_ctx)) = at_counter x 0) by (by apply (at_counter_setup _ _ _ None)).
    unfold ctx. destruct (Z.eqb_spec counter 0) as [->|Hne]; cbn [negb input ks unused].
    - rewrite Hin. repeat split; try done; cbn; lia.
    - rewrite Hin, <- at_counter_small, at_counter_twice by (done || lia). repeat split; try done; cbn; lia. }
  destruct Hp as [Hp Hu]. assert (Hw : 0 <= wrap32 len <= zlen inp) by (unfold wrap32; dlia).
  destruct (chacha_encrypt_bytes_spec x ctx (64 * counter) inp (wrap32 len) Hp Hu Hw Hb) as (ctx' & E & _). by rewrite E.
Qed.

(** *** Runs of calls *)

Fixpoint ChaCha_run (ctx : chacha_ctx) (chunks : list (list Z)) : chacha_ctx * list Z :=
  match chunks with
  | [] => (ctx, [])
  | m :: chunks =>
      let '(ctx, out) := ChaCha ctx m (zlen m) in
      let '(ctx, rest) := ChaCha_run ctx chunks in (ctx, out ++ rest)
  end.

(** A byte array that one call can take. *)
Definition chunk (m : list Z) : Prop := Forall is_byte m /\ zlen m < 2 ^ 32.

Lemma ChaCha_run_spec x chunks ctx p :
  at_pos x ctx p -> Forall chunk chunks ->
  snd (ChaCha_run ctx chunks) = xor_bytes (concat chunks) (keystream x p (zlen (concat chunks))).
Proof.
  revert ctx p. induction chunks as [|m chunks IH]; intros ctx p Hp Hc; [done|].
  apply Forall_cons in Hc as [[Hb Hs] Hc]. cbn [ChaCha_run concat].
  destruct (ChaCha_spec x ctx p m (zlen m) Hp) as (ctx1 & E & Hp1); [zl|done|done|]. rewrite E.
  specialize (IH ctx1 _ Hp1 Hc). destruct (ChaCha_run ctx1 chunks) as [ctx2 out]. cbn [snd] in *. rewrite IH.
  rewrite zlen_app, keystream_app, ztake_ge by zl. rewrite xor_bytes_app; [done|]. rewrite length_keystream. unfold zlen. lia.
Qed.

(** A fresh context for a key, a nonce and a starting counter. *)
Definition ChaCha_start (key : list Z) (kbits : Z) (iv : list Z) (counter : option (list Z)) (ctx : chacha_ctx) : chacha_ctx :=
  ChaCha_set_iv iv counter (ChaCha_set_key key kbits ctx).

Lemma ChaCha_start_pos key kbits iv c ctx :
  length (input ctx) = 16%nat -> (if c is Some c then length c = 8%nat /\ Forall is_byte c else True) ->
  at_pos (cipher_input key kbits iv) (ChaCha_start key kbits iv c ctx) (64 * counter_val c).
Proof.
  intros Hx Hc. unfold at_pos, ChaCha_start, ChaCha_set_iv, ChaCha_set_key. cbn [input unused ks].
  replace ((64 * counter_val c + 63) / 64) with (counter_val c) by dlia. split_and!.
  - apply length_cipher_input.
  - rewrite <- (at_counter_setup key kbits iv c ctx) by done. by destruct (chacha_keysetup key kbits ctx).
  - dlia.
  - lia.
Qed.

(** ** Theorems *)

(** Encryption does not depend on how the data is cut up, and the same key, nonce and counter
    undo it: whatever chunks a message is given to [ChaCha] in, the output is the message XORed with
    the keystream of the key, which starts at the block number given and whose 64-bit block counter
    carries from word 12 to word 13; and running a fresh context over that output, in any other
    chunks, gives the message back. *)
Theorem ChaCha_stream_roundtrip key kbits iv c ctx chunks :
  length (input ctx) = 16%nat -> (if c is Some c then length c = 8%nat /\ Forall is_byte c else True) -> Forall chunk chunks ->
  let out := snd (ChaCha_run (ChaCha_start key kbits iv c ctx) chunks) in
  out = xor_bytes (concat chunks) (keystream (cipher_input key kbits iv) (64 * counter_val c) (zlen (concat chunks))) /\
  forall ctx' chunks', length (input ctx') = 16%nat -> Forall chunk chunks' -> concat chunks' = out ->
    snd (ChaCha_run (ChaCha_start key kbits iv c ctx') chunks') = concat chunks.
Proof.
  intros Hx Hc Hch out. pose proof (ChaCha_start_pos key kbits iv c ctx Hx Hc) as Hp.
  pose proof (ChaCha_run_spec _ _ _ _ Hp Hch) as Hout. fold out in Hout. split; [done|].
  intros ctx' chunks' Hx' Hch' Hcat. rewrite (ChaCha_run_spec _ _ _ _ (ChaCha_start_pos key kbits iv c ctx' Hx' Hc) Hch').
  rewrite Hcat, Hout, zlen_xor_bytes, zlen_keystream, Z.min_id by apply zlen_nonneg.
  apply xor_bytes_involutive. rewrite length_keystream. unfold zlen. lia.
Qed.

(** Three chunks that leave keystream over, decrypted in one piece, across a counter carry. *)
Definition toy_ctr : list Z := [0xff; 0xff; 0xff; 0xff; 7; 0; 0; 0].
Definition toy_chunks : list (list Z) := [zeros 50; seqZ 0 70; [1; 2; 3]].
Lemma ChaCha_stream_roundtrip_witness :
  let run := ChaCha_run (ChaCha_start (seqZ 0 32) 256 (seqZ 0 8) (Some toy_ctr) blank_ctx) in
  snd (run [snd (run toy_chunks)]) = concat toy_chunks.
Proof.
  intros run. assert (Hc : Forall chunk toy_chunks).
  { repeat (constructor; [split; [apply bytes_ok; vm_compute; reflexivity|by vm_compute]|]). constructor. }
  destruct (ChaCha_stream_roundtrip (seqZ 0 32) 256 (seqZ 0 8) (Some toy_ctr) blank_ctx toy_chunks eq_refl
    (conj eq_refl (bytes_ok toy_ctr eq_refl)) Hc) as [_ Hd].
  apply Hd; [reflexivity| |apply app_nil_r]. constructor; [|constructor]. split; [apply bytes_ok; vm_compute; reflexivity|vm_compute; reflexivity].
Defined.
