(* ===== verification/Poly1305.v ===== *)
(** * The Poly1305 authenticator (crypto/poly1305/poly1305-donna.c, crypto/poly1305/poly1305.c)

    The 130-bit accumulator and the 124-bit multiplier are kept in five limbs of 26 bits in
    [unsigned long]s, which are 64 bits wide; the accumulator is only partially reduced between
    blocks.  Unsigned arithmetic is modulo 2^64: an expression is reduced once at its end. *)
From S2P Require Import Prelude Words.

Definition poly1305_block_size : Z := 16.

Record limbs := mkLimbs { l0 : Z; l1 : Z; l2 : Z; l3 : Z; l4 : Z }.
Record pads := mkPads { p0 : Z; p1 : Z; p2 : Z; p3 : Z }.

Record poly1305_state_internal_t := mkPoly {
  r : limbs;
  h : limbs;
  pad : pads;
  leftover : Z;
  buffer : list Z;
  final : bool
}.

(** The word at offset [p] of an array. *)
Definition U8TO32 (m : list Z) (p : Z) : Z :=
  Z.lor (Z.lor (Z.lor (Z.land (znth m p) 0xff) (Z.shiftl (Z.land (znth m (p + 1)) 0xff) 8))
    (Z.shiftl (Z.land (znth m (p + 2)) 0xff) 16)) (Z.shiftl (Z.land (znth m (p + 3)) 0xff) 24).
Definition U32TO8 (v : Z) : list Z :=
  [Z.land v 0xff; Z.land (Z.shiftr v 8) 0xff; Z.land (Z.shiftr v 16) 0xff; Z.land (Z.shiftr v 24) 0xff].

(** The buffer is left as it is. *)
Definition poly1305_init (key : list Z) (st : poly1305_state_internal_t) : poly1305_state_internal_t :=
  mkPoly
    (mkLimbs (Z.land (U8TO32 key 0) 0x3ffffff)
             (Z.land (Z.shiftr (U8TO32 key 3) 2) 0x3ffff03)
             (Z.land (Z.shiftr (U8TO32 key 6) 4) 0x3ffc0ff)
             (Z.land (Z.shiftr (U8TO32 key 9) 6) 0x3f03fff)
             (Z.land (Z.shiftr (U8TO32 key 12) 8) 0x00fffff))
    (mkLimbs 0 0 0 0 0)
    (mkPads (U8TO32 key 16) (U8TO32 key 20) (U8TO32 key 24) (U8TO32 key 28))
    0 (buffer st) false.

(** [h += m[i]] *)
Definition add_block (hibit : Z) (m : list Z) (h : limbs) : limbs :=
  mkLimbs (wrap64 (l0 h + Z.land (U8TO32 m 0) 0x3ffffff))
          (wrap64 (l1 h + Z.land (Z.shiftr (U8TO32 m 3) 2) 0x3ffffff))
          (wrap64 (l2 h + Z.land (Z.shiftr (U8TO32 m 6) 4) 0x3ffffff))
          (wrap64 (l3 h + Z.land (Z.shiftr (U8TO32 m 9) 6) 0x3ffffff))
          (wrap64 (l4 h + Z.lor (Z.shiftr (U8TO32 m 12) 8) hibit)).

(** [h *= r] *)
Definition mul_limbs (r h : limbs) : limbs :=
  let s1 := wrap64 (l1 r * 5) in
  let s2 := wrap64 (l2 r * 5) in
  let s3 := wrap64 (l3 r * 5) in
  let s4 := wrap64 (l4 r * 5) in
  mkLimbs (wrap64 (l0 h * l0 r + l1 h * s4 + l2 h * s3 + l3 h * s2 + l4 h * s1))
          (wrap64 (l0 h * l1 r + l1 h * l0 r + l2 h * s4 + l3 h * s3 + l4 h * s2))
          (wrap64 (l0 h * l2 r + l1 h * l1 r + l2 h * l0 r + l3 h * s4 + l4 h * s3))
          (wrap64 (l0 h * l3 r + l1 h * l2 r + l2 h * l1 r + l3 h * l0 r + l4 h * s4))
          (wrap64 (l0 h * l4 r + l1 h * l3 r + l2 h * l2 r + l3 h * l1 r + l4 h * l0 r)).

(** [(partial) h %= p] *)
Definition carry_limbs (d : limbs) : limbs :=
  let c := Z.shiftr (l0 d) 26 in
  let h0 := Z.land (l0 d) 0x3ffffff in
  let d1 := wrap64 (l1 d + c) in
  let c := Z.shiftr d1 26 in
  let h1 := Z.land d1 0x3ffffff in
  let d2 := wrap64 (l2 d + c) in
  let c := Z.shiftr d2 26 in
  let h2 := Z.land d2 0x3ffffff in
  let d3 := wrap64 (l3 d + c) in
  let c := Z.shiftr d3 26 in
  let h3 := Z.land d3 0x3ffffff in
  let d4 := wrap64 (l4 d + c) in
  let c := Z.shiftr d4 26 in
  let h4 := Z.land d4 0x3ffffff in
  let h0 := wrap64 (h0 + c * 5) in
  let c := Z.shiftr h0 26 in
  let h0 := Z.land h0 0x3ffffff in
  let h1 := wrap64 (h1 + c) in
  mkLimbs h0 h1 h2 h3 h4.

Fixpoint blocks_loop (fuel : nat) (r : limbs) (hibit : Z) (h : limbs) (m : list Z) (bytes : Z) : limbs :=
  match fuel with
  | O => h
  | S fuel' =>
      if poly1305_block_size <=? bytes then
        blocks_loop fuel' r hibit (carry_limbs (mul_limbs r (add_block hibit m h)))
          (zdrop poly1305_block_size m) (bytes - poly1305_block_size)
      else h
  end.

(** Every pass consumes sixteen bytes. *)
Definition poly1305_blocks (m : list Z) (bytes : Z) (st : poly1305_state_internal_t) : poly1305_state_internal_t :=
  let hibit := if final st then 0 else Z.shiftl 1 24 in
  mkPoly (r st) (blocks_loop (Z.to_nat bytes) (r st) hibit (h st) m bytes) (pad st) (leftover st) (buffer st) (final st).

(** [for (i = 0; i < n; i++) st->buffer[st->leftover + i] = m[i];] and [st->leftover += n;] *)
Definition store_leftover (m : list Z) (n : Z) (st : poly1305_state_internal_t) : poly1305_state_internal_t :=
  mkPoly (r st) (h st) (pad st) (leftover st + n) (overwrite (buffer st) (leftover st) (ztake n m)) (final st).
Definition set_leftover (n : Z) (st : poly1305_state_internal_t) : poly1305_state_internal_t :=
  mkPoly (r st) (h st) (pad st) n (buffer st) (final st).

(** Full blocks, and what is left of them. *)
Definition update_blocks (m : list Z) (bytes : Z) (st : poly1305_state_internal_t) : poly1305_state_internal_t :=
  let '(m, bytes, st) :=
    if poly1305_block_size <=? bytes then
      let want := Z.land bytes (Z.lnot (poly1305_block_size - 1)) in
      (zdrop want m, bytes - want, poly1305_blocks m want st)
    else (m, bytes, st) in
  if negb (bytes =? 0) then store_leftover m bytes st else st.

Definition poly1305_update (m : list Z) (bytes : Z) (st : poly1305_state_internal_t) : poly1305_state_internal_t :=
  if negb (leftover st =? 0) then
    let want := poly1305_block_size - leftover st in
    let want := if bytes <? want then bytes else want in
    let st := store_leftover m want st in
    if leftover st <? poly1305_block_size then st
    else
    let st := poly1305_blocks (buffer st) poly1305_block_size st in
    update_blocks (zdrop want m) (bytes - want) (set_leftover 0 st)
  else update_blocks m bytes st.

(** The padded last block. *)
Definition final_block (st : poly1305_state_internal_t) : poly1305_state_internal_t :=
  if negb (leftover st =? 0) then
    let i := leftover st in
    let buf := overwrite (overwrite (buffer st) i [1]) (i + 1) (zeros (poly1305_block_size - (i + 1))) in
    poly1305_blocks buf poly1305_block_size (mkPoly (r st) (h st) (pad st) (leftover st) buf true)
  else st.

(** [fully carry h] *)
Definition full_carry (h : limbs) : limbs :=
  let c := Z.shiftr (l1 h) 26 in
  let h1 := Z.land (l1 h) 0x3ffffff in
  let h2 := wrap64 (l2 h + c) in
  let c := Z.shiftr h2 26 in
  let h2 := Z.land h2 0x3ffffff in
  let h3 := wrap64 (l3 h + c) in
  let c := Z.shiftr h3 26 in
  let h3 := Z.land h3 0x3ffffff in
  let h4 := wrap64 (l4 h + c) in
  let c := Z.shiftr h4 26 in
  let h4 := Z.land h4 0x3ffffff in
  let h0 := wrap64 (l0 h + c * 5) in
  let c := Z.shiftr h0 26 in
  let h0 := Z.land h0 0x3ffffff in
  let h1 := wrap64 (h1 + c) in
  mkLimbs h0 h1 h2 h3 h4.

(** [compute h + -p] *)
Definition minus_p (h : limbs) : limbs :=
  let g0 := wrap64 (l0 h + 5) in
  let c := Z.shiftr g0 26 in
  let g0 := Z.land g0 0x3ffffff in
  let g1 := wrap64 (l1 h + c) in
  let c := Z.shiftr g1 26 in
  let g1 := Z.land g1 0x3ffffff in
  let g2 := wrap64 (l2 h + c) in
  let c := Z.shiftr g2 26 in
  let g2 := Z.land g2 0x3ffffff in
  let g3 := wrap64 (l3 h + c) in
  let c := Z.shiftr g3 26 in
  let g3 := Z.land g3 0x3ffffff in
  let g4 := wrap64 (l4 h + c - Z.shiftl 1 26) in
  mkLimbs g0 g1 g2 g3 g4.

(** [select h if h < p, or h + -p if h >= p] *)
Definition select (h g : limbs) : limbs :=
  let mask := wrap64 (Z.shiftr (l4 g) 63 - 1) in
  let nmask := wrap64 (Z.lnot mask) in
  let sel a b := Z.lor (Z.land a nmask) (Z.land b mask) in
  mkLimbs (sel (l0 h) (l0 g)) (sel (l1 h) (l1 g)) (sel (l2 h) (l2 g)) (sel (l3 h) (l3 g)) (sel (l4 h) (l4 g)).

(** [mac = (h % 2^128 + pad) % 2^128] *)
Definition add_pad (h : limbs) (pad : pads) : list Z :=
  let h0 := Z.land (Z.lor (l0 h) (wrap64 (Z.shiftl (l1 h) 26))) 0xffffffff in
  let h1 := Z.land (Z.lor (Z.shiftr (l1 h) 6) (wrap64 (Z.shiftl (l2 h) 20))) 0xffffffff in
  let h2 := Z.land (Z.lor (Z.shiftr (l2 h) 12) (wrap64 (Z.shiftl (l3 h) 14))) 0xffffffff in
  let h3 := Z.land (Z.lor (Z.shiftr (l3 h) 18) (wrap64 (Z.shiftl (l4 h) 8))) 0xffffffff in
  let f0 := wrap64 (h0 + p0 pad) in
  let f1 := wrap64 (h1 + p1 pad + Z.shiftr f0 32) in
  let f2 := wrap64 (h2 + p2 pad + Z.shiftr f1 32) in
  let f3 := wrap64 (h3 + p3 pad + Z.shiftr f2 32) in
  U32TO8 f0 ++ U32TO8 f1 ++ U32TO8 f2 ++ U32TO8 f3.

(** The message authentication code, and the state with its secrets zeroed. *)
Definition poly1305_finish (st : poly1305_state_internal_t) : list Z * poly1305_state_internal_t :=
  let st := final_block st in
  let hc := full_carry (h st) in
  let mac := add_pad (select hc (minus_p hc)) (pad st) in
  (mac, mkPoly (mkLimbs 0 0 0 0 0) (mkLimbs 0 0 0 0 0) (mkPads 0 0 0 0) (leftover st) (buffer st) (final st)).

(** ** poly1305.c *)

Definition CRYPTO_poly1305_init (key : list Z) (st : poly1305_state_internal_t) : poly1305_state_internal_t := poly1305_init key st.
Definition CRYPTO_poly1305_update (inp : list Z) (len : Z) (st : poly1305_state_internal_t) : poly1305_state_internal_t :=
  poly1305_update inp len st.
Definition CRYPTO_poly1305_finish (st : poly1305_state_internal_t) : list Z * poly1305_state_internal_t := poly1305_finish st.

(** A state on the stack, not initialised. *)
Definition blank_state : poly1305_state_internal_t :=
  mkPoly (mkLimbs 0 0 0 0 0) (mkLimbs 0 0 0 0 0) (mkPads 0 0 0 0) 0 (zeros 16) false.

(** The test vector of RFC 8439 section 2.5.2: "Cryptographic Forum Research Group". *)
Definition rfc_key : list Z :=
  [0x85;0xd6;0xbe;0x78;0x57;0x55;0x6d;0x33;0x7f;0x44;0x52;0xfe;0x42;0xd5;0x06;0xa8;
   0x01;0x03;0x80;0x8a;0xfb;0x0d;0xb2;0xfd;0x4a;0xbf;0xf6;0xaf;0x41;0x49;0xf5;0x1b].
Definition rfc_message : list Z :=
  [0x43;0x72;0x79;0x70;0x74;0x6f;0x67;0x72;0x61;0x70;0x68;0x69;0x63;0x20;0x46;0x6f;
   0x72;0x75;0x6d;0x20;0x52;0x65;0x73;0x65;0x61;0x72;0x63;0x68;0x20;0x47;0x72;0x6f;0x75;0x70].
Example poly1305_rfc8439 :
  fst (CRYPTO_poly1305_finish (CRYPTO_poly1305_update rfc_message 34 (CRYPTO_poly1305_init rfc_key blank_state))) =
  [0xa8;0x06;0x1d;0xc1;0x30;0x51;0x36;0xc6;0xc2;0x2b;0x8b;0xaf;0x0c;0x01;0x27;0xa9].
Proof. vm_compute. reflexivity. Qed.

(** ** The function of RFC 8439 section 2.5 *)

Definition P1305 : Z := 2 ^ 130 - 5.
(** Blocks of sixteen bytes, the last one possibly shorter. *)
Fixpoint poly_blocks (fuel : nat) (m : list Z) : list (list Z) :=
  match fuel with
  | O => []
  | S fuel => if m is [] then [] else ztake 16 m :: poly_blocks fuel (zdrop 16 m)
  end.
(** A block is read with a byte 1 appended. *)
Definition poly_eval (rv : Z) (blocks : list (list Z)) (acc : Z) : Z :=
  fold_left (fun acc b => ((acc + le_val (b ++ [1])) * rv) mod P1305) blocks acc.
Definition clamp (v : Z) : Z := Z.land v 0x0ffffffc0ffffffc0ffffffc0fffffff.
Definition poly1305_spec (key m : list Z) : list Z :=
  let rv := clamp (le_val (ztake 16 key)) in
  let s := le_val (slice key 16 16) in
  le_bytes 16 (poly_eval rv (poly_blocks (length m) m) 0 + s).

(** *** Limbs *)

Definition limb_val (a : limbs) : Z := l0 a + 2 ^ 26 * l1 a + 2 ^ 52 * l2 a + 2 ^ 78 * l3 a + 2 ^ 104 * l4 a.
Definition small (a : Z) : Prop := 0 <= a < 2 ^ 26.
(** The multiplier. *)
Definition r_ok (a : limbs) : Prop := small (l0 a) /\ small (l1 a) /\ small (l2 a) /\ small (l3 a) /\ small (l4 a).
(** The accumulator between blocks: one limb may be a little larger. *)
Definition h_ok (a : limbs) : Prop :=
  small (l0 a) /\ 0 <= l1 a < 2 ^ 26 + 2 ^ 16 /\ small (l2 a) /\ small (l3 a) /\ small (l4 a).

Lemma U8TO32_val m p :
  Forall is_byte m -> 0 <= p -> p + 4 <= zlen m -> U8TO32 m p = (le_val m / 256 ^ p) mod 2 ^ 32.
Proof.
  intros Hb Hp Hl. destruct (zsplit p m ltac:(lia)) as (a & b & -> & Ha & _ & _). apply Forall_app in Hb as [Hba Hb].
  rewrite zlen_app in Hl. destruct b as [|b0 [|b1 [|b2 [|b3 b]]]]; rewrite ?zlen_cons, ?zlen_nil in Hl; try lia.
  assert (H4 : Forall is_byte [b0; b1; b2; b3] /\ Forall is_byte b) by (rewrite <- Forall_app; done). destruct H4 as [H4 Hb'].
  rewrite le_val_app, Ha, Z.mul_comm, Z.div_add by (apply Z.pow_nonzero; lia).
  rewrite (Z.div_small (le_val a)), Z.add_0_l by (rewrite <- Ha; by apply le_val_bound).
  change (b0 :: b1 :: b2 :: b3 :: b) with ([b0; b1; b2; b3] ++ b). rewrite (le_val_app [b0; b1; b2; b3]).
  change (256 ^ zlen [b0; b1; b2; b3]) with (2 ^ 32). rewrite Z.mul_comm, Z.mod_add, Z.mod_small by (done || apply (le_val_bound _ H4)).
  assert (Hn : forall i c d e, [b0; b1; b2; b3] = c ++ d :: e -> i = zlen c -> znth (a ++ [b0; b1; b2; b3] ++ b) (p + i) = d).
  { intros i c d e E ->. rewrite E, <- app_assoc, app_assoc. cbn [app]. apply znth_app_at. rewrite zlen_app. lia. }
  unfold U8TO32. rewrite <- (Z.add_0_r p) at 1. rewrite (Hn 0 [] b0 [b1; b2; b3]), (Hn 1 [b0] b1 [b2; b3]),
    (Hn 2 [b0; b1] b2 [b3]), (Hn 3 [b0; b1; b2] b3 []) by done.
  repeat (apply Forall_cons in H4 as [? H4]). unfold is_byte in *. change 0xff with (2 ^ 8 - 1).
  rewrite !land_mask, !Z.mod_small by lia. rewrite (lor_shiftl b0), (lor_shiftl _ b2), (lor_shiftl _ b3) by lia.
  cbn [le_val fold_right]. lia.
Qed.

Lemma land26 v : Z.land v 0x3ffffff = v mod 2 ^ 26.
Proof. change 0x3ffffff with (2 ^ 26 - 1). by rewrite land_mask. Qed.
Lemma shr v k : 0 <= k -> Z.shiftr v k = v / 2 ^ k.
Proof. intros. by apply Z.shiftr_div_pow2. Qed.
(** Bits [i ..] of a word that starts at bit [j]. *)
Lemma word_bits v j k n : 0 <= j -> 0 <= k -> 0 <= n <= 32 - k -> ((v / 2 ^ j) mod 2 ^ 32 / 2 ^ k) mod 2 ^ n = (v / 2 ^ (j + k)) mod 2 ^ n.
Proof.
  intros. rewrite Z.pow_add_r, <- Z.div_div by lia. generalize (v / 2 ^ j). intros u.
  replace 32 with (k + (32 - k)) by lia. rewrite Z.pow_add_r, Z.rem_mul_r, Z.mul_comm, Z.div_add by lia.
  rewrite (Z.div_small (u mod 2 ^ k)), Z.add_0_l by (apply Z.mod_pos_bound; lia).
  replace (32 - k) with (n + (32 - k - n)) by lia. rewrite Z.pow_add_r, Z.rem_mul_r by lia.
  rewrite Z.mul_comm, Z.mod_add, Z.mod_mod by lia. done.
Qed.

(** A number of 128 bits is the sum of its limbs. *)
Lemma limbs_sum v : 0 <= v < 2 ^ 128 ->
  v mod 2 ^ 26 + 2 ^ 26 * ((v / 2 ^ 26) mod 2 ^ 26) + 2 ^ 52 * ((v / 2 ^ 52) mod 2 ^ 26) + 2 ^ 78 * ((v / 2 ^ 78) mod 2 ^ 26) +
  2 ^ 104 * (v / 2 ^ 104) = v.
Proof.
  intros Hv. change (2 ^ 52) with (2 ^ 26 * 2 ^ 26) at 2. change (2 ^ 78) with (2 ^ 26 * 2 ^ 26 * 2 ^ 26) at 2.
  change (2 ^ 104) with (2 ^ 26 * 2 ^ 26 * 2 ^ 26 * 2 ^ 26) at 2. rewrite <- !Z.div_div by lia. dlia.
Qed.

(** The accumulator after adding a block. *)
Definition sum_ok (a : limbs) : Prop :=
  0 <= l0 a < 2 ^ 28 /\ 0 <= l1 a < 2 ^ 28 /\ 0 <= l2 a < 2 ^ 28 /\ 0 <= l3 a < 2 ^ 28 /\ 0 <= l4 a < 2 ^ 28.

Lemma wrap64_small v : 0 <= v < 2 ^ 64 -> wrap64 v = v.
Proof. apply Z.mod_small. Qed.

Lemma add_block_spec (one : bool) m hh :
  length m = 16%nat -> Forall is_byte m -> h_ok hh ->
  let a := add_block (if one then Z.shiftl 1 24 else 0) m hh in
  sum_ok a /\ limb_val a = limb_val hh + le_val m + (if one then 2 ^ 128 else 0).
Proof.
  intros Hl Hb (H0 & H1 & H2 & H3 & H4) a. unfold small in *.
  assert (Hz : zlen m = 16) by (unfold zlen; by rewrite Hl). pose proof (le_val_bound m Hb) as Hv. rewrite Hz in Hv.
  change (256 ^ 16) with (2 ^ 128) in Hv. set (v := le_val m) in *.
  assert (E0 : Z.land (U8TO32 m 0) 0x3ffffff = v mod 2 ^ 26).
  { rewrite U8TO32_val, land26 by (done || lia). rewrite <- (Z.div_1_r ((le_val m / 256 ^ 0) mod 2 ^ 32)).
    rewrite (word_bits _ 0 0 26) by lia. by rewrite Z.div_1_r. }
  assert (E1 : Z.land (Z.shiftr (U8TO32 m 3) 2) 0x3ffffff = (v / 2 ^ 26) mod 2 ^ 26).
  { rewrite U8TO32_val, land26, shr by (done || lia). change (256 ^ 3) with (2 ^ 24). by rewrite word_bits by lia. }
  assert (E2 : Z.land (Z.shiftr (U8TO32 m 6) 4) 0x3ffffff = (v / 2 ^ 52) mod 2 ^ 26).
  { rewrite U8TO32_val, land26, shr by (done || lia). change (256 ^ 6) with (2 ^ 48). by rewrite word_bits by lia. }
  assert (E3 : Z.land (Z.shiftr (U8TO32 m 9) 6) 0x3ffffff = (v / 2 ^ 78) mod 2 ^ 26).
  { rewrite U8TO32_val, land26, shr by (done || lia). change (256 ^ 9) with (2 ^ 72). by rewrite word_bits by lia. }
  assert (E4 : Z.shiftr (U8TO32 m 12) 8 = v / 2 ^ 104).
  { rewrite U8TO32_val, shr by (done || lia). fold v. change (256 ^ 12) with (2 ^ 96).
    rewrite Z.mod_small by dlia. change (2 ^ 104) with (2 ^ 96 * 2 ^ 8). by rewrite Z.div_div by lia. }
  assert (B4 : 0 <= v / 2 ^ 104 < 2 ^ 24) by dlia.
  assert (E5 : Z.lor (v / 2 ^ 104) (if one then Z.shiftl 1 24 else 0) = v / 2 ^ 104 + if one then 2 ^ 24 else 0).
  { destruct one; [by rewrite lor_shiftl by lia|by rewrite Z.lor_0_r, Z.add_0_r]. }
  unfold a, add_block, sum_ok, limb_val. cbn [l0 l1 l2 l3 l4]. rewrite E0, E1, E2, E3, E4, E5.
  pose proof (Z.mod_pos_bound v (2 ^ 26)). pose proof (Z.mod_pos_bound (v / 2 ^ 26) (2 ^ 26)).
  pose proof (Z.mod_pos_bound (v / 2 ^ 52) (2 ^ 26)). pose proof (Z.mod_pos_bound (v / 2 ^ 78) (2 ^ 26)).
  rewrite !wrap64_small by (destruct one; lia). split; [destruct one; lia|].
  rewrite <- (limbs_sum v) at 6 by lia. destruct one; lia.
Qed.

Lemma mul_bound a b A B : 0 <= a < A -> 0 <= b < B -> 0 <= a * b < A * B.
Proof. nia. Qed.

(** The products, before any carry: below 2^60. *)
Definition prod_ok (a : limbs) : Prop :=
  0 <= l0 a < 2 ^ 60 /\ 0 <= l1 a < 2 ^ 60 /\ 0 <= l2 a < 2 ^ 60 /\ 0 <= l3 a < 2 ^ 60 /\ 0 <= l4 a < 2 ^ 60.

Lemma dot5_bound a0 a1 a2 a3 a4 b0 b1 b2 b3 b4 :
  0 <= a0 < 2 ^ 28 -> 0 <= a1 < 2 ^ 28 -> 0 <= a2 < 2 ^ 28 -> 0 <= a3 < 2 ^ 28 -> 0 <= a4 < 2 ^ 28 ->
  0 <= b0 < 2 ^ 29 -> 0 <= b1 < 2 ^ 29 -> 0 <= b2 < 2 ^ 29 -> 0 <= b3 < 2 ^ 29 -> 0 <= b4 < 2 ^ 29 ->
  0 <= a0 * b0 + a1 * b1 + a2 * b2 + a3 * b3 + a4 * b4 < 2 ^ 60.
Proof.
  intros A0 A1 A2 A3 A4 B0 B1 B2 B3 B4.
  pose proof (mul_bound _ _ _ _ A0 B0). pose proof (mul_bound _ _ _ _ A1 B1). pose proof (mul_bound _ _ _ _ A2 B2).
  pose proof (mul_bound _ _ _ _ A3 B3). pose proof (mul_bound _ _ _ _ A4 B4). lia.
Qed.
Lemma wrap60 v : 0 <= v < 2 ^ 60 -> wrap64 v = v.
Proof. intros. apply wrap64_small. lia. Qed.

Lemma mul_limbs_spec rr a :
  r_ok rr -> sum_ok a -> prod_ok (mul_limbs rr a) /\ exists k, limb_val (mul_limbs rr a) = limb_val a * limb_val rr + k * P1305.
Proof.
  destruct rr as [r0 r1 r2 r3 r4], a as [a0 a1 a2 a3 a4]. unfold r_ok, sum_ok, small. cbn [l0 l1 l2 l3 l4].
  intros (R0 & R1 & R2 & R3 & R4) (A0 & A1 & A2 & A3 & A4).
  unfold mul_limbs. cbn [l0 l1 l2 l3 l4]. rewrite !(wrap64_small (_ * 5)) by lia.
  rewrite !wrap60 by (apply dot5_bound; lia). split.
  - unfold prod_ok. cbn [l0 l1 l2 l3 l4]. split_and?; apply dot5_bound; lia.
  - exists (- (a1 * r4 + a2 * r3 + a3 * r2 + a4 * r1 + 2 ^ 26 * (a2 * r4 + a3 * r3 + a4 * r2) + 2 ^ 52 * (a3 * r4 + a4 * r3) + 2 ^ 78 * (a4 * r4))).
    unfold limb_val, P1305. cbn [l0 l1 l2 l3 l4]. ring.
Qed.

(** Splitting a limb into the 26 bits kept and the carry. *)
Lemma split26 v : 0 <= v -> exists q m, Z.shiftr v 26 = q /\ Z.land v 0x3ffffff = m /\ v = 2 ^ 26 * q + m /\ 0 <= q /\ 0 <= m < 2 ^ 26.
Proof.
  intros Hv. exists (v / 2 ^ 26), (v mod 2 ^ 26). rewrite shr, land26 by lia.
  split_and!; try done; try apply Z.div_mod; try apply Z.div_pos; try apply Z.mod_pos_bound; lia.
Qed.
(** [carry v q m]: replace the carry and the rest of [v] by [q] and [m]. *)
Ltac carry v q m :=
  let E1 := fresh in let E2 := fresh in
  destruct (split26 v) as (q & m & E1 & E2 & ? & ? & ?); [lia|]; rewrite E1, E2; clear E1 E2.

Lemma carry_limbs_spec d : prod_ok d -> h_ok (carry_limbs d) /\ exists k, limb_val (carry_limbs d) = limb_val d + k * P1305.
Proof.
  destruct d as [d0 d1 d2 d3 d4]. unfold prod_ok. cbn [l0 l1 l2 l3 l4]. intros (D0 & D1 & D2 & D3 & D4).
  unfold carry_limbs. cbn [l0 l1 l2 l3 l4]. cbv zeta.
  carry d0 c0 m0. rewrite (wrap64_small (d1 + c0)) by lia. carry (d1 + c0) c1 m1. rewrite (wrap64_small (d2 + c1)) by lia.
  carry (d2 + c1) c2 m2. rewrite (wrap64_small (d3 + c2)) by lia. carry (d3 + c2) c3 m3. rewrite (wrap64_small (d4 + c3)) by lia.
  carry (d4 + c3) c4 m4. rewrite (wrap64_small (m0 + c4 * 5)) by lia. carry (m0 + c4 * 5) c5 m5. rewrite (wrap64_small (m1 + c5)) by lia.
  split; [unfold h_ok, small; cbn [l0 l1 l2 l3 l4]; lia|]. exists (- c4). unfold limb_val, P1305. cbn [l0 l1 l2 l3 l4]. lia.
Qed.

(** One block: multiply and add modulo the prime. *)
Lemma block_step (one : bool) rr hh m :
  r_ok rr -> h_ok hh -> length m = 16%nat -> Forall is_byte m ->
  let h' := carry_limbs (mul_limbs rr (add_block (if one then Z.shiftl 1 24 else 0) m hh)) in
  h_ok h' /\ limb_val h' mod P1305 = ((limb_val hh + le_val m + if one then 2 ^ 128 else 0) * limb_val rr) mod P1305.
Proof.
  intros Hr Hh Hl Hb h'. destruct (add_block_spec one m hh Hl Hb Hh) as [Hs Ha].
  destruct (mul_limbs_spec rr _ Hr Hs) as [Hp [k1 Hm]]. destruct (carry_limbs_spec _ Hp) as [Hok [k2 Hc]].
  split; [done|]. unfold h'. rewrite Hc, Hm, Ha. by rewrite !Z.mod_add by done.
Qed.

(** *** Blocks of a message *)

Definition blocks (m : list Z) : list (list Z) := poly_blocks (length m) m.

Lemma poly_blocks_fuel m k : (length m <= k)%nat -> poly_blocks k m = blocks m.
Proof.
  unfold blocks. remember (length m) as n eqn:Hn. revert m k Hn. induction (lt_wf n) as [n _ IH]. intros m k -> Hk.
  destruct k as [|k], m as [|x m]; cbn [length poly_blocks] in *; try done; try lia.
  f_equal. assert (Hl : (length (zdrop 16 (x :: m)) <= length m)%nat) by (unfold zdrop; rewrite length_drop; cbn [length]; lia).
  set (d := zdrop 16 (x :: m)) in *. assert (Hd : (length d < S (length m))%nat) by lia.
  by rewrite (IH (length d) Hd d k eq_refl), (IH (length d) Hd d (length m) eq_refl) by lia.
Qed.
Lemma blocks_cons m : m <> [] -> blocks m = ztake 16 m :: blocks (zdrop 16 m).
Proof.
  intros Hm. unfold blocks at 1. destruct m as [|x m]; [done|]. cbn [length poly_blocks]. f_equal. apply poly_blocks_fuel.
  unfold zdrop. rewrite length_drop. cbn [length]. lia.
Qed.
Lemma blocks_app a b : zlen a mod 16 = 0 -> blocks (a ++ b) = blocks a ++ blocks b.
Proof.
  remember (length a) as n eqn:Hn. revert a Hn. induction (lt_wf n) as [n _ IH]. intros a -> Ha.
  destruct a as [|x a']; [done|]. set (a := x :: a') in *. assert (H16 : 16 <= zlen a) by (unfold a in *; rewrite zlen_cons in *; zl_pose; dlia).
  rewrite (blocks_cons (a ++ b)), (blocks_cons a), ztake_app_l, zdrop_app_l by (done || lia). cbn [app]. f_equal.
  apply (IH (length (zdrop 16 a))); [unfold zdrop; rewrite length_drop; unfold zlen in H16; lia|done|]. rewrite zlen_zdrop by lia. dlia.
Qed.
Lemma poly_eval_app rv a b acc : poly_eval rv (a ++ b) acc = poly_eval rv b (poly_eval rv a acc).
Proof. apply fold_left_app. Qed.
Lemma poly_eval_cons rv b bs acc : poly_eval rv (b :: bs) acc = poly_eval rv bs (((acc + le_val (b ++ [1])) * rv) mod P1305).
Proof. done. Qed.

Lemma blocks_loop_spec fuel rr hh m rest :
  r_ok rr -> h_ok hh -> Forall is_byte m -> zlen m mod 16 = 0 -> zlen m <= 16 * Z.of_nat fuel ->
  let h' := blocks_loop fuel rr (Z.shiftl 1 24) hh (m ++ rest) (zlen m) in
  h_ok h' /\ limb_val h' mod P1305 = poly_eval (limb_val rr) (blocks m) (limb_val hh mod P1305).
Proof.
  intros Hr. revert hh m. induction fuel as [|fuel IH]; intros hh m Hh Hb Hm Hf.
  { assert (m = []) as -> by (apply zlen_0_nil; zl). done. }
  cbn [blocks_loop]. unfold poly1305_block_size. destruct (Z.leb_spec 16 (zlen m)) as [H16|H16].
  2: { assert (m = []) as -> by (apply zlen_0_nil; zl_pose; dlia). done. }
  destruct (zsplit 16 m ltac:(lia)) as (a & b & -> & Ha & Ht & Hd). apply Forall_app in Hb as [Hba Hbb].
  assert (Hla : length a = 16%nat) by (unfold zlen in Ha; lia).
  assert (Eadd : add_block (Z.shiftl 1 24) ((a ++ b) ++ rest) hh = add_block (Z.shiftl 1 24) a hh).
  { assert (Hn : forall i, 0 <= i < 16 -> znth ((a ++ b) ++ rest) i = znth a i).
    { intros i Hi. unfold znth. rewrite <- app_assoc, app_nth1 by lia. done. }
    unfold add_block, U8TO32. rewrite !Hn by lia. done. }
  rewrite Eadd. destruct (block_step true rr hh a Hr Hh Hla Hba) as [Hok Hv].
  rewrite <- app_assoc, zdrop_app_eq by lia. rewrite zlen_app, Ha in *. replace (16 + zlen b - 16) with (zlen b) by lia.
  destruct (IH _ b Hok Hbb) as [Hok' Hv']; [dlia|lia|]. split; [done|]. rewrite Hv', Hv.
  rewrite (blocks_cons (a ++ b)), Ht, Hd by (by destruct a). rewrite poly_eval_cons. f_equal.
  rewrite le_val_app, Ha. change (256 ^ 16 * le_val [1]) with (2 ^ 128). rewrite <- Z.add_assoc.
  rewrite <- (Z.mul_mod_idemp_l (limb_val hh + _)), <- (Z.add_mod_idemp_l (limb_val hh)), Z.mul_mod_idemp_l by done. done.
Qed.

(** *** The key *)

Lemma r_limb key p k mask n :
  length key = 32%nat -> Forall is_byte key -> 0 <= p <= 12 -> 0 <= k -> 0 <= n <= 32 - k -> 0 <= mask < 2 ^ n -> 8 * p + k + n <= 128 ->
  Z.land (Z.shiftr (U8TO32 key p) k) mask = Z.land ((le_val (ztake 16 key) / 2 ^ (8 * p + k)) mod 2 ^ n) mask.
Proof.
  intros Hl Hb Hp Hk Hn Hm Hpk. rewrite (land_low _ mask n) by lia. f_equal.
  rewrite U8TO32_val, shr by (done || (unfold zlen; lia)). change 256 with (2 ^ 8). rewrite <- Z.pow_mul_r, word_bits by lia.
  rewrite <- (ztake_zdrop 16 key) at 1. rewrite le_val_app.
  replace (zlen (ztake 16 key)) with 16 by (rewrite zlen_ztake; unfold zlen; lia).
  change (256 ^ 16) with (2 ^ 128). set (j := 8 * p + k) in *. generalize (le_val (zdrop 16 key)). intros u.
  replace (2 ^ 128 * u) with (2 ^ (128 - j - n) * u * 2 ^ n * 2 ^ j)
    by (replace 128 with (128 - j - n + n + j) at 2 by lia; rewrite !Z.pow_add_r by lia; lia).
  by rewrite Z.div_add, Z.mod_add by lia.
Qed.

Lemma init_r key st :
  length key = 32%nat -> Forall is_byte key ->
  r_ok (r (poly1305_init key st)) /\ limb_val (r (poly1305_init key st)) = clamp (le_val (ztake 16 key)).
Proof.
  intros Hl Hb. cbn [r poly1305_init]. unfold r_ok, small, limb_val. cbn [l0 l1 l2 l3 l4].
  rewrite <- (Z.shiftr_0_r (U8TO32 key 0)).
  rewrite (r_limb key 0 0 0x3ffffff 26), (r_limb key 3 2 0x3ffff03 26), (r_limb key 6 4 0x3ffc0ff 26), (r_limb key 9 6 0x3f03fff 26),
    (r_limb key 12 8 0x00fffff 24) by (done || lia).
  split; [refine (conj _ (conj _ (conj _ (conj _ _)))); apply land_bound; lia|]. unfold clamp. set (v := le_val (ztake 16 key)).
  assert (Hv : 0 <= v < 2 ^ 128).
  { unfold v. pose proof (le_val_bound (ztake 16 key) ltac:(auto with bytes)) as B.
    replace (zlen (ztake 16 key)) with 16 in B by (rewrite zlen_ztake; unfold zlen; lia). done. }
  set (C := 0x0ffffffc0ffffffc0ffffffc0fffffff). rewrite <- (limbs_sum (Z.land v C)) by (apply land_bound; lia).
  rewrite !land_div, !land_mod by lia. change (C mod 2 ^ 26) with 0x3ffffff. change ((C / 2 ^ 26) mod 2 ^ 26) with 0x3ffff03.
  change ((C / 2 ^ 52) mod 2 ^ 26) with 0x3ffc0ff. change ((C / 2 ^ 78) mod 2 ^ 26) with 0x3f03fff. change (C / 2 ^ 104) with 0x00fffff.
  change (8 * 0 + 0) with 0. change (8 * 3 + 2) with 26. change (8 * 6 + 4) with 52. change (8 * 9 + 6) with 78. change (8 * 12 + 8) with 104.
  rewrite Z.div_1_r, (Z.mod_small (v / 2 ^ 104)) by dlia. done.
Qed.

Definition pad_val (p : pads) : Z := p0 p + 2 ^ 32 * p1 p + 2 ^ 64 * p2 p + 2 ^ 96 * p3 p.
Definition pad_ok (p : pads) : Prop := 0 <= p0 p < 2 ^ 32 /\ 0 <= p1 p < 2 ^ 32 /\ 0 <= p2 p < 2 ^ 32 /\ 0 <= p3 p < 2 ^ 32.

Lemma init_pad key st :
  length key = 32%nat -> Forall is_byte key ->
  pad_ok (pad (poly1305_init key st)) /\ pad_val (pad (poly1305_init key st)) = le_val (slice key 16 16).
Proof.
  intros Hl Hb. cbn [pad poly1305_init]. unfold pad_ok, pad_val. cbn [p0 p1 p2 p3].
  rewrite !U8TO32_val by (done || (unfold zlen; lia)).
  split; [refine (conj _ (conj _ (conj _ _))); apply Z.mod_pos_bound; lia|]. unfold slice. rewrite (ztake_ge 16 (zdrop 16 key)) by (rewrite zlen_zdrop; unfold zlen; lia).
  rewrite <- (ztake_zdrop 16 key), le_val_app. replace (zlen (ztake 16 key)) with 16 by (rewrite zlen_ztake; unfold zlen; lia).
  assert (Ea : Forall is_byte (ztake 16 key) /\ Forall is_byte (zdrop 16 key)) by (split; auto with bytes). destruct Ea as [Ba Bb].
  pose proof (le_val_bound _ Ba) as Ba'. pose proof (le_val_bound _ Bb) as Bb'. rewrite ztake_zdrop.
  replace (zlen (ztake 16 key)) with 16 in Ba' by (rewrite zlen_ztake; unfold zlen; lia).
  replace (zlen (zdrop 16 key)) with 16 in Bb' by (rewrite zlen_zdrop; unfold zlen; lia).
  set (a := le_val (ztake 16 key)) in *. set (b := le_val (zdrop 16 key)) in *. clearbody a b.
  change (256 ^ 16) with (2 ^ 128) in *. change (256 ^ 20) with (2 ^ 128 * 2 ^ 32). change (256 ^ 24) with (2 ^ 128 * (2 ^ 32 * 2 ^ 32)).
  change (256 ^ 28) with (2 ^ 128 * (2 ^ 32 * (2 ^ 32 * 2 ^ 32))).
  rewrite <- !Z.div_div, (Z.mul_comm (2 ^ 128) b), Z.div_add, (Z.div_small a), Z.add_0_l by lia. dlia.
Qed.

(** *** The end of the computation *)

Lemma full_carry_spec hh : h_ok hh -> r_ok (full_carry hh) /\ exists k, limb_val (full_carry hh) = limb_val hh + k * P1305.
Proof.
  destruct hh as [d0 d1 d2 d3 d4]. unfold h_ok, small. cbn [l0 l1 l2 l3 l4]. intros (D0 & D1 & D2 & D3 & D4).
  unfold full_carry. cbn [l0 l1 l2 l3 l4]. cbv zeta.
  carry d1 c1 m1. rewrite (wrap64_small (d2 + c1)) by lia. carry (d2 + c1) c2 m2. rewrite (wrap64_small (d3 + c2)) by lia.
  carry (d3 + c2) c3 m3. rewrite (wrap64_small (d4 + c3)) by lia. carry (d4 + c3) c4 m4.
  rewrite (wrap64_small (d0 + c4 * 5)) by lia. carry (d0 + c4 * 5) c0 m0. rewrite (wrap64_small (m1 + c0)) by lia.
  split; [unfold r_ok, small; cbn [l0 l1 l2 l3 l4]; lia|]. exists (- c4). unfold limb_val, P1305. cbn [l0 l1 l2 l3 l4]. lia.
Qed.

Lemma land_all v : 0 <= v < 2 ^ 64 -> Z.land v (2 ^ 64 - 1) = v.
Proof. intros. rewrite land_mask by lia. by apply Z.mod_small. Qed.

Lemma select_spec hh : r_ok hh -> let a := select hh (minus_p hh) in r_ok a /\ limb_val a = limb_val hh mod P1305.
Proof.
  destruct hh as [d0 d1 d2 d3 d4]. unfold r_ok, small. cbn [l0 l1 l2 l3 l4]. intros (D0 & D1 & D2 & D3 & D4).
  unfold minus_p. cbn [l0 l1 l2 l3 l4]. cbv zeta. rewrite (wrap64_small (d0 + 5)) by lia.
  carry (d0 + 5) c0 g0. rewrite (wrap64_small (d1 + c0)) by lia. carry (d1 + c0) c1 g1. rewrite (wrap64_small (d2 + c1)) by lia.
  carry (d2 + c1) c2 g2. rewrite (wrap64_small (d3 + c2)) by lia. carry (d3 + c2) c3 g3. change (Z.shiftl 1 26) with (2 ^ 26).
  unfold select. cbn [l0 l1 l2 l3 l4]. set (val := limb_val (mkLimbs d0 d1 d2 d3 d4)).
  assert (Hval : val + 5 = g0 + 2 ^ 26 * g1 + 2 ^ 52 * g2 + 2 ^ 78 * g3 + 2 ^ 104 * (d4 + c3))
    by (unfold val, limb_val; cbn [l0 l1 l2 l3 l4]; lia).
  destruct (Z.lt_ge_cases (d4 + c3) (2 ^ 26)) as [Hlt|Hge].
  - replace (wrap64 (d4 + c3 - 2 ^ 26)) with (2 ^ 64 + (d4 + c3 - 2 ^ 26)) by (unfold wrap64; dlia).
    rewrite shr by lia. replace ((2 ^ 64 + (d4 + c3 - 2 ^ 26)) / 2 ^ 63) with 1 by dlia.
    change (wrap64 (1 - 1)) with 0. change (wrap64 (Z.lnot 0)) with (2 ^ 64 - 1). rewrite !Z.land_0_r, !Z.lor_0_r, !land_all by lia.
    split; [lia|]. change (limb_val _) with val. unfold P1305. rewrite Z.mod_small; [done|]. unfold val in *. unfold limb_val in *. cbn [l0 l1 l2 l3 l4] in *. lia.
  - replace (wrap64 (d4 + c3 - 2 ^ 26)) with 0 by (unfold wrap64; replace (d4 + c3 - 2 ^ 26) with 0 by lia; done).
    change (wrap64 (Z.shiftr 0 63 - 1)) with (2 ^ 64 - 1). change (wrap64 (Z.lnot (2 ^ 64 - 1))) with 0.
    rewrite !Z.land_0_r, !Z.lor_0_l, !land_all by lia. split; [lia|]. unfold P1305.
    replace val with (limb_val (mkLimbs g0 g1 g2 g3 0) + 1 * (2 ^ 130 - 5)) by (unfold limb_val; cbn [l0 l1 l2 l3 l4]; lia).
    rewrite Z.mod_add, Z.mod_small; [done| |lia]. unfold limb_val; cbn [l0 l1 l2 l3 l4]. unfold val, limb_val in Hval. cbn [l0 l1 l2 l3 l4] in Hval. lia.
Qed.

Lemma U32TO8_le4 v : U32TO8 v = le_bytes 4 v.
Proof.
  unfold U32TO8. change 0xff with (2 ^ 8 - 1). rewrite !land_mask, !shr by lia. cbn [le_bytes]. by rewrite !Z.div_div by lia.
Qed.

(** Two neighbouring limbs as a 32-bit word. *)
Lemma join_limbs a b k :
  small a -> small b -> 0 <= k <= 26 -> 
  Z.land (Z.lor (Z.shiftr a k) (wrap64 (Z.shiftl b (26 - k)))) 0xffffffff = (a / 2 ^ k + b * 2 ^ (26 - k)) mod 2 ^ 32.
Proof.
  unfold small. intros Ha Hb Hk. assert (Hp : 0 < 2 ^ (26 - k) <= 2 ^ 26) by (split; [lia|apply Z.pow_le_mono_r; lia]).
  assert (Hq : 0 <= a / 2 ^ k < 2 ^ (26 - k)).
  { split; [apply Z.div_pos; lia|]. apply Z.div_lt_upper_bound; [lia|]. rewrite <- Z.pow_add_r by lia.
    replace (k + (26 - k)) with 26 by lia; lia. }
  rewrite wrap64_small, shr by (rewrite ?Z.shiftl_mul_pow2 by lia; nia).
  rewrite lor_shiftl by lia. change 0xffffffff with (2 ^ 32 - 1). by rewrite land_mask by lia.
Qed.

Lemma add_pad_spec a pd : r_ok a -> pad_ok pd -> add_pad a pd = le_bytes 16 (limb_val a + pad_val pd).
Proof.
  destruct a as [d0 d1 d2 d3 d4], pd as [q0 q1 q2 q3]. unfold r_ok, pad_ok. cbn [l0 l1 l2 l3 l4 p0 p1 p2 p3].
  intros (D0 & D1 & D2 & D3 & D4) (Q0 & Q1 & Q2 & Q3). unfold add_pad. cbn [l0 l1 l2 l3 l4 p0 p1 p2 p3].
  set (V := limb_val (mkLimbs d0 d1 d2 d3 d4)). rewrite <- (Z.shiftr_0_r d0). pose proof (join_limbs d0 d1 0 D0 D1 ltac:(lia)) as E0. change (26 - 0) with 26 in E0. rewrite E0.
  pose proof (join_limbs d1 d2 6 D1 D2 ltac:(lia)) as E1. change (26 - 6) with 20 in E1. rewrite E1.
  pose proof (join_limbs d2 d3 12 D2 D3 ltac:(lia)) as E2. change (26 - 12) with 14 in E2. rewrite E2.
  pose proof (join_limbs d3 d4 18 D3 D4 ltac:(lia)) as E3. change (26 - 18) with 8 in E3. rewrite E3. clear E0 E1 E2 E3.
  unfold small in *. rewrite Z.div_1_r. set (w0 := (d0 + _) mod _). set (w1 := (d1 / _ + _) mod _). set (w2 := (d2 / _ + _) mod _). set (w3 := (d3 / _ + _) mod _).
  assert (Hw : exists k, V = w0 + 2 ^ 32 * w1 + 2 ^ 64 * w2 + 2 ^ 96 * w3 + 2 ^ 128 * k).
  { exists (d4 / 2 ^ 24). unfold V, limb_val, w0, w1, w2, w3. cbn [l0 l1 l2 l3 l4]. clear - D0 D1 D2 D3 D4. dlia. }
  assert (W : (0 <= w0 < 2 ^ 32 /\ 0 <= w1 < 2 ^ 32) /\ 0 <= w2 < 2 ^ 32 /\ 0 <= w3 < 2 ^ 32)
    by (split; split; apply Z.mod_pos_bound; lia).
  clearbody w0 w1 w2 w3 V. destruct Hw as [k ->]. unfold pad_val. cbn [p0 p1 p2 p3].
  rewrite !shr by lia. rewrite (wrap64_small (w0 + q0)) by lia. rewrite (wrap64_small (w1 + q1 + _)) by dlia.
  rewrite (wrap64_small (w2 + q2 + _)) by dlia. rewrite (wrap64_small (w3 + q3 + _)) by dlia.
  rewrite !U32TO8_le4. apply le_val_inj.
  - repeat (apply Forall_app; split); auto with bytes.
  - auto with bytes.
  - done.
  - rewrite !le_val_app, !le_val_le_bytes, !zlen_le_bytes. change (256 ^ Z.of_nat 4) with (2 ^ 32). change (256 ^ Z.of_nat 16) with (2 ^ 128). clear D0 D1 D2 D3 D4. dlia.
Qed.

(** *** The bytes absorbed so far

    [absorbed rr pd st s]: the state holds what the bytes [s] give: the full blocks in the
    accumulator and the rest in the buffer. *)
Definition absorbed (rr : limbs) (pd : pads) (st : poly1305_state_internal_t) (s : list Z) : Prop :=
  r st = rr /\ pad st = pd /\ final st = false /\ r_ok rr /\ h_ok (h st) /\ zlen (buffer st) = 16 /\ Forall is_byte s /\
  exists full rest, s = full ++ rest /\ zlen full mod 16 = 0 /\ zlen rest < 16 /\ leftover st = zlen rest /\
    ztake (zlen rest) (buffer st) = rest /\ limb_val (h st) mod P1305 = poly_eval (limb_val rr) (blocks full) 0.


(** Storing what is less than a block. *)
Lemma store_leftover_absorbed rr pd st s m n :
  absorbed rr pd st s -> Forall is_byte m -> 0 <= n <= zlen m -> leftover st + n < 16 ->
  absorbed rr pd (store_leftover m n st) (s ++ ztake n m).
Proof.
  intros (Hr & Hp & Hf & Hrr & Hh & Hbuf & Hs & full & rest & -> & Hfull & Hrest & Hl & Hb & Hv) Hm Hn H16.
  rewrite Hl in H16. assert (Hz : zlen (ztake n m) = n) by (rewrite zlen_ztake; lia).
  destruct (ztake_overwrite (buffer st) rest (ztake n m) Hb ltac:(lia)) as [Hlo Hto].
  unfold absorbed, store_leftover. cbn [r h pad leftover buffer final]. rewrite Hl, Hlo. split_and!; try done.
  { apply Forall_app. split; auto with bytes. }
  exists full, (rest ++ ztake n m). rewrite app_assoc, zlen_app, Hz. rewrite Hz in Hto. split_and!; (done || lia).
Qed.

(** Blocks of the message itself. *)
Lemma poly1305_blocks_absorbed rr pd st s m n :
  absorbed rr pd st s -> leftover st = 0 -> Forall is_byte m -> 0 <= n <= zlen m -> n mod 16 = 0 ->
  absorbed rr pd (poly1305_blocks m n st) (s ++ ztake n m).
Proof.
  intros (Hr & Hp & Hf & Hrr & Hh & Hbuf & Hs & full & rest & -> & Hfull & Hrest & Hl & Hb & Hv) Hl0 Hm Hn H16.
  assert (rest = []) as -> by (apply zlen_0_nil; lia). rewrite app_nil_r in *.
  unfold absorbed, poly1305_blocks. cbn [r h pad leftover buffer final]. rewrite Hr, Hf.
  assert (Hz : zlen (ztake n m) = n) by (rewrite zlen_ztake; lia).
  destruct (blocks_loop_spec (Z.to_nat n) rr (h st) (ztake n m) (zdrop n m) Hrr Hh ltac:(auto with bytes)) as [Hok Hval]; [by rewrite Hz|lia|].
  rewrite ztake_zdrop, Hz in Hok, Hval. split_and!; try done.
  { apply Forall_app. split; auto with bytes. }
  exists (full ++ ztake n m), []. rewrite app_nil_r, zlen_app, Hz. split_and!; try done; [dlia|].
  by rewrite Hval, Hv, blocks_app, poly_eval_app by done.
Qed.

Lemma update_blocks_absorbed rr pd st s m bytes :
  absorbed rr pd st s -> leftover st = 0 -> Forall is_byte m -> 0 <= bytes <= zlen m ->
  absorbed rr pd (update_blocks m bytes st) (s ++ ztake bytes m).
Proof.
  intros Hst Hl Hm Hn. unfold update_blocks, poly1305_block_size.
  assert (Hw : Z.land bytes (Z.lnot (16 - 1)) = bytes - bytes mod 16).
  { change (16 - 1) with (Z.ones 4). rewrite <- Z.ldiff_land, Z.ldiff_ones_r, Z.shiftr_div_pow2, Z.shiftl_mul_pow2 by lia.
    change (2 ^ 4) with 16. dlia. }
  destruct (Z.leb_spec 16 bytes) as [H16|H16].
  - rewrite Hw. set (want := bytes - bytes mod 16). assert (Hwant : 0 <= want <= bytes /\ want mod 16 = 0 /\ bytes - want < 16) by (unfold want; dlia).
    clearbody want. clear Hw. pose proof (poly1305_blocks_absorbed rr pd st s m want Hst Hl Hm ltac:(lia) ltac:(lia)) as Hb.
    replace (ztake bytes m) with (ztake want m ++ ztake (bytes - want) (zdrop want m)) by (rewrite <- ztake_add by lia; f_equal; lia).
    rewrite app_assoc. destruct (Z.eqb_spec (bytes - want) 0) as [E|E]; cbn [negb].
    + rewrite E, (ztake_nonpos 0), app_nil_r by lia. done.
    + apply store_leftover_absorbed; [done|auto with bytes|zl|]. change (leftover (poly1305_blocks m want st)) with (leftover st). lia.
  - destruct (Z.eqb_spec bytes 0) as [->|E]; cbn [negb]; [by rewrite ztake_nonpos, app_nil_r by lia|].
    apply store_leftover_absorbed; (done || lia).
Qed.

(** The buffer holds a full block. *)
Lemma buffered_block_absorbed rr pd st s m n :
  absorbed rr pd st s -> Forall is_byte m -> 0 <= n <= zlen m -> leftover st + n = 16 ->
  let st' := store_leftover m n st in
  absorbed rr pd (set_leftover 0 (poly1305_blocks (buffer st') 16 st')) (s ++ ztake n m).
Proof.
  intros (Hr & Hp & Hf & Hrr & Hh & Hbuf & Hs & full & rest & -> & Hfull & Hrest & Hl & Hb & Hv) Hm Hn H16 st'.
  rewrite Hl in H16. assert (Hz : zlen (ztake n m) = n) by (rewrite zlen_ztake; lia).
  destruct (ztake_overwrite (buffer st) rest (ztake n m) Hb ltac:(lia)) as [Hlo Hto]. rewrite Hz, H16, ztake_ge in Hto by lia.
  apply Forall_app in Hs as [Hsf Hsr].
  assert (Hbb : Forall is_byte (rest ++ ztake n m)) by (apply Forall_app; split; auto with bytes).
  unfold absorbed, set_leftover, poly1305_blocks, st', store_leftover. cbn [r h pad leftover buffer final]. rewrite Hl, Hto, Hr, Hf.
  destruct (blocks_loop_spec (Z.to_nat 16) rr (h st) (rest ++ ztake n m) [] Hrr Hh Hbb) as [Hok Hval]; [rewrite zlen_app, Hz, H16; done|rewrite zlen_app; lia|].
  rewrite app_nil_r in Hok, Hval. replace (zlen (rest ++ ztake n m)) with 16 in Hok, Hval by (rewrite zlen_app; lia).
  split_and!; try done; [rewrite zlen_app; lia|rewrite <- app_assoc; apply Forall_app; by split|].
  exists (full ++ rest ++ ztake n m), []. rewrite app_nil_r, app_assoc. split_and!; try done.
  - rewrite !zlen_app, Hz. dlia.
  - rewrite Hval, Hv, <- app_assoc, (blocks_app full), poly_eval_app by done. done.
Qed.

Lemma poly1305_update_absorbed rr pd st s m bytes :
  absorbed rr pd st s -> Forall is_byte m -> 0 <= bytes <= zlen m ->
  absorbed rr pd (poly1305_update m bytes st) (s ++ ztake bytes m).
Proof.
  intros Hst Hm Hn. unfold poly1305_update, poly1305_block_size.
  assert (Hl : 0 <= leftover st < 16) by (destruct Hst as (_ & _ & _ & _ & _ & _ & _ & full & rest & _ & _ & Hr & -> & _); zl).
  destruct (Z.eqb_spec (leftover st) 0) as [E|E]; cbn [negb]; [by apply update_blocks_absorbed|].
  set (want := if bytes <? 16 - leftover st then bytes else 16 - leftover st).
  assert (Hw : 0 <= want <= bytes /\ (leftover st + want = 16 \/ leftover st + want < 16 /\ want = bytes)).
  { unfold want. destruct (Z.ltb_spec bytes (16 - leftover st)); lia. }
  clearbody want. cbn [leftover store_leftover]. destruct (Z.ltb_spec (leftover st + want) 16) as [H16|H16].
  - destruct Hw as [_ [?|[_ ->]]]; [lia|]. by apply store_leftover_absorbed.
  - replace (ztake bytes m) with (ztake want m ++ ztake (bytes - want) (zdrop want m)) by (rewrite <- ztake_add by lia; f_equal; lia).
    rewrite app_assoc. apply update_blocks_absorbed; [|done|auto with bytes|zl]. apply buffered_block_absorbed; (done || lia).
Qed.

Lemma le_val_zeros n : le_val (replicate n 0) = 0.
Proof. induction n as [|n IH]; [done|]. cbn [replicate le_val fold_right]. fold (le_val (replicate n 0)). lia. Qed.
Lemma blocks_short m : m <> [] -> zlen m <= 16 -> blocks m = [m].
Proof. intros Hm Hl. rewrite blocks_cons, ztake_ge, zdrop_ge by done. done. Qed.

Lemma final_block_spec rr pd st s :
  absorbed rr pd st s ->
  pad (final_block st) = pd /\ h_ok (h (final_block st)) /\
  limb_val (h (final_block st)) mod P1305 = poly_eval (limb_val rr) (blocks s) 0.
Proof.
  intros (Hr & Hp & Hf & Hrr & Hh & Hbuf & Hs & full & rest & -> & Hfull & Hrest & Hl & Hb & Hv).
  unfold final_block, poly1305_block_size. apply Forall_app in Hs as [Hsf Hsr].
  destruct (Z.eqb_spec (leftover st) 0) as [E|E]; cbn [negb].
  { assert (rest = []) as -> by (apply zlen_0_nil; lia). by rewrite app_nil_r. }
  rewrite Hl in E |- *. set (last := rest ++ [1] ++ zeros (15 - zlen rest)).
  assert (Ebuf : overwrite (overwrite (buffer st) (zlen rest) [1]) (zlen rest + 1) (zeros (16 - (zlen rest + 1))) = last).
  { pose proof (zlen_nonneg rest) as Hz. destruct (ztake_overwrite (buffer st) rest [1] Hb) as [Hlo Hto]; [rewrite zlen_cons, zlen_nil; lia|].
    change (zlen [1]) with 1 in Hto. unfold overwrite at 1. rewrite Hto, zdrop_ge, app_nil_r by zl. unfold last.
    rewrite <- app_assoc. do 3 f_equal. lia. }
  rewrite Ebuf. assert (Hlast : length last = 16%nat).
  { apply Nat2Z.inj. fold (zlen last). unfold last. pose proof (zlen_nonneg rest). rewrite !zlen_app, zlen_zeros by lia. change (zlen [1]) with 1. lia. }
  assert (Hlb : Forall is_byte last).
  { unfold last. repeat (apply Forall_app; split); auto with bytes. apply Forall_singleton. unfold is_byte. lia. }
  unfold poly1305_blocks. cbn [r h pad leftover buffer final]. change (Z.to_nat 16) with 16%nat. cbn [blocks_loop poly1305_block_size].
  unfold poly1305_block_size. cbn [Z.leb Z.compare Pos.compare Pos.compare_cont]. change (16 - 16) with 0. cbn [Z.leb Z.compare]. rewrite Hr.
  destruct (block_step false rr (h st) last Hrr Hh Hlast Hlb) as [Hok Hval]. split_and!; [done|done|]. rewrite Hval.
  assert (Hne : rest <> []) by (by destruct rest). rewrite blocks_app, (blocks_short rest), poly_eval_app, <- Hv by (done || lia). cbn [poly_eval fold_left].
  unfold last. unfold zeros. rewrite app_assoc, (le_val_app (rest ++ [1])), le_val_zeros, Z.mul_0_r, !Z.add_0_r.
  rewrite <- (Z.mul_mod_idemp_l (limb_val (h st) + _)), <- (Z.add_mod_idemp_l (limb_val (h st))), Z.mul_mod_idemp_l by done. done.
Qed.

Lemma poly_eval_range rv bs acc : 0 <= acc < P1305 -> 0 <= poly_eval rv bs acc < P1305.
Proof. revert acc. induction bs as [|b bs IH]; intros acc Ha; [done|]. apply IH, Z.mod_pos_bound. done. Qed.

Lemma poly1305_finish_spec rr pd st s :
  absorbed rr pd st s -> pad_ok pd -> fst (poly1305_finish st) = le_bytes 16 (poly_eval (limb_val rr) (blocks s) 0 + pad_val pd).
Proof.
  intros Hst Hpd. destruct (final_block_spec rr pd st s Hst) as (Hp & Hok & Hv). unfold poly1305_finish. cbn [fst].
  destruct (full_carry_spec _ Hok) as [Hr [k Hk]]. destruct (select_spec _ Hr) as [Hs Hm].
  rewrite add_pad_spec by (by rewrite ?Hp). rewrite Hm, Hk, Z.mod_add, Hv, Hp by done. done.
Qed.

Lemma init_absorbed key st :
  length key = 32%nat -> Forall is_byte key -> zlen (buffer st) = 16 ->
  absorbed (r (poly1305_init key st)) (pad (poly1305_init key st)) (poly1305_init key st) [].
Proof.
  intros Hl Hb Hbuf. destruct (init_r key st Hl Hb) as [Hr _]. unfold absorbed. split_and!; try done.
  exists [], []. split_and!; done.
Qed.

(** A message given in pieces. *)
Definition poly1305_updates (chunks : list (list Z)) (st : poly1305_state_internal_t) : poly1305_state_internal_t :=
  fold_left (fun st m => CRYPTO_poly1305_update m (zlen m) st) chunks st.
Lemma updates_absorbed rr pd chunks st s :
  absorbed rr pd st s -> Forall (Forall is_byte) chunks -> absorbed rr pd (poly1305_updates chunks st) (s ++ concat chunks).
Proof.
  revert st s. induction chunks as [|m chunks IH]; intros st s Hst Hc; [by rewrite app_nil_r|].
  apply Forall_cons in Hc as [Hm Hc]. cbn [poly1305_updates fold_left concat]. rewrite app_assoc. apply IH; [|done].
  pose proof (poly1305_update_absorbed rr pd st s m (zlen m) Hst Hm ltac:(zl)) as Hu. by rewrite ztake_ge in Hu by lia.
Qed.

(** The code of what has been absorbed. *)
Lemma finish_spec_key key st0 st s :
  length key = 32%nat -> Forall is_byte key ->
  absorbed (r (poly1305_init key st0)) (pad (poly1305_init key st0)) st s -> fst (poly1305_finish st) = poly1305_spec key s.
Proof.
  intros Hl Hb Hst. destruct (init_pad key st0 Hl Hb) as [Hp Hpv]. destruct (init_r key st0 Hl Hb) as [Hr Hrv].
  rewrite (poly1305_finish_spec _ _ _ _ Hst Hp), Hrv, Hpv. done.
Qed.

(** ** Theorems *)

(** C32: The limb arithmetic computes the Poly1305 function of RFC 8439: for every 32-byte key and every
    message, given in whatever pieces, the code is ((c_1 r^q + ... + c_q r) mod 2^130 - 5 + s) mod 2^128
    with the clamped r; in particular no 64-bit intermediate result overflows, the partial carries and
    the final constant-time reduction lose nothing, and buffering does not depend on the pieces. *)
Theorem poly1305_computes_rfc8439 key chunks st :
  length key = 32%nat -> Forall is_byte key -> Forall (Forall is_byte) chunks -> zlen (buffer st) = 16 ->
  fst (CRYPTO_poly1305_finish (poly1305_updates chunks (CRYPTO_poly1305_init key st))) = poly1305_spec key (concat chunks).
Proof.
  intros Hl Hb Hc Hbuf. apply (finish_spec_key key st); [done..|]. change (concat chunks) with ([] ++ concat chunks).
  apply updates_absorbed; [|done]. by apply init_absorbed.
Qed.

(** An accumulator that needs the final reduction: r = 2, message all ones. *)
Lemma poly1305_computes_rfc8439_witness :
  fst (CRYPTO_poly1305_finish (poly1305_updates [replicate 7 255; replicate 30 255] (CRYPTO_poly1305_init (2 :: replicate 31 0) blank_state))) =
  poly1305_spec (2 :: replicate 31 0) (replicate 37 255).
Proof.
  apply (poly1305_computes_rfc8439 (2 :: replicate 31 0) [replicate 7 255; replicate 30 255] blank_state); [reflexivity|by apply bytes_ok| |reflexivity].
  constructor; [by apply bytes_ok|]. constructor; [by apply bytes_ok|constructor].
Defined.
