(* ===== verification/ChachaPoly.v ===== *)
(** * ChaCha20-Poly1305 as an AEAD (crypto/evp/e_chacha20poly1305.c, crypto/evp/evp_aead.c)

    The two AEADs of e_chacha20poly1305.c and the EVP functions that dispatch to them.  The
    state of a seal or open call is the output buffer: [Some n] is a return of 1 with
    [*out_len = n], [None] a return of 0.  The functions of evp_aead.c are in the module [Evp],
    since the record layer knows them by the same names as an interface. *)
From S2P Require Import Prelude Compat Words Chacha Poly1305.

Definition POLY1305_TAG_LEN : Z := 16.
Definition CHACHA20_CONSTANT_LEN : Z := 4.
Definition CHACHA20_IV_LEN : Z := 8.
Definition CHACHA20_NONCE_LEN : Z := CHACHA20_CONSTANT_LEN + CHACHA20_IV_LEN.
Definition XCHACHA20_NONCE_LEN : Z := 24.

Record aead_chacha20_poly1305_ctx := mkC20 { c20_key : list Z; c20_tag_len : Z }.

(** The two tables of functions, with the fields that are numbers. *)
Inductive evp_aead := aead_chacha20_poly1305 | aead_xchacha20_poly1305.
Definition key_len (a : evp_aead) : Z := 32.
Definition nonce_len (a : evp_aead) : Z :=
  match a with aead_chacha20_poly1305 => CHACHA20_NONCE_LEN | aead_xchacha20_poly1305 => XCHACHA20_NONCE_LEN end.
Definition overhead (a : evp_aead) : Z := POLY1305_TAG_LEN.
Definition max_tag_len (a : evp_aead) : Z := POLY1305_TAG_LEN.

(** [EVP_AEAD_CTX] with the state that [init] gave it. *)
Record evp_aead_ctx := mkAeadCtx { ctx_aead : evp_aead; aead_state : aead_chacha20_poly1305_ctx }.

Definition aead_chacha20_poly1305_init `{Allocator} (key : list Z) (tag_len : Z) : option aead_chacha20_poly1305_ctx :=
  let tag_len := if tag_len =? 0 then POLY1305_TAG_LEN else tag_len in
  if POLY1305_TAG_LEN <? tag_len then None
  else if negb (zlen key =? 32) then None
  else if negb (malloc_ok 33) then None
  else Some (mkC20 key (wrap8 tag_len)).

(** The eight bytes of a length. *)
Fixpoint length_bytes (n : nat) (j : Z) : list Z :=
  match n with O => [] | S n => wrap8 j :: length_bytes n (Z.shiftr j 8) end.

(** [None] for [data] is NULL. *)
Definition poly1305_update_with_length (data : option (list Z)) (data_len : Z) (st : poly1305_state_internal_t) :=
  let st := match data with Some d => CRYPTO_poly1305_update d data_len st | None => st end in
  CRYPTO_poly1305_update (length_bytes 8 data_len) 8 st.

Definition poly1305_update_with_pad16 (data : list Z) (data_len : Z) (st : poly1305_state_internal_t) :=
  let st := CRYPTO_poly1305_update data data_len st in
  let pad_len := data_len mod 16 in
  if pad_len =? 0 then st else CRYPTO_poly1305_update (zeros 16) (16 - pad_len) st.

(** The first four bytes of the nonce are the upper half of the counter. *)
Definition nonce_ctr (nonce : list Z) : Z :=
  Z.shiftl (Z.lor (Z.lor (Z.lor (znth nonce 0) (Z.shiftl (znth nonce 1) 8)) (Z.shiftl (znth nonce 2) 16)) (Z.shiftl (znth nonce 3) 24)) 32.

(** The code over the additional data and the first [n] bytes of [c]. *)
Definition aead_mac (poly1305_key ad c : list Z) (n : Z) : list Z :=
  let st := CRYPTO_poly1305_init poly1305_key blank_state in
  let st := poly1305_update_with_pad16 ad (zlen ad) st in
  let st := poly1305_update_with_pad16 c n st in
  let st := poly1305_update_with_length None (zlen ad) st in
  let st := poly1305_update_with_length None n st in
  fst (CRYPTO_poly1305_finish st).

(** The code goes to the buffer after the ciphertext, cut to [tag_len] bytes if that is shorter. *)
Definition store_tag (tag_len in_len : Z) (tag : list Z) : M (list Z) Z := fun out =>
  if negb (tag_len =? POLY1305_TAG_LEN) then (Some (in_len + tag_len), overwrite out in_len (ztake tag_len tag))
  else (Some (in_len + POLY1305_TAG_LEN), overwrite out in_len tag).

Definition aead_chacha20_poly1305_seal (a : evp_aead) (c20 : aead_chacha20_poly1305_ctx) (max_out_len : Z) (nonce inp ad : list Z)
    : M (list Z) Z := fun out =>
  let in_len := zlen inp in
  if (2 ^ 32 * 64 - 64) <=? in_len then (None, out)
  else if max_out_len <? wrap64 (in_len + c20_tag_len c20) then (None, out)
  else if negb (zlen nonce =? nonce_len a) then (None, out)
  else
  let ctr := nonce_ctr nonce in
  let iv := zdrop CHACHA20_CONSTANT_LEN nonce in
  let poly1305_key := CRYPTO_chacha_20 (zeros 32) 32 (c20_key c20) iv ctr in
  let out := overwrite out 0 (CRYPTO_chacha_20 inp in_len (c20_key c20) iv (wrap64 (ctr + 1))) in
  store_tag (c20_tag_len c20) in_len (aead_mac poly1305_key ad out in_len) out.

Definition aead_chacha20_poly1305_open (a : evp_aead) (c20 : aead_chacha20_poly1305_ctx) (max_out_len : Z) (nonce inp ad : list Z)
    : M (list Z) Z := fun out =>
  let in_len := zlen inp in
  if in_len <? c20_tag_len c20 then (None, out)
  else if (2 ^ 32 * 64 - 64) <=? in_len then (None, out)
  else if negb (zlen nonce =? nonce_len a) then (None, out)
  else
  let plaintext_len := in_len - c20_tag_len c20 in
  if max_out_len <? plaintext_len then (None, out)
  else
  let ctr := nonce_ctr nonce in
  let iv := zdrop CHACHA20_CONSTANT_LEN nonce in
  let poly1305_key := CRYPTO_chacha_20 (zeros 32) 32 (c20_key c20) iv ctr in
  let mac := aead_mac poly1305_key ad inp plaintext_len in
  if negb (timingsafe_memcmp mac (zdrop plaintext_len inp) (c20_tag_len c20) =? 0) then (None, out)
  else (Some plaintext_len, overwrite out 0 (CRYPTO_chacha_20 inp plaintext_len (c20_key c20) iv (wrap64 (ctr + 1)))).

Definition aead_xchacha20_poly1305_seal (a : evp_aead) (c20 : aead_chacha20_poly1305_ctx) (max_out_len : Z) (nonce inp ad : list Z)
    : M (list Z) Z := fun out =>
  let in_len := zlen inp in
  if max_out_len <? wrap64 (in_len + c20_tag_len c20) then (None, out)
  else if negb (zlen nonce =? nonce_len a) then (None, out)
  else
  let subkey := CRYPTO_hchacha_20 (c20_key c20) nonce in
  let out := overwrite out 0 (CRYPTO_chacha_20 inp in_len subkey (zdrop 16 nonce) 1) in
  let poly1305_key := CRYPTO_chacha_20 (zeros 32) 32 subkey (zdrop 16 nonce) 0 in
  store_tag (c20_tag_len c20) in_len (aead_mac poly1305_key ad out in_len) out.

Definition aead_xchacha20_poly1305_open (a : evp_aead) (c20 : aead_chacha20_poly1305_ctx) (max_out_len : Z) (nonce inp ad : list Z)
    : M (list Z) Z := fun out =>
  let in_len := zlen inp in
  if in_len <? c20_tag_len c20 then (None, out)
  else if negb (zlen nonce =? nonce_len a) then (None, out)
  else
  let plaintext_len := in_len - c20_tag_len c20 in
  if max_out_len <? plaintext_len then (None, out)
  else
  let subkey := CRYPTO_hchacha_20 (c20_key c20) nonce in
  let poly1305_key := CRYPTO_chacha_20 (zeros 32) 32 subkey (zdrop 16 nonce) 0 in
  let mac := aead_mac poly1305_key ad inp plaintext_len in
  if negb (timingsafe_memcmp mac (zdrop plaintext_len inp) (c20_tag_len c20) =? 0) then (None, out)
  else (Some plaintext_len, overwrite out 0 (CRYPTO_chacha_20 inp plaintext_len subkey (zdrop 16 nonce) 1)).

(** ** evp_aead.c *)
Module Evp.
Definition EVP_AEAD_key_length (a : evp_aead) : Z := key_len a.
Definition EVP_AEAD_nonce_length (a : evp_aead) : Z := nonce_len a.
Definition EVP_AEAD_max_overhead (a : evp_aead) : Z := overhead a.
Definition EVP_AEAD_max_tag_len (a : evp_aead) : Z := max_tag_len a.

Definition EVP_AEAD_CTX_init `{Allocator} (a : evp_aead) (key : list Z) (tag_len : Z) : option evp_aead_ctx :=
  if negb (zlen key =? key_len a) then None
  else mkAeadCtx a <$> aead_chacha20_poly1305_init key tag_len.

(** The addresses of the input and the output buffer. *)
Definition check_alias (inp in_len out : Z) : bool :=
  if out <=? inp then true else if inp + in_len <=? out then true else false.

(** [memset(out, 0, max_out_len); *out_len = 0; return 0;] *)
Definition clear_output (max_out_len : Z) : M (list Z) Z := fun out => (None, overwrite out 0 (zeros max_out_len)).
Definition or_clear (max_out_len : Z) (m : M (list Z) Z) : M (list Z) Z := fun out =>
  match m out with (Some n, out) => (Some n, out) | (None, out) => clear_output max_out_len out end.

Definition EVP_AEAD_CTX_seal (ctx : evp_aead_ctx) (in_addr out_addr max_out_len : Z) (nonce inp ad : list Z) : M (list Z) Z :=
  let possible_out_len := wrap64 (zlen inp + overhead (ctx_aead ctx)) in
  if possible_out_len <? zlen inp then clear_output max_out_len
  else if negb (check_alias in_addr (zlen inp) out_addr) then clear_output max_out_len
  else or_clear max_out_len
    (match ctx_aead ctx with
     | aead_chacha20_poly1305 => aead_chacha20_poly1305_seal
     | aead_xchacha20_poly1305 => aead_xchacha20_poly1305_seal
     end (ctx_aead ctx) (aead_state ctx) max_out_len nonce inp ad).

Definition EVP_AEAD_CTX_open (ctx : evp_aead_ctx) (in_addr out_addr max_out_len : Z) (nonce inp ad : list Z) : M (list Z) Z :=
  if negb (check_alias in_addr (zlen inp) out_addr) then clear_output max_out_len
  else or_clear max_out_len
    (match ctx_aead ctx with
     | aead_chacha20_poly1305 => aead_chacha20_poly1305_open
     | aead_xchacha20_poly1305 => aead_xchacha20_poly1305_open
     end (ctx_aead ctx) (aead_state ctx) max_out_len nonce inp ad).
End Evp.

(** The test vector of RFC 8439 section 2.8.2: "Ladies and Gentlemen of the class of '99 ...". *)
Definition rfc_plaintext : list Z :=
  [76; 97; 100; 105; 101; 115; 32; 97; 110; 100; 32; 71; 101; 110; 116; 108; 101; 109; 101; 110; 32; 111; 102; 32;
   116; 104; 101; 32; 99; 108; 97; 115; 115; 32; 111; 102; 32; 39; 57; 57; 58; 32; 73; 102; 32; 73; 32; 99;
   111; 117; 108; 100; 32; 111; 102; 102; 101; 114; 32; 121; 111; 117; 32; 111; 110; 108; 121; 32; 111; 110; 101; 32;
   116; 105; 112; 32; 102; 111; 114; 32; 116; 104; 101; 32; 102; 117; 116; 117; 114; 101; 44; 32; 115; 117; 110; 115;
   99; 114; 101; 101; 110; 32; 119; 111; 117; 108; 100; 32; 98; 101; 32; 105; 116; 46].
Definition rfc_ctx : evp_aead_ctx := mkAeadCtx aead_chacha20_poly1305 (mkC20 (seqZ 0x80 32) 16).
Definition rfc_nonce : list Z := [7; 0; 0; 0; 0x40; 0x41; 0x42; 0x43; 0x44; 0x45; 0x46; 0x47].
Definition rfc_ad : list Z := [0x50; 0x51; 0x52; 0x53; 0xc0; 0xc1; 0xc2; 0xc3; 0xc4; 0xc5; 0xc6; 0xc7].
Example chacha20_poly1305_rfc8439 :
  let r := Evp.EVP_AEAD_CTX_seal rfc_ctx 0 1000 130 rfc_nonce rfc_plaintext rfc_ad (zeros 130) in
  r.1 = Some 130 /\ ztake 8 r.2 = [0xd3; 0x1a; 0x8d; 0x34; 0x64; 0x8e; 0x60; 0xdb] /\
  zdrop 114 r.2 = [0x1a; 0xe1; 0x0b; 0x59; 0x4f; 0x09; 0xe2; 0x6a; 0x7e; 0x90; 0x2e; 0xcb; 0xd0; 0x60; 0x06; 0x91].
Proof. vm_compute. auto. Qed.

(** ** The construction of RFC 8439 section 2.8 *)

(** The input words of the cipher and the number of the first keystream block. *)
Definition stream (a : evp_aead) (key nonce : list Z) : list Z * Z :=
  match a with
  | aead_chacha20_poly1305 => (cipher_input key 256 (zdrop 4 nonce), le_val (ztake 4 nonce) * 2 ^ 32)
  | aead_xchacha20_poly1305 => (cipher_input (CRYPTO_hchacha_20 key nonce) 256 (zdrop 16 nonce), 0)
  end.
Definition aead_cipher (a : evp_aead) (key nonce m : list Z) : list Z :=
  let '(x, ctr) := stream a key nonce in xor_bytes m (keystream x (64 * (ctr + 1)) (zlen m)).
Definition pad16 (m : list Z) : list Z := m ++ zeros ((- zlen m) mod 16).
Definition mac_data (ad c : list Z) : list Z := pad16 ad ++ pad16 c ++ le_bytes 8 (zlen ad) ++ le_bytes 8 (zlen c).
Definition aead_tag (a : evp_aead) (key nonce c ad : list Z) : list Z :=
  let '(x, ctr) := stream a key nonce in poly1305_spec (keystream x (64 * ctr) 32) (mac_data ad c).

(** *** Lemmas *)

Lemma length_bytes_le n j : length_bytes n j = le_bytes n j.
Proof. revert j. induction n as [|n IH]; intros j; [done|]. cbn [length_bytes le_bytes]. unfold wrap8. by rewrite IH, Z.shiftr_div_pow2 by lia. Qed.

Lemma update_pad16_absorbed rr pd st s m n :
  absorbed rr pd st s -> Forall is_byte m -> 0 <= n <= zlen m ->
  absorbed rr pd (poly1305_update_with_pad16 m n st) (s ++ pad16 (ztake n m)).
Proof.
  intros Hst Hm Hn. unfold poly1305_update_with_pad16, pad16. rewrite zlen_ztake, Z.min_l by lia.
  pose proof (poly1305_update_absorbed rr pd st s m n Hst Hm Hn) as Hu. fold (CRYPTO_poly1305_update m n st) in Hu.
  destruct (Z.eqb_spec (n mod 16) 0) as [E|E].
  - replace ((- n) mod 16) with 0 by dlia. by rewrite app_nil_r.
  - replace ((- n) mod 16) with (16 - n mod 16) by dlia. rewrite app_assoc.
    replace (zeros (16 - n mod 16)) with (ztake (16 - n mod 16) (zeros 16)).
    + apply poly1305_update_absorbed; [done|auto with bytes|]. rewrite zlen_zeros by lia. dlia.
    + unfold ztake, zeros. rewrite take_replicate. f_equal. dlia.
Qed.
Lemma update_length_absorbed rr pd st s n :
  absorbed rr pd st s -> absorbed rr pd (poly1305_update_with_length None n st) (s ++ le_bytes 8 n).
Proof.
  intros Hst. unfold poly1305_update_with_length. rewrite length_bytes_le.
  pose proof (poly1305_update_absorbed rr pd st s (le_bytes 8 n) 8 Hst ltac:(auto with bytes) ltac:(rewrite zlen_le_bytes; lia)) as Hu.
  by rewrite ztake_ge in Hu by (rewrite zlen_le_bytes; lia).
Qed.

Lemma aead_mac_spec k ad c n :
  length k = 32%nat -> Forall is_byte k -> Forall is_byte ad -> Forall is_byte c -> 0 <= n <= zlen c ->
  aead_mac k ad c n = poly1305_spec k (mac_data ad (ztake n c)).
Proof.
  intros Hk Hbk Had Hc Hn. unfold aead_mac, mac_data. rewrite zlen_ztake, Z.min_l by lia.
  apply (finish_spec_key k blank_state); [done..|]. rewrite !app_assoc. do 2 apply update_length_absorbed.
  apply update_pad16_absorbed; [|done..]. pose proof (init_absorbed k blank_state Hk Hbk eq_refl) as Hi.
  pose proof (update_pad16_absorbed _ _ _ _ ad (zlen ad) Hi Had ltac:(zl)) as Hu. by rewrite ztake_ge in Hu by lia.
Qed.

Lemma length_poly1305_spec k m : length (poly1305_spec k m) = 16%nat.
Proof. unfold poly1305_spec. apply length_le_bytes. Qed.
Lemma zlen_aead_tag a key nonce c ad : zlen (aead_tag a key nonce c ad) = 16.
Proof. unfold aead_tag, zlen. destruct (stream a key nonce). by rewrite length_poly1305_spec. Qed.
Lemma aead_tag_bytes a key nonce c ad : Forall is_byte (aead_tag a key nonce c ad).
Proof. unfold aead_tag. destruct (stream a key nonce). unfold poly1305_spec. auto with bytes. Qed.
Lemma zlen_aead_cipher a key nonce m : zlen (aead_cipher a key nonce m) = zlen m.
Proof. unfold aead_cipher. destruct (stream a key nonce). rewrite zlen_xor_bytes, zlen_keystream by apply zlen_nonneg. lia. Qed.
Lemma aead_cipher_bytes a key nonce m : Forall is_byte m -> Forall is_byte (aead_cipher a key nonce m).
Proof. intros Hm. unfold aead_cipher. destruct (stream a key nonce). apply xor_bytes_bytes; [done|apply keystream_bytes]. Qed.
Lemma aead_cipher_involutive a key nonce m : aead_cipher a key nonce (aead_cipher a key nonce m) = m.
Proof.
  unfold aead_cipher. destruct (stream a key nonce) as [x ctr].
  rewrite zlen_xor_bytes, zlen_keystream, Z.min_id by apply zlen_nonneg.
  apply xor_bytes_involutive. rewrite length_keystream. unfold zlen. lia.
Qed.
#[local] Hint Resolve aead_tag_bytes aead_cipher_bytes : bytes.

Lemma nonce_ctr_le nonce : Forall is_byte nonce -> 4 <= zlen nonce -> nonce_ctr nonce = le_val (ztake 4 nonce) * 2 ^ 32 /\ 0 <= le_val (ztake 4 nonce) < 2 ^ 32.
Proof.
  intros Hb Hl. destruct nonce as [|a [|b [|c [|d nonce]]]]; rewrite ?zlen_cons, ?zlen_nil in Hl; try lia.
  assert (H4 : Forall is_byte [a; b; c; d]) by (change [a; b; c; d] with (ztake 4 (a :: b :: c :: d :: nonce)); auto with bytes).
  change (ztake 4 (a :: b :: c :: d :: nonce)) with [a; b; c; d]. split; [|by apply le_val_bound].
  unfold nonce_ctr. change (Z.lor _ _) with (U8TO32_LITTLE (a :: b :: c :: d :: nonce) 0). by rewrite U8TO32_le, Z.shiftl_mul_pow2 by (done || lia).
Qed.

Lemma chacha_poly_key key iv ctr :
  0 <= ctr < 2 ^ 64 -> CRYPTO_chacha_20 (zeros 32) 32 key iv ctr = keystream (cipher_input key 256 iv) (64 * ctr) 32.
Proof.
  intros Hc. rewrite CRYPTO_chacha_20_spec; [|done|by rewrite zlen_zeros|auto with bytes]. change (wrap32 32) with 32.
  rewrite ztake_ge by done. apply (xor_zeros (keystream _ _ 32)).
Qed.
Lemma chacha_message key iv ctr m n :
  0 <= ctr < 2 ^ 64 -> 0 <= n <= zlen m -> n < 2 ^ 32 -> Forall is_byte m ->
  CRYPTO_chacha_20 m n key iv ctr = xor_bytes (ztake n m) (keystream (cipher_input key 256 iv) (64 * ctr) (zlen (ztake n m))).
Proof.
  intros Hc Hn Hs Hm. rewrite CRYPTO_chacha_20_spec by done. unfold wrap32. rewrite Z.mod_small, zlen_ztake, Z.min_l by lia. done.
Qed.


(** Encrypting into the buffer and storing the tag. *)
Lemma store_tag_spec a key nonce tag_len c ad out k :
  0 <= tag_len <= 16 -> Forall is_byte c -> Forall is_byte ad -> Forall is_byte out -> zlen c + tag_len <= zlen out ->
  length k = 32%nat -> Forall is_byte k -> poly1305_spec k (mac_data ad c) = aead_tag a key nonce c ad ->
  store_tag tag_len (zlen c) (aead_mac k ad (overwrite out 0 c) (zlen c)) (overwrite out 0 c) =
  (Some (zlen c + tag_len), overwrite out 0 (c ++ ztake tag_len (aead_tag a key nonce c ad))).
Proof.
  intros Ht Hc Had Hout Hfit Hk Hbk Htag.
  assert (Hzo : zlen (overwrite out 0 c) = zlen out) by (apply zlen_overwrite; lia).
  rewrite aead_mac_spec, ztake_overwrite_0, Htag by (auto with bytes || (rewrite ?Hzo; zl)). set (tag := aead_tag _ _ _ _ _).
  assert (Hz : zlen tag = 16) by apply zlen_aead_tag.
  rewrite <- overwrite_twice by (rewrite zlen_ztake by lia; lia). unfold store_tag, POLY1305_TAG_LEN.
  destruct (Z.eqb_spec tag_len 16) as [->|Hne]; cbn [negb]; [by rewrite ztake_ge by lia|done].
Qed.

Definition aead_seals (ctx : evp_aead_ctx) (nonce inp ad : list Z) : list Z :=
  let a := ctx_aead ctx in let key := c20_key (aead_state ctx) in
  let c := aead_cipher a key nonce inp in c ++ ztake (c20_tag_len (aead_state ctx)) (aead_tag a key nonce c ad).

(** The arguments of a call as byte arrays, and a context as [init] makes it. *)
Definition aead_args (ctx : evp_aead_ctx) (nonce inp ad out : list Z) : Prop :=
  0 <= c20_tag_len (aead_state ctx) <= 16 /\ Forall is_byte nonce /\ Forall is_byte inp /\ Forall is_byte ad /\ Forall is_byte out.

Lemma stream_chacha key nonce :
  Forall is_byte nonce -> zlen nonce = 12 ->
  0 <= nonce_ctr nonce < 2 ^ 64 - 1 /\ stream aead_chacha20_poly1305 key nonce = (cipher_input key 256 (zdrop 4 nonce), nonce_ctr nonce).
Proof. intros Hb Hl. destruct (nonce_ctr_le nonce Hb ltac:(lia)) as [Hc Hr]. cbn [stream]. rewrite Hc. split; [lia|done]. Qed.

Lemma seal_spec ctx max nonce inp ad out :
  aead_args ctx nonce inp ad out -> zlen inp < 2 ^ 32 -> max <= zlen out ->
  match ctx_aead ctx with aead_chacha20_poly1305 => aead_chacha20_poly1305_seal | aead_xchacha20_poly1305 => aead_xchacha20_poly1305_seal end
    (ctx_aead ctx) (aead_state ctx) max nonce inp ad out =
  if (zlen inp + c20_tag_len (aead_state ctx) <=? max) && (zlen nonce =? nonce_len (ctx_aead ctx))
  then (Some (zlen inp + c20_tag_len (aead_state ctx)), overwrite out 0 (aead_seals ctx nonce inp ad)) else (None, out).
Proof.
  destruct ctx as [a [key tag_len]]. unfold aead_args, aead_seals. cbn [ctx_aead aead_state c20_key c20_tag_len].
  intros (Ht & Hn & Hi & Had & Hout) Hl Hmax. pose proof (zlen_nonneg inp) as Hz. pose proof (zlen_aead_cipher a key nonce inp) as Hzc.
  pose proof (aead_cipher_bytes a key nonce inp Hi) as Hcb.
  destruct a; unfold aead_chacha20_poly1305_seal, aead_xchacha20_poly1305_seal; cbn [c20_key c20_tag_len nonce_len];
    unfold CHACHA20_NONCE_LEN, CHACHA20_CONSTANT_LEN, CHACHA20_IV_LEN, XCHACHA20_NONCE_LEN;
    rewrite ?(proj2 (Z.leb_gt (2 ^ 32 * 64 - 64) (zlen inp))) by lia; unfold wrap64; rewrite (Z.mod_small (zlen inp + tag_len)) by lia;
    rewrite (Z.leb_antisym max); (destruct (Z.ltb_spec max (zlen inp + tag_len)) as [Hm|Hm]; cbn [negb andb]; [done|]).
  - destruct (Z.eqb_spec (zlen nonce) (4 + 8)) as [Hnl|]; cbn [negb]; [|done]. destruct (stream_chacha key nonce Hn Hnl) as [Hctr Hst].
    rewrite Z.mod_small by lia. rewrite chacha_poly_key by lia. rewrite chacha_message by (done || lia). rewrite ztake_ge by lia.
    replace (xor_bytes inp _) with (aead_cipher aead_chacha20_poly1305 key nonce inp) by (unfold aead_cipher; by rewrite Hst).
    rewrite <- Hzc. apply store_tag_spec; first [done|lia|apply keystream_bytes|by rewrite length_keystream|unfold aead_tag; by rewrite Hst].
  - destruct (Z.eqb_spec (zlen nonce) 24) as [Hnl|]; cbn [negb]; [|done].
    rewrite chacha_poly_key by lia. rewrite chacha_message by (done || lia). rewrite ztake_ge by lia.
    change (xor_bytes inp _) with (aead_cipher aead_xchacha20_poly1305 key nonce inp).
    rewrite <- Hzc. apply store_tag_spec; first [done|lia|apply keystream_bytes|by rewrite length_keystream].
Qed.

Lemma memcmp_tag tag c n :
  Forall is_byte tag -> Forall is_byte c -> zlen tag = 16 -> zlen c = n -> 0 <= n <= 16 ->
  (timingsafe_memcmp tag c n =? 0) = bytes_eqb (ztake n tag) c.
Proof.
  intros Ht Hc Hzt Hzc Hn. rewrite <- (timingsafe_memcmp_eqb (ztake n tag) c n) by (auto with bytes || (rewrite ?zlen_ztake by lia; lia)).
  unfold timingsafe_memcmp. by rewrite ztake_ztake, Z.min_id.
Qed.

(** The ciphertext part, the tag part and the tag that is expected. *)
Definition authentic (ctx : evp_aead_ctx) (nonce c ad : list Z) : bool :=
  let n := zlen c - c20_tag_len (aead_state ctx) in
  bytes_eqb (ztake (c20_tag_len (aead_state ctx)) (aead_tag (ctx_aead ctx) (c20_key (aead_state ctx)) nonce (ztake n c) ad)) (zdrop n c).

Lemma open_spec ctx max nonce c ad out :
  aead_args ctx nonce c ad out -> zlen c < 2 ^ 32 ->
  let n := zlen c - c20_tag_len (aead_state ctx) in
  match ctx_aead ctx with aead_chacha20_poly1305 => aead_chacha20_poly1305_open | aead_xchacha20_poly1305 => aead_xchacha20_poly1305_open end
    (ctx_aead ctx) (aead_state ctx) max nonce c ad out =
  if (0 <=? n) && (zlen nonce =? nonce_len (ctx_aead ctx)) && (n <=? max) && authentic ctx nonce c ad
  then (Some n, overwrite out 0 (aead_cipher (ctx_aead ctx) (c20_key (aead_state ctx)) nonce (ztake n c))) else (None, out).
Proof.
  destruct ctx as [a [key tag_len]]. unfold aead_args, authentic. cbn [ctx_aead aead_state c20_key c20_tag_len].
  intros (Ht & Hn & Hc & Had & Hout) Hl. set (n := zlen c - tag_len). pose proof (zlen_nonneg c) as Hz.
  assert (Htagc : 0 <= n -> forall t, Forall is_byte t -> zlen t = 16 -> (timingsafe_memcmp t (zdrop n c) tag_len =? 0) = bytes_eqb (ztake tag_len t) (zdrop n c)).
  { intros Hn0 t Hbt Hzt. apply memcmp_tag; auto with bytes; rewrite ?zlen_zdrop by lia; lia. }
  destruct a; unfold aead_chacha20_poly1305_open, aead_xchacha20_poly1305_open; cbn [c20_key c20_tag_len nonce_len];
    unfold CHACHA20_NONCE_LEN, CHACHA20_CONSTANT_LEN, CHACHA20_IV_LEN, XCHACHA20_NONCE_LEN;
    rewrite ?(proj2 (Z.leb_gt (2 ^ 32 * 64 - 64) (zlen c))) by lia; fold n;
    replace (zlen c <? tag_len) with (negb (0 <=? n)) by (unfold n; destruct (Z.ltb_spec (zlen c) tag_len), (Z.leb_spec 0 (zlen c - tag_len)); (done || lia));
    (destruct (Z.leb_spec 0 n) as [Hn0|]; cbn [negb andb]; [|done]).
  - destruct (Z.eqb_spec (zlen nonce) (4 + 8)) as [Hnl|]; cbn [negb andb]; [|done]. destruct (stream_chacha key nonce Hn Hnl) as [Hctr Hst].
    rewrite (Z.leb_antisym max). destruct (max <? n); cbn [negb andb]; [done|].
    unfold wrap64. rewrite Z.mod_small by lia. rewrite chacha_poly_key by lia. rewrite chacha_message by (done || lia).
    rewrite aead_mac_spec by (done || lia || apply keystream_bytes || by rewrite length_keystream).
    rewrite Htagc by (done || (unfold poly1305_spec; auto with bytes) || (unfold zlen; by rewrite length_poly1305_spec)).
    unfold aead_tag, aead_cipher. rewrite Hst. by destruct (bytes_eqb _ _).
  - destruct (Z.eqb_spec (zlen nonce) 24) as [Hnl|]; cbn [negb andb]; [|done].
    rewrite (Z.leb_antisym max). destruct (max <? n); cbn [negb andb]; [done|].
    rewrite chacha_poly_key by lia. rewrite chacha_message by (done || lia).
    rewrite aead_mac_spec by (done || lia || apply keystream_bytes || by rewrite length_keystream).
    rewrite Htagc by (done || (unfold poly1305_spec; auto with bytes) || (unfold zlen; by rewrite length_poly1305_spec)).
    unfold aead_tag, aead_cipher. cbn [stream]. by destruct (bytes_eqb _ _).
Qed.

(** Authentic ciphertexts are exactly the sealed ones. *)
Lemma authentic_sealed ctx nonce c ad p :
  0 <= c20_tag_len (aead_state ctx) <= 16 ->
  let n := zlen c - c20_tag_len (aead_state ctx) in
  (0 <= n /\ authentic ctx nonce c ad = true /\ p = aead_cipher (ctx_aead ctx) (c20_key (aead_state ctx)) nonce (ztake n c)) <->
  c = aead_seals ctx nonce p ad.
Proof.
  destruct ctx as [a [key tag_len]]. unfold authentic, aead_seals, bytes_eqb. cbn [ctx_aead aead_state c20_key c20_tag_len]. intros Ht. set (n := zlen c - tag_len). split.
  - intros (Hn & Ha & ->). apply bool_decide_eq_true in Ha. rewrite aead_cipher_involutive, Ha. by rewrite ztake_zdrop.
  - intros ->. subst n. rewrite zlen_app, zlen_ztake, zlen_aead_tag, Z.min_l by lia. rewrite Z.add_simpl_r.
    rewrite ztake_app_eq, zdrop_app_eq, aead_cipher_involutive, bool_decide_true by done. split_and!; try done. apply zlen_nonneg.
Qed.

Lemma slice_overwrite_before (b t : list Z) off k n :
  0 <= k -> 0 <= n -> k + n <= off <= zlen b -> slice (overwrite b off t) k n = slice b k n.
Proof.
  intros Hk Hn Ho. unfold slice, overwrite. rewrite zdrop_app_l, ztake_app_l by (rewrite ?zlen_zdrop, ?zlen_ztake by lia; lia).
  rewrite <- (ztake_zdrop off b) at 2. rewrite zdrop_app_l, ztake_app_l by (rewrite ?zlen_zdrop, ?zlen_ztake by lia; lia). done.
Qed.
Lemma slice_overwrite_after (b x : list Z) n : slice (overwrite b 0 x) (zlen x) n = slice b (zlen x) n.
Proof. unfold slice, overwrite. rewrite (ztake_nonpos 0) by lia. cbn [app]. by rewrite zdrop_app_eq, Z.add_0_l by done. Qed.

(** ** Theorems *)

(** C33: Sealing computes the AEAD of RFC 8439 (and its XChaCha20 variant): for every key, nonce,
    plaintext of less than 4 GB and additional data, [EVP_AEAD_CTX_seal] succeeds exactly if the
    buffers do not overlap badly, the output has room for the ciphertext and the tag and the nonce has
    the AEAD's length; the output is then the plaintext XORed with the keystream from block 1 on,
    followed by the tag, which is the Poly1305 code of the padded data and lengths under the key that
    keystream block 0 gives.  When it fails, the output buffer is cleared. *)
Theorem aead_seal_rfc8439 ctx in_addr out_addr max nonce inp ad out :
  aead_args ctx nonce inp ad out -> zlen inp < 2 ^ 32 -> 0 <= max <= zlen out ->
  Evp.EVP_AEAD_CTX_seal ctx in_addr out_addr max nonce inp ad out =
  if Evp.check_alias in_addr (zlen inp) out_addr && (zlen inp + c20_tag_len (aead_state ctx) <=? max) &&
     (zlen nonce =? nonce_len (ctx_aead ctx))
  then (Some (zlen inp + c20_tag_len (aead_state ctx)), overwrite out 0 (aead_seals ctx nonce inp ad))
  else (None, overwrite out 0 (zeros max)).
Proof.
  intros Hargs Hl Hmax. pose proof (zlen_nonneg inp) as Hz. unfold Evp.EVP_AEAD_CTX_seal, overhead, POLY1305_TAG_LEN, wrap64.
  rewrite Z.mod_small, (proj2 (Z.ltb_ge (zlen inp + 16) (zlen inp))) by lia.
  destruct (Evp.check_alias in_addr (zlen inp) out_addr); cbn [negb andb]; [|done].
  unfold Evp.or_clear. rewrite seal_spec by (done || lia). by destruct ((zlen inp + _ <=? max) && _).
Qed.
Lemma aead_seal_rfc8439_witness :
  Evp.EVP_AEAD_CTX_seal rfc_ctx 0 1000 130 rfc_nonce rfc_plaintext rfc_ad (zeros 130) =
  (Some 130, overwrite (zeros 130) 0 (aead_seals rfc_ctx rfc_nonce rfc_plaintext rfc_ad)).
Proof.
  refine (aead_seal_rfc8439 rfc_ctx 0 1000 130 rfc_nonce rfc_plaintext rfc_ad (zeros 130) _ _ _); [|reflexivity|by vm_compute].
  unfold aead_args. split_and!; try apply bytes_ok; by vm_compute.
Defined.

(** C34: Opening accepts exactly what sealing produces: [EVP_AEAD_CTX_open] succeeds only on an input that
    is the sealed form, under the same key, nonce and additional data, of the plaintext it returns, and
    if it refuses then the output buffer is cleared and the input is the sealed form of no plaintext
    (or the output has no room for it, the nonce has the wrong length or the buffers overlap badly).
    In particular changing any bit of a sealed message, or cutting it, is refused unless the changed
    message happens to be the sealed form of another one. *)
Theorem aead_open_iff_sealed ctx in_addr out_addr max nonce c ad out :
  aead_args ctx nonce c ad out -> zlen c < 2 ^ 32 -> 0 <= max <= zlen out ->
  match Evp.EVP_AEAD_CTX_open ctx in_addr out_addr max nonce c ad out with
  | (Some n, out') => exists p, c = aead_seals ctx nonce p ad /\ n = zlen p /\ n <= max /\ out' = overwrite out 0 p /\
                                zlen nonce = nonce_len (ctx_aead ctx)
  | (None, out') => out' = overwrite out 0 (zeros max) /\
      forall p, c = aead_seals ctx nonce p ad -> max < zlen p \/ zlen nonce <> nonce_len (ctx_aead ctx) \/
                Evp.check_alias in_addr (zlen c) out_addr = false
  end.
Proof.
  intros Hargs Hl Hmax. pose proof Hargs as (Ht & _). unfold Evp.EVP_AEAD_CTX_open.
  destruct (Evp.check_alias in_addr (zlen c) out_addr) eqn:Eal; cbn [negb]; [|split; [done|by intros; right; right]].
  unfold Evp.or_clear. rewrite open_spec by done. set (n := zlen c - c20_tag_len (aead_state ctx)).
  set (q := aead_cipher (ctx_aead ctx) (c20_key (aead_state ctx)) nonce (ztake n c)).
  destruct (Z.leb_spec 0 n) as [Hn|Hn]; cbn [andb].
  2: { split; [done|]. intros p Hp. apply authentic_sealed in Hp as (Hp & _); [fold n in Hp; lia|done]. }
  destruct (Z.eqb_spec (zlen nonce) (nonce_len (ctx_aead ctx))) as [Hnl|Hnl]; cbn [andb]; [|split; [done|auto]].
  assert (Hq : zlen q = n) by (unfold q; rewrite zlen_aead_cipher, zlen_ztake by lia; unfold n in *; lia).
  destruct (Z.leb_spec n max) as [Hm|Hm]; cbn [andb].
  - destruct (authentic ctx nonce c ad) eqn:Ha.
    + exists q. split_and!; first [done|lia|by apply authentic_sealed].
    + split; [done|]. intros p Hp. apply authentic_sealed in Hp as (_ & Hp & _); [congruence|done].
  - split; [done|]. intros p Hp. left. apply authentic_sealed in Hp as (_ & _ & ->); [|done]. fold n. fold q. lia.
Qed.
Definition rfc_sealed : list Z :=
  Eval vm_compute in (Evp.EVP_AEAD_CTX_seal rfc_ctx 0 1000 130 rfc_nonce rfc_plaintext rfc_ad (zeros 130)).2.
Lemma aead_open_iff_sealed_witness : exists p, rfc_sealed = aead_seals rfc_ctx rfc_nonce p rfc_ad /\ zlen p = 114.
Proof.
  pose proof (aead_open_iff_sealed rfc_ctx 0 1000 130 rfc_nonce rfc_sealed rfc_ad (zeros 130)
    ltac:(unfold aead_args; split_and!; try apply bytes_ok; by vm_compute) ltac:(by vm_compute) ltac:(by vm_compute)) as H.
  assert (E : fst (Evp.EVP_AEAD_CTX_open rfc_ctx 0 1000 130 rfc_nonce rfc_sealed rfc_ad (zeros 130)) = Some 114) by (vm_compute; reflexivity).
  destruct (Evp.EVP_AEAD_CTX_open _ _ _ _ _ _ _ _) as [r out']. cbn [fst] in E. subst r. destruct H as (p & Hp & Hn & _).
  exists p. split; [exact Hp|]. lia.
Defined.

(** C35: A plaintext of 4 GB or more is not encrypted in full: the length reaches the cipher as a 32-bit
    integer, so that, although sealing reports success, the output bytes from position [in_len mod 2^32]
    up to the tag are whatever the output buffer held before (the plaintext itself, when the call works
    in place). *)
Theorem aead_seal_truncates ctx in_addr out_addr max nonce inp ad out :
  aead_args ctx nonce inp ad out -> zlen nonce = nonce_len (ctx_aead ctx) -> Evp.check_alias in_addr (zlen inp) out_addr = true ->
  2 ^ 32 <= zlen inp < 2 ^ 32 * 64 - 64 -> zlen inp + c20_tag_len (aead_state ctx) <= max <= zlen out ->
  let k := zlen inp mod 2 ^ 32 in
  exists out', Evp.EVP_AEAD_CTX_seal ctx in_addr out_addr max nonce inp ad out = (Some (zlen inp + c20_tag_len (aead_state ctx)), out') /\
    slice out' k (zlen inp - k) = slice out k (zlen inp - k).
Proof.
  destruct ctx as [a [key tag_len]]. unfold aead_args. cbn [ctx_aead aead_state c20_tag_len]. intros (Ht & Hn & Hi & Had & Hout) Hnl Hal Hl Hmax.
  set (k := zlen inp mod 2 ^ 32).
  assert (Hk : 0 <= k < 2 ^ 32) by (apply Z.mod_pos_bound; lia).
  unfold Evp.EVP_AEAD_CTX_seal, overhead, POLY1305_TAG_LEN. cbn [ctx_aead aead_state]. unfold wrap64 at 1.
  rewrite Z.mod_small, (proj2 (Z.ltb_ge (zlen inp + 16) (zlen inp))), Hal by lia. cbn [negb].
  assert (Hst : forall x m, zlen x = k -> exists out', store_tag tag_len (zlen inp) m (overwrite out 0 x) = (Some (zlen inp + tag_len), out') /\
                  slice out' k (zlen inp - k) = slice out k (zlen inp - k)).
  { intros x m Hx. assert (Hzo : zlen (overwrite out 0 x) = zlen out) by (apply zlen_overwrite; lia).
    unfold store_tag, POLY1305_TAG_LEN. destruct (Z.eqb_spec tag_len 16) as [->|]; cbn [negb]; (eexists; split; [reflexivity|]);
      rewrite slice_overwrite_before, <- Hx by lia; apply slice_overwrite_after. }
  assert (Hc : forall key iv ctr, 0 <= ctr < 2 ^ 64 -> zlen (CRYPTO_chacha_20 inp (zlen inp) key iv ctr) = k).
  { intros key' iv ctr Hctr. rewrite CRYPTO_chacha_20_spec by (done || lia). fold k.
    change (wrap32 (zlen inp)) with k. rewrite zlen_xor_bytes, zlen_keystream, zlen_ztake by lia. assert (k <= zlen inp) by lia. lia. }
  destruct a; unfold Evp.or_clear, aead_chacha20_poly1305_seal, aead_xchacha20_poly1305_seal; cbn [c20_key c20_tag_len];
    unfold wrap64; rewrite ?(Z.mod_small (zlen inp + tag_len)), ?(proj2 (Z.leb_gt (2 ^ 32 * 64 - 64) (zlen inp))), (proj2 (Z.ltb_ge max (zlen inp + tag_len))) by lia;
    rewrite Hnl, Z.eqb_refl; cbn [negb].
  - destruct (stream_chacha key nonce Hn Hnl) as [Hctr _]. rewrite (Z.mod_small (nonce_ctr nonce + 1)) by lia.
    match goal with |- context [store_tag _ _ ?m _] =>
      destruct (Hst _ m (Hc key (zdrop CHACHA20_CONSTANT_LEN nonce) (nonce_ctr nonce + 1) ltac:(lia))) as (out' & E & Hs) end.
    rewrite E. by exists out'.
  - match goal with |- context [store_tag _ _ ?m _] =>
      destruct (Hst _ m (Hc (CRYPTO_hchacha_20 key nonce) (zdrop 16 nonce) 1 ltac:(lia))) as (out' & E & Hs) end.
    rewrite E. by exists out'.
Qed.
(** A buffer of 4 GB of zeros stays as it was. *)
Lemma aead_seal_truncates_witness :
  exists out', Evp.EVP_AEAD_CTX_seal rfc_ctx 0 0 (2 ^ 32 + 16) rfc_nonce (zeros (2 ^ 32)) rfc_ad (zeros (2 ^ 32 + 16)) = (Some (2 ^ 32 + 16), out') /\
    slice out' 0 (2 ^ 32) = slice (zeros (2 ^ 32 + 16)) 0 (2 ^ 32).
Proof.
  assert (Hz : zlen (zeros (2 ^ 32)) = 2 ^ 32) by (apply zlen_zeros; lia).
  assert (Hz' : zlen (zeros (2 ^ 32 + 16)) = 2 ^ 32 + 16) by (apply zlen_zeros; lia).
  pose proof (aead_seal_truncates rfc_ctx 0 0 (2 ^ 32 + 16) rfc_nonce (zeros (2 ^ 32)) rfc_ad (zeros (2 ^ 32 + 16))) as Ht.
  rewrite Hz, Hz' in Ht. apply Ht; [|reflexivity|reflexivity|lia|cbn [c20_tag_len aead_state rfc_ctx]; lia].
  refine (conj _ (conj (bytes_ok rfc_nonce eq_refl) (conj (Forall_zeros _) (conj (bytes_ok rfc_ad eq_refl) (Forall_zeros _))))).
  cbn [c20_tag_len aead_state rfc_ctx]. lia.
Defined.
