(* ===== verification/Md32.v ===== *)
(** * The Merkle-Damgard hashes with 32-bit lengths (crypto/md32_common.h)

    The template that sha256.c instantiates: buffering of partial blocks, the 64-bit bit
    count in two words, and the padding.  The compression function is a parameter of the
    section; so is the order of the bytes of a word, which is big-endian here
    ([DATA_ORDER_IS_BIG_ENDIAN]). *)
From S2P Require Import Prelude Words.

Definition HASH_CBLOCK : Z := 64.

Definition ROTATE (a n : Z) : Z := Z.lor (wrap32 (Z.shiftl a n)) (Z.shiftr a (32 - n)).
(** The word at offset [p], most significant byte first. *)
Definition HOST_c2l (c : list Z) (p : Z) : Z :=
  Z.lor (Z.lor (Z.lor (Z.shiftl (znth c p) 24) (Z.shiftl (znth c (p + 1)) 16)) (Z.shiftl (znth c (p + 2)) 8)) (znth c (p + 3)).
Definition HOST_l2c (l : Z) : list Z :=
  [Z.land (Z.shiftr l 24) 0xff; Z.land (Z.shiftr l 16) 0xff; Z.land (Z.shiftr l 8) 0xff; Z.land l 0xff].

(** [HASH_CTX], with the buffer as bytes. *)
Record HASH_CTX := mkHash { hh : list Z; Nl : Z; Nh : Z; data : list Z; num : Z; md_len : Z }.

Section Template.
(** [HASH_BLOCK_DATA_ORDER] on one block. *)
Context (block : list Z -> list Z -> list Z).

(** [HASH_BLOCK_DATA_ORDER (c, p, num)] *)
Fixpoint block_data_order (num : nat) (p : list Z) (h : list Z) : list Z :=
  match num with O => h | S n => block_data_order n (zdrop HASH_CBLOCK p) (block h (ztake HASH_CBLOCK p)) end.

Definition set_hh (h : list Z) (c : HASH_CTX) : HASH_CTX := mkHash h (Nl c) (Nh c) (data c) (num c) (md_len c).
Definition set_data (d : list Z) (n : Z) (c : HASH_CTX) : HASH_CTX := mkHash (hh c) (Nl c) (Nh c) d n (md_len c).

(** The bit count. *)
Definition count (len : Z) (c : HASH_CTX) : HASH_CTX :=
  let l := Z.land (wrap32 (Nl c + wrap32 (Z.shiftl (wrap32 len) 3))) 0xffffffff in
  let nh := if l <? Nl c then wrap32 (Nh c + 1) else Nh c in
  mkHash (hh c) l (wrap32 (nh + wrap32 (Z.shiftr len 29))) (data c) (num c) (md_len c).

(** Full blocks of the input, and what is left. *)
Definition update_rest (d : list Z) (len : Z) (c : HASH_CTX) : HASH_CTX :=
  let n := len / HASH_CBLOCK in
  let '(d, len, c) :=
    if 0 <? n then (zdrop (n * HASH_CBLOCK) d, len - n * HASH_CBLOCK, set_hh (block_data_order (Z.to_nat n) d (hh c)) c)
    else (d, len, c) in
  if negb (len =? 0) then set_data (overwrite (data c) 0 (ztake len d)) len c else c.

Definition HASH_UPDATE (d : list Z) (len : Z) (c : HASH_CTX) : HASH_CTX :=
  if len =? 0 then c
  else
  let c := count len c in
  let n := num c in
  if negb (n =? 0) then
    if (HASH_CBLOCK <=? len) || (HASH_CBLOCK <=? wrap64 (len + n)) then
      let p := overwrite (data c) n (ztake (HASH_CBLOCK - n) d) in
      let c := set_hh (block_data_order 1 p (hh c)) c in
      update_rest (zdrop (HASH_CBLOCK - n) d) (len - (HASH_CBLOCK - n)) (set_data (zeros HASH_CBLOCK) 0 c)
    else set_data (overwrite (data c) n (ztake len d)) (wrap32 (n + len)) c
  else update_rest d len c.

Definition HASH_TRANSFORM (d : list Z) (c : HASH_CTX) : HASH_CTX := set_hh (block_data_order 1 d (hh c)) c.

(** Up to the point where the digest is made from the state. *)
Definition pad_blocks (c : HASH_CTX) : HASH_CTX :=
  let p := overwrite (data c) (num c) [0x80] in
  let n := num c + 1 in
  let '(p, n, h) :=
    if HASH_CBLOCK - 8 <? n
    then let p := overwrite p n (zeros (HASH_CBLOCK - n)) in (p, 0, block_data_order 1 p (hh c))
    else (p, n, hh c) in
  let p := overwrite p n (zeros (HASH_CBLOCK - 8 - n)) in
  let p := overwrite p (HASH_CBLOCK - 8) (HOST_l2c (Nh c) ++ HOST_l2c (Nl c)) in
  mkHash (block_data_order 1 p h) (Nl c) (Nh c) (zeros HASH_CBLOCK) 0 (md_len c).

(** ** What the template computes *)

(** The padding of FIPS 180-4 section 5.1.1. *)
Definition md_pad (m : list Z) : list Z := m ++ [0x80] ++ zeros ((55 - zlen m) mod 64) ++ be_bytes 8 (8 * zlen m).
Definition md_chain (h m : list Z) : list Z := block_data_order (Z.to_nat (zlen m / 64)) m h.

(** [hashed h0 ml c s]: the context holds what the bytes [s] give. *)
Definition hashed (h0 : list Z) (ml : Z) (c : HASH_CTX) (s : list Z) : Prop :=
  md_len c = ml /\ zlen (data c) = 64 /\ 0 <= Nl c < 2 ^ 32 /\ 0 <= Nh c < 2 ^ 32 /\ Nl c + 2 ^ 32 * Nh c = (8 * zlen s) mod 2 ^ 64 /\
  exists full rest, s = full ++ rest /\ zlen full mod 64 = 0 /\ zlen rest < 64 /\ num c = zlen rest /\
    ztake (zlen rest) (data c) = rest /\ hh c = md_chain h0 full.

Lemma block_data_order_app n m a b h :
  zlen a = 64 * Z.of_nat n -> block_data_order (n + m) (a ++ b) h = block_data_order m b (block_data_order n a h).
Proof.
  revert a h. induction n as [|n IH]; intros a h Ha.
  { assert (a = []) as -> by (apply zlen_0_nil; lia). done. }
  cbn [Nat.add block_data_order]. unfold HASH_CBLOCK. rewrite ztake_app_l, zdrop_app_l by lia. apply IH. rewrite zlen_zdrop by lia. lia.
Qed.
Lemma block_data_order_prefix n a b h : zlen a = 64 * Z.of_nat n -> block_data_order n (a ++ b) h = block_data_order n a h.
Proof. intros Ha. rewrite <- (Nat.add_0_r n) at 1. by rewrite block_data_order_app. Qed.
Lemma md_chain_app h a b : zlen a mod 64 = 0 -> md_chain h (a ++ b) = md_chain (md_chain h a) b.
Proof.
  intros Ha. unfold md_chain. pose proof (zlen_nonneg a). pose proof (zlen_nonneg b).
  rewrite zlen_app. replace ((zlen a + zlen b) / 64) with (zlen a / 64 + zlen b / 64) by (revert Ha; generalize (zlen a) (zlen b); intros; dlia).
  rewrite Z2Nat.inj_add by (apply Z.div_pos; lia). apply block_data_order_app. dlia.
Qed.
Lemma md_chain_block h p : zlen p = 64 -> block_data_order 1 p h = md_chain h p.
Proof. intros Hp. unfold md_chain. by rewrite Hp. Qed.

Lemma two_words u x : 0 <= u < 2 ^ 32 -> u + 2 ^ 32 * (x mod 2 ^ 32) = (u + 2 ^ 32 * x) mod 2 ^ 64.
Proof. intros. change (2 ^ 64) with (2 ^ 32 * 2 ^ 32). dlia. Qed.
Lemma count_spec len c (s : list Z) :
  0 <= len < 2 ^ 64 -> 0 <= Nl c < 2 ^ 32 -> 0 <= Nh c < 2 ^ 32 -> Nl c + 2 ^ 32 * Nh c = (8 * zlen s) mod 2 ^ 64 ->
  let c' := count len c in
  0 <= Nl c' < 2 ^ 32 /\ 0 <= Nh c' < 2 ^ 32 /\ Nl c' + 2 ^ 32 * Nh c' = (8 * (zlen s + len)) mod 2 ^ 64.
Proof.
  intros Hl H0 H1 Hs. unfold count. cbn [Nl Nh]. change 0xffffffff with (2 ^ 32 - 1). unfold wrap32. rewrite land_mask by lia.
  rewrite Z.shiftl_mul_pow2, Z.shiftr_div_pow2 by lia. rewrite Z.mod_mod by lia.
  set (l := (Nl c + (len mod 2 ^ 32 * 2 ^ 3) mod 2 ^ 32) mod 2 ^ 32). split; [apply Z.mod_pos_bound; lia|].
  split; [apply Z.mod_pos_bound; lia|].
  assert (E8 : (len mod 2 ^ 32 * 2 ^ 3) mod 2 ^ 32 = 8 * (len mod 2 ^ 29)) by dlia.
  assert (Eq : len = 2 ^ 29 * (len / 2 ^ 29) + len mod 2 ^ 29) by (apply Z.div_mod; lia).
  assert (B : 0 <= len mod 2 ^ 29 < 2 ^ 29) by (apply Z.mod_pos_bound; lia). assert (B2 : 0 <= len / 2 ^ 29 < 2 ^ 35) by dlia.
  unfold l. rewrite E8. set (q := len / 2 ^ 29) in *. set (r := len mod 2 ^ 29) in *. clearbody q r. clear E8 l. subst len.
  replace (8 * (zlen s + (2 ^ 29 * q + r))) with (8 * zlen s + (2 ^ 32 * q + 8 * r)) by lia.
  rewrite <- (Z.add_mod_idemp_l (8 * zlen s)), <- Hs by lia.
  destruct (Z.ltb_spec ((Nl c + 8 * r) mod 2 ^ 32) (Nl c)) as [Hlt|Hge].
  - replace ((Nl c + 8 * r) mod 2 ^ 32) with (Nl c + 8 * r - 2 ^ 32) by dlia. rewrite <- Z.add_mod, two_words by dlia. f_equal. lia.
  - replace ((Nl c + 8 * r) mod 2 ^ 32) with (Nl c + 8 * r) by dlia. rewrite Z.add_mod_idemp_r, two_words by dlia. f_equal. lia.
Qed.

Lemma count_same len c : hh (count len c) = hh c /\ data (count len c) = data c /\ num (count len c) = num c /\ md_len (count len c) = md_len c.
Proof. done. Qed.

(** A context whose count is that of [s ++ m] already, with [s] in the state. *)
Definition counted (h0 : list Z) (ml : Z) (c : HASH_CTX) (s m : list Z) : Prop :=
  md_len c = ml /\ zlen (data c) = 64 /\ 0 <= Nl c < 2 ^ 32 /\ 0 <= Nh c < 2 ^ 32 /\
  Nl c + 2 ^ 32 * Nh c = (8 * (zlen s + zlen m)) mod 2 ^ 64.

Lemma update_rest_hashed h0 ml c s full rest d len :
  counted h0 ml c s d -> 0 <= len <= zlen rest -> d = full ++ ztake len rest -> num c = 0 ->
  zlen (s ++ full) mod 64 = 0 -> hh c = md_chain h0 (s ++ full) ->
  hashed h0 ml (update_rest rest len c) (s ++ d).
Proof.
  intros (Hml & Hd & Hl & Hh & Hc) Hlen -> Hnum Hs Hhh. unfold update_rest, HASH_CBLOCK.
  assert (Hq : 0 <= len / 64 /\ 64 * (len / 64) <= len /\ len - 64 * (len / 64) < 64 /\ 0 <= len - 64 * (len / 64)) by dlia.
  set (q := len / 64) in *. clearbody q.
  assert (Hst : forall c' r, c' = set_hh (md_chain h0 (s ++ full ++ ztake (64 * q) rest)) c -> r = len - 64 * q ->
    hashed h0 ml (if negb (r =? 0) then set_data (overwrite (data c') 0 (ztake r (zdrop (64 * q) rest))) r c' else c') (s ++ full ++ ztake len rest)).
  { intros c' r -> ->.
    assert (E : s ++ full ++ ztake len rest = (s ++ full ++ ztake (64 * q) rest) ++ ztake (len - 64 * q) (zdrop (64 * q) rest)).
    { rewrite <- !app_assoc, <- ztake_add by lia. do 3 f_equal. lia. }
    set (t := ztake (len - 64 * q) (zdrop (64 * q) rest)) in *. assert (Ht : zlen t = len - 64 * q) by (unfold t; rewrite zlen_ztake, zlen_zdrop by lia; lia).
    assert (Hb : zlen (s ++ full ++ ztake (64 * q) rest) mod 64 = 0) by (rewrite app_assoc, zlen_app, zlen_ztake, Z.min_l by lia; dlia).
    unfold hashed. rewrite zlen_app in Hc.
    assert (Hcnt : Nl c + 2 ^ 32 * Nh c = (8 * zlen (s ++ full ++ ztake len rest)) mod 2 ^ 64) by (by rewrite !zlen_app).
    destruct (Z.eqb_spec (len - 64 * q) 0) as [E0|E0]; cbn [negb set_hh set_data md_len data Nl Nh num hh].
    - refine (conj Hml (conj Hd (conj Hl (conj Hh (conj Hcnt _))))). exists (s ++ full ++ ztake len rest), [].
      assert (t = []) as Et by (apply zlen_0_nil; lia). rewrite Et, app_nil_r in E. rewrite E, app_nil_r. split_and!; done.
    - refine (conj Hml (conj _ (conj Hl (conj Hh (conj Hcnt _))))); [rewrite <- Hd; apply zlen_overwrite; lia|].
      exists (s ++ full ++ ztake (64 * q) rest), t. split_and!; try done; try lia. apply ztake_overwrite_0. }
  destruct (Z.ltb_spec 0 q) as [Hq0|Hq0].
  - rewrite (Z.mul_comm q). apply Hst; [|done]. rewrite app_assoc, md_chain_app, <- Hhh by done. unfold set_hh. f_equal.
    rewrite <- (ztake_zdrop (64 * q) rest) at 1. assert (Hz : zlen (ztake (64 * q) rest) = 64 * q) by (rewrite zlen_ztake by lia; lia).
    rewrite block_data_order_prefix by (rewrite Z2Nat.id by lia; lia). unfold md_chain. rewrite Hz. by replace (64 * q / 64) with q by dlia.
  - assert (q = 0) as -> by lia. rewrite <- (zdrop_nonpos 0 rest) at 1 by lia. apply Hst; [|lia].
    rewrite ztake_nonpos, app_nil_r, <- Hhh by lia. by destruct c.
Qed.

Lemma HASH_UPDATE_hashed h0 ml c s d len :
  hashed h0 ml c s -> 0 <= len <= zlen d -> len < 2 ^ 64 - 64 -> hashed h0 ml (HASH_UPDATE d len c) (s ++ ztake len d).
Proof.
  intros (Hml & Hd & Hl & Hh & Hc & full & rest & -> & Hfull & Hrest & Hnum & Hbuf & Hhh) Hlen Hmax. unfold HASH_UPDATE.
  destruct (Z.eqb_spec len 0) as [->|Hne].
  { rewrite ztake_nonpos, app_nil_r by lia. repeat split; try done; try lia. by exists full, rest. }
  destruct (count_spec len c (full ++ rest) ltac:(lia) Hl Hh Hc) as (Hl' & Hh' & Hc').
  assert (Hz : zlen (ztake len d) = len) by (rewrite zlen_ztake by lia; lia). pose proof (zlen_nonneg rest) as Hr0.
  change (num (count len c)) with (num c). unfold HASH_CBLOCK, wrap64. rewrite Hnum, (Z.mod_small (len + zlen rest)) by lia.
  destruct (Z.eqb_spec (zlen rest) 0) as [E|E]; cbn [negb].
  - assert (rest = []) as -> by (by apply zlen_0_nil). rewrite app_nil_r in *.
    apply (update_rest_hashed h0 ml (count len c) full [] d (ztake len d) len); rewrite ?app_nil_r; try done.
    unfold counted. rewrite Hz. done.
  - set (w := 64 - zlen rest). replace ((64 <=? len) || (64 <=? len + zlen rest)) with (64 <=? len + zlen rest)
      by (destruct (Z.leb_spec 64 len), (Z.leb_spec 64 (len + zlen rest)); (done || lia)).
    destruct (Z.leb_spec 64 (len + zlen rest)) as [Hfit|Hfit].
    + assert (Hw : zlen (ztake w d) = w) by (unfold w; rewrite zlen_ztake by lia; lia).
      assert (Hp : overwrite (data (count len c)) (zlen rest) (ztake w d) = rest ++ ztake w d).
      { change (data (count len c)) with (data c). destruct (ztake_overwrite (data c) rest (ztake w d) Hbuf ltac:(lia)) as [Ho Ht].
        rewrite ztake_ge in Ht by lia. done. }
      rewrite Hp, md_chain_block by (rewrite zlen_app; lia). rewrite <- app_assoc.
      apply (update_rest_hashed h0 ml _ full (rest ++ ztake w d) (zdrop w d)).
      * unfold counted. cbn [set_data set_hh md_len data Nl Nh]. rewrite zlen_zeros by lia. rewrite !zlen_app, Hz in *.
        split_and!; try done; try lia. rewrite Z.add_assoc. done.
      * rewrite zlen_zdrop by lia. lia.
      * rewrite <- app_assoc, <- ztake_add by lia. do 2 f_equal. lia.
      * done.
      * rewrite !zlen_app. dlia.
      * cbn [set_data set_hh hh]. by rewrite (md_chain_app h0 full), <- Hhh by done.
    + unfold hashed. unfold wrap32. rewrite (Z.mod_small (zlen rest + len)) by lia. cbn [set_data md_len data Nl Nh num hh].
      change (data (count len c)) with (data c). destruct (ztake_overwrite (data c) rest (ztake len d) Hbuf ltac:(lia)) as [Ho Ht].
      refine (conj Hml (conj _ (conj Hl' (conj Hh' (conj _ _))))); [by rewrite Ho|by rewrite zlen_app, Hz|].
      exists full, (rest ++ ztake len d). rewrite zlen_app, Hz in *. rewrite app_assoc. split_and!; try done; lia.
Qed.

Lemma HOST_l2c_be v : HOST_l2c v = be_bytes 4 v.
Proof.
  unfold HOST_l2c. change 0xff with (2 ^ 8 - 1). rewrite !land_mask, !Z.shiftr_div_pow2 by lia. cbn [be_bytes app]. by rewrite !Z.div_div by lia.
Qed.
Lemma be_bytes_8 v : be_bytes 8 v = be_bytes 4 (v / 2 ^ 32) ++ be_bytes 4 v.
Proof. cbn [be_bytes app]. by rewrite !Z.div_div by lia. Qed.
Lemma be_bytes_mod n v : be_bytes n (v mod 256 ^ Z.of_nat n) = be_bytes n v.
Proof.
  revert v. induction n as [|n IH]; intros v; [done|]. cbn [be_bytes]. rewrite Nat2Z.inj_succ, Z.pow_succ_r by lia.
  rewrite <- (IH (v / 256)), Z.rem_mul_r by lia. f_equal; [f_equal|f_equal].
  - rewrite (Z.add_comm (v mod 256)), (Z.mul_comm 256), Z.div_add_l, (Z.div_small (v mod 256)), Z.add_0_r by (apply Z.mod_pos_bound || lia; lia). done.
  - rewrite Z.add_comm, (Z.mul_comm 256), Z.add_comm, Z.mod_add, Z.mod_mod by lia. done.
Qed.

(** The two words of the count are the last eight bytes. *)
Lemma count_bytes a b v : 0 <= a < 2 ^ 32 -> a + 2 ^ 32 * b = v mod 2 ^ 64 -> HOST_l2c b ++ HOST_l2c a = be_bytes 8 v.
Proof.
  intros Ha Hv. rewrite !HOST_l2c_be, <- (be_bytes_mod 8 v). change (256 ^ Z.of_nat 8) with (2 ^ 64). rewrite <- Hv, be_bytes_8. f_equal.
  - rewrite Z.add_comm, Z.mul_comm, Z.div_add_l, (Z.div_small a), Z.add_0_r by lia. done.
  - rewrite <- (be_bytes_mod 4 (a + 2 ^ 32 * b)). change (256 ^ Z.of_nat 4) with (2 ^ 32).
    rewrite (Z.mul_comm (2 ^ 32)), Z.mod_add, Z.mod_small by lia. done.
Qed.

Lemma pad_blocks_spec h0 ml c s :
  hashed h0 ml c s -> hh (pad_blocks c) = md_chain h0 (md_pad s) /\ md_len (pad_blocks c) = ml.
Proof.
  intros (Hml & Hd & Hl & Hh & Hc & full & rest & -> & Hfull & Hrest & Hnum & Hbuf & Hhh). unfold pad_blocks, HASH_CBLOCK, md_pad. rewrite Hnum.
  rewrite (count_bytes _ _ _ Hl Hc). set (cnt := be_bytes 8 (8 * zlen (full ++ rest))).
  assert (Hcnt : zlen cnt = 8) by apply zlen_be_bytes. clearbody cnt. pose proof (zlen_nonneg rest) as Hr0.
  destruct (ztake_overwrite (data c) rest [0x80] Hbuf ltac:(rewrite zlen_cons, zlen_nil; lia)) as [Ho Ht]. change (zlen [0x80]) with 1 in Ht.
  set (p := overwrite (data c) (zlen rest) [0x80]) in *. clearbody p. rewrite zlen_app.
  assert (Hz : (55 - (zlen full + zlen rest)) mod 64 = (55 - zlen rest) mod 64) by dlia. rewrite Hz.
  rewrite <- app_assoc, md_chain_app, <- Hhh by done.
  assert (Hfill : forall p n k t, zlen p = 64 -> 0 <= n -> 0 <= k -> n + k <= 64 -> zlen t = 64 - n - k ->
    overwrite (overwrite p n (zeros k)) (n + k) t = ztake n p ++ zeros k ++ t).
  { intros q n k t Hq Hn Hk Hnk Htl. unfold overwrite at 2. rewrite app_assoc. unfold overwrite. rewrite ztake_app_eq, Htl.
    - rewrite zdrop_ge, app_nil_r by (rewrite !zlen_app, zlen_ztake, zlen_zeros, zlen_zdrop by lia; lia). by rewrite app_assoc.
    - rewrite zlen_app, zlen_ztake, zlen_zeros by lia. lia. }
  destruct (Z.ltb_spec (64 - 8) (zlen rest + 1)) as [Hlt|Hge].
  - set (k := 64 - (zlen rest + 1)).
    assert (Hp1 : overwrite p (zlen rest + 1) (zeros k) = rest ++ [0x80] ++ zeros k).
    { unfold overwrite. rewrite Ht, zdrop_ge, app_nil_r by (rewrite zlen_zeros; unfold k; lia). by rewrite <- app_assoc. }
    cbv zeta. rewrite Hp1, (md_chain_block _ (rest ++ [0x80] ++ zeros k)) by (rewrite !zlen_app, zlen_zeros by (unfold k; lia); change (zlen [0x80]) with 1; unfold k; lia).
    pose proof (Hfill (rest ++ [0x80] ++ zeros k) 0 56 cnt) as Hf. change (0 + 56) with 56 in Hf. change (64 - 8 - 0) with 56. change (64 - 8) with 56.
    rewrite Hf by (rewrite ?zlen_app, ?zlen_zeros by (unfold k; lia); change (zlen [0x80]) with 1; unfold k; lia).
    rewrite ztake_nonpos by lia. cbn [app hh md_len]. rewrite md_chain_block by (rewrite zlen_app, zlen_zeros by lia; lia). split; [|done].
    replace (zeros ((55 - zlen rest) mod 64)) with (zeros k ++ zeros 56).
    + replace (rest ++ 128 :: (zeros k ++ zeros 56) ++ cnt) with ((rest ++ [0x80] ++ zeros k) ++ (zeros 56 ++ cnt))
        by (rewrite <- !app_assoc; done).
      rewrite (md_chain_app (hh c) (rest ++ [0x80] ++ zeros k)); [done|].
      rewrite !zlen_app, zlen_zeros by (unfold k; lia). change (zlen [0x80]) with 1. unfold k. dlia.
    + unfold zeros. rewrite <- replicate_add. f_equal. unfold k. dlia.
  - replace (64 - 8) with (zlen rest + 1 + (55 - zlen rest)) at 2 by lia. replace (64 - 8 - (zlen rest + 1)) with (55 - zlen rest) by lia.
    rewrite Hfill by lia. rewrite Ht, Z.mod_small by lia. cbn [hh md_len].
    rewrite md_chain_block by (rewrite !zlen_app, zlen_zeros by lia; change (zlen [0x80]) with 1; lia). by rewrite <- app_assoc.
Qed.
End Template.
