(* ===== verification/Sha256.v ===== *)
(** * SHA-224 and SHA-256 (crypto/sha/sha256.c over crypto/md32_common.h)

    The portable compression function with its unrolled rounds, in which the roles of the
    eight working variables rotate and the message schedule lives in a circular buffer of
    sixteen words. *)
From S2P Require Import Prelude Words Md32.

Definition SHA224_DIGEST_LENGTH : Z := 28.
Definition SHA256_DIGEST_LENGTH : Z := 32.

(** In the rows of the source. *)
Definition K256 : list Z := Eval compute in concat [
  [0x428a2f98; 0x71374491; 0xb5c0fbcf; 0xe9b5dba5]; [0x3956c25b; 0x59f111f1; 0x923f82a4; 0xab1c5ed5];
  [0xd807aa98; 0x12835b01; 0x243185be; 0x550c7dc3]; [0x72be5d74; 0x80deb1fe; 0x9bdc06a7; 0xc19bf174];
  [0xe49b69c1; 0xefbe4786; 0x0fc19dc6; 0x240ca1cc]; [0x2de92c6f; 0x4a7484aa; 0x5cb0a9dc; 0x76f988da];
  [0x983e5152; 0xa831c66d; 0xb00327c8; 0xbf597fc7]; [0xc6e00bf3; 0xd5a79147; 0x06ca6351; 0x14292967];
  [0x27b70a85; 0x2e1b2138; 0x4d2c6dfc; 0x53380d13]; [0x650a7354; 0x766a0abb; 0x81c2c92e; 0x92722c85];
  [0xa2bfe8a1; 0xa81a664b; 0xc24b8b70; 0xc76c51a3]; [0xd192e819; 0xd6990624; 0xf40e3585; 0x106aa070];
  [0x19a4c116; 0x1e376c08; 0x2748774c; 0x34b0bcb5]; [0x391c0cb3; 0x4ed8aa4a; 0x5b9cca4f; 0x682e6ff3];
  [0x748f82ee; 0x78a5636f; 0x84c87814; 0x8cc70208]; [0x90befffa; 0xa4506ceb; 0xbef9a3f7; 0xc67178f2]].

Definition Sigma0 (x : Z) : Z := Z.lxor (Z.lxor (ROTATE x 30) (ROTATE x 19)) (ROTATE x 10).
Definition Sigma1 (x : Z) : Z := Z.lxor (Z.lxor (ROTATE x 26) (ROTATE x 21)) (ROTATE x 7).
Definition sigma0 (x : Z) : Z := Z.lxor (Z.lxor (ROTATE x 25) (ROTATE x 14)) (Z.shiftr x 3).
Definition sigma1 (x : Z) : Z := Z.lxor (Z.lxor (ROTATE x 15) (ROTATE x 13)) (Z.shiftr x 10).
Definition Ch (x y z : Z) : Z := Z.lxor (Z.land x y) (Z.land (wrap32 (Z.lnot x)) z).
Definition Maj (x y z : Z) : Z := Z.lxor (Z.lxor (Z.land x y) (Z.land x z)) (Z.land y z).

(** The working variables a to h. *)
Definition ra : nat := 0.
Definition rb : nat := 1.
Definition rc : nat := 2.
Definition rd : nat := 3.
Definition re : nat := 4.
Definition rf : nat := 5.
Definition rg : nat := 6.
Definition rh : nat := 7.
Definition reg (v : list Z) (i : nat) : Z := nth i v 0.

(** The macro on the variables [v]; [T1] is the word of the message. *)
Definition ROUND_00_15 (T1 : Z) (i : nat) (a b c d e f g h : nat) (v : list Z) : list Z :=
  let T1 := wrap32 (T1 + reg v h + Sigma1 (reg v e) + Ch (reg v e) (reg v f) (reg v g) + reg K256 i) in
  let v := <[h := wrap32 (Sigma0 (reg v a) + Maj (reg v a) (reg v b) (reg v c))]> v in
  let v := <[d := wrap32 (reg v d + T1)]> v in
  <[h := wrap32 (reg v h + T1)]> v.

(** The state is the variables and the circular buffer [X]. *)
Definition ROUND_16_63 (i : nat) (a b c d e f g h : nat) (s : list Z * list Z) : list Z * list Z :=
  let '(v, X) := s in
  let s0 := sigma0 (reg X ((i + 1) mod 16)) in
  let s1 := sigma1 (reg X ((i + 14) mod 16)) in
  let T1 := wrap32 (reg X (i mod 16) + s0 + s1 + reg X ((i + 9) mod 16)) in
  (ROUND_00_15 T1 i a b c d e f g h v, <[(i mod 16)%nat := T1]> X).

(** [HOST_c2l(data,l); T1 = X[i] = l; ROUND_00_15(...)] *)
Definition load_round (data : list Z) (i : nat) (a b c d e f g h : nat) (s : list Z * list Z) : list Z * list Z :=
  let '(v, X) := s in
  let l := HOST_c2l data (4 * Z.of_nat i) in
  (ROUND_00_15 l i a b c d e f g h v, <[i := l]> X).

Definition rounds_00_15 (data : list Z) (s : list Z * list Z) : list Z * list Z :=
  let s := load_round data 0 ra rb rc rd re rf rg rh s in
  let s := load_round data 1 rh ra rb rc rd re rf rg s in
  let s := load_round data 2 rg rh ra rb rc rd re rf s in
  let s := load_round data 3 rf rg rh ra rb rc rd re s in
  let s := load_round data 4 re rf rg rh ra rb rc rd s in
  let s := load_round data 5 rd re rf rg rh ra rb rc s in
  let s := load_round data 6 rc rd re rf rg rh ra rb s in
  let s := load_round data 7 rb rc rd re rf rg rh ra s in
  let s := load_round data 8 ra rb rc rd re rf rg rh s in
  let s := load_round data 9 rh ra rb rc rd re rf rg s in
  let s := load_round data 10 rg rh ra rb rc rd re rf s in
  let s := load_round data 11 rf rg rh ra rb rc rd re s in
  let s := load_round data 12 re rf rg rh ra rb rc rd s in
  let s := load_round data 13 rd re rf rg rh ra rb rc s in
  let s := load_round data 14 rc rd re rf rg rh ra rb s in
  load_round data 15 rb rc rd re rf rg rh ra s.

(** The body of [for (i=16;i<64;i+=8)]. *)
Definition rounds_8 (i : nat) (s : list Z * list Z) : list Z * list Z :=
  let s := ROUND_16_63 (i + 0) ra rb rc rd re rf rg rh s in
  let s := ROUND_16_63 (i + 1) rh ra rb rc rd re rf rg s in
  let s := ROUND_16_63 (i + 2) rg rh ra rb rc rd re rf s in
  let s := ROUND_16_63 (i + 3) rf rg rh ra rb rc rd re s in
  let s := ROUND_16_63 (i + 4) re rf rg rh ra rb rc rd s in
  let s := ROUND_16_63 (i + 5) rd re rf rg rh ra rb rc s in
  let s := ROUND_16_63 (i + 6) rc rd re rf rg rh ra rb s in
  ROUND_16_63 (i + 7) rb rc rd re rf rg rh ra s.

(** One block; the buffer [X] is not initialised. *)
Definition sha256_block (h data : list Z) : list Z :=
  let s := rounds_00_15 data (h, zeros 16) in
  let s := fold_left (fun s i => rounds_8 i s) [16; 24; 32; 40; 48; 56]%nat s in
  zip_with (fun x y => wrap32 (x + y)) h s.1.
Definition sha256_block_data_order (num : nat) (data h : list Z) : list Z := block_data_order sha256_block num data h.

Definition SHA224_Init : HASH_CTX :=
  mkHash [0xc1059ed8; 0x367cd507; 0x3070dd17; 0xf70e5939; 0xffc00b31; 0x68581511; 0x64f98fa7; 0xbefa4fa4]
    0 0 (zeros 64) 0 SHA224_DIGEST_LENGTH.
Definition SHA256_Init : HASH_CTX :=
  mkHash [0x6a09e667; 0xbb67ae85; 0x3c6ef372; 0xa54ff53a; 0x510e527f; 0x9b05688c; 0x1f83d9ab; 0x5be0cd19]
    0 0 (zeros 64) 0 SHA256_DIGEST_LENGTH.

Definition SHA256_Update (d : list Z) (len : Z) (c : HASH_CTX) : HASH_CTX := HASH_UPDATE sha256_block d len c.
Definition SHA256_Transform (d : list Z) (c : HASH_CTX) : HASH_CTX := HASH_TRANSFORM sha256_block d c.

(** [None] is the return of 0. *)
Definition HASH_MAKE_STRING (c : HASH_CTX) : option (list Z) :=
  let words n := concat (HOST_l2c <$> take n (hh c)) in
  if md_len c =? SHA224_DIGEST_LENGTH then Some (words 7%nat)
  else if md_len c =? SHA256_DIGEST_LENGTH then Some (words 8%nat)
  else if SHA256_DIGEST_LENGTH <? md_len c then None
  else Some (words (Z.to_nat (md_len c / 4))).
Definition SHA256_Final (c : HASH_CTX) : option (list Z) * HASH_CTX :=
  let c := pad_blocks sha256_block c in (HASH_MAKE_STRING c, c).
Definition SHA224_Update (d : list Z) (len : Z) (c : HASH_CTX) : HASH_CTX := SHA256_Update d len c.
Definition SHA224_Final (c : HASH_CTX) : option (list Z) * HASH_CTX := SHA256_Final c.

Definition SHA224 (d : list Z) (n : Z) : option (list Z) := fst (SHA256_Final (SHA256_Update d n SHA224_Init)).
Definition SHA256 (d : list Z) (n : Z) : option (list Z) := fst (SHA256_Final (SHA256_Update d n SHA256_Init)).

(** "abc" (FIPS 180-4). *)
Example sha256_abc : be_val <$> SHA256 [0x61; 0x62; 0x63] 3 = Some 0xba7816bf8f01cfea414140de5dae2223b00361a396177a9cb410ff61f20015ad.
Proof. vm_compute. reflexivity. Qed.
Example sha224_abc : be_val <$> SHA224 [0x61; 0x62; 0x63] 3 = Some 0x23097d223405d8228642a477bda255b32aadbce4bda0b3f7e36c9da7.
Proof. vm_compute. reflexivity. Qed.

(** ** The function of FIPS 180-4 *)

Definition ROTR (n x : Z) : Z := Z.lor (Z.shiftr x n) (wrap32 (Z.shiftl x (32 - n))).
Definition fips_Sigma0 (x : Z) : Z := Z.lxor (Z.lxor (ROTR 2 x) (ROTR 13 x)) (ROTR 22 x).
Definition fips_Sigma1 (x : Z) : Z := Z.lxor (Z.lxor (ROTR 6 x) (ROTR 11 x)) (ROTR 25 x).
Definition fips_sigma0 (x : Z) : Z := Z.lxor (Z.lxor (ROTR 7 x) (ROTR 18 x)) (Z.shiftr x 3).
Definition fips_sigma1 (x : Z) : Z := Z.lxor (Z.lxor (ROTR 17 x) (ROTR 19 x)) (Z.shiftr x 10).

(** The message schedule, by extending the first sixteen words. *)
Fixpoint schedule (n : nat) (w : list Z) : list Z :=
  match n with
  | O => w
  | S n =>
      let t := length w in
      schedule n (w ++ [wrap32 (fips_sigma1 (reg w (t - 2)) + reg w (t - 7) + fips_sigma0 (reg w (t - 15)) + reg w (t - 16))])
  end.
(** The big-endian words of a block. *)
Definition block_words (data : list Z) : list Z := (fun i => be_val (slice data (4 * i) 4)) <$> seqZ 0 16.
Definition message_schedule (data : list Z) : list Z := schedule 48 (block_words data).

Definition fips_round (k w : Z) (s : list Z) : list Z :=
  match s with
  | [a; b; c; d; e; f; g; h] =>
      let T1 := wrap32 (h + fips_Sigma1 e + Ch e f g + k + w) in
      let T2 := wrap32 (fips_Sigma0 a + Maj a b c) in
      [wrap32 (T1 + T2); a; b; c; wrap32 (d + T1); e; f; g]
  | _ => s
  end.
(** The working variables after [n] rounds. *)
Fixpoint fips_rounds (n : nat) (w h : list Z) : list Z :=
  match n with O => h | S n => fips_round (reg K256 n) (reg w n) (fips_rounds n w h) end.
Definition fips_block (h data : list Z) : list Z :=
  zip_with (fun x y => wrap32 (x + y)) h (fips_rounds 64 (message_schedule data) h).
Definition fips_sha256 (h0 : list Z) (m : list Z) : list Z := md_chain fips_block h0 (md_pad m).

(** *** The rotations *)

Lemma ROTATE_ROTR n x : ROTATE x n = ROTR (32 - n) x.
Proof. unfold ROTATE, ROTR. rewrite Z.lor_comm. do 3 f_equal. lia. Qed.
Lemma Sigma0_fips x : Sigma0 x = fips_Sigma0 x.
Proof. unfold Sigma0, fips_Sigma0. by rewrite !ROTATE_ROTR. Qed.
Lemma Sigma1_fips x : Sigma1 x = fips_Sigma1 x.
Proof. unfold Sigma1, fips_Sigma1. by rewrite !ROTATE_ROTR. Qed.
Lemma sigma0_fips x : sigma0 x = fips_sigma0 x.
Proof. unfold sigma0, fips_sigma0. by rewrite !ROTATE_ROTR. Qed.
Lemma sigma1_fips x : sigma1 x = fips_sigma1 x.
Proof. unfold sigma1, fips_sigma1. by rewrite !ROTATE_ROTR. Qed.

(** *** The rotating variables

    In round [n] the variable that plays the part [p] of the eight is [(p - n) mod 8]. *)
Definition roles (n : nat) : list nat := (fun p => (p + 8 - n mod 8) mod 8)%nat <$> seq 0 8.
Definition view (n : nat) (v : list Z) : list Z := reg v <$> roles n.

Lemma round_view n T1 a b c d e f g h v :
  length v = 8%nat -> roles n = [a; b; c; d; e; f; g; h] ->
  length (ROUND_00_15 T1 n a b c d e f g h v) = 8%nat /\
  view (S n) (ROUND_00_15 T1 n a b c d e f g h v) = fips_round (reg K256 n) T1 (view n v).
Proof.
  intros Hv Hr. split; [unfold ROUND_00_15; by rewrite !length_insert|].
  do 8 (destruct v as [|? v]; [done|]). destruct v; [|done]. unfold view. rewrite Hr.
  assert (Hn : (n mod 8 < 8)%nat) by (apply Nat.mod_upper_bound; lia).
  assert (HS : (S n mod 8 = S (n mod 8) mod 8)%nat) by (rewrite <- (Nat.add_1_r n), <- (Nat.add_1_r (n mod 8)), Nat.Div0.add_mod_idemp_l; done).
  unfold roles in *. rewrite HS. unfold ROUND_00_15. generalize (reg K256 n). intros k. clear HS. revert Hn Hr. generalize (n mod 8)%nat. intros j Hj Hr.
  assert (Hcases : j = 0%nat \/ j = 1%nat \/ j = 2%nat \/ j = 3%nat \/ j = 4%nat \/ j = 5%nat \/ j = 6%nat \/ j = 7%nat) by lia.
  destruct Hcases as [->|[->|[->|[->|[->|[->|[->| ->]]]]]]]; cbn in Hr; injection Hr as <- <- <- <- <- <- <- <-;
    cbn -[Z.add wrap32 Sigma0 Sigma1 Ch Maj fips_Sigma0 fips_Sigma1]; rewrite Sigma0_fips, Sigma1_fips;
    (rewrite (Z.add_comm (wrap32 (fips_Sigma0 _ + _))); repeat (f_equal; try lia)).
Qed.

(** *** The circular buffer holds the last sixteen words of the schedule *)

Lemma schedule_prefix n w i : (i < length w)%nat -> reg (schedule n w) i = reg w i.
Proof.
  revert w. induction n as [|n IH]; intros w Hi; [done|]. cbn [schedule]. rewrite IH by (rewrite length_app; cbn; lia).
  unfold reg. by rewrite app_nth1.
Qed.
Lemma schedule_rec n w t :
  (16 <= length w)%nat -> (length w <= t < length w + n)%nat ->
  let W := schedule n w in
  reg W t = wrap32 (fips_sigma1 (reg W (t - 2)) + reg W (t - 7) + fips_sigma0 (reg W (t - 15)) + reg W (t - 16)).
Proof.
  revert w. induction n as [|n IH]; intros w Hw Ht W; [lia|]. unfold W. cbn [schedule]. set (x := wrap32 _).
  destruct (Nat.eq_dec t (length w)) as [->|Hne].
  - rewrite !schedule_prefix by (rewrite length_app; cbn; lia). unfold reg at 1. rewrite app_nth2, Nat.sub_diag by lia. cbn [nth].
    unfold x, reg. by rewrite !app_nth1 by lia.
  - apply IH; rewrite length_app; cbn [length]; lia.
Qed.

Lemma HOST_c2l_be data i :
  Forall is_byte data -> 0 <= i -> 4 * i + 4 <= zlen data -> HOST_c2l data (4 * i) = be_val (slice data (4 * i) 4).
Proof.
  intros Hb Hi Hl. destruct (zsplit (4 * i) data ltac:(lia)) as (x & y & -> & Hx & _ & _). apply Forall_app in Hb as [_ Hb].
  rewrite zlen_app in Hl. destruct y as [|b0 [|b1 [|b2 [|b3 y]]]]; rewrite ?zlen_cons, ?zlen_nil in Hl; try lia.
  assert (Hn : forall k c d e, b0 :: b1 :: b2 :: b3 :: y = c ++ d :: e -> k = zlen c -> znth (x ++ b0 :: b1 :: b2 :: b3 :: y) (4 * i + k) = d).
  { intros k c d e E ->. rewrite E, app_assoc. apply znth_app_at. rewrite zlen_app. lia. }
  unfold HOST_c2l, slice. rewrite zdrop_app_eq by lia. change (ztake 4 (b0 :: b1 :: b2 :: b3 :: y)) with [b0; b1; b2; b3].
  rewrite <- (Z.add_0_r (4 * i)) at 1. rewrite (Hn 0 [] b0 (b1 :: b2 :: b3 :: y)), (Hn 1 [b0] b1 (b2 :: b3 :: y)), (Hn 2 [b0; b1] b2 (b3 :: y)), (Hn 3 [b0; b1; b2] b3 y) by done.
  repeat (apply Forall_cons in Hb as [? Hb]). unfold is_byte in *.
  rewrite Z.lor_comm, (Z.lor_comm (Z.lor _ _)), (Z.lor_comm (Z.shiftl b0 24)), !Z.lor_assoc.
  rewrite (lor_shiftl b3), (lor_shiftl _ b1), (lor_shiftl _ b0) by lia. unfold be_val. cbn [fold_left]. lia.
Qed.

Definition words_of (data : list Z) : list Z := message_schedule data.
(** After [n] rounds: the variables in their roles, and the buffer. *)
Definition in_step (data h : list Z) (n : nat) (s : list Z * list Z) : Prop :=
  length s.1 = 8%nat /\ view n s.1 = fips_rounds n (words_of data) h /\ length s.2 = 16%nat /\
  forall m, (m < n <= m + 16)%nat -> reg s.2 (m mod 16) = reg (words_of data) m.

Lemma length_block_words data : length (block_words data) = 16%nat.
Proof. unfold block_words. by rewrite length_fmap, length_seqZ. Qed.

Lemma words_rec data t :
  (16 <= t < 64)%nat -> reg (words_of data) t =
  wrap32 (fips_sigma1 (reg (words_of data) (t - 2)) + reg (words_of data) (t - 7) + fips_sigma0 (reg (words_of data) (t - 15)) + reg (words_of data) (t - 16)).
Proof. intros Ht. apply (schedule_rec 48 (block_words data) t); rewrite length_block_words; lia. Qed.
Lemma words_block data t : (t < 16)%nat -> reg (words_of data) t = reg (block_words data) t.
Proof. intros Ht. apply (schedule_prefix 48). by rewrite length_block_words. Qed.
#[local] Opaque message_schedule.

Lemma reg_insert (X : list Z) i j x : (i < length X)%nat -> reg (<[i:=x]> X) j = if Nat.eq_dec i j then x else reg X j.
Proof.
  intros Hi. unfold reg. rewrite !nth_lookup. destruct (Nat.eq_dec i j) as [->|Hne]; [by rewrite list_lookup_insert_eq|by rewrite list_lookup_insert_ne].
Qed.

(** The step of the variables and the buffer, once the word is the schedule's. *)
Lemma in_step_next data h n s w a b c d e f g i' :
  in_step data h n s -> roles n = [a; b; c; d; e; f; g; i'] -> w = reg (words_of data) n ->
  in_step data h (S n) (ROUND_00_15 w n a b c d e f g i' s.1, <[(n mod 16)%nat := w]> s.2).
Proof.
  intros (Hl & Hv & HX & Hw) Hr ->. destruct (round_view n (reg (words_of data) n) _ _ _ _ _ _ _ _ s.1 Hl Hr) as [Hl' Hv'].
  unfold in_step. cbn [fst snd]. split_and!; [done|by rewrite Hv', Hv|by rewrite length_insert|].
  intros m Hm. assert (Hn16 : (n mod 16 < 16)%nat) by (apply Nat.mod_upper_bound; lia). rewrite reg_insert by lia.
  destruct (Nat.eq_dec (n mod 16)%nat (m mod 16)%nat) as [E|E].
  - assert (n = m) as -> by (pose proof (Nat.div_mod_eq n 16); pose proof (Nat.div_mod_eq m 16); lia). done.
  - apply Hw. assert (n <> m) by congruence. assert (n <> m + 16)%nat by (intros ->; apply E; rewrite <- (Nat.Div0.add_mod_idemp_r m 16), Nat.Div0.mod_same, Nat.add_0_r; done). lia.
Qed.

Lemma load_step data h n s a b c d e f g i' :
  Forall is_byte data -> zlen data = 64 -> (n < 16)%nat -> roles n = [a; b; c; d; e; f; g; i'] ->
  in_step data h n s -> in_step data h (S n) (load_round data n a b c d e f g i' s).
Proof.
  intros Hb Hl Hn Hr Hs. destruct s as [v X] eqn:Es. rewrite <- Es in *. unfold load_round. rewrite Es at 1.
  pose proof (in_step_next data h n s (HOST_c2l data (4 * Z.of_nat n)) _ _ _ _ _ _ _ _ Hs Hr) as Hnext.
  rewrite Nat.mod_small in Hnext by done. rewrite Es in Hnext. apply Hnext.
  rewrite HOST_c2l_be by (done || lia). rewrite words_block by done.
  unfold reg, block_words. rewrite nth_lookup, list_lookup_fmap, lookup_seqZ_lt by lia. done.
Qed.
Lemma round_step data h n s a b c d e f g i' :
  (16 <= n < 64)%nat -> roles n = [a; b; c; d; e; f; g; i'] ->
  in_step data h n s -> in_step data h (S n) (ROUND_16_63 n a b c d e f g i' s).
Proof.
  intros Hn Hr Hs. destruct s as [v X] eqn:Es. rewrite <- Es in *. unfold ROUND_16_63. rewrite Es at 1.
  set (w := wrap32 _). pose proof (in_step_next data h n s w _ _ _ _ _ _ _ _ Hs Hr) as Hnext. rewrite Es in Hnext. apply Hnext. unfold w.
  destruct Hs as (_ & _ & _ & Hw). rewrite Es in Hw. cbn [snd] in Hw. rewrite sigma0_fips, sigma1_fips.
  assert (Hm : forall k j, (j = n - k)%nat -> (1 <= k <= 16)%nat -> reg X (j mod 16) = reg (words_of data) (n - k)) by (intros k j -> Hk; apply Hw; lia).
  assert (Hmod : forall k, (k <= 16)%nat -> ((n + k) mod 16 = (n - (16 - k)) mod 16)%nat).
  { intros k Hk. replace (n + k)%nat with (n - (16 - k) + 16)%nat by lia.
    by rewrite <- (Nat.Div0.add_mod_idemp_r _ 16), Nat.Div0.mod_same, Nat.add_0_r. }
  rewrite (Hmod 1%nat), (Hmod 14%nat), (Hmod 9%nat) by lia. rewrite <- (Nat.add_0_r n) at 1. rewrite (Hmod 0%nat) by lia.
  rewrite (Hm 16%nat), (Hm 15%nat), (Hm 2%nat), (Hm 7%nat) by lia.
  rewrite (words_rec data n) by done. generalize (reg (words_of data)). intros r. f_equal. lia.
Qed.

Lemma view_0 v : length v = 8%nat -> view 0 v = v.
Proof. intros Hv. do 8 (destruct v as [|? v]; [done|]). by destruct v. Qed.

Lemma rounds_00_15_step data h s :
  Forall is_byte data -> zlen data = 64 -> in_step data h 0 s -> in_step data h 16 (rounds_00_15 data s).
Proof. intros Hb Hl Hs. unfold rounds_00_15. cbv zeta. do 16 (apply load_step; [done|done|lia|reflexivity|]). exact Hs. Qed.
Lemma rounds_8_step data h i s :
  (16 <= i <= 56)%nat -> (i mod 8 = 0)%nat -> in_step data h i s -> in_step data h (i + 8) (rounds_8 i s).
Proof.
  intros Hi H8 Hs. unfold rounds_8. cbv zeta. replace (i + 8)%nat with (S (i + 7)) by lia.
  assert (Hr : forall k, roles (i + k) = roles k) by (intros k; unfold roles; rewrite <- Nat.Div0.add_mod_idemp_l, H8; done).
  assert (HS : forall k, in_step data h (i + S k) = in_step data h (S (i + k))) by (intros k; by rewrite Nat.add_succ_r).
  do 7 (apply round_step; [lia|by rewrite Hr|]; rewrite HS). apply round_step; [lia|by rewrite Hr|]. by rewrite Nat.add_0_r.
Qed.

Lemma sha256_block_fips h data :
  length h = 8%nat -> Forall is_byte data -> zlen data = 64 -> sha256_block h data = fips_block h data.
Proof.
  intros Hh Hb Hl. unfold sha256_block, fips_block. cbn [fold_left]. cbv zeta.
  assert (H0 : in_step data h 0 (h, zeros 16)) by (split; [done|]; split; [by apply view_0|]; split; [done|]; intros m Hm; lia).
  apply (rounds_00_15_step data h _ Hb Hl) in H0.
  apply (rounds_8_step data h 16) in H0; [|lia|done]. apply (rounds_8_step data h 24) in H0; [|lia|done].
  apply (rounds_8_step data h 32) in H0; [|lia|done]. apply (rounds_8_step data h 40) in H0; [|lia|done].
  apply (rounds_8_step data h 48) in H0; [|lia|done]. apply (rounds_8_step data h 56) in H0; [|lia|done].
  destruct H0 as (Hl' & Hv & _). f_equal. rewrite <- (view_0 _ Hl'). exact Hv.
Qed.
Lemma length_fips_rounds n w h : length h = 8%nat -> length (fips_rounds n w h) = 8%nat.
Proof.
  intros Hh. induction n as [|n IH]; [done|]. cbn [fips_rounds]. destruct (fips_rounds n w h) as [|? [|? [|? [|? [|? [|? [|? [|? [|]]]]]]]]]; try done.
Qed.
Lemma length_fips_block h data : length h = 8%nat -> length (fips_block h data) = 8%nat.
Proof. intros Hh. unfold fips_block. rewrite length_zip_with, length_fips_rounds, Hh by done. done. Qed.

(** Chains of blocks. *)
Lemma chain_fips n m h :
  length h = 8%nat -> Forall is_byte m -> 64 * Z.of_nat n <= zlen m ->
  block_data_order sha256_block n m h = block_data_order fips_block n m h /\ length (block_data_order fips_block n m h) = 8%nat.
Proof.
  revert m h. induction n as [|n IH]; intros m h Hh Hm Hl; [done|]. cbn [block_data_order]. unfold HASH_CBLOCK.
  rewrite sha256_block_fips by (done || auto with bytes || (rewrite zlen_ztake by lia; lia)).
  apply IH; [by apply length_fips_block|auto with bytes|rewrite zlen_zdrop by lia; lia].
Qed.

Lemma md_pad_ok m : Forall is_byte m -> Forall is_byte (md_pad m) /\ zlen (md_pad m) mod 64 = 0.
Proof.
  intros Hm. unfold md_pad. split.
  - apply Forall_app; split; [done|]. apply Forall_app; split; [apply Forall_singleton; unfold is_byte; lia|]. apply Forall_app; split; auto with bytes.
  - rewrite !zlen_app, zlen_zeros, zlen_be_bytes by (apply Z.mod_pos_bound; lia). change (zlen [0x80]) with 1. generalize (zlen m). intros. dlia.
Qed.

(** The digest of the contexts that [SHA224_Init] and [SHA256_Init] make. *)
Lemma SHA256_Final_spec h0 ml c s :
  length h0 = 8%nat -> Forall is_byte s -> hashed sha256_block h0 ml c s -> ml = 28 \/ ml = 32 ->
  fst (SHA256_Final c) = Some (concat (be_bytes 4 <$> take (Z.to_nat (ml / 4)) (fips_sha256 h0 s))).
Proof.
  intros Hh Hs Hc Hml. destruct (pad_blocks_spec sha256_block h0 ml c s Hc) as [Hhh Hlen]. unfold SHA256_Final. cbn [fst].
  unfold HASH_MAKE_STRING. rewrite Hlen, Hhh. unfold fips_sha256, md_chain, SHA224_DIGEST_LENGTH, SHA256_DIGEST_LENGTH.
  destruct (md_pad_ok s Hs) as [Hpb Hpl]. pose proof (zlen_nonneg (md_pad s)).
  rewrite (proj1 (chain_fips (Z.to_nat (zlen (md_pad s) / 64)) (md_pad s) h0 Hh Hpb ltac:(rewrite Z2Nat.id by (apply Z.div_pos; lia); dlia))).
  assert (E : forall l, HOST_l2c <$> l = be_bytes 4 <$> l) by (intros l; apply list_fmap_ext; intros; apply HOST_l2c_be).
  destruct Hml as [->| ->]; cbn [Z.eqb Pos.eqb]; by rewrite E.
Qed.

(** A message given in pieces. *)
Definition SHA256_updates (chunks : list (list Z)) (c : HASH_CTX) : HASH_CTX := fold_left (fun c m => SHA256_Update m (zlen m) c) chunks c.
Lemma updates_hashed h0 ml chunks c s :
  hashed sha256_block h0 ml c s -> Forall (fun m => zlen m < 2 ^ 64 - 64) chunks -> hashed sha256_block h0 ml (SHA256_updates chunks c) (s ++ concat chunks).
Proof.
  revert c s. induction chunks as [|m chunks IH]; intros c s Hc Hm; [by rewrite app_nil_r|].
  apply Forall_cons in Hm as [Hm Hms]. cbn [SHA256_updates fold_left concat]. rewrite app_assoc. apply IH; [|done].
  pose proof (HASH_UPDATE_hashed sha256_block h0 ml c s m (zlen m) Hc ltac:(zl) Hm) as Hu. by rewrite ztake_ge in Hu by lia.
Qed.
Lemma init_hashed h0 ml : hashed sha256_block h0 ml (mkHash h0 0 0 (zeros 64) 0 ml) [].
Proof. split_and!; try done. by exists [], []. Qed.

Definition sha256_iv : list Z := [0x6a09e667; 0xbb67ae85; 0x3c6ef372; 0xa54ff53a; 0x510e527f; 0x9b05688c; 0x1f83d9ab; 0x5be0cd19].
Definition sha224_iv : list Z := [0xc1059ed8; 0x367cd507; 0x3070dd17; 0xf70e5939; 0xffc00b31; 0x68581511; 0x64f98fa7; 0xbefa4fa4].
Definition fips_digest (h0 : list Z) (words : nat) (m : list Z) : list Z := concat (be_bytes 4 <$> take words (fips_sha256 h0 m)).

Lemma length_block_data_order n m h : length h = 8%nat -> length (block_data_order fips_block n m h) = 8%nat.
Proof. revert m h. induction n as [|n IH]; intros m h Hh; [done|]. cbn [block_data_order]. by apply IH, length_fips_block. Qed.
Lemma zlen_concat_words l : zlen (concat (be_bytes 4 <$> l)) = 4 * zlen l.
Proof. induction l as [|x l IH]; [done|]. cbn [fmap list_fmap concat]. rewrite zlen_app, IH, zlen_be_bytes, zlen_cons. lia. Qed.
Lemma fips_digest_ok h0 k m :
  length h0 = 8%nat -> (k <= 8)%nat -> zlen (fips_digest h0 k m) = 4 * Z.of_nat k /\ Forall is_byte (fips_digest h0 k m).
Proof.
  intros Hh Hk. unfold fips_digest. split.
  - rewrite zlen_concat_words. unfold zlen. rewrite length_take. unfold fips_sha256, md_chain. rewrite length_block_data_order by done. lia.
  - apply Forall_concat, Forall_fmap, Forall_true. intros x. cbn [compose]. auto with bytes.
Qed.

(** ** Theorems *)

(** C36: The unrolled code computes SHA-256 and SHA-224 as FIPS 180-4 defines them: for every message,
    given to [SHA256_Update] in whatever pieces, the digest is that of the padded message under the
    reference compression function (explicit 64-word message schedule, rotations to the right, eight
    working variables that move), although the code keeps sixteen words in a circular buffer, renames
    the variables from round to round and counts the bits in two 32-bit words. *)
Theorem sha256_computes_fips chunks :
  Forall (Forall is_byte) chunks -> Forall (fun m => zlen m < 2 ^ 64 - 64) chunks ->
  fst (SHA256_Final (SHA256_updates chunks SHA256_Init)) = Some (fips_digest sha256_iv 8 (concat chunks)) /\
  fst (SHA224_Final (SHA256_updates chunks SHA224_Init)) = Some (fips_digest sha224_iv 7 (concat chunks)).
Proof.
  intros Hb Hl. assert (Hc : Forall is_byte (concat chunks)) by (by apply Forall_concat). split.
  - apply (SHA256_Final_spec sha256_iv 32); [done|done| |auto]. apply (updates_hashed _ _ _ _ []); [apply init_hashed|done].
  - apply (SHA256_Final_spec sha224_iv 28); [done|done| |auto]. apply (updates_hashed _ _ _ _ []); [apply init_hashed|done].
Qed.
Lemma sha256_computes_fips_witness :
  fst (SHA256_Final (SHA256_updates [[0x61]; [0x62; 0x63]] SHA256_Init)) = Some (fips_digest sha256_iv 8 [0x61; 0x62; 0x63]).
Proof.
  apply (sha256_computes_fips [[0x61]; [0x62; 0x63]]); repeat constructor; lia.
Defined.
