(* ===== verification/EvpDigest.v ===== *)
(** * Message digest contexts (crypto/evp/digest.c, crypto/evp/m_sha1.c)

    An [EVP_MD_CTX] pairs a digest with the state of that digest; the functions dispatch to
    the digest's methods.  The methods are the class [Methods], of which the tables
    [sha224_md] and [sha256_md] are an instance; hardware engines and public key contexts are
    the class [Engines]. *)
From S2P Require Import Prelude Compat Words Md32 Sha256.

Definition EVP_MAX_MD_SIZE : Z := 64.
Definition EVP_MD_CTX_FLAG_ONESHOT : Z := 0x0001.
Definition EVP_MD_CTX_FLAG_CLEANED : Z := 0x0002.
Definition EVP_MD_CTX_FLAG_REUSE : Z := 0x0004.
Definition EVP_MD_CTX_FLAG_NO_INIT : Z := 0x0100.

(** [struct env_md_st]: the fields and methods of a digest.  [md_data] is the state behind
    [ctx->md_data]; [blank] is that state zeroed. *)
Class Methods := {
  md : Type;
  md_eq :: EqDecision md;
  md_data : Type;
  blank : md_data;
  type : md -> Z;
  md_size : md -> Z;
  block_size : md -> Z;
  ctx_size : md -> Z;
  init : md -> md_data -> option md_data;
  update : md -> list Z -> md_data -> option md_data;
  md_final : md -> md_data -> option (list Z) * md_data;
  md_copy : md -> option (md_data -> md_data -> option md_data);
  cleanup : md -> option (md_data -> md_data)
}.

Class Engines `{Methods} := {
  ENGINE : Type;
  ENGINE_init : ENGINE -> bool;
  ENGINE_get_digest_engine : Z -> option ENGINE;
  ENGINE_get_digest : ENGINE -> Z -> option md;
  EVP_PKEY_CTX : Type;
  digestinit_ctrl : EVP_PKEY_CTX -> Z;   (* EVP_PKEY_CTX_ctrl(.., EVP_PKEY_CTRL_DIGESTINIT, ..) *)
  EVP_PKEY_CTX_dup : EVP_PKEY_CTX -> option EVP_PKEY_CTX
}.

Module Evp.
Section Contexts.
Context `{Allocator} `{Methods} `{!Engines}.

(** [update] is the digest whose method [ctx->update] is. *)
Record EVP_MD_CTX := mkMdCtx {
  digest : option md;
  engine : option ENGINE;
  flags : Z;
  data : option md_data;
  pctx : option EVP_PKEY_CTX;
  ctx_update : option md
}.

Definition EVP_MD_CTX_init : EVP_MD_CTX := mkMdCtx None None 0 None None None.
Definition EVP_MD_CTX_set_flags (fl : Z) (c : EVP_MD_CTX) : EVP_MD_CTX :=
  mkMdCtx (digest c) (engine c) (Z.lor (flags c) fl) (data c) (pctx c) (ctx_update c).
Definition EVP_MD_CTX_clear_flags (fl : Z) (c : EVP_MD_CTX) : EVP_MD_CTX :=
  mkMdCtx (digest c) (engine c) (Z.land (flags c) (Z.lnot fl)) (data c) (pctx c) (ctx_update c).
Definition EVP_MD_CTX_test_flags (c : EVP_MD_CTX) (fl : Z) : bool := negb (Z.land (flags c) fl =? 0).

(** Choosing the implementation: the digest to use, with the engine it comes from. *)
Definition select_engine (ty : option md) (impl : option ENGINE) : M EVP_MD_CTX (option md) := fun c =>
  match ty with
  | Some t =>
      match impl with
      | Some e => if ENGINE_init e then
          match ENGINE_get_digest e (type t) with
          | None => (None, c)
          | Some d => (Some (Some d), mkMdCtx (digest c) (Some e) (flags c) (data c) (pctx c) (ctx_update c))
          end
        else (None, c)
      | None =>
          match ENGINE_get_digest_engine (type t) with
          | Some e =>
              match ENGINE_get_digest e (type t) with
              | None => (None, c)
              | Some d => (Some (Some d), mkMdCtx (digest c) (Some e) (flags c) (data c) (pctx c) (ctx_update c))
              end
          | None => (Some (Some t), mkMdCtx (digest c) None (flags c) (data c) (pctx c) (ctx_update c))
          end
      end
  | None => match digest c with None => (None, c) | Some _ => (Some None, c) end
  end.

(** [if (ctx->digest != type) ...]: set the digest and allocate its state. *)
Definition set_digest (ty : option md) : M EVP_MD_CTX unit := fun c =>
  if decide (digest c = ty) then (Some tt, c)
  else
  let freed :=
    match digest c, data c with
    | Some d, Some _ => negb (ctx_size d =? 0) && negb (EVP_MD_CTX_test_flags c EVP_MD_CTX_FLAG_REUSE)
    | _, _ => false
    end in
  let c := mkMdCtx ty (engine c) (flags c) (if freed then None else data c) (pctx c) (ctx_update c) in
  match ty with
  | None => (None, c)   (* a NULL digest is dereferenced *)
  | Some t =>
      if (Z.land (flags c) EVP_MD_CTX_FLAG_NO_INIT =? 0) && negb (ctx_size t =? 0) then
        if malloc_ok (ctx_size t) then (Some tt, mkMdCtx ty (engine c) (flags c) (Some blank) (pctx c) (Some t))
        else (None, mkMdCtx ty (engine c) (flags c) None None (Some t))
      else (Some tt, c)
  end.

(** From [skip_to_init] on. *)
Definition init_digest : M EVP_MD_CTX unit := fun c =>
  let r := match pctx c with None => 1 | Some p => digestinit_ctrl p end in
  if (r <=? 0) && negb (r =? -2) then (None, c)
  else if negb (Z.land (flags c) EVP_MD_CTX_FLAG_NO_INIT =? 0) then (Some tt, c)
  else match digest c, data c with
  | Some d, Some dat =>
      match init d dat with
      | None => (None, c)
      | Some dat => (Some tt, mkMdCtx (digest c) (engine c) (flags c) (Some dat) (pctx c) (ctx_update c))
      end
  | _, _ => (None, c)
  end.

Definition EVP_DigestInit_ex (ty : option md) (impl : option ENGINE) : M EVP_MD_CTX unit := fun c =>
  let c := EVP_MD_CTX_clear_flags EVP_MD_CTX_FLAG_CLEANED c in
  let skip :=
    match engine c, digest c with
    | Some _, Some d => match ty with None => true | Some t => type t =? type d end
    | _, _ => false
    end in
  if skip then init_digest c
  else (ty ← select_engine ty impl; _ ← set_digest ty; init_digest) c.

Definition EVP_DigestInit (ty : option md) : M EVP_MD_CTX unit := fun _ => EVP_DigestInit_ex ty None EVP_MD_CTX_init.

Definition EVP_DigestUpdate (d : list Z) : M EVP_MD_CTX unit := fun c =>
  match ctx_update c, data c with
  | Some t, Some dat =>
      match update t d dat with
      | None => (None, c)
      | Some dat => (Some tt, mkMdCtx (digest c) (engine c) (flags c) (Some dat) (pctx c) (ctx_update c))
      end
  | _, _ => (None, c)
  end.

(** The digest and its size; the state is zeroed. *)
Definition EVP_DigestFinal_ex : M EVP_MD_CTX (list Z * Z) := fun c =>
  match digest c, data c with
  | Some d, Some dat =>
      if EVP_MAX_MD_SIZE <? md_size d then (None, c)
      else
      let '(r, dat) := md_final d dat in
      let c := match cleanup d with None => c | Some _ => EVP_MD_CTX_set_flags EVP_MD_CTX_FLAG_CLEANED c end in
      ((fun v => (v, md_size d)) <$> r, mkMdCtx (digest c) (engine c) (flags c) (Some blank) (pctx c) (ctx_update c))
  | _, _ => (None, c)
  end.

Definition EVP_MD_CTX_cleanup (c : EVP_MD_CTX) : EVP_MD_CTX := EVP_MD_CTX_init.
Definition EVP_DigestFinal : M EVP_MD_CTX (list Z * Z) := fun c =>
  let '(r, c) := EVP_DigestFinal_ex c in (r, EVP_MD_CTX_cleanup c).

(** The state is [out]; a buffer of the same digest is used again. *)
Definition EVP_MD_CTX_copy_ex (i : EVP_MD_CTX) : M EVP_MD_CTX unit := fun out =>
  match digest i with
  | None => (None, out)
  | Some d =>
      if match engine i with Some e => negb (ENGINE_init e) | None => false end then (None, out)
      else
      let tmp_buf := if decide (digest out = digest i) then data out else None in
      let dup :=
        match data i with
        | Some dat =>
            if negb (ctx_size d =? 0) then
              match tmp_buf with
              | Some _ => Some (Some dat)
              | None => if malloc_ok (ctx_size d) then Some (Some dat) else None
              end
            else Some (Some dat)
        | None => Some None
        end in
      match dup with
      | None => (None, mkMdCtx (digest i) (engine i) (flags i) None (pctx i) (ctx_update i))
      | Some dat =>
          let pc := match pctx i with None => Some None | Some p => Some <$> EVP_PKEY_CTX_dup p end in
          match pc with
          | None => (None, EVP_MD_CTX_init)
          | Some p =>
              let out := mkMdCtx (digest i) (engine i) (flags i) dat p (ctx_update i) in
              match md_copy d, dat, data i with
              | Some f, Some a, Some b =>
                  match f a b with
                  | Some a => (Some tt, mkMdCtx (digest out) (engine out) (flags out) (Some a) (pctx out) (ctx_update out))
                  | None => (None, out)
                  end
              | _, _, _ => (Some tt, out)
              end
          end
      end
  end.
Definition EVP_MD_CTX_copy (i : EVP_MD_CTX) : M EVP_MD_CTX unit := fun _ => EVP_MD_CTX_copy_ex i EVP_MD_CTX_init.

Definition EVP_Digest (d : list Z) (ty : option md) (impl : option ENGINE) : option (list Z * Z) :=
  fst ((_ ← EVP_DigestInit_ex ty impl; _ ← EVP_DigestUpdate d; EVP_DigestFinal_ex)
         (EVP_MD_CTX_set_flags EVP_MD_CTX_FLAG_ONESHOT EVP_MD_CTX_init)).
End Contexts.
End Evp.

(** ** The tables of m_sha1.c *)

Inductive sha2_md := sha224_md | sha256_md.
#[global] Instance sha2_md_eq : EqDecision sha2_md.
Proof. solve_decision. Defined.

Definition init224 (d : HASH_CTX) : option HASH_CTX := Some SHA224_Init.
Definition init256 (d : HASH_CTX) : option HASH_CTX := Some SHA256_Init.
Definition update256 (d : list Z) (c : HASH_CTX) : option HASH_CTX := Some (SHA256_Update d (zlen d) c).
Definition final256 (c : HASH_CTX) : option (list Z) * HASH_CTX := SHA256_Final c.

#[global] Instance sha2_methods : Methods := {|
  md := sha2_md;
  md_data := HASH_CTX;
  blank := mkHash (zeros 8) 0 0 (zeros 64) 0 0;
  type := fun m => match m with sha224_md => 675 | sha256_md => 672 end;
  md_size := fun m => match m with sha224_md => SHA224_DIGEST_LENGTH | sha256_md => SHA256_DIGEST_LENGTH end;
  block_size := fun _ => 64;
  ctx_size := fun _ => 8 + 112;
  init := fun m => match m with sha224_md => init224 | sha256_md => init256 end;
  update := fun _ => update256;
  md_final := fun _ => final256;
  md_copy := fun _ => None;
  cleanup := fun _ => None
|}.

(** ** What the users of digests rely on

    [md_hash] is the function a digest computes; [absorbs m d s]: the state [d] of the digest
    [m] has absorbed the bytes [s]. *)
Class MdLaws `{Methods} := {
  md_hash : md -> list Z -> list Z;
  absorbs : md -> md_data -> list Z -> Prop;
  md_init_ok m d : exists d', init m d = Some d' /\ absorbs m d' [];
  md_update_ok m d s x : absorbs m d s -> zlen x < 2 ^ 63 -> exists d', update m x d = Some d' /\ absorbs m d' (s ++ x);
  md_final_ok m d s : absorbs m d s -> Forall is_byte s -> fst (md_final m d) = Some (md_hash m s);
  md_hash_ok m s : zlen (md_hash m s) = md_size m /\ Forall is_byte (md_hash m s);
  md_sizes m : 0 < md_size m <= 64 /\ md_size m <= block_size m <= 128 /\ 0 < ctx_size m;
  md_plain m : md_copy m = None
}.

Section Contexts.
Context `{Allocator} `{Methods} `{!Engines} `{!MdLaws}.
(** No engine is registered for digests. *)
Context (no_engine : forall n, ENGINE_get_digest_engine n = None).

(** A context that can be started with the digest [m]: new, or used with it before. *)
Definition startable (m : md) (c : Evp.EVP_MD_CTX) : Prop :=
  Evp.engine c = None /\ Z.land (Evp.flags c) EVP_MD_CTX_FLAG_NO_INIT = 0 /\ Evp.pctx c = None /\
  ((Evp.digest c = None /\ malloc_ok (ctx_size m) = true) \/
   (Evp.digest c = Some m /\ Evp.ctx_update c = Some m /\ is_Some (Evp.data c))).
(** The context has absorbed the bytes [s]. *)
Definition digesting (m : md) (c : Evp.EVP_MD_CTX) (s : list Z) : Prop :=
  Evp.engine c = None /\ Z.land (Evp.flags c) EVP_MD_CTX_FLAG_NO_INIT = 0 /\ Evp.pctx c = None /\
  Evp.digest c = Some m /\ Evp.ctx_update c = Some m /\ exists d, Evp.data c = Some d /\ absorbs m d s.

Lemma new_startable m : malloc_ok (ctx_size m) = true -> startable m Evp.EVP_MD_CTX_init.
Proof. intros Hm. unfold startable. cbn. split_and!; try done. by left. Qed.
Lemma digesting_startable m c s : digesting m c s -> startable m c.
Proof. intros (He & Hf & Hp & Hd & Hu & d & Hdat & _). repeat split; try done. right. by rewrite Hdat. Qed.

Lemma flags_cleared fl : Z.land fl EVP_MD_CTX_FLAG_NO_INIT = 0 -> Z.land (Z.land fl (Z.lnot EVP_MD_CTX_FLAG_CLEANED)) EVP_MD_CTX_FLAG_NO_INIT = 0.
Proof. intros Hf. by rewrite <- Z.land_assoc, (Z.land_comm (Z.lnot _)), Z.land_assoc, Hf. Qed.

Lemma DigestInit_ok m c : startable m c -> exists c', Evp.EVP_DigestInit_ex (Some m) None c = (Some tt, c') /\ digesting m c' [].
Proof.
  destruct c as [dg en fl dat pc up]. unfold startable. cbn. intros (-> & Hf & -> & Hd). unfold Evp.EVP_DigestInit_ex. cbn.
  unfold Evp.EVP_MD_CTX_clear_flags. cbn. unfold mbind, M_bind, Evp.select_engine. rewrite no_engine.
  apply flags_cleared in Hf. set (fl' := Z.land fl _) in *. clearbody fl'. unfold Evp.set_digest. cbn [Evp.digest Evp.data Evp.engine Evp.flags Evp.pctx Evp.ctx_update].
  pose proof (md_sizes m) as (_ & _ & Hcs).
  destruct Hd as [[-> Ha]|(-> & -> & dat0 & ->)].
  - rewrite decide_False by done. rewrite Hf, Ha. rewrite (proj2 (Z.eqb_neq (ctx_size m) 0)) by lia. cbn [andb negb Z.eqb].
    unfold Evp.init_digest. cbn. rewrite Hf. cbn. destruct (md_init_ok m blank) as (d' & -> & Hab). eexists. split; [reflexivity|].
    unfold digesting. cbn. split_and!; try done. by exists d'.
  - rewrite decide_True by done. unfold Evp.init_digest. cbn. rewrite Hf. cbn.
    destruct (md_init_ok m dat0) as (d' & -> & Hab). eexists. split; [reflexivity|]. unfold digesting. cbn. split_and!; try done. by exists d'.
Qed.
Lemma DigestInit_nomem m : malloc_ok (ctx_size m) = false -> fst (Evp.EVP_DigestInit_ex (Some m) None Evp.EVP_MD_CTX_init) = None.
Proof.
  intros Ha. unfold Evp.EVP_DigestInit_ex. cbn. unfold mbind, M_bind, Evp.select_engine. rewrite no_engine. unfold Evp.set_digest. cbn.
  pose proof (md_sizes m) as (_ & _ & Hcs). rewrite decide_False, Ha, (proj2 (Z.eqb_neq (ctx_size m) 0)) by (done || lia). done.
Qed.
Lemma DigestUpdate_ok m c s x : digesting m c s -> zlen x < 2 ^ 63 -> exists c', Evp.EVP_DigestUpdate x c = (Some tt, c') /\ digesting m c' (s ++ x).
Proof.
  intros (He & Hf & Hp & Hd & Hu & d & Hdat & Hab) Hx. unfold Evp.EVP_DigestUpdate. rewrite Hu, Hdat.
  destruct (md_update_ok m d s x Hab Hx) as (d' & -> & Hab'). eexists. split; [reflexivity|]. unfold digesting. cbn. split_and!; try done. by exists d'.
Qed.
Lemma DigestFinal_ok m c s :
  digesting m c s -> Forall is_byte s -> exists c', Evp.EVP_DigestFinal_ex c = (Some (md_hash m s, md_size m), c') /\ startable m c'.
Proof.
  intros (He & Hf & Hp & Hd & Hu & d & Hdat & Hab) Hs. unfold Evp.EVP_DigestFinal_ex. rewrite Hd, Hdat.
  pose proof (md_sizes m) as (Hsz & _). unfold EVP_MAX_MD_SIZE. rewrite (proj2 (Z.ltb_ge 64 (md_size m))) by lia.
  pose proof (md_final_ok m d s Hab Hs) as Hfin. destruct (md_final m d) as [r dat']. cbn [fst] in Hfin. subst r. cbn [fmap option_fmap option_map].
  eexists. split; [reflexivity|]. destruct (cleanup m); refine (conj He (conj _ (conj Hp (or_intror (conj Hd (conj Hu _)))))); cbn; eauto.
  by rewrite Z.land_lor_distr_l, Hf.
Qed.
Lemma copy_ok m c s out :
  digesting m c s -> startable m out -> exists out', Evp.EVP_MD_CTX_copy_ex c out = (Some tt, out') /\ digesting m out' s.
Proof.
  intros (He & Hf & Hp & Hd & Hu & d & Hdat & Hab) (He' & Hf' & Hp' & Ho). unfold Evp.EVP_MD_CTX_copy_ex.
  pose proof (md_sizes m) as (_ & _ & Hcs). rewrite Hd, He, Hp, Hdat, (md_plain m), (proj2 (Z.eqb_neq (ctx_size m) 0)) by lia. cbn [negb].
  assert (Hdig : digesting m (Evp.mkMdCtx (Some m) None (Evp.flags c) (Some d) None (Evp.ctx_update c)) s) by (unfold digesting; cbn; split_and!; try done; by exists d).
  destruct Ho as [[Ho Ha]|(Ho & _ & dat0 & Ho2)]; rewrite Ho.
  - rewrite decide_False by done. rewrite Ha. eexists. split; [reflexivity|done].
  - rewrite decide_True by done. rewrite Ho2. eexists. split; [reflexivity|done].
Qed.

(** One-shot digests. *)
Lemma EVP_Digest_ok m x :
  Forall is_byte x -> zlen x < 2 ^ 63 ->
  Evp.EVP_Digest x (Some m) None = if malloc_ok (ctx_size m) then Some (md_hash m x, md_size m) else None.
Proof.
  intros Hx Hl. unfold Evp.EVP_Digest. set (c0 := Evp.EVP_MD_CTX_set_flags _ _).
  destruct (malloc_ok (ctx_size m)) eqn:Ha.
  - destruct (DigestInit_ok m c0) as (c1 & E1 & Hc1); [exact (conj eq_refl (conj eq_refl (conj eq_refl (or_introl (conj eq_refl Ha)))))|].
    rewrite (bind_some _ _ _ _ _ E1). destruct (DigestUpdate_ok m c1 [] x Hc1 Hl) as (c2 & E2 & Hc2). rewrite (bind_some _ _ _ _ _ E2).
    destruct (DigestFinal_ok m c2 x Hc2 Hx) as (c3 & E3 & _). by rewrite E3.
  - rewrite bind_eq. assert (E : fst (Evp.EVP_DigestInit_ex (Some m) None c0) = None).
    { unfold Evp.EVP_DigestInit_ex. cbn. unfold mbind, M_bind, Evp.select_engine. rewrite no_engine. unfold Evp.set_digest. cbn.
      pose proof (md_sizes m) as (_ & _ & Hcs). rewrite decide_False, Ha, (proj2 (Z.eqb_neq (ctx_size m) 0)) by (done || lia). done. }
    destruct (Evp.EVP_DigestInit_ex (Some m) None c0) as [[[]|] c1]; done.
Qed.
End Contexts.

(** ** SHA-2 keeps the promise *)
#[global] Program Instance sha2_laws : MdLaws := {|
  md_hash := fun m => match m with sha224_md => fips_digest sha224_iv 7 | sha256_md => fips_digest sha256_iv 8 end;
  absorbs := fun m d s =>
    match m with sha224_md => hashed sha256_block sha224_iv 28 d s | sha256_md => hashed sha256_block sha256_iv 32 d s end
|}.
Next Obligation. intros [] d; (eexists; split; [reflexivity|apply init_hashed]). Qed.
Next Obligation.
  intros m d s x Hab Hx. exists (SHA256_Update x (zlen x) d). split; [done|].
  destruct m; (pose proof (HASH_UPDATE_hashed sha256_block _ _ d s x (zlen x) Hab ltac:(zl) ltac:(lia)) as Hu; by rewrite ztake_ge in Hu by lia).
Qed.
Next Obligation.
  intros [] d s Hab Hs; cbn.
  - apply (SHA256_Final_spec sha224_iv 28 d s); auto.
  - apply (SHA256_Final_spec sha256_iv 32 d s); auto.
Qed.
Next Obligation. intros [] s; [apply (fips_digest_ok sha224_iv 7)|apply (fips_digest_ok sha256_iv 8)]; (done || lia). Qed.
Next Obligation. intros []; cbn; unfold SHA224_DIGEST_LENGTH, SHA256_DIGEST_LENGTH; lia. Qed.
Next Obligation. done. Qed.
