(* ===== verification/Hmac.v ===== *)
(** * HMAC (crypto/hmac/hmac.c)

    An [HMAC_CTX] holds three digest contexts: the inner and the outer one, started with the
    padded key, and the working one, a copy of the inner one that absorbs the message. *)
From S2P Require Import Prelude Compat Words EvpDigest.

Definition HMAC_MAX_MD_CBLOCK : Z := 128.

Section Hmac.
Context `{Allocator} `{Methods} `{!Engines}.

Record HMAC_CTX := mkHmac {
  hm_md : option md;
  md_ctx : Evp.EVP_MD_CTX;
  i_ctx : Evp.EVP_MD_CTX;
  o_ctx : Evp.EVP_MD_CTX;
  key_length : Z;
  hm_key : list Z
}.

Definition set_md (m : option md) (c : HMAC_CTX) : HMAC_CTX := mkHmac m (md_ctx c) (i_ctx c) (o_ctx c) (key_length c) (hm_key c).
Definition set_key (n : Z) (k : list Z) (c : HMAC_CTX) : HMAC_CTX := mkHmac (hm_md c) (md_ctx c) (i_ctx c) (o_ctx c) n k.
(** Calls on one of the digest contexts. *)
Definition on_md {A} (m : M Evp.EVP_MD_CTX A) : M HMAC_CTX A := fun c =>
  let '(r, x) := m (md_ctx c) in (r, mkHmac (hm_md c) x (i_ctx c) (o_ctx c) (key_length c) (hm_key c)).
Definition on_i {A} (m : M Evp.EVP_MD_CTX A) : M HMAC_CTX A := fun c =>
  let '(r, x) := m (i_ctx c) in (r, mkHmac (hm_md c) (md_ctx c) x (o_ctx c) (key_length c) (hm_key c)).
Definition on_o {A} (m : M Evp.EVP_MD_CTX A) : M HMAC_CTX A := fun c =>
  let '(r, x) := m (o_ctx c) in (r, mkHmac (hm_md c) (md_ctx c) (i_ctx c) x (key_length c) (hm_key c)).

(** The key, hashed if it is longer than a block, in the array padded with zeros. *)
Definition load_key (m : md) (key : list Z) (len : Z) (impl : option ENGINE) : M HMAC_CTX unit :=
  let j := block_size m in
  if HMAC_MAX_MD_CBLOCK <? j then fail
  else
  _ ← (if j <? len then
         _ ← on_md (Evp.EVP_DigestInit_ex (Some m) impl);
         _ ← on_md (Evp.EVP_DigestUpdate (ztake len key));
         '(d, n) ← on_md Evp.EVP_DigestFinal_ex;
         modS (fun c => set_key n (overwrite (hm_key c) 0 d) c)
       else if (len <? 0) || (HMAC_MAX_MD_CBLOCK <? len) then fail
       else modS (fun c => set_key len (overwrite (hm_key c) 0 (ztake len key)) c));
  modS (fun c => if negb (key_length c =? HMAC_MAX_MD_CBLOCK)
                 then set_key (key_length c) (overwrite (hm_key c) (key_length c) (zeros (HMAC_MAX_MD_CBLOCK - key_length c))) c else c).

(** [pad[i] = b ^ ctx->key[i]] for the whole array. *)
Definition key_pad (b : Z) (c : HMAC_CTX) : list Z := Z.lxor b <$> ztake HMAC_MAX_MD_CBLOCK (hm_key c).

Definition start_pads (m : md) (impl : option ENGINE) : M HMAC_CTX unit :=
  c ← getS;
  _ ← on_i (Evp.EVP_DigestInit_ex (Some m) impl);
  _ ← on_i (Evp.EVP_DigestUpdate (ztake (block_size m) (key_pad 0x36 c)));
  _ ← on_o (Evp.EVP_DigestInit_ex (Some m) impl);
  on_o (Evp.EVP_DigestUpdate (ztake (block_size m) (key_pad 0x5c c))).

(** [EVP_MD_CTX_copy_ex(&ctx->md_ctx, &ctx->i_ctx)] and from [o_ctx]. *)
Definition restart_inner : M HMAC_CTX unit := fun c => on_md (Evp.EVP_MD_CTX_copy_ex (i_ctx c)) c.
Definition restart_outer : M HMAC_CTX unit := fun c => on_md (Evp.EVP_MD_CTX_copy_ex (o_ctx c)) c.

(** [None] for [key] is NULL; [len] is an [int]. *)
Definition HMAC_Init_ex (key : option (list Z)) (len : Z) (ty : option md) (impl : option ENGINE) : M HMAC_CTX unit := fun c =>
  let no_key := match key with None => true | Some _ => len <? 0 end in
  if match ty with Some m => negb (bool_decide (hm_md c = Some m)) && no_key | None => false end then (None, c)
  else
  let c := match ty with Some m => set_md (Some m) c | None => c end in
  match hm_md c with
  | None => (None, c)
  | Some m =>
      let reset := match ty, key with None, None => false | _, _ => true end in
      (_ ← (match key with Some k => load_key m k len impl | None => mret tt end);
       _ ← (if reset : bool then start_pads m impl else mret tt);
       restart_inner) c
  end.

Definition HMAC_CTX_init (c : HMAC_CTX) : HMAC_CTX :=
  mkHmac None Evp.EVP_MD_CTX_init Evp.EVP_MD_CTX_init Evp.EVP_MD_CTX_init (key_length c) (hm_key c).

Definition HMAC_Init (key : option (list Z)) (len : Z) (ty : option md) : M HMAC_CTX unit := fun c =>
  let c := match key, ty with Some _, Some _ => HMAC_CTX_init c | _, _ => c end in HMAC_Init_ex key len ty None c.

Definition HMAC_Update (d : list Z) : M HMAC_CTX unit := fun c =>
  match hm_md c with None => (None, c) | Some _ => on_md (Evp.EVP_DigestUpdate d) c end.

Definition HMAC_Final : M HMAC_CTX (list Z * Z) := fun c =>
  match hm_md c with
  | None => (None, c)
  | Some _ =>
      ('(buf, i) ← on_md Evp.EVP_DigestFinal_ex;
       _ ← restart_outer;
       _ ← on_md (Evp.EVP_DigestUpdate (ztake i buf));
       on_md Evp.EVP_DigestFinal_ex) c
  end.

(** A context on the stack, not initialised. *)
Definition blank_hmac : HMAC_CTX :=
  mkHmac None Evp.EVP_MD_CTX_init Evp.EVP_MD_CTX_init Evp.EVP_MD_CTX_init 0 (zeros HMAC_MAX_MD_CBLOCK).

Definition sizeof_hmac_ctx : Z := 288.
Definition HMAC_CTX_new : option HMAC_CTX := if malloc_ok sizeof_hmac_ctx then Some (HMAC_CTX_init blank_hmac) else None.
Definition HMAC_CTX_cleanup (c : HMAC_CTX) : HMAC_CTX := blank_hmac.
Definition HMAC_CTX_reset (c : HMAC_CTX) : HMAC_CTX := HMAC_CTX_init (HMAC_CTX_cleanup c).
Definition HMAC_CTX_get_md (c : HMAC_CTX) : option md := hm_md c.
Definition HMAC_CTX_copy (s : HMAC_CTX) : M HMAC_CTX unit :=
  _ ← on_i (Evp.EVP_MD_CTX_copy (i_ctx s));
  _ ← on_o (Evp.EVP_MD_CTX_copy (o_ctx s));
  _ ← on_md (Evp.EVP_MD_CTX_copy (md_ctx s));
  modS (fun d => mkHmac (hm_md s) (md_ctx d) (i_ctx d) (o_ctx d) (key_length s) (ztake HMAC_MAX_MD_CBLOCK (hm_key s))).
Definition HMAC_CTX_set_flags (fl : Z) (c : HMAC_CTX) : HMAC_CTX :=
  mkHmac (hm_md c) (Evp.EVP_MD_CTX_set_flags fl (md_ctx c)) (Evp.EVP_MD_CTX_set_flags fl (i_ctx c))
    (Evp.EVP_MD_CTX_set_flags fl (o_ctx c)) (key_length c) (hm_key c).

(** The code and its length; [None] is NULL. *)
Definition HMAC (evp_md : option md) (key : option (list Z)) (key_len : Z) (d : list Z) : option (list Z * Z) :=
  fst ((_ ← HMAC_Init key key_len evp_md; _ ← HMAC_Update d; HMAC_Final) (HMAC_CTX_init blank_hmac)).
End Hmac.

(** ** The function of RFC 2104 *)
Section Spec.
Context `{Methods} `{!MdLaws}.

(** The key as a block: hashed if too long, padded with zeros. *)
Definition hmac_block (m : md) (k : list Z) : list Z :=
  let k0 := if block_size m <? zlen k then md_hash m k else k in ztake (block_size m) (k0 ++ zeros HMAC_MAX_MD_CBLOCK).
Definition hmac_pad (b : Z) (m : md) (k : list Z) : list Z := Z.lxor b <$> hmac_block m k.
Definition hmac (m : md) (k x : list Z) : list Z :=
  md_hash m (hmac_pad 0x5c m k ++ md_hash m (hmac_pad 0x36 m k ++ x)).

Lemma zlen_hmac_pad b m k : zlen (hmac_pad b m k) = block_size m.
Proof.
  pose proof (md_sizes m) as (Hs & Hb & _). unfold hmac_pad, zlen at 1. rewrite length_fmap. fold (zlen (hmac_block m k)). unfold hmac_block, HMAC_MAX_MD_CBLOCK.
  rewrite zlen_ztake, zlen_app, zlen_zeros by lia. zl_pose. lia.
Qed.
Lemma hmac_pad_bytes b m k : is_byte b -> Forall is_byte k -> Forall is_byte (hmac_pad b m k).
Proof.
  intros Hb Hk. apply Forall_fmap. eapply Forall_impl; [|intros x Hx; cbn [compose]; by apply lxor_byte].
  unfold hmac_block. apply Forall_ztake, Forall_app. split; [|auto with bytes]. destruct (_ <? _); [apply md_hash_ok|done].
Qed.
End Spec.

Section Proofs.
Context `{Allocator} `{Methods} `{!Engines} `{!MdLaws}.
Context (no_engine : forall n, ENGINE_get_digest_engine n = None).

(** The pads are in place, and the working context may be used. *)
Definition ready (m : md) (k : list Z) (c : HMAC_CTX) : Prop :=
  hm_md c = Some m /\ digesting m (i_ctx c) (hmac_pad 0x36 m k) /\ digesting m (o_ctx c) (hmac_pad 0x5c m k) /\ startable m (md_ctx c).
(** The working context has absorbed the message [x] so far. *)
Definition macing (m : md) (k : list Z) (c : HMAC_CTX) (x : list Z) : Prop :=
  ready m k c /\ digesting m (md_ctx c) (hmac_pad 0x36 m k ++ x).

(** A context in which the digest [m] can be started, with its key array. *)
Definition fresh (m : md) (c : HMAC_CTX) : Prop :=
  hm_md c = Some m /\ startable m (md_ctx c) /\ startable m (i_ctx c) /\ startable m (o_ctx c) /\ zlen (hm_key c) = 128.

Lemma on_md_some {A} (f : M Evp.EVP_MD_CTX A) c r x : f (md_ctx c) = (r, x) -> on_md f c = (r, mkHmac (hm_md c) x (i_ctx c) (o_ctx c) (key_length c) (hm_key c)).
Proof. unfold on_md. by intros ->. Qed.
Lemma on_i_some {A} (f : M Evp.EVP_MD_CTX A) c r x : f (i_ctx c) = (r, x) -> on_i f c = (r, mkHmac (hm_md c) (md_ctx c) x (o_ctx c) (key_length c) (hm_key c)).
Proof. unfold on_i. by intros ->. Qed.
Lemma on_o_some {A} (f : M Evp.EVP_MD_CTX A) c r x : f (o_ctx c) = (r, x) -> on_o f c = (r, mkHmac (hm_md c) (md_ctx c) (i_ctx c) x (key_length c) (hm_key c)).
Proof. unfold on_o. by intros ->. Qed.

Lemma load_key_ok m k c :
  fresh m c -> Forall is_byte k -> zlen k < 2 ^ 63 ->
  exists c', load_key m k (zlen k) None c = (Some tt, c') /\ fresh m c' /\ ztake (block_size m) (hm_key c') = hmac_block m k.
Proof.
  intros (Hmd & Hm & Hi & Ho & Hk) Hb Hl. pose proof (md_sizes m) as (Hs & Hbs & _). unfold load_key, HMAC_MAX_MD_CBLOCK.
  rewrite (proj2 (Z.ltb_ge 128 (block_size m))) by lia.
  assert (Hpad : forall c1 k0, fresh m c1 -> zlen k0 <= block_size m -> ztake (zlen k0) (hm_key c1) = k0 -> key_length c1 = zlen k0 ->
    exists c', modS (fun c => if negb (key_length c =? 128) then set_key (key_length c) (overwrite (hm_key c) (key_length c) (zeros (128 - key_length c))) c else c) c1
                 = (Some tt, c') /\ fresh m c' /\ ztake (block_size m) (hm_key c') = ztake (block_size m) (k0 ++ zeros 128)).
  { intros c1 k0 (F1 & F2 & F3 & F4 & Hk1) Hk0 Ht Hn. pose proof (zlen_nonneg k0). unfold modS. eexists. split; [reflexivity|]. rewrite Hn.
    assert (Ez : forall j, j <= 128 -> ztake j (k0 ++ zeros (128 - zlen k0)) = ztake j (k0 ++ zeros 128)).
    { intros j Hj. replace (zeros 128) with (zeros (128 - zlen k0) ++ zeros (zlen k0)) by (unfold zeros; rewrite <- replicate_add; f_equal; lia).
      rewrite app_assoc, (ztake_app_l j (k0 ++ zeros (128 - zlen k0))); [done|]. rewrite zlen_app, zlen_zeros by lia. lia. }
    destruct (Z.eqb_spec (zlen k0) 128) as [E|E]; cbn [negb].
    - split; [done|]. rewrite ztake_app_l by lia. rewrite <- Ht, ztake_ztake. f_equal. lia.
    - split; [refine (conj F1 (conj F2 (conj F3 (conj F4 _)))); cbn [set_key hm_key]; rewrite zlen_overwrite by (rewrite ?zlen_zeros; lia); done|]. cbn [set_key hm_key].
      unfold overwrite. rewrite Ht, zdrop_ge, app_nil_r by (rewrite zlen_zeros by lia; lia). apply Ez. lia. }
  unfold hmac_block. destruct (Z.ltb_spec (block_size m) (zlen k)) as [Hlong|Hshort].
  - destruct (DigestInit_ok no_engine m (md_ctx c) Hm) as (x1 & E1 & D1).
    destruct (DigestUpdate_ok m x1 [] (ztake (zlen k) k) D1) as (x2 & E2 & D2); [zl|].
    rewrite ztake_ge in E2, D2 by lia. destruct (DigestFinal_ok m x2 k D2 Hb) as (x3 & E3 & S3). pose proof (md_hash_ok m k) as [Hz _].
    set (c1 := mkHmac (hm_md c) x3 (i_ctx c) (o_ctx c) (md_size m) (overwrite (hm_key c) 0 (md_hash m k))).
    destruct (Hpad c1 (md_hash m k)) as (c' & E & Hc'); [refine (conj Hmd (conj S3 (conj Hi (conj Ho _)))); cbn [c1 hm_key]; rewrite zlen_overwrite; lia|lia|apply ztake_overwrite_0|by rewrite Hz|].
    exists c'. split; [|exact Hc']. rewrite <- E. rewrite (ztake_ge (zlen k) k) by lia.
    erewrite (bind_some _ _ c); [done|].
    erewrite bind_some by (apply on_md_some; exact E1). erewrite bind_some by (apply on_md_some; exact E2).
    erewrite bind_some by (apply on_md_some; exact E3). done.
  - rewrite (proj2 (Z.ltb_ge (zlen k) 0)), (proj2 (Z.ltb_ge 128 (zlen k))) by zl. cbn [orb].
    set (c1 := set_key (zlen k) (overwrite (hm_key c) 0 (ztake (zlen k) k)) c).
    destruct (Hpad c1 k) as (c' & E & Hc').
    + refine (conj Hmd (conj Hm (conj Hi (conj Ho _)))). cbn [c1 set_key hm_key]. rewrite zlen_overwrite by (rewrite ?zlen_ztake by zl; zl). done.
    + done.
    + cbn [c1 set_key hm_key]. rewrite (ztake_ge (zlen k) k) by lia. apply ztake_overwrite_0.
    + done.
    + exists c'. split; [|exact Hc']. rewrite <- E. done.
Qed.

Lemma key_pad_block b m k c :
  zlen (hm_key c) = 128 -> ztake (block_size m) (hm_key c) = hmac_block m k -> block_size m <= 128 -> ztake (block_size m) (key_pad b c) = hmac_pad b m k.
Proof.
  intros Hk Hb Hle. unfold key_pad, hmac_pad, HMAC_MAX_MD_CBLOCK. rewrite <- Hb. rewrite (ztake_ge 128 (hm_key c)) by lia. unfold ztake. by rewrite fmap_take.
Qed.

Lemma start_pads_ok m k c :
  fresh m c -> ztake (block_size m) (hm_key c) = hmac_block m k -> exists c', start_pads m None c = (Some tt, c') /\ ready m k c'.
Proof.
  intros (Hmd & Hm & Hi & Ho & Hk) Hkey. pose proof (md_sizes m) as (Hsz & Hbs & _). unfold start_pads. mstep reflexivity.
  rewrite !(key_pad_block _ m k c) by (done || lia).
  destruct (DigestInit_ok no_engine m (i_ctx c) Hi) as (i1 & E1 & D1). destruct (DigestUpdate_ok m i1 [] (hmac_pad 0x36 m k) D1) as (i2 & E2 & D2); [rewrite zlen_hmac_pad; lia|].
  destruct (DigestInit_ok no_engine m (o_ctx c) Ho) as (o1 & E3 & D3). destruct (DigestUpdate_ok m o1 [] (hmac_pad 0x5c m k) D3) as (o2 & E4 & D4); [rewrite zlen_hmac_pad; lia|].
  erewrite bind_some by (apply on_i_some; exact E1). erewrite bind_some by (apply on_i_some; exact E2).
  erewrite bind_some by (apply on_o_some; exact E3). erewrite on_o_some by exact E4. eexists. split; [reflexivity|]. done.
Qed.

Lemma restart_inner_ok m k c : ready m k c -> exists c', restart_inner c = (Some tt, c') /\ macing m k c' [].
Proof.
  intros (Hmd & Hi & Ho & Hs). destruct (copy_ok m (i_ctx c) _ (md_ctx c) Hi Hs) as (x & E & D). unfold restart_inner. rewrite (on_md_some _ _ _ x E).
  eexists. split; [reflexivity|]. unfold macing. rewrite app_nil_r. split; [|done]. split_and!; try done. by eapply digesting_startable.
Qed.

(** Starting with a key, on new contexts. *)
Lemma HMAC_Init_ok m k c :
  Forall is_byte k -> zlen k < 2 ^ 63 -> malloc_ok (ctx_size m) = true -> zlen (hm_key c) = 128 ->
  exists c', HMAC_Init_ex (Some k) (zlen k) (Some m) None (HMAC_CTX_init c) = (Some tt, c') /\ macing m k c' [].
Proof.
  intros Hb Hl Ha Hk. unfold HMAC_Init_ex. rewrite (proj2 (Z.ltb_ge (zlen k) 0)) by zl. rewrite andb_false_r. cbn [set_md hm_md].
  assert (Hst : startable m Evp.EVP_MD_CTX_init) by (exact (conj eq_refl (conj eq_refl (conj eq_refl (or_introl (conj eq_refl Ha)))))).
  destruct (load_key_ok m k (set_md (Some m) (HMAC_CTX_init c))) as (c1 & E1 & F1 & K1); [done|done|done|].
  rewrite (bind_some _ _ _ _ _ E1). destruct (start_pads_ok m k c1 F1 K1) as (c2 & E2 & R2). rewrite (bind_some _ _ _ _ _ E2).
  by apply restart_inner_ok.
Qed.
Lemma HMAC_restart_ok m k c : ready m k c -> exists c', HMAC_Init_ex None 0 None None c = (Some tt, c') /\ macing m k c' [].
Proof. intros Hr. unfold HMAC_Init_ex. rewrite (proj1 Hr). by apply restart_inner_ok. Qed.
Lemma HMAC_Update_ok m k c s x : macing m k c s -> zlen x < 2 ^ 63 -> exists c', HMAC_Update x c = (Some tt, c') /\ macing m k c' (s ++ x).
Proof.
  intros [(Hmd & Hi & Ho & Hs) Hd] Hx. unfold HMAC_Update. rewrite Hmd. destruct (DigestUpdate_ok m (md_ctx c) _ x Hd Hx) as (y & E & D).
  rewrite (on_md_some _ _ _ y E). eexists. split; [reflexivity|]. unfold macing. cbn [md_ctx]. rewrite app_assoc. split; [|done].
  split_and!; try done. by eapply digesting_startable.
Qed.
Lemma HMAC_Final_ok m k c x :
  macing m k c x -> Forall is_byte k -> Forall is_byte x -> exists c', HMAC_Final c = (Some (hmac m k x, md_size m), c') /\ ready m k c'.
Proof.
  intros [(Hmd & Hi & Ho & Hs) Hd] Hk Hx. unfold HMAC_Final. rewrite Hmd. pose proof (md_sizes m) as (Hsz & _).
  destruct (DigestFinal_ok m (md_ctx c) _ Hd) as (x1 & E1 & S1); [apply Forall_app; split; [apply hmac_pad_bytes; [unfold is_byte; lia|done]|done]|].
  erewrite bind_some by (apply on_md_some; exact E1). destruct (copy_ok m (o_ctx c) _ x1 Ho S1) as (x2 & E2 & D2).
  set (inner := md_hash m (hmac_pad 0x36 m k ++ x)) in *. pose proof (md_hash_ok m (hmac_pad 0x36 m k ++ x)) as [Hz Hbi]. fold inner in Hz, Hbi.
  unfold restart_outer. erewrite bind_some by (apply on_md_some; exact E2). cbn [fst snd].
  rewrite (ztake_ge (md_size m) inner) by lia.
  destruct (DigestUpdate_ok m x2 _ inner D2) as (x3 & E3 & D3); [lia|]. erewrite bind_some by (apply on_md_some; exact E3).
  destruct (DigestFinal_ok m x3 _ D3) as (x4 & E4 & S4); [apply Forall_app; split; [apply hmac_pad_bytes; [unfold is_byte; lia|done]|done]|].
  erewrite on_md_some by exact E4. eexists. split; [reflexivity|]. done.
Qed.

Lemma HMAC_Init_nomem m k c : malloc_ok (ctx_size m) = false -> fst (HMAC_Init_ex (Some k) (zlen k) (Some m) None (HMAC_CTX_init c)) = None.
Proof.
  intros Ha. unfold HMAC_Init_ex. rewrite (proj2 (Z.ltb_ge (zlen k) 0)) by zl. rewrite andb_false_r. cbn [set_md hm_md].
  assert (Hst : forall c1, i_ctx c1 = Evp.EVP_MD_CTX_init -> exists c2, start_pads m None c1 = (None, c2)).
  { intros c1 Hc. unfold start_pads. rewrite bind_eq. cbn [getS]. rewrite bind_eq. unfold on_i at 1. rewrite Hc. pose proof (DigestInit_nomem no_engine m Ha) as E.
    destruct (Evp.EVP_DigestInit_ex _ _ _) as [[]?]; [done|]. eauto. }
  rewrite bind_eq. destruct (load_key _ _ _ _ _) as [[[]|] c1] eqn:E; [|done].
  destruct (Hst c1) as (c2 & E2); [|by rewrite (bind_none _ _ _ _ E2)].
  unfold load_key in E. destruct (_ <? block_size m); [done|]. apply bind_inv in E as ([] & c3 & E3 & E4).
  assert (E5 : i_ctx c1 = i_ctx c3) by (unfold modS in E4; injection E4 as <-; by destruct (negb _)). rewrite E5. clear E4 E5.
  destruct (_ <? zlen k).
  - apply bind_inv in E3 as ([] & c4 & E4 & E3). apply bind_inv in E3 as ([] & c5 & E5 & E3). apply bind_inv in E3 as ([d n] & c6 & E6 & E3).
    unfold modS in E3. injection E3 as <-. unfold on_md in E4, E5, E6.
    repeat match goal with H : (let '(_, _) := ?f _ in _) = _ |- _ => destruct (f _); injection H as -> <- end. done.
  - destruct (_ || _); [done|]. unfold modS in E3. by injection E3 as <-.
Qed.

Lemma HMAC_ok m k x :
  Forall is_byte k -> Forall is_byte x -> zlen k < 2 ^ 31 -> zlen x < 2 ^ 63 ->
  HMAC (Some m) (Some k) (zlen k) x = if malloc_ok (ctx_size m) then Some (hmac m k x, md_size m) else None.
Proof.
  intros Hk Hx Hlk Hlx. unfold HMAC.
  destruct (malloc_ok (ctx_size m)) eqn:Ha.
  - destruct (HMAC_Init_ok m k (HMAC_CTX_init blank_hmac)) as (c1 & E1 & M1); [done|lia|done|done|].
    change (HMAC_Init (Some k) (zlen k) (Some m) (HMAC_CTX_init blank_hmac) = (Some tt, c1)) in E1. rewrite (bind_some _ _ _ _ _ E1). destruct (HMAC_Update_ok m k c1 [] x M1 Hlx) as (c2 & E2 & M2). rewrite (bind_some _ _ _ _ _ E2).
    destruct (HMAC_Final_ok m k c2 x M2 Hk Hx) as (c3 & E3 & _). by rewrite E3.
  - pose proof (HMAC_Init_nomem m k (HMAC_CTX_init blank_hmac) Ha) as E.
    change (fst (HMAC_Init (Some k) (zlen k) (Some m) (HMAC_CTX_init blank_hmac)) = None) in E. rewrite bind_eq.
    destruct (HMAC_Init _ _ _ _) as [[]?]; [done|done].
Qed.

(** C37: [HMAC] computes the function of RFC 2104: whatever the key length (short keys are padded with zeros, keys
    longer than a block are hashed first) and the message, the result is H(K ^ opad, H(K ^ ipad, text)) with the
    digest's size, unless no memory for the digest states is available, in which case it is NULL; with a NULL key it
    is always NULL. *)
Theorem hmac_computes_rfc2104 m k x :
  Forall is_byte k -> Forall is_byte x -> zlen k < 2 ^ 31 -> zlen x < 2 ^ 63 ->
  HMAC (Some m) (Some k) (zlen k) x = (if malloc_ok (ctx_size m) then Some (hmac m k x, md_size m) else None) /\
  HMAC (Some m) None (zlen k) x = None.
Proof. intros. split; [by apply HMAC_ok|done]. Qed.
End Proofs.

(** No engines and no public key contexts. *)
#[global] Instance no_engines `{Methods} : Engines := {|
  ENGINE := Empty_set;
  ENGINE_init := fun _ => false;
  ENGINE_get_digest_engine := fun _ => None;
  ENGINE_get_digest := fun _ _ => None;
  EVP_PKEY_CTX := Empty_set;
  digestinit_ctrl := fun _ => 1;
  EVP_PKEY_CTX_dup := fun _ => None
|}.
#[local] Instance plenty : Allocator := {| malloc_ok := fun _ => true; getpagesize := 4096 |}.

(** RFC 4231, test case 2: the key "Jefe". *)
Definition jefe : list Z := [0x4a; 0x65; 0x66; 0x65].
Definition what_do_ya_want : list Z :=
  [0x77;0x68;0x61;0x74;0x20;0x64;0x6f;0x20;0x79;0x61;0x20;0x77;0x61;0x6e;0x74;0x20;0x66;0x6f;0x72;0x20;0x6e;0x6f;0x74;0x68;0x69;0x6e;0x67;0x3f].
Example hmac_rfc4231 :
  fst <$> HMAC (Some sha256_md) (Some jefe) 4 what_do_ya_want =
  Some [0x5b;0xdc;0xc1;0x46;0xbf;0x60;0x75;0x4e;0x6a;0x04;0x24;0x26;0x08;0x95;0x75;0xc7;
        0x5a;0x00;0x3f;0x08;0x9d;0x27;0x39;0x83;0x9d;0xec;0x58;0xb9;0x64;0xec;0x38;0x43].
Proof. vm_compute. reflexivity. Qed.

Lemma hmac_computes_rfc2104_witness :
  HMAC (Some sha256_md) (Some jefe) (zlen jefe) what_do_ya_want = Some (hmac sha256_md jefe what_do_ya_want, 32) /\
  HMAC (Some sha256_md) None (zlen jefe) what_do_ya_want = None.
Proof.
  exact (hmac_computes_rfc2104 (fun _ => eq_refl) sha256_md jefe what_do_ya_want
           ltac:(vm_compute; repeat constructor; easy) ltac:(vm_compute; repeat constructor; easy) eq_refl eq_refl).
Defined.
