(* ===== verification/Hkdf.v ===== *)
(** * HKDF (crypto/hkdf/hkdf.c)

    The key derivation function of RFC 5869 on [HMAC]; the names are in the module [Kdf]. *)
From S2P Require Import Prelude Compat Words EvpDigest Hmac.

Module Kdf.
Section Hkdf.
Context `{Allocator} `{Methods} `{!Engines}.

(** [None] for [salt] is NULL, with the length 0. *)
Definition HKDF_extract (digest : md) (secret : list Z) (salt : option (list Z)) : option (list Z) :=
  let salt_len := match salt with Some s => zlen s | None => 0 end in
  fst <$> HMAC (Some digest) salt (to_int salt_len) secret.

(** The blocks from [i] on, [k] of them; [out] is what is written of [out_key]. *)
Fixpoint expand_loop (k : nat) (i : Z) (digest_len out_len : Z) (info previous out : list Z) : M HMAC_CTX (list Z) :=
  match k with
  | O => mret out
  | S k =>
      let ctr := (i + 1) mod 2 ^ 8 in
      _ ← (if negb (i =? 0) then
             _ ← HMAC_Init_ex None 0 None None;
             HMAC_Update (ztake digest_len previous)
           else mret tt);
      _ ← HMAC_Update info;
      _ ← HMAC_Update [ctr];
      '(previous, _) ← HMAC_Final;
      let todo := if out_len <? zlen out + digest_len then out_len - zlen out else digest_len in
      expand_loop k (i + 1) digest_len out_len info previous (out ++ ztake todo previous)
  end.

Definition HKDF_expand (out_len : Z) (digest : md) (prk info : list Z) : option (list Z) :=
  let digest_len := md_size digest in
  let n := ((out_len + digest_len - 1) mod 2 ^ 64) / digest_len in
  if ((out_len + digest_len) mod 2 ^ 64 <? out_len) || (255 <? n) then None
  else fst ((_ ← HMAC_Init_ex (Some prk) (to_int (zlen prk)) (Some digest) None;
             expand_loop (Z.to_nat n) 0 digest_len out_len info [] []) (HMAC_CTX_init blank_hmac)).

Definition HKDF (out_len : Z) (digest : md) (secret : list Z) (salt : option (list Z)) (info : list Z) : option (list Z) :=
  prk ← HKDF_extract digest secret salt;
  HKDF_expand out_len digest prk info.
End Hkdf.
End Kdf.

(** ** RFC 5869 *)
Section Spec.
Context `{Methods} `{!MdLaws}.

(** T(i), and T(1) | T(2) | ... | T(n). *)
Fixpoint hkdf_T (m : md) (prk info : list Z) (i : nat) : list Z :=
  match i with O => [] | S j => hmac m prk (hkdf_T m prk info j ++ info ++ [Z.of_nat i]) end.
Fixpoint hkdf_stream (m : md) (prk info : list Z) (n : nat) : list Z :=
  match n with O => [] | S j => hkdf_stream m prk info j ++ hkdf_T m prk info n end.
(** The first [len] bytes of the stream, of which there are enough in ceil(len / HashLen) blocks. *)
Definition hkdf_okm (m : md) (prk info : list Z) (len : Z) : list Z :=
  ztake len (hkdf_stream m prk info (Z.to_nat ((len + md_size m - 1) / md_size m))).

Lemma hmac_ok m k x : zlen (hmac m k x) = md_size m /\ Forall is_byte (hmac m k x).
Proof. apply md_hash_ok. Qed.
Lemma zlen_hkdf_stream m prk info n : zlen (hkdf_stream m prk info n) = Z.of_nat n * md_size m.
Proof.
  induction n as [|n IH]; [done|]. cbn [hkdf_stream]. rewrite zlen_app, IH. cbn [hkdf_T]. rewrite (proj1 (hmac_ok m _ _)). lia.
Qed.
Lemma hkdf_T_bytes m prk info i : Forall is_byte (hkdf_T m prk info i).
Proof. destruct i; [constructor|]. apply hmac_ok. Qed.
Lemma hkdf_stream_bytes m prk info n : Forall is_byte (hkdf_stream m prk info n).
Proof. induction n; [constructor|]. apply Forall_app. split; [done|]. apply hkdf_T_bytes. Qed.
Lemma zlen_hkdf_okm m prk info len : 0 <= len -> zlen (hkdf_okm m prk info len) = len.
Proof.
  intros Hl. unfold hkdf_okm. pose proof (md_sizes m) as (Hs & _). rewrite zlen_ztake, zlen_hkdf_stream by lia.
  rewrite Z2Nat.id by dlia. assert (len <= (len + md_size m - 1) / md_size m * md_size m); [|lia].
  pose proof (Z.div_mod (len + md_size m - 1) (md_size m)). pose proof (Z.mod_pos_bound (len + md_size m - 1) (md_size m)). lia.
Qed.
End Spec.

Section Proofs.
Context `{Allocator} `{Methods} `{!Engines} `{!MdLaws}.
Context (no_engine : forall n, ENGINE_get_digest_engine n = None).
Context (m : md) (prk info : list Z) (prk_bytes : Forall is_byte prk) (info_bytes : Forall is_byte info) (info_len : zlen info < 2 ^ 63).

(** One block: the context has absorbed the previous one, or nothing at the first. *)
Lemma block_ok c j :
  (j < 255)%nat -> macing m prk c (hkdf_T m prk info j) ->
  exists c', (_ ← HMAC_Update info; _ ← HMAC_Update [(Z.of_nat j + 1) mod 2 ^ 8]; HMAC_Final) c = (Some (hkdf_T m prk info (S j), md_size m), c') /\
             ready m prk c'.
Proof.
  intros Hj M0. destruct (HMAC_Update_ok m prk c _ info M0) as (c1 & E1 & M1); [done|]. rewrite (bind_some _ _ _ _ _ E1).
  rewrite Z.mod_small by lia. destruct (HMAC_Update_ok m prk c1 _ [Z.of_nat j + 1] M1) as (c2 & E2 & M2); [done|]. rewrite (bind_some _ _ _ _ _ E2).
  rewrite <- app_assoc in M2. destruct (HMAC_Final_ok m prk c2 _ M2 prk_bytes) as (c3 & E3 & M3).
  - repeat apply Forall_app_2; [apply hkdf_T_bytes|done|]. repeat constructor; lia.
  - exists c3. split; [|done]. rewrite E3. cbn [hkdf_T]. do 5 f_equal. by rewrite Nat2Z.inj_succ.
Qed.

Lemma expand_loop_ok k : forall c j out_len,
  0 <= out_len -> (j + k <= 255)%nat -> Z.of_nat (j + k) * md_size m < out_len + md_size m ->
  (if decide (j = 0%nat) then macing m prk c [] else ready m prk c) ->
  exists c', Kdf.expand_loop k (Z.of_nat j) (md_size m) out_len info (hkdf_T m prk info j) (ztake out_len (hkdf_stream m prk info j)) c
             = (Some (ztake out_len (hkdf_stream m prk info (j + k))), c').
Proof.
  pose proof (md_sizes m) as (Hs & _).
  induction k as [|k IH]; intros c j out_len Ho Hj Hlen Hc; [rewrite Nat.add_0_r; by eexists|]. cbn [Kdf.expand_loop].
  assert (Hin : exists c1, (if negb (Z.of_nat j =? 0) then _ ← HMAC_Init_ex None 0 None None; HMAC_Update (ztake (md_size m) (hkdf_T m prk info j)) else mret tt) c
                  = (Some tt, c1) /\ macing m prk c1 (hkdf_T m prk info j)).
  { destruct j as [|j]; [by exists c|]. destruct (HMAC_restart_ok m prk c Hc) as (c1 & E1 & M1).
    replace (negb (Z.of_nat (S j) =? 0)) with true by (destruct (Z.eqb_spec (Z.of_nat (S j)) 0); [lia|done]).
    destruct (hmac_ok m prk (hkdf_T m prk info j ++ info ++ [Z.of_nat (S j)])) as [Hz _]. change (zlen (hkdf_T m prk info (S j)) = md_size m) in Hz.
    rewrite (ztake_ge (md_size m)) by lia. destruct (HMAC_Update_ok m prk c1 [] (hkdf_T m prk info (S j)) M1) as (c2 & E2 & M2); [lia|].
    exists c2. split; [|done]. by rewrite (bind_some _ _ _ _ _ E1). }
  destruct Hin as (c1 & E1 & M1). rewrite (bind_some _ _ _ _ _ E1). destruct (block_ok c1 j) as (c2 & E2 & M2); [lia|done|].
  destruct (IH c2 (S j) out_len) as (c3 & E3); [done|lia|replace (S j + k)%nat with (j + S k)%nat by lia; done|by rewrite decide_False|].
  exists c3. replace (j + S k)%nat with (S j + k)%nat by lia. rewrite <- E3.
  apply bind_inv in E2 as ([] & ca & Ea & E2). rewrite (bind_some _ _ _ _ _ Ea). apply bind_inv in E2 as ([] & cb & Eb & E2).
  rewrite (bind_some _ _ _ _ _ Eb), (bind_some _ _ _ _ _ E2). rewrite Nat2Z.inj_succ. unfold Z.succ. f_equal.
  pose proof (zlen_hkdf_stream m prk info j) as Hz. assert (Hjl : Z.of_nat j * md_size m <= out_len) by nia.
  rewrite (ztake_ge out_len (hkdf_stream m prk info j)) by lia. cbn [hkdf_stream]. rewrite ztake_app_r by lia. f_equal.
  destruct (hmac_ok m prk (hkdf_T m prk info j ++ info ++ [Z.of_nat (S j)])) as [Hz' _]. change (zlen (hkdf_T m prk info (S j)) = md_size m) in Hz'.
  destruct (Z.ltb_spec out_len (zlen (hkdf_stream m prk info j) + md_size m)); [done|]. by rewrite !ztake_ge by lia.
Qed.

(** The request is refused exactly when more than 255 blocks are needed. *)
Lemma expand_guard out_len :
  0 <= out_len < 2 ^ 64 ->
  ((out_len + md_size m) mod 2 ^ 64 <? out_len) || (255 <? (out_len + md_size m - 1) mod 2 ^ 64 / md_size m) = negb (out_len <=? 255 * md_size m).
Proof.
  intros Ho. pose proof (md_sizes m) as (Hs & _). destruct (Z.leb_spec out_len (255 * md_size m)) as [Hle|Hgt]; cbn [negb].
  - rewrite !Z.mod_small by lia. apply orb_false_iff. split; [lia|]. apply Z.ltb_ge, Z.lt_succ_r, Z.div_lt_upper_bound; lia.
  - apply orb_true_iff. destruct (Z.lt_ge_cases (out_len + md_size m) (2 ^ 64)) as [Hlt|Hge].
    + right. rewrite Z.mod_small by lia. apply Z.ltb_lt, Z.le_succ_l, Z.div_le_lower_bound; lia.
    + left. apply Z.ltb_lt. replace (out_len + md_size m) with (out_len + md_size m - 2 ^ 64 + 1 * 2 ^ 64) by lia.
      rewrite Z.mod_add, Z.mod_small by lia. lia.
Qed.

Lemma HKDF_expand_ok out_len :
  0 <= out_len < 2 ^ 64 -> zlen prk < 2 ^ 31 ->
  Kdf.HKDF_expand out_len m prk info =
    if (out_len <=? 255 * md_size m) && malloc_ok (ctx_size m) then Some (hkdf_okm m prk info out_len) else None.
Proof.
  intros Ho Hp. pose proof (md_sizes m) as (Hs & _). unfold Kdf.HKDF_expand. rewrite expand_guard by done.
  destruct (Z.leb_spec out_len (255 * md_size m)) as [Hle|Hgt]; [|done]. cbn [negb andb].
  rewrite to_int_id by zl. destruct (malloc_ok (ctx_size m)) eqn:Ha.
  - destruct (HMAC_Init_ok no_engine m prk blank_hmac) as (c1 & E1 & M1); [done|lia|done|done|]. rewrite (bind_some _ _ _ _ _ E1).
    rewrite Z.mod_small by lia. set (n := (out_len + md_size m - 1) / md_size m).
    assert (Hn : 0 <= n <= 255 /\ n * md_size m < out_len + md_size m).
    { pose proof (Z.div_mod (out_len + md_size m - 1) (md_size m)). pose proof (Z.mod_pos_bound (out_len + md_size m - 1) (md_size m)).
      fold n in H3. split; [split; [apply Z.div_pos; lia|]|lia]. apply Z.lt_succ_r, Z.div_lt_upper_bound; lia. }
    destruct (expand_loop_ok (Z.to_nat n) c1 0 out_len) as (c2 & E2); [lia|lia|rewrite Nat.add_0_l, Z2Nat.id; lia|done|].
    cbn [Nat.add hkdf_T hkdf_stream] in E2. change (Z.of_nat 0) with 0 in E2. unfold ztake at 1 in E2. rewrite take_nil in E2. by rewrite E2.
  - pose proof (HMAC_Init_nomem no_engine m prk blank_hmac Ha) as E. rewrite bind_eq. by destruct (HMAC_Init_ex _ _ _ _ _) as [[]?].
Qed.
End Proofs.

Section Derive.
Context `{Allocator} `{Methods} `{!Engines} `{!MdLaws}.
Context (no_engine : forall n, ENGINE_get_digest_engine n = None).

Lemma HKDF_extract_ok m secret salt :
  Forall is_byte secret -> Forall is_byte salt -> zlen secret < 2 ^ 63 -> zlen salt < 2 ^ 31 ->
  Kdf.HKDF_extract m secret (Some salt) = if malloc_ok (ctx_size m) then Some (hmac m salt secret) else None.
Proof.
  intros H1' H2' H3' H4'. unfold Kdf.HKDF_extract. rewrite to_int_id by zl. rewrite HMAC_ok by done. by destruct (malloc_ok _).
Qed.

(** C38: [HKDF] is the key derivation function of RFC 5869: extract, then the first [out_len] bytes of
    T(1) | T(2) | ... .  It fails exactly when more than 255 blocks are asked for (also when the rounding of the
    length to blocks overflows a [size_t]), when there is no memory for the digest states, or when no salt is given. *)
Theorem hkdf_computes_rfc5869 m secret salt info out_len :
  Forall is_byte secret -> Forall is_byte salt -> Forall is_byte info ->
  zlen secret < 2 ^ 63 -> zlen salt < 2 ^ 31 -> zlen info < 2 ^ 63 -> 0 <= out_len < 2 ^ 64 ->
  Kdf.HKDF out_len m secret (Some salt) info =
    (if (out_len <=? 255 * md_size m) && malloc_ok (ctx_size m) then Some (hkdf_okm m (hmac m salt secret) info out_len) else None) /\
  Kdf.HKDF out_len m secret None info = None.
Proof.
  intros Hs Hsa Hi Ls Lsa Li Ho. split; [|done]. unfold Kdf.HKDF. rewrite HKDF_extract_ok by done.
  destruct (malloc_ok (ctx_size m)) eqn:Ha; [|by rewrite andb_false_r]. change (mbind ?f (Some ?x)) with (f x). cbn beta.
  destruct (hmac_ok m salt secret) as [Hz Hb]. pose proof (md_sizes m) as (Hsz & _).
  rewrite HKDF_expand_ok by (done || lia). by rewrite Ha.
Qed.
End Derive.

#[local] Instance plenty : Allocator := {| malloc_ok := fun _ => true; getpagesize := 4096 |}.
(** RFC 5869, test case 1. *)
Definition ikm1 : list Z := replicate 22 0x0b.
Definition salt1 : list Z := [0;1;2;3;4;5;6;7;8;9;10;11;12].
Definition info1 : list Z := [0xf0;0xf1;0xf2;0xf3;0xf4;0xf5;0xf6;0xf7;0xf8;0xf9].
Example hkdf_rfc5869_1 :
  Kdf.HKDF 42 sha256_md ikm1 (Some salt1) info1 =
  Some [0x3c;0xb2;0x5f;0x25;0xfa;0xac;0xd5;0x7a;0x90;0x43;0x4f;0x64;0xd0;0x36;0x2f;0x2a;0x2d;0x2d;0x0a;0x90;0xcf;
        0x1a;0x5a;0x4c;0x5d;0xb0;0x2d;0x56;0xec;0xc4;0xc5;0xbf;0x34;0x00;0x72;0x08;0xd5;0xb8;0x87;0x18;0x58;0x65].
Proof. vm_compute. reflexivity. Qed.

Lemma hkdf_computes_rfc5869_witness :
  Kdf.HKDF 42 sha256_md ikm1 (Some salt1) info1 = Some (hkdf_okm sha256_md (hmac sha256_md salt1 ikm1) info1 42) /\
  Kdf.HKDF 42 sha256_md ikm1 None info1 = None.
Proof.
  exact (hkdf_computes_rfc5869 (fun _ => eq_refl) sha256_md ikm1 salt1 info1 42
           ltac:(vm_compute; repeat constructor; easy) ltac:(vm_compute; repeat constructor; easy) ltac:(vm_compute; repeat constructor; easy)
           eq_refl eq_refl eq_refl ltac:(lia)).
Defined.
