(* ===== verification/Suite.v ===== *)
(** * TLSv1.3 records on the real primitives

    The record layer and the key schedule are proved correct against the interfaces [Aead] and
    [Hkdf].  Here ChaCha20-Poly1305 (ChachaPoly) and HKDF on SHA-224 or SHA-256 (Hkdf, Hmac,
    EvpDigest, Sha256) discharge them, and the whole stack is put together: from a traffic secret
    to the bytes of the records and back. *)
From Stdlib Require Import String.
From S2P Require Import Prelude Compat Cbs Cbb CbbSpec CbbBuild Tls13Buffer Tls13Record.
From S2P Require Import Words Chacha Poly1305 ChachaPoly Md32 Sha256 EvpDigest Hmac Hkdf.
From S2P Require Import KeySchedule RecordLayer RecordLayerSpec.

(** The interfaces take any list of integers; the functions take bytes. *)
Definition to_bytes (l : list Z) : list Z := wrap8 <$> l.
Lemma to_bytes_bytes l : Forall is_byte (to_bytes l).
Proof. apply Forall_fmap, Forall_forall. intros x _. cbn. unfold wrap8, is_byte. pose proof (Z.mod_pos_bound x (2 ^ 8)). lia. Qed.
Lemma to_bytes_id l : Forall is_byte l -> to_bytes l = l.
Proof.
  induction 1 as [|x l Hx Hl IH]; [done|]. cbn [to_bytes fmap list_fmap]. f_equal; [|exact IH]. unfold wrap8. apply Z.mod_small. exact Hx.
Qed.
Lemma zlen_to_bytes l : zlen (to_bytes l) = zlen l.
Proof. unfold zlen, to_bytes. by rewrite length_fmap. Qed.

Section Suite.
Context `{Allocator}.

(** ** The AEAD *)

(** A context as [EVP_AEAD_CTX_init] makes it. *)
Definition valid_ctx (c : evp_aead_ctx) : bool := (0 <=? c20_tag_len (aead_state c)) && (c20_tag_len (aead_state c) <=? 16).
Definition suite_ctx : Type := { c : evp_aead_ctx | valid_ctx c = true }.

Definition suite_init (a : evp_aead) (key : list Z) : option suite_ctx :=
  match ChachaPoly.Evp.EVP_AEAD_CTX_init a key 0 with
  | Some c => match decide (valid_ctx c = true) with left Hc => Some (c ↾ Hc) | right _ => None end
  | None => None
  end.
(** The record layer seals from one buffer into another, which it has just allocated. *)
Definition result (r : option Z * list Z) : option (list Z) := match r with (Some n, out) => Some (ztake n out) | (None, _) => None end.
Definition suite_seal (c : suite_ctx) (max : Z) (n inp ad : list Z) : option (list Z) :=
  result (ChachaPoly.Evp.EVP_AEAD_CTX_seal (`c) 0 (zlen inp) max (to_bytes n) inp (to_bytes ad) (zeros max)).
Definition suite_open (c : suite_ctx) (max : Z) (n inp ad : list Z) : option (list Z) :=
  result (ChachaPoly.Evp.EVP_AEAD_CTX_open (`c) 0 (zlen inp) max (to_bytes n) inp (to_bytes ad) (zeros max)).

#[export] Instance suite_aead : Aead := {|
  EVP_AEAD := evp_aead;
  EVP_AEAD_nonce_length := ChachaPoly.Evp.EVP_AEAD_nonce_length;
  EVP_AEAD_key_length := ChachaPoly.Evp.EVP_AEAD_key_length;
  EVP_AEAD_max_tag_len := ChachaPoly.Evp.EVP_AEAD_max_tag_len;
  EVP_AEAD_CTX := suite_ctx;
  EVP_AEAD_CTX_init := suite_init;
  EVP_AEAD_CTX_seal := suite_seal;
  EVP_AEAD_CTX_open := suite_open
|}.

Lemma suite_tag (c : suite_ctx) : 0 <= c20_tag_len (aead_state (`c)) <= 16.
Proof. destruct c as [c Hc]. pose proof Hc as Hv. unfold valid_ctx in Hv. cbn [proj1_sig]. lia. Qed.
Lemma suite_args (c : suite_ctx) n inp ad max :
  Forall is_byte inp -> aead_args (`c) (to_bytes n) inp (to_bytes ad) (zeros max).
Proof.
  intros Hi. pose proof (suite_tag c). refine (conj _ (conj (to_bytes_bytes _) (conj Hi (conj (to_bytes_bytes _) (Forall_zeros _))))). done.
Qed.
Lemma no_alias n : 0 <= n -> ChachaPoly.Evp.check_alias 0 n n = true.
Proof. intros Hn. unfold ChachaPoly.Evp.check_alias. destruct (n <=? 0); [done|]. by rewrite (proj2 (Z.leb_le (0 + n) n)) by lia. Qed.
Lemma zlen_zeros_ge n : n <= zlen (zeros n).
Proof. destruct (Z.le_ge_cases 0 n); [rewrite zlen_zeros by lia; lia|]. pose proof (zlen_nonneg (zeros n)). lia. Qed.

(** The sealed form has the length of the input and the tag. *)
Lemma zlen_aead_seals c n inp ad : valid_ctx c = true -> zlen (aead_seals c n inp ad) = zlen inp + c20_tag_len (aead_state c).
Proof.
  intros Hc. unfold valid_ctx in Hc. unfold aead_seals. rewrite zlen_app, zlen_aead_cipher, zlen_ztake, zlen_aead_tag by lia. lia.
Qed.

Lemma suite_seal_spec c max n inp ad :
  Forall is_byte inp -> zlen inp < 2 ^ 31 ->
  suite_seal c max n inp ad =
  if (zlen inp + c20_tag_len (aead_state (`c)) <=? max) && (zlen n =? nonce_len (ctx_aead (`c)))
  then Some (aead_seals (`c) (to_bytes n) inp (to_bytes ad)) else None.
Proof.
  intros Hi Hl. unfold suite_seal, ChachaPoly.Evp.EVP_AEAD_CTX_seal, overhead, POLY1305_TAG_LEN, wrap64. pose proof (zlen_nonneg inp) as Hz.
  rewrite Z.mod_small, (proj2 (Z.ltb_ge (zlen inp + 16) (zlen inp))), no_alias by lia. cbn [negb]. unfold ChachaPoly.Evp.or_clear.
  rewrite seal_spec by (first [by apply suite_args|apply zlen_zeros_ge|lia]). rewrite zlen_to_bytes.
  destruct (Z.leb_spec (zlen inp + c20_tag_len (aead_state (`c))) max) as [Hm|Hm]; cbn [andb]; [|done].
  destruct (zlen n =? nonce_len (ctx_aead (`c))); [|done]. cbn [result].
  rewrite <- (zlen_aead_seals _ (to_bytes n) inp (to_bytes ad) (proj2_sig c)). f_equal. apply ztake_overwrite_0.
Qed.
Lemma suite_open_spec c max n inp ad :
  Forall is_byte inp -> zlen inp < 2 ^ 31 -> zlen n = nonce_len (ctx_aead (`c)) -> zlen inp <= max ->
  suite_open c max n (aead_seals (`c) (to_bytes n) inp (to_bytes ad)) ad = Some inp.
Proof.
  intros Hi Hl Hn Hm. set (o := aead_seals _ _ _ _). pose proof (zlen_aead_seals _ (to_bytes n) inp (to_bytes ad) (proj2_sig c)) as Hz. fold o in Hz.
  pose proof (suite_tag c) as Hv.
  assert (Ho : Forall is_byte o).
  { unfold o, aead_seals. apply Forall_app. split; [by apply aead_cipher_bytes|apply Forall_ztake, aead_tag_bytes]. }
  unfold suite_open, ChachaPoly.Evp.EVP_AEAD_CTX_open. rewrite no_alias by apply zlen_nonneg. cbn [negb]. unfold ChachaPoly.Evp.or_clear.
  rewrite open_spec; [|by apply suite_args|lia]. rewrite zlen_to_bytes, Hz, Z.add_simpl_r, (proj2 (Z.eqb_eq _ _)) by done.
  destruct (proj2 (authentic_sealed (`c) (to_bytes n) o (to_bytes ad) inp ltac:(lia)) eq_refl) as (_ & Ha & Hp).
  rewrite Hz, Z.add_simpl_r in Hp. rewrite Ha, <- Hp, (proj2 (Z.leb_le 0 _)), (proj2 (Z.leb_le _ max)) by zl. cbn [andb result].
  f_equal. apply ztake_overwrite_0.
Qed.

#[export] Instance suite_aead_laws : AeadLaws.
Proof.
  split; [|intros a; change (0 <= 16 <= 255); lia].
  intros c max n inp ad out Hi Hl. cbn [EVP_AEAD_CTX_seal EVP_AEAD_CTX_open suite_aead]. rewrite suite_seal_spec by done.
  destruct ((_ <=? _) && _) eqn:E; [|done]. apply andb_true_iff in E as [E1 E2]. intros Ho. apply (inj Some) in Ho as <-.
  pose proof (suite_tag c) as Hv.
  apply suite_open_spec; [done|done|lia|]. rewrite zlen_aead_seals by apply (proj2_sig c). lia.
Qed.

(** ** Key derivation *)

(** Arguments that a call can have. *)
Definition in_range (prk info : list Z) (n : Z) : bool := (zlen prk <? 2 ^ 31) && (zlen info <? 2 ^ 63) && (0 <=? n) && (n <? 2 ^ 64).

Definition suite_digest (m : md) (l : list Z) : option (list Z) :=
  if in_range [] l 0 then fst <$> EvpDigest.Evp.EVP_Digest (to_bytes l) (Some m) None else None.
Definition suite_extract (m : md) (secret salt : list Z) : option (list Z) :=
  if in_range salt secret 0 then Kdf.HKDF_extract m (to_bytes secret) (Some (to_bytes salt)) else None.
Definition suite_expand (m : md) (prk info : list Z) (n : Z) : option (list Z) :=
  if in_range prk info n then Kdf.HKDF_expand n m (to_bytes prk) (to_bytes info) else None.

#[export] Instance suite_hkdf : Hkdf := {|
  EVP_MD := md;
  EVP_MD_size := md_size;
  EVP_Digest := suite_digest;
  HKDF_extract := suite_extract;
  HKDF_expand := suite_expand
|}.

Lemma suite_digest_spec m l :
  suite_digest m l = if in_range [] l 0 && malloc_ok (ctx_size m) then Some (md_hash m (to_bytes l)) else None.
Proof.
  unfold suite_digest. destruct (in_range [] l 0) eqn:E; [|done]. unfold in_range in E.
  rewrite EVP_Digest_ok by (done || apply to_bytes_bytes || (rewrite zlen_to_bytes; lia)). by destruct (malloc_ok _).
Qed.
Lemma suite_extract_spec m secret salt :
  suite_extract m secret salt = if in_range salt secret 0 && malloc_ok (ctx_size m) then Some (hmac m (to_bytes salt) (to_bytes secret)) else None.
Proof.
  unfold suite_extract. destruct (in_range salt secret 0) eqn:E; [|done]. unfold in_range in E.
  rewrite HKDF_extract_ok by (done || apply to_bytes_bytes || (rewrite zlen_to_bytes; lia)). by destruct (malloc_ok _).
Qed.
Lemma suite_expand_spec m prk info n :
  suite_expand m prk info n =
    if in_range prk info n && ((n <=? 255 * md_size m) && malloc_ok (ctx_size m)) then Some (hkdf_okm m (to_bytes prk) (to_bytes info) n) else None.
Proof.
  unfold suite_expand. destruct (in_range prk info n) eqn:E; [|done]. unfold in_range in E.
  apply HKDF_expand_ok; try apply to_bytes_bytes; rewrite ?zlen_to_bytes; (done || lia).
Qed.

#[export] Instance suite_hkdf_laws : HkdfLaws.
Proof.
  split; cbn [EVP_MD EVP_MD_size EVP_Digest HKDF_extract HKDF_expand suite_hkdf]; intros m.
  - apply md_sizes.
  - intros l d. rewrite suite_digest_spec. destruct (_ && _); [|done]. intros Hd. apply (inj Some) in Hd as <-. apply md_hash_ok.
  - intros l s d. rewrite suite_extract_spec. destruct (_ && _); [|done]. intros Hd. apply (inj Some) in Hd as <-. apply hmac_ok.
  - intros k i n o. rewrite suite_expand_spec. destruct (in_range k i n) eqn:E; [|done]. cbn [andb].
    destruct ((n <=? _) && _); [|done]. intros Ho. apply (inj Some) in Ho as <-. apply zlen_hkdf_okm. unfold in_range in E. lia.
Qed.

(** ** From a traffic secret to records *)

Definition heap : Prop := forall n, malloc_ok n = true.
Context (mem : heap).

(** The keys of RFC 8446 section 7.3. *)
Definition traffic_key (a : evp_aead) (m : md) (secret : list Z) : list Z :=
  hkdf_okm m secret (hkdf_label (key_len a) (str "key") []) (key_len a).
Definition traffic_iv (a : evp_aead) (m : md) (secret : list Z) : list Z :=
  hkdf_okm m secret (hkdf_label (nonce_len a) (str "iv") []) (nonce_len a).
Definition traffic_ctx (a : evp_aead) (m : md) (secret : list Z) : evp_aead_ctx := mkAeadCtx a (mkC20 (traffic_key a m secret) 16).

(** The bytes of record [s] (section 5.2). *)
Definition record_bytes (a : evp_aead) (m : md) (secret : list Z) (s : Z) (ct : Z) (content : list Z) : list Z :=
  let header := record_header SSL3_RT_APPLICATION_DATA TLS1_2_VERSION (zlen content + 1 + 16) in
  header ++ aead_seals (traffic_ctx a m secret) (nonce_of (traffic_iv a m secret) s) (content ++ [ct]) header.

Lemma hkdf_okm_bytes m prk info n : Forall is_byte (hkdf_okm m prk info n).
Proof. apply Forall_ztake, hkdf_stream_bytes. Qed.
Lemma hkdf_label_bytes n l c : Forall is_byte l -> Forall is_byte c -> Forall is_byte (hkdf_label n l c).
Proof. intros Hl Hc. unfold hkdf_label. do 5 (apply Forall_app_2; [first [apply be_bytes_bytes|apply str_bytes|done]|]). done. Qed.
Lemma aead_sizes a : key_len a = 32 /\ 8 <= nonce_len a <= 24.
Proof. destruct a; (split; [reflexivity|]); vm_compute; split; discriminate. Qed.
Lemma zlen_traffic a m secret : zlen (traffic_key a m secret) = 32 /\ zlen (traffic_iv a m secret) = nonce_len a.
Proof. pose proof (aead_sizes a) as [Hk Hn]. unfold traffic_key, traffic_iv. rewrite Hk. split; apply zlen_hkdf_okm; lia. Qed.
Lemma nonce_of_bytes ivd s : Forall is_byte ivd -> Forall is_byte (nonce_of ivd s).
Proof.
  intros Hi. unfold nonce_of, record_nonce. apply (xor_bytes_bytes ivd); [done|]. apply Forall_app_2; [apply Forall_zeros|apply be_bytes_bytes].
Qed.

Lemma label_built n label :
  0 <= n < 2 ^ 16 -> zlen (str label) <= 249 ->
  exists buf len s', hkdf_label_build n (str label) [] (mkStore None ∅) = (Some (buf, len), s') /\ ztake len buf = hkdf_label n (str label) [].
Proof.
  intros Hn Hl. rewrite hkdf_label_build_marshal. pose proof (str_bytes label) as Hb.
  pose proof (cbb_marshal_spec 256 (label_msg n (str label) []) (mkStore None ∅)) as Hs.
  destruct (encode (label_msg n (str label) [])) as [bs|] eqn:E.
  2: { exfalso. revert E. unfold label_msg. cbn [encode mbind option_bind enc_prefix]. change (256 ^ Z.of_nat 2) with 65536. change (256 ^ Z.of_nat 1) with 256.
       rewrite !app_nil_r, zlen_app, zlen_nil. change (zlen (str "tls13 ")) with 6. decide_cmp. done. }
  destruct (cbb_marshal _ _ _) as [[[buf len]|] s'].
  - exists buf, len, s'. split; [done|]. destruct Hs as (He & _); [|unfold SIZE_MAX; lia|].
    + cbn [wf_msg label_msg]. split_and!; try done; try lia; try (unfold SIZE_MAX; lia). by apply bytes_ok.
    + injection He as <-. apply encode_label in E as [-> _]. done.
  - exfalso. refine (Hs _ _ bs eq_refl _); [|unfold SIZE_MAX; lia|].
    + cbn [wf_msg label_msg]. split_and!; try done; try lia; try (unfold SIZE_MAX; lia). by apply bytes_ok.
    + split; [intros; apply mem|]. apply encode_label in E as [-> _]. unfold hkdf_label. rewrite !zlen_app, !zlen_be_bytes, zlen_nil.
      change (zlen (str "tls13 ")) with 6. unfold SIZE_MAX. lia.
Qed.

Lemma expand_label_ok (m : md) secret label n log :
  Forall is_byte secret -> zlen secret < 2 ^ 31 -> 0 <= n <= 255 -> zlen (str label) <= 249 ->
  exists log', tls13_hkdf_expand_label n (m : EVP_MD) (mkSecret (Some secret) (zlen secret)) label (mkSecret (Some []) 0) log =
    (Some (hkdf_okm m secret (hkdf_label n (str label) []) n), log').
Proof.
  intros Hs Hl Hn Hll. unfold tls13_hkdf_expand_label, tls13_hkdf_expand_label_with_length. cbn [ts_bytes ts_data].
  destruct (label_built n label) as (buf & len & s' & E & Hz); [lia|done|]. unfold ts_bytes. cbn [ts_data]. rewrite E, Hz. eexists. f_equal.
  cbn [HKDF_expand suite_hkdf]. rewrite suite_expand_spec, mem. pose proof (md_sizes m) as (Hsz & _).
  pose proof (hkdf_label_bytes n (str label) [] (str_bytes label) ltac:(constructor)) as Hlb. rewrite !to_bytes_id by done.
  replace (in_range _ _ _) with true; [by rewrite (proj2 (Z.leb_le n (255 * md_size m))) by lia|].
  symmetry. unfold in_range, hkdf_label. rewrite !zlen_app, !zlen_be_bytes, zlen_nil. change (zlen (str "tls13 ")) with 6. decide_cmp. done.
Qed.

Lemma set_traffic_key_ok a (m : md) secret rp log :
  Forall is_byte secret -> zlen secret < 2 ^ 31 ->
  exists rp' log' (c : suite_ctx),
    tls13_record_layer_set_traffic_key (a : EVP_AEAD) (m : EVP_MD) (mkSecret (Some secret) (zlen secret)) (rp, log) = (Some tt, (rp', log')) /\
    `c = traffic_ctx a m secret /\ protection rp' c (traffic_iv a m secret) 0.
Proof.
  intros Hs Hl. pose proof (aead_sizes a) as [Hk Hn]. pose proof (zlen_traffic a m secret) as [Hzk Hzi].
  unfold tls13_record_layer_set_traffic_key. cbn [EVP_AEAD_nonce_length EVP_AEAD_key_length suite_aead tls13_record_protection_clear iv nonce aead_ctx seq_num].
  unfold ChachaPoly.Evp.EVP_AEAD_nonce_length, ChachaPoly.Evp.EVP_AEAD_key_length, tls13_secret_cleanup, tls13_secret_init. cbn [ts_data no_secret]. rewrite !mem.
  cbn [iv ts_len nonce aead_ctx seq_num].
  destruct (expand_label_ok m secret "iv" (nonce_len a) log Hs Hl ltac:(lia) ltac:(done)) as (log1 & ->).
  destruct (expand_label_ok m secret "key" (key_len a) log1 Hs Hl ltac:(lia) ltac:(done)) as (log2 & ->).
  fold (traffic_key a m secret). fold (traffic_iv a m secret). cbn [EVP_AEAD_CTX_init suite_aead]. unfold suite_init, ChachaPoly.Evp.EVP_AEAD_CTX_init.
  rewrite Hk, Hzk. cbn [Z.eqb Pos.eqb negb]. unfold aead_chacha20_poly1305_init. rewrite Hzk, mem. cbn -[traffic_key].
  destruct (decide _) as [Hc|Hc]; [|done]. eexists _, _, (exist (fun c => valid_ctx c = true) _ Hc). split; [reflexivity|]. split; [done|].
  unfold protection. cbn [aead_ctx iv nonce seq_num]. rewrite Hzi. split_and!; try done; try lia. exists (zeros (nonce_len a)). rewrite zlen_zeros by lia. done.
Qed.

(** Sealing with these keys always succeeds, and gives the bytes of RFC 8446. *)
Lemma protect_ok a (m : md) secret (c : suite_ctx) s ct content :
  `c = traffic_ctx a m secret -> is_byte ct -> Forall is_byte content -> zlen content <= TLS13_RECORD_MAX_PLAINTEXT_LEN ->
  protect (a : EVP_AEAD) (c : EVP_AEAD_CTX) (traffic_iv a m secret) s ct content = Some (record_bytes a m secret s ct content).
Proof.
  intros Hc Hct Hb Hl. pose proof (aead_sizes a) as [Hk Hn]. pose proof (zlen_traffic a m secret) as [Hzk Hzi].
  assert (Hin : Forall is_byte (content ++ [ct])) by (apply Forall_app; by split; [|constructor]).
  assert (Hzn : zlen (nonce_of (traffic_iv a m secret) s) = nonce_len a).
  { unfold nonce_of. rewrite zlen_record_nonce; [done|lia|by rewrite zlen_be_bytes]. }
  assert (Hnb : Forall is_byte (nonce_of (traffic_iv a m secret) s)) by apply nonce_of_bytes, hkdf_okm_bytes.
  unfold protect, protected_header, record_bytes. cbn [EVP_AEAD_CTX_seal EVP_AEAD_max_tag_len suite_aead].
  change (ChachaPoly.Evp.EVP_AEAD_max_tag_len a) with 16. set (header := record_header _ _ _).
  assert (Hhb : Forall is_byte header) by (unfold header, record_header; repeat (apply Forall_app_2; [apply be_bytes_bytes|]); apply be_bytes_bytes).
  rewrite suite_seal_spec by (done || (rewrite zlen_app, zlen_cons, zlen_nil; rec_consts; lia)).
  rewrite Hc, Hzn, zlen_app, zlen_cons, zlen_nil, !to_bytes_id by done. cbn [traffic_ctx ctx_aead aead_state c20_tag_len].
  rewrite Z.eqb_refl, (proj2 (Z.leb_le _ _)) by lia. cbn [andb mbind option_bind]. fold (traffic_ctx a m secret).
  rewrite zlen_aead_seals by done. cbn [traffic_ctx aead_state c20_tag_len]. rewrite zlen_app, zlen_cons, zlen_nil, (proj2 (Z.eqb_eq _ _)) by lia. done.
Qed.

Lemma seal_ok a (m : md) secret (c : suite_ctx) s ct content rl :
  `c = traffic_ctx a m secret -> message (ct, content) -> 0 <= legacy_version rl < 2 ^ 16 -> aead rl = Some a ->
  protection (write rl) c (traffic_iv a m secret) s -> s < 2 ^ 64 - 1 ->
  exists rl', tls13_record_layer_seal_record ct content rl = (Some tt, rl').
Proof.
  intros Hc (Hct & Hnz & Hccs & Hb & Hl) Hv Ha Hp Hs. cbn [fst snd] in *.
  pose proof (seal_record_spec ct content rl c (traffic_iv a m secret) s Hct Hb Hl Hv (fun _ _ => Hp)) as Hss.
  destruct (tls13_record_layer_seal_record ct content rl) as [[[]|] rl']; [by eexists|]. exfalso. destruct Hss as (_ & He & _).
  destruct He as [[_ [He|He]]|[(a' & Ha' & He)|[He|[He|He]]]]; [congruence|done| |lia| |].
  - assert (a' = a) as -> by congruence. rewrite (protect_ok a m secret c s ct content Hc Hct Hb Hl) in He. done.
  - revert He. unfold tls13_record_new, tls13_buffer_new. rewrite !mem. unfold tls13_buffer_resize, recallocarray. rewrite !mem.
    cbn [tb_capacity tb_data]. by destruct (0 =? _).
  - apply He. split; [intros; apply mem|]. rec_consts. unfold SIZE_MAX. lia.
Qed.

Fixpoint records_from (a : evp_aead) (m : md) (secret : list Z) (s : Z) (ms : list (Z * list Z)) : list (list Z) :=
  match ms with [] => [] | (ct, content) :: ms => record_bytes a m secret s ct content :: records_from a m secret (s + 1) ms end.

Lemma seal_run_ok a (m : md) secret (c : suite_ctx) ms : forall s rl,
  `c = traffic_ctx a m secret -> Forall message ms -> 0 <= legacy_version rl < 2 ^ 16 -> aead rl = Some a ->
  protection (write rl) c (traffic_iv a m secret) s -> s + zlen ms < 2 ^ 64 ->
  exists rs rl', seal_run ms rl = Some (rs, rl') /\ rs.*2 = records_from a m secret s ms.
Proof.
  induction ms as [|[ct content] ms IH]; intros s rl Hc Hms Hv Ha Hp Hs; [by exists [], rl|].
  apply Forall_cons in Hms as [Hm Hms]. rewrite zlen_cons in Hs. pose proof (zlen_nonneg ms).
  destruct (seal_ok a m secret c s ct content rl Hc Hm Hv Ha Hp ltac:(lia)) as (rl1 & E).
  destruct (seal_message _ _ _ _ _ _ _ _ Hm Hv Ha Hp E) as (data & wr & Hd & _ & Hwr & Hwd & _ & Hp1 & Ha1 & Hv1).
  destruct (IH (s + 1) rl1 Hc Hms ltac:(by rewrite Hv1) Ha1 Hp1 ltac:(lia)) as (rs & rl2 & Er & Hrs).
  cbn [seal_run]. rewrite E, Hwr, Er. cbn [mbind option_bind]. eexists _, _. split; [reflexivity|]. cbn [fmap list_fmap snd records_from].
  rewrite Hrs. f_equal. destruct Hm as (Hct & _ & _ & Hb & Hl). cbn [fst snd] in *. rewrite (protect_ok a m secret c s ct content Hc Hct Hb Hl) in Hd.
  apply (inj Some) in Hd as ->. unfold rec_bytes. by rewrite Hwd.
Qed.
End Suite.

(** C1: The whole stack, from a traffic secret to the wire and back.  When sender and receiver install the same
    traffic secret with [tls13_record_layer_set_write_traffic_key] and [..._read_traffic_key], with ChaCha20-Poly1305
    and HKDF on SHA-2 as they are implemented and memory available, every run of fewer than 2^64 messages is sealed;
    the records are, bit for bit, those of RFC 8446 under the keys HKDF-Expand-Label derives; and the receiver opens
    them to exactly the content types and contents that were sent. *)
Theorem chacha_records_end_to_end `{Allocator} (a : evp_aead) (m : md) secret ms (rl1 rl2 : tls13_record_layer) log1 log2 :
  heap -> Forall is_byte secret -> zlen secret < 2 ^ 31 -> Forall message ms -> zlen ms < 2 ^ 64 ->
  0 <= legacy_version rl1 < 2 ^ 16 -> aead rl1 = Some a -> hash rl1 = Some m -> aead rl2 = Some a -> hash rl2 = Some m ->
  let ts := mkSecret (Some secret) (zlen secret) in
  exists rl1' log1' rl2' log2' rs rl1'',
    tls13_record_layer_set_write_traffic_key ts (rl1, log1) = (Some tt, (rl1', log1')) /\
    tls13_record_layer_set_read_traffic_key ts (rl2, log2) = (Some tt, (rl2', log2')) /\
    seal_run ms rl1' = Some (rs, rl1'') /\ rs.*2 = records_from a m secret 0 ms /\
    forall recs, Forall2 record_of (records_from a m secret 0 ms) recs -> exists rl2'', open_run recs rl2' = Some (ms, rl2'').
Proof.
  intros mem Hs Hl Hms Hlen Hv Ha1 Hh1 Ha2 Hh2 ts.
  destruct (set_traffic_key_ok mem a m secret (write rl1) log1 Hs Hl) as (rp1 & l1 & c1 & E1 & Hc1 & Hp1).
  destruct (set_traffic_key_ok mem a m secret (read rl2) log2 Hs Hl) as (rp2 & l2 & c2 & E2 & Hc2 & Hp2).
  assert (c2 = c1) as -> by (apply (sig_eq_pi _); congruence).
  unfold tls13_record_layer_set_write_traffic_key, tls13_record_layer_set_read_traffic_key. rewrite Ha1, Hh1, Ha2, Hh2. fold ts in E1, E2. rewrite E1, E2.
  set (rl1' := rl1 <|write := rp1|>). set (rl2' := rl2 <|read := rp2|>).
  destruct (seal_run_ok mem a m secret c1 ms 0 rl1' Hc1 Hms Hv Ha1 Hp1 Hlen) as (rs & rl1'' & Er & Hrs).
  eexists rl1', _, rl2', _, rs, rl1''. do 2 (split; [reflexivity|]). split; [exact Er|]. split; [exact Hrs|].
  intros recs Hrec. rewrite <- Hrs in Hrec. destruct (seal_run_spec ms rl1' rs rl1'' a c1 _ 0 Hms Hv Ha1 Hp1 Er) as [_ Hf].
  destruct (open_run_spec ms rl2' recs rs a a c1 _ 0 Hms Ha2 Hp2 Hf Hrec mem) as (rl2'' & Ho & _). by exists rl2''.
Qed.

Section Witness.
#[local] Existing Instance ample.
Definition demo_prot : tls13_record_protection := mkProt None no_secret no_secret (zeros 8).
Definition demo_rl : tls13_record_layer :=
  mkRl TLS1_2_VERSION false 0 false true false false false false false None None 0 0 0 0 None 0 0 0
    (CBS_init [] 0) None 0 0 None 0 (CBS_init [] 0) (Some sha256_md) (Some aead_chacha20_poly1305) demo_prot demo_prot.
Definition demo_msgs : list (Z * list Z) := [(SSL3_RT_APPLICATION_DATA, [104; 105; 0]); (SSL3_RT_HANDSHAKE, [])].

Lemma chacha_records_end_to_end_witness :
  exists rl1 log1 rs rl1',
    tls13_record_layer_set_write_traffic_key (mkSecret (Some (zeros 32)) 32) (demo_rl, []) = (Some tt, (rl1, log1)) /\
    seal_run demo_msgs rl1 = Some (rs, rl1') /\ rs.*2 = records_from aead_chacha20_poly1305 sha256_md (zeros 32) 0 demo_msgs.
Proof.
  destruct (chacha_records_end_to_end aead_chacha20_poly1305 sha256_md (zeros 32) demo_msgs demo_rl demo_rl [] []) as
    (rl1 & log1 & rl2 & log2 & rs & rl1' & E1 & _ & E2 & E3 & _).
  - intros n. reflexivity.
  - apply Forall_zeros.
  - reflexivity.
  - repeat constructor; by vm_compute.
  - reflexivity.
  - cbn. unfold TLS1_2_VERSION. lia.
  - reflexivity.
  - reflexivity.
  - reflexivity.
  - reflexivity.
  - exists rl1, log1, rs, rl1'. exact (conj E1 (conj E2 E3)).
Defined.
End Witness.
