(* ===== verification/Lhash.v ===== *)
(** * Dynamic hash tables (crypto/lhash/lhash.c)

    Linear hashing: the table grows and shrinks by one bucket at a time, and the array of
    buckets is reallocated when the number of buckets reaches a power of two.  A chain of
    [LHASH_NODE]s is a list; [getrn] returns the place of a pointer as a bucket and a position in
    its chain.  The hash and comparison callbacks are the class [LhFns]. *)
From S2P Require Import Prelude Compat Words.

Definition MIN_NODES : Z := 16.
Definition LH_LOAD_MULT : Z := 256.
Definition UP_LOAD : Z := 2 * LH_LOAD_MULT.
Definition DOWN_LOAD : Z := LH_LOAD_MULT.
Definition sizeof_LHASH : Z := 176.
Definition sizeof_LHASH_NODE : Z := 24.

(** [lh_data] is the type of the pointers that are stored. *)
Class LhFns := { lh_data : Type; lh_hash : lh_data -> Z; lh_comp : lh_data -> lh_data -> Z }.

(** The counters that are kept for statistics. *)
Inductive lh_stat :=
| num_expands | num_expand_reallocs | num_contracts | num_contract_reallocs | num_hash_calls
| num_comp_calls | num_insert | num_replace | num_delete | num_no_delete | num_retrieve
| num_retrieve_miss | num_hash_comps.
#[global] Instance lh_stat_eq : EqDecision lh_stat.
Proof. solve_decision. Defined.

Section Lhash.
Context `{Allocator} `{LhFns}.

Record LHASH_NODE := mkNode { n_data : lh_data; n_hash : Z }.

Record lhash_st := mkLh {
  lh_b : list (list LHASH_NODE);
  num_nodes : Z;
  num_alloc_nodes : Z;
  lh_p : Z;
  pmax : Z;
  up_load : Z;
  down_load : Z;
  num_items : Z;
  counters : lh_stat -> Z;
  lh_error : Z
}.

Definition set_table (b : list (list LHASH_NODE)) (nodes alloc p pm : Z) (lh : lhash_st) : lhash_st :=
  mkLh b nodes alloc p pm (up_load lh) (down_load lh) (num_items lh) (counters lh) (lh_error lh).
Definition set_buckets (b : list (list LHASH_NODE)) (lh : lhash_st) : lhash_st :=
  set_table b (num_nodes lh) (num_alloc_nodes lh) (lh_p lh) (pmax lh) lh.
Definition set_items (n : Z) (lh : lhash_st) : lhash_st :=
  mkLh (lh_b lh) (num_nodes lh) (num_alloc_nodes lh) (lh_p lh) (pmax lh) (up_load lh) (down_load lh) n (counters lh) (lh_error lh).
Definition set_error (e : Z) (lh : lhash_st) : lhash_st :=
  mkLh (lh_b lh) (num_nodes lh) (num_alloc_nodes lh) (lh_p lh) (pmax lh) (up_load lh) (down_load lh) (num_items lh) (counters lh) e.
Definition set_counters (c : lh_stat -> Z) (lh : lhash_st) : lhash_st :=
  mkLh (lh_b lh) (num_nodes lh) (num_alloc_nodes lh) (lh_p lh) (pmax lh) (up_load lh) (down_load lh) (num_items lh) c (lh_error lh).
Definition incr (s : lh_stat) (c : lh_stat -> Z) : lh_stat -> Z := fun t => if decide (t = s) then wrap64 (c t + 1) else c t.
Definition bump (s : lh_stat) (lh : lhash_st) : lhash_st := set_counters (incr s (counters lh)) lh.

Definition lh_new : option lhash_st :=
  if negb (malloc_ok sizeof_LHASH) then None
  else if negb (malloc_ok (MIN_NODES * 8)) then None
  else Some (mkLh (replicate 16 []) (MIN_NODES / 2) MIN_NODES 0 (MIN_NODES / 2) UP_LOAD DOWN_LOAD 0 (fun _ => 0) 0).

(** The chain of bucket [i], and what a place [*rn] holds. *)
Definition chain (lh : lhash_st) (i : nat) : list LHASH_NODE := default [] (lh_b lh !! i).
Definition at_place (lh : lhash_st) (rn : nat * nat) : option LHASH_NODE := chain lh rn.1 !! rn.2.

(** The loop of [getrn]: the position at which it stops, and the counters. *)
Fixpoint search (hash : Z) (data : lh_data) (l : list LHASH_NODE) (pos : nat) (c : lh_stat -> Z) : nat * (lh_stat -> Z) :=
  match l with
  | [] => (pos, c)
  | n1 :: l =>
      let c := incr num_hash_comps c in
      if negb (n_hash n1 =? hash) then search hash data l (S pos) c
      else
      let c := incr num_comp_calls c in
      if lh_comp (n_data n1) data =? 0 then (pos, c) else search hash data l (S pos) c
  end.

Definition getrn (data : lh_data) (lh : lhash_st) : (nat * nat) * Z * lhash_st :=
  let hash := lh_hash data in
  let lh := bump num_hash_calls lh in
  let nn := hash mod pmax lh in
  let nn := if nn <? lh_p lh then hash mod num_alloc_nodes lh else nn in
  let '(pos, c) := search hash data (chain lh (Z.to_nat nn)) 0 (counters lh) in
  (Z.to_nat nn, pos, hash, set_counters c lh).

(** The nodes of [*n1] that stay, and the ones that are pushed on [*n2]. *)
Fixpoint split_chain (nni p : Z) (l n2 : list LHASH_NODE) : list LHASH_NODE * list LHASH_NODE :=
  match l with
  | [] => ([], n2)
  | np :: l =>
      if negb (n_hash np mod nni =? p) then split_chain nni p l (np :: n2)
      else let '(s, n2) := split_chain nni p l n2 in (np :: s, n2)
  end.

Definition expand (lh : lhash_st) : lhash_st :=
  let p := lh_p lh in
  let lh := bump num_expands (set_table (lh_b lh) (wrap32 (num_nodes lh + 1)) (num_alloc_nodes lh) (wrap32 (p + 1)) (pmax lh) lh) in
  let '(s, n2) := split_chain (num_alloc_nodes lh) p (chain lh (Z.to_nat p)) [] in
  let lh := set_buckets (<[Z.to_nat (p + pmax lh) := n2]> (<[Z.to_nat p := s]> (lh_b lh))) lh in
  if pmax lh <=? lh_p lh then
    let j := wrap32 (num_alloc_nodes lh * 2) in
    if malloc_ok (j * 8) then
      bump num_expand_reallocs
        (set_table (lh_b lh ++ replicate (Z.to_nat (j - num_alloc_nodes lh)) []) (num_nodes lh) j 0 (num_alloc_nodes lh) lh)
    else set_error (lh_error lh + 1) (set_table (lh_b lh) (num_nodes lh) (num_alloc_nodes lh) 0 (pmax lh) lh)
  else lh.

(** The end of [contract]: the chain [np] goes to the end of bucket [p]. *)
Definition merge (np : list LHASH_NODE) (lh : lhash_st) : lhash_st :=
  let lh := bump num_contracts (set_table (lh_b lh) (wrap32 (num_nodes lh - 1)) (num_alloc_nodes lh) (lh_p lh) (pmax lh) lh) in
  set_buckets (<[Z.to_nat (lh_p lh) := chain lh (Z.to_nat (lh_p lh)) ++ np]> (lh_b lh)) lh.

Definition contract (lh : lhash_st) : lhash_st :=
  let last := Z.to_nat (lh_p lh + pmax lh - 1) in
  let np := chain lh last in
  let lh := set_buckets (<[last := []]> (lh_b lh)) lh in
  if lh_p lh =? 0 then
    if malloc_ok (pmax lh * 8) then
      merge np (bump num_contract_reallocs
        (set_table (ztake (pmax lh) (lh_b lh)) (num_nodes lh) (num_alloc_nodes lh / 2) (wrap32 (pmax lh / 2 - 1)) (pmax lh / 2) lh))
    else set_error (lh_error lh + 1) lh
  else merge np (set_table (lh_b lh) (num_nodes lh) (num_alloc_nodes lh) (wrap32 (lh_p lh - 1)) (pmax lh) lh).

(** [*rn = l], for the rest of the chain [l]. *)
Definition store_at (rn : nat * nat) (l : list LHASH_NODE) (lh : lhash_st) : lhash_st :=
  set_buckets (<[rn.1 := take rn.2 (chain lh rn.1) ++ l]> (lh_b lh)) lh.
Definition rest_at (rn : nat * nat) (lh : lhash_st) : list LHASH_NODE := drop rn.2 (chain lh rn.1).

(** The results are the returned pointers, [None] for NULL. *)
Definition lh_insert (data : lh_data) (lh : lhash_st) : option lh_data * lhash_st :=
  let lh := set_error 0 lh in
  let lh := if up_load lh <=? wrap64 (num_items lh * LH_LOAD_MULT) / num_nodes lh then expand lh else lh in
  let '(rn, hash, lh) := getrn data lh in
  match rest_at rn lh with
  | [] =>
      if negb (malloc_ok sizeof_LHASH_NODE) then (None, set_error (lh_error lh + 1) lh)
      else (None, set_items (wrap64 (num_items lh + 1)) (bump num_insert (store_at rn [mkNode data hash] lh)))
  | n :: next => (Some (n_data n), bump num_replace (store_at rn (mkNode data (n_hash n) :: next) lh))
  end.

Definition lh_delete (data : lh_data) (lh : lhash_st) : option lh_data * lhash_st :=
  let lh := set_error 0 lh in
  let '(rn, hash, lh) := getrn data lh in
  match rest_at rn lh with
  | [] => (None, bump num_no_delete lh)
  | nn :: next =>
      let lh := bump num_delete (store_at rn next lh) in
      let lh := set_items (wrap64 (num_items lh - 1)) lh in
      let lh := if (MIN_NODES <? num_nodes lh) && (wrap64 (num_items lh * LH_LOAD_MULT) / num_nodes lh <=? down_load lh)
                then contract lh else lh in
      (Some (n_data nn), lh)
  end.

Definition lh_retrieve (data : lh_data) (lh : lhash_st) : option lh_data * lhash_st :=
  let lh := set_error 0 lh in
  let '(rn, hash, lh) := getrn data lh in
  match at_place lh rn with
  | None => (None, bump num_retrieve_miss lh)
  | Some n => (Some (n_data n), bump num_retrieve lh)
  end.

(** The callback acts on a state [W] of its own; buckets from the last one down. *)
Definition doall_util_fn {W} (func : lh_data -> W -> W) (lh : lhash_st) (w : W) : W :=
  fold_left (fun w i => fold_left (fun w a => func (n_data a) w) (chain lh i) w) (rev (seq 0 (Z.to_nat (num_nodes lh)))) w.
Definition lh_doall {W} (func : lh_data -> W -> W) (lh : lhash_st) (w : W) : W := doall_util_fn func lh w.
Definition lh_doall_arg {W A} (func : lh_data -> A -> W -> W) (arg : A) (lh : lhash_st) (w : W) : W :=
  doall_util_fn (fun d => func d arg) lh w.

Definition lh_num_items (lh : option lhash_st) : Z := match lh with Some lh => num_items lh | None => 0 end.
End Lhash.

(** The hash function for strings; [char] is signed. *)
Definition char (c : Z) : Z := if c <? 128 then c else c - 256.
Fixpoint strhash_loop (c : list Z) (n ret : Z) : Z :=
  match c with
  | [] => ret
  | x :: c =>
      if x =? 0 then ret
      else
      let v := Z.lor n (wrap64 (char x)) in
      let r := Z.land (Z.lxor (Z.shiftr v 2) v) 0x0f in
      let ret := if negb (r =? 0) then Z.lor (wrap64 (Z.shiftl ret r)) (Z.shiftr ret (32 - r)) else ret in
      let ret := Z.land ret 0xFFFFFFFF in
      strhash_loop c (n + 0x100) (Z.lxor ret (wrap64 (v * v)))
  end.
Definition lh_strhash (c : option (list Z)) : Z :=
  match c with
  | None => 0
  | Some c => let ret := strhash_loop c 0x100 0 in Z.lxor (Z.shiftr ret 16) ret
  end.
