(* ===== verification/LhashSpec.v ===== *)
(** * Hash tables are finite maps

    The abstract specification of Lhash is a finite map from keys to the stored pointers; the
    refinement theorem says that every sequence of calls behaves as on that map, through all
    expansions and contractions of the table. *)
From S2P Require Import Prelude Compat Words Lhash.

(** What the callbacks promise: the comparison is equality of keys, and equal keys have equal hashes. *)
Class LhLaws `{LhFns} := {
  lh_key : Type;
  lh_key_eq :: EqDecision lh_key;
  lh_key_countable :: Countable lh_key;
  key : lh_data -> lh_key;
  lh_comp_key a b : lh_comp a b = 0 <-> key a = key b;
  lh_hash_key a b : key a = key b -> lh_hash a = lh_hash b;
  lh_hash_range a : 0 <= lh_hash a < 2 ^ 64
}.

Lemma mod_double h m : 0 < m -> h mod (2 * m) = h mod m \/ h mod (2 * m) = h mod m + m.
Proof.
  intros Hm. rewrite (Z.mul_comm 2 m), Z.rem_mul_r by lia.
  pose proof (Z.mod_pos_bound (h / m) 2). assert ((h / m) mod 2 = 0 \/ (h / m) mod 2 = 1) as [-> | ->] by lia; lia.
Qed.

Section Refinement.
Context `{Allocator} `{LhFns} `{!LhLaws}.

(** ** Collections of pointers with distinct keys *)
Definition dict (l : list lh_data) : gmap lh_key lh_data := list_to_map ((fun d => (key d, d)) <$> l).
Definition distinct (l : list lh_data) : Prop := NoDup (key <$> l).

Lemma dict_keys l : ((fun d => (key d, d)) <$> l).*1 = key <$> l.
Proof. rewrite <- list_fmap_compose. done. Qed.
Lemma dict_perm l l' : l ≡ₚ l' -> distinct l -> dict l = dict l'.
Proof. intros Hp Hd. apply list_to_map_proper; [by rewrite dict_keys|by rewrite Hp]. Qed.
Lemma distinct_perm l l' : l ≡ₚ l' -> distinct l -> distinct l'.
Proof. unfold distinct. intros Hp Hd. by rewrite <- Hp. Qed.
Lemma dict_cons d l : dict (d :: l) = <[key d := d]> (dict l).
Proof. done. Qed.
Lemma dict_None l k : dict l !! k = None <-> k ∉ key <$> l.
Proof. unfold dict. rewrite <- not_elem_of_list_to_map, dict_keys. done. Qed.
Lemma distinct_cons d l : distinct (d :: l) <-> dict l !! key d = None /\ distinct l.
Proof. unfold distinct. rewrite fmap_cons, NoDup_cons, dict_None. done. Qed.
Lemma dict_size l : distinct l -> size (dict l) = length l.
Proof.
  induction l as [|d l IH]; [done|]. intros [Hn Hd]%distinct_cons. rewrite dict_cons, map_size_insert_None, IH by done. done.
Qed.

(** ** The state of a table *)
Definition index (p pm h : Z) : Z := if h mod pm <? p then h mod (2 * pm) else h mod pm.
Definition placed (idx : Z -> Z) (b : list (list LHASH_NODE)) : Prop :=
  forall i l n, b !! i = Some l -> n ∈ l -> n_hash n = lh_hash (n_data n) /\ idx (n_hash n) = Z.of_nat i.
Definition items (b : list (list LHASH_NODE)) : list lh_data := n_data <$> concat b.
Definition contents (lh : lhash_st) : gmap lh_key lh_data := dict (items (lh_b lh)).

(** The invariant; [N] bounds the number of calls so far. *)
Record inv (N : Z) (lh : lhash_st) : Prop := {
  inv_pow : exists k, 0 <= k /\ pmax lh = 8 * 2 ^ k;
  inv_alloc : num_alloc_nodes lh = 2 * pmax lh;
  inv_len : zlen (lh_b lh) = num_alloc_nodes lh;
  inv_p : 0 <= lh_p lh < pmax lh;
  inv_nodes : num_nodes lh = pmax lh + lh_p lh;
  inv_placed : placed (index (lh_p lh) (pmax lh)) (lh_b lh);
  inv_distinct : distinct (items (lh_b lh));
  inv_items : num_items lh = zlen (items (lh_b lh));
  inv_bound : num_nodes lh <= 8 + N /\ num_items lh <= N;
  inv_loads : up_load lh = UP_LOAD /\ down_load lh = DOWN_LOAD
}.

Lemma inv_pmax N lh : inv N lh -> 8 <= pmax lh.
Proof. intros Hi. destruct (inv_pow _ _ Hi) as (k & Hk & ->). pose proof (Z.pow_pos_nonneg 2 k). lia. Qed.
Lemma index_range p pm h : 0 <= p <= pm -> 0 < pm -> 0 <= index p pm h < pm + p \/ (p = pm /\ 0 <= index p pm h < 2 * pm).
Proof.
  intros Hp Hm. unfold index. pose proof (Z.mod_pos_bound h pm). pose proof (mod_double h pm).
  destruct (Z.ltb_spec (h mod pm) p); lia.
Qed.

Lemma concat_at {A} (b : list (list A)) i l :
  b !! i = Some l -> exists rest, concat b ≡ₚ l ++ rest /\ forall l', concat (<[i := l']> b) ≡ₚ l' ++ rest.
Proof.
  intros Hi. pose proof (lookup_lt_Some _ _ _ Hi) as Hlt.
  assert (Hall : forall l', concat (<[i := l']> b) ≡ₚ l' ++ (concat (take i b) ++ concat (drop (S i) b))).
  { intros l'. rewrite insert_take_drop by done. rewrite concat_app. cbn [concat]. by rewrite !app_assoc, (Permutation_app_comm l'). }
  eexists. split; [|exact Hall]. rewrite <- (Hall l). by rewrite list_insert_id by done.
Qed.
Lemma concat_nils {A} n : concat (replicate n (@nil A)) = [].
Proof. by induction n. Qed.
Lemma items_at b i l : b !! i = Some l -> exists rest, items b ≡ₚ (n_data <$> l) ++ rest /\ forall l', items (<[i := l']> b) ≡ₚ (n_data <$> l') ++ rest.
Proof.
  intros Hi. destruct (concat_at b i l Hi) as (rest & Hr & Hall). exists (n_data <$> rest). unfold items. split.
  - by rewrite Hr, fmap_app.
  - intros l'. by rewrite Hall, fmap_app.
Qed.
Lemma placed_insert idx b i l :
  placed idx b -> (forall n, n ∈ l -> n_hash n = lh_hash (n_data n) /\ idx (n_hash n) = Z.of_nat i) -> placed idx (<[i := l]> b).
Proof.
  intros Hb Hl j l' n Hj Hn. apply list_lookup_insert_Some in Hj as [(-> & -> & _)|(_ & Hj)]; [by apply Hl|by eapply Hb].
Qed.

(** ** Finding a place *)
Definition matches (data : lh_data) (n : LHASH_NODE) : Prop := n_hash n = lh_hash data /\ lh_comp (n_data n) data = 0.

Lemma search_spec data l pos c :
  exists pre post, l = pre ++ post /\ (search (lh_hash data) data l pos c).1 = (pos + length pre)%nat /\
    Forall (fun n => ~ matches data n) pre /\ match post with [] => True | n :: _ => matches data n end.
Proof.
  revert pos c. induction l as [|n l IH]; intros pos c.
  { exists [], []. split_and!; [done|cbn; lia|constructor|done]. }
  cbn [search].
  assert (Hgo : ~ matches data n -> forall c', exists pre post, n :: l = pre ++ post /\
    (search (lh_hash data) data l (S pos) c').1 = (pos + length pre)%nat /\
    Forall (fun n => ~ matches data n) pre /\ match post with [] => True | n :: _ => matches data n end).
  { intros Hn c'. destruct (IH (S pos) c') as (pre & post & -> & E & Hpre & Hpost). exists (n :: pre), post.
    split_and!; [done|rewrite E; cbn [length]; lia|by constructor|done]. }
  destruct (Z.eqb_spec (n_hash n) (lh_hash data)) as [Hh|Hh]; cbn [negb]; [|apply Hgo; by intros [? _]].
  destruct (Z.eqb_spec (lh_comp (n_data n) data) 0) as [Hc|Hc]; [|apply Hgo; by intros [_ ?]].
  exists [], (n :: l). cbn. split_and!; [done|lia|constructor|done].
Qed.

(** [getrn] finds the place of the key, or the end of the chain where it belongs. *)
Lemma getrn_spec N data lh :
  inv N lh ->
  exists i pre post c, getrn data lh = (i, length pre, lh_hash data, set_counters c lh) /\
    Z.of_nat i = index (lh_p lh) (pmax lh) (lh_hash data) /\ lh_b lh !! i = Some (pre ++ post) /\
    match post with [] => contents lh !! key data = None | n :: _ => key (n_data n) = key data /\ n_hash n = lh_hash data end.
Proof.
  intros Hi. pose proof (inv_pmax _ _ Hi) as Hpm. pose proof (inv_p _ _ Hi) as Hp. unfold getrn. cbn [bump pmax lh_p num_alloc_nodes set_counters].
  rewrite (inv_alloc _ _ Hi). fold (index (lh_p lh) (pmax lh) (lh_hash data)). set (nn := index _ _ _).
  assert (Hnn : 0 <= nn < pmax lh + lh_p lh) by (pose proof (index_range (lh_p lh) (pmax lh) (lh_hash data)); lia).
  pose proof (inv_len _ _ Hi) as Hl. rewrite (inv_alloc _ _ Hi) in Hl.
  destruct (lookup_lt_is_Some_2 (lh_b lh) (Z.to_nat nn)) as [l Hch]; [unfold zlen in Hl; lia|].
  replace (chain _ (Z.to_nat nn)) with l by (change (l = default [] (lh_b lh !! Z.to_nat nn)); by rewrite Hch).
  set (c0 := counters _). destruct (search_spec data l 0 c0) as (pre & post & -> & E & Hpre & Hpost).
  destruct (search _ _ _ _ _) as [pos c]. cbn [fst] in E. subst pos. exists (Z.to_nat nn), pre, post, c. split; [done|].
  split; [lia|]. split; [done|]. destruct post as [|n post].
  - apply dict_None. intros (d & Hk & Hd)%list_elem_of_fmap. unfold items in Hd. apply list_elem_of_fmap in Hd as (n & -> & Hn).
    apply list_elem_of_In, in_concat in Hn as (l & Hl' & Hn). apply list_elem_of_In in Hl', Hn. apply list_elem_of_lookup in Hl' as (j & Hj).
    destruct (inv_placed _ _ Hi j l n Hj Hn) as [Hh Hx]. rewrite Hh, <- (lh_hash_key data (n_data n) Hk) in Hx.
    assert (j = Z.to_nat nn) as -> by (unfold nn; lia). rewrite Hch, app_nil_r in Hj. injection Hj as <-.
    rewrite Forall_forall in Hpre. apply (Hpre n Hn). split; [by rewrite Hh; symmetry; apply lh_hash_key|]. by apply lh_comp_key.
  - destruct Hpost as [Hh Hc]. split; [by apply lh_comp_key|done].
Qed.

(** ** Changing a chain *)
Lemma inv_change N N' lh lh' :
  inv N lh -> N <= N' ->
  (num_nodes lh', num_alloc_nodes lh', lh_p lh', pmax lh', up_load lh', down_load lh') =
  (num_nodes lh, num_alloc_nodes lh, lh_p lh, pmax lh, up_load lh, down_load lh) ->
  zlen (lh_b lh') = zlen (lh_b lh) -> placed (index (lh_p lh) (pmax lh)) (lh_b lh') -> distinct (items (lh_b lh')) ->
  num_items lh' = zlen (items (lh_b lh')) -> num_items lh' <= N' -> inv N' lh'.
Proof.
  intros [] HN Heq Hl Hp Hd Hn Hb. injection Heq as E1 E2 E3 E4 E5 E6. split; rewrite ?E1, ?E2, ?E3, ?E4, ?E5, ?E6, ?Hl; (done || lia).
Qed.
Lemma inv_mono N N' lh : inv N lh -> N <= N' -> inv N' lh.
Proof. intros Hi HN. apply (inv_change N N' lh lh Hi HN); try done; try apply Hi. pose proof (inv_bound _ _ Hi). lia. Qed.
Lemma inv_counters N lh c : inv N lh -> inv N (set_counters c lh).
Proof. intros []. by split. Qed.
Lemma inv_error N lh e : inv N lh -> inv N (set_error e lh).
Proof. intros []. by split. Qed.

(** What a place holds, once [getrn] has found it. *)
Lemma rest_at_found lh c i (pre post : list LHASH_NODE) : lh_b lh !! i = Some (pre ++ post) -> rest_at (i, length pre) (set_counters c lh) = post.
Proof. intros Hb. change (drop (length pre) (default [] (lh_b lh !! i)) = post). rewrite Hb. apply drop_app_length. Qed.
Lemma store_at_found lh c i (pre post l : list LHASH_NODE) :
  lh_b lh !! i = Some (pre ++ post) -> lh_b (store_at (i, length pre) l (set_counters c lh)) = <[i := pre ++ l]> (lh_b lh).
Proof.
  intros Hb. change (<[i := take (length pre) (default [] (lh_b lh !! i)) ++ l]> (lh_b lh) = <[i := pre ++ l]> (lh_b lh)).
  rewrite Hb. cbn [from_option id]. by rewrite take_app_length.
Qed.

(** The effect of storing [post'] where [post] was, with the pointers that are added and removed. *)
Lemma change_chain N lh i (pre post post' : list LHASH_NODE) (dels adds : list lh_data) :
  inv N lh -> lh_b lh !! i = Some (pre ++ post) ->
  (forall n, n ∈ post' -> n_hash n = lh_hash (n_data n) /\ index (lh_p lh) (pmax lh) (n_hash n) = Z.of_nat i) ->
  (exists r, n_data <$> post = dels ++ r /\ n_data <$> post' = adds ++ r) ->
  let b' := <[i := pre ++ post']> (lh_b lh) in
  zlen b' = zlen (lh_b lh) /\ placed (index (lh_p lh) (pmax lh)) b' /\
  exists R, items (lh_b lh) ≡ₚ dels ++ R /\ items b' ≡ₚ adds ++ R.
Proof.
  intros Hi Hb Hpost (r & Hd & Ha) b'. split; [by unfold zlen, b'; rewrite length_insert|]. split.
  - apply placed_insert; [apply (inv_placed _ _ Hi)|]. intros n [Hn|Hn]%elem_of_app; [|by apply Hpost].
    apply (inv_placed _ _ Hi i (pre ++ post)); [done|]. apply elem_of_app. by left.
  - destruct (items_at _ _ _ Hb) as (rest & Hr & Hall). exists (r ++ (n_data <$> pre) ++ rest). split.
    + rewrite Hr, fmap_app, Hd. rewrite <- !app_assoc. by rewrite Permutation_app_swap_app, (Permutation_app_swap_app _ r).
    + unfold b'. rewrite Hall, fmap_app, Ha. rewrite <- !app_assoc. by rewrite Permutation_app_swap_app, (Permutation_app_swap_app _ r).
Qed.

Lemma inserted_new N lh lh' data hash i pre :
  inv N lh -> N < 2 ^ 28 -> lh_b lh !! i = Some (pre ++ []) -> hash = lh_hash data -> Z.of_nat i = index (lh_p lh) (pmax lh) hash ->
  contents lh !! key data = None -> lh_b lh' = <[i := pre ++ [mkNode data hash]]> (lh_b lh) ->
  (num_nodes lh', num_alloc_nodes lh', lh_p lh', pmax lh', up_load lh', down_load lh') =
  (num_nodes lh, num_alloc_nodes lh, lh_p lh, pmax lh, up_load lh, down_load lh) ->
  num_items lh' = wrap64 (num_items lh + 1) ->
  inv (N + 1) lh' /\ contents lh' = <[key data := data]> (contents lh).
Proof.
  intros Hi HN Hb -> Hx Hnone Hb' Heq Hn.
  destruct (change_chain N lh i pre [] [mkNode data (lh_hash data)] [] [data] Hi Hb) as (Hl & Hp & R & HR & HR').
  { intros n ->%list_elem_of_singleton. done. }
  { by exists []. }
  rewrite <- Hb' in Hl, Hp, HR'. cbn [app] in HR, HR'. pose proof (distinct_perm _ _ HR (inv_distinct _ _ Hi)) as HdR.
  assert (Hd' : distinct (data :: R)).
  { apply distinct_cons. split; [|done]. unfold contents in Hnone. by rewrite (dict_perm _ _ HR (inv_distinct _ _ Hi)) in Hnone. }
  pose proof (inv_bound _ _ Hi) as [Hb1 Hb2]. pose proof (inv_items _ _ Hi) as Hit.
  assert (Hlen : zlen (items (lh_b lh')) = num_items lh + 1) by (rewrite Hit; unfold zlen; rewrite HR', HR; cbn [length]; lia).
  unfold wrap64 in Hn. rewrite Z.mod_small in Hn by (rewrite Hit in *; zl). split.
  - apply (inv_change N (N + 1) lh lh' Hi); [lia|done|done|done| |lia|lia]. by apply (distinct_perm (data :: R)).
  - unfold contents. rewrite (dict_perm _ _ HR') by (by apply (distinct_perm (data :: R))). rewrite dict_cons. by rewrite (dict_perm _ _ HR (inv_distinct _ _ Hi)).
Qed.

Lemma replaced N lh lh' data i pre n next :
  inv N lh -> lh_b lh !! i = Some (pre ++ n :: next) -> key (n_data n) = key data -> n_hash n = lh_hash data ->
  lh_b lh' = <[i := pre ++ mkNode data (n_hash n) :: next]> (lh_b lh) ->
  (num_nodes lh', num_alloc_nodes lh', lh_p lh', pmax lh', up_load lh', down_load lh') =
  (num_nodes lh, num_alloc_nodes lh, lh_p lh, pmax lh, up_load lh, down_load lh) ->
  num_items lh' = num_items lh ->
  contents lh !! key data = Some (n_data n) /\ inv N lh' /\ contents lh' = <[key data := data]> (contents lh).
Proof.
  intros Hi Hb Hk Hh Hb' Heq Hn.
  assert (Hin : forall x, x ∈ n :: next -> n_hash x = lh_hash (n_data x) /\ index (lh_p lh) (pmax lh) (n_hash x) = Z.of_nat i).
  { intros x Hx. apply (inv_placed _ _ Hi i (pre ++ n :: next)); [done|]. apply elem_of_app. by right. }
  destruct (change_chain N lh i pre (n :: next) (mkNode data (n_hash n) :: next) [n_data n] [data] Hi Hb) as (Hl & Hp & R & HR & HR').
  { intros x [-> | Hx]%elem_of_cons; [|by apply Hin; right]. cbn [n_hash n_data]. split; [done|]. by apply Hin; left. }
  { by exists (n_data <$> next). }
  rewrite <- Hb' in Hl, Hp, HR'. cbn [app] in HR, HR'. pose proof (distinct_perm _ _ HR (inv_distinct _ _ Hi)) as HdR.
  assert (Hd' : distinct (data :: R)) by (apply distinct_cons in HdR as [? ?]; apply distinct_cons; by rewrite <- Hk).
  pose proof (inv_bound _ _ Hi) as [Hb1 Hb2]. pose proof (inv_items _ _ Hi) as Hit.
  assert (Hlen : zlen (items (lh_b lh')) = num_items lh) by (rewrite Hit; unfold zlen; rewrite HR', HR; done).
  assert (Hc : contents lh = <[key data := n_data n]> (dict R)) by (unfold contents; rewrite (dict_perm _ _ HR (inv_distinct _ _ Hi)), dict_cons; by rewrite Hk).
  split_and!.
  - by rewrite Hc, lookup_insert_eq.
  - apply (inv_change N N lh lh' Hi); [lia|done|done|done| |lia|lia]. by apply (distinct_perm (data :: R)).
  - rewrite Hc, insert_insert_eq. unfold contents. by rewrite (dict_perm _ _ HR') by (by apply (distinct_perm (data :: R))).
Qed.

Lemma deleted N lh lh' data i pre n next :
  inv N lh -> N < 2 ^ 28 -> lh_b lh !! i = Some (pre ++ n :: next) -> key (n_data n) = key data ->
  lh_b lh' = <[i := pre ++ next]> (lh_b lh) ->
  (num_nodes lh', num_alloc_nodes lh', lh_p lh', pmax lh', up_load lh', down_load lh') =
  (num_nodes lh, num_alloc_nodes lh, lh_p lh, pmax lh, up_load lh, down_load lh) ->
  num_items lh' = wrap64 (num_items lh - 1) ->
  contents lh !! key data = Some (n_data n) /\ inv N lh' /\ contents lh' = delete (key data) (contents lh).
Proof.
  intros Hi HN Hb Hk Hb' Heq Hn.
  destruct (change_chain N lh i pre (n :: next) next [n_data n] [] Hi Hb) as (Hl & Hp & R & HR & HR').
  { intros x Hx. apply (inv_placed _ _ Hi i (pre ++ n :: next)); [done|]. apply elem_of_app. right. by right. }
  { by exists (n_data <$> next). }
  rewrite <- Hb' in Hl, Hp, HR'. cbn [app] in HR, HR'. pose proof (distinct_perm _ _ HR (inv_distinct _ _ Hi)) as HdR.
  pose proof HdR as [HnR Hd']%distinct_cons. pose proof (inv_bound _ _ Hi) as [Hb1 Hb2]. pose proof (inv_items _ _ Hi) as Hit.
  assert (Hlen : zlen (items (lh_b lh')) = num_items lh - 1) by (rewrite Hit; unfold zlen; rewrite HR', HR; cbn [length]; lia).
  unfold wrap64 in Hn. rewrite Z.mod_small in Hn by (pose proof (zlen_nonneg (items (lh_b lh'))); lia).
  assert (Hc : contents lh = <[key data := n_data n]> (dict R)) by (unfold contents; rewrite (dict_perm _ _ HR (inv_distinct _ _ Hi)), dict_cons; by rewrite Hk).
  split_and!.
  - by rewrite Hc, lookup_insert_eq.
  - apply (inv_change N N lh lh' Hi); [lia|done|done|done| |lia|lia]. by apply (distinct_perm R).
  - rewrite Hc, delete_insert_id by (by rewrite <- Hk). unfold contents. by rewrite (dict_perm _ _ HR') by (by apply (distinct_perm R)).
Qed.

(** ** Growing and shrinking *)
Lemma split_chain_spec nni p l n2 s r :
  split_chain nni p l n2 = (s, r) ->
  s ++ r ≡ₚ l ++ n2 /\ (forall n, n ∈ s -> n ∈ l /\ n_hash n mod nni = p) /\ (forall n, n ∈ r -> n ∈ n2 \/ (n ∈ l /\ n_hash n mod nni <> p)).
Proof.
  revert n2 s r. induction l as [|x l IH]; intros n2 s r; cbn [split_chain].
  { intros [= <- <-]. split_and!; [done|by intros n Hn%elem_of_nil|auto]. }
  destruct (Z.eqb_spec (n_hash x mod nni) p) as [Hx|Hx]; cbn [negb].
  - destruct (split_chain nni p l n2) as [s' r'] eqn:E. intros [= <- <-]. destruct (IH _ _ _ E) as (Hp & Hs & Hr). split_and!.
    + cbn [app]. by rewrite Hp.
    + intros n [-> | Hn]%elem_of_cons; [split; [by left|done]|]. destruct (Hs n Hn). split; [by right|done].
    + intros n Hn. destruct (Hr n Hn) as [?|[? ?]]; [by left|]. right. split; [by right|done].
  - intros E. destruct (IH _ _ _ E) as (Hp & Hs & Hr). split_and!.
    + rewrite Hp. cbn [app]. by rewrite Permutation_middle.
    + intros n Hn. destruct (Hs n Hn). split; [by right|done].
    + intros n Hn. destruct (Hr n Hn) as [[-> | ?]%elem_of_cons|[? ?]]; [right; split; [by left|done]|by left|]. right. split; [by right|done].
Qed.

(** A bucket that no hash leads to is empty. *)
Lemma bucket_empty N lh i l : inv N lh -> num_nodes lh <= Z.of_nat i -> lh_b lh !! i = Some l -> l = [].
Proof.
  intros Hi Hn Hb. destruct l as [|n l]; [done|]. exfalso. destruct (inv_placed _ _ Hi i (n :: l) n Hb ltac:(by left)) as [_ Hx].
  pose proof (inv_p _ _ Hi). pose proof (inv_nodes _ _ Hi). pose proof (index_range (lh_p lh) (pmax lh) (n_hash n)). lia.
Qed.

(** Splitting bucket [p] places every node for [p + 1]. *)
Lemma expand_split N lh s r :
  inv N lh -> split_chain (num_alloc_nodes lh) (lh_p lh) (chain lh (Z.to_nat (lh_p lh))) [] = (s, r) ->
  let b' := <[Z.to_nat (lh_p lh + pmax lh) := r]> (<[Z.to_nat (lh_p lh) := s]> (lh_b lh)) in
  zlen b' = zlen (lh_b lh) /\ items b' ≡ₚ items (lh_b lh) /\ placed (index (lh_p lh + 1) (pmax lh)) b'.
Proof.
  intros Hi E b'. pose proof (inv_p _ _ Hi) as Hp. pose proof (inv_len _ _ Hi) as Hl. rewrite (inv_alloc _ _ Hi) in Hl, E.
  destruct (lookup_lt_is_Some_2 (lh_b lh) (Z.to_nat (lh_p lh))) as [l Hb1]; [unfold zlen in Hl; lia|].
  destruct (lookup_lt_is_Some_2 (lh_b lh) (Z.to_nat (lh_p lh + pmax lh))) as [e Hb2]; [unfold zlen in Hl; lia|].
  assert (e = []) as -> by (refine (bucket_empty N lh _ _ Hi _ Hb2); rewrite (inv_nodes _ _ Hi); lia).
  replace (chain lh _) with l in E by (unfold chain; by rewrite Hb1).
  destruct (split_chain_spec _ _ _ _ _ _ E) as (Hperm & Hs & Hr). rewrite app_nil_r in Hperm. split_and!.
  - unfold zlen, b'. by rewrite !length_insert.
  - destruct (items_at _ _ _ Hb1) as (R & HR & HRall). assert (Hb3 : <[Z.to_nat (lh_p lh) := s]> (lh_b lh) !! Z.to_nat (lh_p lh + pmax lh) = Some []) by (rewrite list_lookup_insert_ne by lia; done).
    destruct (items_at _ _ _ Hb3) as (R2 & HR2 & HR2all). unfold b'. rewrite HR2all. cbn [fmap list_fmap app] in HR2. rewrite <- HR2, HRall, HR, <- Hperm.
    rewrite fmap_app, <- app_assoc. apply Permutation_app_swap_app.
  - assert (Hlp : forall n, n ∈ l -> n_hash n = lh_hash (n_data n) /\ n_hash n mod pmax lh = lh_p lh).
    { intros n Hn. destruct (inv_placed _ _ Hi _ _ _ Hb1 Hn) as [Hh Hx]. split; [done|]. unfold index in Hx.
      pose proof (mod_double (n_hash n) (pmax lh)). pose proof (Z.mod_pos_bound (n_hash n) (pmax lh)).
      destruct (Z.ltb_spec (n_hash n mod pmax lh) (lh_p lh)); lia. }
    intros j l' n Hj Hn. apply list_lookup_insert_Some in Hj as [(<- & -> & _)|(Hne1 & Hj)]; [|apply list_lookup_insert_Some in Hj as [(<- & -> & _)|(Hne2 & Hj)]].
    + destruct (Hr n Hn) as [?%elem_of_nil|[Hin Hm]]; [done|]. destruct (Hlp n Hin) as [Hh Hx]. split; [done|]. unfold index. rewrite Hx.
      rewrite (proj2 (Z.ltb_lt _ _)) by lia. pose proof (mod_double (n_hash n) (pmax lh)). lia.
    + destruct (Hs n Hn) as [Hin Hm]. destruct (Hlp n Hin) as [Hh Hx]. split; [done|]. unfold index. rewrite Hx, (proj2 (Z.ltb_lt _ _)) by lia. lia.
    + destruct (inv_placed _ _ Hi _ _ _ Hj Hn) as [Hh Hx]. split; [done|]. revert Hx. unfold index.
      destruct (Z.ltb_spec (n_hash n mod pmax lh) (lh_p lh)), (Z.ltb_spec (n_hash n mod pmax lh) (lh_p lh + 1)); lia.
Qed.

(** The arrays of buckets can be reallocated. *)
Definition can_resize : Prop := forall n, 128 <= n -> malloc_ok n = true.

Lemma expand_ok N lh :
  inv N lh -> N < 2 ^ 28 -> can_resize ->
  inv (N + 1) (expand lh) /\ contents (expand lh) = contents lh /\ lh_error (expand lh) = lh_error lh.
Proof.
  intros Hi HN Hm. pose proof (inv_p _ _ Hi) as Hp. pose proof (inv_nodes _ _ Hi) as Hn. pose proof (inv_pmax _ _ Hi) as Hpm.
  pose proof (inv_alloc _ _ Hi) as Ha. pose proof (inv_bound _ _ Hi) as [Hb1 Hb2]. pose proof (inv_len _ _ Hi) as Hl.
  unfold expand. set (lh1 := bump num_expands _).
  change (num_alloc_nodes lh1) with (num_alloc_nodes lh). change (chain lh1 (Z.to_nat (lh_p lh))) with (chain lh (Z.to_nat (lh_p lh))).
  destruct (split_chain _ _ _ _) as [s r] eqn:E. destruct (expand_split N lh s r Hi E) as (Hlen & Hitems & Hpl).
  change (pmax lh1) with (pmax lh). change (lh_b lh1) with (lh_b lh). set (b' := <[Z.to_nat (lh_p lh + pmax lh) := r]> _) in *.
  set (lh2 := set_buckets b' lh1). change (pmax lh2) with (pmax lh). change (num_alloc_nodes lh2) with (num_alloc_nodes lh).
  assert (Ep : lh_p lh2 = lh_p lh + 1) by (apply Z.mod_small; lia). assert (En : num_nodes lh2 = num_nodes lh + 1) by (apply Z.mod_small; lia).
  assert (Eit : num_items lh2 = num_items lh) by reflexivity.
  unfold wrap32. rewrite Ep, (Z.mod_small (num_alloc_nodes lh * 2)) by lia.
  pose proof (distinct_perm _ _ (symmetry Hitems) (inv_distinct _ _ Hi)) as Hd.
  assert (Hzi : zlen (items b') = zlen (items (lh_b lh))) by (unfold zlen; by rewrite Hitems).
  pose proof (inv_items _ _ Hi) as Hit. destruct (inv_pow _ _ Hi) as (k & Hk & Hpk).
  destruct (Z.leb_spec (pmax lh) (lh_p lh + 1)) as [Hfull|Hmore].
  - rewrite Hm by lia. change (lh_b lh2) with b'. set (b2 := b' ++ _). assert (Hi2 : items b2 = items b').
    { unfold b2, items. rewrite concat_app. by rewrite concat_nils, app_nil_r. }
    split_and!; [|change (dict (items b2) = contents lh); rewrite Hi2; by apply dict_perm|done].
    split; cbn [bump set_counters set_table pmax num_alloc_nodes lh_b lh_p num_nodes num_items up_load down_load]; rewrite ?Hi2, ?En, ?Eit; try done; try lia.
    + exists (k + 1). split; [lia|]. rewrite Z.pow_add_r by lia. lia.
    + unfold b2. rewrite zlen_app, zlen_replicate. lia.
    + intros j l n Hj Hin. unfold b2 in Hj. apply lookup_app_Some in Hj as [Hj|[_ Hj]].
      * destruct (Hpl j l n Hj Hin) as [Hh Hx]. split; [done|]. rewrite <- Hx. unfold index. pose proof (Z.mod_pos_bound (n_hash n) (pmax lh)).
        pose proof (Z.mod_pos_bound (n_hash n) (num_alloc_nodes lh)).
        rewrite (proj2 (Z.ltb_lt (n_hash n mod pmax lh) _)), (proj2 (Z.ltb_ge (n_hash n mod num_alloc_nodes lh) 0)) by lia. by rewrite Ha.
      * apply lookup_replicate in Hj as [-> _]. by apply elem_of_nil in Hin.
    + apply (inv_loads _ _ Hi).
  - split_and!; [|change (dict (items b') = contents lh); by apply dict_perm|done].
    split; rewrite ?Ep, ?En, ?Eit; try done; try (by rewrite Hlen); try lia.
    + by exists k.
    + change (zlen b' = num_alloc_nodes lh). by rewrite Hlen.
    + change (0 <= lh_p lh + 1 < pmax lh). lia.
    + change (num_nodes lh + 1 = pmax lh + (lh_p lh + 1)). lia.
    + change (num_items lh = zlen (items b')). by rewrite Hzi.
    + apply (inv_loads _ _ Hi).
Qed.

(** Emptying the last bucket into bucket [p'], in a table for which that is where its nodes belong. *)
Lemma merge_ok N lh lh1 np p' pm' :
  inv N lh -> lh_b lh !! Z.to_nat (num_nodes lh - 1) = Some np ->
  pmax lh1 = pm' -> lh_p lh1 = p' -> 0 <= p' < pm' -> pm' + p' = num_nodes lh - 1 -> num_alloc_nodes lh1 = 2 * pm' -> (exists k, 0 <= k /\ pm' = 8 * 2 ^ k) ->
  num_nodes lh1 = num_nodes lh -> num_items lh1 = num_items lh -> (up_load lh1, down_load lh1) = (up_load lh, down_load lh) ->
  lh_b lh1 = ztake (2 * pm') (<[Z.to_nat (num_nodes lh - 1) := []]> (lh_b lh)) -> 2 * pm' <= num_alloc_nodes lh -> num_nodes lh <= 2 * pm' -> N < 2 ^ 28 ->
  (forall h, 0 <= h -> index (lh_p lh) (pmax lh) h = num_nodes lh - 1 -> index p' pm' h = p') ->
  (forall h, 0 <= h -> index (lh_p lh) (pmax lh) h <> num_nodes lh - 1 -> index p' pm' h = index (lh_p lh) (pmax lh) h) ->
  inv N (merge np lh1) /\ contents (merge np lh1) = contents lh.
Proof.
  intros Hi Hnp Epm Ep Hp' Hpp Hal Hk Hnn Hni Hload Hb1 Hle Hle2 HN Hlast Hother.
  pose proof (inv_len _ _ Hi) as Hl. pose proof (inv_bound _ _ Hi) as [Hbd1 Hbd2]. pose proof (inv_pmax _ _ Hi) as Hpm.
  set (last := Z.to_nat (num_nodes lh - 1)) in *. set (b1 := <[last := []]> (lh_b lh)) in *.
  assert (Hlb1 : length b1 = length (lh_b lh)) by apply length_insert.
  assert (Hat : forall i, Z.of_nat i < 2 * pm' -> lh_b lh1 !! i = b1 !! i) by (intros i Hlt; rewrite Hb1; unfold ztake; apply lookup_take_lt; lia).
  destruct (lookup_lt_is_Some_2 (lh_b lh) (Z.to_nat p')) as [l Hl1]; [unfold zlen in Hl; lia|].
  assert (Hne : last <> Z.to_nat p') by (unfold last; lia).
  assert (Hlp : lh_b lh1 !! Z.to_nat p' = Some l) by (rewrite Hat by lia; unfold b1; by rewrite list_lookup_insert_ne).
  assert (Hb2 : lh_b (merge np lh1) = <[Z.to_nat p' := l ++ np]> (lh_b lh1)).
  { unfold merge. set (lh2 := bump num_contracts _). change (lh_p lh2) with (lh_p lh1). rewrite Ep.
    change (<[Z.to_nat p' := default [] (lh_b lh1 !! Z.to_nat p') ++ np]> (lh_b lh1) = <[Z.to_nat p' := l ++ np]> (lh_b lh1)). by rewrite Hlp. }
  assert (Hitems1 : items (lh_b lh) ≡ₚ (n_data <$> np) ++ items (lh_b lh1)).
  { destruct (items_at _ _ _ Hnp) as (R & HR & HRall). rewrite HR. apply Permutation_app_head. specialize (HRall []). cbn [fmap list_fmap app] in HRall.
    rewrite <- HRall. fold b1. rewrite Hb1. rewrite <- (ztake_zdrop (2 * pm') b1) at 1. unfold items. rewrite concat_app, fmap_app.
    replace (concat (zdrop (2 * pm') b1)) with (@nil LHASH_NODE); [by rewrite app_nil_r|].
    symmetry. apply concat_nil_Forall, Forall_forall. intros x Hx%list_elem_of_In. apply list_elem_of_In, list_elem_of_lookup in Hx as (j & Hj). unfold zdrop in Hj. rewrite lookup_drop in Hj.
    unfold b1 in Hj. apply list_lookup_insert_Some in Hj as [(_ & -> & _)|(_ & Hj)]; [done|].
    apply (bucket_empty N lh _ _ Hi) in Hj; [done|lia]. }
  destruct (items_at _ _ _ Hlp) as (R & HR & HRall).
  assert (Hitems : items (lh_b (merge np lh1)) ≡ₚ items (lh_b lh)).
  { rewrite Hb2, HRall, Hitems1, HR, fmap_app. rewrite <- app_assoc. rewrite Permutation_app_swap_app. done. }
  pose proof (distinct_perm _ _ (symmetry Hitems) (inv_distinct _ _ Hi)) as Hd.
  split; [|unfold contents; by apply dict_perm].
  assert (Epl : placed (index p' pm') (lh_b (merge np lh1))).
  { rewrite Hb2. apply placed_insert.
    - intros i l' n Hin Hn. pose proof (lookup_lt_Some _ _ _ Hin) as Hlt. rewrite Hb1 in Hlt. unfold ztake in Hlt. rewrite length_take in Hlt.
      rewrite Hat in Hin by lia. unfold b1 in Hin. apply list_lookup_insert_Some in Hin as [(_ & <- & _)|(Hni' & Hin)]; [by apply elem_of_nil in Hn|].
      destruct (inv_placed _ _ Hi _ _ _ Hin Hn) as [Hh Hx]. split; [done|]. rewrite <- Hx. apply Hother; [rewrite Hh; apply lh_hash_range|]. unfold last in Hni'. lia.
    - intros n [Hn|Hn]%elem_of_app.
      + destruct (inv_placed _ _ Hi _ _ _ Hl1 Hn) as [Hh Hx]. split; [done|]. rewrite <- Hx. apply Hother; [rewrite Hh; apply lh_hash_range|]. lia.
      + destruct (inv_placed _ _ Hi _ _ _ Hnp Hn) as [Hh Hx]. split; [done|]. rewrite Hlast; [lia|rewrite Hh; apply lh_hash_range|]. unfold last in Hx. lia. }
  assert (Enn : num_nodes (merge np lh1) = num_nodes lh - 1) by (change (wrap32 (num_nodes lh1 - 1) = num_nodes lh - 1); rewrite Hnn; apply Z.mod_small; lia).
  injection Hload as Hu Hdn. pose proof (inv_loads _ _ Hi) as [Hu' Hdn'].
  split; rewrite ?Enn; change (pmax (merge np lh1)) with (pmax lh1); change (lh_p (merge np lh1)) with (lh_p lh1);
    change (num_alloc_nodes (merge np lh1)) with (num_alloc_nodes lh1); change (num_items (merge np lh1)) with (num_items lh1); rewrite ?Epm, ?Ep, ?Hal, ?Hni; try done; try lia.
  - rewrite Hb2, Hb1. unfold zlen, ztake. rewrite length_insert, length_take. unfold zlen in Hl. lia.
  - rewrite (inv_items _ _ Hi). unfold zlen. by rewrite Hitems.
  - change (up_load lh1 = UP_LOAD /\ down_load lh1 = DOWN_LOAD). by rewrite Hu, Hdn.
Qed.

Lemma contract_ok N lh :
  inv N lh -> N < 2 ^ 28 -> can_resize -> MIN_NODES < num_nodes lh ->
  inv N (contract lh) /\ contents (contract lh) = contents lh /\ lh_error (contract lh) = lh_error lh.
Proof.
  intros Hi HN Hm Hmin. pose proof (inv_p _ _ Hi) as Hp. pose proof (inv_nodes _ _ Hi) as Hn. pose proof (inv_pmax _ _ Hi) as Hpm.
  pose proof (inv_alloc _ _ Hi) as Ha. pose proof (inv_bound _ _ Hi) as [Hb1 Hb2]. pose proof (inv_len _ _ Hi) as Hl. unfold MIN_NODES in Hmin.
  destruct (inv_pow _ _ Hi) as (k & Hk & Hpk).
  unfold contract. replace (lh_p lh + pmax lh - 1) with (num_nodes lh - 1) by lia.
  destruct (lookup_lt_is_Some_2 (lh_b lh) (Z.to_nat (num_nodes lh - 1))) as [np Hnp]; [unfold zlen in Hl; lia|].
  replace (chain lh _) with np by (unfold chain; by rewrite Hnp). set (lh1 := set_buckets _ lh).
  change (lh_p lh1) with (lh_p lh). change (pmax lh1) with (pmax lh). destruct (Z.eqb_spec (lh_p lh) 0) as [E|E].
  - rewrite Hm by lia. assert (Hk' : k <> 0) by (intros ->; lia). assert (Hq : pmax lh = 2 * (8 * 2 ^ (k - 1))).
    { rewrite Hpk. replace k with (1 + (k - 1)) at 1 by lia. rewrite Z.pow_add_r by lia. lia. }
    set (q := 8 * 2 ^ (k - 1)) in *. assert (Hdiv : pmax lh / 2 = q) by (rewrite Hq, Z.mul_comm; apply Z.div_mul; lia).
    rewrite Hdiv. replace (num_alloc_nodes lh1 / 2) with (2 * q) by (change (num_alloc_nodes lh1) with (num_alloc_nodes lh); rewrite Ha, Hq, (Z.mul_comm 2 (2 * q)), Z.div_mul by lia; done).
    set (lh2 := bump num_contract_reallocs _).
    assert (Ep : lh_p lh2 = q - 1) by (apply Z.mod_small; lia).
    assert (Hidx : forall h, index (lh_p lh) (pmax lh) h = h mod (2 * q)).
    { intros h. unfold index. rewrite E, Hq. pose proof (Z.mod_pos_bound h (2 * q)). by rewrite (proj2 (Z.ltb_ge _ _)) by lia. }
    destruct (merge_ok N lh lh2 np (q - 1) q) as [H1' H2']; try done; try lia.
    + by exists (k - 1); split; [lia|].
    + change (ztake (pmax lh) (<[Z.to_nat (num_nodes lh - 1) := []]> (lh_b lh)) = ztake (2 * q) (<[Z.to_nat (num_nodes lh - 1) := []]> (lh_b lh))). by rewrite Hq.
    + intros h Hh. rewrite Hidx. unfold index. pose proof (mod_double h q). pose proof (Z.mod_pos_bound h q). destruct (Z.ltb_spec (h mod q) (q - 1)); lia.
    + intros h Hh. rewrite Hidx. unfold index. pose proof (mod_double h q). pose proof (Z.mod_pos_bound h q). destruct (Z.ltb_spec (h mod q) (q - 1)); lia.
  - set (lh2 := set_table _ _ _ _ _ lh1). assert (Ep : lh_p lh2 = lh_p lh - 1) by (apply Z.mod_small; lia).
    destruct (merge_ok N lh lh2 np (lh_p lh - 1) (pmax lh)) as [H1' H2']; try done; try lia.
    + by exists k.
    + change (<[Z.to_nat (num_nodes lh - 1) := []]> (lh_b lh) = ztake (2 * pmax lh) (<[Z.to_nat (num_nodes lh - 1) := []]> (lh_b lh))).
      rewrite ztake_ge; [done|]. unfold zlen in *. rewrite length_insert. lia.
    + intros h Hh. unfold index. pose proof (mod_double h (pmax lh)). pose proof (Z.mod_pos_bound h (pmax lh)).
      destruct (Z.ltb_spec (h mod pmax lh) (lh_p lh)), (Z.ltb_spec (h mod pmax lh) (lh_p lh - 1)); lia.
    + intros h Hh. unfold index. pose proof (mod_double h (pmax lh)). pose proof (Z.mod_pos_bound h (pmax lh)).
      destruct (Z.ltb_spec (h mod pmax lh) (lh_p lh)), (Z.ltb_spec (h mod pmax lh) (lh_p lh - 1)); lia.
Qed.

(** ** The operations *)
Lemma lh_new_ok lh : lh_new = Some lh -> inv 0 lh /\ contents lh = ∅.
Proof.
  unfold lh_new. destruct (malloc_ok sizeof_LHASH); [|done]. destruct (malloc_ok (MIN_NODES * 8)); [|done]. intros [= <-].
  split; [|done]. split; try done.
  - by exists 0.
  - intros i l n Hl Hn. exfalso. cbn [lh_b] in Hl. change (replicate 16 [] !! i = Some l) in Hl. apply lookup_replicate in Hl as [-> _]. by apply elem_of_nil in Hn.
  - unfold distinct, items. cbn. constructor.
Qed.

(** A pointer is stored if it replaces another, or if there is memory for a node. *)
Definition stores (m : gmap lh_key lh_data) (data : lh_data) : bool :=
  malloc_ok sizeof_LHASH_NODE || (if m !! key data is Some _ then true else false).

Lemma lh_insert_ok N data lh :
  inv N lh -> N + 2 < 2 ^ 28 -> can_resize ->
  let '(r, lh') := lh_insert data lh in
  inv (N + 2) lh' /\ r = contents lh !! key data /\
  contents lh' = if stores (contents lh) data then <[key data := data]> (contents lh) else contents lh.
Proof.
  intros Hi HN Hm. unfold lh_insert. set (lh1 := if _ <=? _ then _ else _).
  assert (Hi1 : inv (N + 1) lh1 /\ contents lh1 = contents lh).
  { unfold lh1. destruct (_ <=? _); [|split; [apply (inv_mono N); [by apply inv_error|lia]|done]].
    destruct (expand_ok N (set_error 0 lh)) as (He & Hc & _); [by apply inv_error|lia|done|]. done. }
  destruct Hi1 as [Hi1 Ec]. rewrite <- Ec. clearbody lh1. destruct (getrn_spec _ data lh1 Hi1) as (i & pre & post & c & -> & Hx & Hb & Hpost).
  rewrite (rest_at_found lh1 c i pre post Hb). destruct post as [|n next]; unfold stores.
  - rewrite Hpost. destruct (malloc_ok sizeof_LHASH_NODE); cbn [negb orb].
    + set (lh' := set_items _ _). destruct (inserted_new (N + 1) lh1 lh' data (lh_hash data) i pre) as [Hi' Hc']; try done; try lia.
      * by apply (store_at_found lh1 c i pre []).
      * replace (N + 2) with (N + 1 + 1) by lia. done.
    + split_and!; try done. apply (inv_mono (N + 1)); [|lia]. by apply inv_error, inv_counters.
  - destruct Hpost as [Hk Hh]. set (lh' := bump _ _).
    destruct (replaced (N + 1) lh1 lh' data i pre n next) as (Hl & Hi' & Hc'); try done; [by apply (store_at_found lh1 c i pre (n :: next))|].
    rewrite Hl, orb_true_r. split_and!; try done. apply (inv_mono (N + 1)); [done|lia].
Qed.

Lemma lh_delete_ok N data lh :
  inv N lh -> N < 2 ^ 28 -> can_resize ->
  let '(r, lh') := lh_delete data lh in
  inv N lh' /\ r = contents lh !! key data /\ contents lh' = delete (key data) (contents lh).
Proof.
  intros Hi HN Hm. unfold lh_delete. assert (Hi1 : inv N (set_error 0 lh)) by by apply inv_error.
  destruct (getrn_spec _ data _ Hi1) as (i & pre & post & c & -> & Hx & Hb & Hpost). change (contents (set_error 0 lh)) with (contents lh) in Hpost.
  rewrite (rest_at_found _ c i pre post Hb). destruct post as [|n next].
  - rewrite Hpost. split_and!; [by do 2 apply inv_counters|done|]. by rewrite delete_id.
  - destruct Hpost as [Hk Hh]. set (lh2 := set_items _ _).
    destruct (deleted N (set_error 0 lh) lh2 data i pre n next) as (Hl & Hi' & Hc'); try done; [by apply (store_at_found _ c i pre (n :: next))|].
    split_and!; [|done|].
    + destruct (_ && _) eqn:E; [|done]. apply andb_true_iff in E as [E _]. apply contract_ok; [done|done|done|lia].
    + destruct (_ && _) eqn:E; [|done]. apply andb_true_iff in E as [E _]. change (contents (set_error 0 lh)) with (contents lh) in Hc'. rewrite <- Hc'.
      apply (contract_ok N); [done|done|done|lia].
Qed.

Lemma lh_retrieve_ok N data lh :
  inv N lh ->
  let '(r, lh') := lh_retrieve data lh in inv N lh' /\ r = contents lh !! key data /\ contents lh' = contents lh.
Proof.
  intros Hi. unfold lh_retrieve. assert (Hi1 : inv N (set_error 0 lh)) by by apply inv_error.
  destruct (getrn_spec _ data _ Hi1) as (i & pre & post & c & -> & Hx & Hb & Hpost). change (contents (set_error 0 lh)) with (contents lh) in Hpost.
  change (lh_b (set_error 0 lh)) with (lh_b lh) in Hb. unfold at_place. change (chain _ (i, length pre).1) with (default [] (lh_b lh !! i)). rewrite Hb. cbn [from_option id fst snd].
  destruct post as [|n next].
  - rewrite app_nil_r, lookup_ge_None_2 by done. rewrite Hpost. split_and!; [by do 2 apply inv_counters|done|done].
  - rewrite lookup_app_r, Nat.sub_diag by done. cbn [lookup list_lookup]. destruct Hpost as [Hk Hh]. split_and!; [by do 2 apply inv_counters| |done].
    destruct (replaced N lh (set_buckets (<[i := pre ++ mkNode data (n_hash n) :: next]> (lh_b lh)) lh) data i pre n next) as (Hl & _); done.
Qed.

(** ** Runs *)
Inductive lh_op := Insert (d : lh_data) | Delete (d : lh_data) | Retrieve (d : lh_data) | NumItems.

(** A returned pointer, or a number. *)
Definition lh_exec (op : lh_op) (lh : lhash_st) : (option lh_data + Z) * lhash_st :=
  match op with
  | Insert d => let '(r, lh) := lh_insert d lh in (inl r, lh)
  | Delete d => let '(r, lh) := lh_delete d lh in (inl r, lh)
  | Retrieve d => let '(r, lh) := lh_retrieve d lh in (inl r, lh)
  | NumItems => (inr (lh_num_items (Some lh)), lh)
  end.
(** The same on a finite map. *)
Definition map_exec (op : lh_op) (m : gmap lh_key lh_data) : (option lh_data + Z) * gmap lh_key lh_data :=
  match op with
  | Insert d => (inl (m !! key d), if stores m d then <[key d := d]> m else m)
  | Delete d => (inl (m !! key d), delete (key d) m)
  | Retrieve d => (inl (m !! key d), m)
  | NumItems => (inr (Z.of_nat (size m)), m)
  end.
Fixpoint run_with {S R} (exec : lh_op -> S -> R * S) (ops : list lh_op) (s : S) : list R * S :=
  match ops with
  | [] => ([], s)
  | op :: ops => let '(r, s) := exec op s in let '(rs, s) := run_with exec ops s in (r :: rs, s)
  end.

Lemma lh_exec_ok N op lh :
  inv N lh -> N + 2 < 2 ^ 28 -> can_resize ->
  let '(r, lh') := lh_exec op lh in inv (N + 2) lh' /\ map_exec op (contents lh) = (r, contents lh').
Proof.
  intros Hi HN Hm. destruct op as [d|d|d|]; cbn [lh_exec map_exec].
  - pose proof (lh_insert_ok N d lh Hi HN Hm) as Ho. destruct (lh_insert d lh) as [r lh']. by destruct Ho as (? & <- & <-).
  - pose proof (lh_delete_ok N d lh Hi ltac:(lia) Hm) as Ho. destruct (lh_delete d lh) as [r lh']. destruct Ho as (? & <- & <-).
    split; [|done]. apply (inv_mono N); [done|lia].
  - pose proof (lh_retrieve_ok N d lh Hi) as Ho. destruct (lh_retrieve d lh) as [r lh']. destruct Ho as (? & <- & <-).
    split; [|done]. apply (inv_mono N); [done|lia].
  - split; [apply (inv_mono N); [done|lia]|]. cbn [lh_num_items]. unfold contents. rewrite (dict_size _ (inv_distinct _ _ Hi)), (inv_items _ _ Hi). done.
Qed.
Lemma lh_run_ok ops : forall N lh, inv N lh -> N + 2 * zlen ops < 2 ^ 28 -> can_resize ->
  let '(rs, lh') := run_with lh_exec ops lh in inv (N + 2 * zlen ops) lh' /\ run_with map_exec ops (contents lh) = (rs, contents lh').
Proof.
  induction ops as [|op ops IH]; intros N lh Hi HN Hm; cbn [run_with]; [by replace (N + 2 * zlen []) with N by (unfold zlen; cbn; lia)|].
  rewrite zlen_cons in HN |- *. pose proof (zlen_nonneg ops). pose proof (lh_exec_ok N op lh Hi ltac:(lia) Hm) as Ho.
  destruct (lh_exec op lh) as [r lh1]. destruct Ho as [Hi1 ->]. specialize (IH (N + 2) lh1 Hi1 ltac:(lia) Hm).
  destruct (run_with lh_exec ops lh1) as [rs lh2]. destruct IH as [Hi2 ->]. split; [|done].
  by replace (N + 2 * (1 + zlen ops)) with (N + 2 + 2 * zlen ops) by lia.
Qed.

(** Visiting the table visits every stored pointer once. *)
Definition visited (lh : lhash_st) : list lh_data := n_data <$> concat (chain lh <$> rev (seq 0 (Z.to_nat (num_nodes lh)))).
Lemma doall_visits {W} (f : lh_data -> W -> W) lh w : lh_doall f lh w = fold_left (fun w d => f d w) (visited lh) w.
Proof.
  unfold lh_doall, doall_util_fn, visited. revert w. induction (rev _) as [|i l IH]; intros w; [done|]. cbn [fold_left fmap list_fmap concat].
  rewrite fmap_app, fold_left_app, IH. f_equal. generalize (chain lh i) as c. intros c. clear. revert w. induction c as [|n c IH]; intros w; [done|]. cbn. apply IH.
Qed.
Lemma visited_items N lh : inv N lh -> visited lh ≡ₚ items (lh_b lh).
Proof.
  intros Hi. unfold visited, items. apply fmap_Permutation. set (n := Z.to_nat (num_nodes lh)).
  assert (Hlen : (n <= length (lh_b lh))%nat).
  { pose proof (inv_len _ _ Hi). pose proof (inv_alloc _ _ Hi). pose proof (inv_nodes _ _ Hi). pose proof (inv_p _ _ Hi). unfold zlen in *. lia. }
  assert (E1 : concat (chain lh <$> rev (seq 0 n)) ≡ₚ concat (chain lh <$> seq 0 n)).
  { rewrite <- (Permutation_rev (seq 0 n)). done. }
  assert (E2 : chain lh <$> seq 0 n = take n (lh_b lh)).
  { apply list_eq. intros j. rewrite list_lookup_fmap. destruct (decide (j < n)%nat) as [Hj|Hj].
    - rewrite lookup_seq_lt, lookup_take_lt by done. cbn. unfold chain. by destruct (lookup_lt_is_Some_2 (lh_b lh) j ltac:(lia)) as [l ->].
    - rewrite lookup_seq_ge, lookup_take_ge by lia. done. }
  rewrite E1, E2. rewrite <- (take_drop n (lh_b lh)) at 2. rewrite concat_app.
  replace (concat (drop n (lh_b lh))) with (@nil LHASH_NODE); [by rewrite app_nil_r|]. symmetry. apply concat_nil_Forall, Forall_forall.
  intros x Hx%list_elem_of_In. apply list_elem_of_In, list_elem_of_lookup in Hx as (j & Hj). rewrite lookup_drop in Hj. apply (bucket_empty N lh _ _ Hi) in Hj; [done|lia].
Qed.
Lemma dict_values l : distinct l -> (map_to_list (dict l)).*2 ≡ₚ l.
Proof. intros Hd. unfold dict. rewrite map_to_list_to_map by (by rewrite dict_keys). rewrite <- list_fmap_compose. by rewrite list_fmap_id. Qed.
End Refinement.

(** C39: A hash table is a finite map: whatever calls of [lh_insert], [lh_delete], [lh_retrieve] and [lh_num_items]
    are made on a new table (fewer than 2^26 of them, while the array of buckets can be reallocated), the returned
    pointers and counts are those of a finite map from keys to pointers; and [lh_doall] calls back for every stored
    pointer exactly once.  This covers every split and merge of buckets as the table grows and shrinks, and calls of
    [lh_insert] that fail for lack of memory, which leave the map as it was. *)
Theorem lhash_refines_map `{Allocator} `{LhFns} `{!LhLaws} ops lh0 rs lh :
  lh_new = Some lh0 -> can_resize -> zlen ops < 2 ^ 26 -> run_with lh_exec ops lh0 = (rs, lh) ->
  exists m, run_with map_exec ops ∅ = (rs, m) /\
    forall W (f : lh_data -> W -> W), exists l, l ≡ₚ (map_to_list m).*2 /\ forall w, lh_doall f lh w = fold_left (fun w d => f d w) l w.
Proof.
  intros Hnew Hm Hlen Hrun. destruct (lh_new_ok lh0 Hnew) as [Hi Hc]. pose proof (lh_run_ok ops 0 lh0 Hi ltac:(lia) Hm) as Hr. rewrite Hrun, Hc in Hr.
  destruct Hr as [Hi' Hr]. exists (contents lh). split; [done|]. intros W f. exists (visited lh). split.
  - rewrite (visited_items _ _ Hi'). unfold contents. symmetry. apply dict_values, (inv_distinct _ _ Hi').
  - intros w. apply doall_visits.
Qed.

(** Nothing is found in a chain without a node of that hash. *)
Lemma retrieve_None `{LhFns} data lh :
  (forall n, n ∈ chain lh (Z.to_nat (if lh_hash data mod pmax lh <? lh_p lh then lh_hash data mod num_alloc_nodes lh else lh_hash data mod pmax lh)) ->
             n_hash n <> lh_hash data) ->
  fst (lh_retrieve data lh) = None.
Proof.
  intros Hno. unfold lh_retrieve, getrn. set (lh1 := bump num_hash_calls _).
  change (pmax lh1) with (pmax lh). change (lh_p lh1) with (lh_p lh). change (num_alloc_nodes lh1) with (num_alloc_nodes lh).
  set (i := Z.to_nat _) in *. change (chain lh1 i) with (chain lh i). destruct (search_spec data (chain lh i) 0 (counters lh1)) as (pre & post & Hc & E & _ & Hpost).
  destruct (search _ _ _ _ _) as [pos c]. cbn [fst] in E. subst pos. unfold at_place. change (chain _ (i, (0 + length pre)%nat).1) with (chain lh i). cbn [snd].
  destruct post as [|n post].
  - rewrite Hc, app_nil_r, lookup_ge_None_2 by lia. done.
  - exfalso. apply (Hno n); [|apply Hpost]. rewrite Hc. apply elem_of_app. right. by left.
Qed.

(** A failed reallocation loses stored pointers, although the comments say that it is tolerated.  When [expand]
    has split the last bucket and cannot double the array, it sets [p] to 0: from then on every stored pointer whose
    hash falls in the upper half of the table is not found.  When [contract] cannot shrink the array, the chain of
    the last bucket is dropped. *)
Theorem realloc_failure_loses_items `{Allocator} `{LhFns} `{!LhLaws} N lh data :
  inv N lh -> N < 2 ^ 28 -> is_Some (contents lh !! key data) ->
  (lh_p lh + 1 = pmax lh -> malloc_ok (num_alloc_nodes lh * 2 * 8) = false -> pmax lh <= lh_hash data mod num_alloc_nodes lh ->
   lh_error (expand lh) = lh_error lh + 1 /\ fst (lh_retrieve data (expand lh)) = None) /\
  (lh_p lh = 0 -> malloc_ok (pmax lh * 8) = false -> lh_hash data mod pmax lh = pmax lh - 1 ->
   lh_error (contract lh) = lh_error lh + 1 /\ fst (lh_retrieve data (contract lh)) = None).
Proof.
  intros Hi HN _. pose proof (inv_p _ _ Hi) as Hp. pose proof (inv_nodes _ _ Hi) as Hn. pose proof (inv_pmax _ _ Hi) as Hpm.
  pose proof (inv_alloc _ _ Hi) as Ha. pose proof (inv_bound _ _ Hi) as [Hb1 Hb2]. split.
  - intros Hfull Hm Hh. unfold expand. set (lh1 := bump num_expands _).
    change (num_alloc_nodes lh1) with (num_alloc_nodes lh). change (chain lh1 (Z.to_nat (lh_p lh))) with (chain lh (Z.to_nat (lh_p lh))).
    destruct (split_chain _ _ _ _) as [s r] eqn:E. destruct (expand_split N lh s r Hi E) as (Hlen & _ & Hpl).
    change (pmax lh1) with (pmax lh). change (lh_b lh1) with (lh_b lh). set (b' := <[Z.to_nat (lh_p lh + pmax lh) := r]> _) in *.
    set (lh2 := set_buckets b' lh1). change (pmax lh2) with (pmax lh). change (num_alloc_nodes lh2) with (num_alloc_nodes lh).
    assert (Ep : lh_p lh2 = lh_p lh + 1) by (apply Z.mod_small; lia).
    rewrite Ep, (proj2 (Z.leb_le _ _)) by lia. unfold wrap32. rewrite (Z.mod_small (num_alloc_nodes lh * 2)), Hm by lia. split; [done|].
    apply retrieve_None. cbn [set_error set_table lh_p pmax num_alloc_nodes]. pose proof (Z.mod_pos_bound (lh_hash data) (pmax lh)).
    rewrite (proj2 (Z.ltb_ge _ 0)) by lia. intros n Hin Heq. change (n ∈ default [] (b' !! Z.to_nat (lh_hash data mod pmax lh))) in Hin.
    destruct (b' !! _) as [l|] eqn:El; [|by apply elem_of_nil in Hin]. destruct (Hpl _ _ _ El Hin) as [_ Hx]. rewrite Heq in Hx. unfold index in Hx.
    rewrite (proj2 (Z.ltb_lt _ _)) in Hx by lia. rewrite Ha in Hh. lia.
  - intros E Hm Hh. unfold contract. set (lh1 := set_buckets _ lh). change (lh_p lh1) with (lh_p lh). change (pmax lh1) with (pmax lh).
    rewrite (proj2 (Z.eqb_eq _ _)), Hm by done. split; [done|]. apply retrieve_None. cbn [set_error lh_p pmax num_alloc_nodes].
    change (lh_p lh1) with (lh_p lh). change (pmax lh1) with (pmax lh). rewrite Hh, E, (proj2 (Z.ltb_ge _ 0)) by lia. intros n Hin.
    change (n ∈ default [] (<[Z.to_nat (lh_p lh + pmax lh - 1) := []]> (lh_b lh) !! Z.to_nat (pmax lh - 1))) in Hin. rewrite E, Z.add_0_l in Hin.
    pose proof (inv_len _ _ Hi) as Hl. rewrite list_lookup_insert_eq in Hin by (unfold zlen in Hl; lia). by apply elem_of_nil in Hin.
Qed.

(** *** Concrete tables: strings of one byte *)
#[local] Instance byte_fns : LhFns := {| lh_data := Z * Z; lh_hash := fun d => d.1 mod 2 ^ 64; lh_comp := fun a b => a.1 - b.1 |}.
#[local] Program Instance byte_laws : LhLaws := {| lh_key := Z; key := fun d => d.1 |}.
Next Obligation. intros [a x] [b y]. cbn. lia. Qed.
Next Obligation. intros [a x] [b y]. cbn. by intros ->. Qed.
Next Obligation. intros [a x]. cbn. apply Z.mod_pos_bound. lia. Qed.

Section Plenty.
#[local] Existing Instance ample.
Definition demo_ops : list lh_op := ((fun i => Insert (i * 8, i)) <$> seqZ 0 40) ++ ((fun i => Delete (i * 8, 0)) <$> seqZ 3 30) ++ [Retrieve (8, 0); Retrieve (32, 0); NumItems].
Definition demo_lh : lhash_st := match lh_new with Some lh => lh | None => mkLh [] 0 0 0 0 0 0 0 (fun _ => 0) 0 end.
Example demo_results :
  drop 68 (run_with lh_exec demo_ops demo_lh).1 = [inl (Some (248, 31)); inl (Some (256, 32)); inl (Some (8, 1)); inl None; inr 10] /\
  num_nodes (run_with lh_exec (take 40 demo_ops) demo_lh).2 = 20.
Proof. vm_compute. split; reflexivity. Qed.

Lemma lhash_refines_map_witness : exists rs lh m, run_with lh_exec demo_ops demo_lh = (rs, lh) /\ run_with map_exec demo_ops ∅ = (rs, m).
Proof.
  assert (Hn : lh_new = Some demo_lh) by reflexivity. assert (Hc : can_resize) by (intros n _; reflexivity).
  assert (Hl : zlen demo_ops < 2 ^ 26) by (vm_compute; reflexivity).
  generalize dependent demo_ops. intros ops Hl. destruct (run_with lh_exec ops demo_lh) as [rs lh] eqn:E.
  destruct (lhash_refines_map ops demo_lh rs lh Hn Hc Hl E) as (m & Hm & _). exists rs, lh, m. split; [reflexivity|exact Hm].
Defined.
End Plenty.

(** A heap in which the array of 16 buckets cannot be doubled, and a table of 29 pointers that is about to do so. *)
Definition tight : Allocator := {| malloc_ok := fun n => n <? 256; getpagesize := 4096 |}.
Definition full_lh : lhash_st := (run_with (@lh_exec ample byte_fns) ((fun i => Insert (i, i)) <$> seqZ 0 29) (@demo_lh)).2.

Lemma realloc_failure_loses_items_witness :
  contents full_lh !! 8 = Some (8, 8) /\ lh_error (@expand tight byte_fns full_lh) = 1 /\ fst (lh_retrieve (8, 0) (@expand tight byte_fns full_lh)) = None.
Proof.
  assert (Hc : contents full_lh !! 8 = Some (8, 8)) by (vm_compute; reflexivity).
  assert (He : lh_error full_lh = 0 /\ lh_p full_lh + 1 = pmax full_lh /\ num_alloc_nodes full_lh = 16 /\ pmax full_lh = 8) by (vm_compute; auto).
  assert (Hi : inv 58 full_lh).
  { destruct (@lh_new_ok ample byte_fns byte_laws demo_lh eq_refl) as [Hi _].
    pose proof (@lh_run_ok ample byte_fns byte_laws ((fun i => Insert (i, i)) <$> seqZ 0 29) 0 demo_lh Hi eq_refl (fun n _ => eq_refl)) as Hr.
    unfold full_lh. destruct (run_with _ _ _) as [rs lh]. exact (proj1 Hr). }
  generalize dependent full_lh. intros lh Hc (He & Hp & Ha & Hpm) Hi. split; [exact Hc|].
  destruct (proj1 (@realloc_failure_loses_items tight byte_fns byte_laws 58 lh (8, 0) Hi eq_refl (ex_intro _ (8, 8) Hc))) as [E1 E2].
  - exact Hp.
  - rewrite Ha. reflexivity.
  - rewrite Ha, Hpm. by vm_compute.
  - rewrite E1, He. split; [reflexivity|exact E2].
Defined.
