(* ===== verification/Base64.v ===== *)
(** * Base64 (crypto/evp/encode.c)

    Encoding and decoding in pieces.  The state is the [EVP_ENCODE_CTX]; what a call writes at
    [out] is returned as the list of bytes that [*outl] counts. *)
From S2P Require Import Prelude Words.

Definition BIN_PER_LINE : Z := 48.
Definition INT_MAX : Z := 2 ^ 31 - 1.
(** [=], newline. *)
Definition EQUALS : Z := 61.
Definition NEWLINE : Z := 10.

Definition data_bin2ascii : list Z := seqZ 65 26 ++ seqZ 97 26 ++ seqZ 48 10 ++ [43; 47].
Definition conv_bin2ascii (a : Z) : Z := znth data_bin2ascii (Z.land a 0x3f).

Definition B64_EOLN : Z := 0xF0.
Definition B64_CR : Z := 0xF1.
Definition B64_EOF : Z := 0xF2.
Definition B64_WS : Z := 0xE0.
Definition B64_ERROR : Z := 0xFF.
Definition B64_NOT_BASE64 (a : Z) : bool := Z.lor a 0x13 =? 0xF3.
Definition B64_BASE64 (a : Z) : bool := negb (B64_NOT_BASE64 a).

Definition data_ascii2bin : list Z := [
  0xFF; 0xFF; 0xFF; 0xFF; 0xFF; 0xFF; 0xFF; 0xFF;
  0xFF; 0xE0; 0xF0; 0xFF; 0xFF; 0xF1; 0xFF; 0xFF;
  0xFF; 0xFF; 0xFF; 0xFF; 0xFF; 0xFF; 0xFF; 0xFF;
  0xFF; 0xFF; 0xFF; 0xFF; 0xFF; 0xFF; 0xFF; 0xFF;
  0xE0; 0xFF; 0xFF; 0xFF; 0xFF; 0xFF; 0xFF; 0xFF;
  0xFF; 0xFF; 0xFF; 0x3E; 0xFF; 0xF2; 0xFF; 0x3F;
  0x34; 0x35; 0x36; 0x37; 0x38; 0x39; 0x3A; 0x3B;
  0x3C; 0x3D; 0xFF; 0xFF; 0xFF; 0x00; 0xFF; 0xFF;
  0xFF; 0x00; 0x01; 0x02; 0x03; 0x04; 0x05; 0x06;
  0x07; 0x08; 0x09; 0x0A; 0x0B; 0x0C; 0x0D; 0x0E;
  0x0F; 0x10; 0x11; 0x12; 0x13; 0x14; 0x15; 0x16;
  0x17; 0x18; 0x19; 0xFF; 0xFF; 0xFF; 0xFF; 0xFF;
  0xFF; 0x1A; 0x1B; 0x1C; 0x1D; 0x1E; 0x1F; 0x20;
  0x21; 0x22; 0x23; 0x24; 0x25; 0x26; 0x27; 0x28;
  0x29; 0x2A; 0x2B; 0x2C; 0x2D; 0x2E; 0x2F; 0x30;
  0x31; 0x32; 0x33; 0xFF; 0xFF; 0xFF; 0xFF; 0xFF].
Definition conv_ascii2bin (a : Z) : Z := if negb (Z.land a 0x80 =? 0) then B64_ERROR else znth data_ascii2bin a.

(** [enc_data] is the array of 80 bytes; [line_num] and [expect_nl] are only ever reset. *)
Record EVP_ENCODE_CTX := mkEnc { num : Z; enc_length : Z; enc_data : list Z; line_num : Z; expect_nl : Z }.
Definition set_num (n : Z) (d : list Z) (c : EVP_ENCODE_CTX) : EVP_ENCODE_CTX := mkEnc n (enc_length c) d (line_num c) (expect_nl c).

(** ** Encoding *)
Definition EVP_EncodeInit (c : EVP_ENCODE_CTX) : EVP_ENCODE_CTX := mkEnc 0 48 (enc_data c) 0 (expect_nl c).

(** The [dlen] bytes at [f], three by three. *)
Fixpoint EVP_EncodeBlock (f : list Z) : list Z :=
  match f with
  | f0 :: f1 :: f2 :: f =>
      let l := Z.lor (Z.lor (Z.shiftl f0 16) (Z.shiftl f1 8)) f2 in
      conv_bin2ascii (Z.shiftr l 18) :: conv_bin2ascii (Z.shiftr l 12) :: conv_bin2ascii (Z.shiftr l 6) :: conv_bin2ascii l :: EVP_EncodeBlock f
  | [f0; f1] =>
      let l := Z.lor (Z.shiftl f0 16) (Z.shiftl f1 8) in
      [conv_bin2ascii (Z.shiftr l 18); conv_bin2ascii (Z.shiftr l 12); conv_bin2ascii (Z.shiftr l 6); EQUALS]
  | [f0] =>
      let l := Z.shiftl f0 16 in
      [conv_bin2ascii (Z.shiftr l 18); conv_bin2ascii (Z.shiftr l 12); EQUALS; EQUALS]
  | [] => []
  end.

(** [while (inl >= ctx->length && total <= INT_MAX)]; the rest of the input and the output so far.  The
    fuel is the length of the input, of which every pass takes [len > 0] bytes. *)
Fixpoint encode_lines (fuel : nat) (len : Z) (inp out : list Z) : list Z * list Z :=
  match fuel with
  | O => (inp, out)
  | S fuel =>
      if (len <=? zlen inp) && (zlen out <=? INT_MAX) then
        encode_lines fuel len (zdrop len inp) (out ++ EVP_EncodeBlock (ztake len inp) ++ [NEWLINE])
      else (inp, out)
  end.

(** The return value and the output. *)
Definition EVP_EncodeUpdate (inp : list Z) (c : EVP_ENCODE_CTX) : Z * list Z * EVP_ENCODE_CTX :=
  let inl := zlen inp in
  if inl <=? 0 then (0, [], c)
  else if inl <? enc_length c - num c then (1, [], set_num (num c + inl) (overwrite (enc_data c) (num c) inp) c)
  else
  let '(inp, out, c) :=
    if negb (num c =? 0) then
      let i := enc_length c - num c in
      let d := overwrite (enc_data c) (num c) (ztake i inp) in
      (zdrop i inp, EVP_EncodeBlock (ztake (enc_length c) d) ++ [NEWLINE], set_num 0 d c)
    else (inp, [], c) in
  let '(inp, out) := encode_lines (length inp) (enc_length c) inp out in
  if INT_MAX <? zlen out then (0, [], c)
  else
  let d := if negb (zlen inp =? 0) then overwrite (enc_data c) 0 inp else enc_data c in
  (1, out, set_num (zlen inp) d c).

Definition EVP_EncodeFinal (c : EVP_ENCODE_CTX) : list Z * EVP_ENCODE_CTX :=
  if negb (num c =? 0) then (EVP_EncodeBlock (ztake (num c) (enc_data c)) ++ [NEWLINE], set_num 0 (enc_data c) c) else ([], c).

(** ** Decoding *)
Definition EVP_DecodeInit (c : EVP_ENCODE_CTX) : EVP_ENCODE_CTX := mkEnc 0 0 (enc_data c) 0 0.

(** White space at the start of the line. *)
Fixpoint trim (f : list Z) : list Z :=
  match f with x :: r => if conv_ascii2bin x =? B64_WS then trim r else f | [] => [] end.
(** [while ((n > 3) && (B64_NOT_BASE64(conv_ascii2bin(f[n - 1])))) n--;] *)
Fixpoint strip (f : list Z) (n : nat) : Z :=
  match n with
  | O => 0
  | S k => if (3 <? Z.of_nat n) && B64_NOT_BASE64 (conv_ascii2bin (znth f (Z.of_nat k))) then strip f k else Z.of_nat n
  end.
(** The groups of four characters; [None] is a return of -1. *)
Fixpoint decode_groups (f : list Z) : option (list Z) :=
  match f with
  | f0 :: f1 :: f2 :: f3 :: f =>
      let a := conv_ascii2bin f0 in let b := conv_ascii2bin f1 in let c := conv_ascii2bin f2 in let d := conv_ascii2bin f3 in
      if negb (Z.land a 0x80 =? 0) || negb (Z.land b 0x80 =? 0) || negb (Z.land c 0x80 =? 0) || negb (Z.land d 0x80 =? 0) then None
      else
      let l := Z.lor (Z.lor (Z.lor (Z.shiftl a 18) (Z.shiftl b 12)) (Z.shiftl c 6)) d in
      r ← decode_groups f;
      Some (wrap8 (Z.shiftr l 16) :: wrap8 (Z.shiftr l 8) :: wrap8 l :: r)
  | _ => Some []
  end.
Definition EVP_DecodeBlock (f : list Z) : option (list Z) :=
  let f := trim f in
  let n := strip f (length f) in
  if negb (n mod 4 =? 0) then None else decode_groups (ztake n f).

(** Decoding the saved characters: what is left after the padding is dropped. *)
Definition decode_saved (d : list Z) (n eof : Z) : option (list Z) :=
  r ← EVP_DecodeBlock (ztake n d);
  if zlen r <? eof then None else Some (ztake (zlen r - eof) r).

(** How the loop of [EVP_DecodeUpdate] ends: [goto end] with -1, [goto tail] at a [-], or at the end of the input. *)
Inductive loop_end := LoopError | LoopEof | LoopDone.

Fixpoint decode_loop (inp d : list Z) (n eof : Z) (out : list Z) : loop_end * list Z * Z * Z * list Z :=
  match inp with
  | [] => (LoopDone, d, n, eof, out)
  | tmp :: inp =>
      let v := conv_ascii2bin tmp in
      if v =? B64_ERROR then (LoopError, d, n, eof, out)
      else if negb (tmp =? EQUALS) && (0 <? eof) && B64_BASE64 v then (LoopError, d, n, eof, out)
      else
      let eof := if tmp =? EQUALS then eof + 1 else eof in
      if 2 <? eof then (LoopError, d, n, eof, out)
      else if v =? B64_EOF then (LoopEof, d, n, eof, out)
      else if B64_BASE64 v && (64 <=? n) then (LoopError, d, n, eof, out)
      else
      let '(d, n) := if B64_BASE64 v then (overwrite d n [tmp], n + 1) else (d, n) in
      if n =? 64 then
        match decode_saved d n eof with
        | None => (LoopError, d, 0, eof, out)
        | Some r => decode_loop inp d 0 eof (out ++ r)
        end
      else decode_loop inp d n eof out
  end.

(** The padding among the saved characters. *)
Definition saved_eof (d : list Z) (n : Z) : Z :=
  if (0 <? n) && (znth d (n - 1) =? EQUALS) then if (1 <? n) && (znth d (n - 2) =? EQUALS) then 2 else 1 else 0.

Definition EVP_DecodeUpdate (inp : list Z) (c : EVP_ENCODE_CTX) : Z * list Z * EVP_ENCODE_CTX :=
  let n := num c in
  let d := enc_data c in
  let eof := saved_eof d n in
  if zlen inp =? 0 then (0, [], c)
  else
  let '(e, d, n, eof, out) := decode_loop inp d n eof [] in
  let seof := match e with LoopEof => true | _ => false end in
  match e with
  | LoopError => (-1, out, set_num n d c)
  | _ =>
      if (0 <? n) && (Z.land n 3 =? 0) then
        match decode_saved d n eof with
        | None => (-1, out, set_num 0 d c)
        | Some r => (if seof || negb (eof =? 0) then 0 else 1, out ++ r, set_num 0 d c)
        end
      else if (0 <? n) && seof then (-1, out, set_num n d c)
      else (if seof || ((n =? 0) && negb (eof =? 0)) then 0 else 1, out, set_num n d c)
  end.

Definition EVP_DecodeFinal (c : EVP_ENCODE_CTX) : Z * list Z * EVP_ENCODE_CTX :=
  if negb (num c =? 0) then
    match EVP_DecodeBlock (ztake (num c) (enc_data c)) with
    | None => (-1, [], c)
    | Some r => (1, r, set_num 0 (enc_data c) c)
    end
  else (1, [], c).

(** ** Calls in a row *)
Fixpoint encode_run (chunks : list (list Z)) (c : EVP_ENCODE_CTX) : list Z :=
  match chunks with
  | [] => fst (EVP_EncodeFinal c)
  | x :: chunks => let '(_, out, c) := EVP_EncodeUpdate x c in out ++ encode_run chunks c
  end.
(** [None] if a call returns -1. *)
Fixpoint decode_run (chunks : list (list Z)) (c : EVP_ENCODE_CTX) : option (list Z) :=
  match chunks with
  | [] => let '(rv, out, _) := EVP_DecodeFinal c in if rv <? 0 then None else Some out
  | x :: chunks =>
      let '(rv, out, c) := EVP_DecodeUpdate x c in
      if rv <? 0 then None else rest ← decode_run chunks c; Some (out ++ rest)
  end.
Definition blank_enc : EVP_ENCODE_CTX := mkEnc 0 0 (zeros 80) 0 0.
Definition b64_encode (chunks : list (list Z)) : list Z := encode_run chunks (EVP_EncodeInit blank_enc).
Definition b64_decode (chunks : list (list Z)) : option (list Z) := decode_run chunks (EVP_DecodeInit blank_enc).

(** "Hello": SGVsbG8= *)
Example b64_hello : b64_encode [[72; 101]; [108; 108; 111]] = [83; 71; 86; 115; 98; 71; 56; 61; 10] /\
  b64_decode [[83; 71; 86]; [115; 98; 71; 56; 61; 10]] = Some [72; 101; 108; 108; 111].
Proof. vm_compute. split; reflexivity. Qed.

(** ** The encoding as a function of the data *)

(** Lines of 64 characters. *)
Fixpoint b64_lines (fuel : nat) (x : list Z) : list Z :=
  match fuel with
  | O => []
  | S fuel => match x with [] => [] | _ => EVP_EncodeBlock (ztake 48 x) ++ [NEWLINE] ++ b64_lines fuel (zdrop 48 x) end
  end.
Definition b64_text (x : list Z) : list Z := b64_lines (length x) x.

Lemma b64_lines_fuel f f' x : (length x <= f)%nat -> (length x <= f')%nat -> b64_lines f x = b64_lines f' x.
Proof.
  revert f' x. induction f as [|f IH]; intros [|f'] x Hf Hf'; try (destruct x; [done|cbn in *; lia]).
  cbn [b64_lines]. destruct x as [|b x]; [done|]. do 2 f_equal. apply IH; unfold zdrop; rewrite length_drop; cbn [length] in *; lia.
Qed.
Lemma b64_text_line a z : zlen a = 48 -> b64_text (a ++ z) = EVP_EncodeBlock a ++ [NEWLINE] ++ b64_text z.
Proof.
  intros Ha. unfold b64_text. rewrite length_app. destruct a as [|b a]; [done|]. cbn [length Nat.add app b64_lines].
  rewrite (app_comm_cons a z b). rewrite ztake_app_eq, zdrop_app_eq by done. do 2 f_equal. apply b64_lines_fuel; lia.
Qed.
Lemma b64_text_last a : zlen a < 48 -> b64_text a = match a with [] => [] | _ => EVP_EncodeBlock a ++ [NEWLINE] end.
Proof.
  intros Ha. unfold b64_text. destruct a as [|b a]; [done|]. cbn [length b64_lines]. rewrite ztake_ge, zdrop_ge by lia. do 2 f_equal.
  by destruct (length a).
Qed.

(** Taking off lines leaves a text that starts with them. *)
Definition lines_of (part out : list Z) : Prop := forall z, b64_text (part ++ z) = out ++ b64_text z.
Lemma lines_of_app p o q : lines_of p o -> zlen q = 48 -> lines_of (p ++ q) (o ++ EVP_EncodeBlock q ++ [NEWLINE]).
Proof. intros Hp Hq z. rewrite <- app_assoc, Hp, b64_text_line by done. by rewrite <- !app_assoc. Qed.

Lemma zlen_EncodeBlock_48 a : zlen a = 48 -> zlen (EVP_EncodeBlock a) = 64.
Proof.
  intros Ha. assert (Hl : length a = 48%nat) by (unfold zlen in Ha; lia). clear Ha.
  do 48 (destruct a as [|? a]; [done|]). destruct a; [done|]. cbn in Hl. lia.
Qed.

Lemma encode_lines_ok fuel : forall part inp out,
  (length inp <= fuel)%nat -> lines_of part out -> 48 * zlen out <= 65 * zlen part -> 65 * (zlen part + zlen inp) < 48 * 2 ^ 31 ->
  exists part' inp' out', encode_lines fuel 48 inp out = (inp', out') /\
    part ++ inp = part' ++ inp' /\ zlen inp' < 48 /\ lines_of part' out' /\ zlen out' <= INT_MAX.
Proof.
  induction fuel as [|fuel IH]; intros part inp out Hf Hl Hz Hb.
  - destruct inp; [|cbn in Hf; lia]. exists part, [], out. split_and!; try done. unfold INT_MAX. zl.
  - cbn [encode_lines]. destruct (Z.leb_spec 48 (zlen inp)) as [Hge|Hlt]; cbn [andb].
    + rewrite (proj2 (Z.leb_le (zlen out) INT_MAX)) by (unfold INT_MAX; zl).
      assert (Hq : zlen (ztake 48 inp) = 48) by (rewrite zlen_ztake; lia). pose proof (zlen_EncodeBlock_48 _ Hq) as Hqe.
      set (out1 := out ++ EVP_EncodeBlock (ztake 48 inp) ++ [NEWLINE]). assert (Ho1 : zlen out1 = zlen out + 65) by (unfold out1; rewrite !zlen_app, Hqe; done).
      destruct (IH (part ++ ztake 48 inp) (zdrop 48 inp) out1) as (part' & inp' & out' & E & Hsplit & Hr).
      * unfold zdrop. rewrite length_drop. unfold zlen in Hge. lia.
      * by apply lines_of_app.
      * rewrite zlen_app. lia.
      * rewrite zlen_app, zlen_zdrop by lia. lia.
      * exists part', inp', out'. split; [done|]. split; [|done]. rewrite <- Hsplit, <- app_assoc. by rewrite ztake_zdrop.
    + exists part, inp, out. split_and!; try done. unfold INT_MAX. zl.
Qed.

(** The context has [p] saved; fewer than 48 bytes. *)
Definition encoding (c : EVP_ENCODE_CTX) (p : list Z) : Prop :=
  enc_length c = 48 /\ zlen (enc_data c) = 80 /\ num c = zlen p /\ zlen p < 48 /\ ztake (zlen p) (enc_data c) = p.

Lemma overwrite_at (d p x : list Z) : ztake (zlen p) d = p -> ztake (zlen p + zlen x) (overwrite d (zlen p) x) = p ++ x.
Proof.
  intros Hp. unfold overwrite. rewrite Hp, app_assoc, ztake_app_eq; [done|]. by rewrite zlen_app.
Qed.

Lemma EncodeUpdate_ok c p x :
  encoding c p -> zlen x < 2 ^ 30 ->
  exists rv out c' part p', EVP_EncodeUpdate x c = (rv, out, c') /\ encoding c' p' /\ p ++ x = part ++ p' /\ lines_of part out.
Proof.
  intros (Hlen & Hd & Hn & Hp & Ht) Hx. unfold EVP_EncodeUpdate. rewrite Hlen, Hn. pose proof (zlen_nonneg p) as Hp0.
  assert (Hnil : lines_of [] []) by (intros z; done).
  destruct (Z.leb_spec (zlen x) 0) as [Hx0|Hx0].
  { assert (x = []) as -> by (apply zlen_0_nil; zl). exists 0, [], c, [], p. split_and!; try done. by rewrite app_nil_r. }
  destruct (Z.ltb_spec (zlen x) (48 - zlen p)) as [Hs|Hs].
  { exists 1, [], (set_num (zlen p + zlen x) (overwrite (enc_data c) (zlen p) x) c), [], (p ++ x). split_and!; try done.
    unfold encoding. cbn [set_num enc_length enc_data num]. rewrite zlen_app, zlen_overwrite by lia. split_and!; try done; try lia. by apply overwrite_at. }
  assert (Hflush : exists inp out c1 part,
    (if negb (zlen p =? 0) then
      let i := 48 - zlen p in let d := overwrite (enc_data c) (zlen p) (ztake i x) in
      (zdrop i x, EVP_EncodeBlock (ztake (enc_length c) d) ++ [NEWLINE], set_num 0 d c) else (x, [], c)) = (inp, out, c1) /\
    enc_length c1 = 48 /\ zlen (enc_data c1) = 80 /\ p ++ x = part ++ inp /\ lines_of part out /\ 48 * zlen out <= 65 * zlen part /\ zlen part <= 48).
  { destruct (Z.eqb_spec (zlen p) 0) as [E|E]; cbn [negb].
    - exists x, [], c, []. rewrite (zlen_0_nil p E). split_and!; try done.
    - cbv zeta. set (d := overwrite _ _ _). assert (Hq : zlen (p ++ ztake (48 - zlen p) x) = 48) by (rewrite zlen_app, zlen_ztake by lia; lia).
      exists (zdrop (48 - zlen p) x), (EVP_EncodeBlock (p ++ ztake (48 - zlen p) x) ++ [NEWLINE]), (set_num 0 d c), (p ++ ztake (48 - zlen p) x).
      split_and!; try done.
      + do 3 f_equal. rewrite Hlen. unfold d. replace 48 with (zlen p + zlen (ztake (48 - zlen p) x)) at 1 by (rewrite <- zlen_app; exact Hq). by rewrite overwrite_at.
      + cbn [set_num enc_data]. unfold d. rewrite zlen_overwrite; [done|lia|]. rewrite zlen_ztake by lia. lia.
      + rewrite <- app_assoc, ztake_zdrop. done.
      + intros z. rewrite b64_text_line by done. by rewrite <- app_assoc.
      + rewrite zlen_app, (zlen_EncodeBlock_48 _ Hq), Hq. done.
      + lia. }
  destruct Hflush as (inp & out & c1 & part & E & Hl1 & Hd1 & Hsplit & Hlines & Hz & Hpl). rewrite Hlen in E. cbv zeta in E |- *. rewrite E, Hl1. clear E.
  destruct (encode_lines_ok (length inp) part inp out) as (part' & inp' & out' & -> & Hs' & Hi' & Hl' & Hm'); [done|done|done| |].
  { apply (f_equal zlen) in Hsplit. rewrite !zlen_app in Hsplit. lia. }
  rewrite (proj2 (Z.ltb_ge INT_MAX (zlen out'))) by done. eexists _, _, _, part', inp'. split; [reflexivity|]. split_and!; [|by rewrite Hsplit|done].
  unfold encoding. cbn [set_num enc_length enc_data num]. pose proof (zlen_nonneg inp'). destruct (Z.eqb_spec (zlen inp') 0) as [E0|E0]; cbn [negb].
  - rewrite E0, (zlen_0_nil _ E0). split_and!; try done.
  - rewrite zlen_overwrite by lia. split_and!; try done. apply ztake_overwrite_0.
Qed.

Lemma encode_run_ok chunks : forall c p, encoding c p -> Forall (fun x => zlen x < 2 ^ 30) chunks -> encode_run chunks c = b64_text (p ++ concat chunks).
Proof.
  induction chunks as [|x chunks IH]; intros c p Hc Hch; cbn [encode_run concat].
  - destruct Hc as (Hl & Hd & Hn & Hp & Ht). rewrite app_nil_r, b64_text_last by done. unfold EVP_EncodeFinal. rewrite Hn.
    destruct p as [|b p]; [done|]. rewrite (proj2 (Z.eqb_neq (zlen (b :: p)) 0)) by zl. cbn [negb fst]. by rewrite Ht.
  - apply Forall_cons in Hch as [Hx Hch]. destruct (EncodeUpdate_ok c p x Hc Hx) as (rv & out & c' & part & p' & -> & Hc' & Hs & Hl).
    rewrite (IH c' p' Hc' Hch). rewrite app_assoc, Hs, <- app_assoc. by rewrite Hl.
Qed.

(** ** Decoding *)

Lemma sextet a : 0 <= a -> conv_ascii2bin (conv_bin2ascii a) = a mod 64 /\ conv_bin2ascii a <> EQUALS.
Proof.
  intros Ha. unfold conv_bin2ascii. change 0x3f with (2 ^ 6 - 1). rewrite land_mask by lia. change (2 ^ 6) with 64.
  assert (Hv : 0 <= a mod 64 < 64) by (apply Z.mod_pos_bound; lia). set (v := a mod 64) in *.
  assert (Hall : forallb (fun v => (conv_ascii2bin (znth data_bin2ascii v) =? v) && negb (znth data_bin2ascii v =? EQUALS)) (seqZ 0 64) = true) by (vm_compute; reflexivity).
  rewrite forallb_forall in Hall. specialize (Hall v ltac:(apply list_elem_of_In, elem_of_seqZ; lia)). lia.
Qed.
Lemma conv_equals : conv_ascii2bin EQUALS = 0.
Proof. reflexivity. Qed.

Lemma word3 a b c : is_byte b -> is_byte c -> Z.lor (Z.lor (Z.shiftl a 16) (Z.shiftl b 8)) c = a * 65536 + b * 256 + c.
Proof.
  unfold is_byte. intros Hb Hc. rewrite (Z.lor_comm (Z.shiftl a 16)). replace (Z.lor (Z.shiftl b 8) (Z.shiftl a 16)) with (Z.shiftl (b + a * 2 ^ 8) 8).
  - rewrite Z.lor_comm, lor_shiftl by lia. lia.
  - rewrite <- (lor_shiftl b a 8), Z.shiftl_lor, Z.shiftl_shiftl by lia. done.
Qed.
Lemma word4 a b c d : 0 <= b < 64 -> 0 <= c < 64 -> 0 <= d < 64 ->
  Z.lor (Z.lor (Z.lor (Z.shiftl a 18) (Z.shiftl b 12)) (Z.shiftl c 6)) d = a * 2 ^ 18 + b * 2 ^ 12 + c * 2 ^ 6 + d.
Proof.
  intros Hb Hc Hd. replace (Z.lor (Z.shiftl a 18) (Z.shiftl b 12)) with (Z.shiftl (b + a * 2 ^ 6) 12).
  - replace (Z.lor (Z.shiftl (b + a * 2 ^ 6) 12) (Z.shiftl c 6)) with (Z.shiftl (c + (b + a * 2 ^ 6) * 2 ^ 6) 6).
    + rewrite Z.lor_comm, lor_shiftl by lia. lia.
    + rewrite <- (lor_shiftl c _ 6), Z.shiftl_lor, Z.shiftl_shiftl, Z.lor_comm by lia. done.
  - rewrite <- (lor_shiftl b a 6), Z.shiftl_lor, Z.shiftl_shiftl, Z.lor_comm by lia. done.
Qed.

(** Four characters of values [a], [b], [c], [d]. *)
Lemma decode_group f0 f1 f2 f3 f a b c d :
  conv_ascii2bin f0 = a -> conv_ascii2bin f1 = b -> conv_ascii2bin f2 = c -> conv_ascii2bin f3 = d ->
  0 <= a < 64 -> 0 <= b < 64 -> 0 <= c < 64 -> 0 <= d < 64 ->
  let l := a * 2 ^ 18 + b * 2 ^ 12 + c * 2 ^ 6 + d in
  decode_groups (f0 :: f1 :: f2 :: f3 :: f) = (fun r => (l / 65536) mod 256 :: (l / 256) mod 256 :: l mod 256 :: r) <$> decode_groups f.
Proof.
  intros E0 E1 E2 E3 Ha Hb Hc Hd l. cbn [decode_groups]. rewrite E0, E1, E2, E3.
  assert (H7 : forall v, 0 <= v < 64 -> negb (Z.land v 128 =? 0) = false).
  { intros v Hv. rewrite byte_land_80 by (unfold is_byte; lia). by rewrite (proj2 (Z.ltb_lt v 128)) by lia. }
  rewrite !H7 by done. cbn [orb]. rewrite word4 by done. fold l. rewrite !Z.shiftr_div_pow2 by lia. unfold wrap8.
  by destruct (decode_groups f).
Qed.

(** Characters at literal positions. *)
Ltac znth4 :=
  repeat match goal with |- context [znth (?x0 :: ?x1 :: ?x2 :: ?x3 :: ?l) ?j] =>
    lazymatch j with
    | 0 => change (znth (x0 :: x1 :: x2 :: x3 :: l) 0) with x0 | 1 => change (znth (x0 :: x1 :: x2 :: x3 :: l) 1) with x1
    | 2 => change (znth (x0 :: x1 :: x2 :: x3 :: l) 2) with x2 | 3 => change (znth (x0 :: x1 :: x2 :: x3 :: l) 3) with x3
    end end.
Lemma list_ind3 (P : list Z -> Prop) :
  P [] -> (forall a, P [a]) -> (forall a b, P [a; b]) -> (forall a b c l, P l -> P (a :: b :: c :: l)) -> forall l, P l.
Proof. intros H0 H1 H2 H3. fix IH 1. intros [|a [|b [|c l]]]; [exact H0|apply H1|apply H2|apply H3, IH]. Qed.

(** The bytes that are missing to a multiple of three. *)
Definition padding (x : list Z) : Z := (- zlen x) mod 3.
Lemma padding_cons a b c l : padding (a :: b :: c :: l) = padding l.
Proof. unfold padding. rewrite !zlen_cons. replace (- (1 + (1 + (1 + zlen l)))) with (- zlen l + (-1) * 3) by lia. apply Z.mod_add. lia. Qed.

Lemma zlen_EncodeBlock x : 3 * zlen (EVP_EncodeBlock x) = 4 * (zlen x + padding x).
Proof.
  induction x as [|a|a b|a b c l IH] using list_ind3; try reflexivity. cbn [EVP_EncodeBlock]. rewrite padding_cons, !zlen_cons. lia.
Qed.
Lemma decode_EncodeBlock x : Forall is_byte x -> decode_groups (EVP_EncodeBlock x) = Some (x ++ zeros (padding x)).
Proof.
  assert (Hm : forall v, 0 <= v mod 64 < 64) by (intros; apply Z.mod_pos_bound; lia).
  induction x as [|a|a b|a b c l IH] using list_ind3; intros Hx; [done|..]; cbn [EVP_EncodeBlock];
    repeat match goal with H : Forall is_byte (_ :: _) |- _ => apply Forall_cons in H as [? H] end; unfold is_byte in *.
  - pose proof (word3 a 0 0 ltac:(unfold is_byte; lia) ltac:(unfold is_byte; lia)) as Hw. rewrite Z.shiftl_0_l, !Z.lor_0_r in Hw. rewrite Hw, !Z.shiftr_div_pow2 by lia.
    erewrite decode_group; [|apply sextet; dlia|apply sextet; dlia|apply conv_equals|apply conv_equals|apply Hm|apply Hm|lia|lia].
    cbn [decode_groups fmap option_fmap option_map app]. change (zeros (padding [a])) with [0; 0]. repeat f_equal; dlia.
  - pose proof (word3 a b 0 ltac:(unfold is_byte; lia) ltac:(unfold is_byte; lia)) as Hw. rewrite Z.lor_0_r in Hw. rewrite Hw, !Z.shiftr_div_pow2 by lia.
    erewrite decode_group; [|apply sextet; dlia|apply sextet; dlia|apply sextet; dlia|apply conv_equals|apply Hm|apply Hm|apply Hm|lia].
    cbn [decode_groups fmap option_fmap option_map app]. change (zeros (padding [a; b])) with [0]. repeat f_equal; dlia.
  - rewrite word3 by (unfold is_byte; lia). rewrite !Z.shiftr_div_pow2 by lia.
    erewrite decode_group; [|apply sextet; dlia|apply sextet; dlia|apply sextet; dlia|apply sextet; dlia|apply Hm|apply Hm|apply Hm|apply Hm].
    rewrite IH by done. rewrite padding_cons. cbn [fmap option_fmap option_map app]. repeat f_equal; dlia.
Qed.

(** The [j]th character: padding at the end only, and every one has a value. *)
Lemma EncodeBlock_char x j :
  Forall is_byte x -> 0 <= j < zlen (EVP_EncodeBlock x) ->
  0 <= conv_ascii2bin (znth (EVP_EncodeBlock x) j) < 64 /\
  (znth (EVP_EncodeBlock x) j = EQUALS <-> zlen (EVP_EncodeBlock x) - padding x <= j).
Proof.
  assert (Hs : forall v, 0 <= v -> 0 <= conv_ascii2bin (conv_bin2ascii v) < 64 /\ conv_bin2ascii v <> EQUALS).
  { intros v Hv. destruct (sextet v Hv) as [-> ?]. split; [apply Z.mod_pos_bound; lia|done]. }
  assert (He : 0 <= conv_ascii2bin EQUALS < 64) by (rewrite conv_equals; lia).
  assert (Hnn : forall a b c k, 0 <= a -> 0 <= b -> 0 <= c -> 0 <= Z.shiftr (Z.lor (Z.lor (Z.shiftl a 16) (Z.shiftl b 8)) c) k).
  { intros. apply Z.shiftr_nonneg. rewrite !Z.lor_nonneg, !Z.shiftl_nonneg. lia. }
  assert (Hn0 : forall a b c, 0 <= a -> 0 <= b -> 0 <= c -> 0 <= Z.lor (Z.lor (Z.shiftl a 16) (Z.shiftl b 8)) c) by (intros; rewrite !Z.lor_nonneg, !Z.shiftl_nonneg; lia).
  intros Hx. revert j. induction x as [|a|a b|a b c l IH] using list_ind3; intros j Hj; [unfold zlen in Hj; cbn in Hj; lia|..];
    repeat match goal with H : Forall is_byte (_ :: _) |- _ => apply Forall_cons in H as [? H] end; unfold is_byte in *; cbn [EVP_EncodeBlock] in *.
  - change (zlen _) with 4 in *. change (padding [a]) with 2.
    assert (Hl : forall k, 0 <= Z.shiftr (Z.shiftl a 16) k) by (intros; rewrite Z.shiftr_nonneg, Z.shiftl_nonneg; lia).
    assert (j = 0 \/ j = 1 \/ j = 2 \/ j = 3) as [-> | [-> | [-> | ->]]] by lia; znth4; try destruct (Hs _ (Hl 18)); try destruct (Hs _ (Hl 12)); (split; [done|lia]).
  - change (zlen _) with 4 in *. change (padding [a; b]) with 1.
    assert (Hl : forall k, 0 <= Z.shiftr (Z.lor (Z.shiftl a 16) (Z.shiftl b 8)) k) by (intros; rewrite Z.shiftr_nonneg, Z.lor_nonneg, !Z.shiftl_nonneg; lia).
    assert (j = 0 \/ j = 1 \/ j = 2 \/ j = 3) as [-> | [-> | [-> | ->]]] by lia; znth4; destruct (Hs _ (Hl 18)), (Hs _ (Hl 12)), (Hs _ (Hl 6)); (split; [done|lia]).
  - rewrite padding_cons. pose proof (zlen_EncodeBlock l) as Hzl. assert (Hpad : 0 <= padding l < 3) by (apply Z.mod_pos_bound; lia). rewrite !zlen_cons in Hj |- *.
    destruct (Z.lt_ge_cases j 4) as [Hlt|Hge].
    + assert (j = 0 \/ j = 1 \/ j = 2 \/ j = 3) as [-> | [-> | [-> | ->]]] by lia; znth4;
        destruct (Hs _ (Hnn a b c 18 ltac:(lia) ltac:(lia) ltac:(lia))), (Hs _ (Hnn a b c 12 ltac:(lia) ltac:(lia) ltac:(lia))), (Hs _ (Hnn a b c 6 ltac:(lia) ltac:(lia) ltac:(lia))), (Hs _ (Hn0 a b c ltac:(lia) ltac:(lia) ltac:(lia))); (split; [done|]);
        (assert (padding l <= zlen (EVP_EncodeBlock l)) by (pose proof (zlen_nonneg l); lia); split; [done|lia]).
    + unfold znth. replace (Z.to_nat j) with (4 + Z.to_nat (j - 4))%nat by lia. cbn [Nat.add nth]. fold (znth (EVP_EncodeBlock l) (j - 4)).
      destruct (IH ltac:(done) (j - 4) ltac:(lia)) as [Hv ->]. split; [done|lia].
Qed.

Lemma decode_groups_app q : forall g l, length g = (4 * q)%nat ->
  decode_groups (g ++ l) = (a ← decode_groups g; b ← decode_groups l; Some (a ++ b)) /\ forall a, decode_groups g = Some a -> length a = (3 * q)%nat.
Proof.
  induction q as [|q IH]; intros g l Hg.
  - destruct g; [|done]. cbn. split; [by destruct (decode_groups l)|]. by intros a [= <-].
  - destruct g as [|f0 [|f1 [|f2 [|f3 g]]]]; try (cbn in Hg; lia). destruct (IH g l) as [E Hlen]; [cbn in Hg; lia|].
    cbn [app decode_groups]. destruct (_ || _); [done|]. rewrite E. destruct (decode_groups g) as [a|]; cbn.
    + split; [by destruct (decode_groups l)|]. intros a' [= <-]. cbn [length]. rewrite (Hlen a eq_refl). lia.
    + done.
Qed.

(** A block of characters that all have values is decoded as it is. *)
Lemma DecodeBlock_chars p : Forall (fun ch => 0 <= conv_ascii2bin ch < 64) p -> zlen p mod 4 = 0 -> EVP_DecodeBlock p = decode_groups p.
Proof.
  intros Hp H4. unfold EVP_DecodeBlock. replace (trim p) with p.
  2: { destruct p as [|ch p]; [done|]. apply Forall_cons in Hp as [Hch _]. cbn [trim]. unfold B64_WS. by rewrite (proj2 (Z.eqb_neq _ _)) by lia. }
  assert (Hbase : forall v, 0 <= v < 64 -> B64_NOT_BASE64 v = false).
  { intros v Hv. assert (Hall : forallb (fun v => negb (B64_NOT_BASE64 v)) (seqZ 0 64) = true) by (vm_compute; reflexivity).
    rewrite forallb_forall in Hall. specialize (Hall v ltac:(apply list_elem_of_In, elem_of_seqZ; lia)). by destruct (B64_NOT_BASE64 v). }
  replace (strip p (length p)) with (zlen p).
  - rewrite H4. cbn. by rewrite ztake_ge by lia.
  - destruct (length p) as [|k] eqn:El; [unfold zlen; by rewrite El|]. cbn [strip]. rewrite Hbase, andb_false_r; [unfold zlen; by rewrite El|].
    rewrite Forall_forall in Hp. apply Hp. unfold znth. rewrite Nat2Z.id. apply list_elem_of_In, nth_In. lia.
Qed.

Section Stream.
Context (x : list Z) (x_bytes : Forall is_byte x).
Let full := EVP_EncodeBlock x.
Let F := zlen full.

Lemma padding_range : 0 <= padding x < 3.
Proof. apply Z.mod_pos_bound. lia. Qed.
Lemma F_len : 3 * F = 4 * (zlen x + padding x).
Proof. apply zlen_EncodeBlock. Qed.
Lemma F_pad : padding x <= F.
Proof. pose proof F_len. pose proof padding_range. pose proof (zlen_nonneg x). lia. Qed.

Lemma seg_chars k n : 0 <= k -> 0 <= n -> k + n <= F -> Forall (fun ch => 0 <= conv_ascii2bin ch < 64) (slice full k n).
Proof.
  intros Hk Hn Hkn. apply Forall_ztake, Forall_zdrop, Forall_forall. intros ch Hin. apply list_elem_of_lookup in Hin as (i & Hi).
  pose proof (lookup_lt_Some _ _ _ Hi) as Hlt. destruct (EncodeBlock_char x (Z.of_nat i) x_bytes) as [Hv _]; [unfold zlen; fold full; lia|].
  unfold znth in Hv. rewrite Nat2Z.id in Hv. fold full in Hv. by rewrite (nth_lookup_Some _ _ _ _ Hi) in Hv.
Qed.

(** Decoding a run of groups of the encoding. *)
Lemma seg_decode q k : 0 <= q -> 0 <= k -> 4 * q + 4 * k <= F ->
  decode_groups (slice full (4 * q) (4 * k)) = Some (slice (x ++ zeros (padding x)) (3 * q) (3 * k)).
Proof.
  intros Hq Hk HF. pose proof (decode_EncodeBlock x x_bytes) as Hd. fold full in Hd. set (T := x ++ zeros (padding x)) in *.
  rewrite <- (ztake_zdrop (4 * q) full) in Hd. rewrite <- (ztake_zdrop (4 * k) (zdrop (4 * q) full)) in Hd. fold (slice full (4 * q) (4 * k)) in Hd.
  set (g := ztake (4 * q) full) in *. set (p := slice full (4 * q) (4 * k)) in *. set (r := zdrop (4 * k) _) in *.
  assert (Hg : length g = (4 * Z.to_nat q)%nat) by (unfold g, ztake; rewrite length_take; unfold F, zlen in HF; lia).
  assert (Hp : length p = (4 * Z.to_nat k)%nat) by (unfold p, slice, ztake, zdrop; rewrite length_take, length_drop; unfold F, zlen in HF; lia).
  destruct (decode_groups_app (Z.to_nat q) g (p ++ r) Hg) as [E1 L1]. destruct (decode_groups_app (Z.to_nat k) p r Hp) as [E2 L2].
  rewrite E1, E2 in Hd. destruct (decode_groups g) as [a|]; [|done]. destruct (decode_groups p) as [b|]; [|done]. destruct (decode_groups r) as [c|]; [|done].
  cbn in Hd. injection Hd as Hd. specialize (L1 a eq_refl). specialize (L2 b eq_refl). f_equal. rewrite <- Hd. unfold slice.
  rewrite zdrop_app_eq by (unfold zlen; lia). by rewrite ztake_app_eq by (unfold zlen; lia).
Qed.

(** The state of a decoder that has seen all but the characters [r] of the encoding. *)
Definition decoding (d : list Z) (n eof : Z) (out r : list Z) : Prop :=
  exists q, 0 <= q /\ 0 <= n < 64 /\ 4 * q + n <= F /\ zlen d = 80 /\ ztake n d = slice full (4 * q) n /\ out = ztake (3 * q) x /\
    r = zdrop (4 * q + n) full /\ (eof = Z.max 0 (4 * q + n - (F - padding x)) \/ (n = 0 /\ 4 * q = F /\ eof = 0)).

Lemma slice_char k j n : 0 <= k -> 0 <= j < n -> k + n <= F -> znth (slice full k n) j = znth full (k + j).
Proof. intros Hk Hj Hn. unfold znth, slice, ztake, zdrop. rewrite !nth_lookup, lookup_take_lt, lookup_drop by lia. do 2 f_equal. lia. Qed.

(** Emptying the saved characters. *)
Lemma flush_ok d n eof out r q k :
  0 <= q -> n = 4 * k -> 0 < k -> n <= 64 -> 4 * q + n <= F -> ztake n d = slice full (4 * q) n -> zlen d = 80 -> out = ztake (3 * q) x -> r = zdrop (4 * q + n) full ->
  eof = Z.max 0 (4 * q + n - (F - padding x)) ->
  exists o, decode_saved d n eof = Some o /\ decoding d 0 eof (out ++ o) r.
Proof.
  intros Hq -> Hk Hn HF Ht Hd -> -> ->. pose proof F_len as HFl. pose proof padding_range as Hpad. pose proof (zlen_nonneg x) as Hx.
  unfold decode_saved. rewrite Ht, DecodeBlock_chars, seg_decode by (try apply seg_chars; try lia; unfold slice; rewrite zlen_ztake, zlen_zdrop by lia; fold F; rewrite Z.min_l by lia; rewrite Z.mul_comm; apply Z.mod_mul; lia).
  cbn [mbind option_bind]. set (T := x ++ zeros (padding x)). assert (HT : zlen T = zlen x + padding x) by (unfold T; rewrite zlen_app, zlen_zeros by lia; done).
  assert (Hs : zlen (slice T (3 * q) (3 * k)) = 3 * k) by (unfold slice; rewrite zlen_ztake, zlen_zdrop by lia; lia).
  rewrite Hs. rewrite (proj2 (Z.ltb_ge _ _)) by lia. eexists. split; [reflexivity|]. exists (q + k). split_and!; try lia; try done.
  - unfold slice. rewrite ztake_ztake, Z.min_l by lia. replace (3 * (q + k)) with (3 * q + 3 * k) by lia.
    destruct (Z.le_gt_cases (3 * q + 3 * k) (zlen x)) as [Hle|Hgt].
    + rewrite ztake_add by lia. f_equal. unfold T. rewrite zdrop_app_l by lia. rewrite ztake_app_l by (rewrite zlen_zdrop by lia; lia). f_equal. lia.
    + rewrite (ztake_ge (3 * q + 3 * k)) by lia. rewrite <- (ztake_zdrop (3 * q) x) at 3. f_equal. unfold T. rewrite zdrop_app_l by lia.
      rewrite ztake_app_eq; [done|]. rewrite zlen_zdrop by lia. lia.
  - f_equal. lia.
Qed.

(** Characters with a value are saved; a newline is skipped. *)
Lemma char_checks ch : 0 <= conv_ascii2bin ch < 64 ->
  (conv_ascii2bin ch =? B64_ERROR) = false /\ (conv_ascii2bin ch =? B64_EOF) = false /\ B64_BASE64 (conv_ascii2bin ch) = true.
Proof.
  intros Hv. set (v := conv_ascii2bin ch) in *.
  assert (Hall : forallb (fun v => negb (v =? B64_ERROR) && negb (v =? B64_EOF) && B64_BASE64 v) (seqZ 0 64) = true) by (vm_compute; reflexivity).
  rewrite forallb_forall in Hall. specialize (Hall v ltac:(apply list_elem_of_In, elem_of_seqZ; lia)).
  apply andb_true_iff in Hall as [Hall ->]. apply andb_true_iff in Hall as [H1 H2]. by destruct (v =? B64_ERROR), (v =? B64_EOF).
Qed.

Lemma decode_loop_ok s : forall d n eof out r r',
  decoding d n eof out r -> filter (fun ch => ch <> NEWLINE) s ++ r' = r ->
  exists d' n' eof' out', decode_loop s d n eof out = (LoopDone, d', n', eof', out') /\ decoding d' n' eof' out' r'.
Proof.
  induction s as [|ch s IH]; intros d n eof out r r' Hd Hr; [cbn in Hr; subst r'; cbn; by eexists _, _, _, _|]. rewrite filter_cons in Hr.
  pose proof padding_range as Hpad. pose proof F_len as HFl. pose proof (zlen_nonneg x) as Hx0. cbn [decode_loop]. case_decide as Hch.
  2: { assert (ch = NEWLINE) as -> by (destruct (Z.eq_dec ch NEWLINE); tauto). change (conv_ascii2bin NEWLINE) with 0xF0. change (B64_BASE64 0xF0) with false.
       change (0xF0 =? B64_ERROR) with false. change (NEWLINE =? EQUALS) with false. rewrite !andb_false_r. cbn [negb andb].
       destruct Hd as (q & Hq & Hn & HF & Hz & Ht & Ho & Hrr & He). rewrite (proj2 (Z.ltb_ge 2 eof)).
       2: { destruct He as [-> | (_ & _ & ->)]; lia. }
       change (0xF0 =? B64_EOF) with false. rewrite (proj2 (Z.eqb_neq n 64)) by lia. apply (IH d n eof out r r'); [|done]. by exists q. }
  destruct Hd as (q & Hq & Hn & HF & Hz & Ht & Ho & Hrr & He). rewrite Hrr in Hr.
  assert (Hlt : 4 * q + n < F).
  { apply (f_equal zlen) in Hr. rewrite <- app_comm_cons, zlen_cons, zlen_zdrop in Hr by lia. fold F in Hr. pose proof (zlen_nonneg (filter (fun ch => ch <> NEWLINE) s ++ r')). lia. }
  destruct He as [He|(_ & He & _)]; [|lia].
  assert (Hnth : znth full (4 * q + n) = ch).
  { unfold znth. rewrite <- (Nat.add_0_r (Z.to_nat (4 * q + n))), nth_lookup, <- lookup_drop. fold (zdrop (4 * q + n) full). by rewrite <- Hr. }
  destruct (EncodeBlock_char x (4 * q + n) x_bytes ltac:(fold full; fold F; lia)) as [Hv Heq]. fold full in Hv, Heq. fold F in Heq. rewrite Hnth in Hv, Heq.
  destruct (char_checks ch Hv) as (-> & -> & ->). set (eof' := if ch =? EQUALS then eof + 1 else eof).
  assert (He' : eof' = Z.max 0 (4 * q + (n + 1) - (F - padding x)) /\ negb (ch =? EQUALS) && (0 <? eof) = false).
  { unfold eof'. destruct (Z.eqb_spec ch EQUALS) as [E|E]; cbn [negb andb]; [apply Heq in E; lia|].
    assert (4 * q + n < F - padding x) by (destruct (Z.lt_ge_cases (4 * q + n) (F - padding x)); [done|exfalso; apply E, Heq; lia]). split; [lia|]. apply Z.ltb_ge. lia. }
  destruct He' as [He' ->]. cbn [andb]. rewrite (proj2 (Z.ltb_ge 2 eof')), (proj2 (Z.leb_gt 64 n)) by lia. cbn [andb].
  assert (Ht' : ztake (n + 1) (overwrite d n [ch]) = slice full (4 * q) (n + 1)).
  { unfold slice. rewrite (ztake_add n 1 (zdrop _ _)) by lia. fold (slice full (4 * q) n). rewrite <- Ht, zdrop_zdrop by lia.
    rewrite <- Hr. unfold overwrite. rewrite app_assoc, ztake_app_eq; [done|]. rewrite zlen_app, zlen_ztake, Z.min_l by lia. done. }
  assert (Hz' : zlen (overwrite d n [ch]) = 80) by (rewrite zlen_overwrite; [done|lia|change (zlen [ch]) with 1; lia]).
  assert (Hr' : zdrop (4 * q + (n + 1)) full = filter (fun ch => ch <> NEWLINE) s ++ r').
  { rewrite Z.add_assoc, <- zdrop_zdrop by lia. rewrite <- Hr. done. }
  destruct (Z.eqb_spec (n + 1) 64) as [E|E].
  - destruct (flush_ok (overwrite d n [ch]) (n + 1) eof' out _ q 16 Hq ltac:(lia) ltac:(lia) ltac:(lia) ltac:(lia) Ht' Hz' Ho eq_refl He') as (o & -> & Hd').
    by apply (IH _ _ _ _ _ r' Hd').
  - apply (IH _ _ _ _ (zdrop (4 * q + (n + 1)) full) r'); [|done]. exists q. split_and!; try done; lia.
Qed.

Lemma saved_eof_ok d n out r eof : decoding d n eof out r -> decoding d n (saved_eof d n) out r.
Proof.
  intros (q & Hq & Hn & HF & Hz & Ht & Ho & Hr & _). exists q. split_and!; try done; try lia.
  pose proof padding_range as Hpad. pose proof F_len as HFl.
  assert (Hat : forall j, 0 <= j < n -> znth d j = znth full (4 * q + j)).
  { intros j Hj. rewrite <- (slice_char (4 * q) j n), <- Ht by lia. unfold znth, ztake. by rewrite !nth_lookup, lookup_take_lt by lia. }
  assert (Heq : forall j, 0 <= j < n -> (znth d j =? EQUALS) = (F - padding x <=? 4 * q + j)).
  { intros j Hj. rewrite Hat by done. destruct (EncodeBlock_char x (4 * q + j) x_bytes ltac:(fold full; fold F; lia)) as [_ He]. fold full in He. fold F in He.
    destruct (Z.eqb_spec (znth full (4 * q + j)) EQUALS) as [E|E], (Z.leb_spec (F - padding x) (4 * q + j)); try done; [apply He in E; lia|exfalso; apply E, He; lia]. }
  unfold saved_eof. destruct (Z.ltb_spec 0 n) as [H0|H0]; cbn [andb].
  - rewrite Heq by lia. left. destruct (Z.leb_spec (F - padding x) (4 * q + (n - 1))); [|lia].
    destruct (Z.ltb_spec 1 n); cbn [andb]; [rewrite Heq by lia; destruct (Z.leb_spec (F - padding x) (4 * q + (n - 2))); lia|].
    assert (F = 4 * (F / 4)) as HF4 by (apply Z.div_exact; [lia|]; dlia). lia.
  - assert (n = 0) by lia. subst n. destruct (Z.eq_dec (4 * q) F) as [E|E]; [by right|]. left. assert (F = 4 * (F / 4)) as HF4 by (apply Z.div_exact; [lia|]; dlia). lia.
Qed.

(** What the loop writes does not depend on what was written before. *)
Lemma decode_loop_prefix o s : forall d n eof out,
  decode_loop s d n eof (o ++ out) = (let '(e, d, n, eof, out) := decode_loop s d n eof out in (e, d, n, eof, o ++ out)).
Proof.
  induction s as [|ch s IH]; intros d n eof out; [done|]. cbn [decode_loop]. cbv zeta. destruct (_ =? B64_ERROR); [done|]. destruct (_ && _ && _); [done|].
  generalize (if ch =? EQUALS then eof + 1 else eof) as eof'. intros eof'. destruct (2 <? eof'); [done|]. destruct (_ =? B64_EOF); [done|]. destruct (_ && _); [done|].
  destruct (if B64_BASE64 _ then _ else _) as [d' n']. case_match; [|apply IH]. destruct (decode_saved _ _ _) as [b|]; [|done]. rewrite <- app_assoc. apply IH.
Qed.

Lemma DecodeUpdate_ok c s out r r' eof :
  decoding (enc_data c) (num c) eof out r -> (num c = 0 \/ num c mod 4 <> 0) -> filter (fun ch => ch <> NEWLINE) s ++ r' = r ->
  exists rv o c' eof', EVP_DecodeUpdate s c = (rv, o, c') /\ 0 <= rv /\ decoding (enc_data c') (num c') eof' (out ++ o) r' /\ (num c' = 0 \/ num c' mod 4 <> 0).
Proof.
  intros Hd Hnum Hr. unfold EVP_DecodeUpdate. destruct s as [|ch s].
  { cbn in Hr. subst r'. exists 0, [], c, eof. rewrite app_nil_r. by split_and!. }
  set (s' := ch :: s) in *. rewrite (proj2 (Z.eqb_neq (zlen s') 0)) by (unfold s'; zl). apply saved_eof_ok in Hd.
  destruct (decode_loop_ok s' _ _ _ _ r r' Hd Hr) as (d & n & e & out' & E & Hd').
  rewrite <- (app_nil_r out), decode_loop_prefix in E. destruct (decode_loop s' _ _ _ []) as [[[[e0 d0] n0] eof0] o]. injection E as -> -> -> -> <-.
  pose proof Hd' as (q & Hq & Hn & HF & Hz & Ht & Ho & Hrr & He). change (Z.land n 3) with (Z.land n (2 ^ 2 - 1)). rewrite land_mask by lia. change (2 ^ 2) with 4.
  destruct (Z.ltb_spec 0 n) as [Hn0|Hn0]; cbn [andb].
  - destruct (Z.eqb_spec (n mod 4) 0) as [E4|E4].
    + destruct He as [He|He]; [|lia]. apply Z.div_exact in E4; [|lia].
      destruct (flush_ok d n e (out ++ o) r' q (n / 4) Hq E4 ltac:(dlia) ltac:(lia) HF Ht Hz Ho Hrr He) as (b & -> & Hfl).
      eexists _, (o ++ b), _, e. split_and!; [reflexivity|by case_match| |by left]. by rewrite app_assoc.
    + eexists _, o, _, e. split_and!; [reflexivity|by case_match|done|by right].
  - eexists _, o, _, e. split_and!; [reflexivity|by case_match|done|]. left. cbn [set_num num]. lia.
Qed.

Lemma decode_run_ok ds : forall c out r eof,
  decoding (enc_data c) (num c) eof out r -> (num c = 0 \/ num c mod 4 <> 0) -> filter (fun ch => ch <> NEWLINE) (concat ds) = r ->
  exists o, decode_run ds c = Some o /\ out ++ o = x.
Proof.
  pose proof padding_range as Hpad. pose proof F_len as HFl. pose proof (zlen_nonneg x) as Hx0.
  induction ds as [|s ds IH]; intros c out r eof Hd Hnum Hr; cbn [concat decode_run] in *.
  - destruct Hd as (q & Hq & Hn & HF & Hz & Ht & Ho & Hrr & He). cbn in Hr. rewrite <- Hr in Hrr. apply (f_equal zlen) in Hrr.
    rewrite zlen_zdrop in Hrr by lia. fold F in Hrr. change (zlen []) with 0 in Hrr. assert (num c = 0) as E by (destruct Hnum as [?|Hnum]; [done|]; exfalso; apply Hnum; dlia).
    unfold EVP_DecodeFinal. rewrite E. cbn. exists []. split; [done|]. rewrite app_nil_r, Ho. apply ztake_ge. lia.
  - rewrite filter_app in Hr. destruct (DecodeUpdate_ok c s out r _ eof Hd Hnum Hr) as (rv & o & c' & eof' & -> & Hrv & Hd' & Hnum').
    rewrite (proj2 (Z.ltb_ge rv 0)) by done. destruct (IH c' (out ++ o) _ eof' Hd' Hnum' eq_refl) as (o' & -> & Ho').
    exists (o ++ o'). split; [done|]. by rewrite app_assoc.
Qed.
End Stream.

(** The characters of the lines. *)
Lemma EncodeBlock_app q : forall a z, length a = (3 * q)%nat -> EVP_EncodeBlock (a ++ z) = EVP_EncodeBlock a ++ EVP_EncodeBlock z.
Proof.
  induction q as [|q IH]; intros a z Ha; [by destruct a|]. destruct a as [|a0 [|a1 [|a2 a]]]; try (cbn in Ha; lia).
  cbn [app EVP_EncodeBlock]. rewrite IH by (cbn in Ha; lia). done.
Qed.
Lemma EncodeBlock_no_newline x : Forall is_byte x -> filter (fun ch => ch <> NEWLINE) (EVP_EncodeBlock x) = EVP_EncodeBlock x.
Proof.
  intros Hx. assert (Hall : forall l, Forall (fun ch => ch <> NEWLINE) l -> filter (fun ch => ch <> NEWLINE) l = l).
  { induction 1 as [|ch l Hch Hl IH]; [done|]. by rewrite filter_cons, decide_True, IH. }
  apply Hall, Forall_forall. intros ch Hin ->. apply list_elem_of_lookup in Hin as (i & Hi). pose proof (lookup_lt_Some _ _ _ Hi) as Hlt.
  destruct (EncodeBlock_char x (Z.of_nat i) Hx) as [Hv _]; [unfold zlen; lia|]. unfold znth in Hv. rewrite Nat2Z.id, (nth_lookup_Some _ _ _ _ Hi) in Hv. change (conv_ascii2bin NEWLINE) with 0xF0 in Hv. lia.
Qed.
Lemma b64_lines_chars fuel : forall x, (length x <= fuel)%nat -> Forall is_byte x -> filter (fun ch => ch <> NEWLINE) (b64_lines fuel x) = EVP_EncodeBlock x.
Proof.
  induction fuel as [|fuel IH]; intros x Hf Hx; [by destruct x; [|cbn in Hf; lia]|]. cbn [b64_lines]. destruct x as [|b x]; [done|]. set (y := b :: x) in *.
  rewrite !filter_app, EncodeBlock_no_newline by by apply Forall_ztake. change (filter _ [NEWLINE]) with (@nil Z). cbn [app].
  rewrite IH by (try apply Forall_zdrop; try done; unfold zdrop; rewrite length_drop; subst y; cbn [length] in *; lia).
  destruct (Z.le_gt_cases 48 (zlen y)) as [Hle|Hgt].
  - rewrite <- (EncodeBlock_app 16), ztake_zdrop; [done|]. unfold ztake. rewrite length_take. unfold zlen in Hle. lia.
  - rewrite ztake_ge, zdrop_ge by lia. apply app_nil_r.
Qed.

(** C40: base64 in pieces.  However the data is cut into calls of EVP_EncodeUpdate, what those calls and EVP_EncodeFinal
    write is one text: the data in lines of 48 bytes, 64 characters each, the last one padded with [=].  However that text is cut
    into calls of EVP_DecodeUpdate, none of them nor EVP_DecodeFinal fails, and what they write is the data. *)
Theorem b64_roundtrip (chunks ds : list (list Z)) :
  Forall (Forall is_byte) chunks -> Forall (fun x => zlen x < 2 ^ 30) chunks -> concat ds = b64_encode chunks ->
  b64_encode chunks = b64_text (concat chunks) /\ b64_decode ds = Some (concat chunks).
Proof.
  intros Hb Hz Hds. assert (E : b64_encode chunks = b64_text (concat chunks)).
  { apply (encode_run_ok chunks _ []); [|done]. unfold encoding. split_and!; done. }
  split; [done|]. rewrite E in Hds. assert (Hx : Forall is_byte (concat chunks)) by by apply Forall_concat.
  set (x := concat chunks) in *. pose proof (padding_range x). pose proof (zlen_EncodeBlock x). pose proof (zlen_nonneg x).
  destruct (decode_run_ok x Hx ds (EVP_DecodeInit blank_enc) [] (EVP_EncodeBlock x) 0) as (o & Ho & Hox).
  - exists 0. pose proof (F_pad x). split_and!; try done; cbn [EVP_DecodeInit num]; lia.
  - by left.
  - rewrite Hds. by apply b64_lines_chars.
  - unfold b64_decode. rewrite Ho. cbn [app] in Hox. by rewrite Hox.
Qed.
Lemma b64_roundtrip_witness :
  b64_decode [[83; 71; 86]; [115; 98; 71; 56]; []; [61; 10]] = Some [72; 101; 108; 108; 111].
Proof.
  apply (b64_roundtrip [[72; 101]; []; [108; 108; 111]] [[83; 71; 86]; [115; 98; 71; 56]; []; [61; 10]]).
  - repeat constructor; unfold is_byte; lia.
  - repeat constructor; vm_compute; reflexivity.
  - vm_compute. reflexivity.
Defined.
