(* ===== verification/Versions.v ===== *)
(** * Protocol versions (ssl/ssl_versions.c, ssl/ssl_methods.c)

    Which protocol versions a connection may use: the method it was made with, the configured
    minimum and maximum, and the options that disable single versions.  A function that fills
    output parameters and returns 1 returns them in [Some]; [None] is a return of 0.  Of a method
    only the versions are modelled, of an [SSL] the fields these functions read and write. *)
From S2P Require Import Prelude RecordLayer Handshake.

Definition TLS1_VERSION : Z := 0x0301.
Definition TLS1_1_VERSION : Z := 0x0302.
Definition DTLS1_VERSION : Z := 0xFEFF.
Definition DTLS1_2_VERSION : Z := 0xFEFD.
Definition DTLS1_VERSION_MAJOR : Z := 0xFE.

Definition SSL_OP_NO_TLSv1 : Z := 0x04000000.
Definition SSL_OP_NO_TLSv1_2 : Z := 0x08000000.
Definition SSL_OP_NO_TLSv1_1 : Z := 0x10000000.
Definition SSL_OP_NO_TLSv1_3 : Z := 0x20000000.
Definition SSL_OP_NO_DTLSv1 : Z := 0x40000000.
Definition SSL_OP_NO_DTLSv1_2 : Z := 0x80000000.

(** ** Methods *)
Record SSL_METHOD := mkMethod {
  m_dtls : bool; m_server : bool; m_version : Z;
  m_min_tls_version : Z; m_max_tls_version : Z
}.

Definition DTLS_method_data := mkMethod true true DTLS1_2_VERSION TLS1_1_VERSION TLS1_2_VERSION.
Definition DTLS_client_method_data := mkMethod true false DTLS1_2_VERSION TLS1_1_VERSION TLS1_2_VERSION.
Definition DTLSv1_method_data := mkMethod true true DTLS1_VERSION TLS1_1_VERSION TLS1_1_VERSION.
Definition DTLSv1_client_method_data := mkMethod true false DTLS1_VERSION TLS1_1_VERSION TLS1_1_VERSION.
Definition DTLSv1_2_method_data := mkMethod true true DTLS1_2_VERSION TLS1_2_VERSION TLS1_2_VERSION.
Definition DTLSv1_2_client_method_data := mkMethod true false DTLS1_2_VERSION TLS1_2_VERSION TLS1_2_VERSION.
Definition TLS_method_data := mkMethod false true TLS1_3_VERSION TLS1_VERSION TLS1_3_VERSION.
Definition TLS_legacy_method_data := mkMethod false true TLS1_2_VERSION TLS1_VERSION TLS1_2_VERSION.
Definition TLS_client_method_data := mkMethod false false TLS1_3_VERSION TLS1_VERSION TLS1_3_VERSION.
Definition TLSv1_method_data := mkMethod false true TLS1_VERSION TLS1_VERSION TLS1_VERSION.
Definition TLSv1_client_method_data := mkMethod false false TLS1_VERSION TLS1_VERSION TLS1_VERSION.
Definition TLSv1_1_method_data := mkMethod false true TLS1_1_VERSION TLS1_1_VERSION TLS1_1_VERSION.
Definition TLSv1_1_client_method_data := mkMethod false false TLS1_1_VERSION TLS1_1_VERSION TLS1_1_VERSION.
Definition TLSv1_2_method_data := mkMethod false true TLS1_2_VERSION TLS1_2_VERSION TLS1_2_VERSION.
Definition TLSv1_2_client_method_data := mkMethod false false TLS1_2_VERSION TLS1_2_VERSION TLS1_2_VERSION.

Definition ssl_get_method (version : Z) : option SSL_METHOD :=
  if version =? TLS1_3_VERSION then Some TLS_method_data
  else if version =? TLS1_2_VERSION then Some TLSv1_2_method_data
  else if version =? TLS1_1_VERSION then Some TLSv1_1_method_data
  else if version =? TLS1_VERSION then Some TLSv1_method_data
  else if version =? DTLS1_VERSION then Some DTLSv1_method_data
  else if version =? DTLS1_2_VERSION then Some DTLSv1_2_method_data
  else None.

(** ** Connections *)
(** The version settings, of an SSL_CTX and of an SSL alike; a proto version of 0 stands for the default. *)
Record settings := mkSettings {
  options : Z;
  min_tls_version : Z; max_tls_version : Z;
  min_proto_version : Z; max_proto_version : Z
}.
Record SSL_CTX := mkCtx { ctx_method : SSL_METHOD; ctx_internal : settings }.
Record SSL := mkSSL {
  s_method : SSL_METHOD; s_internal : settings;
  s_version : Z; s_client_version : Z;
  our_min_tls_version : Z; our_max_tls_version : Z; negotiated_tls_version : Z;
  server_random : list Z
}.

Definition SSL_is_dtls (s : SSL) : bool := m_dtls (s_method s).

Definition ssl_dtls_to_tls_version (dtls_ver : Z) : Z :=
  if dtls_ver =? DTLS1_VERSION then TLS1_1_VERSION
  else if dtls_ver =? DTLS1_2_VERSION then TLS1_2_VERSION
  else 0.
Definition ssl_tls_to_dtls_version (tls_ver : Z) : Z :=
  if tls_ver =? TLS1_1_VERSION then DTLS1_VERSION
  else if tls_ver =? TLS1_2_VERSION then DTLS1_2_VERSION
  else 0.

Definition ssl_clamp_tls_version_range (min_ver max_ver clamp_min clamp_max : Z) : option (Z * Z) :=
  if (clamp_max <? clamp_min) || (max_ver <? min_ver) then None
  else if (clamp_max <? min_ver) || (max_ver <? clamp_min) then None
  else
  let min_ver := if min_ver <? clamp_min then clamp_min else min_ver in
  let max_ver := if clamp_max <? max_ver then clamp_max else max_ver in
  Some (min_ver, max_ver).

(** The new [out_tls_ver] and [out_proto_ver]. *)
Definition ssl_version_set_min (meth : SSL_METHOD) (proto_ver max_tls_ver : Z) : option (Z * Z) :=
  if proto_ver =? 0 then Some (m_min_tls_version meth, 0)
  else
  let min_version := if m_dtls meth then ssl_dtls_to_tls_version proto_ver else proto_ver in
  if m_dtls meth && (min_version =? 0) then None
  else
  '(min_version, _) ← ssl_clamp_tls_version_range min_version max_tls_ver (m_min_tls_version meth) (m_max_tls_version meth);
  let min_proto := if m_dtls meth then ssl_tls_to_dtls_version min_version else min_version in
  if m_dtls meth && (min_proto =? 0) then None else Some (min_version, min_proto).
Definition ssl_version_set_max (meth : SSL_METHOD) (proto_ver min_tls_ver : Z) : option (Z * Z) :=
  if proto_ver =? 0 then Some (m_max_tls_version meth, 0)
  else
  let max_version := if m_dtls meth then ssl_dtls_to_tls_version proto_ver else proto_ver in
  if m_dtls meth && (max_version =? 0) then None
  else
  '(_, max_version) ← ssl_clamp_tls_version_range min_tls_ver max_version (m_min_tls_version meth) (m_max_tls_version meth);
  let max_proto := if m_dtls meth then ssl_tls_to_dtls_version max_version else max_version in
  if m_dtls meth && (max_proto =? 0) then None else Some (max_version, max_proto).

Definition has (options op : Z) : bool := negb (Z.land options op =? 0).

(** The options that count for a DTLS connection. *)
Definition version_options (s : SSL) : Z :=
  let options := options (s_internal s) in
  if SSL_is_dtls s then
    Z.lor (if has options SSL_OP_NO_DTLSv1 then SSL_OP_NO_TLSv1_1 else 0) (if has options SSL_OP_NO_DTLSv1_2 then SSL_OP_NO_TLSv1_2 else 0)
  else options.

Definition ssl_enabled_tls_version_range (s : SSL) : option (Z * Z) :=
  let options := version_options s in
  let min_version :=
    if negb (has options SSL_OP_NO_TLSv1) then TLS1_VERSION
    else if negb (has options SSL_OP_NO_TLSv1_1) then TLS1_1_VERSION
    else if negb (has options SSL_OP_NO_TLSv1_2) then TLS1_2_VERSION
    else if negb (has options SSL_OP_NO_TLSv1_3) then TLS1_3_VERSION
    else 0 in
  let max_version := TLS1_3_VERSION in
  let max_version := if has options SSL_OP_NO_TLSv1_3 && (min_version <? TLS1_3_VERSION) then TLS1_2_VERSION else max_version in
  let max_version := if has options SSL_OP_NO_TLSv1_2 && (min_version <? TLS1_2_VERSION) then TLS1_1_VERSION else max_version in
  let max_version := if has options SSL_OP_NO_TLSv1_1 && (min_version <? TLS1_1_VERSION) then TLS1_VERSION else max_version in
  let max_version := if has options SSL_OP_NO_TLSv1 && (min_version <? TLS1_VERSION) then 0 else max_version in
  if (min_version =? 0) || (max_version =? 0) then None
  else ssl_clamp_tls_version_range min_version max_version (min_tls_version (s_internal s)) (max_tls_version (s_internal s)).

Definition ssl_supported_tls_version_range (s : SSL) : option (Z * Z) :=
  '(min_version, max_version) ← ssl_enabled_tls_version_range s;
  ssl_clamp_tls_version_range min_version max_version (m_min_tls_version (s_method s)) (m_max_tls_version (s_method s)).

Definition ssl_tls_version (version : Z) : Z :=
  if (version =? TLS1_VERSION) || (version =? TLS1_1_VERSION) || (version =? TLS1_2_VERSION) || (version =? TLS1_3_VERSION) then version
  else if version =? DTLS1_VERSION then TLS1_1_VERSION
  else if version =? DTLS1_2_VERSION then TLS1_2_VERSION
  else 0.

Definition ssl_effective_tls_version (s : SSL) : Z :=
  if 0 <? negotiated_tls_version s then negotiated_tls_version s else our_max_tls_version s.

Definition ssl_max_supported_version (s : SSL) : option Z :=
  '(_, max_version) ← ssl_supported_tls_version_range s;
  let max_version := if SSL_is_dtls s then ssl_tls_to_dtls_version max_version else max_version in
  if SSL_is_dtls s && (max_version =? 0) then None else Some max_version.

(** The version of the peer as a TLS version; newer DTLS versions, which have smaller numbers, count as TLSv1.2. *)
Definition peer_tls_version (s : SSL) (peer_ver : Z) : option Z :=
  if SSL_is_dtls s then
    if negb (Z.shiftr peer_ver 8 =? DTLS1_VERSION_MAJOR) then None
    else
    let v := ssl_dtls_to_tls_version peer_ver in
    Some (if (v =? 0) && (peer_ver <? DTLS1_2_VERSION) then TLS1_2_VERSION else v)
  else Some peer_ver.

Definition ssl_max_shared_version (s : SSL) (peer_ver : Z) : option Z :=
  peer ← peer_tls_version s peer_ver;
  shared_version ←
    (if TLS1_3_VERSION <=? peer then Some TLS1_3_VERSION
     else if TLS1_2_VERSION <=? peer then Some TLS1_2_VERSION
     else if TLS1_1_VERSION <=? peer then Some TLS1_1_VERSION
     else if TLS1_VERSION <=? peer then Some TLS1_VERSION
     else None);
  '(min_version, max_version) ← ssl_supported_tls_version_range s;
  if shared_version <? min_version then None
  else
  let shared_version := if max_version <? shared_version then max_version else shared_version in
  let shared_version := if SSL_is_dtls s then ssl_tls_to_dtls_version shared_version else shared_version in
  if SSL_is_dtls s && (shared_version =? 0) then None else Some shared_version.

Definition ssl_check_version_from_server (s : SSL) (server_version : Z) : bool :=
  let server_tls_version := if SSL_is_dtls s then ssl_dtls_to_tls_version server_version else server_version in
  if SSL_is_dtls s && (server_tls_version =? 0) then false
  else
  match ssl_supported_tls_version_range s with
  | None => false
  | Some (min_tls_version, max_tls_version) => (min_tls_version <=? server_tls_version) && (server_tls_version <=? max_tls_version)
  end.

Definition ssl_legacy_stack_version (s : SSL) (version : Z) : bool :=
  if SSL_is_dtls s then (version =? DTLS1_VERSION) || (version =? DTLS1_2_VERSION)
  else (version =? TLS1_VERSION) || (version =? TLS1_1_VERSION) || (version =? TLS1_2_VERSION).

(** ** Settings (ssl_lib.c) *)
Definition SSL_OP_LEGACY_SERVER_CONNECT : Z := 4.
(** The version settings of a new context and of a new connection; the method's [ssl_clear] sets the version. *)
Definition SSL_CTX_new (meth : SSL_METHOD) : SSL_CTX :=
  mkCtx meth (mkSettings SSL_OP_LEGACY_SERVER_CONNECT (m_min_tls_version meth) (m_max_tls_version meth) 0 0).
Definition SSL_new (ctx : SSL_CTX) : SSL :=
  mkSSL (ctx_method ctx) (ctx_internal ctx) (if m_dtls (ctx_method ctx) then DTLS1_VERSION else m_version (ctx_method ctx)) 0 0 0 0 (zeros 32).

Definition put_min (r : option (Z * Z)) (i : settings) : option settings :=
  '(tls, proto) ← r; Some (mkSettings (options i) tls (max_tls_version i) proto (max_proto_version i)).
Definition put_max (r : option (Z * Z)) (i : settings) : option settings :=
  '(tls, proto) ← r; Some (mkSettings (options i) (min_tls_version i) tls (min_proto_version i) proto).
Definition SSL_CTX_set_min_proto_version (version : Z) (ctx : SSL_CTX) : bool * SSL_CTX :=
  match put_min (ssl_version_set_min (ctx_method ctx) version (max_tls_version (ctx_internal ctx))) (ctx_internal ctx) with
  | Some i => (true, mkCtx (ctx_method ctx) i) | None => (false, ctx)
  end.
Definition SSL_CTX_set_max_proto_version (version : Z) (ctx : SSL_CTX) : bool * SSL_CTX :=
  match put_max (ssl_version_set_max (ctx_method ctx) version (min_tls_version (ctx_internal ctx))) (ctx_internal ctx) with
  | Some i => (true, mkCtx (ctx_method ctx) i) | None => (false, ctx)
  end.
Definition with_internal (i : settings) (s : SSL) : SSL :=
  mkSSL (s_method s) i (s_version s) (s_client_version s) (our_min_tls_version s) (our_max_tls_version s) (negotiated_tls_version s) (server_random s).
Definition SSL_set_min_proto_version (version : Z) (s : SSL) : bool * SSL :=
  match put_min (ssl_version_set_min (s_method s) version (max_tls_version (s_internal s))) (s_internal s) with
  | Some i => (true, with_internal i s) | None => (false, s)
  end.
Definition SSL_set_max_proto_version (version : Z) (s : SSL) : bool * SSL :=
  match put_max (ssl_version_set_max (s_method s) version (min_tls_version (s_internal s))) (s_internal s) with
  | Some i => (true, with_internal i s) | None => (false, s)
  end.
Definition put_options (f : Z -> Z) (i : settings) : settings :=
  mkSettings (f (options i)) (min_tls_version i) (max_tls_version i) (min_proto_version i) (max_proto_version i).
(** The controls SSL_CTRL_OPTIONS and SSL_CTRL_CLEAR_OPTIONS, of a context and of a connection. *)
Definition SSL_CTX_set_options (larg : Z) (ctx : SSL_CTX) : SSL_CTX := mkCtx (ctx_method ctx) (put_options (fun o => Z.lor o larg) (ctx_internal ctx)).
Definition SSL_CTX_clear_options (larg : Z) (ctx : SSL_CTX) : SSL_CTX := mkCtx (ctx_method ctx) (put_options (fun o => Z.ldiff o larg) (ctx_internal ctx)).
Definition SSL_set_options (larg : Z) (s : SSL) : SSL := with_internal (put_options (fun o => Z.lor o larg) (s_internal s)) s.
Definition SSL_clear_options (larg : Z) (s : SSL) : SSL := with_internal (put_options (fun o => Z.ldiff o larg) (s_internal s)) s.

(** ** The specification *)

(** The option that disables a version. *)
Definition version_flag (v : Z) : Z :=
  if v =? TLS1_VERSION then SSL_OP_NO_TLSv1 else if v =? TLS1_1_VERSION then SSL_OP_NO_TLSv1_1
  else if v =? TLS1_2_VERSION then SSL_OP_NO_TLSv1_2 else SSL_OP_NO_TLSv1_3.
Definition disabled (s : SSL) (v : Z) : bool := has (version_options s) (version_flag v).

(** A version is enabled unless it is disabled or lies above a gap: a disabled version with an enabled one below it. *)
Definition enabled (s : SSL) (v : Z) : Prop :=
  TLS1_VERSION <= v <= TLS1_3_VERSION /\ disabled s v = false /\
  forall u w, TLS1_VERSION <= w < u -> u < v -> disabled s u = true -> disabled s w = true.
(** The connection may use the version. *)
Definition supported (s : SSL) (v : Z) : Prop :=
  enabled s v /\ min_tls_version (s_internal s) <= v <= max_tls_version (s_internal s) /\
  m_min_tls_version (s_method s) <= v <= m_max_tls_version (s_method s).

(** The versions of a range. *)
Definition range (r : option (Z * Z)) (P : Z -> Prop) : Prop :=
  match r with Some (a, b) => a <= b /\ forall v, P v <-> a <= v <= b | None => forall v, ~ P v end.

Lemma clamp_range r lo hi cmin cmax (P : Z -> Prop) :
  r = Some (lo, hi) -> range r P -> range (ssl_clamp_tls_version_range lo hi cmin cmax) (fun v => P v /\ cmin <= v <= cmax).
Proof.
  intros -> [Hle HP]. unfold ssl_clamp_tls_version_range.
  destruct (Z.ltb_spec cmax cmin), (Z.ltb_spec hi lo), (Z.ltb_spec cmax lo), (Z.ltb_spec hi cmin); cbn [orb]; try (intros v [?%HP ?]; lia).
  destruct (Z.ltb_spec lo cmin), (Z.ltb_spec cmax hi); (split; [lia|]; intros v; rewrite HP; lia).
Qed.

Ltac versions := unfold TLS1_VERSION, TLS1_1_VERSION, TLS1_2_VERSION, TLS1_3_VERSION in *.

(** The four versions one by one. *)
Lemma enabled_iff s v :
  let b0 := has (version_options s) SSL_OP_NO_TLSv1 in let b1 := has (version_options s) SSL_OP_NO_TLSv1_1 in
  let b2 := has (version_options s) SSL_OP_NO_TLSv1_2 in let b3 := has (version_options s) SSL_OP_NO_TLSv1_3 in
  enabled s v <->
  (v = TLS1_VERSION /\ b0 = false) \/ (v = TLS1_1_VERSION /\ b1 = false) \/
  (v = TLS1_2_VERSION /\ b2 = false /\ b1 && negb b0 = false) \/
  (v = TLS1_3_VERSION /\ b3 = false /\ b1 && negb b0 = false /\ b2 && negb (b0 && b1) = false).
Proof.
  intros b0 b1 b2 b3. unfold enabled. split.
  - intros (Hv & Hd & Hg).
    pose proof (Hg TLS1_1_VERSION TLS1_VERSION) as G10. pose proof (Hg TLS1_2_VERSION TLS1_VERSION) as G20. pose proof (Hg TLS1_2_VERSION TLS1_1_VERSION) as G21.
    change (disabled s TLS1_VERSION) with b0 in *. change (disabled s TLS1_1_VERSION) with b1 in *. change (disabled s TLS1_2_VERSION) with b2 in *.
    assert (v = TLS1_VERSION \/ v = TLS1_1_VERSION \/ v = TLS1_2_VERSION \/ v = TLS1_3_VERSION) as [-> | [-> | [-> | ->]]] by (versions; lia);
      [left|right; left|right; right; left|right; right; right]; (split; [done|]); [exact Hd|exact Hd| |]; (split; [exact Hd|]); versions.
    + destruct b1, b0; try done. exfalso. specialize (G10 ltac:(lia) ltac:(lia) eq_refl). done.
    + destruct b0, b1, b2; try done; exfalso; try (specialize (G10 ltac:(lia) ltac:(lia) eq_refl); done); try (specialize (G20 ltac:(lia) ltac:(lia) eq_refl); done);
        specialize (G21 ltac:(lia) ltac:(lia) eq_refl); done.
  - assert (Hu : forall u w, TLS1_VERSION <= w < u -> u < TLS1_3_VERSION -> (w = TLS1_VERSION /\ (u = TLS1_1_VERSION \/ u = TLS1_2_VERSION)) \/ (w = TLS1_1_VERSION /\ u = TLS1_2_VERSION)) by (versions; lia).
    intros [[-> Hb]|[[-> Hb]|[(-> & Hb & Hb')|(-> & Hb & Hb' & Hb'')]]]; (split; [versions; lia|]); (split; [exact Hb|]);
      intros u w Hw Huv; destruct (Hu u w Hw ltac:(versions; lia)) as [[-> [-> | ->]]|[-> ->]];
      change (disabled s TLS1_VERSION) with b0; change (disabled s TLS1_1_VERSION) with b1; change (disabled s TLS1_2_VERSION) with b2;
      try (exfalso; versions; lia); destruct b0, b1, b2; done.
Qed.

Lemma enabled_range s : range (ssl_enabled_tls_version_range s) (fun v => enabled s v /\ min_tls_version (s_internal s) <= v <= max_tls_version (s_internal s)).
Proof.
  pose proof (enabled_iff s) as Hiff. cbv zeta in Hiff. unfold ssl_enabled_tls_version_range. cbv zeta.
  set (b0 := has _ SSL_OP_NO_TLSv1) in *. set (b1 := has _ SSL_OP_NO_TLSv1_1) in *. set (b2 := has _ SSL_OP_NO_TLSv1_2) in *. set (b3 := has _ SSL_OP_NO_TLSv1_3) in *.
  clearbody b0 b1 b2 b3. versions.
  destruct b0, b1, b2, b3; cbn [negb andb] in Hiff |- *; cbn -[ssl_clamp_tls_version_range Z.le range];
    try (eapply clamp_range; [reflexivity|]; split; [lia|]; intros v; rewrite Hiff; intuition lia).
  intros v [Hv _]. apply Hiff in Hv. intuition lia.
Qed.

Lemma supported_range s : range (ssl_supported_tls_version_range s) (supported s).
Proof.
  pose proof (enabled_range s) as He. unfold ssl_supported_tls_version_range. destruct (ssl_enabled_tls_version_range s) as [[lo hi]|] eqn:E; cbn [mbind option_bind].
  - pose proof (clamp_range _ lo hi (m_min_tls_version (s_method s)) (m_max_tls_version (s_method s)) _ eq_refl He) as Hc.
    destruct (ssl_clamp_tls_version_range _ _ _ _) as [[a b]|]; unfold range, supported in *.
    + destruct Hc as [Hab Hc]. split; [done|]. intros v. rewrite <- Hc. tauto.
    + intros v Hv. apply (Hc v). tauto.
  - intros v (? & ? & ?). by apply (He v).
Qed.

(** The versions that a peer announces with one number: that one and the older ones.  DTLS numbers count down, and what is
    newer than DTLSv1.2 includes it; the number between DTLSv1.2 and DTLSv1.0 was never assigned. *)
Definition offers (s : SSL) (peer_ver t : Z) : Prop :=
  if SSL_is_dtls s then 0xFE00 <= peer_ver <= DTLS1_2_VERSION \/ (peer_ver = DTLS1_VERSION /\ t <= TLS1_1_VERSION)
  else t <= peer_ver.
(** How a version is written on the wire. *)
Definition wire (s : SSL) (t : Z) : Z := if SSL_is_dtls s then ssl_tls_to_dtls_version t else t.
(** DTLS methods have the versions DTLSv1.0 and DTLSv1.2 only. *)
Definition method_ok (m : SSL_METHOD) : Prop :=
  TLS1_VERSION <= m_min_tls_version m <= m_max_tls_version m /\ m_max_tls_version m <= TLS1_3_VERSION /\
  (m_dtls m = true -> TLS1_1_VERSION <= m_min_tls_version m /\ m_max_tls_version m <= TLS1_2_VERSION).

Lemma supported_bounds s t : method_ok (s_method s) -> supported s t ->
  TLS1_VERSION <= t <= TLS1_3_VERSION /\ (SSL_is_dtls s = true -> t = TLS1_1_VERSION \/ t = TLS1_2_VERSION).
Proof. intros (Hm1 & Hm2 & Hd) ((Hv & _) & _ & Hm). split; [done|]. intros E. specialize (Hd E). versions. lia. Qed.

Lemma wire_inj s t u : method_ok (s_method s) -> supported s t -> supported s u -> wire s t = wire s u -> t = u.
Proof.
  intros Hm Ht Hu. apply (supported_bounds s) in Ht, Hu; [|done..]. unfold wire. destruct (SSL_is_dtls s); [|done].
  destruct Ht as [_ [-> | ->]], Hu as [_ [-> | ->]]; done.
Qed.

(** The number that is compared: as an upper bound it means what the peer offers. *)
Lemma peer_tls_version_offers s peer_ver t :
  method_ok (s_method s) -> supported s t ->
  match peer_tls_version s peer_ver with Some p => offers s peer_ver t <-> t <= p | None => ~ offers s peer_ver t end.
Proof.
  intros Hm Ht. pose proof (supported_bounds s t Hm Ht) as [Hb Hd]. unfold peer_tls_version, offers. destruct (SSL_is_dtls s); [|done]. specialize (Hd eq_refl).
  rewrite Z.shiftr_div_pow2 by lia. change (2 ^ 8) with 256. unfold DTLS1_VERSION_MAJOR, ssl_dtls_to_tls_version, DTLS1_VERSION, DTLS1_2_VERSION. versions.
  destruct (Z.eqb_spec (peer_ver / 256) 254) as [E|E]; cbn [negb]; [|intros [Ho|Ho]; apply E; Z.to_euclidean_division_equations; lia].
  assert (Hr : 0xFE00 <= peer_ver <= 0xFEFF) by (Z.to_euclidean_division_equations; lia).
  destruct (Z.eqb_spec peer_ver 0xFEFF) as [->|H1]; [cbn; lia|]. destruct (Z.eqb_spec peer_ver 0xFEFD) as [->|H2]; [cbn; lia|].
  cbn [Z.eqb]. destruct (Z.ltb_spec peer_ver 0xFEFD); cbn [andb]; lia.
Qed.

Definition best_shared (s : SSL) (peer_ver : Z) (r : option Z) : Prop :=
  match r with
  | Some v => exists t, v = wire s t /\ supported s t /\ offers s peer_ver t /\ forall u, supported s u -> offers s peer_ver u -> u <= t
  | None => forall u, supported s u -> ~ offers s peer_ver u
  end.
Lemma max_shared_best s peer_ver : method_ok (s_method s) -> best_shared s peer_ver (ssl_max_shared_version s peer_ver).
Proof.
  intros Hm. pose proof (supported_range s) as Hr. unfold best_shared.
  unfold ssl_max_shared_version. destruct (peer_tls_version s peer_ver) as [p|] eqn:Ep; cbn [mbind option_bind].
  2: { intros u Hu. pose proof (peer_tls_version_offers s peer_ver u Hm Hu) as Ho. by rewrite Ep in Ho. }
  assert (Ho : forall u, supported s u -> offers s peer_ver u <-> u <= p).
  { intros u Hu. pose proof (peer_tls_version_offers s peer_ver u Hm Hu) as Ho. by rewrite Ep in Ho. }
  set (sh := if TLS1_3_VERSION <=? p then _ else _).
  assert (Hsh : match sh with Some q => TLS1_VERSION <= q <= TLS1_3_VERSION /\ forall u, u <= TLS1_3_VERSION -> u <= p <-> u <= q | None => p < TLS1_VERSION end).
  { unfold sh. versions. destruct (Z.leb_spec 0x304 p), (Z.leb_spec 0x303 p), (Z.leb_spec 0x302 p), (Z.leb_spec 0x301 p); try lia; (split; [lia|intros u Hu; lia]). }
  destruct sh as [q|]; cbn [mbind option_bind].
  2: { intros u Hu. rewrite Ho by done. apply (supported_bounds s u Hm) in Hu. lia. }
  destruct Hsh as [Hq Hpq]. assert (Ho' : forall u, supported s u -> offers s peer_ver u <-> u <= q).
  { intros u Hu. rewrite Ho by done. apply Hpq. apply (supported_bounds s u Hm) in Hu. lia. }
  destruct (ssl_supported_tls_version_range s) as [[lo hi]|]; cbn [mbind option_bind]; [|intros u Hu; by destruct (Hr u)].
  destruct Hr as [Hle Hr]. destruct (Z.ltb_spec q lo); [intros u Hu; rewrite Ho' by done; apply Hr in Hu; lia|].
  set (t := if hi <? q then hi else q). assert (Ht : t = Z.min hi q) by (unfold t; destruct (Z.ltb_spec hi q); lia).
  assert (Hst : supported s t) by (apply Hr; lia). fold (wire s t).
  replace (SSL_is_dtls s && (wire s t =? 0)) with false.
  - exists t. split_and!; [done..| |]; [apply Ho'; [done|lia]|]. intros u Hu Hou. apply Ho' in Hou; [|done]. apply Hr in Hu. lia.
  - unfold wire. pose proof (supported_bounds s t Hm Hst) as [_ Hd]. destruct (SSL_is_dtls s); [|done]. by destruct (Hd eq_refl) as [-> | ->].
Qed.
Lemma check_version_iff s server_version : method_ok (s_method s) ->
  ssl_check_version_from_server s server_version = true <-> exists t, server_version = wire s t /\ supported s t.
Proof.
  intros Hm. pose proof (supported_range s) as Hr. revert server_version.
  intros sv. unfold ssl_check_version_from_server. split.
  - intros Hc. destruct (SSL_is_dtls s && _) eqn:Ez; [done|]. destruct (ssl_supported_tls_version_range s) as [[lo hi]|]; [|done]. destruct Hr as [_ Hr].
    exists (if SSL_is_dtls s then ssl_dtls_to_tls_version sv else sv). split; [|apply Hr; lia]. unfold wire. destruct (SSL_is_dtls s); [|done].
    unfold ssl_dtls_to_tls_version in Ez |- *. destruct (Z.eqb_spec sv DTLS1_VERSION) as [E1|E1]; [by rewrite E1|]. destruct (Z.eqb_spec sv DTLS1_2_VERSION) as [E2|E2]; [by rewrite E2|done].
  - intros (t & -> & Ht). pose proof (supported_bounds s t Hm Ht) as [_ Hd]. destruct (ssl_supported_tls_version_range s) as [[lo hi]|]; [|by destruct (Hr t)].
    apply Hr in Ht. unfold wire. destruct (SSL_is_dtls s); cbn [andb]; [|lia]. by destruct (Hd eq_refl) as [-> | ->]; cbn; lia.
Qed.

(** Disabling DTLSv1.0 leaves a gap above TLSv1.0, which DTLS does not have: nothing is left, not even DTLSv1.2. *)
Lemma no_dtlsv1_disables_dtls (s : SSL) :
  method_ok (s_method s) -> SSL_is_dtls s = true -> has (options (s_internal s)) SSL_OP_NO_DTLSv1 = true -> ssl_supported_tls_version_range s = None.
Proof.
  intros Hm Hd Ho. pose proof (supported_range s) as Hr. destruct (ssl_supported_tls_version_range s) as [[a b]|]; [|done]. exfalso.
  destruct Hr as [Hab Hr]. assert (Hb : supported s b) by (apply Hr; lia). destruct (supported_bounds s b Hm Hb) as [_ Hv]. specialize (Hv Hd).
  destruct Hb as ((_ & Hen & Hg) & _). unfold disabled, version_options in *. rewrite Hd, Ho in *. set (z := if has _ SSL_OP_NO_DTLSv1_2 then _ else _) in *.
  assert (Hz : z = 0 \/ z = SSL_OP_NO_TLSv1_2) by (unfold z; case_match; [by right|by left]). destruct Hv as [-> | ->].
  - destruct Hz as [E|E]; rewrite E in Hen; vm_compute in Hen; done.
  - specialize (Hg TLS1_1_VERSION TLS1_VERSION ltac:(versions; lia) ltac:(versions; lia)). destruct Hz as [E|E]; rewrite E in Hg; vm_compute in Hg; specialize (Hg eq_refl); done.
Qed.

(** The negotiated version is the best one: ssl_max_shared_version picks the highest version that the connection supports and
    the peer offers, and fails only when there is none.  A version is supported when no option disables it, it does not lie above
    a gap in the enabled ones, and it is in the configured range and in the range of the method; for DTLS the number
    on the wire is that of the version.  A client accepts from the server exactly the versions that it supports.  Disabling
    DTLSv1.0 leaves a DTLS connection no version at all, since TLSv1.0 counts as an enabled version below it. *)
Theorem ssl_max_shared_version_best (s : SSL) (peer_ver : Z) :
  method_ok (s_method s) ->
  best_shared s peer_ver (ssl_max_shared_version s peer_ver) /\
  (forall server_version, ssl_check_version_from_server s server_version = true <-> exists t, server_version = wire s t /\ supported s t) /\
  (SSL_is_dtls s = true -> has (options (s_internal s)) SSL_OP_NO_DTLSv1 = true -> ssl_supported_tls_version_range s = None).
Proof. intros Hm. split; [by apply max_shared_best|]. split; [intros v; by apply check_version_iff|by apply no_dtlsv1_disables_dtls]. Qed.
Definition tls_gap : SSL := SSL_new (SSL_CTX_set_options SSL_OP_NO_TLSv1_2 (SSL_CTX_new TLS_method_data)).
Lemma ssl_max_shared_version_best_witness :
  ssl_max_shared_version tls_gap 0x0303 = Some TLS1_1_VERSION /\
  (forall u, supported tls_gap u -> u <= 0x0303 -> u <= TLS1_1_VERSION) /\ ssl_check_version_from_server tls_gap TLS1_3_VERSION = false.
Proof.
  assert (E : ssl_max_shared_version tls_gap 0x0303 = Some TLS1_1_VERSION) by reflexivity. split; [exact E|].
  assert (Hm : method_ok (s_method tls_gap)) by (unfold method_ok; vm_compute; intuition discriminate).
  pose proof (ssl_max_shared_version_best tls_gap 0x0303 Hm) as [Hb _]. rewrite E in Hb. destruct Hb as (t & Ht & _ & _ & Hbest). split.
  - intros u Hu Ho. rewrite Ht. exact (Hbest u Hu Ho).
  - reflexivity.
Defined.

(** ** Settings stay well-formed *)
Inductive setting := SetMin (v : Z) | SetMax (v : Z) | SetOptions (o : Z) | ClearOptions (o : Z).
Definition ctx_apply (ctx : SSL_CTX) (o : setting) : SSL_CTX :=
  match o with
  | SetMin v => snd (SSL_CTX_set_min_proto_version v ctx) | SetMax v => snd (SSL_CTX_set_max_proto_version v ctx)
  | SetOptions o => SSL_CTX_set_options o ctx | ClearOptions o => SSL_CTX_clear_options o ctx
  end.
Definition ssl_apply (s : SSL) (o : setting) : SSL :=
  match o with
  | SetMin v => snd (SSL_set_min_proto_version v s) | SetMax v => snd (SSL_set_max_proto_version v s)
  | SetOptions o => SSL_set_options o s | ClearOptions o => SSL_clear_options o s
  end.

(** A protocol version as a TLS version. *)
Definition tls_of (m : SSL_METHOD) (v : Z) : Z := if m_dtls m then ssl_dtls_to_tls_version v else v.
(** One bound of the range: the default of the method, or what the application asked for. *)
Definition bound_ok (m : SSL_METHOD) (dflt tls proto : Z) : Prop := (proto = 0 /\ tls = dflt) \/ (proto <> 0 /\ tls_of m proto = tls).
Definition settings_ok (m : SSL_METHOD) (i : settings) : Prop :=
  m_min_tls_version m <= min_tls_version i <= max_tls_version i /\ max_tls_version i <= m_max_tls_version m /\
  bound_ok m (m_min_tls_version m) (min_tls_version i) (min_proto_version i) /\ bound_ok m (m_max_tls_version m) (max_tls_version i) (max_proto_version i).

Definition all_methods : list SSL_METHOD := [
  DTLS_method_data; DTLS_client_method_data; DTLSv1_method_data; DTLSv1_client_method_data; DTLSv1_2_method_data; DTLSv1_2_client_method_data;
  TLS_method_data; TLS_legacy_method_data; TLS_client_method_data; TLSv1_method_data; TLSv1_client_method_data;
  TLSv1_1_method_data; TLSv1_1_client_method_data; TLSv1_2_method_data; TLSv1_2_client_method_data].
Lemma all_methods_ok m : m ∈ all_methods -> method_ok m.
Proof.
  assert (Hall : Forall method_ok all_methods) by (repeat constructor; vm_compute; intuition discriminate). rewrite Forall_forall in Hall. apply Hall.
Qed.

(** The number for a version of the method, and back. *)
Lemma proto_of m t : method_ok m -> m_min_tls_version m <= t <= m_max_tls_version m ->
  let p := if m_dtls m then ssl_tls_to_dtls_version t else t in p <> 0 /\ tls_of m p = t.
Proof.
  intros (H1 & H2 & Hd) Ht. unfold tls_of. destruct (m_dtls m); [|versions; lia].
  specialize (Hd eq_refl). assert (t = TLS1_1_VERSION \/ t = TLS1_2_VERSION) as [-> | ->] by (versions; lia); done.
Qed.

(** What setting a bound does, in both outcomes. *)
Lemma version_set_min_spec m i v : method_ok m -> settings_ok m i ->
  match put_min (ssl_version_set_min m v (max_tls_version i)) i with
  | Some i' => settings_ok m i' /\ (v = 0 \/ tls_of m v <> 0 /\ tls_of m v <= max_tls_version i)
  | None => ~ (v = 0 \/ tls_of m v <> 0 /\ tls_of m v <= max_tls_version i)
  end.
Proof.
  intros Hm (Hr1 & Hr2 & Hb1 & Hb2). pose proof Hm as (M1 & M2 & Md). unfold ssl_version_set_min. destruct (Z.eqb_spec v 0) as [->|Hv].
  { cbn. split; [|by left]. unfold settings_ok. cbn. split_and!; try done; try lia. by left. }
  fold (tls_of m v). set (t := tls_of m v). destruct (m_dtls m && (t =? 0)) eqn:E0; [cbn; lia|].
  assert (Ht0 : t <> 0) by (unfold t, tls_of in *; destruct (m_dtls m); lia). unfold ssl_clamp_tls_version_range.
  rewrite (proj2 (Z.ltb_ge (m_max_tls_version m) _)) by lia. cbn [orb]. destruct (Z.ltb_spec (max_tls_version i) t); [cbn; lia|].
  rewrite (proj2 (Z.ltb_ge (m_max_tls_version m) t)), (proj2 (Z.ltb_ge (max_tls_version i) _)) by lia. cbn [orb mbind option_bind].
  set (t' := if t <? _ then _ else t). assert (Ht' : t' = Z.max t (m_min_tls_version m)) by (unfold t'; destruct (Z.ltb_spec t (m_min_tls_version m)); lia).
  destruct (proto_of m t' Hm ltac:(lia)) as [Hp0 Hp]. rewrite (proj2 (Z.eqb_neq _ 0) Hp0), andb_false_r. cbn [put_min mbind option_bind].
  split; [|by right]. unfold settings_ok. cbn. split_and!; try done; try lia. by right.
Qed.
Lemma version_set_max_spec m i v : method_ok m -> settings_ok m i ->
  match put_max (ssl_version_set_max m v (min_tls_version i)) i with
  | Some i' => settings_ok m i' /\ (v = 0 \/ tls_of m v <> 0 /\ min_tls_version i <= tls_of m v)
  | None => ~ (v = 0 \/ tls_of m v <> 0 /\ min_tls_version i <= tls_of m v)
  end.
Proof.
  intros Hm (Hr1 & Hr2 & Hb1 & Hb2). pose proof Hm as (M1 & M2 & Md). unfold ssl_version_set_max. destruct (Z.eqb_spec v 0) as [->|Hv].
  { cbn. split; [|by left]. unfold settings_ok. cbn. split_and!; try done; try lia. by left. }
  fold (tls_of m v). set (t := tls_of m v). destruct (m_dtls m && (t =? 0)) eqn:E0; [cbn; lia|].
  assert (Ht0 : t <> 0) by (unfold t, tls_of in *; destruct (m_dtls m); lia). unfold ssl_clamp_tls_version_range.
  rewrite (proj2 (Z.ltb_ge (m_max_tls_version m) (m_min_tls_version m))) by lia. cbn [orb]. destruct (Z.ltb_spec t (min_tls_version i)); [cbn; lia|].
  rewrite (proj2 (Z.ltb_ge (m_max_tls_version m) (min_tls_version i))), (proj2 (Z.ltb_ge t (m_min_tls_version m))) by lia. cbn [orb mbind option_bind].
  set (t' := if m_max_tls_version m <? t then _ else t). assert (Ht' : t' = Z.min t (m_max_tls_version m)) by (unfold t'; destruct (Z.ltb_spec (m_max_tls_version m) t); lia).
  destruct (proto_of m t' Hm ltac:(lia)) as [Hp0 Hp]. rewrite (proj2 (Z.eqb_neq _ 0) Hp0), andb_false_r. cbn [put_max mbind option_bind].
  split; [|by right]. unfold settings_ok. cbn. split_and!; try done; try lia. by right.
Qed.

Lemma ctx_apply_ok ctx o : method_ok (ctx_method ctx) -> settings_ok (ctx_method ctx) (ctx_internal ctx) ->
  ctx_method (ctx_apply ctx o) = ctx_method ctx /\ settings_ok (ctx_method ctx) (ctx_internal (ctx_apply ctx o)).
Proof.
  intros Hm Hi. destruct o as [v|v|o|o]; [| |by split..]; cbn [ctx_apply].
  - unfold SSL_CTX_set_min_proto_version. pose proof (version_set_min_spec _ _ v Hm Hi) as Hs. destruct (put_min _ _); [|done]. by destruct Hs.
  - unfold SSL_CTX_set_max_proto_version. pose proof (version_set_max_spec _ _ v Hm Hi) as Hs. destruct (put_max _ _); [|done]. by destruct Hs.
Qed.
Lemma ssl_apply_ok s o : method_ok (s_method s) -> settings_ok (s_method s) (s_internal s) ->
  s_method (ssl_apply s o) = s_method s /\ settings_ok (s_method s) (s_internal (ssl_apply s o)).
Proof.
  intros Hm Hi. destruct o as [v|v|o|o]; [| |by split..]; cbn [ssl_apply].
  - unfold SSL_set_min_proto_version. pose proof (version_set_min_spec _ _ v Hm Hi) as Hs. destruct (put_min _ _); [|done]. by destruct Hs.
  - unfold SSL_set_max_proto_version. pose proof (version_set_max_spec _ _ v Hm Hi) as Hs. destruct (put_max _ _); [|done]. by destruct Hs.
Qed.

(** A connection after any settings of its context and of its own. *)
Definition configured (meth : SSL_METHOD) (ctx_ops ops : list setting) : SSL := fold_left ssl_apply ops (SSL_new (fold_left ctx_apply ctx_ops (SSL_CTX_new meth))).
Lemma configured_ok meth ctx_ops ops : meth ∈ all_methods ->
  s_method (configured meth ctx_ops ops) = meth /\ settings_ok meth (s_internal (configured meth ctx_ops ops)).
Proof.
  intros Hm%all_methods_ok. unfold configured.
  assert (Hc : ctx_method (fold_left ctx_apply ctx_ops (SSL_CTX_new meth)) = meth /\ settings_ok meth (ctx_internal (fold_left ctx_apply ctx_ops (SSL_CTX_new meth)))).
  { induction ctx_ops as [|o l [IHm IH]] using rev_ind.
    - cbn. split; [done|]. destruct Hm as (? & ? & ?). unfold settings_ok. cbn. split_and!; try done; try lia; by left.
    - rewrite fold_left_app. cbn [fold_left]. destruct (ctx_apply_ok _ o ltac:(by rewrite IHm) ltac:(by rewrite IHm)) as [E Hi]. rewrite IHm in E, Hi. done. }
  set (ctx := fold_left ctx_apply ctx_ops _) in *. induction ops as [|o l [IHm IH]] using rev_ind; [done|].
  rewrite fold_left_app. cbn [fold_left]. destruct (ssl_apply_ok _ o ltac:(by rewrite IHm) ltac:(by rewrite IHm)) as [E Hi]. rewrite IHm in E, Hi. done.
Qed.

(** C31: Version settings stay well-formed.  Whatever minimum and maximum versions and options an application sets, on the context
    and on the connection, the configured range is a non-empty part of the range of the method, each bound is the default or
    the version that was asked for, and while no version is disabled the connection supports exactly the
    configured range.  A minimum is accepted exactly when it is 0 or a version of the protocol that is not above the maximum, and
    a maximum likewise. *)
Theorem version_settings_wf (meth : SSL_METHOD) (ctx_ops ops : list setting) :
  meth ∈ all_methods ->
  let s := configured meth ctx_ops ops in
  s_method s = meth /\ settings_ok meth (s_internal s) /\
  ((forall v, disabled s v = false) -> ssl_supported_tls_version_range s = Some (min_tls_version (s_internal s), max_tls_version (s_internal s))) /\
  (forall v, fst (SSL_set_min_proto_version v s) = true <-> v = 0 \/ tls_of meth v <> 0 /\ tls_of meth v <= max_tls_version (s_internal s)) /\
  (forall v, fst (SSL_set_max_proto_version v s) = true <-> v = 0 \/ tls_of meth v <> 0 /\ min_tls_version (s_internal s) <= tls_of meth v).
Proof.
  intros Hin s. destruct (configured_ok meth ctx_ops ops Hin) as [Em Hi]. fold s in Em, Hi. pose proof (all_methods_ok _ Hin) as Hm. split; [done|]. split; [done|]. split_and!.
  - intros Hd. pose proof (supported_range s) as Hr. destruct Hi as (R1 & R2 & _). pose proof Hm as (M1 & M2 & _).
    assert (Hs : forall v, supported s v <-> min_tls_version (s_internal s) <= v <= max_tls_version (s_internal s)).
    { intros v. unfold supported, enabled. rewrite Em. split; [tauto|]. intros Hv. split_and!; try lia; [apply Hd|]. intros u w _ _ Hu. by rewrite Hd in Hu. }
    destruct (ssl_supported_tls_version_range s) as [[a b]|]; [|exfalso; apply (Hr (min_tls_version (s_internal s))), Hs; lia].
    destruct Hr as [Hab Hr]. pose proof (Hr a) as Ha. pose proof (Hr b) as Hb. pose proof (Hr (min_tls_version (s_internal s))) as H1. pose proof (Hr (max_tls_version (s_internal s))) as H2.
    rewrite Hs in Ha, Hb, H1, H2. f_equal. f_equal; lia.
  - intros v. unfold SSL_set_min_proto_version. rewrite Em. pose proof (version_set_min_spec meth (s_internal s) v Hm Hi) as Hs. destruct (put_min _ _); cbn [fst]; [tauto|]. split; [done|tauto].
  - intros v. unfold SSL_set_max_proto_version. rewrite Em. pose proof (version_set_max_spec meth (s_internal s) v Hm Hi) as Hs. destruct (put_max _ _); cbn [fst]; [tauto|]. split; [done|tauto].
Qed.
Lemma version_settings_wf_witness :
  let s := configured DTLS_client_method_data [SetMin DTLS1_VERSION; SetOptions 4] [SetMin DTLS1_2_VERSION; SetMax DTLS1_VERSION] in
  settings_ok DTLS_client_method_data (s_internal s) /\ min_tls_version (s_internal s) = TLS1_2_VERSION /\ fst (SSL_set_max_proto_version DTLS1_VERSION s) = false.
Proof.
  intros s. destruct (version_settings_wf DTLS_client_method_data [SetMin DTLS1_VERSION; SetOptions 4] [SetMin DTLS1_2_VERSION; SetMax DTLS1_VERSION]) as (_ & Hi & _).
  { apply list_elem_of_In. cbn. tauto. }
  split; [exact Hi|]. split; reflexivity.
Defined.
