(* ===== verification/Hello.v ===== *)
(** * Agreeing on a version (ssl/tls13_client.c, ssl/tls13_server.c, ssl/ssl_clnt.c, ssl/ssl_srvr.c, ssl/tls13_legacy.c)

    How the hello messages fix the version of a connection: whether a hello is one of TLSv1.3, the switch to the
    stack for older versions, the version each side chooses or accepts there, and the values a server puts into
    its random when it could have done better, which make the client give up.  The rest of the messages (session,
    cipher suite, extensions other than supported_versions) is not interpreted here. *)
From S2P Require Import Prelude Compat Cbs CbbBuild RecordLayer Handshake Versions.

Definition TLSEXT_TYPE_supported_versions : Z := 43.
Definition SSL3_RANDOM_SIZE : Z := 32.
Definition SSL3_VERSION_MAJOR : Z := 3.
Definition SSL3_SESSION_ID_SIZE : Z := 32.

Definition tls13_downgrade_12 : list Z := [0x44; 0x4f; 0x57; 0x4e; 0x47; 0x52; 0x44; 0x01].
Definition tls13_downgrade_11 : list Z := [0x44; 0x4f; 0x57; 0x4e; 0x47; 0x52; 0x44; 0x00].
Definition tls13_hello_retry_request_hash : list Z := [
  0xcf; 0x21; 0xad; 0x74; 0xe5; 0x9a; 0x61; 0x11; 0xbe; 0x1d; 0x8c; 0x02; 0x1e; 0x65; 0xb8; 0x91;
  0xc2; 0xa2; 0x11; 0x16; 0x7a; 0xbb; 0x8c; 0x5e; 0x07; 0x9e; 0x09; 0xe2; 0xc8; 0xa8; 0x33; 0x9c].

(** ** Setters *)
Definition set_method (m : SSL_METHOD) (s : SSL) : SSL :=
  mkSSL m (s_internal s) (s_version s) (s_client_version s) (our_min_tls_version s) (our_max_tls_version s) (negotiated_tls_version s) (server_random s).
Definition set_version (v : Z) (s : SSL) : SSL :=
  mkSSL (s_method s) (s_internal s) v (s_client_version s) (our_min_tls_version s) (our_max_tls_version s) (negotiated_tls_version s) (server_random s).
Definition set_client_version (v : Z) (s : SSL) : SSL :=
  mkSSL (s_method s) (s_internal s) (s_version s) v (our_min_tls_version s) (our_max_tls_version s) (negotiated_tls_version s) (server_random s).
Definition set_our_range (lo hi : Z) (s : SSL) : SSL :=
  mkSSL (s_method s) (s_internal s) (s_version s) (s_client_version s) lo hi (negotiated_tls_version s) (server_random s).
Definition set_negotiated (v : Z) (s : SSL) : SSL :=
  mkSSL (s_method s) (s_internal s) (s_version s) (s_client_version s) (our_min_tls_version s) (our_max_tls_version s) v (server_random s).
Definition set_server_random (r : list Z) (s : SSL) : SSL :=
  mkSSL (s_method s) (s_internal s) (s_version s) (s_client_version s) (our_min_tls_version s) (our_max_tls_version s) (negotiated_tls_version s) r.

(** ** Is a hello one of TLSv1.3? *)
(** [while (CBS_len(&extensions) > 0)]: failure is a return of 1.  Every pass reads four bytes at least. *)
Fixpoint server_hello_versions (fuel : nat) (selected_version : Z) : M CBS Z :=
  match fuel with
  | O => mret selected_version
  | S fuel =>
      fun extensions =>
      if negb (0 <? CBS_len extensions) then (Some selected_version, extensions)
      else
      (type ← CBS_get_u16;
       extension_data ← CBS_get_u16_length_prefixed;
       if negb (type =? TLSEXT_TYPE_supported_versions) then server_hello_versions fuel selected_version
       else
       r ← on CBS_get_u16 extension_data;
       if negb (CBS_len r.2 =? 0) then fail else server_hello_versions fuel r.1) extensions
  end.
Definition tls13_server_hello_is_legacy (cbs : CBS) : bool :=
  match fst (CBS_get_u16_length_prefixed (CBS_dup cbs)) with
  | None => true
  | Some extensions =>
      match fst (server_hello_versions (S (Z.to_nat (CBS_len extensions))) 0 extensions) with
      | None => true
      | Some selected_version => selected_version <? TLS1_3_VERSION
      end
  end.

Definition tls13_server_hello_is_retry (cbs : CBS) : bool :=
  match fst ((_ ← CBS_get_u16; CBS_get_bytes SSL3_RANDOM_SIZE) (CBS_dup cbs)) with
  | None => false
  | Some server_random => CBS_mem_equal server_random tls13_hello_retry_request_hash 32
  end.

(** The inner loop, over the versions a client offers. *)
Fixpoint max_offered (fuel : nat) (max_version : Z) : M CBS Z :=
  match fuel with
  | O => mret max_version
  | S fuel =>
      fun versions =>
      if negb (0 <? CBS_len versions) then (Some max_version, versions)
      else (version ← CBS_get_u16; max_offered fuel (if max_version <=? version then version else max_version)) versions
  end.
Fixpoint client_hello_versions (fuel : nat) (max_version : Z) : M CBS Z :=
  match fuel with
  | O => mret max_version
  | S fuel =>
      fun extensions =>
      if negb (0 <? CBS_len extensions) then (Some max_version, extensions)
      else
      (type ← CBS_get_u16;
       extension_data ← CBS_get_u16_length_prefixed;
       if negb (type =? TLSEXT_TYPE_supported_versions) then client_hello_versions fuel max_version
       else
       r ← on CBS_get_u8_length_prefixed extension_data;
       m ← on (max_offered (S (Z.to_nat (CBS_len r.1))) max_version) r.1;
       if negb (CBS_len r.2 =? 0) then fail else client_hello_versions fuel m.1) extensions
  end.
Definition tls13_client_hello_is_legacy (cbs : CBS) : bool :=
  match fst (CBS_get_u16_length_prefixed (CBS_dup cbs)) with
  | None => true
  | Some extensions =>
      match fst (client_hello_versions (S (Z.to_nat (CBS_len extensions))) 0 extensions) with
      | None => true
      | Some max_version => max_version <? TLS1_3_VERSION
      end
  end.

(** ** Starting a handshake *)
(** tls13_client_init and tls13_server_init (which also set the version), ssl3_connect and ssl3_accept: the range of versions for this handshake. *)
Definition tls13_client_init (s : SSL) : option SSL :=
  '(lo, hi) ← ssl_supported_tls_version_range s; Some (set_client_version hi (set_version hi (set_our_range lo hi s))).
Definition tls13_server_init (s : SSL) : option SSL :=
  '(lo, hi) ← ssl_supported_tls_version_range s; Some (set_version hi (set_our_range lo hi s)).
Definition ssl3_start (s : SSL) : option SSL :=
  if negb (ssl_legacy_stack_version s (s_version s)) then None
  else '(lo, hi) ← ssl_supported_tls_version_range s; Some (set_our_range lo hi s).

(** The switch to the stack for older versions, of a client and of a server. *)
Definition tls13_use_legacy_client (s : SSL) : SSL :=
  let s := set_method TLS_legacy_method_data s in
  set_client_version (m_max_tls_version (s_method s)) (set_version (m_max_tls_version (s_method s)) s).
Definition tls13_use_legacy_server (s : SSL) : SSL := tls13_use_legacy_client s.

(** How far a hello gets: a fatal alert, an error without one, the older stack, or on to the rest of the message. *)
Inductive hello := HelloFatal (al : Z) | HelloError | HelloLegacy | HelloGoesOn.

(** ** The client *)
(** What is read in front of the extensions; of it the random is looked at here. *)
Definition server_hello_start : M CBS CBS :=
  _ ← CBS_get_u16;
  server_random ← CBS_get_bytes SSL3_RANDOM_SIZE;
  _ ← CBS_get_u8_length_prefixed;
  _ ← CBS_get_u16;
  _ ← CBS_get_u8;
  mret server_random.
(** tls13_server_hello_process up to the point where the hello is known to be one of TLSv1.3. *)
Definition tls13_server_hello_process (cbs : CBS) (s : SSL) : hello :=
  let decode := HelloFatal TLS13_ALERT_DECODE_ERROR in
  match server_hello_start cbs with
  | (None, _) => decode
  | (Some server_random, cbs) =>
      if negb (tls13_server_hello_is_legacy cbs) then HelloGoesOn
      else
      let checked :=
        if TLS1_3_VERSION <=? our_max_tls_version s then
          match CBS_skip (wrap64 (CBS_len server_random - 8)) server_random with
          | (None, _) => decode
          | (Some _, server_random) =>
              if CBS_mem_equal server_random tls13_downgrade_12 8 || CBS_mem_equal server_random tls13_downgrade_11 8
              then HelloFatal TLS13_ALERT_ILLEGAL_PARAMETER
              else HelloLegacy
          end
        else HelloLegacy in
      match checked with
      | HelloLegacy => match CBS_skip (CBS_len cbs) cbs with (None, _) => decode | (Some _, _) => HelloLegacy end
      | r => r
      end
  end.

(** The version and the random in ssl3_get_server_hello. *)
Definition ssl3_get_server_hello (cbs : CBS) (s : SSL) : hello * SSL :=
  match CBS_get_u16 cbs with
  | (None, _) => (HelloFatal TLS13_ALERT_DECODE_ERROR, s)
  | (Some server_version, cbs) =>
      if negb (ssl_check_version_from_server s server_version) then
        (HelloFatal TLS13_ALERT_PROTOCOL_VERSION, set_version (Z.lor (Z.land (s_version s) 0xff00) (Z.land server_version 0xff)) s)
      else
      let s := set_version server_version s in
      let s := set_negotiated (ssl_tls_version server_version) s in
      if negotiated_tls_version s =? 0 then (HelloError, s)
      else
      match ssl_get_method server_version with
      | None => (HelloError, s)
      | Some method =>
          let s := set_method method s in
          match CBS_get_bytes SSL3_RANDOM_SIZE cbs with
          | (None, _) => (HelloFatal TLS13_ALERT_DECODE_ERROR, s)
          | (Some rnd, cbs) =>
              match CBS_write_bytes rnd (server_random s) SSL3_RANDOM_SIZE with
              | None => (HelloError, s)
              | Some (r, _) =>
                  let s := set_server_random r s in
                  if (TLS1_2_VERSION <=? our_max_tls_version s) && (negotiated_tls_version s <? our_max_tls_version s) then
                    match CBS_skip (wrap64 (CBS_len rnd - 8)) rnd with
                    | (None, _) => (HelloError, s)
                    | (Some _, rnd) =>
                        if (negotiated_tls_version s =? TLS1_2_VERSION) && CBS_mem_equal rnd tls13_downgrade_12 8 then (HelloFatal TLS13_ALERT_ILLEGAL_PARAMETER, s)
                        else if CBS_mem_equal rnd tls13_downgrade_11 8 then (HelloFatal TLS13_ALERT_ILLEGAL_PARAMETER, s)
                        else (HelloGoesOn, s)
                    end
                  else (HelloGoesOn, s)
              end
          end
      end
  end.

(** ** The server *)
(** The version in ssl3_get_client_hello. *)
Definition ssl3_get_client_hello_version (client_version : Z) (write_protected : bool) (s : SSL) : hello * SSL :=
  match ssl_max_shared_version s client_version with
  | None =>
      (HelloFatal TLS13_ALERT_PROTOCOL_VERSION,
       if (Z.shiftr (s_client_version s) 8 =? SSL3_VERSION_MAJOR) && negb write_protected then set_version (s_client_version s) s else s)
  | Some shared_version =>
      let s := set_version shared_version (set_client_version client_version s) in
      let s := set_negotiated (ssl_tls_version shared_version) s in
      if negotiated_tls_version s =? 0 then (HelloError, s)
      else
      match ssl_get_method shared_version with
      | None => (HelloError, s)
      | Some method => (HelloGoesOn, set_method method s)
      end
  end.
(** The random, [rnd] being what [arc4random_buf] gave. *)
Definition ssl3_server_random (rnd : list Z) (s : SSL) : SSL :=
  let s := set_server_random rnd s in
  if (TLS1_2_VERSION <=? our_max_tls_version s) && (negotiated_tls_version s <? our_max_tls_version s) then
    let index := SSL3_RANDOM_SIZE - 8 in
    let magic := if negotiated_tls_version s =? TLS1_2_VERSION then tls13_downgrade_12 else tls13_downgrade_11 in
    set_server_random (overwrite (server_random s) index magic) s
  else s.

(** What is read of a client hello in front of the extensions: version, random and session identifier, and then,
    after the cookie of a DTLS hello, the cipher suites and the compression methods. *)
Definition client_hello_start : M CBS (Z * CBS) :=
  client_version ← CBS_get_u16;
  _ ← CBS_get_bytes SSL3_RANDOM_SIZE;
  session_id ← CBS_get_u8_length_prefixed;
  mret (client_version, session_id).
Definition client_hello_lists (dtls : bool) : M CBS unit :=
  _ ← (if dtls then _ ← CBS_get_u8_length_prefixed; mret tt else mret tt);
  _ ← CBS_get_u16_length_prefixed;
  _ ← CBS_get_u8_length_prefixed;
  mret tt.
(** tls13_client_hello_process up to the point where the hello is known to be one of TLSv1.3. *)
Definition tls13_client_hello_process (cbs : CBS) (s : SSL) : hello * SSL :=
  match (_ ← client_hello_start; client_hello_lists false) cbs with
  | (None, _) => (HelloError, s)
  | (Some _, cbs) =>
      if tls13_client_hello_is_legacy cbs || (s_version s <? TLS1_3_VERSION) then
        match CBS_skip (CBS_len cbs) cbs with
        | (None, _) => (HelloError, s)
        | (Some _, _) => (HelloLegacy, tls13_use_legacy_server s)
        end
      else (HelloGoesOn, set_negotiated TLS1_3_VERSION s)
  end.
(** ssl3_get_client_hello: the start of the message, the version and the random. *)
Definition ssl3_get_client_hello (cbs : CBS) (rnd : list Z) (s : SSL) : hello * SSL :=
  match client_hello_start cbs with
  | (None, _) => (HelloFatal TLS13_ALERT_DECODE_ERROR, s)
  | (Some (client_version, session_id), cbs) =>
      if SSL3_SESSION_ID_SIZE <? CBS_len session_id then (HelloFatal TLS13_ALERT_ILLEGAL_PARAMETER, s)
      else
      match client_hello_lists (SSL_is_dtls s) cbs with
      | (None, _) => (HelloFatal TLS13_ALERT_DECODE_ERROR, s)
      | (Some _, _) =>
          match ssl3_get_client_hello_version client_version false s with
          | (HelloGoesOn, s) => (HelloGoesOn, ssl3_server_random rnd s)
          | r => r
          end
      end
  end.

(** The version a client puts into its hello, and the versions of the extension supported_versions, from
    [max] down to [min]. *)
Definition tls13_client_version (s : SSL) : Z :=
  if TLS1_2_VERSION <? our_max_tls_version s then TLS1_2_VERSION else our_max_tls_version s.
Definition ssl3_send_client_hello_version (s : SSL) : option SSL :=
  max_version ← ssl_max_supported_version s; Some (set_client_version max_version (set_version max_version s)).
Fixpoint versions_down (fuel : nat) (min version : Z) : list Z :=
  match fuel with
  | O => []
  | S fuel => if version <? min then [] else version :: versions_down fuel min (wrap16 (version - 1))
  end.
Definition supported_versions (s : SSL) : list Z :=
  versions_down (S (Z.to_nat (our_max_tls_version s))) (our_min_tls_version s) (our_max_tls_version s).

(** ** A whole negotiation *)
(** Server and client at the start of a handshake, which for a method with TLSv1.3 is that of the new stack. *)
Definition start (init : SSL -> option SSL) (s : SSL) : option SSL := if m_version (s_method s) =? TLS1_3_VERSION then init s else ssl3_start s.
(** A server that receives a client hello. *)
Definition server_receives (hello_msg rnd : list Z) (s : SSL) : hello * SSL :=
  let cbs := CBS_init hello_msg (zlen hello_msg) in
  if m_version (s_method s) =? TLS1_3_VERSION then
    match tls13_client_hello_process cbs s with
    | (HelloLegacy, s) => ssl3_get_client_hello cbs rnd s
    | r => r
    end
  else ssl3_get_client_hello cbs rnd s.
(** A client that receives a server hello. *)
Definition client_receives (hello_msg : list Z) (s : SSL) : hello * SSL :=
  let cbs := CBS_init hello_msg (zlen hello_msg) in
  if m_version (s_method s) =? TLS1_3_VERSION then
    match tls13_server_hello_process cbs s with
    | HelloLegacy => ssl3_get_server_hello cbs (tls13_use_legacy_client s)
    | r => (r, s)
    end
  else ssl3_get_server_hello cbs s.

(** ** The messages on the wire *)
Definition prefixed (n : nat) (l : list Z) : list Z := be_bytes n (zlen l) ++ l.
Definition ext_bytes (e : Z * list Z) : list Z := be_bytes 2 (fst e) ++ be_bytes 2 (zlen (snd e)) ++ snd e.
Definition exts_block (l : list (Z * list Z)) : list Z := prefixed 2 (concat (ext_bytes <$> l)).
Definition ext_ok (e : Z * list Z) : Prop :=
  0 <= fst e < 2 ^ 16 /\ fst e <> TLSEXT_TYPE_supported_versions /\ zlen (snd e) < 2 ^ 16.

(** The hello of a server: what follows the random, with the extensions other than supported_versions.  A server of
    TLSv1.3 has the older version in front and selects its version in that extension, the first one. *)
Record hello_rest := mkRest { h_session_id : list Z; h_cipher : Z; h_compression : Z; h_extensions : option (list (Z * list Z)) }.
Definition exts_bytes (h : hello_rest) : list Z := match h_extensions h with None => [] | Some l => exts_block l end.
Definition rest_bytes (h : hello_rest) : list Z :=
  prefixed 1 (h_session_id h) ++ be_bytes 2 (h_cipher h) ++ h_compression h :: exts_bytes h.
Definition rest_ok (h : hello_rest) : Prop :=
  zlen (h_session_id h) <= 32 /\ 0 <= h_cipher h < 2 ^ 16 /\
  match h_extensions h with None => True | Some l => Forall ext_ok l /\ zlen (concat (ext_bytes <$> l)) + 6 < 2 ^ 16 end.
Definition selects_13 (h : hello_rest) : hello_rest :=
  mkRest (h_session_id h) (h_cipher h) (h_compression h)
    (Some ((TLSEXT_TYPE_supported_versions, be_bytes 2 TLS1_3_VERSION) :: default [] (h_extensions h))).
Definition server_hello (s : SSL) (h : hello_rest) : list Z :=
  if TLS1_3_VERSION <=? negotiated_tls_version s then be_bytes 2 TLS1_2_VERSION ++ server_random s ++ rest_bytes (selects_13 h)
  else be_bytes 2 (s_version s) ++ server_random s ++ rest_bytes h.

(** The hello of a client: what it chooses freely, and the message it sends. *)
Record client_rest := mkClientRest {
  c_random : list Z; c_session_id : list Z; c_cookie : list Z; c_cipher_suites : list Z; c_compression_methods : list Z;
  c_extensions : list (Z * list Z)
}.
Definition client_rest_ok (c : client_rest) : Prop :=
  zlen (c_random c) = 32 /\ zlen (c_session_id c) <= 32 /\ zlen (c_cookie c) < 256 /\ zlen (c_cipher_suites c) < 2 ^ 16 /\
  zlen (c_compression_methods c) < 256 /\ Forall ext_ok (c_extensions c) /\ zlen (concat (ext_bytes <$> c_extensions c)) + 13 < 2 ^ 16.
Definition client_extensions (s : SSL) (c : client_rest) : list (Z * list Z) :=
  if TLS1_3_VERSION <=? our_max_tls_version s
  then (TLSEXT_TYPE_supported_versions, prefixed 1 (concat (be_bytes 2 <$> supported_versions s))) :: c_extensions c
  else c_extensions c.
(** No extensions, no block. *)
Definition opt_block (exts : list (Z * list Z)) : list Z := match exts with [] => [] | _ => exts_block exts end.
Definition client_hello_bytes (version : Z) (dtls : bool) (exts : list (Z * list Z)) (c : client_rest) : list Z :=
  be_bytes 2 version ++ c_random c ++ prefixed 1 (c_session_id c) ++ (if dtls then prefixed 1 (c_cookie c) else []) ++
  prefixed 2 (c_cipher_suites c) ++ prefixed 1 (c_compression_methods c) ++ opt_block exts.
Definition client_sends (c : client_rest) (s : SSL) : option (list Z * SSL) :=
  if m_version (s_method s) =? TLS1_3_VERSION then
    Some (client_hello_bytes (tls13_client_version s) false (client_extensions s c) c, s)
  else
    s ← ssl3_send_client_hello_version s;
    Some (client_hello_bytes (s_client_version s) (SSL_is_dtls s) (client_extensions s c) c, s).

Lemma get_u16_enc i v rest : 0 <= v < 2 ^ 16 -> CBS_get_u16 (rd i (be_bytes 2 v ++ rest)) = (Some v, rd i rest).
Proof. intros Hv. apply (get_uint_ok i 2 v rest); lia. Qed.
Lemma get_u16_prefixed_enc i c rest : zlen c < 2 ^ 16 -> CBS_get_u16_length_prefixed (rd i (be_bytes 2 (zlen c) ++ c ++ rest)) = (Some (rd (zlen c) c), rd i rest).
Proof. intros Hc. apply (get_prefixed_ok i 2 c rest); lia. Qed.

Lemma server_hello_versions_none exts : forall fuel sel i, Forall ext_ok exts -> (length (concat (ext_bytes <$> exts)) < fuel)%nat ->
  server_hello_versions fuel sel (rd i (concat (ext_bytes <$> exts))) = (Some sel, rd i []).
Proof.
  induction exts as [|[t d] exts IH]; intros fuel sel i Hok Hf; destruct fuel as [|fuel]; try lia; [done|].
  apply Forall_cons in Hok as [(Ht & Hne & Hd) Hok]. cbn [fst snd] in *. cbn [fmap list_fmap concat] in *. cbn [server_hello_versions].
  set (r := concat (ext_bytes <$> exts)) in *. change (ext_bytes (t, d)) with (be_bytes 2 t ++ be_bytes 2 (zlen d) ++ d) in *. rewrite <- !app_assoc in *.
  rewrite (proj2 (Z.ltb_lt 0 _)) by (unfold CBS_len, rd; cbn [cbs_len]; zl). cbn [negb].
  mstep (by apply get_u16_enc). mstep (by apply get_u16_prefixed_enc). rewrite (proj2 (Z.eqb_neq _ _) Hne). cbn [negb].
  apply IH; [done|]. rewrite !length_app in Hf. assert (length (be_bytes 2 t) = 2%nat) by (pose proof (zlen_be_bytes 2 t); unfold zlen in *; lia). lia.
Qed.

(** The part of such a hello that follows the random is recognised as older than TLSv1.3. *)
Lemma legacy_extensions i h : rest_ok h -> tls13_server_hello_is_legacy (rd i (exts_bytes h)) = true.
Proof.
  intros (_ & _ & Hx). unfold exts_bytes, exts_block, prefixed, tls13_server_hello_is_legacy, CBS_dup, CBS_init, CBS_data, CBS_len, rd. cbn [cbs_data cbs_initial_len cbs_len].
  destruct (h_extensions h) as [l|]; [|done]. destruct Hx as [Hl Hz]. set (b := concat _) in *. assert (Hz' : zlen b < 2 ^ 16) by lia.
  pose proof (get_u16_prefixed_enc i b [] Hz') as E. rewrite app_nil_r in E. unfold rd in E at 1. rewrite E. cbn [fst].
  pose proof (server_hello_versions_none l (S (Z.to_nat (zlen b))) 0 (zlen b) Hl) as E2. fold b in E2. cbn [rd cbs_len]. unfold rd in E2. unfold rd. rewrite E2; [done|]. unfold zlen. lia.
Qed.

(** ** Randoms *)
Lemma mem_equal_iff (a b : list Z) n : Forall is_byte a -> Forall is_byte b -> zlen b = n -> CBS_mem_equal (rd (zlen a) a) b n = bool_decide (a = b).
Proof.
  intros Ha Hb Hn. unfold CBS_mem_equal, rd. cbn [cbs_len cbs_data]. destruct (Z.eqb_spec n (zlen a)) as [E|E]; cbn [negb].
  - rewrite timingsafe_memcmp_eqb by done. done.
  - rewrite bool_decide_false; [done|]. intros ->. congruence.
Qed.
Definition tail (rnd : list Z) : list Z := zdrop 24 rnd.
Lemma skip_to_tail rnd : zlen rnd = 32 -> CBS_skip (wrap64 (CBS_len (rd 32 rnd) - 8)) (rd 32 rnd) = (Some tt, rd 32 (tail rnd)).
Proof.
  intros Hr. unfold CBS_len. cbn [rd cbs_len]. rewrite Hr. change (wrap64 (32 - 8)) with 24. rewrite <- (ztake_zdrop 24 rnd) at 1. apply CBS_skip_ok. rewrite zlen_ztake; lia.
Qed.
Lemma tail_equal rnd b : zlen rnd = 32 -> Forall is_byte rnd -> Forall is_byte b -> zlen b = 8 -> CBS_mem_equal (rd 32 (tail rnd)) b 8 = bool_decide (tail rnd = b).
Proof.
  intros Hr Hb Hbb Hn. rewrite <- mem_equal_iff with (n := 8) by (try done; by apply Forall_zdrop). unfold CBS_mem_equal, rd, tail. cbn [cbs_len cbs_data]. done.
Qed.
Lemma sentinels_bytes : Forall is_byte tls13_downgrade_12 /\ Forall is_byte tls13_downgrade_11.
Proof. split; repeat constructor; unfold is_byte; lia. Qed.

(** ** What the client does with a hello *)
Definition sentinel (r : list Z) : Prop := tail r = tls13_downgrade_12 \/ tail r = tls13_downgrade_11.

Lemma get_server_hello_ok s v rnd rest :
  0 <= v < 2 ^ 16 -> zlen rnd = 32 -> Forall is_byte rnd -> zlen (server_random s) = 32 -> ssl_tls_version v <> 0 ->
  let '(r, s') := ssl3_get_server_hello (CBS_init (be_bytes 2 v ++ rnd ++ rest) (zlen (be_bytes 2 v ++ rnd ++ rest))) s in
  if ssl_check_version_from_server s v then
    let t := ssl_tls_version v in
    r = (if bool_decide (TLS1_2_VERSION <= our_max_tls_version s /\ t < our_max_tls_version s /\ (t = TLS1_2_VERSION /\ tail rnd = tls13_downgrade_12 \/ tail rnd = tls13_downgrade_11))
         then HelloFatal TLS13_ALERT_ILLEGAL_PARAMETER else HelloGoesOn) /\
    negotiated_tls_version s' = t /\ server_random s' = rnd
  else r = HelloFatal TLS13_ALERT_PROTOCOL_VERSION.
Proof.
  intros Hv Hr Hb Hs Ht. destruct sentinels_bytes as [B12 B11]. unfold ssl3_get_server_hello. set (l := be_bytes 2 v ++ rnd ++ rest). change (CBS_init l (zlen l)) with (rd (zlen l) l). unfold l at 2. rewrite get_u16_enc by lia.
  destruct (ssl_check_version_from_server s v); cbn [negb]; [|done]. cbn [negotiated_tls_version set_negotiated]. rewrite (proj2 (Z.eqb_neq _ _) Ht).
  destruct (ssl_get_method v) as [m|] eqn:Em.
  2: { exfalso. unfold ssl_get_method, ssl_tls_version in *. repeat case_match; done. }
  unfold SSL3_RANDOM_SIZE. rewrite CBS_get_bytes_ok by done. unfold CBS_write_bytes. cbn [rd cbs_len cbs_data]. rewrite Hr. change (32 <? 32) with false. cbv iota beta zeta.
  set (r' := overwrite _ 0 _). assert (Er : r' = rnd).
  { unfold r', overwrite. cbn [server_random set_method set_negotiated set_version]. rewrite (ztake_ge 32 rnd), Hr by lia. rewrite (zdrop_ge (0 + 32)) by lia. by rewrite app_nil_r. }
  cbn [our_max_tls_version negotiated_tls_version set_server_random set_method set_negotiated set_version]. set (t := ssl_tls_version v) in *.
  rewrite skip_to_tail by done. set (s' := set_server_random r' _). assert (Hs' : negotiated_tls_version s' = t /\ server_random s' = rnd) by done.
  rewrite !tail_equal by done. clearbody s'.
  destruct (Z.leb_spec TLS1_2_VERSION (our_max_tls_version s)) as [H1|H1], (Z.ltb_spec t (our_max_tls_version s)) as [H2|H2]; cbn [andb];
    try (rewrite bool_decide_false by lia; done).
  destruct (Z.eqb_spec t TLS1_2_VERSION) as [H3|H3]; cbn [andb];
    try destruct (bool_decide_reflect (tail rnd = tls13_downgrade_12)) as [H4|H4]; destruct (bool_decide_reflect (tail rnd = tls13_downgrade_11)) as [H5|H5];
    (rewrite bool_decide_true by tauto; done) || (rewrite bool_decide_false by tauto; done).
Qed.

Lemma server_hello_parse v rnd h : 0 <= v < 2 ^ 16 -> zlen rnd = 32 -> zlen (h_session_id h) <= 32 -> 0 <= h_cipher h < 2 ^ 16 ->
  let l := be_bytes 2 v ++ rnd ++ rest_bytes h in server_hello_start (CBS_init l (zlen l)) = (Some (rd 32 rnd), rd (zlen l) (exts_bytes h)).
Proof.
  intros Hv Hr Hs Hc l. change (CBS_init l (zlen l)) with (rd (zlen l) l). unfold server_hello_start. generalize (zlen l). intros i.
  unfold l, rest_bytes, prefixed. rewrite <- !app_assoc. cbn [app]. mstep (apply get_u16_enc; lia). mstep (by apply CBS_get_bytes_ok).
  mstep (apply (get_prefixed_ok i 1 (h_session_id h)); lia). mstep (apply get_u16_enc; lia). mstep (apply CBS_get_u8_ok). done.
Qed.
(** The hello as the new stack sees it. *)
Lemma server_hello_process_ok s v rnd h :
  0 <= v < 2 ^ 16 -> zlen rnd = 32 -> Forall is_byte rnd -> rest_ok h ->
  let l := be_bytes 2 v ++ rnd ++ rest_bytes h in
  tls13_server_hello_process (CBS_init l (zlen l)) s =
  if bool_decide (TLS1_3_VERSION <= our_max_tls_version s /\ sentinel rnd) then HelloFatal TLS13_ALERT_ILLEGAL_PARAMETER else HelloLegacy.
Proof.
  intros Hv Hr Hb Hh l. destruct sentinels_bytes as [B12 B11]. unfold tls13_server_hello_process.
  unfold l. rewrite server_hello_parse by (done || by destruct Hh as (? & ? & _)). fold l. set (x := exts_bytes h). unfold x at 1.
  rewrite legacy_extensions by done. cbn [negb]. rewrite skip_to_tail by done. rewrite !tail_equal by done.
  assert (Esk : fst (CBS_skip (CBS_len (rd (zlen l) x)) (rd (zlen l) x)) = Some tt).
  { unfold CBS_len. cbn [rd cbs_len]. rewrite <- (app_nil_r x) at 2. by rewrite CBS_skip_ok. }
  destruct (CBS_skip (CBS_len (rd (zlen l) x)) (rd (zlen l) x)) as [o c]. cbn [fst] in Esk. subst o. unfold sentinel.
  destruct (Z.leb_spec TLS1_3_VERSION (our_max_tls_version s)) as [H1|H1]; [|rewrite bool_decide_false by lia; done].
  destruct (bool_decide_reflect (tail rnd = tls13_downgrade_12)) as [H4|H4], (bool_decide_reflect (tail rnd = tls13_downgrade_11)) as [H5|H5]; cbn [orb];
    (rewrite bool_decide_true by tauto; done) || (rewrite bool_decide_false by tauto; done).
Qed.

(** ** What the server does *)
Definition marked (rnd : list Z) (t : Z) : list Z := overwrite rnd 24 (if t =? TLS1_2_VERSION then tls13_downgrade_12 else tls13_downgrade_11).
Lemma marked_ok rnd t : zlen rnd = 32 -> Forall is_byte rnd ->
  zlen (marked rnd t) = 32 /\ Forall is_byte (marked rnd t) /\ tail (marked rnd t) = if t =? TLS1_2_VERSION then tls13_downgrade_12 else tls13_downgrade_11.
Proof.
  intros Hr Hb. destruct sentinels_bytes as [B12 B11]. unfold marked. set (m := if t =? TLS1_2_VERSION then _ else _).
  assert (Hm : zlen m = 8 /\ Forall is_byte m) by (unfold m; case_match; done). destruct Hm as [Hm Hmb]. split_and!.
  - rewrite zlen_overwrite; lia.
  - unfold overwrite. repeat apply Forall_app_2; try done; [by apply Forall_ztake|by apply Forall_zdrop].
  - unfold tail, overwrite. rewrite Hm, (zdrop_ge (24 + 8) rnd), app_nil_r by lia. apply zdrop_app_eq. rewrite zlen_ztake by lia. lia.
Qed.

Lemma ssl_tls_version_range v : ssl_tls_version v <> 0 -> 0 <= v < 2 ^ 16.
Proof. unfold ssl_tls_version, DTLS1_VERSION, DTLS1_2_VERSION. versions. intros Hv. repeat case_match; lia. Qed.

(** A method of the new stack is not one of DTLS, and the older stack has nothing above TLSv1.2. *)
Lemma new_method m : m ∈ all_methods ->
  if m_version m =? TLS1_3_VERSION then m_dtls m = false /\ m_min_tls_version m = TLS1_VERSION /\ m_max_tls_version m = TLS1_3_VERSION else m_max_tls_version m <= TLS1_2_VERSION.
Proof.
  assert (Hall : Forall (fun m => if m_version m =? TLS1_3_VERSION then m_dtls m = false /\ m_min_tls_version m = TLS1_VERSION /\ m_max_tls_version m = TLS1_3_VERSION else m_max_tls_version m <= TLS1_2_VERSION) all_methods)
    by (repeat constructor; vm_compute; discriminate). rewrite Forall_forall in Hall. apply Hall.
Qed.
Lemma wire_tls s t : supported s t -> method_ok (s_method s) -> ssl_tls_version (wire s t) = t.
Proof.
  intros Hs Hm. destruct (supported_bounds s t Hm Hs) as [Hb Hd]. unfold wire. destruct (SSL_is_dtls s).
  - by destruct (Hd eq_refl) as [-> | ->].
  - assert (t = TLS1_VERSION \/ t = TLS1_1_VERSION \/ t = TLS1_2_VERSION \/ t = TLS1_3_VERSION) as [-> | [-> | [-> | ->]]] by (versions; lia); done.
Qed.

(** The server of the older stack that has received a version, its random included. *)
Definition server_answers (client_version : Z) (rnd : list Z) (s : SSL) : option SSL :=
  match ssl3_get_client_hello_version client_version false s with
  | (HelloGoesOn, s) => Some (ssl3_server_random rnd s)
  | _ => None
  end.
(** It takes the best version that it supports and the client offers, and marks its random when it could do better. *)
Lemma server_answers_spec client_version rnd s : method_ok (s_method s) ->
  match server_answers client_version rnd s with
  | Some s2 =>
      let t := negotiated_tls_version s2 in
      s_version s2 = wire s t /\ supported s t /\ offers s client_version t /\
      (forall u, supported s u -> offers s client_version u -> u <= t) /\
      server_random s2 = (if (TLS1_2_VERSION <=? our_max_tls_version s) && (t <? our_max_tls_version s) then marked rnd t else rnd)
  | None => forall u, supported s u -> ~ offers s client_version u
  end.
Proof.
  intros Hm. unfold server_answers, ssl3_get_client_hello_version. pose proof (max_shared_best s client_version Hm) as Hbest.
  destruct (ssl_max_shared_version s client_version) as [v|]; [|exact Hbest]. destruct Hbest as (t & -> & Ht & Ho & Hb). pose proof (wire_tls s t Ht Hm) as Hw.
  cbn [negotiated_tls_version set_negotiated]. destruct (supported_bounds s t Hm Ht) as [Hr _].
  rewrite Hw, (proj2 (Z.eqb_neq t 0)) by (versions; lia).
  destruct (ssl_get_method (wire s t)) as [m|] eqn:Em.
  2: { exfalso. assert (Hz : ssl_tls_version (wire s t) <> 0) by (rewrite Hw; versions; lia). clear -Hz Em. unfold ssl_get_method, ssl_tls_version in *. repeat case_match; done. }
  unfold ssl3_server_random. cbn [negotiated_tls_version our_max_tls_version set_server_random set_method set_negotiated set_version set_client_version server_random].
  destruct (_ && _) eqn:Ec; cbn [negotiated_tls_version set_server_random set_method set_negotiated set_version set_client_version server_random s_version]; rewrite ?Ec; done.
Qed.

(** The connection as the older stack sees it. *)
Definition older_stack (s : SSL) : SSL := if m_version (s_method s) =? TLS1_3_VERSION then tls13_use_legacy_client s else s.
Lemma older_stack_ok s : s_method s ∈ all_methods ->
  method_ok (s_method (older_stack s)) /\ m_max_tls_version (s_method (older_stack s)) <= TLS1_2_VERSION /\
  our_max_tls_version (older_stack s) = our_max_tls_version s /\ m_dtls (s_method (older_stack s)) = m_dtls (s_method s) /\
  m_version (s_method (older_stack s)) <> TLS1_3_VERSION.
Proof.
  intros Hin. pose proof (new_method _ Hin) as Hnew. unfold older_stack. destruct (Z.eqb_spec (m_version (s_method s)) TLS1_3_VERSION) as [E|E].
  - destruct Hnew as [Hd _]. split_and!; [|done|done|by rewrite Hd|done]. apply all_methods_ok, list_elem_of_In. cbn. tauto.
  - split_and!; try done. by apply all_methods_ok.
Qed.

(** Whatever arrives, a server that goes on without TLSv1.3 has answered some version on the older stack. *)
Lemma server_receives_older msg rnd s s2 :
  server_receives msg rnd s = (HelloGoesOn, s2) -> negotiated_tls_version s2 < TLS1_3_VERSION ->
  exists client_version, server_answers client_version rnd (older_stack s) = Some s2.
Proof.
  assert (Hget : forall cbs s, ssl3_get_client_hello cbs rnd s = (HelloGoesOn, s2) -> exists cv, server_answers cv rnd s = Some s2).
  { intros cbs s0. unfold ssl3_get_client_hello, server_answers. destruct (client_hello_start cbs) as [[[v sid]|] cbs1]; [|done].
    destruct (_ <? _); [done|]. destruct (client_hello_lists _ cbs1) as [[[]|] cbs2]; [|done].
    destruct (ssl3_get_client_hello_version v false s0) as [[]] eqn:E; try done. intros [= <-]. exists v. by rewrite E. }
  unfold server_receives, older_stack. destruct (_ =? TLS1_3_VERSION); [|intros H _; by apply Hget in H].
  unfold tls13_client_hello_process. destruct ((client_hello_start ≫= _) _) as [[[]|] cbs1]; [|done].
  destruct (_ || _); [|intros [= <-]; cbn; lia].
  destruct (CBS_skip _ cbs1) as [[[]|] cbs2]; [|done]. intros H _. by apply Hget in H.
Qed.

Lemma enabled_ext s s' t : version_options s' = version_options s -> enabled s t -> enabled s' t.
Proof. intros E. unfold enabled, disabled. by rewrite E. Qed.
Lemma client_receives_ok s v rnd h :
  0 <= v < 2 ^ 16 -> zlen rnd = 32 -> Forall is_byte rnd -> rest_ok h -> zlen (server_random s) = 32 -> ssl_tls_version v <> 0 ->
  let '(r, s') := client_receives (be_bytes 2 v ++ rnd ++ rest_bytes h) s in
  let t := ssl_tls_version v in
  if bool_decide (m_version (s_method s) = TLS1_3_VERSION /\ TLS1_3_VERSION <= our_max_tls_version s /\ sentinel rnd) then r = HelloFatal TLS13_ALERT_ILLEGAL_PARAMETER
  else if ssl_check_version_from_server (older_stack s) v then
    r = (if bool_decide (TLS1_2_VERSION <= our_max_tls_version s /\ t < our_max_tls_version s /\ (t = TLS1_2_VERSION /\ tail rnd = tls13_downgrade_12 \/ tail rnd = tls13_downgrade_11))
         then HelloFatal TLS13_ALERT_ILLEGAL_PARAMETER else HelloGoesOn) /\
    negotiated_tls_version s' = t /\ server_random s' = rnd
  else r = HelloFatal TLS13_ALERT_PROTOCOL_VERSION.
Proof.
  intros Hv Hr Hb Hh Hs Ht. unfold client_receives, older_stack. destruct (Z.eqb_spec (m_version (s_method s)) TLS1_3_VERSION) as [E|E].
  - rewrite server_hello_process_ok by done. destruct (bool_decide_reflect (TLS1_3_VERSION <= our_max_tls_version s /\ sentinel rnd)) as [Hd|Hd].
    + by rewrite bool_decide_true.
    + rewrite bool_decide_false by tauto. apply (get_server_hello_ok (tls13_use_legacy_client s) v rnd (rest_bytes h)); done.
  - rewrite bool_decide_false by tauto. by apply get_server_hello_ok.
Qed.

(** ** What an untampered client hello does *)
Lemma zlen_prefixed n l : zlen (prefixed n l) = Z.of_nat n + zlen l.
Proof. unfold prefixed. rewrite zlen_app, zlen_be_bytes. lia. Qed.
Lemma client_hello_start_ok i v c rest : 0 <= v < 2 ^ 16 -> client_rest_ok c ->
  client_hello_start (rd i (be_bytes 2 v ++ c_random c ++ prefixed 1 (c_session_id c) ++ rest)) =
  (Some (v, rd (zlen (c_session_id c)) (c_session_id c)), rd i rest).
Proof.
  intros Hv (Hr & Hs & _). unfold client_hello_start, prefixed. rewrite <- !app_assoc. mstep (by apply get_u16_enc). mstep (by apply CBS_get_bytes_ok).
  mstep (apply (get_prefixed_ok i 1 (c_session_id c)); lia). done.
Qed.
Lemma client_hello_lists_ok i dtls c rest : client_rest_ok c ->
  client_hello_lists dtls (rd i ((if dtls then prefixed 1 (c_cookie c) else []) ++ prefixed 2 (c_cipher_suites c) ++ prefixed 1 (c_compression_methods c) ++ rest)) =
  (Some tt, rd i rest).
Proof.
  intros (_ & _ & Hk & Hs & Hc & _). unfold client_hello_lists, prefixed. rewrite <- !app_assoc.
  set (suites := _ ← CBS_get_u16_length_prefixed; _ ← CBS_get_u8_length_prefixed; mret tt). assert (Hsuites : forall i, suites
    (rd i (be_bytes 2 (zlen (c_cipher_suites c)) ++ c_cipher_suites c ++ be_bytes 1 (zlen (c_compression_methods c)) ++ c_compression_methods c ++ rest)) = (Some tt, rd i rest)).
  { intros j. unfold suites. mstep (by apply get_u16_prefixed_enc). mstep (apply (get_prefixed_ok j 1 (c_compression_methods c)); lia). done. }
  destruct dtls; cbn [app]; [|mstep done; apply Hsuites]. rewrite <- !app_assoc.
  erewrite bind_some; [apply Hsuites|]. mstep (apply (get_prefixed_ok i 1 (c_cookie c)); lia). done.
Qed.

(** The older stack answers the version in the message. *)
Lemma get_client_hello_ok v exts c rnd s s2 : 0 <= v < 2 ^ 16 -> client_rest_ok c ->
  server_answers v rnd s = Some s2 ->
  let l := client_hello_bytes v (SSL_is_dtls s) exts c in ssl3_get_client_hello (CBS_init l (zlen l)) rnd s = (HelloGoesOn, s2).
Proof.
  intros Hv Hc Hans l. unfold ssl3_get_client_hello. change (CBS_init l (zlen l)) with (rd (zlen l) l). generalize (zlen l). intros i.
  unfold l, client_hello_bytes. rewrite client_hello_start_ok by done. cbn [fst snd].
  assert (Hs : (SSL3_SESSION_ID_SIZE <? CBS_len (rd (zlen (c_session_id c)) (c_session_id c))) = false).
  { destruct Hc as (_ & Hs & _). unfold CBS_len, SSL3_SESSION_ID_SIZE. cbn [rd cbs_len]. lia. }
  rewrite Hs, client_hello_lists_ok by done. unfold server_answers in Hans.
  destruct (ssl3_get_client_hello_version v false s) as [[]]; try done. by injection Hans as ->.
Qed.

(** Reading the offered versions finds one at least as large as each of them. *)
Lemma max_offered_ok vs : forall fuel m i, Forall (fun v => 0 <= v < 2 ^ 16) vs -> (length vs < fuel)%nat ->
  exists m', max_offered fuel m (rd i (concat (be_bytes 2 <$> vs))) = (Some m', rd i []) /\ m <= m' /\ Forall (fun v => v <= m') vs.
Proof.
  induction vs as [|v vs IH]; intros fuel m i Hv Hf; destruct fuel as [|fuel]; cbn [length] in Hf; try lia.
  - exists m. split_and!; [done|lia|constructor].
  - apply Forall_cons in Hv as [Hv Hvs]. destruct (IH fuel (if m <=? v then v else m) i Hvs ltac:(lia)) as (m' & E & Hm & Hall).
    exists m'. cbn [max_offered fmap list_fmap concat]. rewrite (proj2 (Z.ltb_lt 0 _)) by (unfold CBS_len, rd; cbn [cbs_len]; zl). cbn [negb].
    split_and!; [|destruct (Z.leb_spec m v); lia|constructor; [destruct (Z.leb_spec m v); lia|done]].
    mstep (by apply get_u16_enc). exact E.
Qed.

Lemma client_hello_versions_none exts : forall fuel m i, Forall ext_ok exts -> (length (concat (ext_bytes <$> exts)) < fuel)%nat ->
  client_hello_versions fuel m (rd i (concat (ext_bytes <$> exts))) = (Some m, rd i []).
Proof.
  induction exts as [|[t d] exts IH]; intros fuel m i Hok Hf; destruct fuel as [|fuel]; try lia; [done|].
  apply Forall_cons in Hok as [(Ht & Hne & Hd) Hok]. cbn [fst snd] in *. cbn [fmap list_fmap concat] in *. cbn [client_hello_versions].
  set (r := concat (ext_bytes <$> exts)) in *. change (ext_bytes (t, d)) with (be_bytes 2 t ++ be_bytes 2 (zlen d) ++ d) in *. rewrite <- !app_assoc in *.
  rewrite (proj2 (Z.ltb_lt 0 _)) by (unfold CBS_len, rd; cbn [cbs_len]; zl). cbn [negb].
  mstep (by apply get_u16_enc). mstep (by apply get_u16_prefixed_enc). rewrite (proj2 (Z.eqb_neq _ _) Hne). cbn [negb].
  apply IH; [done|]. rewrite !length_app in Hf. assert (length (be_bytes 2 t) = 2%nat) by (pose proof (zlen_be_bytes 2 t); unfold zlen in *; lia). lia.
Qed.

Lemma versions_down_ok min fuel : forall v, 1 <= min -> v < 2 ^ 16 -> Forall (fun x => min <= x <= v) (versions_down fuel min v) /\ zlen (versions_down fuel min v) <= Z.max 0 (v - min + 1).
Proof.
  induction fuel as [|fuel IH]; intros v Hm Hv; cbn [versions_down]; [split; [constructor|zl]|]. destruct (Z.ltb_spec v min); [split; [constructor|zl]|].
  replace (wrap16 (v - 1)) with (v - 1) by (unfold wrap16; rewrite Z.mod_small; lia). destruct (IH (v - 1) Hm ltac:(lia)) as [Hall Hlen]. split; [|zl].
  constructor; [lia|]. eapply Forall_impl; [exact Hall|]. cbn. lia.
Qed.
Lemma supported_versions_ok s : TLS1_VERSION <= our_min_tls_version s <= our_max_tls_version s -> our_max_tls_version s = TLS1_3_VERSION ->
  let vs := supported_versions s in Forall (fun v => 0 <= v < 2 ^ 16) vs /\ zlen vs <= 4 /\ TLS1_3_VERSION ∈ vs.
Proof.
  intros Hr Hm vs. unfold vs, supported_versions. versions. destruct (versions_down_ok (our_min_tls_version s) (S (Z.to_nat (our_max_tls_version s))) (our_max_tls_version s) ltac:(lia) ltac:(lia)) as [Hall Hlen].
  split_and!; [eapply Forall_impl; [exact Hall|]; cbn; lia|lia|]. rewrite Hm in Hr |- *. cbn [versions_down]. rewrite (proj2 (Z.ltb_ge _ _)) by lia. by left.
Qed.

(** The extensions of an untampered hello offer TLSv1.3 exactly when the client has it. *)
Lemma client_extensions_legacy i s c : client_rest_ok c -> TLS1_VERSION <= our_min_tls_version s <= our_max_tls_version s -> our_max_tls_version s <= TLS1_3_VERSION ->
  tls13_client_hello_is_legacy (rd i (opt_block (client_extensions s c))) = (our_max_tls_version s <? TLS1_3_VERSION).
Proof.
  intros (_ & _ & _ & _ & _ & Hx & Hz) Hr H13. unfold client_extensions, opt_block. set (b := concat (ext_bytes <$> c_extensions c)) in *.
  assert (Hblock : forall l, zlen (concat (ext_bytes <$> l)) < 2 ^ 16 ->
    CBS_get_u16_length_prefixed (CBS_dup (rd i (exts_block l))) = (Some (rd (zlen (concat (ext_bytes <$> l))) (concat (ext_bytes <$> l))), rd i [])).
  { intros l Hl. change (CBS_dup (rd i (exts_block l))) with (rd i (exts_block l)). unfold exts_block, prefixed. rewrite <- (app_nil_r (concat (ext_bytes <$> l))) at 2. by apply get_u16_prefixed_enc. }
  assert (Hnone : forall fuel m j, (length b < fuel)%nat -> client_hello_versions fuel m (rd j b) = (Some m, rd j [])).
  { intros fuel m j. by apply client_hello_versions_none. }
  destruct (Z.leb_spec TLS1_3_VERSION (our_max_tls_version s)) as [Hm|Hm].
  - assert (our_max_tls_version s = TLS1_3_VERSION) as Em by lia. rewrite Em. change (TLS1_3_VERSION <? TLS1_3_VERSION) with false.
    destruct (supported_versions_ok s Hr Em) as (Hall & Hlen & Hin). set (vs := supported_versions s) in *. set (d := concat (be_bytes 2 <$> vs)).
    assert (Hd : zlen d = 2 * zlen vs). { unfold d. clear. induction vs as [|v vs IH]; [done|]. cbn [fmap list_fmap concat]. zl. }
    unfold tls13_client_hello_is_legacy. rewrite Hblock. 2: { cbn [fmap list_fmap concat]. fold b. unfold ext_bytes at 1. cbn [fst snd]. fold d. rewrite !zlen_app, zlen_prefixed, !zlen_be_bytes. lia. }
    cbn [fst fmap list_fmap concat]. fold b. change (ext_bytes (TLSEXT_TYPE_supported_versions, prefixed 1 d)) with (be_bytes 2 43 ++ be_bytes 2 (zlen (prefixed 1 d)) ++ prefixed 1 d).
    rewrite <- !app_assoc. set (e := be_bytes 2 43 ++ _). assert (He : zlen b + 5 <= zlen e) by (unfold e, prefixed; zl).
    destruct (max_offered_ok vs (S (Z.to_nat (zlen d))) 0 (zlen d) Hall ltac:(unfold zlen in *; lia)) as (m & Emax & _ & Hge). fold d in Emax.
    change (CBS_len (rd (zlen e) e)) with (zlen e). cbn [client_hello_versions]. change (CBS_len (rd (zlen e) e)) with (zlen e).
    rewrite (proj2 (Z.ltb_lt 0 (zlen e))) by (clearbody e; zl). cbn [negb]. unfold e at 3.
    erewrite bind_some; [|by apply get_u16_enc]. erewrite bind_some; [|apply get_u16_prefixed_enc; rewrite zlen_prefixed; lia].
    change (negb (43 =? TLSEXT_TYPE_supported_versions)) with false. cbv iota.
    assert (Hp : forall j, CBS_get_u8_length_prefixed (rd j (prefixed 1 d)) = (Some (rd (zlen d) d), rd j [])).
    { intros j. unfold prefixed. rewrite <- (app_nil_r d) at 2. apply (get_prefixed_ok j 1 d []); lia. }
    erewrite bind_some; [|apply on_some, Hp].
    cbn [fst snd]. change (CBS_len (rd (zlen d) d)) with (zlen d). erewrite bind_some; [|apply on_some, Emax]. cbn [fst snd].
    change (CBS_len (rd _ []) =? 0) with true. cbn [negb].
    rewrite Hnone by (unfold zlen in *; lia). cbn [fst].
    rewrite Forall_forall in Hge. specialize (Hge _ Hin). lia.
  - rewrite (proj2 (Z.ltb_lt _ _) Hm). destruct (c_extensions c) as [|x l] eqn:Ex; [done|].
    unfold tls13_client_hello_is_legacy. rewrite Hblock by (fold b; lia). cbn [fst]. fold b.
    change (CBS_len (rd (zlen b) b)) with (zlen b). rewrite Hnone by (unfold zlen; lia). done.
Qed.

(** ** Both sides *)
Lemma supported_same s s' t : s_method s' = s_method s -> s_internal s' = s_internal s -> supported s' t <-> supported s t.
Proof. intros Em Ei. unfold supported, enabled, disabled, version_options, SSL_is_dtls. by rewrite Em, Ei. Qed.
(** The older stack has the versions of the connection up to TLSv1.2. *)
Lemma supported_older s t : s_method s ∈ all_methods -> supported (older_stack s) t <-> supported s t /\ t <= TLS1_2_VERSION.
Proof.
  intros Hin. pose proof (new_method _ Hin) as Hnew. unfold older_stack. destruct (_ =? TLS1_3_VERSION).
  - destruct Hnew as (Hd & Hlo & Hhi).
    assert (He : enabled (tls13_use_legacy_client s) t <-> enabled s t).
    { split; apply enabled_ext; unfold version_options, SSL_is_dtls; by rewrite Hd. }
    unfold supported. rewrite He, Hlo, Hhi. cbn. versions. split; [|tauto || (intros [(? & ? & ?) ?]; split_and!; (done || lia))].
    intros (? & ? & ?). split_and!; (done || lia).
  - split; [|tauto]. intros Ht. split; [done|]. destruct Ht as (_ & _ & Ht). lia.
Qed.

(** A connection that has started a handshake knows the range of its versions. *)
Definition started (s s1 : SSL) : Prop :=
  s_method s1 = s_method s /\ s_internal s1 = s_internal s /\ server_random s1 = server_random s /\
  our_min_tls_version s1 <= our_max_tls_version s1 /\
  (forall t, supported s t <-> our_min_tls_version s1 <= t <= our_max_tls_version s1) /\
  (m_version (s_method s) = TLS1_3_VERSION -> s_version s1 = our_max_tls_version s1).
Lemma start_ok init s s1 : (init = tls13_server_init \/ init = tls13_client_init) -> start init s = Some s1 -> started s s1.
Proof.
  intros Hi. pose proof (supported_range s) as Hr. unfold start, started. intros Hs.
  assert (E : exists lo hi, ssl_supported_tls_version_range s = Some (lo, hi) /\
    (s1 = set_our_range lo hi s /\ m_version (s_method s) <> TLS1_3_VERSION \/ s1 = set_version hi (set_our_range lo hi s) \/ s1 = set_client_version hi (set_version hi (set_our_range lo hi s)))).
  { assert (Ei : init s = ('(lo, hi) ← ssl_supported_tls_version_range s; Some (set_version hi (set_our_range lo hi s))) \/
      init s = ('(lo, hi) ← ssl_supported_tls_version_range s; Some (set_client_version hi (set_version hi (set_our_range lo hi s))))) by (destruct Hi as [-> | ->]; [by left|by right]).
    unfold ssl3_start in Hs. destruct (ssl_supported_tls_version_range s) as [[lo hi]|].
    - exists lo, hi. split; [done|]. cbn [mbind option_bind] in *. destruct (Z.eqb_spec (m_version (s_method s)) TLS1_3_VERSION) as [Ev|Ev].
      + right. destruct Ei; [left|right]; congruence.
      + left. split; [|done]. destruct (negb _); [done|]. by injection Hs as <-.
    - cbn [mbind option_bind] in *. destruct (_ =? _); [destruct Ei; congruence|]. by destruct (negb _). }
  destruct E as (lo & hi & Er & Hcase). rewrite Er in Hr. destruct Hr as [Hle Hr].
  destruct Hcase as [[-> Hv]|[-> | ->]]; cbn; split_and!; try done.
Qed.

(** A hello goes out from every client that has started, and leaves it as it was but for its version. *)
Lemma client_sends_ok c cli cli1 : s_method cli ∈ all_methods -> started cli cli1 ->
  let v := if m_version (s_method cli) =? TLS1_3_VERSION then tls13_client_version cli1 else wire cli (our_max_tls_version cli1) in
  exists cli2, client_sends c cli1 = Some (client_hello_bytes v (m_dtls (s_method cli)) (client_extensions cli1 c) c, cli2) /\
    s_method cli2 = s_method cli /\ s_internal cli2 = s_internal cli /\ server_random cli2 = server_random cli /\
    our_max_tls_version cli2 = our_max_tls_version cli1.
Proof.
  intros Hin (Em & Ei & Er & Hle & Hr & _) v. pose proof (new_method _ Hin) as Hnew. unfold client_sends, v. rewrite Em.
  destruct (_ =? TLS1_3_VERSION). { destruct Hnew as [-> _]. by exists cli1. }
  unfold ssl3_send_client_hello_version, ssl_max_supported_version. pose proof (supported_range cli1) as Hr1.
  assert (Hmax : supported cli1 (our_max_tls_version cli1)) by (rewrite (supported_same cli) by done; apply Hr; lia).
  destruct (ssl_supported_tls_version_range cli1) as [[lo hi]|]; [|by destruct (Hr1 (our_max_tls_version cli1))]. destruct Hr1 as [Hle1 Hr1].
  assert (hi = our_max_tls_version cli1) as ->.
  { assert (supported cli hi) as Hhi%Hr by (rewrite <- (supported_same cli cli1) by done; apply Hr1; lia). apply Hr1 in Hmax. lia. }
  cbn [mbind option_bind]. fold (wire cli1 (our_max_tls_version cli1)).
  replace (SSL_is_dtls cli1 && (wire cli1 (our_max_tls_version cli1) =? 0)) with false.
  - assert (Hw : wire cli (our_max_tls_version cli1) = wire cli1 (our_max_tls_version cli1)) by (unfold wire, SSL_is_dtls; by rewrite Em).
    eexists. split; [rewrite Hw, <- Em; reflexivity|]. by split_and!.
  - symmetry. destruct (supported_bounds cli1 _ ltac:(rewrite Em; by apply all_methods_ok) Hmax) as [_ Hd]. unfold wire. destruct (SSL_is_dtls cli1); [|done].
    by destruct (Hd eq_refl) as [-> | ->].
Qed.

(** What the version in a client's hello offers. *)
Definition hello_version (cli cli1 : SSL) : Z :=
  if m_version (s_method cli) =? TLS1_3_VERSION then tls13_client_version cli1 else wire cli (our_max_tls_version cli1).
Lemma hello_version_offers cli cli1 s t :
  s_method cli ∈ all_methods -> started cli cli1 -> m_dtls (s_method s) = m_dtls (s_method cli) ->
  method_ok (s_method s) -> supported s t -> t <= TLS1_2_VERSION ->
  0 <= hello_version cli cli1 < 2 ^ 16 /\ (offers s (hello_version cli cli1) t <-> t <= our_max_tls_version cli1).
Proof.
  intros Hin (_ & _ & _ & Hle & Hr & _) Hd Hm Ht H12. pose proof (new_method _ Hin) as Hnew. set (m := our_max_tls_version cli1) in *.
  assert (Hmax : supported cli m) by (apply Hr; lia). apply (supported_bounds cli m (all_methods_ok _ Hin)) in Hmax. destruct Hmax as [Hb Hbd].
  destruct (supported_bounds s t Hm Ht) as [Htb Htd]. unfold hello_version, tls13_client_version, offers, wire, SSL_is_dtls in *. fold m. rewrite Hd in *.
  destruct (_ =? TLS1_3_VERSION).
  - destruct Hnew as [-> _]. versions. destruct (Z.ltb_spec 0x303 m); lia.
  - destruct (m_dtls (s_method cli)); [|versions; lia]. unfold DTLS1_VERSION, DTLS1_2_VERSION. versions.
    destruct (Hbd eq_refl) as [-> | ->]; unfold ssl_tls_to_dtls_version, DTLS1_VERSION, DTLS1_2_VERSION; versions; cbn; destruct (Htd eq_refl) as [-> | ->]; lia.
Qed.

(** The server of the older stack that receives it answers the best version that both support. *)
Lemma server_answers_best srv cli srv1 cli1 rnd :
  s_method srv ∈ all_methods -> s_method cli ∈ all_methods -> m_dtls (s_method srv) = m_dtls (s_method cli) ->
  started srv srv1 -> started cli cli1 ->
  let best := Z.min (our_max_tls_version srv1) (our_max_tls_version cli1) in
  supported srv best -> best <= TLS1_2_VERSION ->
  exists srv2, server_answers (hello_version cli cli1) rnd (older_stack srv1) = Some srv2 /\ negotiated_tls_version srv2 = best /\
    0 <= hello_version cli cli1 < 2 ^ 16.
Proof.
  intros Hsm Hcm Hd (Sm & Si & _ & Sle & Sr & _) Hcli best Hbs H12.
  assert (Hin : s_method srv1 ∈ all_methods) by (by rewrite Sm). destruct (older_stack_ok srv1 Hin) as (Hok & Ho12 & _ & Hod & _).
  assert (Hsup : forall t, supported (older_stack srv1) t <-> supported srv t /\ t <= TLS1_2_VERSION) by (intros t; by rewrite supported_older, (supported_same srv srv1)).
  assert (Hoff : forall t, supported (older_stack srv1) t -> 0 <= hello_version cli cli1 < 2 ^ 16 /\ (offers (older_stack srv1) (hello_version cli cli1) t <-> t <= our_max_tls_version cli1)).
  { intros t Ht. apply hello_version_offers; try done; [by rewrite Hod, Sm|]. by apply Hsup in Ht as [_ ?]. }
  assert (Hbo : supported (older_stack srv1) best) by (by apply Hsup). destruct (Hoff best Hbo) as [Hv Hbest].
  pose proof (server_answers_spec (hello_version cli cli1) rnd (older_stack srv1) Hok) as Hans.
  destruct (server_answers _ rnd (older_stack srv1)) as [srv2|]; [|destruct (Hans best Hbo); apply Hbest; lia].
  destruct Hans as (_ & Hts & Hto & Hmax & _). exists srv2. split; [done|]. split; [|exact Hv]. apply Z.le_antisymm; [|apply Hmax; [exact Hbo|apply Hbest; lia]].
  apply (Hoff _ Hts) in Hto. apply Hsup in Hts as [Hts%Sr _]. lia.
Qed.

(** The new stack hands over to the older one exactly when one of the two does not have TLSv1.3. *)
Lemma client_hello_process_ok v s cli1 c : 0 <= v < 2 ^ 16 -> client_rest_ok c ->
  TLS1_VERSION <= our_min_tls_version cli1 <= our_max_tls_version cli1 -> our_max_tls_version cli1 <= TLS1_3_VERSION ->
  let l := client_hello_bytes v false (client_extensions cli1 c) c in
  tls13_client_hello_process (CBS_init l (zlen l)) s =
  if (our_max_tls_version cli1 <? TLS1_3_VERSION) || (s_version s <? TLS1_3_VERSION) then (HelloLegacy, tls13_use_legacy_server s)
  else (HelloGoesOn, set_negotiated TLS1_3_VERSION s).
Proof.
  intros Hv Hc Hr H13 l. unfold tls13_client_hello_process. set (x := opt_block (client_extensions cli1 c)).
  match goal with |- context [(client_hello_start ≫= ?f) (CBS_init l (zlen l))] => set (parse := client_hello_start ≫= f) end.
  assert (Ep : parse (CBS_init l (zlen l)) = (Some tt, rd (zlen l) x)).
  { change (CBS_init l (zlen l)) with (rd (zlen l) l). unfold parse. generalize (zlen l). intros i. unfold l, client_hello_bytes. fold x.
    mstep (by apply client_hello_start_ok). by apply (client_hello_lists_ok i false c x). }
  rewrite Ep. unfold x at 1. rewrite client_extensions_legacy by done.
  assert (Esk : CBS_skip (CBS_len (rd (zlen l) x)) (rd (zlen l) x) = (Some tt, rd (zlen l) [])).
  { unfold CBS_len. cbn [rd cbs_len]. rewrite <- (app_nil_r x) at 2. by rewrite CBS_skip_ok. }
  by rewrite Esk.
Qed.

(** What an untampered hello of [cli1] makes the server do, when both support some version. *)
Lemma server_receives_best srv cli srv1 cli1 rnd c :
  s_method srv ∈ all_methods -> s_method cli ∈ all_methods -> m_dtls (s_method srv) = m_dtls (s_method cli) -> client_rest_ok c ->
  started srv srv1 -> started cli cli1 ->
  let best := Z.min (our_max_tls_version srv1) (our_max_tls_version cli1) in
  let msg := client_hello_bytes (hello_version cli cli1) (m_dtls (s_method cli)) (client_extensions cli1 c) c in
  supported srv best -> supported cli best ->
  exists srv2, server_receives msg rnd srv1 = (HelloGoesOn, srv2) /\ negotiated_tls_version srv2 = best /\
    (best = TLS1_3_VERSION -> server_random srv2 = server_random srv).
Proof.
  intros Hsm Hcm Hd Hc Hsrv Hcli best msg Hbs Hbc. pose proof (server_answers_best srv cli srv1 cli1 rnd Hsm Hcm Hd Hsrv Hcli Hbs) as Hans. fold best in Hans.
  destruct Hsrv as (Sm & Si & Sr & Sle & Srange & Sv). pose proof Hcli as (Cm & Ci & Cr & Cle & Crange & _).
  pose proof (new_method _ Hsm) as Hnew. unfold server_receives, older_stack in *. rewrite Sm in *.
  assert (Hmsup : supported srv (our_max_tls_version srv1) /\ supported cli (our_max_tls_version cli1)) by (split; [apply Srange|apply Crange]; lia).
  destruct Hmsup as [Hm1 Hm2]. apply (supported_bounds _ _ (all_methods_ok _ Hcm)) in Hm2 as [Hm2 _].
  pose proof (supported_bounds _ _ (all_methods_ok _ Hsm) Hm1) as [Hm1b _].
  destruct (Z.eqb_spec (m_version (s_method srv)) TLS1_3_VERSION) as [Ev|Ev].
  2: { destruct Hans as (srv2 & Ha & Hn & Hv); [destruct Hm1 as (_ & _ & ?); lia|]. exists srv2. split_and!; [|done|destruct Hm1 as (_ & _ & ?); versions; lia].
       apply (get_client_hello_ok _ (client_extensions cli1 c) c) in Ha; [|done|done]. unfold SSL_is_dtls in Ha. by rewrite Sm, Hd in Ha. }
  destruct Hnew as [Hdf _]. rewrite Hdf in Hd.
  assert (Hv : 0 <= hello_version cli cli1 < 2 ^ 16).
  { unfold hello_version, tls13_client_version, wire, SSL_is_dtls. rewrite <- Hd. versions. repeat case_match; lia. }
  assert (Hlo : TLS1_VERSION <= our_min_tls_version cli1) by (assert (supported cli (our_min_tls_version cli1)) as [[? _] _] by (apply Crange; lia); lia).
  unfold msg. rewrite <- Hd, (client_hello_process_ok _ _ cli1 c Hv Hc) by lia. rewrite Sv by done.
  destruct (Z.ltb_spec best TLS1_3_VERSION) as [Hb|Hb].
  - replace (_ || _) with true by lia. destruct Hans as (srv2 & Ha & Hn & _); [versions; lia|]. exists srv2. split_and!; [|done|lia].
    by apply (get_client_hello_ok _ (client_extensions cli1 c) c) in Ha.
  - replace (_ || _) with false by lia. eexists. split_and!; [done|cbn; lia|done].
Qed.

(** A hello that selects TLSv1.3 keeps the client on the new stack. *)
Lemma selects_13_not_legacy i h : rest_ok h -> tls13_server_hello_is_legacy (rd i (exts_bytes (selects_13 h))) = false.
Proof.
  intros (_ & _ & Hx). unfold exts_bytes, selects_13. cbn [h_extensions]. set (l := default [] (h_extensions h)).
  assert (Hl : Forall ext_ok l /\ zlen (concat (ext_bytes <$> l)) + 6 < 2 ^ 16) by (unfold l; destruct (h_extensions h); [done|split; [constructor|done]]).
  destruct Hl as [Hl Hz]. set (b := concat (ext_bytes <$> l)) in *. unfold tls13_server_hello_is_legacy.
  set (sel := (TLSEXT_TYPE_supported_versions, be_bytes 2 TLS1_3_VERSION)). set (e := be_bytes 2 43 ++ be_bytes 2 2 ++ be_bytes 2 TLS1_3_VERSION ++ b).
  assert (Ee : concat (ext_bytes <$> sel :: l) = e). { cbn [fmap list_fmap concat]. unfold sel, ext_bytes at 1, e. cbn [fst snd]. by rewrite <- !app_assoc. }
  assert (Hze : zlen e = 6 + zlen b) by (unfold e; zl).
  assert (Eb : CBS_get_u16_length_prefixed (CBS_dup (rd i (exts_block (sel :: l)))) = (Some (rd (zlen e) e), rd i [])).
  { change (CBS_dup (rd i (exts_block (sel :: l)))) with (rd i (exts_block (sel :: l))). unfold exts_block, prefixed. rewrite Ee.
    rewrite <- (app_nil_r e) at 2. apply get_u16_prefixed_enc. lia. }
  rewrite Eb. cbn [fst]. change (CBS_len (rd (zlen e) e)) with (zlen e). cbn [server_hello_versions].
  change (CBS_len (rd (zlen e) e)) with (zlen e). rewrite (proj2 (Z.ltb_lt 0 (zlen e))) by (clearbody e; zl). cbn [negb]. unfold e at 3.
  erewrite bind_some; [|by apply get_u16_enc]. erewrite bind_some; [|apply (get_u16_prefixed_enc _ (be_bytes 2 TLS1_3_VERSION)); done].
  change (negb (43 =? TLSEXT_TYPE_supported_versions)) with false. cbv iota.
  erewrite bind_some; [|apply on_some; rewrite <- (app_nil_r (be_bytes 2 TLS1_3_VERSION)) at 2; by apply get_u16_enc]. cbn [fst snd].
  change (CBS_len (rd _ []) =? 0) with true. cbn [negb]. unfold b. rewrite server_hello_versions_none; [done|done|]. fold b. unfold zlen in *. lia.
Qed.

Lemma client_goes_on_13 srv2 cli2 h : m_version (s_method cli2) = TLS1_3_VERSION -> negotiated_tls_version srv2 = TLS1_3_VERSION ->
  zlen (server_random srv2) = 32 -> rest_ok h -> client_receives (server_hello srv2 h) cli2 = (HelloGoesOn, cli2).
Proof.
  intros Hm Hn Hr Hh. unfold client_receives, server_hello. rewrite Hm, Hn. change (TLS1_3_VERSION =? TLS1_3_VERSION) with true.
  change (TLS1_3_VERSION <=? TLS1_3_VERSION) with true. cbv iota. unfold tls13_server_hello_process.
  rewrite (server_hello_parse TLS1_2_VERSION (server_random srv2) (selects_13 h)) by (done || by destruct Hh as (? & ? & _)).
  by rewrite selects_13_not_legacy.
Qed.

(** What passes between a server on the older stack and the client. *)
Lemma older_exchange srv1 cli2 cv rnd srv2 h :
  s_method srv1 ∈ all_methods -> zlen rnd = 32 -> Forall is_byte rnd -> rest_ok h -> zlen (server_random cli2) = 32 ->
  server_answers cv rnd (older_stack srv1) = Some srv2 ->
  let t := negotiated_tls_version srv2 in let best := our_max_tls_version srv1 in
  (t <= TLS1_2_VERSION /\ s_version srv2 = wire srv1 t /\
   server_random srv2 = if (TLS1_2_VERSION <=? best) && (t <? best) then marked rnd t else rnd) /\
  let '(r, s') := client_receives (server_hello srv2 h) cli2 in
  if bool_decide (m_version (s_method cli2) = TLS1_3_VERSION /\ TLS1_3_VERSION <= our_max_tls_version cli2 /\ sentinel (server_random srv2))
  then r = HelloFatal TLS13_ALERT_ILLEGAL_PARAMETER
  else if ssl_check_version_from_server (older_stack cli2) (s_version srv2) then
    r = (if bool_decide (TLS1_2_VERSION <= our_max_tls_version cli2 /\ t < our_max_tls_version cli2 /\
                         (t = TLS1_2_VERSION /\ tail (server_random srv2) = tls13_downgrade_12 \/ tail (server_random srv2) = tls13_downgrade_11))
         then HelloFatal TLS13_ALERT_ILLEGAL_PARAMETER else HelloGoesOn) /\
    negotiated_tls_version s' = t /\ server_random s' = server_random srv2
  else r = HelloFatal TLS13_ALERT_PROTOCOL_VERSION.
Proof.
  intros Hin Hr Hb Hh Hcr Ha t best. destruct (older_stack_ok srv1 Hin) as (Hok & Ho12 & Hmax & Hd & _).
  pose proof (server_answers_spec cv rnd (older_stack srv1) Hok) as Hs. rewrite Ha, Hmax in Hs. destruct Hs as (Hv & Hts & _ & _ & Hrnd). fold t best in Hv, Hts, Hrnd.
  assert (Ht12 : t <= TLS1_2_VERSION) by (destruct Hts as (_ & _ & ?); lia).
  assert (Hvt : ssl_tls_version (s_version srv2) = t) by (rewrite Hv; by apply wire_tls).
  assert (Ht0 : t <> 0) by (apply (supported_bounds _ _ Hok) in Hts; versions; lia).
  destruct (marked_ok rnd t Hr Hb) as (Mz & Mb & _). assert (Hr2 : zlen (server_random srv2) = 32 /\ Forall is_byte (server_random srv2)) by (rewrite Hrnd; destruct (_ && _); done).
  split; [split_and!; [done|rewrite Hv; unfold wire, SSL_is_dtls; by rewrite Hd|done]|].
  assert (Es : server_hello srv2 h = be_bytes 2 (s_version srv2) ++ server_random srv2 ++ rest_bytes h).
  { unfold server_hello. fold t. rewrite (proj2 (Z.leb_gt _ _)) by (versions; lia). done. }
  rewrite Es. pose proof (client_receives_ok cli2 (s_version srv2) (server_random srv2) h) as Hc. rewrite Hvt in Hc.
  apply Hc; try done; try (by apply Hr2). apply ssl_tls_version_range. by rewrite Hvt.
Qed.

Lemma supported_max s s1 : s_method s ∈ all_methods -> started s s1 -> our_max_tls_version s1 <= TLS1_3_VERSION.
Proof. intros Hin (_ & _ & _ & Hle & Hr & _). assert (supported s (our_max_tls_version s1)) as H by (apply Hr; lia). apply supported_bounds in H; [lia|by apply all_methods_ok]. Qed.

Lemma supported_13 s : s_method s ∈ all_methods -> supported s TLS1_3_VERSION -> m_version (s_method s) = TLS1_3_VERSION.
Proof. intros Hin (_ & _ & H). pose proof (new_method _ Hin) as Hnew. destruct (Z.eqb_spec (m_version (s_method s)) TLS1_3_VERSION); [done|versions; lia]. Qed.
(** The client accepts the best version from a server that could not do better, unless the server's random is a marker by chance. *)
Lemma accepts_best srv1 cli2 cv rnd srv2 h :
  s_method srv1 ∈ all_methods -> s_method cli2 ∈ all_methods -> zlen rnd = 32 -> Forall is_byte rnd -> rest_ok h -> zlen (server_random cli2) = 32 ->
  m_dtls (s_method srv1) = m_dtls (s_method cli2) -> server_answers cv rnd (older_stack srv1) = Some srv2 ->
  let t := negotiated_tls_version srv2 in
  supported cli2 t -> t = Z.min (our_max_tls_version srv1) (our_max_tls_version cli2) -> (t = our_max_tls_version cli2 \/ ~ sentinel rnd) ->
  let '(r, cli3) := client_receives (server_hello srv2 h) cli2 in
  r = HelloGoesOn /\ negotiated_tls_version cli3 = t /\ server_random cli3 = server_random srv2.
Proof.
  intros Hin Hin2 Hr Hb Hh Hcr Hd Ha t Ht Hbest Hnos. apply (older_exchange srv1 cli2 cv rnd srv2 h Hin Hr Hb Hh Hcr) in Ha as [(Ht12 & Hv & Hrnd) Hc].
  fold t in Hc, Hv, Hrnd, Ht12. destruct (client_receives _ cli2) as [r cli3].
  assert (Hmark : t < our_max_tls_version cli2 -> ~ sentinel (server_random srv2)).
  { intros Hlt. rewrite (proj2 (Z.ltb_ge t _)), andb_false_r in Hrnd by lia. rewrite Hrnd. destruct Hnos; [lia|done]. }
  rewrite bool_decide_false in Hc by (intros (_ & ? & Hs); apply Hmark in Hs; [done|versions; lia]).
  destruct (older_stack_ok cli2 Hin2) as (Hok & _ & _ & Hod & _).
  replace (ssl_check_version_from_server (older_stack cli2) (s_version srv2)) with true in Hc.
  - destruct Hc as (-> & Hc). rewrite bool_decide_false; [done|]. intros (_ & Hlt & Hs). apply (Hmark Hlt). unfold sentinel. tauto.
  - symmetry. apply check_version_iff; [done|]. exists t. split; [|by apply supported_older]. rewrite Hv. unfold wire, SSL_is_dtls. by rewrite Hod, Hd.
Qed.


Definition demo_client_rest : client_rest := mkClientRest (zeros 32) [] [] [0x13; 0x01; 0xc0; 0x2f] [0] [(0xff01, [0])].
Definition demo_rest : hello_rest := mkRest [7; 7] 0xc02f 0 (Some [(0xff01, [0])]).
Lemma demo_rests_ok : client_rest_ok demo_client_rest /\ rest_ok demo_rest.
Proof.
  assert (Hx : Forall ext_ok [(0xff01, [0])]).
  { constructor; [|constructor]. split; [cbn; lia|]. split; [discriminate|vm_compute; reflexivity]. }
  split; unfold client_rest_ok, rest_ok, demo_client_rest, demo_rest;
    cbn [c_random c_session_id c_cookie c_cipher_suites c_compression_methods c_extensions h_session_id h_cipher h_extensions];
    split_and!; try exact Hx; try lia; vm_compute; (reflexivity || discriminate).
Qed.

Lemma supported_range_in s lo hi t : ssl_supported_tls_version_range s = Some (lo, hi) -> (lo <=? t) && (t <=? hi) = true -> supported s t.
Proof. intros E Ht. pose proof (supported_range s) as Hr. rewrite E in Hr. apply Hr. lia. Qed.


(** When both sides end at TLSv1.1 a hello that was changed to TLSv1.0 goes unnoticed. *)
Example tls11_downgrade_unnoticed :
  let top := fun s => snd (SSL_set_max_proto_version TLS1_1_VERSION s) in
  match start tls13_server_init (top (SSL_new (SSL_CTX_new TLS_method_data))), start tls13_client_init (top (SSL_new (SSL_CTX_new TLS_client_method_data))) with
  | Some srv1, Some cli1 =>
      our_max_tls_version srv1 = TLS1_1_VERSION /\ our_max_tls_version cli1 = TLS1_1_VERSION /\
      let '(r, srv2) := server_receives (client_hello_bytes TLS1_VERSION false [] demo_client_rest) (zeros 32) srv1 in
      r = HelloGoesOn /\ let '(r, cli2) := client_receives (server_hello srv2 demo_rest) cli1 in r = HelloGoesOn /\ negotiated_tls_version cli2 = TLS1_VERSION
  | _, _ => False
  end.
Proof. vm_compute. repeat split. Qed.
