(* ===== verification/Tlsext.v ===== *)
(** * TLS extensions (ssl/ssl_tlsext.c)

    Every extension has, for the client and for the server, a function that says whether to send it, one that
    builds its contents and one that parses the contents the peer sent; a table lists them, and [tlsext_build] and
    [tlsext_parse] go through the table and through the received block.  The state is the part of the [SSL] that these
    functions use.  Callbacks, keys of the key exchange and the ASN.1 of OCSP requests are the class [TlsextEnv];
    the debug callback, which only observes, is left out. *)
From S2P Require Import Prelude Compat Cbs Cbb CbbSpec CbbBuild RecordLayer Handshake Versions Hello.

(** ** Constants (tls1.h, ssl_tlsext.h, ssl.h) *)
Definition TLSEXT_TYPE_server_name : Z := 0.
Definition TLSEXT_TYPE_status_request : Z := 5.
Definition TLSEXT_TYPE_supported_groups : Z := 10.
Definition TLSEXT_TYPE_ec_point_formats : Z := 11.
Definition TLSEXT_TYPE_signature_algorithms : Z := 13.
Definition TLSEXT_TYPE_use_srtp : Z := 14.
Definition TLSEXT_TYPE_application_layer_protocol_negotiation : Z := 16.
Definition TLSEXT_TYPE_padding : Z := 21.
Definition TLSEXT_TYPE_session_ticket : Z := 35.
Definition TLSEXT_TYPE_pre_shared_key : Z := 41.
Definition TLSEXT_TYPE_early_data : Z := 42.
Definition TLSEXT_TYPE_cookie : Z := 44.
Definition TLSEXT_TYPE_key_share : Z := 51.
Definition TLSEXT_TYPE_renegotiate : Z := 0xff01.
Definition TLSEXT_NAMETYPE_host_name : Z := 0.
Definition TLSEXT_STATUSTYPE_ocsp : Z := 1.
Definition TLSEXT_MAXLEN_host_name : Z := 255.

Definition SSL_TLSEXT_MSG_CH : Z := 0x0001.
Definition SSL_TLSEXT_MSG_SH : Z := 0x0002.
Definition SSL_TLSEXT_MSG_EE : Z := 0x0004.
Definition SSL_TLSEXT_MSG_CT : Z := 0x0008.
Definition SSL_TLSEXT_MSG_CR : Z := 0x0010.
Definition SSL_TLSEXT_MSG_HRR : Z := 0x0040.

Definition SSL_AD_HANDSHAKE_FAILURE : Z := 40.
Definition SSL_AD_ILLEGAL_PARAMETER : Z := 47.
Definition SSL_AD_DECODE_ERROR : Z := 50.
Definition SSL_AD_PROTOCOL_VERSION : Z := 70.
Definition SSL_AD_INTERNAL_ERROR : Z := 80.
Definition TLS1_AD_UNSUPPORTED_EXTENSION : Z := 110.
Definition TLS1_AD_UNRECOGNIZED_NAME : Z := 112.
Definition SSL_OP_NO_TICKET : Z := 0x00004000.

(** ** The state *)
Class TlsextTypes := {
  key_share_t : Type;
  respid_t : Type;
  x509_exts_t : Type
}.

Section Types.
Context `{TlsextTypes}.

(** A NULL pointer is [None]; a C string is listed without its NUL.  [t_ssl] has the versions and the
    options.  [srtp_profiles] are the identifiers of the profiles. *)
Record conn := mkConn {
  t_ssl : SSL;
  server : bool;
  hit : bool;
  renegotiate : bool;
  new_session : bool;
  has_ecc_ciphers : bool;
  ecc_cipher : bool;
  (* configuration *)
  alpn_client_proto_list : option (list Z);
  cfg_groups : option (list Z);
  cfg_formats : option (list Z);
  hostname : option (list Z);
  srtp_profiles : option (list Z);
  session_ticket : option (option (list Z));
  status_type : Z;
  ocsp_ids : option (list respid_t);
  ocsp_exts : option x509_exts_t;
  (* the session; [sess] is whether there is one *)
  sess : bool;
  sess_hostname : option (list Z);
  sess_groups : option (list Z);
  sess_formats : option (list Z);
  sess_tick : option (list Z);
  (* the handshake *)
  extensions_seen : Z;
  alpn_selected : option (list Z);
  finished_len : Z;
  previous_client_finished : list Z;
  previous_server_finished : list Z;
  renegotiate_seen : bool;
  send_connection_binding : bool;
  hs_sigalgs : option (list Z);
  ocsp_resp : option (list Z);
  status_expected : bool;
  ticket_expected : bool;
  srtp_profile : option Z;
  hrr : bool;
  key_share : option key_share_t;
  server_group : Z;
  server_version : Z;
  cookie : option (list Z);
  clienthello_md : list Z
}.
End Types.

Section Setters.
Context `{TlsextTypes}.
Definition eta_conn (c : conn) : conn :=
  mkConn (t_ssl c) (server c) (hit c) (renegotiate c) (new_session c) (has_ecc_ciphers c) (ecc_cipher c)
    (alpn_client_proto_list c) (cfg_groups c) (cfg_formats c) (hostname c) (srtp_profiles c) (session_ticket c) (status_type c)
    (ocsp_ids c) (ocsp_exts c) (sess c) (sess_hostname c) (sess_groups c) (sess_formats c) (sess_tick c) (extensions_seen c)
    (alpn_selected c) (finished_len c) (previous_client_finished c) (previous_server_finished c) (renegotiate_seen c)
    (send_connection_binding c) (hs_sigalgs c) (ocsp_resp c) (status_expected c) (ticket_expected c) (srtp_profile c) (hrr c)
    (key_share c) (server_group c) (server_version c) (cookie c) (clienthello_md c).
Ltac mk_setter f :=
  let e := eval cbv beta delta [eta_conn] in eta_conn in
  let R := constr:(conn) in
  match eval pattern (f) in e with
  | ?P _ => let t := eval cbv beta in (fun g => P (fun r : R => g (f r))) in exact t
  end.
#[global] Instance set_t_ssl : Setter t_ssl := ltac:(mk_setter t_ssl).
#[global] Instance set_status_type : Setter status_type := ltac:(mk_setter status_type).
#[global] Instance set_ocsp_ids : Setter ocsp_ids := ltac:(mk_setter ocsp_ids).
#[global] Instance set_ocsp_exts : Setter ocsp_exts := ltac:(mk_setter ocsp_exts).
#[global] Instance set_sess_hostname : Setter sess_hostname := ltac:(mk_setter sess_hostname).
#[global] Instance set_sess_groups : Setter sess_groups := ltac:(mk_setter sess_groups).
#[global] Instance set_sess_formats : Setter sess_formats := ltac:(mk_setter sess_formats).
#[global] Instance set_sess_tick : Setter sess_tick := ltac:(mk_setter sess_tick).
#[global] Instance set_extensions_seen : Setter extensions_seen := ltac:(mk_setter extensions_seen).
#[global] Instance set_alpn_selected : Setter alpn_selected := ltac:(mk_setter alpn_selected).
#[global] Instance set_renegotiate_seen : Setter renegotiate_seen := ltac:(mk_setter renegotiate_seen).
#[global] Instance set_send_connection_binding : Setter send_connection_binding := ltac:(mk_setter send_connection_binding).
#[global] Instance set_hs_sigalgs : Setter hs_sigalgs := ltac:(mk_setter hs_sigalgs).
#[global] Instance set_ocsp_resp : Setter ocsp_resp := ltac:(mk_setter ocsp_resp).
#[global] Instance set_status_expected : Setter status_expected := ltac:(mk_setter status_expected).
#[global] Instance set_ticket_expected : Setter ticket_expected := ltac:(mk_setter ticket_expected).
#[global] Instance set_srtp_profile : Setter srtp_profile := ltac:(mk_setter srtp_profile).
#[global] Instance set_key_share : Setter key_share := ltac:(mk_setter key_share).
#[global] Instance set_server_group : Setter server_group := ltac:(mk_setter server_group).
#[global] Instance set_server_version : Setter server_version := ltac:(mk_setter server_version).
#[global] Instance set_cookie : Setter cookie := ltac:(mk_setter cookie).
#[global] Instance set_clienthello_md : Setter clienthello_md := ltac:(mk_setter clienthello_md).
End Setters.

(** What the extensions call outside this file: the key exchange (tls13_key_share.c), the callbacks of the application
    ([alpn_select_cb] returns the protocol with SSL_TLSEXT_ERR_OK; [status_cb] the response), the ASN.1 code, and whether a stack (crypto/stack) can be made and grown. *)
Class TlsextEnv `{TlsextTypes} := {
  tls13_key_share_new : Z -> option key_share_t;
  tls13_key_share_public : key_share_t -> addr -> M store unit;
  tls13_key_share_peer_public : key_share_t -> Z -> CBS -> option key_share_t;
  alpn_select_cb : option (conn -> list Z -> option (list Z));
  status_cb : option (conn -> Z * option (list Z));
  session_ticket_ext_cb : option (list Z -> bool);
  i2d_OCSP_RESPID : respid_t -> option (list Z);
  d2i_OCSP_RESPID : list Z -> option respid_t;
  i2d_X509_EXTENSIONS : option x509_exts_t -> option (list Z);
  d2i_X509_EXTENSIONS : list Z -> option x509_exts_t;
  sk_new_ok : bool;
  sk_push_ok : nat -> bool
}.

(** ** Lists the extensions consult (ssl_sigalgs.c, t1_lib.c, d1_srtp.c) *)
Definition SIGALG_RSA_PKCS1_MD5_SHA1 : Z := 0xFF01.
(** The values of the table [sigalgs]. *)
Definition sigalgs : list Z :=
  [0x0601; 0x0603; 0xEFEF; 0x0501; 0x0503; 0x0401; 0x0403; 0xEEEE; 0xEDED; 0x0804; 0x0805; 0x0806; 0x0809; 0x080a; 0x080b; 0x0301; 0x0303; 0x0201; 0x0203; 0xFF01].
Definition tls13_sigalgs : list Z := [0x0806; 0x0601; 0x0603; 0x0805; 0x0501; 0x0503; 0x0804; 0x0401; 0x0403].
Definition tls12_sigalgs : list Z := [0x0806; 0x0601; 0x0603; 0x0805; 0x0501; 0x0503; 0x0804; 0x0401; 0x0403; 0x0201; 0x0203].
Definition ecformats_default : list Z := [0].
Definition eccurves_client_default : list Z := [29; 23; 24; 25].
Definition eccurves_server_default : list Z := [29; 23; 24].
(** The identifiers of [srtp_known_profiles]. *)
Definition srtp_known_profiles : list Z := [0x0001; 0x0002].

Section Extensions.
Context `{Allocator} `{TlsextEnv}.

Definition is_NULL {A} (p : option A) : bool := match p with None => true | Some _ => false end.
Definition olen (p : option (list Z)) : Z := zlen (default [] p).

Definition tls1_get_group_list (s : conn) (client_groups : bool) : list Z :=
  if client_groups then default [] (sess_groups s)
  else match cfg_groups s with Some l => l | None => if server s then eccurves_server_default else eccurves_client_default end.
Definition tls1_get_formatlist (s : conn) (client_formats : bool) : list Z :=
  if client_formats then default [] (sess_formats s) else default ecformats_default (cfg_formats s).
Definition tls1_check_curve (s : conn) (curve_id : Z) : bool := existsb (fun g => g =? curve_id) (tls1_get_group_list s false).
Definition our_max (s : conn) : Z := our_max_tls_version (t_ssl s).
Definition our_min (s : conn) : Z := our_min_tls_version (t_ssl s).
Definition negotiated (s : conn) : Z := negotiated_tls_version (t_ssl s).
Definition option_set (s : conn) (op : Z) : bool := has (options (s_internal (t_ssl s))) op.

(** ** Building *)
(** A build function works on the connection and the store of the CBBs; a child CBB of [h] is the local
    variable at [S h]. *)
Definition B (A : Type) : Type := M (conn * store) A.
Definition cb {A} (m : M store A) : B A := fun '(c, s) => let '(a, s') := m s in (a, (c, s')).
Definition ask {A} (f : conn -> A) : B A := fun '(c, s) => (Some (f c), (c, s)).
Definition upd (f : conn -> conn) : B unit := fun '(c, s) => (Some tt, (f c, s)).
Definition on_conn {A} (m : State conn A) : B A := fun '(c, s) => let '(a, c) := m c in (Some a, (c, s)).
Definition build_fn : Type := Z -> addr -> B unit.
Definition needs_fn : Type := Z -> State conn bool.

Fixpoint add_u16s (h : addr) (l : list Z) : M store unit :=
  match l with [] => mret tt | v :: l => _ ← CBB_add_u16 h v; add_u16s h l end.

(** *** Application-layer protocol negotiation *)
Definition tlsext_alpn_client_needs : needs_fn := fun _ => gets (fun s => negb (is_NULL (alpn_client_proto_list s)) && (finished_len s =? 0)).
Definition tlsext_alpn_client_build : build_fn := fun _ h =>
  _ ← cb (CBB_add_u16_length_prefixed h (S h));
  l ← ask alpn_client_proto_list;
  _ ← cb (CBB_add_bytes (S h) (default [] l) (olen l));
  cb (CBB_flush h).
Definition tlsext_alpn_server_needs : needs_fn := fun _ => gets (fun s => negb (is_NULL (alpn_selected s))).
Definition tlsext_alpn_server_build : build_fn := fun _ h =>
  _ ← cb (CBB_add_u16_length_prefixed h (S h));
  _ ← cb (CBB_add_u8_length_prefixed (S h) (S (S h)));
  l ← ask alpn_selected;
  _ ← cb (CBB_add_bytes (S (S h)) (default [] l) (olen l));
  cb (CBB_flush h).

(** *** Supported groups *)
Definition tlsext_supportedgroups_client_needs : needs_fn := fun _ => gets (fun s => has_ecc_ciphers s || (TLS1_3_VERSION <=? our_max s)).
Definition tlsext_supportedgroups_client_build : build_fn := fun _ h =>
  groups ← ask (fun s => tls1_get_group_list s false);
  if zlen groups =? 0 then fail
  else
  _ ← cb (CBB_add_u16_length_prefixed h (S h));
  _ ← cb (add_u16s (S h) groups);
  cb (CBB_flush h).
Definition tlsext_supportedgroups_server_needs : needs_fn := fun _ => gets (fun _ => false).
Definition tlsext_supportedgroups_server_build : build_fn := fun _ _ => fail.

(** *** Point formats *)
Definition tlsext_ecpf_build : build_fn := fun _ h =>
  formats ← ask (fun s => tls1_get_formatlist s false);
  if zlen formats =? 0 then fail
  else
  _ ← cb (CBB_add_u8_length_prefixed h (S h));
  _ ← cb (CBB_add_bytes (S h) formats (zlen formats));
  cb (CBB_flush h).
Definition tlsext_ecpf_client_needs : needs_fn := fun _ => gets has_ecc_ciphers.
Definition tlsext_ecpf_client_build : build_fn := tlsext_ecpf_build.
Definition ssl_using_ecc_cipher (s : conn) : bool := negb (is_NULL (sess_formats s)) && (0 <? olen (sess_formats s)) && ecc_cipher s.
Definition tlsext_ecpf_server_needs : needs_fn := fun _ => gets ssl_using_ecc_cipher.
Definition tlsext_ecpf_server_build : build_fn := tlsext_ecpf_build.

(** *** Renegotiation indication *)
Definition tlsext_ri_client_needs : needs_fn := fun _ => gets renegotiate.
Definition tlsext_ri_client_build : build_fn := fun _ h =>
  _ ← cb (CBB_add_u8_length_prefixed h (S h));
  p ← ask previous_client_finished;
  _ ← cb (CBB_add_bytes (S h) p (zlen p));
  cb (CBB_flush h).
Definition tlsext_ri_server_needs : needs_fn := fun _ => gets (fun s => (negotiated s <? TLS1_3_VERSION) && send_connection_binding s).
Definition tlsext_ri_server_build : build_fn := fun _ h =>
  _ ← cb (CBB_add_u8_length_prefixed h (S h));
  p ← ask previous_client_finished;
  _ ← cb (CBB_add_bytes (S h) p (zlen p));
  q ← ask previous_server_finished;
  _ ← cb (CBB_add_bytes (S h) q (zlen q));
  cb (CBB_flush h).

(** *** Signature algorithms *)
Fixpoint sigalgs_loop (cbb : addr) (values : list Z) : M store unit :=
  match values with
  | [] => mret tt
  | v :: values =>
      if v =? SIGALG_RSA_PKCS1_MD5_SHA1 then fail
      else if existsb (fun x => x =? v) sigalgs then _ ← CBB_add_u16 cbb v; sigalgs_loop cbb values
      else fail
  end.
Definition ssl_sigalgs_build (cbb : addr) (values : list Z) : M store unit :=
  if zlen sigalgs <? zlen values then fail else sigalgs_loop cbb values.
Definition sigalgs_build (use13 : conn -> bool) (h : addr) : B unit :=
  b ← ask use13;
  _ ← cb (CBB_add_u16_length_prefixed h (S h));
  _ ← cb (ssl_sigalgs_build (S h) (if (b : bool) then tls13_sigalgs else tls12_sigalgs));
  cb (CBB_flush h).
Definition tlsext_sigalgs_client_needs : needs_fn := fun _ => gets (fun s => TLS1_2_VERSION <=? our_max s).
Definition tlsext_sigalgs_client_build : build_fn := fun _ => sigalgs_build (fun s => TLS1_3_VERSION <=? our_min s).
Definition tlsext_sigalgs_server_needs : needs_fn := fun _ => gets (fun s => TLS1_3_VERSION <=? negotiated s).
Definition tlsext_sigalgs_server_build : build_fn := fun _ => sigalgs_build (fun s => TLS1_3_VERSION <=? negotiated s).

(** *** Server name *)
Definition tlsext_sni_client_needs : needs_fn := fun _ => gets (fun s => negb (is_NULL (hostname s))).
Definition tlsext_sni_client_build : build_fn := fun _ h =>
  _ ← cb (CBB_add_u16_length_prefixed h (S h));
  _ ← cb (CBB_add_u8 (S h) TLSEXT_NAMETYPE_host_name);
  _ ← cb (CBB_add_u16_length_prefixed (S h) (S (S h)));
  n ← ask hostname;
  _ ← cb (CBB_add_bytes (S (S h)) (default [] n) (olen n));
  cb (CBB_flush h).
Definition tlsext_sni_server_needs : needs_fn := fun _ => gets (fun s => negb (hit s) && negb (is_NULL (sess_hostname s))).
Definition tlsext_sni_server_build : build_fn := fun _ _ => mret tt.

(** *** Certificate status *)
Definition tlsext_ocsp_client_needs : needs_fn := fun msg_type =>
  if negb (msg_type =? SSL_TLSEXT_MSG_CH) then mret false else gets (fun s => status_type s =? TLSEXT_STATUSTYPE_ocsp).
(** The space for an encoding is filled by [i2d_...]. *)
Fixpoint add_respids (h : addr) (ids : list respid_t) : M store unit :=
  match ids with
  | [] => mret tt
  | id :: ids =>
      match i2d_OCSP_RESPID id with
      | None => fail
      | Some der => _ ← CBB_add_u16_length_prefixed h (S h); _ ← CBB_add_bytes (S h) der (zlen der); add_respids h ids
      end
  end.
Definition tlsext_ocsp_client_build : build_fn := fun _ h =>
  _ ← cb (CBB_add_u8 h TLSEXT_STATUSTYPE_ocsp);
  _ ← cb (CBB_add_u16_length_prefixed h (S h));
  ids ← ask ocsp_ids;
  _ ← cb (add_respids (S h) (default [] ids));
  _ ← cb (CBB_add_u16_length_prefixed h (S h));
  exts ← ask ocsp_exts;
  match i2d_X509_EXTENSIONS exts with
  | None => fail
  | Some der => _ ← cb (CBB_add_bytes (S h) der (zlen der)); cb (CBB_flush h)
  end.
Definition tlsext_ocsp_server_needs : needs_fn := fun _ s =>
  let s :=
    match status_cb with
    | Some f =>
        if (TLS1_3_VERSION <=? negotiated s) && (status_type s =? TLSEXT_STATUSTYPE_ocsp) then
          let '(r, resp) := f s in
          let s := s<|ocsp_resp := resp|> in
          s<|status_expected := (r =? 0) && (0 <? olen resp)|>
        else s
    | None => s
    end in
  (status_expected s, s).
Definition tlsext_ocsp_server_build : build_fn := fun _ h =>
  v ← ask negotiated;
  if TLS1_3_VERSION <=? v then
    _ ← cb (CBB_add_u8 h TLSEXT_STATUSTYPE_ocsp);
    _ ← cb (CBB_add_u24_length_prefixed h (S h));
    r ← ask ocsp_resp;
    _ ← cb (CBB_add_bytes (S h) (default [] r) (olen r));
    cb (CBB_flush h)
  else mret tt.

(** *** Session ticket *)
Definition tlsext_sessionticket_client_needs : needs_fn := fun _ => gets (fun s =>
  if option_set s SSL_OP_NO_TICKET then false
  else if new_session s then true
  else match session_ticket s with Some None => false | _ => true end).
Definition tlsext_sessionticket_client_build : build_fn := fun _ h =>
  s ← ask id;
  if new_session s || negb (sess s) then mret tt
  else
  _ ← (match sess_tick s with
      | Some t => cb (CBB_add_bytes h t (zlen t))
      | None =>
          match session_ticket s with
          | Some d =>
              if 0 <? olen d then
                if malloc_ok (olen d) then _ ← upd (fun s => s<|sess_tick := Some (default [] d)|>); cb (CBB_add_bytes h (default [] d) (olen d)) else fail
              else mret tt
          | None => mret tt
          end
      end : B unit);
  cb (CBB_flush h).
Definition tlsext_sessionticket_server_needs : needs_fn := fun _ => gets (fun s => ticket_expected s && negb (option_set s SSL_OP_NO_TICKET)).
Definition tlsext_sessionticket_server_build : build_fn := fun _ _ => mret tt.

(** *** SRTP profiles *)
Definition tlsext_srtp_client_needs : needs_fn := fun _ => gets (fun s => SSL_is_dtls (t_ssl s) && negb (is_NULL (srtp_profiles s))).
Definition tlsext_srtp_client_build : build_fn := fun _ h =>
  clnt ← ask srtp_profiles;
  match clnt with
  | None => fail
  | Some clnt =>
      if zlen clnt <? 1 then fail
      else
      _ ← cb (CBB_add_u16_length_prefixed h (S h));
      _ ← cb (add_u16s (S h) clnt);
      _ ← cb (CBB_add_u8_length_prefixed h (S h));
      cb (CBB_flush h)
  end.
Definition tlsext_srtp_server_needs : needs_fn := fun _ => gets (fun s => SSL_is_dtls (t_ssl s) && negb (is_NULL (srtp_profile s))).
Definition tlsext_srtp_server_build : build_fn := fun _ h =>
  _ ← cb (CBB_add_u16_length_prefixed h (S h));
  p ← ask srtp_profile;
  match p with
  | None => fail
  | Some id =>
      _ ← cb (CBB_add_u16 (S h) id);
      _ ← cb (CBB_add_u8_length_prefixed h (S h));
      cb (CBB_flush h)
  end.

(** *** Key share *)
Definition tlsext_keyshare_client_needs : needs_fn := fun _ => gets (fun s => TLS1_3_VERSION <=? our_max s).
Definition tlsext_keyshare_client_build : build_fn := fun _ h =>
  _ ← cb (CBB_add_u16_length_prefixed h (S h));
  ks ← ask key_share;
  _ ← (match ks with None => fail | Some ks => cb (tls13_key_share_public ks (S h)) end : B unit);
  cb (CBB_flush h).

(** *** Supported versions *)
Definition tlsext_versions_client_needs : needs_fn := fun _ => gets (fun s => TLS1_3_VERSION <=? our_max s).
(** [for (version = max; version >= min; version--)]; a minimum of 0 would make the loop endless, any other one ends it
    within [max] passes. *)
Fixpoint add_versions (fuel : nat) (h : addr) (min version : Z) : M store unit :=
  match fuel with
  | O => fail
  | S fuel => if version <? min then mret tt else _ ← CBB_add_u16 h version; add_versions fuel h min (wrap16 (version - 1))
  end.
Definition tlsext_versions_client_build : build_fn := fun _ h =>
  max ← ask our_max;
  min ← ask our_min;
  _ ← cb (CBB_add_u8_length_prefixed h (S h));
  _ ← cb (add_versions (S (Z.to_nat max)) (S h) min max);
  cb (CBB_flush h).
Definition tlsext_versions_server_needs : needs_fn := fun _ => gets (fun s => TLS1_3_VERSION <=? negotiated s).
Definition tlsext_versions_server_build : build_fn := fun _ h => cb (CBB_add_u16 h TLS1_3_VERSION).

(** *** Cookie *)
Definition tlsext_cookie_client_needs : needs_fn := fun _ => gets (fun s => (TLS1_3_VERSION <=? our_max s) && (0 <? olen (cookie s)) && negb (is_NULL (cookie s))).
Definition cookie_build (h : addr) : B unit :=
  _ ← cb (CBB_add_u16_length_prefixed h (S h));
  k ← ask cookie;
  _ ← cb (CBB_add_bytes (S h) (default [] k) (olen k));
  cb (CBB_flush h).
Definition tlsext_cookie_client_build : build_fn := fun _ => cookie_build.
Definition tlsext_cookie_server_needs : needs_fn := tlsext_cookie_client_needs.
Definition tlsext_cookie_server_build : build_fn := fun _ => cookie_build.
Definition tlsext_keyshare_server_build : build_fn := fun _ h =>
  s ← ask id;
  if hrr s then if server_group s =? 0 then fail else cb (CBB_add_u16 h (server_group s))
  else match key_share s with None => fail | Some ks => cb (tls13_key_share_public ks h) end.

(** ** Parsing *)
(** A parse function works on the connection, the CBS it is given and [*alert].  Its body leaves by [return] or by
    [goto err], where [func] sets the alert that the function sets at its label. *)
Record pst := mkPst { p_conn : conn; p_cbs : CBS; p_alert : Z }.
Inductive exit := Return (ok : bool) | Goto_err.
Definition P (A : Type) : Type := pst -> (exit + A) * pst.
#[global] Instance P_ret : MRet P := fun A a st => (inr a, st).
#[global] Instance P_bind : MBind P := fun A B f m st => match m st with (inr a, st) => f a st | (inl e, st) => (inl e, st) end.
Definition with_alert (al : Z) (st : pst) : pst := mkPst (p_conn st) (p_cbs st) al.
Definition func (al : option Z) (m : P unit) : M pst unit := fun st =>
  match m st with
  | (inr _, st) | (inl (Return true), st) => (Some tt, st)
  | (inl (Return false), st) => (None, st)
  | (inl Goto_err, st) => (None, match al with Some al => with_alert al st | None => st end)
  end.
Definition parse_fn : Type := Z -> M pst unit.

Definition err {A} : P A := fun st => (inl Goto_err, st).
Definition ret {A} (ok : bool) : P A := fun st => (inl (Return ok), st).
Definition ret_alert {A} (al : Z) : P A := fun st => (inl (Return false), with_alert al st).
Definition unless (b : bool) : P unit := if b then err else mret tt.
Definition seen {A} (f : conn -> A) : P A := fun st => (inr (f (p_conn st)), st).
Definition store_ (f : conn -> conn) : P unit := fun st => (inr tt, mkPst (f (p_conn st)) (p_cbs st) (p_alert st)).
(** Reading from the CBS of the function, and from a local one. *)
Definition rd_ {A} (m : M CBS A) : P A := fun st =>
  match m (p_cbs st) with (Some a, c) => (inr a, mkPst (p_conn st) c (p_alert st)) | (None, c) => (inl Goto_err, mkPst (p_conn st) c (p_alert st)) end.
Definition sub {A} (m : M CBS A) (c : CBS) : P (A * CBS) := fun st =>
  match m c with (Some a, c) => (inr (a, c), st) | (None, _) => (inl Goto_err, st) end.
Definition left_ : P Z := fun st => (inr (CBS_len (p_cbs st)), st).
(** [CBS_stow(cbs, &field, ...)]: the old contents are released first. *)
Definition stow (cbs : CBS) (set : option (list Z) -> conn -> conn) : P bool := fun st =>
  match CBS_stow cbs with
  | Some (d, _) => (inr true, mkPst (set d (p_conn st)) (p_cbs st) (p_alert st))
  | None => (inr false, mkPst (set None (p_conn st)) (p_cbs st) (p_alert st))
  end.
(** The fuel of a loop over a CBS: every pass reads a byte at least. *)
Definition fuel_of (c : CBS) : nat := S (Z.to_nat (CBS_len c)).

(** *** Application-layer protocol negotiation *)
Fixpoint proto_names (fuel : nat) (c : CBS) : P unit :=
  match fuel with
  | O => err
  | S fuel =>
      if 0 <? CBS_len c then
        '(n, c) ← sub CBS_get_u8_length_prefixed c;
        _ ← unless (CBS_len n =? 0);
        proto_names fuel c
      else mret tt
  end.
Definition tlsext_alpn_server_parse : parse_fn := fun _ => func (Some SSL_AD_DECODE_ERROR) (
  alpn ← rd_ CBS_get_u16_length_prefixed;
  _ ← unless (CBS_len alpn <? 2);
  n ← left_; _ ← unless (negb (n =? 0));
  _ ← proto_names (fuel_of alpn) (CBS_dup alpn);
  match alpn_select_cb with
  | None => ret true
  | Some f =>
      r ← seen (fun s => f s (ztake (CBS_len alpn) (CBS_data alpn)));
      match r with
      | Some selected =>
          if malloc_ok (zlen selected) then store_ (fun s => s<|alpn_selected := Some selected|>)
          else _ ← store_ (fun s => s<|alpn_selected := None|>); ret_alert SSL_AD_INTERNAL_ERROR
      | None => mret tt
      end
  end).
Definition tlsext_alpn_client_parse : parse_fn := fun _ => func (Some SSL_AD_DECODE_ERROR) (
  l ← seen alpn_client_proto_list;
  if is_NULL l then ret_alert TLS1_AD_UNSUPPORTED_EXTENSION
  else
  list_ ← rd_ CBS_get_u16_length_prefixed;
  n ← left_; _ ← unless (negb (n =? 0));
  '(proto, list_) ← sub CBS_get_u8_length_prefixed list_;
  _ ← unless (negb (CBS_len list_ =? 0));
  _ ← unless (CBS_len proto =? 0);
  b ← stow proto (fun d s => s<|alpn_selected := d|>);
  unless (negb b)).

(** *** Supported groups *)
Fixpoint get_u16s (n : nat) (c : CBS) : P (list Z * CBS) :=
  match n with
  | O => mret ([], c)
  | S n => '(v, c) ← sub CBS_get_u16 c; '(l, c) ← get_u16s n c; mret (v :: l, c)
  end.
Fixpoint same_groups (l : list Z) (c : CBS) : P unit :=
  match l with
  | [] => mret tt
  | g :: l => '(v, c) ← sub CBS_get_u16 c; if negb (g =? v) then ret_alert SSL_AD_ILLEGAL_PARAMETER else same_groups l c
  end.
Definition tlsext_supportedgroups_server_parse : parse_fn := fun _ => func (Some SSL_AD_DECODE_ERROR) (
  grouplist ← rd_ CBS_get_u16_length_prefixed;
  n ← left_; _ ← unless (negb (n =? 0));
  let groups_len := CBS_len grouplist in
  _ ← unless ((groups_len =? 0) || negb (groups_len mod 2 =? 0));
  let groups_len := groups_len / 2 in
  s ← seen id;
  if negb (hit s) then
    if hrr s then
      match sess_groups s with
      | None => ret_alert SSL_AD_HANDSHAKE_FAILURE
      | Some l =>
          if negb (groups_len =? zlen l) then ret_alert SSL_AD_ILLEGAL_PARAMETER
          else _ ← same_groups l grouplist; ret true
      end
    else
    _ ← unless (negb (is_NULL (sess_groups s)));
    if negb (malloc_ok (groups_len * 2)) then ret_alert SSL_AD_INTERNAL_ERROR
    else
    '(groups, grouplist) ← get_u16s (Z.to_nat groups_len) grouplist;
    _ ← unless (negb (CBS_len grouplist =? 0));
    store_ (fun s => s<|sess_groups := Some groups|>)
  else mret tt).
(** Servers should not send it, but some do; its contents are skipped. *)
Definition tlsext_supportedgroups_client_parse : parse_fn := fun _ => func (Some SSL_AD_INTERNAL_ERROR) (n ← left_; rd_ (CBS_skip n)).

(** *** Point formats *)
Definition tlsext_ecpf_parse : parse_fn := fun _ => func (Some SSL_AD_DECODE_ERROR) (
  ecpf ← rd_ CBS_get_u8_length_prefixed;
  _ ← unless (CBS_len ecpf =? 0);
  n ← left_; _ ← unless (negb (n =? 0));
  _ ← unless (negb (CBS_contains_zero_byte ecpf));
  h ← seen hit;
  if negb h then
    b ← stow ecpf (fun d s => s<|sess_formats := d|>);
    if (b : bool) then mret tt else ret_alert SSL_AD_INTERNAL_ERROR
  else mret tt).
Definition tlsext_ecpf_server_parse : parse_fn := tlsext_ecpf_parse.
Definition tlsext_ecpf_client_parse : parse_fn := tlsext_ecpf_parse.

(** *** Renegotiation indication *)
Definition tlsext_ri_server_parse : parse_fn := fun _ => func (Some SSL_AD_DECODE_ERROR) (
  reneg ← rd_ CBS_get_u8_length_prefixed;
  n ← left_; _ ← unless (negb (n =? 0));
  p ← seen previous_client_finished;
  if negb (CBS_mem_equal reneg p (zlen p)) then ret_alert SSL_AD_HANDSHAKE_FAILURE
  else store_ (fun s => s<|renegotiate_seen := true|><|send_connection_binding := true|>)).
Definition tlsext_ri_client_parse : parse_fn := fun _ => func (Some SSL_AD_DECODE_ERROR) (
  p ← seen previous_client_finished;
  q ← seen previous_server_finished;
  if ((zlen p =? 0) && negb (zlen q =? 0)) || (negb (zlen p =? 0) && (zlen q =? 0)) then ret_alert SSL_AD_INTERNAL_ERROR
  else
  reneg ← rd_ CBS_get_u8_length_prefixed;
  '(prev_client, reneg) ← sub (CBS_get_bytes (zlen p)) reneg;
  '(prev_server, reneg) ← sub (CBS_get_bytes (zlen q)) reneg;
  _ ← unless (negb (CBS_len reneg =? 0));
  n ← left_; _ ← unless (negb (n =? 0));
  if negb (CBS_mem_equal prev_client p (zlen p)) then ret_alert SSL_AD_HANDSHAKE_FAILURE
  else if negb (CBS_mem_equal prev_server q (zlen q)) then ret_alert SSL_AD_HANDSHAKE_FAILURE
  else store_ (fun s => s<|renegotiate_seen := true|><|send_connection_binding := true|>)).

(** *** Signature algorithms *)
Definition sigalgs_parse : P unit :=
  sigs ← rd_ CBS_get_u16_length_prefixed;
  _ ← unless (negb (CBS_len sigs mod 2 =? 0) || (64 <? CBS_len sigs));
  b ← stow sigs (fun d s => s<|hs_sigalgs := d|>);
  unless (negb b).
Definition tlsext_sigalgs_server_parse : parse_fn := fun _ => func None sigalgs_parse.
Definition tlsext_sigalgs_client_parse : parse_fn := fun _ => func None (
  v ← seen (fun s => ssl_effective_tls_version (t_ssl s));
  if v <? TLS1_3_VERSION then ret false else sigalgs_parse).

(** *** Server name *)
Definition isalnum (c : Z) : bool := ((48 <=? c) && (c <=? 57)) || ((65 <=? c) && (c <=? 90)) || ((97 <=? c) && (c <=? 122)).
Definition DASH : Z := 45.
Definition DOT : Z := 46.
(** The loop over the bytes of the name: [prev] is the byte before, [component] the length of the current label. *)
Fixpoint hostname_loop (l : list Z) (prev component : Z) : bool :=
  match l with
  | [] => true
  | c :: l =>
      if (128 <=? c) || (c =? 0) then false
      else if negb (isalnum c) && negb (c =? DASH) && negb (c =? DOT) then false
      else if ((component =? 0) || match l with [] => true | _ => false end) && ((c =? DASH) || (c =? DOT)) then false
      else if c =? DOT then if prev =? DASH then false else hostname_loop l c 0
      else if 63 <? component + 1 then false
      else hostname_loop l c (component + 1)
  end.
Definition tlsext_sni_is_valid_hostname (cbs : CBS) : bool :=
  if TLSEXT_MAXLEN_host_name <? CBS_len cbs then false else hostname_loop (ztake (CBS_len cbs) (CBS_data cbs)) 0 0.
Definition tlsext_sni_server_parse : parse_fn := fun _ => func None (
  server_name_list ← rd_ CBS_get_u16_length_prefixed;
  '(name_type, server_name_list) ← sub CBS_get_u8 server_name_list;
  if negb (name_type =? TLSEXT_NAMETYPE_host_name) then ret_alert SSL_AD_ILLEGAL_PARAMETER
  else
  '(host_name, server_name_list) ← sub CBS_get_u16_length_prefixed server_name_list;
  _ ← unless (CBS_len host_name <? 1);
  if negb (tlsext_sni_is_valid_hostname host_name) then ret_alert SSL_AD_ILLEGAL_PARAMETER
  else
  s ← seen id;
  _ ← (if hit s || hrr s then
         match sess_hostname s with
         | None => ret_alert TLS1_AD_UNRECOGNIZED_NAME
         | Some n => if negb (CBS_mem_equal host_name n (zlen n)) then ret_alert TLS1_AD_UNRECOGNIZED_NAME else mret tt
         end
       else
         _ ← unless (negb (is_NULL (sess_hostname s)));
         match CBS_strdup host_name with
         | None => ret_alert SSL_AD_INTERNAL_ERROR
         | Some n => store_ (fun s => s<|sess_hostname := Some n|>)
         end : P unit);
  if negb (CBS_len server_name_list =? 0) then ret_alert SSL_AD_ILLEGAL_PARAMETER
  else n ← left_; unless (negb (n =? 0))).
Definition tlsext_sni_client_parse : parse_fn := fun _ => func None (
  n ← left_;
  s ← seen id;
  match hostname s with
  | None => ret_alert TLS1_AD_UNRECOGNIZED_NAME
  | Some name =>
      if negb (n =? 0) then ret_alert TLS1_AD_UNRECOGNIZED_NAME
      else if hit s then
        match sess_hostname s with
        | None => ret_alert TLS1_AD_UNRECOGNIZED_NAME
        | Some name' => if negb (bytes_eqb name name') then ret_alert TLS1_AD_UNRECOGNIZED_NAME else mret tt
        end
      else if negb (is_NULL (sess_hostname s)) then ret_alert SSL_AD_DECODE_ERROR
      else if malloc_ok (zlen name + 1) then store_ (fun s => s<|sess_hostname := Some name|>) else ret_alert SSL_AD_INTERNAL_ERROR
  end).

(** *** Certificate status *)
Fixpoint respid_loop (fuel : nat) (c : CBS) : P unit :=
  match fuel with
  | O => err
  | S fuel =>
      if 0 <? CBS_len c then
        '(respid, c) ← sub CBS_get_u16_length_prefixed c;
        match d2i_OCSP_RESPID (ztake (CBS_len respid) (CBS_data respid)) with
        | None => err
        | Some id =>
            ids ← seen (fun s => default [] (ocsp_ids s));
            if sk_push_ok (length ids) then _ ← store_ (fun s => s<|ocsp_ids := Some (ids ++ [id])|>); respid_loop fuel c
            else ret_alert SSL_AD_INTERNAL_ERROR
        end
      else mret tt
  end.
Definition tlsext_ocsp_server_parse : parse_fn := fun msg_type => func (Some SSL_AD_DECODE_ERROR) (
  _ ← unless (negb (msg_type =? SSL_TLSEXT_MSG_CH));
  status ← rd_ CBS_get_u8;
  if negb (status =? TLSEXT_STATUSTYPE_ocsp) then
    _ ← store_ (fun s => s<|status_type := -1|>);
    n ← left_; rd_ (CBS_skip n)
  else
  _ ← store_ (fun s => s<|status_type := status|>);
  respid_list ← rd_ CBS_get_u16_length_prefixed;
  _ ← store_ (fun s => s<|ocsp_ids := None|>);
  _ ← (if 0 <? CBS_len respid_list then
         if sk_new_ok then store_ (fun s => s<|ocsp_ids := Some []|>) else ret_alert SSL_AD_INTERNAL_ERROR
       else mret tt : P unit);
  _ ← respid_loop (fuel_of respid_list) respid_list;
  exts ← rd_ CBS_get_u16_length_prefixed;
  _ ← (if 0 <? CBS_len exts then
         let e := d2i_X509_EXTENSIONS (ztake (CBS_len exts) (CBS_data exts)) in
         _ ← store_ (fun s => s<|ocsp_exts := e|>);
         unless (is_NULL e)
       else mret tt : P unit);
  n ← left_; unless (0 <? n)).
Definition tlsext_ocsp_client_parse : parse_fn := fun msg_type => func None (
  v ← seen (fun s => ssl_effective_tls_version (t_ssl s));
  if TLS1_3_VERSION <=? v then
    if msg_type =? SSL_TLSEXT_MSG_CR then n ← left_; ret (n =? 0)
    else
    status ← rd_ CBS_get_u8;
    _ ← unless (negb (status =? TLSEXT_STATUSTYPE_ocsp));
    response ← rd_ CBS_get_u24_length_prefixed;
    _ ← unless (65536 <? CBS_len response);
    b ← stow response (fun d s => s<|ocsp_resp := d|>);
    if (b : bool) then mret tt else ret_alert SSL_AD_INTERNAL_ERROR
  else
  t ← seen status_type;
  if t =? -1 then ret_alert TLS1_AD_UNSUPPORTED_EXTENSION
  else store_ (fun s => s<|status_expected := true|>)).

(** *** Session ticket *)
Definition ticket_cb : P unit :=
  st ← (fun st => (inr st, st) : (exit + pst) * pst);
  match session_ticket_ext_cb with
  | Some f => if f (ztake (CBS_len (p_cbs st)) (CBS_data (p_cbs st))) then mret tt else ret_alert SSL_AD_INTERNAL_ERROR
  | None => mret tt
  end.
Definition tlsext_sessionticket_server_parse : parse_fn := fun _ => func (Some SSL_AD_INTERNAL_ERROR) (_ ← ticket_cb; n ← left_; rd_ (CBS_skip n)).
Definition tlsext_sessionticket_client_parse : parse_fn := fun _ => func None (
  _ ← ticket_cb;
  n ← left_;
  no_ticket ← seen (fun s => option_set s SSL_OP_NO_TICKET);
  if no_ticket || (0 <? n) then ret_alert TLS1_AD_UNSUPPORTED_EXTENSION
  else store_ (fun s => s<|ticket_expected := true|>)).

(** *** SRTP profiles *)
(** The known profiles among those of the client. *)
Fixpoint srtp_loop (fuel : nat) (c : CBS) (clnt : list Z) : P (list Z) :=
  match fuel with
  | O => err
  | S fuel =>
      if 0 <? CBS_len c then
        '(id, c) ← sub CBS_get_u16 c;
        if existsb (fun x => x =? id) srtp_known_profiles then
          _ ← unless (negb (sk_push_ok (length clnt))); srtp_loop fuel c (clnt ++ [id])
        else srtp_loop fuel c clnt
      else mret clnt
  end.
Definition tlsext_srtp_server_parse : parse_fn := fun _ => func (Some SSL_AD_DECODE_ERROR) (
  profiles ← rd_ CBS_get_u16_length_prefixed;
  _ ← unless ((CBS_len profiles =? 0) || negb (CBS_len profiles mod 2 =? 0));
  _ ← unless (negb sk_new_ok);
  clnt ← srtp_loop (fuel_of profiles) profiles [];
  mki ← rd_ CBS_get_u8_length_prefixed;
  _ ← unless (negb (CBS_len mki =? 0));
  n ← left_; _ ← unless (negb (n =? 0));
  srvr ← seen srtp_profiles;
  match srvr with
  | None => err
  | Some srvr =>
      match List.find (fun sprof => existsb (fun cprof => cprof =? sprof) clnt) srvr with
      | Some sprof => store_ (fun s => s<|srtp_profile := Some sprof|>)
      | None => mret tt
      end
  end).
Definition tlsext_srtp_client_parse : parse_fn := fun _ => func (Some SSL_AD_DECODE_ERROR) (
  profile_ids ← rd_ CBS_get_u16_length_prefixed;
  '(id, profile_ids) ← sub CBS_get_u16 profile_ids;
  _ ← unless (negb (CBS_len profile_ids =? 0));
  st ← (fun st => (inr st, st) : (exit + pst) * pst);
  match CBS_get_u8_length_prefixed (p_cbs st) with
  | (None, _) => ret_alert SSL_AD_ILLEGAL_PARAMETER
  | (Some mki, _) =>
      if negb (CBS_len mki =? 0) then ret_alert SSL_AD_ILLEGAL_PARAMETER
      else
      _ ← rd_ CBS_get_u8_length_prefixed;
      clnt ← seen srtp_profiles;
      match clnt with
      | None => err
      | Some clnt =>
          if existsb (fun prof => prof =? id) clnt then store_ (fun s => s<|srtp_profile := Some id|>) else err
      end
  end).

(** *** Key share *)
Fixpoint share_loop (fuel : nat) (c : CBS) : P unit :=
  match fuel with
  | O => err
  | S fuel =>
      if 0 <? CBS_len c then
        '(group, c) ← sub CBS_get_u16 c;
        match CBS_get_u16_length_prefixed c with
        | (None, _) => ret false
        | (Some key_exchange, c) =>
            s ← seen id;
            if our_max s <? TLS1_3_VERSION then share_loop fuel c
            else if negb (is_NULL (key_share s)) then share_loop fuel c
            else if negb (tls1_check_curve s group) then share_loop fuel c
            else
            let ks := tls13_key_share_new group in
            _ ← store_ (fun s => s<|key_share := ks|>);
            match ks with
            | None => err
            | Some ks =>
                match tls13_key_share_peer_public ks group key_exchange with
                | None => err
                | Some ks => _ ← store_ (fun s => s<|key_share := Some ks|>); share_loop fuel c
                end
            end
        end
      else mret tt
  end.
Definition tlsext_keyshare_server_parse : parse_fn := fun _ => func (Some SSL_AD_DECODE_ERROR) (
  client_shares ← rd_ CBS_get_u16_length_prefixed;
  share_loop (fuel_of client_shares) client_shares).
Definition tlsext_keyshare_client_parse : parse_fn := fun _ => func (Some SSL_AD_DECODE_ERROR) (
  group ← rd_ CBS_get_u16;
  n ← left_;
  if n =? 0 then _ ← store_ (fun s => s<|server_group := group|>); ret true
  else
  st ← (fun st => (inr st, st) : (exit + pst) * pst);
  match CBS_get_u16_length_prefixed (p_cbs st) with
  | (None, _) => ret false
  | (Some key_exchange, _) =>
      _ ← rd_ CBS_get_u16_length_prefixed;
      match key_share (p_conn st) with
      | None => ret false
      | Some ks =>
          match tls13_key_share_peer_public ks group key_exchange with
          | None => err
          | Some ks => store_ (fun s => s<|key_share := Some ks|>)
          end
      end
  end).

(** *** Supported versions *)
Fixpoint versions_loop (fuel : nat) (c : CBS) (min max matched_version : Z) : P Z :=
  match fuel with
  | O => err
  | S fuel =>
      if 0 <? CBS_len c then
        '(version, c) ← sub CBS_get_u16 c;
        versions_loop fuel c min max
          (if (matched_version =? 0) && (min <=? version) && (version <=? max) then version else matched_version)
      else mret matched_version
  end.
Definition tlsext_versions_server_parse : parse_fn := fun _ => func (Some SSL_AD_DECODE_ERROR) (
  s ← seen id;
  versions ← rd_ CBS_get_u8_length_prefixed;
  matched_version ← versions_loop (fuel_of versions) versions (our_min s) (our_max s) 0;
  if 0 <? matched_version then store_ (fun s => s<|t_ssl := set_version matched_version (t_ssl s)|>)
  else ret_alert SSL_AD_PROTOCOL_VERSION).
Definition tlsext_versions_client_parse : parse_fn := fun _ => func (Some SSL_AD_DECODE_ERROR) (
  selected_version ← rd_ CBS_get_u16;
  if selected_version <? TLS1_3_VERSION then ret_alert SSL_AD_ILLEGAL_PARAMETER
  else store_ (fun s => s<|server_version := selected_version|>)).

(** *** Cookie *)
Definition tlsext_cookie_server_parse : parse_fn := fun _ => func (Some SSL_AD_DECODE_ERROR) (
  c ← rd_ CBS_get_u16_length_prefixed;
  k ← seen cookie;
  _ ← unless (negb (CBS_len c =? olen k));
  if negb (CBS_mem_equal c (default [] k) (olen k)) then ret_alert SSL_AD_ILLEGAL_PARAMETER else mret tt).
Definition tlsext_cookie_client_parse : parse_fn := fun _ => func (Some SSL_AD_DECODE_ERROR) (
  k ← seen cookie;
  if negb (is_NULL k) || negb (olen k =? 0) then ret_alert SSL_AD_ILLEGAL_PARAMETER
  else
  c ← rd_ CBS_get_u16_length_prefixed;
  b ← stow c (fun d s => s<|cookie := d|>);
  unless (negb b)).

(** ** The table *)
(** The types of the table's rows, which the key share extension looks up while the table names its functions. *)
Definition tls_extension_types : list Z := [
  TLSEXT_TYPE_supported_versions; TLSEXT_TYPE_key_share; TLSEXT_TYPE_server_name; TLSEXT_TYPE_renegotiate; TLSEXT_TYPE_status_request;
  TLSEXT_TYPE_ec_point_formats; TLSEXT_TYPE_supported_groups; TLSEXT_TYPE_session_ticket; TLSEXT_TYPE_signature_algorithms;
  TLSEXT_TYPE_application_layer_protocol_negotiation; TLSEXT_TYPE_cookie; TLSEXT_TYPE_use_srtp].
Fixpoint find_idx (type : Z) (l : list Z) (i : nat) : option nat :=
  match l with [] => None | t :: l => if t =? type then Some i else find_idx type l (S i) end.
(** The index of the row. *)
Definition tls_extension_find (type : Z) : option nat := find_idx type tls_extension_types 0.
Definition tlsext_extension_seen (s : conn) (type : Z) : bool :=
  match tls_extension_find type with
  | None => false
  | Some idx => negb (Z.land (extensions_seen s) (Z.shiftl 1 (Z.of_nat idx)) =? 0)
  end.
Definition tlsext_keyshare_server_needs : needs_fn := fun _ =>
  gets (fun s => (TLS1_3_VERSION <=? negotiated s) && tlsext_extension_seen s TLSEXT_TYPE_key_share).

Record tls_extension_funcs := mkFuncs { needs : needs_fn; build : build_fn; parse : parse_fn }.
Record tls_extension := mkExt { ext_type : Z; ext_messages : Z; ext_client : tls_extension_funcs; ext_server : tls_extension_funcs }.
Definition tls_extensions : list tls_extension := [
  mkExt TLSEXT_TYPE_supported_versions (Z.lor (Z.lor SSL_TLSEXT_MSG_CH SSL_TLSEXT_MSG_SH) SSL_TLSEXT_MSG_HRR)
    (mkFuncs tlsext_versions_client_needs tlsext_versions_client_build tlsext_versions_client_parse)
    (mkFuncs tlsext_versions_server_needs tlsext_versions_server_build tlsext_versions_server_parse);
  mkExt TLSEXT_TYPE_key_share (Z.lor (Z.lor SSL_TLSEXT_MSG_CH SSL_TLSEXT_MSG_SH) SSL_TLSEXT_MSG_HRR)
    (mkFuncs tlsext_keyshare_client_needs tlsext_keyshare_client_build tlsext_keyshare_client_parse)
    (mkFuncs tlsext_keyshare_server_needs tlsext_keyshare_server_build tlsext_keyshare_server_parse);
  mkExt TLSEXT_TYPE_server_name (Z.lor SSL_TLSEXT_MSG_CH SSL_TLSEXT_MSG_EE)
    (mkFuncs tlsext_sni_client_needs tlsext_sni_client_build tlsext_sni_client_parse)
    (mkFuncs tlsext_sni_server_needs tlsext_sni_server_build tlsext_sni_server_parse);
  mkExt TLSEXT_TYPE_renegotiate (Z.lor SSL_TLSEXT_MSG_CH SSL_TLSEXT_MSG_SH)
    (mkFuncs tlsext_ri_client_needs tlsext_ri_client_build tlsext_ri_client_parse)
    (mkFuncs tlsext_ri_server_needs tlsext_ri_server_build tlsext_ri_server_parse);
  mkExt TLSEXT_TYPE_status_request (Z.lor (Z.lor SSL_TLSEXT_MSG_CH SSL_TLSEXT_MSG_CR) SSL_TLSEXT_MSG_CT)
    (mkFuncs tlsext_ocsp_client_needs tlsext_ocsp_client_build tlsext_ocsp_client_parse)
    (mkFuncs tlsext_ocsp_server_needs tlsext_ocsp_server_build tlsext_ocsp_server_parse);
  mkExt TLSEXT_TYPE_ec_point_formats (Z.lor SSL_TLSEXT_MSG_CH SSL_TLSEXT_MSG_SH)
    (mkFuncs tlsext_ecpf_client_needs tlsext_ecpf_client_build tlsext_ecpf_client_parse)
    (mkFuncs tlsext_ecpf_server_needs tlsext_ecpf_server_build tlsext_ecpf_server_parse);
  mkExt TLSEXT_TYPE_supported_groups (Z.lor SSL_TLSEXT_MSG_CH SSL_TLSEXT_MSG_EE)
    (mkFuncs tlsext_supportedgroups_client_needs tlsext_supportedgroups_client_build tlsext_supportedgroups_client_parse)
    (mkFuncs tlsext_supportedgroups_server_needs tlsext_supportedgroups_server_build tlsext_supportedgroups_server_parse);
  mkExt TLSEXT_TYPE_session_ticket (Z.lor SSL_TLSEXT_MSG_CH SSL_TLSEXT_MSG_SH)
    (mkFuncs tlsext_sessionticket_client_needs tlsext_sessionticket_client_build tlsext_sessionticket_client_parse)
    (mkFuncs tlsext_sessionticket_server_needs tlsext_sessionticket_server_build tlsext_sessionticket_server_parse);
  mkExt TLSEXT_TYPE_signature_algorithms (Z.lor SSL_TLSEXT_MSG_CH SSL_TLSEXT_MSG_CR)
    (mkFuncs tlsext_sigalgs_client_needs tlsext_sigalgs_client_build tlsext_sigalgs_client_parse)
    (mkFuncs tlsext_sigalgs_server_needs tlsext_sigalgs_server_build tlsext_sigalgs_server_parse);
  mkExt TLSEXT_TYPE_application_layer_protocol_negotiation (Z.lor SSL_TLSEXT_MSG_CH SSL_TLSEXT_MSG_EE)
    (mkFuncs tlsext_alpn_client_needs tlsext_alpn_client_build tlsext_alpn_client_parse)
    (mkFuncs tlsext_alpn_server_needs tlsext_alpn_server_build tlsext_alpn_server_parse);
  mkExt TLSEXT_TYPE_cookie (Z.lor SSL_TLSEXT_MSG_CH SSL_TLSEXT_MSG_HRR)
    (mkFuncs tlsext_cookie_client_needs tlsext_cookie_client_build tlsext_cookie_client_parse)
    (mkFuncs tlsext_cookie_server_needs tlsext_cookie_server_build tlsext_cookie_server_parse);
  mkExt TLSEXT_TYPE_use_srtp (Z.lor (Z.lor SSL_TLSEXT_MSG_CH SSL_TLSEXT_MSG_SH) SSL_TLSEXT_MSG_EE)
    (mkFuncs tlsext_srtp_client_needs tlsext_srtp_client_build tlsext_srtp_client_parse)
    (mkFuncs tlsext_srtp_server_needs tlsext_srtp_server_build tlsext_srtp_server_parse)].

Definition tlsext_funcs (tlsext : tls_extension) (is_server : bool) : tls_extension_funcs :=
  if is_server then ext_server tlsext else ext_client tlsext.
(** RFC 8446, section 4.2: in TLSv1.3 an extension may only be in the messages of its row. *)
Definition misplaced (tls_version : Z) (tlsext : tls_extension) (msg_type : Z) : bool :=
  (TLS1_3_VERSION <=? tls_version) && (Z.land (ext_messages tlsext) msg_type =? 0).

(** ** Building the block *)
(** The loop over the table: is any extension present? [h] is the CBB of the extensions. *)
Fixpoint build_loop (l : list tls_extension) (is_server : bool) (msg_type tls_version : Z) (h : addr) (present : bool) : B bool :=
  match l with
  | [] => mret present
  | tlsext :: l =>
      let ext := tlsext_funcs tlsext is_server in
      if misplaced tls_version tlsext msg_type then build_loop l is_server msg_type tls_version h present
      else
      n ← on_conn (needs ext msg_type);
      if negb (n : bool) then build_loop l is_server msg_type tls_version h present
      else
      _ ← cb (CBB_add_u16 h (ext_type tlsext));
      _ ← cb (CBB_add_u16_length_prefixed h (S h));
      _ ← build ext msg_type (S h);
      build_loop l is_server msg_type tls_version h true
  end.
Definition tlsext_build (is_server : bool) (msg_type : Z) (h : addr) : B unit :=
  tls_version ← ask (fun s => ssl_effective_tls_version (t_ssl s));
  _ ← cb (CBB_add_u16_length_prefixed h (S h));
  present ← build_loop tls_extensions is_server msg_type tls_version (S h) false;
  _ ← (if negb present && negb (Z.land msg_type (Z.lor SSL_TLSEXT_MSG_CH SSL_TLSEXT_MSG_SH) =? 0) then cb (CBB_discard_child h) else mret tt : B unit);
  cb (CBB_flush h).
Definition tlsext_server_build : Z -> addr -> B unit := tlsext_build true.
Definition tlsext_client_build : Z -> addr -> B unit := tlsext_build false.

(** ** Parsing the block *)
(** What the running hash of a ClientHello absorbs of an extension: its type in the order of the host, which is little-endian, and
    its contents, except for what a second ClientHello may change.  The update of a digest does not fail. *)
Definition tlsext_clienthello_hash_extension (type : Z) (cbs : CBS) (s : conn) : conn :=
  if (type =? TLSEXT_TYPE_early_data) || (type =? TLSEXT_TYPE_cookie) || (type =? TLSEXT_TYPE_padding) then s
  else
  let s := s<|clienthello_md := clienthello_md s ++ [type mod 256; type / 256]|> in
  if (type =? TLSEXT_TYPE_pre_shared_key) || (type =? TLSEXT_TYPE_key_share) then s
  else s<|clienthello_md := clienthello_md s ++ ztake (CBS_len cbs) (CBS_data cbs)|>.

(** The loop over the received extensions: did it end well, with which connection and [alert_desc]. *)
Fixpoint parse_loop (fuel : nat) (is_server : bool) (msg_type tls_version : Z) (extensions : CBS) (s : conn) (alert_desc : Z) : bool * conn * Z :=
  match fuel with
  | O => (false, s, alert_desc)
  | S fuel =>
      if negb (0 <? CBS_len extensions) then (true, s, alert_desc)
      else
      match (type ← CBS_get_u16; data ← CBS_get_u16_length_prefixed; mret (type, data)) extensions with
      | (None, _) => (false, s, alert_desc)
      | (Some (type, extension_data), extensions) =>
          let s := if (TLS1_3_VERSION <=? tls_version) && is_server && (msg_type =? SSL_TLSEXT_MSG_CH)
                   then tlsext_clienthello_hash_extension type extension_data s else s in
          match tls_extension_find type with
          | None => parse_loop fuel is_server msg_type tls_version extensions s alert_desc
          | Some idx =>
              match tls_extensions !! idx with
              | None => (false, s, alert_desc)
              | Some tlsext =>
                  if misplaced tls_version tlsext msg_type then (false, s, SSL_AD_ILLEGAL_PARAMETER)
                  else
                  let bit := Z.shiftl 1 (Z.of_nat idx) in
                  if negb (Z.land (extensions_seen s) bit =? 0) then (false, s, alert_desc)
                  else
                  let s := s<|extensions_seen := Z.lor (extensions_seen s) bit|> in
                  match parse (tlsext_funcs tlsext is_server) msg_type (mkPst s extension_data alert_desc) with
                  | (None, st) => (false, p_conn st, p_alert st)
                  | (Some _, st) =>
                      if negb (CBS_len (p_cbs st) =? 0) then (false, p_conn st, p_alert st)
                      else parse_loop fuel is_server msg_type tls_version extensions (p_conn st) (p_alert st)
                  end
              end
          end
      end
  end.
(** Success, the connection, the rest of [cbs], and [*alert]. *)
Definition tlsext_parse (is_server : bool) (msg_type : Z) (s : conn) (cbs : CBS) (alert : Z) : bool * conn * CBS * Z :=
  let tls_version := ssl_effective_tls_version (t_ssl s) in
  let s := s<|extensions_seen := 0|> in
  if CBS_len cbs =? 0 then (true, s, cbs, alert)
  else
  match CBS_get_u16_length_prefixed cbs with
  | (None, cbs) => (false, s, cbs, SSL_AD_DECODE_ERROR)
  | (Some extensions, cbs) =>
      let '(ok, s, alert_desc) := parse_loop (fuel_of extensions) is_server msg_type tls_version extensions s SSL_AD_DECODE_ERROR in
      (ok, s, cbs, if ok then alert else alert_desc)
  end.

Definition tlsext_server_reset_state (s : conn) : conn :=
  s<|status_type := -1|><|renegotiate_seen := false|><|alpn_selected := None|><|srtp_profile := None|>.
Definition tlsext_server_parse (msg_type : Z) (s : conn) (cbs : CBS) (alert : Z) : bool * conn * CBS * Z :=
  let s := if msg_type =? SSL_TLSEXT_MSG_CH then tlsext_server_reset_state s else s in
  tlsext_parse true msg_type s cbs alert.
Definition tlsext_client_reset_state (s : conn) : conn := s<|renegotiate_seen := false|><|alpn_selected := None|>.
Definition tlsext_client_parse (msg_type : Z) (s : conn) (cbs : CBS) (alert : Z) : bool * conn * CBS * Z :=
  let s := if msg_type =? SSL_TLSEXT_MSG_SH then tlsext_client_reset_state s else s in
  tlsext_parse false msg_type s cbs alert.

Lemma tls_extension_types_ok : ext_type <$> tls_extensions = tls_extension_types.
Proof. reflexivity. Qed.
End Extensions.
