(* ===== verification/TlsextSpec.v ===== *)
(** * What a block of TLS extensions is taken for

    [tlsext_parse] accepts a block exactly when it is a sequence of extensions in which no known type occurs twice,
    none is in the wrong message, and each one is accepted by its own parse function. *)
From S2P Require Import Prelude Words Compat Cbs Cbb CbbSpec CbbBuild RecordLayer Handshake Versions Hello Tlsext.

Section Parse.
Context `{Allocator} `{TlsextEnv}.

(** ** Parse functions leave the record of the extensions seen alone *)
Definition keeps {A} (m : P A) : Prop := forall st, extensions_seen (p_conn (snd (m st))) = extensions_seen (p_conn st).
Definition keeps_fn (m : M pst unit) : Prop := forall st, extensions_seen (p_conn (snd (m st))) = extensions_seen (p_conn st).

Lemma keeps_ret {A} (a : A) : keeps (mret a).
Proof. done. Qed.
Lemma parse_keeps_bind {A B} (m : P A) (f : A -> P B) : keeps m -> (forall a, keeps (f a)) -> keeps (m ≫= f).
Proof.
  intros Hm Hf st. unfold mbind, P_bind. specialize (Hm st). destruct (m st) as [[e|a] st']; cbn [snd] in *; [done|]. by rewrite Hf.
Qed.
Lemma keeps_store f : (forall c, extensions_seen (f c) = extensions_seen c) -> keeps (store_ f).
Proof. intros Hf st. apply Hf. Qed.
Lemma keeps_rd {A} (m : M CBS A) : keeps (rd_ m).
Proof. intros st. unfold rd_. by destruct (m (p_cbs st)) as [[a|] c]. Qed.
Lemma keeps_sub {A} (m : M CBS A) c : keeps (sub m c).
Proof. intros st. unfold sub. by destruct (m c) as [[a|] c']. Qed.
Lemma keeps_stow c f : (forall d s, extensions_seen (f d s) = extensions_seen s) -> keeps (stow c f).
Proof. intros Hf st. unfold stow. destruct (CBS_stow c) as [[d n]|]; apply Hf. Qed.
Lemma keeps_func al m : keeps m -> keeps_fn (func al m).
Proof.
  intros Hm st. specialize (Hm st). unfold func. destruct (m st) as [[[[]|]|a] st']; cbn [snd] in *; try done. by destruct al.
Qed.

Ltac keeps_step :=
  match goal with
  | |- keeps (if ?b then _ else _) => destruct b
  | |- keeps (match ?x with _ => _ end) => destruct x
  | |- keeps (mret _) => apply keeps_ret
  | |- keeps (_ ≫= _) => apply parse_keeps_bind; [|intros ?]
  | |- keeps (store_ _) => apply keeps_store; intros ?; reflexivity
  | |- keeps (rd_ _) => apply keeps_rd
  | |- keeps (sub _ _) => apply keeps_sub
  | |- keeps (stow _ _) => apply keeps_stow; intros ? ?; reflexivity
  | |- keeps (unless _) => unfold unless
  | |- keeps err => intros ?; reflexivity
  | |- keeps (ret _) => intros ?; reflexivity
  | |- keeps (ret_alert _) => intros ?; reflexivity
  | |- keeps (seen _) => intros ?; reflexivity
  | |- keeps left_ => intros ?; reflexivity
  | |- keeps (fun st => (inr st, st)) => intros ?; reflexivity
  | H : forall _, keeps _ |- _ => apply H
  | H : forall _ _, keeps _ |- _ => apply H
  end.
Ltac keeps_tac := cbv zeta; repeat (keeps_step; cbv zeta).

Lemma keeps_proto_names n c : keeps (proto_names n c).
Proof. revert c. induction n as [|n IH]; intros c; cbn [proto_names]; keeps_tac. Qed.
Lemma keeps_get_u16s n : forall c, keeps (get_u16s n c).
Proof. induction n as [|n IH]; intros c; cbn [get_u16s]; keeps_tac. Qed.
Lemma keeps_same_groups l : forall c, keeps (same_groups l c).
Proof. induction l as [|g l IH]; intros c; cbn [same_groups]; keeps_tac. Qed.
Lemma keeps_respid_loop n : forall c, keeps (respid_loop n c).
Proof. induction n as [|n IH]; intros c; cbn [respid_loop]; keeps_tac. Qed.
Lemma keeps_srtp_loop n : forall c l, keeps (srtp_loop n c l).
Proof. induction n as [|n IH]; intros c l; cbn [srtp_loop]; keeps_tac. Qed.
Lemma keeps_share_loop n : forall c, keeps (share_loop n c).
Proof. induction n as [|n IH]; intros c; cbn [share_loop]; keeps_tac. Qed.
Lemma keeps_versions_loop n : forall c lo hi m, keeps (versions_loop n c lo hi m).
Proof. induction n as [|n IH]; intros c lo hi m; cbn [versions_loop]; keeps_tac; apply IH. Qed.

Lemma keeps_ticket_cb : keeps ticket_cb.
Proof. unfold ticket_cb. keeps_tac. Qed.
Lemma keeps_sigalgs_parse : keeps sigalgs_parse.
Proof. unfold sigalgs_parse. keeps_tac. Qed.

Lemma keeps_parse is_server msg_type row : row ∈ tls_extensions -> keeps_fn (parse (tlsext_funcs row is_server) msg_type).
Proof.
  revert row. apply Forall_forall. unfold tls_extensions.
  repeat (apply Forall_cons; split); [..|apply Forall_nil; exact I]; destruct is_server; apply keeps_func; keeps_tac;
    eauto using keeps_proto_names, keeps_get_u16s, keeps_same_groups, keeps_respid_loop, keeps_srtp_loop, keeps_share_loop, keeps_versions_loop, keeps_ticket_cb, keeps_sigalgs_parse.
Qed.

(** ** The specification *)
Context (is_server : bool) (msg_type tls_version : Z).
Definition known (t : Z) : Prop := is_Some (tls_extension_find t).
#[global] Instance known_dec t : Decision (known t).
Proof. unfold known. apply _. Defined.

(** One extension: the hash of the ClientHello, and if its type is known its parse function, which must use up the contents.  The
    state is the connection and the alert for a failure. *)
Definition handle (e : Z * list Z) (st : conn * Z) : option (conn * Z) :=
  let s := if (TLS1_3_VERSION <=? tls_version) && is_server && (msg_type =? SSL_TLSEXT_MSG_CH)
           then tlsext_clienthello_hash_extension (fst e) (CBS_init (snd e) (zlen (snd e))) (fst st) else fst st in
  match tls_extension_find (fst e) with
  | None => Some (s, snd st)
  | Some idx =>
      tlsext ← tls_extensions !! idx;
      let s := s<|extensions_seen := Z.lor (extensions_seen s) (Z.shiftl 1 (Z.of_nat idx))|> in
      match parse (tlsext_funcs tlsext is_server) msg_type (mkPst s (CBS_init (snd e) (zlen (snd e))) (snd st)) with
      | (Some _, r) => if CBS_len (p_cbs r) =? 0 then Some (p_conn r, p_alert r) else None
      | (None, _) => None
      end
  end.
Fixpoint process (exts : list (Z * list Z)) (st : conn * Z) : option (conn * Z) :=
  match exts with
  | [] => Some st
  | e :: exts => st ← handle e st; process exts st
  end.

(** May an extension of this type be in this message? *)
Definition placed (t : Z) : Prop :=
  match tls_extension_find t ≫= (tls_extensions !!.) with Some row => misplaced tls_version row msg_type = false | None => True end.
Definition types (exts : list (Z * list Z)) : list Z := filter known (fst <$> exts).

(** ** Bits *)
Lemma find_idx_spec l : forall t i k, find_idx t l i = Some k -> (i <= k)%nat /\ l !! (k - i)%nat = Some t.
Proof.
  induction l as [|x l IH]; intros t i k; cbn [find_idx]; [done|]. destruct (Z.eqb_spec x t) as [->|].
  - intros [= <-]. split; [lia|]. by rewrite Nat.sub_diag.
  - intros [? Hl]%IH. split; [lia|]. replace (k - i)%nat with (S (k - S i)) by lia. done.
Qed.
Lemma find_known t k : tls_extension_find t = Some k -> (k < 12)%nat /\ tls_extension_types !! k = Some t.
Proof.
  intros [_ Hl]%find_idx_spec. rewrite Nat.sub_0_r in Hl. split; [|done]. by apply lookup_lt_Some in Hl.
Qed.
Lemma find_inj t t' k : tls_extension_find t = Some k -> tls_extension_find t' = Some k -> t = t'.
Proof. intros [_ E1]%find_known [_ E2]%find_known. congruence. Qed.
Lemma row_of t k : tls_extension_find t = Some k -> exists row, tls_extensions !! k = Some row /\ ext_type row = t /\ row ∈ tls_extensions.
Proof.
  intros [_ Hl]%find_known. rewrite <- tls_extension_types_ok in Hl. rewrite list_lookup_fmap in Hl.
  destruct (tls_extensions !! k) as [row|] eqn:E; [|done]. injection Hl as <-. exists row. eauto using list_elem_of_lookup_2.
Qed.
Lemma bit_test x k : (Z.land x (Z.shiftl 1 (Z.of_nat k)) =? 0) = negb (Z.testbit x (Z.of_nat k)).
Proof. apply land_shiftl1. lia. Qed.
Lemma seen_bit s t k : tls_extension_find t = Some k -> tlsext_extension_seen s t = Z.testbit (extensions_seen s) (Z.of_nat k).
Proof. intros E. unfold tlsext_extension_seen. by rewrite E, bit_test, negb_involutive. Qed.
Lemma seen_or s x t k t' : tls_extension_find t = Some k -> extensions_seen s = Z.lor (extensions_seen x) (Z.shiftl 1 (Z.of_nat k)) ->
  tlsext_extension_seen s t' = bool_decide (t' = t) || tlsext_extension_seen x t'.
Proof.
  intros E Hx. destruct (tls_extension_find t') as [j|] eqn:Ej.
  - rewrite (seen_bit s t' j), (seen_bit x t' j), Hx, Z.lor_spec, Z.shiftl_1_l by done. destruct (decide (t' = t)) as [->|Hne].
    + rewrite E in Ej. injection Ej as <-. rewrite Z.pow2_bits_true by lia. rewrite bool_decide_true by done. apply orb_true_r.
    + rewrite (bool_decide_false (t' = t)) by done. rewrite Z.pow2_bits_false; [by rewrite orb_false_r|]. intros Hjk. apply Hne, (find_inj _ _ j); [done|]. by replace j with k by lia.
  - rewrite bool_decide_false by congruence. unfold tlsext_extension_seen. by rewrite Ej.
Qed.
Lemma hash_seen t c s : extensions_seen (tlsext_clienthello_hash_extension t c s) = extensions_seen s.
Proof. unfold tlsext_clienthello_hash_extension. by repeat case_match. Qed.

(** ** One extension *)
Definition sized (e : Z * list Z) : Prop := 0 <= fst e < 2 ^ 16 /\ zlen (snd e) < 2 ^ 16.
Definition read_ext : M CBS (Z * CBS) := type ← CBS_get_u16; data ← CBS_get_u16_length_prefixed; mret (type, data).
Lemma read_ext_ok i e rest : sized e -> read_ext (rd i (ext_bytes e ++ rest)) = (Some (fst e, rd (zlen (snd e)) (snd e)), rd i rest).
Proof.
  intros [Ht Hd]. unfold read_ext, ext_bytes. rewrite <- !app_assoc. mstep (by apply get_u16_enc). mstep (by apply get_u16_prefixed_enc). done.
Qed.
Lemma get_u16_inv i l v c : Forall is_byte l -> CBS_get_u16 (rd i l) = (Some v, c) ->
  exists b, l = be_bytes 2 v ++ b /\ 0 <= v < 2 ^ 16 /\ c = rd i b.
Proof.
  intros Hb (v' & c1 & Ev & [= <- <-])%bind_inv. apply cbs_get_u_inv in Ev as (a & b & -> & Ha & _ & -> & ->); [|done].
  apply Forall_app in Hb as [Hb _]. pose proof (be_val_bound a Hb) as Bv. rewrite Ha in Bv. change (256 ^ 2) with (2 ^ 16) in Bv.
  unfold wrap16. rewrite Z.mod_small by done. exists b. split_and!; try done; try lia. f_equal.
  replace 2%nat with (length a) by (unfold zlen in Ha; lia). by rewrite be_bytes_be_val.
Qed.
Lemma get_u16_prefixed_inv i l d c : Forall is_byte l -> CBS_get_u16_length_prefixed (rd i l) = (Some d, c) ->
  exists x b, l = be_bytes 2 (zlen x) ++ x ++ b /\ zlen x < 2 ^ 16 /\ d = rd (zlen x) x /\ c = rd i b.
Proof.
  intros Hb (n & c1 & En & Ed)%bind_inv. assert (Eu : CBS_get_u16 (rd i l) = (Some (wrap16 n), c1)) by (unfold CBS_get_u16; by erewrite bind_some by exact En).
  apply cbs_get_u_inv in En as (a & b & -> & Ha & _ & Hn & ->); [|done]. apply get_u16_inv in Eu as (b' & El & _ & [= ->]); [|done].
  pose proof (Forall_app is_byte a b') as [[Hba _] _]; [done|]. pose proof (be_val_bound a Hba) as Bn. rewrite Ha in Bn. change (256 ^ 2) with (2 ^ 16) in Bn.
  rewrite <- Hn in Bn. unfold wrap16 in El. rewrite Z.mod_small in El by done. rewrite El.
  apply CBS_get_bytes_inv in Ed as (x & y & -> & Hx & -> & ->); [|lia]. exists x, y. rewrite Hx. split_and!; done || lia.
Qed.
Lemma read_ext_inv i l t d c : Forall is_byte l -> read_ext (rd i l) = (Some (t, d), c) ->
  exists e rest, l = ext_bytes e ++ rest /\ sized e.
Proof.
  intros Hb (v & c1 & Ev & (d' & c2 & Ed & [= <- <- <-])%bind_inv)%bind_inv.
  apply get_u16_inv in Ev as (b & -> & Hv & ->); [|done]. apply Forall_app in Hb as [_ Hb].
  apply get_u16_prefixed_inv in Ed as (x & y & -> & Hx & -> & ->); [|done].
  exists (v, x), y. unfold ext_bytes. cbn [fst snd]. by rewrite <- !app_assoc.
Qed.

Lemma handle_seen e s al s' al' t : handle e (s, al) = Some (s', al') ->
  tlsext_extension_seen s' t = bool_decide (known (fst e) /\ t = fst e) || tlsext_extension_seen s t.
Proof.
  unfold handle. cbn [fst snd]. set (s0 := if _ : bool then _ else s). assert (E0 : extensions_seen s0 = extensions_seen s).
  { unfold s0. case_match; [apply hash_seen|done]. }
  destruct (tls_extension_find (fst e)) as [k|] eqn:Ek.
  - destruct (row_of _ _ Ek) as (row & Hrow & _ & Hin). rewrite Hrow. cbn [mbind option_bind].
    set (st := mkPst _ _ al). pose proof (keeps_parse is_server msg_type row Hin st) as Hk. destruct (parse _ _ st) as [[[]|] r]; [|done].
    destruct (_ =? 0); [|done]. intros [= <- <-]. cbn [snd] in Hk. rewrite (seen_or (p_conn r) s (fst e) k) by (rewrite ?Hk; unfold st; cbn; by rewrite ?E0).
    f_equal. apply bool_decide_ext. unfold known. rewrite Ek. split; [eauto|tauto].
  - intros [= <- <-]. rewrite bool_decide_false; [|intros [[k Hk] _]; congruence]. cbn [orb]. unfold tlsext_extension_seen. by rewrite E0.
Qed.

Lemma parse_loop_step fuel i e rest s al s' al' : sized e ->
  parse_loop (S fuel) is_server msg_type tls_version (rd i (ext_bytes e ++ rest)) s al = (true, s', al') <->
  placed (fst e) /\ tlsext_extension_seen s (fst e) = false /\
  exists s1 al1, handle e (s, al) = Some (s1, al1) /\ parse_loop fuel is_server msg_type tls_version (rd i rest) s1 al1 = (true, s', al').
Proof.
  intros He. cbn [Tlsext.parse_loop]. fold read_ext. rewrite (read_ext_ok i e rest He).
  assert (Hl : (0 <? CBS_len (rd i (ext_bytes e ++ rest))) = true).
  { apply Z.ltb_lt. unfold CBS_len, ext_bytes. cbn [rd cbs_len]. rewrite !zlen_app, !zlen_be_bytes. pose proof (zlen_nonneg rest). pose proof (zlen_nonneg (snd e)). lia. }
  rewrite Hl. cbn [negb]. change (CBS_init (snd e) (zlen (snd e))) with (rd (zlen (snd e)) (snd e)).
  unfold placed, handle. cbn [fst snd]. change (CBS_init (snd e) (zlen (snd e))) with (rd (zlen (snd e)) (snd e)).
  set (s0 := if _ : bool then _ else s). assert (E0 : extensions_seen s0 = extensions_seen s).
  { unfold s0. case_match; [apply hash_seen|done]. }
  destruct (tls_extension_find (fst e)) as [k|] eqn:Ek.
  - destruct (row_of _ _ Ek) as (row & Hrow & _ & _). rewrite Hrow. cbn [mbind option_bind]. rewrite Hrow.
    rewrite bit_test, negb_involutive, E0, (seen_bit s _ k Ek).
    destruct (misplaced _ _ _); [split; [done|intros [? _]; done]|].
    destruct (Z.testbit _ _); [split; [done|intros (_ & ? & _); done]|].
    destruct (parse _ _ _) as [[[]|] r]; [|split; [done|intros (_ & _ & ? & ? & ? & _); done]].
    destruct (_ =? 0); cbn [negb]; [|split; [done|intros (_ & _ & ? & ? & ? & _); done]].
    split; [eauto 10|]. intros (_ & _ & ? & ? & [= <- <-] & ?). done.
  - cbn [mbind option_bind]. unfold tlsext_extension_seen. rewrite Ek. split; [eauto 10|]. intros (_ & _ & ? & ? & [= <- <-] & ?). done.
Qed.
Lemma types_cons e exts : types (e :: exts) = if decide (known (fst e)) then fst e :: types exts else types exts.
Proof. unfold types. cbn [fmap list_fmap]. by rewrite filter_cons. Qed.
Lemma seen_known s t : tlsext_extension_seen s t = true -> known t.
Proof. unfold tlsext_extension_seen, known. destruct (tls_extension_find t); [eauto|done]. Qed.

Lemma unseen_zero s t : extensions_seen s = 0 -> tlsext_extension_seen s t = false.
Proof. intros Hs. unfold tlsext_extension_seen. rewrite Hs. by destruct (tls_extension_find t). Qed.
Lemma elem_types t exts : t ∈ types exts <-> known t /\ t ∈ fst <$> exts.
Proof. unfold types. by rewrite list_elem_of_filter. Qed.
Lemma fuel_of_rd i (l : list Z) : (length l < fuel_of (rd i l))%nat.
Proof. unfold fuel_of, CBS_len, zlen. cbn [rd cbs_len]. unfold zlen. lia. Qed.

(** ** The block *)
Definition well_placed (s : conn) (exts : list (Z * list Z)) : Prop :=
  Forall (fun e => placed (fst e)) exts /\ NoDup (types exts) /\ Forall (fun t => tlsext_extension_seen s t = false) (types exts).
Lemma well_placed_cons s al e exts s1 al1 : handle e (s, al) = Some (s1, al1) ->
  well_placed s (e :: exts) <-> placed (fst e) /\ tlsext_extension_seen s (fst e) = false /\ well_placed s1 exts.
Proof.
  intros Hh. unfold well_placed. rewrite Forall_cons, types_cons. rewrite !Forall_forall. pose proof (fun t => handle_seen e s al s1 al1 t Hh) as Hs.
  destruct (decide (known (fst e))) as [Hk|Hk].
  - rewrite NoDup_cons. setoid_rewrite elem_of_cons. split.
    + intros ([Hp Hps] & [Hni Hnd] & Hns). split_and!; [done|auto|done|done|]. intros t Ht. rewrite Hs, Hns by auto.
      rewrite orb_false_r. apply bool_decide_false. intros [_ ->]. done.
    + intros (Hp & He & Hps & Hnd & Hns). split_and!; [done|done| |done|].
      * intros Hin. specialize (Hns _ Hin). rewrite Hs, bool_decide_true in Hns by done. done.
      * intros t [->|Ht]; [done|]. specialize (Hns _ Ht). rewrite Hs in Hns. apply orb_false_iff in Hns as [_ Hns]. exact Hns.
  - assert (Hz : forall t, tlsext_extension_seen s1 t = tlsext_extension_seen s t).
    { intros t. rewrite Hs. rewrite bool_decide_false; [done|]. intros [? _]. done. }
    assert (tlsext_extension_seen s (fst e) = false); [|setoid_rewrite Hz; tauto].
    destruct (tlsext_extension_seen s (fst e)) eqn:E; [|done]. by apply seen_known in E.
Qed.

Lemma length_ext e rest : length (ext_bytes e ++ rest) = (4 + length (snd e) + length rest)%nat.
Proof. unfold ext_bytes. by rewrite !length_app. Qed.
Lemma parse_loop_ok fuel : forall i l s al s' al', Forall is_byte l -> (length l < fuel)%nat ->
  parse_loop fuel is_server msg_type tls_version (rd i l) s al = (true, s', al') <->
  exists exts, l = concat (ext_bytes <$> exts) /\ Forall sized exts /\ well_placed s exts /\ process exts (s, al) = Some (s', al').
Proof.
  induction fuel as [|fuel IH]; intros i l s al s' al' Hb Hf; [lia|].
  destruct (decide (l = [])) as [->|Hne].
  - cbn [Tlsext.parse_loop CBS_len rd cbs_len zlen length Z.of_nat]. change (0 <? 0) with false. cbn [negb]. split.
    + intros [= <- <-]. exists []. split_and!; done || (split_and!; constructor).
    + intros ([|e exts] & Hc & _ & _ & Hp); [by injection Hp as <- <-|]. exfalso. apply (f_equal length) in Hc. cbn [fmap list_fmap concat] in Hc.
      unfold ext_bytes in Hc. rewrite !length_app in Hc. cbn in Hc. lia.
  - split.
    + intros Hrun. assert (exists t d c, read_ext (rd i l) = (Some (t, d), c)) as (t & d & c & Er).
      { cbn [Tlsext.parse_loop] in Hrun. unfold CBS_len in Hrun. cbn [rd cbs_len] in Hrun. assert (0 < zlen l) by (destruct l; [done|zl]).
        rewrite (proj2 (Z.ltb_lt _ _)) in Hrun by done. cbn [negb] in Hrun. fold read_ext in Hrun. change (mkCBS l i (zlen l)) with (rd i l) in Hrun.
        destruct (read_ext (rd i l)) as [[[t d]|] c]; [eauto|done]. }
      apply read_ext_inv in Er as (e & rest & -> & He); [|done]. pose proof (proj1 (parse_loop_step _ _ _ _ _ _ _ _ He) Hrun) as (Hp & Hs & s1 & al1 & Hh & Hrest). clear Hrun.
      apply Forall_app in Hb as [_ Hb]. rewrite length_ext in Hf. apply IH in Hrest as (exts & -> & Hsz & Hw & Hpr); [|done|lia].
      exists (e :: exts). split_and!; [done|by constructor|by apply (well_placed_cons _ al _ _ s1 al1)|]. cbn [process]. by rewrite Hh.
    + intros ([|e exts] & -> & Hsz & Hw & Hp); [done|]. apply Forall_cons in Hsz as [He Hsz]. cbn [process] in Hp.
      destruct (handle e (s, al)) as [[s1 al1]|] eqn:Hh; [|done]. pose proof (proj1 (well_placed_cons _ _ _ _ _ _ Hh) Hw) as (Hpl & Hns & Hw1).
      cbn [fmap list_fmap concat] in *. apply parse_loop_step; [done|]. split_and!; [done..|]. exists s1, al1. split; [done|].
      rewrite length_ext in Hf. apply IH; [by apply Forall_app in Hb as [_ Hb]|lia|]. by exists exts.
Qed.

Lemma process_seen exts : forall s al s' al' t, process exts (s, al) = Some (s', al') ->
  tlsext_extension_seen s' t = bool_decide (t ∈ types exts) || tlsext_extension_seen s t.
Proof.
  induction exts as [|e exts IH]; intros s al s' al' t; cbn [process].
  { intros [= <- _]. rewrite bool_decide_false; [done|]. unfold types. cbn. intros []%not_elem_of_nil. }
  destruct (handle e (s, al)) as [[s1 al1]|] eqn:Hh; [|done]. cbn [mbind option_bind]. intros Hp. rewrite (IH _ _ _ _ t Hp), (handle_seen _ _ _ _ _ t Hh), orb_assoc. f_equal.
  rewrite <- bool_decide_or. apply bool_decide_ext. rewrite types_cons. destruct (decide _); rewrite ?elem_of_cons; tauto.
Qed.
End Parse.

Section Accepts.
Context `{Allocator} `{TlsextEnv}.

(** C30: A received block of extensions is accepted exactly when there is none at all, or it is a length followed by extensions of
    which each is, in TLSv1.3, allowed in this message, no known type occurs twice, and each known one is accepted by its own
    parse function, one after the other, and used up.  The connection is then the one those functions left; what follows the block
    is left for the caller, the alert is untouched, and the extensions recorded as seen are the known ones of the block. *)
Theorem tlsext_parse_accepts (is_server : bool) (msg_type : Z) (s : conn) (i : Z) (l : list Z) (alert : Z) (s' : conn) (cbs' : CBS) (alert' : Z) :
  Forall is_byte l ->
  let v := ssl_effective_tls_version (t_ssl s) in
  let s0 := s<|extensions_seen := 0|> in
  tlsext_parse is_server msg_type s (rd i l) alert = (true, s', cbs', alert') <->
  alert' = alert /\
  ((l = [] /\ s' = s0 /\ cbs' = rd i []) \/
   exists exts rest al, let block := concat (ext_bytes <$> exts) in
     l = be_bytes 2 (zlen block) ++ block ++ rest /\ zlen block < 2 ^ 16 /\ cbs' = rd i rest /\
     Forall sized exts /\ Forall (fun e => placed msg_type v (fst e)) exts /\ NoDup (types exts) /\
     process is_server msg_type v exts (s0, SSL_AD_DECODE_ERROR) = Some (s', al) /\
     forall t, tlsext_extension_seen s' t = true <-> known t /\ t ∈ fst <$> exts).
Proof.
  intros Hb v s0. unfold tlsext_parse. fold v. fold s0.
  assert (Hw : forall exts, well_placed msg_type v s0 exts <-> Forall (fun e => placed msg_type v (fst e)) exts /\ NoDup (types exts)).
  { intros exts. unfold well_placed. enough (Forall (fun t => tlsext_extension_seen s0 t = false) (types exts)) by tauto.
    apply Forall_forall. intros t _. apply unseen_zero. done. }
  destruct (decide (l = [])) as [->|Hne].
  - change (CBS_len (rd i []) =? 0) with true. cbv iota. split.
    + intros [= <- <- <-]. auto.
    + intros [-> [(_ & -> & ->)|(exts & rest & al & Hl & _)]]; [done|]. apply (f_equal length) in Hl. rewrite length_app in Hl. cbn in Hl. lia.
  - assert (Hn : (CBS_len (rd i l) =? 0) = false) by (apply Z.eqb_neq; unfold CBS_len; cbn [rd cbs_len]; destruct l; [done|zl]). rewrite Hn. split.
    + destruct (CBS_get_u16_length_prefixed (rd i l)) as [[d|] c] eqn:Ed; [|done]. apply get_u16_prefixed_inv in Ed as (x & rest & -> & Hx & -> & ->); [|done].
      apply Forall_app in Hb as [_ [Hb _]%Forall_app]. destruct (parse_loop _ _ _ _ _ _ _) as [[ok s1] al] eqn:Ep. intros [= -> -> <- <-]. split; [done|]. right.
      apply parse_loop_ok in Ep as (exts & -> & Hs & Hwp & Hp); [|done|apply fuel_of_rd]. apply Hw in Hwp as [Hpl Hnd].
      exists exts, rest, al. cbv zeta. split_and!; try done. intros t. rewrite (process_seen _ _ _ _ _ _ _ _ t Hp), unseen_zero, orb_false_r, bool_decide_eq_true by done. apply elem_types.
    + intros [-> [(-> & _)|(exts & rest & al & -> & Hx & -> & Hs & Hpl & Hnd & Hp & _)]]; [done|]. rewrite get_u16_prefixed_enc by done.
      apply Forall_app in Hb as [_ [Hb _]%Forall_app].
      erewrite (proj2 (parse_loop_ok is_server msg_type v _ _ _ _ _ s' al Hb (fuel_of_rd _ _))); [done|]. exists exts. rewrite Hw. done.
Qed.
End Accepts.

(** A server with no key exchange and no callbacks. *)
Definition plain_types : TlsextTypes := {| key_share_t := unit; respid_t := unit; x509_exts_t := unit |}.
Definition plain_env : @TlsextEnv plain_types := {|
  tls13_key_share_new _ := None; tls13_key_share_public _ _ := fail; tls13_key_share_peer_public _ _ _ := None; alpn_select_cb := None; status_cb := None;
  session_ticket_ext_cb := None; i2d_OCSP_RESPID _ := None; d2i_OCSP_RESPID _ := None; i2d_X509_EXTENSIONS _ := None; d2i_X509_EXTENSIONS _ := None;
  sk_new_ok := true; sk_push_ok _ := true |}.
Definition plain_conn : @conn plain_types :=
  mkConn (set_our_range TLS1_VERSION TLS1_3_VERSION (SSL_new (SSL_CTX_new TLS_method_data))) true false false true true false None None None None None None (-1) None None true None None None None 0
    None 0 [] [] false false None None false false None false None 0 0 None [].
(** A name, an unknown extension and the renegotiation indication. *)
Definition plain_exts : list (Z * list Z) := [(TLSEXT_TYPE_server_name, [0; 6; 0; 0; 3; 97; 46; 98]); (0x1234, [1]); (TLSEXT_TYPE_renegotiate, [0])].
Lemma tlsext_parse_accepts_witness :
  let l := be_bytes 2 22 ++ concat (ext_bytes <$> plain_exts) ++ [9] in
  exists s' al, @process ample plain_types plain_env true SSL_TLSEXT_MSG_CH 0x304 plain_exts (plain_conn, 50) = Some (s', al) /\
    sess_hostname s' = Some [97; 46; 98] /\ renegotiate_seen s' = true /\
    @tlsext_parse ample plain_types plain_env true SSL_TLSEXT_MSG_CH plain_conn (rd 25 l) 7 = (true, s', rd 25 [9], 7).
Proof.
  intros l. destruct (@process ample plain_types plain_env true SSL_TLSEXT_MSG_CH 0x304 plain_exts (plain_conn, 50)) as [[s' al]|] eqn:E.
  2: { exfalso. vm_compute in E. discriminate E. }
  exists s', al. split; [done|]. split; [vm_compute in E; by injection E as <- _|]. split; [vm_compute in E; by injection E as <- _|].
  assert (Hb : Forall is_byte l) by (let v := eval vm_compute in l in change (Forall is_byte v); repeat (constructor; [unfold is_byte; lia|]); constructor).
  apply (@tlsext_parse_accepts ample plain_types plain_env true SSL_TLSEXT_MSG_CH plain_conn 25 l 7 s' (rd 25 [9]) 7 Hb).
  split; [done|]. right. exists plain_exts, [9], al. cbv zeta.
  split; [vm_compute; reflexivity|]. split; [vm_compute; reflexivity|]. split; [done|].
  split; [repeat constructor; vm_compute; (reflexivity || discriminate)|]. split; [repeat constructor; vm_compute; reflexivity|].
  split; [apply (bool_decide_unpack _); vm_compute; reflexivity|]. split; [exact E|].
  intros t. pose proof (@process_seen ample plain_types plain_env true SSL_TLSEXT_MSG_CH 0x304 plain_exts plain_conn 50 s' al t E) as Hs.
  rewrite Hs, unseen_zero, orb_false_r, bool_decide_eq_true by done. apply elem_types.
Defined.
