(* ===== verification/S3Cbc.v ===== *)
(** * Constant-time processing of CBC records (ssl/s3_cbc.c)

    A decrypted record ends in a MAC and in padding whose length is secret.  The functions of this file remove the padding, copy
    the MAC out and compute the expected MAC without branches or memory accesses that depend on that length.  [unsigned int]
    is 32 bits wide; an array is a list, a pointer into it the list from there on.  S3CbcSpec compares them with what they
    are for: the padding of RFC 5246, the last bytes, and HMAC. *)
From S2P Require Import Prelude Compat Words Md32 Sha256 EvpDigest Hmac.

(** ** Masks *)
(** An [unsigned int] as the [int] with the same bits, whose right shift copies the sign. *)
Definition to_int (x : Z) : Z := if x <? 2 ^ 31 then x else x - 2 ^ 32.
Definition DUPLICATE_MSB_TO_ALL (x : Z) : Z := wrap32 (Z.shiftr (to_int x) 31).
Definition DUPLICATE_MSB_TO_ALL_8 (x : Z) : Z := wrap8 (DUPLICATE_MSB_TO_ALL x).
Definition constant_time_lt (a b : Z) : Z := DUPLICATE_MSB_TO_ALL (wrap32 (a - b)).
Definition constant_time_ge (a b : Z) : Z := DUPLICATE_MSB_TO_ALL (wrap32 (Z.lnot (wrap32 (a - b)))).
Definition constant_time_eq_8 (a b : Z) : Z := DUPLICATE_MSB_TO_ALL_8 (wrap32 (Z.lxor a b - 1)).

(** ** Padding *)
(** [rec_data] and [rec_input] are the bytes from the pointers [data] and [input] on. *)
Record SSL3_RECORD_INTERNAL := mkRec { rec_length : Z; rec_padding_length : Z; rec_data : list Z; rec_input : list Z }.

(** The loop over the bytes that may be padding, from the last one back. *)
Fixpoint padding_loop (n : nat) (i : Z) (rec : SSL3_RECORD_INTERNAL) (padding_length good : Z) : Z :=
  match n with
  | O => good
  | S n =>
      let mask := wrap8 (constant_time_ge padding_length i) in
      let b := znth (rec_data rec) (wrap32 (rec_length rec - 1 - i)) in
      padding_loop n (i + 1) rec padding_length (Z.land good (wrap32 (Z.lnot (Z.land mask (Z.lxor padding_length b)))))
  end.
Definition ssl3_cbc_remove_padding (rec : SSL3_RECORD_INTERNAL) (eiv_len mac_size : Z) : Z * SSL3_RECORD_INTERNAL :=
  let overhead := wrap32 (1 + mac_size) in
  if rec_length rec <? wrap32 (overhead + eiv_len) then (0, rec)
  else
  let rec := mkRec (wrap32 (rec_length rec - eiv_len)) (rec_padding_length rec) (zdrop eiv_len (rec_data rec)) (zdrop eiv_len (rec_input rec)) in
  let padding_length := znth (rec_data rec) (wrap32 (rec_length rec - 1)) in
  let good := constant_time_ge (rec_length rec) (wrap32 (overhead + padding_length)) in
  let to_check := if rec_length rec <? 256 then rec_length rec else 256 in
  let good := padding_loop (Z.to_nat to_check) 0 rec padding_length good in
  let good := Z.land good (Z.shiftr good 4) in
  let good := Z.land good (Z.shiftr good 2) in
  let good := Z.land good (Z.shiftr good 1) in
  let good := wrap32 (Z.shiftl good 31) in
  let good := DUPLICATE_MSB_TO_ALL good in
  let padding_length := Z.land good (wrap32 (padding_length + 1)) in
  (to_int (Z.lor (Z.land good 1) (wrap32 (Z.lnot good))),
   mkRec (wrap32 (rec_length rec - padding_length)) padding_length (rec_data rec) (rec_input rec)).

(** ** The MAC of the record *)
(** [OPENSSL_assert] ends the program. *)
Inductive verdict (A : Type) : Type := Dies | Fails | Gives (a : A).
Arguments Dies {A}.
Arguments Fails {A}.
Arguments Gives {A} a.

(** The loop that collects the MAC, rotated: [data] from the index [i] on, at the slot [j]. *)
Fixpoint scan_loop (n : nat) (i j : Z) (data : list Z) (mac_start mac_end md_size : Z) (rotated_mac : list Z) : list Z :=
  match n with
  | O => rotated_mac
  | S n =>
      let mac_started := wrap8 (constant_time_ge i mac_start) in
      let mac_ended := wrap8 (constant_time_ge i mac_end) in
      let b := znth data i in
      let rotated_mac := <[Z.to_nat j := wrap8 (Z.lor (znth rotated_mac j) (Z.land (Z.land b mac_started) (Z.lnot mac_ended)))]> rotated_mac in
      let j := j + 1 in
      scan_loop n (i + 1) (Z.land j (constant_time_lt j md_size)) data mac_start mac_end md_size rotated_mac
  end.
(** The rotation back: [md_size] bytes from the slot [rotate_offset]. *)
Fixpoint rotate_loop (n : nat) (rotate_offset md_size : Z) (rotated_mac : list Z) : list Z :=
  match n with
  | O => []
  | S n =>
      let r := rotate_offset + 1 in
      znth rotated_mac rotate_offset :: rotate_loop n (Z.land r (constant_time_lt r md_size)) md_size rotated_mac
  end.
Definition ssl3_cbc_copy_mac (rec : SSL3_RECORD_INTERNAL) (md_size orig_len : Z) : verdict (list Z) :=
  let mac_end := rec_length rec in
  let mac_start := wrap32 (mac_end - md_size) in
  if orig_len <? md_size then Dies
  else if EVP_MAX_MD_SIZE <? md_size then Dies
  else
  let scan_start := if wrap32 (md_size + 255 + 1) <? orig_len then wrap32 (orig_len - (md_size + 255 + 1)) else 0 in
  let div_spoiler := wrap32 (Z.shiftl (Z.shiftr md_size 1) 24) in
  let rotate_offset := wrap32 (div_spoiler + mac_start - scan_start) mod md_size in
  let rotated_mac := scan_loop (Z.to_nat (orig_len - scan_start)) scan_start 0 (rec_data rec) mac_start mac_end md_size (zeros md_size) in
  Gives (rotate_loop (Z.to_nat md_size) rotate_offset md_size rotated_mac).

(** ** Digests at the level of their blocks *)
Definition NID_md5 : Z := 4.
Definition NID_sha1 : Z := 64.
Definition NID_sha256 : Z := 672.
Definition NID_sha384 : Z := 673.
Definition NID_sha512 : Z := 674.
Definition NID_sha224 : Z := 675.

(** [md_init], [md_transform] and [md_final_raw] work on the state in [md_state]. *)
Record raw_digest := mkRaw {
  md_state : Type;
  md_init : md_state;
  md_transform : list Z -> md_state -> md_state;
  md_final_raw : md_state -> list Z;
  raw_size : Z;
  md_block_size : Z;
  md_length_size : Z;
  length_is_big_endian : bool
}.
(** The digests of crypto/md5, crypto/sha/sha1dgst.c and crypto/sha/sha512.c; a state is the list of its words. *)
Class OtherDigests := {
  MD5_Init : list Z; MD5_Transform : list Z -> list Z -> list Z;
  SHA1_Init : list Z; SHA1_Transform : list Z -> list Z -> list Z;
  SHA384_Init : list Z; SHA512_Init : list Z; SHA512_Transform : list Z -> list Z -> list Z
}.
Definition l2n (l : Z) : list Z := [Z.land (Z.shiftr l 24) 0xff; Z.land (Z.shiftr l 16) 0xff; Z.land (Z.shiftr l 8) 0xff; Z.land l 0xff].
Definition l2n8 (l : Z) : list Z := l2n (Z.shiftr l 32) ++ l2n l.
Definition u32toLE (n : Z) : list Z := [wrap8 n; wrap8 (Z.shiftr n 8); wrap8 (Z.shiftr n 16); wrap8 (Z.shiftr n 24)].
Definition tls1_md5_final_raw (h : list Z) : list Z := concat (u32toLE <$> take 4 h).
Definition tls1_sha1_final_raw (h : list Z) : list Z := concat (l2n <$> take 5 h).
Definition tls1_sha256_final_raw (c : HASH_CTX) : list Z := concat (l2n <$> take 8 (hh c)).
Definition tls1_sha512_final_raw (h : list Z) : list Z := concat (l2n8 <$> take 8 h).

Section Digest.
Context `{Allocator} `{Methods} `{!Engines} `{OtherDigests}.
Definition EVP_MD_CTX_type (ctx : Evp.EVP_MD_CTX) : Z := match Evp.digest ctx with Some m => type m | None => 0 end.
Definition ssl3_cbc_record_digest_supported (ctx : Evp.EVP_MD_CTX) : bool :=
  let t := EVP_MD_CTX_type ctx in
  (t =? NID_md5) || (t =? NID_sha1) || (t =? NID_sha224) || (t =? NID_sha256) || (t =? NID_sha384) || (t =? NID_sha512).
(** The switch of [ssl3_cbc_digest_record]. *)
Definition raw_of (t : Z) : option raw_digest :=
  if t =? NID_md5 then Some (mkRaw (list Z) MD5_Init MD5_Transform tls1_md5_final_raw 16 64 8 false)
  else if t =? NID_sha1 then Some (mkRaw (list Z) SHA1_Init SHA1_Transform tls1_sha1_final_raw 20 64 8 true)
  else if t =? NID_sha224 then Some (mkRaw HASH_CTX SHA224_Init SHA256_Transform tls1_sha256_final_raw 28 64 8 true)
  else if t =? NID_sha256 then Some (mkRaw HASH_CTX SHA256_Init SHA256_Transform tls1_sha256_final_raw 32 64 8 true)
  else if t =? NID_sha384 then Some (mkRaw (list Z) SHA384_Init SHA512_Transform tls1_sha512_final_raw 48 128 16 true)
  else if t =? NID_sha512 then Some (mkRaw (list Z) SHA512_Init SHA512_Transform tls1_sha512_final_raw 64 128 16 true)
  else None.
End Digest.

(** ** The expected MAC *)
Definition MAX_HASH_BIT_COUNT_BYTES : Z := 16.
Definition MAX_HASH_BLOCK_SIZE : Z := 128.

Section Blocks.
Context (D : raw_digest).
(** The secret positions: the block and the offset of the byte 0x80, the block of the length, and the length. *)
Record positions := mkPos { pc : Z; index_a : Z; index_b : Z; length_bytes : list Z }.
Context (header data : list Z) (total : Z) (ps : positions).

(** The byte [j] of the block [i], which is the byte [k] of header and data. *)
Definition block_byte (i j k : Z) : Z :=
  let is_block_a := constant_time_eq_8 i (index_a ps) in
  let is_block_b := constant_time_eq_8 i (index_b ps) in
  let b := if k <? 13 then znth header k else if k <? wrap32 (total + 13) then znth data (k - 13) else 0 in
  let is_past_c := wrap8 (Z.land is_block_a (constant_time_ge j (pc ps))) in
  let is_past_cp1 := wrap8 (Z.land is_block_a (constant_time_ge j (wrap32 (pc ps + 1)))) in
  let b := wrap8 (Z.lor (Z.land b (Z.lnot is_past_c)) (Z.land 0x80 is_past_c)) in
  let b := wrap8 (Z.land b (Z.lnot is_past_cp1)) in
  let b := wrap8 (Z.land b (Z.lor (Z.lnot is_block_b) is_block_a)) in
  if md_block_size D - md_length_size D <=? j then
    wrap8 (Z.lor (Z.land b (Z.lnot is_block_b)) (Z.land is_block_b (znth (length_bytes ps) (j - (md_block_size D - md_length_size D)))))
  else b.
Definition build_block (i k : Z) : list Z := (fun j => block_byte i j (k + j)) <$> seqZ 0 (md_block_size D).

(** The loop over the last blocks: block number, offset, state, and [mac_out]. *)
Fixpoint final_blocks (n : nat) (i k : Z) (st : md_state D) (mac_out : list Z) : list Z :=
  match n with
  | O => mac_out
  | S n =>
      let is_block_b := constant_time_eq_8 i (index_b ps) in
      let st := md_transform D (build_block i k) st in
      let mac_out := zip_with (fun m b => Z.lor m (Z.land b is_block_b)) mac_out (ztake (raw_size D) (md_final_raw D st)) in
      final_blocks n (i + 1) (k + md_block_size D) st mac_out
  end.
(** The blocks that no padding can reach, from the second one on. *)
Fixpoint starting_blocks (n : nat) (i : Z) (st : md_state D) : md_state D :=
  match n with
  | O => st
  | S n => starting_blocks n (i + 1) (md_transform D (slice data (md_block_size D * i - 13) (md_block_size D)) st)
  end.
End Blocks.

Section Digest_record.
Context `{Allocator} `{Methods} `{!Engines} `{OtherDigests}.

(** Up to the inner digest of HMAC: [None] where an assertion fails.  [mac_secret] has [mac_secret_length] bytes. *)
Definition inner_digest (D : raw_digest) (header data : list Z) (data_plus_mac_size total : Z) (mac_secret : list Z) : option (list Z) :=
  if negb (md_length_size D <=? MAX_HASH_BIT_COUNT_BYTES) then None
  else if negb (md_block_size D <=? MAX_HASH_BLOCK_SIZE) then None
  else if negb (raw_size D <=? EVP_MAX_MD_SIZE) then None
  else
  let B := md_block_size D in
  let variance_blocks := 6 in
  let len := wrap32 (total + 13) in
  let max_mac_bytes := wrap32 (len - raw_size D - 1) in
  let num_blocks := wrap32 (max_mac_bytes + 1 + md_length_size D + B - 1) / B in
  let mac_end_offset := wrap32 (data_plus_mac_size + 13 - raw_size D) in
  let c := mac_end_offset mod B in
  let index_a := mac_end_offset / B in
  let index_b := wrap32 (mac_end_offset + md_length_size D) / B in
  let num_starting_blocks := if variance_blocks <? num_blocks then num_blocks - variance_blocks else 0 in
  let k := if variance_blocks <? num_blocks then wrap32 (B * num_starting_blocks) else 0 in
  let bits := wrap32 (wrap32 (8 * mac_end_offset) + 8 * B) in
  if negb (zlen mac_secret <=? MAX_HASH_BLOCK_SIZE) then None
  else
  let hmac_pad := ztake B (mac_secret ++ zeros MAX_HASH_BLOCK_SIZE) in
  let st := md_transform D (Z.lxor 0x36 <$> hmac_pad) (md_init D) in
  let length_bytes :=
    if length_is_big_endian D then zeros (md_length_size D - 4) ++ [wrap8 (Z.shiftr bits 24); wrap8 (Z.shiftr bits 16); wrap8 (Z.shiftr bits 8); wrap8 bits]
    else [wrap8 bits; wrap8 (Z.shiftr bits 8); wrap8 (Z.shiftr bits 16); wrap8 (Z.shiftr bits 24)] ++ zeros (md_length_size D - 4) in
  let st :=
    if 0 <? k then
      let st := md_transform D (ztake 13 header ++ ztake (B - 13) data) st in
      starting_blocks D data (Z.to_nat (k / B - 1)) 1 st
    else st in
  Some (final_blocks D header data total (mkPos c index_a index_b length_bytes) (Z.to_nat (variance_blocks + 1)) num_starting_blocks k st (zeros (raw_size D))).

(** The digest and its size.  The results of the updates and of the final call are not looked at; with the contexts of this function they
    do not fail. *)
Definition ssl3_cbc_digest_record (ctx : Evp.EVP_MD_CTX) (header data : list Z) (data_plus_mac_size total : Z) (mac_secret : list Z) : verdict (list Z * Z) :=
  if negb (total <? 1024 * 1024) then Dies
  else
  match raw_of (EVP_MD_CTX_type ctx) with
  | None => Dies
  | Some D =>
      match inner_digest D header data data_plus_mac_size total mac_secret with
      | None => Dies
      | Some mac_out =>
          let hmac_pad := Z.lxor 0x6a <$> (Z.lxor 0x36 <$> ztake (md_block_size D) (mac_secret ++ zeros MAX_HASH_BLOCK_SIZE)) in
          match Evp.EVP_DigestInit_ex (Evp.digest ctx) None Evp.EVP_MD_CTX_init with
          | (None, _) => Fails
          | (Some _, md_ctx) =>
              let md_ctx := snd (Evp.EVP_DigestUpdate hmac_pad md_ctx) in
              let md_ctx := snd (Evp.EVP_DigestUpdate mac_out md_ctx) in
              match fst (Evp.EVP_DigestFinal md_ctx) with
              | Some (md_out, md_out_size_u) => Gives (md_out, md_out_size_u)
              | None => Fails
              end
          end
      end
  end.
End Digest_record.
