(* ===== verification/S3CbcSpec.v ===== *)
(** * What the constant-time CBC functions compute

    Each function of S3Cbc is compared with its purpose, written without masks: the padding of RFC 5246, section 6.2.3.2, the
    bytes before the padding, and the HMAC of the record. *)
From S2P Require Import Prelude Compat Words Md32 Sha256 EvpDigest Hmac S3Cbc.

(** ** Masks *)
Definition mask32 (b : bool) : Z := if b then 2 ^ 32 - 1 else 0.
Lemma msb_mask x : 0 <= x < 2 ^ 32 -> DUPLICATE_MSB_TO_ALL x = mask32 (2 ^ 31 <=? x).
Proof.
  intros Hx. unfold DUPLICATE_MSB_TO_ALL, to_int, wrap32. rewrite Z.shiftr_div_pow2 by lia.
  destruct (Z.ltb_spec x (2 ^ 31)), (Z.leb_spec (2 ^ 31) x); try lia; unfold mask32.
  - rewrite Z.div_small by lia. done.
  - replace ((x - 2 ^ 32) / 2 ^ 31) with (-1); [done|]. apply (Z.div_unique_pos _ _ _ (x - 2 ^ 31)); lia.
Qed.
Lemma wrap32_sub a b : 0 <= a < 2 ^ 31 -> 0 <= b < 2 ^ 31 -> wrap32 (a - b) = if a <? b then a - b + 2 ^ 32 else a - b.
Proof.
  intros. unfold wrap32. destruct (Z.ltb_spec a b); [|apply Z.mod_small; lia].
  symmetry. apply (Z.mod_unique_pos _ _ (-1)); lia.
Qed.
Lemma constant_time_lt_mask a b : 0 <= a < 2 ^ 31 -> 0 <= b < 2 ^ 31 -> constant_time_lt a b = mask32 (a <? b).
Proof.
  intros Ha Hb. unfold constant_time_lt. rewrite wrap32_sub by done. rewrite msb_mask by (destruct (Z.ltb_spec a b); lia).
  f_equal. destruct (Z.ltb_spec a b); lia.
Qed.
Lemma constant_time_ge_mask a b : 0 <= a < 2 ^ 31 -> 0 <= b < 2 ^ 31 -> constant_time_ge a b = mask32 (b <=? a).
Proof.
  intros Ha Hb. unfold constant_time_ge. rewrite wrap32_sub by done.
  assert (Hl : forall y, 0 <= y < 2 ^ 32 -> wrap32 (Z.lnot y) = 2 ^ 32 - 1 - y).
  { intros y Hy. unfold wrap32, Z.lnot. symmetry. apply (Z.mod_unique_pos _ _ (-1)); lia. }
  rewrite Hl by (destruct (Z.ltb_spec a b); lia). rewrite msb_mask by (destruct (Z.ltb_spec a b); lia). f_equal.
  destruct (Z.ltb_spec a b); lia.
Qed.
Lemma lxor_bound n a b : 0 <= n -> 0 <= a < 2 ^ n -> 0 <= b < 2 ^ n -> 0 <= Z.lxor a b < 2 ^ n.
Proof.
  intros Hn Ha Hb. rewrite <- (Z.mod_small a (2 ^ n)), <- (Z.mod_small b (2 ^ n)), <- lxor_mod by lia. apply Z.mod_pos_bound. lia.
Qed.
Lemma constant_time_eq_8_mask a b : 0 <= a < 2 ^ 31 -> 0 <= b < 2 ^ 31 -> constant_time_eq_8 a b = if a =? b then 255 else 0.
Proof.
  intros Ha Hb. unfold constant_time_eq_8, DUPLICATE_MSB_TO_ALL_8. pose proof (lxor_bound 31 a b ltac:(lia) Ha Hb) as Hx.
  destruct (Z.eqb_spec a b) as [->|Hne]; [by rewrite Z.lxor_nilpotent|].
  assert (Z.lxor a b <> 0) by (rewrite Z.lxor_eq_0_iff; done). unfold wrap32 at 1. rewrite Z.mod_small by lia.
  rewrite msb_mask by lia. rewrite (proj2 (Z.leb_gt _ _)) by lia. done.
Qed.
Lemma land_mask32 (x : Z) (b : bool) : 0 <= x < 2 ^ 32 -> Z.land x (mask32 b) = if b then x else 0.
Proof. intros. destruct b; cbn [mask32]; [|apply Z.land_0_r]. rewrite land_mask by lia. apply Z.mod_small. lia. Qed.
Definition mask8 (b : bool) : Z := if b then 255 else 0.
Lemma wrap8_mask32 b : wrap8 (mask32 b) = mask8 b.
Proof. by destruct b. Qed.
Lemma land_mask8 (x : Z) (b : bool) : is_byte x -> Z.land x (mask8 b) = if b then x else 0.
Proof. unfold is_byte. intros. destruct b; cbn [mask8]; [|apply Z.land_0_r]. change 255 with (2 ^ 8 - 1). rewrite land_mask by lia. apply Z.mod_small. lia. Qed.
Lemma land_lnot_mask8 (x : Z) (b : bool) : is_byte x -> Z.land x (Z.lnot (mask8 b)) = if b then 0 else x.
Proof.
  intros Hx. destruct b; cbn [mask8]; [|by rewrite Z.land_m1_r]. unfold is_byte in Hx. rewrite <- Z.ldiff_land. change 255 with (Z.ones 8).
  rewrite Z.ldiff_ones_r, Z.shiftr_div_pow2, Z.div_small by lia. done.
Qed.
Lemma wrap8_byte x : is_byte x -> wrap8 x = x.
Proof. intros. apply Z.mod_small. done. Qed.

(** ** Padding *)
(** The padding of a record of [len] bytes that holds a MAC of [mac_size] bytes: the last byte says how many bytes are before it that
    have its value (RFC 5246, section 6.2.3.2). *)
Definition valid_padding (body : list Z) (mac_size : Z) : bool :=
  let p := default 0 (last body) in
  (1 + mac_size + p <=? zlen body) && bool_decide (Forall (fun b => b = p) (zdrop (zlen body - (p + 1)) body)).

(** The low byte of [good], and its bits put together. *)
Lemma fold_bits g : 0 <= g < 2 ^ 32 ->
  let g1 := Z.land g (Z.shiftr g 4) in let g2 := Z.land g1 (Z.shiftr g1 2) in let g3 := Z.land g2 (Z.shiftr g2 1) in
  DUPLICATE_MSB_TO_ALL (wrap32 (Z.shiftl g3 31)) = mask32 (Z.land g 255 =? 255).
Proof.
  intros Hg g1 g2 g3. set (b := Z.testbit g3 0).
  assert (Hb : wrap32 (Z.shiftl g3 31) = if b then 2 ^ 31 else 0).
  { unfold wrap32. rewrite Z.shiftl_mul_pow2 by lia. change (2 ^ 32) with (2 * 2 ^ 31). rewrite Z.mul_mod_distr_r by lia.
    rewrite <- Z.bit0_mod. fold b. by destruct b. }
  rewrite Hb, msb_mask by (destruct b; lia). f_equal.
  assert (Hb8 : b = forallb (Z.testbit g) [0; 4; 2; 6; 1; 5; 3; 7]).
  { unfold b, g3, g2, g1. rewrite !Z.land_spec, !Z.shiftr_spec, !Z.land_spec, !Z.shiftr_spec, !Z.land_spec, !Z.shiftr_spec by lia. cbn [forallb].
    change (0 + 4) with 4. change (0 + 2) with 2. change (0 + 1) with 1. change (0 + 2 + 4) with 6. change (0 + 1 + 2) with 3. change (0 + 1 + 4) with 5. change (0 + 1 + 2 + 4) with 7.
    rewrite andb_true_r, !andb_assoc. done. }
  transitivity b; [by destruct b|]. rewrite Hb8. destruct (Z.eqb_spec (Z.land g 255) 255) as [E|E].
  - apply forallb_forall. intros n Hn. assert (0 <= n < 8) by (cbn in Hn; lia). apply (f_equal (fun v => Z.testbit v n)) in E.
    change 255 with (Z.ones 8) in E. rewrite Z.land_spec, Z.ones_spec_low, andb_true_r in E by lia. done.
  - apply not_true_iff_false. intros Hall. apply E, Z.bits_inj'. intros n Hn. change 255 with (Z.ones 8). rewrite Z.land_spec.
    destruct (Z.ltb_spec n 8); [|by rewrite Z.ones_spec_high, andb_false_r by lia]. rewrite Z.ones_spec_low, andb_true_r by lia.
    rewrite forallb_forall in Hall. apply Hall. cbn. lia.
Qed.

Lemma padding_step good x : 0 <= good < 2 ^ 32 -> is_byte x ->
  let good' := Z.land good (wrap32 (Z.lnot x)) in
  0 <= good' < 2 ^ 32 /\ (Z.land good' 255 = 255 <-> Z.land good 255 = 255 /\ x = 0).
Proof.
  intros Hg Hx good'. unfold is_byte in Hx. assert (Hw : wrap32 (Z.lnot x) = 2 ^ 32 - 1 - x).
  { unfold wrap32, Z.lnot. symmetry. apply (Z.mod_unique_pos _ _ (-1)); lia. }
  unfold good'. rewrite Hw. split; [apply land_bound; lia|].
  assert (H8 : forall v, Z.land v 255 = v mod 256) by (intros v; change 255 with (2 ^ 8 - 1); by rewrite land_mask by lia).
  rewrite !H8. change 256 with (2 ^ 8). rewrite land_mod by lia. set (g := good mod 2 ^ 8). assert (0 <= g < 256) by (apply Z.mod_pos_bound; lia).
  replace ((2 ^ 32 - 1 - x) mod 2 ^ 8) with (255 - x) by (apply (Z.mod_unique_pos _ _ (2 ^ 24 - 1)); lia).
  destruct (Z.eq_dec x 0) as [->|Hne].
  - rewrite Z.sub_0_r, H8, Z.mod_small by lia. tauto.
  - split; [|tauto]. intros E. exfalso. pose proof (Z.land_nonneg g (255 - x)).
    assert (Hle : Z.land g (255 - x) <= 255 - x).
    { replace (Z.land g (255 - x)) with (255 - x - Z.ldiff (255 - x) g); [pose proof (Z.ldiff_nonneg (255 - x) g); lia|].
      rewrite Z.land_comm. assert (Hd : Z.land (Z.ldiff (255 - x) g) (Z.land (255 - x) g) = 0).
      { apply Z.bits_inj'. intros n _. rewrite !Z.land_spec, Z.ldiff_spec, Z.bits_0. by destruct (Z.testbit (255 - x) n), (Z.testbit g n). }
      enough (255 - x = Z.ldiff (255 - x) g + Z.land (255 - x) g) by lia. rewrite Z.add_nocarry_lxor, Z.lxor_lor by done.
      apply Z.bits_inj'. intros n _. rewrite Z.lor_spec, Z.ldiff_spec, Z.land_spec. by destruct (Z.testbit (255 - x) n), (Z.testbit g n). }
    lia.
Qed.
Lemma znth_byte l i : Forall is_byte l -> is_byte (znth l i).
Proof.
  intros Hl. unfold znth. destruct (Nat.lt_ge_cases (Z.to_nat i) (length l)) as [Hi|Hi]; [|rewrite nth_overflow by done; unfold is_byte; lia].
  eapply Forall_forall; [exact Hl|]. apply list_elem_of_In, nth_In. done.
Qed.
Lemma padding_loop_spec n : forall i rec p good,
  0 <= good < 2 ^ 32 -> is_byte p -> Forall is_byte (rec_data rec) -> 0 <= i -> i + Z.of_nat n <= rec_length rec < 2 ^ 31 ->
  let g := padding_loop n i rec p good in
  0 <= g < 2 ^ 32 /\ (Z.land g 255 = 255 <-> Z.land good 255 = 255 /\
    forall k, i <= k < i + Z.of_nat n -> k <= p -> znth (rec_data rec) (rec_length rec - 1 - k) = p).
Proof.
  induction n as [|n IH]; intros i rec p good Hg Hp Hb Hi Hn; cbn [padding_loop].
  { split; [done|]. split; [|tauto]. intros; split; [done|]. lia. }
  pose proof Hp as Hp'. unfold is_byte in Hp'.
  assert (Hw : wrap32 (rec_length rec - 1 - i) = rec_length rec - 1 - i) by (apply Z.mod_small; lia).
  rewrite Hw, constant_time_ge_mask, wrap8_mask32 by lia. set (b := znth (rec_data rec) (rec_length rec - 1 - i)).
  assert (Hbb : is_byte b) by (by apply znth_byte).
  assert (Hx : Z.land (mask8 (i <=? p)) (Z.lxor p b) = if i <=? p then Z.lxor p b else 0).
  { rewrite Z.land_comm. apply land_mask8, lxor_byte; done. }
  rewrite Hx. destruct (padding_step good (if i <=? p then Z.lxor p b else 0) Hg) as [Hg' Hs].
  { destruct (_ <=? _); [by apply lxor_byte|unfold is_byte; lia]. }
  destruct (IH (i + 1) rec p _ Hg' Hp Hb ltac:(lia) ltac:(lia)) as [Hr Hiff]. split; [done|]. rewrite Hiff, Hs. split.
  - intros [[Hgo Hz] Hk]. split; [done|]. intros k Hkr Hkp. destruct (Z.eq_dec k i) as [->|]; [|apply Hk; lia].
    rewrite (proj2 (Z.leb_le _ _)) in Hz by lia. symmetry. exact (proj1 (Z.lxor_eq_0_iff p b) Hz).
  - intros [Hgo Hk]. split_and!; [done| |intros k Hkr Hkp; apply Hk; lia].
    destruct (Z.leb_spec i p); [|done]. apply Z.lxor_eq_0_iff. symmetry. apply Hk; lia.
Qed.

Lemma znth_ztake n l i : 0 <= i < n -> znth (ztake n l) i = znth l i.
Proof. intros. unfold znth, ztake. rewrite !nth_lookup, lookup_take_lt by lia. done. Qed.
Lemma znth_last l : l <> [] -> znth l (zlen l - 1) = default 0 (last l).
Proof.
  intros Hl. destruct l as [|x l _] using rev_ind; [done|]. rewrite last_snoc. cbn [default]. apply znth_app_at. zl.
Qed.
Lemma Forall_zdrop_znth (P : Z -> Prop) n l : 0 <= n <= zlen l -> Forall P (zdrop n l) <-> (forall k, 0 <= k < zlen l - n -> P (znth l (zlen l - 1 - k))).
Proof.
  intros Hn. rewrite Forall_lookup. split.
  - intros Hall k Hk. apply (Hall (Z.to_nat (zlen l - 1 - k - n))). unfold zdrop. rewrite lookup_drop.
    unfold znth. rewrite nth_lookup. replace (Z.to_nat n + Z.to_nat (zlen l - 1 - k - n))%nat with (Z.to_nat (zlen l - 1 - k)) by lia.
    destruct (lookup_lt_is_Some_2 l (Z.to_nat (zlen l - 1 - k))) as [x Hx]; [unfold zlen in *; lia|]. by rewrite Hx.
  - intros Hall i x Hx. unfold zdrop in Hx. rewrite lookup_drop in Hx. pose proof (lookup_lt_Some _ _ _ Hx) as Hlt.
    specialize (Hall (zlen l - 1 - (n + Z.of_nat i))). replace (zlen l - 1 - (zlen l - 1 - (n + Z.of_nat i))) with (n + Z.of_nat i) in Hall by lia.
    unfold znth in Hall. rewrite nth_lookup in Hall. replace (Z.to_nat (n + Z.of_nat i)) with (Z.to_nat n + i)%nat in Hall by lia. rewrite Hx in Hall. cbn in Hall. apply Hall. unfold zlen in *. lia.
Qed.

Lemma remove_padding_spec (rec : SSL3_RECORD_INTERNAL) (eiv_len mac_size : Z) :
  Forall is_byte (rec_data rec) -> 0 <= rec_length rec <= zlen (rec_data rec) -> rec_length rec < 2 ^ 30 -> 0 <= eiv_len <= 16 -> 0 <= mac_size <= 64 ->
  ssl3_cbc_remove_padding rec eiv_len mac_size =
  if rec_length rec <? 1 + mac_size + eiv_len then (0, rec)
  else
    let L := rec_length rec - eiv_len in
    let body := ztake L (zdrop eiv_len (rec_data rec)) in
    let p := default 0 (last body) in
    if valid_padding body mac_size then (1, mkRec (L - (p + 1)) (p + 1) (zdrop eiv_len (rec_data rec)) (zdrop eiv_len (rec_input rec)))
    else (-1, mkRec L 0 (zdrop eiv_len (rec_data rec)) (zdrop eiv_len (rec_input rec))).
Proof.
  intros Hb Hn Hmax He Hm. unfold ssl3_cbc_remove_padding.
  assert (W : forall v, 0 <= v < 2 ^ 32 -> wrap32 v = v) by (intros v Hv; by apply Z.mod_small).
  rewrite (W (1 + mac_size)), (W (1 + mac_size + eiv_len)) by lia. destruct (Z.ltb_spec (rec_length rec) (1 + mac_size + eiv_len)) as [|Hlong]; [done|].
  cbn [rec_length rec_data rec_input rec_padding_length]. cbv zeta. rewrite (W (rec_length rec - eiv_len)) by lia. set (L := rec_length rec - eiv_len). set (d := zdrop eiv_len (rec_data rec)).
  set (body := ztake L d). assert (HL : 1 + mac_size <= L < 2 ^ 30) by lia. assert (Hd : L <= zlen d) by (unfold d; rewrite zlen_zdrop by lia; lia).
  assert (Hbl : zlen body = L) by (unfold body; rewrite zlen_ztake by lia; lia).
  assert (Hnth : forall k, 0 <= k < L -> znth body k = znth d k) by (intros; by apply znth_ztake).
  assert (Hbd : Forall is_byte d) by (by apply Forall_zdrop). assert (Hne : body <> []) by (intros E; rewrite E in Hbl; change (zlen (@nil Z)) with 0 in Hbl; lia).
  rewrite (W (L - 1)) by lia. assert (Hlast : znth d (L - 1) = default 0 (last body)) by (rewrite <- Hnth by lia; rewrite <- (znth_last body Hne), Hbl; done).
  rewrite Hlast. set (p := default 0 (last body)).
  assert (Hp : is_byte p) by (unfold p; rewrite <- znth_last by done; apply znth_byte; by apply Forall_ztake). pose proof Hp as Hp'. unfold is_byte in Hp'.
  rewrite (W (1 + mac_size + p)), constant_time_ge_mask by lia.
  set (n := if L <? 256 then L else 256). assert (Hn' : 0 <= n <= L /\ n <= 256 /\ (L <= n \/ n = 256)) by (unfold n; destruct (Z.ltb_spec L 256); lia).
  destruct (padding_loop_spec (Z.to_nat n) 0 (mkRec L (rec_padding_length rec) d (zdrop eiv_len (rec_input rec))) p (mask32 (1 + mac_size + p <=? L))) as [Hg Hiff];
    [unfold mask32; destruct (1 + mac_size + p <=? L); lia|done|done|lia|cbn [rec_length]; rewrite Z2Nat.id by apply Hn'; split; [lia|]; apply Z.lt_trans with (2 ^ 30); [apply HL|done]|]. cbn [rec_length rec_data] in Hiff.
  set (g := padding_loop _ _ _ _ _) in *. rewrite fold_bits by done.
  assert (Hv : (Z.land g 255 =? 255) = valid_padding body mac_size).
  { apply eq_true_iff_eq. rewrite Z.eqb_eq, Hiff. unfold valid_padding. fold p. rewrite Hbl, andb_true_iff, bool_decide_eq_true, Z.leb_le.
    destruct (Z.leb_spec (1 + mac_size + p) L) as [Hle|Hgt]; cbn [mask32]; [|split; [intros [E _]; discriminate E|intros [E _]; lia]].
    rewrite Forall_zdrop_znth by lia. rewrite Hbl. split.
    - intros [_ Hk]. split; [done|]. intros k Hkr. rewrite Hnth by lia. apply Hk; lia.
    - intros [_ Hk]. split; [done|]. intros k Hkr Hkp. rewrite <- Hnth by lia. apply Hk. lia. }
  rewrite Hv. destruct (valid_padding body mac_size) eqn:Ev.
  - rewrite (W (p + 1)) by lia. rewrite (Z.land_comm (mask32 true) (p + 1)), (land_mask32 (p + 1)) by lia. unfold valid_padding in Ev. fold p in Ev. apply andb_true_iff in Ev as [Ele _]. rewrite Hbl in Ele. apply Z.leb_le in Ele.
    rewrite (W (L - (p + 1))) by lia. done.
  - cbn [mask32]. rewrite Z.land_0_l, Z.sub_0_r, (W L) by lia. done.
Qed.
(** [ssl3_cbc_remove_padding] refuses a record too short for its explicit IV, a MAC and one byte of padding.  Otherwise it skips
    the IV and, when the padding is that of RFC 5246, takes it off and returns 1; when it is not, it leaves the length, claims a padding of
    no bytes and returns -1. *)
Theorem ssl3_cbc_remove_padding_rfc5246 (rec : SSL3_RECORD_INTERNAL) (eiv_len mac_size : Z) :
  Forall is_byte (rec_data rec) -> 0 <= rec_length rec <= zlen (rec_data rec) -> rec_length rec < 2 ^ 30 -> 0 <= eiv_len <= 16 -> 0 <= mac_size <= 64 ->
  ssl3_cbc_remove_padding rec eiv_len mac_size =
  if rec_length rec <? 1 + mac_size + eiv_len then (0, rec)
  else
    let L := rec_length rec - eiv_len in
    let body := ztake L (zdrop eiv_len (rec_data rec)) in
    let p := default 0 (last body) in
    if valid_padding body mac_size then (1, mkRec (L - (p + 1)) (p + 1) (zdrop eiv_len (rec_data rec)) (zdrop eiv_len (rec_input rec)))
    else (-1, mkRec L 0 (zdrop eiv_len (rec_data rec)) (zdrop eiv_len (rec_input rec))).
Proof. apply remove_padding_spec. Qed.

(** ** The MAC *)
Lemma znth_seqZ (f : Z -> Z) n i : 0 <= i < n -> znth (f <$> seqZ 0 n) i = f i.
Proof.
  intros Hi. unfold znth. rewrite nth_lookup, list_lookup_fmap, lookup_seqZ_lt by lia. cbn. f_equal. lia.
Qed.
Lemma zlen_seqZ (f : Z -> Z) n : 0 <= n -> zlen (f <$> seqZ 0 n) = n.
Proof. intros. unfold zlen. rewrite length_fmap, length_seqZ. lia. Qed.
Lemma list_eq_znth (a b : list Z) : zlen a = zlen b -> (forall i, 0 <= i < zlen a -> znth a i = znth b i) -> a = b.
Proof.
  unfold zlen, znth. intros Hl Hi. apply (nth_ext _ _ 0 0); [lia|]. intros n Hn. specialize (Hi (Z.of_nat n) ltac:(lia)). by rewrite !Nat2Z.id in Hi.
Qed.
Lemma znth_insert l i j v : 0 <= i < zlen l -> 0 <= j -> znth (<[Z.to_nat i := v]> l) j = if i =? j then v else znth l j.
Proof.
  unfold zlen, znth. intros Hi Hj. rewrite !nth_lookup. destruct (Z.eqb_spec i j) as [->|]; [by rewrite list_lookup_insert_eq by lia|].
  rewrite list_lookup_insert_ne by lia. done.
Qed.
(** The next slot, without a division. *)
Lemma next_slot j md : 0 < md <= 64 -> 0 <= j < md -> Z.land (j + 1) (constant_time_lt (j + 1) md) = (j + 1) mod md.
Proof.
  intros Hm Hj. rewrite constant_time_lt_mask, land_mask32 by lia. destruct (Z.ltb_spec (j + 1) md).
  - symmetry. apply Z.mod_small. lia.
  - replace (j + 1) with md by lia. by rewrite Z.mod_same by lia.
Qed.

Section CopyMac.
Context (data : list Z) (scan ms md : Z).
Context (Hdata : Forall is_byte data) (Hscan : 0 <= scan <= ms) (Hmd : 0 < md <= 64) (Hms : ms + md < 2 ^ 31).

(** The index of the byte of the MAC that belongs in the slot [m]. *)
Definition slot_index (m : Z) : Z := ms + (m - (ms - scan)) mod md.
Definition rotated_upto (i : Z) : list Z := (fun m => if slot_index m <? i then znth data (slot_index m) else 0) <$> seqZ 0 md.

Lemma slot_index_range m : ms <= slot_index m < ms + md.
Proof. unfold slot_index. pose proof (Z.mod_pos_bound (m - (ms - scan)) md). lia. Qed.
Lemma slot_index_eq m i : 0 <= m < md -> ms <= i < ms + md -> slot_index m = i <-> m = (i - scan) mod md.
Proof.
  intros Hm Hi. unfold slot_index. split.
  - intros E. rewrite (Z.mod_eq (m - (ms - scan))) in E by lia.
    replace (i - scan) with (m + (- ((m - (ms - scan)) / md)) * md) by lia. rewrite Z.mod_add, Z.mod_small by lia. done.
  - intros ->. replace ((i - scan) mod md - (ms - scan)) with ((i - ms) + (- ((i - scan) / md)) * md) by (rewrite (Z.mod_eq (i - scan)) by lia; lia).
    rewrite Z.mod_add, Z.mod_small by lia. lia.
Qed.
Lemma rotated_step i : scan <= i < 2 ^ 31 ->
  let j := (i - scan) mod md in
  <[Z.to_nat j := wrap8 (Z.lor (znth (rotated_upto i) j) (Z.land (Z.land (znth data i) (mask8 (ms <=? i))) (Z.lnot (mask8 (ms + md <=? i)))))]> (rotated_upto i) = rotated_upto (i + 1).
Proof.
  intros Hi j. assert (Hj : 0 <= j < md) by (apply Z.mod_pos_bound; lia). pose proof (znth_byte data i Hdata) as Hb.
  rewrite land_mask8 by done. set (b := if ms <=? i then znth data i else 0). assert (is_byte b) by (unfold b; destruct (_ <=? _); [done|unfold is_byte; lia]).
  rewrite land_lnot_mask8 by done. apply list_eq_znth; [by rewrite zlen_insert; unfold rotated_upto; rewrite !zlen_seqZ by lia|].
  rewrite zlen_insert. unfold rotated_upto at 1. rewrite zlen_seqZ by lia. intros m Hm. rewrite znth_insert by (unfold rotated_upto; rewrite ?zlen_seqZ by lia; lia).
  unfold rotated_upto at 3. rewrite znth_seqZ by lia. pose proof (slot_index_range m) as Hs. pose proof (znth_byte data (slot_index m) Hdata) as Hbm.
  unfold rotated_upto. destruct (Z.eqb_spec j m) as [<-|Hne].
  - rewrite znth_seqZ by lia. unfold b. destruct (Z.leb_spec (ms + md) i).
    + rewrite Z.lor_0_r, (proj2 (Z.ltb_lt (slot_index j) i)), (proj2 (Z.ltb_lt (slot_index j) (i + 1))) by lia. by apply wrap8_byte.
    + destruct (Z.leb_spec ms i).
      * assert (Ej : slot_index j = i) by (by apply slot_index_eq). rewrite Ej, Z.ltb_irrefl, (proj2 (Z.ltb_lt i (i + 1))) by lia. rewrite Z.lor_0_l. by apply wrap8_byte.
      * rewrite (proj2 (Z.ltb_ge (slot_index j) i)), (proj2 (Z.ltb_ge (slot_index j) (i + 1))) by lia. done.
  - rewrite znth_seqZ by lia. assert (slot_index m <> i).
    { intros E. apply Hne. unfold j. symmetry. apply slot_index_eq; lia. }
    destruct (Z.ltb_spec (slot_index m) i), (Z.ltb_spec (slot_index m) (i + 1)); (done || lia).
Qed.
Lemma scan_loop_spec n : forall i, scan <= i -> i + Z.of_nat n < 2 ^ 31 ->
  scan_loop n i ((i - scan) mod md) data ms (ms + md) md (rotated_upto i) = rotated_upto (i + Z.of_nat n).
Proof.
  induction n as [|n IH]; intros i Hi Hn; cbn [scan_loop]; [by rewrite Z.add_0_r|].
  rewrite !constant_time_ge_mask, !wrap8_mask32, rotated_step by lia. pose proof (Z.mod_pos_bound (i - scan) md ltac:(lia)).
  rewrite next_slot by lia. rewrite Zplus_mod_idemp_l. replace (i - scan + 1) with (i + 1 - scan) by lia. rewrite IH by lia. f_equal. lia.
Qed.
Lemma rotate_loop_spec n : forall t, 0 <= t -> t + Z.of_nat n <= md -> ms + md <= zlen data ->
  rotate_loop n ((ms - scan + t) mod md) md (rotated_upto (ms + md)) = slice data (ms + t) (Z.of_nat n).
Proof.
  induction n as [|n IH]; intros t Ht Hn Hl; cbn [rotate_loop]; [done|].
  pose proof (Z.mod_pos_bound (ms - scan + t) md ltac:(lia)). rewrite next_slot by lia. rewrite Zplus_mod_idemp_l, <- Z.add_assoc, IH by lia.
  unfold rotated_upto. rewrite znth_seqZ by lia. pose proof (slot_index_range ((ms - scan + t) mod md)).
  assert (Es : slot_index ((ms - scan + t) mod md) = ms + t) by (apply slot_index_eq; [lia|lia|f_equal; lia]).
  rewrite Es, (proj2 (Z.ltb_lt _ _)) by lia. unfold slice, ztake, zdrop. rewrite !Nat2Z.id, Z.add_assoc.
  replace (Z.to_nat (ms + t + 1)) with (S (Z.to_nat (ms + t))) by lia. destruct (drop (Z.to_nat (ms + t)) data) as [|x l] eqn:Ed.
  { apply (f_equal length) in Ed. rewrite length_drop in Ed. unfold zlen in Hl. cbn in Ed. lia. }
  replace (drop (S (Z.to_nat (ms + t))) data) with l by (rewrite <- Nat.add_1_r, <- drop_drop, Ed; done).
  cbn [take]. f_equal. unfold znth. rewrite nth_lookup, <- (Nat.add_0_r (Z.to_nat (ms + t))), <- lookup_drop, Ed. done.
Qed.
End CopyMac.

(** [ssl3_cbc_copy_mac] returns the [md_size] bytes that end at the secret length of the record, as long as that length is at most 256
    bytes short of the public one. *)
Lemma ssl3_cbc_copy_mac_slice (rec : SSL3_RECORD_INTERNAL) (md_size orig_len : Z) :
  Forall is_byte (rec_data rec) -> 0 < md_size <= 64 -> md_size mod 2 = 0 -> md_size <= rec_length rec <= orig_len -> orig_len <= rec_length rec + 256 ->
  orig_len <= zlen (rec_data rec) -> orig_len < 2 ^ 30 ->
  ssl3_cbc_copy_mac rec md_size orig_len = Gives (slice (rec_data rec) (rec_length rec - md_size) md_size).
Proof.
  intros Hb Hm Heven Hl Hpad Hlen Hmax. unfold ssl3_cbc_copy_mac.
  assert (W : forall v, 0 <= v < 2 ^ 32 -> wrap32 v = v) by (intros v Hv; by apply Z.mod_small).
  rewrite (proj2 (Z.ltb_ge orig_len md_size)), (proj2 (Z.ltb_ge EVP_MAX_MD_SIZE md_size)) by (unfold EVP_MAX_MD_SIZE; lia).
  rewrite (W (rec_length rec - md_size)), (W (md_size + 255 + 1)) by lia. set (ms := rec_length rec - md_size).
  set (scan := if md_size + 255 + 1 <? orig_len then wrap32 (orig_len - (md_size + 255 + 1)) else 0).
  assert (Hscan : 0 <= scan <= ms) by (unfold scan, ms; destruct (Z.ltb_spec (md_size + 255 + 1) orig_len); [rewrite W by lia|]; lia).
  assert (Hdiv : exists q, wrap32 (Z.shiftl (Z.shiftr md_size 1) 24) = q * md_size /\ 0 <= q * md_size <= 2 ^ 29).
  { exists (2 ^ 23). rewrite Z.shiftr_div_pow2, Z.shiftl_mul_pow2 by lia. change (2 ^ 1) with 2. assert (md_size = 2 * (md_size / 2)) by (rewrite (Z.div_mod md_size 2) at 1 by lia; lia). rewrite W by lia. lia. }
  destruct Hdiv as (q & -> & Hq). rewrite (W (q * md_size + ms - scan)) by lia. replace (q * md_size + ms - scan) with (ms - scan + 0 + q * md_size) by lia. rewrite Z.mod_add by lia.
  replace (zeros md_size) with (rotated_upto (rec_data rec) scan ms md_size scan).
  2: { apply list_eq_znth; unfold rotated_upto; rewrite zlen_seqZ by lia; [by rewrite zlen_zeros by lia|]. intros i Hi. rewrite znth_seqZ by lia.
       pose proof (slot_index_range scan ms md_size Hm i). rewrite (proj2 (Z.ltb_ge _ _)) by lia.
       unfold znth, zeros. rewrite nth_lookup, lookup_replicate_2 by lia. done. }
  assert (Hms : ms + md_size < 2 ^ 31) by lia.
  pose proof (scan_loop_spec (rec_data rec) scan ms md_size Hb Hscan Hm Hms (Z.to_nat (orig_len - scan)) scan ltac:(lia) ltac:(lia)) as E.
  rewrite Z.sub_diag, Z.mod_0_l, Z2Nat.id in E by lia. replace (ms + md_size) with (rec_length rec) in E at 1 by lia. rewrite E.
  replace (rotated_upto (rec_data rec) scan ms md_size (scan + (orig_len - scan))) with (rotated_upto (rec_data rec) scan ms md_size (ms + md_size)).
  - rewrite rotate_loop_spec by (done || lia). rewrite Z.add_0_r, Z2Nat.id by lia. done.
  - apply list_fmap_ext. intros i m Hlk. pose proof (slot_index_range scan ms md_size Hm m). rewrite !(proj2 (Z.ltb_lt _ _)) by lia. done.
Qed.

(** ** The digest of the record *)
(** A block of an iterated hash. *)
Definition block_ok (D : raw_digest) (b : list Z) : Prop := zlen b = md_block_size D /\ Forall is_byte b.
Definition run (D : raw_digest) (bl : list (list Z)) : md_state D := fold_left (fun st b => md_transform D b st) bl (md_init D).
Definition blocks (B n : Z) (m : list Z) : list (list Z) := (fun i => slice m (B * i) B) <$> seqZ 0 n.
(** The padding of an iterated hash: a one bit, zeros and the length in bits. *)
Definition raw_pad (D : raw_digest) (m : list Z) : list Z :=
  m ++ [0x80] ++ zeros ((md_block_size D - md_length_size D - 1 - zlen m) mod md_block_size D) ++
  (if length_is_big_endian D then be_bytes else le_bytes) (Z.to_nat (md_length_size D)) (8 * zlen m).
Definition raw_hash (D : raw_digest) (m : list Z) : list Z :=
  let p := raw_pad D m in ztake (raw_size D) (md_final_raw D (run D (blocks (md_block_size D) (zlen p / md_block_size D) p))).

(** The pieces of a digest that the switch picks make up the digest [m] of the EVP table. *)
Record raw_ok `{Methods} `{!MdLaws} (D : raw_digest) (m : md) : Prop := {
  raw_sizes : raw_size D = md_size m /\ md_block_size D = block_size m;
  raw_lengths : (md_block_size D = 64 /\ md_length_size D = 8) \/ (md_block_size D = 128 /\ md_length_size D = 16);
  raw_out bl : Forall (block_ok D) bl -> raw_size D <= zlen (md_final_raw D (run D bl));
  raw_digest_ok s : Forall is_byte s -> zlen s < 2 ^ 24 -> md_hash m s = raw_hash D s
}.

Lemma run_snoc D bl b : run D (bl ++ [b]) = md_transform D b (run D bl).
Proof. unfold run. by rewrite fold_left_app. Qed.
Lemma blocks_snoc B n m : 0 <= n -> blocks B (n + 1) m = blocks B n m ++ [slice m (B * n) B].
Proof. intros. unfold blocks. rewrite seqZ_app by lia. rewrite fmap_app. done. Qed.

Section Positions.
Context (D : raw_digest) (header data : list Z) (total sz E : Z).
Abbreviation B := (md_block_size D).
Abbreviation Ls := (md_length_size D).
Context (Hlen : (B = 64 /\ Ls = 8) \/ (B = 128 /\ Ls = 16)) (Hh : zlen header = 13 /\ Forall is_byte header) (Hd : Forall is_byte data).
Context (Ht : 0 <= total < 2 ^ 20) (Htd : total <= zlen data) (HE : 13 <= E <= total + 13).
Context (lb : list Z) (Hlb : zlen lb = Ls /\ Forall is_byte lb).

(** What is hashed, from the header on, with its padding. *)
Definition message : list Z := header ++ ztake (E - 13) data.
Definition z_pad : Z := (- Ls - 1 - E) mod B.
Definition stream : list Z := message ++ [0x80] ++ zeros z_pad ++ lb.
Abbreviation ia := (E / B).
Abbreviation ib := ((E + Ls) / B).
Abbreviation ps := (mkPos (E mod B) ia ib lb).

Lemma zlen_message : zlen message = E.
Proof. unfold message. rewrite zlen_app, zlen_ztake by lia. destruct Hh. lia. Qed.
Lemma final_block_end : E + 1 + z_pad + Ls = B * (ib + 1).
Proof. unfold z_pad. destruct Hlen as [[-> ->]|[-> ->]]; dlia. Qed.
Lemma zlen_stream : zlen stream = B * (ib + 1).
Proof.
  unfold stream. assert (0 <= z_pad) by (apply Z.mod_pos_bound; lia). rewrite !zlen_app, zlen_message, zlen_zeros by done. destruct Hlb as [-> _].
  change (zlen [0x80]) with 1. rewrite <- final_block_end. lia.
Qed.
Lemma znth_app_l a b i : 0 <= i < zlen a -> znth (a ++ b) i = znth a i.
Proof. unfold zlen, znth. intros. apply app_nth1. lia. Qed.
Lemma znth_app_r a b i : zlen a <= i -> znth (a ++ b) i = znth b (i - zlen a).
Proof. unfold zlen, znth. intros. rewrite app_nth2 by lia. f_equal. lia. Qed.
Lemma znth_zeros n i : znth (zeros n) i = 0.
Proof. unfold znth, zeros. destruct (Nat.lt_ge_cases (Z.to_nat i) (Z.to_nat n)); [by rewrite nth_lookup, lookup_replicate_2|by rewrite nth_overflow by (by rewrite length_replicate)]. Qed.
Lemma znth_message x : 0 <= x < E -> znth message x = if x <? 13 then znth header x else znth data (x - 13).
Proof.
  intros Hx. destruct Hh as [Hh1 _]. unfold message. destruct (Z.ltb_spec x 13); [by rewrite znth_app_l by lia|].
  rewrite znth_app_r, Hh1, znth_ztake by lia. done.
Qed.
Lemma znth_stream x : 0 <= x < B * (ib + 1) ->
  znth stream x = if x <? E then znth message x else if x =? E then 0x80 else if x <? B * (ib + 1) - Ls then 0 else znth lb (x - (B * (ib + 1) - Ls)).
Proof.
  intros Hx. assert (0 <= z_pad) by (apply Z.mod_pos_bound; lia). pose proof zlen_message as Hm. pose proof final_block_end. unfold stream. destruct (Z.ltb_spec x E); [by rewrite znth_app_l by lia|].
  rewrite znth_app_r by lia. destruct (Z.eqb_spec x E) as [->|]; [by rewrite Hm, Z.sub_diag|].
  rewrite znth_app_r by (change (zlen [0x80]) with 1; lia). change (zlen [0x80]) with 1. destruct (Z.ltb_spec x (B * (ib + 1) - Ls)).
  - rewrite znth_app_l by (rewrite zlen_zeros by done; lia). apply znth_zeros.
  - rewrite znth_app_r by (rewrite zlen_zeros by done; lia). rewrite zlen_zeros by done. f_equal. lia.
Qed.
Lemma stream_bytes : Forall is_byte stream.
Proof.
  unfold stream, message. destruct Hh, Hlb. repeat (apply Forall_app; split); auto with bytes. apply Forall_singleton. unfold is_byte. lia.
Qed.

(** The masks do what the positions say. *)
Lemma block_byte_spec i j k : 0 <= i < 2 ^ 30 -> 0 <= j < B -> 0 <= k < 2 ^ 30 ->
  block_byte D header data total ps i j k =
  if (B - Ls <=? j) && (i =? ib) then znth lb (j - (B - Ls))
  else if (i =? ib) && negb (i =? ia) then 0
  else if (i =? ia) && (E mod B + 1 <=? j) then 0
  else if (i =? ia) && (E mod B <=? j) then 0x80
  else if k <? 13 then znth header k else if k <? total + 13 then znth data (k - 13) else 0.
Proof.
  intros Hi Hj Hk. assert (Hq : 0 <= ia < 2 ^ 30 /\ 0 <= ib < 2 ^ 30 /\ 0 <= E mod B < B) by (destruct Hlen as [[-> ->]|[-> ->]]; dlia).
  unfold block_byte. cbn [pc index_a index_b length_bytes]. assert (Wt : wrap32 (total + 13) = total + 13) by (apply Z.mod_small; lia). rewrite Wt.
  set (b := if k <? 13 then _ else _). assert (Hb : is_byte b).
  { unfold b. destruct (k <? 13); [apply znth_byte, Hh|]. destruct (k <? total + 13); [by apply znth_byte|unfold is_byte; lia]. }
  assert (Wc : wrap32 (E mod B + 1) = E mod B + 1) by (apply Z.mod_small; lia). rewrite Wc.
  rewrite !constant_time_eq_8_mask, !constant_time_ge_mask by lia. set (l := znth lb _). assert (Hl : is_byte l) by (apply znth_byte, Hlb).
  change (if i =? ia then 255 else 0) with (mask8 (i =? ia)). change (if i =? ib then 255 else 0) with (mask8 (i =? ib)).
  assert (Hpast : forall p q, wrap8 (Z.land (mask8 p) (mask32 q)) = mask8 (p && q)) by (intros [] []; reflexivity). rewrite !Hpast.
  generalize (i =? ia) (i =? ib) (E mod B <=? j) (E mod B + 1 <=? j) (B - Ls <=? j). intros a b' c c1 t. clear -Hb Hl.
  assert (H0 : is_byte 0) by (unfold is_byte; lia). assert (H80 : is_byte 0x80) by (unfold is_byte; lia).
  assert (Hor : forall x y (p : bool), is_byte x -> is_byte y -> wrap8 (Z.lor (Z.land x (Z.lnot (mask8 p))) (Z.land y (mask8 p))) = if p then y else x).
  { intros x y p Hx Hy. rewrite land_lnot_mask8, land_mask8 by done. destruct p; [rewrite Z.lor_0_l|rewrite Z.lor_0_r]; by apply wrap8_byte. }
  rewrite Hor by done. set (b1 := if a && c then 128 else b). assert (Hb1 : is_byte b1) by (unfold b1; by destruct (a && c)).
  rewrite (land_lnot_mask8 b1 (a && c1) Hb1). set (b2 := if a && c1 then 0 else b1). assert (Hb2 : is_byte b2) by (unfold b2; by destruct (a && c1)). rewrite (wrap8_byte b2) by done.
  assert (Hm : wrap8 (Z.land b2 (Z.lor (Z.lnot (mask8 b')) (mask8 a))) = if b' && negb a then 0 else b2).
  { destruct b', a; cbn [mask8 andb negb]; [change (Z.lor (Z.lnot 255) 255) with (-1)|rewrite Z.lor_0_r; fold (mask8 true); by rewrite land_lnot_mask8|change (Z.lor (Z.lnot 0) 255) with (-1)|change (Z.lor (Z.lnot 0) 0) with (-1)];
      rewrite Z.land_m1_r; by apply wrap8_byte. }
  rewrite Hm. set (b3 := if b' && negb a then 0 else b2). assert (Hb3 : is_byte b3) by (unfold b3; by destruct (b' && negb a)).
  rewrite (Z.land_comm (mask8 b') l), Hor by done. unfold b3, b2, b1. destruct t, b', a, c, c1; reflexivity.
Qed.
Lemma position_facts : exists a c b, ia = a /\ E mod B = c /\ ib = b /\ E = B * a + c /\ 0 <= c < B /\ 0 <= a /\ ((c + Ls < B /\ b = a) \/ (B <= c + Ls /\ b = a + 1)).
Proof. exists ia, (E mod B), ib. destruct Hlen as [[-> ->]|[-> ->]]; split_and!; try done; dlia. Qed.
Lemma znth_slice (l : list Z) off n j : 0 <= off -> 0 <= j < n -> znth (slice l off n) j = znth l (off + j).
Proof. intros. unfold slice. rewrite znth_ztake by done. unfold znth, zdrop. rewrite !nth_lookup, lookup_drop. do 2 f_equal. lia. Qed.
Lemma zlen_slice (l : list Z) off n : 0 <= off -> 0 <= n -> off + n <= zlen l -> zlen (slice l off n) = n.
Proof. intros. unfold slice. rewrite zlen_ztake, zlen_zdrop by lia. lia. Qed.
Lemma zlen_build_block i k : zlen (build_block D header data total ps i k) = B.
Proof. unfold build_block. apply zlen_seqZ. lia. Qed.
Lemma build_block_bytes i k : Forall is_byte (build_block D header data total ps i k).
Proof.
  unfold build_block. apply Forall_fmap, Forall_true. intros j. cbn [compose]. unfold block_byte. cbv zeta. destruct (_ <=? _); apply Z.mod_pos_bound; lia.
Qed.
Lemma build_block_slice i : 0 <= i <= ib -> build_block D header data total ps i (B * i) = slice stream (B * i) B.
Proof.
  intros Hi. pose proof zlen_stream as Hs. pose proof (fun x => znth_stream x) as Hst. pose proof (fun j => block_byte_spec i j (B * i + j)) as Hbb.
  destruct position_facts as (a & c & b & Ea & Ec & Eb & HEq & Hc & Ha & Hab). rewrite Ea, Ec, Eb in *.
  assert (HB : 0 < Ls < B /\ B <= 128) by lia. assert (HBi : 0 <= B * i /\ B * i + B <= B * (b + 1)) by nia.
  assert (Hbnd : B * i + B < 2 ^ 30 /\ i <= B * i) by (split; [destruct Hab as [[_ ->]|[_ ->]]; lia|nia]).
  apply list_eq_znth. { unfold build_block. rewrite zlen_seqZ, zlen_slice by lia. done. }
  unfold build_block. rewrite zlen_seqZ by lia. intros j Hj. rewrite znth_seqZ, znth_slice by lia. rewrite Hbb by lia. rewrite Hst by lia.
  set (x := B * i + j). assert (Hraw : x < E -> znth message x = if x <? 13 then znth header x else if x <? total + 13 then znth data (x - 13) else 0).
  { intros Hx. rewrite znth_message by lia. destruct (x <? 13); [done|]. by rewrite (proj2 (Z.ltb_lt x (total + 13))) by lia. }
  assert (HBa : (i < a -> x < B * a) /\ (i = a -> x = B * a + j) /\ (i = a + 1 -> x = B * a + B + j)) by (unfold x; nia). clearbody x.
  assert (Hbx : B * (b + 1) = if b =? a then B * a + B else B * a + B + B) by (destruct Hab as [[_ ->]|[_ ->]]; [rewrite Z.eqb_refl|rewrite (proj2 (Z.eqb_neq (a + 1) a)) by lia]; lia).
  rewrite Hbx. replace (if x <? E then znth message x else _) with (if x <? E then (if x <? 13 then znth header x else if x <? total + 13 then znth data (x - 13) else 0) else if x =? E then 128 else if x <? (if b =? a then B * a + B else B * a + B + B) - Ls then 0 else znth lb (x - ((if b =? a then B * a + B else B * a + B + B) - Ls))) by (destruct (Z.ltb_spec x E); [by rewrite Hraw|done]).
  destruct (Z.eqb_spec i b) as [->|Hib], (Z.eqb_spec b a) as [->|Hba]; try (destruct (Z.eqb_spec i a) as [->|Hia]); cbn [andb negb];
    repeat match goal with |- context [?u <? ?v] => destruct (Z.ltb_spec u v) | |- context [?u =? ?v] => destruct (Z.eqb_spec u v) | |- context [?u <=? ?v] => destruct (Z.leb_spec u v) end; cbn [andb]; try (exfalso; lia); try done; try (f_equal; lia).
Qed.
(** The blocks that are hashed outside the loop. *)
Lemma slice_stream_data i : 1 <= i -> B * (i + 1) <= E -> slice stream (B * i) B = slice data (B * i - 13) B.
Proof.
  intros Hi HEi. pose proof zlen_stream as Hs. pose proof final_block_end. assert (Hz : 0 <= z_pad) by (apply Z.mod_pos_bound; lia).
  assert (64 <= B) by lia. assert (B <= B * i) by nia. apply list_eq_znth; [by rewrite !zlen_slice by lia|]. rewrite zlen_slice by lia. intros j Hj. rewrite !znth_slice, znth_stream by lia.
  rewrite (proj2 (Z.ltb_lt (B * i + j) E)), znth_message by lia. rewrite (proj2 (Z.ltb_ge (B * i + j) 13)) by lia. f_equal. lia.
Qed.
Lemma slice_stream_first : B <= E -> slice stream 0 B = ztake 13 header ++ ztake (B - 13) data.
Proof.
  intros HEi. pose proof zlen_stream as Hs. pose proof final_block_end. assert (Hz : 0 <= z_pad) by (apply Z.mod_pos_bound; lia). destruct Hh as [Hh1 _].
  rewrite (ztake_ge 13 header) by lia. assert (64 <= B) by lia.
  assert (Hd2 : zlen (ztake (B - 13) data) = B - 13) by (rewrite zlen_ztake by lia; lia). apply list_eq_znth; [rewrite zlen_slice, zlen_app by lia; lia|]. rewrite zlen_slice by lia.
  intros j Hj. rewrite znth_slice, znth_stream by lia. rewrite Z.add_0_l, (proj2 (Z.ltb_lt j E)), znth_message by lia. destruct (Z.ltb_spec j 13); [by rewrite znth_app_l by lia|].
  rewrite znth_app_r, znth_ztake by lia. f_equal. lia.
Qed.
Lemma starting_blocks_spec K n : forall i, 1 <= i -> B * (i + Z.of_nat n) <= E ->
  starting_blocks D data n i (run D (K :: blocks B i stream)) = run D (K :: blocks B (i + Z.of_nat n) stream).
Proof.
  induction n as [|n IH]; intros i Hi HEi; cbn [starting_blocks]; [by rewrite Z.add_0_r|].
  rewrite <- slice_stream_data, <- run_snoc by (lia || nia). change ((K :: blocks B i stream) ++ [slice stream (B * i) B]) with (K :: (blocks B i stream ++ [slice stream (B * i) B])).
  rewrite <- blocks_snoc, IH by lia. do 3 f_equal. lia.
Qed.

Lemma blocks_ok n : 0 <= n <= ib + 1 -> Forall (block_ok D) (blocks B n stream).
Proof.
  intros Hn. pose proof zlen_stream. apply Forall_fmap, Forall_seqZ. intros i Hi. cbn [compose]. split; [apply zlen_slice; nia|]. apply Forall_ztake, Forall_zdrop, stream_bytes.
Qed.
Context (Hout : forall bl, Forall (block_ok D) bl -> raw_size D <= zlen (md_final_raw D (run D bl))) (Hsz : 0 <= raw_size D).
Lemma lor_nothing (mac t : list Z) : (length mac <= length t)%nat -> zip_with (fun m b => Z.lor m (Z.land b 0)) mac t = mac.
Proof.
  revert t. induction mac as [|x mac IH]; intros [|y t]; cbn [length zip_with]; try (done || lia). intros Hl. rewrite Z.land_0_r, Z.lor_0_r, IH by lia. done.
Qed.
Lemma lor_mask8 (t : list Z) : Forall is_byte t -> zip_with (fun m b => Z.lor m (Z.land b 255)) (zeros (zlen t)) t = t.
Proof.
  unfold zeros, zlen. rewrite Nat2Z.id. induction 1 as [|y t Hy _ IH]; [done|]. cbn [length replicate zip_with]. f_equal; [|exact IH]. rewrite Z.lor_0_l. exact (land_mask8 y true Hy).
Qed.
Lemma zlen_raw_out bl : Forall (block_ok D) bl -> zlen (ztake (raw_size D) (md_final_raw D (run D bl))) = raw_size D.
Proof. intros Hbl. pose proof (Hout bl Hbl). rewrite zlen_ztake by lia. lia. Qed.
Lemma final_blocks_after n : forall i k bl mac, ib < i -> i + Z.of_nat n < 2 ^ 30 -> Forall (block_ok D) bl -> zlen mac = raw_size D ->
  final_blocks D header data total ps n i k (run D bl) mac = mac.
Proof.
  induction n as [|n IH]; intros i k bl mac Hi Hn Hbl Hm; cbn [final_blocks]; [done|]. cbv zeta.
  assert (Hib : 0 <= ib) by (destruct Hlen as [[-> ->]|[-> ->]]; dlia). rewrite constant_time_eq_8_mask by (cbn [index_b]; lia). cbn [index_b]. rewrite (proj2 (Z.eqb_neq i ib)) by lia.
  rewrite <- run_snoc. assert (Hbl' : Forall (block_ok D) (bl ++ [build_block D header data total ps i k])).
  { apply Forall_app. split; [done|]. apply Forall_singleton. split; [apply zlen_build_block|apply build_block_bytes]. }
  rewrite lor_nothing by (pose proof (zlen_raw_out _ Hbl') as Hz; unfold zlen in *; lia). apply IH; (done || lia).
Qed.
Lemma final_blocks_spec K n : forall i, block_ok D K -> 0 <= i <= ib -> ib < i + Z.of_nat n -> i + Z.of_nat n < 2 ^ 30 ->
  let h := ztake (raw_size D) (md_final_raw D (run D (K :: blocks B (ib + 1) stream))) in
  Forall is_byte h -> final_blocks D header data total ps n i (B * i) (run D (K :: blocks B i stream)) (zeros (raw_size D)) = h.
Proof.
  induction n as [|n IH]; intros i HK Hi Hn Hmax h Hb; [lia|]. cbn [final_blocks]. cbv zeta.
  rewrite build_block_slice, <- run_snoc by done. change ((K :: blocks B i stream) ++ [slice stream (B * i) B]) with (K :: (blocks B i stream ++ [slice stream (B * i) B])).
  rewrite <- blocks_snoc by lia. assert (Hbl : Forall (block_ok D) (K :: blocks B (i + 1) stream)) by (constructor; [done|apply blocks_ok; lia]).
  pose proof (zlen_raw_out _ Hbl) as Hz. rewrite constant_time_eq_8_mask by (cbn [index_b]; lia). cbn [index_b]. destruct (Z.eqb_spec i ib) as [->|Hne].
  - fold h. replace (raw_size D) with (zlen h) at 1 by done. rewrite lor_mask8 by done. apply final_blocks_after; (done || lia).
  - rewrite lor_nothing by (unfold zeros; rewrite length_replicate; unfold zlen in Hz; lia). replace (B * i + B) with (B * (i + 1)) by lia. apply IH; (done || lia).
Qed.
End Positions.

Lemma be_bytes_split n m v : be_bytes (n + m) v = be_bytes n (v / 256 ^ Z.of_nat m) ++ be_bytes m v.
Proof.
  revert v. induction m as [|m IH]; intros v; [by rewrite Nat.add_0_r, Z.div_1_r, app_nil_r|]. rewrite Nat.add_succ_r. cbn [be_bytes].
  rewrite IH, app_assoc. do 3 f_equal. rewrite Z.div_div by lia. f_equal. rewrite Nat2Z.inj_succ, Z.pow_succ_r by lia. lia.
Qed.
Lemma be_bytes_0 n : be_bytes n 0 = replicate n 0.
Proof. induction n as [|n IH]; [done|]. cbn [be_bytes]. rewrite Z.div_0_l, Z.mod_0_l, IH by lia. by rewrite <- replicate_cons_app. Qed.
Lemma le_bytes_0 n : le_bytes n 0 = replicate n 0.
Proof. induction n as [|n IH]; [done|]. cbn [le_bytes replicate]. by rewrite Z.mod_0_l, Z.div_0_l, IH by lia. Qed.
Lemma wrap8_land v : Z.land v 0xff = wrap8 v.
Proof. change 0xff with (2 ^ 8 - 1). by rewrite land_mask by lia. Qed.
Lemma length_field (D : raw_digest) v : (md_length_size D = 8 \/ md_length_size D = 16) -> 0 <= v < 2 ^ 32 ->
  (if length_is_big_endian D then zeros (md_length_size D - 4) ++ [wrap8 (Z.shiftr v 24); wrap8 (Z.shiftr v 16); wrap8 (Z.shiftr v 8); wrap8 v]
   else [wrap8 v; wrap8 (Z.shiftr v 8); wrap8 (Z.shiftr v 16); wrap8 (Z.shiftr v 24)] ++ zeros (md_length_size D - 4)) =
  (if length_is_big_endian D then be_bytes else le_bytes) (Z.to_nat (md_length_size D)) v.
Proof.
  intros Hl Hv. assert (E : Z.to_nat (md_length_size D) = (Z.to_nat (md_length_size D - 4) + 4)%nat) by lia. rewrite E. unfold zeros. destruct (length_is_big_endian D).
  - rewrite be_bytes_split. change (256 ^ Z.of_nat 4) with (2 ^ 32). rewrite (Z.div_small v), be_bytes_0, <- HOST_l2c_be by done. unfold HOST_l2c. by rewrite !wrap8_land.
  - rewrite Nat.add_comm, le_bytes_app. change (256 ^ Z.of_nat 4) with (2 ^ 32). rewrite (Z.div_small v), le_bytes_0 by done. f_equal.
    cbn [le_bytes]. rewrite !Z.shiftr_div_pow2, !Z.div_div by lia. done.
Qed.
Lemma md_blocks_cons K B n s : 0 < B -> zlen K = B -> 0 <= n -> blocks B (n + 1) (K ++ s) = K :: blocks B n s.
Proof.
  intros HB HK Hn. unfold blocks. rewrite Z.add_comm, seqZ_app by lia. rewrite fmap_app. change (seqZ 0 1) with [0]. cbn [fmap list_fmap app]. f_equal.
  - rewrite Z.mul_0_r. unfold slice. change (zdrop 0 (K ++ s)) with (K ++ s). by apply ztake_app_eq.
  - change (0 + 1) with (1 + 0). rewrite <- (fmap_add_seqZ 1 0 n), <- list_fmap_compose. apply list_fmap_ext. intros i x [-> _]%lookup_seqZ. cbn [compose]. unfold slice.
    rewrite (zdrop_app_r _ K) by nia. f_equal. f_equal. lia.
Qed.

(** The blocks the loop runs over are enough. *)
Lemma block_counts B Ls T E : (B = 64 /\ Ls = 8) \/ (B = 128 /\ Ls = 16) -> T - 256 <= E <= T -> 0 <= E -> T < 2 ^ 21 ->
  let nb := (T + Ls + B - 1) / B in let ib := (E + Ls) / B in let nsb := if 6 <? nb then nb - 6 else 0 in
  0 <= nsb <= ib /\ ib < nsb + 7 /\ B * nsb <= E /\ ib < 2 ^ 20 /\ 0 <= nb < 2 ^ 20.
Proof. intros Hl HE H0 HT nb ib nsb. unfold nsb, ib, nb. destruct Hl as [[-> ->]|[-> ->]]; match goal with |- context [6 <? ?x] => destruct (Z.ltb_spec 6 x) end; dlia. Qed.

(** ** The theorem *)
Section Final.
Context `{Allocator} `{Methods} `{!Engines} `{!MdLaws} `{OtherDigests}.
Context (no_engine : forall n, ENGINE_get_digest_engine n = None).
Context (D : raw_digest) (m : md) (Hraw : raw_ok D m).

Lemma key_block key : zlen key <= md_block_size D -> hmac_block m key = ztake (md_block_size D) (key ++ zeros MAX_HASH_BLOCK_SIZE).
Proof. intros Hk. destruct (raw_sizes D m Hraw) as [_ HB]. unfold hmac_block. rewrite <- HB, (proj2 (Z.ltb_ge _ _)) by lia. done. Qed.

Lemma inner_digest_spec header data dpm total key :
  zlen header = 13 -> Forall is_byte header -> Forall is_byte data -> Forall is_byte key -> zlen key <= md_block_size D ->
  raw_size D <= dpm <= total -> total <= dpm + 256 -> total < 2 ^ 20 -> total <= zlen data ->
  inner_digest D header data dpm total key = Some (md_hash m (hmac_pad 0x36 m key ++ header ++ ztake (dpm - raw_size D) data)).
Proof.
  intros Hh Hhb Hd Hk Hkl Hdpm Hpad Hmax Hl. pose proof (raw_lengths D m Hraw) as Hlen. destruct (raw_sizes D m Hraw) as [Hsz HB]. pose proof (md_sizes m) as (Hs64 & Hbs & _). pose proof (zlen_nonneg key).
  assert (W : forall v, 0 <= v < 2 ^ 32 -> wrap32 v = v) by (intros v Hv; by apply Z.mod_small).
  unfold inner_digest, MAX_HASH_BIT_COUNT_BYTES, MAX_HASH_BLOCK_SIZE, EVP_MAX_MD_SIZE. rewrite !(proj2 (Z.leb_le _ _)) by lia. cbn [negb].
  set (B := md_block_size D) in *. set (Ls := md_length_size D) in *. set (E := dpm + 13 - raw_size D).
  rewrite (W (total + 13)), (W (total + 13 - raw_size D - 1)) by lia. rewrite (W (total + 13 - raw_size D - 1 + 1 + Ls + B - 1)), (W E) by lia.
  rewrite (W (8 * E)), (W (8 * E + 8 * B)), (W (E + Ls)) by lia. rewrite length_field by (fold Ls; lia). fold Ls.
  set (nb := (total + 13 - raw_size D - 1 + 1 + Ls + B - 1) / B). set (lb := (if length_is_big_endian D then be_bytes else le_bytes) (Z.to_nat Ls) (8 * E + 8 * B)).
  assert (Hlb : zlen lb = Ls /\ Forall is_byte lb) by (unfold lb; destruct (length_is_big_endian D); rewrite ?zlen_be_bytes, ?zlen_le_bytes; split; (lia || auto using le_bytes_bytes with bytes)).
  assert (HE : 13 <= E <= total + 13) by lia. set (K := Z.lxor 54 <$> ztake B (key ++ zeros 128)).
  assert (HK : K = hmac_pad 0x36 m key) by (unfold hmac_pad; rewrite key_block by done; done).
  assert (HKok : block_ok D K) by (rewrite HK; split; [rewrite zlen_hmac_pad; done|apply hmac_pad_bytes; [unfold is_byte; lia|done]]).
  set (st := stream D header data E lb). set (ib := (E + Ls) / B).
  assert (Hmsg : raw_pad D (K ++ header ++ ztake (dpm - raw_size D) data) = K ++ st).
  { assert (Hzm : zlen (K ++ header ++ ztake (dpm - raw_size D) data) = B + E) by (rewrite !zlen_app, zlen_ztake by lia; rewrite (proj1 HKok); fold B; lia).
    unfold raw_pad. rewrite Hzm. unfold st, stream, message, z_pad, lb. fold B Ls. rewrite <- !app_assoc. do 3 f_equal. { f_equal. unfold E. lia. }
    f_equal. f_equal. { f_equal. f_equal. lia. } destruct (length_is_big_endian D); f_equal; lia. }
  assert (Hst : zlen st = B * (ib + 1)) by (exact (zlen_stream D header data total E Hlen (conj Hh Hhb) ltac:(lia) Hl HE lb Hlb)).
  assert (Hhash : md_hash m (K ++ header ++ ztake (dpm - raw_size D) data) = ztake (raw_size D) (md_final_raw D (run D (K :: blocks B (ib + 1) st)))).
  { rewrite (raw_digest_ok D m Hraw). 
    - unfold raw_hash. rewrite Hmsg. fold B. rewrite zlen_app, Hst. rewrite (proj1 HKok). fold B. replace (B + B * (ib + 1)) with ((ib + 1 + 1) * B) by lia.
      rewrite Z.div_mul by lia. assert (0 <= ib) by (apply Z.div_pos; lia). rewrite md_blocks_cons by (done || lia || apply HKok). done.
    - apply Forall_app. split; [apply HKok|]. apply Forall_app. auto with bytes.
    - rewrite !zlen_app, zlen_ztake by lia. rewrite (proj1 HKok). fold B. lia. }
  destruct (block_counts B Ls (total + 13 - raw_size D) E Hlen) as (Hnsb & Hib & HBn & Hibm & Hnb); [lia..|].
  replace (total + 13 - raw_size D + Ls + B - 1) with (total + 13 - raw_size D - 1 + 1 + Ls + B - 1) in * by lia. fold nb ib in Hnsb, Hib, HBn, Hibm, Hnb.
  rewrite <- HK, Hhash. f_equal. set (nsb := if 6 <? nb then nb - 6 else 0) in *.
  assert (Ek : (if 6 <? nb then wrap32 (B * nsb) else 0) = B * nsb) by (unfold nsb in *; destruct (6 <? nb); [apply W|]; lia). rewrite Ek.
  assert (Est : (if 0 <? B * nsb then starting_blocks D data (Z.to_nat (B * nsb / B - 1)) 1 (md_transform D (ztake 13 header ++ ztake (B - 13) data) (md_transform D K (md_init D)))
    else md_transform D K (md_init D)) = run D (K :: blocks B nsb st)).
  { destruct (Z.ltb_spec 0 (B * nsb)) as [Hpos|Hneg]; [|by replace nsb with 0 by nia].
    rewrite Z.mul_comm, Z.div_mul by lia. assert (1 <= nsb) by nia. assert (HBE : B <= E) by nia.
    replace (ztake 13 header ++ ztake (B - 13) data) with (slice st 0 B) by exact (slice_stream_first D header data total E Hlen (conj Hh Hhb) ltac:(lia) Hl HE lb Hlb HBE).
    change (md_transform D (slice st 0 B) (md_transform D K (md_init D))) with (run D [K; slice st 0 B]).
    replace [K; slice st 0 B] with (K :: blocks B 1 st) by (unfold blocks; change (seqZ 0 1) with [0]; cbn [fmap list_fmap]; by rewrite Z.mul_0_r).
    unfold st, B. rewrite (starting_blocks_spec D header data total E Hlen (conj Hh Hhb) ltac:(lia) Hl HE lb Hlb) by (fold B; lia || (replace (1 + Z.of_nat (Z.to_nat (nsb - 1))) with nsb by lia; done)).
    do 3 f_equal. lia. }
  rewrite Est. apply (final_blocks_spec D header data total E Hlen (conj Hh Hhb) Hd ltac:(lia) Hl HE lb Hlb (raw_out D m Hraw) ltac:(lia) K); fold B Ls ib st; [done|lia|lia|lia|].
  rewrite <- Hhash. apply md_hash_ok.
Qed.

Lemma digest_record_spec (ctx : Evp.EVP_MD_CTX) (header data mac_key : list Z) (content_len padding_len : Z) :
  Evp.digest ctx = Some m -> raw_of (type m) = Some D ->
  zlen header = 13 -> Forall is_byte header -> Forall is_byte data -> Forall is_byte mac_key -> zlen mac_key <= block_size m ->
  0 <= content_len -> 0 <= padding_len <= 256 -> content_len + md_size m + padding_len <= zlen data -> content_len + md_size m + padding_len < 2 ^ 20 ->
  ssl3_cbc_digest_record ctx header data (content_len + md_size m) (content_len + md_size m + padding_len) mac_key =
  if malloc_ok (ctx_size m) then Gives (hmac m mac_key (header ++ ztake content_len data), md_size m) else Fails.
Proof.
  intros Hc Ht Hh Hhb Hd Hk Hkl Hcl Hpl Hl Hmax. destruct (raw_sizes D m Hraw) as [Hsz HB]. unfold ssl3_cbc_digest_record, EVP_MD_CTX_type. rewrite Hc, Ht.
  rewrite (proj2 (Z.ltb_lt _ _)) by lia. cbn [negb]. rewrite inner_digest_spec by (done || lia). rewrite Hsz. replace (content_len + md_size m - md_size m) with content_len by lia.
  rewrite <- key_block by lia. replace (Z.lxor 106 <$> (Z.lxor 54 <$> hmac_block m mac_key)) with (hmac_pad 0x5c m mac_key).
  2: { unfold hmac_pad. rewrite <- list_fmap_compose. apply list_fmap_ext. intros i x _. cbn [compose]. by rewrite <- Z.lxor_assoc. }
  set (inner := md_hash m _). assert (Hin : zlen inner = md_size m /\ Forall is_byte inner) by apply md_hash_ok. pose proof (md_sizes m) as (Hs & Hbs & _).
  destruct (malloc_ok (ctx_size m)) eqn:Ha.
  - destruct (DigestInit_ok no_engine m Evp.EVP_MD_CTX_init) as (c1 & E1 & Hc1); [exact (conj eq_refl (conj eq_refl (conj eq_refl (or_introl (conj eq_refl Ha)))))|]. rewrite E1.
    destruct (DigestUpdate_ok m c1 [] (hmac_pad 0x5c m mac_key) Hc1) as (c2 & E2 & Hc2); [rewrite zlen_hmac_pad; lia|]. rewrite E2. cbn [snd].
    destruct (DigestUpdate_ok m c2 _ inner Hc2) as (c3 & E3 & Hc3); [lia|]. rewrite E3. cbn [snd]. unfold Evp.EVP_DigestFinal.
    destruct (DigestFinal_ok m c3 _ Hc3) as (c4 & E4 & _); [apply Forall_app; split; [apply hmac_pad_bytes; [unfold is_byte; lia|done]|apply Hin]|]. rewrite E4. done.
  - pose proof (DigestInit_nomem no_engine m Ha) as E. destruct (Evp.EVP_DigestInit_ex _ _ _) as [[[]|] c]; done.
Qed.
(** C20: [ssl3_cbc_digest_record] gives the HMAC, under the MAC key, of the header and of the contents of the record that are left when the padding
    and the MAC are taken off, although the length of the padding decides neither a branch nor an address: the blocks the padding can
    reach are all built and hashed, and the result is picked out with masks.  Without memory for the digest context it fails. *)
Theorem ssl3_cbc_digest_record_hmac (ctx : Evp.EVP_MD_CTX) (header data mac_key : list Z) (content_len padding_len : Z) :
  Evp.digest ctx = Some m -> raw_of (type m) = Some D ->
  zlen header = 13 -> Forall is_byte header -> Forall is_byte data -> Forall is_byte mac_key -> zlen mac_key <= block_size m ->
  0 <= content_len -> 0 <= padding_len <= 256 -> content_len + md_size m + padding_len <= zlen data -> content_len + md_size m + padding_len < 2 ^ 20 ->
  ssl3_cbc_digest_record ctx header data (content_len + md_size m) (content_len + md_size m + padding_len) mac_key =
  if malloc_ok (ctx_size m) then Gives (hmac m mac_key (header ++ ztake content_len data), md_size m) else Fails.
Proof. apply digest_record_spec. Qed.
End Final.

(** ** SHA-2 *)
Section Sha2.
Context `{OtherDigests}.
Definition sha2_raw (m : sha2_md) : raw_digest :=
  match m with
  | sha224_md => mkRaw HASH_CTX SHA224_Init SHA256_Transform tls1_sha256_final_raw 28 64 8 true
  | sha256_md => mkRaw HASH_CTX SHA256_Init SHA256_Transform tls1_sha256_final_raw 32 64 8 true
  end.
Definition sha2_iv (m : sha2_md) : list Z := match m with sha224_md => sha224_iv | sha256_md => sha256_iv end.
Lemma raw_of_sha2 m : raw_of (type (m : md)) = Some (sha2_raw m).
Proof. by destruct m. Qed.

(** The state of SHA-2 after some blocks, whichever of the two it is. *)
Definition sha2_run (iv : list Z) (bl : list (list Z)) : list Z := fold_left (fun h b => block_data_order sha256_block 1 b h) bl iv.
Lemma hh_run m bl : hh (fold_left (fun st b => SHA256_Transform b st) bl (match m with sha224_md => SHA224_Init | sha256_md => SHA256_Init end)) = sha2_run (sha2_iv m) bl.
Proof.
  unfold sha2_run. assert (Hg : forall c h, hh c = h -> hh (fold_left (fun st b => SHA256_Transform b st) bl c) = fold_left (fun h b => block_data_order sha256_block 1 b h) bl h).
  { induction bl as [|b bl IH]; intros c h Hh; [done|]. cbn [fold_left]. apply IH. by rewrite <- Hh. }
  apply Hg. by destruct m.
Qed.
Lemma sha2_run_length iv bl : length iv = 8%nat -> Forall (fun b => zlen b = 64 /\ Forall is_byte b) bl -> length (sha2_run iv bl) = 8%nat.
Proof.
  unfold sha2_run. intros Hl Hbl. revert iv Hl. induction Hbl as [|b bl [Hb Hbb] _ IH]; intros iv Hl; [done|]. cbn [fold_left]. apply IH.
  destruct (chain_fips 1 b iv Hl Hbb ltac:(lia)) as [-> ?]. done.
Qed.
Lemma sha2_run_blocks iv p (n : nat) : 64 * Z.of_nat n <= zlen p -> sha2_run iv (blocks 64 (Z.of_nat n) p) = block_data_order sha256_block n p iv.
Proof.
  induction n as [|n IH]; intros Hn; [done|]. replace (Z.of_nat (S n)) with (Z.of_nat n + 1) by lia. rewrite blocks_snoc by lia.
  unfold sha2_run. rewrite fold_left_app. fold (sha2_run iv (blocks 64 (Z.of_nat n) p)). rewrite IH by lia. cbn [fold_left].
  assert (Ep : p = ztake (64 * Z.of_nat n) p ++ zdrop (64 * Z.of_nat n) p) by (unfold ztake, zdrop; by rewrite take_drop).
  assert (Ed : zdrop (64 * Z.of_nat n) p = slice p (64 * Z.of_nat n) 64 ++ zdrop 64 (zdrop (64 * Z.of_nat n) p)) by (unfold slice, ztake, zdrop; by rewrite take_drop).
  assert (Hl1 : zlen (ztake (64 * Z.of_nat n) p) = 64 * Z.of_nat n) by (rewrite zlen_ztake by lia; lia).
  assert (E1 : block_data_order sha256_block n p iv = block_data_order sha256_block n (ztake (64 * Z.of_nat n) p) iv) by (rewrite Ep at 1; by apply block_data_order_prefix).
  assert (E2 : block_data_order sha256_block (n + 1) p iv = block_data_order sha256_block 1 (zdrop (64 * Z.of_nat n) p) (block_data_order sha256_block n (ztake (64 * Z.of_nat n) p) iv))
    by (rewrite Ep at 1; by apply block_data_order_app).
  replace (S n) with (n + 1)%nat by lia. rewrite E1, E2, Ed. symmetry. apply block_data_order_prefix. apply zlen_slice; lia.
Qed.
Lemma zlen_words l : zlen (concat (l2n <$> l)) = 4 * zlen l.
Proof. induction l as [|x l IH]; [done|]. cbn [fmap list_fmap concat]. rewrite zlen_app, IH, zlen_cons. change (zlen (l2n x)) with 4. lia. Qed.

Lemma sha2_raw_ok (m : sha2_md) : raw_ok (sha2_raw m) m.
Proof.
  assert (Hiv : length (sha2_iv m) = 8%nat) by (by destruct m).
  assert (Hlen : forall bl, Forall (fun b => zlen b = 64 /\ Forall is_byte b) bl -> length (sha2_run (sha2_iv m) bl) = 8%nat) by (intros; by apply sha2_run_length).
  assert (Hfin : forall bl, md_final_raw (sha2_raw m) (run (sha2_raw m) bl) = concat (l2n <$> take 8 (sha2_run (sha2_iv m) bl))) by (intros bl; destruct m; [exact (f_equal (fun h => concat (l2n <$> take 8 h)) (hh_run sha224_md bl))|exact (f_equal (fun h => concat (l2n <$> take 8 h)) (hh_run sha256_md bl))]).
  assert (Hl2n : forall l, l2n <$> l = be_bytes 4 <$> l) by (intros l; apply list_fmap_ext; intros; apply HOST_l2c_be).
  split.
  - by destruct m.
  - by destruct m; left.
  - intros bl Hbl. rewrite Hfin, zlen_words. assert (Hb : Forall (fun b => zlen b = 64 /\ Forall is_byte b) bl) by (by destruct m).
    rewrite take_ge by (rewrite Hlen by done; lia). unfold zlen. rewrite Hlen by done. destruct m; cbn; lia.
  - intros s Hs Hl. destruct (md_pad_ok s Hs) as [Hpb Hpl]. assert (Epad : raw_pad (sha2_raw m) s = md_pad s) by (unfold raw_pad, md_pad; destruct m; cbn [sha2_raw md_block_size md_length_size length_is_big_endian]; do 4 f_equal; f_equal; lia).
    set (n := Z.to_nat (zlen (md_pad s) / 64)). assert (Hn : Z.of_nat n = zlen (md_pad s) / 64) by (apply Z2Nat.id, Z.div_pos; [apply zlen_nonneg|lia]).
    assert (Hn64 : 64 * Z.of_nat n = zlen (md_pad s)) by (rewrite Hn; revert Hpl; generalize (zlen (md_pad s)); intros; dlia).
    unfold raw_hash. rewrite Epad. replace (md_block_size (sha2_raw m)) with 64 by (by destruct m). rewrite Hfin, <- Hn, sha2_run_blocks by lia.
    destruct (chain_fips n (md_pad s) (sha2_iv m) Hiv Hpb ltac:(lia)) as [Ec Hc8]. rewrite Ec. set (h := block_data_order fips_block n (md_pad s) (sha2_iv m)) in *.
    rewrite take_ge by lia. rewrite Hl2n. destruct m; cbn [md_hash sha2_laws]; unfold fips_digest, fips_sha256, md_chain; fold n.
    + change (block_data_order fips_block n (md_pad s) sha224_iv) with h. rewrite <- (take_drop 7 h) at 2. rewrite fmap_app, concat_app. symmetry. apply ztake_app_eq.
      cbn [sha2_raw raw_size]. rewrite zlen_concat_words. unfold zlen. rewrite length_take. lia.
    + change (block_data_order fips_block n (md_pad s) sha256_iv) with h. rewrite take_ge by lia. symmetry. apply ztake_ge. rewrite zlen_concat_words. unfold zlen. cbn [sha2_raw raw_size]. lia.
Qed.
End Sha2.

(** ** Examples *)
Ltac bytes_tac := repeat (constructor; [unfold is_byte; lia|]); constructor.
(** Four bytes of explicit IV, three of contents, a MAC of two, and three bytes of padding. *)
Definition padded_record : SSL3_RECORD_INTERNAL := let l := [9; 9; 9; 9; 1; 2; 3; 7; 8; 2; 2; 2] in mkRec 12 0 l l.
Lemma ssl3_cbc_remove_padding_rfc5246_witness :
  Forall is_byte (rec_data padded_record) /\
  ssl3_cbc_remove_padding padded_record 4 2 = (1, mkRec 5 3 [1; 2; 3; 7; 8; 2; 2; 2] [1; 2; 3; 7; 8; 2; 2; 2]).
Proof.
  assert (Hb : Forall is_byte (rec_data padded_record)) by bytes_tac. split; [exact Hb|].
  rewrite (ssl3_cbc_remove_padding_rfc5246 padded_record 4 2 Hb) by (vm_compute; split; congruence || vm_compute; congruence). reflexivity.
Defined.
Lemma ssl3_cbc_copy_mac_slice_witness :
  let rec := mkRec 5 3 [1; 2; 3; 7; 8; 2; 2; 2] [1; 2; 3; 7; 8; 2; 2; 2] in
  Forall is_byte (rec_data rec) /\ ssl3_cbc_copy_mac rec 2 8 = Gives [7; 8].
Proof.
  intros rec. assert (Hb : Forall is_byte (rec_data rec)) by bytes_tac. split; [exact Hb|].
  rewrite (ssl3_cbc_copy_mac_slice rec 2 8 Hb) by (vm_compute; repeat split; congruence). reflexivity.
Defined.
Definition no_others : OtherDigests :=
  {| MD5_Init := []; MD5_Transform _ h := h; SHA1_Init := []; SHA1_Transform _ h := h; SHA384_Init := []; SHA512_Init := []; SHA512_Transform _ h := h |}.
(** The contents "abc", a MAC, and four bytes of padding; the key is that of RFC 4231, test case 2. *)
Lemma ssl3_cbc_digest_record_hmac_witness :
  let ctx := Evp.mkMdCtx (Some sha256_md) None 0 None None None in
  let header := zeros 8 ++ [23; 3; 3; 0; 3] in
  let data := [0x61; 0x62; 0x63] ++ zeros 32 ++ [3; 3; 3; 3] in
  Forall is_byte data /\
  @ssl3_cbc_digest_record ample _ _ no_others ctx header data (3 + 32) (3 + 32 + 4) jefe =
    Gives (hmac sha256_md jefe (header ++ [0x61; 0x62; 0x63]), 32).
Proof.
  intros ctx header data. assert (Hb : Forall is_byte data) by (apply Forall_app; split; [|apply Forall_app; split; [auto with bytes|]]; bytes_tac).
  split; [exact Hb|].
  exact (@ssl3_cbc_digest_record_hmac ample sha2_methods no_engines sha2_laws no_others (fun _ => eq_refl) (sha2_raw sha256_md) sha256_md (sha2_raw_ok sha256_md)
    ctx header data jefe 3 4 eq_refl eq_refl eq_refl ltac:(apply Forall_app; split; [auto with bytes|bytes_tac]) Hb ltac:(unfold jefe; bytes_tac)
    ltac:(vm_compute; congruence) ltac:(lia) ltac:(lia) ltac:(vm_compute; congruence) ltac:(vm_compute; congruence)).
Defined.
