(* ===== verification/Tls12Record.v ===== *)
(** * The record layer of TLS up to 1.2 and of DTLS (ssl/tls12_record_layer.c)

    A record is sealed and opened under a [tls12_record_protection]: an AEAD, or a cipher with a MAC, or nothing.  DTLS puts an epoch and
    a sequence number in the record and keeps the protection of the epoch before the last for retransmissions: the pointer
    [rl->write] is one of two.  The ciphers, the MACs of the EVP interface and the AEADs are classes.  What fails leaves the state the
    source leaves: the alert, and contexts that have moved on.  Functions that only release memory are left out. *)
From S2P Require Import Prelude Compat Cbs Cbb RecordLayer Versions EvpDigest S3Cbc.

Definition TLS12_RECORD_SEQ_NUM_LEN : Z := 8.
Definition SSL3_SEQUENCE_SIZE : Z := 8.
Definition SSL3_RT_MAX_MD_SIZE : Z := 64.
Definition SSL3_RT_MAX_PLAIN_LENGTH : Z := 16384.
Definition SSL3_RT_MAX_COMPRESSED_LENGTH : Z := SSL3_RT_MAX_PLAIN_LENGTH.
Definition SSL3_RT_MAX_ENCRYPTED_OVERHEAD : Z := 256 + SSL3_RT_MAX_MD_SIZE.
Definition SSL3_RT_MAX_ENCRYPTED_LENGTH : Z := SSL3_RT_MAX_ENCRYPTED_OVERHEAD + SSL3_RT_MAX_COMPRESSED_LENGTH.
Definition SSL_AD_BAD_RECORD_MAC : Z := 20.
Definition SSL_AD_RECORD_OVERFLOW : Z := 22.
Definition EVP_CIPH_CBC_MODE : Z := 2.
Definition EVP_MAX_IV_LENGTH : Z := 16.
Definition EVP_MAX_BLOCK_LENGTH : Z := 32.
Definition NID_hmac : Z := 855.
Definition NID_gost89_cnt : Z := 814.
Definition NID_id_Gost28147_89_MAC : Z := 815.
Definition NID_id_GostR3411_94 : Z := 809.
Definition NID_id_Gost28147_89_CryptoPro_A_ParamSet : Z := 824.
Definition NID_id_tc26_gost_28147_param_Z : Z := 945.
Definition EVP_PKEY_HMAC : Z := NID_hmac.
Definition EVP_PKEY_GOSTIMIT : Z := NID_id_Gost28147_89_MAC.
Definition INT_MAX : Z := 2 ^ 31 - 1.

(** ** The interfaces *)
(** EVP ciphers.  A context is ready for use; [EVP_Cipher] processes whole blocks and moves the context on. *)
Class Ciphers := {
  EVP_CIPHER : Type;
  EVP_CIPHER_type : EVP_CIPHER -> Z;
  EVP_CIPHER_iv_length : EVP_CIPHER -> Z;
  EVP_CIPHER_key_length : EVP_CIPHER -> Z;
  EVP_CIPHER_CTX : Type;
  EVP_CIPHER_CTX_mode : EVP_CIPHER_CTX -> Z;
  EVP_CIPHER_CTX_iv_length : EVP_CIPHER_CTX -> Z;
  EVP_CIPHER_CTX_block_size : EVP_CIPHER_CTX -> Z;
  EVP_CipherInit_ex : EVP_CIPHER -> list Z -> list Z -> bool -> option EVP_CIPHER_CTX;   (* key, iv, is_write *)
  EVP_CIPHER_CTX_gost_sbox : EVP_CIPHER_CTX -> Z -> option EVP_CIPHER_CTX;  (* EVP_CIPHER_CTX_ctrl(.., EVP_CTRL_GOST_SET_SBOX, ..) *)
  EVP_Cipher : EVP_CIPHER_CTX -> list Z -> option (list Z) * EVP_CIPHER_CTX
}.
(** EVP MACs: keys, and digest contexts with a key. *)
Class Macs `{Methods} `{!Engines} := {
  EVP_PKEY : Type;
  EVP_PKEY_new_mac_key : Z -> list Z -> option EVP_PKEY;
  EVP_DigestSignInit : md -> EVP_PKEY -> Evp.EVP_MD_CTX -> option Evp.EVP_MD_CTX;
  EVP_DigestSignUpdate : list Z -> Evp.EVP_MD_CTX -> option Evp.EVP_MD_CTX;
  EVP_DigestSignFinal_len : Evp.EVP_MD_CTX -> option Z;
  EVP_DigestSignFinal : Evp.EVP_MD_CTX -> option (list Z) * Evp.EVP_MD_CTX;
  EVP_MD_CTX_gost_sbox : Evp.EVP_MD_CTX -> Z -> option Evp.EVP_MD_CTX
}.
(** The AEADs that the record layer knows by name. *)
Class Aead12 `{Aead} := {
  EVP_AEAD_max_overhead : EVP_AEAD -> Z;
  is_aes_gcm : EVP_AEAD -> bool;
  is_chacha20_poly1305 : EVP_AEAD -> bool
}.

(** ** The state *)
Section Types.
Context `{Aead} `{Ciphers} `{Methods} `{!Engines}.

Record SSL_AEAD_CTX := mkSaead {
  sa_ctx : option EVP_AEAD_CTX;
  fixed_nonce : list Z;
  variable_nonce_len : Z;
  xor_fixed_nonce : bool;
  tag_len : Z;
  variable_nonce_in_record : bool
}.
Definition fixed_nonce_len (a : SSL_AEAD_CTX) : Z := zlen (fixed_nonce a).

Record tls12_record_protection := mkRp {
  rp_epoch : Z;
  rp_seq_num : list Z;
  rp_aead_ctx : option SSL_AEAD_CTX;
  rp_cipher_ctx : option EVP_CIPHER_CTX;
  rp_hash_ctx : option Evp.EVP_MD_CTX;
  rp_stream_mac : bool;
  rp_mac_key : option (list Z)
}.
(** [rl->write] is [write_current] or [write_previous]; [rl->read] is always [read_current]. *)
Inductive which := Current | Previous.
Record tls12_record_layer := mkRl12 {
  rl_version : Z;
  rl_dtls : bool;
  rl_alert_desc : Z;
  rl_aead : option EVP_AEAD;
  rl_cipher : option EVP_CIPHER;
  rl_handshake_hash : option md;
  rl_mac_hash : option md;
  read_current : tls12_record_protection;
  write : which;
  write_current : tls12_record_protection;
  write_previous : option tls12_record_protection
}.
End Types.

Section Setters.
Context `{Aead} `{Ciphers} `{Methods} `{!Engines}.
Definition eta_rp (p : tls12_record_protection) : tls12_record_protection :=
  mkRp (rp_epoch p) (rp_seq_num p) (rp_aead_ctx p) (rp_cipher_ctx p) (rp_hash_ctx p) (rp_stream_mac p) (rp_mac_key p).
Definition eta_rl (r : tls12_record_layer) : tls12_record_layer :=
  mkRl12 (rl_version r) (rl_dtls r) (rl_alert_desc r) (rl_aead r) (rl_cipher r) (rl_handshake_hash r) (rl_mac_hash r) (read_current r) (write r)
    (write_current r) (write_previous r).
Ltac mk_setter eta f :=
  let e := eval cbv beta delta [eta_rp eta_rl] in eta in
  match type of e with ?R -> _ =>
    match eval pattern (f) in e with
    | ?P _ => let t := eval cbv beta in (fun g => P (fun r : R => g (f r))) in exact t
    end
  end.
#[global] Instance set_rp_epoch : Setter rp_epoch := ltac:(mk_setter eta_rp rp_epoch).
#[global] Instance set_rp_seq_num : Setter rp_seq_num := ltac:(mk_setter eta_rp rp_seq_num).
#[global] Instance set_rp_aead_ctx : Setter rp_aead_ctx := ltac:(mk_setter eta_rp rp_aead_ctx).
#[global] Instance set_rp_cipher_ctx : Setter rp_cipher_ctx := ltac:(mk_setter eta_rp rp_cipher_ctx).
#[global] Instance set_rp_hash_ctx : Setter rp_hash_ctx := ltac:(mk_setter eta_rp rp_hash_ctx).
#[global] Instance set_rp_stream_mac : Setter rp_stream_mac := ltac:(mk_setter eta_rp rp_stream_mac).
#[global] Instance set_rp_mac_key : Setter rp_mac_key := ltac:(mk_setter eta_rp rp_mac_key).
#[global] Instance set_rl_version : Setter rl_version := ltac:(mk_setter eta_rl rl_version).
#[global] Instance set_rl_dtls : Setter rl_dtls := ltac:(mk_setter eta_rl rl_dtls).
#[global] Instance set_rl_alert_desc : Setter rl_alert_desc := ltac:(mk_setter eta_rl rl_alert_desc).
#[global] Instance set_rl_aead : Setter rl_aead := ltac:(mk_setter eta_rl rl_aead).
#[global] Instance set_rl_cipher : Setter rl_cipher := ltac:(mk_setter eta_rl rl_cipher).
#[global] Instance set_rl_handshake_hash : Setter rl_handshake_hash := ltac:(mk_setter eta_rl rl_handshake_hash).
#[global] Instance set_rl_mac_hash : Setter rl_mac_hash := ltac:(mk_setter eta_rl rl_mac_hash).
#[global] Instance set_read_current : Setter read_current := ltac:(mk_setter eta_rl read_current).
#[global] Instance set_write : Setter write := ltac:(mk_setter eta_rl write).
#[global] Instance set_write_current : Setter write_current := ltac:(mk_setter eta_rl write_current).
#[global] Instance set_write_previous : Setter write_previous := ltac:(mk_setter eta_rl write_previous).
End Setters.

Section RecordLayer12.
Context `{Allocator} `{Aead} `{!Aead12} `{Ciphers} `{Methods} `{!Engines} `{!Macs} `{OtherDigests}.

(** *** Protections *)
Definition sizeof_tls12_record_protection : Z := 64.
Definition sizeof_ssl_aead_ctx : Z := 40.
Definition sizeof_tls12_record_layer : Z := 88.
Definition sizeof_evp_cipher_ctx : Z := 168.
Definition sizeof_evp_md_ctx : Z := 48.
Definition blank_protection : tls12_record_protection := mkRp 0 (zeros TLS12_RECORD_SEQ_NUM_LEN) None None None false None.
Definition tls12_record_protection_new : option tls12_record_protection :=
  if malloc_ok sizeof_tls12_record_protection then Some blank_protection else None.
Definition tls12_record_protection_clear (rp : tls12_record_protection) : tls12_record_protection :=
  rp<|rp_seq_num := zeros TLS12_RECORD_SEQ_NUM_LEN|><|rp_aead_ctx := None|><|rp_cipher_ctx := None|><|rp_hash_ctx := None|><|rp_mac_key := None|>.
Definition is_null {A} (p : option A) : bool := match p with None => true | Some _ => false end.
Definition tls12_record_protection_engaged (rp : tls12_record_protection) : bool := negb (is_null (rp_aead_ctx rp)) || negb (is_null (rp_cipher_ctx rp)).
Definition tls12_record_protection_unused (rp : tls12_record_protection) : bool :=
  is_null (rp_aead_ctx rp) && is_null (rp_cipher_ctx rp) && is_null (rp_hash_ctx rp) && is_null (rp_mac_key rp).
Definition tls12_record_protection_eiv_len (rp : tls12_record_protection) : option Z :=
  match rp_cipher_ctx rp with
  | None => None
  | Some c =>
      let eiv_len := if EVP_CIPHER_CTX_mode c =? EVP_CIPH_CBC_MODE then EVP_CIPHER_CTX_iv_length c else 0 in
      if (eiv_len <? 0) || (EVP_MAX_IV_LENGTH <? eiv_len) then None else Some eiv_len
  end.
Definition tls12_record_protection_block_size (rp : tls12_record_protection) : option Z :=
  match rp_cipher_ctx rp with
  | None => None
  | Some c =>
      let block_size := EVP_CIPHER_CTX_block_size c in
      if (block_size <? 0) || (EVP_MAX_BLOCK_LENGTH <? block_size) then None else Some block_size
  end.
(** [EVP_MD_CTX_size] of a context without a digest is -1. *)
Definition EVP_MD_CTX_size (c : Evp.EVP_MD_CTX) : Z := match Evp.digest c with Some m => md_size m | None => -1 end.
Definition tls12_record_protection_mac_len (rp : tls12_record_protection) : option Z :=
  match rp_hash_ctx rp with
  | None => None
  | Some c =>
      let mac_len := EVP_MD_CTX_size c in
      if (mac_len <=? 0) || (EVP_MAX_MD_SIZE <? mac_len) then None else Some mac_len
  end.

(** *** The record layer *)
Definition tls12_record_layer_new : option tls12_record_layer :=
  if malloc_ok sizeof_tls12_record_layer then
    r ← tls12_record_protection_new;
    w ← tls12_record_protection_new;
    Some (mkRl12 0 false 0 None None None None r Current w None)
  else None.
(** What [rl->write] points to; [None] is a pointer to released memory. *)
Definition write_protection (rl : tls12_record_layer) : option tls12_record_protection :=
  match write rl with Current => Some (write_current rl) | Previous => write_previous rl end.
Definition on_write (f : tls12_record_protection -> tls12_record_protection) (rl : tls12_record_layer) : tls12_record_layer :=
  match write rl with
  | Current => rl<|write_current := f (write_current rl)|>
  | Previous => rl<|write_previous := f <$> write_previous rl|>
  end.
Definition on_read (f : tls12_record_protection -> tls12_record_protection) (rl : tls12_record_layer) : tls12_record_layer := rl<|read_current := f (read_current rl)|>.

Definition tls12_record_layer_alert (rl : tls12_record_layer) : Z := rl_alert_desc rl.
(** [None] is the return of 0. *)
Definition tls12_record_layer_write_overhead (rl : tls12_record_layer) : option Z :=
  w ← write_protection rl;
  match rp_aead_ctx w, rp_cipher_ctx w with
  | Some a, _ => Some (tag_len a)
  | None, Some _ =>
      eiv_len ← (if negb (rl_version rl =? TLS1_VERSION) then tls12_record_protection_eiv_len w else Some 0);
      block_size ← tls12_record_protection_block_size w;
      mac_len ← tls12_record_protection_mac_len w;
      Some (eiv_len + block_size + mac_len)
  | None, None => Some 0
  end.
Definition tls12_record_layer_read_protected (rl : tls12_record_layer) : bool := tls12_record_protection_engaged (read_current rl).
Definition tls12_record_layer_write_protected (rl : tls12_record_layer) : option bool := tls12_record_protection_engaged <$> write_protection rl.
Definition tls12_record_layer_set_aead (aead : option EVP_AEAD) (rl : tls12_record_layer) : tls12_record_layer := rl<|rl_aead := aead|>.
Definition tls12_record_layer_set_cipher_hash (cipher : option EVP_CIPHER) (handshake_hash mac_hash : option md) (rl : tls12_record_layer) : tls12_record_layer :=
  rl<|rl_cipher := cipher|><|rl_handshake_hash := handshake_hash|><|rl_mac_hash := mac_hash|>.
Definition tls12_record_layer_set_version (version : Z) (rl : tls12_record_layer) : tls12_record_layer :=
  rl<|rl_version := version|><|rl_dtls := Z.shiftr version 8 =? DTLS1_VERSION_MAJOR|>.
Definition tls12_record_layer_set_write_epoch (epoch : Z) (rl : tls12_record_layer) : tls12_record_layer := on_write (fun w => w<|rp_epoch := epoch|>) rl.
Definition has_epoch (epoch : Z) (p : option tls12_record_protection) : bool := match p with Some p => rp_epoch p =? epoch | None => false end.
Definition tls12_record_layer_use_write_epoch (epoch : Z) : M tls12_record_layer unit := fun rl =>
  if has_epoch epoch (write_protection rl) then (Some tt, rl)
  else if rp_epoch (write_current rl) =? epoch then (Some tt, rl<|write := Current|>)
  else if has_epoch epoch (write_previous rl) then (Some tt, rl<|write := Previous|>)
  else (None, rl).
Definition tls12_record_layer_write_epoch_done (epoch : Z) (rl : tls12_record_layer) : tls12_record_layer :=
  if negb (has_epoch epoch (write_previous rl)) then rl else rl<|write := Current|><|write_previous := None|>.
Definition tls12_record_layer_clear_read_state (rl : tls12_record_layer) : tls12_record_layer := on_read tls12_record_protection_clear rl.
Definition tls12_record_layer_clear_write_state (rl : tls12_record_layer) : tls12_record_layer :=
  (on_write tls12_record_protection_clear rl)<|write_previous := None|>.
Definition tls12_record_layer_read_cipher_hash (rl : tls12_record_layer) : option EVP_CIPHER_CTX * option Evp.EVP_MD_CTX :=
  (rp_cipher_ctx (read_current rl), rp_hash_ctx (read_current rl)).
Definition tls12_record_layer_reflect_seq_num (rl : tls12_record_layer) : tls12_record_layer :=
  on_write (fun w => w<|rp_seq_num := rp_seq_num (read_current rl)|>) rl.

Definition tls12_max_seq_num : list Z := replicate 8 0xff.
(** The loop is that of the TLSv1.3 record layer. *)
Definition tls12_record_layer_inc_seq_num (dtls : bool) : M (list Z) unit := fun seq_num =>
  let max_seq_num := CBS_init seq_num TLS12_RECORD_SEQ_NUM_LEN in
  match (if dtls then CBS_skip 2 max_seq_num else (Some tt, max_seq_num)) with
  | (None, _) => (None, seq_num)
  | (Some _, max_seq_num) =>
      if CBS_mem_equal max_seq_num (ztake (CBS_len max_seq_num) tls12_max_seq_num) (CBS_len max_seq_num) then (None, seq_num)
      else (Some tt, inc_loop seq_num (Z.to_nat TLS12_RECORD_SEQ_NUM_LEN))
  end.

(** *** Changing keys *)
(** A key of no bytes is NULL. *)
Definition tls12_record_layer_set_mac_key (rp : tls12_record_protection) (mac_key : list Z) : option tls12_record_protection :=
  if zlen mac_key =? 0 then Some (rp<|rp_mac_key := None|>)
  else if malloc_ok (zlen mac_key) then Some (rp<|rp_mac_key := Some mac_key|>) else None.
(** Both work on a new protection, which is released when they fail. *)
Definition tls12_record_layer_ccs_aead (rl : tls12_record_layer) (rp : tls12_record_protection) (key iv : list Z) : option tls12_record_protection :=
  if negb (tls12_record_protection_unused rp) then None
  else if negb (malloc_ok sizeof_ssl_aead_ctx) then None
  else
  aead ← rl_aead rl;
  if 12 <? zlen iv then None
  else
  let a := mkSaead None iv 8 (is_chacha20_poly1305 aead) (wrap8 (EVP_AEAD_max_overhead aead)) (is_aes_gcm aead) in
  let aead_nonce_len := EVP_AEAD_nonce_length aead in
  if (if xor_fixed_nonce a then negb (fixed_nonce_len a =? aead_nonce_len) || (aead_nonce_len <? variable_nonce_len a)
      else negb (fixed_nonce_len a + variable_nonce_len a =? aead_nonce_len)) then None
  else
  ctx ← EVP_AEAD_CTX_init aead key;
  Some (rp<|rp_aead_ctx := Some (mkSaead (Some ctx) iv 8 (xor_fixed_nonce a) (tag_len a) (variable_nonce_in_record a))|>).
(** A NULL cipher or hash, which callers do not leave, counts as a failure. *)
Definition tls12_record_layer_ccs_cipher (rl : tls12_record_layer) (rp : tls12_record_protection) (is_write : bool) (mac_key key iv : list Z) : option tls12_record_protection :=
  if negb (tls12_record_protection_unused rp) then None
  else
  if (INT_MAX <? zlen iv) || (INT_MAX <? zlen key) then None
  else
  cipher ← rl_cipher rl;
  mac_hash ← rl_mac_hash rl;
  if negb (EVP_CIPHER_iv_length cipher =? zlen iv) then None
  else if negb (EVP_CIPHER_key_length cipher =? zlen key) then None
  else
  '(mac_type, stream_mac) ←
    (if type mac_hash =? NID_id_Gost28147_89_MAC then if negb (zlen mac_key =? 32) then None else Some (EVP_PKEY_GOSTIMIT, true)
     else if INT_MAX <? zlen mac_key then None
     else if negb (md_size mac_hash =? zlen mac_key) then None else Some (EVP_PKEY_HMAC, false));
  let rp := rp<|rp_stream_mac := stream_mac|> in
  if negb (malloc_ok sizeof_evp_cipher_ctx) then None
  else if negb (malloc_ok sizeof_evp_md_ctx) then None
  else
  rp ← tls12_record_layer_set_mac_key rp mac_key;
  mac_pkey ← EVP_PKEY_new_mac_key mac_type mac_key;
  cipher_ctx ← EVP_CipherInit_ex cipher key iv is_write;
  hash_ctx ← EVP_DigestSignInit mac_hash mac_pkey Evp.EVP_MD_CTX_init;
  '(cipher_ctx, hash_ctx) ←
    (if EVP_CIPHER_type cipher =? NID_gost89_cnt then
       handshake_hash ← rl_handshake_hash rl;
       let gost_param_nid := if type handshake_hash =? NID_id_GostR3411_94 then NID_id_Gost28147_89_CryptoPro_A_ParamSet else NID_id_tc26_gost_28147_param_Z in
       cipher_ctx ← EVP_CIPHER_CTX_gost_sbox cipher_ctx gost_param_nid;
       if type mac_hash =? NID_id_Gost28147_89_MAC then hash_ctx ← EVP_MD_CTX_gost_sbox hash_ctx gost_param_nid; Some (cipher_ctx, hash_ctx)
       else Some (cipher_ctx, hash_ctx)
     else Some (cipher_ctx, hash_ctx));
  Some (rp<|rp_cipher_ctx := Some cipher_ctx|><|rp_hash_ctx := Some hash_ctx|>).
Definition tls12_record_layer_change_cipher_state (rl : tls12_record_layer) (rp : tls12_record_protection) (is_write : bool) (mac_key key iv : list Z) : option tls12_record_protection :=
  if negb (is_null (rl_aead rl)) then tls12_record_layer_ccs_aead rl rp key iv else tls12_record_layer_ccs_cipher rl rp is_write mac_key key iv.
Definition tls12_record_layer_change_read_cipher_state (mac_key key iv : list Z) : M tls12_record_layer unit := fun rl =>
  match (read_new ← tls12_record_protection_new; tls12_record_layer_change_cipher_state rl read_new false mac_key key iv) with
  | None => (None, rl)
  | Some read_new => (Some tt, rl<|read_current := read_new|>)
  end.
Definition tls12_record_layer_change_write_cipher_state (mac_key key iv : list Z) : M tls12_record_layer unit := fun rl =>
  match (write_new ← tls12_record_protection_new; tls12_record_layer_change_cipher_state rl write_new true mac_key key iv) with
  | None => (None, rl)
  | Some write_new =>
      let rl := if rl_dtls rl then rl<|write_previous := Some (write_current rl)|> else rl in
      (Some tt, rl<|write_current := write_new|><|write := Current|>)
  end.

(** *** What both directions compute *)
(** The effective sequence number: in DTLS the epoch takes the place of the first two bytes. *)
Definition seq_num_build (dtls : bool) (epoch : Z) (seq_num : list Z) : M store (list Z * Z) :=
  _ ← CBB_init 0%nat SSL3_SEQUENCE_SIZE;
  let seq := CBS_init seq_num (zlen seq_num) in
  _ ← (if dtls then
         _ ← CBB_add_u16 0%nat epoch;
         match CBS_skip 2 seq with (Some _, seq) => CBB_add_bytes 0%nat (CBS_data seq) (CBS_len seq) | (None, _) => fail end
       else CBB_add_bytes 0%nat (CBS_data seq) (CBS_len seq) : M store unit);
  CBB_finish 0%nat true.
Definition tls12_record_layer_build_seq_num (rl : tls12_record_layer) (epoch : Z) (seq_num : list Z) : option (list Z) := cbb_run (seq_num_build (rl_dtls rl) epoch seq_num).
Definition pseudo_header_build (version content_type record_len : Z) (seq_num : CBS) : M store (list Z * Z) :=
  _ ← CBB_init 0%nat 13;
  _ ← CBB_add_bytes 0%nat (CBS_data seq_num) (CBS_len seq_num);
  _ ← CBB_add_u8 0%nat content_type;
  _ ← CBB_add_u16 0%nat version;
  _ ← CBB_add_u16 0%nat record_len;
  CBB_finish 0%nat true.
(** [record_len] is a [uint16_t]. *)
Definition tls12_record_layer_pseudo_header (rl : tls12_record_layer) (content_type record_len : Z) (seq_num : CBS) : option (list Z) :=
  cbb_run (pseudo_header_build (rl_version rl) content_type (wrap16 record_len) seq_num).
(** *** Steps that change the record layer and a CBB *)
Definition W (A : Type) : Type := M (tls12_record_layer * store) A.
Definition on_cbb {A} (m : M store A) : W A := fun '(rl, s) => let '(a, s) := m s in (a, (rl, s)).
Definition on_rl {A} (m : M tls12_record_layer A) : W A := fun '(rl, s) => let '(a, rl) := m rl in (a, (rl, s)).
Definition ask_rl {A} (o : tls12_record_layer -> option A) : W A := fun '(rl, s) => (o rl, (rl, s)).
(** A function that uses a CBB of its own, the object 0 of an empty store. *)
Definition with_cbb {A} (m : W A) : M tls12_record_layer A := fun rl => let '(a, (rl, _)) := m (rl, mkStore None ∅) in (a, rl).
(** What a caller writes where [CBB_add_space] gave it room. *)
Definition fill (p : Z) (bytes : list Z) : M store unit := b ← get_base; set_bytes (overwrite (bb_buf b) p bytes).
Definition finish_cbb : M store (list Z) := '(buf, len) ← CBB_finish 0%nat true; mret (ztake len buf).

(** [hash_ctx] is a context of the record layer, which [set_hash] replaces.  The MAC goes to the CBB of the caller, the object 0. *)
Definition tls12_record_layer_mac (set_hash : Evp.EVP_MD_CTX -> tls12_record_layer -> tls12_record_layer) (hash_ctx : Evp.EVP_MD_CTX) (stream_mac : bool)
    (seq_num : CBS) (content_type : Z) (content : list Z) : W Z :=
  if negb (malloc_ok sizeof_evp_md_ctx) then fail
  else
  mac_ctx ← ask_rl (fun _ => let '(ok, c) := Evp.EVP_MD_CTX_copy hash_ctx Evp.EVP_MD_CTX_init in _ ← ok; Some c);
  header ← ask_rl (fun rl => tls12_record_layer_pseudo_header rl content_type (zlen content) seq_num);
  mac_ctx ← ask_rl (fun _ => EVP_DigestSignUpdate header mac_ctx);
  mac_ctx ← ask_rl (fun _ => EVP_DigestSignUpdate content mac_ctx);
  mac_len ← ask_rl (fun _ => EVP_DigestSignFinal_len mac_ctx);
  mac ← on_cbb (CBB_add_space 0%nat mac_len);
  let '(bytes, mac_ctx) := EVP_DigestSignFinal mac_ctx in
  bytes ← ask_rl (fun _ => bytes);
  _ ← on_cbb (fill mac bytes);
  if zlen bytes =? 0 then fail
  else
  _ ← (if stream_mac then
         let '(ok, hash_ctx) := Evp.EVP_MD_CTX_copy mac_ctx hash_ctx in
         _ ← on_rl (modS (set_hash hash_ctx)); ask_rl (fun _ => ok)
       else mret tt : W unit);
  mret (zlen bytes).

Definition concat_nonce_build (aead : SSL_AEAD_CTX) (seq_num : list Z) : M store (list Z * Z) :=
  _ ← CBB_init 0%nat 16;
  _ ← CBB_add_bytes 0%nat (fixed_nonce aead) (fixed_nonce_len aead);
  _ ← CBB_add_bytes 0%nat seq_num (variable_nonce_len aead);
  CBB_finish 0%nat true.
Definition tls12_record_layer_aead_concat_nonce (aead : SSL_AEAD_CTX) (seq_num : list Z) : option (list Z) :=
  if SSL3_SEQUENCE_SIZE <? variable_nonce_len aead then None else cbb_run (concat_nonce_build aead seq_num).
Definition xored_nonce_build (aead : SSL_AEAD_CTX) (seq_num : list Z) : M store (list Z * Z) :=
  _ ← CBB_init 0%nat 16;
  _ ← CBB_add_space 0%nat (fixed_nonce_len aead - variable_nonce_len aead);
  _ ← CBB_add_bytes 0%nat seq_num (variable_nonce_len aead);
  CBB_finish 0%nat true.
Definition tls12_record_layer_aead_xored_nonce (aead : SSL_AEAD_CTX) (seq_num : list Z) : option (list Z) :=
  if SSL3_SEQUENCE_SIZE <? variable_nonce_len aead then None
  else if fixed_nonce_len aead <? variable_nonce_len aead then None
  else nonce ← cbb_run (xored_nonce_build aead seq_num); Some (zip_with Z.lxor nonce (fixed_nonce aead)).

(** *** Opening *)
(** The decrypted bytes replace the fragment in the caller's buffer; the result is what [*out] points to, [*out_len] bytes. *)
Definition read_alert {A} (alert : Z) : M tls12_record_layer A := fun rl => (None, rl<|rl_alert_desc := alert|>).
(** A step that leaves the record layer alone. *)
Definition try {A} (o : tls12_record_layer -> option A) : M tls12_record_layer A := fun rl => (o rl, rl).
Definition tls12_record_layer_open_record_plaintext (fragment : CBS) : M tls12_record_layer (list Z) := fun rl =>
  if tls12_record_protection_engaged (read_current rl) then (None, rl) else (Some (ztake (CBS_len fragment) (CBS_data fragment)), rl).
Definition tls12_record_layer_open_record_protected_aead (content_type : Z) (seq_num fragment : CBS) : M tls12_record_layer (list Z) :=
  aead ← try (fun rl => rp_aead_ctx (read_current rl));
  '(nonce, fragment) ←
    (if xor_fixed_nonce aead then nonce ← try (fun _ => tls12_record_layer_aead_xored_nonce aead (CBS_data seq_num)); mret (nonce, fragment)
     else if variable_nonce_in_record aead then
       match CBS_get_bytes (variable_nonce_len aead) fragment with
       | (None, _) => fail
       | (Some var_nonce, fragment) => nonce ← try (fun _ => tls12_record_layer_aead_concat_nonce aead (CBS_data var_nonce)); mret (nonce, fragment)
       end
     else nonce ← try (fun _ => tls12_record_layer_aead_concat_nonce aead (CBS_data seq_num)); mret (nonce, fragment) : M tls12_record_layer (list Z * CBS));
  if CBS_len fragment <? tag_len aead then read_alert SSL_AD_BAD_RECORD_MAC
  else if SSL3_RT_MAX_ENCRYPTED_LENGTH <? CBS_len fragment then read_alert SSL_AD_RECORD_OVERFLOW
  else
  let plain_len := CBS_len fragment - tag_len aead in
  header ← try (fun rl => tls12_record_layer_pseudo_header rl content_type plain_len seq_num);
  match (ctx ← sa_ctx aead; EVP_AEAD_CTX_open ctx plain_len nonce (ztake (CBS_len fragment) (CBS_data fragment)) header) with
  | None => read_alert SSL_AD_BAD_RECORD_MAC
  | Some out =>
      if SSL3_RT_MAX_PLAIN_LENGTH <? zlen out then read_alert SSL_AD_RECORD_OVERFLOW
      else if negb (zlen out =? plain_len) then fail
      else mret out
  end.

Definition tls12_record_layer_read_mac_cbc (content_type : Z) (seq_num : CBS) (content : list Z) (content_len mac_len padding_len : Z) : W unit :=
  hash_ctx ← ask_rl (fun rl => rp_hash_ctx (read_current rl));
  if negb (ssl3_cbc_record_digest_supported hash_ctx) then fail
  else
  header ← ask_rl (fun rl => tls12_record_layer_pseudo_header rl content_type content_len seq_num);
  mac ← on_cbb (CBB_add_space 0%nat mac_len);
  mac_key ← ask_rl (fun rl => Some (default [] (rp_mac_key (read_current rl))));
  match ssl3_cbc_digest_record hash_ctx header content (content_len + mac_len) (content_len + mac_len + padding_len) mac_key with
  | Gives (bytes, out_mac_len) => _ ← on_cbb (fill mac bytes); if negb (mac_len =? out_mac_len) then fail else mret tt
  | _ => fail
  end.
Definition set_read_hash (c : Evp.EVP_MD_CTX) : tls12_record_layer -> tls12_record_layer := on_read (fun p => p<|rp_hash_ctx := Some c|>).
Definition tls12_record_layer_read_mac (content_type : Z) (seq_num : CBS) (content : list Z) : W unit :=
  enc ← ask_rl (fun rl => rp_cipher_ctx (read_current rl));
  if EVP_CIPHER_CTX_mode enc =? EVP_CIPH_CBC_MODE then fail
  else
  hash_ctx ← ask_rl (fun rl => rp_hash_ctx (read_current rl));
  stream_mac ← ask_rl (fun rl => Some (rp_stream_mac (read_current rl)));
  _ ← tls12_record_layer_mac set_read_hash hash_ctx stream_mac seq_num content_type content;
  mret tt.
(** [EVP_Cipher] in place: the context moves on. *)
Definition read_decrypt (data : list Z) : M tls12_record_layer (list Z) := fun rl =>
  match rp_cipher_ctx (read_current rl) with
  | None => (None, rl)
  | Some enc => let '(plain, enc) := EVP_Cipher enc data in (plain, on_read (fun p => p<|rp_cipher_ctx := Some enc|>) rl)
  end.
(** An assertion that fails in [ssl3_cbc_copy_mac] ends the program; here it is a failure. *)
Definition copy_mac (rec : SSL3_RECORD_INTERNAL) (mac_len orig_len : Z) : option (list Z) :=
  match ssl3_cbc_copy_mac rec mac_len orig_len with Gives mac => Some mac | _ => None end.
(** The MAC in the record, the MAC it should have, and the record without it. *)
Definition received_macs (content_type : Z) (seq_num : CBS) (cbc : bool) (mac_len : Z) (rrec : SSL3_RECORD_INTERNAL) : W (list Z * list Z * SSL3_RECORD_INTERNAL) :=
  let short := mkRec (rec_length rrec - mac_len) (rec_padding_length rrec) (rec_data rrec) (rec_input rrec) in
  _ ← on_cbb (CBB_init 0%nat EVP_MAX_MD_SIZE);
  mac ←
    (if cbc then
       mac ← ask_rl (fun _ => copy_mac rrec mac_len (rec_length rrec + rec_padding_length rrec));
       _ ← tls12_record_layer_read_mac_cbc content_type seq_num (rec_input short) (rec_length short) mac_len (rec_padding_length short);
       mret mac
     else
       _ ← tls12_record_layer_read_mac content_type seq_num (ztake (rec_length short) (rec_input short));
       mret (slice (rec_data short) (rec_length short) mac_len) : W (list Z));
  out_mac ← on_cbb finish_cbb;
  mret (mac, out_mac, short).
Definition tls12_record_layer_open_record_protected_cipher (content_type : Z) (seq_num fragment : CBS) : M tls12_record_layer (list Z) :=
  enc ← try (fun rl => rp_cipher_ctx (read_current rl));
  block_size ← try (fun rl => tls12_record_protection_block_size (read_current rl));
  eiv_len ← try (fun rl => if negb (rl_version rl =? TLS1_VERSION) then tls12_record_protection_eiv_len (read_current rl) else Some 0);
  mac_len ← try (fun rl => if negb (is_null (rp_hash_ctx (read_current rl))) then tls12_record_protection_mac_len (read_current rl) else Some 0);
  let cbc := EVP_CIPHER_CTX_mode enc =? EVP_CIPH_CBC_MODE in
  let min_len := eiv_len + mac_len + (if cbc then 1 else 0) in
  if CBS_len fragment <? min_len then read_alert SSL_AD_BAD_RECORD_MAC
  else if SSL3_RT_MAX_ENCRYPTED_LENGTH <? CBS_len fragment then read_alert SSL_AD_RECORD_OVERFLOW
  else if negb (CBS_len fragment mod block_size =? 0) then read_alert SSL_AD_BAD_RECORD_MAC
  else
  plain ← read_decrypt (ztake (CBS_len fragment) (CBS_data fragment));
  let rrec := mkRec (CBS_len fragment) 0 plain plain in
  let rrec := if 1 <? block_size then snd (ssl3_cbc_remove_padding rrec eiv_len mac_len) else rrec in
  if negb (malloc_ok mac_len) then fail
  else
  '(mac, out_mac, rrec) ← with_cbb (received_macs content_type seq_num cbc mac_len rrec);
  if negb (mac_len =? zlen out_mac) then fail
  else if negb (timingsafe_memcmp mac out_mac mac_len =? 0) then read_alert SSL_AD_BAD_RECORD_MAC
  else if SSL3_RT_MAX_COMPRESSED_LENGTH + mac_len <? rec_length rrec then read_alert SSL_AD_BAD_RECORD_MAC
  else if SSL3_RT_MAX_PLAIN_LENGTH <? rec_length rrec then read_alert SSL_AD_RECORD_OVERFLOW
  else mret (ztake (rec_length rrec) (rec_data rrec)).

(** The header: the content type, the sequence number and the fragment. *)
Definition record_header (dtls : bool) (read_seq_num : list Z) : M CBS (Z * list Z * CBS) :=
  content_type ← CBS_get_u8;
  version ← CBS_get_u16;
  seq_num ← (if dtls then s ← CBS_get_bytes SSL3_SEQUENCE_SIZE; mret (ztake (CBS_len s) (CBS_data s)) else mret read_seq_num);
  fragment ← CBS_get_u16_length_prefixed;
  mret (content_type, seq_num, fragment).
(** In DTLS the number of the record becomes that of the record layer as soon as it has been read. *)
Definition dtls_seq_num (dtls : bool) (buf : list Z) : option (list Z) :=
  if dtls then fst ((_ ← CBS_get_u8; _ ← CBS_get_u16; s ← CBS_get_bytes SSL3_SEQUENCE_SIZE; mret (ztake (CBS_len s) (CBS_data s))) (CBS_init buf (zlen buf))) else None.
Definition next_read_seq_num : M tls12_record_layer unit := fun rl =>
  if rl_dtls rl then (Some tt, rl)
  else
  match tls12_record_layer_inc_seq_num (rl_dtls rl) (rp_seq_num (read_current rl)) with
  | (Some _, seq) => (Some tt, on_read (fun p => p<|rp_seq_num := seq|>) rl)
  | (None, _) => (None, rl)
  end.
Definition tls12_record_layer_open_record (buf : list Z) : M tls12_record_layer (list Z) := fun rl =>
  let rl1 := match dtls_seq_num (rl_dtls rl) buf with Some seq => on_read (fun p => p<|rp_seq_num := seq|>) rl | None => rl end in
  match fst (record_header (rl_dtls rl) (rp_seq_num (read_current rl)) (CBS_init buf (zlen buf))) with
  | None => (None, rl1)
  | Some (content_type, seq, fragment) =>
      let seq_num := CBS_init seq (zlen seq) in
      (out ← (if negb (is_null (rp_aead_ctx (read_current rl1))) then tls12_record_layer_open_record_protected_aead content_type seq_num fragment
              else if negb (is_null (rp_cipher_ctx (read_current rl1))) then tls12_record_layer_open_record_protected_cipher content_type seq_num fragment
              else tls12_record_layer_open_record_plaintext fragment);
       _ ← next_read_seq_num;
       mret out) rl1
  end.

(** *** Sealing *)
(** The record is appended to the CBB [out] of the caller, whose store is part of the state. *)
Definition tls12_record_layer_seal_record_plaintext (content : list Z) (out : addr) : W unit :=
  w ← ask_rl write_protection;
  if tls12_record_protection_engaged w then fail else on_cbb (CBB_add_bytes out content (zlen content)).
Definition tls12_record_layer_seal_record_protected_aead (content_type : Z) (seq_num : CBS) (content : list Z) (out : addr) : W unit :=
  aead ← ask_rl (fun rl => w ← write_protection rl; rp_aead_ctx w);
  nonce ← ask_rl (fun _ => if xor_fixed_nonce aead then tls12_record_layer_aead_xored_nonce aead (CBS_data seq_num)
                           else tls12_record_layer_aead_concat_nonce aead (CBS_data seq_num));
  _ ← (if variable_nonce_in_record aead then on_cbb (CBB_add_bytes out (CBS_data seq_num) (variable_nonce_len aead)) else mret tt : W unit);
  header ← ask_rl (fun rl => tls12_record_layer_pseudo_header rl content_type (zlen content) seq_num);
  let enc_record_len := zlen content + tag_len aead in
  if SSL3_RT_MAX_ENCRYPTED_LENGTH <? enc_record_len then fail
  else
  enc_data ← on_cbb (CBB_add_space out enc_record_len);
  enc ← ask_rl (fun _ => ctx ← sa_ctx aead; EVP_AEAD_CTX_seal ctx enc_record_len nonce content header);
  _ ← on_cbb (fill enc_data enc);
  if negb (zlen enc =? enc_record_len) then fail else mret tt.
Definition set_write_hash (c : Evp.EVP_MD_CTX) : tls12_record_layer -> tls12_record_layer := on_write (fun p => p<|rp_hash_ctx := Some c|>).
Definition tls12_record_layer_write_mac (content_type : Z) (seq_num : CBS) (content : list Z) : W Z :=
  hash_ctx ← ask_rl (fun rl => w ← write_protection rl; rp_hash_ctx w);
  stream_mac ← ask_rl (fun rl => rp_stream_mac <$> write_protection rl);
  tls12_record_layer_mac set_write_hash hash_ctx stream_mac seq_num content_type content.
Definition write_encrypt (data : list Z) : M tls12_record_layer (list Z) := fun rl =>
  match (w ← write_protection rl; rp_cipher_ctx w) with
  | None => (None, rl)
  | Some enc => let '(out, enc) := EVP_Cipher enc data in (out, on_write (fun p => p<|rp_cipher_ctx := Some enc|>) rl)
  end.
(** The bytes that are encrypted: explicit IV, contents, MAC and padding, in a CBB of their own.  [random] is what [arc4random_buf] fills in. *)
Definition plain_build (random : list Z) (content_type : Z) (seq_num : CBS) (content : list Z) : W (list Z) :=
  _ ← on_cbb (CBB_init 0%nat SSL3_RT_MAX_PLAIN_LENGTH);
  eiv_len ← ask_rl (fun rl => if negb (rl_version rl =? TLS1_VERSION) then w ← write_protection rl; tls12_record_protection_eiv_len w else Some 0);
  _ ← (if 0 <? eiv_len then eiv ← on_cbb (CBB_add_space 0%nat eiv_len); on_cbb (fill eiv (ztake eiv_len random)) else mret tt : W unit);
  _ ← on_cbb (CBB_add_bytes 0%nat content (zlen content));
  w ← ask_rl write_protection;
  mac_len ← (if negb (is_null (rp_hash_ctx w)) then tls12_record_layer_write_mac content_type seq_num content else mret 0 : W Z);
  let plain_len := eiv_len + zlen content + mac_len in
  block_size ← ask_rl (fun rl => w ← write_protection rl; tls12_record_protection_block_size w);
  _ ← (if 1 <? block_size then
         let pad_len := block_size - plain_len mod block_size in
         let pad_val := wrap8 (pad_len - 1) in
         if 255 <? pad_len then fail
         else pad ← on_cbb (CBB_add_space 0%nat pad_len); on_cbb (fill pad (replicate (Z.to_nat pad_len) pad_val))
       else mret tt : W unit);
  on_cbb finish_cbb.
Definition tls12_record_layer_seal_record_protected_cipher (random : list Z) (content_type : Z) (seq_num : CBS) (content : list Z) (out : addr) : W unit :=
  plain ← on_rl (with_cbb (plain_build random content_type seq_num content));
  block_size ← ask_rl (fun rl => w ← write_protection rl; tls12_record_protection_block_size w);
  if negb (zlen plain mod block_size =? 0) then fail
  else if SSL3_RT_MAX_ENCRYPTED_LENGTH <? zlen plain then fail
  else
  enc_data ← on_cbb (CBB_add_space out (zlen plain));
  enc ← on_rl (write_encrypt plain);
  on_cbb (fill enc_data enc).
Definition next_write_seq_num : W unit := fun '(rl, s) =>
  match (w ← write_protection rl; Some (tls12_record_layer_inc_seq_num (rl_dtls rl) (rp_seq_num w))) with
  | Some (Some _, seq) => (Some tt, (on_write (fun p => p<|rp_seq_num := seq|>) rl, s))
  | _ => (None, (rl, s))
  end.
Definition tls12_record_layer_seal_record (random : list Z) (content_type : Z) (content : list Z) (cbb : addr) : W unit :=
  w ← ask_rl write_protection;
  seq ← ask_rl (fun rl => tls12_record_layer_build_seq_num rl (rp_epoch w) (rp_seq_num w));
  let seq_num := CBS_init seq (zlen seq) in
  _ ← on_cbb (CBB_add_u8 cbb content_type);
  version ← ask_rl (fun rl => Some (rl_version rl));
  _ ← on_cbb (CBB_add_u16 cbb version);
  dtls ← ask_rl (fun rl => Some (rl_dtls rl));
  _ ← (if dtls : bool then on_cbb (CBB_add_bytes cbb (CBS_data seq_num) (CBS_len seq_num)) else mret tt : W unit);
  _ ← on_cbb (CBB_add_u16_length_prefixed cbb (S cbb));
  _ ← (if negb (is_null (rp_aead_ctx w)) then tls12_record_layer_seal_record_protected_aead content_type seq_num content (S cbb)
       else if negb (is_null (rp_cipher_ctx w)) then tls12_record_layer_seal_record_protected_cipher random content_type seq_num content (S cbb)
       else tls12_record_layer_seal_record_plaintext content (S cbb));
  _ ← on_cbb (CBB_flush cbb);
  next_write_seq_num.

(** ** The caller *)
(** How [do_ssl3_write] and [do_dtls1_write] (with [need_empty_fragment] false) make the bytes to send, in the write buffer [buf]: the empty
    fragment hides the IV of the record after it. *)
Definition do_ssl3_write_records (buf : list Z) (version : Z) (need_empty_fragment : bool) (random0 random : list Z) (type : Z) (content : list Z) : M tls12_record_layer (list Z) :=
  with_cbb (
    _ ← on_cbb (CBB_init_fixed 0%nat buf (zlen buf));
    _ ← on_rl (modS (tls12_record_layer_set_version version));
    _ ← (if need_empty_fragment then tls12_record_layer_seal_record random0 type [] 0%nat else mret tt : W unit);
    _ ← tls12_record_layer_seal_record random type content 0%nat;
    '(buf, out_len) ← on_cbb (CBB_finish 0%nat false);
    mret (ztake out_len buf)).
End RecordLayer12.
