(* ===== verification/Tls12RecordSpec.v ===== *)
(** * What the record layer of TLS up to 1.2 and DTLS promises

    The laws of the MACs, ciphers and AEADs, and what sealing puts into the CBB of the caller: the record of RFC 5246.  Tls12Roundtrip is
    about opening. *)
From S2P Require Import Prelude Compat Cbs Cbb CbbSpec CbbBuild RecordLayer RecordLayerSpec Versions Words Md32 Sha256 EvpDigest Hmac S3Cbc S3CbcSpec Tls12Record.

(** ** Steps of [W] *)
Section Steps.
Context `{Allocator} `{Aead} `{Ciphers} `{Methods} `{!Engines}.

(** No allocation fails. *)
Definition mem_ok : Prop := forall k, 0 <= k <= SIZE_MAX -> malloc_ok k = true.
Lemma mem_malloc k : 0 <= k <= SIZE_MAX -> malloc_ok k = false -> ~ mem_ok.
Proof. intros Hk Hf Hm. by rewrite Hm in Hf. Qed.
Lemma mem_room N : N <= SIZE_MAX -> ~ room Grow N -> ~ mem_ok.
Proof. intros HN Hr Hm. by apply Hr. Qed.

(** [o] is [a], or there is a reason for its absence. *)
Definition gives {A} (o : option A) (a : A) (E : Prop) : Prop := match o with Some x => x = a | None => E end.

Lemma gives_bind {A B} (o : option A) (f : A -> option B) a b (E : Prop) : gives o a E -> gives (f a) b E -> gives (o ≫= f) b E.
Proof. by destruct o as [x|]; [intros -> |]. Qed.

Lemma bind_W {A B} (m : W A) (f : A -> W B) st : (m ≫= f) st = match m st with (Some a, st') => f a st' | (None, st') => (None, st') end.
Proof. reflexivity. Qed.
Lemma ask_step {A B} (o : tls12_record_layer -> option A) (f : A -> W B) rl s a Q (E : Prop) :
  gives (o rl) a E -> outcome (f a (rl, s)) Q E -> outcome ((ask_rl o ≫= f) (rl, s)) Q E.
Proof. intros Ho Hf. rewrite bind_W. unfold ask_rl. destruct (o rl) as [x|]; cbn in Ho |- *; [by subst|done]. Qed.
Lemma ask_fail {A B} (o : tls12_record_layer -> option A) (f : A -> W B) rl s Q (E : Prop) : o rl = None -> E -> outcome ((ask_rl o ≫= f) (rl, s)) Q E.
Proof. intros Ho HE. rewrite bind_W. unfold ask_rl. by rewrite Ho. Qed.
Lemma cbb_step {A B} (m : M store A) (f : A -> W B) rl s P Q (E E' : Prop) :
  outcome (m s) P E' -> (E' -> E) -> (forall a s', P a s' -> outcome (f a (rl, s')) Q E) -> outcome ((on_cbb m ≫= f) (rl, s)) Q E.
Proof. intros Hm HE Hf. rewrite bind_W. unfold on_cbb. destruct (m s) as [[a|] s']; cbn in Hm |- *; [by apply Hf|by apply HE]. Qed.
Lemma cbb_last {A} (m : M store A) rl s P Q (E E' : Prop) :
  outcome (m s) P E' -> (E' -> E) -> (forall a s', P a s' -> Q a (rl, s')) -> outcome (on_cbb m (rl, s)) Q E.
Proof. unfold on_cbb. destruct (m s) as [[a|] s']; cbn; auto. Qed.
Lemma rl_step {A B} (m : M tls12_record_layer A) (f : A -> W B) rl s P Q (E E' : Prop) :
  outcome (m rl) P E' -> (E' -> E) -> (forall a rl', P a rl' -> outcome (f a (rl', s)) Q E) -> outcome ((on_rl m ≫= f) (rl, s)) Q E.
Proof. intros Hm HE Hf. rewrite bind_W. unfold on_rl. destruct (m rl) as [[a|] s']; cbn in Hm |- *; [by apply Hf|by apply HE]. Qed.
Lemma ret_step {A B} (a : A) (f : A -> W B) st Q (E : Prop) : outcome (f a st) Q E -> outcome (((mret a : W A) ≫= f) st) Q E.
Proof. done. Qed.
Lemma with_cbb_spec {A} (m : W A) rl P (E : Prop) :
  outcome (m (rl, mkStore None ∅)) (fun a st => P a (fst st)) E -> outcome (with_cbb m rl) P E.
Proof. unfold with_cbb. by destruct (m _) as [[a|] [rl' s']]. Qed.

(** *** The calls on a CBB, with its contents before and after *)
Lemma bytes_step md s fs h bs data n :
  builder md s fs h bs -> zlen data = n -> n <= SIZE_MAX ->
  outcome (CBB_add_bytes h data n s) (fun _ s' => builder md s' fs h (bs ++ data)) (~ room md (ctx_len fs + zlen bs + n)).
Proof.
  intros Hb Hd Hn. eapply outcome_impl; [by apply CBB_add_bytes_spec; [apply builder_view|..]|..].
  - by intros _ s' (? & [= <-] & Hb').
  - intros Herr. by apply Herr.
Qed.
Lemma u8_step md s fs h bs v :
  builder md s fs h bs -> is_byte v -> outcome (CBB_add_u8 h v s) (fun _ s' => builder md s' fs h (bs ++ [v])) (~ room md (ctx_len fs + zlen bs + 1)).
Proof.
  intros Hb Hv. eapply outcome_impl; [apply CBB_add_u8_spec; [by apply builder_view|by destruct Hv]|..].
  - by intros _ s' (_ & ? & [= <-] & Hb').
  - intros Herr. by apply Herr.
Qed.
Lemma u16_step md s fs h bs v :
  builder md s fs h bs -> 0 <= v < 2 ^ 16 ->
  outcome (CBB_add_u16 h v s) (fun _ s' => builder md s' fs h (bs ++ be_bytes 2 v)) (~ room md (ctx_len fs + zlen bs + 2)).
Proof.
  intros Hb Hv. unfold CBB_add_u16. eapply outcome_impl; [apply (add_uN_spec md s fs h (Some bs) v 2 0xffff); [by apply builder_view|lia|lia|done]|..].
  - by intros _ s' (_ & ? & [= <-] & Hb').
  - intros Herr. apply Herr; [lia|done].
Qed.
Lemma space_step md s fs h bs n :
  builder md s fs h bs -> 0 <= n <= SIZE_MAX ->
  outcome (CBB_add_space h n s) (fun p s' => p = ctx_len fs + zlen bs /\ builder md s' fs h (bs ++ zeros n)) (~ room md (ctx_len fs + zlen bs + n)).
Proof.
  intros Hb Hn. eapply outcome_impl; [by apply CBB_add_space_spec; [apply builder_view|..]|..].
  - by intros p s' (? & [= <-] & Hb').
  - intros Herr. by apply Herr.
Qed.
(** What the caller writes into the space takes the place of the zeros. *)
Lemma fill_step md s fs h bs n bytes p :
  builder md s fs h (bs ++ zeros n) -> 0 <= n -> p = ctx_len fs + zlen bs -> zlen bytes = n ->
  outcome (fill p bytes s) (fun _ s' => builder md s' fs h (bs ++ bytes)) False.
Proof.
  intros [(c & Hbuf & Hseg & Hlast & Hnd) Htop] Hn -> Hl. pose proof (seg_len _ _ _ _ _ Hseg) as Hc. cbn [app] in Hbuf.
  destruct (has_buf_open _ _ _ Hbuf) as (b & spare & Hg & _ & Hbb & _ & Hset). unfold fill. eapply outcome_step; [exact Hg|].
  rewrite Hbb, (app_assoc c), <- (app_assoc (c ++ bs)). replace (ctx_len fs + zlen bs) with (zlen (c ++ bs)) by zl.
  rewrite overwrite_app by (zl). destruct (Hset ((c ++ bs) ++ bytes)) as (s' & Hs & Hm & Hb'); [zl|].
  rewrite app_assoc, Hs. cbn. split; [|by rewrite Hm]. exists c. rewrite Hm. split; [|done]. by rewrite <- app_assoc in Hb'.
Qed.
Lemma finish_step s bs : builder Grow s [] 0%nat bs -> zlen bs <= SIZE_MAX -> outcome (finish_cbb s) (fun x _ => x = bs) (~ mem_ok).
Proof.
  intros Hb Hl. unfold finish_cbb. eapply outcome_bind; [apply CBB_finish_spec; by apply builder_view|..].
  - intros Herr. apply (mem_room (zlen bs)); [done|]. by apply (Herr _ eq_refl).
  - by intros [buf len] s' (? & [= <-] & Hlen & Ht & _ & _).
Qed.
Lemma init_step s cap : 0 <= cap <= SIZE_MAX -> outcome (CBB_init 0%nat cap s) (fun _ s' => builder Grow s' [] 0%nat []) (~ mem_ok).
Proof. intros Hc. eapply outcome_impl; [by apply CBB_init_spec|done|]. apply mem_room. unfold SIZE_MAX. lia. Qed.

(** A client of its own CBB that appends and finishes. *)
Lemma cbb_run_gives (build : M store (list Z * Z)) bs :
  outcome (build (mkStore None ∅)) (fun r _ => ztake (snd r) (fst r) = bs) (~ mem_ok) -> gives (cbb_run build) bs (~ mem_ok).
Proof. unfold cbb_run, gives. by destruct (build _) as [[[buf len]|] s]. Qed.
Lemma finish_run s bs : builder Grow s [] 0%nat bs -> zlen bs <= SIZE_MAX -> outcome (CBB_finish 0%nat true s) (fun r _ => ztake (snd r) (fst r) = bs) (~ mem_ok).
Proof.
  intros Hb Hl. eapply outcome_impl; [apply CBB_finish_spec; by apply builder_view|..].
  - by intros r s' (? & [= <-] & _ & Ht & _).
  - intros Herr. apply (mem_room (zlen bs)); [done|]. by apply (Herr _ eq_refl).
Qed.
End Steps.

(** ** Headers, sequence numbers and nonces *)
Section Parts.
Context `{Allocator} `{Aead} `{!Aead12} `{Ciphers} `{Methods} `{!Engines}.

(** RFC 5246 section 6.2.3.1: what a MAC covers before the contents. *)
Definition mac_header (seq : list Z) (ct version len : Z) : list Z := seq ++ [ct] ++ be_bytes 2 version ++ be_bytes 2 len.
Lemma zlen_mac_header seq ct v len : zlen (mac_header seq ct v len) = zlen seq + 5.
Proof. unfold mac_header. zl. Qed.
Lemma mac_header_bytes seq ct v len : Forall is_byte seq -> is_byte ct -> Forall is_byte (mac_header seq ct v len).
Proof. intros Hs Hc. unfold mac_header. rewrite !Forall_app, Forall_singleton. auto using be_bytes_bytes. Qed.

Lemma pseudo_header_gives rl ct len seq :
  zlen seq = 8 -> is_byte ct -> 0 <= rl_version rl < 2 ^ 16 -> 0 <= len < 2 ^ 16 ->
  gives (tls12_record_layer_pseudo_header rl ct len (CBS_init seq (zlen seq))) (mac_header seq ct (rl_version rl) len) (~ mem_ok).
Proof.
  intros Hs Hct Hv Hl. unfold tls12_record_layer_pseudo_header, wrap16. rewrite Z.mod_small by lia. apply cbb_run_gives. unfold pseudo_header_build.
  assert (HS : forall n, n <= 13 -> n <= SIZE_MAX) by (unfold SIZE_MAX; lia).
  eapply outcome_bind; [apply init_step; unfold SIZE_MAX; lia|done|]. intros [] s1 H1'.
  eapply outcome_bind; [eapply bytes_step; [exact H1'|done|cbn; apply HS; lia]|apply mem_room, HS; cbn; zl|]. intros [] s2 H2'.
  eapply outcome_bind; [apply u8_step; [exact H2'|done]|apply mem_room, HS; cbn; zl|]. intros [] s3 H3'.
  eapply outcome_bind; [apply u16_step; [exact H3'|done]|apply mem_room, HS; cbn; zl|]. intros [] s4 H4'.
  eapply outcome_bind; [apply u16_step; [exact H4'|done]|apply mem_room, HS; cbn; zl|]. intros [] s5 H5'.
  replace (mac_header seq ct (rl_version rl) len) with (((([] ++ seq) ++ [ct]) ++ be_bytes 2 (rl_version rl)) ++ be_bytes 2 len)
    by (unfold mac_header; by rewrite <- !app_assoc).
  apply finish_run; [done|]. apply HS. zl.
Qed.

(** The sequence number of a record: in DTLS epoch and number. *)
Definition wire_seq (dtls : bool) (epoch : Z) (seq : list Z) : list Z := if dtls then be_bytes 2 epoch ++ zdrop 2 seq else seq.
Lemma zlen_wire_seq dtls epoch seq : zlen seq = 8 -> zlen (wire_seq dtls epoch seq) = 8.
Proof. intros Hs. unfold wire_seq. destruct dtls; [|done]. zl. Qed.
Lemma wire_seq_bytes dtls epoch seq : Forall is_byte seq -> Forall is_byte (wire_seq dtls epoch seq).
Proof. intros Hs. unfold wire_seq. destruct dtls; [|done]. apply Forall_app. split; [apply be_bytes_bytes|by apply Forall_zdrop]. Qed.
Lemma build_seq_num_gives rl epoch seq :
  zlen seq = 8 -> 0 <= epoch < 2 ^ 16 -> gives (tls12_record_layer_build_seq_num rl epoch seq) (wire_seq (rl_dtls rl) epoch seq) (~ mem_ok).
Proof.
  intros Hs He. unfold tls12_record_layer_build_seq_num. apply cbb_run_gives. unfold seq_num_build. rewrite Hs.
  assert (HS : forall n, n <= 13 -> n <= SIZE_MAX) by (unfold SIZE_MAX; lia).
  eapply outcome_bind; [apply init_step; unfold SIZE_MAX, SSL3_SEQUENCE_SIZE; lia|done|]. intros [] s1 H1'. unfold wire_seq.
  destruct (rl_dtls rl).
  - eapply (outcome_bind _ _ _ (fun _ s' => builder Grow s' [] 0%nat (be_bytes 2 epoch ++ zdrop 2 seq)) _ (~ mem_ok)).
    + eapply outcome_bind; [apply u16_step; [exact H1'|done]|apply mem_room, HS; cbn; zl|]. intros [] s2 H2'.
      change (CBS_skip 2 (CBS_init seq 8)) with (Some tt, mkCBS (zdrop 2 seq) 8 6). cbv iota. eapply outcome_impl; [eapply bytes_step; [exact H2'|..]|done|].
      * cbn. zl.
      * unfold SIZE_MAX. cbn. lia.
      * apply mem_room, HS. cbn. zl.
    + done.
    + intros [] s3 H3'. apply finish_run; [done|]. apply HS. zl.
  - eapply (outcome_bind _ _ _ (fun _ s' => builder Grow s' [] 0%nat seq) _ (~ mem_ok)).
    + eapply outcome_impl; [eapply bytes_step; [exact H1'|done|unfold SIZE_MAX; cbn; lia]|done|]. apply mem_room, HS. cbn. zl.
    + done.
    + intros [] s3 H3'. apply finish_run; [done|]. apply HS. lia.
Qed.

(** The nonce of the record [seq]. *)
Definition aead_nonce12 (a : SSL_AEAD_CTX) (seq : list Z) : list Z :=
  if xor_fixed_nonce a then zip_with Z.lxor (zeros (fixed_nonce_len a - 8) ++ seq) (fixed_nonce a) else fixed_nonce a ++ seq.
Lemma concat_nonce_gives a seq :
  variable_nonce_len a = 8 -> zlen seq = 8 -> fixed_nonce_len a <= 12 ->
  gives (tls12_record_layer_aead_concat_nonce a seq) (fixed_nonce a ++ seq) (~ mem_ok).
Proof.
  intros Hv Hs Hf. unfold tls12_record_layer_aead_concat_nonce. rewrite Hv. cbn [Z.ltb SSL3_SEQUENCE_SIZE]. change (SSL3_SEQUENCE_SIZE <? 8) with false. cbv iota.
  apply cbb_run_gives. unfold concat_nonce_build. rewrite Hv. unfold fixed_nonce_len in *.
  assert (HS : forall n, n <= 20 -> n <= SIZE_MAX) by (unfold SIZE_MAX; lia).
  eapply outcome_bind; [apply init_step; unfold SIZE_MAX; lia|done|]. intros [] s1 H1'.
  eapply outcome_bind; [eapply bytes_step; [exact H1'|done|apply HS; lia]|apply mem_room, HS; cbn; zl|]. intros [] s2 H2'.
  eapply outcome_bind; [eapply bytes_step; [exact H2'|done|apply HS; lia]|apply mem_room, HS; cbn; zl|]. intros [] s3 H3'.
  apply finish_run; [done|]. apply HS. zl.
Qed.
Lemma xored_nonce_gives a seq :
  variable_nonce_len a = 8 -> zlen seq = 8 -> 8 <= fixed_nonce_len a <= 12 ->
  gives (tls12_record_layer_aead_xored_nonce a seq) (zip_with Z.lxor (zeros (fixed_nonce_len a - 8) ++ seq) (fixed_nonce a)) (~ mem_ok).
Proof.
  intros Hv Hs Hf. unfold tls12_record_layer_aead_xored_nonce. rewrite Hv. change (SSL3_SEQUENCE_SIZE <? 8) with false. cbv iota.
  rewrite (proj2 (Z.ltb_ge _ _)) by lia. eapply gives_bind; [apply cbb_run_gives|by cbn]. unfold xored_nonce_build. rewrite Hv.
  assert (HS : forall n, n <= 20 -> n <= SIZE_MAX) by (unfold SIZE_MAX; lia).
  eapply outcome_bind; [apply init_step; unfold SIZE_MAX; lia|done|]. intros [] s1 H1'.
  eapply outcome_bind; [eapply space_step; [exact H1'|split; [lia|apply HS; lia]]|apply mem_room, HS; cbn; zl|]. intros p s2 [_ H2'].
  eapply outcome_bind; [eapply bytes_step; [exact H2'|done|apply HS; lia]|apply mem_room, HS; cbn; zl|]. intros [] s3 H3'.
  apply finish_run; [done|]. apply HS. zl.
Qed.
Lemma be_bytes_all_ones n t : 0 <= t -> be_bytes n t = replicate n 255 <-> t mod 256 ^ Z.of_nat n = 256 ^ Z.of_nat n - 1.
Proof.
  intros Ht. assert (Hones : be_val (replicate n 255) = 256 ^ Z.of_nat n - 1).
  { induction n as [|n IH]; [done|]. rewrite replicate_S_end, be_val_snoc, IH, Nat2Z.inj_succ, Z.pow_succ_r by lia. lia. }
  assert (Hb : Forall is_byte (replicate n 255)) by (apply Forall_replicate; unfold is_byte; lia).
  rewrite <- be_val_be_bytes by done. split; [by intros ->|]. intros Hv. apply be_val_injective; [apply be_bytes_bytes|done| |by rewrite Hv].
  rewrite length_replicate. pose proof (zlen_be_bytes n t). unfold zlen in *. lia.
Qed.
(** Is [t] the last sequence number of an epoch? *)
Definition seq_last (dtls : bool) (t : Z) : bool := if dtls then t mod 2 ^ 48 =? 2 ^ 48 - 1 else t =? 2 ^ 64 - 1.
Lemma inc12_count dtls t :
  0 <= t < 2 ^ 64 ->
  tls12_record_layer_inc_seq_num dtls (be_bytes 8 t) = if seq_last dtls t then (None, be_bytes 8 t) else (Some tt, be_bytes 8 (t + 1)).
Proof.
  intros Ht. unfold tls12_record_layer_inc_seq_num.
  set (n := if dtls then 6%nat else 8%nat).
  assert (E : (if dtls then CBS_skip 2 (CBS_init (be_bytes 8 t) TLS12_RECORD_SEQ_NUM_LEN) else (Some tt, CBS_init (be_bytes 8 t) TLS12_RECORD_SEQ_NUM_LEN)) =
    (Some tt, mkCBS (be_bytes n t) 8 (Z.of_nat n))).
  { destruct dtls; [|done]. change (CBS_skip 2 (CBS_init (be_bytes 8 t) TLS12_RECORD_SEQ_NUM_LEN)) with (Some tt, mkCBS (zdrop 2 (be_bytes (2 + 6) t)) 8 6).
    rewrite be_bytes_split, zdrop_app_eq by zl. done. }
  rewrite E. unfold CBS_mem_equal. cbn [CBS_len cbs_len cbs_data].
  assert (Hm : ztake (Z.of_nat n) tls12_max_seq_num = replicate n 255) by (unfold n; by destruct dtls). rewrite Hm, Z.eqb_refl. cbn [negb].
  rewrite timingsafe_memcmp_eqb; [|apply be_bytes_bytes|apply Forall_replicate; unfold is_byte; lia|by rewrite zlen_be_bytes|unfold zlen; by rewrite length_replicate].
  assert (Hl : bytes_eqb (be_bytes n t) (replicate n 255) = seq_last dtls t).
  { unfold bytes_eqb. apply eq_true_iff_eq. rewrite bool_decide_eq_true, be_bytes_all_ones by lia. unfold seq_last, n.
    destruct dtls; rewrite Z.eqb_eq; [done|]. rewrite Z.mod_small by (change (256 ^ Z.of_nat 8) with (2 ^ 64); lia). done. }
  rewrite Hl. destruct (seq_last dtls t) eqn:Es; [done|]. f_equal.
  destruct (inc_loop_spec (be_bytes 8 t) [] (be_bytes_bytes 8 t)) as (a' & Ha & Hla & Hba & Hva). rewrite !app_nil_r in Ha.
  change (Z.to_nat TLS12_RECORD_SEQ_NUM_LEN) with (length (be_bytes 8 t)). rewrite Ha.
  apply be_val_injective; [done|apply be_bytes_bytes| |].
  - rewrite Hla. pose proof (zlen_be_bytes 8 t). pose proof (zlen_be_bytes 8 (t + 1)). unfold zlen in *. lia.
  - rewrite Hva, zlen_be_bytes, !be_val_be_bytes by lia. by rewrite Zplus_mod_idemp_l.
Qed.
End Parts.

(** ** Message authentication codes *)
(** What the record layer relies on of EVP_DigestSign with an HMAC key (crypto/evp/m_sigver.c, crypto/hmac/hm_pmeth.c): it computes
    HMAC.  [signing m k c d]: the context [c] with the digest [m] and the key [k] has absorbed [d]. *)
Class MacLaws `{Allocator} `{Methods} `{!Engines} `{!MdLaws} `{!Macs} := {
  signing : md -> list Z -> Evp.EVP_MD_CTX -> list Z -> Prop;
  sign_init m k pk c : EVP_PKEY_new_mac_key EVP_PKEY_HMAC k = Some pk -> EVP_DigestSignInit m pk Evp.EVP_MD_CTX_init = Some c -> signing m k c [];
  sign_digest m k c d : signing m k c d -> Evp.digest c = Some m;
  sign_copy m k c d : signing m k c d ->
    match Evp.EVP_MD_CTX_copy c Evp.EVP_MD_CTX_init with (Some _, c') => signing m k c' d | (None, _) => ~ mem_ok end;
  sign_update m k c d x : signing m k c d -> zlen x < 2 ^ 63 -> exists c', EVP_DigestSignUpdate x c = Some c' /\ signing m k c' (d ++ x);
  sign_final m k c d : signing m k c d -> EVP_DigestSignFinal_len c = Some (md_size m) /\ fst (EVP_DigestSignFinal c) = Some (hmac m k d)
}.

Section Mac.
Context `{Allocator} `{Aead} `{!Aead12} `{Ciphers} `{Methods} `{!Engines} `{!MdLaws} `{!Macs} `{!MacLaws} `{OtherDigests}.

(** The MAC of a record under the key [k]. *)
Definition record_mac (m : md) (k seq : list Z) (ct version : Z) (content : list Z) : list Z :=
  hmac m k (mac_header seq ct version (zlen content) ++ content).
Lemma zlen_record_mac m k seq ct v content : zlen (record_mac m k seq ct v content) = md_size m.
Proof. apply md_hash_ok. Qed.

Lemma mac_step set_hash rl s m k hc seq ct content bs :
  signing m k hc [] -> builder Grow s [] 0%nat bs -> zlen seq = 8 -> is_byte ct -> 0 <= rl_version rl < 2 ^ 16 -> zlen content < 2 ^ 16 -> zlen bs < 2 ^ 32 ->
  outcome (tls12_record_layer_mac set_hash hc false (CBS_init seq (zlen seq)) ct content (rl, s))
    (fun n st => n = md_size m /\ fst st = rl /\ builder Grow (snd st) [] 0%nat (bs ++ record_mac m k seq ct (rl_version rl) content)) (~ mem_ok).
Proof.
  intros Hsig Hb Hs Hct Hv Hl Hbs. unfold tls12_record_layer_mac.
  destruct (malloc_ok sizeof_evp_md_ctx) eqn:Hm; cbn [negb]; [|apply outcome_fail; eapply mem_malloc; [|exact Hm]; done].
  pose proof (sign_copy m k hc [] Hsig) as Hcopy. destruct (Evp.EVP_MD_CTX_copy hc Evp.EVP_MD_CTX_init) as [[[]|] c1] eqn:Ec.
  2: { eapply ask_fail; [done|exact Hcopy]. }
  eapply (ask_step _ _ _ _ c1); [done|]. eapply ask_step; [apply pseudo_header_gives; [done..|pose proof (zlen_nonneg content); lia]|].
  destruct (sign_update m k c1 [] (mac_header seq ct (rl_version rl) (zlen content)) Hcopy) as (c2 & E2 & H2c); [rewrite zlen_mac_header; lia|].
  eapply (ask_step _ _ _ _ c2); [by rewrite E2|].
  destruct (sign_update m k c2 _ content H2c) as (c3 & E3 & H3c); [lia|]. eapply (ask_step _ _ _ _ c3); [by rewrite E3|].
  destruct (sign_final m k c3 _ H3c) as [E4 E5]. eapply (ask_step _ _ _ _ (md_size m)); [by rewrite E4|].
  pose proof (md_sizes m) as (Hsz & _).
  eapply cbb_step; [eapply space_step; [exact Hb|unfold SIZE_MAX; lia]|apply mem_room; unfold SIZE_MAX; cbn; lia|].
  intros p s1 [Hp Hb1]. destruct (EVP_DigestSignFinal c3) as [mac c4]. cbn [fst] in E5. subst mac. cbn [app] in *.
  eapply (ask_step _ _ _ _ (record_mac m k seq ct (rl_version rl) content)); [done|].
  eapply cbb_step; [eapply fill_step; [exact Hb1|lia|exact Hp|apply zlen_record_mac]|done|]. intros [] s2 Hb2.
  rewrite zlen_record_mac, (proj2 (Z.eqb_neq _ _)) by lia. cbn. by split_and!.
Qed.
End Mac.

(** ** Ciphers *)
(** What the record layer relies on of the ciphers of the cipher suites: two contexts set up with the same key and IV, one to encrypt and
    one to decrypt, stay in step; CBC ciphers have blocks of 2 to 32 bytes, the others are stream ciphers.  [linked cbc ivl bs e d]: [d]
    decrypts what [e] will encrypt. *)
Class CipherLaws `{Ciphers} := {
  record_cipher : EVP_CIPHER -> Prop;
  linked : bool -> Z -> Z -> EVP_CIPHER_CTX -> EVP_CIPHER_CTX -> Prop;
  linked_init c key iv e d : record_cipher c ->
    EVP_CipherInit_ex c key iv true = Some e -> EVP_CipherInit_ex c key iv false = Some d -> exists cbc ivl bs, linked cbc ivl bs e d;
  linked_shape cbc ivl bs e d : linked cbc ivl bs e d ->
    Forall (fun c => (EVP_CIPHER_CTX_mode c =? EVP_CIPH_CBC_MODE) = cbc /\ EVP_CIPHER_CTX_iv_length c = ivl /\ EVP_CIPHER_CTX_block_size c = bs) [e; d] /\
    if cbc then 1 < bs <= 32 /\ 0 <= ivl <= 16 else bs = 1;
  linked_step cbc ivl bs e d x : linked cbc ivl bs e d -> Forall is_byte x -> zlen x mod bs = 0 ->
    exists y e' d', EVP_Cipher e x = (Some y, e') /\ EVP_Cipher d y = (Some x, d') /\ zlen y = zlen x /\ Forall is_byte y /\ linked cbc ivl bs e' d'
}.

Section Plain.
Context `{Allocator} `{Aead} `{!Aead12} `{Ciphers} `{!CipherLaws} `{Methods} `{!Engines} `{!MdLaws} `{!Macs} `{!MacLaws} `{OtherDigests}.

(** The length of the explicit IV, and what is encrypted: RFC 5246 section 6.2.3.2 and, with blocks of one byte, 6.2.3.1. *)
Definition eiv_size (version : Z) (cbc : bool) (ivl : Z) : Z := if version =? TLS1_VERSION then 0 else if cbc then ivl else 0.
Definition pad_size (bs n : Z) : Z := if 1 <? bs then bs - n mod bs else 0.
Definition padded (bs : Z) (body : list Z) : list Z := let p := pad_size bs (zlen body) in body ++ replicate (Z.to_nat p) (p - 1).

Lemma pad_size_range bs n : 1 <= bs <= 32 -> 0 <= pad_size bs n <= bs /\ (n + pad_size bs n) mod bs = 0.
Proof.
  intros Hbs. unfold pad_size. destruct (Z.ltb_spec 1 bs).
  - pose proof (Z.mod_pos_bound n bs ltac:(lia)). split; [lia|]. rewrite (Z.div_mod n bs) at 1 by lia.
    replace (bs * (n / bs) + n mod bs + (bs - n mod bs)) with ((n / bs + 1) * bs) by lia. apply Z.mod_mul. lia.
  - replace bs with 1 by lia. split; [lia|]. apply Z.mod_1_r.
Qed.
Lemma pad_size_pos bs n : 1 <= bs -> if 1 <? bs then 1 <= pad_size bs n else pad_size bs n = 0.
Proof. intros Hbs. unfold pad_size. destruct (Z.ltb_spec 1 bs); [|done]. pose proof (Z.mod_pos_bound n bs ltac:(lia)). lia. Qed.
Lemma zlen_padded bs body : 1 <= bs <= 32 -> zlen (padded bs body) = zlen body + pad_size bs (zlen body).
Proof. intros Hbs. unfold padded. cbv zeta. pose proof (pad_size_range bs (zlen body) Hbs). zl. Qed.
Lemma padded_bytes bs body : 1 <= bs <= 32 -> Forall is_byte body -> Forall is_byte (padded bs body).
Proof.
  intros Hbs Hb. unfold padded. apply Forall_app. split; [done|]. pose proof (pad_size_range bs (zlen body) Hbs).
  destruct (decide (pad_size bs (zlen body) = 0)) as [->|]; [constructor|]. apply Forall_replicate. unfold is_byte. lia.
Qed.

(** A protection that seals with a cipher and HMAC: of the writer with the context [e], of the reader with [d]. *)
Record ciphering (cbc : bool) (ivl bs : Z) (m : md) (k : list Z) (c : EVP_CIPHER_CTX) (p : tls12_record_protection) : Prop := {
  cp_aead : rp_aead_ctx p = None;
  cp_cipher : rp_cipher_ctx p = Some c;
  cp_hash : exists hc, rp_hash_ctx p = Some hc /\ signing m k hc [];
  cp_stream : rp_stream_mac p = false;
  cp_key : default [] (rp_mac_key p) = k
}.

Lemma shape_of cbc ivl bs e d c :
  linked cbc ivl bs e d -> (c = e \/ c = d) ->
  (EVP_CIPHER_CTX_mode c =? EVP_CIPH_CBC_MODE) = cbc /\ EVP_CIPHER_CTX_iv_length c = ivl /\ EVP_CIPHER_CTX_block_size c = bs /\
  1 <= bs <= 32 /\ (1 <? bs) = cbc /\ forall v, 0 <= eiv_size v cbc ivl <= 16.
Proof.
  intros Hl Hc. destruct (linked_shape _ _ _ _ _ Hl) as [Hs Hb].
  apply Forall_cons_1 in Hs as [He Hs]. apply Forall_cons_1 in Hs as [Hd _].
  assert (Hcc : (EVP_CIPHER_CTX_mode c =? EVP_CIPH_CBC_MODE) = cbc /\ EVP_CIPHER_CTX_iv_length c = ivl /\ EVP_CIPHER_CTX_block_size c = bs) by (destruct Hc as [-> | ->]; done).
  destruct Hcc as (H1' & H2' & H3'). do 3 (split; [done|]). unfold eiv_size.
  destruct cbc; (split; [lia|]; split; [lia|]); intros v; destruct (v =? TLS1_VERSION); lia.
Qed.

Lemma eiv_len_gives rl p cbc ivl bs e d m k c :
  linked cbc ivl bs e d -> (c = e \/ c = d) -> ciphering cbc ivl bs m k c p ->
  (if negb (rl_version rl =? TLS1_VERSION) then tls12_record_protection_eiv_len p else Some 0) = Some (eiv_size (rl_version rl) cbc ivl).
Proof.
  intros Hl Hc Hp. destruct (shape_of _ _ _ _ _ _ Hl Hc) as (Hm & Hi & _ & _ & _ & Hz). specialize (Hz (rl_version rl)). unfold eiv_size in *.
  destruct (rl_version rl =? TLS1_VERSION); cbn [negb]; [done|]. unfold tls12_record_protection_eiv_len. rewrite (cp_cipher _ _ _ _ _ _ _ Hp), Hm, Hi.
  cbv zeta. unfold EVP_MAX_IV_LENGTH. rewrite (proj2 (Z.ltb_ge _ 0)), (proj2 (Z.ltb_ge 16 _)) by lia. done.
Qed.
Lemma block_size_gives p cbc ivl bs e d m k c :
  linked cbc ivl bs e d -> (c = e \/ c = d) -> ciphering cbc ivl bs m k c p -> tls12_record_protection_block_size p = Some bs.
Proof.
  intros Hl Hc Hp. destruct (shape_of _ _ _ _ _ _ Hl Hc) as (_ & _ & Hb & Hz & _). unfold tls12_record_protection_block_size.
  rewrite (cp_cipher _ _ _ _ _ _ _ Hp), Hb. cbv zeta. unfold EVP_MAX_BLOCK_LENGTH. rewrite (proj2 (Z.ltb_ge _ 0)), (proj2 (Z.ltb_ge 32 _)) by lia. done.
Qed.
(** The plaintext of a record. *)
Definition cipher_plain (cbc : bool) (ivl bs : Z) (m : md) (k random seq : list Z) (ct version : Z) (content : list Z) : list Z :=
  padded bs (ztake (eiv_size version cbc ivl) random ++ content ++ record_mac m k seq ct version content).

Lemma plain_build_spec rl w random ct seq content cbc ivl bs e d m k :
  write_protection rl = Some w -> linked cbc ivl bs e d -> ciphering cbc ivl bs m k e w ->
  zlen seq = 8 -> is_byte ct -> 0 <= rl_version rl < 2 ^ 16 -> zlen content <= 2 ^ 14 -> 16 <= zlen random ->
  outcome (with_cbb (plain_build random ct (CBS_init seq (zlen seq)) content) rl)
    (fun plain rl' => rl' = rl /\ plain = cipher_plain cbc ivl bs m k random seq ct (rl_version rl) content) (~ mem_ok).
Proof.
  intros Hw Hl Hp Hs Hct Hv Hc Hr. destruct (shape_of _ _ _ _ _ e Hl (or_introl eq_refl)) as (_ & _ & _ & Hbs & _ & Hz).
  specialize (Hz (rl_version rl)). pose proof (zlen_nonneg content). pose proof (md_sizes m) as (Hsz & _).
  apply with_cbb_spec. unfold plain_build. set (eivl := eiv_size (rl_version rl) cbc ivl) in *. set (eiv := ztake eivl random).
  assert (Heiv : zlen eiv = eivl) by (unfold eiv; zl). assert (HS : forall n, n <= 2 ^ 20 -> n <= SIZE_MAX) by (unfold SIZE_MAX; lia).
  eapply cbb_step; [apply init_step; unfold SSL3_RT_MAX_PLAIN_LENGTH, SIZE_MAX; lia|done|]. intros [] s1 Hs1.
  eapply (ask_step _ _ _ _ eivl); [rewrite Hw; cbn [mbind option_bind]; by rewrite (eiv_len_gives rl w _ _ _ _ _ _ _ _ Hl (or_introl eq_refl) Hp)|].
  eapply (outcome_bind _ _ _ (fun _ st => fst st = rl /\ builder Grow (snd st) [] 0%nat eiv) _ (~ mem_ok)).
  { destruct (Z.ltb_spec 0 eivl).
    - eapply cbb_step; [eapply space_step; [exact Hs1|split; [lia|apply HS; lia]]|apply mem_room, HS; cbn; zl|]. intros q s2 [Hq Hs2].
      by eapply cbb_last; [exact (fill_step Grow s2 [] 0%nat [] eivl eiv q Hs2 ltac:(lia) Hq Heiv)|done|].
    - cbn. split; [done|]. replace eiv with (@nil Z); [done|]. symmetry. apply zlen_0_nil. lia. }
  { done. }
  intros [] [rl2 s2] [Hrl2 Hs2]. cbn [fst snd] in *. subst rl2.
  eapply cbb_step; [eapply bytes_step; [exact Hs2|done|apply HS; lia]|apply mem_room, HS; cbn; zl|]. intros [] s3 Hs3.
  eapply (ask_step _ _ _ _ w); [by rewrite Hw|]. destruct (cp_hash _ _ _ _ _ _ _ Hp) as (hc & Hhc & Hsig). rewrite Hhc. cbn [is_null negb].
  eapply (outcome_bind _ _ _ (fun n st => n = md_size m /\ fst st = rl /\ builder Grow (snd st) [] 0%nat ((eiv ++ content) ++ record_mac m k seq ct (rl_version rl) content)) _ (~ mem_ok)).
  { unfold tls12_record_layer_write_mac. eapply (ask_step _ _ _ _ hc); [rewrite Hw; cbn; by rewrite Hhc|].
    eapply (ask_step _ _ _ _ false); [rewrite Hw; cbn; by rewrite (cp_stream _ _ _ _ _ _ _ Hp)|]. apply mac_step; try done; [lia|zl]. }
  { done. }
  intros n [rl3 s4] (-> & Hrl3 & Hs4). cbn [fst snd] in *. subst rl3.
  eapply (ask_step _ _ _ _ bs); [rewrite Hw; cbn; by rewrite (block_size_gives _ _ _ _ _ _ _ _ _ Hl (or_introl eq_refl) Hp)|].
  set (body := (eiv ++ content) ++ record_mac m k seq ct (rl_version rl) content) in *.
  assert (Hbody : zlen body = eivl + zlen content + md_size m) by (unfold body; rewrite !zlen_app, zlen_record_mac; lia).
  pose proof (pad_size_range bs (zlen body) Hbs) as [Hpad _].
  eapply (outcome_bind _ _ _ (fun _ st => fst st = rl /\ builder Grow (snd st) [] 0%nat (padded bs body)) _ (~ mem_ok)).
  { rewrite <- Hbody. unfold padded. cbv zeta. unfold pad_size in *. destruct (1 <? bs).
    - set (p := bs - zlen body mod bs) in *. rewrite (proj2 (Z.ltb_ge 255 p)) by lia.
      eapply cbb_step; [eapply space_step; [exact Hs4|split; [lia|apply HS; lia]]|apply mem_room, HS; cbn; zl|]. intros q s5 [Hq Hs5].
      unfold wrap8.
      destruct (decide (p = 0)) as [Hp0|Hp0]; [pose proof (Z.mod_pos_bound (zlen body) bs ltac:(lia)); unfold p in *; lia|].
      rewrite Z.mod_small by lia.
      by eapply cbb_last; [eapply (fill_step _ _ _ _ body p (replicate (Z.to_nat p) (p - 1))); [exact Hs5|lia|exact Hq|zl]|done|].
    - cbn. by rewrite app_nil_r. }
  { done. }
  intros [] [rl4 s5] [Hrl4 Hs5]. cbn [fst snd] in *. subst rl4.
  assert (HX : zlen (padded bs body) <= SIZE_MAX) by (apply HS; rewrite zlen_padded by done; lia).
  eapply cbb_last; [exact (finish_step s5 (padded bs body) Hs5 HX)|done|].
  intros x s6 ->. split; [done|]. unfold cipher_plain, body. by rewrite <- app_assoc.
Qed.
End Plain.

(** ** AEADs *)
(** What the record layer relies on of the AEADs of the cipher suites: with a nonce of the right length, sealing adds the overhead of the
    AEAD and opening undoes it. *)
Class Aead12Laws `{Aead12} := {
  aead12_works a key ctx n inp ad : EVP_AEAD_CTX_init a key = Some ctx -> zlen n = EVP_AEAD_nonce_length a ->
    Forall is_byte n -> Forall is_byte inp -> Forall is_byte ad -> zlen inp <= 2 ^ 14 -> zlen ad <= 13 ->
    exists out, EVP_AEAD_CTX_seal ctx (zlen inp + EVP_AEAD_max_overhead a) n inp ad = Some out /\ zlen out = zlen inp + EVP_AEAD_max_overhead a /\
      EVP_AEAD_CTX_open ctx (zlen inp) n out ad = Some inp;
  aead12_overhead a : 0 <= EVP_AEAD_max_overhead a <= 255;
  aead12_names a : is_chacha20_poly1305 a = true -> is_aes_gcm a = false
}.

Section Sealing.
Context `{Allocator} `{Aead} `{!Aead12} `{Ciphers} `{!CipherLaws} `{Methods} `{!Engines} `{!MdLaws} `{!Macs} `{!MacLaws} `{OtherDigests}.

(** An AEAD protection that opens what it seals. *)
Record sealing (a : SSL_AEAD_CTX) : Prop := {
  se_var : variable_nonce_len a = 8;
  se_fixed : if xor_fixed_nonce a then 8 <= fixed_nonce_len a <= 12 /\ variable_nonce_in_record a = false else fixed_nonce_len a <= 12;
  se_tag : 0 <= tag_len a <= 255;
  se_works : exists ctx, sa_ctx a = Some ctx /\ forall seq ct version content,
    zlen seq = 8 -> Forall is_byte seq -> is_byte ct -> Forall is_byte content -> zlen content <= 2 ^ 14 ->
    let n := aead_nonce12 a seq in
    let ad := mac_header seq ct version (zlen content) in
    exists out, EVP_AEAD_CTX_seal ctx (zlen content + tag_len a) n content ad = Some out /\ zlen out = zlen content + tag_len a /\
      EVP_AEAD_CTX_open ctx (zlen content) n out ad = Some content
}.
Lemma aead_nonce_gives a seq :
  sealing a -> zlen seq = 8 ->
  gives (if xor_fixed_nonce a then tls12_record_layer_aead_xored_nonce a seq else tls12_record_layer_aead_concat_nonce a seq) (aead_nonce12 a seq) (~ mem_ok).
Proof.
  intros Ha Hs. pose proof (se_fixed a Ha) as Hf. unfold aead_nonce12. destruct (xor_fixed_nonce a).
  - apply xored_nonce_gives; [apply Ha|done|apply Hf].
  - apply concat_nonce_gives; [apply Ha|done..].
Qed.

(** [fragment rl w seq random ct content frag rl']: the record layer [rl], whose protection for writing is [w], turns the contents into
    [frag] and becomes [rl']. *)
Inductive fragment (rl : tls12_record_layer) (w : tls12_record_protection) (seq random : list Z) (ct : Z) (content : list Z) : list Z -> tls12_record_layer -> Prop :=
  | Frag_plain : rp_aead_ctx w = None -> rp_cipher_ctx w = None -> fragment rl w seq random ct content content rl
  | Frag_aead a ctx enc : rp_aead_ctx w = Some a -> sealing a -> sa_ctx a = Some ctx ->
      EVP_AEAD_CTX_seal ctx (zlen content + tag_len a) (aead_nonce12 a seq) content (mac_header seq ct (rl_version rl) (zlen content)) = Some enc ->
      zlen enc = zlen content + tag_len a ->
      fragment rl w seq random ct content ((if variable_nonce_in_record a then seq else []) ++ enc) rl
  | Frag_cipher cbc ivl bs m k e d y e' : linked cbc ivl bs e d -> ciphering cbc ivl bs m k e w ->
      EVP_Cipher e (cipher_plain cbc ivl bs m k random seq ct (rl_version rl) content) = (Some y, e') ->
      zlen y = zlen (cipher_plain cbc ivl bs m k random seq ct (rl_version rl) content) ->
      fragment rl w seq random ct content y (on_write (fun p => p<|rp_cipher_ctx := Some e'|>) rl).

(** The protections that the theorems cover. *)
Inductive sealable (w : tls12_record_protection) : Prop :=
  | Sealable_plain : rp_aead_ctx w = None -> rp_cipher_ctx w = None -> sealable w
  | Sealable_aead a : rp_aead_ctx w = Some a -> sealing a -> sealable w
  | Sealable_cipher cbc ivl bs m k e d : linked cbc ivl bs e d -> ciphering cbc ivl bs m k e w -> sealable w.

(** The hypotheses about a record to be sealed. *)
Record sendable (ct : Z) (content random : list Z) : Prop := {
  sd_type : is_byte ct;
  sd_bytes : Forall is_byte content;
  sd_len : zlen content <= SSL3_RT_MAX_PLAIN_LENGTH;
  sd_random : Forall is_byte random /\ 16 <= zlen random
}.
(** At most this many bytes are added to the contents, and to the fragment. *)
Definition MAX_EXPANSION : Z := 263.
Definition header_len (dtls : bool) : Z := if dtls then 13 else 5.
Definition cipher_overhead (cbc : bool) (ivl bs : Z) (m : md) : Z := (if cbc then ivl + bs else 0) + md_size m.
(** At most [exp] bytes are added to contents under the protection [w]. *)
Record expands (w : tls12_record_protection) (exp : Z) : Prop := {
  ex_range : 0 <= exp <= MAX_EXPANSION;
  ex_aead a : rp_aead_ctx w = Some a -> (if variable_nonce_in_record a then 8 else 0) + tag_len a <= exp;
  ex_cipher cbc ivl bs m k e d : linked cbc ivl bs e d -> ciphering cbc ivl bs m k e w -> cipher_overhead cbc ivl bs m <= exp
}.
Lemma cipher_overhead_le cbc ivl bs m e d : linked cbc ivl bs e d -> 0 <= cipher_overhead cbc ivl bs m <= 112.
Proof. intros Hl. pose proof (linked_shape _ _ _ _ _ Hl) as [_ Hsh]. pose proof (md_sizes m) as (Hsz & _). unfold cipher_overhead. destruct cbc; lia. Qed.
Lemma sealable_expands w : sealable w -> expands w MAX_EXPANSION.
Proof.
  intros Hw. split; [done| |].
  - intros a Ha. destruct Hw as [Ha'|a' Ha' Hse|? ? ? ? ? ? ? _ Hc]; [by rewrite Ha in Ha'| |by rewrite (cp_aead _ _ _ _ _ _ _ Hc) in Ha].
    rewrite Ha in Ha'. apply (inj Some) in Ha'. subst a'. pose proof (se_tag a Hse). unfold MAX_EXPANSION. destruct (variable_nonce_in_record a); lia.
  - intros cbc ivl bs m k e d Hl _. pose proof (cipher_overhead_le cbc ivl bs m e d Hl). unfold MAX_EXPANSION. lia.
Qed.

Lemma cipher_plain_bounds cbc ivl bs m k e d random seq ct v content :
  linked cbc ivl bs e d -> 16 <= zlen random ->
  let p := cipher_plain cbc ivl bs m k random seq ct v content in
  zlen content <= zlen p <= zlen content + cipher_overhead cbc ivl bs m /\ zlen p mod bs = 0.
Proof.
  intros Hl Hr. destruct (shape_of _ _ _ _ _ e Hl (or_introl eq_refl)) as (_ & _ & _ & Hbs & H1bs & Hz). specialize (Hz v). pose proof (linked_shape _ _ _ _ _ Hl) as [_ Hsh].
  cbv zeta. unfold cipher_plain. rewrite zlen_padded by done. rewrite !zlen_app, zlen_record_mac, zlen_ztake by lia.
  match goal with |- context [pad_size bs ?n] => pose proof (pad_size_range bs n Hbs) as [Hp Hq]; pose proof (pad_size_pos bs n ltac:(lia)) as Hp1 end. rewrite H1bs in Hp1.
  pose proof (md_sizes m) as (Hsz & _). assert (Heiv : eiv_size v cbc ivl <= if cbc then ivl else 0) by (unfold eiv_size; destruct (v =? TLS1_VERSION), cbc; lia).
  split; [|exact Hq]. unfold cipher_overhead. destruct cbc; lia.
Qed.
Lemma cipher_plain_min cbc ivl bs m k e d random seq ct v content :
  linked cbc ivl bs e d -> 16 <= zlen random ->
  eiv_size v cbc ivl + md_size m + (if cbc then 1 else 0) <= zlen (cipher_plain cbc ivl bs m k random seq ct v content).
Proof.
  intros Hl Hr. destruct (shape_of _ _ _ _ _ e Hl (or_introl eq_refl)) as (_ & _ & _ & Hbs & H1bs & Hz). specialize (Hz v).
  unfold cipher_plain. rewrite zlen_padded by done. rewrite !zlen_app, zlen_record_mac, zlen_ztake by lia. pose proof (zlen_nonneg content).
  match goal with |- context [pad_size bs ?n] => pose proof (pad_size_pos bs n ltac:(lia)) as Hp end. rewrite H1bs in Hp. destruct cbc; lia.
Qed.
Lemma cipher_plain_bytes cbc ivl bs m k e d random seq ct v content :
  linked cbc ivl bs e d -> Forall is_byte random -> Forall is_byte content -> Forall is_byte (cipher_plain cbc ivl bs m k random seq ct v content).
Proof.
  intros Hl Hr Hc. destruct (shape_of _ _ _ _ _ e Hl (or_introl eq_refl)) as (_ & _ & _ & Hbs & _). apply padded_bytes; [done|].
  rewrite !Forall_app. split_and!; [by apply Forall_ztake|done|]. apply md_hash_ok.
Qed.

Section Fragment.
Context (md : mode) (fs : list frame) (h : addr) (s : store) (rl : tls12_record_layer) (w : tls12_record_protection).
Context (seq random : list Z) (ct : Z) (content : list Z).
Context (Hb : builder md s fs h []) (Hw : write_protection rl = Some w) (Hs : zlen seq = 8) (Hsb : Forall is_byte seq).
Context (Hv : 0 <= rl_version rl < 2 ^ 16) (Hd : sendable ct content random) (exp : Z) (Hexp : expands w exp).
Abbreviation seq_num := (CBS_init seq (zlen seq)).
Abbreviation no_room := (~ (mem_ok /\ room md (ctx_len fs + zlen content + exp))).
Abbreviation sealed := (fun (_ : unit) (st : tls12_record_layer * store) =>
  exists frag, fragment rl w seq random ct content frag (fst st) /\ builder md (snd st) fs h frag).

Lemma no_room_of n : n <= ctx_len fs + zlen content + exp -> ~ room md n -> no_room.
Proof. intros Hn Hr [_ Hroom]. apply Hr. by eapply room_mono. Qed.
Lemma no_room_mem : ~ mem_ok -> no_room.
Proof. tauto. Qed.

Lemma seal_plaintext_spec :
  rp_aead_ctx w = None -> rp_cipher_ctx w = None ->
  outcome (tls12_record_layer_seal_record_plaintext content h (rl, s)) sealed no_room.
Proof.
  intros Ha Hc. destruct Hd as [_ _ Hl _]. unfold SSL3_RT_MAX_PLAIN_LENGTH in Hl. unfold tls12_record_layer_seal_record_plaintext. eapply (ask_step _ _ _ _ w); [by rewrite Hw|].
  unfold tls12_record_protection_engaged. rewrite Ha, Hc. cbn [is_null negb orb].
  eapply cbb_last; [eapply bytes_step; [exact Hb|done|unfold SIZE_MAX; lia]|apply no_room_of; pose proof (ex_range _ _ Hexp); zl|].
  intros [] s' Hb'. exists content. split; [by constructor|done].
Qed.

Lemma seal_aead_spec a :
  rp_aead_ctx w = Some a -> sealing a ->
  outcome (tls12_record_layer_seal_record_protected_aead ct seq_num content h (rl, s)) sealed no_room.
Proof.
  intros Ha Hse. destruct Hd as [Hct Hcb Hl _]. unfold SSL3_RT_MAX_PLAIN_LENGTH in Hl. pose proof (se_tag a Hse) as Htag. pose proof (zlen_nonneg content). pose proof (ex_aead _ _ Hexp a Ha) as Hea.
  unfold tls12_record_layer_seal_record_protected_aead. eapply (ask_step _ _ _ _ a); [rewrite Hw; cbn; by rewrite Ha|].
  eapply (ask_step _ _ _ _ (aead_nonce12 a seq)).
  { pose proof (aead_nonce_gives a seq Hse Hs) as Hg. cbn [CBS_data CBS_init cbs_data]. destruct (if xor_fixed_nonce a then _ else _); [exact Hg|by apply no_room_mem]. }
  eapply (outcome_bind _ _ _ (fun _ st => fst st = rl /\ builder md (snd st) fs h (if variable_nonce_in_record a then seq else [])) _ no_room).
  { destruct (variable_nonce_in_record a); [|done]. rewrite (se_var a Hse).
    by eapply cbb_last; [eapply bytes_step; [exact Hb|done|unfold SIZE_MAX; lia]|apply no_room_of; zl|]. }
  { done. }
  intros [] [rl1 s1] [Hrl1 Hs1]. cbn [fst snd] in *. subst rl1. set (pre := if variable_nonce_in_record a then seq else []) in *.
  assert (Hpre : zlen pre = if variable_nonce_in_record a then 8 else 0) by (unfold pre; by destruct (variable_nonce_in_record a)).
  eapply (ask_step _ _ _ _ (mac_header seq ct (rl_version rl) (zlen content))).
  { pose proof (pseudo_header_gives rl ct (zlen content) seq Hs Hct Hv ltac:(lia)) as Hg. destruct (tls12_record_layer_pseudo_header _ _ _ _); [exact Hg|by apply no_room_mem]. }
  rewrite (proj2 (Z.ltb_ge _ (zlen content + tag_len a))) by (unfold SSL3_RT_MAX_ENCRYPTED_LENGTH, SSL3_RT_MAX_ENCRYPTED_OVERHEAD, SSL3_RT_MAX_COMPRESSED_LENGTH, SSL3_RT_MAX_PLAIN_LENGTH, SSL3_RT_MAX_MD_SIZE; lia).
  eapply cbb_step; [eapply space_step; [exact Hs1|unfold SIZE_MAX; lia]|apply no_room_of; lia|]. intros p s2 [Hp Hs2].
  destruct (se_works a Hse) as (ctx & Hctx & Hworks). destruct (Hworks seq ct (rl_version rl) content Hs Hsb Hct Hcb Hl) as (enc & Henc & Hlen & _).
  eapply (ask_step _ _ _ _ enc); [rewrite Hctx; cbn [mbind option_bind]; by rewrite Henc|].
  eapply cbb_step; [eapply fill_step; [exact Hs2|lia|exact Hp|exact Hlen]|done|]. intros [] s3 Hs3.
  rewrite Hlen, Z.eqb_refl. cbn [negb]. exists (pre ++ enc). split; [|done]. by eapply Frag_aead.
Qed.

Lemma seal_cipher_spec cbc ivl bs m k e d :
  linked cbc ivl bs e d -> ciphering cbc ivl bs m k e w ->
  outcome (tls12_record_layer_seal_record_protected_cipher random ct seq_num content h (rl, s)) sealed no_room.
Proof.
  intros Hl Hp. destruct Hd as [Hct Hcb Hlen [Hrb Hr]]. unfold SSL3_RT_MAX_PLAIN_LENGTH in Hlen. unfold tls12_record_layer_seal_record_protected_cipher.
  eapply rl_step; [by eapply plain_build_spec|by apply no_room_mem|]. intros plain rl' [-> ->]. set (plain := cipher_plain _ _ _ _ _ _ _ _ _ _).
  destruct (cipher_plain_bounds _ _ _ m k _ _ random seq ct (rl_version rl) content Hl Hr) as [Hpl Hmod]. fold plain in Hpl, Hmod. pose proof (zlen_nonneg content). pose proof (ex_cipher _ _ Hexp _ _ _ _ _ _ _ Hl Hp) as Hec. pose proof (cipher_overhead_le _ _ _ m _ _ Hl).
  eapply (ask_step _ _ _ _ bs); [rewrite Hw; cbn; by rewrite (block_size_gives _ _ _ _ _ _ _ _ _ Hl (or_introl eq_refl) Hp)|].
  rewrite Hmod. cbn [Z.eqb negb]. rewrite (proj2 (Z.ltb_ge _ (zlen plain))) by (unfold SSL3_RT_MAX_ENCRYPTED_LENGTH, SSL3_RT_MAX_ENCRYPTED_OVERHEAD, SSL3_RT_MAX_COMPRESSED_LENGTH, SSL3_RT_MAX_PLAIN_LENGTH, SSL3_RT_MAX_MD_SIZE; lia).
  eapply cbb_step; [eapply space_step; [exact Hb|unfold SIZE_MAX; lia]|apply no_room_of; zl|]. intros p s2 [Hpos Hs2].
  destruct (linked_step _ _ _ _ _ plain Hl (cipher_plain_bytes _ _ _ _ _ _ _ _ _ _ _ _ Hl Hrb Hcb) Hmod) as (y & e' & d' & Henc & _ & Hy & _).
  eapply (rl_step _ _ _ _ (fun y' rl'' => y' = y /\ rl'' = on_write (fun p => p<|rp_cipher_ctx := Some e'|>) rl) _ _ False); [|done|].
  { unfold write_encrypt. rewrite Hw. cbn [mbind option_bind]. rewrite (cp_cipher _ _ _ _ _ _ _ Hp), Henc. done. }
  intros y' rl'' [-> ->]. eapply cbb_last; [eapply fill_step; [exact Hs2|zl|exact Hpos|exact Hy]|done|].
  intros [] s3 Hs3. exists y. split; [|done]. by eapply Frag_cipher.
Qed.
End Fragment.
(** The record on the wire. *)
Definition wire12 (rl : tls12_record_layer) (seq : list Z) (ct : Z) (frag : list Z) : list Z :=
  [ct] ++ be_bytes 2 (rl_version rl) ++ (if rl_dtls rl then seq else []) ++ be_bytes 2 (zlen frag) ++ frag.

Lemma write_protection_on f rl : write_protection (on_write f rl) = f <$> write_protection rl.
Proof. unfold write_protection, on_write. destruct (write rl) eqn:E; cbn; by rewrite ?E. Qed.
Lemma on_write_config f rl : rl_version (on_write f rl) = rl_version rl /\ rl_dtls (on_write f rl) = rl_dtls rl.
Proof. unfold on_write. by destruct (write rl). Qed.
Lemma fragment_after rl w seq random ct content frag rl' :
  fragment rl w seq random ct content frag rl' -> write_protection rl = Some w ->
  rl_dtls rl' = rl_dtls rl /\ rl_version rl' = rl_version rl /\ exists w', write_protection rl' = Some w' /\ rp_seq_num w' = rp_seq_num w /\ rp_epoch w' = rp_epoch w.
Proof.
  intros Hf Hw. destruct Hf; try (by split_and!; eauto). destruct (on_write_config (fun p => p<|rp_cipher_ctx := Some e'|>) rl) as [-> ->].
  split; [done|]. split; [done|]. rewrite write_protection_on, Hw. by eexists.
Qed.
Lemma fragment_len rl w seq random ct content frag rl' :
  fragment rl w seq random ct content frag rl' -> zlen seq = 8 -> sendable ct content random -> forall exp, expands w exp -> zlen frag <= zlen content + exp.
Proof.
  intros Hf Hs [_ _ _ [_ Hr]] exp Hexp. pose proof (ex_range _ _ Hexp). destruct Hf as [|a ctx enc Hwa Ha _ _ He|cbc ivl bs m k e d y e' Hl Hc _ Hy]; [lia| |].
  - pose proof (ex_aead _ _ Hexp a Hwa). rewrite zlen_app, He. destruct (variable_nonce_in_record a); [lia|zl].
  - pose proof (ex_cipher _ _ Hexp _ _ _ _ _ _ _ Hl Hc). destruct (cipher_plain_bounds _ _ _ m k _ _ random seq ct (rl_version rl) content Hl Hr). lia.
Qed.
Lemma fragment_len_max rl w seq random ct content frag rl' :
  fragment rl w seq random ct content frag rl' -> zlen seq = 8 -> sendable ct content random -> sealable w -> zlen frag <= zlen content + MAX_EXPANSION.
Proof. intros Hf Hs Hd Hw. eapply fragment_len; [done..|]. by apply sealable_expands. Qed.

Lemma seal_record12_spec md h bs s rl w t random ct content exp :
  builder md s [] h bs -> write_protection rl = Some w -> rp_seq_num w = be_bytes 8 t -> 0 <= t < 2 ^ 64 -> 0 <= rp_epoch w < 2 ^ 16 ->
  0 <= rl_version rl < 2 ^ 16 -> sealable w -> sendable ct content random -> expands w exp ->
  outcome (tls12_record_layer_seal_record random ct content h (rl, s))
    (fun _ st => seq_last (rl_dtls rl) t = false /\ exists frag rl1, let seq := wire_seq (rl_dtls rl) (rp_epoch w) (be_bytes 8 t) in
       fragment rl w seq random ct content frag rl1 /\ fst st = on_write (fun p => p<|rp_seq_num := be_bytes 8 (t + 1)|>) rl1 /\
       builder md (snd st) [] h (bs ++ wire12 rl seq ct frag))
    (seq_last (rl_dtls rl) t = true \/ ~ (mem_ok /\ room md (zlen bs + zlen content + exp + header_len (rl_dtls rl)))).
Proof.
  intros Hb Hw Hsn Ht He Hv Hse Hd Hexp. pose proof (ex_range _ _ Hexp) as Hexr. unfold MAX_EXPANSION in Hexr. set (E := _ \/ _). assert (HEm : ~ mem_ok -> E) by (unfold E; tauto). pose proof (zlen_nonneg content) as Hc0.
  assert (HEr : forall n, n <= zlen bs + zlen content + exp + header_len (rl_dtls rl) -> ~ room md n -> E).
  { intros n Hn Hr. right. intros [_ Hroom]. apply Hr. by eapply room_mono. }
  set (dtls := rl_dtls rl) in *. assert (Hhl : header_len dtls = 5 + if dtls then 8 else 0) by (by destruct dtls). assert (Hdl : 0 <= (if dtls then 8 else 0) <= 8) by (destruct dtls; lia). set (seq := wire_seq dtls (rp_epoch w) (be_bytes 8 t)) in *.
  assert (Hs : zlen seq = 8) by (apply zlen_wire_seq; by rewrite zlen_be_bytes). assert (Hsb : Forall is_byte seq) by apply wire_seq_bytes, be_bytes_bytes.
  unfold tls12_record_layer_seal_record. eapply (ask_step _ _ _ _ w); [by rewrite Hw|]. eapply (ask_step _ _ _ _ seq).
  { rewrite Hsn. pose proof (build_seq_num_gives rl (rp_epoch w) (be_bytes 8 t) ltac:(by rewrite zlen_be_bytes) He) as Hg.
    destruct (tls12_record_layer_build_seq_num _ _ _); [exact Hg|by apply HEm]. }
  eapply cbb_step; [eapply u8_step; [exact Hb|apply Hd]|apply HEr; cbn; lia|]. intros [] s1 Hs1.
  eapply (ask_step _ _ _ _ (rl_version rl)); [done|].
  eapply cbb_step; [eapply u16_step; [exact Hs1|done]|apply HEr; cbn; zl|]. intros [] s2 Hs2.
  eapply (ask_step _ _ _ _ dtls); [done|].
  set (hdr := (bs ++ [ct]) ++ be_bytes 2 (rl_version rl)) in *. assert (Hhdr : zlen hdr = zlen bs + 3) by (unfold hdr; zl).
  eapply (outcome_bind _ _ _ (fun _ st => fst st = rl /\ builder md (snd st) [] h (hdr ++ if dtls then seq else [])) _ E).
  { destruct dtls; [|by rewrite app_nil_r]. by eapply cbb_last; [eapply bytes_step; [exact Hs2|done|unfold CBS_len, CBS_init, SIZE_MAX; cbn [cbs_len]; lia]|apply HEr; unfold CBS_len, CBS_init; cbn [cbs_len ctx_len]; lia|]. }
  { done. }
  intros [] [rl1 s3] [Hrl1 Hs3]. cbn [fst snd] in *. subst rl1. set (hd := hdr ++ if dtls then seq else []) in *.
  assert (Hhd : zlen hd = zlen bs + 3 + if dtls then 8 else 0) by (unfold hd; destruct dtls; zl).
  eapply cbb_step; [eapply (add_length_prefixed_spec _ _ [] h _ (S h) 2); [by apply builder_view|lia|lia|apply not_elem_of_nil]|intros Herr; eapply HEr; [|exact (Herr _ eq_refl)]; cbn [ctx_len]; change (Z.of_nat 2) with 2; lia|].
  intros [] s4 (? & [= <-] & Hs4). cbn [app] in Hs4.
  eapply (outcome_bind _ _ _ (fun _ st => exists frag, fragment rl w seq random ct content frag (fst st) /\ builder md (snd st) [mkFrame h hd (LenPrefix 2)] (S h) frag) _
    (~ (mem_ok /\ room md (ctx_len [mkFrame h hd (LenPrefix 2)] + zlen content + exp)))).
  { destruct Hse as [Ha Hc|a Ha Hse|cbc ivl bs0 m k e d Hl Hp].
    - rewrite Ha, Hc. cbn [is_null negb]. by apply seal_plaintext_spec.
    - rewrite Ha. cbn [is_null negb]. by eapply seal_aead_spec.
    - rewrite (cp_aead _ _ _ _ _ _ _ Hp), (cp_cipher _ _ _ _ _ _ _ Hp). cbn [is_null negb]. by eapply seal_cipher_spec. }
  { intros Herr. right. intros [Hm Hr]. apply Herr. split; [done|]. eapply room_mono; [|exact Hr]. cbn. change (Z.of_nat 2) with 2. lia. }
  intros [] [rl1 s5] (frag & Hfrag & Hs5). cbn [fst snd] in *. pose proof (fragment_len _ _ _ _ _ _ _ _ Hfrag Hs Hd exp Hexp) as Hfl.
  destruct Hd as [_ _ Hlen _]. unfold SSL3_RT_MAX_PLAIN_LENGTH in Hlen. pose proof (zlen_nonneg frag).
  apply builder_view in Hs5. change [mkFrame h hd (LenPrefix 2)] with ([] ++ [mkFrame h hd (LenPrefix 2)]) in Hs5. apply view_close in Hs5. cbn [mbind option_bind enc_prefix] in Hs5.
  rewrite (proj2 (Z.ltb_lt (zlen frag) (256 ^ Z.of_nat 2))) in Hs5 by (change (256 ^ Z.of_nat 2) with 65536; lia). cbn [option_bind] in Hs5.
  eapply cbb_step; [by apply CBB_flush_spec|intros Herr; eapply HEr; [|exact (Herr _ eq_refl)]; cbn [ctx_len]; rewrite !zlen_app, zlen_be_bytes; lia|].
  intros [] s6 (bs6 & Hbs6 & Hs6). apply (inj Some) in Hbs6. subst bs6. destruct (fragment_after _ _ _ _ _ _ _ _ Hfrag Hw) as (Hd1 & Hv1 & w1 & Hw1 & Hsn1 & _).
  unfold next_write_seq_num. rewrite Hw1. cbn [mbind option_bind]. rewrite Hd1, Hsn1, Hsn. fold dtls. rewrite inc12_count by done.
  destruct (seq_last dtls t) eqn:El; [by left|]. split; [done|]. exists frag, rl1. cbv zeta. split; [done|]. split; [done|]. cbn [fst snd].
  unfold wire12. fold dtls. replace (bs ++ [ct] ++ be_bytes 2 (rl_version rl) ++ (if dtls then seq else []) ++ be_bytes 2 (zlen frag) ++ frag) with (hd ++ be_bytes 2 (zlen frag) ++ frag); [exact Hs6|].
  unfold hd, hdr. by rewrite <- !app_assoc.
Qed.
End Sealing.
