(* ===== verification/Tls12Roundtrip.v ===== *)
(** * Opening records of TLS up to 1.2 and DTLS

    What is accepted of a record under a CBC or a stream cipher, whoever made it, and the way from the keys through the sealed records back to
    the messages. *)
From S2P Require Import Prelude Compat Cbs Cbb CbbSpec CbbBuild RecordLayer RecordLayerSpec Versions Words Md32 Sha256 EvpDigest Hmac S3Cbc S3CbcSpec Hello Tls12Record Tls12RecordSpec.

(** ** Opening *)
(** [r] is [x], or a failure with a reason. *)
Definition or_fails {S A} (r x : option A * S) (E : Prop) : Prop := r = x \/ (fst r = None /\ E).

Section Opening.
Context `{Allocator} `{Aead} `{!Aead12} `{Ciphers} `{!CipherLaws} `{Methods} `{!Engines} `{!MdLaws} `{!Macs} `{!MacLaws} `{OtherDigests}.
Context (no_engine : forall n, ENGINE_get_digest_engine n = None).

Lemma or_fails_try {A B} (o : tls12_record_layer -> option A) (f : A -> M tls12_record_layer B) rl a x (E : Prop) :
  gives (o rl) a E -> or_fails (f a rl) x E -> or_fails ((try o ≫= f) rl) x E.
Proof. intros Ho Hf. rewrite bind_eq. unfold try. destruct (o rl) as [y|]; cbn in Ho; [by subst|by right]. Qed.
Lemma or_fails_step {A B} (m : M tls12_record_layer A) (f : A -> M tls12_record_layer B) rl a rl' x (E : Prop) :
  outcome (m rl) (fun b r => b = a /\ r = rl') E -> or_fails (f a rl') x E -> or_fails ((m ≫= f) rl) x E.
Proof. intros Hm Hf. rewrite bind_eq. destruct (m rl) as [[b|] r]; cbn in Hm; [by destruct Hm as [-> ->]|by right]. Qed.

(** A hash with which the MAC of a CBC record is computed in constant time, and a key for it. *)
Record checkable (m : md) (k : list Z) : Prop := {
  ck_raw : exists D, raw_of (type m) = Some D /\ raw_ok D m;
  ck_even : md_size m mod 2 = 0;
  ck_key : Forall is_byte k /\ zlen k <= block_size m;
  ck_ctx : ctx_size m <= SIZE_MAX
}.
Lemma supported_of c m D : Evp.digest c = Some m -> raw_of (type m) = Some D -> ssl3_cbc_record_digest_supported c = true.
Proof.
  intros Hc. unfold raw_of, ssl3_cbc_record_digest_supported, EVP_MD_CTX_type. rewrite Hc. cbv zeta.
  destruct (type m =? NID_md5), (type m =? NID_sha1), (type m =? NID_sha224), (type m =? NID_sha256), (type m =? NID_sha384), (type m =? NID_sha512); done.
Qed.

(** The MACs of a CBC record whose body is [body], of which [n] bytes are contents and MAC. *)
Lemma received_macs_cbc rl m k hc seq ct body n :
  rp_hash_ctx (read_current rl) = Some hc -> signing m k hc [] -> default [] (rp_mac_key (read_current rl)) = k -> checkable m k ->
  zlen seq = 8 -> Forall is_byte seq -> is_byte ct -> 0 <= rl_version rl < 2 ^ 16 ->
  Forall is_byte body -> md_size m <= n -> n <= zlen body <= n + 256 -> zlen body < 2 ^ 16 ->
  outcome (with_cbb (received_macs ct (CBS_init seq (zlen seq)) true (md_size m) (mkRec n (zlen body - n) body body)) rl)
    (fun r rl' => r = (slice body (n - md_size m) (md_size m), record_mac m k seq ct (rl_version rl) (ztake (n - md_size m) body),
                       mkRec (n - md_size m) (zlen body - n) body body) /\ rl' = rl) (~ mem_ok).
Proof.
  intros Hhc Hsig Hk [(D & HD & Hraw) Heven [Hkb Hkl] Hcs] Hs Hsb Hct Hv Hb Hn Hl Hmax. pose proof (md_sizes m) as (Hsz & _).
  apply with_cbb_spec. unfold received_macs. cbn [rec_length rec_padding_length rec_data rec_input].
  eapply cbb_step; [apply init_step; unfold EVP_MAX_MD_SIZE, SIZE_MAX; lia|done|]. intros [] s1 Hs1.
  set (mac := slice body (n - md_size m) (md_size m)). set (c := ztake (n - md_size m) body). set (rm := record_mac m k seq ct (rl_version rl) c).
  assert (Hc : zlen c = n - md_size m) by (unfold c; zl).
  eapply (outcome_bind _ _ _ (fun x st => x = mac /\ fst st = rl /\ builder Grow (snd st) [] 0%nat rm) _ (~ mem_ok)).
  { eapply (ask_step _ _ _ _ mac).
    { unfold copy_mac. replace (n + (zlen body - n)) with (zlen body) by lia. rewrite ssl3_cbc_copy_mac_slice by (cbn [rec_data rec_length]; done || lia). done. }
    eapply (outcome_bind _ _ _ (fun _ st => fst st = rl /\ builder Grow (snd st) [] 0%nat rm) _ (~ mem_ok)); [|done|by intros [] st [? ?]].
    unfold tls12_record_layer_read_mac_cbc. eapply (ask_step _ _ _ _ hc); [by rewrite Hhc|].
    rewrite (supported_of hc m D (sign_digest _ _ _ _ Hsig) HD). cbn [negb].
    eapply ask_step; [apply pseudo_header_gives; [done..|lia]|].
    eapply cbb_step; [eapply space_step; [exact Hs1|unfold SIZE_MAX; lia]|apply mem_room; cbn; unfold SIZE_MAX; zl|]. intros p s2 [Hp Hs2].
    eapply (ask_step _ _ _ _ k); [by rewrite Hk|].
    rewrite (digest_record_spec no_engine D m Hraw hc) by (first [exact (sign_digest _ _ _ _ Hsig)|done|lia|rewrite zlen_mac_header; lia|by apply mac_header_bytes]).
    destruct (malloc_ok (ctx_size m)) eqn:Hm; [|apply outcome_fail; eapply mem_malloc; [|exact Hm]; pose proof (md_sizes m); lia].
    replace (hmac m k (mac_header seq ct (rl_version rl) (n - md_size m) ++ ztake (n - md_size m) body)) with rm by (unfold rm, record_mac; by rewrite Hc).
    eapply cbb_step; [eapply (fill_step _ _ _ _ [] (md_size m) rm); [exact Hs2|lia|exact Hp|apply zlen_record_mac]|done|]. intros [] s3 Hs3.
    rewrite Z.eqb_refl. done. }
  { done. }
  intros x [rl1 s2] (-> & Hrl1 & Hs2). cbn [fst snd] in *. subst rl1.
  eapply cbb_step; [apply finish_step; [exact Hs2|unfold rm; rewrite zlen_record_mac; unfold SIZE_MAX; lia]|done|].
  intros y s3 ->. done.
Qed.

(** The MACs of a record under a stream cipher. *)
Lemma received_macs_stream rl m k c hc seq ct body :
  rp_cipher_ctx (read_current rl) = Some c -> (EVP_CIPHER_CTX_mode c =? EVP_CIPH_CBC_MODE) = false ->
  rp_hash_ctx (read_current rl) = Some hc -> signing m k hc [] -> rp_stream_mac (read_current rl) = false ->
  zlen seq = 8 -> is_byte ct -> 0 <= rl_version rl < 2 ^ 16 -> md_size m <= zlen body < 2 ^ 16 ->
  outcome (with_cbb (received_macs ct (CBS_init seq (zlen seq)) false (md_size m) (mkRec (zlen body) 0 body body)) rl)
    (fun r rl' => r = (slice body (zlen body - md_size m) (md_size m), record_mac m k seq ct (rl_version rl) (ztake (zlen body - md_size m) body),
                       mkRec (zlen body - md_size m) 0 body body) /\ rl' = rl) (~ mem_ok).
Proof.
  intros Hcc Hmode Hhc Hsig Hst Hs Hct Hv Hl. pose proof (md_sizes m) as (Hsz & _).
  apply with_cbb_spec. unfold received_macs. cbn [rec_length rec_padding_length rec_data rec_input].
  eapply cbb_step; [apply init_step; unfold EVP_MAX_MD_SIZE, SIZE_MAX; lia|done|]. intros [] s1 Hs1.
  set (mac := slice body (zlen body - md_size m) (md_size m)). set (content := ztake (zlen body - md_size m) body). set (rm := record_mac m k seq ct (rl_version rl) content).
  assert (Hc : zlen content = zlen body - md_size m) by (unfold content; zl).
  eapply (outcome_bind _ _ _ (fun x st => x = mac /\ fst st = rl /\ builder Grow (snd st) [] 0%nat rm) _ (~ mem_ok)).
  { eapply (outcome_bind _ _ _ (fun _ st => fst st = rl /\ builder Grow (snd st) [] 0%nat rm) _ (~ mem_ok)); [|done|by intros [] st [? ?]].
    unfold tls12_record_layer_read_mac. eapply (ask_step _ _ _ _ c); [by rewrite Hcc|]. rewrite Hmode.
    eapply (ask_step _ _ _ _ hc); [by rewrite Hhc|]. eapply (ask_step _ _ _ _ false); [by rewrite Hst|].
    eapply (outcome_bind _ _ _ _ _ (~ mem_ok)); [apply (mac_step _ rl s1 m k hc seq ct content []); try done; zl|done|]. intros a [rl2 s2] (_ & Hrl2 & Hs2). done. }
  { done. }
  intros x [rl1 s2] (-> & Hrl1 & Hs2). cbn [fst snd] in *. subst rl1.
  eapply cbb_step; [apply finish_step; [exact Hs2|unfold rm; rewrite zlen_record_mac; unfold SIZE_MAX; lia]|done|].
  intros y s3 ->. done.
Qed.
(** The contents and the MAC of a decrypted record, without its explicit IV: padding that is not valid is not taken off. *)
Definition authenticated_len (cbc : bool) (body : list Z) (mac_size : Z) : Z :=
  if cbc then if valid_padding body mac_size then zlen body - (default 0 (last body) + 1) else zlen body else zlen body.
(** What is returned of a decrypted record. *)
Definition checked (rl : tls12_record_layer) (cbc : bool) (m : md) (k seq : list Z) (ct : Z) (body : list Z) : option (list Z) * tls12_record_layer :=
  let n := authenticated_len cbc body (md_size m) - md_size m in
  let content := ztake n body in
  if bool_decide (slice body n (md_size m) = record_mac m k seq ct (rl_version rl) content) then
    if SSL3_RT_MAX_COMPRESSED_LENGTH + md_size m <? n then (None, rl<|rl_alert_desc := SSL_AD_BAD_RECORD_MAC|>)
    else if SSL3_RT_MAX_PLAIN_LENGTH <? n then (None, rl<|rl_alert_desc := SSL_AD_RECORD_OVERFLOW|>)
    else (Some content, rl)
  else (None, rl<|rl_alert_desc := SSL_AD_BAD_RECORD_MAC|>).

Lemma last_byte (l : list Z) : Forall is_byte l -> 0 <= default 0 (last l) < 256.
Proof.
  intros Hl. destruct (last l) as [x|] eqn:E; cbn; [|lia]. apply last_Some in E as (l' & ->). apply Forall_app in Hl as [_ Hx]. exact (proj1 (Forall_singleton _ _) Hx).
Qed.
Lemma authenticated_len_range cbc body mac_size :
  Forall is_byte body -> 0 <= mac_size -> mac_size <= zlen body ->
  mac_size <= authenticated_len cbc body mac_size <= zlen body /\ zlen body <= authenticated_len cbc body mac_size + 256.
Proof.
  intros Hb Hm Hl. pose proof (last_byte body Hb). unfold authenticated_len. destruct cbc; [|lia]. destruct (valid_padding body mac_size) eqn:E; [|lia].
  unfold valid_padding in E. apply andb_true_iff in E as [E _]. lia.
Qed.

(** A context that decrypts, and what it makes of the fragment. *)
Definition decrypts (cbc : bool) (ivl bs : Z) (c : EVP_CIPHER_CTX) (frag plain : list Z) (c' : EVP_CIPHER_CTX) : Prop :=
  (exists e d, linked cbc ivl bs e d /\ (c = e \/ c = d)) /\ (EVP_CIPHER_CTX_mode c' =? EVP_CIPH_CBC_MODE) = cbc /\ EVP_Cipher c frag = (Some plain, c') /\ zlen plain = zlen frag /\ Forall is_byte plain.

Lemma open_cipher_spec rl cbc ivl bs m k c frag plain c' seq ct i :
  let p := read_current rl in
  let eivl := eiv_size (rl_version rl) cbc ivl in
  decrypts cbc ivl bs c frag plain c' -> ciphering cbc ivl bs m k c p -> (cbc = true -> checkable m k) ->
  zlen seq = 8 -> Forall is_byte seq -> is_byte ct -> 0 <= rl_version rl < 2 ^ 16 ->
  eivl + md_size m + (if cbc then 1 else 0) <= zlen frag -> zlen frag <= SSL3_RT_MAX_ENCRYPTED_LENGTH -> zlen frag mod bs = 0 ->
  or_fails (tls12_record_layer_open_record_protected_cipher ct (CBS_init seq (zlen seq)) (Cbs.rd i frag) rl)
    (checked (on_read (fun p => p<|rp_cipher_ctx := Some c'|>) rl) cbc m k seq ct (zdrop eivl plain)) (~ mem_ok).
Proof.
  intros p eivl ((e & d & Hl & Hc) & Hmode' & Hdec & Hpl & Hpb) Hp Hck Hs Hsb Hct Hv Hmin Hmax Hmod. unfold SSL3_RT_MAX_ENCRYPTED_LENGTH, SSL3_RT_MAX_ENCRYPTED_OVERHEAD, SSL3_RT_MAX_COMPRESSED_LENGTH, SSL3_RT_MAX_PLAIN_LENGTH, SSL3_RT_MAX_MD_SIZE in Hmax.
  destruct (shape_of _ _ _ _ _ _ Hl Hc) as (Hmode & _ & _ & Hbs & H1bs & Hz). specialize (Hz (rl_version rl)). fold eivl in Hz. pose proof (md_sizes m) as (Hsz & _).
  assert (Hmin0 : eivl + md_size m <= zlen frag) by (destruct cbc; lia).
  destruct (cp_hash _ _ _ _ _ _ _ Hp) as (hc & Hhc & Hsig). unfold tls12_record_layer_open_record_protected_cipher.
  eapply (or_fails_try _ _ _ c); [cbn; fold p; by rewrite (cp_cipher _ _ _ _ _ _ _ Hp)|].
  eapply (or_fails_try _ _ _ bs); [cbn; fold p; by rewrite (block_size_gives _ _ _ _ _ _ _ _ _ Hl Hc Hp)|].
  eapply (or_fails_try _ _ _ eivl); [cbv beta; fold p; by rewrite (eiv_len_gives rl p _ _ _ _ _ _ _ _ Hl Hc Hp)|].
  eapply (or_fails_try _ _ _ (md_size m)).
  { cbv beta. fold p. rewrite Hhc. cbn [is_null negb]. unfold tls12_record_protection_mac_len, EVP_MD_CTX_size. rewrite Hhc, (sign_digest _ _ _ _ Hsig). cbv zeta.
    rewrite (proj2 (Z.leb_gt (md_size m) 0)), (proj2 (Z.ltb_ge EVP_MAX_MD_SIZE _)) by (unfold EVP_MAX_MD_SIZE; lia). done. }
  cbv zeta. rewrite Hmode. change (CBS_len (Cbs.rd i frag)) with (zlen frag). change (CBS_data (Cbs.rd i frag)) with frag.
  rewrite (proj2 (Z.ltb_ge (zlen frag) _)) by lia. rewrite (proj2 (Z.ltb_ge SSL3_RT_MAX_ENCRYPTED_LENGTH (zlen frag))) by done. rewrite Hmod. cbn [Z.eqb negb].
  set (rl' := on_read (fun p => p<|rp_cipher_ctx := Some c'|>) rl).
  eapply (or_fails_step _ _ _ plain rl'); [unfold read_decrypt; fold p; by rewrite (cp_cipher _ _ _ _ _ _ _ Hp), ztake_ge, Hdec by lia|].
  set (body := zdrop eivl plain). assert (Hbl : zlen body = zlen frag - eivl) by (unfold body; rewrite zlen_zdrop by lia; lia). assert (Hbb : Forall is_byte body) by (by apply Forall_zdrop).
  set (n := authenticated_len cbc body (md_size m)).
  assert (Hrrec : (if 1 <? bs then snd (ssl3_cbc_remove_padding (mkRec (zlen frag) 0 plain plain) eivl (md_size m)) else mkRec (zlen frag) 0 plain plain) = mkRec n (zlen body - n) body body).
  { unfold n, authenticated_len. rewrite H1bs. destruct cbc.
    - rewrite remove_padding_spec by (cbn [rec_data rec_length]; done || lia). cbn [rec_length rec_data rec_input].
      rewrite (proj2 (Z.ltb_ge _ _)) by lia. cbv zeta. fold body. rewrite ztake_ge by lia. rewrite <- Hbl.
      destruct (valid_padding body (md_size m)); cbn [snd]; f_equal; lia.
    - assert (E0 : eivl = 0) by (unfold eivl, eiv_size; by destruct (rl_version rl =? TLS1_VERSION)). unfold body. rewrite E0, zdrop_nonpos by lia. f_equal; lia. }
  rewrite Hrrec. pose proof (authenticated_len_range cbc body (md_size m) Hbb ltac:(lia) ltac:(lia)) as Hn. fold n in Hn.
  destruct (malloc_ok (md_size m)) eqn:Hm; cbn [negb]; [|right; split; [done|]; eapply mem_malloc; [|exact Hm]; unfold SIZE_MAX; lia].
  set (mac := slice body (n - md_size m) (md_size m)). set (content := ztake (n - md_size m) body).
  eapply (or_fails_step _ _ _ (mac, record_mac m k seq ct (rl_version rl) content, mkRec (n - md_size m) (zlen body - n) body body) rl').
  { assert (Hp' : ciphering cbc ivl bs m k c' (read_current rl')) by (destruct Hp; by constructor).
    destruct cbc.
    - apply (received_macs_cbc rl' m k hc seq ct body n); try done; first [apply (cp_key _ _ _ _ _ _ _ Hp')|by apply Hck|lia].
    - replace n with (zlen body) in * by done. replace (zlen body - zlen body) with 0 by lia.
      apply (received_macs_stream rl' m k c' hc seq ct body); try done; first [apply (cp_stream _ _ _ _ _ _ _ Hp')|lia]. }
  rewrite zlen_record_mac, Z.eqb_refl. cbn [negb]. rewrite timingsafe_memcmp_eqb; [|by apply Forall_ztake, Forall_zdrop|apply md_hash_ok|apply zlen_slice; lia|apply zlen_record_mac].
  unfold checked. change (rl_version rl') with (rl_version rl). fold n. fold content. fold mac. unfold bytes_eqb. left.
  case_bool_decide; cbn [negb]; [|done]. cbn [rec_length rec_data]. repeat case_match; done.
Qed.
(** ** What a CBC record must be *)
(** RFC 5246 section 6.2.3.2: [p + 1] bytes with the value [p]. *)
Definition rfc_padding (pad : list Z) : Prop := exists p, 0 <= p < 256 /\ pad = replicate (Z.to_nat (p + 1)) p.

Lemma all_equal_replicate (l : list Z) p n : Forall (fun b => b = p) l -> zlen l = n -> l = replicate (Z.to_nat n) p.
Proof.
  intros Hf <-. unfold zlen. rewrite Nat2Z.id. apply list_eq. intros i. destruct (decide (i < length l)%nat).
  - rewrite lookup_replicate_2 by done. destruct (lookup_lt_is_Some_2 l i) as [x Hx]; [done|]. rewrite Hx. f_equal. exact (Forall_lookup_1 (fun b => b = p) l i x Hf Hx).
  - rewrite !lookup_ge_None_2 by (rewrite ?length_replicate; lia). done.
Qed.
Lemma last_padding (a pad : list Z) p : pad = replicate (Z.to_nat (p + 1)) p -> 0 <= p -> default 0 (last (a ++ pad)) = p.
Proof.
  intros -> Hp. replace (Z.to_nat (p + 1)) with (S (Z.to_nat p)) by lia. rewrite replicate_S_end, app_assoc, last_snoc. done.
Qed.
Lemma valid_padding_iff (body : list Z) mac_size : Forall is_byte body -> 0 <= mac_size ->
  valid_padding body mac_size = true <->
  exists a pad, body = a ++ pad /\ rfc_padding pad /\ mac_size <= zlen a.
Proof.
  intros Hb Hm. unfold valid_padding. set (p := default 0 (last body)). pose proof (last_byte body Hb) as Hp. fold p in Hp.
  rewrite andb_true_iff, Z.leb_le, bool_decide_eq_true. split.
  - intros [Hl Hall]. exists (ztake (zlen body - (p + 1)) body), (zdrop (zlen body - (p + 1)) body).
    split; [by rewrite ztake_zdrop|]. split; [|zl]. exists p. split; [done|]. apply all_equal_replicate; [done|]. rewrite zlen_zdrop; lia.
  - intros (a & pad & Hbody & (q & Hq & Hpad) & Ha). assert (Epq : p = q) by (unfold p; rewrite Hbody; apply last_padding; [done|lia]).
    assert (Hpl : zlen pad = q + 1) by (rewrite Hpad; zl). assert (Hbl : zlen body = zlen a + (q + 1)) by (rewrite Hbody; zl).
    rewrite Epq. split; [lia|]. rewrite Hbody, zdrop_app_eq, Hpad by (rewrite zlen_app; lia). by apply Forall_replicate.
Qed.
Lemma authenticated_parts cbc body mac_size n :
  Forall is_byte body -> 0 <= mac_size <= zlen body -> n = authenticated_len cbc body mac_size - mac_size ->
  body = ztake n body ++ slice body n mac_size ++ zdrop (n + mac_size) body.
Proof.
  intros Hb Hm ->. pose proof (authenticated_len_range cbc body mac_size Hb ltac:(lia) ltac:(lia)) as [? _].
  rewrite <- (ztake_zdrop (authenticated_len cbc body mac_size - mac_size) body) at 1. f_equal. unfold slice.
  rewrite <- (ztake_zdrop mac_size (zdrop _ body)) at 1. f_equal. rewrite zdrop_zdrop by lia. f_equal; lia.
Qed.

(** Which contents [checked] finds in the body of a CBC record. *)
Lemma checked_iff rl m k seq ct body content :
  Forall is_byte body -> 1 + md_size m <= zlen body ->
  fst (checked rl true m k seq ct body) = Some content <->
  zlen content <= SSL3_RT_MAX_PLAIN_LENGTH /\
  exists pad, body = content ++ record_mac m k seq ct (rl_version rl) content ++ pad /\
    (rfc_padding pad \/ pad = [] /\ valid_padding body (md_size m) = false).
Proof.
  intros Hb Hl. pose proof (md_sizes m) as (Hsz & _). unfold checked. set (n := authenticated_len true body (md_size m) - md_size m).
  pose proof (authenticated_len_range true body (md_size m) Hb ltac:(lia) ltac:(lia)) as [Hn _].
  assert (Hfst : fst (let content := ztake n body in
      if bool_decide (slice body n (md_size m) = record_mac m k seq ct (rl_version rl) content) then
        if SSL3_RT_MAX_COMPRESSED_LENGTH + md_size m <? n then (None, rl<|rl_alert_desc := SSL_AD_BAD_RECORD_MAC|>)
        else if SSL3_RT_MAX_PLAIN_LENGTH <? n then (None, rl<|rl_alert_desc := SSL_AD_RECORD_OVERFLOW|>) else (Some content, rl)
      else (None, rl<|rl_alert_desc := SSL_AD_BAD_RECORD_MAC|>)) = Some content <->
    ztake n body = content /\ slice body n (md_size m) = record_mac m k seq ct (rl_version rl) content /\ n <= SSL3_RT_MAX_PLAIN_LENGTH).
  { cbv zeta. unfold SSL3_RT_MAX_COMPRESSED_LENGTH. case_bool_decide as Hmac; [|split; [done|intros (<- & ? & _); done]].
    destruct (Z.ltb_spec (SSL3_RT_MAX_PLAIN_LENGTH + md_size m) n); [split; [done|lia]|]. destruct (Z.ltb_spec SSL3_RT_MAX_PLAIN_LENGTH n); [split; [done|lia]|].
    cbn [fst]. split; [intros Hc; apply (inj Some) in Hc; subst content; done|]. by intros (-> & _). }
  rewrite Hfst. clear Hfst. split.
  - intros (Hc & Hmac & Hmax). assert (Hcl : zlen content = n) by (rewrite <- Hc, zlen_ztake by lia; lia). split; [lia|]. exists (zdrop (n + md_size m) body).
    rewrite <- Hmac, <- Hc. split; [apply (authenticated_parts true); [done|lia|done]|].
    replace (n + md_size m) with (authenticated_len true body (md_size m)) by lia. unfold authenticated_len. destruct (valid_padding body (md_size m)) eqn:Hv.
    + left. apply valid_padding_iff in Hv as (a & pad & Hbody & (p & Hp & Hpad) & _); [|done|lia].
      assert (El : default 0 (last body) = p) by (rewrite Hbody; apply last_padding; [done|lia]). rewrite El. exists p. split; [done|].
      rewrite Hbody, zdrop_app_eq; [done|]. rewrite zlen_app, Hpad. zl.
    + right. split; [|done]. apply zdrop_ge. lia.
  - intros (Hmax & pad & Hbody & Hpad). assert (Hml : zlen (record_mac m k seq ct (rl_version rl) content) = md_size m) by apply zlen_record_mac.
    assert (Hbl : zlen body = zlen content + md_size m + zlen pad) by (rewrite Hbody, !zlen_app, Hml; lia).
    assert (En : n = zlen content).
    { unfold n, authenticated_len. destruct Hpad as [Hpad|[-> ->]]; [|rewrite zlen_nil in Hbl; lia].
      rewrite (proj2 (valid_padding_iff body (md_size m) Hb ltac:(lia))).
      - destruct Hpad as (p & Hp & Hpd). assert (El : default 0 (last body) = p) by (rewrite Hbody, app_assoc; apply last_padding; [done|lia]). rewrite El.
        assert (zlen pad = p + 1) by (rewrite Hpd; zl). lia.
      - exists (content ++ record_mac m k seq ct (rl_version rl) content), pad. rewrite <- app_assoc. split; [done|]. split; [done|]. rewrite zlen_app. pose proof (zlen_nonneg content). lia. }
    rewrite En. split; [rewrite Hbody; by apply ztake_app_eq|]. split; [|done]. unfold slice. rewrite Hbody at 1. rewrite zdrop_app_eq, ztake_app_eq by done. done.
Qed.

(** C19: which records under a CBC cipher are accepted, whoever made them: exactly those whose plaintext is, after the explicit IV, contents of at
    most 2^14 bytes, the MAC of the contents and padding as RFC 5246 has it, [p + 1] bytes with the value [p] - and those whose end is not valid
    padding at all but the MAC itself: the result of [ssl3_cbc_remove_padding] is not looked at, only the MAC decides. *)
Theorem tls12_cbc_record_accepted rl ivl bs m k c frag plain c' seq ct i content :
  let body := zdrop (eiv_size (rl_version rl) true ivl) plain in
  mem_ok -> decrypts true ivl bs c frag plain c' -> ciphering true ivl bs m k c (read_current rl) -> checkable m k ->
  zlen seq = 8 -> Forall is_byte seq -> is_byte ct -> 0 <= rl_version rl < 2 ^ 16 ->
  eiv_size (rl_version rl) true ivl + md_size m + 1 <= zlen frag -> zlen frag <= SSL3_RT_MAX_ENCRYPTED_LENGTH -> zlen frag mod bs = 0 ->
  fst (tls12_record_layer_open_record_protected_cipher ct (CBS_init seq (zlen seq)) (Cbs.rd i frag) rl) = Some content <->
  zlen content <= SSL3_RT_MAX_PLAIN_LENGTH /\
  exists pad, body = content ++ record_mac m k seq ct (rl_version rl) content ++ pad /\
    (rfc_padding pad \/ pad = [] /\ valid_padding body (md_size m) = false).
Proof.
  intros body Hmem Hdec Hcip Hck Hs Hsb Hct Hv Hmin Hmax Hmod.
  pose proof Hdec as ((e & d & Hl & Hc) & _ & _ & Hpl & Hpb). destruct (shape_of _ _ _ _ _ c Hl Hc) as (_ & _ & _ & _ & _ & Hz). specialize (Hz (rl_version rl)).
  destruct (open_cipher_spec rl true ivl bs m k c frag plain c' seq ct i) as [->|[_ Hno]]; try done.
  apply (checked_iff (on_read (fun p => p<|rp_cipher_ctx := Some c'|>) rl)); [by apply Forall_zdrop|]. unfold body. rewrite zlen_zdrop by lia. lia.
Qed.
End Opening.

(** ** From sealing to opening *)
Section Pairs.
Context `{Allocator} `{Aead} `{!Aead12} `{Ciphers} `{!CipherLaws} `{Methods} `{!Engines} `{!MdLaws} `{!Macs} `{!MacLaws} `{OtherDigests}.
Context (no_engine : forall n, ENGINE_get_digest_engine n = None).

(** The protections of a writer and of a reader that fit. *)
Inductive paired (w r : tls12_record_protection) : Prop :=
  | Paired_plain : rp_aead_ctx w = None -> rp_cipher_ctx w = None -> rp_aead_ctx r = None -> rp_cipher_ctx r = None -> paired w r
  | Paired_aead a : rp_aead_ctx w = Some a -> rp_aead_ctx r = Some a -> sealing a -> paired w r
  | Paired_cipher cbc ivl bs m k e d : linked cbc ivl bs e d -> ciphering cbc ivl bs m k e w -> ciphering cbc ivl bs m k d r ->
      (cbc = true -> checkable m k) -> paired w r.
Lemma paired_sealable w r : paired w r -> sealable w.
Proof. intros []; [by apply Sealable_plain|by eapply Sealable_aead|by eapply Sealable_cipher]. Qed.
Lemma paired_seq w r s1 s2 : paired w r -> paired (w<|rp_seq_num := s1|>) (r<|rp_seq_num := s2|>).
Proof.
  intros [|a|cbc ivl bs m k e d Hl Hw Hr Hk]; [by apply Paired_plain|by eapply Paired_aead|].
  eapply Paired_cipher; [exact Hl| | |exact Hk]; [destruct Hw|destruct Hr]; by constructor.
Qed.

(** A protection determines the cipher and the MAC it seals with. *)
Lemma ciphering_unique cbc ivl bs m k e d w cbc' ivl' bs' m' k' e' d' :
  linked cbc ivl bs e d -> ciphering cbc ivl bs m k e w -> linked cbc' ivl' bs' e' d' -> ciphering cbc' ivl' bs' m' k' e' w ->
  cbc = cbc' /\ ivl = ivl' /\ bs = bs' /\ m = m' /\ k = k' /\ e = e'.
Proof.
  intros Hl Hp Hl' Hp'. pose proof (cp_cipher _ _ _ _ _ _ _ Hp) as Hc. pose proof (cp_cipher _ _ _ _ _ _ _ Hp') as Hc'. rewrite Hc in Hc'. apply (inj Some) in Hc'. subst e'.
  destruct (shape_of _ _ _ _ _ e Hl (or_introl eq_refl)) as (<- & <- & <- & _). destruct (shape_of _ _ _ _ _ e Hl' (or_introl eq_refl)) as (<- & <- & <- & _).
  destruct (cp_hash _ _ _ _ _ _ _ Hp) as (hc & Hh & Hs). destruct (cp_hash _ _ _ _ _ _ _ Hp') as (hc' & Hh' & Hs'). rewrite Hh in Hh'. apply (inj Some) in Hh'. subst hc'.
  apply sign_digest in Hs, Hs'. rewrite Hs in Hs'. apply (inj Some) in Hs'. rewrite <- (cp_key _ _ _ _ _ _ _ Hp), <- (cp_key _ _ _ _ _ _ _ Hp'). by split_and!.
Qed.

(** What an honest writer encrypts has valid padding. *)
Lemma checked_own rl rlw cbc ivl bs m k e d random seq ct content :
  linked cbc ivl bs e d -> sendable ct content random -> rl_version rl = rl_version rlw ->
  checked rl cbc m k seq ct (zdrop (eiv_size (rl_version rl) cbc ivl) (cipher_plain cbc ivl bs m k random seq ct (rl_version rlw) content)) = (Some content, rl).
Proof.
  intros Hl [Hct Hcb Hlen [Hrb Hr]] Hv. destruct (shape_of _ _ _ _ _ e Hl (or_introl eq_refl)) as (_ & _ & _ & Hbs & H1bs & Hz). specialize (Hz (rl_version rl)).
  unfold SSL3_RT_MAX_PLAIN_LENGTH in Hlen. rewrite <- Hv. unfold cipher_plain. set (eivl := eiv_size (rl_version rl) cbc ivl) in *.
  set (mac := record_mac m k seq ct (rl_version rl) content). assert (Hmac : zlen mac = md_size m) by apply zlen_record_mac. pose proof (md_sizes m) as (Hsz & _).
  unfold padded. cbv zeta. set (p := pad_size bs _). rewrite <- !app_assoc, zdrop_app_eq by zl. set (body := content ++ mac ++ replicate (Z.to_nat p) (p - 1)).
  pose proof (zlen_nonneg content) as Hc0.
  pose proof (pad_size_range bs (zlen (ztake eivl random ++ content ++ mac)) Hbs) as [Hp _]. fold p in Hp. assert (Hbl : zlen body = zlen content + md_size m + p) by (unfold body; zl).
  assert (Hbb : Forall is_byte body).
  { unfold body. rewrite !Forall_app. split_and!; [done|apply md_hash_ok|]. destruct (decide (p = 0)) as [->|]; [constructor|]. apply Forall_replicate. unfold is_byte. lia. }
  assert (En : authenticated_len cbc body (md_size m) = zlen content + md_size m).
  { assert (Hp1 : if cbc then 1 <= p else p = 0) by (rewrite <- H1bs; apply pad_size_pos; lia). unfold authenticated_len. destruct cbc; [|lia].
    assert (Hpad : replicate (Z.to_nat p) (p - 1) = replicate (Z.to_nat (p - 1 + 1)) (p - 1)) by (do 2 f_equal; lia).
    rewrite (proj2 (valid_padding_iff body (md_size m) Hbb ltac:(lia))).
    - assert (El : default 0 (last body) = p - 1) by (unfold body; rewrite app_assoc; apply last_padding; [exact Hpad|lia]). rewrite El. lia.
    - exists (content ++ mac), (replicate (Z.to_nat p) (p - 1)). split; [unfold body; by rewrite <- app_assoc|]. split; [|rewrite zlen_app; lia].
      exists (p - 1). split; [lia|exact Hpad]. }
  unfold checked. rewrite En. replace (zlen content + md_size m - md_size m) with (zlen content) by lia.
  assert (Et : ztake (zlen content) body = content) by (by apply ztake_app_eq). rewrite Et.
  assert (Es : slice body (zlen content) (md_size m) = mac) by (unfold slice, body; rewrite zdrop_app_eq, ztake_app_eq by done; done). rewrite Es.
  rewrite bool_decide_true by done. unfold SSL3_RT_MAX_COMPRESSED_LENGTH, SSL3_RT_MAX_PLAIN_LENGTH. rewrite !(proj2 (Z.ltb_ge _ (zlen content))) by lia. done.
Qed.
(** Opening the fragment of a record, whatever its protection. *)
Definition open_fragment (ct : Z) (seq_num frag : CBS) : M tls12_record_layer (list Z) := fun rl =>
  (if negb (is_null (rp_aead_ctx (read_current rl))) then tls12_record_layer_open_record_protected_aead ct seq_num frag
   else if negb (is_null (rp_cipher_ctx (read_current rl))) then tls12_record_layer_open_record_protected_cipher ct seq_num frag
   else tls12_record_layer_open_record_plaintext frag) rl.
(** The reader [rl'] differs from [rl] in its protection only, and not in its sequence number. *)
Record same_reader (rl rl' : tls12_record_layer) : Prop := {
  sr_version : rl_version rl' = rl_version rl;
  sr_dtls : rl_dtls rl' = rl_dtls rl;
  sr_seq : rp_seq_num (read_current rl') = rp_seq_num (read_current rl)
}.

Lemma open_plain_fragment rl content i ct seq :
  rp_aead_ctx (read_current rl) = None -> rp_cipher_ctx (read_current rl) = None ->
  open_fragment ct (CBS_init seq (zlen seq)) (Cbs.rd i content) rl = (Some content, rl).
Proof.
  intros Ha Hc. unfold open_fragment. rewrite Ha, Hc. cbn [is_null negb]. unfold tls12_record_layer_open_record_plaintext, tls12_record_protection_engaged. rewrite Ha, Hc.
  cbn [is_null negb orb]. change (CBS_len (Cbs.rd i content)) with (zlen content). change (CBS_data (Cbs.rd i content)) with content. by rewrite ztake_ge.
Qed.

Lemma open_aead_fragment rl a ctx enc content ct seq i :
  rp_aead_ctx (read_current rl) = Some a -> sealing a -> sa_ctx a = Some ctx -> 0 <= rl_version rl < 2 ^ 16 -> zlen seq = 8 -> Forall is_byte seq ->
  is_byte ct -> Forall is_byte content -> zlen content <= SSL3_RT_MAX_PLAIN_LENGTH ->
  EVP_AEAD_CTX_seal ctx (zlen content + tag_len a) (aead_nonce12 a seq) content (mac_header seq ct (rl_version rl) (zlen content)) = Some enc -> zlen enc = zlen content + tag_len a ->
  or_fails (open_fragment ct (CBS_init seq (zlen seq)) (Cbs.rd i ((if variable_nonce_in_record a then seq else []) ++ enc)) rl) (Some content, rl) (~ mem_ok).
Proof.
  intros Ha Hse Hctx Hv Hs Hsb Hct Hcb Hlen Hseal Hel. unfold open_fragment. rewrite Ha. cbn [is_null negb]. unfold SSL3_RT_MAX_PLAIN_LENGTH in Hlen.
  destruct (se_works a Hse) as (ctx' & Hctx' & Hworks). rewrite Hctx in Hctx'. apply (inj Some) in Hctx'. subst ctx'.
  destruct (Hworks seq ct (rl_version rl) content Hs Hsb Hct Hcb Hlen) as (enc' & Hseal' & _ & Hopen). rewrite Hseal in Hseal'. apply (inj Some) in Hseal'. subst enc'.
  pose proof (se_tag a Hse) as Htag. pose proof (zlen_nonneg content) as Hc0. pose proof (aead_nonce_gives a seq Hse Hs) as Hn. unfold tls12_record_layer_open_record_protected_aead.
  eapply (or_fails_try _ _ _ a); [cbv beta; by rewrite Ha|].
  eapply (or_fails_step _ _ _ (aead_nonce12 a seq, Cbs.rd (if xor_fixed_nonce a then i else if variable_nonce_in_record a then i else i) enc) rl).
  { pose proof (se_fixed a Hse) as Hf. destruct (xor_fixed_nonce a).
    - rewrite (proj2 Hf). cbn [app]. rewrite bind_eq. unfold try. cbn [CBS_data CBS_init cbs_data]. by destruct (tls12_record_layer_aead_xored_nonce a seq); [cbn in Hn |- *; subst|].
    - destruct (variable_nonce_in_record a).
      + rewrite (se_var a Hse), CBS_get_bytes_ok by done. rewrite bind_eq. unfold try. change (CBS_data (Cbs.rd 8 seq)) with seq.
        by destruct (tls12_record_layer_aead_concat_nonce a seq); [cbn in Hn |- *; subst|].
      + cbn [app]. rewrite bind_eq. unfold try. cbn [CBS_data CBS_init cbs_data]. by destruct (tls12_record_layer_aead_concat_nonce a seq); [cbn in Hn |- *; subst|]. }
  set (j := if xor_fixed_nonce a then _ else _). change (CBS_len (Cbs.rd j enc)) with (zlen enc). change (CBS_data (Cbs.rd j enc)) with enc. rewrite Hel.
  rewrite (proj2 (Z.ltb_ge (zlen content + tag_len a) (tag_len a))) by lia.
  rewrite (proj2 (Z.ltb_ge SSL3_RT_MAX_ENCRYPTED_LENGTH _)) by (unfold SSL3_RT_MAX_ENCRYPTED_LENGTH, SSL3_RT_MAX_ENCRYPTED_OVERHEAD, SSL3_RT_MAX_COMPRESSED_LENGTH, SSL3_RT_MAX_PLAIN_LENGTH, SSL3_RT_MAX_MD_SIZE; lia).
  replace (zlen content + tag_len a - tag_len a) with (zlen content) by lia.
  eapply or_fails_try; [apply pseudo_header_gives; [done..|lia]|]. rewrite Hctx. cbn [mbind option_bind]. rewrite ztake_ge by lia. rewrite Hopen.
  rewrite (proj2 (Z.ltb_ge SSL3_RT_MAX_PLAIN_LENGTH _)), Z.eqb_refl by (unfold SSL3_RT_MAX_PLAIN_LENGTH; lia). by left.
Qed.

Lemma open_fragment_spec rlw w seq random ct content frag rlw1 rlr i :
  fragment rlw w seq random ct content frag rlw1 -> write_protection rlw = Some w -> paired w (read_current rlr) -> rl_version rlr = rl_version rlw ->
  0 <= rl_version rlw < 2 ^ 16 -> zlen seq = 8 -> Forall is_byte seq -> sendable ct content random ->
  exists rlr1 w1, or_fails (open_fragment ct (CBS_init seq (zlen seq)) (Cbs.rd i frag) rlr) (Some content, rlr1) (~ mem_ok) /\
    same_reader rlr rlr1 /\ write_protection rlw1 = Some w1 /\ paired w1 (read_current rlr1).
Proof.
  intros Hf Hw Hp Hv Hv16 Hs Hsb Hd. destruct Hf as [Ha Hc|a ctx enc Ha Hse Hctx Henc Hel|cbc ivl bs m k e d y e' Hl Hcw Henc Hy].
  - destruct Hp as [_ _ Har Hcr|a' Ha' _ _|cbc ivl bs m k e d _ Hcw _ _]; [|by rewrite Ha in Ha'|by rewrite (cp_cipher _ _ _ _ _ _ _ Hcw) in Hc].
    exists rlr, w. split; [left; by apply open_plain_fragment|]. split; [by split|]. split; [done|]. by apply Paired_plain.
  - destruct Hp as [Ha' _ _ _|a' Ha' Hr _|? ? ? ? ? ? ? ? Hc' _ _]; [by rewrite Ha in Ha'| |by rewrite (cp_aead _ _ _ _ _ _ _ Hc') in Ha]. rewrite Ha in Ha'. apply (inj Some) in Ha'. subst a'.
    exists rlr, w. split; [|split; [by split|split; [done|by eapply Paired_aead]]]. destruct Hd as [Hct Hcb Hlen _].
    apply (open_aead_fragment rlr a ctx enc content ct seq i); try done; rewrite ?Hv; done.
  - destruct Hp as [_ Hc' _ _|a' Ha' _ _|cbc' ivl' bs' m' k' e1 d1 Hl1 Hw1 Hr1 Hck]; [by rewrite (cp_cipher _ _ _ _ _ _ _ Hcw) in Hc'|by rewrite (cp_aead _ _ _ _ _ _ _ Hcw) in Ha'|].
    destruct (ciphering_unique _ _ _ _ _ _ _ _ _ _ _ _ _ _ _ Hl Hcw Hl1 Hw1) as (<- & <- & <- & <- & <- & <-).
    set (plain := cipher_plain cbc ivl bs m k random seq ct (rl_version rlw) content) in *.
    pose proof Hd as [Hct Hcb Hlen [Hrb Hrl]]. destruct (cipher_plain_bounds _ _ _ m k _ _ random seq ct (rl_version rlw) content Hl Hrl) as [Hpl Hmod]. fold plain in Hpl, Hmod.
    pose proof (cipher_plain_bytes _ _ _ m k _ _ random seq ct (rl_version rlw) content Hl Hrb Hcb) as Hpb. fold plain in Hpb.
    destruct (linked_step _ _ _ _ _ plain Hl1 Hpb Hmod) as (y' & e'' & d' & Henc' & Hdec & Hyl & _ & Hl'). rewrite Henc in Henc'.
    assert (y = y' /\ e' = e'') as [<- <-] by (split; congruence). destruct (shape_of _ _ _ _ _ d' Hl' (or_intror eq_refl)) as (Hmode' & _).
    set (rlr1 := on_read (fun p => p<|rp_cipher_ctx := Some d'|>) rlr). exists rlr1, (w<|rp_cipher_ctx := Some e'|>). split_and!.
    + unfold open_fragment. rewrite (cp_aead _ _ _ _ _ _ _ Hr1), (cp_cipher _ _ _ _ _ _ _ Hr1). cbn [is_null negb].
      rewrite <- (checked_own rlr1 rlw cbc ivl bs m k e d random seq ct content Hl Hd Hv). fold plain.
      destruct (shape_of _ _ _ _ _ d1 Hl1 (or_intror eq_refl)) as (_ & _ & _ & Hbs & _ & Hz). specialize (Hz (rl_version rlr)). pose proof (md_sizes m) as (Hsz & _).
      change (rl_version rlr1) with (rl_version rlr). apply (open_cipher_spec no_engine rlr cbc ivl bs m k d1 y plain d' seq ct i); try done.
      * split; [by exists e, d1; auto|]. split; [done|]. split; [done|]. by rewrite Hyl.
      * by rewrite Hv.
      * rewrite Hyl, Hv. by eapply cipher_plain_min.
      * rewrite Hyl. pose proof (cipher_overhead_le _ _ _ m _ _ Hl1). unfold SSL3_RT_MAX_ENCRYPTED_LENGTH, SSL3_RT_MAX_ENCRYPTED_OVERHEAD, SSL3_RT_MAX_COMPRESSED_LENGTH, SSL3_RT_MAX_PLAIN_LENGTH, SSL3_RT_MAX_MD_SIZE in *. lia.
      * by rewrite Hyl.
    + by split.
    + by rewrite write_protection_on, Hw.
    + eapply Paired_cipher; [exact Hl'| | |exact Hck]; [destruct Hw1|destruct Hr1]; by constructor.
Qed.
(** *** Whole records *)
(** How many bytes of the stream the first record takes (the header is read first, for [ssl3_get_record] to know). *)
Definition packet_len (dtls : bool) (stream : list Z) : Z :=
  let n := if dtls then 11 else 3 in n + 2 + be_val (slice stream n 2).
Lemma packet_len_wire rl seq ct frag rest :
  zlen seq = 8 -> zlen frag < 2 ^ 16 -> packet_len (rl_dtls rl) (wire12 rl seq ct frag ++ rest) = zlen (wire12 rl seq ct frag).
Proof.
  intros Hs Hf. unfold packet_len, wire12. cbv zeta. set (pre := [ct] ++ be_bytes 2 (rl_version rl) ++ (if rl_dtls rl then seq else [])).
  assert (Hpre : zlen pre = if rl_dtls rl then 11 else 3) by (unfold pre; rewrite !zlen_app, zlen_be_bytes; destruct (rl_dtls rl); [rewrite Hs|rewrite zlen_nil]; done).
  replace ([ct] ++ be_bytes 2 (rl_version rl) ++ (if rl_dtls rl then seq else []) ++ be_bytes 2 (zlen frag) ++ frag) with (pre ++ be_bytes 2 (zlen frag) ++ frag)
    by (unfold pre; by rewrite <- !app_assoc).
  rewrite <- Hpre. unfold slice. rewrite <- !app_assoc, zdrop_app_eq, ztake_app_eq by zl. pose proof (zlen_nonneg frag).
  rewrite be_val_inj by (change (256 ^ Z.of_nat 2) with (2 ^ 16); lia). rewrite !zlen_app, zlen_be_bytes. lia.
Qed.

Lemma record_header_wire rl rs seq ct frag :
  0 <= rl_version rl < 2 ^ 16 -> zlen seq = 8 -> zlen frag < 2 ^ 16 ->
  let buf := wire12 rl seq ct frag in
  fst (record_header (rl_dtls rl) rs (CBS_init buf (zlen buf))) = Some (ct, if rl_dtls rl then seq else rs, Cbs.rd (zlen frag) frag).
Proof.
  intros Hv Hs Hf buf. change (CBS_init buf (zlen buf)) with (Cbs.rd (zlen buf) buf). generalize (zlen buf) as i. intros i. unfold buf, wire12, record_header. cbn [app].
  erewrite bind_some by apply CBS_get_u8_ok. erewrite bind_some by (by apply get_u16_enc).
  destruct (rl_dtls rl).
  - erewrite (bind_some (_ ← CBS_get_bytes SSL3_SEQUENCE_SIZE; _)); [|erewrite bind_some by (by apply CBS_get_bytes_ok); reflexivity].
    pose proof (get_u16_prefixed_enc i frag [] Hf) as Hg. rewrite app_nil_r in Hg. erewrite bind_some by exact Hg.
    change (CBS_len (Cbs.rd SSL3_SEQUENCE_SIZE seq)) with (zlen seq). change (CBS_data (Cbs.rd SSL3_SEQUENCE_SIZE seq)) with seq. cbn. by rewrite ztake_ge.
  - cbn [app]. erewrite bind_some by reflexivity. pose proof (get_u16_prefixed_enc i frag [] Hf) as Hg. rewrite app_nil_r in Hg. by erewrite bind_some by exact Hg.
Qed.
Lemma dtls_seq_num_wire rl seq ct frag :
  0 <= rl_version rl < 2 ^ 16 -> zlen seq = 8 -> dtls_seq_num (rl_dtls rl) (wire12 rl seq ct frag) = if rl_dtls rl then Some seq else None.
Proof.
  intros Hv Hs. unfold dtls_seq_num, wire12. destruct (rl_dtls rl); [|done]. set (buf := _ ++ _). change (CBS_init buf (zlen buf)) with (Cbs.rd (zlen buf) buf). generalize (zlen buf) as i.
  intros i. unfold buf. cbn [app]. erewrite bind_some by apply CBS_get_u8_ok. erewrite bind_some by (by apply get_u16_enc). erewrite bind_some by (by apply CBS_get_bytes_ok).
  change (CBS_len (Cbs.rd SSL3_SEQUENCE_SIZE seq)) with (zlen seq). change (CBS_data (Cbs.rd SSL3_SEQUENCE_SIZE seq)) with seq. cbn. by rewrite ztake_ge.
Qed.

(** The writer [rlw], which has sealed [t] records, and the reader [rlr] are in step. *)
Record in_step (rlw rlr : tls12_record_layer) (t : Z) : Prop := {
  st_version : rl_version rlr = rl_version rlw /\ 0 <= rl_version rlw < 2 ^ 16;
  st_dtls : rl_dtls rlr = rl_dtls rlw;
  st_count : 0 <= t < 2 ^ 64;
  st_pair : exists w, write_protection rlw = Some w /\ paired w (read_current rlr) /\ rp_seq_num w = be_bytes 8 t /\ 0 <= rp_epoch w < 2 ^ 16 /\
    (rl_dtls rlw = false -> rp_seq_num (read_current rlr) = be_bytes 8 t)
}.

Lemma open_record_spec rlw rlr w t random ct content frag rlw1 :
  let seq := wire_seq (rl_dtls rlw) (rp_epoch w) (be_bytes 8 t) in
  in_step rlw rlr t -> write_protection rlw = Some w -> fragment rlw w seq random ct content frag rlw1 -> sendable ct content random -> seq_last (rl_dtls rlw) t = false ->
  exists rlr', or_fails (tls12_record_layer_open_record (wire12 rlw seq ct frag) rlr) (Some content, rlr') (~ mem_ok) /\
    in_step (on_write (fun p => p<|rp_seq_num := be_bytes 8 (t + 1)|>) rlw1) rlr' (t + 1).
Proof.
  intros seq Hst Hw Hf Hd Hlast. destruct Hst as [[Hv Hv16] Hdt Ht (w' & Hw' & Hp & Hsn & He & Hrs)]. rewrite Hw in Hw'. apply (inj Some) in Hw'. subst w'.
  assert (Hs : zlen seq = 8) by (apply zlen_wire_seq; by rewrite zlen_be_bytes). assert (Hsb : Forall is_byte seq) by apply wire_seq_bytes, be_bytes_bytes.
  pose proof (fragment_len_max _ _ _ _ _ _ _ _ Hf Hs Hd (paired_sealable _ _ Hp)) as Hfl. destruct (fragment_after _ _ _ _ _ _ _ _ Hf Hw) as (Hd1 & Hv1 & w1 & Hw1 & Hsn1 & He1).
  assert (Hfl16 : zlen frag < 2 ^ 16) by (destruct Hd as [_ _ Hlen _]; unfold SSL3_RT_MAX_PLAIN_LENGTH, MAX_EXPANSION in *; lia).
  unfold tls12_record_layer_open_record. rewrite Hdt, dtls_seq_num_wire, record_header_wire by done.
  set (rl1 := match (if rl_dtls rlw then Some seq else None) with Some s => on_read (fun p => p<|rp_seq_num := s|>) rlr | None => rlr end).
  assert (Hseq : (if rl_dtls rlw then seq else rp_seq_num (read_current rlr)) = seq).
  { unfold seq, wire_seq. destruct (rl_dtls rlw); [done|]. by apply Hrs. }
  rewrite Hseq. assert (H1' : rl_version rl1 = rl_version rlw /\ rl_dtls rl1 = rl_dtls rlw /\ paired w (read_current rl1) /\ (rl_dtls rlw = false -> rp_seq_num (read_current rl1) = be_bytes 8 t)).
  { unfold rl1. destruct (rl_dtls rlw) eqn:E; [|done]. split; [done|]. split; [done|]. split; [|done].
    replace w with (w<|rp_seq_num := rp_seq_num w|>) by (by destruct w). apply (paired_seq w (read_current rlr) (rp_seq_num w) seq Hp). }
  destruct H1' as (Hv2 & Hdt2 & Hp2 & Hrs2).
  destruct (open_fragment_spec rlw w seq random ct content frag rlw1 rl1 (zlen frag) Hf Hw Hp2 Hv2 Hv16 Hs Hsb Hd) as (rlr1 & w1' & Hopen & [Hv3 Hdt3 Hrs3] & Hw1' & Hp3).
  rewrite Hw1 in Hw1'. apply (inj Some) in Hw1'. subst w1'.
  set (rlr' := if rl_dtls rlw then rlr1 else on_read (fun p => p<|rp_seq_num := be_bytes 8 (t + 1)|>) rlr1). exists rlr'.
  assert (Hnext : next_read_seq_num rlr1 = (Some tt, rlr')).
  { unfold next_read_seq_num, rlr'. rewrite Hdt3, Hdt2. destruct (rl_dtls rlw) eqn:E; [done|]. rewrite Hrs3, Hrs2 by done. by rewrite inc12_count, Hlast. }
  split.
  - change (or_fails ((out ← open_fragment ct (CBS_init seq (zlen seq)) (Cbs.rd (zlen frag) frag); _ ← next_read_seq_num; mret out) rl1) (Some content, rlr') (~ mem_ok)).
    destruct Hopen as [Hopen|[Hopen Hmem]].
    + left. rewrite bind_eq, Hopen, bind_eq, Hnext. done.
    + right. split; [|done]. rewrite bind_eq. by destruct (open_fragment _ _ _ _) as [[x|] r].
  - assert (Hlim : t + 1 < 2 ^ 64).
    { unfold seq_last in Hlast. destruct (rl_dtls rlw); [|lia]. destruct (decide (t = 2 ^ 64 - 1)) as [->|]; [discriminate Hlast|lia]. }
    destruct (on_write_config (fun p => p<|rp_seq_num := be_bytes 8 (t + 1)|>) rlw1) as [Ev Edt].
    assert (Hr' : rl_version rlr' = rl_version rlr1 /\ rl_dtls rlr' = rl_dtls rlr1) by (unfold rlr'; by destruct (rl_dtls rlw)). destruct Hr' as [Hr1 Hr2].
    split; [rewrite Hr1, Ev, Hv3, Hv2, Hv1; done|rewrite Hr2, Edt, Hdt3, Hdt2; done|lia|].
    exists (w1<|rp_seq_num := be_bytes 8 (t + 1)|>). rewrite write_protection_on, Hw1. split; [done|]. split_and!; try done.
    + unfold rlr'. destruct (rl_dtls rlw).
      * replace (read_current rlr1) with ((read_current rlr1)<|rp_seq_num := rp_seq_num (read_current rlr1)|>) by (by destruct (read_current rlr1)). by apply paired_seq.
      * apply (paired_seq w1 (read_current rlr1) _ _ Hp3).
    + change (0 <= rp_epoch w1). rewrite He1. lia.
    + change (rp_epoch w1 < 2 ^ 16). rewrite He1. lia.
    + rewrite Edt, Hd1. intros Hn. unfold rlr'. by rewrite Hn.
Qed.
Definition whole (dtls : bool) (rec : list Z) : Prop := 0 < zlen rec /\ forall rest, packet_len dtls (rec ++ rest) = zlen rec.
(** [recs] are whole records that the reader [rl] opens to [outs], which makes it [rl'], unless there is no memory. *)
Inductive opened : tls12_record_layer -> list (list Z) -> list (list Z) -> tls12_record_layer -> Prop :=
  | Opened_nil rl : opened rl [] [] rl
  | Opened_cons rl rec out rl1 recs outs rl2 : whole (rl_dtls rl) rec -> or_fails (tls12_record_layer_open_record rec rl) (Some out, rl1) (~ mem_ok) ->
      rl_dtls rl1 = rl_dtls rl -> opened rl1 recs outs rl2 -> opened rl (rec :: recs) (out :: outs) rl2.
Lemma opened_app rl recs outs rl1 recs' outs' rl2 : opened rl recs outs rl1 -> opened rl1 recs' outs' rl2 -> opened rl (recs ++ recs') (outs ++ outs') rl2.
Proof. induction 1; [done|]. intros. cbn [app]. eapply Opened_cons; eauto. Qed.

(** A record starts with its type and the version. *)
Definition headed (ct version : Z) (rec : list Z) : Prop := exists rest, rec = [ct] ++ be_bytes 2 version ++ rest.
(** The number of records that can be sealed with one key. *)
Definition max_records (dtls : bool) : Z := if dtls then 2 ^ 48 - 1 else 2 ^ 64 - 1.
Lemma not_last dtls t : 0 <= t < max_records dtls -> seq_last dtls t = false.
Proof. unfold max_records, seq_last. destruct dtls; intros Ht; apply Z.eqb_neq; [rewrite Z.mod_small|]; lia. Qed.

(** At most [exp] bytes are added to the contents of a record. *)
Definition writes_within (rl : tls12_record_layer) (exp : Z) : Prop := forall w, write_protection rl = Some w -> expands w exp.
Lemma expands_seq w exp sn : expands w exp -> expands (w<|rp_seq_num := sn|>) exp.
Proof.
  intros [Hr Ha Hc]. split; [done|exact Ha|]. intros cbc ivl bs m k e d Hl Hp. apply (Hc cbc ivl bs m k e d Hl). by destruct Hp.
Qed.
Lemma fragment_within rl w seq random ct content frag rl' exp :
  fragment rl w seq random ct content frag rl' -> write_protection rl = Some w -> sendable ct content random -> expands w exp -> writes_within rl' exp.
Proof.
  intros Hf Hw [Hct Hcb Hlen [Hrb Hr]] Hexp. destruct Hf as [| |cbc ivl bs m k e d y e' Hl Hc Henc Hy]; [intros w'; rewrite Hw; intros Hw'; apply (inj Some) in Hw'; by subst..|].
  intros w'. rewrite write_protection_on, Hw. intros Hw'. apply (inj Some) in Hw'. subst w'.
  set (plain := cipher_plain cbc ivl bs m k random seq ct (rl_version rl) content) in *.
  destruct (cipher_plain_bounds _ _ _ m k _ _ random seq ct (rl_version rl) content Hl Hr) as [_ Hmod].
  destruct (linked_step _ _ _ _ _ plain Hl (cipher_plain_bytes _ _ _ _ _ _ _ _ _ _ _ _ Hl Hrb Hcb) Hmod) as (y' & e'' & d' & Henc' & _ & _ & _ & Hl').
  rewrite Henc in Henc'. assert (e' = e'') as <- by congruence. split; [apply Hexp|exact (ex_aead _ _ Hexp)|]. intros cbc' ivl' bs' m' k' e1 d1 Hl1 Hc1.
  assert (Hc' : ciphering cbc ivl bs m k e' (w<|rp_cipher_ctx := Some e'|>)) by (destruct Hc; by constructor).
  destruct (ciphering_unique _ _ _ _ _ _ _ _ _ _ _ _ _ _ _ Hl' Hc' Hl1 Hc1) as (<- & <- & <- & <- & _). exact (ex_cipher _ _ Hexp _ _ _ _ _ _ _ Hl Hc).
Qed.

Lemma seal_step md bs s rlw rlr t random ct content exp :
  builder md s [] 0%nat bs -> in_step rlw rlr t -> sendable ct content random -> t < max_records (rl_dtls rlw) -> writes_within rlw exp ->
  outcome (tls12_record_layer_seal_record random ct content 0%nat (rlw, s))
    (fun _ st => exists rec rlr', builder md (snd st) [] 0%nat (bs ++ rec) /\ zlen rec <= zlen content + exp + header_len (rl_dtls rlw) /\
       rl_version (fst st) = rl_version rlw /\ rl_dtls (fst st) = rl_dtls rlw /\ opened rlr [rec] [content] rlr' /\ in_step (fst st) rlr' (t + 1) /\
       writes_within (fst st) exp /\ headed ct (rl_version rlw) rec)
    (~ (mem_ok /\ room md (zlen bs + zlen content + exp + header_len (rl_dtls rlw)))).
Proof.
  intros Hb Hst Hd Hmax Hwithin. pose proof Hst as [[Hv Hv16] Hdt Ht (w & Hw & Hp & Hsn & He & _)].
  assert (Hlast : seq_last (rl_dtls rlw) t = false) by (apply not_last; lia).
  eapply outcome_impl; [eapply (seal_record12_spec md 0%nat bs s rlw w t random ct content exp); try done; [by eapply paired_sealable|by apply Hwithin]| |].
  - intros [] [rlw' s'] (_ & frag & rlw1 & Hf & Hrl & Hb'). cbn [fst snd] in *. subst rlw'. set (seq := wire_seq (rl_dtls rlw) (rp_epoch w) (be_bytes 8 t)) in *.
    assert (Hs : zlen seq = 8) by (apply zlen_wire_seq; by rewrite zlen_be_bytes). pose proof (fragment_len _ _ _ _ _ _ _ _ Hf Hs Hd exp (Hwithin _ Hw)) as Hfl. pose proof (zlen_nonneg frag) as Hf0. pose proof (ex_range _ _ (Hwithin _ Hw)) as Hexr.
    destruct (fragment_after _ _ _ _ _ _ _ _ Hf Hw) as (Hd1 & Hv1 & _). destruct (on_write_config (fun p => p<|rp_seq_num := be_bytes 8 (t + 1)|>) rlw1) as [Ev Edt].
    destruct (open_record_spec rlw rlr w t random ct content frag rlw1 Hst Hw Hf Hd Hlast) as (rlr' & Hopen & Hst').
    assert (Hwl : zlen (wire12 rlw seq ct frag) = (if rl_dtls rlw then 13 else 5) + zlen frag) by (unfold wire12; rewrite !zlen_app, !zlen_be_bytes; change (zlen [ct]) with 1; destruct (rl_dtls rlw); [rewrite Hs|rewrite zlen_nil]; lia).
    assert (Hf16 : zlen frag < 2 ^ 16) by (destruct Hd as [_ _ Hlen _]; unfold SSL3_RT_MAX_PLAIN_LENGTH, MAX_EXPANSION in *; lia).
    exists (wire12 rlw seq ct frag), rlr'. split; [done|]. split; [rewrite Hwl; unfold header_len; destruct (rl_dtls rlw); lia|]. split; [by rewrite Ev, Hv1|]. split; [by rewrite Edt, Hd1|].
    cut (opened rlr [wire12 rlw seq ct frag] [content] rlr').
    { intros Hop. split; [done|]. split; [done|]. split; [|by eexists].
      intros w2. rewrite write_protection_on. intros Hw2. pose proof (fragment_within _ _ _ _ _ _ _ _ exp Hf Hw Hd (Hwithin _ Hw)) as Hin.
      destruct (write_protection rlw1) as [w1|] eqn:Ew1; [|done]. apply (inj Some) in Hw2. subst w2. by apply expands_seq, Hin. }
    assert (Hdr : rl_dtls rlr' = rl_dtls rlr) by (destruct Hst' as [_ -> _ _]; by rewrite Edt, Hd1).
    eapply Opened_cons; [|exact Hopen|done|apply Opened_nil]. rewrite Hdt. split; [rewrite Hwl; destruct (rl_dtls rlw); lia|]. intros rest. by apply packet_len_wire.
  - intros [Hl|Hm]; [by rewrite Hl in Hlast|done].
Qed.

(** *** The caller *)
Record message := mkMessage { m_empty : bool; m_random0 : list Z; m_random : list Z; m_type : Z; m_content : list Z }.
Definition message_ok (msg : message) : Prop := sendable (m_type msg) (m_content msg) (m_random msg) /\ (m_empty msg = true -> sendable (m_type msg) [] (m_random0 msg)).
(** What the receiver gets of a message: in TLSv1.0 an empty fragment may come first. *)
Definition received (msg : message) : list (list Z) := (if m_empty msg then [[]] else []) ++ [m_content msg].
Definition write_message (buf : list Z) (version : Z) (msg : message) : M tls12_record_layer (list Z) :=
  do_ssl3_write_records buf version (m_empty msg) (m_random0 msg) (m_random msg) (m_type msg) (m_content msg).
(** The room that a message takes. *)
Definition message_room (dtls : bool) (exp : Z) (msg : message) : Z :=
  (if m_empty msg then exp + header_len dtls else 0) + zlen (m_content msg) + exp + header_len dtls.
(** Room for two records of the largest size. *)
Definition WRITE_BUFFER : Z := 2 * (MAX_EXPANSION + header_len true) + SSL3_RT_MAX_PLAIN_LENGTH.
Lemma in_step_within rlw rlr t : in_step rlw rlr t -> writes_within rlw MAX_EXPANSION.
Proof.
  intros [_ _ _ (w & Hw & Hp & _)] w' Hw'. rewrite Hw in Hw'. apply (inj Some) in Hw'. subst w'. by eapply sealable_expands, paired_sealable.
Qed.

Lemma set_version_same rl version :
  rl_version rl = version -> rl_dtls rl = (Z.shiftr version 8 =? DTLS1_VERSION_MAJOR) -> tls12_record_layer_set_version version rl = rl.
Proof. intros Hv Hd. destruct rl. cbn in *. subst. done. Qed.

Lemma write_message_spec buf version msg rlw rlr t exp :
  in_step rlw rlr t -> rl_version rlw = version -> rl_dtls rlw = (Z.shiftr version 8 =? DTLS1_VERSION_MAJOR) -> message_ok msg ->
  t + 2 <= max_records (rl_dtls rlw) -> writes_within rlw exp -> message_room (rl_dtls rlw) exp msg <= zlen buf <= SIZE_MAX ->
  outcome (write_message buf version msg rlw)
    (fun bytes rlw' => exists recs rlr', bytes = concat recs /\ opened rlr recs (received msg) rlr' /\
       rl_version rlw' = version /\ rl_dtls rlw' = rl_dtls rlw /\ in_step rlw' rlr' (t + zlen (received msg)) /\ writes_within rlw' exp /\
       Forall (headed (m_type msg) version) recs /\ zlen bytes <= message_room (rl_dtls rlw) exp msg) (~ mem_ok).
Proof.
  intros Hst Hv Hdt [Hd Hd0] Hmax Hwithin Hbuf. unfold write_message, do_ssl3_write_records. apply with_cbb_spec.
  assert (Hexp : 0 <= exp) by (destruct (st_pair _ _ _ Hst) as (w & Hw & _); apply (ex_range _ _ (Hwithin w Hw))).
  set (hl := header_len (rl_dtls rlw)) in *. assert (Hhl : 0 <= hl) by (unfold hl, header_len; destruct (rl_dtls rlw); lia). unfold message_room in *. fold hl in Hbuf |- *.
  assert (HE : forall n, n <= zlen buf -> ~ (mem_ok /\ room (Fixed (zlen buf)) n) -> ~ mem_ok) by (intros n Hn Hr Hm; apply Hr; split; [done|]; cbn; lia).
  pose proof (zlen_nonneg (m_content msg)) as Hc0. set (pre := if m_empty msg then exp + hl else 0) in *. assert (Hpre0 : 0 <= pre) by (unfold pre; destruct (m_empty msg); lia).
  eapply cbb_step; [apply CBB_init_fixed_spec; lia|intros Hf; eapply mem_malloc; [|exact Hf]; done|]. intros [] s1 Hs1.
  eapply (rl_step _ _ _ _ (fun _ r => r = rlw) _ _ False); [by cbn; apply set_version_same|done|]. intros [] r ->.
  eapply (outcome_bind _ _ _ (fun _ st => exists bs recs rlr1, builder (Fixed (zlen buf)) (snd st) [] 0%nat bs /\ bs = concat recs /\ zlen bs <= pre /\
    rl_version (fst st) = rl_version rlw /\ rl_dtls (fst st) = rl_dtls rlw /\ opened rlr recs (if m_empty msg then [[]] else []) rlr1 /\
    in_step (fst st) rlr1 (t + zlen (if m_empty msg then [[] : list Z] else [])) /\ writes_within (fst st) exp /\ Forall (headed (m_type msg) (rl_version rlw)) recs) _ (~ mem_ok)).
  { unfold pre in *. destruct (m_empty msg) eqn:Ee.
    - eapply outcome_impl; [apply (seal_step (Fixed (zlen buf)) [] s1 rlw rlr t _ (m_type msg) [] exp); [done|done|by apply Hd0|lia|done]| |].
      + intros [] [rlw1 s2] (rec & rlr1 & Hb & Hl & Hv1 & Hd1 & Hop & Hst1 & Hin1 & Hh). cbn [fst snd] in *. exists rec, [rec], rlr1. rewrite zlen_nil in Hl. fold hl in Hl.
        cbn [concat]. rewrite app_nil_r. split_and!; try done; try lia. by apply Forall_singleton.
      + apply HE. fold hl. zl.
    - exists [], [], rlr. change (zlen (@nil (list Z))) with 0. rewrite Z.add_0_r. cbn [fst snd]. split_and!; try done. apply Opened_nil. }
  { done. }
  intros [] [rlw1 s2] (bs & recs & rlr1 & Hb & Hbs & Hbl & Hv1 & Hd1 & Hop & Hst1 & Hin1 & Hh1). cbn [fst snd] in *.
  assert (Hcount : 0 <= zlen (if m_empty msg then [[] : list Z] else []) <= 1) by (by destruct (m_empty msg)).
  eapply (outcome_bind _ _ _ _ _ _ _ (seal_step (Fixed (zlen buf)) bs s2 rlw1 rlr1 _ (m_random msg) (m_type msg) (m_content msg) exp Hb Hst1 Hd ltac:(rewrite Hd1; lia) Hin1)).
  { apply HE. rewrite Hd1. fold hl. lia. }
  intros [] [rlw2 s3] (rec & rlr2 & Hb2 & Hl2 & Hv2 & Hd2 & Hop2 & Hst2 & Hin2 & Hh2). cbn [fst snd] in *. rewrite Hd1 in Hl2. fold hl in Hl2.
  eapply cbb_step; [apply CBB_finish_spec; by apply builder_view| |].
  { intros Herr Hm. apply (Herr _ eq_refl); [done|]. cbn. rewrite zlen_app. lia. }
  intros [b len] s4 (bs' & Ebs & _ & Hbytes & _). apply (inj Some) in Ebs. subst bs'. cbn [fst snd] in Hbytes. cbn. rewrite Hbytes.
  exists (recs ++ [rec]), rlr2. rewrite concat_app. cbn [concat]. rewrite app_nil_r, <- Hbs. split; [done|]. split; [by eapply opened_app|].
  split; [congruence|]. split; [congruence|]. unfold received. rewrite zlen_app. change (zlen [m_content msg]) with 1. rewrite Z.add_assoc.
  split; [done|]. split; [done|]. split; [|rewrite zlen_app; lia]. rewrite <- Hv. apply Forall_app. split; [done|]. apply Forall_singleton. by rewrite <- Hv1.
Qed.
(** *** The keys *)
(** Both sides have negotiated the same. *)
Record same_config (rlw rlr : tls12_record_layer) : Prop := {
  sc_version : rl_version rlr = rl_version rlw;
  sc_dtls : rl_dtls rlr = rl_dtls rlw;
  sc_aead : rl_aead rlr = rl_aead rlw;
  sc_cipher : rl_cipher rlr = rl_cipher rlw;
  sc_mac : rl_mac_hash rlr = rl_mac_hash rlw
}.
(** The cipher suites that the laws above are about: an AEAD, or a cipher of [record_cipher] with HMAC. *)
Definition suite_covered (rl : tls12_record_layer) (mac_key : list Z) : Prop :=
  rl_aead rl <> None \/
  exists c m, rl_aead rl = None /\ rl_cipher rl = Some c /\ rl_mac_hash rl = Some m /\ record_cipher c /\ EVP_CIPHER_type c <> NID_gost89_cnt /\
    type m <> NID_id_Gost28147_89_MAC /\ checkable m mac_key.

Lemma ccs_aead_sealing `{!Aead12Laws} rl rp key iv p :
  tls12_record_layer_ccs_aead rl rp key iv = Some p -> Forall is_byte iv ->
  exists a, p = rp<|rp_aead_ctx := Some a|> /\ sealing a.
Proof.
  intros Hc Hiv. unfold tls12_record_layer_ccs_aead in Hc. destruct (negb _); [done|]. destruct (negb (malloc_ok _)); [done|].
  destruct (rl_aead rl) as [aead|]; [cbn [mbind option_bind] in Hc|done]. destruct (Z.ltb_spec 12 (zlen iv)); [done|].
  set (a := mkSaead None iv 8 _ _ _) in Hc. destruct (if xor_fixed_nonce a then _ else _) eqn:Hn; [done|].
  destruct (EVP_AEAD_CTX_init aead key) as [ctx|] eqn:Hi; [cbn [mbind option_bind] in Hc|done]. apply (inj Some) in Hc.
  pose proof (aead12_overhead aead) as Ho. assert (Et : tag_len a = EVP_AEAD_max_overhead aead) by (unfold a; cbn; unfold wrap8; by rewrite Z.mod_small by lia).
  set (a' := mkSaead (Some ctx) iv 8 _ _ _) in Hc. exists a'. split; [by rewrite <- Hc|].
  assert (Hf : if xor_fixed_nonce a then zlen iv = EVP_AEAD_nonce_length aead /\ 8 <= zlen iv else zlen iv + 8 = EVP_AEAD_nonce_length aead).
  { unfold fixed_nonce_len in Hn. cbn [fixed_nonce variable_nonce_len a] in Hn. destruct (xor_fixed_nonce a).
    - apply orb_false_iff in Hn as [Hn1 Hn2]. apply negb_false_iff, Z.eqb_eq in Hn1. apply Z.ltb_ge in Hn2. change (variable_nonce_len a) with 8 in Hn2. change (fixed_nonce a) with iv in Hn1. lia.
    - apply negb_false_iff, Z.eqb_eq in Hn. exact Hn. }
  split; [done| |change (tag_len a') with (tag_len a); lia|].
  - change (xor_fixed_nonce a') with (xor_fixed_nonce a). unfold fixed_nonce_len. change (fixed_nonce a') with iv. destruct (xor_fixed_nonce a) eqn:Ex; [|lia].
    split; [lia|]. cbn. by apply aead12_names.
  - exists ctx. split; [done|]. intros seq ct v content Hs Hsb Hct Hcb Hl n ad. change (tag_len a') with (tag_len a). rewrite Et.
    apply (aead12_works aead key); try done.
    + unfold n, aead_nonce12. change (xor_fixed_nonce a') with (xor_fixed_nonce a). unfold fixed_nonce_len. change (fixed_nonce a') with iv. destruct (xor_fixed_nonce a).
      * unfold zlen at 1. rewrite length_zip_with. unfold zeros. rewrite length_app, length_replicate. unfold zlen in *. lia.
      * rewrite zlen_app. lia.
    + unfold n, aead_nonce12. change (fixed_nonce a') with iv. destruct (xor_fixed_nonce a').
      * apply xor_bytes_bytes; [|done]. apply Forall_app. split; [apply Forall_zeros|done].
      * by apply Forall_app.
    + by apply mac_header_bytes.
    + unfold ad. rewrite zlen_mac_header. lia.
Qed.

Lemma ccs_cipher_ciphering rl rp is_write mac_key key iv p c m :
  tls12_record_layer_ccs_cipher rl rp is_write mac_key key iv = Some p -> rl_cipher rl = Some c -> rl_mac_hash rl = Some m ->
  EVP_CIPHER_type c <> NID_gost89_cnt -> type m <> NID_id_Gost28147_89_MAC -> rp_aead_ctx rp = None ->
  exists x, EVP_CipherInit_ex c key iv is_write = Some x /\ rp_seq_num p = rp_seq_num rp /\ rp_epoch p = rp_epoch rp /\
    forall cbc ivl bs, ciphering cbc ivl bs m mac_key x p.
Proof.
  intros Hc Hci Hm Ht Hmt Ha. unfold tls12_record_layer_ccs_cipher in Hc. destruct (negb _); [done|]. destruct (_ || _); [done|].
  rewrite Hci, Hm in Hc. cbn [mbind option_bind] in Hc. destruct (negb (_ =? zlen iv)); [done|]. destruct (negb (_ =? zlen key)); [done|].
  rewrite (proj2 (Z.eqb_neq _ _) Hmt) in Hc. destruct (INT_MAX <? zlen mac_key); [by cbn in Hc|]. destruct (Z.eqb_spec (md_size m) (zlen mac_key)) as [Hmk|]; [|by cbn in Hc]. cbn [negb mbind option_bind] in Hc.
  destruct (negb (malloc_ok _)); [done|]. destruct (negb (malloc_ok _)); [done|]. unfold tls12_record_layer_set_mac_key in Hc.
  pose proof (md_sizes m) as (Hsz & _). rewrite (proj2 (Z.eqb_neq (zlen mac_key) 0)) in Hc by lia. destruct (malloc_ok (zlen mac_key)); [cbn [mbind option_bind] in Hc|done].
  destruct (EVP_PKEY_new_mac_key EVP_PKEY_HMAC mac_key) as [pk|] eqn:Hpk; [cbn [mbind option_bind] in Hc|done].
  destruct (EVP_CipherInit_ex c key iv is_write) as [x|] eqn:Hx; [cbn [mbind option_bind] in Hc|done].
  destruct (EVP_DigestSignInit m pk Evp.EVP_MD_CTX_init) as [hc|] eqn:Hh; [cbn [mbind option_bind] in Hc|done].
  rewrite (proj2 (Z.eqb_neq _ _) Ht) in Hc. cbn [mbind option_bind] in Hc. apply (inj Some) in Hc. subst p. exists x.
  split; [done|]. split; [done|]. split; [done|]. intros cbc ivl bs. split; try done. exists hc. split; [done|]. by eapply sign_init.
Qed.

Lemma keys_in_step `{!Aead12Laws} rlw rlr mac_key key iv rlw1 rlr1 :
  same_config rlw rlr -> 0 <= rl_version rlw < 2 ^ 16 -> suite_covered rlw mac_key -> Forall is_byte iv ->
  tls12_record_layer_change_write_cipher_state mac_key key iv rlw = (Some tt, rlw1) ->
  tls12_record_layer_change_read_cipher_state mac_key key iv rlr = (Some tt, rlr1) ->
  in_step rlw1 rlr1 0 /\ rl_version rlw1 = rl_version rlw /\ rl_dtls rlw1 = rl_dtls rlw.
Proof.
  intros [Sv Sd Sa Sc Sm] Hv Hs Hiv Hw Hr. unfold tls12_record_layer_change_write_cipher_state in Hw. unfold tls12_record_layer_change_read_cipher_state in Hr.
  unfold tls12_record_protection_new in Hw, Hr. destruct (malloc_ok sizeof_tls12_record_protection); [cbn [mbind option_bind] in Hw, Hr|done].
  destruct (tls12_record_layer_change_cipher_state rlw blank_protection true mac_key key iv) as [w|] eqn:Ew; [|done].
  destruct (tls12_record_layer_change_cipher_state rlr blank_protection false mac_key key iv) as [r|] eqn:Er; [|done].
  apply (f_equal snd) in Hw, Hr. cbn [snd] in Hw, Hr.
  assert (Hgoal : paired w r /\ rp_seq_num w = be_bytes 8 0 /\ rp_epoch w = 0 /\ rp_seq_num r = be_bytes 8 0).
  { unfold tls12_record_layer_change_cipher_state in Ew, Er. rewrite Sa in Er. destruct Hs as [Hs|(c & m & Hna & Hc & Hm & Hrc & Ht & Hmt & Hck)].
    - destruct (rl_aead rlw) as [aead|] eqn:Ea; [|done]. cbn [is_null negb] in Ew, Er.
      assert (Ewr : tls12_record_layer_ccs_aead rlr blank_protection key iv = tls12_record_layer_ccs_aead rlw blank_protection key iv) by (unfold tls12_record_layer_ccs_aead; by rewrite Sa, Ea).
      rewrite Ewr, Ew in Er. apply (inj Some) in Er. subst r. destruct (ccs_aead_sealing _ _ _ _ _ Ew Hiv) as (a & -> & Hse).
      split; [by eapply Paired_aead|done].
    - rewrite Hna in Ew, Er. cbn [is_null negb] in Ew, Er.
      destruct (ccs_cipher_ciphering _ _ _ _ _ _ _ c m Ew Hc Hm Ht Hmt eq_refl) as (e & He & Hse & Hee & Hce).
      destruct (ccs_cipher_ciphering _ _ _ _ _ _ _ c m Er ltac:(by rewrite Sc) ltac:(by rewrite Sm) Ht Hmt eq_refl) as (d & Hd & Hsd & _ & Hcd).
      destruct (linked_init c key iv e d Hrc He Hd) as (cbc & ivl & bs & Hl). split; [by eapply Paired_cipher|]. rewrite Hse, Hee, Hsd. done. }
  destruct Hgoal as (Hp & Hsw & Hew & Hsr).
  assert (Hcur : rl_version rlw1 = rl_version rlw /\ rl_dtls rlw1 = rl_dtls rlw /\ write_protection rlw1 = Some w) by (rewrite <- Hw; destruct (rl_dtls rlw) eqn:E; cbn; rewrite ?E; done).
  destruct Hcur as (Hv1 & Hd1 & Hw1). split; [|done]. split; [rewrite Hv1, <- Hr; done|rewrite Hd1, <- Hr; done|lia|].
  exists w. split; [done|]. rewrite <- Hr. cbn [read_current]. split; [exact Hp|]. split; [done|]. split; [rewrite Hew; lia|]. intros _. exact Hsr.
Qed.

(** *** Any number of messages *)
(** The bytes that the writer puts on the wire for the messages. *)
Fixpoint write_messages (buf : list Z) (version : Z) (msgs : list message) : M tls12_record_layer (list Z) :=
  match msgs with
  | [] => mret []
  | msg :: msgs => bytes ← write_message buf version msg; rest ← write_messages buf version msgs; mret (bytes ++ rest)
  end.
(** The receiver takes record after record off the stream. *)
Fixpoint read_records (fuel : nat) (stream : list Z) : M tls12_record_layer (list (list Z)) := fun rl =>
  match stream, fuel with
  | [], _ => (Some [], rl)
  | _, O => (None, rl)
  | _, S fuel =>
    let n := packet_len (rl_dtls rl) stream in
    (out ← tls12_record_layer_open_record (ztake n stream); outs ← read_records fuel (zdrop n stream); mret (out :: outs)) rl
  end.

Lemma read_records_opened rl recs outs rl' fuel :
  opened rl recs outs rl' -> (length recs <= fuel)%nat -> or_fails (read_records fuel (concat recs) rl) (Some outs, rl') (~ mem_ok).
Proof.
  intros Ho. revert fuel. induction Ho as [rl|rl rec out rl1 recs outs rl2 [Hpos Hwhole] Hopen Hd Ho IH]; intros fuel Hf; [left; by destruct fuel|].
  cbn [length concat] in *. destruct fuel as [|fuel]; [lia|].
  assert (Hs : exists b bs, rec ++ concat recs = b :: bs) by (destruct rec; [done|by eexists _, _]). destruct Hs as (b & bs & Hs).
  cbn [read_records]. rewrite Hs. rewrite <- Hs. cbv zeta. rewrite Hwhole, ztake_app_eq, zdrop_app_eq by done.
  destruct Hopen as [Hopen|[Hopen Hm]].
  - rewrite bind_eq, Hopen. destruct (IH fuel ltac:(lia)) as [IH'|[IH' Hm]].
    + left. by rewrite bind_eq, IH'.
    + right. split; [|done]. rewrite bind_eq. by destruct (read_records _ _ _) as [[x|] r].
  - right. split; [|done]. rewrite bind_eq. by destruct (tls12_record_layer_open_record _ _) as [[x|] r].
Qed.
Lemma opened_count rl recs outs rl' : opened rl recs outs rl' -> (length recs <= length (concat recs))%nat.
Proof. induction 1 as [|rl rec out rl1 recs outs rl2 [Hpos _]]; [done|]. cbn [length concat]. rewrite length_app. unfold zlen in Hpos. lia. Qed.

Lemma write_messages_spec buf version msgs exp : forall rlw rlr t,
  in_step rlw rlr t -> rl_version rlw = version -> rl_dtls rlw = (Z.shiftr version 8 =? DTLS1_VERSION_MAJOR) -> Forall message_ok msgs ->
  t + 2 * zlen msgs <= max_records (rl_dtls rlw) -> writes_within rlw exp -> Forall (fun msg => message_room (rl_dtls rlw) exp msg <= zlen buf) msgs -> zlen buf <= SIZE_MAX ->
  outcome (write_messages buf version msgs rlw)
    (fun bytes _ => exists recs rlr', bytes = concat recs /\ opened rlr recs (concat (received <$> msgs)) rlr') (~ mem_ok).
Proof.
  induction msgs as [|msg msgs IH]; intros rlw rlr t Hst Hv Hd Hok Hmax Hin Hroom Hbuf; [exists [], rlr; split; [done|apply Opened_nil]|].
  apply Forall_cons in Hok as [Hok Hoks]. apply Forall_cons in Hroom as [Hroom Hrooms]. cbn [write_messages]. pose proof (zlen_nonneg msgs). rewrite zlen_cons in Hmax.
  eapply outcome_bind; [eapply (write_message_spec buf version msg rlw rlr t exp); try done; lia|done|].
  intros bytes rlw1 (recs & rlr1 & -> & Hop & Hv1 & Hd1 & Hst1 & Hin1 & _).
  assert (Hrec : zlen (received msg) <= 2) by (unfold received; by destruct (m_empty msg)).
  eapply outcome_bind; [eapply (IH rlw1 rlr1 _ Hst1); try done; rewrite ?Hd1; first [congruence|lia|done]|done|].
  intros rest rlw2 (recs2 & rlr2 & -> & Hop2). exists (recs ++ recs2), rlr2. rewrite concat_app. split; [done|]. rewrite fmap_cons. cbn [concat]. by eapply opened_app.
Qed.

(** C18: records of TLS up to 1.2 and of DTLS survive the way from the sender to the receiver. Both sides take the keys of the same connection,
    for an AEAD or for a CBC or stream cipher with HMAC; the sender writes any messages as [do_ssl3_write] does, the empty fragments of TLSv1.0
    included, up to the number of records that a key may be used for; the receiver splits the stream at the record headers and opens the records.
    It gets the contents, in the order of the messages, and no operation fails unless an allocation does. *)
Theorem tls12_records_roundtrip `{!Aead12Laws} rlw rlr mac_key key iv rlw1 rlr1 buf version msgs :
  same_config rlw rlr -> rl_version rlw = version -> 0 <= version < 2 ^ 16 -> rl_dtls rlw = (Z.shiftr version 8 =? DTLS1_VERSION_MAJOR) ->
  suite_covered rlw mac_key -> Forall is_byte iv ->
  tls12_record_layer_change_write_cipher_state mac_key key iv rlw = (Some tt, rlw1) ->
  tls12_record_layer_change_read_cipher_state mac_key key iv rlr = (Some tt, rlr1) ->
  Forall message_ok msgs -> 2 * zlen msgs <= max_records (rl_dtls rlw) -> WRITE_BUFFER <= zlen buf <= SIZE_MAX ->
  outcome (write_messages buf version msgs rlw1)
    (fun stream _ => outcome (read_records (length stream) stream rlr1) (fun contents _ => contents = concat (received <$> msgs)) (~ mem_ok))
    (~ mem_ok).
Proof.
  intros Hsame Hver Hv16 Hd Hsuite Hiv Hw Hr Hmsgs Hmax Hbuf. rewrite <- Hver in Hv16.
  destruct (keys_in_step rlw rlr mac_key key iv rlw1 rlr1) as (Hst & Hv1 & Hd1); try done.
  assert (Hrooms : Forall (fun msg => message_room (rl_dtls rlw1) MAX_EXPANSION msg <= zlen buf) msgs).
  { eapply Forall_impl; [exact Hmsgs|]. intros msg [[_ _ Hlen _] _]. unfold WRITE_BUFFER, MAX_EXPANSION, header_len in Hbuf. unfold message_room, MAX_EXPANSION, header_len. destruct (m_empty msg), (rl_dtls rlw1); lia. }
  eapply outcome_impl; [eapply (write_messages_spec buf version msgs MAX_EXPANSION rlw1 rlr1 0 Hst); try done; first [congruence|rewrite Hd1; lia|by eapply in_step_within|lia]| |done].
  intros stream _ (recs & rlr' & -> & Hop). destruct (read_records_opened _ _ _ _ _ Hop (opened_count _ _ _ _ Hop)) as [->|[Hf Hm]]; [done|].
  by destruct (read_records _ _ _) as [[x|] r].
Qed.
End Pairs.

(** ** Concrete instances *)
(** A "CBC" cipher with no secrecy: every byte is masked with the key and the byte before it. The context moves on. *)
Record toy_cipher_ctx := mkToy { toy_encrypts : bool; toy_key : Z; toy_last : Z }.
Fixpoint toy_encrypt (k last : Z) (x : list Z) : list Z * Z :=
  match x with
  | [] => ([], last)
  | b :: x => let y := Z.lxor (Z.lxor b k) last in let '(ys, l) := toy_encrypt k y x in (y :: ys, l)
  end.
Fixpoint toy_decrypt (k last : Z) (y : list Z) : list Z * Z :=
  match y with
  | [] => ([], last)
  | b :: y => let '(xs, l) := toy_decrypt k b y in (Z.lxor (Z.lxor b last) k :: xs, l)
  end.
Lemma toy_decrypt_encrypt k x : forall last, toy_decrypt k last (fst (toy_encrypt k last x)) = (x, snd (toy_encrypt k last x)).
Proof.
  induction x as [|b x IH]; intros last; [done|]. cbn. specialize (IH (Z.lxor (Z.lxor b k) last)). destruct (toy_encrypt k _ x) as [ys l]. cbn in *. rewrite IH.
  rewrite (Z.lxor_assoc (Z.lxor b k)), Z.lxor_nilpotent, Z.lxor_0_r, Z.lxor_assoc, Z.lxor_nilpotent, Z.lxor_0_r. done.
Qed.
Lemma toy_encrypt_ok k x : forall last, is_byte k -> is_byte last -> Forall is_byte x ->
  zlen (fst (toy_encrypt k last x)) = zlen x /\ Forall is_byte (fst (toy_encrypt k last x)) /\ is_byte (snd (toy_encrypt k last x)).
Proof.
  induction x as [|b x IH]; intros last Hk Hl Hx; [done|]. apply Forall_cons in Hx as [Hb Hx]. cbn.
  assert (Hy : is_byte (Z.lxor (Z.lxor b k) last)) by (by repeat apply lxor_byte). destruct (IH _ Hk Hy Hx) as (IHl & IHb & IHs).
  destruct (toy_encrypt k _ x) as [ys l]. cbn in *. rewrite !zlen_cons. split; [lia|]. split; [by constructor|done].
Qed.
#[local] Instance toy_ciphers : Ciphers := {|
  EVP_CIPHER := unit;
  EVP_CIPHER_type _ := 427;
  EVP_CIPHER_iv_length _ := 16;
  EVP_CIPHER_key_length _ := 1;
  EVP_CIPHER_CTX := toy_cipher_ctx;
  EVP_CIPHER_CTX_mode _ := EVP_CIPH_CBC_MODE;
  EVP_CIPHER_CTX_iv_length _ := 16;
  EVP_CIPHER_CTX_block_size _ := 16;
  EVP_CipherInit_ex _ key iv is_write := Some (mkToy is_write (hd 0 key mod 256) (hd 0 iv mod 256));
  EVP_CIPHER_CTX_gost_sbox _ _ := None;
  EVP_Cipher c x := let '(y, l) := (if toy_encrypts c then toy_encrypt else toy_decrypt) (toy_key c) (toy_last c) x in (Some y, mkToy (toy_encrypts c) (toy_key c) l)
|}.
#[local] Instance toy_cipher_laws : CipherLaws.
Proof.
  refine {| record_cipher := fun _ : EVP_CIPHER => True;
            linked := fun cbc ivl bs e d => cbc = true /\ ivl = 16 /\ bs = 16 /\ exists k l, is_byte k /\ is_byte l /\ e = mkToy true k l /\ d = mkToy false k l |}.
  - intros c key iv e d _ He Hd. apply (inj Some) in He, Hd. subst. exists true, 16, 16. split_and!; try done. eexists _, _. split_and!; [| |done|done]; apply Z.mod_pos_bound; lia.
  - intros cbc ivl bs e d (-> & -> & -> & _). split; [by repeat constructor|]. lia.
  - intros cbc ivl bs e d x (-> & -> & -> & k & l & Hk & Hl & -> & ->) Hx _. cbn. pose proof (toy_decrypt_encrypt k x l) as Hd. destruct (toy_encrypt_ok k x l Hk Hl Hx) as (El & Eb & Es).
    destruct (toy_encrypt k l x) as [y l']. cbn in *. exists y, (mkToy true k l'), (mkToy false k l'). rewrite Hd. split_and!; try done. by exists k, l'.
Defined.
Lemma toy_decrypts k last x : is_byte k -> is_byte last -> Forall is_byte x ->
  decrypts true 16 16 (mkToy false k last) (fst (toy_encrypt k last x)) x (mkToy false k (snd (toy_encrypt k last x))).
Proof.
  intros Hk Hl Hx. split; [exists (mkToy true k last), (mkToy false k last); split; [split_and!; try done; by exists k, last|by right]|]. split; [done|].
  cbn [EVP_Cipher toy_ciphers toy_encrypts toy_key toy_last]. rewrite toy_decrypt_encrypt. split; [done|]. split; [symmetry; by apply toy_encrypt_ok|done].
Qed.

(** Digest contexts whose public key context is an HMAC key and what has been absorbed. *)
#[local] Instance mac_engines : Engines := {|
  ENGINE := Empty_set;
  ENGINE_init := fun _ => false;
  ENGINE_get_digest_engine := fun _ => None;
  ENGINE_get_digest := fun _ _ => None;
  EVP_PKEY_CTX := list Z * list Z;
  digestinit_ctrl := fun _ => 1;
  EVP_PKEY_CTX_dup := Some
|}.
Lemma no_mac_engine n : ENGINE_get_digest_engine (Engines := mac_engines) n = None.
Proof. done. Qed.
#[local] Existing Instance ample.
Definition mac_ctx (m : md) (k d : list Z) : Evp.EVP_MD_CTX := Evp.mkMdCtx (Some m) None 0 None (Some (k, d)) None.
#[local] Instance hmac_macs : Macs := {|
  EVP_PKEY := list Z;
  EVP_PKEY_new_mac_key _ k := Some k;
  EVP_DigestSignInit m k _ := Some (mac_ctx m k []);
  EVP_DigestSignUpdate x c := match Evp.digest c, Evp.pctx c with Some m, Some (k, d) => Some (mac_ctx m k (d ++ x)) | _, _ => None end;
  EVP_DigestSignFinal_len c := md_size <$> Evp.digest c;
  EVP_DigestSignFinal c := (match Evp.digest c, Evp.pctx c with Some m, Some (k, d) => Some (hmac m k d) | _, _ => None end, c);
  EVP_MD_CTX_gost_sbox _ _ := None
|}.
#[local] Instance hmac_mac_laws : MacLaws.
Proof.
  refine {| signing := fun m k c d => c = mac_ctx m k d |}.
  - intros m k pk c Hk Hc. apply (inj Some) in Hk, Hc. by subst.
  - by intros m k c d ->.
  - intros m k c d ->. done.
  - intros m k c d x -> _. by eexists.
  - intros m k c d ->. done.
Defined.

(** The AEAD of the TLSv1.3 record layer's examples. *)
#[local] Existing Instance toy_aead.
#[local] Instance toy_aead12 : Aead12 := {| EVP_AEAD_max_overhead _ := 16; is_aes_gcm _ := true; is_chacha20_poly1305 _ := false |}.
#[local] Instance toy_aead12_laws : Aead12Laws.
Proof.
  split; [|cbn; lia|done]. intros a key ctx n inp ad _ _ _ _ _ _ _. exists (inp ++ toy_tag n ad). cbn. rewrite zlen_app, zlen_toy_tag, Z.leb_refl.
  split; [done|]. split; [done|]. rewrite zdrop_app_eq, ztake_app_eq by lia. unfold bytes_eqb. by rewrite bool_decide_true.
Qed.
#[local] Existing Instance no_others.
Lemma sha256_checkable k : Forall is_byte k -> zlen k <= 64 -> checkable sha256_md k.
Proof.
  intros Hk Hl. split; [|done|by split|done]. exists (sha2_raw sha256_md). split; [done|apply sha2_raw_ok].
Qed.

(** A connection that has negotiated the toy cipher with HMAC-SHA256, in TLSv1.0. *)
Definition example_layer : tls12_record_layer :=
  mkRl12 0x0301 false 0 None (Some (tt : EVP_CIPHER)) None (Some (sha256_md : md)) blank_protection Current blank_protection None.
Definition example_mac_key : list Z := replicate 32 5.
Definition example_iv : list Z := zeros 16.
Lemma example_key_checkable : checkable (sha256_md : md) example_mac_key.
Proof. apply sha256_checkable; [by apply Forall_replicate|done]. Qed.
Definition example_messages : list message := [mkMessage true (zeros 16) (zeros 16) 23 [1; 2; 3]; mkMessage false [] (zeros 16) 23 [4]].
Lemma tls12_records_roundtrip_witness :
  Forall message_ok example_messages /\
  match tls12_record_layer_change_write_cipher_state example_mac_key [7] example_iv example_layer, tls12_record_layer_change_read_cipher_state example_mac_key [7] example_iv example_layer with
  | (Some _, w), (Some _, r) =>
      outcome (write_messages (zeros 20000) 0x0301 example_messages w)
        (fun stream _ => outcome (read_records (length stream) stream r) (fun contents _ => contents = [[]; [1; 2; 3]; [4]]) (~ mem_ok)) (~ mem_ok)
  | _, _ => False
  end.
Proof.
  assert (Hm : Forall message_ok example_messages).
  { repeat constructor; cbn; try (unfold is_byte; lia); try done; auto with bytes. }
  split; [exact Hm|].
  destruct (tls12_record_layer_change_write_cipher_state example_mac_key [7] example_iv example_layer) as [[[]|] w] eqn:Ew; [|discriminate Ew].
  destruct (tls12_record_layer_change_read_cipher_state example_mac_key [7] example_iv example_layer) as [[[]|] r] eqn:Er; [|discriminate Er].
  apply (tls12_records_roundtrip no_mac_engine example_layer example_layer example_mac_key [7] example_iv w r (zeros 20000) 0x0301 example_messages).
  - by split.
  - reflexivity.
  - lia.
  - reflexivity.
  - right. exists tt, sha256_md. split_and!; first [done|exact example_key_checkable].
  - apply Forall_zeros.
  - exact Ew.
  - exact Er.
  - exact Hm.
  - vm_compute. discriminate.
  - rewrite zlen_zeros by lia. split; vm_compute; discriminate.
Defined.

(** A TLSv1.2 record of 16 bytes whose plaintext ends with the MAC, where the padding has to be. *)
Definition unpadded_layer : tls12_record_layer :=
  mkRl12 0x0303 false 0 None (Some (tt : EVP_CIPHER)) None (Some (sha256_md : md))
    (mkRp 0 (zeros 8) None (Some (mkToy false 7 0 : EVP_CIPHER_CTX)) (Some (mac_ctx sha256_md example_mac_key [])) false (Some example_mac_key)) Current blank_protection None.
Definition unpadded_content : list Z := zeros 16.
Definition unpadded_plain : list Z := zeros 16 ++ unpadded_content ++ record_mac (sha256_md : md) example_mac_key (zeros 8) 23 0x0303 unpadded_content.
Definition unpadded_fragment : list Z := fst (toy_encrypt 7 0 unpadded_plain).
Lemma unpadded_invalid : valid_padding (zdrop 16 unpadded_plain) 32 = false.
Proof. vm_compute. reflexivity. Qed.
Lemma tls12_cbc_record_accepted_witness :
  valid_padding (zdrop 16 unpadded_plain) 32 = false /\
  fst (tls12_record_layer_open_record_protected_cipher 23 (CBS_init (zeros 8) 8) (Cbs.rd 0 unpadded_fragment) unpadded_layer) = Some unpadded_content.
Proof.
  assert (Hpb : Forall is_byte unpadded_plain) by (unfold unpadded_plain, unpadded_content; rewrite !Forall_app; split_and!; [apply Forall_zeros..|apply md_hash_ok]).
  assert (Hpl : zlen unpadded_plain = 64) by (unfold unpadded_plain, unpadded_content; rewrite !zlen_app, zlen_record_mac; reflexivity).
  assert (Hl : zlen unpadded_fragment = 64) by (rewrite <- Hpl; apply toy_encrypt_ok; [unfold is_byte; lia..|exact Hpb]). split; [exact unpadded_invalid|].
  apply (tls12_cbc_record_accepted no_mac_engine unpadded_layer 16 16 sha256_md example_mac_key (mkToy false 7 0) unpadded_fragment unpadded_plain
           (mkToy false 7 (snd (toy_encrypt 7 0 unpadded_plain))) (zeros 8) 23 0 unpadded_content).
  - intros k _. reflexivity.
  - apply toy_decrypts; [unfold is_byte; lia..|exact Hpb].
  - split; try reflexivity. exists (mac_ctx sha256_md example_mac_key []). split; reflexivity.
  - exact example_key_checkable.
  - reflexivity.
  - apply Forall_zeros.
  - unfold is_byte. lia.
  - cbn [rl_version unpadded_layer]. lia.
  - rewrite Hl. vm_compute. discriminate.
  - rewrite Hl. vm_compute. discriminate.
  - rewrite Hl. reflexivity.
  - split; [vm_compute; discriminate|]. exists []. split; [|right; split; [reflexivity|exact unpadded_invalid]].
    rewrite app_nil_r. apply (zdrop_app_eq _ (zeros 16)). reflexivity.
Defined.
