(* ===== verification/DtlsReplay.v ===== *)
(** * The replay window of DTLS (the helpers of ssl/d1_pkt.c)

    DTLS numbers its records and must not accept one twice. [DTLS1_BITMAP] remembers the highest number received and, in a word, which of the 64
    numbers up to it have been received. *)
From S2P Require Import Prelude Words Cbs.

Definition DTLS1_SEQ_NUM_LEN : Z := 8.
Record DTLS1_BITMAP := mkBitmap { bm_map : Z; max_seq_num : list Z }.
Definition blank_bitmap : DTLS1_BITMAP := mkBitmap 0 (zeros DTLS1_SEQ_NUM_LEN).

(** ** The code *)
(** The loops over the bytes 6 to 0; [negative] is [ret & 0x80]. The state is [brw] and [sat]. *)
Fixpoint satsub_loop (n : nat) (negative : bool) (v1 v2 : list Z) (brw sat : Z) : Z * Z :=
  match n with
  | O => (brw, sat)
  | S i =>
      let brw := brw + (znth v1 (Z.of_nat i) - znth v2 (Z.of_nat i)) in
      let sat := Z.lor sat (if negative then Z.lnot brw else brw) in
      satsub_loop i negative v1 v2 (Z.shiftr brw 8) sat
  end.
(** The code for little-endian machines. *)
Definition satsub64be (v1 v2 : list Z) : Z :=
  let ret := znth v1 7 - znth v2 7 in
  let '(brw, sat) := satsub_loop 7 (negb (Z.land ret 0x80 =? 0)) v1 v2 (Z.shiftr ret 8) 0 in
  let brw := Z.shiftl brw 8 in
  if negb (Z.land sat 0xff =? 0) then Z.lor brw 0x80 else brw + Z.land ret 0xff.

Definition MAP_BITS : Z := 64.
Definition dtls1_record_replay_check (bitmap : DTLS1_BITMAP) (seq : list Z) : bool :=
  let cmp := satsub64be seq (max_seq_num bitmap) in
  if 0 <? cmp then true
  else
  let shift := - cmp in
  if MAP_BITS <=? shift then false
  else if negb (Z.land (bm_map bitmap) (wrap64 (Z.shiftl 1 shift)) =? 0) then false
  else true.
Definition dtls1_record_bitmap_update (bitmap : DTLS1_BITMAP) (seq : list Z) : DTLS1_BITMAP :=
  let cmp := satsub64be seq (max_seq_num bitmap) in
  if 0 <? cmp then
    let shift := cmp in
    mkBitmap (if shift <? MAP_BITS then Z.lor (wrap64 (Z.shiftl (bm_map bitmap) shift)) 1 else 1) seq
  else
    let shift := - cmp in
    mkBitmap (if shift <? MAP_BITS then Z.lor (bm_map bitmap) (wrap64 (Z.shiftl 1 shift)) else bm_map bitmap) (max_seq_num bitmap).

(** A record with the number [seq] comes in: it is checked, and marked when it turns out to be authentic. *)
Definition receive (bitmap : DTLS1_BITMAP) (seq : list Z) (authentic : bool) : bool * DTLS1_BITMAP :=
  if dtls1_record_replay_check bitmap seq && authentic then (true, dtls1_record_bitmap_update bitmap seq) else (false, bitmap).
Fixpoint receive_all (bitmap : DTLS1_BITMAP) (records : list (list Z * bool)) : list bool :=
  match records with
  | [] => []
  | (seq, authentic) :: records => let '(ok, bitmap) := receive bitmap seq authentic in ok :: receive_all bitmap records
  end.

(** ** What it means *)
(** The difference of two numbers, cut off at 128 and -128. *)
Definition saturated (d : Z) : Z := Z.max (-128) (Z.min 128 d).
(** A record is delivered when it is authentic, has not been delivered before, and is fewer than 64 numbers behind the ones that have. *)
Definition fresh (delivered : list Z) (n : Z) : bool := bool_decide ((n ∉ delivered) /\ Forall (fun m => m < n + MAP_BITS) delivered).
Fixpoint delivers (delivered : list Z) (records : list (Z * bool)) : list bool :=
  match records with
  | [] => []
  | (n, authentic) :: records => let ok := fresh delivered n && authentic in ok :: delivers (if ok then n :: delivered else delivered) records
  end.

(** ** The saturating subtraction *)
(** The difference of the numbers in the last bytes, from [n] on. *)
Definition low_diff (n : nat) (v1 v2 : list Z) : Z := be_val (drop n v1) - be_val (drop n v2).
Lemma low_diff_step n v1 v2 : length v1 = 8%nat -> length v2 = 8%nat -> (n < 8)%nat ->
  low_diff n v1 v2 = ((znth v1 (Z.of_nat n) - znth v2 (Z.of_nat n)) * 256 ^ (7 - Z.of_nat n)) + low_diff (S n) v1 v2.
Proof.
  intros H1 H2 Hn. unfold low_diff.
  assert (Hd : forall v : list Z, length v = 8%nat -> be_val (drop n v) = znth v (Z.of_nat n) * 256 ^ (7 - Z.of_nat n) + be_val (drop (S n) v)).
  { intros v Hv. destruct (lookup_lt_is_Some_2 v n ltac:(lia)) as [x Hx]. rewrite (drop_S v x n Hx), be_val_cons.
    unfold znth. rewrite Nat2Z.id, (nth_lookup_Some _ _ _ _ Hx). do 3 f_equal. unfold zlen. rewrite length_drop. lia. }
  rewrite !Hd by done. lia.
Qed.

Lemma lor_byte_0 a b : Z.land (Z.lor a b) 255 = 0 <-> Z.land a 255 = 0 /\ Z.land b 255 = 0.
Proof. rewrite Z.land_lor_distr_l. apply Z.lor_eq_0_iff. Qed.
Lemma land_255 a : Z.land a 255 = a mod 256.
Proof. change 255 with (Z.ones 8). by rewrite Z.land_ones by lia. Qed.
Lemma lnot_byte_0 a : Z.land (Z.lnot a) 255 = 0 <-> a mod 256 = 255.
Proof. rewrite land_255. unfold Z.lnot. dlia. Qed.

(** The upper digits of the differences are all 0, or all 255. *)
Definition digits (negative : bool) (n : nat) (d : Z) : Prop :=
  d mod 256 ^ (8 - Z.of_nat n) / 256 = if negative then 256 ^ (7 - Z.of_nat n) - 1 else 0.
Lemma digits_step (negative : bool) (q d x : Z) : 0 < q ->
  (d + x * (256 * q)) mod (256 * (256 * q)) / 256 = (if negative then 256 * q - 1 else 0) <->
  d mod (256 * q) / 256 = (if negative then q - 1 else 0) /\ (d + x * (256 * q)) / (256 * q) mod 256 = (if negative then 255 else 0).
Proof.
  intros Hq. set (p := 256 * q). assert (Hp : 0 < p) by lia. rewrite Z.div_add by lia.
  rewrite (Z.mul_comm 256 p), Z.rem_mul_r, Z.mod_add, Z.div_add by lia. set (t := (d / p + x) mod 256). set (r := d mod p).
  assert (Ht : 0 <= t < 256) by (apply Z.mod_pos_bound; lia). assert (Hr : 0 <= r < p) by (apply Z.mod_pos_bound; lia).
  replace ((r + p * t) / 256) with (r / 256 + q * t) by (unfold p; replace (r + 256 * q * t) with (r + (q * t) * 256) by lia; rewrite Z.div_add; lia).
  assert (Hr2 : 0 <= r / 256 < q) by (split; [apply Z.div_pos|apply Z.div_lt_upper_bound]; lia). generalize dependent (r / 256). intros y Hy. clearbody t. clear r Hr. destruct negative; nia.
Qed.
Lemma satsub_loop_spec negative v1 v2 n : length v1 = 8%nat -> length v2 = 8%nat -> (n <= 7)%nat -> forall brw sat,
  brw = low_diff n v1 v2 / 256 ^ (8 - Z.of_nat n) -> (Z.land sat 255 = 0 <-> digits negative n (low_diff n v1 v2)) ->
  let '(b, s) := satsub_loop n negative v1 v2 brw sat in
  b = low_diff 0 v1 v2 / 2 ^ 64 /\ (Z.land s 255 = 0 <-> digits negative 0 (low_diff 0 v1 v2)).
Proof.
  intros H1 H2. induction n as [|i IH]; intros Hn brw sat Hb Hs; [done|]. cbn [satsub_loop].
  set (d := znth v1 (Z.of_nat i) - znth v2 (Z.of_nat i)). pose proof (low_diff_step i v1 v2 H1 H2 ltac:(lia)) as Hlow. fold d in Hlow.
  set (q := 256 ^ (6 - Z.of_nat i)) in *. assert (Hq : 0 < q) by (apply Z.pow_pos_nonneg; lia).
  assert (E7 : 256 ^ (7 - Z.of_nat i) = 256 * q) by (replace (7 - Z.of_nat i) with (Z.succ (6 - Z.of_nat i)) by lia; by rewrite Z.pow_succ_r by lia).
  assert (E8 : 256 ^ (8 - Z.of_nat i) = 256 * (256 * q)) by (replace (8 - Z.of_nat i) with (Z.succ (7 - Z.of_nat i)) by lia; by rewrite Z.pow_succ_r, E7 by lia).
  rewrite E7 in Hlow. replace (8 - Z.of_nat (S i)) with (7 - Z.of_nat i) in Hb by lia. rewrite E7 in Hb.
  assert (Hx : brw + d = low_diff i v1 v2 / (256 * q)) by (rewrite Hb, Hlow, Z.add_comm, Z.div_add_l; lia). apply IH; [lia| |].
  - rewrite Z.shiftr_div_pow2 by lia. change (2 ^ 8) with 256. rewrite Hx, E8, Z.div_div by lia. f_equal. lia.
  - rewrite lor_byte_0, Hs. unfold digits. replace (8 - Z.of_nat (S i)) with (7 - Z.of_nat i) by lia. replace (7 - Z.of_nat (S i)) with (6 - Z.of_nat i) by lia. fold q. rewrite E7, E8.
    assert (Hlow' : low_diff i v1 v2 = low_diff (S i) v1 v2 + d * (256 * q)) by lia. rewrite Hlow', digits_step, <- Hlow', <- Hx by done. destruct negative; [by rewrite lnot_byte_0|by rewrite land_255].
Qed.

Lemma be_val_last v n : length v = S n -> exists t, be_val v = t * 256 + znth v (Z.of_nat n).
Proof.
  intros Hl. destruct (lookup_lt_is_Some_2 v n ltac:(lia)) as [x Hx]. exists (be_val (take n v)).
  unfold znth. rewrite Nat2Z.id, (nth_lookup_Some _ _ _ _ Hx), <- be_val_snoc, <- (take_S_r v n x Hx). by rewrite take_ge by lia.
Qed.
Lemma land_bit7 a : (Z.land a 0x80 =? 0) = (a mod 256 <? 128).
Proof.
  assert (E : Z.land a 0x80 = 128 * ((a mod 256) / 128)).
  { rewrite <- land_255. replace (Z.land a 128) with (Z.land (Z.land a 255) 128) by (rewrite <- Z.land_assoc; done).
    assert (Hr : 0 <= Z.land a 255 < 256) by (rewrite land_255; apply Z.mod_pos_bound; lia). revert Hr. generalize (Z.land a 255). intros r Hr.
    change 128 with (Z.shiftl (Z.ones 1) 7) at 1. rewrite <- (Z.shiftl_mul_pow2 1 7) || idtac. apply Z.bits_inj'. intros n Hn.
    change 128 with (2 ^ 7). rewrite Z.land_spec, Z.mul_comm, <- Z.shiftl_mul_pow2, <- Z.shiftr_div_pow2, !Z.shiftl_spec by lia.
    destruct (decide (n < 7)); [rewrite !(Z.testbit_neg_r _ (n - 7)) by lia; apply andb_false_r|]. rewrite Z.shiftr_spec by lia. replace (n - 7 + 7) with n by lia.
    destruct (decide (n = 7)) as [->|]; [by rewrite andb_true_r|]. rewrite (Z.bits_above_log2 r n); [done|lia|].
    destruct (decide (r = 0)) as [->|]; [cbn; lia|]. apply Z.log2_lt_pow2; [lia|]. enough (2 ^ 8 <= 2 ^ n) by lia. apply Z.pow_le_mono_r; lia. }
  rewrite E. pose proof (Z.mod_pos_bound a 256 ltac:(lia)). dlia.
Qed.
Lemma satsub64be_saturates v1 v2 : length v1 = 8%nat -> length v2 = 8%nat ->
  Z.abs (be_val v1 - be_val v2) < 2 ^ 64 - 256 -> satsub64be v1 v2 = saturated (be_val v1 - be_val v2).
Proof.
  intros H1 H2 Hd. unfold satsub64be. set (ret := znth v1 7 - znth v2 7).
  assert (E8 : low_diff 8 v1 v2 = 0) by (unfold low_diff; by rewrite !drop_ge by lia).
  assert (E7 : low_diff 7 v1 v2 = ret) by (rewrite low_diff_step, E8 by (done || lia); unfold ret; change (Z.of_nat 7) with 7; change (256 ^ (7 - 7)) with 1; lia).
  set (D := be_val v1 - be_val v2) in *. assert (E0 : low_diff 0 v1 v2 = D) by done.
  assert (Hm : ret mod 256 = D mod 256).
  { destruct (be_val_last v1 7 H1) as [t1 Ht1]. destruct (be_val_last v2 7 H2) as [t2 Ht2]. unfold D. rewrite Ht1, Ht2.
    replace (t1 * 256 + znth v1 (Z.of_nat 7) - (t2 * 256 + znth v2 (Z.of_nat 7))) with (ret + (t1 - t2) * 256) by (unfold ret; change (Z.of_nat 7) with 7; lia). by rewrite Z.mod_add by lia. }
  rewrite land_bit7, Hm. set (negative := negb (D mod 256 <? 128)).
  pose proof (satsub_loop_spec negative v1 v2 7 H1 H2 ltac:(lia) (Z.shiftr ret 8) 0) as Hloop. rewrite E7 in Hloop.
  destruct (satsub_loop 7 negative v1 v2 (Z.shiftr ret 8) 0) as [b s]. destruct Hloop as [Hb Hs].
  - by rewrite Z.shiftr_div_pow2 by lia.
  - unfold digits. change (256 ^ (8 - Z.of_nat 7)) with 256. change (256 ^ (7 - Z.of_nat 7) - 1) with 0. rewrite Z.div_small by (apply Z.mod_pos_bound; lia). by destruct negative.
  - rewrite E0 in Hb, Hs. unfold digits in Hs. change (256 ^ (8 - Z.of_nat 0)) with (2 ^ 64) in Hs. change (256 ^ (7 - Z.of_nat 0) - 1) with (2 ^ 56 - 1) in Hs.
    rewrite (land_255 ret), Hm. unfold saturated.
    assert (Hc : b = 0 /\ 0 <= D \/ b = -1 /\ D < 0) by (rewrite Hb; clear -Hd; dlia).
    destruct (Z.eqb_spec (Z.land s 255) 0) as [Es|Es]; cbn [negb].
    + apply Hs in Es. unfold negative in Es. destruct Hc as [[-> HD]|[-> HD]].
      * rewrite (Z.mod_small D) in Es by lia. change (Z.shiftl 0 8) with 0. destruct (Z.ltb_spec (D mod 256) 128) as [Hl|Hl]; cbn [negb] in Es; clear -Hd HD Es Hl; dlia.
      * assert (Ed : D mod 2 ^ 64 = D + 2 ^ 64) by (clear -Hd HD; dlia). rewrite Ed in Es. change (Z.shiftl (-1) 8) with (-256).
        destruct (Z.ltb_spec (D mod 256) 128) as [Hl|Hl]; cbn [negb] in Es; clear -Hd HD Es Hl; dlia.
    + destruct (decide (-128 <= D < 128)) as [Hr|Hr].
      * destruct Es. apply Hs. unfold negative. clear -Hd Hr. destruct (Z.ltb_spec (D mod 256) 128); cbn [negb]; dlia.
      * destruct Hc as [[-> HD]|[-> HD]]; [change (Z.lor (Z.shiftl 0 8) 128) with 128|change (Z.lor (Z.shiftl (-1) 8) 128) with (-128)]; lia.
Qed.

(** ** The window *)
Lemma land_bit64 a k : 0 <= k < 64 -> (Z.land a (wrap64 (Z.shiftl 1 k)) =? 0) = negb (Z.testbit a k).
Proof.
  intros Hk. rewrite <- land_shiftl1 by lia. do 2 f_equal. unfold wrap64. rewrite Z.shiftl_1_l. apply Z.mod_small. split; [lia|apply Z.pow_lt_mono_r; lia].
Qed.
Lemma wrap64_bit a k : 0 <= k < 64 -> Z.testbit (wrap64 a) k = Z.testbit a k.
Proof. intros Hk. unfold wrap64. apply Z.mod_pow2_bits_low. lia. Qed.

(** The bitmap [bm] remembers of the delivered numbers what the check needs. *)
Record represents (bm : DTLS1_BITMAP) (delivered : list Z) : Prop := {
  rp_len : length (max_seq_num bm) = 8%nat;
  rp_range : 0 <= be_val (max_seq_num bm) < 2 ^ 48;
  rp_map : 0 <= bm_map bm;
  rp_upto : Forall (fun n => 0 <= n <= be_val (max_seq_num bm)) delivered;
  rp_max : be_val (max_seq_num bm) ∈ delivered \/ delivered = [] /\ be_val (max_seq_num bm) = 0;
  rp_bits k : 0 <= k < MAP_BITS -> Z.testbit (bm_map bm) k = bool_decide (be_val (max_seq_num bm) - k ∈ delivered)
}.
Lemma represents_blank : represents blank_bitmap [].
Proof. split; cbn; try done; try lia; [by right|]. intros k _. rewrite Z.bits_0. by rewrite bool_decide_false by set_solver. Qed.

Section Number.
Context (bm : DTLS1_BITMAP) (delivered seq : list Z) (Hrep : represents bm delivered).
Context (Hlen : length seq = 8%nat) (Hseq : 0 <= be_val seq < 2 ^ 48).
Let n := be_val seq.
Let m := be_val (max_seq_num bm).

Lemma compare_numbers : satsub64be seq (max_seq_num bm) = saturated (n - m).
Proof. apply satsub64be_saturates; [done|apply Hrep|]. pose proof (rp_range _ _ Hrep). fold n m in Hseq |- *. unfold m. lia. Qed.

Lemma replay_check_fresh : dtls1_record_replay_check bm seq = fresh delivered n.
Proof.
  unfold dtls1_record_replay_check. rewrite compare_numbers. unfold saturated, MAP_BITS, fresh. pose proof (rp_upto _ _ Hrep) as Hup. rewrite Forall_forall in Hup. fold m in Hup. fold n in Hseq.
  destruct (Z.ltb_spec 0 (Z.max (-128) (Z.min 128 (n - m)))).
  - rewrite bool_decide_true; [done|]. split; [intros Hin; specialize (Hup n Hin); lia|]. apply Forall_forall. intros x Hx. specialize (Hup x Hx). unfold MAP_BITS. lia.
  - destruct (Z.leb_spec 64 (- Z.max (-128) (Z.min 128 (n - m)))).
    + rewrite bool_decide_false; [done|]. rewrite Forall_forall. intros [_ Hall]. destruct (rp_max _ _ Hrep) as [Hm|[_ Hm]]; fold m in Hm; [specialize (Hall m Hm); unfold MAP_BITS in Hall|]; lia.
    + replace (- Z.max (-128) (Z.min 128 (n - m))) with (m - n) by lia. rewrite land_bit64, negb_involutive by lia.
      rewrite (rp_bits _ _ Hrep) by (unfold MAP_BITS; lia). fold m. replace (m - (m - n)) with n by lia.
      assert (Hall : Forall (fun x => x < n + MAP_BITS) delivered) by (apply Forall_forall; intros x Hx; specialize (Hup x Hx); unfold MAP_BITS; lia).
      case_bool_decide as Hin; case_bool_decide as Hf; tauto.
Qed.

Lemma bitmap_update_represents : fresh delivered n = true -> represents (dtls1_record_bitmap_update bm seq) (n :: delivered).
Proof.
  intros Hf. unfold fresh in Hf. apply bool_decide_eq_true in Hf as [Hnew Hall]. unfold dtls1_record_bitmap_update. rewrite compare_numbers. unfold saturated, MAP_BITS.
  pose proof (rp_upto _ _ Hrep) as Hup. pose proof (rp_map _ _ Hrep) as Hmap. fold m in Hup. fold n in Hseq.
  destruct (Z.ltb_spec 0 (Z.max (-128) (Z.min 128 (n - m)))) as [Hc|Hc].
  - assert (Hnm : m < n) by lia. split; cbn [max_seq_num bm_map]; fold n; try done.
    + destruct (_ <? 64); [|done]. apply Z.lor_nonneg. split; [|done]. apply Z.mod_pos_bound. lia.
    + constructor; [lia|]. eapply Forall_impl; [exact Hup|]. cbn. lia.
    + left. left.
    + intros k Hk. unfold MAP_BITS in Hk. rewrite (bool_decide_ext _ (k = 0 \/ n - k ∈ delivered)) by (rewrite elem_of_cons; intuition lia).
      assert (Habove : n - k ∈ delivered -> n - k <= m) by (rewrite Forall_forall in Hup; intros Hin; by apply Hup).
      assert (H1 : Z.testbit 1 k = bool_decide (k = 0)) by (change 1 with (2 ^ 0); rewrite Z.pow2_bits_eqb by lia; case_bool_decide; lia).
      destruct (Z.ltb_spec (Z.max (-128) (Z.min 128 (n - m))) 64).
      * replace (Z.max (-128) (Z.min 128 (n - m))) with (n - m) by lia. rewrite Z.lor_spec, H1, wrap64_bit, Z.shiftl_spec by lia.
        destruct (decide (k < n - m)) as [Hkn|Hkn]; [rewrite Z.testbit_neg_r by lia|rewrite (rp_bits _ _ Hrep) by (unfold MAP_BITS; lia); fold m; replace (m - (k - (n - m))) with (n - k) by lia];
          repeat case_bool_decide; try done; first [tauto|intuition lia].
      * rewrite H1. repeat case_bool_decide; try done; first [tauto|intuition lia].
  - assert (Hnm : n <= m) by lia. split; cbn [max_seq_num bm_map]; fold m; try apply Hrep.
    + destruct (_ <? 64); [|done]. apply Z.lor_nonneg. split; [done|]. apply Z.mod_pos_bound. lia.
    + constructor; [lia|done].
    + left. destruct (rp_max _ _ Hrep) as [Hm|[_ Hm]]; fold m in Hm; [by right|]. replace m with n by lia. left.
    + assert (Hnear : m - n < 64).
      { destruct (rp_max _ _ Hrep) as [Hm|[_ Hm]]; fold m in Hm; [|lia]. rewrite Forall_forall in Hall. specialize (Hall m Hm). unfold MAP_BITS in Hall. lia. }
      intros k Hk. replace (- Z.max (-128) (Z.min 128 (n - m))) with (m - n) by lia. rewrite (proj2 (Z.ltb_lt _ _)) by lia.
      rewrite Z.lor_spec, (rp_bits _ _ Hrep), wrap64_bit, Z.shiftl_1_l, Z.pow2_bits_eqb by (unfold MAP_BITS in *; lia). fold m.
      rewrite (bool_decide_ext (_ ∈ _ :: _) (m - k = n \/ m - k ∈ delivered)) by (by rewrite elem_of_cons).
      destruct (Z.eqb_spec (m - n) k); repeat case_bool_decide; try done; first [tauto|intuition lia].
Qed.
End Number.

(** C22: the replay window of DTLS delivers what it should. Whatever the order in which records come in, replayed, delayed or forged: a record is
    delivered exactly when it is authentic, its number has not been delivered before, and no number 64 or more above it has been. In particular no record is
    ever delivered twice, and a record that is late by fewer than 64 is not lost. *)
Theorem dtls_replay_window_exact (records : list (list Z * bool)) :
  Forall (fun r => length (fst r) = 8%nat /\ 0 <= be_val (fst r) < 2 ^ 48) records ->
  receive_all blank_bitmap records = delivers [] ((fun r => (be_val (fst r), snd r)) <$> records).
Proof.
  pose proof represents_blank as Hrep. revert Hrep. generalize blank_bitmap as bm, (@nil Z) as delivered.
  induction records as [|[seq authentic] records IH]; intros bm delivered Hrep Hall; [done|]. apply Forall_cons in Hall as [[Hlen Hseq] Hall]. cbn [fst snd] in *.
  rewrite fmap_cons. cbn [receive_all delivers fst snd]. unfold receive. rewrite (replay_check_fresh bm delivered seq Hrep Hlen Hseq).
  destruct (fresh delivered (be_val seq)) eqn:Hf, authentic; cbn [andb]; f_equal; apply IH; try done. by apply bitmap_update_represents.
Qed.
Lemma dtls_replay_window_exact_witness :
  let records := (fun r : Z * bool => (be_bytes 8 (fst r), snd r)) <$> [(0, true); (70, false); (2, true); (2, true); (66, true); (2, true); (3, true); (1, true)] in
  Forall (fun r : list Z * bool => length (fst r) = 8%nat /\ 0 <= be_val (fst r) < 2 ^ 48) records /\
  receive_all blank_bitmap records = [true; false; true; false; true; false; true; false].
Proof.
  intros records. assert (Hr : Forall (fun r : list Z * bool => length (fst r) = 8%nat /\ 0 <= be_val (fst r) < 2 ^ 48) records).
  { repeat constructor; vm_compute; congruence. }
  split; [exact Hr|]. rewrite (dtls_replay_window_exact records Hr). vm_compute. reflexivity.
Defined.
