(* ===== verification/Pqueue.v ===== *)
(** * Priority queues (ssl/pqueue.c)

    DTLS keeps records and messages that come early in queues that are ordered by a number of eight bytes, big-endian; a number is in a queue once.
    The linked list of items is a list; [data] is what the void pointer points to. *)
From Stdlib Require Import Sorted.
From S2P Require Import Prelude Cbs.

(** [memcmp] of arrays of the same length: the difference of the first bytes that differ. *)
Fixpoint memcmp (a b : list Z) : Z :=
  match a, b with
  | x :: a, y :: b => if x =? y then memcmp a b else x - y
  | _, _ => 0
  end.

Section Queue.
Context {A : Type}.

Record pitem := mkItem { priority : list Z; data : A }.
Record pqueue_s := mkQueue { items : list pitem; count : Z }.
Definition pitem_new (prio64be : list Z) (data : A) : pitem := mkItem (ztake 8 prio64be) data.
Definition pqueue_new : pqueue_s := mkQueue [] 0.

(** The loop: [next] and what follows it; [None] for a duplicate. *)
Fixpoint insert_loop (next : list pitem) (item : pitem) : option (list pitem) :=
  match next with
  | [] => Some [item]
  | it :: rest =>
      let cmp := memcmp (priority it) (priority item) in
      if 0 <? cmp then Some (item :: it :: rest)
      else if cmp =? 0 then None
      else (fun l => it :: l) <$> insert_loop rest item
  end.
Definition pqueue_insert (pq : pqueue_s) (item : pitem) : option pqueue_s :=
  match items pq with
  | [] => Some (mkQueue [item] (count pq))
  | _ => (fun l => mkQueue l (count pq)) <$> insert_loop (items pq) item
  end.
Definition pqueue_peek (pq : pqueue_s) : option pitem := head (items pq).
Definition pqueue_pop (pq : pqueue_s) : option pitem * pqueue_s := (head (items pq), mkQueue (tail (items pq)) (count pq)).
Fixpoint find_loop (next : list pitem) (prio64be : list Z) : option pitem :=
  match next with
  | [] => None
  | it :: rest => if memcmp (priority it) prio64be =? 0 then Some it else find_loop rest prio64be
  end.
Definition pqueue_find (pq : pqueue_s) (prio64be : list Z) : option pitem := find_loop (items pq) prio64be.
(** An iterator is the rest of the items. *)
Definition pqueue_iterator (pq : pqueue_s) : list pitem := items pq.
Definition pqueue_next (item : list pitem) : option pitem * list pitem := (head item, tail item).
Fixpoint size_loop (item : list pitem) (n : Z) : Z :=
  match item with [] => n | _ :: rest => size_loop rest (n + 1) end.
Definition pqueue_size (pq : pqueue_s) : Z := size_loop (items pq) 0.
End Queue.
Arguments pitem : clear implicits.
Arguments pqueue_s : clear implicits.

(** ** What a queue is: a finite map from numbers *)
Lemma memcmp_be_val a b : length a = length b -> Forall is_byte a -> Forall is_byte b ->
  Z.sgn (memcmp a b) = Z.sgn (be_val a - be_val b).
Proof.
  revert b. induction a as [|x a IH]; intros [|y b] Hl Ha Hb; try done. apply Forall_cons in Ha as [Hx Ha], Hb as [Hy Hb]. cbn [memcmp length] in *.
  rewrite !be_val_cons. pose proof (be_val_bound a Ha) as Hba. pose proof (be_val_bound b Hb) as Hbb. assert (El : zlen a = zlen b) by (unfold zlen; lia). rewrite El in *.
  destruct (Z.eqb_spec x y) as [->|Hne].
  - rewrite IH by (done || lia). f_equal. lia.
  - assert (Hp : 0 < 256 ^ zlen b) by lia. destruct (Z.lt_total x y) as [Hlt|[|Hlt]]; [|done|].
    + rewrite !Z.sgn_neg; [done|nia|lia].
    + rewrite !Z.sgn_pos; [done|nia|lia].
Qed.

Section Refines.
Context {A : Type}.

(** A number of eight bytes. *)
Definition is_prio (p : list Z) : Prop := length p = 8%nat /\ Forall is_byte p.
Definition key (it : pitem A) : Z := be_val (priority it).
Definition wf_queue (l : list (pitem A)) : Prop := Forall (fun it => is_prio (priority it)) l /\ StronglySorted (fun a b => key a < key b) l.
Definition contents (l : list (pitem A)) : gmap Z A := list_to_map ((fun it => (key it, data it)) <$> l).

Inductive operation := Insert (prio : list Z) (a : A) | Pop | Peek | Find (prio : list Z) | Size.
Inductive answer := Done | Duplicate | Item (it : option (Z * A)) | Number (n : Z).
Definition answer_item (it : option (pitem A)) : answer := Item ((fun it => (key it, data it)) <$> it).
Definition perform (op : operation) (pq : pqueue_s A) : answer * pqueue_s A :=
  match op with
  | Insert prio a => match pqueue_insert pq (pitem_new prio a) with Some pq => (Done, pq) | None => (Duplicate, pq) end
  | Pop => let '(it, pq) := pqueue_pop pq in (answer_item it, pq)
  | Peek => (answer_item (pqueue_peek pq), pq)
  | Find prio => (answer_item (pqueue_find pq prio), pq)
  | Size => (Number (pqueue_size pq), pq)
  end.

(** The least number of a map, with its value. *)
Definition least (m : gmap Z A) (o : option (Z * A)) : Prop :=
  match o with None => m = ∅ | Some (k, a) => m !! k = Some a /\ forall j, is_Some (m !! j) -> k <= j end.
Inductive map_step : gmap Z A -> operation -> answer -> gmap Z A -> Prop :=
  | Step_insert m prio a : m !! be_val prio = None -> map_step m (Insert prio a) Done (<[be_val prio := a]> m)
  | Step_duplicate m prio a : is_Some (m !! be_val prio) -> map_step m (Insert prio a) Duplicate m
  | Step_pop m o : least m o -> map_step m Pop (Item o) (match o with Some (k, _) => delete k m | None => m end)
  | Step_peek m o : least m o -> map_step m Peek (Item o) m
  | Step_find m prio : map_step m (Find prio) (Item ((fun a => (be_val prio, a)) <$> m !! be_val prio)) m
  | Step_size m : map_step m Size (Number (Z.of_nat (size m))) m.
Definition op_ok (op : operation) : Prop := match op with Insert prio _ | Find prio => is_prio prio | _ => True end.

Inductive map_steps : gmap Z A -> list operation -> list answer -> gmap Z A -> Prop :=
  | Steps_nil m : map_steps m [] [] m
  | Steps_cons m op ans m1 ops anss m2 : map_step m op ans m1 -> map_steps m1 ops anss m2 -> map_steps m (op :: ops) (ans :: anss) m2.
Fixpoint perform_all (ops : list operation) (pq : pqueue_s A) : list answer * pqueue_s A :=
  match ops with
  | [] => ([], pq)
  | op :: ops => let '(a, pq) := perform op pq in let '(rest, pq) := perform_all ops pq in (a :: rest, pq)
  end.

Lemma contents_cons it l : contents (it :: l) = <[key it := data it]> (contents l).
Proof. done. Qed.
Lemma contents_above l k : Forall (fun it => k < key it) l -> forall j, is_Some (contents l !! j) -> k < j.
Proof.
  induction 1 as [|it l Hk Hl IH]; intros j [a Ha]; [done|]. rewrite contents_cons in Ha.
  apply lookup_insert_Some in Ha as [[<- _]|[_ Ha]]; [done|]. by apply IH.
Qed.
Lemma compare_prio (it : pitem A) p : is_prio (priority it) -> is_prio p -> Z.sgn (memcmp (priority it) p) = Z.sgn (key it - be_val p).
Proof. intros [H1 Hb1] [H2 Hb2]. apply memcmp_be_val; [lia|done..]. Qed.
Lemma not_in_contents l k : Forall (fun it => k < key it) l -> contents l !! k = None.
Proof. intros Hl. apply eq_None_not_Some. intros Hs. pose proof (contents_above l k Hl k Hs). lia. Qed.

Lemma insert_loop_ok l it : wf_queue l -> is_prio (priority it) ->
  match insert_loop l it with
  | Some l' => contents l !! key it = None /\ contents l' = <[key it := data it]> (contents l) /\ wf_queue l' /\
      forall k, k < key it -> Forall (fun it => k < key it) l -> Forall (fun it => k < key it) l'
  | None => is_Some (contents l !! key it)
  end.
Proof.
  intros [Hp Hs] Hit. revert Hp. induction Hs as [|h l Hs IH Hh]; intros Hp; cbn [insert_loop].
  - split; [done|]. split; [done|]. split; [split; [by apply Forall_singleton|by repeat constructor]|]. intros k Hk _. by apply Forall_singleton.
  - apply Forall_cons in Hp as [Hph Hp]. specialize (IH Hp). pose proof (compare_prio h (priority it) Hph Hit) as Hc. fold (key it) in Hc.
    assert (Hll : forall k, k < key h -> Forall (fun it => k < key it) l) by (intros k Hk; eapply Forall_impl; [exact Hh|cbn; lia]).
    destruct (Z.ltb_spec 0 (memcmp (priority h) (priority it))) as [Hlt|Hge]; [|destruct (Z.eqb_spec (memcmp (priority h) (priority it)) 0) as [He|Hne]].
    + assert (Hk : key it < key h) by (rewrite Z.sgn_pos in Hc by done; lia). assert (Hall : Forall (fun x => key it < key x) (h :: l)) by (constructor; [done|by apply Hll]).
      split; [by apply not_in_contents|]. split; [done|]. split; [split; constructor; [done|by constructor|by constructor|done]|]. intros k Hkk Hf. by constructor.
    + assert (Hk : key it = key h) by (rewrite He in Hc; cbn in Hc; lia). rewrite contents_cons, Hk, lookup_insert_eq. by eexists.
    + assert (Hk : key h < key it) by (rewrite Z.sgn_neg in Hc by lia; lia). destruct (insert_loop l it) as [l'|]; cbn [fmap option_fmap option_map].
      * destruct IH as (Hnone & Hc' & [Hp' Hs'] & Hlow). rewrite !contents_cons, lookup_insert_ne by lia. split; [done|]. split; [rewrite Hc'; by apply insert_insert_ne; lia|].
        split; [split; [by constructor|constructor; [done|by apply Hlow]]|]. intros k Hkk Hf. apply Forall_cons in Hf as [Hf1 Hf2]. constructor; [done|by apply Hlow].
      * rewrite contents_cons, lookup_insert_ne by lia. done.
Qed.

Lemma least_head l : wf_queue l -> least (contents l) ((fun it => (key it, data it)) <$> head l).
Proof.
  intros [_ Hs]. destruct Hs as [|it l Hs Hh]; [done|]. cbn [head fmap option_fmap option_map least]. rewrite contents_cons, lookup_insert_eq. split; [done|].
  intros j [a Ha]. apply lookup_insert_Some in Ha as [[<- _]|[_ Ha]]; [done|]. enough (key it < j) by lia. apply (contents_above l); [done|by eexists].
Qed.
Lemma find_loop_ok l prio : wf_queue l -> is_prio prio ->
  (fun it => (key it, data it)) <$> find_loop l prio = (fun a => (be_val prio, a)) <$> contents l !! be_val prio.
Proof.
  intros [Hp Hs] Hpr. revert Hp. induction Hs as [|h l Hs IH Hh]; intros Hp; [done|]. apply Forall_cons in Hp as [Hph Hp]. cbn [find_loop]. rewrite contents_cons.
  pose proof (compare_prio h prio Hph Hpr) as Hc. destruct (Z.eqb_spec (memcmp (priority h) prio) 0) as [He|Hne].
  - assert (Hk : key h = be_val prio) by (rewrite He in Hc; cbn in Hc; lia). by rewrite <- Hk, lookup_insert_eq.
  - assert (Hk : key h <> be_val prio) by (intros Hk; rewrite Hk, Z.sub_diag in Hc; cbn in Hc; lia). rewrite lookup_insert_ne by done. by apply IH.
Qed.
Lemma size_loop_ok (l : list (pitem A)) n : size_loop l n = n + zlen l.
Proof. revert n. induction l as [|it l IH]; intros n; cbn [size_loop]; [zl|]. rewrite IH, zlen_cons. lia. Qed.
Lemma size_contents l : wf_queue l -> size (contents l) = length l.
Proof.
  intros [_ Hs]. induction Hs as [|h l Hs IH Hh]; [done|]. rewrite contents_cons, map_size_insert_None by (by apply not_in_contents). cbn [length]. by rewrite IH.
Qed.

(** Every operation does on the queue what it does on the map. *)
Lemma perform_step op pq : wf_queue (items pq) -> op_ok op ->
  let '(a, pq') := perform op pq in map_step (contents (items pq)) op a (contents (items pq')) /\ wf_queue (items pq').
Proof.
  intros Hw Hok. pose proof Hw as [Hp Hs]. destruct op as [prio a| | |prio|]; cbn [perform op_ok] in *.
  - assert (Hpr : ztake 8 prio = prio) by (apply ztake_ge; destruct Hok; unfold zlen; lia).
    assert (E : pqueue_insert pq (pitem_new prio a) = (fun l => mkQueue l (count pq)) <$> insert_loop (items pq) (pitem_new prio a)) by (unfold pqueue_insert; by destruct (items pq)).
    rewrite E. pose proof (insert_loop_ok (items pq) (pitem_new prio a) Hw) as Hi. unfold pitem_new in *. rewrite Hpr in *. specialize (Hi Hok). unfold key in Hi. cbn [priority data] in Hi.
    destruct (insert_loop (items pq) (mkItem prio a)) as [l'|]; cbn [fmap option_fmap option_map items].
    + destruct Hi as (Hn & -> & Hw' & _). split; [by constructor|done].
    + split; [by constructor|done].
  - unfold pqueue_pop, answer_item. cbn [items]. pose proof (least_head (items pq) Hw) as Hl. split; [|split; [by apply Forall_tail|destruct Hs; [constructor|done]]].
    pose proof (Step_pop _ _ Hl) as Hst. destruct Hs as [|it l Hs Hh]; [exact Hst|]. cbn [head tail fmap option_fmap option_map] in *. rewrite contents_cons in Hst at 2.
    rewrite delete_insert_id in Hst by (by apply not_in_contents). exact Hst.
  - split; [|done]. constructor. by apply least_head.
  - unfold pqueue_find, answer_item. rewrite find_loop_ok by done. split; [constructor|done].
  - unfold pqueue_size. rewrite size_loop_ok. unfold zlen. rewrite <- (size_contents (items pq) Hw). split; [constructor|done].
Qed.

(** C23: a priority queue is a finite map from numbers of eight bytes. Any sequence of [pqueue_insert], [pqueue_pop], [pqueue_peek], [pqueue_find] and
    [pqueue_size] on a new queue gives the answers that a map gives: an item is refused exactly when its number is in the map, the item popped is the one
    with the least number, and no item is lost or returned twice. *)
Theorem pqueue_refines_map (ops : list operation) :
  Forall op_ok ops ->
  let '(answers, pq) := perform_all ops pqueue_new in map_steps ∅ ops answers (contents (items pq)).
Proof.
  assert (Hw : wf_queue (items (pqueue_new : pqueue_s A))) by (split; constructor). change (∅ : gmap Z A) with (contents (items (pqueue_new : pqueue_s A))).
  revert Hw. generalize (pqueue_new : pqueue_s A) as pq. induction ops as [|op ops IH]; intros pq Hw Hok; [constructor|]. apply Forall_cons in Hok as [Hop Hok]. cbn [perform_all].
  pose proof (perform_step op pq Hw Hop) as Hst. destruct (perform op pq) as [a pq1]. destruct Hst as [Hst Hw1]. specialize (IH pq1 Hw1 Hok).
  destruct (perform_all ops pq1) as [rest pq2]. by econstructor.
Qed.
End Refines.

Lemma pqueue_refines_map_witness :
  let p k := be_bytes 8 k in
  let ops := [Insert (p 300) 1; Insert (p 2) 2; Insert (p 300) 3; Size; Pop; Find (p 300); Pop; Pop] in
  Forall op_ok ops /\ (let '(answers, pq) := perform_all ops pqueue_new in
    answers = [Done; Done; Duplicate; Number 2; Item (Some (2, 2)); Item (Some (300, 1)); Item (Some (300, 1)); Item None] /\
    map_steps ∅ ops answers (contents (items pq))).
Proof.
  intros p ops. assert (Hok : Forall op_ok ops) by (repeat constructor; by vm_compute). split; [exact Hok|].
  pose proof (pqueue_refines_map ops Hok) as Hr. destruct (perform_all ops pqueue_new) as [answers pq] eqn:E. split; [|exact Hr].
  vm_compute in E. by injection E as <- _.
Defined.
