(* ===== verification/SslPkt.v ===== *)
(** * The record buffers (ssl/ssl_pkt.c, ssl/ssl_both.c)

    How bytes get from a BIO that may have none, or only some, into the buffer a record is read from. [s->internal->packet] is an offset into
    [rbuf.buf]; what the memory of a buffer holds outside the bytes that are counted is kept as the source leaves it. *)
From S2P Require Import Prelude Compat Cbs RecordLayer Tls13Buffer Tls12Record.

Definition SSL3_RT_HEADER_LENGTH : Z := 5.
Definition DTLS1_RT_HEADER_LENGTH : Z := 13.
Definition SSL3_ALIGN_PAYLOAD : Z := 8.
Definition SSL_NOTHING : Z := 1.
Definition SSL_WRITING : Z := 2.
Definition SSL_READING : Z := 3.

(** The address of a block of memory of a size, of which the buffers use the low bits; where [S3I(s)->send_alert] is, and the local copy of it. *)
Class Heap := { calloc_address : Z -> Z; send_alert_address : Z; alert_copy_address : Z }.

Record SSL3_BUFFER_INTERNAL := mkBuffer { b_buf : option (list Z); b_address : Z; b_len : Z; b_offset : Z; b_left : Z }.
Definition no_buffer : SSL3_BUFFER_INTERNAL := mkBuffer None 0 0 0 0.
Definition ssl3_release_buffer (b : SSL3_BUFFER_INTERNAL) : SSL3_BUFFER_INTERNAL := mkBuffer None (b_address b) 0 (b_offset b) (b_left b).
Definition b_bytes (b : SSL3_BUFFER_INTERNAL) : list Z := default [] (b_buf b).

(** What reading changes of a connection. *)
Record read_state := mkReadState { rbuf : SSL3_BUFFER_INTERNAL; packet : Z; packet_length : Z; rwstate : Z }.
Definition eta_rs (r : read_state) : read_state := mkReadState (rbuf r) (packet r) (packet_length r) (rwstate r).
#[global] Instance set_rs_rbuf : Setter SslPkt.rbuf := fun g r => mkReadState (g (rbuf r)) (packet r) (packet_length r) (rwstate r).
#[global] Instance set_packet : Setter packet := fun g r => mkReadState (rbuf r) (g (packet r)) (packet_length r) (rwstate r).
#[global] Instance set_packet_length : Setter packet_length := fun g r => mkReadState (rbuf r) (packet r) (g (packet_length r)) (rwstate r).
#[global] Instance set_rwstate : Setter rwstate := fun g r => mkReadState (rbuf r) (packet r) (packet_length r) (g (rwstate r)).
#[global] Instance set_b_buf : Setter b_buf := fun g b => mkBuffer (g (b_buf b)) (b_address b) (b_len b) (b_offset b) (b_left b).
#[global] Instance set_b_offset : Setter b_offset := fun g b => mkBuffer (b_buf b) (b_address b) (b_len b) (g (b_offset b)) (b_left b).
#[global] Instance set_b_left : Setter b_left := fun g b => mkBuffer (b_buf b) (b_address b) (b_len b) (b_offset b) (g (b_left b)).

(** What reading asks of a connection: whether it is DTLS, [read_ahead], SSL_MODE_RELEASE_BUFFERS. *)
Record read_config := mkReadConfig { is_dtls : bool; read_ahead : bool; release_buffers : bool }.

(** The alignment of the payload behind a TLS header. *)
Definition payload_align (b : SSL3_BUFFER_INTERNAL) : Z := Z.land (- (b_address b + SSL3_RT_HEADER_LENGTH)) (SSL3_ALIGN_PAYLOAD - 1).
Definition BUFFER_ALIGN : Z := Z.land (- SSL3_RT_HEADER_LENGTH) (SSL3_ALIGN_PAYLOAD - 1).

Section Reading.
Context `{Allocator} `{Heap} {W : Type} (bio_read : option (read_cb W)) (cfg : read_config).

Definition ssl3_setup_read_buffer (s : read_state) : option read_state :=
  let headerlen := if is_dtls cfg then DTLS1_RT_HEADER_LENGTH else SSL3_RT_HEADER_LENGTH in
  let len := SSL3_RT_MAX_PLAIN_LENGTH + SSL3_RT_MAX_ENCRYPTED_OVERHEAD + headerlen + BUFFER_ALIGN in
  match b_buf (rbuf s) with
  | Some _ => Some (s<|packet := 0|>)
  | None =>
      if malloc_ok len then
        Some (s<|rbuf := mkBuffer (Some (zeros len)) (calloc_address len) len (b_offset (rbuf s)) (b_left (rbuf s))|><|packet := 0|>)
      else None
  end.
Definition ssl3_release_read_buffer (s : read_state) : read_state := s<|rbuf := ssl3_release_buffer (rbuf s)|>.

(** [memmove] within the buffer. *)
Definition move (b : SSL3_BUFFER_INTERNAL) (dst src n : Z) : SSL3_BUFFER_INTERNAL :=
  b<|b_buf := (fun l => overwrite l dst (slice l src n)) <$> b_buf b|>.

(** The start of a new packet, [!extend]. *)
Definition start_packet (s : read_state) : read_state :=
  let rb := rbuf s in
  let align := payload_align rb in
  let rb :=
    if b_left rb =? 0 then rb<|b_offset := align|>
    else if negb (align =? 0) && (SSL3_RT_HEADER_LENGTH <=? b_left rb) then
      let pkt := slice (b_bytes rb) (b_offset rb) 5 in
      if (znth pkt 0 =? SSL3_RT_APPLICATION_DATA) && (128 <=? Z.lor (Z.shiftl (znth pkt 3) 8) (znth pkt 4)) then
        (move rb align (b_offset rb) (b_left rb))<|b_offset := align|>
      else rb
    else rb in
  s<|rbuf := rb|><|packet := b_offset rb|><|packet_length := 0|>.

(** The loop: [len] bytes of the packet and [left] more are at the front of the buffer, from [pkt] on. The result is the [return], or [n] and [left]. *)
Fixpoint read_loop (fuel : nat) (pkt len n left max : Z) : State (read_state * W) (Z + Z * Z) := fun '(s, w) =>
  if left <? n then
    match fuel with
    | O => (inl (-1), (s, w))
    | S fuel =>
        let '(i, (s, w)) :=
          match bio_read with
          | Some read =>
              let s := s<|rwstate := SSL_READING|> in
              let '((i, bytes), w) := read (max - left) w in
              (i, (s<|rbuf := (rbuf s)<|b_buf := (fun l => overwrite l (pkt + len + left) bytes) <$> b_buf (rbuf s)|>|>, w))
          | None => (-1, (s, w))
          end in
        if i <=? 0 then
          let s := s<|rbuf := (rbuf s)<|b_left := left|>|> in
          let s := if release_buffers cfg && negb (is_dtls cfg) && (len + left =? 0) then ssl3_release_read_buffer s else s in
          (inl i, (s, w))
        else
        let left := left + i in
        let n := if is_dtls cfg && (left <? n) then left else n in
        read_loop fuel pkt len n left max (s, w)
    end
  else (inr (n, left), (s, w)).

(** The bytes that are in the buffer are not enough: what there is goes to the front of the buffer, and more is read. *)
Definition read_more (n max : Z) : State (read_state * W) Z := fun '(s, w) =>
  let rb := rbuf s in
  let left := b_left rb in
  let align := payload_align rb in
  let len := packet_length s in
  let s := if negb (packet s =? align) then
      s<|rbuf := (move rb align (packet s) (len + left))<|b_offset := len + align|>|><|packet := align|> else s in
  if b_len rb - b_offset (rbuf s) <? n then (-1, (s, w))
  else
  let max := if read_ahead cfg || is_dtls cfg then Z.min (Z.max max n) (b_len rb - b_offset (rbuf s)) else n in
  match read_loop (Z.to_nat n) align len n left max (s, w) with
  | (inl i, sw) => (i, sw)
  | (inr (n, lft), (s, w)) =>
      let rb := rbuf s in
      (n, (s<|rbuf := rb<|b_offset := b_offset rb + n|><|b_left := lft - n|>|><|packet_length := packet_length s + n|><|rwstate := SSL_NOTHING|>, w))
  end.
Definition ssl3_read_n (n max : Z) (extend : bool) : State (read_state * W) Z := fun '(s, w) =>
  if n <=? 0 then (n, (s, w))
  else
  match (match b_buf (rbuf s) with None => ssl3_setup_read_buffer s | Some _ => Some s end) with
  | None => (-1, (s, w))
  | Some s =>
      let left := b_left (rbuf s) in
      let s := if extend then s else start_packet s in
      let n := if is_dtls cfg && (0 <? left) && (left <? n) then left else n in
      if n <=? left then
        let rb := rbuf s in
        (n, (s<|packet_length := packet_length s + n|><|rbuf := rb<|b_left := left - n|><|b_offset := b_offset rb + n|>|>, w))
      else read_more n max (s, w)
  end.

Definition ssl3_packet_read (plen : Z) : State (read_state * W) Z := fun '(s, w) =>
  let '(n, (s, w)) := ssl3_read_n plen (b_len (rbuf s)) false (s, w) in
  if n <=? 0 then (n, (s, w))
  else if packet_length s <? plen then (packet_length s, (s, w))
  else (plen, (s, w)).
Definition ssl3_packet_extend (plen : Z) : State (read_state * W) Z := fun '(s, w) =>
  if plen <=? packet_length s then (plen, (s, w))
  else
  let rlen := plen - packet_length s in
  let '(n, (s, w)) := ssl3_read_n rlen rlen true (s, w) in
  if n <=? 0 then (n, (s, w))
  else if packet_length s <? plen then (packet_length s, (s, w))
  else (plen, (s, w)).
End Reading.
