(* ===== verification/SslPktSpec.v ===== *)
(** * Reading from a BIO: what the read buffer promises

    The read buffer is a window on the peer's stream of bytes: whatever portions the BIO delivers, and however often it has nothing, no byte is lost,
    repeated or moved past another. *)
From S2P Require Import Prelude Compat Cbs RecordLayer Tls13Buffer Tls12Record SslPkt.

(** The size of the read buffer of TLS. *)
Definition READ_BUFFER : Z := 16712.
Lemma payload_align_range b : 0 <= payload_align b < SSL3_ALIGN_PAYLOAD.
Proof. unfold payload_align. change (SSL3_ALIGN_PAYLOAD - 1) with (Z.ones 3). rewrite Z.land_ones by lia. by apply Z.mod_pos_bound. Qed.

(** ** Windows *)
(** The packet is [pk], and [ah] has been read ahead. *)
Definition joined (s : read_state) (pk ah : list Z) : Prop :=
  exists pre post, b_buf (rbuf s) = Some (pre ++ pk ++ ah ++ post) /\ zlen pre = packet s /\ payload_align (rbuf s) <= packet s /\
    zlen pk = packet_length s /\ b_offset (rbuf s) = packet s + packet_length s /\ zlen ah = b_left (rbuf s) /\
    b_len (rbuf s) = READ_BUFFER /\ zlen (pre ++ pk ++ ah ++ post) = READ_BUFFER.
(** There is no packet, and [ah] has been read ahead. *)
Definition idle (s : read_state) (ah : list Z) : Prop :=
  match b_buf (rbuf s) with
  | None => b_left (rbuf s) = 0 /\ ah = []
  | Some l => zlen l = READ_BUFFER /\ b_len (rbuf s) = READ_BUFFER /\
      (b_left (rbuf s) = 0 /\ ah = [] \/
       exists pre post, l = pre ++ ah ++ post /\ zlen pre = b_offset (rbuf s) /\ payload_align (rbuf s) <= b_offset (rbuf s) /\ zlen ah = b_left (rbuf s))
  end.

Lemma zdrop_ztake {A} m n (l : list A) : 0 <= m <= n -> zdrop m (ztake n l) = ztake (n - m) (zdrop m l).
Proof. intros Hm. unfold zdrop, ztake. rewrite firstn_skipn_comm. do 2 f_equal. lia. Qed.

(** [memmove] brings a window to another place. *)
Lemma overwrite_nil {A} (l : list A) off : overwrite l off [] = l.
Proof. unfold overwrite. cbn [app]. change (zlen []) with 0. rewrite Z.add_0_r. apply ztake_zdrop. Qed.
Lemma move_window (pre w post : list Z) dst : 0 <= dst <= zlen pre ->
  exists pre' post', overwrite (pre ++ w ++ post) dst (slice (pre ++ w ++ post) (zlen pre) (zlen w)) = pre' ++ w ++ post' /\
    zlen pre' = dst /\ zlen (pre' ++ w ++ post') = zlen (pre ++ w ++ post).
Proof.
  intros Hd. unfold slice. rewrite zdrop_app_eq, ztake_app_eq by done. set (l := pre ++ w ++ post). exists (ztake dst l), (zdrop (dst + zlen w) l).
  assert (Hl : zlen l = zlen pre + zlen w + zlen post) by (unfold l; zl). pose proof (zlen_nonneg w). pose proof (zlen_nonneg post). split; [done|]. split; [zl|].
  rewrite !zlen_app, zlen_ztake, zlen_zdrop by lia. fold l. lia.
Qed.

Section Spec.
Context `{Allocator} `{Heap} {W : Type} (read : read_cb W) `{!Stream read} (cfg : read_config) (Htls : is_dtls cfg = false).

(** A packet of [n] more bytes fits. *)
Definition fits (s : read_state) (n : Z) : Prop := payload_align (rbuf s) + packet_length s + n <= READ_BUFFER.

(** After reading [n] bytes: they are the next of the stream, or nothing has happened to the stream. *)
Definition extended (w : W) (pk ah : list Z) (n ret : Z) (s' : read_state) (w' : W) : Prop :=
  if 0 <? ret then
    ret = n /\ exists chunk ah', joined s' (pk ++ chunk) ah' /\ zlen chunk = n /\ ah ++ incoming w = chunk ++ ah' ++ incoming w'
  else exists ah', (if zlen pk =? 0 then idle s' ah' else joined s' pk ah') /\ ah ++ incoming w = ah' ++ incoming w'.

Lemma joined_idle s ah : joined s [] ah -> idle s ah.
Proof.
  intros (pre & post & Hb & Hpre & Hal & Hpk & Ho & Ha & Hl & Hz). unfold idle. rewrite Hb. split; [done|]. split; [done|]. right.
  exists pre, post. rewrite zlen_nil in Hpk. cbn [app] in *. split_and!; try done; lia.
Qed.

(** What is there is enough. *)
Lemma take_ahead s pk ah n : joined s pk ah -> 0 < n <= b_left (rbuf s) ->
  let rb := rbuf s in
  joined (s<|packet_length := packet_length s + n|><|rbuf := rb<|b_left := b_left rb - n|><|b_offset := b_offset rb + n|>|>) (pk ++ ztake n ah) (zdrop n ah).
Proof.
  intros (pre & post & Hb & Hpre & Hal & Hpk & Ho & Ha & Hl & Hz) Hn. exists pre, post. cbn.
  assert (E : pre ++ (pk ++ ztake n ah) ++ zdrop n ah ++ post = pre ++ pk ++ ah ++ post).
  { rewrite <- !app_assoc. do 2 f_equal. by rewrite app_assoc, ztake_zdrop. }
  rewrite E. split_and!; try done; first [lia|zl].
Qed.

(** The loop, with [got] read so far beyond the packet. *)
Lemma read_loop_spec pkt n max : forall fuel s w pk got,
  joined (s<|rbuf := (rbuf s)<|b_left := zlen got|>|>) pk got -> packet s = pkt -> 0 < n <= max -> b_offset (rbuf s) + max <= READ_BUFFER ->
  n - zlen got <= Z.of_nat fuel ->
  match read_loop (Some read) cfg fuel pkt (packet_length s) n (zlen got) max (s, w) with
  | (inr (n', left'), (s', w')) => n' = n /\ n <= left' /\ exists got', zlen got' = left' /\ joined (s'<|rbuf := (rbuf s')<|b_left := zlen got'|>|>) pk got' /\
      got ++ incoming w = got' ++ incoming w' /\ packet_length s' = packet_length s
  | (inl i, (s', w')) => i <= 0 /\ exists got', (if zlen pk =? 0 then idle s' got' else joined s' pk got') /\ got ++ incoming w = got' ++ incoming w' /\
      packet_length s' = packet_length s
  end.
Proof.
  induction fuel as [|fuel IH]; intros s w pk got Hj Hp Hn Hroom Hfuel; cbn [read_loop].
  - destruct (Z.ltb_spec (zlen got) n); [lia|]. split; [done|]. split; [done|]. by exists got.
  - destruct (Z.ltb_spec (zlen got) n) as [Hlt|Hge]; [|split; [done|]; split; [done|]; by exists got].
    destruct (read (max - zlen got) w) as [[i bytes] w1] eqn:Er. destruct (stream_read (max - zlen got) w i bytes w1 ltac:(lia) Er) as [Hpos Hneg].
    destruct Hj as (pre & post & Hb & Hpre & Hal & Hpk & Ho & _ & Hl & Hz). cbn in Hb, Hpre, Hal, Hpk, Ho, Hl.
    destruct (Z.leb_spec i 0) as [Hi|Hi].
    + destruct (Hneg Hi) as [-> Hinc]. split; [done|]. exists got. rewrite <- Hinc.
      set (s1 := _<|rbuf := _|>). assert (Hj1 : joined s1 pk got).
      { exists pre, post. unfold s1. cbn. rewrite Hb. cbn [fmap option_fmap option_map]. by rewrite overwrite_nil. }
      split; [|split; [done|by destruct (_ && _)]].
      destruct (Z.eqb_spec (zlen pk) 0) as [Hpk0|Hpk0].
      * apply zlen_0_nil in Hpk0. subst pk. destruct (release_buffers cfg && negb (is_dtls cfg) && _) eqn:Erel; [|by apply joined_idle].
        apply andb_true_iff in Erel as [_ Erel]. assert (Hg : zlen got = 0) by (change (zlen []) with 0 in Hpk; pose proof (zlen_nonneg got); lia). split; [exact Hg|]. by apply zlen_0_nil.
      * rewrite (proj2 (Z.eqb_neq (packet_length s + zlen got) 0)) by (pose proof (zlen_nonneg got); pose proof (zlen_nonneg pk); lia). by rewrite andb_false_r.
    + destruct (Hpos ltac:(lia)) as (Hbl & Himax & Hinc). rewrite Htls. cbn [andb]. replace (zlen got + i) with (zlen (got ++ bytes)) by (rewrite zlen_app; lia).
      set (s1 := _<|rbuf := _|>). rewrite Hinc, app_assoc. change (packet_length s) with (packet_length s1). apply IH; try done; cbn; try lia.
      * assert (Hpost : zlen bytes <= zlen post) by (rewrite !zlen_app in Hz; cbn in Hroom; lia).
        exists pre, (zdrop (zlen bytes) post). unfold s1. cbn. rewrite Hb. cbn [fmap option_fmap option_map].
        assert (E : overwrite (pre ++ pk ++ got ++ post) (pkt + packet_length s + zlen got) bytes = pre ++ pk ++ (got ++ bytes) ++ zdrop (zlen bytes) post).
        { rewrite <- (ztake_zdrop (zlen bytes) post) at 1. rewrite (app_assoc pre), (app_assoc (pre ++ pk)). rewrite overwrite_app by (rewrite ?zlen_app, ?zlen_ztake; lia). by rewrite <- !app_assoc. }
        rewrite E. split_and!; try done. rewrite <- Hz. rewrite !zlen_app, zlen_zdrop by lia. lia.
      * rewrite zlen_app. lia.
Qed.

Lemma move_front s pk ah : joined s pk ah ->
  let rb := rbuf s in
  let s1 := if negb (packet s =? payload_align rb) then
      s<|rbuf := (move rb (payload_align rb) (packet s) (packet_length s + b_left rb))<|b_offset := packet_length s + payload_align rb|>|><|packet := payload_align rb|> else s in
  joined s1 pk ah /\ packet s1 = payload_align rb /\ packet_length s1 = packet_length s /\ b_left (rbuf s1) = b_left rb.
Proof.
  intros (pre & post & Hb & Hpre & Hal & Hpk & Ho & Ha & Hl & Hz) rb. destruct (Z.eqb_spec (packet s) (payload_align rb)) as [He|Hne]; cbn [negb].
  - cbn. split; [|done]. by exists pre, post.
  - destruct (move_window pre (pk ++ ah) post (payload_align rb)) as (pre' & post' & Hmv & Hpre' & Hz'); [pose proof (payload_align_range rb); unfold rb in *; lia|].
    rewrite <- !app_assoc in Hmv, Hz'. cbn. split; [|done]. exists pre', post'. unfold rb in *. cbn. rewrite Hb. cbn [fmap option_fmap option_map].
    replace (packet_length s + b_left (rbuf s)) with (zlen (pk ++ ah)) by (rewrite zlen_app; lia). rewrite <- Hpre, Hmv. split_and!; try done; [lia|by rewrite Hz'].
Qed.

Lemma read_more_spec n max s w pk ah : joined s pk ah -> b_left (rbuf s) < n -> 0 < n -> fits s n ->
  let '(ret, (s', w')) := read_more (Some read) cfg n max (s, w) in extended w pk ah n ret s' w'.
Proof.
  intros Hj Hlt Hn Hfit. unfold read_more. pose proof (move_front s pk ah Hj) as Hm. cbv zeta in Hm |- *. set (s1 := if negb _ then _ else s) in *. destruct Hm as (Hj1 & Hp1 & Hl1 & Hb1).
  pose proof Hj1 as (pre & post & Hb & Hpre & Hal & Hpk & Ho & Ha & Hlen & Hz). pose proof Hj as (_ & _ & _ & _ & _ & _ & _ & _ & Hlen0 & _). unfold fits in Hfit.
  rewrite (proj2 (Z.ltb_ge _ _)) by lia. rewrite Htls, orb_false_r. set (mx := if read_ahead cfg then _ else n). assert (Hmx : n <= mx <= READ_BUFFER - b_offset (rbuf s1)) by (unfold mx; destruct (read_ahead cfg); lia).
  pose proof (read_loop_spec (payload_align (rbuf s)) n mx (Z.to_nat n) s1 w pk ah) as Hr. rewrite Hl1, Ha, Hb1 in Hr.
  assert (Hjl : joined (s1<|rbuf := (rbuf s1)<|b_left := b_left (rbuf s)|>|>) pk ah) by (exists pre, post; cbn; by rewrite <- Hb1).
  specialize (Hr Hjl Hp1 ltac:(lia) ltac:(lia) ltac:(pose proof (zlen_nonneg ah); lia)).
  destruct (read_loop _ _ _ _ _ _ _ _ _) as [[i|[n' lft]] [s2 w2]].
  - destruct Hr as (Hi & got & Hg & Hinc & Hpl). unfold extended. rewrite (proj2 (Z.ltb_ge 0 i)) by lia. exists got. by split.
  - destruct Hr as (-> & Hge & got & Hgl & Hjg & Hinc & Hpl). unfold extended. rewrite (proj2 (Z.ltb_lt 0 n)) by lia. split; [done|].
    exists (ztake n got), (zdrop n got). split; [|split; [zl|by rewrite app_assoc, ztake_zdrop]].
    pose proof (take_ahead _ pk got n Hjg) as Ht. cbn in Ht. specialize (Ht ltac:(lia)). destruct Ht as (pre2 & post2 & Hb2 & Hpre2 & Hal2 & Hpk2 & Ho2 & Ha2 & Hlen2 & Hz2).
    exists pre2, post2. cbn in *. rewrite Hgl in *. by split_and!.
Qed.

Lemma start_packet_spec s ah : idle s ah -> b_buf (rbuf s) <> None -> joined (start_packet s) [] ah.
Proof.
  intros Hi Hb. unfold idle in Hi. destruct (b_buf (rbuf s)) as [l|] eqn:El; [|done]. destruct Hi as (Hz & Hlen & Hah). pose proof (payload_align_range (rbuf s)) as Hal. unfold SSL3_ALIGN_PAYLOAD in Hal.
  unfold start_packet. destruct Hah as [[Hl0 ->]|(pre & post & -> & Hpre & Hge & Ha)].
  - rewrite Hl0. cbn [Z.eqb]. exists (ztake (payload_align (rbuf s)) l), (zdrop (payload_align (rbuf s)) l). cbn. rewrite ztake_zdrop, El. rewrite zlen_ztake by (unfold READ_BUFFER in *; lia).
    rewrite Hl0. split_and!; try done; unfold READ_BUFFER in *; lia.
  - assert (Hsame : joined (s<|packet := b_offset (rbuf s)|><|packet_length := 0|>) [] ah).
    { exists pre, post. cbn. rewrite El. split_and!; try done; lia. }
    assert (Hmoved : joined (s<|rbuf := (move (rbuf s) (payload_align (rbuf s)) (b_offset (rbuf s)) (b_left (rbuf s)))<|b_offset := payload_align (rbuf s)|>|><|packet := payload_align (rbuf s)|><|packet_length := 0|>) [] ah).
    { destruct (move_window pre ah post (payload_align (rbuf s)) ltac:(lia)) as (pre' & post' & Hmv & Hpre' & Hz'). exists pre', post'. cbn. rewrite El. cbn [fmap option_fmap option_map].
      rewrite <- Hpre, <- Ha, Hmv. split_and!; try done; first [lia|by rewrite Hz']. }
    destruct (Z.eqb_spec (b_left (rbuf s)) 0) as [Hl0|Hl0].
    + rewrite Hl0 in Ha. apply zlen_0_nil in Ha. subst ah. cbn [app] in *. exists (ztake (payload_align (rbuf s)) (pre ++ post)), (zdrop (payload_align (rbuf s)) (pre ++ post)). cbn.
      rewrite ztake_zdrop, El. rewrite zlen_ztake by (unfold READ_BUFFER in *; lia). rewrite Hl0. split_and!; try done; unfold READ_BUFFER in *; lia.
    + repeat case_match; first [exact Hsame|exact Hmoved].
Qed.

Lemma read_n_extend n max s w pk ah : joined s pk ah -> 0 < n -> fits s n ->
  let '(ret, (s', w')) := ssl3_read_n (Some read) cfg n max true (s, w) in extended w pk ah n ret s' w'.
Proof.
  intros Hj Hn Hf. pose proof Hj as (pre & post & Hb & _ & _ & _ & _ & Ha & _). unfold ssl3_read_n. rewrite (proj2 (Z.leb_gt n 0)), Hb, Htls by done. cbn [andb].
  destruct (Z.leb_spec n (b_left (rbuf s))).
  - unfold extended. rewrite (proj2 (Z.ltb_lt 0 n)) by done. split; [done|]. exists (ztake n ah), (zdrop n ah). split; [by apply take_ahead|]. split; [zl|by rewrite app_assoc, ztake_zdrop].
  - by apply read_more_spec.
Qed.
Lemma setup_idle s ah : idle s ah -> b_buf (rbuf s) = None ->
  match ssl3_setup_read_buffer cfg s with Some s' => idle s' ah /\ b_buf (rbuf s') <> None | None => ~ (forall k, 0 <= k <= SIZE_MAX -> malloc_ok k = true) end.
Proof.
  intros Hi Hb. unfold idle in Hi. rewrite Hb in Hi. destruct Hi as [Hl ->]. unfold ssl3_setup_read_buffer. rewrite Hb, Htls. set (len := _ + _). assert (Elen : len = READ_BUFFER) by done. clearbody len. subst len.
  destruct (malloc_ok READ_BUFFER) eqn:Em; [|intros Hm; by rewrite Hm in Em]. split; [|done]. unfold idle. cbn. split; [by rewrite zlen_zeros|]. split; [done|]. by left.
Qed.
Lemma read_n_packet n max s w ah : idle s ah -> 0 < n <= 5 ->
  let '(ret, (s', w')) := ssl3_read_n (Some read) cfg n max false (s, w) in extended w [] ah n ret s' w'.
Proof.
  intros Hi Hn. unfold ssl3_read_n. rewrite (proj2 (Z.leb_gt n 0)) by lia.
  assert (Hready : forall s0, idle s0 ah -> b_buf (rbuf s0) <> None -> let s1 := start_packet s0 in
    let '(ret, (s', w')) := (if n <=? b_left (rbuf s0) then (n, (s1<|packet_length := packet_length s1 + n|><|rbuf := (rbuf s1)<|b_left := b_left (rbuf s0) - n|><|b_offset := b_offset (rbuf s1) + n|>|>, w))
      else read_more (Some read) cfg n max (s1, w)) in extended w [] ah n ret s' w').
  { intros s0 Hi0 Hb0 s1. pose proof (start_packet_spec s0 ah Hi0 Hb0) as Hj. fold s1 in Hj.
    assert (Hleft : b_left (rbuf s1) = b_left (rbuf s0)) by (unfold s1, start_packet; by repeat case_match).
    assert (Hpl : packet_length s1 = 0) by (unfold s1, start_packet; by repeat case_match). assert (Hfit : fits s1 n) by (unfold fits; pose proof (payload_align_range (rbuf s1)); unfold READ_BUFFER, SSL3_ALIGN_PAYLOAD in *; lia).
    rewrite <- Hleft. destruct (Z.leb_spec n (b_left (rbuf s1))); [|apply read_more_spec; [done|lia..|done]].
    unfold extended. rewrite (proj2 (Z.ltb_lt 0 n)) by lia. split; [done|]. exists (ztake n ah), (zdrop n ah). split; [apply (take_ahead s1 [] ah); [done|lia]|].
    destruct Hj as (_ & _ & _ & _ & _ & _ & _ & Ha & _). split; [zl|by rewrite app_assoc, ztake_zdrop]. }
  rewrite Htls. cbn [andb]. destruct (b_buf (rbuf s)) as [l|] eqn:Eb; [apply Hready; [done|by rewrite Eb]|].
  pose proof (setup_idle s ah Hi Eb) as Hset. destruct (ssl3_setup_read_buffer cfg s) as [s0|]; [destruct Hset; by apply Hready|]. unfold extended. cbn. by exists ah.
Qed.
Lemma packet_read_spec n s w ah : idle s ah -> 0 < n <= 5 ->
  let '(ret, (s', w')) := ssl3_packet_read (Some read) cfg n (s, w) in extended w [] ah n ret s' w'.
Proof.
  intros Hi Hn. unfold ssl3_packet_read. pose proof (read_n_packet n (b_len (rbuf s)) s w ah Hi Hn) as Hr. destruct (ssl3_read_n _ _ _ _ _ _) as [ret [s' w']].
  unfold extended in Hr. destruct (Z.ltb_spec 0 ret).
  - destruct Hr as (-> & chunk & ah' & Hj & Hc & Hinc). rewrite (proj2 (Z.leb_gt n 0)) by done. pose proof Hj as (_ & _ & _ & _ & _ & Hpl & _). cbn [app] in Hpl.
    rewrite (proj2 (Z.ltb_ge (packet_length s') n)) by lia. unfold extended. rewrite (proj2 (Z.ltb_lt 0 n)) by done. split; [done|]. by exists chunk, ah'.
  - rewrite (proj2 (Z.leb_le ret 0)) by done. unfold extended. by rewrite (proj2 (Z.ltb_ge 0 ret)) by done.
Qed.
Lemma packet_extend_spec n s w pk ah : joined s pk ah -> 0 < zlen pk < n -> payload_align (rbuf s) + n <= READ_BUFFER ->
  let '(ret, (s', w')) := ssl3_packet_extend (Some read) cfg n (s, w) in
  if 0 <? ret then ret = n /\ exists chunk ah', joined s' (pk ++ chunk) ah' /\ zlen (pk ++ chunk) = n /\ ah ++ incoming w = chunk ++ ah' ++ incoming w'
  else exists ah', joined s' pk ah' /\ ah ++ incoming w = ah' ++ incoming w'.
Proof.
  intros Hj Hn Hfit. pose proof Hj as (_ & _ & _ & _ & _ & Hpl & _). unfold ssl3_packet_extend. rewrite (proj2 (Z.leb_gt n _)) by lia.
  pose proof (read_n_extend (n - packet_length s) (n - packet_length s) s w pk ah Hj ltac:(lia) ltac:(unfold fits; lia)) as Hr.
  destruct (ssl3_read_n _ _ _ _ _ _) as [ret [s' w']]. unfold extended in Hr. rewrite (proj2 (Z.eqb_neq (zlen pk) 0)) in Hr by lia. destruct (Z.ltb_spec 0 ret).
  - destruct Hr as (Hret & chunk & ah' & Hj' & Hc & Hinc). rewrite (proj2 (Z.leb_gt ret 0)) by done. pose proof Hj' as (_ & _ & _ & _ & _ & Hpl' & _). rewrite zlen_app in Hpl'.
    rewrite (proj2 (Z.ltb_ge (packet_length s') n)) by lia. rewrite (proj2 (Z.ltb_lt 0 n)) by lia. split; [done|]. exists chunk, ah'. split; [done|]. split; [rewrite zlen_app; lia|done].
  - rewrite (proj2 (Z.leb_le ret 0)), (proj2 (Z.ltb_ge 0 ret)) by done. done.
Qed.
End Spec.
