(* ===== verification/SslConn.v ===== *)
(** * Writing records (ssl/ssl_pkt.c)

    The state of a connection of TLS up to 1.2 as far as its records go, and the functions that cut data into records, seal them into the write buffer
    and give the buffer to a BIO that may take none, or only some, of it. Pointers into the application's data, which the code compares, are addresses.
    The session cache and the message and info callbacks, which only observe, are left out, and so is BIO_flush. *)
From S2P Require Import Prelude Compat Cbs Cbb RecordLayer Versions Words EvpDigest S3Cbc Tls13Buffer Tls13Record Tls12Record SslPkt.

Definition SSL3_ST_CW_CLNT_HELLO_B : Z := Z.lor 0x111 0x1000.
Definition SSL_MODE_ENABLE_PARTIAL_WRITE : Z := 0x1.
Definition SSL_MODE_ACCEPT_MOVING_WRITE_BUFFER : Z := 0x2.
Definition SSL_MODE_RELEASE_BUFFERS : Z := 0x10.
Definition SSL_OP_DONT_INSERT_EMPTY_FRAGMENTS : Z := 0x800.
Definition SSL_RT_MAX_CIPHER_BLOCK_SIZE : Z := 16.
Definition SSL3_RT_SEND_MAX_ENCRYPTED_OVERHEAD : Z := SSL_RT_MAX_CIPHER_BLOCK_SIZE + SSL3_RT_MAX_MD_SIZE.
Definition SSL3_AL_FATAL : Z := 2.

(** Data of the application, at an address. *)
Record app_data := mkApp { ad_address : Z; ad_bytes : list Z }.
Definition app_from (tot : Z) (d : app_data) : app_data := mkApp (ad_address d + tot) (zdrop tot (ad_bytes d)).

(** [S3I(s)->rrec]: [rr_data] is what [data] points to. *)
Record record_internal := mkRrec { rr_type : Z; rr_length : Z; rr_off : Z; rr_data : list Z; rr_epoch : Z; rr_seq_num : list Z }.
Definition blank_record : record_internal := mkRrec 0 0 0 [] 0 (zeros 8).

Section Conn.
Context `{Allocator} `{Heap} `{Aead} `{!Aead12} `{Ciphers} `{Methods} `{!Engines} `{!Macs} `{OtherDigests}.

Record ssl_conn := mkConn {
  c_ssl : SSL;
  c_rl : tls12_record_layer;
  c_server : bool; c_has_session : bool; c_in_init : bool; c_in_handshake : bool; c_hs_state : Z; c_renegotiate : bool;
  c_mode : Z; c_read_ahead : bool; c_max_send_fragment : Z;
  (* reading *)
  c_read : read_state; c_rstate : Z; c_first_packet : bool; c_mac_packet : bool; c_empty_record_count : Z; c_rrec : record_internal;
  (* writing *)
  c_wbuf : SSL3_BUFFER_INTERNAL; c_wnum : Z; c_wpend_tot : Z; c_wpend_buf : Z; c_wpend_type : Z; c_wpend_ret : Z;
  c_need_empty_fragments : bool; c_empty_fragment_done : bool; c_alert_dispatch : bool; c_send_alert : list Z
}.
Definition eta_conn (s : ssl_conn) : ssl_conn :=
  mkConn (c_ssl s) (c_rl s) (c_server s) (c_has_session s) (c_in_init s) (c_in_handshake s) (c_hs_state s) (c_renegotiate s) (c_mode s) (c_read_ahead s)
    (c_max_send_fragment s) (c_read s) (c_rstate s) (c_first_packet s) (c_mac_packet s) (c_empty_record_count s) (c_rrec s) (c_wbuf s) (c_wnum s)
    (c_wpend_tot s) (c_wpend_buf s) (c_wpend_type s) (c_wpend_ret s) (c_need_empty_fragments s) (c_empty_fragment_done s) (c_alert_dispatch s) (c_send_alert s).
Ltac mk_setter f :=
  let e := eval cbv beta delta [eta_conn] in eta_conn in
  match type of e with ?R -> _ =>
    match eval pattern (f) in e with
    | ?P _ => let t := eval cbv beta in (fun g => P (fun r : R => g (f r))) in exact t
    end
  end.
#[global] Instance set_c_ssl : Setter c_ssl := ltac:(mk_setter c_ssl).
#[global] Instance set_c_rl : Setter c_rl := ltac:(mk_setter c_rl).
#[global] Instance set_c_read : Setter c_read := ltac:(mk_setter c_read).
#[global] Instance set_c_rstate : Setter c_rstate := ltac:(mk_setter c_rstate).
#[global] Instance set_c_mac_packet : Setter c_mac_packet := ltac:(mk_setter c_mac_packet).
#[global] Instance set_c_empty_record_count : Setter c_empty_record_count := ltac:(mk_setter c_empty_record_count).
#[global] Instance set_c_rrec : Setter c_rrec := ltac:(mk_setter c_rrec).
#[global] Instance set_c_wbuf : Setter c_wbuf := ltac:(mk_setter c_wbuf).
#[global] Instance set_c_wnum : Setter c_wnum := ltac:(mk_setter c_wnum).
#[global] Instance set_c_wpend_tot : Setter c_wpend_tot := ltac:(mk_setter c_wpend_tot).
#[global] Instance set_c_wpend_buf : Setter c_wpend_buf := ltac:(mk_setter c_wpend_buf).
#[global] Instance set_c_wpend_type : Setter c_wpend_type := ltac:(mk_setter c_wpend_type).
#[global] Instance set_c_wpend_ret : Setter c_wpend_ret := ltac:(mk_setter c_wpend_ret).
#[global] Instance set_c_empty_fragment_done : Setter c_empty_fragment_done := ltac:(mk_setter c_empty_fragment_done).
#[global] Instance set_c_alert_dispatch : Setter c_alert_dispatch := ltac:(mk_setter c_alert_dispatch).
#[global] Instance set_c_send_alert : Setter c_send_alert := ltac:(mk_setter c_send_alert).

(** The world of a connection: its BIOs, random numbers, and what the record code calls above itself - the handshake function and the transcript. *)
Class Transport (W : Type) := {
  rbio_read : option (read_cb W);
  wbio_write : option (write_cb W);
  arc4random_buf : State W (list Z);                        (* 16 bytes *)
  handshake_func : State (ssl_conn * W) Z;
  tls1_transcript_record : list Z -> W -> W
}.
Context {W : Type} `{!Transport W}.

Definition c_dtls (s : ssl_conn) : bool := SSL_is_dtls (c_ssl s).
Definition has_mode (mode : Z) (s : ssl_conn) : bool := negb (Z.land (c_mode s) mode =? 0).
Definition set_rwstate_of (v : Z) (s : ssl_conn) : ssl_conn := s<|c_read := (c_read s)<|rwstate := v|>|>.

(** ** The write buffer *)
Definition ssl3_setup_write_buffer (s : ssl_conn) : option ssl_conn :=
  let headerlen := if c_dtls s then DTLS1_RT_HEADER_LENGTH + 1 else SSL3_RT_HEADER_LENGTH in
  match b_buf (c_wbuf s) with
  | Some _ => Some s
  | None =>
      let len := c_max_send_fragment s + SSL3_RT_SEND_MAX_ENCRYPTED_OVERHEAD + headerlen + BUFFER_ALIGN in
      let len := if Z.land (options (s_internal (c_ssl s))) SSL_OP_DONT_INSERT_EMPTY_FRAGMENTS =? 0
                 then len + (headerlen + BUFFER_ALIGN + SSL3_RT_SEND_MAX_ENCRYPTED_OVERHEAD) else len in
      if malloc_ok len then Some (s<|c_wbuf := mkBuffer (Some (zeros len)) (calloc_address len) len (b_offset (c_wbuf s)) (b_left (c_wbuf s))|>) else None
  end.
Definition ssl3_release_write_buffer (s : ssl_conn) : ssl_conn := s<|c_wbuf := ssl3_release_buffer (c_wbuf s)|>.

(** The loop of [ssl3_write_pending]; every pass that goes on has written at least one byte. *)
Fixpoint write_loop (fuel : nat) : State (ssl_conn * W) Z := fun '(s, w) =>
  let wb := c_wbuf s in
  let '(i, (s, w)) :=
    match wbio_write with
    | Some wr =>
        let s := set_rwstate_of SSL_WRITING s in
        let '(i, w) := wr (slice (b_bytes wb) (b_offset wb) (b_left wb)) w in
        (i, (s, w))
    | None => (-1, (s, w))
    end in
  if i =? b_left wb then
    let s := s<|c_wbuf := wb<|b_left := 0|><|b_offset := b_offset wb + i|>|> in
    let s := if has_mode SSL_MODE_RELEASE_BUFFERS s && negb (c_dtls s) then ssl3_release_write_buffer s else s in
    (c_wpend_ret s, (set_rwstate_of SSL_NOTHING s, w))
  else if i <=? 0 then (i, (if c_dtls s then s<|c_wbuf := wb<|b_left := 0|>|> else s, w))
  else
  let s := s<|c_wbuf := wb<|b_offset := b_offset wb + i|><|b_left := b_left wb - i|>|> in
  match fuel with O => (-1, (s, w)) | S fuel => write_loop fuel (s, w) end.
Definition ssl3_write_pending (type : Z) (buf : app_data) (len : Z) : State (ssl_conn * W) Z := fun '(s, w) =>
  if (len <? c_wpend_tot s) || (negb (c_wpend_buf s =? ad_address buf) && negb (has_mode SSL_MODE_ACCEPT_MOVING_WRITE_BUFFER s)) || negb (c_wpend_type s =? type)
  then (-1, (s, w))
  else write_loop (Z.to_nat (b_left (c_wbuf s))) (s, w).

(** ** Records *)
(** The version in the header of a record: TLSv1.0 for the first hello of a client. *)
Definition record_version (s : ssl_conn) : Z :=
  if (c_hs_state s =? SSL3_ST_CW_CLNT_HELLO_B) && negb (c_renegotiate s) && (TLS1_VERSION <? our_max_tls_version (c_ssl s)) then TLS1_VERSION
  else s_version (c_ssl s).
Definition needs_empty_fragment (s : ssl_conn) (type : Z) : bool :=
  c_has_session s && default false (tls12_record_layer_write_protected (c_rl s)) && c_need_empty_fragments s && negb (c_empty_fragment_done s) &&
  (type =? SSL3_RT_APPLICATION_DATA).
Definition write_align (wb : SSL3_BUFFER_INTERNAL) (need_empty_fragment : bool) : Z :=
  Z.land (- (b_address wb + SSL3_RT_HEADER_LENGTH + (if need_empty_fragment then SSL3_RT_HEADER_LENGTH else 0))) (SSL3_ALIGN_PAYLOAD - 1).
(** Whether the empty fragment was sealed, when the whole of it was not. *)
Definition empty_fragment_sealed (rl : tls12_record_layer) (buf : list Z) (version : Z) (random0 : list Z) (type : Z) : bool :=
  match fst (with_cbb (
    _ ← on_cbb (CBB_init_fixed 0%nat buf (zlen buf));
    _ ← on_rl (modS (tls12_record_layer_set_version version));
    tls12_record_layer_seal_record random0 type [] 0%nat) rl) with Some _ => true | None => false end.
(** The rest of [do_ssl3_write], when nothing is pending. *)
Definition seal_and_write (type : Z) (buf : app_data) (len : Z) : State (ssl_conn * W) Z := fun '(s, w) =>
  let wb := c_wbuf s in
  let version := record_version s in
  let need_empty_fragment := needs_empty_fragment s type in
  let align := write_align wb need_empty_fragment in
  let s := s<|c_wbuf := wb<|b_offset := align|>|> in
  let '(random0, w) := (if need_empty_fragment then arc4random_buf w else ([], w)) in
  let '(random, w) := arc4random_buf w in
  let room := slice (b_bytes wb) align (b_len wb - align) in
  let rl := c_rl s in
  let '(out, rl') := do_ssl3_write_records room version need_empty_fragment random0 random type (ztake len (ad_bytes buf)) rl in
  let s := s<|c_rl := rl'|> in
  match out with
  | None =>
      (-1, (if need_empty_fragment && empty_fragment_sealed rl room version random0 type then s<|c_empty_fragment_done := true|> else s, w))
  | Some out =>
      let s := if need_empty_fragment then s<|c_empty_fragment_done := true|> else s in
      let wb := (c_wbuf s)<|b_buf := (fun l => overwrite l align out) <$> b_buf (c_wbuf s)|><|b_left := zlen out|> in
      ssl3_write_pending type buf len
        (s<|c_wbuf := wb|><|c_wpend_tot := len|><|c_wpend_buf := ad_address buf|><|c_wpend_type := type|><|c_wpend_ret := len|>, w)
  end.
(** [do_ssl3_write], given how to send an alert that waits. *)
Definition do_ssl3_write_with (dispatch : State (ssl_conn * W) Z) (type : Z) (buf : app_data) (len : Z) : State (ssl_conn * W) Z := fun '(s, w) =>
  match (match b_buf (c_wbuf s) with None => ssl3_setup_write_buffer s | Some _ => Some s end) with
  | None => (-1, (s, w))
  | Some s =>
      if negb (b_left (c_wbuf s) =? 0) then ssl3_write_pending type buf len (s, w)
      else
      let '(ret, (s, w)) := (if c_alert_dispatch s then dispatch (s, w) else (1, (s, w))) in
      if ret <=? 0 then (ret, (s, w))
      else
      match (match b_buf (c_wbuf s) with None => ssl3_setup_write_buffer s | Some _ => Some s end) with
      | None => (-1, (s, w))
      | Some s => if len =? 0 then (0, (s, w)) else seal_and_write type buf len (s, w)
      end
  end.

(** ** Alerts *)
Definition SSL_AD_NO_CERTIFICATE : Z := 41.
(** The switch of [tls1_alert_code] gives the codes themselves. *)
Definition tls1_alert_code (code : Z) : Z :=
  if bool_decide (code ∈ [0; 10; 20; 21; 22; 30; 40; 42; 43; 44; 45; 46; 47; 48; 49; 50; 51; 60; 70; 71; 80; 86; 90; 100; 110; 111; 112; 113; 114; 115])
  then code else -1.
(** [alert_dispatch] is 0 when an alert is written: there is no other alert to send first. *)
Definition ssl3_dispatch_alert : State (ssl_conn * W) Z := fun '(s, w) =>
  let s := s<|c_alert_dispatch := false|> in
  let '(i, (s, w)) := do_ssl3_write_with (fun sw => (-1, sw)) SSL3_RT_ALERT (mkApp send_alert_address (c_send_alert s)) 2 (s, w) in
  (i, (if i <=? 0 then s<|c_alert_dispatch := true|> else s, w)).
Definition do_ssl3_write (type : Z) (buf : app_data) (len : Z) : State (ssl_conn * W) Z := do_ssl3_write_with ssl3_dispatch_alert type buf len.

(** DTLS: one record, one datagram (d1_pkt.c). [wb->left] is 0 here, since [ssl3_write_pending] drops what cannot be sent; otherwise an assertion ends
    the program. *)
Definition do_dtls1_write_with (dispatch : State (ssl_conn * W) Z) (type : Z) (buf : app_data) (len : Z) : State (ssl_conn * W) Z := fun '(s, w) =>
  if negb (b_left (c_wbuf s) =? 0) then ssl3_write_pending type buf len (s, w)
  else
  let '(ret, (s, w)) := (if c_alert_dispatch s then dispatch (s, w) else (1, (s, w))) in
  if ret <=? 0 then (ret, (s, w))
  else if len =? 0 then (0, (s, w))
  else
  let s := s<|c_wbuf := (c_wbuf s)<|b_offset := 0|>|> in
  let '(random, w) := arc4random_buf w in
  let '(out, rl') := do_ssl3_write_records (b_bytes (c_wbuf s)) (s_version (c_ssl s)) false [] random type (ztake len (ad_bytes buf)) (c_rl s) in
  let s := s<|c_rl := rl'|> in
  match out with
  | None => (-1, (s, w))
  | Some out =>
      let wb := (c_wbuf s)<|b_buf := (fun l => overwrite l 0 out) <$> b_buf (c_wbuf s)|><|b_left := zlen out|> in
      ssl3_write_pending type buf len
        (s<|c_wbuf := wb|><|c_wpend_tot := len|><|c_wpend_buf := ad_address buf|><|c_wpend_type := type|><|c_wpend_ret := len|>, w)
  end.
Definition dtls1_dispatch_alert : State (ssl_conn * W) Z := fun '(s, w) =>
  let s := s<|c_alert_dispatch := false|> in
  let '(i, (s, w)) := do_dtls1_write_with (fun sw => (-1, sw)) SSL3_RT_ALERT (mkApp alert_copy_address (ztake 2 (c_send_alert s))) 2 (s, w) in
  (i, (if i <=? 0 then s<|c_alert_dispatch := true|> else s, w)).
Definition do_dtls1_write (type : Z) (buf : app_data) (len : Z) : State (ssl_conn * W) Z := do_dtls1_write_with dtls1_dispatch_alert type buf len.

(** For at most SSL3_RT_MAX_PLAIN_LENGTH bytes, which is asserted. *)
Definition dtls1_write_bytes (type : Z) (buf : app_data) (len : Z) : State (ssl_conn * W) Z := fun '(s, w) => do_dtls1_write type buf len (set_rwstate_of SSL_NOTHING s, w).

(** [s->method->ssl_dispatch_alert]. *)
Definition ssl_dispatch_alert : State (ssl_conn * W) Z := fun '(s, w) => if c_dtls s then dtls1_dispatch_alert (s, w) else ssl3_dispatch_alert (s, w).
Definition ssl3_send_alert (level desc : Z) : State (ssl_conn * W) Z := fun '(s, w) =>
  let desc := tls1_alert_code desc in
  if desc <? 0 then (-1, (s, w))
  else
  let s := s<|c_alert_dispatch := true|><|c_send_alert := [level; desc]|> in
  if b_left (c_wbuf s) =? 0 then ssl_dispatch_alert (s, w) else (-1, (s, w)).

(** ** Data *)
(** The loop: [tot] bytes have been written, [n] are left; every pass that goes on has written at least one. *)
Fixpoint write_bytes_loop (fuel : nat) (type : Z) (buf : app_data) (tot n : Z) : State (ssl_conn * W) Z := fun '(s, w) =>
  let nw := if c_max_send_fragment s <? n then c_max_send_fragment s else n in
  let '(i, (s, w)) := do_ssl3_write type (app_from tot buf) nw (s, w) in
  if i <=? 0 then (i, (s<|c_wnum := tot|>, w))
  else if (i =? n) || ((type =? SSL3_RT_APPLICATION_DATA) && has_mode SSL_MODE_ENABLE_PARTIAL_WRITE s) then (tot + i, (s<|c_empty_fragment_done := false|>, w))
  else match fuel with O => (-1, (s, w)) | S fuel => write_bytes_loop fuel type buf (tot + i) (n - i) (s, w) end.
Definition ssl3_write_bytes (type : Z) (buf : app_data) (len : Z) : State (ssl_conn * W) Z := fun '(s, w) =>
  if len <? 0 then (-1, (s, w))
  else
  let s := set_rwstate_of SSL_NOTHING s in
  let tot := c_wnum s in
  let s := s<|c_wnum := 0|> in
  let '(ret, (s, w)) := (if c_in_init s && negb (c_in_handshake s) then handshake_func (s, w) else (1, (s, w))) in
  if ret <? 0 then (ret, (s, w))
  else if ret =? 0 then (-1, (s, w))
  else
  let len := if len <? tot then tot else len in
  write_bytes_loop (Z.to_nat (len - tot)) type buf tot (len - tot) (s, w).
End Conn.
