(* ===== verification/SslWriteSpec.v ===== *)
(** * Writing records: what becomes of an application's data

    Everything that is sealed is given to the BIO exactly once and in order, whatever part of it the BIO takes at a time and however often it takes none;
    the write buffer is always large enough; and a write that is repeated until it succeeds succeeds after as many refusals as there are. *)
From S2P Require Import Prelude Compat Cbs Cbb CbbSpec CbbBuild RecordLayer Versions Words Md32 EvpDigest Hmac S3Cbc S3CbcSpec Tls13Buffer Tls13Record.
From S2P Require Import Sha256 RecordLayerSpec Tls12Record Tls12RecordSpec Tls12Roundtrip SslPkt SslPktSpec SslConn.

Section Write.
Context `{Allocator} `{Heap} `{Aead} `{!Aead12} `{Ciphers} `{!CipherLaws} `{Methods} `{!Engines} `{!MdLaws} `{!Macs} `{!MacLaws} `{OtherDigests}.
Context (no_engine : forall n, ENGINE_get_digest_engine n = None).
Context {W : Type} `{!Transport W} (wr : write_cb W) `{!Sink wr} (Hwr : wbio_write = Some wr).
(** The number of times that the BIO will refuse to take anything. *)
Context (refusals : W -> nat).
Context (Hrefuse : forall bs w ret w', 0 < zlen bs -> wr bs w = (ret, w') -> if 0 <? ret then (refusals w' <= refusals w)%nat else (refusals w' < refusals w)%nat).
Context (Hrandom : forall w r w', arc4random_buf w = (r, w') -> Forall is_byte r /\ 16 <= zlen r /\ sent (write := wr) w' = sent (write := wr) w /\ refusals w' = refusals w).
(** [calloc] returns memory that is aligned for any type. *)
Context (Haligned : forall n, calloc_address n mod 8 = 0).

(** ** The buffer *)
(** What is sealed but not sent. *)
Definition pending (s : ssl_conn) : list Z := slice (b_bytes (c_wbuf s)) (b_offset (c_wbuf s)) (b_left (c_wbuf s)).
Definition write_buffer_len (s : ssl_conn) : Z :=
  c_max_send_fragment s + 88 + if Z.land (options (s_internal (c_ssl s))) SSL_OP_DONT_INSERT_EMPTY_FRAGMENTS =? 0 then 88 else 0.
Definition buffer_ok (s : ssl_conn) : Prop :=
  0 <= b_left (c_wbuf s) /\
  match b_buf (c_wbuf s) with
  | None => b_left (c_wbuf s) = 0
  | Some l => zlen l = b_len (c_wbuf s) /\ b_len (c_wbuf s) = write_buffer_len s /\ b_address (c_wbuf s) mod 8 = 0 /\
      (0 < b_left (c_wbuf s) -> 0 <= b_offset (c_wbuf s) /\ b_offset (c_wbuf s) + b_left (c_wbuf s) <= b_len (c_wbuf s))
  end.
(** [s'] is [s] but for the write buffer and [rwstate]. *)
Definition wrote (s s' : ssl_conn) : Prop := exists wb v, s' = s<|c_wbuf := wb|><|c_read := (c_read s)<|rwstate := v|>|>.
Lemma wrote_refl s : wrote s s.
Proof. exists (c_wbuf s), (rwstate (c_read s)). destruct s as [? ? ? ? ? ? ? ? ? ? ? [] ? ? ? ? ? ? ? ? ? ? ? ? ? ? ?]. done. Qed.
Lemma wrote_trans s s1 s2 : wrote s s1 -> wrote s1 s2 -> wrote s s2.
Proof. intros (wb & v & ->) (wb' & v' & ->). exists wb', v'. done. Qed.
Lemma pending_nil s : b_left (c_wbuf s) = 0 -> pending s = [].
Proof. intros E. unfold pending, slice. by rewrite E, ztake_nonpos. Qed.
Lemma zlen_pending s : buffer_ok s -> zlen (pending s) = b_left (c_wbuf s).
Proof.
  intros [H0' Hb]. unfold pending, slice, b_bytes. destruct (b_buf (c_wbuf s)) as [l|]; cbn [default from_option id]; [|rewrite Hb; by rewrite ztake_nonpos].
  destruct Hb as (Hl & _ & _ & Hr). destruct (decide (b_left (c_wbuf s) = 0)) as [->|]; [by rewrite ztake_nonpos|]. specialize (Hr ltac:(lia)). rewrite zlen_ztake, zlen_zdrop by lia. lia.
Qed.

(** What is pending goes to the BIO in order. *)
Lemma write_loop_spec fuel : forall s w, buffer_ok s -> c_dtls s = false -> 0 < b_left (c_wbuf s) -> b_left (c_wbuf s) <= Z.of_nat fuel -> 0 < c_wpend_ret s ->
  let '(ret, (s', w')) := write_loop fuel (s, w) in
  buffer_ok s' /\ wrote s s' /\ sent (write := wr) w' ++ pending s' = sent (write := wr) w ++ pending s /\
  if 0 <? ret then ret = c_wpend_ret s /\ b_left (c_wbuf s') = 0 /\ (refusals w' <= refusals w)%nat
  else 0 < b_left (c_wbuf s') /\ b_buf (c_wbuf s') <> None /\ (refusals w' < refusals w)%nat.
Proof.
  induction fuel as [|fuel IH]; intros s w Hok Hd Hl Hf Hret; [lia|]. cbn [write_loop]. rewrite Hwr. pose proof (zlen_pending s Hok) as Hpl. fold (pending s).
  destruct (wr (pending s) w) as [i w1] eqn:Ew. assert (Hpp : 0 < zlen (pending s)) by (by rewrite Hpl).
  destruct (sink_write _ _ _ _ Hpp Ew) as [Hpos Hneg]. pose proof (Hrefuse _ _ _ _ Hpp Ew) as Href.
  destruct Hok as [H0' Hb]. destruct (b_buf (c_wbuf s)) as [l|] eqn:Eb; [|lia]. destruct Hb as (Hlen & Hbl & Hal & Hr). specialize (Hr Hl).
  destruct (Z.eqb_spec i (b_left (c_wbuf s))) as [Ei|Hi].
  - subst i. destruct (Hpos Hl) as [_ Hsent]. rewrite ztake_ge in Hsent by lia. rewrite (proj2 (Z.ltb_lt 0 _)) in Href by lia.
    set (s1 := (set_rwstate_of SSL_WRITING s)<|c_wbuf := _|>). set (s2 := if _ && _ then ssl3_release_write_buffer s1 else s1). rewrite (proj2 (Z.ltb_lt 0 (c_wpend_ret s2))) by (unfold s2; by destruct (_ && _)).
    assert (Hw2 : wrote s (set_rwstate_of SSL_NOTHING s2)) by (unfold s2; destruct (_ && _); by eexists _, _).
    assert (Hl2 : b_left (c_wbuf s2) = 0) by (unfold s2; by destruct (_ && _)).
    split; [|split; [done|split; [|split; [unfold s2; by destruct (_ && _)|done]]]].
    + split; [change (0 <= b_left (c_wbuf s2)); lia|]. unfold s2. destruct (_ && _); [done|]. change (b_buf (c_wbuf (set_rwstate_of SSL_NOTHING s1))) with (b_buf (c_wbuf s)). rewrite Eb.
      split; [done|]. split; [done|]. split; [done|]. change (b_left (c_wbuf (set_rwstate_of SSL_NOTHING s1))) with 0. lia.
    + rewrite (pending_nil (set_rwstate_of SSL_NOTHING s2)) by done. by rewrite app_nil_r.
  - destruct (Z.leb_spec i 0) as [Hi0|Hi0].
    + rewrite (proj2 (Z.ltb_ge 0 i)) in * by done. change (c_dtls (set_rwstate_of SSL_WRITING s)) with (c_dtls s). rewrite Hd. split; [split; [done|]; cbn; rewrite Eb; done|].
      split; [by eexists _, _|]. split; [by rewrite (Hneg Hi0)|]. split; [done|]. split; [cbn; by rewrite Eb|done].
    + destruct (Hpos ltac:(lia)) as [Hile Hsent]. rewrite (proj2 (Z.ltb_lt 0 i)) in Href by lia. set (s1 := _<|c_wbuf := _|>). assert (Hilt : i < b_left (c_wbuf s)) by lia.
      assert (Hp1 : pending s = ztake i (pending s) ++ pending s1).
      { unfold pending, s1. cbn. unfold b_bytes. cbn. rewrite Eb. cbn [default from_option id]. unfold slice. rewrite ztake_ztake, Z.min_l by lia.
        rewrite <- (ztake_zdrop i (ztake (b_left (c_wbuf s)) _)) at 1. rewrite ztake_ztake, Z.min_l by lia. f_equal.
        rewrite zdrop_ztake by lia. rewrite zdrop_zdrop by lia. f_equal. }
      specialize (IH s1 w1). assert (Hok1 : buffer_ok s1) by (split; [cbn; lia|]; cbn; rewrite Eb; split_and!; try done; lia).
      specialize (IH Hok1 Hd ltac:(cbn; lia) ltac:(cbn; lia) Hret). destruct (write_loop fuel (s1, w1)) as [ret [s' w']]. destruct IH as (Hok' & Hw' & Hs' & Hend).
      split; [done|]. split; [eapply wrote_trans; [|exact Hw']; by eexists _, _|]. split; [rewrite Hs', Hsent, <- app_assoc; f_equal; symmetry; exact Hp1|].
      change (c_wpend_ret s1) with (c_wpend_ret s) in Hend. destruct (0 <? ret); destruct_and!; split_and!; try done; lia.
Qed.

(** ** Sealing *)
(** A connection that can send, in step with the reader [rlr] after [t] records. *)
Record sender (s : ssl_conn) (rlr : tls12_record_layer) (t : Z) : Prop := {
  sn_buf : buffer_ok s;
  sn_step : in_step (c_rl s) rlr t;
  sn_tls : c_dtls s = false /\ rl_dtls (c_rl s) = false /\ (Z.shiftr (s_version (c_ssl s)) 8 =? DTLS1_VERSION_MAJOR) = false;
  sn_version : rl_version (c_rl s) = s_version (c_ssl s) /\ record_version s = s_version (c_ssl s);
  sn_within : writes_within (c_rl s) SSL3_RT_SEND_MAX_ENCRYPTED_OVERHEAD;
  sn_alert : c_alert_dispatch s = false;
  sn_init : c_in_init s && negb (c_in_handshake s) = false;
  sn_frag : 0 < c_max_send_fragment s <= SSL3_RT_MAX_PLAIN_LENGTH;
  sn_partial : has_mode SSL_MODE_ENABLE_PARTIAL_WRITE s = false;
  sn_empty : c_need_empty_fragments s = true -> (Z.land (options (s_internal (c_ssl s))) SSL_OP_DONT_INSERT_EMPTY_FRAGMENTS =? 0) = true
}.
Lemma sender_wrote s s' rlr t : sender s rlr t -> wrote s s' -> buffer_ok s' -> sender s' rlr t.
Proof. intros [] (wb & v & ->) Hb. by split. Qed.
Lemma sender_wnum s rlr t v : sender s rlr t -> sender (s<|c_wnum := v|>) rlr t.
Proof. intros []. by split. Qed.
Lemma sender_done s rlr t v : sender s rlr t -> sender (s<|c_empty_fragment_done := v|>) rlr t.
Proof. intros []. by split. Qed.
Lemma sender_rwstate s rlr t v : sender s rlr t -> sender (set_rwstate_of v s) rlr t.
Proof. intros []. by split. Qed.

Lemma write_align_value wb need : b_address wb mod 8 = 0 -> write_align wb need = if need then 6 else 3.
Proof.
  intros Ha. unfold write_align, SSL3_ALIGN_PAYLOAD, SSL3_RT_HEADER_LENGTH. change (8 - 1) with (Z.ones 3). rewrite Z.land_ones by lia. change (2 ^ 3) with 8. destruct need; dlia.
Qed.
Lemma opened_pos rl recs outs rl' : opened rl recs outs rl' -> outs <> [] -> 0 < zlen (concat recs).
Proof. intros [|? rec ? ? recs' ? ? [Hp _]]; [done|]. intros _. cbn [concat]. rewrite zlen_app. pose proof (zlen_nonneg (concat recs')). lia. Qed.

(** What a call leaves behind: everything it got is sent, or it waits to be sent again with the same arguments. *)
Definition delivered (s' : ssl_conn) (w w' : W) (type : Z) (buf : app_data) (len ret : Z) : Prop :=
  if 0 <? ret then ret = len /\ b_left (c_wbuf s') = 0 /\ (refusals w' <= refusals w)%nat
  else 0 < b_left (c_wbuf s') /\ b_buf (c_wbuf s') <> None /\ (refusals w' < refusals w)%nat /\
    c_wpend_tot s' = len /\ c_wpend_ret s' = len /\ c_wpend_type s' = type /\ c_wpend_buf s' = ad_address buf.
Definition unchanged (s s' : ssl_conn) : Prop := c_ssl s' = c_ssl s /\ c_max_send_fragment s' = c_max_send_fragment s /\ c_wnum s' = c_wnum s.

Lemma write_pending_spec s w rlr t type buf len n :
  sender s rlr t -> 0 < b_left (c_wbuf s) -> 0 < len <= n ->
  c_wpend_tot s = len -> c_wpend_ret s = len -> c_wpend_type s = type -> c_wpend_buf s = ad_address buf ->
  let '(ret, (s', w')) := ssl3_write_pending type buf n (s, w) in
  sender s' rlr t /\ unchanged s s' /\ sent (write := wr) w' ++ pending s' = sent (write := wr) w ++ pending s /\ delivered s' w w' type buf len ret.
Proof.
  intros Hs Hl Hn Ht Hr Hty Hbuf. unfold ssl3_write_pending. rewrite Ht, Hbuf, Hty, !Z.eqb_refl, (proj2 (Z.ltb_ge n len)) by lia. cbn [negb andb orb].
  pose proof (write_loop_spec (Z.to_nat (b_left (c_wbuf s))) s w (sn_buf _ _ _ Hs) ltac:(apply Hs) Hl ltac:(lia) ltac:(lia)) as Hw.
  destruct (write_loop _ _) as [ret [s' w']]. destruct Hw as (Hok' & Hwr' & Hsent & Hend). split; [by eapply sender_wrote|]. pose proof Hwr' as (wb & v & ->).
  split; [done|]. split; [done|]. unfold delivered. destruct (0 <? ret); [destruct Hend as (-> & ? & ?); done|]. destruct Hend as (? & ? & ?). by split_and!.
Qed.

Context (Hmem : mem_ok).

Lemma seal_and_write_spec s w rlr t type buf len :
  sender s rlr t -> b_left (c_wbuf s) = 0 -> b_buf (c_wbuf s) <> None -> is_byte type -> Forall is_byte (ad_bytes buf) ->
  0 < len <= c_max_send_fragment s -> len <= zlen (ad_bytes buf) -> t + 2 <= max_records false ->
  let '(ret, (s', w')) := seal_and_write type buf len (s, w) in
  exists recs outs rlr' t', sender s' rlr' t' /\ t' <= t + 2 /\ opened rlr recs outs rlr' /\ concat outs = ztake len (ad_bytes buf) /\
    Forall (headed type (s_version (c_ssl s))) recs /\ unchanged s s' /\
    sent (write := wr) w' ++ pending s' = sent (write := wr) w ++ concat recs /\ delivered s' w w' type buf len ret.
Proof.
  intros Hs Hl0 Hb Hty Hbb Hlen Hlz Hmax. unfold seal_and_write. destruct (sn_version _ _ _ Hs) as [Hrv ->]. destruct (sn_tls _ _ _ Hs) as (Hd & Hrd & Hnd).
  set (need := needs_empty_fragment s type). set (wb := c_wbuf s) in *. set (version := s_version (c_ssl s)) in *.
  pose proof (sn_buf _ _ _ Hs) as [_ Hok]. fold wb in Hok. destruct (b_buf wb) as [l|] eqn:El; [|done]. destruct Hok as (Hll & Hbl & Haddr & _).
  destruct (if need then arc4random_buf w else ([], w)) as [random0 w1] eqn:E0. destruct (arc4random_buf w1) as [random w2] eqn:E1.
  assert (H0r : sent (write := wr) w1 = sent (write := wr) w /\ refusals w1 = refusals w /\ (need = true -> Forall is_byte random0 /\ 16 <= zlen random0)).
  { destruct need; [destruct (Hrandom _ _ _ E0) as (? & ? & ? & ?); done|]. by injection E0 as <- <-. }
  destruct H0r as (Hs1 & Hr1 & H0r). destruct (Hrandom _ _ _ E1) as (Hrb & Hrl & Hs2 & Hr2).
  set (align := write_align wb need). assert (Halign : align = if need then 6 else 3) by (by apply write_align_value). assert (Hal0 : 0 <= align <= 6) by (rewrite Halign; destruct need; lia).
  set (room := slice (b_bytes wb) align (b_len wb - align)). set (content := ztake len (ad_bytes buf)).
  assert (Hcl : zlen content = len) by (unfold content; zl). pose proof (sn_frag _ _ _ Hs) as Hfrag. unfold write_buffer_len in Hbl.
  assert (Hroom : zlen room = b_len wb - align).
  { unfold room, slice, b_bytes. rewrite El. cbn [default from_option id]. assert (0 <= b_len wb) by (rewrite <- Hll; apply zlen_nonneg). rewrite zlen_ztake, zlen_zdrop by (destruct (_ =? 0); lia). lia. }
  set (msg := mkMessage need random0 random type content).
  assert (Hfits : message_room false SSL3_RT_SEND_MAX_ENCRYPTED_OVERHEAD msg <= zlen room <= SIZE_MAX).
  { unfold message_room. cbn [m_empty m_content msg]. change SSL3_RT_SEND_MAX_ENCRYPTED_OVERHEAD with 80. change (header_len false) with 5. rewrite Hcl, Hroom, Halign.
    unfold SSL3_RT_MAX_PLAIN_LENGTH in Hfrag. unfold SIZE_MAX. destruct need eqn:En; [|destruct (_ =? 0); lia].
    assert (Hne : c_need_empty_fragments s = true) by (revert En; unfold need, needs_empty_fragment; destruct (c_need_empty_fragments s); [done|]; by rewrite andb_false_r).
    rewrite (sn_empty _ _ _ Hs Hne) in Hbl. lia. }
  assert (Hmsg : message_ok msg).
  { split; cbn.
    - split; [done|by apply Forall_ztake|lia|done].
    - intros En. destruct (H0r En). split; [done|constructor|unfold SSL3_RT_MAX_PLAIN_LENGTH; zl|done]. }
  pose proof (write_message_spec no_engine room version msg (c_rl s) rlr t SSL3_RT_SEND_MAX_ENCRYPTED_OVERHEAD (sn_step _ _ _ Hs) Hrv ltac:(congruence) Hmsg
    ltac:(rewrite Hrd; lia) (sn_within _ _ _ Hs) ltac:(by rewrite Hrd)) as Hwm.
  unfold write_message in Hwm. cbn [m_empty m_random0 m_random m_type m_content msg] in Hwm. change (c_rl (s<|c_wbuf := _|>)) with (c_rl s).
  destruct (do_ssl3_write_records room version need random0 random type content (c_rl s)) as [[out|] rl']; cbn [outcome] in Hwm; [|by destruct Hwm].
  destruct Hwm as (recs & rlr' & Hout & Hop & Hv' & Hd' & Hst' & Hin' & Hhead & Hol). rewrite Hrd in *.
  assert (Hop0 : 0 < zlen out) by (rewrite Hout; eapply opened_pos; [exact Hop|]; unfold received; by destruct (m_empty msg)).
  set (s1 := if need then _ else _). set (s2 := _<|c_wpend_ret := len|>).
  assert (Hw1 : c_wbuf s1 = wb<|b_offset := align|> /\ c_rl s1 = rl' /\ c_ssl s1 = c_ssl s /\ c_max_send_fragment s1 = c_max_send_fragment s /\ c_wnum s1 = c_wnum s)
    by (unfold s1; by destruct need). destruct Hw1 as (Hw1 & Hrl1 & Hssl1 & Hmsf1 & Hwn1).
  assert (Hwb2 : c_wbuf s2 = (wb<|b_offset := align|>)<|b_buf := Some (overwrite l align out)|><|b_left := zlen out|>).
  { change (c_wbuf s2) with ((c_wbuf s1)<|b_buf := (fun l => overwrite l align out) <$> b_buf (c_wbuf s1)|><|b_left := zlen out|>). rewrite Hw1.
    change (b_buf (wb<|b_offset := align|>)) with (b_buf wb). by rewrite El. }
  assert (Hlim : align + zlen out <= b_len wb) by lia.
  assert (Hover : overwrite l align out = ztake align l ++ out ++ zdrop (align + zlen out) l) by done. assert (Hta : zlen (ztake align l) = align) by zl.
  assert (Hpend : pending s2 = out).
  { unfold pending. rewrite Hwb2. unfold b_bytes. cbn [b_buf b_offset b_left default from_option id]. cbn. unfold id. rewrite Hover. unfold slice. by rewrite zdrop_app_eq, ztake_app_eq. }
  assert (Hok2 : buffer_ok s2).
  { unfold buffer_ok. rewrite Hwb2. cbn. split; [lia|]. split; [rewrite zlen_overwrite; lia|]. split; [|split; [done|lia]].
    unfold write_buffer_len. change (c_max_send_fragment s2) with (c_max_send_fragment s1). change (c_ssl s2) with (c_ssl s1). rewrite Hmsf1, Hssl1. exact Hbl. }
  assert (Hsame : c_dtls s2 = c_dtls s /\ record_version s2 = record_version s /\ c_alert_dispatch s2 = c_alert_dispatch s /\ c_in_init s2 = c_in_init s /\ c_in_handshake s2 = c_in_handshake s /\
    has_mode SSL_MODE_ENABLE_PARTIAL_WRITE s2 = has_mode SSL_MODE_ENABLE_PARTIAL_WRITE s /\ c_need_empty_fragments s2 = c_need_empty_fragments s) by (unfold s2, s1; by destruct need).
  destruct Hsame as (Hd2 & Hrv2 & Ha2 & Hi2 & Hh2 & Hp2 & Hn2).
  assert (Hs2' : sender s2 rlr' (t + zlen (received msg))).
  { destruct Hs. assert (Essl : c_ssl s2 = c_ssl s) by exact Hssl1. assert (Erl : c_rl s2 = rl') by exact Hrl1. assert (Emsf : c_max_send_fragment s2 = c_max_send_fragment s) by exact Hmsf1.
    split; rewrite ?Erl, ?Essl, ?Hd2, ?Hrv2, ?Ha2, ?Hi2, ?Hh2, ?Hp2, ?Hn2, ?Emsf; try done. by destruct sn_version0. }
  assert (Hleft2 : b_left (c_wbuf s2) = zlen out) by (by rewrite Hwb2).
  assert (Hleft2' : 0 < b_left (c_wbuf s2)) by (rewrite Hleft2; exact Hop0). assert (Hlenlen : 0 < len <= len) by lia.
  pose proof (write_pending_spec s2 w2 rlr' (t + zlen (received msg)) type buf len len Hs2' Hleft2' Hlenlen eq_refl eq_refl eq_refl eq_refl) as Hwp.
  destruct (ssl3_write_pending type buf len (s2, w2)) as [ret [s' w']]. destruct Hwp as (Hs' & (Hu1 & Hu2 & Hu3) & Hsent & Hdel). rewrite Hpend, Hs2, Hs1, Hout in Hsent.
  exists recs, (received msg), rlr', (t + zlen (received msg)). split; [done|]. assert (Hrec : 1 <= zlen (received msg) <= 2) by (unfold received, zlen; destruct (m_empty msg); cbn; lia). split; [lia|]. split; [done|].
  split; [unfold received; cbn [m_content msg]; destruct (m_empty msg); cbn; by rewrite app_nil_r|]. split; [done|].
  split; [split; [rewrite Hu1; exact Hssl1|split; [rewrite Hu2; exact Hmsf1|rewrite Hu3; exact Hwn1]]|]. split; [done|].
  unfold delivered in *. rewrite Hr2, Hr1 in Hdel. exact Hdel.
Qed.
(** ** A write that is repeated *)
(** The next piece of the data, of which [tot] bytes have been written. *)
Definition piece (s : ssl_conn) (buf : app_data) (tot : Z) : Z := Z.min (c_max_send_fragment s) (zlen (ad_bytes buf) - tot).
(** Nothing waits, or the next piece does. *)
Definition staged (s : ssl_conn) (type : Z) (buf : app_data) (tot : Z) : Prop :=
  0 <= tot < zlen (ad_bytes buf) /\ (b_left (c_wbuf s) = 0 \/
  0 < b_left (c_wbuf s) /\ b_buf (c_wbuf s) <> None /\
    c_wpend_tot s = piece s buf tot /\ c_wpend_ret s = piece s buf tot /\ c_wpend_type s = type /\ c_wpend_buf s = ad_address buf + tot).
(** How much of the data is sealed. *)
Definition covered (s : ssl_conn) (buf : app_data) (tot : Z) : Z := if b_left (c_wbuf s) =? 0 then tot else tot + piece s buf tot.
(** A run of the writer from [s, w] to [s', w'] that seals the data from [a] up to [b]. *)
Definition advances (s s' : ssl_conn) (w w' : W) (rlr rlr' : tls12_record_layer) (t t' type : Z) (buf : app_data) (a b : Z) (recs : list (list Z)) : Prop :=
  exists outs, sender s' rlr' t' /\ t' <= t + 2 * (b - a) /\ a <= b <= zlen (ad_bytes buf) /\ opened rlr recs outs rlr' /\
    concat outs = slice (ad_bytes buf) a (b - a) /\ Forall (headed type (s_version (c_ssl s))) recs /\
    c_ssl s' = c_ssl s /\ c_max_send_fragment s' = c_max_send_fragment s /\
    sent (write := wr) w' ++ pending s' = (sent (write := wr) w ++ pending s) ++ concat recs.

Lemma slice_split (d : list Z) a b c : 0 <= a <= b -> b <= c -> slice d a (b - a) ++ slice d b (c - b) = slice d a (c - a).
Proof.
  intros Ha Hc. unfold slice. rewrite <- (ztake_zdrop (b - a) (ztake (c - a) (zdrop a d))). rewrite ztake_ztake, Z.min_l by lia. f_equal.
  rewrite zdrop_ztake by lia. rewrite zdrop_zdrop by lia. f_equal; [lia|]. f_equal. lia.
Qed.
Lemma advances_trans s s1 s2 w w1 w2 rlr rlr1 rlr2 t t1 t2 type buf a b c recs1 recs2 :
  0 <= a -> advances s s1 w w1 rlr rlr1 t t1 type buf a b recs1 -> advances s1 s2 w1 w2 rlr1 rlr2 t1 t2 type buf b c recs2 ->
  advances s s2 w w2 rlr rlr2 t t2 type buf a c (recs1 ++ recs2).
Proof.
  intros Ha (o1 & _ & Ht1 & Hab & Hop1 & Ho1 & Hh1 & Hssl1 & Hm1 & Hsent1) (o2 & Hs2 & Ht2 & Hbc & Hop2 & Ho2 & Hh2 & Hssl2 & Hm2 & Hsent2).
  exists (o1 ++ o2). split; [done|]. split; [lia|]. split; [lia|]. split; [by eapply opened_app|]. rewrite !concat_app, Ho1, Ho2, slice_split by lia. split; [done|].
  rewrite Hssl1 in Hh2. split; [by apply Forall_app|]. split; [congruence|]. split; [congruence|]. rewrite Hsent2, Hsent1, <- !app_assoc. done.
Qed.

Lemma setup_write_buffer_spec s rlr t : sender s rlr t -> b_left (c_wbuf s) = 0 ->
  exists s', (match b_buf (c_wbuf s) with None => ssl3_setup_write_buffer s | Some _ => Some s end) = Some s' /\
    sender s' rlr t /\ wrote s s' /\ b_left (c_wbuf s') = 0 /\ b_buf (c_wbuf s') <> None.
Proof.
  intros Hs Hl. destruct (b_buf (c_wbuf s)) as [l|] eqn:Eb; [exists s; split_and!; try done; [apply wrote_refl|by rewrite Eb]|].
  unfold ssl3_setup_write_buffer. rewrite Eb. destruct (sn_tls _ _ _ Hs) as (-> & _). pose proof (sn_frag _ _ _ Hs) as Hf. change (SSL3_RT_HEADER_LENGTH) with 5 in *.
  change SSL3_RT_SEND_MAX_ENCRYPTED_OVERHEAD with 80. change BUFFER_ALIGN with 3.
  match goal with |- context [malloc_ok ?x] => set (len := x) end. assert (Hlen : len = write_buffer_len s) by (unfold len, write_buffer_len; destruct (_ =? 0); lia).
  assert (H0l : 0 <= len) by (rewrite Hlen; unfold write_buffer_len; destruct (_ =? 0); lia).
  assert (Hmal : malloc_ok len = true) by (apply Hmem; rewrite Hlen; unfold write_buffer_len, SSL3_RT_MAX_PLAIN_LENGTH, SIZE_MAX in *; destruct (_ =? 0); lia).
  rewrite Hmal. set (s' := s<|c_wbuf := _|>). exists s'. split; [done|].
  assert (Hw : wrote s s') by (exists (c_wbuf s'), (rwstate (c_read s)); destruct s as [? ? ? ? ? ? ? ? ? ? ? [] ? ? ? ? ? ? ? ? ? ? ? ? ? ? ?]; done).
  split; [|by split_and!]. apply (sender_wrote s); [done|done|]. unfold buffer_ok. change (b_left (c_wbuf s')) with (b_left (c_wbuf s)). rewrite Hl. split; [done|].
  cbn. change (write_buffer_len s') with (write_buffer_len s). split; [by apply zlen_zeros|]. split; [done|]. split; [apply Haligned|]. intros Hpos. lia.
Qed.

(** One piece. *)
Lemma do_write_spec s w rlr t type buf tot :
  sender s rlr t -> staged s type buf tot -> is_byte type -> Forall is_byte (ad_bytes buf) ->
  t + 2 * (zlen (ad_bytes buf) - covered s buf tot) <= max_records false ->
  let '(ret, (s', w')) := do_ssl3_write type (app_from tot buf) (piece s buf tot) (s, w) in
  exists recs rlr' t', advances s s' w w' rlr rlr' t t' type buf (covered s buf tot) (tot + piece s buf tot) recs /\ c_wnum s' = c_wnum s /\
    delivered s' w w' type (app_from tot buf) (piece s buf tot) ret.
Proof.
  intros Hs [Htot Hst] Hty Hbb Hmax. unfold do_ssl3_write, do_ssl3_write_with. set (p := piece s buf tot) in *.
  assert (Hp : 0 < p <= c_max_send_fragment s /\ p <= zlen (ad_bytes buf) - tot) by (pose proof (sn_frag _ _ _ Hs); unfold p, piece; lia). unfold covered in *.
  destruct Hst as [Hl|(Hl & Hb & Hwt & Hwr' & Hwty & Hwb)].
  - destruct (setup_write_buffer_spec s rlr t Hs Hl) as (s1 & -> & Hs1 & (wb & v & E1) & Hl1 & Hb1). rewrite Hl1. cbn [Z.eqb negb].
    rewrite (sn_alert _ _ _ Hs1). cbn [Z.leb Z.compare]. destruct (setup_write_buffer_spec s1 rlr t Hs1 Hl1) as (s2 & E & _ & _ & _ & Hb2).
    assert (s2 = s1) as -> by (destruct (b_buf (c_wbuf s1)); [by injection E|done]). rewrite E. rewrite (proj2 (Z.eqb_neq p 0)) by lia.
    rewrite Hl in Hmax. cbn [Z.eqb] in Hmax. rewrite Hl. cbn [Z.eqb].
    pose proof (seal_and_write_spec s1 w rlr t type (app_from tot buf) p Hs1 Hl1 Hb1 Hty) as Hsw. cbn [ad_bytes app_from] in Hsw.
    specialize (Hsw ltac:(by apply Forall_zdrop)). assert (Hlz : zlen (zdrop tot (ad_bytes buf)) = zlen (ad_bytes buf) - tot) by (rewrite zlen_zdrop; lia).
    assert (Em : c_max_send_fragment s1 = c_max_send_fragment s /\ c_ssl s1 = c_ssl s /\ c_wnum s1 = c_wnum s) by (by rewrite E1). destruct Em as (Em & Essl & Ewn).
    rewrite Em in Hsw. specialize (Hsw ltac:(lia) ltac:(rewrite Hlz; lia) ltac:(lia)).
    destruct (seal_and_write type (app_from tot buf) p (s1, w)) as [ret [s' w']]. destruct Hsw as (recs & outs & rlr' & t' & Hs' & Ht' & Hop & Hout & Hh & (Hu1 & Hu2 & Hu3) & Hsent & Hdel).
    exists recs, rlr', t'. split; [|split; [congruence|done]]. exists outs. split; [done|]. split; [lia|]. split; [lia|]. split; [done|].
    split; [rewrite Hout; unfold slice; by replace (tot + p - tot) with p by lia|]. rewrite Essl in Hh. split; [done|]. split; [congruence|]. split; [congruence|]. rewrite (pending_nil s), app_nil_r by done. done.
  - destruct (b_buf (c_wbuf s)) as [l|] eqn:Eb; [|done]. rewrite (proj2 (Z.eqb_neq (b_left (c_wbuf s)) 0)) by lia. cbn [negb].
    assert (Hpp : 0 < p <= p) by lia. pose proof (write_pending_spec s w rlr t type (app_from tot buf) p p Hs Hl Hpp Hwt Hwr' Hwty Hwb) as Hwp.
    destruct (ssl3_write_pending type (app_from tot buf) p (s, w)) as [ret [s' w']]. destruct Hwp as (Hs' & (Hu1 & Hu2 & Hu3) & Hsent & Hdel).
    exists [], rlr, t. split; [|done]. exists []. split; [done|]. split; [lia|]. split; [lia|]. split; [constructor|]. split; [by rewrite Z.sub_diag; unfold slice; rewrite ztake_nonpos|].
    split; [constructor|]. split; [done|]. split; [done|]. cbn [concat]. by rewrite app_nil_r.
Qed.

(** The rest of the data. *)
Lemma write_bytes_loop_spec fuel : forall s w rlr t type buf tot,
  sender s rlr t -> staged s type buf tot -> is_byte type -> Forall is_byte (ad_bytes buf) -> zlen (ad_bytes buf) - tot <= Z.of_nat fuel ->
  t + 2 * (zlen (ad_bytes buf) - covered s buf tot) <= max_records false -> c_wnum s = 0 ->
  let '(ret, (s', w')) := write_bytes_loop fuel type buf tot (zlen (ad_bytes buf) - tot) (s, w) in
  exists recs rlr' t' b, advances s s' w w' rlr rlr' t t' type buf (covered s buf tot) b recs /\
    if 0 <? ret then ret = zlen (ad_bytes buf) /\ b = zlen (ad_bytes buf) /\ b_left (c_wbuf s') = 0 /\ c_wnum s' = 0 /\ (refusals w' <= refusals w)%nat
    else staged s' type buf (c_wnum s') /\ b = covered s' buf (c_wnum s') /\ (refusals w' < refusals w)%nat.
Proof.
  induction fuel as [|fuel IH]; intros s w rlr t type buf tot Hs Hst Hty Hbb Hf Hmax Hwn; [destruct Hst; lia|]. cbn [write_bytes_loop].
  assert (Ep : (if c_max_send_fragment s <? zlen (ad_bytes buf) - tot then c_max_send_fragment s else zlen (ad_bytes buf) - tot) = piece s buf tot)
    by (unfold piece; destruct (Z.ltb_spec (c_max_send_fragment s) (zlen (ad_bytes buf) - tot)); lia). rewrite Ep.
  pose proof (do_write_spec s w rlr t type buf tot Hs Hst Hty Hbb Hmax) as Hdo.
  destruct (do_ssl3_write type (app_from tot buf) (piece s buf tot) (s, w)) as [i [s1 w1]]. destruct Hdo as (recs & rlr1 & t1 & Hadv & Hwn1 & Hdel).
  pose proof Hadv as (outs & Hs1 & Ht1 & Hab & _ & _ & _ & Hssl1 & Hm1 & _). destruct Hst as [Htot Hst].
  assert (Hp : 0 < piece s buf tot) by (pose proof (sn_frag _ _ _ Hs); unfold piece; lia).
  assert (Hpc : forall s', c_max_send_fragment s' = c_max_send_fragment s -> piece s' buf tot = piece s buf tot) by (intros s' E; unfold piece; by rewrite E).
  unfold delivered in Hdel. destruct (Z.leb_spec i 0) as [Hi|Hi].
  - rewrite (proj2 (Z.ltb_ge 0 i)) in Hdel |- * by done. destruct Hdel as (Hl & Hb & Href & Hwt & Hwr' & Hwty & Hwb).
    set (s' := s1<|c_wnum := tot|>). exists recs, rlr1, t1, (tot + piece s buf tot). split.
    + destruct Hadv as (o & _ & Hrest). exists o. split; [by apply (sender_wnum s1)|exact Hrest].
    + change (c_wnum s') with tot. unfold staged, covered. change (b_left (c_wbuf s')) with (b_left (c_wbuf s1)). rewrite (proj2 (Z.eqb_neq (b_left (c_wbuf s1)) 0)) by lia.
      rewrite (Hpc s' Hm1). split; [|done]. split; [done|]. right. done.
  - rewrite (proj2 (Z.ltb_lt 0 i)) in Hdel by done. destruct Hdel as (-> & Hl & Href).
    assert (Hpart : has_mode SSL_MODE_ENABLE_PARTIAL_WRITE s1 = false) by apply Hs1. rewrite Hpart, andb_false_r, orb_false_r.
    destruct (Z.eqb_spec (piece s buf tot) (zlen (ad_bytes buf) - tot)) as [Eq|Hne].
    + rewrite Eq in Hadv |- *. replace (tot + (zlen (ad_bytes buf) - tot)) with (zlen (ad_bytes buf)) in * by lia. rewrite (proj2 (Z.ltb_lt 0 (zlen _))) by lia.
      exists recs, rlr1, t1, (zlen (ad_bytes buf)). split; [|split_and!; try done; by rewrite <- Hwn, <- Hwn1].
      destruct Hadv as (o & _ & Hrest). exists o. split; [by apply (sender_done s1)|exact Hrest].
    + replace (zlen (ad_bytes buf) - tot - piece s buf tot) with (zlen (ad_bytes buf) - (tot + piece s buf tot)) by lia.
      assert (Hp2 : piece s buf tot < zlen (ad_bytes buf) - tot) by (unfold piece in *; lia).
      assert (Hc1 : covered s1 buf (tot + piece s buf tot) = tot + piece s buf tot) by (unfold covered; by rewrite Hl).
      assert (Hst1 : staged s1 type buf (tot + piece s buf tot)) by (split; [lia|by left]).
      specialize (IH s1 w1 rlr1 t1 type buf _ Hs1 Hst1 Hty Hbb ltac:(lia) ltac:(rewrite Hc1; lia) ltac:(congruence)).
      destruct (write_bytes_loop fuel type buf _ _ (s1, w1)) as [ret [s' w']]. destruct IH as (recs2 & rlr2 & t2 & b & Hadv2 & Hend). rewrite Hc1 in Hadv2.
      exists (recs ++ recs2), rlr2, t2, b. split; [eapply advances_trans; [|exact Hadv|exact Hadv2]; unfold covered; destruct (_ =? 0); lia|].
      destruct (0 <? ret); destruct_and!; split_and!; try done; lia.
Qed.

(** A call of [ssl3_write_bytes], the first for its data or one that continues. *)
Lemma write_bytes_spec s w rlr t type buf :
  sender s rlr t -> staged s type buf (c_wnum s) -> is_byte type -> Forall is_byte (ad_bytes buf) ->
  t + 2 * (zlen (ad_bytes buf) - covered s buf (c_wnum s)) <= max_records false ->
  let '(ret, (s', w')) := ssl3_write_bytes type buf (zlen (ad_bytes buf)) (s, w) in
  exists recs rlr' t' b, advances s s' w w' rlr rlr' t t' type buf (covered s buf (c_wnum s)) b recs /\
    if 0 <? ret then ret = zlen (ad_bytes buf) /\ b = zlen (ad_bytes buf) /\ b_left (c_wbuf s') = 0 /\ c_wnum s' = 0 /\ (refusals w' <= refusals w)%nat
    else staged s' type buf (c_wnum s') /\ b = covered s' buf (c_wnum s') /\ (refusals w' < refusals w)%nat.
Proof.
  intros Hs Hst Hty Hbb Hmax. unfold ssl3_write_bytes. pose proof (zlen_nonneg (ad_bytes buf)). rewrite (proj2 (Z.ltb_ge (zlen (ad_bytes buf)) 0)) by lia.
  set (s1 := (set_rwstate_of SSL_NOTHING s)<|c_wnum := 0|>). change (c_in_init s1 && negb (c_in_handshake s1)) with (c_in_init s && negb (c_in_handshake s)). rewrite (sn_init _ _ _ Hs).
  cbn [Z.ltb Z.eqb Z.compare]. change (c_wnum (set_rwstate_of SSL_NOTHING s)) with (c_wnum s). destruct Hst as [Htot Hst]. rewrite (proj2 (Z.ltb_ge (zlen (ad_bytes buf)) (c_wnum s))) by lia.
  apply (write_bytes_loop_spec _ s1 w rlr t type buf (c_wnum s)); try done; [by apply sender_wnum, sender_rwstate|lia].
Qed.

(** The application repeats the call, with the same arguments, until it succeeds. *)
Fixpoint write_until (n : nat) (type : Z) (buf : app_data) (len : Z) : State (ssl_conn * W) Z := fun '(s, w) =>
  match n with
  | O => (-1, (s, w))
  | S n => let '(ret, (s, w)) := ssl3_write_bytes type buf len (s, w) in if 0 <? ret then (ret, (s, w)) else write_until n type buf len (s, w)
  end.
Lemma write_until_spec n : forall s w rlr t type buf,
  sender s rlr t -> staged s type buf (c_wnum s) -> is_byte type -> Forall is_byte (ad_bytes buf) ->
  t + 2 * (zlen (ad_bytes buf) - covered s buf (c_wnum s)) <= max_records false -> (refusals w < n)%nat ->
  let '(ret, (s', w')) := write_until n type buf (zlen (ad_bytes buf)) (s, w) in
  ret = zlen (ad_bytes buf) /\ b_left (c_wbuf s') = 0 /\ c_wnum s' = 0 /\
  exists recs rlr' t', advances s s' w w' rlr rlr' t t' type buf (covered s buf (c_wnum s)) (zlen (ad_bytes buf)) recs.
Proof.
  induction n as [|n IH]; intros s w rlr t type buf Hs Hst Hty Hbb Hmax Hn; [lia|]. cbn [write_until].
  pose proof (write_bytes_spec s w rlr t type buf Hs Hst Hty Hbb Hmax) as Hw. destruct (ssl3_write_bytes _ _ _ (s, w)) as [ret [s1 w1]].
  destruct Hw as (recs & rlr1 & t1 & b & Hadv & Hend). destruct (0 <? ret); [destruct Hend as (-> & -> & ? & ? & _); split_and!; try done; by exists recs, rlr1, t1|].
  destruct Hend as (Hst1 & -> & Href). pose proof Hadv as (outs & Hs1 & Ht1 & Hc & _).
  specialize (IH s1 w1 rlr1 t1 type buf Hs1 Hst1 Hty Hbb ltac:(lia) ltac:(lia)). destruct (write_until n _ _ _ (s1, w1)) as [r [s' w']].
  destruct IH as (-> & Hl & Hwn & recs2 & rlr2 & t2 & Hadv2). split_and!; try done. exists (recs ++ recs2), rlr2, t2.
  eapply advances_trans; [|exact Hadv|exact Hadv2]. destruct Hst as [Htot _]. pose proof (sn_frag _ _ _ Hs). unfold covered, piece. destruct (_ =? 0); lia.
Qed.

(** C21: writing makes progress, and loses and repeats nothing. A BIO may take any part of what it is given, or refuse to take anything; when [refusals]
    bounds how often it refuses, an application that repeats [ssl3_write_bytes] with the same arguments has all of its data written after that many
    repetitions: the call returns the length of the data, nothing is pending, and what the BIO got is a sequence of records, each with the type and
    version of the connection in its header, that the peer opens to contents whose concatenation is the data. The connection can go on sending. *)
Theorem ssl3_write_completes s w rlr t type buf :
  sender s rlr t -> b_left (c_wbuf s) = 0 -> c_wnum s = 0 -> is_byte type -> Forall is_byte (ad_bytes buf) -> 0 < zlen (ad_bytes buf) ->
  t + 2 * zlen (ad_bytes buf) <= max_records false ->
  let '(ret, (s', w')) := write_until (S (refusals w)) type buf (zlen (ad_bytes buf)) (s, w) in
  ret = zlen (ad_bytes buf) /\ b_left (c_wbuf s') = 0 /\ c_wnum s' = 0 /\
  exists recs outs rlr' t', sender s' rlr' t' /\ sent (write := wr) w' = sent (write := wr) w ++ concat recs /\
    read_records (length (concat recs)) (concat recs) rlr = (Some outs, rlr') /\ concat outs = ad_bytes buf /\
    Forall (headed type (s_version (c_ssl s))) recs.
Proof.
  intros Hs Hl Hwn Hty Hbb Hpos Hmax. assert (Hc : covered s buf (c_wnum s) = 0) by (unfold covered; by rewrite Hl, Hwn).
  assert (Hst : staged s type buf (c_wnum s)) by (split; [lia|by left]).
  pose proof (write_until_spec (S (refusals w)) s w rlr t type buf Hs Hst Hty Hbb ltac:(lia) ltac:(lia)) as Hw.
  destruct (write_until _ _ _ _ (s, w)) as [ret [s' w']]. destruct Hw as (-> & Hl' & Hwn' & recs & rlr' & t' & outs & Hs' & _ & _ & Hop & Hout & Hh & _ & _ & Hsent).
  split_and!; try done. exists recs, outs, rlr', t'. rewrite Hc in Hout. rewrite (pending_nil s), (pending_nil s') in Hsent by done. rewrite !app_nil_r in Hsent.
  split; [done|]. split; [done|]. split; [by destruct (read_records_opened _ _ _ _ _ Hop (opened_count _ _ _ _ Hop)) as [->|[_ Hm]]|].
  split; [|done]. rewrite Hout. unfold slice. by rewrite Z.sub_0_r, zdrop_nonpos, ztake_ge by lia.
Qed.
End Write.

(** ** A concrete run *)
#[local] Existing Instance toy_aead.
#[local] Existing Instance toy_aead12.
#[local] Existing Instance toy_aead12_laws.
#[local] Existing Instance toy_ciphers.
#[local] Existing Instance toy_cipher_laws.
#[local] Existing Instance mac_engines.
#[local] Existing Instance hmac_macs.
#[local] Existing Instance hmac_mac_laws.
#[local] Existing Instance no_others.
#[local] Existing Instance ample.
#[local] Instance example_heap : Heap := {| calloc_address _ := 1024; send_alert_address := 64; alert_copy_address := 80 |}.

(** A BIO with a script: how much it takes each time, where 0 and below is a refusal; when the script is over, it takes everything. *)
Record script := mkScript { sc_sent : list Z; sc_plan : list Z }.
Definition script_write : write_cb script := fun bs w =>
  match sc_plan w with
  | [] => (zlen bs, mkScript (sc_sent w ++ bs) [])
  | n :: plan => if n <=? 0 then (-1, mkScript (sc_sent w) plan) else (Z.min n (zlen bs), mkScript (sc_sent w ++ ztake n bs) plan)
  end.
Definition script_refusals (w : script) : nat := length (filter (fun n => n <= 0) (sc_plan w)).
#[local] Instance script_sink : Sink script_write.
Proof.
  refine {| sent := sc_sent |}. intros bs w ret w' Hpos Hw. unfold script_write in Hw. destruct (sc_plan w) as [|n plan].
  - injection Hw as <- <-. split; [|lia]. intros _. by rewrite ztake_ge.
  - destruct (Z.leb_spec n 0); injection Hw as <- <-; [done|]. split; [|lia]. intros _. split; [lia|]. cbn. f_equal. destruct (decide (n <= zlen bs)); [by rewrite Z.min_l|].
    by rewrite Z.min_r, !ztake_ge by lia.
Defined.
#[local] Instance script_transport : Transport script := {|
  rbio_read := None;
  wbio_write := Some script_write;
  arc4random_buf w := (zeros 16, w);
  handshake_func st := (1, st);
  tls1_transcript_record _ w := w
|}.
Lemma script_wbio : wbio_write (W := script) = Some script_write.
Proof. reflexivity. Qed.
Lemma script_refuses bs w ret w' : 0 < zlen bs -> script_write bs w = (ret, w') -> if 0 <? ret then (script_refusals w' <= script_refusals w)%nat else (script_refusals w' < script_refusals w)%nat.
Proof.
  intros Hpos Hw. unfold script_write, script_refusals in *. destruct (sc_plan w) as [|n plan] eqn:Ep.
  - injection Hw as <- <-. by rewrite (proj2 (Z.ltb_lt _ _) Hpos).
  - rewrite filter_cons. destruct (Z.leb_spec n 0); injection Hw as <- <-.
    + rewrite decide_True by done. cbn. lia.
    + rewrite decide_False by lia. by rewrite (proj2 (Z.ltb_lt _ _)) by lia.
Qed.

Definition writer_layer : tls12_record_layer := snd (tls12_record_layer_change_write_cipher_state example_mac_key [7] example_iv example_layer).
Definition reader_layer : tls12_record_layer := snd (tls12_record_layer_change_read_cipher_state example_mac_key [7] example_iv example_layer).
Definition example_ssl : SSL := mkSSL TLS_method_data (mkSettings 0 TLS1_VERSION TLS1_VERSION 0 0) TLS1_VERSION TLS1_VERSION TLS1_VERSION TLS1_VERSION TLS1_VERSION [].
(** A client of TLSv1.0 whose handshake is done, with fragments of at most 3 bytes. *)
Definition example_conn : ssl_conn :=
  mkConn example_ssl writer_layer false true false false 0 false 0 false 3 (mkReadState no_buffer 0 0 SSL_NOTHING) 0 false false 0 blank_record
    no_buffer 0 0 0 0 0 true false false [].
Definition example_script : script := mkScript [] [0; 20; -1; 40; 7; 0; 0; 100].
Definition example_data : app_data := mkApp 4096 [10; 20; 30; 40; 50; 60; 70].
Lemma example_sender : sender example_conn reader_layer 0.
Proof.
  assert (Hin : in_step writer_layer reader_layer 0).
  { apply (keys_in_step example_layer example_layer example_mac_key [7] example_iv).
    - by split.
    - cbn. lia.
    - right. exists tt, sha256_md. split_and!; first [done|exact example_key_checkable].
    - apply Forall_zeros.
    - reflexivity.
    - reflexivity. }
  split; try done.
  intros w Hw. apply (inj Some) in Hw. subst w. split; [done|intros a [=]|].
  intros cbc ivl bs m k e d (-> & -> & -> & _) [_ _ (hc & Hhc & Hsi) _ _]. apply (inj Some) in Hhc. subst hc. cbn in Hsi.
  assert (m = sha256_md) as -> by (unfold mac_ctx in Hsi; by injection Hsi). vm_compute. discriminate.
Qed.
Lemma example_random w r w' : arc4random_buf (W := script) w = (r, w') ->
  Forall is_byte r /\ 16 <= zlen r /\ sent (write := script_write) w' = sent (write := script_write) w /\ script_refusals w' = script_refusals w.
Proof. intros Hr. injection Hr as <- <-. split; [apply Forall_zeros|]. done. Qed.
Lemma ssl3_write_completes_witness :
  script_refusals example_script = 4%nat /\
  let '(ret, (s', w')) := write_until (S (script_refusals example_script)) SSL3_RT_APPLICATION_DATA example_data (zlen (ad_bytes example_data)) (example_conn, example_script) in
  ret = zlen (ad_bytes example_data) /\ b_left (c_wbuf s') = 0 /\ c_wnum s' = 0 /\
  exists recs outs rlr' t', sender s' rlr' t' /\ sent (write := script_write) w' = sent (write := script_write) example_script ++ concat recs /\
    read_records (length (concat recs)) (concat recs) reader_layer = (Some outs, rlr') /\ concat outs = ad_bytes example_data /\
    Forall (headed SSL3_RT_APPLICATION_DATA (s_version (c_ssl example_conn))) recs.
Proof.
  split; [reflexivity|].
  refine (ssl3_write_completes no_mac_engine script_write script_wbio script_refusals script_refuses example_random (fun _ => eq_refl) (fun _ _ => eq_refl)
            example_conn example_script reader_layer 0 SSL3_RT_APPLICATION_DATA example_data example_sender eq_refl eq_refl _ _ _ _).
  - unfold is_byte, SSL3_RT_APPLICATION_DATA. lia.
  - repeat constructor; cbn; lia.
  - reflexivity.
  - vm_compute. discriminate.
Defined.
