(* ===== verification/BnWord.v ===== *)
(** * Words and arrays of words (crypto/bn/bn_asm.c, the macros of bn_lcl.h)

    The portable routines under the big numbers, as they are compiled for 64-bit words without assembler: there is no type of 128 bits, so products and
    quotients are put together from halves of 32 bits (BN_LLONG, BN_UMULT_HIGH, BN_UMULT_LOHI and BN_DIV2W are off). A routine gets the words that its pointers point to, in order, and gives the
    words it writes. All of them read a place before they write it and go upwards, so an output may also be the array of an input. *)
From S2P Require Import Prelude Words.

Definition BN_BITS2 : Z := 64.
Definition BN_BITS4 : Z := 32.
Definition BN_BYTES : Z := 8.
Definition BN_MASK2 : Z := 0xffffffffffffffff.
Definition BN_MASK2l : Z := 0xffffffff.
Definition BN_MASK2h : Z := 0xffffffff00000000.
Definition BN_MASK2h1 : Z := 0xffffffff80000000.
Definition BN_TBIT : Z := 0x8000000000000000.

Definition LBITS (a : Z) : Z := Z.land a BN_MASK2l.
Definition HBITS (a : Z) : Z := Z.land (Z.shiftr a BN_BITS4) BN_MASK2l.
Definition L2HBITS (a : Z) : Z := Z.land (wrap64 (Z.shiftl a BN_BITS4)) BN_MASK2.
Definition bit (b : bool) : Z := if b then 1 else 0.

(** [(l, h)] times [(bl, bh)], all of them halves. *)
Definition mul64 (l h bl bh : Z) : Z * Z :=
  let lt := l in
  let ht := h in
  let m := wrap64 (bh * lt) in
  let lt := wrap64 (bl * lt) in
  let m1 := wrap64 (bl * ht) in
  let ht := wrap64 (bh * ht) in
  let m := Z.land (wrap64 (m + m1)) BN_MASK2 in
  let ht := if m <? m1 then wrap64 (ht + L2HBITS 1) else ht in
  let ht := wrap64 (ht + HBITS m) in
  let m1 := L2HBITS m in
  let lt := Z.land (wrap64 (lt + m1)) BN_MASK2 in
  let ht := if lt <? m1 then wrap64 (ht + 1) else ht in
  (lt, ht).
Definition sqr64 (a : Z) : Z * Z :=
  let h := a in
  let l := LBITS h in
  let h := HBITS h in
  let m := wrap64 (l * h) in
  let l := wrap64 (l * l) in
  let h := wrap64 (h * h) in
  let h := wrap64 (h + Z.shiftr (Z.land m BN_MASK2h1) (BN_BITS4 - 1)) in
  let m := wrap64 (Z.shiftl (Z.land m BN_MASK2l) (BN_BITS4 + 1)) in
  let l := Z.land (wrap64 (l + m)) BN_MASK2 in
  let h := if l <? m then wrap64 (h + 1) else h in
  (l, h).
(** [mul_add(r, a, bl, bh, c)]: the new [r] and [c]. *)
Definition mul_add (r a bl bh c : Z) : Z * Z :=
  let h := a in
  let l := LBITS h in
  let h := HBITS h in
  let '(l, h) := mul64 l h bl bh in
  let l := Z.land (wrap64 (l + c)) BN_MASK2 in
  let h := if l <? c then wrap64 (h + 1) else h in
  let c := r in
  let l := Z.land (wrap64 (l + c)) BN_MASK2 in
  let h := if l <? c then wrap64 (h + 1) else h in
  (l, Z.land h BN_MASK2).
Definition mul (a bl bh c : Z) : Z * Z :=
  let h := a in
  let l := LBITS h in
  let h := HBITS h in
  let '(l, h) := mul64 l h bl bh in
  let l := wrap64 (l + c) in
  let h := if Z.land l BN_MASK2 <? c then wrap64 (h + 1) else h in
  (Z.land l BN_MASK2, Z.land h BN_MASK2).

(** ** Arrays *)
(** The loop of these routines: four words at a time while there are four, then one at a time. *)
Fixpoint word_loop (step : Z -> Z -> Z -> Z * Z) (xs ys : list Z) (c : Z) : list Z * Z :=
  match xs, ys with
  | x :: xs, y :: ys => let '(r, c) := step x y c in let '(rs, c) := word_loop step xs ys c in (r :: rs, c)
  | _, _ => ([], c)
  end.
Fixpoint word_loop4 (step : Z -> Z -> Z -> Z * Z) (xs ys : list Z) (c : Z) : list Z * Z :=
  match xs, ys with
  | x0 :: x1 :: x2 :: x3 :: xs, y0 :: y1 :: y2 :: y3 :: ys =>
      let '(r0, c) := step x0 y0 c in
      let '(r1, c) := step x1 y1 c in
      let '(r2, c) := step x2 y2 c in
      let '(r3, c) := step x3 y3 c in
      let '(rs, c) := word_loop4 step xs ys c in
      (r0 :: r1 :: r2 :: r3 :: rs, c)
  | _, _ => word_loop step xs ys c
  end.
Definition bn_mul_add_words (rp ap : list Z) (num w : Z) : list Z * Z :=
  if num <=? 0 then ([], 0)
  else
  let bl := LBITS w in
  let bh := HBITS w in
  word_loop4 (fun r a c => mul_add r a bl bh c) (ztake num rp) (ztake num ap) 0.
Definition bn_mul_words (ap : list Z) (num w : Z) : list Z * Z :=
  if num <=? 0 then ([], 0)
  else
  let bl := LBITS w in
  let bh := HBITS w in
  word_loop4 (fun _ a c => mul a bl bh c) (ztake num ap) (ztake num ap) 0.
Fixpoint sqr_loop (a : list Z) : list Z :=
  match a with [] => [] | x :: a => let '(l, h) := sqr64 x in l :: h :: sqr_loop a end.
Fixpoint sqr_loop4 (a : list Z) : list Z :=
  match a with
  | a0 :: a1 :: a2 :: a3 :: a =>
      let '(r0, r1) := sqr64 a0 in
      let '(r2, r3) := sqr64 a1 in
      let '(r4, r5) := sqr64 a2 in
      let '(r6, r7) := sqr64 a3 in
      r0 :: r1 :: r2 :: r3 :: r4 :: r5 :: r6 :: r7 :: sqr_loop4 a
  | _ => sqr_loop a
  end.
Definition bn_sqr_words (a : list Z) (n : Z) : list Z := if n <=? 0 then [] else sqr_loop4 (ztake n a).
Definition add_step (a b c : Z) : Z * Z :=
  let t := a in
  let t := Z.land (wrap64 (t + c)) BN_MASK2 in
  let c := bit (t <? c) in
  let l := Z.land (wrap64 (t + b)) BN_MASK2 in
  let c := c + bit (l <? t) in
  (l, c).
Definition bn_add_words (a b : list Z) (n : Z) : list Z * Z :=
  if n <=? 0 then ([], 0) else word_loop4 add_step (ztake n a) (ztake n b) 0.
Definition sub_step (t1 t2 c : Z) : Z * Z :=
  let r := Z.land (wrap64 (t1 - t2 - c)) BN_MASK2 in
  (r, if negb (t1 =? t2) then bit (t1 <? t2) else c).
Definition bn_sub_words (a b : list Z) (n : Z) : list Z * Z :=
  if n <=? 0 then ([], 0) else word_loop4 sub_step (ztake n a) (ztake n b) 0.

(** ** Division of two words by one *)
(** [floor(log2(l)) + 1], without branches: six rounds with shifts of 32 down to 1. *)
Fixpoint num_bits_loop (rounds : nat) (shift bits l : Z) : Z :=
  match rounds with
  | O => bits
  | S rounds =>
      let x := Z.shiftr l shift in
      let mask := wrap64 (Z.shiftr (Z.land (wrap64 (Z.lnot x)) (wrap64 (x - 1))) (BN_BITS2 - 1) - 1) in
      num_bits_loop rounds (shift / 2) (bits + Z.land shift mask) (Z.lxor l (Z.land (Z.lxor x l) mask))
  end.
Definition BN_num_bits_word (l : Z) : Z := num_bits_loop 6 BN_BITS4 (bit (negb (l =? 0))) l.

(** The inner [for (;;)]: the estimate [q] is lowered until it fits. *)
Fixpoint div_adjust (fuel : nat) (h l dh dl q th tl : Z) : Z * Z * Z :=
  let t := wrap64 (h - th) in
  if negb (Z.land t BN_MASK2h =? 0) || (tl <=? Z.lor (wrap64 (Z.shiftl t BN_BITS4)) (Z.shiftr (Z.land l BN_MASK2h) BN_BITS4)) then (q, th, tl)
  else
  match fuel with O => (q, th, tl) | S fuel => div_adjust fuel h l dh dl (wrap64 (q - 1)) (wrap64 (th - dh)) (wrap64 (tl - dl)) end.
(** One digit of 32 bits: the digit and what is left of [h] and [l]. *)
Definition div_digit (h l d dh dl : Z) : Z * Z * Z :=
  let q := if Z.shiftr h BN_BITS4 =? dh then BN_MASK2l else h / dh in
  let '(q, th, tl) := div_adjust 3 h l dh dl q (wrap64 (q * dh)) (wrap64 (dl * q)) in
  let t := Z.shiftr tl BN_BITS4 in
  let tl := Z.land (wrap64 (Z.shiftl tl BN_BITS4)) BN_MASK2h in
  let th := wrap64 (th + t) in
  let th := if l <? tl then wrap64 (th + 1) else th in
  let l := wrap64 (l - tl) in
  let '(h, q) := if h <? th then (wrap64 (h + d), wrap64 (q - 1)) else (h, q) in
  (q, wrap64 (h - th), l).
Definition bn_div_words (h l d : Z) : Z :=
  if d =? 0 then BN_MASK2
  else
  let i := BN_num_bits_word d in
  let i := BN_BITS2 - i in
  let h := if d <=? h then wrap64 (h - d) else h in
  let '(d, h, l) := if negb (i =? 0)
                    then (wrap64 (Z.shiftl d i), Z.lor (wrap64 (Z.shiftl h i)) (Z.shiftr l (BN_BITS2 - i)), wrap64 (Z.shiftl l i))
                    else (d, h, l) in
  let dh := Z.shiftr (Z.land d BN_MASK2h) BN_BITS4 in
  let dl := Z.land d BN_MASK2l in
  let '(q, h, l) := div_digit h l d dh dl in
  let ret := wrap64 (Z.shiftl q BN_BITS4) in
  let h := Z.land (Z.lor (wrap64 (Z.shiftl h BN_BITS4)) (Z.shiftr l BN_BITS4)) BN_MASK2 in
  let l := wrap64 (Z.shiftl (Z.land l BN_MASK2l) BN_BITS4) in
  let '(q, _, _) := div_digit h l d dh dl in
  Z.lor ret q.
Example div1 : bn_div_words 5 7 9 = (5 * 2 ^ 64 + 7) / 9.
Proof. vm_compute. reflexivity. Qed.
Example div2 : bn_div_words (2 ^ 63) (2 ^ 64 - 1) (2 ^ 63 + 1) = (2 ^ 63 * 2 ^ 64 + 2 ^ 64 - 1) / (2 ^ 63 + 1).
Proof. vm_compute. reflexivity. Qed.
Example bits1 : BN_num_bits_word (2 ^ 63) = 64 /\ BN_num_bits_word 1 = 1 /\ BN_num_bits_word 0 = 0 /\ BN_num_bits_word 1000 = 10.
Proof. vm_compute. done. Qed.

(** ** What the operations compute *)
Definition is_word (w : Z) : Prop := 0 <= w < 2 ^ 64.
Definition bn_val (l : list Z) : Z := fold_right (fun w acc => w + 2 ^ 64 * acc) 0 l.

Lemma land_MASK2 a : is_word a -> Z.land a BN_MASK2 = a.
Proof. intros Ha. change BN_MASK2 with (2 ^ 64 - 1). rewrite land_mask by lia. by apply Z.mod_small. Qed.
Lemma wrap64_word a : is_word (wrap64 a).
Proof. unfold wrap64, is_word. apply Z.mod_pos_bound. lia. Qed.
Lemma wrap64_id a : is_word a -> wrap64 a = a.
Proof. intros Ha. unfold wrap64. by apply Z.mod_small. Qed.
Lemma LBITS_mod a : LBITS a = a mod 2 ^ 32.
Proof. unfold LBITS. change BN_MASK2l with (2 ^ 32 - 1). by apply land_mask. Qed.
Lemma HBITS_div a : is_word a -> HBITS a = a / 2 ^ 32.
Proof.
  intros Ha. unfold HBITS. change BN_MASK2l with (2 ^ 32 - 1). rewrite land_mask, Z.shiftr_div_pow2 by done. apply Z.mod_small. unfold is_word, BN_BITS4 in *. dlia.
Qed.
Lemma L2HBITS_mod a : L2HBITS a = 2 ^ 32 * (a mod 2 ^ 32).
Proof. unfold L2HBITS. rewrite land_MASK2 by apply wrap64_word. unfold wrap64, BN_BITS4. rewrite Z.shiftl_mul_pow2 by lia. dlia. Qed.
Lemma mask_id x : Z.land (wrap64 x) BN_MASK2 = wrap64 x.
Proof. apply land_MASK2, wrap64_word. Qed.
(** [unwrap]: drop the wrap-around of sums that fit, from the inside. *)
Ltac unwrap :=
  repeat match goal with
  | |- context [wrap64 ?x] => lazymatch x with context [wrap64 _] => fail | _ => rewrite (wrap64_id x) by (unfold is_word; lia) end
  end.
(** Addition of words: the sum and whether it is below one of the terms. *)
Lemma add_carry a b : is_word a -> is_word b -> wrap64 (a + b) + 2 ^ 64 * bit (wrap64 (a + b) <? b) = a + b.
Proof. unfold is_word, wrap64, bit. intros Ha Hb. destruct (Z.ltb_spec ((a + b) mod 2 ^ 64) b); dlia. Qed.

Definition is_half (a : Z) : Prop := 0 <= a < 2 ^ 32.
Lemma half_prod a b : is_half a -> is_half b -> 0 <= a * b <= (2 ^ 32 - 1) * (2 ^ 32 - 1).
Proof. unfold is_half. nia. Qed.
Lemma half_prod_wrap a b : is_half a -> is_half b -> wrap64 (a * b) = a * b.
Proof. intros Ha Hb. apply wrap64_id. unfold is_word. pose proof (half_prod a b Ha Hb). lia. Qed.
Lemma halves a : is_word a -> is_half (LBITS a) /\ is_half (HBITS a) /\ a = LBITS a + 2 ^ 32 * HBITS a.
Proof. intros Ha. rewrite LBITS_mod, HBITS_div by done. unfold is_word, is_half in *. dlia. Qed.

Lemma mul64_spec l h bl bh : is_half l -> is_half h -> is_half bl -> is_half bh ->
  let '(lo, hi) := mul64 l h bl bh in is_word lo /\ is_word hi /\ lo + 2 ^ 64 * hi = (l + 2 ^ 32 * h) * (bl + 2 ^ 32 * bh).
Proof.
  intros Hl Hh Hbl Hbh. unfold mul64. rewrite !half_prod_wrap by done. rewrite !mask_id, !L2HBITS_mod.
  pose proof (half_prod bh l Hbh Hl) as H1. pose proof (half_prod bl l Hbl Hl) as H2. pose proof (half_prod bl h Hbl Hh) as H3. pose proof (half_prod bh h Hbh Hh) as H4.
  replace ((l + 2 ^ 32 * h) * (bl + 2 ^ 32 * bh)) with (bl * l + 2 ^ 32 * (bh * l + bl * h) + 2 ^ 64 * (bh * h)) by ring.
  set (m := bh * l) in *. set (m1 := bl * h) in *. set (lt := bl * l) in *. set (ht := bh * h) in *. clearbody m m1 lt ht. clear Hl Hh Hbl Hbh.
  rewrite HBITS_div by apply wrap64_word. change (2 ^ 32 * (1 mod 2 ^ 32)) with (2 ^ 32).
  pose proof (add_carry m m1 ltac:(unfold is_word; lia) ltac:(unfold is_word; lia)) as Hm. set (s := wrap64 (m + m1)) in *.
  assert (Hs : is_word s) by apply wrap64_word. clearbody s.
  set (lo := 2 ^ 32 * (s mod 2 ^ 32)). assert (Hlo : is_word lo) by (unfold lo, is_word; pose proof (Z.mod_pos_bound s (2 ^ 32) ltac:(lia)); lia).
  pose proof (add_carry lt lo ltac:(unfold is_word; lia) Hlo) as Ht. set (u := wrap64 (lt + lo)) in *. assert (Hu : is_word u) by apply wrap64_word. clearbody u.
  assert (Es : s = s / 2 ^ 32 * 2 ^ 32 + s mod 2 ^ 32) by dlia. unfold is_word in *. set (sh := s / 2 ^ 32) in *. assert (0 <= sh < 2 ^ 32) by (unfold sh; dlia).
  set (sl := s mod 2 ^ 32) in *. clearbody sh sl. subst lo.
  destruct (s <? m1), (u <? 2 ^ 32 * sl); unfold bit in *; unwrap; lia.
Qed.
Lemma sqr64_spec a : is_word a -> let '(lo, hi) := sqr64 a in is_word lo /\ is_word hi /\ lo + 2 ^ 64 * hi = a * a.
Proof.
  intros Ha. unfold sqr64. destruct (halves a Ha) as (Hl & Hh & E). set (l := LBITS a) in *. set (h := HBITS a) in *. clearbody l h. subst a.
  rewrite !half_prod_wrap by done. rewrite !mask_id. pose proof (half_prod l h Hl Hh) as H1. pose proof (half_prod l l Hl Hl) as H2. pose proof (half_prod h h Hh Hh) as H3.
  replace ((l + 2 ^ 32 * h) * (l + 2 ^ 32 * h)) with (l * l + 2 ^ 33 * (l * h) + 2 ^ 64 * (h * h)) by ring.
  set (m := l * h) in *. set (ll := l * l) in *. set (hh := h * h) in *. clearbody m ll hh. clear Hl Hh.
  assert (Em : Z.shiftr (Z.land m BN_MASK2h1) (BN_BITS4 - 1) = m / 2 ^ 31).
  { change BN_MASK2h1 with (Z.shiftl (Z.ones 33) 31). change (BN_BITS4 - 1) with 31. rewrite Z.shiftr_land, Z.shiftr_shiftl_l, Z.sub_diag, Z.shiftl_0_r, Z.land_ones, Z.shiftr_div_pow2 by lia. dlia. }
  rewrite Em. change BN_MASK2l with (2 ^ 32 - 1). rewrite land_mask by lia. change (BN_BITS4 + 1) with 33. rewrite Z.shiftl_mul_pow2 by lia.
  set (w := wrap64 (m mod 2 ^ 32 * 2 ^ 33)). assert (Ew : w = m mod 2 ^ 31 * 2 ^ 33) by (unfold w, wrap64; dlia). rewrite Ew. clearbody w. clear Ew w.
  assert (Es : m = m / 2 ^ 31 * 2 ^ 31 + m mod 2 ^ 31) by dlia. set (mh := m / 2 ^ 31) in *. assert (0 <= mh < 2 ^ 33) by (unfold mh; dlia). assert (0 <= m mod 2 ^ 31 < 2 ^ 31) by dlia.
  set (ml := m mod 2 ^ 31) in *. clearbody mh ml. subst m.
  pose proof (add_carry ll (ml * 2 ^ 33) ltac:(unfold is_word; lia) ltac:(unfold is_word; lia)) as Ht. set (u := wrap64 (ll + ml * 2 ^ 33)) in *. assert (Hu : is_word u) by apply wrap64_word. clearbody u. unfold is_word in *.
  destruct (u <? ml * 2 ^ 33); unfold bit in *; unwrap; lia.
Qed.

Lemma word_prod a b : is_word a -> is_word b -> 0 <= a * b <= (2 ^ 64 - 1) * (2 ^ 64 - 1).
Proof. unfold is_word. nia. Qed.
Lemma mul64_word a w : is_word a -> is_word w ->
  let '(lo, hi) := mul64 (LBITS a) (HBITS a) (LBITS w) (HBITS w) in is_word lo /\ is_word hi /\ lo + 2 ^ 64 * hi = a * w.
Proof.
  intros Ha Hw. destruct (halves a Ha) as (? & ? & Ea). destruct (halves w Hw) as (? & ? & Ew).
  pose proof (mul64_spec (LBITS a) (HBITS a) (LBITS w) (HBITS w)) as Hm. destruct (mul64 _ _ _ _) as [lo hi].
  replace (a * w) with ((LBITS a + 2 ^ 32 * HBITS a) * (LBITS w + 2 ^ 32 * HBITS w)) by (by rewrite <- Ea, <- Ew). by apply Hm.
Qed.
Lemma mul_add_spec r a w c : is_word r -> is_word a -> is_word w -> is_word c ->
  let '(r', c') := mul_add r a (LBITS w) (HBITS w) c in is_word r' /\ is_word c' /\ r' + 2 ^ 64 * c' = r + w * a + c.
Proof.
  intros Hr Ha Hw Hc. unfold mul_add. pose proof (mul64_word a w Ha Hw) as Hm. destruct (mul64 _ _ _ _) as [l h]. destruct Hm as (Hl & Hh & E).
  rewrite !mask_id. pose proof (word_prod a w Ha Hw). rewrite (Z.mul_comm w a), <- E in *. pose proof (add_carry l c Hl Hc) as E1. set (l1 := wrap64 (l + c)) in *. assert (H1 : is_word l1) by apply wrap64_word. clearbody l1.
  pose proof (add_carry l1 r H1 Hr) as E2. set (l2 := wrap64 (l1 + r)) in *. assert (H2 : is_word l2) by apply wrap64_word. clearbody l2. unfold is_word in *.
  rewrite land_MASK2; [|destruct (l2 <? r), (l1 <? c); first [apply wrap64_word|done]].
  destruct (l1 <? c), (l2 <? r); unfold bit in *; unwrap; lia.
Qed.
Lemma mul_spec a w c : is_word a -> is_word w -> is_word c ->
  let '(r', c') := mul a (LBITS w) (HBITS w) c in is_word r' /\ is_word c' /\ r' + 2 ^ 64 * c' = w * a + c.
Proof.
  intros Ha Hw Hc. unfold mul. pose proof (mul64_word a w Ha Hw) as Hm. destruct (mul64 _ _ _ _) as [l h]. destruct Hm as (Hl & Hh & E).
  rewrite !mask_id. pose proof (word_prod a w Ha Hw). rewrite (Z.mul_comm w a), <- E in *. pose proof (add_carry l c Hl Hc) as E1. set (l1 := wrap64 (l + c)) in *. assert (H1 : is_word l1) by apply wrap64_word. clearbody l1.
  unfold is_word in *. rewrite land_MASK2; [|destruct (l1 <? c); first [apply wrap64_word|done]].
  destruct (l1 <? c); unfold bit in *; unwrap; lia.
Qed.
Lemma add_step_spec a b c : is_word a -> is_word b -> 0 <= c <= 1 ->
  let '(r, c') := add_step a b c in is_word r /\ 0 <= c' <= 1 /\ r + 2 ^ 64 * c' = a + b + c.
Proof.
  intros Ha Hb Hc. unfold add_step. rewrite !mask_id. assert (Hcw : is_word c) by (unfold is_word; lia).
  pose proof (add_carry a c Ha Hcw) as E1. set (t := wrap64 (a + c)) in *. assert (H1 : is_word t) by apply wrap64_word. clearbody t.
  pose proof (add_carry b t Hb H1) as E2. rewrite (Z.add_comm b t) in E2. set (l := wrap64 (t + b)) in *. assert (H2 : is_word l) by apply wrap64_word. clearbody l.
  unfold is_word in *. destruct (t <? c), (l <? t); unfold bit in *; lia.
Qed.
Lemma sub_step_spec a b c : is_word a -> is_word b -> 0 <= c <= 1 ->
  let '(r, c') := sub_step a b c in is_word r /\ 0 <= c' <= 1 /\ r - 2 ^ 64 * c' = a - b - c.
Proof.
  intros Ha Hb Hc. unfold sub_step. rewrite mask_id. split; [apply wrap64_word|]. unfold is_word, wrap64, bit in *.
  destruct (Z.eqb_spec a b) as [->|Hne]; cbn [negb]; [|destruct (Z.ltb_spec a b)]; dlia.
Qed.

(** ** Arrays of words *)
Lemma bn_val_nil : bn_val [] = 0.
Proof. reflexivity. Qed.
Lemma bn_val_cons x l : bn_val (x :: l) = x + 2 ^ 64 * bn_val l.
Proof. reflexivity. Qed.
(** [2 ^ (64 n)], for arrays. *)
Definition radix (n : Z) : Z := 2 ^ (64 * n).
Lemma radix_0 : radix 0 = 1.
Proof. reflexivity. Qed.
Lemma radix_add m n : 0 <= m -> 0 <= n -> radix (m + n) = radix m * radix n.
Proof. intros. unfold radix. rewrite Z.mul_add_distr_l, Z.pow_add_r by lia. done. Qed.
Lemma radix_succ n : 0 <= n -> radix (1 + n) = 2 ^ 64 * radix n.
Proof. intros. rewrite radix_add by lia. done. Qed.
Lemma radix_pos n : 0 <= n -> 0 < radix n.
Proof. intros. unfold radix. lia. Qed.
Lemma bn_val_app a b : bn_val (a ++ b) = bn_val a + radix (zlen a) * bn_val b.
Proof.
  induction a as [|x a IH]; [cbn [app]; rewrite bn_val_nil; change (radix (zlen [])) with 1; lia|]. cbn [app]. rewrite !bn_val_cons, IH, zlen_cons, radix_succ by apply zlen_nonneg. ring.
Qed.
Lemma bn_val_bound l : Forall is_word l -> 0 <= bn_val l < radix (zlen l).
Proof.
  induction 1 as [|x l Hx Hl IH]; [rewrite bn_val_nil; done|]. rewrite bn_val_cons, zlen_cons, radix_succ by apply zlen_nonneg. unfold is_word in Hx. lia.
Qed.
Lemma bn_val_zeros n : bn_val (zeros n) = 0.
Proof. unfold zeros. induction (Z.to_nat n) as [|k IH]; [done|]. cbn [replicate]. rewrite bn_val_cons, IH. done. Qed.
Lemma zeros_words n : Forall is_word (zeros n).
Proof. apply Forall_replicate. by unfold is_word. Qed.
(** The digits of a number are determined by its value. *)
Lemma bn_val_inj a b : Forall is_word a -> Forall is_word b -> zlen a = zlen b -> bn_val a = bn_val b -> a = b.
Proof.
  intros Ha. revert b. induction Ha as [|x a Hx Ha IH]; intros [|y b] Hb Hl Hv; try (unfold zlen in Hl; cbn in Hl; lia); [done|].
  apply Forall_cons in Hb as [Hy Hb]. rewrite !bn_val_cons in Hv. rewrite !zlen_cons in Hl. unfold is_word in *.
  assert (x = y) as -> by (apply (f_equal (fun v => v mod 2 ^ 64)) in Hv; rewrite (Z.mul_comm _ (bn_val a)), (Z.mul_comm _ (bn_val b)), !Z.mod_add, !Z.mod_small in Hv by lia; done).
  f_equal. apply IH; [done|lia|lia].
Qed.

Lemma word_loop4_eq step xs : forall ys c, word_loop4 step xs ys c = word_loop step xs ys c.
Proof.
  assert (H : forall n xs, (length xs <= n)%nat -> forall ys c, word_loop4 step xs ys c = word_loop step xs ys c); [|by eapply (H (length xs))].
  clear xs. induction n as [|n IH]; intros [|x0 [|x1 [|x2 [|x3 xs]]]] Hn ys c; try done; try (cbn in Hn; lia).
  destruct ys as [|y0 [|y1 [|y2 [|y3 ys]]]]; try done. cbn [word_loop4 word_loop].
  destruct (step x0 y0 c) as [r0 c0], (step x1 y1 c0) as [r1 c1], (step x2 y2 c1) as [r2 c2], (step x3 y3 c2) as [r3 c3].
  rewrite IH by (cbn in Hn; lia). by destruct (word_loop step xs ys c3).
Qed.
(** A loop whose step computes [al x + be y + c], with carries ([sg] = 1) or borrows ([sg] = -1) in [0, m]. *)
Lemma word_loop_spec step al be sg m xs : forall ys c,
  (forall x y c, is_word x -> is_word y -> 0 <= c <= m ->
     let '(r, c') := step x y c in is_word r /\ 0 <= c' <= m /\ r + sg * 2 ^ 64 * c' = al * x + be * y + sg * c) ->
  Forall is_word xs -> Forall is_word ys -> zlen xs = zlen ys -> 0 <= c <= m ->
  let '(rs, c') := word_loop4 step xs ys c in
  Forall is_word rs /\ zlen rs = zlen xs /\ 0 <= c' <= m /\ bn_val rs + sg * radix (zlen xs) * c' = al * bn_val xs + be * bn_val ys + sg * c.
Proof.
  intros ys c Hstep Hx. rewrite word_loop4_eq. revert ys c. induction Hx as [|x xs Hx Hxs IH]; intros [|y ys] c Hy Hl Hc; try (unfold zlen in Hl; cbn in Hl; lia).
  - cbn [word_loop]. rewrite !bn_val_nil. change (radix (zlen [])) with 1. split; [done|]. split; [done|]. split; [done|]. ring.
  - apply Forall_cons in Hy as [Hy Hys]. rewrite !zlen_cons in Hl. cbn [word_loop]. specialize (Hstep x y c Hx Hy Hc) as Hs. destruct (step x y c) as [r c1]. destruct Hs as (Hr & Hc1 & E1).
    specialize (IH ys c1 Hys ltac:(lia) Hc1). destruct (word_loop step xs ys c1) as [rs c2]. destruct IH as (Hrs & Hlr & Hc2 & E2).
    split; [by constructor|]. rewrite !zlen_cons, !bn_val_cons, radix_succ by apply zlen_nonneg. split; [lia|]. split; [done|].
    transitivity (r + 2 ^ 64 * (bn_val rs + sg * radix (zlen xs) * c2)); [ring|]. rewrite E2. transitivity (r + sg * 2 ^ 64 * c1 + 2 ^ 64 * (al * bn_val xs + be * bn_val ys)); [ring|]. rewrite E1. ring.
Qed.

Definition words_of (l : list Z) (n : Z) : Prop := zlen l = n /\ Forall is_word l.
Lemma words_of_take l n : 0 <= n <= zlen l -> Forall is_word l -> words_of (ztake n l) n.
Proof. intros Hn Hl. split; [zl|by apply Forall_ztake]. Qed.
Lemma bn_mul_add_words_spec rp ap w n : words_of rp n -> words_of ap n -> is_word w ->
  let '(rs, c) := bn_mul_add_words rp ap n w in words_of rs n /\ is_word c /\ bn_val rs + radix n * c = bn_val rp + w * bn_val ap.
Proof.
  intros [Hr Hrw] [Ha Haw] Hw. unfold bn_mul_add_words. destruct (Z.leb_spec n 0) as [Hn|Hn].
  - pose proof (zlen_nonneg rp). assert (n = 0) as -> by lia. apply zlen_0_nil in Hr, Ha. subst. rewrite !bn_val_nil. split; [done|]. split; [done|]. lia.
  - rewrite !ztake_ge by lia. pose proof (word_loop_spec (fun r a c => mul_add r a (LBITS w) (HBITS w) c) 1 w 1 (2 ^ 64 - 1) rp ap 0) as Hs.
    destruct (word_loop4 _ rp ap 0) as [rs c]. rewrite Hr in Hs. destruct Hs as (? & ? & ? & E); try done; try lia.
    + intros x y c' Hx Hy Hc. pose proof (mul_add_spec x y w c' Hx Hy Hw ltac:(unfold is_word; lia)) as Hm. destruct (mul_add _ _ _ _ _). unfold is_word in *. lia.
    + split; [done|]. unfold is_word. split; lia.
Qed.
Lemma bn_mul_words_spec ap w n : words_of ap n -> is_word w ->
  let '(rs, c) := bn_mul_words ap n w in words_of rs n /\ is_word c /\ bn_val rs + radix n * c = w * bn_val ap.
Proof.
  intros [Ha Haw] Hw. unfold bn_mul_words. destruct (Z.leb_spec n 0) as [Hn|Hn].
  - pose proof (zlen_nonneg ap). assert (n = 0) as -> by lia. apply zlen_0_nil in Ha. subst. rewrite !bn_val_nil. split; [done|]. split; [done|]. lia.
  - rewrite !ztake_ge by lia. pose proof (word_loop_spec (fun _ a c => mul a (LBITS w) (HBITS w) c) 0 w 1 (2 ^ 64 - 1) ap ap 0) as Hs.
    destruct (word_loop4 _ ap ap 0) as [rs c]. rewrite Ha in Hs. destruct Hs as (? & ? & ? & E); try done; try lia.
    + intros x y c' Hx Hy Hc. pose proof (mul_spec y w c' Hy Hw ltac:(unfold is_word; lia)) as Hm. destruct (mul _ _ _ _). unfold is_word in *. lia.
    + split; [done|]. unfold is_word. split; lia.
Qed.
Lemma bn_add_words_spec a b n : words_of a n -> words_of b n ->
  let '(rs, c) := bn_add_words a b n in words_of rs n /\ 0 <= c <= 1 /\ bn_val rs + radix n * c = bn_val a + bn_val b.
Proof.
  intros [Ha Haw] [Hb Hbw]. unfold bn_add_words. destruct (Z.leb_spec n 0) as [Hn|Hn].
  - pose proof (zlen_nonneg a). assert (n = 0) as -> by lia. apply zlen_0_nil in Ha, Hb. subst. done.
  - rewrite !ztake_ge by lia. pose proof (word_loop_spec add_step 1 1 1 1 a b 0) as Hs. destruct (word_loop4 _ a b 0) as [rs c]. rewrite Ha in Hs.
    destruct Hs as (? & ? & ? & E); try done; try lia; [|split; [done|]; split; lia].
    intros x y c' Hx Hy Hc. pose proof (add_step_spec x y c' Hx Hy Hc) as Hm. destruct (add_step x y c'). unfold is_word in *. lia.
Qed.
Lemma bn_sub_words_spec a b n : words_of a n -> words_of b n ->
  let '(rs, c) := bn_sub_words a b n in words_of rs n /\ 0 <= c <= 1 /\ bn_val rs - radix n * c = bn_val a - bn_val b.
Proof.
  intros [Ha Haw] [Hb Hbw]. unfold bn_sub_words. destruct (Z.leb_spec n 0) as [Hn|Hn].
  - pose proof (zlen_nonneg a). assert (n = 0) as -> by lia. apply zlen_0_nil in Ha, Hb. subst. done.
  - rewrite !ztake_ge by lia. pose proof (word_loop_spec sub_step 1 (-1) (-1) 1 a b 0) as Hs. destruct (word_loop4 _ a b 0) as [rs c]. rewrite Ha in Hs.
    destruct Hs as (? & ? & ? & E); try done; try lia; [|split; [done|]; split; lia].
    intros x y c' Hx Hy Hc. pose proof (sub_step_spec x y c' Hx Hy Hc) as Hm. destruct (sub_step x y c'). unfold is_word in *. lia.
Qed.

(** ** Division *)
Lemma num_bits_loop_spec rounds : forall shift bits l,
  shift * 2 = 2 ^ Z.of_nat rounds -> (0 < rounds <= 6)%nat -> 0 <= l < 2 ^ (2 * shift) -> num_bits_loop rounds shift bits l = bits + Z.log2 l.
Proof.
  induction rounds as [|rounds IH]; intros shift bits l Hs Hr Hl; [lia|]. cbn [num_bits_loop].
  assert (Es : shift = 2 ^ Z.of_nat rounds) by (rewrite Nat2Z.inj_succ, Z.pow_succ_r in Hs; lia).
  assert (Hsr : 1 <= shift <= 32) by (rewrite Es; split; [lia|change 32 with (2 ^ 5); apply Z.pow_le_mono_r; lia]).
  assert (Hpos : 0 < 2 ^ shift) by (apply Z.pow_pos_nonneg; lia). rewrite (Z.shiftr_div_pow2 l) by lia. assert (Hx : 0 <= l / 2 ^ shift < 2 ^ shift).
  { replace (2 * shift) with (shift + shift) in Hl by lia. rewrite Z.pow_add_r in Hl by lia. split; [apply Z.div_pos; lia|apply Z.div_lt_upper_bound; lia]. }
  set (x := l / 2 ^ shift) in *. assert (Hx32 : x < 2 ^ 32) by (eapply Z.lt_le_trans; [apply Hx|]; apply Z.pow_le_mono_r; lia).
  assert (Hlog : Z.log2 x = Z.max 0 (Z.log2 l - shift)) by (unfold x; rewrite <- Z.shiftr_div_pow2 by lia; destruct (decide (l = 0)) as [->|]; [rewrite Z.shiftr_0_l; cbn; lia|apply Z.log2_shiftr; lia]).
  assert (Hnext : forall b l', l' < 2 ^ shift -> 0 <= l' -> num_bits_loop rounds (shift / 2) b l' = b + Z.log2 l').
  { intros b l' Hl' H0'. destruct rounds as [|rounds]; [cbn in Es; subst shift; change (2 ^ 1) with 2 in Hl'; cbn [num_bits_loop]; assert (l' = 0 \/ l' = 1) as [->| ->] by lia; cbn; lia|].
    rewrite Nat2Z.inj_succ, Z.pow_succ_r in Es by lia. assert (E2 : shift / 2 * 2 = shift) by (rewrite Es; dlia). apply IH; [rewrite E2, Es, Nat2Z.inj_succ, Z.pow_succ_r by lia; done|lia|]. rewrite Z.mul_comm, E2. lia. }
  destruct (decide (x = 0)) as [E0|E0].
  - rewrite E0 in *. change (wrap64 (Z.shiftr (Z.land (wrap64 (Z.lnot 0)) (wrap64 (0 - 1))) (BN_BITS2 - 1) - 1)) with 0. rewrite !Z.land_0_r, Z.lxor_0_r, Z.add_0_r.
    apply Hnext; [|lia]. apply Z.nle_gt. intros Hge. assert (1 <= x) by (apply Z.div_le_lower_bound; lia). lia.
  - assert (Em : Z.land (wrap64 (Z.lnot x)) (wrap64 (x - 1)) < 2 ^ 63 /\ 0 <= Z.land (wrap64 (Z.lnot x)) (wrap64 (x - 1))).
    { rewrite (wrap64_id (x - 1)) by (unfold is_word; lia). pose proof (land_bound (wrap64 (Z.lnot x)) (x - 1) 63). lia. }
    rewrite (Z.shiftr_div_pow2 (Z.land (wrap64 (Z.lnot x)) (wrap64 (x - 1)))), (Z.div_small _ (2 ^ (BN_BITS2 - 1))) by (change (BN_BITS2 - 1) with 63; lia).
    change (wrap64 (0 - 1)) with BN_MASK2. rewrite (land_MASK2 shift) by (unfold is_word; lia).
    assert (Hl64 : l < 2 ^ 64) by (eapply Z.lt_le_trans; [apply Hl|]; apply Z.pow_le_mono_r; lia).
    rewrite (land_MASK2 (Z.lxor x l)) by (unfold is_word; rewrite <- (Z.mod_small x (2 ^ 64)), <- (Z.mod_small l (2 ^ 64)), <- lxor_mod by lia; apply Z.mod_pos_bound; lia).
    replace (Z.lxor l (Z.lxor x l)) with x by (rewrite Z.lxor_comm, Z.lxor_assoc, Z.lxor_nilpotent, Z.lxor_0_r; done).
    rewrite Hnext by lia. rewrite Hlog. assert (shift <= Z.log2 l); [|lia]. apply Z.log2_le_pow2; [destruct (decide (l = 0)) as [El|]; [unfold x in E0; by rewrite El, Z.div_0_l in E0 by lia|lia]|].
    apply Z.nlt_ge. intros Hlt. apply E0. apply Z.div_small. lia.
Qed.
Lemma BN_num_bits_word_spec l : is_word l -> BN_num_bits_word l = if l =? 0 then 0 else Z.log2 l + 1.
Proof.
  intros Hl. unfold BN_num_bits_word. rewrite num_bits_loop_spec; [|done|lia|exact Hl]. destruct (Z.eqb_spec l 0) as [->|]; cbn [negb bit]; [done|lia].
Qed.

Lemma land_MASK2h t : is_word t -> Z.land t BN_MASK2h = t / 2 ^ 32 * 2 ^ 32.
Proof.
  intros Ht. change BN_MASK2h with (Z.shiftl (Z.ones 32) 32). rewrite <- (Z.shiftl_mul_pow2 _ 32), <- Z.shiftr_div_pow2 by lia.
  apply Z.bits_inj'. intros n Hn. rewrite Z.land_spec, !Z.shiftl_spec by lia.
  destruct (Z.ltb_spec n 32); [rewrite (Z.testbit_neg_r (Z.ones 32)), (Z.testbit_neg_r (Z.shiftr t 32)) by lia; by rewrite andb_false_r|].
  rewrite Z.shiftr_spec by lia. replace (n - 32 + 32) with n by lia.
  destruct (Z.ltb_spec (n - 32) 32); [rewrite Z.ones_spec_low by lia; by rewrite andb_true_r|].
  rewrite Z.ones_spec_high, andb_false_r by lia. symmetry. rewrite <- (Z.mod_small t (2 ^ 64)) by done. apply Z.mod_pow2_bits_high. lia.
Qed.

Section Digit.
Context (h l d : Z) (Hd : 2 ^ 63 <= d < 2 ^ 64) (Hh : 0 <= h < d) (Hl : is_word l).
Abbreviation dh := (d / 2 ^ 32).
Abbreviation dl := (d mod 2 ^ 32).
Abbreviation num := (h * 2 ^ 32 + l / 2 ^ 32).
Abbreviation qt := (num / d).

Lemma d_halves : d = 2 ^ 32 * dh + dl /\ 2 ^ 31 <= dh < 2 ^ 32 /\ 0 <= dl < 2 ^ 32.
Proof. dlia. Qed.
Lemma qt_bound : 0 <= qt < 2 ^ 32.
Proof. unfold is_word in Hl. split; [apply Z.div_pos; dlia|]. apply Z.div_lt_upper_bound; dlia. Qed.
Lemma fits_iff q : 0 <= q -> q <= qt <-> q * d <= num.
Proof.
  intros Hq. split; intros Hle.
  - pose proof (Z.mul_div_le num d ltac:(lia)). nia.
  - apply Z.div_le_lower_bound; lia.
Qed.
(** A digit between the right one and [h / dh]. *)
Lemma div_adjust_spec fuel : forall q, qt <= q <= qt + Z.of_nat fuel -> q < 2 ^ 32 -> q * dh <= h ->
  div_adjust fuel h l dh dl q (q * dh) (dl * q) = (qt, qt * dh, dl * qt).
Proof.
  pose proof qt_bound as Hqt. destruct d_halves as (Ed & Hdh & Hdl). unfold is_word in Hl.
  induction fuel as [|fuel IH]; intros q Hq Hqw Hqh; cbn [div_adjust].
  - replace q with qt by lia. by destruct (_ || _).
  - assert (Hqd : 0 <= q * dh) by nia. assert (Hql : 0 <= dl * q < 2 ^ 64) by nia. set (t := h - q * dh) in *.
    rewrite (wrap64_id t) by (unfold is_word, t; lia). assert (Ht : 0 <= t < 2 ^ 64) by (unfold t; lia).
    assert (El : Z.shiftr (Z.land l BN_MASK2h) BN_BITS4 = l / 2 ^ 32) by (change BN_BITS4 with 32; rewrite land_MASK2h, Z.shiftr_div_pow2 by done; apply Z.div_mul; lia).
    assert (Et : (Z.land t BN_MASK2h =? 0) = (t <? 2 ^ 32)).
    { rewrite land_MASK2h by done. destruct (Z.ltb_spec t (2 ^ 32)); [apply Z.eqb_eq; dlia|apply Z.eqb_neq; dlia]. }
    rewrite El, Et.
    assert (Hfit : negb (t <? 2 ^ 32) || (dl * q <=? Z.lor (wrap64 (Z.shiftl t BN_BITS4)) (l / 2 ^ 32)) = (q <=? qt)).
    { assert (Hiff : q <= qt <-> dl * q <= t * 2 ^ 32 + l / 2 ^ 32) by (rewrite fits_iff by lia; unfold t; rewrite Ed at 1; lia).
      assert (Hlh : 0 <= l / 2 ^ 32 < 2 ^ 32) by dlia.
      destruct (Z.ltb_spec t (2 ^ 32)) as [Hlt|Hge]; cbn [negb orb].
      - rewrite (wrap64_id (Z.shiftl t BN_BITS4)) by (unfold is_word, BN_BITS4; rewrite Z.shiftl_mul_pow2 by lia; lia).
        rewrite Z.lor_comm. change BN_BITS4 with 32. rewrite lor_shiftl by lia. destruct (Z.leb_spec (dl * q) (l / 2 ^ 32 + t * 2 ^ 32)), (Z.leb_spec q qt); try done; lia.
      - symmetry. apply Z.leb_le. apply Hiff. lia. }
    rewrite Hfit. destruct (Z.leb_spec q qt) as [Hle|Hgt]; [by replace q with qt by lia|].
    rewrite (wrap64_id (q - 1)) by (unfold is_word; lia). rewrite (wrap64_id (q * dh - dh)), (wrap64_id (dl * q - dl)) by (unfold is_word; nia).
    replace (q * dh - dh) with ((q - 1) * dh) by ring. replace (dl * q - dl) with (dl * (q - 1)) by ring. apply IH; [lia|lia|nia].
Qed.
Lemma div_digit_spec : exists r, r = num mod d /\ div_digit h l d dh dl = (qt, r / 2 ^ 32, (r mod 2 ^ 32) * 2 ^ 32 + l mod 2 ^ 32).
Proof.
  exists (num mod d). split; [done|]. pose proof qt_bound as Hqt. destruct d_halves as (Ed & Hdh & Hdl). unfold is_word in Hl. unfold div_digit. change BN_BITS4 with 32. rewrite Z.shiftr_div_pow2 by lia.
  set (q0 := if h / 2 ^ 32 =? dh then BN_MASK2l else h / dh).
  pose proof (Z.div_mod num d ltac:(lia)) as Edm. pose proof (Z.mod_pos_bound num d ltac:(lia)) as Hr. set (r := num mod d) in *. set (q := qt) in *.
  assert (Hqh : q * dh <= h) by (assert (q * dh * 2 ^ 32 < (h + 1) * 2 ^ 32); [assert (0 <= q * dl) by nia; rewrite Ed in Edm at 1; assert (l / 2 ^ 32 < 2 ^ 32) by dlia; lia|lia]).
  assert (H0 : q <= q0 /\ q0 < 2 ^ 32 /\ q0 * dh <= h).
  { unfold q0. destruct (Z.eqb_spec (h / 2 ^ 32) dh) as [E|E]; [change BN_MASK2l with (2 ^ 32 - 1); split; [lia|split; [lia|]]; assert (dh * 2 ^ 32 <= h) by (rewrite <- E; dlia); lia|].
    assert (Hlt : h / 2 ^ 32 < dh) by (assert (h / 2 ^ 32 <= dh) by (apply Z.div_le_mono; lia); lia). split; [by apply Z.div_le_lower_bound; lia|].
    split; [apply Z.div_lt_upper_bound; [lia|]; assert (h < 2 ^ 32 * dh) by (clear - Hlt Hh Hd; dlia); lia|]. rewrite Z.mul_comm. apply Z.mul_div_le. lia. }
  destruct H0 as (H1 & H2 & H3). assert (H4 : q0 - 2 <= q).
  { destruct (decide (q0 < 2)); [lia|]. apply fits_iff; [lia|]. assert (0 <= l / 2 ^ 32) by dlia. rewrite Ed at 1. nia. }
  rewrite (wrap64_id (q0 * dh)), (wrap64_id (dl * q0)) by (unfold is_word; nia). rewrite (div_adjust_spec 3 q0) by lia. fold q.
  set (B := dl * q). assert (HB : 0 <= B < 2 ^ 64) by (unfold B; nia). set (A := q * dh) in *. assert (HA : 0 <= A <= h) by (unfold A in *; nia).
  assert (EAB : h * 2 ^ 32 + l / 2 ^ 32 = A * 2 ^ 32 + B + r) by (unfold A, B; rewrite Edm; rewrite Ed at 1; ring). clearbody A B. clear Hqh H1 H2 H3 H4 q0 Edm Ed.
  rewrite !Z.shiftr_div_pow2, Z.shiftl_mul_pow2 by lia.
  assert (Etl : Z.land (wrap64 (B * 2 ^ 32)) BN_MASK2h = B mod 2 ^ 32 * 2 ^ 32).
  { assert (E : wrap64 (B * 2 ^ 32) = B mod 2 ^ 32 * 2 ^ 32) by (unfold wrap64; dlia). rewrite E. rewrite land_MASK2h by (unfold is_word; dlia). by rewrite Z.div_mul by lia. }
  rewrite Etl. set (lh := l / 2 ^ 32) in *. assert (Elh : l = lh * 2 ^ 32 + l mod 2 ^ 32) by (unfold lh; dlia). set (ll := l mod 2 ^ 32) in *. assert (0 <= ll < 2 ^ 32) by (unfold ll; dlia).
  assert (Hlh : 0 <= lh < 2 ^ 32) by (unfold lh; dlia). clearbody lh ll. clear Etl. subst l.
  assert (EB : B = B / 2 ^ 32 * 2 ^ 32 + B mod 2 ^ 32) by dlia. set (Bh := B / 2 ^ 32) in *. set (Bl := B mod 2 ^ 32) in *. assert (0 <= Bl < 2 ^ 32) by (unfold Bl; dlia). assert (0 <= Bh < 2 ^ 32) by (unfold Bh; dlia). clearbody Bh Bl. subst B.
  assert (Er : r = r / 2 ^ 32 * 2 ^ 32 + r mod 2 ^ 32) by dlia. assert (0 <= r mod 2 ^ 32 < 2 ^ 32) by dlia. set (rh := r / 2 ^ 32) in *. set (rl := r mod 2 ^ 32) in *. assert (0 <= rh < 2 ^ 32) by (unfold rh; dlia). clearbody rh rl. clear Hl.
  destruct (Z.ltb_spec (lh * 2 ^ 32 + ll) (Bl * 2 ^ 32)) as [Hb|Hb].
  - assert (Eh : h - (A + Bh + 1) = rh /\ lh + 2 ^ 32 - Bl = rl) by lia. destruct Eh as [Eh El]. unwrap. rewrite (proj2 (Z.ltb_ge h (A + Bh + 1))) by lia. unwrap.
    do 2 f_equal; [lia|]. unfold wrap64. replace (lh * 2 ^ 32 + ll - Bl * 2 ^ 32) with (rl * 2 ^ 32 + ll + -1 * 2 ^ 64) by lia. rewrite Z.mod_add, Z.mod_small by lia. done.
  - assert (Eh : h - (A + Bh) = rh /\ lh - Bl = rl) by lia. destruct Eh as [Eh El]. unwrap. rewrite (proj2 (Z.ltb_ge h (A + Bh))) by lia. unwrap. do 2 f_equal; lia.
Qed.
End Digit.

(** Normalisation: [d] is shifted until its highest bit is set, and the numerator with it. *)
Lemma shift_div_words h l d i : 0 < d < 2 ^ 64 -> 0 <= h < d -> is_word l -> Z.log2 d + 1 + i = 64 -> 0 < i ->
  let d' := wrap64 (Z.shiftl d i) in
  let h' := Z.lor (wrap64 (Z.shiftl h i)) (Z.shiftr l (BN_BITS2 - i)) in
  let l' := wrap64 (Z.shiftl l i) in
  2 ^ 63 <= d' < 2 ^ 64 /\ 0 <= h' < d' /\ is_word l' /\ (h' * 2 ^ 64 + l') / d' = (h * 2 ^ 64 + l) / d.
Proof.
  intros Hd Hh Hl Hi Hi0. pose proof (Z.log2_spec d ltac:(lia)) as Hlog. pose proof (Z.log2_nonneg d). assert (Hip : 0 < 2 ^ i) by (apply Z.pow_pos_nonneg; lia).
  assert (E64 : 2 ^ Z.succ (Z.log2 d) * 2 ^ i = 2 ^ 64) by (rewrite <- Z.pow_add_r by lia; f_equal; lia). assert (E63 : 2 ^ Z.log2 d * 2 ^ i = 2 ^ 63) by (rewrite <- Z.pow_add_r by lia; f_equal; lia).
  change BN_BITS2 with 64. rewrite !Z.shiftl_mul_pow2, Z.shiftr_div_pow2 by lia. assert (Hdi : 2 ^ 63 <= d * 2 ^ i < 2 ^ 64) by nia.
  rewrite (wrap64_id (d * 2 ^ i)), (wrap64_id (h * 2 ^ i)) by (unfold is_word; nia). unfold is_word in Hl.
  assert (El : 2 ^ 64 = 2 ^ (64 - i) * 2 ^ i) by (rewrite <- Z.pow_add_r by lia; f_equal; lia). assert (Hp : 0 < 2 ^ (64 - i)) by (apply Z.pow_pos_nonneg; lia).
  assert (Hlq : 0 <= l / 2 ^ (64 - i) < 2 ^ i) by (split; [apply Z.div_pos; lia|apply Z.div_lt_upper_bound; lia]).
  rewrite Z.lor_comm, <- (Z.shiftl_mul_pow2 h i), lor_shiftl by lia.
  assert (Ew : wrap64 (l * 2 ^ i) = l mod 2 ^ (64 - i) * 2 ^ i) by (unfold wrap64; rewrite El at 1; apply Z.mul_mod_distr_r; lia).
  split; [done|]. split; [nia|]. split; [apply wrap64_word|]. rewrite Ew.
  replace ((l / 2 ^ (64 - i) + h * 2 ^ i) * 2 ^ 64 + l mod 2 ^ (64 - i) * 2 ^ i) with ((h * 2 ^ 64 + l) * 2 ^ i) by (rewrite (Z.div_mod l (2 ^ (64 - i))) at 1 by lia; rewrite El; ring).
  apply Z.div_mul_cancel_r; lia.
Qed.

Lemma two_digits h l d : 2 ^ 63 <= d < 2 ^ 64 -> 0 <= h < d -> is_word l ->
  let q1 := (h * 2 ^ 32 + l / 2 ^ 32) / d in let r := (h * 2 ^ 32 + l / 2 ^ 32) mod d in
  (h * 2 ^ 64 + l) / d = q1 * 2 ^ 32 + (r * 2 ^ 32 + l mod 2 ^ 32) / d.
Proof.
  intros Hd Hh Hl q1 r. unfold is_word in Hl. pose proof (Z.div_mod (h * 2 ^ 32 + l / 2 ^ 32) d ltac:(lia)) as E. fold q1 r in E.
  replace (h * 2 ^ 64 + l) with (r * 2 ^ 32 + l mod 2 ^ 32 + q1 * 2 ^ 32 * d) by (assert (l = l / 2 ^ 32 * 2 ^ 32 + l mod 2 ^ 32) by dlia; lia). rewrite Z.div_add by lia. lia.
Qed.

(** The division of two words by one, which the code puts together from two digits of 32 bits with estimates that are corrected, is exact: for every
    divisor that is larger than the upper word, the result is the quotient of the 128-bit number by the divisor. *)
Lemma bn_div_words_spec h l d : is_word d -> 0 <= h < d -> is_word l -> bn_div_words h l d = (h * 2 ^ 64 + l) / d.
Proof.
  intros Hd Hh Hl. unfold is_word in Hd. unfold bn_div_words. rewrite (proj2 (Z.eqb_neq d 0)), BN_num_bits_word_spec, (proj2 (Z.eqb_neq d 0)) by (unfold is_word; lia). rewrite (proj2 (Z.leb_gt d h)) by lia.
  set (i := BN_BITS2 - (Z.log2 d + 1)). assert (Hi : Z.log2 d + 1 + i = 64) by (unfold i, BN_BITS2; lia).
  assert (Hi0 : 0 <= i) by (assert (Z.log2 d < 64) by (apply Z.log2_lt_pow2; lia); lia).
  assert (Hn : exists d' h' l', (if negb (i =? 0) then (wrap64 (Z.shiftl d i), Z.lor (wrap64 (Z.shiftl h i)) (Z.shiftr l (BN_BITS2 - i)), wrap64 (Z.shiftl l i)) else (d, h, l)) = (d', h', l') /\
    2 ^ 63 <= d' < 2 ^ 64 /\ 0 <= h' < d' /\ is_word l' /\ (h' * 2 ^ 64 + l') / d' = (h * 2 ^ 64 + l) / d).
  { destruct (Z.eqb_spec i 0) as [E|E]; cbn [negb]; [exists d, h, l; split; [done|]; split; [|done]; pose proof (Z.log2_spec d ltac:(lia)); replace (Z.log2 d) with 63 in * by lia; lia|].
    do 3 eexists. split; [done|]. apply shift_div_words; try done; lia. }
  destruct Hn as (d' & h' & l' & -> & Hd' & Hh' & Hl' & <-). clear i Hi Hi0 Hd Hh Hl h l d.
  rewrite land_MASK2h by (unfold is_word; lia). change BN_BITS4 with 32. change BN_MASK2l with (2 ^ 32 - 1). rewrite !land_mask by lia. rewrite (Z.shiftr_div_pow2 (d' / 2 ^ 32 * 2 ^ 32)), Z.div_mul by lia.
  destruct (div_digit_spec h' l' d' Hd' Hh' Hl') as (r & Er & ->). rewrite (two_digits h' l' d' Hd' Hh' Hl'), <- Er. pose proof (qt_bound h' l' d' Hd' Hh' Hl') as Hq1.
  set (q1 := (h' * 2 ^ 32 + l' / 2 ^ 32) / d') in *. assert (Hr : 0 <= r < d') by (rewrite Er; apply Z.mod_pos_bound; lia). clear Er.
  set (ll := l' mod 2 ^ 32). assert (Hll : 0 <= ll < 2 ^ 32) by (unfold ll; dlia). clearbody ll.
  rewrite (Z.shiftr_div_pow2 (r mod 2 ^ 32 * 2 ^ 32 + ll)), !Z.shiftl_mul_pow2 by lia.
  assert (E1 : (r mod 2 ^ 32 * 2 ^ 32 + ll) / 2 ^ 32 = r mod 2 ^ 32) by dlia. assert (E2 : (r mod 2 ^ 32 * 2 ^ 32 + ll) mod 2 ^ 32 = ll) by dlia. rewrite E1, land_mask, E2 by lia.
  rewrite (wrap64_id (r / 2 ^ 32 * 2 ^ 32)) by (unfold is_word; dlia). rewrite (Z.lor_comm (r / 2 ^ 32 * 2 ^ 32)), <- (Z.shiftl_mul_pow2 (r / 2 ^ 32)), lor_shiftl by dlia.
  assert (E3 : r mod 2 ^ 32 + r / 2 ^ 32 * 2 ^ 32 = r) by dlia. rewrite E3. rewrite (land_MASK2 r) by (unfold is_word; lia). rewrite (wrap64_id (ll * 2 ^ 32)), (wrap64_id (q1 * 2 ^ 32)) by (unfold is_word; lia).
  assert (Hw : is_word (ll * 2 ^ 32)) by (unfold is_word; lia). destruct (div_digit_spec r (ll * 2 ^ 32) d' Hd' Hr Hw) as (r2 & _ & ->). pose proof (qt_bound r (ll * 2 ^ 32) d' Hd' Hr Hw) as Hq2.
  rewrite (Z.div_mul ll) in Hq2 |- * by lia. rewrite Z.lor_comm, <- (Z.shiftl_mul_pow2 q1 32), lor_shiftl, Z.shiftl_mul_pow2 by lia. apply Z.add_comm.
Qed.
