(* ===== verification/BnMul.v ===== *)
(** * Multiplication (crypto/bn/bn_asm.c, bn_mul.c, bn_sqr.c)

    The routines that multiply and square arrays of words: row by row, column by column for 4 and 8 words (comba), and by Karatsuba's recursion. An
    array that a routine writes is the result of its definition; the scratch array [t] of the recursions, which is written before it is read, is left out. The
    output never overlaps an input. *)
From S2P Require Import Prelude Words BnWord.

Definition BN_MULL_SIZE_NORMAL : Z := 16.
Definition BN_MUL_RECURSIVE_SIZE_NORMAL : Z := 16.
Definition BN_SQR_RECURSIVE_SIZE_NORMAL : Z := 16.

(** ** Columns *)
(** The three accumulators, the lowest first. *)
Definition acc : Type := Z * Z * Z.
Definition mul_add_c (a b : Z) (c : acc) : acc :=
  let '(c0, c1, c2) := c in
  let '(lo, hi) := mul64 (LBITS a) (HBITS a) (LBITS b) (HBITS b) in
  let c0 := Z.land (wrap64 (c0 + lo)) BN_MASK2 in
  let hi := if c0 <? lo then wrap64 (hi + 1) else hi in
  let c1 := Z.land (wrap64 (c1 + hi)) BN_MASK2 in
  let c2 := if c1 <? hi then wrap64 (c2 + 1) else c2 in
  (c0, c1, c2).
Definition mul_add_c2 (a b : Z) (c : acc) : acc :=
  let '(c0, c1, c2) := c in
  let '(lo, hi) := mul64 (LBITS a) (HBITS a) (LBITS b) (HBITS b) in
  let tt := hi in
  let c0 := Z.land (wrap64 (c0 + lo)) BN_MASK2 in
  let tt := if c0 <? lo then wrap64 (tt + 1) else tt in
  let c1 := Z.land (wrap64 (c1 + tt)) BN_MASK2 in
  let c2 := if c1 <? tt then wrap64 (c2 + 1) else c2 in
  let c0 := Z.land (wrap64 (c0 + lo)) BN_MASK2 in
  let hi := if c0 <? lo then wrap64 (hi + 1) else hi in
  let c1 := Z.land (wrap64 (c1 + hi)) BN_MASK2 in
  let c2 := if c1 <? hi then wrap64 (c2 + 1) else c2 in
  (c0, c1, c2).
Definition sqr_add_c (a : list Z) (i : Z) (c : acc) : acc :=
  let '(c0, c1, c2) := c in
  let '(lo, hi) := sqr64 (znth a i) in
  let c0 := Z.land (wrap64 (c0 + lo)) BN_MASK2 in
  let hi := if c0 <? lo then wrap64 (hi + 1) else hi in
  let c1 := Z.land (wrap64 (c1 + hi)) BN_MASK2 in
  let c2 := if c1 <? hi then wrap64 (c2 + 1) else c2 in
  (c0, c1, c2).
Definition sqr_add_c2 (a : list Z) (i j : Z) (c : acc) : acc := mul_add_c2 (znth a i) (znth a j) c.

(** Column after column: the lowest accumulator is stored, and takes part in the next column, cleared, as the highest. *)
Fixpoint columns (step : Z * Z -> acc -> acc) (cols : list (list (Z * Z))) (c : acc) : list Z :=
  match cols with
  | [] => let '(c0, _, _) := c in [c0]
  | col :: cols => let '(c0, c1, c2) := fold_left (fun c ij => step ij c) col c in c0 :: columns step cols (c1, c2, 0)
  end.
Definition mul_term (a b : list Z) (ij : Z * Z) : acc -> acc := mul_add_c (znth a (fst ij)) (znth b (snd ij)).
Definition sqr_term (a : list Z) (ij : Z * Z) : acc -> acc := if fst ij =? snd ij then sqr_add_c a (fst ij) else sqr_add_c2 a (fst ij) (snd ij).
Definition bn_mul_comba8 (a b : list Z) : list Z :=
  columns (mul_term a b)
    [[(0, 0)]; [(0, 1); (1, 0)]; [(2, 0); (1, 1); (0, 2)]; [(0, 3); (1, 2); (2, 1); (3, 0)]; [(4, 0); (3, 1); (2, 2); (1, 3); (0, 4)];
     [(0, 5); (1, 4); (2, 3); (3, 2); (4, 1); (5, 0)]; [(6, 0); (5, 1); (4, 2); (3, 3); (2, 4); (1, 5); (0, 6)];
     [(0, 7); (1, 6); (2, 5); (3, 4); (4, 3); (5, 2); (6, 1); (7, 0)]; [(7, 1); (6, 2); (5, 3); (4, 4); (3, 5); (2, 6); (1, 7)];
     [(2, 7); (3, 6); (4, 5); (5, 4); (6, 3); (7, 2)]; [(7, 3); (6, 4); (5, 5); (4, 6); (3, 7)]; [(4, 7); (5, 6); (6, 5); (7, 4)]; [(7, 5); (6, 6); (5, 7)];
     [(6, 7); (7, 6)]; [(7, 7)]] (0, 0, 0).
Definition bn_mul_comba4 (a b : list Z) : list Z :=
  columns (mul_term a b)
    [[(0, 0)]; [(0, 1); (1, 0)]; [(2, 0); (1, 1); (0, 2)]; [(0, 3); (1, 2); (2, 1); (3, 0)]; [(3, 1); (2, 2); (1, 3)]; [(2, 3); (3, 2)]; [(3, 3)]] (0, 0, 0).
Definition bn_sqr_comba8 (a : list Z) : list Z :=
  columns (sqr_term a)
    [[(0, 0)]; [(1, 0)]; [(1, 1); (2, 0)]; [(3, 0); (2, 1)]; [(2, 2); (3, 1); (4, 0)]; [(5, 0); (4, 1); (3, 2)]; [(3, 3); (4, 2); (5, 1); (6, 0)];
     [(7, 0); (6, 1); (5, 2); (4, 3)]; [(4, 4); (5, 3); (6, 2); (7, 1)]; [(7, 2); (6, 3); (5, 4)]; [(5, 5); (6, 4); (7, 3)]; [(7, 4); (6, 5)]; [(6, 6); (7, 5)];
     [(7, 6)]; [(7, 7)]] (0, 0, 0).
Definition bn_sqr_comba4 (a : list Z) : list Z :=
  columns (sqr_term a) [[(0, 0)]; [(1, 0)]; [(1, 1); (2, 0)]; [(3, 0); (2, 1)]; [(2, 2); (3, 1)]; [(3, 2)]; [(3, 3)]] (0, 0, 0).

(** ** Rows *)
(** [r[k .. k + na)] gets [a] times each further word of [b] added, and [r[na + k]] the carry. *)
Fixpoint mul_rows (r a : list Z) (na k : Z) (b : list Z) : list Z :=
  match b with
  | [] => r
  | w :: b => let '(rs, c) := bn_mul_add_words (zdrop k r) a na w in mul_rows (ztake k r ++ rs ++ [c]) a na (k + 1) b
  end.
Definition bn_mul_normal (a : list Z) (na : Z) (b : list Z) (nb : Z) : list Z :=
  let '(na, nb, a, b) := if na <? nb then (nb, na, b, a) else (na, nb, a, b) in
  if nb <=? 0 then fst (bn_mul_words a na 0)
  else
  let '(rs, c) := bn_mul_words a na (znth b 0) in
  mul_rows (rs ++ [c]) a na 1 (slice b 1 (nb - 1)).
(** The lower [n] words of the product. *)
Fixpoint mul_low_rows (r a : list Z) (n k : Z) (b : list Z) : list Z :=
  match b with
  | [] => r
  | w :: b => let '(rs, _) := bn_mul_add_words (zdrop k r) a (n - k) w in mul_low_rows (ztake k r ++ rs) a n (k + 1) b
  end.
Definition bn_mul_low_normal (a b : list Z) (n : Z) : list Z := mul_low_rows (fst (bn_mul_words a n (znth b 0))) a n 1 (slice b 1 (n - 1)).

(** The products of different words, twice, and the squares. *)
Fixpoint sqr_rows (r : list Z) (off : Z) (ap : list Z) : list Z :=
  match ap with
  | w :: ((_ :: _) as rest) =>
      let '(rs, c) := bn_mul_add_words (zdrop off r) rest (zlen rest) w in
      sqr_rows (ztake off r ++ rs ++ [c]) (off + 2) rest
  | _ => r
  end.
Definition bn_sqr_normal (a : list Z) (n : Z) : list Z :=
  let max := n * 2 in
  let a := ztake n a in
  let r := match a with
           | w :: ((_ :: _) as rest) =>
               let '(rs, c) := bn_mul_words rest (n - 1) w in
               sqr_rows (0 :: rs ++ [c]) 3 rest ++ [0]
           | _ => [0; 0]
           end in
  let '(r, _) := bn_add_words r r max in
  let tmp := bn_sqr_words a n in
  fst (bn_add_words r tmp max).

(** ** Arrays of different lengths *)
(** [cl] words in common; [a] is longer by [dl] words, or [b] by [- dl]. (The code looks at the word [n - 1] before it counts, so [n] has to be positive.) *)
Definition bn_cmp_words (a b : list Z) (n : Z) : Z :=
  let fix from i :=
    match i with
    | O => 0
    | S i => let aa := nth i a 0 in let bb := nth i b 0 in if negb (aa =? bb) then (if bb <? aa then 1 else -1) else from i
    end in
  from (Z.to_nat n).
Definition bn_cmp_part_words (a b : list Z) (cl dl : Z) : Z :=
  if (dl <? 0) && existsb (fun w => negb (w =? 0)) (slice b cl (- dl)) then -1
  else if (0 <? dl) && existsb (fun w => negb (w =? 0)) (slice a cl dl) then 1
  else bn_cmp_words a b cl.
(** [dl < 0]: the words of [b] are subtracted from nothing. *)
Fixpoint sub_from_zero (b : list Z) (c : Z) : list Z * Z :=
  match b with
  | [] => ([], c)
  | t :: b =>
      let r := Z.land (wrap64 (0 - t - c)) BN_MASK2 in
      let c := if negb (t =? 0) then 1 else c in
      let '(rs, c) := sub_from_zero b c in
      (r :: rs, c)
  end.
(** [dl > 0]: four words at a time while there is a borrow, then a copy. (The switch for a group that was left early does nothing: a group is
    left only when [dl] is 0.) *)
Definition borrow_step (t c : Z) : Z * Z := (Z.land (wrap64 (t - c)) BN_MASK2, if negb (t =? 0) then 0 else c).
Fixpoint sub_borrow (a : list Z) (c : Z) : list Z * Z :=
  if c =? 0 then (a, c)
  else
  match a with
  | a0 :: a1 :: a2 :: a3 :: a =>
      let '(r0, c) := borrow_step a0 c in
      let '(r1, c) := borrow_step a1 c in
      let '(r2, c) := borrow_step a2 c in
      let '(r3, c) := borrow_step a3 c in
      let '(rs, c) := sub_borrow a c in
      (r0 :: r1 :: r2 :: r3 :: rs, c)
  | _ => word_loop (fun t _ c => borrow_step t c) a a c
  end.
Definition bn_sub_part_words (a b : list Z) (cl dl : Z) : list Z * Z :=
  let '(r, c) := bn_sub_words a b cl in
  if dl =? 0 then (r, c)
  else
  let '(rs, c) := if dl <? 0 then sub_from_zero (slice b cl (- dl)) c else sub_borrow (slice a cl dl) c in
  (r ++ rs, c).

(** ** Karatsuba's recursion *)
(** A carry is added at the start of [p] and goes on until it is absorbed. *)
Fixpoint carry_on (p : list Z) : list Z :=
  match p with
  | [] => []
  | lo :: p => let ln := Z.land (wrap64 (lo + 1)) BN_MASK2 in if ln =? 0 then ln :: carry_on p else ln :: p
  end.
Definition add_carry_words (c1 : Z) (p : list Z) : list Z :=
  if c1 =? 0 then p
  else match p with
       | [] => []
       | lo :: p => let ln := Z.land (wrap64 (lo + c1)) BN_MASK2 in if ln <? wrap64 c1 then ln :: carry_on p else ln :: p
       end.
(** From the products [lo] and [hi] of the halves and that of the differences, [n2] words each, to the product. *)
Definition combine (lo hi diff : list Z) (n : Z) (neg : bool) : list Z :=
  let n2 := 2 * n in
  let '(t, c) := bn_add_words lo hi n2 in
  let '(t2, c1) := if neg then let '(t2, b) := bn_sub_words t diff n2 in (t2, c - b) else let '(t2, c') := bn_add_words diff t n2 in (t2, c + c') in
  let r := lo ++ hi in
  let '(mid, c') := bn_add_words (slice r n n2) t2 n2 in
  ztake n r ++ mid ++ add_carry_words (c1 + c') (zdrop (n + n2) r).
(** The differences of the halves: [|a0 - a1|], [|b1 - b0|] and whether their signs differ. The cases are those of the switch on [c1 * 3 + c2]; where one
    difference is zero, [bn_mul_part_recursive] falls through to the next case. *)
Definition differences (a b : list Z) (n tna tnb : Z) : list Z * list Z * bool * bool :=
  let a0 := ztake n a in
  let b0 := ztake n b in
  let a1 := zdrop n a in
  let b1 := zdrop n b in
  let c1 := bn_cmp_part_words a0 a1 tna (n - tna) in
  let c2 := bn_cmp_part_words b1 b0 tnb (tnb - n) in
  let c := c1 * 3 + c2 in
  let a10 := fst (bn_sub_part_words a1 a0 tna (tna - n)) in
  let a01 := fst (bn_sub_part_words a0 a1 tna (n - tna)) in
  let b01 := fst (bn_sub_part_words b0 b1 tnb (n - tnb)) in
  let b10 := fst (bn_sub_part_words b1 b0 tnb (tnb - n)) in
  let zero := (c =? -3) || (c =? -1) || (c =? 0) || (c =? 1) || (c =? 3) in
  if c =? -4 then (a10, b01, false, zero)
  else if c <=? -2 then (a10, b10, true, zero)
  else if c <=? 2 then (a01, b01, true, zero)
  else (a01, b10, false, zero).
Fixpoint bn_mul_recursive (fuel : nat) (a b : list Z) (n2 dna dnb : Z) : list Z :=
  match fuel with
  | O => []
  | S fuel =>
    let n := n2 / 2 in
    if (n2 =? 8) && (dna =? 0) && (dnb =? 0) then bn_mul_comba8 a b
    else if n2 <? BN_MUL_RECURSIVE_SIZE_NORMAL then
      bn_mul_normal a (n2 + dna) b (n2 + dnb) ++ (if dna + dnb <? 0 then zeros (- (dna + dnb)) else [])
    else
    let '(ta, tb, neg, zero) := differences a b n (n + dna) (n + dnb) in
    let neg := neg && negb zero in
    let a0 := ztake n a in
    let b0 := ztake n b in
    let a1 := zdrop n a in
    let b1 := zdrop n b in
    if (n =? 4) && (dna =? 0) && (dnb =? 0) then
      combine (bn_mul_comba4 a0 b0) (bn_mul_comba4 a1 b1) (if zero then zeros 8 else bn_mul_comba4 ta tb) n neg
    else if (n =? 8) && (dna =? 0) && (dnb =? 0) then
      combine (bn_mul_comba8 a0 b0) (bn_mul_comba8 a1 b1) (if zero then zeros 16 else bn_mul_comba8 ta tb) n neg
    else
      combine (bn_mul_recursive fuel a0 b0 n 0 0) (bn_mul_recursive fuel a1 b1 n dna dnb)
        (if zero then zeros n2 else bn_mul_recursive fuel ta tb n 0 0) n neg
  end.
(** The [for (;;)] that looks for a power of two at most as large as one of the lengths. *)
Fixpoint halve_until (fuel : nat) (i tna tnb : Z) : Z :=
  match fuel with
  | O => i
  | S fuel => let i := i / 2 in if (i <=? tna) || (i <=? tnb) then i else halve_until fuel i tna tnb
  end.
Fixpoint bn_mul_part_recursive (fuel : nat) (a b : list Z) (n tna tnb : Z) : list Z :=
  match fuel with
  | O => []
  | S fuel =>
    let n2 := n * 2 in
    if n <? 8 then bn_mul_normal a (n + tna) b (n + tnb)
    else
    let '(ta, tb, neg, _) := differences a b n tna tnb in
    let a0 := ztake n a in
    let b0 := ztake n b in
    let a1 := zdrop n a in
    let b1 := zdrop n b in
    if n =? 8 then
      combine (bn_mul_comba8 a0 b0) (bn_mul_normal a1 tna b1 tnb ++ zeros (n2 - tna - tnb)) (bn_mul_comba8 ta tb) n neg
    else
    let mul_rec x y := bn_mul_recursive fuel x y in
    let i := n / 2 in
    let j := (if tnb <? tna then tna else tnb) - i in
    let hi :=
      if j =? 0 then mul_rec a1 b1 i (tna - i) (tnb - i) ++ zeros (n2 - i * 2)
      else if 0 <? j then ztake (tna + tnb) (bn_mul_part_recursive fuel a1 b1 i (tna - i) (tnb - i)) ++ zeros (n2 - tna - tnb)
      else if (tna <? BN_MUL_RECURSIVE_SIZE_NORMAL) && (tnb <? BN_MUL_RECURSIVE_SIZE_NORMAL) then overwrite (zeros n2) 0 (bn_mul_normal a1 tna b1 tnb)
      else
      let i := halve_until fuel i tna tnb in
      overwrite (zeros n2) 0 (if (i <? tna) || (i <? tnb) then bn_mul_part_recursive fuel a1 b1 i (tna - i) (tnb - i) else mul_rec a1 b1 i (tna - i) (tnb - i)) in
    combine (mul_rec a0 b0 n 0 0) hi (mul_rec ta tb n 0 0) n neg
  end.
Fixpoint bn_sqr_recursive (fuel : nat) (a : list Z) (n2 : Z) : list Z :=
  match fuel with
  | O => []
  | S fuel =>
    let n := n2 / 2 in
    if n2 =? 4 then bn_sqr_comba4 a
    else if n2 =? 8 then bn_sqr_comba8 a
    else if n2 <? BN_SQR_RECURSIVE_SIZE_NORMAL then bn_sqr_normal a n2
    else
    let a0 := ztake n a in
    let a1 := zdrop n a in
    let c1 := bn_cmp_words a0 a1 n in
    let t := if 0 <? c1 then fst (bn_sub_words a0 a1 n) else fst (bn_sub_words a1 a0 n) in
    combine (bn_sqr_recursive fuel a0 n) (bn_sqr_recursive fuel a1 n) (if c1 =? 0 then zeros n2 else bn_sqr_recursive fuel t n) n true
  end.

Example mul_small : bn_val (bn_mul_normal [3; 5; 7] 3 [2; 2 ^ 64 - 1] 2) = bn_val [3; 5; 7] * bn_val [2; 2 ^ 64 - 1].
Proof. vm_compute. reflexivity. Qed.
Definition ramp (k : Z) (n : nat) : list Z := (fun i => (k * (Z.of_nat i * Z.of_nat i + 17) * 0x9e3779b97f4a7c15) mod 2 ^ 64) <$> seq 1 n.
Example sqr_small : bn_val (bn_sqr_normal (ramp 3 5) 5) = bn_val (ramp 3 5) ^ 2 /\ bn_val (bn_sqr_comba4 (ramp 3 4)) = bn_val (ramp 3 4) ^ 2.
Proof. vm_compute. done. Qed.
