(* ===== verification/BnMulSpec.v ===== *)
(** * Multiplication: every routine computes the product

    The columns, the rows and Karatsuba's recursion of BnMul.v all give the words of the product of the numbers that their arguments stand for. *)
From S2P Require Import Prelude Words BnWord BnMul.

(** ** Columns *)
Definition acc_val (c : acc) : Z := let '(c0, c1, c2) := c in c0 + 2 ^ 64 * c1 + 2 ^ 128 * c2.
Definition acc_ok (c : acc) : Prop := let '(c0, c1, c2) := c in is_word c0 /\ is_word c1 /\ is_word c2.

(** One addition of a product [(lo, hi)] to the accumulators. *)
Definition acc_add (lo hi : Z) (c : acc) : acc :=
  let '(c0, c1, c2) := c in
  let c0 := Z.land (wrap64 (c0 + lo)) BN_MASK2 in
  let hi := if c0 <? lo then wrap64 (hi + 1) else hi in
  let c1 := Z.land (wrap64 (c1 + hi)) BN_MASK2 in
  let c2 := if c1 <? hi then wrap64 (c2 + 1) else c2 in
  (c0, c1, c2).
Lemma acc_add_spec lo hi c :
  is_word lo -> is_word hi -> lo + 2 ^ 64 * hi <= (2 ^ 64 - 1) * (2 ^ 64 - 1) -> acc_ok c -> acc_val c + (lo + 2 ^ 64 * hi) < 2 ^ 192 ->
  acc_ok (acc_add lo hi c) /\ acc_val (acc_add lo hi c) = acc_val c + (lo + 2 ^ 64 * hi).
Proof.
  destruct c as [[c0 c1] c2]. intros Hlo Hhi Hp (H0 & H1 & H2). cbn [acc_val acc_add acc_ok]. rewrite !mask_id. intros Hlt.
  pose proof (add_carry c0 lo H0 Hlo) as E0. set (d0 := wrap64 (c0 + lo)) in *. assert (Hd0 : is_word d0) by apply wrap64_word. clearbody d0.
  set (h := if d0 <? lo then wrap64 (hi + 1) else hi). assert (Eh : h = hi + bit (d0 <? lo)) by (unfold h, is_word in *; destruct (d0 <? lo); unfold bit; unwrap; lia). clearbody h.
  assert (Hh : is_word h) by (unfold is_word, bit in *; destruct (d0 <? lo); lia).
  pose proof (add_carry c1 h H1 Hh) as E1. set (d1 := wrap64 (c1 + h)) in *. assert (Hd1 : is_word d1) by apply wrap64_word. clearbody d1. unfold is_word in *.
  destruct (d1 <? h), (d0 <? lo); unfold bit in *; unwrap; lia.
Qed.
Lemma mul_add_c_spec a b c : is_word a -> is_word b -> acc_ok c -> acc_val c + a * b < 2 ^ 192 ->
  acc_ok (mul_add_c a b c) /\ acc_val (mul_add_c a b c) = acc_val c + a * b.
Proof.
  intros Ha Hb Hc Hlt. pose proof (mul64_word a b Ha Hb) as Hm. assert (E : mul_add_c a b c = let '(lo, hi) := mul64 (LBITS a) (HBITS a) (LBITS b) (HBITS b) in acc_add lo hi c) by (by destruct c as [[? ?] ?]).
  rewrite E. destruct (mul64 _ _ _ _) as [lo hi]. destruct Hm as (Hlo & Hhi & Hp). pose proof (word_prod a b Ha Hb). rewrite <- Hp in *. apply acc_add_spec; try done; lia.
Qed.
Lemma mul_add_c2_spec a b c : is_word a -> is_word b -> acc_ok c -> acc_val c + 2 * (a * b) < 2 ^ 192 ->
  acc_ok (mul_add_c2 a b c) /\ acc_val (mul_add_c2 a b c) = acc_val c + 2 * (a * b).
Proof.
  intros Ha Hb Hc Hlt. pose proof (mul64_word a b Ha Hb) as Hm. assert (E : mul_add_c2 a b c = let '(lo, hi) := mul64 (LBITS a) (HBITS a) (LBITS b) (HBITS b) in acc_add lo hi (acc_add lo hi c)) by (by destruct c as [[? ?] ?]).
  rewrite E. destruct (mul64 _ _ _ _) as [lo hi]. destruct Hm as (Hlo & Hhi & Hp). pose proof (word_prod a b Ha Hb). rewrite <- Hp in *.
  destruct (acc_add_spec lo hi c) as [Hok E1]; try done; [lia..|]. destruct (acc_add_spec lo hi (acc_add lo hi c)) as [Hok2 E2]; try done; [lia..|]. split; [done|lia].
Qed.
Lemma znth_word a i : Forall is_word a -> is_word (znth a i).
Proof. intros Ha. unfold znth. destruct (nth_in_or_default (Z.to_nat i) a 0) as [Hin| ->]; [|done]. rewrite Forall_forall in Ha. apply Ha, list_elem_of_In, Hin. Qed.
Lemma sqr_add_c_spec a i c : Forall is_word a -> acc_ok c -> acc_val c + znth a i * znth a i < 2 ^ 192 ->
  acc_ok (sqr_add_c a i c) /\ acc_val (sqr_add_c a i c) = acc_val c + znth a i * znth a i.
Proof.
  intros Ha Hc Hlt. pose proof (znth_word a i Ha) as Hw. pose proof (sqr64_spec (znth a i) Hw) as Hm. assert (E : sqr_add_c a i c = let '(lo, hi) := sqr64 (znth a i) in acc_add lo hi c) by (by destruct c as [[? ?] ?]).
  rewrite E. destruct (sqr64 _) as [lo hi]. destruct Hm as (Hlo & Hhi & Hp). pose proof (word_prod _ _ Hw Hw). rewrite <- Hp in *. apply acc_add_spec; try done; lia.
Qed.

(** Columns of at most 8 terms, each of which adds a value of at most two products. *)
Section Columns.
Context (step : Z * Z -> acc -> acc) (value : Z * Z -> Z).
Context (Hvalue : forall ij, 0 <= value ij <= 2 * ((2 ^ 64 - 1) * (2 ^ 64 - 1))).
Context (Hstep : forall ij c, acc_ok c -> acc_val c + value ij < 2 ^ 192 -> acc_ok (step ij c) /\ acc_val (step ij c) = acc_val c + value ij).
Definition col_sum (col : list (Z * Z)) : Z := fold_right (fun ij s => value ij + s) 0 col.
Definition cols_sum (cols : list (list (Z * Z))) : Z := fold_right (fun col s => col_sum col + 2 ^ 64 * s) 0 cols.

Lemma col_sum_bound col : 0 <= col_sum col <= zlen col * 2 ^ 129.
Proof.
  induction col as [|ij col IH]; [done|]. cbn [col_sum fold_right]. fold (col_sum col). rewrite zlen_cons. pose proof (Hvalue ij). lia.
Qed.
Lemma col_fold col : forall c, acc_ok c -> acc_val c + col_sum col < 2 ^ 192 ->
  acc_ok (fold_left (fun c ij => step ij c) col c) /\ acc_val (fold_left (fun c ij => step ij c) col c) = acc_val c + col_sum col.
Proof.
  induction col as [|ij col IH]; intros c Hc Hlt; [cbn; split; [done|lia]|]. cbn [col_sum fold_right fold_left] in *. fold (col_sum col) in *.
  pose proof (col_sum_bound col). pose proof (zlen_nonneg col). destruct (Hstep ij c Hc ltac:(nia)) as [Hok E]. destruct (IH (step ij c) Hok ltac:(lia)) as [Hok2 E2]. split; [done|lia].
Qed.
Lemma columns_spec cols : forall c, Forall (fun col => zlen col <= 8) cols -> acc_ok c -> acc_val c < 2 ^ 70 -> acc_val c + cols_sum cols < radix (1 + zlen cols) ->
  words_of (columns step cols c) (1 + zlen cols) /\ bn_val (columns step cols c) = acc_val c + cols_sum cols.
Proof.
  induction cols as [|col cols IH]; intros c Hcols Hc Hb Hlt.
  - destruct c as [[c0 c1] c2]. destruct Hc as (H0 & H1 & H2). cbn [columns]. change (radix (1 + zlen [])) with (2 ^ 64) in Hlt. cbn [acc_val cols_sum fold_right] in *. unfold is_word in *. assert (c1 = 0 /\ c2 = 0) as [-> ->] by lia.
    split; [split; [done|]; constructor; [exact H0|constructor]|]. rewrite bn_val_cons, bn_val_nil. lia.
  - apply Forall_cons in Hcols as [Hcol Hcols]. cbn [columns cols_sum fold_right] in *. fold (cols_sum cols) in *. pose proof (col_sum_bound col) as Hs.
    destruct (col_fold col c Hc ltac:(lia)) as [Hok E]. destruct (fold_left _ col c) as [[c0 c1] c2]. destruct Hok as (H0 & H1 & H2). cbn [acc_val] in E.
    rewrite zlen_cons, (radix_succ (1 + zlen cols)) in * by (pose proof (zlen_nonneg cols); lia). unfold is_word in *.
    assert (Hnext : acc_val (c1, c2, 0) = c1 + 2 ^ 64 * c2) by (cbn [acc_val]; lia).
    assert (Hc' : acc_ok (c1, c2, 0)) by (cbn; unfold is_word; lia). assert (Hb' : c1 + 2 ^ 64 * c2 < 2 ^ 70) by lia.
    destruct (IH (c1, c2, 0) Hcols Hc') as [[Hl Hw] Hv]; [lia|lia|]. split; [split; [rewrite zlen_cons; lia|by constructor]|]. rewrite bn_val_cons, Hv, Hnext. lia.
Qed.
End Columns.

Lemma mul_term_spec a b ij c : Forall is_word a -> Forall is_word b -> acc_ok c -> acc_val c + znth a (fst ij) * znth b (snd ij) < 2 ^ 192 ->
  acc_ok (mul_term a b ij c) /\ acc_val (mul_term a b ij c) = acc_val c + znth a (fst ij) * znth b (snd ij).
Proof. intros Ha Hb Hc Hlt. apply mul_add_c_spec; try done; by apply znth_word. Qed.
Definition sqr_value (a : list Z) (ij : Z * Z) : Z := (if fst ij =? snd ij then 1 else 2) * (znth a (fst ij) * znth a (snd ij)).
Lemma sqr_term_spec a ij c : Forall is_word a -> acc_ok c -> acc_val c + sqr_value a ij < 2 ^ 192 ->
  acc_ok (sqr_term a ij c) /\ acc_val (sqr_term a ij c) = acc_val c + sqr_value a ij.
Proof.
  intros Ha Hc. unfold sqr_value, sqr_term. destruct (Z.eqb_spec (fst ij) (snd ij)) as [<-|_]; [rewrite Z.mul_1_l; by apply sqr_add_c_spec|].
  apply mul_add_c2_spec; try done; by apply znth_word.
Qed.

(** An array of a known length, word by word. *)
Lemma words_cons a n : words_of a n -> 0 < n -> exists x a', a = x :: a' /\ is_word x /\ words_of a' (n - 1).
Proof.
  intros [Hl Hw] Hn. destruct a as [|x a]; [unfold zlen in Hl; cbn in Hl; lia|]. apply Forall_cons in Hw as [Hx Hw]. exists x, a. split; [done|]. split; [done|]. split; [rewrite zlen_cons in Hl; lia|done].
Qed.
Lemma words_nil a : words_of a 0 -> a = [].
Proof. intros [Hl _]. by apply zlen_0_nil. Qed.
Ltac explode :=
  repeat match goal with
  | H : words_of ?l ?n |- _ =>
      let m := eval compute in (n =? 0) in
      lazymatch m with
      | true => apply words_nil in H; subst l
      | false =>
          let m' := eval compute in (n - 1) in let x := fresh "x" in let t := fresh "t" in let H' := fresh "H" in let E := fresh "E" in
          destruct (words_cons l n H ltac:(reflexivity)) as (x & t & E & _ & H'); clear H; subst l; change (n - 1) with m' in H'
      end
  end.
Ltac columns_value :=
  unfold cols_sum, col_sum; cbn [fold_right fst snd sqr_value Z.eqb Pos.eqb]; unfold sqr_value; cbn [fst snd Z.eqb Pos.eqb];
  repeat match goal with |- context [znth ?l ?i] => let v := eval cbv [znth Z.to_nat Pos.to_nat Pos.iter_op Init.Nat.add nth] in (znth l i) in change (znth l i) with v end;
  rewrite ?bn_val_cons, ?bn_val_nil; ring.
Lemma product_bound a b m n : words_of a m -> words_of b n -> 0 <= bn_val a * bn_val b < radix (m + n).
Proof.
  intros [Hl Hw] [Hl' Hw']. pose proof (bn_val_bound a Hw). pose proof (bn_val_bound b Hw'). pose proof (zlen_nonneg a). pose proof (zlen_nonneg b). rewrite radix_add by lia. rewrite Hl, Hl' in *. nia.
Qed.
Lemma comba_mul a b n cols : words_of a n -> words_of b n -> 0 < n -> Forall (fun col => zlen col <= 8) cols -> 1 + zlen cols = n + n ->
  cols_sum (fun ij => znth a (fst ij) * znth b (snd ij)) cols = bn_val a * bn_val b ->
  words_of (columns (mul_term a b) cols (0, 0, 0)) (n + n) /\ bn_val (columns (mul_term a b) cols (0, 0, 0)) = bn_val a * bn_val b.
Proof.
  intros Ha Hb Hn Hc Hl Hv. pose proof (product_bound a b n n Ha Hb) as Hp. destruct Ha as [_ Ha]. destruct Hb as [_ Hb].
  destruct (columns_spec (mul_term a b) (fun ij => znth a (fst ij) * znth b (snd ij))) with (cols := cols) (c := (0, 0, 0)) as [Hw E]; try done.
  - intros ij. pose proof (word_prod _ _ (znth_word a (fst ij) Ha) (znth_word b (snd ij) Hb)). lia.
  - intros ij c Hok Hlt. by apply mul_term_spec.
  - rewrite Hv, Hl. change (acc_val (0, 0, 0)) with 0. lia.
  - rewrite Hl in Hw. split; [done|]. rewrite E, Hv. change (acc_val (0, 0, 0)) with 0. lia.
Qed.
Lemma comba_sqr a n cols : words_of a n -> 0 < n -> Forall (fun col => zlen col <= 8) cols -> 1 + zlen cols = n + n ->
  cols_sum (sqr_value a) cols = bn_val a * bn_val a ->
  words_of (columns (sqr_term a) cols (0, 0, 0)) (n + n) /\ bn_val (columns (sqr_term a) cols (0, 0, 0)) = bn_val a * bn_val a.
Proof.
  intros Ha Hn Hc Hl Hv. pose proof (product_bound a a n n Ha Ha) as Hp. destruct Ha as [_ Ha].
  destruct (columns_spec (sqr_term a) (sqr_value a)) with (cols := cols) (c := (0, 0, 0)) as [Hw E]; try done.
  - intros ij. pose proof (word_prod _ _ (znth_word a (fst ij) Ha) (znth_word a (snd ij) Ha)). unfold sqr_value. destruct (_ =? _); lia.
  - intros ij c Hok Hlt. by apply sqr_term_spec.
  - rewrite Hv, Hl. change (acc_val (0, 0, 0)) with 0. lia.
  - rewrite Hl in Hw. split; [done|]. rewrite E, Hv. change (acc_val (0, 0, 0)) with 0. lia.
Qed.
Ltac short_columns := repeat constructor; vm_compute; discriminate.
Lemma bn_mul_comba4_spec a b : words_of a 4 -> words_of b 4 -> words_of (bn_mul_comba4 a b) 8 /\ bn_val (bn_mul_comba4 a b) = bn_val a * bn_val b.
Proof. intros Ha Hb. apply (comba_mul a b 4); [done..|short_columns|done|]. explode. columns_value. Qed.
Lemma bn_mul_comba8_spec a b : words_of a 8 -> words_of b 8 -> words_of (bn_mul_comba8 a b) 16 /\ bn_val (bn_mul_comba8 a b) = bn_val a * bn_val b.
Proof. intros Ha Hb. apply (comba_mul a b 8); [done..|short_columns|done|]. explode. columns_value. Qed.
Lemma bn_sqr_comba4_spec a : words_of a 4 -> words_of (bn_sqr_comba4 a) 8 /\ bn_val (bn_sqr_comba4 a) = bn_val a * bn_val a.
Proof. intros Ha. apply (comba_sqr a 4); [done..|short_columns|done|]. explode. columns_value. Qed.
Lemma bn_sqr_comba8_spec a : words_of a 8 -> words_of (bn_sqr_comba8 a) 16 /\ bn_val (bn_sqr_comba8 a) = bn_val a * bn_val a.
Proof. intros Ha. apply (comba_sqr a 8); [done..|short_columns|done|]. explode. columns_value. Qed.

(** ** Rows *)
Lemma bn_val_split l k : 0 <= k <= zlen l -> bn_val l = bn_val (ztake k l) + radix k * bn_val (zdrop k l).
Proof. intros Hk. rewrite <- (ztake_zdrop k l) at 1. rewrite bn_val_app, zlen_ztake, Z.min_l by lia. done. Qed.
Lemma words_of_nonneg l n : words_of l n -> 0 <= n.
Proof. intros [<- _]. apply zlen_nonneg. Qed.
Lemma words_of_app a b m n : words_of a m -> words_of b n -> words_of (a ++ b) (m + n).
Proof. intros [<- Ha] [<- Hb]. split; [apply zlen_app|by apply Forall_app]. Qed.
Lemma words_take l n k : words_of l n -> 0 <= k <= n -> words_of (ztake k l) k.
Proof. intros [<- Hw] Hk. by apply words_of_take. Qed.
Lemma words_drop l n k : words_of l n -> 0 <= k <= n -> words_of (zdrop k l) (n - k).
Proof. intros [<- Hw] Hk. split; [zl|by apply Forall_zdrop]. Qed.
Lemma words_slice l n k m : words_of l n -> 0 <= k -> 0 <= m -> k + m <= n -> words_of (slice l k m) m.
Proof. intros Hl Hk Hm Hn. unfold slice. apply (words_take _ (n - k)); [apply words_drop; [done|lia]|lia]. Qed.
Lemma bn_val_single x : bn_val [x] = x.
Proof. rewrite bn_val_cons, bn_val_nil. lia. Qed.
Lemma words_single c : is_word c -> words_of [c] 1.
Proof. split; [done|by constructor]. Qed.
Lemma words_zeros n : 0 <= n -> words_of (zeros n) n.
Proof. split; [by apply zlen_zeros|apply zeros_words]. Qed.
Lemma words_bound l n : words_of l n -> 0 <= bn_val l < radix n.
Proof. intros [<- Hw]. by apply bn_val_bound. Qed.

Lemma add_row r rs c k na v : words_of r (na + k) -> words_of rs na -> is_word c -> 0 <= k -> bn_val rs + radix na * c = bn_val (zdrop k r) + v ->
  words_of (ztake k r ++ rs ++ [c]) (na + (k + 1)) /\ bn_val (ztake k r ++ rs ++ [c]) = bn_val r + radix k * v.
Proof.
  intros Hr Hrs Hc Hk E. pose proof (words_of_nonneg _ _ Hrs) as Hna. pose proof (words_take r _ k Hr ltac:(lia)) as Ht. split.
  - replace (na + (k + 1)) with (k + (na + 1)) by lia. repeat apply words_of_app; try done. by apply words_single.
  - destruct Hr as [Hl _]. rewrite !bn_val_app, (proj1 Ht), (proj1 Hrs), bn_val_cons, bn_val_nil, (bn_val_split r k) by lia.
    transitivity (bn_val (ztake k r) + radix k * (bn_val rs + radix na * c)); [ring|]. rewrite E. ring.
Qed.
Lemma mul_rows_spec b : forall r a na k, words_of r (na + k) -> words_of a na -> Forall is_word b -> 0 <= k ->
  words_of (mul_rows r a na k b) (na + k + zlen b) /\ bn_val (mul_rows r a na k b) = bn_val r + radix k * (bn_val a * bn_val b).
Proof.
  induction b as [|w b IH]; intros r a na k Hr Ha Hb Hk; cbn [mul_rows]; [change (zlen []) with 0; rewrite bn_val_nil, Z.add_0_r; split; [done|lia]|].
  apply Forall_cons in Hb as [Hw Hb]. pose proof (words_of_nonneg _ _ Ha) as Hna. pose proof (words_drop r _ k Hr ltac:(lia)) as Hd. replace (na + k - k) with na in Hd by lia.
  pose proof (bn_mul_add_words_spec (zdrop k r) a w na Hd Ha Hw) as Hs. destruct (bn_mul_add_words _ _ _ _) as [rs c]. destruct Hs as (Hrs & Hc & E).
  destruct (add_row r rs c k na _ Hr Hrs Hc Hk E) as [Hr' E']. destruct (IH _ a na (k + 1) Hr' Ha Hb ltac:(lia)) as [Hw2 Ev].
  rewrite zlen_cons. split; [replace (na + k + (1 + zlen b)) with (na + (k + 1) + zlen b) by lia; done|]. rewrite Ev, E', bn_val_cons, radix_add by lia. change (radix 1) with (2 ^ 64). ring.
Qed.
Lemma bn_mul_normal_spec a b na nb : words_of a na -> words_of b nb -> words_of (bn_mul_normal a na b nb) (na + nb) /\ bn_val (bn_mul_normal a na b nb) = bn_val a * bn_val b.
Proof.
  assert (H : forall a b na nb, words_of a na -> words_of b nb ->
    let r := if nb <=? 0 then fst (bn_mul_words a na 0) else let '(rs, c) := bn_mul_words a na (znth b 0) in mul_rows (rs ++ [c]) a na 1 (slice b 1 (nb - 1)) in
    words_of r (na + nb) /\ bn_val r = bn_val a * bn_val b).
  { clear. intros a b na nb Ha Hb. pose proof (words_of_nonneg _ _ Ha). pose proof (words_of_nonneg _ _ Hb). destruct (Z.leb_spec nb 0).
    - assert (nb = 0) as -> by lia. apply words_nil in Hb. subst b. pose proof (bn_mul_words_spec a 0 na Ha ltac:(by unfold is_word)) as Hs. destruct (bn_mul_words a na 0) as [rs c]. destruct Hs as (Hrs & Hc & E).
      cbn [fst]. rewrite Z.add_0_r, bn_val_nil. split; [done|]. pose proof (words_bound _ _ Hrs). pose proof (radix_pos na ltac:(lia)). unfold is_word in Hc. nia.
    - destruct (words_cons b nb Hb ltac:(lia)) as (w & b' & -> & Hw & Hb'). change (znth (w :: b') 0) with w. pose proof (bn_mul_words_spec a w na Ha Hw) as Hs. destruct (bn_mul_words a na w) as [rs c]. destruct Hs as (Hrs & Hc & E).
      assert (Esl : slice (w :: b') 1 (nb - 1) = b') by (unfold slice; change (zdrop 1 (w :: b')) with b'; apply ztake_ge; destruct Hb'; lia). rewrite Esl.
      destruct (mul_rows_spec b' (rs ++ [c]) a na 1) as [Hw2 Ev]; [apply words_of_app; [done|by apply words_single]|done|apply Hb'|lia|]. rewrite (proj1 Hb') in Hw2. split; [by replace (na + nb) with (na + 1 + (nb - 1)) by lia|].
      rewrite Ev, bn_val_app, !bn_val_cons, bn_val_nil, (proj1 Hrs). change (radix 1) with (2 ^ 64). transitivity (bn_val rs + radix na * c + 2 ^ 64 * (bn_val a * bn_val b')); [ring|]. rewrite E. ring. }
  intros Ha Hb. unfold bn_mul_normal. destruct (na <? nb); [|by apply H]. rewrite Z.add_comm, Z.mul_comm. by apply H.
Qed.

(** ** Squares *)
(** The products of different words, once, shifted down by a word, and the squares of the words. *)
Fixpoint cross (a : list Z) : Z := match a with [] => 0 | w :: a => w * bn_val a + 2 ^ 128 * cross a end.
Fixpoint squares (a : list Z) : Z := match a with [] => 0 | w :: a => w * w + 2 ^ 128 * squares a end.
Lemma square_split a : bn_val a * bn_val a = squares a + 2 * (2 ^ 64 * cross a).
Proof. induction a as [|w a IH]; [done|]. rewrite bn_val_cons. cbn [squares cross]. transitivity (w * w + 2 * (2 ^ 64 * (w * bn_val a)) + 2 ^ 128 * (bn_val a * bn_val a)); [ring|]. rewrite IH. ring. Qed.
Lemma cross_nonneg a : Forall is_word a -> 0 <= cross a.
Proof. induction 1 as [|w a Hw Ha IH]; [done|]. cbn [cross]. pose proof (bn_val_bound a Ha). unfold is_word in Hw. nia. Qed.
Lemma squares_nonneg a : 0 <= squares a.
Proof. induction a as [|w a IH]; [done|]. cbn [squares]. nia. Qed.
Lemma sqr_loop_spec a : Forall is_word a -> words_of (sqr_loop4 a) (2 * zlen a) /\ bn_val (sqr_loop4 a) = squares a.
Proof.
  assert (H : forall a, Forall is_word a -> words_of (sqr_loop a) (2 * zlen a) /\ bn_val (sqr_loop a) = squares a).
  { induction 1 as [|w a0 Hw Ha [[Hl Hws] IH]]; [done|]. cbn [sqr_loop squares]. pose proof (sqr64_spec w Hw) as Hs. destruct (sqr64 w) as [l h]. destruct Hs as (Hlo & Hhi & E).
    rewrite !bn_val_cons, zlen_cons, IH, <- E. split; [split; [rewrite !zlen_cons; lia|constructor; [done|by constructor]]|ring]. }
  assert (E : forall n a, (length a <= n)%nat -> sqr_loop4 a = sqr_loop a).
  { induction n as [|n IH]; intros [|x0 [|x1 [|x2 [|x3 a']]]] Hn; try done; try (cbn in Hn; lia). cbn [sqr_loop4 sqr_loop].
    destruct (sqr64 x0), (sqr64 x1), (sqr64 x2), (sqr64 x3). rewrite IH by (cbn in Hn; lia). done. }
  intros Ha. rewrite (E (length a)) by lia. by apply H.
Qed.
Lemma bn_sqr_words_spec a n : words_of a n -> words_of (bn_sqr_words a n) (2 * n) /\ bn_val (bn_sqr_words a n) = squares a.
Proof.
  intros [Hl Hw]. unfold bn_sqr_words. destruct (Z.leb_spec n 0) as [Hn|Hn]; [|rewrite ztake_ge, <- Hl by lia; by apply sqr_loop_spec].
  pose proof (zlen_nonneg a). assert (n = 0) as -> by lia. apply zlen_0_nil in Hl. by subst a.
Qed.
Lemma sqr_rows_spec ap : forall r off, Forall is_word ap -> words_of r (zlen ap + off - 1) -> 0 <= off -> 0 < zlen ap ->
  words_of (sqr_rows r off ap) (2 * zlen ap + off - 2) /\ bn_val (sqr_rows r off ap) = bn_val r + radix off * cross ap.
Proof.
  induction ap as [|w ap IH]; intros r off Hap Hr Hoff Hpos; [unfold zlen in Hpos; cbn in Hpos; lia|]. apply Forall_cons in Hap as [Hw Hap]. cbn [sqr_rows].
  destruct ap as [|w2 ap']; [split; [replace (2 * zlen [w] + off - 2) with (zlen [w] + off - 1) by (change (zlen [w]) with 1; lia); exact Hr|cbn [cross]; rewrite bn_val_nil; lia]|].
  set (rest := w2 :: ap') in *. assert (Hrp : 0 < zlen rest) by (unfold rest; rewrite zlen_cons; pose proof (zlen_nonneg ap'); lia). rewrite (zlen_cons w rest) in *.
  replace (1 + zlen rest + off - 1) with (zlen rest + off) in Hr by lia. pose proof (words_drop r _ off Hr ltac:(lia)) as Hd. replace (zlen rest + off - off) with (zlen rest) in Hd by lia.
  pose proof (bn_mul_add_words_spec (zdrop off r) rest w (zlen rest) Hd (conj eq_refl Hap) Hw) as Hs. destruct (bn_mul_add_words _ _ _ _) as [rs c]. destruct Hs as (Hrs & Hc & E).
  destruct (add_row r rs c off (zlen rest) _ Hr Hrs Hc Hoff E) as [Hr' E']. destruct (IH (ztake off r ++ rs ++ [c]) (off + 2) Hap) as [Hw2 Ev]; [by replace (zlen rest + (off + 2) - 1) with (zlen rest + (off + 1)) by lia|lia|done|].
  split; [by replace (2 * (1 + zlen rest) + off - 2) with (2 * zlen rest + (off + 2) - 2) by lia|]. rewrite Ev, E', radix_add by lia. change (radix 2) with (2 ^ 128). cbn [cross]. ring.
Qed.
Lemma bn_sqr_normal_spec a n : words_of a n -> 0 < n -> words_of (bn_sqr_normal a n) (2 * n) /\ bn_val (bn_sqr_normal a n) = bn_val a * bn_val a.
Proof.
  intros Ha Hn. unfold bn_sqr_normal. rewrite ztake_ge by (destruct Ha; lia). set (r := match a with [] => _ | _ => _ end).
  assert (Hr : words_of r (2 * n) /\ bn_val r = 2 ^ 64 * cross a).
  { destruct (words_cons a n Ha Hn) as (w & rest & -> & Hw & Hrest). unfold r. clear r. destruct rest as [|w2 rest'].
    - destruct Hrest as [Hl _]. change (zlen []) with 0 in Hl. replace n with 1 by lia. cbn [cross]. rewrite bn_val_nil. split; [split; [done|repeat constructor; by unfold is_word]|cbn; lia].
    - set (rest := w2 :: rest') in *. pose proof (bn_mul_words_spec rest w (n - 1) Hrest Hw) as Hs. destruct (bn_mul_words rest (n - 1) w) as [rs c]. destruct Hs as (Hrs & Hc & E).
      assert (H0w : is_word 0) by (by unfold is_word).
      assert (Hr0 : words_of (0 :: rs ++ [c]) (1 + (n - 1 + 1))) by (apply (words_of_app [0]); [by apply words_single|apply words_of_app; [done|by apply words_single]]).
      assert (Hl1 : 0 < zlen rest) by (unfold rest; rewrite zlen_cons; pose proof (zlen_nonneg rest'); lia). destruct Hrest as [Hlr Hwr].
      destruct (sqr_rows_spec rest (0 :: rs ++ [c]) 3 Hwr) as [Hw2 Ev]; [by replace (zlen rest + 3 - 1) with (1 + (n - 1 + 1)) by lia|lia|lia|].
      split; [replace (2 * n) with (2 * zlen rest + 3 - 2 + 1) by lia; apply words_of_app; [done|by apply words_single]|].
      rewrite bn_val_app, Ev, !bn_val_cons, bn_val_app, bn_val_cons, bn_val_nil, (proj1 Hrs). change (radix 3) with (2 ^ 64 * 2 ^ 128). cbn [cross].
      transitivity (2 ^ 64 * (bn_val rs + radix (n - 1) * c) + 2 ^ 64 * 2 ^ 128 * cross rest); [ring|]. rewrite E. ring. }
  destruct Hr as [Hr Er]. clearbody r. pose proof (product_bound a a n n Ha Ha) as Hp. pose proof (square_split a) as Hsq. pose proof (squares_nonneg a). pose proof (cross_nonneg a (proj2 Ha)).
  replace (n * 2) with (2 * n) by lia. replace (n + n) with (2 * n) in Hp by lia. pose proof (radix_pos (2 * n) ltac:(lia)) as Hrad.
  pose proof (bn_add_words_spec r r (2 * n) Hr Hr) as Hs. destruct (bn_add_words r r (2 * n)) as [r2 c2]. destruct Hs as (Hr2 & Hc2 & E2). pose proof (words_bound _ _ Hr2).
  assert (c2 = 0) as -> by nia. destruct (bn_sqr_words_spec a n Ha) as [Hsw Es].
  pose proof (bn_add_words_spec r2 (bn_sqr_words a n) (2 * n) Hr2 Hsw) as Hs. destruct (bn_add_words r2 _ _) as [r3 c3]. destruct Hs as (Hr3 & Hc3 & E3). pose proof (words_bound _ _ Hr3). cbn [fst].
  assert (c3 = 0) as -> by nia. split; [done|lia].
Qed.

(** ** Arrays of different lengths *)
Lemma bn_cmp_words_spec a b n : 0 <= n -> n <= zlen a -> n <= zlen b -> Forall is_word a -> Forall is_word b ->
  bn_cmp_words a b n = Z.sgn (bn_val (ztake n a) - bn_val (ztake n b)).
Proof.
  intros Hn Hla Hlb Ha Hb. unfold bn_cmp_words, ztake. unfold zlen in *. remember (Z.to_nat n) as m eqn:E. assert (Hma : (m <= length a)%nat) by lia. assert (Hmb : (m <= length b)%nat) by lia. clear E Hla Hlb Hn n.
  induction m as [|i IH]; [done|].
  assert (Hs : forall l, (S i <= length l)%nat -> bn_val (take (S i) l) = bn_val (take i l) + radix (Z.of_nat i) * nth i l 0).
  { intros l Hl. rewrite (take_S_r _ _ (nth i l 0)) by (by apply lookup_lt_is_Some_2 in Hl as [x Hx]; rewrite Hx, (nth_lookup_Some _ _ _ _ Hx)). rewrite bn_val_app, bn_val_cons, bn_val_nil. unfold zlen. rewrite length_take, Nat.min_l by lia. f_equal. lia. }
  rewrite !Hs by done. pose proof (bn_val_bound (take i a) ltac:(by apply Forall_take)) as H1. pose proof (bn_val_bound (take i b) ltac:(by apply Forall_take)) as H2.
  unfold zlen in H1, H2. rewrite length_take, Nat.min_l in H1, H2 by lia. set (R := radix (Z.of_nat i)) in *. assert (HR : 0 < R) by (apply radix_pos; lia).
  destruct (Z.eqb_spec (nth i a 0) (nth i b 0)) as [->|Hne]; cbn [negb]; [rewrite IH by lia; f_equal; lia|].
  destruct (Z.ltb_spec (nth i b 0) (nth i a 0)); symmetry; [apply Z.sgn_pos|apply Z.sgn_neg]; nia.
Qed.
Lemma nonzero_val l : Forall is_word l -> existsb (fun w => negb (w =? 0)) l = negb (bn_val l =? 0).
Proof.
  induction 1 as [|x l Hx Hl IH]; [done|]. cbn [existsb]. rewrite IH, bn_val_cons. pose proof (bn_val_bound l Hl). unfold is_word in Hx.
  destruct (Z.eqb_spec x 0), (Z.eqb_spec (bn_val l) 0), (Z.eqb_spec (x + 2 ^ 64 * bn_val l) 0); cbn; lia.
Qed.
(** The longer array has [dl] words more. *)
Lemma bn_cmp_part_words_spec a b cl dl : 0 <= cl -> words_of a (cl + Z.max 0 dl) -> words_of b (cl + Z.max 0 (- dl)) ->
  bn_cmp_part_words a b cl dl = Z.sgn (bn_val a - bn_val b).
Proof.
  intros Hcl Ha Hb. unfold bn_cmp_part_words. pose proof (words_take _ _ cl Ha ltac:(lia)) as Hta. pose proof (words_take _ _ cl Hb ltac:(lia)) as Htb. pose proof (words_bound _ _ Hta). pose proof (words_bound _ _ Htb).
  pose proof (words_drop _ _ cl Ha ltac:(lia)) as Hda. pose proof (words_drop _ _ cl Hb ltac:(lia)) as Hdb. pose proof (radix_pos cl Hcl).
  pose proof (bn_val_split a cl ltac:(destruct Ha; lia)) as Ea. pose proof (bn_val_split b cl ltac:(destruct Hb; lia)) as Eb.
  rewrite bn_cmp_words_spec by (try done; first [apply Ha|apply Hb|destruct Ha, Hb; lia]). unfold slice.
  destruct (Z.ltb_spec dl 0) as [Hd|Hd]; cbn [andb].
  - rewrite (proj2 (Z.ltb_ge 0 dl)) by lia. cbn [andb]. rewrite (ztake_ge (- dl)) by (destruct Hdb; lia). rewrite nonzero_val by apply Hdb.
    assert (Hnil : zdrop cl a = []) by (apply words_nil; by replace 0 with (cl + Z.max 0 dl - cl) by lia). rewrite Hnil, bn_val_nil in Ea. pose proof (words_bound _ _ Hdb) as Hbb.
    destruct (Z.eqb_spec (bn_val (zdrop cl b)) 0) as [E0|E0]; cbn [negb]; [rewrite E0 in Eb; f_equal; lia|]. symmetry. apply Z.sgn_neg. nia.
  - destruct (Z.ltb_spec 0 dl) as [Hd0|Hd0]; cbn [andb].
    + rewrite (ztake_ge dl) by (destruct Hda; lia). rewrite nonzero_val by apply Hda.
      assert (Hnil : zdrop cl b = []) by (apply words_nil; by replace 0 with (cl + Z.max 0 (- dl) - cl) by lia). rewrite Hnil, bn_val_nil in Eb. pose proof (words_bound _ _ Hda) as Hbb.
      destruct (Z.eqb_spec (bn_val (zdrop cl a)) 0) as [E0|E0]; cbn [negb]; [rewrite E0 in Ea; f_equal; lia|]. symmetry. apply Z.sgn_pos. nia.
    + rewrite !ztake_ge by (destruct Ha, Hb; lia). done.
Qed.

Lemma sub_from_zero_spec b : forall c, Forall is_word b -> 0 <= c <= 1 ->
  let '(rs, c') := sub_from_zero b c in words_of rs (zlen b) /\ 0 <= c' <= 1 /\ bn_val rs - radix (zlen b) * c' = - bn_val b - c.
Proof.
  intros c Hb. revert c. induction Hb as [|t b Ht Hb IH]; intros c Hc; cbn [sub_from_zero]; [rewrite bn_val_nil; change (radix (zlen [])) with 1; split; [done|lia]|].
  rewrite mask_id. set (c1 := if negb (t =? 0) then 1 else c). assert (H1 : 0 <= c1 <= 1) by (unfold c1; destruct (negb _); lia). specialize (IH c1 H1). destruct (sub_from_zero b c1) as [rs c']. destruct IH as ([Hl Hw] & Hc' & E).
  rewrite zlen_cons, !bn_val_cons, radix_succ by apply zlen_nonneg. split; [split; [rewrite zlen_cons; lia|constructor; [apply wrap64_word|done]]|]. split; [done|].
  assert (Es : wrap64 (0 - t - c) - 2 ^ 64 * c1 = - t - c).
  { unfold c1, wrap64, is_word in *. destruct (Z.eqb_spec t 0); cbn [negb]; dlia. }
  transitivity (wrap64 (0 - t - c) + 2 ^ 64 * (bn_val rs - radix (zlen b) * c')); [ring|]. rewrite E. lia.
Qed.
Lemma borrow_loop a : word_loop (fun t _ c => borrow_step t c) a a 0 = ((fun w => Z.land (wrap64 (w - 0)) BN_MASK2) <$> a, 0).
Proof. induction a as [|x a IH]; [done|]. cbn [word_loop borrow_step]. replace (if negb (x =? 0) then 0 else 0) with 0 by (by destruct (negb _)). by rewrite IH. Qed.
Lemma sub_borrow_eq n : forall a c, (length a <= n)%nat -> Forall is_word a -> sub_borrow a c = word_loop (fun t _ c => borrow_step t c) a a c.
Proof.
  assert (H0 : forall a, Forall is_word a -> (fun w => Z.land (wrap64 (w - 0)) BN_MASK2) <$> a = a).
  { induction 1 as [|x a Hx Ha IH]; [done|]. rewrite fmap_cons, IH, Z.sub_0_r, wrap64_id, land_MASK2 by done. done. }
  assert (Hz : forall a, Forall is_word a -> forall c, c = 0 -> (a, c) = word_loop (fun t _ c => borrow_step t c) a a c) by (intros a Ha c ->; by rewrite borrow_loop, H0).
  induction n as [|n IH]; intros a c Hn Ha.
  - destruct a; [|cbn in Hn; lia]. cbn. by destruct (c =? 0).
  - destruct a as [|a0 [|a1 [|a2 [|a3 a]]]]; cbn [sub_borrow]; destruct (Z.eqb_spec c 0) as [E|E]; try (by apply Hz); try done.
    cbn [word_loop]. destruct (borrow_step a0 c) as [r0 c0]; destruct (borrow_step a1 c0) as [r1 c1]; destruct (borrow_step a2 c1) as [r2 c2]; destruct (borrow_step a3 c2) as [r3 c3].
    do 4 apply Forall_cons in Ha as [_ Ha]. rewrite IH by (first [done|cbn in Hn; lia]). by destruct (word_loop _ a a c3).
Qed.
Lemma sub_borrow_spec a c : Forall is_word a -> 0 <= c <= 1 ->
  let '(rs, c') := sub_borrow a c in words_of rs (zlen a) /\ 0 <= c' <= 1 /\ bn_val rs - radix (zlen a) * c' = bn_val a - c.
Proof.
  intros Ha Hc. rewrite (sub_borrow_eq (length a)) by done. rewrite <- word_loop4_eq.
  pose proof (word_loop_spec (fun t _ c => borrow_step t c) 1 0 (-1) 1 a a c) as Hs. destruct (word_loop4 _ a a c) as [rs c']. destruct Hs as (Hw & Hl & Hc' & E); try done; [|split; [done|split; [done|lia]]].
  intros x y c1 Hx _ Hc1. unfold borrow_step. rewrite mask_id. split; [apply wrap64_word|]. unfold wrap64, is_word in *. destruct (Z.eqb_spec x 0); cbn [negb]; dlia.
Qed.
Lemma bn_sub_part_words_spec a b cl dl : 0 <= cl -> words_of a (cl + Z.max 0 dl) -> words_of b (cl + Z.max 0 (- dl)) ->
  let '(rs, c) := bn_sub_part_words a b cl dl in words_of rs (cl + Z.abs dl) /\ 0 <= c <= 1 /\ bn_val rs - radix (cl + Z.abs dl) * c = bn_val a - bn_val b.
Proof.
  intros Hcl Ha Hb. unfold bn_sub_part_words. pose proof (words_take _ _ cl Ha ltac:(lia)) as Hta. pose proof (words_take _ _ cl Hb ltac:(lia)) as Htb.
  pose proof (words_drop _ _ cl Ha ltac:(lia)) as Hda. pose proof (words_drop _ _ cl Hb ltac:(lia)) as Hdb.
  pose proof (bn_val_split a cl ltac:(destruct Ha; lia)) as Ea. pose proof (bn_val_split b cl ltac:(destruct Hb; lia)) as Eb.
  assert (Et : bn_sub_words a b cl = bn_sub_words (ztake cl a) (ztake cl b) cl) by (unfold bn_sub_words; by rewrite !ztake_ztake, Z.min_id).
  rewrite Et. clear Et. pose proof (bn_sub_words_spec _ _ cl Hta Htb) as Hs. destruct (bn_sub_words (ztake cl a) (ztake cl b) cl) as [r c]. destruct Hs as (Hr & Hc & E).
  destruct (Z.eqb_spec dl 0) as [->|Hd0].
  - rewrite Z.add_0_r in *. split; [done|]. split; [done|]. rewrite E, Ea, Eb. rewrite !zdrop_ge by (destruct Ha, Hb; lia). rewrite bn_val_nil. lia.
  - unfold slice. assert (Hrest : forall rs c', words_of rs (Z.abs dl) -> 0 <= c' <= 1 -> bn_val rs - radix (Z.abs dl) * c' = bn_val (zdrop cl a) - bn_val (zdrop cl b) - c ->
      words_of (r ++ rs) (cl + Z.abs dl) /\ 0 <= c' <= 1 /\ bn_val (r ++ rs) - radix (cl + Z.abs dl) * c' = bn_val a - bn_val b).
    { intros rs c' Hrs Hc' E'. split; [by apply words_of_app|]. split; [done|]. rewrite bn_val_app, (proj1 Hr), radix_add, Ea, Eb by lia.
      transitivity (bn_val r + radix cl * (bn_val rs - radix (Z.abs dl) * c')); [ring|]. rewrite E'. transitivity (bn_val r - radix cl * c + radix cl * (bn_val (zdrop cl a) - bn_val (zdrop cl b))); [ring|]. rewrite E. ring. }
    destruct (Z.ltb_spec dl 0) as [Hlt|Hge].
    + rewrite (ztake_ge (- dl)) by (destruct Hdb; lia). pose proof (sub_from_zero_spec (zdrop cl b) c (proj2 Hdb) Hc) as Hs. destruct (sub_from_zero _ c) as [rs c']. destruct Hs as (Hrs & Hc' & E').
      replace (zlen (zdrop cl b)) with (Z.abs dl) in * by (destruct Hdb; lia). apply Hrest; try done. rewrite E'. rewrite (zdrop_ge cl a) by (destruct Ha; lia). rewrite bn_val_nil. lia.
    + rewrite (ztake_ge dl) by (destruct Hda; lia). pose proof (sub_borrow_spec (zdrop cl a) c (proj2 Hda) Hc) as Hs. destruct (sub_borrow _ c) as [rs c']. destruct Hs as (Hrs & Hc' & E').
      replace (zlen (zdrop cl a)) with (Z.abs dl) in * by (destruct Hda; lia). apply Hrest; try done. rewrite E'. rewrite (zdrop_ge cl b) by (destruct Hb; lia). rewrite bn_val_nil. lia.
Qed.

(** ** Karatsuba's recursion *)
Lemma part_difference a b n ta tb : words_of a ta -> words_of b tb -> Z.max ta tb = n -> 0 <= Z.min ta tb ->
  let '(rs, c) := bn_sub_part_words a b (Z.min ta tb) (ta - tb) in words_of rs n /\ (bn_val b <= bn_val a -> bn_val rs = bn_val a - bn_val b).
Proof.
  intros Ha Hb Hn Hm. pose proof (bn_sub_part_words_spec a b (Z.min ta tb) (ta - tb) Hm) as Hs.
  replace (Z.min ta tb + Z.max 0 (ta - tb)) with ta in Hs by lia. replace (Z.min ta tb + Z.max 0 (- (ta - tb))) with tb in Hs by lia. specialize (Hs Ha Hb).
  destruct (bn_sub_part_words _ _ _ _) as [rs c]. replace (Z.min ta tb + Z.abs (ta - tb)) with n in Hs by lia. destruct Hs as (Hrs & Hc & E). split; [done|]. intros Hle. pose proof (words_bound _ _ Hrs). assert (c = 0) as -> by nia. lia.
Qed.
Lemma differences_spec a b n tna tnb : words_of a (n + tna) -> words_of b (n + tnb) -> 0 <= tna <= n -> 0 <= tnb <= n ->
  let '(ta, tb, neg, zero) := differences a b n tna tnb in
  words_of ta n /\ words_of tb n /\
  let d := (bn_val (ztake n a) - bn_val (zdrop n a)) * (bn_val (zdrop n b) - bn_val (ztake n b)) in
  d = (if neg then -1 else 1) * (bn_val ta * bn_val tb) /\ (zero = true -> d = 0).
Proof.
  intros Ha Hb Hta Htb. unfold differences.
  assert (Ha0 : words_of (ztake n a) n) by (eapply words_take; [exact Ha|lia]). assert (Hb0 : words_of (ztake n b) n) by (eapply words_take; [exact Hb|lia]).
  assert (Ha1 : words_of (zdrop n a) tna) by (pose proof (words_drop a _ n Ha ltac:(lia)) as Hdr; by replace (n + tna - n) with tna in Hdr by lia). assert (Hb1 : words_of (zdrop n b) tnb) by (replace tnb with (n + tnb - n) by lia; apply words_drop; [done|lia]).
  rewrite (bn_cmp_part_words_spec (ztake n a) (zdrop n a) tna (n - tna)) by (first [lia|by replace (tna + Z.max 0 (n - tna)) with n by lia|by replace (tna + Z.max 0 (- (n - tna))) with tna by lia]).
  rewrite (bn_cmp_part_words_spec (zdrop n b) (ztake n b) tnb (tnb - n)) by (first [lia|by replace (tnb + Z.max 0 (tnb - n)) with tnb by lia|by replace (tnb + Z.max 0 (- (tnb - n))) with n by lia]).
  pose proof (part_difference _ _ n n tna Ha0 Ha1 ltac:(lia) ltac:(lia)) as H1. pose proof (part_difference _ _ n tna n Ha1 Ha0 ltac:(lia) ltac:(lia)) as H2.
  pose proof (part_difference _ _ n n tnb Hb0 Hb1 ltac:(lia) ltac:(lia)) as H3. pose proof (part_difference _ _ n tnb n Hb1 Hb0 ltac:(lia) ltac:(lia)) as H4.
  rewrite (Z.min_r n tna), (Z.min_l tna n), (Z.min_r n tnb), (Z.min_l tnb n) in * by lia.
  destruct (bn_sub_part_words (ztake n a) _ _ _) as [a01 k1]; destruct (bn_sub_part_words (zdrop n a) _ _ _) as [a10 k2];
  destruct (bn_sub_part_words (ztake n b) _ _ _) as [b01 k3]; destruct (bn_sub_part_words (zdrop n b) _ _ _) as [b10 k4]. cbn [fst].
  destruct H1 as [W1 V1], H2 as [W2 V2], H3 as [W3 V3], H4 as [W4 V4]. set (A0 := bn_val (ztake n a)) in *. set (A1 := bn_val (zdrop n a)) in *. set (B0 := bn_val (ztake n b)) in *. set (B1 := bn_val (zdrop n b)) in *.
  destruct (Z.lt_trichotomy A0 A1) as [Hc|[Hc|Hc]]; destruct (Z.lt_trichotomy B1 B0) as [Hd|[Hd|Hd]];
    [rewrite (Z.sgn_neg (A0 - A1)), (Z.sgn_neg (B1 - B0)) by lia|rewrite (Z.sgn_neg (A0 - A1)), (Z.sgn_null (B1 - B0)) by lia|rewrite (Z.sgn_neg (A0 - A1)), (Z.sgn_pos (B1 - B0)) by lia
    |rewrite (Z.sgn_null (A0 - A1)), (Z.sgn_neg (B1 - B0)) by lia|rewrite (Z.sgn_null (A0 - A1)), (Z.sgn_null (B1 - B0)) by lia|rewrite (Z.sgn_null (A0 - A1)), (Z.sgn_pos (B1 - B0)) by lia
    |rewrite (Z.sgn_pos (A0 - A1)), (Z.sgn_neg (B1 - B0)) by lia|rewrite (Z.sgn_pos (A0 - A1)), (Z.sgn_null (B1 - B0)) by lia|rewrite (Z.sgn_pos (A0 - A1)), (Z.sgn_pos (B1 - B0)) by lia];
    cbn [Z.mul Z.add Z.eqb Z.leb Z.compare Pos.mul Pos.add Pos.compare Pos.compare_cont Pos.eqb orb Z.opp Z.pos_sub]; (split; [done|]; split; [done|]; cbn zeta; split; [|intros [=]]);
    rewrite ?V1, ?V2, ?V3, ?V4 by lia; nia.
Qed.

Lemma carry_on_spec p : Forall is_word p -> bn_val p + 1 < radix (zlen p) -> words_of (carry_on p) (zlen p) /\ bn_val (carry_on p) = bn_val p + 1.
Proof.
  induction 1 as [|lo p Hlo Hp IH]; intros Hlt; [change (0 + 1 < 1) in Hlt; lia|]. cbn [carry_on]. rewrite mask_id, !bn_val_cons, zlen_cons, radix_succ in * by apply zlen_nonneg. pose proof (bn_val_bound p Hp). unfold is_word in Hlo.
  destruct (Z.eqb_spec (wrap64 (lo + 1)) 0) as [E|E].
  - assert (lo = 2 ^ 64 - 1) as -> by (unfold wrap64 in E; dlia). rewrite E. destruct IH as [[Hl Hw] Hv]; [lia|]. split; [split; [rewrite zlen_cons; lia|by constructor]|]. rewrite bn_val_cons, Hv. lia.
  - assert (Ew : wrap64 (lo + 1) = lo + 1) by (unfold wrap64 in *; dlia). rewrite Ew, bn_val_cons. split; [split; [by rewrite zlen_cons|constructor; [unfold is_word; rewrite <- Ew; apply wrap64_word|done]]|lia].
Qed.
Lemma add_carry_words_spec c p n : words_of p n -> 0 <= c < 2 ^ 32 -> bn_val p + c < radix n -> words_of (add_carry_words c p) n /\ bn_val (add_carry_words c p) = bn_val p + c.
Proof.
  intros [<- Hp] Hc Hlt. unfold add_carry_words. destruct (Z.eqb_spec c 0) as [->|Hc0]; [split; [done|lia]|]. destruct Hp as [|lo p Hlo Hp]; [change (0 + c < 1) in Hlt; lia|].
  rewrite mask_id, bn_val_cons, zlen_cons, radix_succ in * by apply zlen_nonneg. pose proof (bn_val_bound p Hp). unfold is_word in Hlo. rewrite (wrap64_id c) by (unfold is_word; lia).
  pose proof (add_carry lo c Hlo ltac:(unfold is_word; lia)) as E. pose proof (wrap64_word (lo + c)) as Hw. destruct (wrap64 (lo + c) <? c); unfold bit in E.
  - destruct (carry_on_spec p Hp ltac:(unfold is_word in Hw; lia)) as [[Hl Hws] Hv]. split; [split; [rewrite zlen_cons; lia|by constructor]|]. rewrite bn_val_cons, Hv. lia.
  - split; [split; [by rewrite zlen_cons|by constructor]|]. rewrite bn_val_cons. lia.
Qed.
Lemma combine_spec lo hi diff n (neg : bool) : 0 < n -> words_of lo (2 * n) -> words_of hi (2 * n) -> words_of diff (2 * n) ->
  let m := bn_val lo + bn_val hi + (if neg then -1 else 1) * bn_val diff in
  0 <= m -> bn_val lo + radix n * m + radix (2 * n) * bn_val hi < radix (4 * n) ->
  words_of (combine lo hi diff n neg) (4 * n) /\ bn_val (combine lo hi diff n neg) = bn_val lo + radix n * m + radix (2 * n) * bn_val hi.
Proof.
  intros Hn Hlo Hhi Hdiff m Hm Hlt. unfold combine. pose proof (radix_pos n ltac:(lia)) as Hr1. pose proof (radix_pos (2 * n) ltac:(lia)) as Hr2.
  pose proof (bn_add_words_spec lo hi (2 * n) Hlo Hhi) as Hs. destruct (bn_add_words lo hi (2 * n)) as [t c]. destruct Hs as (Ht & Hc & E).
  assert (Hmid : exists t2 c1, (if neg then let '(t2, b) := bn_sub_words t diff (2 * n) in (t2, c - b) else let '(t2, c') := bn_add_words diff t (2 * n) in (t2, c + c')) = (t2, c1) /\
    words_of t2 (2 * n) /\ bn_val t2 + radix (2 * n) * c1 = m /\ -1 <= c1 <= 2).
  { destruct neg; unfold m.
    - pose proof (bn_sub_words_spec t diff (2 * n) Ht Hdiff) as Hs. destruct (bn_sub_words t diff (2 * n)) as [t2 b]. destruct Hs as (Ht2 & Hb & E2). exists t2, (c - b). split; [done|]. split; [done|]. split; [lia|lia].
    - pose proof (bn_add_words_spec diff t (2 * n) Hdiff Ht) as Hs. destruct (bn_add_words diff t (2 * n)) as [t2 b]. destruct Hs as (Ht2 & Hb & E2). exists t2, (c + b). split; [done|]. split; [done|]. split; [lia|lia]. }
  destruct Hmid as (t2 & c1 & -> & Ht2 & E2 & Hc1). pose proof (words_bound _ _ Ht2) as Hb2. assert (Hc1' : 0 <= c1) by nia.
  pose proof (words_of_app _ _ _ _ Hlo Hhi) as Hr. set (r := lo ++ hi) in *. replace (2 * n + 2 * n) with (4 * n) in Hr by lia.
  assert (Hmidw : words_of (slice r n (2 * n)) (2 * n)) by (apply (words_slice _ (4 * n)); [done|lia..]).
  pose proof (bn_add_words_spec (slice r n (2 * n)) t2 (2 * n) Hmidw Ht2) as Hs. destruct (bn_add_words (slice r n (2 * n)) t2 (2 * n)) as [mid c']. destruct Hs as (Hmw & Hc' & E3).
  assert (Ht0 : words_of (ztake n r) n) by (eapply words_take; [exact Hr|lia]). assert (Htl : words_of (zdrop (n + 2 * n) r) n) by (pose proof (words_drop r _ (n + 2 * n) Hr ltac:(lia)) as Hdr; by replace (4 * n - (n + 2 * n)) with n in Hdr by lia).
  assert (Er : bn_val r = bn_val (ztake n r) + radix n * (bn_val (slice r n (2 * n)) + radix (2 * n) * bn_val (zdrop (n + 2 * n) r))).
  { rewrite (bn_val_split r n) by (destruct Hr; lia). rewrite (bn_val_split (zdrop n r) (2 * n)) by (destruct Hr; zl). rewrite zdrop_zdrop by lia. done. }
  assert (Elh : bn_val r = bn_val lo + radix (2 * n) * bn_val hi) by (unfold r; rewrite bn_val_app, (proj1 Hlo); done).
  assert (E4 : radix (4 * n) = radix n * radix (2 * n) * radix n) by (rewrite <- !radix_add by lia; f_equal; lia).
  set (tl := bn_val (zdrop (n + 2 * n) r)) in *. set (mv := bn_val (slice r n (2 * n))) in *. set (v0 := bn_val (ztake n r)) in *.
  assert (Etot : bn_val lo + radix n * m + radix (2 * n) * bn_val hi = v0 + radix n * (bn_val mid + radix (2 * n) * (tl + (c1 + c')))).
  { transitivity (bn_val r + radix n * m); [rewrite Elh; ring|]. rewrite Er, <- E2. transitivity (v0 + radix n * (mv + bn_val t2 + radix (2 * n) * (tl + c1))); [ring|]. rewrite <- E3. ring. }
  pose proof (words_bound _ _ Ht0) as Hv0. pose proof (words_bound _ _ Hmw) as Hmv. fold v0 in Hv0.
  assert (Hcar : tl + (c1 + c') < radix n).
  { rewrite Etot, E4 in Hlt. assert (radix n * radix (2 * n) * (tl + (c1 + c')) < radix n * radix (2 * n) * radix n) by nia. apply (Z.mul_lt_mono_pos_l (radix n * radix (2 * n))); [nia|done]. }
  destruct (add_carry_words_spec (c1 + c') _ n Htl ltac:(lia) Hcar) as [Hcw Ecw]. fold tl in Ecw.
  split; [replace (4 * n) with (n + (2 * n + n)) by lia; repeat apply words_of_app; done|]. rewrite !bn_val_app, (proj1 Ht0), (proj1 Hmw), Ecw, Etot. done.
Qed.

(** From the halves: the three products make the whole one. *)
Lemma combine_halves a b n tna tnb lo hi diff neg :
  0 < n -> words_of a (n + tna) -> words_of b (n + tnb) -> 0 <= tna <= n -> 0 <= tnb <= n ->
  words_of lo (2 * n) -> words_of hi (2 * n) -> words_of diff (2 * n) ->
  bn_val lo = bn_val (ztake n a) * bn_val (ztake n b) -> bn_val hi = bn_val (zdrop n a) * bn_val (zdrop n b) ->
  (if neg : bool then -1 else 1) * bn_val diff = (bn_val (ztake n a) - bn_val (zdrop n a)) * (bn_val (zdrop n b) - bn_val (ztake n b)) ->
  words_of (combine lo hi diff n neg) (4 * n) /\ bn_val (combine lo hi diff n neg) = bn_val a * bn_val b.
Proof.
  intros Hn Ha Hb Hta Htb Hlo Hhi Hd Elo Ehi Ed. pose proof (product_bound a b _ _ Ha Hb) as Hp.
  pose proof (bn_val_split a n ltac:(destruct Ha; lia)) as Ea. pose proof (bn_val_split b n ltac:(destruct Hb; lia)) as Eb.
  pose proof (bn_val_bound (ztake n a) ltac:(apply Forall_ztake, Ha)). pose proof (bn_val_bound (zdrop n a) ltac:(apply Forall_zdrop, Ha)).
  pose proof (bn_val_bound (ztake n b) ltac:(apply Forall_ztake, Hb)). pose proof (bn_val_bound (zdrop n b) ltac:(apply Forall_zdrop, Hb)).
  set (A0 := bn_val (ztake n a)) in *. set (A1 := bn_val (zdrop n a)) in *. set (B0 := bn_val (ztake n b)) in *. set (B1 := bn_val (zdrop n b)) in *.
  assert (Em : bn_val lo + bn_val hi + (if neg then -1 else 1) * bn_val diff = A0 * B1 + A1 * B0) by (rewrite Ed, Elo, Ehi; ring).
  assert (Et : bn_val lo + radix n * (A0 * B1 + A1 * B0) + radix (2 * n) * bn_val hi = bn_val a * bn_val b).
  { rewrite Elo, Ehi, Ea, Eb. replace (2 * n) with (n + n) by lia. rewrite radix_add by lia. ring. }
  destruct (combine_spec lo hi diff n neg Hn Hlo Hhi Hd) as [Hw Hv]; rewrite ?Em, ?Et in *; [nia| |done].
  assert (radix (n + tna + (n + tnb)) <= radix (4 * n)) by (unfold radix; apply Z.pow_le_mono_r; lia). lia.
Qed.

Lemma recursive_step a b n tna tnb lo hi : 0 < n -> words_of a (n + tna) -> words_of b (n + tnb) -> 0 <= tna <= n -> 0 <= tnb <= n ->
  words_of lo (2 * n) /\ bn_val lo = bn_val (ztake n a) * bn_val (ztake n b) -> words_of hi (2 * n) /\ bn_val hi = bn_val (zdrop n a) * bn_val (zdrop n b) ->
  let '(ta, tb, neg, zero) := differences a b n tna tnb in
  words_of ta n /\ words_of tb n /\ forall diff, words_of diff (2 * n) /\ bn_val diff = bn_val ta * bn_val tb ->
    (words_of (combine lo hi diff n neg) (4 * n) /\ bn_val (combine lo hi diff n neg) = bn_val a * bn_val b) /\
    (words_of (combine lo hi (if zero then zeros (2 * n) else diff) n (neg && negb zero)) (4 * n) /\
     bn_val (combine lo hi (if zero then zeros (2 * n) else diff) n (neg && negb zero)) = bn_val a * bn_val b).
Proof.
  intros Hn Ha Hb Hta Htb [Hlo Elo] [Hhi Ehi]. pose proof (differences_spec a b n tna tnb Ha Hb Hta Htb) as Hd. destruct (differences a b n tna tnb) as [[[ta tb] neg] zero].
  destruct Hd as (Wa & Wb & Hdv & Hz). split; [done|]. split; [done|]. intros diff [Wd Ed].
  assert (H1 : words_of (combine lo hi diff n neg) (4 * n) /\ bn_val (combine lo hi diff n neg) = bn_val a * bn_val b) by (apply (combine_halves a b n tna tnb); try done; by rewrite Ed).
  split; [exact H1|]. destruct zero; cbn [negb]; [|by rewrite andb_true_r]. rewrite andb_false_r.
  apply (combine_halves a b n tna tnb); try done; [apply words_zeros; lia|]. rewrite bn_val_zeros. cbn zeta in Hz. rewrite Hz by done. done.
Qed.
Lemma split_halves a n m : words_of a (n + m) -> 0 <= n -> 0 <= m -> words_of (ztake n a) n /\ words_of (zdrop n a) m.
Proof. intros Ha Hn Hm. split; [by apply (words_take a (n + m)); [|lia]|]. pose proof (words_drop a _ n Ha ltac:(lia)) as Hd. by replace (n + m - n) with m in Hd by lia. Qed.

Lemma bn_mul_recursive_spec fuel : forall k a b n2 dna dnb, n2 = 2 ^ Z.of_nat k -> (k < fuel)%nat -> -1 <= dna <= 0 -> -1 <= dnb <= 0 ->
  words_of a (n2 + dna) -> words_of b (n2 + dnb) ->
  words_of (bn_mul_recursive fuel a b n2 dna dnb) (2 * n2) /\ bn_val (bn_mul_recursive fuel a b n2 dna dnb) = bn_val a * bn_val b.
Proof.
  induction fuel as [|fuel IH]; intros k a b n2 dna dnb Hk Hf Hdna Hdnb Ha Hb; [lia|]. cbn [bn_mul_recursive].
  destruct ((n2 =? 8) && (dna =? 0) && (dnb =? 0)) eqn:E8.
  { apply andb_true_iff in E8 as [[E1%Z.eqb_eq E2%Z.eqb_eq]%andb_true_iff E3%Z.eqb_eq]. rewrite E1, E2, E3 in *. by apply bn_mul_comba8_spec. }
  clear E8. change BN_MUL_RECURSIVE_SIZE_NORMAL with 16. destruct (Z.ltb_spec n2 16) as [Hs|Hs].
  { destruct (bn_mul_normal_spec a b _ _ Ha Hb) as [Hw Hv]. assert (Ez : (if dna + dnb <? 0 then zeros (- (dna + dnb)) else []) = zeros (- (dna + dnb))).
    { destruct (Z.ltb_spec (dna + dnb) 0); [done|]. by replace (dna + dnb) with 0 by lia. }
    rewrite Ez, bn_val_app, bn_val_zeros, Hv. split; [|lia]. replace (2 * n2) with (n2 + dna + (n2 + dnb) + - (dna + dnb)) by lia. apply words_of_app; [done|apply words_zeros; lia]. }
  destruct k as [|k]; [cbn in Hk; lia|]. rewrite Nat2Z.inj_succ, Z.pow_succ_r in Hk by lia. assert (En : n2 / 2 = 2 ^ Z.of_nat k) by (rewrite Hk, Z.mul_comm; apply Z.div_mul; lia).
  set (n := n2 / 2) in *. assert (E2 : n2 = 2 * n) by lia. clearbody n. clear Hk. subst n2. assert (Hn : 8 <= n) by lia.
  replace (2 * n + dna) with (n + (n + dna)) in * by lia. replace (2 * n + dnb) with (n + (n + dnb)) in * by lia.
  destruct (split_halves a n (n + dna) Ha ltac:(lia) ltac:(lia)) as [Ha0 Ha1]. destruct (split_halves b n (n + dnb) Hb ltac:(lia) ltac:(lia)) as [Hb0 Hb1].
  assert (Hrec : forall x y, words_of x n -> words_of y n -> words_of (bn_mul_recursive fuel x y n 0 0) (2 * n) /\ bn_val (bn_mul_recursive fuel x y n 0 0) = bn_val x * bn_val y)
    by (intros x y Hx Hy; apply (IH k); first [done|lia|by rewrite Z.add_0_r]).
  pose proof (recursive_step a b n (n + dna) (n + dnb)) as Hstep. replace (2 * (2 * n)) with (4 * n) by lia.
  destruct ((n =? 8) && (dna =? 0) && (dnb =? 0)) eqn:E8.
  - apply andb_true_iff in E8 as [[E1%Z.eqb_eq E2%Z.eqb_eq]%andb_true_iff E3%Z.eqb_eq]. rewrite E1, E2, E3 in *. cbn [Z.eqb Pos.eqb andb]. change (8 + 0) with 8 in *.
    specialize (Hstep (bn_mul_comba8 (ztake 8 a) (ztake 8 b)) (bn_mul_comba8 (zdrop 8 a) (zdrop 8 b)) ltac:(lia) Ha Hb ltac:(lia) ltac:(lia) ltac:(by apply bn_mul_comba8_spec) ltac:(by apply bn_mul_comba8_spec)).
    destruct (differences a b 8 8 8) as [[[ta tb] neg] zero]. destruct Hstep as (Wa & Wb & Hst). by apply (Hst (bn_mul_comba8 ta tb)), bn_mul_comba8_spec.
  - rewrite (proj2 (Z.eqb_neq n 4)) by lia. cbn [andb].
    specialize (Hstep (bn_mul_recursive fuel (ztake n a) (ztake n b) n 0 0) (bn_mul_recursive fuel (zdrop n a) (zdrop n b) n dna dnb) ltac:(lia) Ha Hb ltac:(lia) ltac:(lia)
      (Hrec _ _ Ha0 Hb0) (IH k _ _ n dna dnb En ltac:(lia) Hdna Hdnb Ha1 Hb1)).
    destruct (differences a b n (n + dna) (n + dnb)) as [[[ta tb] neg] zero]. destruct Hstep as (Wa & Wb & Hst). by apply (Hst (bn_mul_recursive fuel ta tb n 0 0)), Hrec.
Qed.

(** The words above a value that fits below are zero. *)
Lemma take_small l n m : words_of l n -> 0 <= m <= n -> bn_val l < radix m -> words_of (ztake m l) m /\ bn_val (ztake m l) = bn_val l.
Proof.
  intros Hl Hm Hlt. split; [by apply (words_take l n)|]. rewrite (bn_val_split l m) by (destruct Hl; lia). pose proof (words_bound _ _ (words_take l n m Hl Hm)).
  pose proof (words_bound _ _ (words_drop l n m Hl Hm)). rewrite (bn_val_split l m) in Hlt by (destruct Hl; lia). assert (bn_val (zdrop m l) = 0) as -> by nia. lia.
Qed.
Lemma pad_zeros l n m : words_of l n -> 0 <= m -> words_of (l ++ zeros m) (n + m) /\ bn_val (l ++ zeros m) = bn_val l.
Proof. intros Hl Hm. split; [by apply words_of_app, words_zeros|]. rewrite bn_val_app, bn_val_zeros. lia. Qed.
Lemma overwrite_zeros l n m : words_of l n -> n <= m -> words_of (overwrite (zeros m) 0 l) m /\ bn_val (overwrite (zeros m) 0 l) = bn_val l.
Proof.
  intros Hl Hn. pose proof (words_of_nonneg _ _ Hl). unfold overwrite. rewrite ztake_nonpos by lia. cbn [app]. rewrite Z.add_0_l, (proj1 Hl).
  assert (E : zdrop n (zeros m) = zeros (m - n)) by (unfold zdrop, zeros; rewrite drop_replicate; f_equal; lia). rewrite E. pose proof (pad_zeros l n (m - n) Hl ltac:(lia)) as Hp. by replace (n + (m - n)) with m in Hp by lia.
Qed.

(** The lengths that the recursion meets: they differ by at most one, and the highest word of the longer numbers is not zero. *)
Definition topped (a : list Z) (n : Z) : Prop := words_of a n /\ radix (n - 1) <= bn_val a.
Lemma topped_high a n tna : topped a (n + tna) -> 0 <= n -> 0 < tna -> topped (zdrop n a) tna.
Proof.
  intros [Ha Ht] Hn Htna. destruct (split_halves a n tna Ha Hn ltac:(lia)) as [H0 H1]. split; [done|]. rewrite (bn_val_split a n) in Ht by (destruct Ha; lia). pose proof (words_bound _ _ H0).
  replace (n + tna - 1) with (n + (tna - 1)) in Ht by lia. rewrite radix_add in Ht by lia. pose proof (radix_pos n Hn). nia.
Qed.
Lemma halve_until_spec fuel : forall k i tna tnb, i = 2 ^ Z.of_nat k -> (k <= fuel)%nat -> 1 <= Z.max tna tnb < i ->
  exists k', (k' < k)%nat /\ halve_until fuel i tna tnb = 2 ^ Z.of_nat k' /\ 2 ^ Z.of_nat k' <= Z.max tna tnb < 2 * 2 ^ Z.of_nat k'.
Proof.
  induction fuel as [|fuel IH]; intros k i tna tnb Hi Hk Hm; [assert (k = 0%nat) as -> by lia; cbn in Hi; lia|]. cbn [halve_until].
  destruct k as [|k]; [cbn in Hi; lia|]. rewrite Nat2Z.inj_succ, Z.pow_succ_r in Hi by lia. assert (Eh : i / 2 = 2 ^ Z.of_nat k) by (rewrite Hi, Z.mul_comm; apply Z.div_mul; lia). rewrite Eh.
  destruct (Z.leb_spec (2 ^ Z.of_nat k) tna), (Z.leb_spec (2 ^ Z.of_nat k) tnb); cbn [orb]; try (exists k; split; [lia|]; split; [done|lia]).
  destruct (IH k (2 ^ Z.of_nat k) tna tnb eq_refl ltac:(lia) ltac:(lia)) as (k' & ? & ? & ?). exists k'. split; [lia|done].
Qed.

Lemma bn_mul_part_recursive_spec fuel : forall k a b n tna tnb, n = 2 ^ Z.of_nat k -> (k + 1 < fuel)%nat -> 0 <= tna < n -> 0 <= tnb < n -> Z.abs (tna - tnb) <= 1 ->
  topped a (n + tna) -> topped b (n + tnb) ->
  exists m, n + tna + (n + tnb) <= m <= 4 * n /\ words_of (bn_mul_part_recursive fuel a b n tna tnb) m /\ bn_val (bn_mul_part_recursive fuel a b n tna tnb) = bn_val a * bn_val b.
Proof.
  induction fuel as [|fuel IH]; intros k a b n tna tnb Hk Hf Htna Htnb Hd Hta Htb; [lia|]. cbn [bn_mul_part_recursive]. destruct (Z.ltb_spec n 8) as [Hs|Hs].
  { exists (n + tna + (n + tnb)). split; [lia|]. apply bn_mul_normal_spec; [apply Hta|apply Htb]. }
  destruct (split_halves a n tna (proj1 Hta) ltac:(lia) ltac:(lia)) as [Ha0 Ha1]. destruct (split_halves b n tnb (proj1 Htb) ltac:(lia) ltac:(lia)) as [Hb0 Hb1].
  assert (Hgoal : forall r, words_of r (4 * n) /\ bn_val r = bn_val a * bn_val b -> exists m, n + tna + (n + tnb) <= m <= 4 * n /\ words_of r m /\ bn_val r = bn_val a * bn_val b).
  { intros r [Hr1 Hr2]. exists (4 * n). split; [lia|done]. }
  pose proof (product_bound _ _ _ _ Ha1 Hb1) as Hp.
  destruct (Z.eqb_spec n 8) as [E8|E8].
  { pose proof (recursive_step a b n tna tnb (bn_mul_comba8 (ztake n a) (ztake n b)) (bn_mul_normal (zdrop n a) tna (zdrop n b) tnb ++ zeros (n * 2 - tna - tnb)) ltac:(lia) (proj1 Hta) (proj1 Htb) ltac:(lia) ltac:(lia)) as Hst.
    rewrite E8 in *. destruct (bn_mul_normal_spec _ _ _ _ Ha1 Hb1) as [Wn Vn]. specialize (Hst (bn_mul_comba8_spec _ _ Ha0 Hb0)).
    destruct (pad_zeros _ _ (8 * 2 - tna - tnb) Wn ltac:(lia)) as [Wz Vz]. rewrite Vn in Vz. replace (tna + tnb + (8 * 2 - tna - tnb)) with (2 * 8) in Wz by lia. specialize (Hst (conj Wz Vz)).
    destruct (differences a b 8 tna tnb) as [[[ta tb] neg] zero]. destruct Hst as (Wa & Wb & Hst). apply Hgoal. by apply Hst, bn_mul_comba8_spec. }
  destruct k as [|k]; [cbn in Hk; lia|]. assert (Eh : n / 2 = 2 ^ Z.of_nat k) by (rewrite Hk, Nat2Z.inj_succ, Z.pow_succ_r, Z.mul_comm by lia; apply Z.div_mul; lia).
  assert (Hrec : forall x y, words_of x n -> words_of y n -> words_of (bn_mul_recursive fuel x y n 0 0) (2 * n) /\ bn_val (bn_mul_recursive fuel x y n 0 0) = bn_val x * bn_val y)
    by (intros x y Hx Hy; apply (bn_mul_recursive_spec fuel (S k)); first [done|lia|by rewrite Z.add_0_r]).
  set (i := n / 2) in *. assert (Ei : n = 2 * i) by (rewrite Nat2Z.inj_succ, Z.pow_succ_r in Hk by lia; lia).
  set (hi := if _ =? 0 then _ else _).
  assert (Hhi : words_of hi (2 * n) /\ bn_val hi = bn_val (zdrop n a) * bn_val (zdrop n b)).
  { unfold hi. replace (if tnb <? tna then tna else tnb) with (Z.max tna tnb) by (destruct (Z.ltb_spec tnb tna); lia).
    destruct (Z.eqb_spec (Z.max tna tnb - i) 0) as [Ej|Ej]; [|destruct (Z.ltb_spec 0 (Z.max tna tnb - i)) as [Hj|Hj]].
    - destruct (bn_mul_recursive_spec fuel k (zdrop n a) (zdrop n b) i (tna - i) (tnb - i) Eh ltac:(lia) ltac:(lia) ltac:(lia)) as [W V]; [by replace (i + (tna - i)) with tna by lia|by replace (i + (tnb - i)) with tnb by lia|].
      destruct (pad_zeros _ _ (n * 2 - i * 2) W ltac:(lia)) as [Wz Vz]. rewrite Vz. split; [by replace (2 * n) with (2 * i + (n * 2 - i * 2)) by lia|done].
    - destruct (IH k (zdrop n a) (zdrop n b) i (tna - i) (tnb - i) Eh ltac:(lia) ltac:(lia) ltac:(lia) ltac:(lia)) as (m & Hm & W & V); [replace (i + (tna - i)) with tna by lia; by apply topped_high; first [done|lia]|replace (i + (tnb - i)) with tnb by lia; by apply topped_high; first [done|lia]|].
      destruct (take_small _ _ (tna + tnb) W ltac:(lia) ltac:(rewrite V; lia)) as [Wt Vt]. destruct (pad_zeros _ _ (n * 2 - tna - tnb) Wt ltac:(lia)) as [Wz Vz]. rewrite Vz, Vt, V.
      split; [by replace (2 * n) with (tna + tnb + (n * 2 - tna - tnb)) by lia|done].
    - change BN_MUL_RECURSIVE_SIZE_NORMAL with 16. replace (n * 2) with (2 * n) by lia. destruct ((tna <? 16) && (tnb <? 16)) eqn:E16.
      { destruct (bn_mul_normal_spec _ _ _ _ Ha1 Hb1) as [Wn Vn]. rewrite <- Vn. apply (overwrite_zeros _ (tna + tnb)); [done|lia]. }
      assert (Hmax : 16 <= Z.max tna tnb < i) by (apply andb_false_iff in E16 as [E16%Z.ltb_ge|E16%Z.ltb_ge]; lia).
      destruct (halve_until_spec fuel k i tna tnb Eh ltac:(lia) ltac:(lia)) as (k' & Hk' & -> & Hi'). set (i' := 2 ^ Z.of_nat k') in *.
      destruct ((i' <? tna) || (i' <? tnb)) eqn:Ei'.
      + assert (Hlt : i' < Z.max tna tnb) by (apply orb_true_iff in Ei' as [E%Z.ltb_lt|E%Z.ltb_lt]; lia).
        destruct (IH k' (zdrop n a) (zdrop n b) i' (tna - i') (tnb - i') eq_refl ltac:(lia) ltac:(lia) ltac:(lia) ltac:(lia)) as (m & Hm & W & V); [replace (i' + (tna - i')) with tna by lia; by apply topped_high; first [done|lia]|replace (i' + (tnb - i')) with tnb by lia; by apply topped_high; first [done|lia]|].
        rewrite <- V. apply (overwrite_zeros _ m); [done|lia].
      + assert (Heq : i' = Z.max tna tnb) by (apply orb_false_iff in Ei' as [E%Z.ltb_ge E'%Z.ltb_ge]; lia).
        destruct (bn_mul_recursive_spec fuel k' (zdrop n a) (zdrop n b) i' (tna - i') (tnb - i') eq_refl ltac:(lia) ltac:(lia) ltac:(lia)) as [W V]; [by replace (i' + (tna - i')) with tna by lia|by replace (i' + (tnb - i')) with tnb by lia|].
        rewrite <- V. apply (overwrite_zeros _ (2 * i')); [done|lia]. }
  pose proof (recursive_step a b n tna tnb (bn_mul_recursive fuel (ztake n a) (ztake n b) n 0 0) hi ltac:(lia) (proj1 Hta) (proj1 Htb) ltac:(lia) ltac:(lia) (Hrec _ _ Ha0 Hb0) Hhi) as Hst.
  destruct (differences a b n tna tnb) as [[[ta tb] neg] zero]. destruct Hst as (Wa & Wb & Hst). apply Hgoal. by apply Hst, Hrec.
Qed.

Lemma bn_sqr_recursive_spec fuel : forall k a n2, n2 = 2 ^ Z.of_nat k -> (k < fuel)%nat -> words_of a n2 ->
  words_of (bn_sqr_recursive fuel a n2) (2 * n2) /\ bn_val (bn_sqr_recursive fuel a n2) = bn_val a * bn_val a.
Proof.
  induction fuel as [|fuel IH]; intros k a n2 Hk Hf Ha; [lia|]. cbn [bn_sqr_recursive].
  destruct (Z.eqb_spec n2 4) as [->|E4]; [by apply bn_sqr_comba4_spec|]. destruct (Z.eqb_spec n2 8) as [->|E8]; [by apply bn_sqr_comba8_spec|].
  change BN_SQR_RECURSIVE_SIZE_NORMAL with 16. destruct (Z.ltb_spec n2 16) as [Hs|Hs]; [apply bn_sqr_normal_spec; [done|rewrite Hk; lia]|].
  destruct k as [|k]; [cbn in Hk; lia|]. rewrite Nat2Z.inj_succ, Z.pow_succ_r in Hk by lia. assert (En : n2 / 2 = 2 ^ Z.of_nat k) by (rewrite Hk, Z.mul_comm; apply Z.div_mul; lia).
  set (n := n2 / 2) in *. assert (E2 : n2 = n + n) by lia. clearbody n. clear Hk E4 E8. subst n2. destruct (split_halves a n n Ha ltac:(lia) ltac:(lia)) as [Ha0 Ha1].
  set (t := if 0 <? _ then _ else _). set (c := bn_cmp_words _ _ n) in *.
  assert (Hc : c = Z.sgn (bn_val (ztake n a) - bn_val (zdrop n a))).
  { unfold c. rewrite (bn_cmp_words_spec (ztake n a) (zdrop n a) n ltac:(lia) ltac:(destruct Ha0; lia) ltac:(destruct Ha1; lia) (proj2 Ha0) (proj2 Ha1)). rewrite (ztake_ge n (ztake n a)) by (destruct Ha0; lia). by rewrite (ztake_ge n (zdrop n a)) by (destruct Ha1; lia). }
  assert (Ht : words_of t n /\ bn_val t = Z.abs (bn_val (ztake n a) - bn_val (zdrop n a))).
  { pose proof (bn_sub_words_spec _ _ n Ha0 Ha1) as S1. pose proof (bn_sub_words_spec _ _ n Ha1 Ha0) as S2. unfold t. pose proof (words_bound _ _ Ha0). pose proof (words_bound _ _ Ha1).
    destruct (bn_sub_words (ztake n a) _ n) as [r1 c1], (bn_sub_words (zdrop n a) _ n) as [r2 c2]. destruct S1 as (W1 & C1 & E1), S2 as (W2 & C2 & E2). cbn [fst].
    pose proof (words_bound _ _ W1). pose proof (words_bound _ _ W2). assert (c1 = 0 \/ c1 = 1) as Hc1 by lia. assert (c2 = 0 \/ c2 = 1) as Hc2 by lia.
    destruct (Z.ltb_spec 0 c); (split; [done|]); destruct Hc1 as [-> | ->], Hc2 as [-> | ->]; lia. }
  replace (2 * (n + n)) with (4 * n) by lia.
  assert (Hrec : forall x, words_of x n -> words_of (bn_sqr_recursive fuel x n) (2 * n) /\ bn_val (bn_sqr_recursive fuel x n) = bn_val x * bn_val x) by (intros x Hx; apply (IH k); first [done|lia]).
  destruct (Hrec _ Ha0) as [W0 V0]. destruct (Hrec _ Ha1) as [W1 V1]. destruct Ht as [Wt Vt]. destruct (Hrec _ Wt) as [W2 V2].
  apply (combine_halves a a n n n); try done; try lia; replace (n + n) with (2 * n) by lia.
  - destruct (c =? 0); [apply words_zeros; lia|done].
  - destruct (Z.eqb_spec c 0) as [E|E].
    + rewrite bn_val_zeros. assert (bn_val (ztake n a) = bn_val (zdrop n a)) as -> by lia. lia.
    + rewrite V2, Vt. lia.
Qed.
