(* ===== verification/Bn.v ===== *)
(** * Big numbers (crypto/bn/bn_lib.c, bn_add.c, bn_shift.c, bn_word.c, bn_mont.c, bn_mod.c)

    Numbers live at addresses, because the same number may be an operand and the result; the functions act on the store. A function that returns a
    pointer or 1 fails with [None]. Words that [reallocarray] does not initialise are arbitrary. Memory checks of debugging builds are off, and so is
    the assembler's [bn_mul_mont]. *)
From S2P Require Import Prelude Compat Words BnWord BnMul.

Definition BN_FLG_STATIC_DATA : Z := 0x02.
Definition BN_FLG_CONSTTIME : Z := 0x04.
Definition BN_MAX_WORDS : Z := (2 ^ 31 - 1) / (4 * BN_BITS2).

(** [d] has [dmax] words, of which [top] are in use. *)
Record BIGNUM := mkBn { bn_d : list Z; bn_top : Z; bn_dmax : Z; bn_neg : bool; bn_flags : Z }.
Definition with_d (d : list Z) (b : BIGNUM) : BIGNUM := mkBn d (bn_top b) (bn_dmax b) (bn_neg b) (bn_flags b).
Definition with_top (t : Z) (b : BIGNUM) : BIGNUM := mkBn (bn_d b) t (bn_dmax b) (bn_neg b) (bn_flags b).
Definition with_neg (n : bool) (b : BIGNUM) : BIGNUM := mkBn (bn_d b) (bn_top b) (bn_dmax b) n (bn_flags b).
Definition with_flags (f : Z) (b : BIGNUM) : BIGNUM := mkBn (bn_d b) (bn_top b) (bn_dmax b) (bn_neg b) f.
Definition BN_init : BIGNUM := mkBn [] 0 0 false 0.
#[global] Instance BIGNUM_inhabited : Inhabited BIGNUM := populate BN_init.
Notation bn_store := (gmap Z BIGNUM).

Definition rd (p : Z) : M bn_store BIGNUM := fun h => (Some (h !!! p), h).
Definition upd (p : Z) (f : BIGNUM -> BIGNUM) : M bn_store unit := modS (fun h => <[p := f (h !!! p)]> h).
Definition get_w (p i : Z) : M bn_store Z := b ← rd p; mret (znth (bn_d b) i).
Definition set_w (p i v : Z) : M bn_store unit := upd p (fun b => with_d (<[Z.to_nat i := v]> (bn_d b)) b).
(** Writing an array from [d[off]] on. *)
Definition put_words (p off : Z) (ws : list Z) : M bn_store unit := upd p (fun b => with_d (overwrite (bn_d b) off ws) b).
Definition when {S} (c : bool) (m : M S unit) : M S unit := if c then m else mret tt.

Definition BN_is_zero (a : BIGNUM) : bool := bn_top a =? 0.
Definition BN_get_flags (a : BIGNUM) (n : Z) : bool := negb (Z.land (bn_flags a) n =? 0).

Section Bn.
Context `{Allocator}.
(** What [reallocarray] leaves in the words of an array of [n]. *)
Context (garbage : Z -> Z -> Z).
Definition uninitialised (n : Z) : list Z := (fun i => wrap64 (garbage n i)) <$> seqZ 0 n.

(** ** Memory *)
Definition bn_expand_internal (b : BIGNUM) (words : Z) : option (list Z) :=
  if BN_MAX_WORDS <? words then None
  else if BN_get_flags b BN_FLG_STATIC_DATA then None
  else if malloc_ok (words * 8) then Some (overwrite (uninitialised words) 0 (ztake (bn_top b) (bn_d b))) else None.
Definition bn_expand2 (p words : Z) : M bn_store unit :=
  b ← rd p;
  if bn_dmax b <? words then
    match bn_expand_internal b words with
    | None => fail
    | Some a => upd p (fun b => mkBn a (bn_top b) words (bn_neg b) (bn_flags b))
    end
  else mret tt.
Definition bn_wexpand (p words : Z) : M bn_store unit := b ← rd p; if words <=? bn_dmax b then mret tt else bn_expand2 p words.
Definition bn_expand (p bits : Z) : M bn_store unit :=
  if 2 ^ 31 - 1 - BN_BITS2 + 1 <? bits then fail
  else b ← rd p; if (bits + BN_BITS2 - 1) / BN_BITS2 <=? bn_dmax b then mret tt else bn_expand2 p ((bits + BN_BITS2 - 1) / BN_BITS2).
Definition BN_set_word (p w : Z) : M bn_store unit :=
  bn_expand p 64;; upd p (fun b => with_top (if w =? 0 then 0 else 1) (with_d (<[0%nat := w]> (bn_d b)) (with_neg false b))).
(** [BN_zero] is [BN_set_word(a, 0)], whose result is ignored. *)
Definition ignore {S A} (m : M S A) : M S unit := fun s => let '(_, s) := m s in (Some tt, s).
Definition BN_zero (p : Z) : M bn_store unit := ignore (BN_set_word p 0).
Fixpoint correct_top (n : nat) (d : list Z) : Z :=
  match n with O => 0 | S k => if nth k d 0 =? 0 then correct_top k d else Z.of_nat n end.
Definition bn_correct_top (b : BIGNUM) : BIGNUM := if 0 <? bn_top b then with_top (correct_top (Z.to_nat (bn_top b)) (bn_d b)) b else b.

Definition BN_copy (a b : Z) : M bn_store unit :=
  if a =? b then mret tt
  else
  y ← rd b;
  bn_wexpand a (bn_top y);;
  put_words a 0 (ztake (bn_top y) (bn_d y));;
  upd a (fun x => with_neg (bn_neg y) (with_top (bn_top y) x)).
Definition BN_swap (a b : Z) : M bn_store unit :=
  x ← rd a; y ← rd b;
  let keep f g := Z.lor (Z.land f 0x01) (Z.land g BN_FLG_STATIC_DATA) in
  upd a (fun _ => mkBn (bn_d y) (bn_top y) (bn_dmax y) (bn_neg y) (bn_flags x));;
  upd b (fun z => mkBn (bn_d x) (bn_top x) (bn_dmax x) (bn_neg x) (bn_flags z));;
  upd a (with_flags (keep (bn_flags x) (bn_flags y)));;
  upd b (with_flags (keep (bn_flags y) (bn_flags x))).
Definition BN_clear (p : Z) : M bn_store unit := upd p (fun b => mkBn (zeros (bn_dmax b)) 0 (bn_dmax b) false (bn_flags b)).

(** ** Looking at numbers *)
Definition BN_num_bits (a : BIGNUM) : Z := if BN_is_zero a then 0 else (bn_top a - 1) * BN_BITS2 + BN_num_bits_word (znth (bn_d a) (bn_top a - 1)).
Definition BN_get_word (a : BIGNUM) : Z := if 1 <? bn_top a then BN_MASK2 else if bn_top a =? 1 then znth (bn_d a) 0 else 0.
(** The first difference from the highest word down. *)
Fixpoint first_difference (i : nat) (ap bp : list Z) : Z :=
  match i with
  | O => 0
  | S i => let t1 := nth i ap 0 in let t2 := nth i bp 0 in if negb (t1 =? t2) then (if t2 <? t1 then 1 else -1) else first_difference i ap bp
  end.
Definition BN_ucmp (a b : BIGNUM) : Z :=
  let i := bn_top a - bn_top b in
  if negb (i =? 0) then i else first_difference (Z.to_nat (bn_top a)) (bn_d a) (bn_d b).
Definition BN_cmp (a b : BIGNUM) : Z :=
  if negb (Bool.eqb (bn_neg a) (bn_neg b)) then (if bn_neg a then -1 else 1)
  else
  let '(gt, lt) := if bn_neg a then (-1, 1) else (1, -1) in
  if bn_top b <? bn_top a then gt
  else if bn_top a <? bn_top b then lt
  else let c := first_difference (Z.to_nat (bn_top a)) (bn_d a) (bn_d b) in if 0 <? c then gt else if c <? 0 then lt else 0.
Definition BN_is_bit_set (a : BIGNUM) (n : Z) : Z :=
  if n <? 0 then 0
  else let i := n / BN_BITS2 in let j := n mod BN_BITS2 in
  if bn_top a <=? i then 0 else Z.land (Z.shiftr (znth (bn_d a) i) j) 1.

(** ** Bits and bytes *)
Definition BN_set_bit (p n : Z) : M bn_store unit :=
  if n <? 0 then fail
  else
  let i := n / BN_BITS2 in
  let j := n mod BN_BITS2 in
  a ← rd p;
  when (bn_top a <=? i) (
    bn_wexpand p (i + 1);;
    put_words p (bn_top a) (zeros (i + 1 - bn_top a));;
    upd p (with_top (i + 1)));;
  w ← get_w p i;
  set_w p i (Z.lor w (Z.shiftl 1 j)).
Definition BN_clear_bit (p n : Z) : M bn_store unit :=
  if n <? 0 then fail
  else
  let i := n / BN_BITS2 in
  let j := n mod BN_BITS2 in
  a ← rd p;
  if bn_top a <=? i then fail
  else
  w ← get_w p i;
  set_w p i (Z.land w (wrap64 (Z.lnot (Z.shiftl 1 j))));;
  upd p bn_correct_top.
Definition BN_mask_bits (p n : Z) : M bn_store unit :=
  if n <? 0 then fail
  else
  let w := n / BN_BITS2 in
  let b := n mod BN_BITS2 in
  a ← rd p;
  if bn_top a <=? w then fail
  else
  (if b =? 0 then upd p (with_top w)
   else
   upd p (with_top (w + 1));;
   v ← get_w p w;
   set_w p w (Z.land v (wrap64 (Z.lnot (wrap64 (Z.shiftl BN_MASK2 b))))));;
  upd p bn_correct_top.
Definition BN_set_negative (p : Z) (b : bool) : M bn_store unit := upd p (fun a => with_neg (b && negb (BN_is_zero a)) a).
(** The loop of [BN_bin2bn]: the bytes left, the word [l] in progress, its bytes to come and the words to come. *)
Fixpoint bin_loop (p : Z) (s : list Z) (l m i : Z) : M bn_store unit :=
  match s with
  | [] => mret tt
  | x :: s =>
      let l := Z.lor (wrap64 (Z.shiftl l 8)) x in
      if m =? 0 then set_w p (i - 1) l;; bin_loop p s 0 (BN_BYTES - 1) (i - 1) else bin_loop p s l (m - 1) i
  end.
Definition BN_bin2bn (s : list Z) (p : Z) : M bn_store unit :=
  let n := zlen s in
  if n =? 0 then upd p (with_top 0)
  else
  let i := (n - 1) / BN_BYTES + 1 in
  let m := (n - 1) mod BN_BYTES in
  bn_wexpand p i;;
  upd p (fun b => with_neg false (with_top i b));;
  bin_loop p s 0 m i;;
  upd p bn_correct_top.
Definition BN_num_bytes (a : BIGNUM) : Z := (BN_num_bits a + 7) / 8.
Fixpoint bytes_down (i : nat) (d : list Z) : list Z :=
  match i with
  | O => []
  | S i => Z.land (wrap8 (Z.shiftr (znth d (Z.of_nat i / BN_BYTES)) (8 * (Z.of_nat i mod BN_BYTES)))) 0xff :: bytes_down i d
  end.
Definition BN_bn2bin (a : BIGNUM) : list Z := bytes_down (Z.to_nat (BN_num_bytes a)) (bn_d a).

(** ** Addition and subtraction *)
(** The carry through the words of the longer number. *)
Fixpoint add_rest (ap : list Z) (carry : Z) : list Z * Z :=
  match ap with
  | [] => ([], carry)
  | t1 :: ap =>
      let t2 := Z.land (wrap64 (t1 + carry)) BN_MASK2 in
      let carry := Z.land carry (bit (t2 =? 0)) in
      let '(rs, carry) := add_rest ap carry in
      (t2 :: rs, carry)
  end.
Fixpoint sub_rest (ap : list Z) (borrow : Z) : list Z * Z :=
  match ap with
  | [] => ([], borrow)
  | t1 :: ap =>
      let t2 := Z.land (wrap64 (t1 - borrow)) BN_MASK2 in
      let borrow := Z.land borrow (bit (t1 =? 0)) in
      let '(rs, borrow) := sub_rest ap borrow in
      (t2 :: rs, borrow)
  end.
Definition BN_uadd (r a b : Z) : M bn_store unit :=
  x ← rd a; y ← rd b;
  let '(a, b) := if bn_top x <? bn_top y then (b, a) else (a, b) in
  x ← rd a; y ← rd b;
  let max := bn_top x in
  let min := bn_top y in
  bn_wexpand r (max + 1);;
  upd r (with_top max);;
  x ← rd a; y ← rd b;
  let '(lo, carry) := bn_add_words (bn_d x) (bn_d y) min in
  let '(hi, carry) := add_rest (slice (bn_d x) min (max - min)) carry in
  put_words r 0 (lo ++ hi ++ [carry]);;
  upd r (fun z => with_neg false (with_top (bn_top z + carry) z)).
Definition BN_usub (r a b : Z) : M bn_store unit :=
  x ← rd a; y ← rd b;
  let max := bn_top x in
  let min := bn_top y in
  if max - min <? 0 then fail
  else
  bn_wexpand r max;;
  x ← rd a; y ← rd b;
  let '(lo, borrow) := bn_sub_words (bn_d x) (bn_d y) min in
  let '(hi, _) := sub_rest (slice (bn_d x) min (max - min)) borrow in
  put_words r 0 (lo ++ hi);;
  z ← rd r;
  upd r (fun z => with_neg false (with_top (correct_top (Z.to_nat max) (bn_d z)) z));;
  upd r bn_correct_top.
(** [BN_add] and [BN_sub]: the sign is set even when the operation failed. *)
Definition then_neg (neg : bool) (r : Z) (m : M bn_store unit) : M bn_store unit := fun h =>
  let '(ret, h) := m h in (ret, <[r := with_neg neg (h !!! r)]> h).
Definition BN_add (r a b : Z) : M bn_store unit :=
  x ← rd a; y ← rd b;
  if Bool.eqb (bn_neg x) (bn_neg y) then then_neg (bn_neg x) r (BN_uadd r a b)
  else
  let cmp := BN_ucmp x y in
  if 0 <? cmp then then_neg (bn_neg x) r (BN_usub r a b)
  else if cmp <? 0 then then_neg (bn_neg y) r (BN_usub r b a)
  else then_neg false r (BN_zero r).
Definition BN_sub (r a b : Z) : M bn_store unit :=
  x ← rd a; y ← rd b;
  if negb (Bool.eqb (bn_neg x) (bn_neg y)) then then_neg (bn_neg x) r (BN_uadd r a b)
  else
  let cmp := BN_ucmp x y in
  if 0 <? cmp then then_neg (bn_neg x) r (BN_usub r a b)
  else if cmp <? 0 then then_neg (negb (bn_neg y)) r (BN_usub r b a)
  else then_neg false r (BN_zero r).
(** For [a] and [b] in [0, m). *)
Definition BN_mod_add_quick (r a b m : Z) : M bn_store unit :=
  BN_uadd r a b;; x ← rd r; y ← rd m; if 0 <=? BN_ucmp x y then BN_usub r r m else mret tt.
Definition BN_mod_sub_quick (r a b m : Z) : M bn_store unit := BN_sub r a b;; x ← rd r; if bn_neg x then BN_add r r m else mret tt.

(** ** Shifts *)
Fixpoint lshift1_words (ap : list Z) (c : Z) : list Z * Z :=
  match ap with
  | [] => ([], c)
  | t :: ap =>
      let r := Z.land (Z.lor (wrap64 (Z.shiftl t 1)) c) BN_MASK2 in
      let c := if negb (Z.land t BN_TBIT =? 0) then 1 else 0 in
      let '(rs, c) := lshift1_words ap c in
      (r :: rs, c)
  end.
Definition BN_lshift1 (r a : Z) : M bn_store unit :=
  x ← rd a;
  (if negb (r =? a) then
     upd r (with_neg (bn_neg x));;
     bn_wexpand r (bn_top x + 1);;
     upd r (with_top (bn_top x))
   else bn_wexpand r (bn_top x + 1));;
  x ← rd a;
  let '(rs, c) := lshift1_words (ztake (bn_top x) (bn_d x)) 0 in
  put_words r 0 rs;;
  when (negb (c =? 0)) (set_w r (bn_top x) 1;; upd r (fun z => with_top (bn_top z + 1) z)).
(** From the highest word down: the words and the bit that falls out. *)
Fixpoint rshift1_words (ap : list Z) (high : Z) : list Z * Z :=
  match ap with
  | [] => ([], high)
  | t :: ap =>
      let '(rs, c) := rshift1_words ap high in
      (Z.lor (Z.land (Z.shiftr t 1) BN_MASK2) c :: rs, if negb (Z.land t 1 =? 0) then BN_TBIT else 0)
  end.
Definition BN_rshift1 (r a : Z) : M bn_store unit :=
  x ← rd a;
  if BN_is_zero x then BN_zero r
  else
  let i := bn_top x in
  let j := i - bit (znth (bn_d x) (i - 1) =? 1) in
  when (negb (a =? r)) (bn_wexpand r j;; upd r (with_neg (bn_neg x)));;
  x ← rd a;
  let t := znth (bn_d x) (i - 1) in
  let c := if negb (Z.land t 1 =? 0) then BN_TBIT else 0 in
  let t := Z.shiftr t 1 in
  put_words r 0 (fst (rshift1_words (ztake (i - 1) (bn_d x)) c) ++ (if t =? 0 then [] else [t]));;
  upd r (with_top j).
(** The words of [f] moved up by [lb] bits, one more word than [f] has; [low] is what comes in from below. *)
Fixpoint shl_words (lb : Z) (f : list Z) (low : Z) : list Z :=
  match f with
  | [] => [low]
  | l :: f => Z.lor (Z.land (wrap64 (Z.shiftl l lb)) BN_MASK2) low :: shl_words lb f (Z.land (Z.shiftr l (BN_BITS2 - lb)) BN_MASK2)
  end.
Definition BN_lshift (r a n : Z) : M bn_store unit :=
  x ← rd a;
  upd r (with_neg (bn_neg x));;
  x ← rd a;
  let nw := n / BN_BITS2 in
  bn_wexpand r (bn_top x + nw + 1);;
  let lb := n mod BN_BITS2 in
  x ← rd a;
  let f := ztake (bn_top x) (bn_d x) in
  put_words r 0 (zeros nw ++ (if lb =? 0 then f ++ [0] else shl_words lb f 0));;
  upd r (with_top (bn_top x + nw + 1));;
  upd r bn_correct_top.
Fixpoint shr_words (rb : Z) (l : Z) (f : list Z) : list Z :=
  let tmp := Z.land (Z.shiftr l rb) BN_MASK2 in
  match f with
  | [] => if tmp =? 0 then [] else [tmp]
  | l :: f => Z.land (Z.lor tmp (wrap64 (Z.shiftl l (BN_BITS2 - rb)))) BN_MASK2 :: shr_words rb l f
  end.
Definition BN_rshift (r a n : Z) : M bn_store unit :=
  x ← rd a;
  let nw := n / BN_BITS2 in
  let rb := n mod BN_BITS2 in
  if (bn_top x <=? nw) || (bn_top x =? 0) then BN_zero r
  else
  let i := (BN_num_bits x - n + (BN_BITS2 - 1)) / BN_BITS2 in
  when (negb (r =? a)) (upd r (with_neg (bn_neg x));; bn_wexpand r i);;
  if (r =? a) && (n =? 0) then mret tt
  else
  x ← rd a;
  let f := slice (bn_d x) nw (bn_top x - nw) in
  put_words r 0 (if rb =? 0 then f else match f with [] => [] | l :: f => shr_words rb l f end);;
  upd r (with_top i).

(** ** Numbers and words *)
(** From the highest word down: the digits of the quotient and the remainder. *)
Fixpoint div_words_down (w : Z) (d : list Z) (ret : Z) : list Z * Z :=
  match d with
  | [] => ([], ret)
  | l :: d =>
      let '(qs, ret) := div_words_down w d ret in
      let q := bn_div_words ret l w in
      (q :: qs, Z.land (wrap64 (l - Z.land (wrap64 (q * w)) BN_MASK2)) BN_MASK2)
  end.
(** The remainder; -1 as an unsigned word on errors. *)
Definition BN_div_word (p w : Z) : State bn_store Z := fun h =>
  let w := Z.land w BN_MASK2 in
  if w =? 0 then (BN_MASK2, h)
  else if bn_top (h !!! p) =? 0 then (0, h)
  else
  let j := BN_BITS2 - BN_num_bits_word w in
  let w := wrap64 (Z.shiftl w j) in
  match BN_lshift p p j h with
  | (None, h) => (BN_MASK2, h)
  | (Some _, h) =>
      let a := h !!! p in
      let '(qs, ret) := div_words_down w (ztake (bn_top a) (bn_d a)) 0 in
      let a := with_d (overwrite (bn_d a) 0 qs) a in
      let a := if (0 <? bn_top a) && (znth (bn_d a) (bn_top a - 1) =? 0) then with_top (bn_top a - 1) a else a in
      (Z.shiftr ret j, <[p := a]> h)
  end.
Fixpoint mod_words_down (w : Z) (d : list Z) : Z :=
  match d with
  | [] => 0
  | x :: d =>
      let ret := mod_words_down w d in
      let ret := Z.lor (wrap64 (Z.shiftl ret BN_BITS4)) (Z.land (Z.shiftr x BN_BITS4) BN_MASK2l) mod w in
      Z.lor (wrap64 (Z.shiftl ret BN_BITS4)) (Z.land x BN_MASK2l) mod w
  end.
(** [tmp]: where [BN_dup] puts its copy. *)
Definition BN_mod_word (tmp : Z) (a : BIGNUM) (w : Z) : Z :=
  if w =? 0 then BN_MASK2
  else if Z.shiftl 1 BN_BITS4 <? w then
    match (_ ← BN_copy tmp (tmp + 1); getS) (<[tmp := BN_init]> {[ tmp + 1 := a ]}) with
    | (None, _) => BN_MASK2
    | (Some h, _) => fst (BN_div_word tmp w h)
    end
  else mod_words_down (Z.land w BN_MASK2) (ztake (bn_top a) (bn_d a)).
Fixpoint add_word_loop (d : list Z) (w : Z) : list Z * Z :=
  match d with
  | [] => ([], w)
  | x :: d' =>
      if w =? 0 then (d, w)
      else let l := Z.land (wrap64 (x + w)) BN_MASK2 in let '(rs, w) := add_word_loop d' (if l <? w then 1 else 0) in (l :: rs, w)
  end.
(** The loop of [BN_sub_word]: the words, and the index where it stops. *)
Fixpoint sub_word_loop (d : list Z) (w i : Z) : list Z * Z :=
  match d with
  | [] => ([], i)
  | x :: d =>
      if w <=? x then (wrap64 (x - w) :: d, i)
      else let '(rs, j) := sub_word_loop d 1 (i + 1) in (Z.land (wrap64 (x - w)) BN_MASK2 :: rs, j)
  end.
(** For [a] that is not negative. *)
Definition add_word_abs (p w : Z) : M bn_store unit :=
  a ← rd p;
  if BN_is_zero a then BN_set_word p w
  else
  let '(rs, w) := add_word_loop (ztake (bn_top a) (bn_d a)) w in
  put_words p 0 rs;;
  when (negb (w =? 0)) (
    bn_wexpand p (bn_top a + 1);;
    upd p (fun a => with_top (bn_top a + 1) a);;
    set_w p (bn_top a) w).
Definition sub_word_abs (p w : Z) : M bn_store unit :=
  a ← rd p;
  if BN_is_zero a then BN_set_word p w;; BN_set_negative p true
  else if (bn_top a =? 1) && (znth (bn_d a) 0 <? w) then
    set_w p 0 (wrap64 (w - znth (bn_d a) 0));; upd p (with_neg true)
  else
  let '(rs, i) := sub_word_loop (ztake (bn_top a) (bn_d a)) w 0 in
  put_words p 0 rs;;
  a ← rd p;
  when ((znth (bn_d a) i =? 0) && (i =? bn_top a - 1)) (upd p (with_top (bn_top a - 1))).
Definition flip_neg (p : Z) (m : M bn_store unit) : M bn_store unit := fun h =>
  let '(i, h) := m h in (i, if BN_is_zero (h !!! p) then h else <[p := with_neg (negb (bn_neg (h !!! p))) (h !!! p)]> h).
Definition BN_add_word (p w : Z) : M bn_store unit :=
  let w := Z.land w BN_MASK2 in
  a ← rd p;
  if w =? 0 then mret tt
  else if negb (BN_is_zero a) && bn_neg a then
    upd p (with_neg false);;
    flip_neg p (sub_word_abs p w)
  else add_word_abs p w.
Definition BN_sub_word (p w : Z) : M bn_store unit :=
  let w := Z.land w BN_MASK2 in
  a ← rd p;
  if w =? 0 then mret tt
  else if negb (BN_is_zero a) && bn_neg a then
    upd p (with_neg false);;
    then_neg true p (add_word_abs p w)
  else sub_word_abs p w.
Definition BN_mul_word (p w : Z) : M bn_store unit :=
  let w := Z.land w BN_MASK2 in
  a ← rd p;
  if bn_top a =? 0 then mret tt
  else if w =? 0 then BN_zero p
  else
  let '(rs, ll) := bn_mul_words (bn_d a) (bn_top a) w in
  put_words p 0 rs;;
  when (negb (ll =? 0)) (
    bn_wexpand p (bn_top a + 1);;
    set_w p (bn_top a) ll;;
    upd p (with_top (bn_top a + 1))).

(** ** Montgomery's reduction *)
(** The modulus [N] is at an address of its own; [n0] is the inverse of its lowest word, negated. *)
Record BN_MONT_CTX := mkMont { mont_N : Z; mont_n0 : Z }.
(** The loop: [rp] are the words from [r->d[i]] on. *)
Fixpoint mont_loop (i : nat) (rp np : list Z) (nl n0 carry : Z) : list Z * Z :=
  match i, rp with
  | S i, r0 :: _ =>
      let '(rs, v) := bn_mul_add_words rp np nl (Z.land (wrap64 (r0 * n0)) BN_MASK2) in
      let rp := overwrite rp 0 rs in
      let rnl := znth rp nl in
      let v := Z.land (wrap64 (v + carry + rnl)) BN_MASK2 in
      let carry := Z.lor carry (bit (negb (v =? rnl))) in
      let carry := Z.land carry (bit (v <=? rnl)) in
      let rp := <[Z.to_nat nl := v]> rp in
      match rp with
      | [] => ([], carry)
      | r0 :: rp => let '(rs, carry) := mont_loop i rp np nl n0 carry in (r0 :: rs, carry)
      end
  | _, _ => (rp, carry)
  end.
Definition BN_from_montgomery_word (ret r : Z) (mont : BN_MONT_CTX) : M bn_store unit :=
  n ← rd (mont_N mont);
  let nl := bn_top n in
  if nl =? 0 then upd ret (with_top 0)
  else
  let max := 2 * nl in
  bn_wexpand r max;;
  upd r (fun z => with_neg (xorb (bn_neg z) (bn_neg n)) z);;
  z ← rd r;
  put_words r (bn_top z) (zeros (max - bn_top z));;
  upd r (with_top max);;
  z ← rd r;
  n ← rd (mont_N mont);
  let '(rp, carry) := mont_loop (Z.to_nat nl) (bn_d z) (bn_d n) nl (mont_n0 mont) 0 in
  upd r (with_d rp);;
  bn_wexpand ret nl;;
  z ← rd r;
  upd ret (fun x => with_neg (bn_neg z) (with_top nl x));;
  n ← rd (mont_N mont);
  let ap := slice (bn_d z) nl nl in
  let '(rp, v) := bn_sub_words ap (bn_d n) nl in
  put_words ret 0 rp;;
  (* [m] selects [ap] when it is all ones and [rp] when it is 0; a mixture of both pointers would point nowhere *)
  let m := wrap64 (0 - wrap64 (v - carry)) in
  (if m =? 0 then mret tt else if m =? BN_MASK2 then put_words ret 0 ap else fail);;
  put_words r nl (zeros nl);;
  upd r bn_correct_top;;
  upd ret bn_correct_top.
End Bn.
