(* ===== verification/BnSpec.v ===== *)
(** * Big numbers: addition, subtraction, comparison and conversions compute with integers

    What a number stands for, when it is well-formed, and that the operations keep numbers well-formed and compute the integer operation, whatever operands
    are the same number. *)
From S2P Require Import Prelude Compat Words BnWord BnMul BnMulSpec Bn.

(** The words in use, and the integer. *)
Definition bn_used (b : BIGNUM) : list Z := ztake (bn_top b) (bn_d b).
Definition bn_abs (b : BIGNUM) : Z := bn_val (bn_used b).
Definition bn_sign (b : BIGNUM) : Z := if bn_neg b then -1 else 1.
Definition bn_value (b : BIGNUM) : Z := bn_sign b * bn_abs b.
Record bn_ok (b : BIGNUM) : Prop := {
  bo_len : words_of (bn_d b) (bn_dmax b);
  bo_top : 0 <= bn_top b <= bn_dmax b;
  bo_high : 0 < bn_top b -> znth (bn_d b) (bn_top b - 1) <> 0;
  bo_dynamic : BN_get_flags b BN_FLG_STATIC_DATA = false
}.
Definition bn_okb (b : BIGNUM) : bool :=
  (zlen (bn_d b) =? bn_dmax b) && forallb (fun w => (0 <=? w) && (w <? 2 ^ 64)) (bn_d b) && (0 <=? bn_top b) && (bn_top b <=? bn_dmax b) &&
  ((bn_top b =? 0) || negb (znth (bn_d b) (bn_top b - 1) =? 0)) && negb (BN_get_flags b BN_FLG_STATIC_DATA).
Lemma bn_okb_ok b : bn_okb b = true -> bn_ok b.
Proof.
  unfold bn_okb. intros [[[[[H1%Z.eqb_eq H2]%andb_true_iff H3%Z.leb_le]%andb_true_iff H4%Z.leb_le]%andb_true_iff H5]%andb_true_iff H6%negb_true_iff]%andb_true_iff.
  split; [split; [done|]|lia| |done].
  - rewrite forallb_forall in H2. apply Forall_forall. intros w Hw. apply list_elem_of_In, H2, andb_true_iff in Hw as [H7%Z.leb_le H8%Z.ltb_lt]. done.
  - intros Hpos. apply orb_true_iff in H5 as [H5%Z.eqb_eq|H5%negb_true_iff%Z.eqb_neq]; [lia|done].
Qed.
Lemma used_words b : bn_ok b -> words_of (bn_used b) (bn_top b).
Proof. intros []. by apply (words_take _ (bn_dmax b)). Qed.
(** The value of a normal form: the highest word is not zero. *)
Lemma znth_split l k : 0 <= k < zlen l -> bn_val (ztake (k + 1) l) = bn_val (ztake k l) + radix k * znth l k.
Proof.
  intros Hk. unfold ztake, znth. replace (Z.to_nat (k + 1)) with (S (Z.to_nat k)) by lia. unfold zlen in Hk.
  destruct (lookup_lt_is_Some_2 l (Z.to_nat k)) as [x Hx]; [lia|]. rewrite (take_S_r _ _ x) by done. rewrite bn_val_app, bn_val_cons, bn_val_nil, (nth_lookup_Some _ _ _ _ Hx). unfold zlen. rewrite length_take, Nat.min_l by lia. rewrite Z2Nat.id by lia. lia.
Qed.
Lemma abs_lower b : bn_ok b -> 0 < bn_top b -> radix (bn_top b - 1) <= bn_abs b.
Proof.
  intros Hb Ht. pose proof (bo_high b Hb Ht) as Hh. destruct (bo_len b Hb) as [Hl Hw]. pose proof (bo_top b Hb). pose proof (znth_word (bn_d b) (bn_top b - 1) Hw) as Hz. unfold is_word in Hz.
  unfold bn_abs, bn_used. replace (bn_top b) with (bn_top b - 1 + 1) at 2 by lia. rewrite znth_split by lia. pose proof (bn_val_bound (ztake (bn_top b - 1) (bn_d b)) ltac:(by apply Forall_ztake)).
  pose proof (radix_pos (bn_top b - 1) ltac:(lia)). nia.
Qed.
Lemma abs_topped b : bn_ok b -> 0 < bn_top b -> topped (bn_used b) (bn_top b).
Proof. intros Hb Ht. split; [by apply used_words|by apply abs_lower]. Qed.
Lemma abs_bound b : bn_ok b -> 0 <= bn_abs b < radix (bn_top b).
Proof. intros Hb. apply words_bound. by apply used_words. Qed.
Lemma abs_zero b : bn_ok b -> bn_abs b = 0 <-> bn_top b = 0.
Proof.
  intros Hb. pose proof (bo_top b Hb). split.
  - intros E. destruct (decide (bn_top b = 0)); [done|]. pose proof (abs_lower b Hb ltac:(lia)). pose proof (radix_pos (bn_top b - 1) ltac:(lia)). lia.
  - intros E. unfold bn_abs, bn_used. by rewrite E, ztake_nonpos.
Qed.

(** ** Normalisation *)
Lemma correct_top_spec d n : Forall is_word d -> (n <= length d)%nat ->
  let t := correct_top n d in 0 <= t <= Z.of_nat n /\ (0 < t -> znth d (t - 1) <> 0) /\ bn_val (ztake t d) = bn_val (take n d).
Proof.
  intros Hw. induction n as [|k IH]; intros Hn; [cbn; split; [lia|]; split; [lia|done]|]. cbn [correct_top]. pose proof (znth_split d (Z.of_nat k) ltac:(unfold zlen; lia)) as Hs.
  unfold ztake, znth in Hs. replace (Z.to_nat (Z.of_nat k + 1)) with (S k) in Hs by lia. rewrite Nat2Z.id in Hs.
  destruct (Z.eqb_spec (nth k d 0) 0) as [E|E].
  - destruct IH as (H1 & H2 & H3); [lia|]. split; [lia|]. split; [done|]. rewrite H3, Hs, E. lia.
  - split; [lia|]. split; [intros _; unfold znth; by replace (Z.to_nat (Z.of_nat (S k) - 1)) with k by lia|]. unfold ztake. by rewrite Nat2Z.id.
Qed.

(** ** Comparison *)
Lemma radix_le m n : 0 <= m <= n -> radix m <= radix n.
Proof. intros Hmn. unfold radix. apply Z.pow_le_mono_r; lia. Qed.
Lemma first_difference_words n a b : first_difference (Z.to_nat n) a b = bn_cmp_words a b n.
Proof. unfold bn_cmp_words. induction (Z.to_nat n) as [|i IH]; [done|]. cbn [first_difference]. by rewrite IH. Qed.
Lemma difference_spec a b n : bn_ok a -> bn_ok b -> bn_top a = n -> bn_top b = n -> first_difference (Z.to_nat n) (bn_d a) (bn_d b) = Z.sgn (bn_abs a - bn_abs b).
Proof.
  intros Ha Hb Ea Eb. pose proof (bo_top a Ha). pose proof (bo_top b Hb). destruct (bo_len a Ha) as [La Wa]. destruct (bo_len b Hb) as [Lb Wb].
  rewrite first_difference_words, bn_cmp_words_spec by (done || lia). unfold bn_abs, bn_used. by rewrite Ea, Eb.
Qed.
Lemma shorter_less a b : bn_ok a -> bn_ok b -> bn_top a < bn_top b -> bn_abs a < bn_abs b.
Proof.
  intros Ha Hb Ht. pose proof (bo_top a Ha). pose proof (abs_bound a Ha). pose proof (abs_lower b Hb ltac:(lia)). pose proof (radix_le (bn_top a) (bn_top b - 1) ltac:(lia)). lia.
Qed.
Lemma BN_ucmp_spec a b : bn_ok a -> bn_ok b -> Z.sgn (BN_ucmp a b) = Z.sgn (bn_abs a - bn_abs b).
Proof.
  intros Ha Hb. unfold BN_ucmp. destruct (Z.eqb_spec (bn_top a - bn_top b) 0) as [E|E]; cbn [negb].
  - rewrite (difference_spec a b) by (done || lia). apply Z.sgn_sgn.
  - destruct (Z.lt_total (bn_top a) (bn_top b)) as [Hl|[?|Hl]]; [|lia|].
    + pose proof (shorter_less a b Ha Hb Hl). rewrite !Z.sgn_neg by lia. done.
    + pose proof (shorter_less b a Hb Ha Hl). rewrite !Z.sgn_pos by lia. done.
Qed.
(** [BN_cmp] compares the integers, unless one is a negative zero. *)
Lemma BN_cmp_spec a b : bn_ok a -> bn_ok b -> (bn_neg a = true -> bn_top a <> 0) -> (bn_neg b = true -> bn_top b <> 0) -> BN_cmp a b = Z.sgn (bn_value a - bn_value b).
Proof.
  intros Ha Hb Na Nb. pose proof (abs_bound a Ha). pose proof (abs_bound b Hb). pose proof (abs_zero a Ha) as Za. pose proof (abs_zero b Hb) as Zb. unfold BN_cmp, bn_value, bn_sign.
  destruct (bn_neg a) eqn:Ea, (bn_neg b) eqn:Eb; cbn [Bool.eqb negb].
  - destruct (Z.ltb_spec (bn_top b) (bn_top a)) as [Hl|Hge1]; [pose proof (shorter_less b a Hb Ha Hl); rewrite Z.sgn_neg by lia; done|].
    destruct (Z.ltb_spec (bn_top a) (bn_top b)) as [Hl|Hge2]; [pose proof (shorter_less a b Ha Hb Hl); rewrite Z.sgn_pos by lia; done|].
    rewrite (difference_spec a b) by (done || lia). destruct (Z.sgn_spec (bn_abs a - bn_abs b)) as [[Hs ->]|[[Hs ->]|[Hs ->]]]; symmetry; [first [by apply Z.sgn_pos; lia|by apply Z.sgn_neg; lia]|by apply Z.sgn_null; lia|first [by apply Z.sgn_pos; lia|by apply Z.sgn_neg; lia]].
  - assert (bn_abs a <> 0) by (intros E; apply Na; [done|by apply Za]). rewrite Z.sgn_neg by lia. done.
  - assert (bn_abs b <> 0) by (intros E; apply Nb; [done|by apply Zb]). rewrite Z.sgn_pos by lia. done.
  - destruct (Z.ltb_spec (bn_top b) (bn_top a)) as [Hl|Hge1]; [pose proof (shorter_less b a Hb Ha Hl); rewrite Z.sgn_pos by lia; done|].
    destruct (Z.ltb_spec (bn_top a) (bn_top b)) as [Hl|Hge2]; [pose proof (shorter_less a b Ha Hb Hl); rewrite Z.sgn_neg by lia; done|].
    rewrite (difference_spec a b) by (done || lia). destruct (Z.sgn_spec (bn_abs a - bn_abs b)) as [[Hs ->]|[[Hs ->]|[Hs ->]]]; symmetry; [first [by apply Z.sgn_pos; lia|by apply Z.sgn_neg; lia]|by apply Z.sgn_null; lia|first [by apply Z.sgn_pos; lia|by apply Z.sgn_neg; lia]].
Qed.

(** [b'] has the contents of [b], and room for [n] words. *)
Record grown (b b' : BIGNUM) (n : Z) : Prop := {
  gr_words : words_of (bn_d b') (bn_dmax b');
  gr_room : n <= bn_dmax b' /\ bn_dmax b <= bn_dmax b';
  gr_used : ztake (bn_top b) (bn_d b') = bn_used b;
  gr_same : bn_top b' = bn_top b /\ bn_neg b' = bn_neg b /\ bn_flags b' = bn_flags b
}.
(** [h'] is [h] with [b] at [p]. *)
Definition changed (p : Z) (h : bn_store) (b : BIGNUM) (h' : bn_store) : Prop := h' !!! p = b /\ forall q, q <> p -> h' !!! q = h !!! q.
Lemma changed_refl p h : changed p h (h !!! p) h.
Proof. done. Qed.
Lemma changed_insert p h b : changed p h b (<[p := b]> h).
Proof. split; [apply lookup_total_insert_eq|]. intros q Hq. by apply lookup_total_insert_ne. Qed.
Lemma changed_trans p h b h1 b' h2 : changed p h b h1 -> changed p h1 b' h2 -> changed p h b' h2.
Proof. intros [_ H1] [H2 H3]. split; [done|]. intros q Hq. by rewrite H3, H1. Qed.

Section Spec.
Context `{Allocator} (garbage : Z -> Z -> Z) (Hmem : forall n, malloc_ok n = true).

Lemma uninitialised_words n : 0 <= n -> words_of (uninitialised garbage n) n.
Proof.
  intros Hn. unfold uninitialised. split; [unfold zlen; rewrite length_fmap, length_seqZ; lia|]. apply Forall_fmap, Forall_forall. intros i _. apply wrap64_word.
Qed.
Lemma bn_wexpand_spec p n h : bn_ok (h !!! p) -> n <= BN_MAX_WORDS -> exists h' b', bn_wexpand garbage p n h = (Some tt, h') /\ changed p h b' h' /\ grown (h !!! p) b' n.
Proof.
  intros Hb Hn. set (b := h !!! p) in *. destruct (bo_len b Hb) as [Hl Hw]. pose proof (bo_top b Hb). unfold bn_wexpand, rd, mbind, M_bind. fold b.
  destruct (Z.leb_spec n (bn_dmax b)) as [Hle|Hgt].
  - exists h, b. split; [done|]. split; [done|]. by split.
  - unfold bn_expand2, rd, mbind, M_bind. fold b. rewrite (proj2 (Z.ltb_lt _ _) Hgt). unfold bn_expand_internal. rewrite (proj2 (Z.ltb_ge BN_MAX_WORDS n) Hn), (bo_dynamic b Hb), Hmem.
    unfold upd, modS. fold b. eexists _, _. split; [done|]. split; [apply changed_insert|]. pose proof (uninitialised_words n ltac:(lia)) as [Hul Huw]. fold (bn_used b). pose proof (used_words b Hb) as [Hu1 Hu2].
    split; cbn [bn_d bn_dmax bn_top bn_neg bn_flags]; [|lia| |done].
    + split; [rewrite zlen_overwrite; lia|]. unfold overwrite. rewrite !Forall_app. split_and!; [by apply Forall_ztake|done|by apply Forall_zdrop].
    + unfold overwrite. rewrite (ztake_nonpos 0) by lia. cbn [app]. by apply ztake_app_eq.
Qed.
Lemma grown_used b b' n : bn_ok b -> grown b b' n -> bn_used b' = bn_used b.
Proof. intros Hb Hg. unfold bn_used at 1. destruct (gr_same _ _ _ Hg) as (-> & _ & _). apply Hg. Qed.

(** Writing the result of an operation, of which the highest words may be zero. *)
Lemma written d ws : words_of ws (zlen ws) -> Forall is_word d -> zlen ws <= zlen d ->
  words_of (overwrite d 0 ws) (zlen d) /\ ztake (zlen ws) (overwrite d 0 ws) = ws.
Proof.
  intros [_ Hw] Hd Hl. pose proof (zlen_nonneg ws). split; [split; [rewrite zlen_overwrite; lia|]|].
  - unfold overwrite. rewrite !Forall_app. split_and!; [by apply Forall_ztake|done|by apply Forall_zdrop].
  - unfold overwrite. rewrite (ztake_nonpos 0) by lia. cbn [app]. by apply ztake_app_eq.
Qed.
Lemma take_used b b' n k : bn_ok b -> grown b b' n -> 0 <= k <= bn_top b -> ztake k (bn_d b') = ztake k (bn_used b).
Proof. intros Hb Hg Hk. rewrite <- (gr_used _ _ _ Hg), ztake_ztake, Z.min_l by lia. done. Qed.
Lemma slice_used b b' n k : bn_ok b -> grown b b' n -> 0 <= k <= bn_top b -> slice (bn_d b') k (bn_top b - k) = zdrop k (bn_used b).
Proof.
  intros Hb Hg Hk. unfold slice. rewrite <- (gr_used _ _ _ Hg). unfold ztake, zdrop. rewrite skipn_firstn_comm. f_equal. lia.
Qed.

Lemma add_rest_spec ap : forall c, Forall is_word ap -> 0 <= c <= 1 ->
  let '(rs, c') := add_rest ap c in words_of rs (zlen ap) /\ 0 <= c' <= 1 /\ bn_val rs + radix (zlen ap) * c' = bn_val ap + c.
Proof.
  intros c Ha. revert c. induction Ha as [|t ap Ht Ha IH]; intros c Hc; cbn [add_rest]; [rewrite bn_val_nil; change (radix (zlen [])) with 1; split; [done|lia]|].
  rewrite mask_id. set (c1 := Z.land c (bit (_ =? 0))). assert (Hc1 : 0 <= c1 <= 1 /\ wrap64 (t + c) + 2 ^ 64 * c1 = t + c).
  { unfold c1, bit, is_word in *. assert (c = 0 \/ c = 1) as [->| ->] by lia.
    - rewrite Z.land_0_l, !Z.add_0_r, (wrap64_id t Ht). lia.
    - destruct (Z.eqb_spec (wrap64 (t + 1)) 0) as [E|E]; unfold wrap64 in *; [rewrite E; assert (t = 2 ^ 64 - 1) as -> by dlia; done|]. change (Z.land 1 0) with 0. dlia. }
  destruct Hc1 as [Hc1 E1]. specialize (IH c1 Hc1). destruct (add_rest ap c1) as [rs c']. destruct IH as ([Hl Hw] & Hc' & E).
  rewrite zlen_cons, !bn_val_cons, radix_succ by apply zlen_nonneg. split; [split; [rewrite zlen_cons; lia|constructor; [apply wrap64_word|done]]|]. split; [done|].
  transitivity (wrap64 (t + c) + 2 ^ 64 * (bn_val rs + radix (zlen ap) * c')); [ring|]. rewrite E. lia.
Qed.
Lemma sub_rest_spec ap : forall c, Forall is_word ap -> 0 <= c <= 1 ->
  let '(rs, c') := sub_rest ap c in words_of rs (zlen ap) /\ 0 <= c' <= 1 /\ bn_val rs - radix (zlen ap) * c' = bn_val ap - c.
Proof.
  intros c Ha. revert c. induction Ha as [|t ap Ht Ha IH]; intros c Hc; cbn [sub_rest]; [rewrite bn_val_nil; change (radix (zlen [])) with 1; split; [done|lia]|].
  rewrite mask_id. set (c1 := Z.land c (bit (_ =? 0))). assert (Hc1 : 0 <= c1 <= 1 /\ wrap64 (t - c) - 2 ^ 64 * c1 = t - c).
  { unfold c1, bit, is_word in *. assert (c = 0 \/ c = 1) as [->| ->] by lia.
    - rewrite Z.land_0_l, !Z.sub_0_r, (wrap64_id t Ht). lia.
    - destruct (Z.eqb_spec t 0) as [->|E]; [done|]. change (Z.land 1 0) with 0. unfold wrap64. dlia. }
  destruct Hc1 as [Hc1 E1]. specialize (IH c1 Hc1). destruct (sub_rest ap c1) as [rs c']. destruct IH as ([Hl Hw] & Hc' & E).
  rewrite zlen_cons, !bn_val_cons, radix_succ by apply zlen_nonneg. split; [split; [rewrite zlen_cons; lia|constructor; [apply wrap64_word|done]]|]. split; [done|].
  transitivity (wrap64 (t - c) + 2 ^ 64 * (bn_val rs - radix (zlen ap) * c')); [ring|]. rewrite E. lia.
Qed.
Lemma add_words_take a b n : bn_add_words a b n = bn_add_words (ztake n a) (ztake n b) n.
Proof. unfold bn_add_words. by rewrite !ztake_ztake, Z.min_id. Qed.
Lemma sub_words_take a b n : bn_sub_words a b n = bn_sub_words (ztake n a) (ztake n b) n.
Proof. unfold bn_sub_words. by rewrite !ztake_ztake, Z.min_id. Qed.

(** The sum of the used words of two numbers, the longer one first. *)
Lemma add_used x y x' y' n : bn_ok x -> bn_ok y -> grown x x' n -> grown y y' n -> bn_top y <= bn_top x ->
  let '(lo, c) := bn_add_words (bn_d x') (bn_d y') (bn_top y) in
  let '(hi, c') := add_rest (slice (bn_d x') (bn_top y) (bn_top x - bn_top y)) c in
  words_of (lo ++ hi) (bn_top x) /\ 0 <= c' <= 1 /\ bn_val (lo ++ hi) + radix (bn_top x) * c' = bn_abs x + bn_abs y.
Proof.
  intros Hx Hy Gx Gy Ht. pose proof (bo_top y Hy) as Hty. pose proof (used_words x Hx) as Ux. pose proof (used_words y Hy) as Uy. rewrite add_words_take, (take_used x x' n), (take_used y y' n), (slice_used x x' n) by (done || lia).
  rewrite (ztake_ge (bn_top y) (bn_used y)) by (destruct Uy; lia). pose proof (words_take _ _ (bn_top y) Ux ltac:(lia)) as Ut. pose proof (words_drop _ _ (bn_top y) Ux ltac:(lia)) as Ud.
  pose proof (bn_add_words_spec _ _ _ Ut Uy) as Hs. destruct (bn_add_words _ _ _) as [lo c]. destruct Hs as (Hlo & Hc & E). pose proof (add_rest_spec (zdrop (bn_top y) (bn_used x)) c (proj2 Ud) Hc) as Hs.
  destruct (add_rest _ c) as [hi c']. destruct Hs as (Hhi & Hc' & E'). rewrite (proj1 Ud) in Hhi, E'. split; [replace (bn_top x) with (bn_top y + (bn_top x - bn_top y)) by lia; by apply words_of_app|]. split; [done|].
  rewrite bn_val_app, (proj1 Hlo). replace (bn_top x) with (bn_top y + (bn_top x - bn_top y)) by lia. rewrite radix_add by lia. replace (bn_top y + (bn_top x - bn_top y)) with (bn_top x) in * by lia.
  unfold bn_abs. rewrite (bn_val_split (bn_used x) (bn_top y)) by (destruct Ux; lia).
  transitivity (bn_val lo + radix (bn_top y) * (bn_val hi + radix (bn_top x - bn_top y) * c')); [ring|]. rewrite E'. transitivity (bn_val lo + radix (bn_top y) * c + radix (bn_top y) * bn_val (zdrop (bn_top y) (bn_used x))); [ring|]. rewrite E. ring.
Qed.
Lemma sub_used x y x' y' n : bn_ok x -> bn_ok y -> grown x x' n -> grown y y' n -> bn_top y <= bn_top x ->
  let '(lo, c) := bn_sub_words (bn_d x') (bn_d y') (bn_top y) in
  let '(hi, c') := sub_rest (slice (bn_d x') (bn_top y) (bn_top x - bn_top y)) c in
  words_of (lo ++ hi) (bn_top x) /\ 0 <= c' <= 1 /\ bn_val (lo ++ hi) - radix (bn_top x) * c' = bn_abs x - bn_abs y.
Proof.
  intros Hx Hy Gx Gy Ht. pose proof (bo_top y Hy) as Hty. pose proof (used_words x Hx) as Ux. pose proof (used_words y Hy) as Uy. rewrite sub_words_take, (take_used x x' n), (take_used y y' n), (slice_used x x' n) by (done || lia).
  rewrite (ztake_ge (bn_top y) (bn_used y)) by (destruct Uy; lia). pose proof (words_take _ _ (bn_top y) Ux ltac:(lia)) as Ut. pose proof (words_drop _ _ (bn_top y) Ux ltac:(lia)) as Ud.
  pose proof (bn_sub_words_spec _ _ _ Ut Uy) as Hs. destruct (bn_sub_words _ _ _) as [lo c]. destruct Hs as (Hlo & Hc & E). pose proof (sub_rest_spec (zdrop (bn_top y) (bn_used x)) c (proj2 Ud) Hc) as Hs.
  destruct (sub_rest _ c) as [hi c']. destruct Hs as (Hhi & Hc' & E'). rewrite (proj1 Ud) in Hhi, E'. split; [replace (bn_top x) with (bn_top y + (bn_top x - bn_top y)) by lia; by apply words_of_app|]. split; [done|].
  rewrite bn_val_app, (proj1 Hlo). replace (bn_top x) with (bn_top y + (bn_top x - bn_top y)) by lia. rewrite radix_add by lia. replace (bn_top y + (bn_top x - bn_top y)) with (bn_top x) in * by lia.
  unfold bn_abs. rewrite (bn_val_split (bn_used x) (bn_top y)) by (destruct Ux; lia).
  transitivity (bn_val lo + radix (bn_top y) * (bn_val hi - radix (bn_top x - bn_top y) * c')); [ring|]. rewrite E'. transitivity (bn_val lo - radix (bn_top y) * c + radix (bn_top y) * bn_val (zdrop (bn_top y) (bn_used x))); [ring|]. rewrite E. ring.
Qed.
(** The highest word is not zero when the value is large enough. *)
Lemma top_not_zero d n t : words_of d n -> 0 < t <= n -> radix (t - 1) <= bn_val (ztake t d) -> znth d (t - 1) <> 0.
Proof.
  intros [Hl Hw] Ht Hv E. replace t with (t - 1 + 1) in Hv at 2 by lia. rewrite znth_split, E in Hv by lia. pose proof (words_bound _ _ (words_take d n (t - 1) (conj Hl Hw) ltac:(lia))). lia.
Qed.
Lemma grown_at p q n h b' h' : bn_ok (h !!! p) -> bn_ok (h !!! q) -> changed p h b' h' -> grown (h !!! p) b' n -> grown (h !!! q) (h' !!! q) 0.
Proof.
  intros Hp Hq [Hb Hc] Hg. destruct (decide (q = p)) as [->|Hne].
  - rewrite Hb. pose proof (bo_top _ Hp). destruct Hg as [H1 H2 H3 H4]. split; try done. lia.
  - rewrite (Hc q Hne). pose proof (bo_top _ Hq). split; try done; [apply Hq|lia].
Qed.
Lemma words_of_self l n : words_of l n -> words_of l (zlen l).
Proof. by intros [<- H1]. Qed.
(** The number at [p] after its words have been written: normal, of the given sign and absolute value. *)
Record result (h : bn_store) (p : Z) (h' : bn_store) (neg : bool) (v : Z) : Prop := {
  rs_ok : bn_ok (h' !!! p);
  rs_neg : bn_neg (h' !!! p) = neg;
  rs_abs : bn_abs (h' !!! p) = v;
  rs_other : forall q, q <> p -> h' !!! q = h !!! q
}.
Lemma flags_of_grown b b' n : bn_ok b -> grown b b' n -> BN_get_flags b' BN_FLG_STATIC_DATA = false.
Proof. intros Hb Hg. unfold BN_get_flags. destruct (gr_same _ _ _ Hg) as (_ & _ & ->). apply (bo_dynamic b Hb). Qed.
(** A word more than the sum's highest one, the carry, is in use or not. *)
Lemma written_carry d ws c : words_of ws (zlen ws) -> Forall is_word d -> zlen ws + 1 <= zlen d -> 0 <= c <= 1 ->
  words_of (overwrite d 0 (ws ++ [c])) (zlen d) /\ bn_val (ztake (zlen ws + c) (overwrite d 0 (ws ++ [c]))) = bn_val ws + radix (zlen ws) * c.
Proof.
  intros Hws Hd Hl Hc. pose proof (zlen_nonneg ws). assert (Hz : zlen (ws ++ [c]) = zlen ws + 1) by (rewrite zlen_app; done).
  destruct (written d (ws ++ [c])) as [H1 H2]; [|done|lia|].
  { rewrite Hz. apply (words_of_app _ _ (zlen ws) 1); [done|]. split; [done|]. constructor; [unfold is_word; lia|constructor]. }
  split; [done|]. rewrite Hz in H2. assert (c = 0 \/ c = 1) as [->| ->] by lia.
  - rewrite Z.add_0_r. replace (ztake (zlen ws) (overwrite d 0 (ws ++ [0]))) with ws; [lia|]. pose proof (f_equal (ztake (zlen ws)) H2) as H3. rewrite ztake_ztake, Z.min_l, ztake_app_eq in H3 by lia. done.
  - rewrite H2, bn_val_app, bn_val_cons, bn_val_nil. lia.
Qed.
Lemma BN_uadd_sorted r a b h : bn_ok (h !!! r) -> bn_ok (h !!! a) -> bn_ok (h !!! b) -> bn_top (h !!! b) <= bn_top (h !!! a) < BN_MAX_WORDS ->
  exists h', BN_uadd garbage r a b h = (Some tt, h') /\ result h r h' false (bn_abs (h !!! a) + bn_abs (h !!! b)).
Proof.
  intros Hr Ha Hb Ht. unfold BN_uadd, rd, mbind, M_bind. rewrite (proj2 (Z.ltb_ge _ _) (proj1 Ht)). set (x := h !!! a) in *. set (y := h !!! b) in *. pose proof (bo_top x Ha) as Htx. pose proof (bo_top y Hb) as Hty.
  destruct (bn_wexpand_spec r (bn_top x + 1) h Hr ltac:(lia)) as (h1 & r1 & -> & Hc & Hg). unfold upd at 1, modS at 1.
  assert (Hd : forall q, bn_d (<[r:=with_top (bn_top x) (h1 !!! r)]> h1 !!! q) = bn_d (h1 !!! q)).
  { intros q. destruct (decide (q = r)) as [->|Hne]; [by rewrite lookup_total_insert_eq|by rewrite lookup_total_insert_ne]. }
  rewrite !Hd. pose proof (add_used x y _ _ _ Ha Hb (grown_at r a _ h r1 h1 Hr Ha Hc Hg) (grown_at r b _ h r1 h1 Hr Hb Hc Hg) ltac:(lia)) as Hs.
  destruct (bn_add_words _ _ _) as [lo c]. destruct (add_rest _ c) as [hi c']. destruct Hs as (Hws & Hc' & E). rewrite app_assoc. unfold put_words, upd, modS. eexists. split; [reflexivity|].
  rewrite !insert_insert_eq, !lookup_total_insert_eq. destruct Hc as [Hc1 Hc2]. rewrite Hc1. destruct Hg as [[Gl Gw] Gr Gu Gs].
  destruct (written_carry (bn_d r1) (lo ++ hi) c' (words_of_self _ _ Hws) Gw ltac:(rewrite (proj1 Hws); lia) Hc') as [W1 W2]. rewrite (proj1 Hws), E in W2.
  split; rewrite ?lookup_total_insert_eq; [|done|done|intros q Hq; rewrite lookup_total_insert_ne by done; by apply Hc2].
  split; cbn [bn_d bn_dmax bn_top bn_neg bn_flags with_d with_top with_neg]; [by rewrite <- Gl|lia| |].
  - intros Hpos. apply (top_not_zero _ _ _ W1); [lia|]. rewrite W2. pose proof (abs_bound y Hb). assert (c' = 0 \/ c' = 1) as [->| ->] by lia.
    + rewrite Z.add_0_r in *. pose proof (abs_lower x Ha ltac:(lia)). lia.
    + replace (bn_top x + 1 - 1) with (bn_top x) by lia. pose proof (words_bound _ _ Hws). lia.
  - apply (flags_of_grown (h !!! r) r1 (bn_top x + 1) Hr). by split.
Qed.
Lemma BN_uadd_spec r a b h : bn_ok (h !!! r) -> bn_ok (h !!! a) -> bn_ok (h !!! b) -> bn_top (h !!! a) < BN_MAX_WORDS -> bn_top (h !!! b) < BN_MAX_WORDS ->
  exists h', BN_uadd garbage r a b h = (Some tt, h') /\ result h r h' false (bn_abs (h !!! a) + bn_abs (h !!! b)).
Proof.
  intros Hr Ha Hb Hta Htb. destruct (Z.ltb_spec (bn_top (h !!! a)) (bn_top (h !!! b))) as [Hlt|Hge]; [|by apply BN_uadd_sorted].
  destruct (BN_uadd_sorted r b a h Hr Hb Ha ltac:(lia)) as (h' & E & R). exists h'. rewrite Z.add_comm. split; [|done]. rewrite <- E. unfold BN_uadd, rd, mbind, M_bind.
  by rewrite (proj2 (Z.ltb_lt _ _) Hlt), (proj2 (Z.ltb_ge (bn_top (h !!! b)) _)) by lia.
Qed.
Lemma correct_top_again d n : Forall is_word d -> (n <= length d)%nat -> correct_top (Z.to_nat (correct_top n d)) d = correct_top n d.
Proof.
  intros Hd Hn. destruct (correct_top_spec d n Hd Hn) as (Ht & Hh & _). set (t := correct_top n d) in *. destruct (Z.to_nat t) as [|k] eqn:E; cbn [correct_top]; [lia|].
  unfold znth in Hh. replace (Z.to_nat (t - 1)) with k in Hh by lia. destruct (Z.eqb_spec (nth k d 0) 0) as [E0|_]; [destruct Hh; [lia|done]|lia].
Qed.
Lemma BN_usub_spec r a b h : bn_ok (h !!! r) -> bn_ok (h !!! a) -> bn_ok (h !!! b) -> bn_top (h !!! a) <= BN_MAX_WORDS -> bn_top (h !!! b) <= bn_top (h !!! a) -> bn_abs (h !!! b) <= bn_abs (h !!! a) ->
  exists h', BN_usub garbage r a b h = (Some tt, h') /\ result h r h' false (bn_abs (h !!! a) - bn_abs (h !!! b)).
Proof.
  intros Hr Ha Hb Hm Ht Hle. unfold BN_usub, rd, mbind, M_bind. set (x := h !!! a) in *. set (y := h !!! b) in *. pose proof (bo_top x Ha) as Htx. pose proof (bo_top y Hb) as Hty.
  rewrite (proj2 (Z.ltb_ge (bn_top x - bn_top y) 0)) by lia. destruct (bn_wexpand_spec r (bn_top x) h Hr ltac:(lia)) as (h1 & r1 & -> & Hc & Hg).
  pose proof (sub_used x y _ _ _ Ha Hb (grown_at r a _ h r1 h1 Hr Ha Hc Hg) (grown_at r b _ h r1 h1 Hr Hb Hc Hg) ltac:(lia)) as Hs.
  destruct (bn_sub_words _ _ _) as [lo c]. destruct (sub_rest _ c) as [hi c']. destruct Hs as (Hws & Hc' & E). unfold put_words, upd, modS. eexists. split; [reflexivity|].
  assert (Ev : bn_val (lo ++ hi) = bn_abs x - bn_abs y).
  { pose proof (words_bound _ _ Hws). pose proof (abs_bound x Ha). pose proof (abs_bound y Hb). assert (c' = 0 \/ c' = 1) as [-> | ->] by lia; lia. }
  rewrite !insert_insert_eq, !lookup_total_insert_eq. destruct Hc as [Hc1 Hc2]. rewrite Hc1. pose proof Hg as [[Gl Gw] Gr Gu Gs].
  destruct (written (bn_d r1) (lo ++ hi) (words_of_self _ _ Hws) Gw ltac:(rewrite (proj1 Hws); lia)) as [W1 W2]. rewrite (proj1 Hws) in W2.
  set (d := overwrite (bn_d r1) 0 (lo ++ hi)) in *. assert (Hn : (Z.to_nat (bn_top x) <= length d)%nat) by (pose proof (proj1 W1) as W0; rewrite Gl in W0; unfold zlen in W0; lia).
  destruct (correct_top_spec d (Z.to_nat (bn_top x)) (proj2 W1) Hn) as (T1 & T2 & T3).
  pose proof (correct_top_again d (Z.to_nat (bn_top x)) (proj2 W1) Hn) as T4. set (t := correct_top _ d) in *.
  change (take (Z.to_nat (bn_top x)) d) with (ztake (bn_top x) d) in T3. rewrite W2, Ev in T3.
  assert (Et : bn_correct_top (with_neg false (with_top t (with_d d r1))) = mkBn d t (bn_dmax r1) false (bn_flags r1)).
  { unfold bn_correct_top. cbn. destruct (Z.ltb_spec 0 t); [|done]. unfold with_top. cbn. by rewrite T4. }
  cbn [bn_d with_d]. fold d. fold t. rewrite Et. split; rewrite ?lookup_total_insert_eq; [|done|exact T3|intros q Hq; rewrite lookup_total_insert_ne by done; by apply Hc2].
  split; cbn [bn_d bn_dmax bn_top bn_neg bn_flags]; [by rewrite <- Gl|lia|exact T2|]. by apply (flags_of_grown (h !!! r) r1 (bn_top x) Hr).
Qed.
(** [BN_zero], which expands an empty number first. *)
Lemma BN_zero_spec r h : bn_ok (h !!! r) -> exists h', BN_zero garbage r h = (Some tt, h') /\ result h r h' false 0.
Proof.
  intros Hr. unfold BN_zero, ignore, BN_set_word, bn_expand, rd, mbind, M_bind. change (2 ^ 31 - 1 - BN_BITS2 + 1 <? 64) with false. change ((64 + BN_BITS2 - 1) / BN_BITS2) with 1. cbv beta iota.
  pose proof (bn_wexpand_spec r 1 h Hr ltac:(done)) as (h1 & r1 & E & [Hc1 Hc2] & Hg). unfold bn_wexpand, rd, mbind, M_bind in E. rewrite E. unfold upd, modS. change (0 =? 0) with true. cbv iota.
  eexists. split; [reflexivity|]. rewrite Hc1. pose proof Hg as [[Gl Gw] Gr Gu Gs]. split; rewrite ?lookup_total_insert_eq; [|done|done|intros q Hq; rewrite lookup_total_insert_ne by done; by apply Hc2].
  split; cbn [bn_d bn_dmax bn_top bn_neg bn_flags with_d with_top with_neg]; [|lia|lia|by apply (flags_of_grown (h !!! r) r1 1 Hr)].
  split; [unfold zlen in *; by rewrite length_insert|]. by apply Forall_insert.
Qed.
(** A sign set on top of a result. *)
Lemma then_neg_spec neg r m h h' n v : m h = (Some tt, h') -> result h r h' n v -> exists h', then_neg neg r m h = (Some tt, h') /\ result h r h' neg v.
Proof.
  intros E [[H1 H2 H3 H4] R2 R3 R4]. unfold then_neg. rewrite E. eexists. split; [reflexivity|]. split; rewrite ?lookup_total_insert_eq; [by split|done|done|]. intros q Hq. rewrite lookup_total_insert_ne by done. by apply R4.
Qed.
Lemma result_value h r h' neg v : result h r h' neg v -> bn_value (h' !!! r) = (if neg then -1 else 1) * v.
Proof. intros [_ R2 R3 _]. unfold bn_value, bn_sign. by rewrite R2, R3. Qed.
(** What an operation promises: it succeeds, [r] is a normal form that stands for [v], and nothing else changes. *)
Definition computes (m : M bn_store unit) (h : bn_store) (r v : Z) : Prop :=
  exists h', m h = (Some tt, h') /\ bn_ok (h' !!! r) /\ bn_value (h' !!! r) = v /\ forall q, q <> r -> h' !!! q = h !!! q.
Lemma computes_result m h r h' neg v w : m h = (Some tt, h') -> result h r h' neg v -> w = (if neg then -1 else 1) * v -> computes m h r w.
Proof. intros E R ->. exists h'. split; [done|]. split; [apply R|]. split; [by apply (result_value h)|apply R]. Qed.
(** The two cases the signs leave: absolute values added, or the smaller one taken from the larger one. *)
Lemma sum_case neg r a b h : bn_ok (h !!! r) -> bn_ok (h !!! a) -> bn_ok (h !!! b) -> bn_top (h !!! a) < BN_MAX_WORDS -> bn_top (h !!! b) < BN_MAX_WORDS ->
  computes (then_neg neg r (BN_uadd garbage r a b)) h r ((if neg then -1 else 1) * (bn_abs (h !!! a) + bn_abs (h !!! b))).
Proof.
  intros Hr Ha Hb Ta Tb. destruct (BN_uadd_spec r a b h Hr Ha Hb Ta Tb) as (h1 & E1 & R1). destruct (then_neg_spec neg r _ h h1 _ _ E1 R1) as (h2 & E2 & R2). by apply (computes_result _ _ _ h2 neg (bn_abs (h !!! a) + bn_abs (h !!! b))).
Qed.
Lemma difference_case neg r a b h : bn_ok (h !!! r) -> bn_ok (h !!! a) -> bn_ok (h !!! b) -> bn_top (h !!! a) < BN_MAX_WORDS -> bn_abs (h !!! b) < bn_abs (h !!! a) ->
  computes (then_neg neg r (BN_usub garbage r a b)) h r ((if neg then -1 else 1) * (bn_abs (h !!! a) - bn_abs (h !!! b))).
Proof.
  intros Hr Ha Hb Ta Hlt. assert (Ht : bn_top (h !!! b) <= bn_top (h !!! a)) by (apply Z.nlt_ge; intros Hs; pose proof (shorter_less _ _ Ha Hb Hs); lia).
  destruct (BN_usub_spec r a b h Hr Ha Hb ltac:(lia) Ht ltac:(lia)) as (h1 & E1 & R1). destruct (then_neg_spec neg r _ h h1 _ _ E1 R1) as (h2 & E2 & R2). by apply (computes_result _ _ _ h2 neg (bn_abs (h !!! a) - bn_abs (h !!! b))).
Qed.
Lemma zero_case r h : bn_ok (h !!! r) -> computes (then_neg false r (BN_zero garbage r)) h r 0.
Proof. intros Hr. destruct (BN_zero_spec r h Hr) as (h1 & E1 & R1). destruct (then_neg_spec false r _ h h1 _ _ E1 R1) as (h2 & E2 & R2). by apply (computes_result _ _ _ h2 false 0). Qed.
(** The signs of [BN_add] and [BN_sub], which differ in how the sign of [b] is read. *)
Lemma signed_case r a b h (nb : bool) : bn_ok (h !!! r) -> bn_ok (h !!! a) -> bn_ok (h !!! b) -> bn_top (h !!! a) < BN_MAX_WORDS -> bn_top (h !!! b) < BN_MAX_WORDS ->
  computes (if Bool.eqb (bn_neg (h !!! a)) nb then then_neg (bn_neg (h !!! a)) r (BN_uadd garbage r a b)
            else let cmp := BN_ucmp (h !!! a) (h !!! b) in
                 if 0 <? cmp then then_neg (bn_neg (h !!! a)) r (BN_usub garbage r a b)
                 else if cmp <? 0 then then_neg nb r (BN_usub garbage r b a) else then_neg false r (BN_zero garbage r))
    h r (bn_value (h !!! a) + (if nb then -1 else 1) * bn_abs (h !!! b)).
Proof.
  intros Hr Ha Hb Ta Tb. unfold bn_value, bn_sign. destruct (Bool.eqb_spec (bn_neg (h !!! a)) nb) as [->|Hne].
  - rewrite <- Z.mul_add_distr_l. by apply sum_case.
  - pose proof (BN_ucmp_spec _ _ Ha Hb) as Hc. cbv zeta. destruct (Z.ltb_spec 0 (BN_ucmp (h !!! a) (h !!! b))) as [Hgt|Hle].
    + rewrite Z.sgn_pos in Hc by done. replace ((if bn_neg _ then _ else _) * _ + _) with ((if bn_neg (h !!! a) then -1 else 1) * (bn_abs (h !!! a) - bn_abs (h !!! b))) by (destruct (bn_neg _), nb; (done || lia)). apply difference_case; (done || lia).
    + destruct (Z.ltb_spec (BN_ucmp (h !!! a) (h !!! b)) 0) as [Hlt|Hge].
      * rewrite Z.sgn_neg in Hc by done. replace ((if bn_neg _ then _ else _) * _ + _) with ((if nb then -1 else 1) * (bn_abs (h !!! b) - bn_abs (h !!! a))) by (destruct (bn_neg _), nb; (done || lia)). apply difference_case; (done || lia).
      * replace ((if bn_neg _ then _ else _) * _ + _) with 0 by (destruct (bn_neg _), nb; (done || lia)). by apply zero_case.
Qed.
Lemma BN_add_spec r a b h : bn_ok (h !!! r) -> bn_ok (h !!! a) -> bn_ok (h !!! b) -> bn_top (h !!! a) < BN_MAX_WORDS -> bn_top (h !!! b) < BN_MAX_WORDS ->
  computes (BN_add garbage r a b) h r (bn_value (h !!! a) + bn_value (h !!! b)).
Proof.
  intros Hr Ha Hb Ta Tb. pose proof (signed_case r a b h (bn_neg (h !!! b)) Hr Ha Hb Ta Tb) as (h' & E & R). exists h'. split; [|exact R]. rewrite <- E. unfold BN_add, rd, mbind, M_bind. cbv zeta.
  repeat case_match; done.
Qed.
Lemma BN_sub_spec r a b h : bn_ok (h !!! r) -> bn_ok (h !!! a) -> bn_ok (h !!! b) -> bn_top (h !!! a) < BN_MAX_WORDS -> bn_top (h !!! b) < BN_MAX_WORDS ->
  computes (BN_sub garbage r a b) h r (bn_value (h !!! a) - bn_value (h !!! b)).
Proof.
  intros Hr Ha Hb Ta Tb. pose proof (signed_case r a b h (negb (bn_neg (h !!! b))) Hr Ha Hb Ta Tb) as (h' & E & R). replace (bn_value (h !!! a) - bn_value (h !!! b)) with (bn_value (h !!! a) + (if negb (bn_neg (h !!! b)) then -1 else 1) * bn_abs (h !!! b)) by (unfold bn_value, bn_sign; destruct (bn_neg (h !!! b)); cbn; lia).
  exists h'. split; [|exact R]. rewrite <- E. unfold BN_sub, rd, mbind, M_bind. cbv zeta. destruct (bn_neg (h !!! a)), (bn_neg (h !!! b)); cbn [Bool.eqb negb]; repeat case_match; done.
Qed.
(** C27: signed addition and subtraction are exact. For all normal forms [r], [a] and [b] at any addresses, so also when the result is one of the operands
    or they are all the same number, [BN_add] and [BN_sub] succeed when there is memory, [r] becomes the normal form of the sum and of the difference (no
    leading zero word, room for the carry, whatever [reallocarray] leaves in new words), and no other number changes. *)
Theorem BN_add_sub_exact r a b h : bn_ok (h !!! r) -> bn_ok (h !!! a) -> bn_ok (h !!! b) -> bn_top (h !!! a) < BN_MAX_WORDS -> bn_top (h !!! b) < BN_MAX_WORDS ->
  computes (BN_add garbage r a b) h r (bn_value (h !!! a) + bn_value (h !!! b)) /\ computes (BN_sub garbage r a b) h r (bn_value (h !!! a) - bn_value (h !!! b)).
Proof. intros. split; [by apply BN_add_spec|by apply BN_sub_spec]. Qed.
End Spec.

(** 2^64 - 1 and -1, and the sum of the first with itself into itself. *)
Definition two_numbers : bn_store := {[ 1 := mkBn [2 ^ 64 - 1] 1 1 false 0; 2 := mkBn [1; 7] 1 2 true 0 ]}.
Lemma BN_add_sub_exact_witness : 
  (computes (@BN_add ample (fun n i => n + i) 1 1 1) two_numbers 1 (2 ^ 65 - 2) /\ computes (@BN_sub ample (fun n i => n + i) 1 1 1) two_numbers 1 0)
  /\ (computes (@BN_add ample (fun n i => n + i) 2 1 2) two_numbers 2 (2 ^ 64 - 2) /\ computes (@BN_sub ample (fun n i => n + i) 2 1 2) two_numbers 2 (2 ^ 64)).
Proof.
  assert (H1 : bn_ok (two_numbers !!! 1)) by (apply bn_okb_ok; vm_compute; reflexivity). assert (H2 : bn_ok (two_numbers !!! 2)) by (apply bn_okb_ok; vm_compute; reflexivity).
  split; [exact (@BN_add_sub_exact ample (fun n i => n + i) (fun _ => eq_refl) 1 1 1 two_numbers H1 H1 H1 eq_refl eq_refl)|].
  exact (@BN_add_sub_exact ample (fun n i => n + i) (fun _ => eq_refl) 2 1 2 two_numbers H2 H1 H2 eq_refl eq_refl).
Defined.
