(* ===== verification/BnCtx.v ===== *)
(** * Temporary numbers and multiplication (crypto/bn/bn_ctx.c; [BN_mul] of bn_mul.c and [BN_sqr] of bn_sqr.c)

    A [BN_CTX] hands out numbers of a pool that grows in bundles of 16; frames that [BN_CTX_start] opens are given back by [BN_CTX_end]. The [i]-th number of
    the pool is at the address [pool_base + i], and a bundle is named by its place in the list, so [prev] and [next] are the places before and after
    and NULL before the head is -1. *)
From S2P Require Import Prelude Compat Words BnWord BnMul Bn.

Definition BN_CTX_POOL_SIZE : Z := 16.
Definition BN_CTX_START_FRAMES : Z := 32.
(** [sizeof(BN_POOL_ITEM)]: 16 numbers of 24 bytes and two pointers. *)
Definition sizeof_BN_POOL_ITEM : Z := 16 * 24 + 2 * 8.

Record BN_POOL := mkPool { pool_base : Z; pool_items : Z; pool_current : Z; pool_used : Z; pool_size : Z }.
Record BN_STACK := mkStack { st_indexes : list Z; st_depth : Z; st_size : Z }.
Record BN_CTX := mkCtx { ctx_pool : BN_POOL; ctx_stack : BN_STACK; ctx_used : Z; ctx_err_stack : Z; ctx_too_many : bool }.
(** All the numbers, and the context. *)
Record BnState := mkBs { bs_nums : bn_store; bs_ctx : BN_CTX }.
Definition with_pool (p : BN_POOL) (c : BN_CTX) : BN_CTX := mkCtx p (ctx_stack c) (ctx_used c) (ctx_err_stack c) (ctx_too_many c).
Definition with_err_stack (n : Z) (c : BN_CTX) : BN_CTX := mkCtx (ctx_pool c) (ctx_stack c) (ctx_used c) n (ctx_too_many c).
Definition set_ctx (c : BN_CTX) (s : BnState) : BnState := mkBs (bs_nums s) c.
Definition lift {A} (m : M bn_store A) : M BnState A := fun s => let '(r, h) := m (bs_nums s) in (r, mkBs h (bs_ctx s)).

(** ** The pool *)
Definition BN_POOL_init (base : Z) : BN_POOL := mkPool base 0 (-1) 0 0.
Definition init_numbers (p : Z) (h : bn_store) : bn_store := foldr (fun i h => <[p + Z.of_nat i := BN_init]> h) h (seq 0 16).
Definition BN_POOL_get `{Allocator} (p : BN_POOL) (h : bn_store) : option (Z * BN_POOL * bn_store) :=
  if pool_used p =? pool_size p then
    if malloc_ok sizeof_BN_POOL_ITEM then
      let item := pool_items p in
      let vals := pool_base p + BN_CTX_POOL_SIZE * item in
      Some (vals, mkPool (pool_base p) (item + 1) item (wrap32 (pool_used p + 1)) (wrap32 (pool_size p + BN_CTX_POOL_SIZE)), init_numbers vals h)
    else None
  else
  let current := if pool_used p =? 0 then 0 else if pool_used p mod BN_CTX_POOL_SIZE =? 0 then pool_current p + 1 else pool_current p in
  Some (pool_base p + BN_CTX_POOL_SIZE * current + pool_used p mod BN_CTX_POOL_SIZE,
        mkPool (pool_base p) (pool_items p) current (wrap32 (pool_used p + 1)) (pool_size p), h).
Fixpoint release_loop (num : nat) (offset current : Z) : Z :=
  match num with
  | O => current
  | S num => if offset =? 0 then release_loop num (BN_CTX_POOL_SIZE - 1) (current - 1) else release_loop num (offset - 1) current
  end.
Definition BN_POOL_release (num : Z) (p : BN_POOL) : BN_POOL :=
  let offset := wrap32 (pool_used p - 1) mod BN_CTX_POOL_SIZE in
  mkPool (pool_base p) (pool_items p) (release_loop (Z.to_nat num) offset (pool_current p)) (wrap32 (pool_used p - num)) (pool_size p).
Definition BN_POOL_reset (p : BN_POOL) : BN_POOL := mkPool (pool_base p) (pool_items p) (if pool_items p =? 0 then -1 else 0) 0 (pool_size p).

(** ** The stack of frames *)
Definition BN_STACK_init : BN_STACK := mkStack [] 0 0.
Section Ctx.
Context `{Allocator}.
Context (garbage : Z -> Z -> Z).
Definition BN_STACK_push (st : BN_STACK) (idx : Z) : option BN_STACK :=
  let full := st_depth st =? st_size st in
  let newsize := if st_size st =? 0 then BN_CTX_START_FRAMES else wrap32 (st_size st * 3) / 2 in
  let st' := if full then
               if malloc_ok (newsize * 4) then Some (mkStack (overwrite ((fun w => wrap32 w) <$> uninitialised garbage newsize) 0 (ztake (st_depth st) (st_indexes st))) (st_depth st) newsize)
               else None
             else Some st in
  st ← st';
  Some (mkStack (<[Z.to_nat (st_depth st) := idx]> (st_indexes st)) (wrap32 (st_depth st + 1)) (st_size st)).
(** For a stack that is not empty. *)
Definition BN_STACK_pop (st : BN_STACK) : Z * BN_STACK :=
  let depth := wrap32 (st_depth st - 1) in
  (znth (st_indexes st) depth, mkStack (st_indexes st) depth (st_size st)).

(** ** The context *)
Definition BN_CTX_new (base : Z) : BN_CTX := mkCtx (BN_POOL_init base) BN_STACK_init 0 0 false.
(** [BN_CTX_init] and [BN_POOL_reset] clear the numbers that have memory. *)
Definition BN_CTX_init (s : BnState) : BnState :=
  let p := ctx_pool (bs_ctx s) in
  let clear i h := let q := pool_base p + Z.of_nat i in if bn_dmax (h !!! q) =? 0 then h else snd (BN_clear q h) in
  mkBs (foldr clear (bs_nums s) (seq 0 (Z.to_nat (BN_CTX_POOL_SIZE * pool_items p))))
    (mkCtx (BN_POOL_reset p) (mkStack (st_indexes (ctx_stack (bs_ctx s))) 0 (st_size (ctx_stack (bs_ctx s)))) 0 0 false).
Definition BN_CTX_start : M BnState unit := modS (fun s =>
  let c := bs_ctx s in
  if negb (ctx_err_stack c =? 0) || ctx_too_many c then set_ctx (with_err_stack (ctx_err_stack c + 1) c) s
  else match BN_STACK_push (ctx_stack c) (ctx_used c) with
       | None => set_ctx (with_err_stack (ctx_err_stack c + 1) c) s
       | Some st => set_ctx (mkCtx (ctx_pool c) st (ctx_used c) (ctx_err_stack c) (ctx_too_many c)) s
       end).
Definition BN_CTX_end : M BnState unit := modS (fun s =>
  let c := bs_ctx s in
  if negb (ctx_err_stack c =? 0) then set_ctx (with_err_stack (ctx_err_stack c - 1) c) s
  else
  let '(fp, st) := BN_STACK_pop (ctx_stack c) in
  let pool := if fp <? ctx_used c then BN_POOL_release (ctx_used c - fp) (ctx_pool c) else ctx_pool c in
  set_ctx (mkCtx pool st fp (ctx_err_stack c) false) s).
Definition BN_CTX_get : M BnState Z := fun s =>
  let c := bs_ctx s in
  if negb (ctx_err_stack c =? 0) || ctx_too_many c then (None, s)
  else match BN_POOL_get (ctx_pool c) (bs_nums s) with
       | None => (None, set_ctx (mkCtx (ctx_pool c) (ctx_stack c) (ctx_used c) (ctx_err_stack c) true) s)
       | Some (ret, pool, h) =>
           let '(_, h) := BN_zero garbage ret h in
           (Some ret, mkBs h (mkCtx pool (ctx_stack c) (wrap32 (ctx_used c + 1)) (ctx_err_stack c) (ctx_too_many c)))
       end.
(** The body of a function between [BN_CTX_start] and [err: BN_CTX_end]. *)
Definition in_frame {A} (m : M BnState A) : M BnState A := fun s =>
  let '(_, s) := BN_CTX_start s in
  let '(r, s) := m s in
  let '(_, s) := BN_CTX_end s in
  (r, s).

(** ** Multiplication *)
(** The recursions halve a length that is an [int]. *)
Definition levels : nat := 33.
(** The product of [a] and [b] into [rr], by the sizes. *)
Definition mul_into (rr a b : Z) : M BnState unit :=
  x ← lift (rd a); y ← lift (rd b);
  let al := bn_top x in
  let bl := bn_top y in
  let top := al + bl in
  let i := al - bl in
  let ap := ztake al (bn_d x) in
  let bp := ztake bl (bn_d y) in
  if (i =? 0) && (al =? 8) then lift (
    bn_wexpand garbage rr 16;;
    upd rr (with_top 16);;
    put_words rr 0 (bn_mul_comba8 ap bp))
  else if (BN_MULL_SIZE_NORMAL <=? al) && (BN_MULL_SIZE_NORMAL <=? bl) && ((-1 <=? i) && (i <=? 1)) then
    let j := if 0 <=? i then BN_num_bits_word al else BN_num_bits_word bl in
    let j := Z.shiftl 1 (j - 1) in
    let k := j + j in
    t ← BN_CTX_get;
    (if (j <? al) || (j <? bl) then lift (
       bn_wexpand garbage t (k * 4);;
       bn_wexpand garbage rr (k * 4);;
       put_words rr 0 (bn_mul_part_recursive levels ap bp j (al - j) (bl - j)))
     else lift (
       bn_wexpand garbage t (k * 2);;
       bn_wexpand garbage rr (k * 2);;
       put_words rr 0 (bn_mul_recursive levels ap bp j (al - j) (bl - j))));;
    lift (upd rr (with_top top))
  else lift (
    bn_wexpand garbage rr top;;
    upd rr (with_top top);;
    put_words rr 0 (bn_mul_normal ap al bp bl)).
(** The result of [BN_copy] is not looked at. *)
Definition BN_mul (r a b : Z) : M BnState unit :=
  x ← lift (rd a); y ← lift (rd b);
  if (bn_top x =? 0) || (bn_top y =? 0) then lift (BN_zero garbage r)
  else in_frame (
    rr ← (if (r =? a) || (r =? b) then BN_CTX_get else mret r);
    x ← lift (rd a); y ← lift (rd b);
    lift (upd rr (with_neg (xorb (bn_neg x) (bn_neg y))));;
    mul_into rr a b;;
    lift (upd rr bn_correct_top);;
    when (negb (r =? rr)) (lift (ignore (BN_copy garbage r rr)))).
(** The square of [a] into [rr]; [tmp] has room for the scratch words. *)
Definition sqr_into (rr a tmp : Z) : M bn_store unit :=
  x ← rd a;
  let al := bn_top x in
  let max := 2 * al in
  let ap := ztake al (bn_d x) in
  bn_wexpand garbage rr max;;
  if al =? 4 then put_words rr 0 (bn_sqr_comba4 ap)
  else if al =? 8 then put_words rr 0 (bn_sqr_comba8 ap)
  else if al <? BN_SQR_RECURSIVE_SIZE_NORMAL then put_words rr 0 (bn_sqr_normal ap al)
  else
  let j := Z.shiftl 1 (BN_num_bits_word al - 1) in
  let k := j + j in
  if al =? j then
    bn_wexpand garbage tmp (k * 2);;
    put_words rr 0 (bn_sqr_recursive levels ap al)
  else
    bn_wexpand garbage tmp max;;
    put_words rr 0 (bn_sqr_normal ap al).
Definition BN_sqr (r a : Z) : M BnState unit :=
  x ← lift (rd a);
  if bn_top x <=? 0 then lift (upd r (fun z => with_neg false (with_top 0 z)))
  else in_frame (fun s =>
    let '(rr, s) := if a =? r then BN_CTX_get s else (Some r, s) in
    let '(tmp, s) := BN_CTX_get s in
    match rr, tmp with
    | Some rr, Some tmp => lift (
        sqr_into rr a tmp;;
        x ← rd a;
        let al := bn_top x in
        let w := znth (bn_d x) (al - 1) in
        upd rr (fun z => with_top (if w =? Z.land w BN_MASK2l then 2 * al - 1 else 2 * al) (with_neg false z));;
        when (negb (rr =? r)) (ignore (BN_copy garbage r rr))) s
    | _, _ => (None, s)
    end).
End Ctx.
