(* ===== verification/BnCtxSpec.v ===== *)
(** * The frames of a context keep temporary numbers apart; multiplication and squaring are exact

    The numbers a context has handed out and not taken back, frame by frame, and that the pool, its linked bundles and the stack of frames agree with them
    whatever memory fails; then [BN_mul] and [BN_sqr], by whichever of the routines of BnMul their operands take. *)
From S2P Require Import Prelude Compat Words BnWord BnMul BnMulSpec Bn BnSpec BnCtx.

(** ** The pool *)
Record pool_ok (p : BN_POOL) : Prop := {
  po_size : pool_size p = 16 * pool_items p;
  po_items : 0 <= pool_items p;
  po_used : 0 <= pool_used p <= pool_size p;
  po_current : 0 < pool_used p -> pool_current p = (pool_used p - 1) / 16
}.
Lemma release_loop_spec num : forall offset current, 0 <= offset < 16 -> release_loop num offset current = (16 * current + offset - Z.of_nat num) / 16.
Proof.
  induction num as [|num IH]; intros offset current Ho; cbn [release_loop]; [dlia|]. destruct (Z.eqb_spec offset 0) as [->|Hne]; rewrite IH; try (change BN_CTX_POOL_SIZE with 16; lia); [|f_equal; lia].
  change BN_CTX_POOL_SIZE with 16. f_equal. lia.
Qed.
Lemma BN_POOL_release_spec p num : pool_ok p -> pool_size p < 2 ^ 32 -> 0 <= num <= pool_used p ->
  pool_ok (BN_POOL_release num p) /\ pool_used (BN_POOL_release num p) = pool_used p - num /\ pool_size (BN_POOL_release num p) = pool_size p /\ pool_base (BN_POOL_release num p) = pool_base p.
Proof.
  intros [Hs Hi Hu Hc] Hlt Hn. assert (E : pool_used (BN_POOL_release num p) = pool_used p - num) by (cbn; unfold wrap32; apply Z.mod_small; lia).
  split; [|done]. split; [done|done|rewrite E; cbn; lia|]. rewrite E. intros Hpos. cbn [BN_POOL_release pool_current]. change BN_CTX_POOL_SIZE with 16.
  assert (Ew : wrap32 (pool_used p - 1) = pool_used p - 1) by (unfold wrap32; apply Z.mod_small; lia).
  rewrite release_loop_spec, Ew, Hc, Z2Nat.id by dlia. f_equal. pose proof (Z.div_mod (pool_used p - 1) 16 ltac:(lia)). lia.
Qed.
Lemma init_numbers_spec p h q : (p <= q < p + 16 -> init_numbers p h !!! q = BN_init) /\ (q < p \/ p + 16 <= q -> init_numbers p h !!! q = h !!! q).
Proof.
  unfold init_numbers. assert (H : forall n s, (p + Z.of_nat s <= q < p + Z.of_nat (s + n) -> foldr (fun i h => <[p + Z.of_nat i := BN_init]> h) h (seq s n) !!! q = BN_init) /\
    (q < p + Z.of_nat s \/ p + Z.of_nat (s + n) <= q -> foldr (fun i h => <[p + Z.of_nat i := BN_init]> h) h (seq s n) !!! q = h !!! q)).
  { induction n as [|n IH]; intros s; cbn [seq foldr]; [split; [lia|done]|]. destruct (IH (S s)) as [I1 I2]. destruct (decide (q = p + Z.of_nat s)) as [->|Hne].
    - rewrite lookup_total_insert_eq. split; [done|lia].
    - rewrite lookup_total_insert_ne by done. split; intros; [apply I1|apply I2]; lia. }
  destruct (H 16%nat 0%nat) as [H1 H2]. split; intros; [apply H1|apply H2]; lia.
Qed.
(** The next number of the pool is the one after those in use. *)
Lemma BN_POOL_get_spec `{Allocator} p h : pool_ok p -> pool_size p + 16 < 2 ^ 32 ->
  match BN_POOL_get p h with
  | None => malloc_ok sizeof_BN_POOL_ITEM = false
  | Some (q, p', h') => q = pool_base p + pool_used p /\ pool_ok p' /\ pool_used p' = pool_used p + 1 /\ pool_base p' = pool_base p /\ pool_size p <= pool_size p' <= pool_size p + 16 /\
      (forall x, x < pool_base p + pool_size p -> h' !!! x = h !!! x) /\ (forall x, pool_base p + pool_size p <= x < pool_base p + pool_size p' -> h' !!! x = BN_init)
  end.
Proof.
  intros [Hs Hi Hu Hc] Hlt. unfold BN_POOL_get. change BN_CTX_POOL_SIZE with 16. assert (Ew : wrap32 (pool_used p + 1) = pool_used p + 1) by (unfold wrap32; apply Z.mod_small; lia). rewrite Ew.
  destruct (Z.eqb_spec (pool_used p) (pool_size p)) as [E|E].
  - destruct (malloc_ok _); [|done]. assert (Ew2 : wrap32 (pool_size p + 16) = pool_size p + 16) by (unfold wrap32; apply Z.mod_small; lia). rewrite Ew2. cbn [pool_used pool_base pool_size pool_items pool_current].
    split; [lia|]. split; [split; cbn [pool_used pool_base pool_size pool_items pool_current]; [lia|lia|lia|intros _; rewrite E, Hs; dlia]|]. split; [done|]. split; [done|]. split; [lia|].
    split; intros x Hx; apply init_numbers_spec; lia.
  - cbn [pool_used pool_base pool_size pool_items pool_current]. set (cur := if _ =? 0 then 0 else _).
    assert (Ecur : cur = pool_used p / 16) by (unfold cur; destruct (Z.eqb_spec (pool_used p) 0) as [->|]; [done|]; rewrite Hc by lia; destruct (Z.eqb_spec (pool_used p mod 16) 0); dlia).
    split; [rewrite Ecur; dlia|]. split; [split; cbn [pool_used pool_base pool_size pool_items pool_current]; [done|done|lia|intros _; rewrite Ecur; f_equal; lia]|]. split; [done|]. split; [done|]. split; [lia|]. split; [done|lia].
Qed.

(** ** Frames *)
(** The frames, the newest first, are lists of addresses, the newest first; [live base n] is what they hold together. *)
Definition live (base n : Z) : list Z := (fun i => base + i) <$> reverse (seqZ 0 n).
Lemma live_succ base n : 0 <= n -> live base (n + 1) = (base + n) :: live base n.
Proof. intros Hn. unfold live. rewrite (seqZ_app 0 n 1) by lia. rewrite reverse_app. by rewrite Z.add_0_l. Qed.
Lemma zlen_live base n : 0 <= n -> zlen (live base n) = n.
Proof. intros Hn. unfold live, zlen. rewrite length_fmap, length_reverse, length_seqZ. lia. Qed.
Lemma elem_of_live base n p : p ∈ live base n -> base <= p < base + n.
Proof. unfold live. intros (i & -> & Hi)%list_elem_of_fmap. rewrite elem_of_reverse, elem_of_seqZ in Hi. lia. Qed.
(** The index that a frame saved when it began is the number of addresses below it. *)
Fixpoint marks (idx : list Z) (fs : list (list Z)) : Prop :=
  match fs with
  | _ :: ((_ :: _) as rest) => znth idx (zlen rest - 1) = zlen (concat rest) /\ marks idx rest
  | _ => True
  end.
Lemma marks_cons idx f g fs : marks idx (f :: g :: fs) <-> znth idx (zlen (g :: fs) - 1) = zlen (concat (g :: fs)) /\ marks idx (g :: fs).
Proof. done. Qed.
Lemma marks_ext idx idx' fs : (forall i, 0 <= i < zlen fs - 1 -> znth idx' i = znth idx i) -> marks idx fs -> marks idx' fs.
Proof.
  induction fs as [|f fs IH]; [done|]. intros He Hm. destruct fs as [|g fs]; [done|]. apply marks_cons in Hm as [Hm1 Hm2]. apply marks_cons. rewrite !zlen_cons in *. pose proof (zlen_nonneg fs).
  split; [by rewrite He by lia|]. apply IH; [|done]. intros i Hi. apply He. lia.
Qed.
Record stack_ok (st : BN_STACK) (fs : list (list Z)) : Prop := {
  so_depth : zlen fs = st_depth st + 1 /\ 0 <= st_depth st;
  so_len : zlen (st_indexes st) = st_size st;
  so_size : st_depth st <= st_size st;
  so_first : st_size st = 0 \/ 32 <= st_size st;
  so_marks : marks (st_indexes st) fs
}.
(** [bad] frames are open that could not be begun, or were begun after a failure: they hold nothing. *)
Definition frames_ok (c : BN_CTX) (fs : list (list Z)) : Prop :=
  exists rest, fs = replicate (Z.to_nat (ctx_err_stack c)) [] ++ rest /\ 0 <= ctx_err_stack c /\ pool_ok (ctx_pool c) /\ ctx_used c = pool_used (ctx_pool c) /\
    stack_ok (ctx_stack c) rest /\ concat rest = live (pool_base (ctx_pool c)) (ctx_used c).
Lemma concat_bad n (rest : list (list Z)) : concat (replicate n [] ++ rest) = concat rest.
Proof. induction n as [|n IH]; [done|]. cbn. apply IH. Qed.

Lemma znth_insert_ne (l : list Z) i j x : 0 <= i -> 0 <= j -> i <> j -> znth (<[Z.to_nat i := x]> l) j = znth l j.
Proof. intros Hi Hj Hne. unfold znth. rewrite !nth_lookup, list_lookup_insert_ne by lia. done. Qed.
Lemma znth_insert_eq (l : list Z) i x : 0 <= i < zlen l -> znth (<[Z.to_nat i := x]> l) i = x.
Proof. intros Hi. unfold znth, zlen in *. rewrite nth_lookup, list_lookup_insert_eq by lia. done. Qed.
Lemma znth_overwrite_take (l buf : list Z) n i : 0 <= i < n -> n <= zlen l -> n <= zlen buf -> znth (overwrite buf 0 (ztake n l)) i = znth l i.
Proof.
  intros Hi Hl Hb. unfold overwrite. rewrite (ztake_nonpos 0) by lia. cbn [app]. unfold znth, ztake, zlen in *. rewrite app_nth1 by (rewrite length_take; lia). rewrite !nth_lookup, lookup_take_lt by lia. done.
Qed.

Section Frames.
Context (garbage : Z -> Z -> Z).
Lemma BN_STACK_push_spec `{Allocator} st fs : stack_ok st fs -> st_depth st < 2 ^ 30 ->
  match BN_STACK_push garbage st (zlen (concat fs)) with None => True | Some st' => stack_ok st' ([] :: fs) /\ st_depth st' = st_depth st + 1 end.
Proof.
  intros [Hd Hl Hs Hf Hm] Hlt. unfold BN_STACK_push. set (grown := if st_depth st =? st_size st then _ else _). pose proof (zlen_nonneg (st_indexes st)) as Hpos. destruct Hd as [Hd Hd0].
  assert (Hg : match grown with None => True | Some st' => stack_ok st' fs /\ st_depth st' = st_depth st /\ st_depth st' < st_size st' end).
  { unfold grown. destruct (Z.eqb_spec (st_depth st) (st_size st)) as [E|E]; [|split; [by split|split; [done|lia]]]. destruct (malloc_ok _); [|done].
    set (n := if st_size st =? 0 then _ else _). assert (Hn : st_depth st < n /\ 32 <= n).
    { unfold n. destruct (Z.eqb_spec (st_size st) 0) as [E0|E0]; [change BN_CTX_START_FRAMES with 32; lia|]. unfold wrap32. rewrite Z.mod_small by lia. split; [dlia|]. apply Z.div_le_lower_bound; lia. }
    assert (Hu : zlen ((fun w => wrap32 w) <$> uninitialised garbage n) = n) by (unfold zlen; rewrite length_fmap; apply (uninitialised_words garbage n); lia).
    split; [|cbn; split; [done|lia]]. split; cbn [st_depth st_size st_indexes]; [done|rewrite zlen_overwrite; rewrite ?zlen_ztake; lia|lia|lia|].
    apply (marks_ext (st_indexes st)); [|done]. intros i Hi. apply znth_overwrite_take; lia. }
  clearbody grown. destruct grown as [st'|]; [|done]. cbn [mbind option_bind]. destruct Hg as ([Hd' Hl' Hs' Hf' Hm'] & Ed & Hroom). cbn [mbind option_bind].
  assert (Ew : wrap32 (st_depth st' + 1) = st_depth st' + 1) by (unfold wrap32; apply Z.mod_small; lia). split; [|cbn; lia].
  split; cbn [st_depth st_size st_indexes]; rewrite ?Ew, ?zlen_cons, ?zlen_insert; [lia|done|lia|done|]. destruct fs as [|f fs]; [done|]. apply marks_cons. replace (zlen (f :: fs) - 1) with (st_depth st') by lia.
  split; [apply znth_insert_eq; lia|]. apply (marks_ext (st_indexes st')); [|done]. intros i Hi. apply znth_insert_ne; lia.
Qed.
(** No counter wraps around in [n] more operations. *)
Definition roomy (c : BN_CTX) (n : Z) : Prop := pool_size (ctx_pool c) + 16 * n < 2 ^ 32 /\ st_depth (ctx_stack c) + n < 2 ^ 30.
(** What an operation leaves of the context: the pool stays where it is. *)
Definition follows (c c' : BN_CTX) (fs' : list (list Z)) : Prop :=
  frames_ok c' fs' /\ pool_base (ctx_pool c') = pool_base (ctx_pool c) /\ pool_size (ctx_pool c) <= pool_size (ctx_pool c') /\ forall n, roomy c (1 + n) -> roomy c' n.
Lemma replicate_cons_bad e (rest : list (list Z)) : 0 <= e -> [] :: replicate (Z.to_nat e) [] ++ rest = replicate (Z.to_nat (e + 1)) [] ++ rest.
Proof. intros He. by replace (Z.to_nat (e + 1)) with (S (Z.to_nat e)) by lia. Qed.
Lemma BN_CTX_start_spec `{Allocator} s fs : frames_ok (bs_ctx s) fs -> roomy (bs_ctx s) 1 ->
  exists s', BN_CTX_start garbage s = (Some tt, s') /\ bs_nums s' = bs_nums s /\ ctx_used (bs_ctx s') = ctx_used (bs_ctx s) /\ ctx_pool (bs_ctx s') = ctx_pool (bs_ctx s) /\ follows (bs_ctx s) (bs_ctx s') ([] :: fs).
Proof.
  intros (rest & -> & He & Hp & Hu & Hs & Hc) Hr. unfold BN_CTX_start, modS. set (c := bs_ctx s) in *.
  assert (Hbad : frames_ok (with_err_stack (ctx_err_stack c + 1) c) ([] :: replicate (Z.to_nat (ctx_err_stack c)) [] ++ rest)) by (exists rest; cbn; split; [by apply replicate_cons_bad|]; split; [lia|done]).
  assert (Hsame : forall c', frames_ok c' ([] :: replicate (Z.to_nat (ctx_err_stack c)) [] ++ rest) -> ctx_pool c' = ctx_pool c -> st_depth (ctx_stack c') <= st_depth (ctx_stack c) + 1 ->
    follows c c' ([] :: replicate (Z.to_nat (ctx_err_stack c)) [] ++ rest)).
  { intros c' Hok Ep Hd. split; [done|]. unfold roomy. rewrite Ep. split; [done|]. split; [lia|]. intros n [Hn1 Hn2]. lia. }
  destruct (negb (ctx_err_stack c =? 0) || ctx_too_many c) eqn:Ef; [eexists; split; [reflexivity|]; split; [done|]; split; [done|]; split; [done|]; apply Hsame; [done|done|cbn; lia]|].
  apply orb_false_iff in Ef as [Ef _]. apply negb_false_iff, Z.eqb_eq in Ef. rewrite Ef in *. destruct Hr as [_ Hr].
  assert (Ez : zlen (concat rest) = ctx_used c) by (rewrite Hc; apply zlen_live; destruct Hp; lia). pose proof (BN_STACK_push_spec (ctx_stack c) rest Hs ltac:(lia)) as Hpush. rewrite Ez in Hpush.
  destruct (BN_STACK_push garbage (ctx_stack c) (ctx_used c)) as [st|]; (eexists; split; [reflexivity|]; split; [done|]; split; [done|]; split; [done|]; apply Hsame); [|done| |exact Hbad|done|cbn; lia].
  - destruct Hpush as [Hst Hd]. exists ([] :: rest). by cbn.
  - destruct Hpush as [Hst Hd]. cbn. lia.
Qed.
Lemma BN_CTX_end_spec s f g fs : frames_ok (bs_ctx s) (f :: g :: fs) -> roomy (bs_ctx s) 0 ->
  exists s', BN_CTX_end s = (Some tt, s') /\ bs_nums s' = bs_nums s /\ pool_size (ctx_pool (bs_ctx s')) = pool_size (ctx_pool (bs_ctx s)) /\ follows (bs_ctx s) (bs_ctx s') (g :: fs).
Proof.
  intros (rest & E & He & Hp & Hu & Hs & Hc) Hr. unfold BN_CTX_end, modS. set (c := bs_ctx s) in *. destruct (Z.eqb_spec (ctx_err_stack c) 0) as [E0|E0]; cbn [negb].
  - rewrite E0 in E. change (f :: g :: fs = rest) in E. subst rest. destruct Hs as [[Hd Hd0] Hl Hs Hf [Hm1 Hm2]%marks_cons]. rewrite !zlen_cons in *. pose proof (zlen_nonneg fs). destruct Hr as [Hr1 Hr2].
    cbn [BN_STACK_pop]. unfold BN_STACK_pop. assert (Ew : wrap32 (st_depth (ctx_stack c) - 1) = st_depth (ctx_stack c) - 1) by (unfold wrap32; apply Z.mod_small; lia). rewrite Ew.
    replace (1 + zlen fs - 1) with (st_depth (ctx_stack c) - 1) in Hm1 by lia. rewrite Hm1. set (fp := zlen (concat (g :: fs))) in *.
    assert (Hz : zlen f + fp = ctx_used c) by (rewrite <- (zlen_live (pool_base (ctx_pool c)) (ctx_used c)), <- Hc by (destruct Hp; lia); unfold fp; cbn [concat]; rewrite !zlen_app; done).
    pose proof (zlen_nonneg f) as Hf0. assert (Hfp : 0 <= fp) by apply zlen_nonneg. destruct Hp as [P1 P2 P3 P4].
    set (pool := if fp <? ctx_used c then _ else _). assert (Hpool : pool_ok pool /\ pool_used pool = fp /\ pool_size pool = pool_size (ctx_pool c) /\ pool_base pool = pool_base (ctx_pool c)).
    { unfold pool. destruct (Z.ltb_spec fp (ctx_used c)); [|split; [by split|split; [lia|done]]]. destruct (BN_POOL_release_spec (ctx_pool c) (ctx_used c - fp)) as (Q1 & Q2 & Q3); [by split|lia|lia|]. split; [done|split; [lia|done]]. }
    clearbody pool. destruct Hpool as (Q1 & Q2 & Q3 & Q4). eexists. split; [reflexivity|]. split; [done|]. split; [done|]. split; [|split; [done|split; [cbn; lia|intros n [Hn1 Hn2]; split; cbn; lia]]].
    exists (g :: fs). cbn [bs_ctx set_ctx ctx_err_stack ctx_pool ctx_stack ctx_used]. rewrite E0, Q4. split; [done|]. split; [lia|]. split; [done|]. split; [done|]. split; [split; cbn; rewrite ?zlen_cons; lia || done|].
    assert (Hd' : concat (f :: g :: fs) = f ++ concat (g :: fs)) by done. rewrite Hd' in Hc. assert (Hdr : zdrop (zlen f) (live (pool_base (ctx_pool c)) (ctx_used c)) = live (pool_base (ctx_pool c)) fp).
    { clear -Hz Hf0 Hfp. unfold live. rewrite <- Hz, (Z.add_comm (zlen f)), (seqZ_app 0 fp (zlen f)), reverse_app, fmap_app by lia. apply zdrop_app_eq. unfold zlen. rewrite length_fmap, length_reverse, length_seqZ. unfold zlen. lia. }
    rewrite <- Hdr, <- Hc. symmetry. by apply zdrop_app_eq.
  - assert (Eb : Z.to_nat (ctx_err_stack c) = S (Z.to_nat (ctx_err_stack c - 1))) by lia. rewrite Eb in E. cbn [replicate app] in E. injection E as -> E. rewrite E.
    eexists. split; [reflexivity|]. split; [done|]. split; [done|]. split; [exists rest; cbn; split; [done|split; [lia|done]]|]. split; [done|]. split; [cbn; lia|]. intros n [Hn1 Hn2]; split; cbn; lia.
Qed.
(** A number is only handed out after it is set to zero: without memory it is zero already. *)
Lemma zeroed_ok b d n : words_of d n -> 1 <= n -> BN_get_flags b BN_FLG_STATIC_DATA = false -> bn_ok (with_top 0 (with_d (<[0%nat := 0]> d) (with_neg false (mkBn d (bn_top b) n (bn_neg b) (bn_flags b))))).
Proof.
  intros [Hl Hw] Hn Hf. split; cbn [bn_d bn_top bn_dmax with_top with_d with_neg]; [|lia|lia|done]. split; [by rewrite zlen_insert|]. apply Forall_insert; [done|unfold is_word; lia].
Qed.
Lemma BN_zero_anyway `{Allocator} p h : bn_ok (h !!! p) -> exists h', BN_zero garbage p h = (Some tt, h') /\ bn_ok (h' !!! p) /\ bn_abs (h' !!! p) = 0 /\ forall q, q <> p -> h' !!! q = h !!! q.
Proof.
  intros Hb. destruct (bo_len _ Hb) as [Hl Hw]. pose proof (bo_top _ Hb) as Ht. pose proof (bo_dynamic _ Hb) as Hf.
  assert (Hset : forall d n, words_of d n -> 1 <= n -> let b' := with_top 0 (with_d (<[0%nat := 0]> d) (with_neg false (mkBn d (bn_top (h !!! p)) n (bn_neg (h !!! p)) (bn_flags (h !!! p))))) in
    bn_ok (<[p := b']> h !!! p) /\ bn_abs (<[p := b']> h !!! p) = 0 /\ forall q, q <> p -> <[p := b']> h !!! q = h !!! q).
  { intros d n Hd Hn b'. rewrite lookup_total_insert_eq. split; [by apply zeroed_ok|]. split; [done|]. intros q Hq. by apply lookup_total_insert_ne. }
  unfold BN_zero, ignore, BN_set_word, bn_expand, rd, mbind, M_bind. change (2 ^ 31 - 1 - BN_BITS2 + 1 <? 64) with false. change ((64 + BN_BITS2 - 1) / BN_BITS2) with 1. cbv iota.
  destruct (Z.leb_spec 1 (bn_dmax (h !!! p))) as [Hd|Hd]; [rewrite (proj2 (Z.leb_le 1 _) Hd)|rewrite (proj2 (Z.leb_gt 1 _) Hd)].
  - unfold upd, modS, mret, M_ret. eexists. split; [reflexivity|]. pose proof (Hset (bn_d (h !!! p)) (bn_dmax (h !!! p)) (conj Hl Hw) Hd) as HH. destruct (h !!! p). exact HH.
  - unfold bn_expand2, rd, mbind, M_bind. rewrite (proj2 (Z.ltb_lt (bn_dmax (h !!! p)) 1)) by lia. unfold bn_expand_internal. change (BN_MAX_WORDS <? 1) with false. rewrite Hf. cbv iota.
    destruct (malloc_ok (1 * 8)).
    + unfold upd, modS. eexists. split; [reflexivity|]. rewrite insert_insert_eq, !(lookup_total_insert_eq h p (mkBn _ _ _ _ _)). assert (E0 : bn_d (h !!! p) = []) by (apply zlen_0_nil; lia). cbn [bn_d]. rewrite E0.
      assert (En : overwrite (uninitialised garbage 1) 0 (ztake (bn_top (h !!! p)) []) = uninitialised garbage 1) by (unfold overwrite, ztake; rewrite !take_nil; reflexivity). rewrite En.
      apply (Hset (uninitialised garbage 1) 1); [by apply uninitialised_words|done].
    + unfold fail. exists h. split; [done|]. split; [done|]. split; [apply abs_zero; [done|lia]|done].
Qed.
(** The numbers of the pool are well-formed. *)
Definition pool_numbers_ok (s : BnState) : Prop :=
  forall q, pool_base (ctx_pool (bs_ctx s)) <= q < pool_base (ctx_pool (bs_ctx s)) + pool_size (ctx_pool (bs_ctx s)) -> bn_ok (bs_nums s !!! q).
Lemma init_ok : bn_ok BN_init.
Proof. split; [done|done|done|done]. Qed.
Lemma BN_CTX_get_spec `{Allocator} s f fs : frames_ok (bs_ctx s) (f :: fs) -> roomy (bs_ctx s) 1 -> pool_numbers_ok s ->
  match BN_CTX_get garbage s with
  | (None, s') => bs_nums s' = bs_nums s /\ ctx_pool (bs_ctx s') = ctx_pool (bs_ctx s) /\ follows (bs_ctx s) (bs_ctx s') (f :: fs)
  | (Some p, s') => p = pool_base (ctx_pool (bs_ctx s)) + ctx_used (bs_ctx s) /\ follows (bs_ctx s) (bs_ctx s') ((p :: f) :: fs) /\ pool_numbers_ok s' /\
      bn_ok (bs_nums s' !!! p) /\ bn_abs (bs_nums s' !!! p) = 0 /\ (forall q, q < p -> bs_nums s' !!! q = bs_nums s !!! q) /\
      ctx_used (bs_ctx s') = ctx_used (bs_ctx s) + 1 /\ ctx_err_stack (bs_ctx s') = 0 /\ ctx_too_many (bs_ctx s') = false
  end.
Proof.
  intros (rest & E & He & Hp & Hu & Hs & Hc) Hr Hok. unfold BN_CTX_get. set (c := bs_ctx s) in *.
  assert (Hsame : forall c', frames_ok c' (f :: fs) -> ctx_pool c' = ctx_pool c -> ctx_stack c' = ctx_stack c -> follows c c' (f :: fs)).
  { intros c' H1 H2 H3. split; [done|]. unfold roomy. rewrite H2, H3. split; [done|]. split; [lia|]. intros n Hn. lia. }
  destruct (negb (ctx_err_stack c =? 0) || ctx_too_many c) eqn:Ef; [split; [done|]; split; [done|]; apply Hsame; [by exists rest|done|done]|].
  apply orb_false_iff in Ef as [Ef Etm]. apply negb_false_iff, Z.eqb_eq in Ef. assert (E' : f :: fs = rest) by (rewrite E, Ef; done).
  pose proof (BN_POOL_get_spec (ctx_pool c) (bs_nums s) Hp ltac:(destruct Hr; lia)) as Hget. destruct (BN_POOL_get (ctx_pool c) (bs_nums s)) as [[[p pool] h]|].
  2: { split; [done|]. split; [done|]. apply Hsame; [|done|done]. exists rest. cbn. done. }
  destruct Hget as (Ep & Gp & Gu & Gb & Gs & Gold & Gnew). rewrite <- Hu in Ep, Gu. pose proof (po_used _ Hp) as Hpu. rewrite <- Hu in Hpu. pose proof (po_used _ Gp) as Hpu'. rewrite Gu in Hpu'.
  assert (Hh : forall q, pool_base pool <= q < pool_base pool + pool_size pool -> bn_ok (h !!! q)).
  { intros q Hq. rewrite Gb in Hq. destruct (Z.lt_ge_cases q (pool_base (ctx_pool c) + pool_size (ctx_pool c))); [rewrite Gold by done; apply Hok; fold c; lia|]. rewrite Gnew by lia. apply init_ok. }
  destruct (BN_zero_anyway p h (Hh p ltac:(lia))) as (h' & -> & Z1 & Z2 & Z3). assert (Ew : wrap32 (ctx_used c + 1) = ctx_used c + 1) by (unfold wrap32; apply Z.mod_small; destruct Hr; lia). rewrite Ew.
  split; [done|]. split; [|split; [|split; [done|split; [done|split; [|done]]]]].
  - split; [|cbn; split; [done|split; [lia|intros n [Hn1 Hn2]; split; cbn; lia]]]. exists ((p :: f) :: fs). cbn [ctx_err_stack ctx_pool ctx_stack ctx_used bs_ctx]. rewrite Ef. split; [done|]. split; [done|]. split; [done|]. split; [done|].
    rewrite Gb. rewrite <- E' in Hc, Hs. split; [|cbn [concat app] in *; rewrite Hc, live_succ by lia; by rewrite Ep]. by destruct Hs.
  - intros q Hq. cbn in Hq. cbn. destruct (decide (q = p)) as [->|Hne]; [done|]. rewrite Z3 by done. by apply Hh.
  - intros q Hq. cbn. rewrite Z3 by lia. apply Gold. lia.
Qed.

(** ** Sequences of calls *)
Inductive ctx_op : Set := op_start | op_get | op_end.
(** Runs the calls, each with whatever memory there is then, and keeps the frames of what was handed out; [None] if a number is handed out that is still in
    use or is not zero, or if a frame is ended that was not begun. *)
Fixpoint frames_run (ops : list (Allocator * ctx_op)) (fs : list (list Z)) (s : BnState) : option (list (list Z) * BnState) :=
  match ops with
  | [] => Some (fs, s)
  | (mem, op_start) :: ops => frames_run ops ([] :: fs) (snd (@BN_CTX_start mem garbage s))
  | (_, op_end) :: ops => match fs with _ :: ((_ :: _) as fs) => frames_run ops fs (snd (BN_CTX_end s)) | _ => None end
  | (mem, op_get) :: ops =>
      match @BN_CTX_get mem garbage s, fs with
      | (None, s), _ => frames_run ops fs s
      | (Some p, s), f :: fs => if decide (p ∈ concat (f :: fs)) then None else if bn_abs (bs_nums s !!! p) =? 0 then frames_run ops ((p :: f) :: fs) s else None
      | (Some _, _), [] => None
      end
  end.
Fixpoint balanced (opened : nat) (ops : list ctx_op) : bool :=
  match ops with
  | [] => true
  | op_start :: ops => balanced (S opened) ops
  | op_get :: ops => balanced opened ops
  | op_end :: ops => match opened with O => false | S opened => balanced opened ops end
  end.
Lemma roomy_le c m n : m <= n -> roomy c n -> roomy c m.
Proof. unfold roomy. lia. Qed.
Lemma frames_run_ok ops : forall opened f fs s, length fs = opened -> balanced opened (snd <$> ops) = true -> frames_ok (bs_ctx s) (f :: fs) -> roomy (bs_ctx s) (zlen ops) -> pool_numbers_ok s ->
  exists fs' s', frames_run ops (f :: fs) s = Some (fs', s') /\ frames_ok (bs_ctx s') fs' /\ pool_base (ctx_pool (bs_ctx s')) = pool_base (ctx_pool (bs_ctx s)).
Proof.
  induction ops as [|[mem op] ops IH]; intros opened f fs s Hlen Hbal Hok Hr Hn; [by exists (f :: fs), s|]. rewrite zlen_cons in Hr. pose proof (zlen_nonneg ops).
  assert (Hnext : forall opened' f' fs' s', length fs' = opened' -> balanced opened' (snd <$> ops) = true -> follows (bs_ctx s) (bs_ctx s') (f' :: fs') -> pool_numbers_ok s' ->
    exists fs2 s2, frames_run ops (f' :: fs') s' = Some (fs2, s2) /\ frames_ok (bs_ctx s2) fs2 /\ pool_base (ctx_pool (bs_ctx s2)) = pool_base (ctx_pool (bs_ctx s))).
  { intros opened' f' fs' s' H1 H2 (H3 & Eb & _ & H4) H5. rewrite <- Eb. apply (IH opened'); try done. by apply H4. }
  destruct op; cbn [frames_run].
  - destruct (@BN_CTX_start_spec mem s (f :: fs) Hok (roomy_le (bs_ctx s) 1 (1 + zlen ops) ltac:(lia) Hr)) as (s' & -> & En & _ & Ep & Hf). cbn [snd]. apply (Hnext (S opened)); [by rewrite <- Hlen|done|done|]. unfold pool_numbers_ok. by rewrite En, Ep.
  - pose proof (@BN_CTX_get_spec mem s f fs Hok (roomy_le (bs_ctx s) 1 (1 + zlen ops) ltac:(lia) Hr) Hn) as Hg. destruct (@BN_CTX_get mem garbage s) as [[p|] s'].
    + destruct Hg as (Ep & Hf & Hn' & _ & Hz & _). rewrite decide_False, Hz; [by apply (Hnext opened)|intros Hin].
      destruct Hok as (rest & E & _ & _ & _ & _ & Hc). rewrite E, concat_bad, Hc in Hin. apply elem_of_live in Hin. lia.
    + destruct Hg as (En & Ep & Hf). apply (Hnext opened); [done|done|done|]. unfold pool_numbers_ok. by rewrite En, Ep.
  - destruct opened as [|opened]; [done|]. destruct fs as [|g fs]; [done|]. destruct (BN_CTX_end_spec s f g fs Hok (roomy_le (bs_ctx s) 0 (1 + zlen ops) ltac:(lia) Hr)) as (s' & -> & En & Es & Hf).
    cbn [snd]. apply (Hnext opened); [by injection Hlen|done|done|]. unfold pool_numbers_ok. destruct Hf as (_ & Eb & _). by rewrite En, Es, Eb.
Qed.
(** C28: temporary numbers do not get mixed up. However [BN_CTX_start], [BN_CTX_get] and [BN_CTX_end] are nested, and whenever memory for a bundle of numbers or
    for the stack of frames fails in between, each number that is handed out is zero and is none of those still in use; ending a frame gives back all of its
    numbers, in whatever bundles they are, and only these; and the calls that failed are remembered so that each [BN_CTX_end] closes the frame of its own
    [BN_CTX_start]. *)
Theorem BN_CTX_frames_apart base nums ops : balanced 0 (snd <$> ops) = true -> zlen ops < 2 ^ 27 ->
  exists fs s, frames_run ops [[]] (mkBs nums (BN_CTX_new base)) = Some (fs, s) /\ concat fs = live base (ctx_used (bs_ctx s)) /\
    zlen fs = 1 + st_depth (ctx_stack (bs_ctx s)) + ctx_err_stack (bs_ctx s).
Proof.
  intros Hb Hl. destruct (frames_run_ok ops 0 [] [] (mkBs nums (BN_CTX_new base))) as (fs & s & E & (rest & -> & He & Hp & Hu & Hs & Hc) & Eb); [done|done| | |intros q; cbn; lia|].
  - exists [[]]. cbn. split; [done|]. split; [lia|]. split; [split; cbn; lia|]. split; [done|]. split; [|done]. split; cbn; [done|done|lia|by left|done].
  - split; cbn; lia.
  - exists (replicate (Z.to_nat (ctx_err_stack (bs_ctx s))) [] ++ rest), s. split; [done|]. rewrite concat_bad. split; [by rewrite Hc, Eb|]. rewrite zlen_app, zlen_replicate. destruct Hs as [[S1 S2] _ _ _ _]. lia.
Qed.
End Frames.

(** Memory that is there, and none; a frame that fails to begin between two that do not. *)
Definition no_memory : Allocator := {| malloc_ok := fun _ => false; getpagesize := 4096 |}.
Lemma BN_CTX_frames_apart_witness :
  exists fs s, frames_run (fun _ _ => 5) [(no_memory, op_start); (ample, op_get); (ample, op_end); (ample, op_start); (ample, op_get); (no_memory, op_start); (ample, op_get); (no_memory, op_get); (ample, op_end); (ample, op_get)]
      [[]] (mkBs ∅ (BN_CTX_new 100)) = Some (fs, s) /\ concat fs = live 100 (ctx_used (bs_ctx s)) /\ zlen fs = 1 + st_depth (ctx_stack (bs_ctx s)) + ctx_err_stack (bs_ctx s).
Proof. refine (BN_CTX_frames_apart (fun _ _ => 5) 100 ∅ _ _ _); done. Defined.
