(* ===== verification/BnArith.v ===== *)
(** * [BN_mul] and [BN_sqr] are exact

    The sizes of the operands choose the routine; the temporary numbers come from the context; the result may be an operand. *)
From S2P Require Import Prelude Compat Words BnWord BnMul BnMulSpec Bn BnSpec BnCtx BnCtxSpec.

(** A context in which nothing has failed, with room for [n] more operations. *)
Record ready (s : BnState) (fs : list (list Z)) (n : Z) : Prop := {
  rd_frames : frames_ok (bs_ctx s) fs;
  rd_err : ctx_err_stack (bs_ctx s) = 0 /\ ctx_too_many (bs_ctx s) = false;
  rd_numbers : pool_numbers_ok s;
  rd_roomy : roomy (bs_ctx s) n
}.
(** The address from which on numbers are free. *)
Definition free_from (s : BnState) : Z := pool_base (ctx_pool (bs_ctx s)) + ctx_used (bs_ctx s).

(** [bn_correct_top] makes a normal form of what has zeros above it. *)
Lemma corrected_ok z : words_of (bn_d z) (bn_dmax z) -> 0 <= bn_top z <= bn_dmax z -> BN_get_flags z BN_FLG_STATIC_DATA = false ->
  bn_ok (bn_correct_top z) /\ bn_abs (bn_correct_top z) = bn_val (bn_used z) /\ bn_neg (bn_correct_top z) = bn_neg z.
Proof.
  intros [Hl Hw] Ht Hf. destruct (correct_top_spec (bn_d z) (Z.to_nat (bn_top z)) Hw) as (T1 & T2 & T3); [unfold zlen in Hl; lia|]. change (take (Z.to_nat (bn_top z)) (bn_d z)) with (bn_used z) in T3.
  assert (E : bn_correct_top z = with_top (correct_top (Z.to_nat (bn_top z)) (bn_d z)) z).
  { unfold bn_correct_top. destruct (Z.ltb_spec 0 (bn_top z)); [done|]. assert (E0 : bn_top z = 0) by lia. rewrite E0. destruct z; cbn in *; by subst. }
  rewrite E. split; [|done]. split; cbn [bn_d bn_top bn_dmax with_top]; [done|lia|done|done].
Qed.
(** Words that are written and normalised. *)
Lemma product_written b b1 n ws m top : bn_ok b -> grown b b1 n -> words_of ws m -> 0 <= top <= m -> m <= bn_dmax b1 ->
  let b2 := bn_correct_top (mkBn (overwrite (bn_d b1) 0 ws) top (bn_dmax b1) (bn_neg b1) (bn_flags b1)) in
  bn_ok b2 /\ bn_abs b2 = bn_val (ztake top ws) /\ bn_neg b2 = bn_neg b1.
Proof.
  intros Hb Hg Hws Ht Hm. pose proof Hg as [[Gl Gw] _ _ _]. destruct (written (bn_d b1) ws (words_of_self _ _ Hws) Gw ltac:(rewrite (proj1 Hws); lia)) as [W1 W2]. rewrite (proj1 Hws) in W2. rewrite Gl in W1.
  destruct (corrected_ok (mkBn (overwrite (bn_d b1) 0 ws) top (bn_dmax b1) (bn_neg b1) (bn_flags b1))) as (C1 & C2 & C3); [done|cbn; lia|by apply (flags_of_grown b b1 n)|]. intros b2. split; [exact C1|]. split; [|exact C3].
  unfold b2. rewrite C2. unfold bn_used. cbn [bn_top bn_d]. pose proof (f_equal (ztake top) W2) as W3. rewrite ztake_ztake, Z.min_l in W3 by lia. by rewrite W3.
Qed.
Lemma grown_ok b b' n : bn_ok b -> grown b b' n -> bn_ok b'.
Proof.
  intros Hb Hg. pose proof (flags_of_grown b b' n Hb Hg) as Hf. pose proof (bo_top b Hb) as Ht. destruct Hg as [[Gl Gw] Gr Gu (Et & _ & _)]. split; [done|lia| |done]. rewrite Et. intros Hpos.
  apply (top_not_zero (bn_d b') (bn_dmax b')); [done|lia|]. rewrite Gu. by apply abs_lower.
Qed.
Lemma ready_changed s fs n p b h : ready s fs n -> changed p (bs_nums s) b h -> bn_ok b -> ready (mkBs h (bs_ctx s)) fs n.
Proof.
  intros [H1 H2 H3 H4] [Hc1 Hc2] Hb. split; try done. intros q Hq. cbn in *. destruct (decide (q = p)) as [->|Hne]; [by rewrite Hc1|]. rewrite Hc2 by done. by apply H3.
Qed.
Lemma ready_le s fs m n : m <= n -> ready s fs n -> ready s fs m.
Proof. intros Hmn [H1 H2 H3 H4]. split; try done. by apply (roomy_le _ _ n). Qed.

Section Arith.
Context `{Allocator} (garbage : Z -> Z -> Z) (Hmem : forall n, malloc_ok n = true).

(** ** Frames, when there is memory *)
Lemma start_ready s fs n : ready s fs (1 + n) -> 0 <= n ->
  exists s', BN_CTX_start garbage s = (Some tt, s') /\ bs_nums s' = bs_nums s /\ free_from s' = free_from s /\ pool_base (ctx_pool (bs_ctx s')) = pool_base (ctx_pool (bs_ctx s)) /\ ready s' ([] :: fs) n.
Proof.
  intros [Hf [He Ht] Hn Hr] Hn0. destruct (BN_CTX_start_spec garbage s fs Hf (roomy_le (bs_ctx s) 1 (1 + n) ltac:(lia) Hr)) as (s' & E & En & Eu & Ep & Hf' & _ & _ & Hr'). exists s'. split; [done|]. split; [done|].
  unfold free_from. rewrite Ep, Eu. split; [done|]. split; [done|]. split; [done| |unfold pool_numbers_ok; by rewrite En, Ep|by apply Hr']. revert E. unfold BN_CTX_start, modS. rewrite He, Ht. cbn [Z.eqb negb orb]. unfold BN_STACK_push. rewrite Hmem.
  destruct (st_depth _ =? st_size _); cbn [mbind option_bind]; intros [= <-]; by cbn.
Qed.
Lemma get_ready s f fs n : ready s (f :: fs) (1 + n) -> 0 <= n ->
  exists p s', BN_CTX_get garbage s = (Some p, s') /\ p = free_from s /\ ready s' ((p :: f) :: fs) n /\ bn_ok (bs_nums s' !!! p) /\ bn_abs (bs_nums s' !!! p) = 0 /\
    (forall q, q < p -> bs_nums s' !!! q = bs_nums s !!! q) /\ free_from s' = free_from s + 1 /\ pool_base (ctx_pool (bs_ctx s')) = pool_base (ctx_pool (bs_ctx s)).
Proof.
  intros [Hf [He Ht] Hn Hr] Hn0. pose proof (BN_CTX_get_spec garbage s f fs Hf (roomy_le (bs_ctx s) 1 (1 + n) ltac:(lia) Hr) Hn) as Hg. destruct (BN_CTX_get garbage s) as [[p|] s'] eqn:E.
  - destruct Hg as (Ep & (Hf' & Eb & _ & Hr') & Hn' & Hok & Hz & Ho & Eu & He' & Ht'). exists p, s'. split; [done|]. split; [done|]. split; [split; [done|done|done|by apply Hr']|]. split; [done|]. split; [done|]. split; [done|]. unfold free_from. split; [lia|done].
  - exfalso. revert E. unfold BN_CTX_get. rewrite He, Ht. cbn [Z.eqb negb orb]. unfold BN_POOL_get. rewrite Hmem. destruct (pool_used _ =? pool_size _); destruct (BN_zero _ _ _); done.
Qed.
Lemma end_ready s f g fs n : ready s (f :: g :: fs) (1 + n) -> 0 <= n ->
  exists s', BN_CTX_end s = (Some tt, s') /\ bs_nums s' = bs_nums s /\ ready s' (g :: fs) n /\ free_from s' = pool_base (ctx_pool (bs_ctx s)) + zlen (concat (g :: fs)).
Proof.
  intros [Hf [He Ht] Hn Hr] Hn0. destruct (BN_CTX_end_spec s f g fs Hf (roomy_le (bs_ctx s) 0 (1 + n) ltac:(lia) Hr)) as (s' & E & En & Es & Hf' & Eb & _ & Hr'). exists s'. split; [done|]. split; [done|].
  split; [split; [done| |unfold pool_numbers_ok; by rewrite En, Es, Eb|by apply Hr']|].
  - revert E. unfold BN_CTX_end, modS. rewrite He. cbn [Z.eqb negb]. destruct (BN_STACK_pop _). by intros [= <-].
  - unfold free_from. rewrite Eb. f_equal. destruct Hf' as (rest & -> & _ & Hp & Hu & _ & Hc). rewrite concat_bad, Hc, zlen_live; [done|]. rewrite Hu. apply Hp.
Qed.
(** What is free in a frame. *)
Lemma free_frames s fs n : ready s fs n -> free_from s = pool_base (ctx_pool (bs_ctx s)) + zlen (concat fs).
Proof. intros [(rest & -> & _ & Hp & Hu & _ & Hc) _ _ _]. unfold free_from. rewrite concat_bad, Hc, zlen_live; [done|]. rewrite Hu. apply Hp. Qed.

(** ** The routines *)
(** From [s] to [s'], words that stand for [v] have been written to [rr], and temporary numbers may have been used; once [rr] is a normal form, all is well. *)
Record product_at (s s' : BnState) (rr v : Z) (f : list Z) (fs : list (list Z)) (n : Z) : Prop := {
  pa_written : exists n1 b1 ws m top, bs_nums s' !!! rr = mkBn (overwrite (bn_d b1) 0 ws) top (bn_dmax b1) (bn_neg b1) (bn_flags b1) /\
    grown (bs_nums s !!! rr) b1 n1 /\ words_of ws m /\ 0 <= top <= m /\ m <= bn_dmax b1 /\ bn_val (ztake top ws) = v;
  pa_other : forall q, q <> rr -> q < free_from s -> bs_nums s' !!! q = bs_nums s !!! q;
  pa_base : pool_base (ctx_pool (bs_ctx s')) = pool_base (ctx_pool (bs_ctx s));
  pa_ready : forall h b, changed rr (bs_nums s') b h -> bn_ok b -> ready (mkBs h (bs_ctx s')) (f :: fs) n
}.
Lemma write_plain s f fs n rr n1 ws m top : ready s (f :: fs) n -> bn_ok (bs_nums s !!! rr) -> n1 <= BN_MAX_WORDS -> words_of ws m -> 0 <= top <= m -> m <= n1 ->
  exists s', lift (bn_wexpand garbage rr n1;; upd rr (with_top top);; put_words rr 0 ws) s = (Some tt, s') /\ product_at s s' rr (bn_val (ztake top ws)) f fs n.
Proof.
  intros Hs Hok Hn1 Hws Ht Hm. destruct (bn_wexpand_spec garbage Hmem rr n1 (bs_nums s) Hok Hn1) as (h1 & b1 & E & [C1 C2] & Hg). unfold lift, mbind, M_bind. rewrite E. unfold put_words, upd, modS.
  eexists. split; [reflexivity|]. rewrite insert_insert_eq, lookup_total_insert_eq, C1. pose proof (gr_room _ _ _ Hg) as [Gr _].
  split; cbn [bs_nums bs_ctx]; [| |done|].
  - exists n1, b1, ws, m, top. rewrite lookup_total_insert_eq. split; [done|]. split; [done|]. split; [done|]. split; [done|]. split; [lia|done].
  - intros q Hq _. rewrite lookup_total_insert_ne by done. by apply C2.
  - intros h b [D1 D2] Hb. apply (ready_changed s _ _ rr b); [done| |done]. split; [done|]. intros q Hq. rewrite D2, lookup_total_insert_ne by done. by apply C2.
Qed.
Lemma write_with_temporary s f fs n rr k ws m top : ready s (f :: fs) (1 + n) -> 0 <= n -> rr < free_from s -> bn_ok (bs_nums s !!! rr) -> k <= BN_MAX_WORDS -> words_of ws m -> 0 <= top <= m -> m <= k ->
  exists s' t, (t ← BN_CTX_get garbage; lift (bn_wexpand garbage t k;; bn_wexpand garbage rr k;; put_words rr 0 ws);; lift (upd rr (with_top top))) s = (Some tt, s') /\ product_at s s' rr (bn_val (ztake top ws)) (t :: f) fs n.
Proof.
  intros Hs Hn Hrr Hok Hk Hws Ht Hm. unfold mbind, M_bind. destruct (get_ready s f fs n Hs Hn) as (t & s1 & -> & Et & Hs1 & Ht1 & _ & Ho1 & _ & Eb1).
  destruct (bn_wexpand_spec garbage Hmem t k (bs_nums s1) Ht1 Hk) as (h2 & b2 & E2 & C2 & G2). unfold lift. cbv beta iota. rewrite E2. cbv beta iota.
  assert (Hrr1 : h2 !!! rr = bs_nums s !!! rr) by (destruct C2 as [_ C2]; rewrite C2 by lia; apply Ho1; lia).
  destruct (bn_wexpand_spec garbage Hmem rr k h2 ltac:(by rewrite Hrr1) Hk) as (h3 & b3 & E3 & [C3 C3'] & G3). rewrite E3. rewrite Hrr1 in G3. unfold put_words, upd, modS. cbn [bs_nums bs_ctx]. cbv beta iota.
  eexists _, t. split; [reflexivity|]. rewrite insert_insert_eq, lookup_total_insert_eq, C3. pose proof (gr_room _ _ _ G3) as [Gr _].
  pose proof (ready_changed s1 _ _ t b2 h2 Hs1 C2 (grown_ok _ _ _ Ht1 G2)) as Hs2. destruct C2 as [C2 C2'].
  split; cbn [bs_nums bs_ctx].
  - exists k, b3, ws, m, top. rewrite lookup_total_insert_eq. split; [done|]. split; [done|]. split; [done|]. split; [done|]. split; [lia|done].
  - intros q Hq Hlt. rewrite lookup_total_insert_ne, C3', C2' by (done || lia). apply Ho1. lia.
  - exact Eb1.
  - intros h b [D1 D2] Hb. apply (ready_changed (mkBs h2 (bs_ctx s1)) _ _ rr b); [done| |done]. cbn [bs_nums]. split; [done|]. intros q Hq. rewrite D2, lookup_total_insert_ne by done. by apply C3'.
Qed.
Lemma lift_rd {B} p (k : BIGNUM -> M BnState B) s : (x ← lift (rd p); k x) s = k (bs_nums s !!! p) s.
Proof. by destruct s. Qed.
(** The power of two that the recursions start from. *)
Lemma leading_power l : 0 < l < 2 ^ 20 -> exists k, Z.shiftl 1 (BN_num_bits_word l - 1) = 2 ^ Z.of_nat k /\ (k < 20)%nat /\ 2 ^ Z.of_nat k <= l < 2 * 2 ^ Z.of_nat k.
Proof.
  intros Hl. exists (Z.to_nat (Z.log2 l)). pose proof (Z.log2_nonneg l). pose proof (Z.log2_spec l ltac:(lia)) as Hs. assert (Z.log2 l < 20) by (apply Z.log2_lt_pow2; lia). pose proof (Z.pow_succ_r 2 (Z.log2 l) ltac:(lia)) as Hp. rewrite Z2Nat.id by lia.
  rewrite BN_num_bits_word_spec, (proj2 (Z.eqb_neq l 0)) by (unfold is_word; lia). replace (Z.log2 l + 1 - 1) with (Z.log2 l) by lia. rewrite Z.shiftl_mul_pow2, Z.mul_1_l by lia. split; [done|]. split; [lia|]. lia.
Qed.
Lemma top_product a b : bn_ok a -> bn_ok b -> words_of (bn_used a) (bn_top a) /\ words_of (bn_used b) (bn_top b) /\ bn_abs a * bn_abs b < radix (bn_top a + bn_top b).
Proof. intros Ha Hb. pose proof (used_words a Ha) as Ua. pose proof (used_words b Hb) as Ub. split; [done|]. split; [done|]. apply product_bound; done. Qed.
Lemma mul_into_spec s f fs n rr a b : ready s (f :: fs) (1 + n) -> 0 <= n -> bn_ok (bs_nums s !!! rr) -> bn_ok (bs_nums s !!! a) -> bn_ok (bs_nums s !!! b) -> rr < free_from s ->
  0 < bn_top (bs_nums s !!! a) < 2 ^ 20 -> 0 < bn_top (bs_nums s !!! b) < 2 ^ 20 ->
  exists s' f', mul_into garbage rr a b s = (Some tt, s') /\ product_at s s' rr (bn_abs (bs_nums s !!! a) * bn_abs (bs_nums s !!! b)) f' fs n.
Proof.
  intros Hs Hn Hr Ha Hb Hfree Hta Htb. unfold mul_into. rewrite !lift_rd. cbv zeta. set (x := bs_nums s !!! a) in *. set (y := bs_nums s !!! b) in *. destruct (top_product x y Ha Hb) as (Ux & Uy & Hp).
  change (ztake (bn_top x) (bn_d x)) with (bn_used x). change (ztake (bn_top y) (bn_d y)) with (bn_used y).
  assert (Hplain : forall ws n1, words_of ws n1 /\ bn_val ws = bn_abs x * bn_abs y -> n1 <= BN_MAX_WORDS -> exists s' f', lift (bn_wexpand garbage rr n1;; upd rr (with_top n1);; put_words rr 0 ws) s = (Some tt, s') /\ product_at s s' rr (bn_abs x * bn_abs y) f' fs n).
  { intros ws n1 [Hws <-] Hn1. pose proof (words_of_nonneg _ _ Hws). destruct (write_plain s f fs n rr n1 ws n1 n1 (ready_le s (f :: fs) n (1 + n) ltac:(lia) Hs) Hr Hn1 Hws ltac:(lia) ltac:(lia)) as (s' & E & P). rewrite ztake_ge in P by (destruct Hws; lia). by exists s', f. }
  destruct ((bn_top x - bn_top y =? 0) && (bn_top x =? 8)) eqn:E8.
  { apply andb_true_iff in E8 as [E1%Z.eqb_eq E2%Z.eqb_eq]. apply Hplain; [|done]. rewrite E2 in Ux. replace (bn_top y) with 8 in Uy by lia. by apply bn_mul_comba8_spec. }
  destruct ((BN_MULL_SIZE_NORMAL <=? bn_top x) && (BN_MULL_SIZE_NORMAL <=? bn_top y) && ((-1 <=? bn_top x - bn_top y) && (bn_top x - bn_top y <=? 1))) eqn:EK.
  2: { apply Hplain; [by apply bn_mul_normal_spec|change BN_MAX_WORDS with (2 ^ 23 - 1); lia]. }
  apply andb_true_iff in EK as [[K1%Z.leb_le K2%Z.leb_le]%andb_true_iff [K3%Z.leb_le K4%Z.leb_le]%andb_true_iff]. change BN_MULL_SIZE_NORMAL with 16 in *.
  set (L := Z.max (bn_top x) (bn_top y)). assert (EL : (if 0 <=? bn_top x - bn_top y then BN_num_bits_word (bn_top x) else BN_num_bits_word (bn_top y)) = BN_num_bits_word L) by (unfold L; destruct (Z.leb_spec 0 (bn_top x - bn_top y)); f_equal; lia).
  rewrite EL. destruct (leading_power L ltac:(unfold L; lia)) as (k & -> & Hk & HL). set (j := 2 ^ Z.of_nat k) in *. assert (Hj : j < 2 ^ 20) by (unfold L in HL; lia).
  assert (Htemp : forall ws m k, words_of ws m /\ bn_val ws = bn_abs x * bn_abs y -> bn_top x + bn_top y <= m <= k -> k <= BN_MAX_WORDS ->
    exists s' f', (t ← BN_CTX_get garbage; lift (bn_wexpand garbage t k;; bn_wexpand garbage rr k;; put_words rr 0 ws);; lift (upd rr (with_top (bn_top x + bn_top y)))) s = (Some tt, s') /\ product_at s s' rr (bn_abs x * bn_abs y) f' fs n).
  { intros ws m k' [Hws Ev] Hm Hk'. destruct (write_with_temporary s f fs n rr k' ws m (bn_top x + bn_top y) Hs Hn Hfree Hr Hk' Hws ltac:(lia) ltac:(lia)) as (s' & t & E & P).
    destruct (take_small ws m (bn_top x + bn_top y) Hws ltac:(lia) ltac:(by rewrite Ev)) as [_ Et]. rewrite Et, Ev in P. by exists s', (t :: f). }
  destruct ((j <? bn_top x) || (j <? bn_top y)) eqn:EJ.
  - assert (Hlt : j < L) by (unfold L; apply orb_true_iff in EJ as [E%Z.ltb_lt|E%Z.ltb_lt]; lia). unfold L in HL, Hlt. change BN_MAX_WORDS with (2 ^ 23 - 1) in *.
    destruct (bn_mul_part_recursive_spec levels k (bn_used x) (bn_used y) j (bn_top x - j) (bn_top y - j)) as (m & Hm & Hw); [done|unfold levels; lia|lia|lia|lia| | |].
    { replace (j + (bn_top x - j)) with (bn_top x) by lia. apply abs_topped; [done|lia]. }
    { replace (j + (bn_top y - j)) with (bn_top y) by lia. apply abs_topped; [done|lia]. }
    apply (Htemp _ m ((j + j) * 4)); [exact Hw|lia|lia].
  - assert (HeqL : j = L) by (unfold L in *; apply orb_false_iff in EJ as [E%Z.ltb_ge E'%Z.ltb_ge]; lia). unfold L in HL, HeqL. change BN_MAX_WORDS with (2 ^ 23 - 1) in *.
    apply (Htemp _ (2 * j) ((j + j) * 2)); [|lia|lia]. apply (bn_mul_recursive_spec levels k); [done|unfold levels; lia|lia|lia| |].
    + by replace (j + (bn_top x - j)) with (bn_top x) by lia.
    + by replace (j + (bn_top y - j)) with (bn_top y) by lia.
Qed.

(** ** [BN_copy], [BN_mul] and [BN_sqr] *)
Lemma BN_copy_spec a b h : bn_ok (h !!! a) -> bn_ok (h !!! b) -> a <> b -> bn_top (h !!! b) <= BN_MAX_WORDS ->
  exists h', BN_copy garbage a b h = (Some tt, h') /\ result h a h' (bn_neg (h !!! b)) (bn_abs (h !!! b)).
Proof.
  intros Ha Hb Hne Ht. unfold BN_copy, rd, mbind, M_bind. rewrite (proj2 (Z.eqb_neq a b) Hne). set (y := h !!! b) in *. pose proof (bo_top y Hb) as Hty. pose proof (used_words y Hb) as Uy.
  destruct (bn_wexpand_spec garbage Hmem a (bn_top y) h Ha Ht) as (h1 & b1 & -> & [C1 C2] & Hg). unfold put_words, upd, modS. change (ztake (bn_top y) (bn_d y)) with (bn_used y). eexists. split; [reflexivity|].
  rewrite insert_insert_eq, lookup_total_insert_eq, C1. pose proof Hg as [[Gl Gw] [Gr _] _ _]. destruct (written (bn_d b1) (bn_used y) (words_of_self _ _ Uy) Gw ltac:(rewrite (proj1 Uy); lia)) as [W1 W2]. rewrite (proj1 Uy) in W2. rewrite Gl in W1.
  split; rewrite ?lookup_total_insert_eq; [|done|unfold bn_abs at 1, bn_used at 1; cbn [bn_top bn_d with_neg with_top with_d]; by rewrite W2|intros q Hq; rewrite lookup_total_insert_ne by done; by apply C2].
  split; cbn [bn_top bn_d bn_dmax with_neg with_top with_d]; [done|lia| |by apply (flags_of_grown (h !!! a) b1 (bn_top y))].
  intros Hpos. apply (top_not_zero _ _ _ W1); [lia|]. rewrite W2. by apply abs_lower.
Qed.
Lemma with_neg_ok b n : bn_ok b -> bn_ok (with_neg n b).
Proof. by intros []. Qed.
Lemma lift_eq {A} (m : M bn_store A) s o h : m (bs_nums s) = (o, h) -> lift m s = (o, mkBs h (bs_ctx s)).
Proof. intros E. unfold lift. by rewrite E. Qed.
Lemma product_into {B} (k : M BnState B) s f fs n rr a b : ready s (f :: fs) (1 + n) -> 0 <= n -> bn_ok (bs_nums s !!! rr) -> bn_ok (bs_nums s !!! a) -> bn_ok (bs_nums s !!! b) ->
  rr <> a -> rr <> b -> rr < free_from s -> 0 < bn_top (bs_nums s !!! a) < 2 ^ 20 -> 0 < bn_top (bs_nums s !!! b) < 2 ^ 20 ->
  exists s' f', (lift (upd rr (with_neg (xorb (bn_neg (bs_nums s !!! a)) (bn_neg (bs_nums s !!! b)))));; mul_into garbage rr a b;; lift (upd rr bn_correct_top);; k) s = k s' /\
    ready s' (f' :: fs) n /\ bn_ok (bs_nums s' !!! rr) /\ bn_value (bs_nums s' !!! rr) = bn_value (bs_nums s !!! a) * bn_value (bs_nums s !!! b) /\
    (forall q, q <> rr -> q < free_from s -> bs_nums s' !!! q = bs_nums s !!! q) /\ pool_base (ctx_pool (bs_ctx s')) = pool_base (ctx_pool (bs_ctx s)).
Proof.
  intros Hs Hn Hr Ha Hb Hra Hrb Hfree Hta Htb. set (x := bs_nums s !!! a) in *. set (y := bs_nums s !!! b) in *. set (neg := xorb _ _).
  set (s1 := mkBs (<[rr := with_neg neg (bs_nums s !!! rr)]> (bs_nums s)) (bs_ctx s)).
  assert (Hs1 : ready s1 (f :: fs) (1 + n)) by (apply (ready_changed s _ _ rr _ _ Hs (changed_insert _ _ _)); by apply with_neg_ok).
  assert (Hrr : bs_nums s1 !!! rr = with_neg neg (bs_nums s !!! rr)) by apply lookup_total_insert_eq.
  assert (Hq : forall q, q <> rr -> bs_nums s1 !!! q = bs_nums s !!! q) by (intros q Hne; by apply lookup_total_insert_ne).
  destruct (mul_into_spec s1 f fs n rr a b Hs1 Hn) as (s2 & f' & E2 & [(n1 & b1 & ws & m & top & Ew & Hg & Hws & Ht & Hm & Ev) Ho Eb Hrd]); rewrite ?Hrr, ?Hq by done; try done; [by apply with_neg_ok|].
  rewrite Hrr in Hg. rewrite !Hq in Ev by done. fold x y in Ev. destruct (product_written _ b1 n1 ws m top (with_neg_ok _ neg Hr) Hg Hws Ht Hm) as (P1 & P2 & P3).
  set (b2 := bn_correct_top _) in *. exists (mkBs (<[rr := b2]> (bs_nums s2)) (bs_ctx s2)), f'. split.
  { rewrite (bind_some _ _ s tt s1) by reflexivity. rewrite (bind_some _ _ s1 tt s2 E2). rewrite (bind_some _ _ s2 tt (mkBs (<[rr := b2]> (bs_nums s2)) (bs_ctx s2))); [done|]. unfold lift, upd, modS. by rewrite Ew. }
  split; [by apply (Hrd _ b2); [apply changed_insert|]|]. cbn [bs_nums]. rewrite lookup_total_insert_eq. split; [done|]. split; [|split; [|done]].
  - unfold bn_value, bn_sign. rewrite P2, P3, Ev. destruct (gr_same _ _ _ Hg) as (_ & -> & _). cbn [bn_neg with_neg]. unfold neg. destruct (bn_neg x), (bn_neg y); cbn [xorb]; lia.
  - intros q Hne Hlt. rewrite lookup_total_insert_ne by done. rewrite Ho by done. by apply Hq.
Qed.
(** [m] computes [v] into [r], gives back the numbers it used and changes nothing else. *)
Definition computes_with (m : M BnState unit) (s : BnState) (fs : list (list Z)) (n r v : Z) : Prop :=
  exists s', m s = (Some tt, s') /\ bn_ok (bs_nums s' !!! r) /\ bn_value (bs_nums s' !!! r) = v /\ (forall q, q <> r -> q < free_from s -> bs_nums s' !!! q = bs_nums s !!! q) /\
    ready s' fs n /\ free_from s' = free_from s.
(** The end of a frame in which the result has been computed. *)
Lemma frame_computes s s0 s1 f g fs n r v (m : M BnState unit) : ready s (g :: fs) n -> BN_CTX_start garbage s = (Some tt, s0) -> m s0 = (Some tt, s1) -> ready s1 (f :: g :: fs) (1 + n) -> 0 <= n ->
  bn_ok (bs_nums s1 !!! r) -> bn_value (bs_nums s1 !!! r) = v -> (forall q, q <> r -> q < free_from s -> bs_nums s1 !!! q = bs_nums s !!! q) -> pool_base (ctx_pool (bs_ctx s1)) = pool_base (ctx_pool (bs_ctx s)) ->
  computes_with (in_frame garbage m) s (g :: fs) n r v.
Proof.
  intros Hs E0 E1 H1 Hn Hok Hv Ho Eb. destruct (end_ready s1 f g fs n H1 Hn) as (s2 & E2 & En & Hrd & Ef). exists s2. unfold in_frame. rewrite E0, E1, E2. split; [done|]. rewrite En. split; [done|]. split; [done|]. split; [done|]. split; [done|].
  by rewrite Ef, (free_frames s _ _ Hs), Eb.
Qed.
Lemma value_nonzero b : bn_ok b -> bn_top b = 0 -> bn_value b = 0.
Proof. intros Hb E. unfold bn_value. rewrite (proj2 (abs_zero b Hb) E). lia. Qed.
Lemma abs_value b : bn_ok b -> Z.abs (bn_value b) = bn_abs b.
Proof. intros Hb. pose proof (abs_bound b Hb). unfold bn_value, bn_sign. destruct (bn_neg b); lia. Qed.
Lemma top_bound b m : bn_ok b -> 0 <= m -> bn_abs b < radix m -> bn_top b <= m.
Proof. intros Hb Hm Hlt. apply Z.nlt_ge. intros Hgt. pose proof (abs_lower b Hb ltac:(lia)). pose proof (radix_le m (bn_top b - 1) ltac:(lia)). lia. Qed.
Lemma product_top z x y : bn_ok x -> bn_ok y -> bn_ok z -> bn_value z = bn_value x * bn_value y -> bn_top z <= bn_top x + bn_top y.
Proof.
  intros Hx Hy Hz E. pose proof (bo_top x Hx). pose proof (bo_top y Hy). apply top_bound; [done|lia|]. destruct (top_product x y Hx Hy) as (_ & _ & Hp).
  by rewrite <- (abs_value z Hz), E, Z.abs_mul, (abs_value x Hx), (abs_value y Hy).
Qed.
(** The copy of a result from a temporary number [rr]. *)
Lemma copy_back s fs n r rr v : ready s fs n -> bn_ok (bs_nums s !!! r) -> bn_ok (bs_nums s !!! rr) -> r <> rr -> bn_value (bs_nums s !!! rr) = v -> bn_top (bs_nums s !!! rr) <= BN_MAX_WORDS ->
  exists s', lift (ignore (BN_copy garbage r rr)) s = (Some tt, s') /\ ready s' fs n /\ bn_ok (bs_nums s' !!! r) /\ bn_value (bs_nums s' !!! r) = v /\ (forall q, q <> r -> bs_nums s' !!! q = bs_nums s !!! q) /\ bs_ctx s' = bs_ctx s.
Proof.
  intros Hs Hr Hrr Hne Ev Ht. destruct (BN_copy_spec r rr (bs_nums s) Hr Hrr Hne Ht) as (h & E & R). exists (mkBs h (bs_ctx s)). unfold lift, ignore. rewrite E. split; [done|].
  pose proof (result_value _ _ _ _ _ R) as Rv. destruct R as [R1 R2 R3 R4]. split; [by apply (ready_changed s _ _ r (h !!! r))|]. split; [done|]. split; [|done]. etransitivity; [exact Rv|]. by rewrite <- Ev.
Qed.
Lemma zero_computes s f fs n r : ready s (f :: fs) n -> bn_ok (bs_nums s !!! r) -> computes_with (lift (BN_zero garbage r)) s (f :: fs) n r 0.
Proof.
  intros Hs Hr. destruct (BN_zero_spec garbage Hmem r (bs_nums s) Hr) as (h & E & R). exists (mkBs h (bs_ctx s)). unfold lift. rewrite E. split; [done|]. pose proof (result_value _ _ _ _ _ R) as Rv. destruct R as [R1 R2 R3 R4].
  split; [done|]. split; [exact Rv|]. split; [intros q Hq _; by apply R4|]. split; [by apply (ready_changed s _ _ r (h !!! r))|done].
Qed.
Lemma computes_eq m m' s fs n r v : m s = m' s -> computes_with m' s fs n r v -> computes_with m s fs n r v.
Proof. unfold computes_with. by intros ->. Qed.
Lemma BN_mul_spec r a b s f fs n : ready s (f :: fs) (4 + n) -> 0 <= n -> bn_ok (bs_nums s !!! r) -> bn_ok (bs_nums s !!! a) -> bn_ok (bs_nums s !!! b) ->
  r < free_from s -> a < free_from s -> b < free_from s -> bn_top (bs_nums s !!! a) < 2 ^ 20 -> bn_top (bs_nums s !!! b) < 2 ^ 20 ->
  computes_with (BN_mul garbage r a b) s (f :: fs) n r (bn_value (bs_nums s !!! a) * bn_value (bs_nums s !!! b)).
Proof.
  intros Hs Hn Hr Ha Hb Lr La Lb Hta Htb. pose proof (bo_top _ Ha) as Hpa. pose proof (bo_top _ Hb) as Hpb. pose proof (ready_le s (f :: fs) n (4 + n) ltac:(lia) Hs) as Hsn.
  eapply computes_eq; [unfold BN_mul; rewrite !lift_rd; reflexivity|]. cbv beta. destruct ((bn_top (bs_nums s !!! a) =? 0) || (bn_top (bs_nums s !!! b) =? 0)) eqn:E0.
  { replace (bn_value _ * bn_value _) with 0; [by apply zero_computes|]. apply orb_true_iff in E0 as [E%Z.eqb_eq|E%Z.eqb_eq]; [rewrite (value_nonzero _ Ha E)|rewrite (value_nonzero _ Hb E)]; lia. }
  apply orb_false_iff in E0 as [Na%Z.eqb_neq Nb%Z.eqb_neq]. destruct (start_ready s (f :: fs) (3 + n) ltac:(by replace (1 + (3 + n)) with (4 + n) by lia) ltac:(lia)) as (s0 & Es & En & Ef0 & Eb0 & R0).
  destruct ((r =? a) || (r =? b)) eqn:Eal.
  - destruct (get_ready s0 [] (f :: fs) (2 + n) ltac:(by replace (1 + (2 + n)) with (3 + n) by lia) ltac:(lia)) as (rr & s1 & Eg & Err & R1 & Okrr & _ & Ho1 & Ef1 & Eb1). rewrite Ef0 in Err, Ef1. rewrite En in Ho1.
    destruct (product_into (when (negb (r =? rr)) (lift (ignore (BN_copy garbage r rr)))) s1 [rr] (f :: fs) (1 + n) rr a b) as (s2 & f2 & E2 & R2 & Ok2 & V2 & Ho2 & Eb2);
      rewrite ?(Ho1 a), ?(Ho1 b) by lia; try done; try lia; [by replace (1 + (1 + n)) with (2 + n) by lia|]. rewrite (Ho1 a), (Ho1 b) in E2, V2 by lia.
    assert (Hq2 : forall q, q < free_from s -> bs_nums s2 !!! q = bs_nums s !!! q) by (intros q Hq; rewrite Ho2 by lia; apply Ho1; lia).
    destruct (copy_back s2 (f2 :: f :: fs) (1 + n) r rr (bn_value (bs_nums s !!! a) * bn_value (bs_nums s !!! b)) R2) as (s3 & E3 & R3 & Ok3 & V3 & Ho3 & Ec3); [by rewrite Hq2|done|lia|exact V2|pose proof (product_top _ _ _ Ha Hb Ok2 V2); change BN_MAX_WORDS with (2 ^ 23 - 1); lia|].
    apply (frame_computes s s0 s3 f2 f fs n r _ _ Hsn Es); [|exact R3|lia|done|done|intros q Hq Hlt; rewrite Ho3 by done; by apply Hq2|by rewrite Ec3, Eb2, Eb1, Eb0].
    rewrite (bind_some _ _ s0 rr s1 Eg), !lift_rd, (Ho1 a), (Ho1 b) by lia. rewrite E2. rewrite (proj2 (Z.eqb_neq r rr)) by lia. exact E3.
  - apply orb_false_iff in Eal as [Nra%Z.eqb_neq Nrb%Z.eqb_neq].
    destruct (product_into (when (negb (r =? r)) (lift (ignore (BN_copy garbage r r)))) s0 [] (f :: fs) (1 + n) r a b) as (s2 & f2 & E2 & R2 & Ok2 & V2 & Ho2 & Eb2);
      rewrite ?En; try done; try lia; [by apply (ready_le _ _ _ (3 + n)); [lia|]|]. rewrite En in E2, V2, Ho2.
    apply (frame_computes s s0 s2 f2 f fs n r _ _ Hsn Es); [|exact R2|lia|done|done|intros q Hq Hlt; apply Ho2; [done|lia]|by rewrite Eb2, Eb0].
    rewrite (bind_some _ _ s0 r s0 eq_refl), !lift_rd, En, E2, Z.eqb_refl. by destruct s2.
Qed.

(** Squares: the words of [rr] and its length. *)
Lemma square_top x : bn_ok x -> 0 < bn_top x -> let w := znth (bn_d x) (bn_top x - 1) in let t := if w =? Z.land w BN_MASK2l then 2 * bn_top x - 1 else 2 * bn_top x in
  radix (t - 1) <= bn_abs x * bn_abs x < radix t.
Proof.
  intros Hx Hpos w t. pose proof (bo_top x Hx) as Ht. destruct (bo_len x Hx) as [Hl Hw]. pose proof (znth_word (bn_d x) (bn_top x - 1) Hw) as Hww. fold w in Hww. unfold is_word in Hww.
  assert (Hs : bn_abs x = bn_val (ztake (bn_top x - 1) (bn_d x)) + radix (bn_top x - 1) * w) by (unfold bn_abs, bn_used; replace (bn_top x) with (bn_top x - 1 + 1) at 1 by lia; rewrite znth_split by lia; done).
  pose proof (bn_val_bound (ztake (bn_top x - 1) (bn_d x)) ltac:(by apply Forall_ztake)) as Hlo. rewrite zlen_ztake, Z.min_l in Hlo by lia. pose proof (radix_pos (bn_top x - 1) ltac:(lia)) as Hr. pose proof (abs_lower x Hx Hpos) as Hlow.
  set (R := radix (bn_top x - 1)) in *. assert (E2 : radix (2 * bn_top x - 2) = R * R) by (unfold R; rewrite <- radix_add by lia; f_equal; lia).
  assert (E1 : radix (2 * bn_top x - 1) = 2 ^ 64 * (R * R)) by (rewrite <- E2, <- radix_succ by lia; f_equal; lia).
  assert (Hm : Z.land w BN_MASK2l = w mod 2 ^ 32) by apply LBITS_mod. unfold t. rewrite Hm. destruct (Z.eqb_spec w (w mod 2 ^ 32)) as [Ew|Ew].
  - replace (2 * bn_top x - 1 - 1) with (2 * bn_top x - 2) by lia. rewrite E1, E2. assert (Hw32 : w <= 2 ^ 32 - 1) by (pose proof (Z.mod_pos_bound w (2 ^ 32) ltac:(lia)); lia).
    assert (Hlt : bn_abs x < 2 ^ 32 * R) by nia. split; [apply Z.mul_le_mono_nonneg; lia|]. replace (2 ^ 64 * (R * R)) with ((2 ^ 32 * R) * (2 ^ 32 * R)) by ring. apply Z.mul_lt_mono_nonneg; lia.
  - rewrite E1. assert (2 ^ 32 <= w) by (apply Z.nlt_ge; intros Hlt; apply Ew; symmetry; apply Z.mod_small; lia). destruct (top_product x x Hx Hx) as (_ & _ & Hp). replace (bn_top x + bn_top x) with (2 * bn_top x) in Hp by lia. split; [|done].
    assert (2 ^ 32 * R <= bn_abs x) by nia. replace (2 ^ 64 * (R * R)) with ((2 ^ 32 * R) * (2 ^ 32 * R)) by ring. apply Z.mul_le_mono_nonneg; lia.
Qed.
(** The words of the square are in [rr], whose length and sign are yet to be set. *)
Definition squared (h h' : bn_store) (rr a tmp : Z) : Prop :=
  exists b1 ws, h' !!! rr = with_d (overwrite (bn_d b1) 0 ws) b1 /\ grown (h !!! rr) b1 (2 * bn_top (h !!! a)) /\ words_of ws (2 * bn_top (h !!! a)) /\
    bn_val ws = bn_abs (h !!! a) * bn_abs (h !!! a) /\ bn_ok (h' !!! tmp) /\ forall q, q <> rr -> q <> tmp -> h' !!! q = h !!! q.
Lemma sqr_into_spec h rr a tmp : bn_ok (h !!! rr) -> bn_ok (h !!! a) -> bn_ok (h !!! tmp) -> rr <> a -> tmp <> rr -> tmp <> a -> 0 < bn_top (h !!! a) < 2 ^ 20 ->
  exists h', sqr_into garbage rr a tmp h = (Some tt, h') /\ squared h h' rr a tmp.
Proof.
  intros Hr Ha Ht Nra Ntr Nta Hta. set (x := h !!! a) in *. destruct (top_product x x Ha Ha) as (Ux & _ & _). unfold sqr_into, rd, mbind, M_bind. fold x. change (ztake (bn_top x) (bn_d x)) with (bn_used x).
  assert (Hmax : bn_top x * 8 <= BN_MAX_WORDS) by (change BN_MAX_WORDS with (2 ^ 23 - 1); lia).
  destruct (bn_wexpand_spec garbage Hmem rr (2 * bn_top x) h Hr ltac:(lia)) as (h1 & b1 & -> & [C1 C2] & Hg).
  assert (Hput : forall ws h2, words_of ws (2 * bn_top x) /\ bn_val ws = bn_abs x * bn_abs x -> h2 !!! rr = b1 -> bn_ok (h2 !!! tmp) -> (forall q, q <> rr -> q <> tmp -> h2 !!! q = h !!! q) ->
    exists h', put_words rr 0 ws h2 = (Some tt, h') /\ squared h h' rr a tmp).
  { intros ws h2 [Hw Hv] E2 Ok2 O2. unfold put_words, upd, modS. eexists. split; [reflexivity|]. exists b1, ws. rewrite E2, lookup_total_insert_eq. fold x. split; [done|]. split; [done|]. split; [done|]. split; [done|].
    split; [by rewrite lookup_total_insert_ne|]. intros q Hq1 Hq2. rewrite lookup_total_insert_ne by done. by apply O2. }
  assert (Hsame : forall ws, words_of ws (2 * bn_top x) /\ bn_val ws = bn_abs x * bn_abs x -> exists h', put_words rr 0 ws h1 = (Some tt, h') /\ squared h h' rr a tmp).
  { intros ws Hws. apply Hput; [done|done|by rewrite C2|]. intros q Hq _. by apply C2. }
  assert (Htmp : forall ws k, k <= BN_MAX_WORDS -> words_of ws (2 * bn_top x) /\ bn_val ws = bn_abs x * bn_abs x -> exists h', (bn_wexpand garbage tmp k;; put_words rr 0 ws) h1 = (Some tt, h') /\ squared h h' rr a tmp).
  { intros ws k Hk Hws. destruct (bn_wexpand_spec garbage Hmem tmp k h1 ltac:(by rewrite C2) Hk) as (h2 & b2 & E & [D1 D2] & G2). unfold mbind, M_bind. rewrite E. apply Hput; [done|by rewrite D2|rewrite D1; apply (grown_ok (h1 !!! tmp) b2 k ltac:(by rewrite C2) G2)|].
    intros q Hq1 Hq2. rewrite D2 by done. by apply C2. }
  destruct (Z.eqb_spec (bn_top x) 4) as [E4|E4]; [apply Hsame; rewrite E4 in *; by apply bn_sqr_comba4_spec|].
  destruct (Z.eqb_spec (bn_top x) 8) as [E8|E8]; [apply Hsame; rewrite E8 in *; by apply bn_sqr_comba8_spec|].
  destruct (Z.ltb_spec (bn_top x) BN_SQR_RECURSIVE_SIZE_NORMAL) as [Hs|Hs]; [apply Hsame, bn_sqr_normal_spec; [done|lia]|].
  destruct (leading_power (bn_top x) ltac:(lia)) as (k & -> & Hk & HL). destruct (Z.eqb_spec (bn_top x) (2 ^ Z.of_nat k)) as [Ek|Ek].
  - apply Htmp; [lia|]. apply (bn_sqr_recursive_spec levels k); [done|unfold levels; lia|done].
  - apply Htmp; [lia|]. apply bn_sqr_normal_spec; [done|lia].
Qed.
Lemma ready_store s fs n h : ready s fs n -> (forall q, bn_ok (h !!! q) \/ h !!! q = bs_nums s !!! q) -> ready (mkBs h (bs_ctx s)) fs n.
Proof. intros [H1 H2 H3 H4] Hc. split; try done. intros q Hq. cbn in *. destruct (Hc q) as [Hok|E]; [done|]. rewrite E. by apply H3. Qed.
Lemma sqr_store h r rr a tmp : bn_ok (h !!! rr) -> bn_ok (h !!! a) -> bn_ok (h !!! tmp) -> bn_ok (h !!! r) -> rr <> a -> tmp <> rr -> tmp <> a -> tmp <> r -> 0 < bn_top (h !!! a) < 2 ^ 20 ->
  exists h', (sqr_into garbage rr a tmp;; x ← rd a; let al := bn_top x in let w := znth (bn_d x) (al - 1) in
      upd rr (fun z => with_top (if w =? Z.land w BN_MASK2l then 2 * al - 1 else 2 * al) (with_neg false z));; when (negb (rr =? r)) (ignore (BN_copy garbage r rr))) h = (Some tt, h') /\
    bn_ok (h' !!! r) /\ bn_value (h' !!! r) = bn_value (h !!! a) * bn_value (h !!! a) /\ bn_ok (h' !!! rr) /\ bn_ok (h' !!! tmp) /\ forall q, q <> rr -> q <> tmp -> q <> r -> h' !!! q = h !!! q.
Proof.
  intros Hr Ha Ht Hres Nra Ntr Nta Ntres Hta. destruct (sqr_into_spec h rr a tmp Hr Ha Ht Nra Ntr Nta Hta) as (h1 & E1 & b1 & ws & Er & Hg & Hws & Hv & Hot & Ho). unfold mbind at 1, M_bind at 1. rewrite E1. unfold rd, mbind at 1, M_bind at 1. rewrite (Ho a) by congruence.
  set (x := h !!! a) in *. destruct (square_top x Ha ltac:(lia)) as [T1 T2]. set (w := znth (bn_d x) (bn_top x - 1)) in *. set (t := if w =? _ then _ else _) in *. assert (Htb : 0 < t <= 2 * bn_top x) by (unfold t; destruct (w =? _); lia).
  pose proof Hg as [[Gl Gw] [Gr _] _ _]. destruct (written (bn_d b1) ws (words_of_self _ _ Hws) Gw ltac:(rewrite (proj1 Hws); lia)) as [W1 W2]. rewrite (proj1 Hws) in W2. rewrite Gl in W1.
  destruct (take_small ws _ t Hws ltac:(lia) ltac:(rewrite Hv; lia)) as [_ Et]. assert (Ed : ztake t (overwrite (bn_d b1) 0 ws) = ztake t ws) by (pose proof (f_equal (ztake t) W2) as W3; rewrite ztake_ztake, Z.min_l in W3 by lia; done).
  set (b2 := with_top t (with_neg false (with_d (overwrite (bn_d b1) 0 ws) b1))).
  assert (Hb2 : bn_ok b2) by (split; cbn [bn_d bn_top bn_dmax b2 with_top with_neg with_d]; [done|lia|intros _; apply (top_not_zero _ _ _ W1); [lia|]; rewrite Ed, Et, Hv; lia|by apply (flags_of_grown (h !!! rr) b1 (2 * bn_top x))]).
  assert (Hv2 : bn_value b2 = bn_value x * bn_value x).
  { unfold bn_value at 1, bn_sign at 1, bn_abs at 1, bn_used at 1. cbn [bn_neg bn_d bn_top b2 with_top with_neg with_d]. rewrite Ed, Et, Hv. unfold bn_value, bn_sign. destruct (bn_neg x); lia. }
  set (h2 := <[rr := b2]> h1). assert (E2 : upd rr (fun z => with_top t (with_neg false z)) h1 = (Some tt, h2)) by (unfold upd, modS; by rewrite Er). unfold mbind, M_bind. rewrite E2.
  assert (Hh2 : h2 !!! rr = b2 /\ forall q, q <> rr -> h2 !!! q = h1 !!! q) by (split; [apply lookup_total_insert_eq|intros q Hq; by apply lookup_total_insert_ne]). destruct Hh2 as [Hh2 Hh2'].
  destruct (Z.eqb_spec rr r) as [Eq|Nrr]; cbn [negb when].
  - subst r. exists h2. rewrite Hh2. split; [done|]. split; [done|]. split; [done|]. split; [done|]. split; [by rewrite Hh2'|]. intros q H1 H2 _. rewrite Hh2' by done. by apply Ho.
  - assert (Hr2 : h2 !!! r = h !!! r) by (rewrite Hh2' by done; by apply Ho).
    destruct (BN_copy_spec r rr h2 ltac:(by rewrite Hr2) ltac:(by rewrite Hh2) ltac:(done) ltac:(rewrite Hh2; cbn; change BN_MAX_WORDS with (2 ^ 23 - 1); lia)) as (h3 & E3 & R3). unfold ignore. rewrite E3. pose proof (result_value _ _ _ _ _ R3) as Rv. destruct R3 as [R1 R2 R3 R4].
    exists h3. split; [done|]. split; [done|]. split; [rewrite Rv, Hh2; exact Hv2|]. rewrite (R4 rr), (R4 tmp), Hh2 by done. split; [done|]. split; [by rewrite Hh2'|]. intros q H1 H2 H3. rewrite R4, Hh2' by done. by apply Ho.
Qed.
Lemma BN_sqr_spec r a s f fs n : ready s (f :: fs) (4 + n) -> 0 <= n -> bn_ok (bs_nums s !!! r) -> bn_ok (bs_nums s !!! a) -> r < free_from s -> a < free_from s -> bn_top (bs_nums s !!! a) < 2 ^ 20 ->
  computes_with (BN_sqr garbage r a) s (f :: fs) n r (bn_value (bs_nums s !!! a) * bn_value (bs_nums s !!! a)).
Proof.
  intros Hs Hn Hr Ha Lr La Hta. pose proof (bo_top _ Ha) as Hpa. pose proof (ready_le s (f :: fs) n (4 + n) ltac:(lia) Hs) as Hsn.
  eapply computes_eq; [unfold BN_sqr; rewrite !lift_rd; reflexivity|]. cbv beta. destruct (Z.leb_spec (bn_top (bs_nums s !!! a)) 0) as [Hz|Hz].
  { rewrite (value_nonzero _ Ha) by lia. set (z := with_neg false (with_top 0 (bs_nums s !!! r))). assert (Hz0 : bn_ok z) by (destruct Hr; split; cbn; [done|lia|lia|done]).
    exists (mkBs (<[r := z]> (bs_nums s)) (bs_ctx s)). split; [done|]. cbn [bs_nums]. rewrite lookup_total_insert_eq. split; [done|]. split; [done|]. split; [intros q Hq _; by apply lookup_total_insert_ne|]. split; [|done].
    by apply (ready_changed s _ _ r z); [|apply changed_insert|]. }
  destruct (start_ready s (f :: fs) (3 + n) ltac:(by replace (1 + (3 + n)) with (4 + n) by lia) ltac:(lia)) as (s0 & Es & En & Ef0 & Eb0 & R0).
  assert (Hrr : exists rr s1 g, (if a =? r then BN_CTX_get garbage s0 else (Some r, s0)) = (Some rr, s1) /\ ready s1 (g :: f :: fs) (2 + n) /\ rr <> a /\ rr < free_from s1 /\ (r <> rr -> free_from s <= rr) /\ bn_ok (bs_nums s1 !!! rr) /\
    (forall q, q < free_from s -> bs_nums s1 !!! q = bs_nums s !!! q) /\ free_from s <= free_from s1 /\ pool_base (ctx_pool (bs_ctx s1)) = pool_base (ctx_pool (bs_ctx s))).
  { destruct (Z.eqb_spec a r) as [Ear|Nar].
    - destruct (get_ready s0 [] (f :: fs) (2 + n) ltac:(by replace (1 + (2 + n)) with (3 + n) by lia) ltac:(lia)) as (rr & s1 & Eg & Err & R1 & Okrr & _ & Ho1 & Ef1 & Eb1). rewrite Ef0 in Err, Ef1. rewrite En in Ho1.
      exists rr, s1, [rr]. split; [done|]. split; [done|]. split; [lia|]. split; [lia|]. split; [lia|]. split; [done|]. split; [intros q Hq; apply Ho1; lia|]. split; [lia|]. by rewrite Eb1.
    - exists r, s0, []. rewrite En, Ef0. split; [done|]. split; [by apply (ready_le _ _ _ (3 + n)); [lia|]|]. split; [done|]. split; [done|]. split; [done|]. split; [done|]. split; [done|]. split; [lia|done]. }
  destruct Hrr as (rr & s1 & g & Eg & R1 & Nra & Lrr & Hfar & Okrr & Ho1 & Hle & Eb1).
  destruct (get_ready s1 g (f :: fs) (1 + n) ltac:(by replace (1 + (1 + n)) with (2 + n) by lia) ltac:(lia)) as (tmp & s2 & Eg2 & Etmp & R2 & Okt & _ & Ho2 & Ef2 & Eb2).
  assert (Hq2 : forall q, q < free_from s -> bs_nums s2 !!! q = bs_nums s !!! q) by (intros q Hq; rewrite Ho2 by lia; by apply Ho1).
  destruct (sqr_store (bs_nums s2) r rr a tmp) as (h3 & E3 & Ok3 & V3 & Okr3 & Okt3 & Ho3); rewrite ?(Hq2 a), ?(Hq2 r) by lia; try done; try lia; [by rewrite Ho2 by lia|]. rewrite (Hq2 a) in V3 by lia.
  apply (frame_computes s s0 (mkBs h3 (bs_ctx s2)) (tmp :: g) f fs n r _ _ Hsn Es); [| |lia|done|done| |by rewrite <- Eb1, <- Eb2].
  - rewrite Eg, Eg2. exact (lift_eq _ s2 _ _ E3).
  - apply (ready_store s2); [done|]. intros q. destruct (decide (q = rr)) as [->|]; [by left|]. destruct (decide (q = tmp)) as [->|]; [by left|]. destruct (decide (q = r)) as [->|]; [by left|]. right. by apply Ho3.
  - intros q Hq Hlt. cbn [bs_nums]. rewrite Ho3; [by apply Hq2|intros ->; apply Hq|lia|done]. destruct (decide (r = rr)) as [->|Nr]; [done|]. specialize (Hfar Nr). lia.
Qed.
(** C24: multiplication and squaring are exact, whichever routine the sizes choose (four or eight words at a time by columns, Karatsuba's recursion for
    lengths that differ by at most one word, with or without words beyond a power of two, or row by row). For normal forms of at most 2^20 - 1 words, also when the
    result is an operand, [BN_mul] and [BN_sqr] succeed when there is memory, [r] becomes the normal form of the product and of the square, every temporary
    number goes back to the context, and no number in use changes but [r]. *)
Theorem BN_mul_sqr_exact r a b s f fs n : ready s (f :: fs) (4 + n) -> 0 <= n -> bn_ok (bs_nums s !!! r) -> bn_ok (bs_nums s !!! a) -> bn_ok (bs_nums s !!! b) ->
  r < free_from s -> a < free_from s -> b < free_from s -> bn_top (bs_nums s !!! a) < 2 ^ 20 -> bn_top (bs_nums s !!! b) < 2 ^ 20 ->
  computes_with (BN_mul garbage r a b) s (f :: fs) n r (bn_value (bs_nums s !!! a) * bn_value (bs_nums s !!! b)) /\
  computes_with (BN_sqr garbage r a) s (f :: fs) n r (bn_value (bs_nums s !!! a) * bn_value (bs_nums s !!! a)).
Proof. intros. split; [by apply BN_mul_spec|by apply BN_sqr_spec]. Qed.
End Arith.

Lemma ready_new base nums n : 16 * n < 2 ^ 32 -> n < 2 ^ 30 -> ready (mkBs nums (BN_CTX_new base)) [[]] n.
Proof.
  intros H1 H2. split; [|done|intros q; cbn; lia|split; cbn; lia]. exists [[]]. cbn. split; [done|]. split; [lia|]. split; [split; cbn; lia|]. split; [done|]. split; [|done]. split; cbn; [done|done|lia|by left|done].
Qed.
(** A number of 17 words and a negative one of 16: the recursion with a word to spare, into its first operand. *)
Definition long_numbers : bn_store := {[ 1 := mkBn (ramp 3 17) 17 17 false 0; 2 := mkBn (ramp 5 16) 16 16 true 0 ]}.
Lemma BN_mul_sqr_exact_witness :
  let s := mkBs long_numbers (BN_CTX_new 100) in
  computes_with (@BN_mul ample (fun n i => n * i) 1 1 2) s [[]] 0 1 (bn_value (bs_nums s !!! 1) * bn_value (bs_nums s !!! 2)) /\
  computes_with (@BN_sqr ample (fun n i => n * i) 1 1) s [[]] 0 1 (bn_value (bs_nums s !!! 1) * bn_value (bs_nums s !!! 1)).
Proof.
  intros s. assert (H1 : bn_ok (bs_nums s !!! 1)) by (apply bn_okb_ok; vm_compute; reflexivity). assert (H2 : bn_ok (bs_nums s !!! 2)) by (apply bn_okb_ok; vm_compute; reflexivity).
  assert (T1 : bn_top (bs_nums s !!! 1) < 2 ^ 20) by (vm_compute; reflexivity). assert (T2 : bn_top (bs_nums s !!! 2) < 2 ^ 20) by (vm_compute; reflexivity).
  exact (@BN_mul_sqr_exact ample (fun n i => n * i) (fun _ => eq_refl) 1 1 2 s [] [] 0 (ready_new 100 long_numbers 4 eq_refl eq_refl) (Z.le_refl 0) H1 H1 H2 eq_refl eq_refl eq_refl T1 T2).
Defined.

(** Two numbers of the value 2^63, of which the first has no room for a second word; the temporary numbers are still to be made. *)
Definition two_operands : BnState := mkBs {[ 1 := mkBn [2 ^ 63] 1 1 false 0; 2 := mkBn [2 ^ 63; 0] 1 2 false 0 ]} (BN_CTX_new 100).
(** A failure that [BN_mul] does not report. It does not look at the result of the last [BN_copy]: when the product of a number with itself is to replace it and
    the copy finds no memory (the temporary number has its words from an earlier product), [BN_mul] succeeds and the number is still the operand. *)
Lemma BN_mul_copy_failure_unnoticed :
  exists s1 s2, @BN_mul ample (fun _ _ => 0) 2 2 2 two_operands = (Some tt, s1) /\ bn_value (bs_nums s1 !!! 2) = 2 ^ 126 /\
  @BN_mul no_memory (fun _ _ => 0) 1 1 1 s1 = (Some tt, s2) /\ bn_value (bs_nums s2 !!! 1) = 2 ^ 63.
Proof.
  exists (snd (@BN_mul ample (fun _ _ => 0) 2 2 2 two_operands)),
    (snd (@BN_mul no_memory (fun _ _ => 0) 1 1 1 (snd (@BN_mul ample (fun _ _ => 0) 2 2 2 two_operands)))).
  vm_compute. done.
Qed.
