(* ===== verification/BnDiv.v ===== *)
(** * Division (crypto/bn/bn_div.c, bn_mod.c)

    Knuth's algorithm D, as built without assembler. The divisor and the dividend are shifted so that the highest bit of the divisor is set, and the dividend by
    one word more, so that the three words from which a digit is estimated are always there. NULL for a result that is not wanted is [None]. The words of the
    scratch number [tmp] are left out: its length stays 0. *)
From S2P Require Import Prelude Compat Words BnWord BnMul Bn BnCtx.

(** The inner [for (;;)]: the estimate [q] is lowered while [q * d1] is too large. *)
Fixpoint digit_adjust (fuel : nat) (q rem t2l t2h n2 d0 d1 : Z) : Z :=
  if (t2h <? rem) || ((t2h =? rem) && (t2l <=? n2)) then q
  else
  let q := wrap64 (q - 1) in
  let rem := wrap64 (rem + d0) in
  if rem <? d0 then q
  else
  let t2h := if t2l <? d1 then wrap64 (t2h - 1) else t2h in
  match fuel with O => q | S fuel => digit_adjust fuel q rem (wrap64 (t2l - d1)) t2h n2 d0 d1 end.
(** The estimate of a digit from the three highest words of the window and the two highest words of the divisor. *)
Definition digit_estimate (n0 n1 n2 d0 d1 : Z) : Z :=
  if n0 =? d0 then BN_MASK2
  else
  let q := bn_div_words n0 n1 d0 in
  let rem := Z.land (wrap64 (n1 - wrap64 (q * d0))) BN_MASK2 in
  let '(t2l, t2h) := mul64 (LBITS d1) (HBITS d1) (LBITS q) (HBITS q) in
  digit_adjust 2 q rem t2l t2h n2 d0 d1.
(** A pass of the loop: the window of [div_n + 1] words from [k] on becomes its remainder. *)
Definition div_round (k : Z) (d sd : list Z) (div_n : Z) : list Z * Z :=
  let d0 := znth sd (div_n - 1) in
  let d1 := if div_n =? 1 then 0 else znth sd (div_n - 2) in
  let q := digit_estimate (znth d (k + div_n)) (znth d (k + div_n - 1)) (znth d (k + div_n - 2)) d0 d1 in
  let '(t, l0) := bn_mul_words sd div_n q in
  let '(w, borrow) := bn_sub_words (zdrop k d) (t ++ [l0]) (div_n + 1) in
  let d := overwrite d k w in
  if borrow =? 0 then (d, q)
  else
  let '(w, carry) := bn_add_words (zdrop k d) sd div_n in
  let d := overwrite d k w in
  (if carry =? 0 then d else <[Z.to_nat (k + div_n) := wrap64 (znth d (k + div_n) + 1)]> d, wrap64 (q - 1)).
(** The windows from [n] down to 1; the digits, the lowest first. *)
Fixpoint div_rounds (n : nat) (d sd : list Z) (div_n : Z) : list Z * list Z :=
  match n with
  | O => (d, [])
  | S n' => let '(d, q) := div_round (Z.of_nat n) d sd div_n in let '(d, qs) := div_rounds n' d sd div_n in (d, qs ++ [q])
  end.

Section Div.
Context `{Allocator} (garbage : Z -> Z -> Z).
(** The shifted numbers and by how much the dividend is shifted; with [no_branch], zeros above it. *)
Definition div_normalise (snum sdiv num divisor : Z) (no_branch : bool) : M bn_store Z :=
  y ← rd divisor;
  let norm_shift := BN_BITS2 - BN_num_bits y mod BN_BITS2 in
  BN_lshift garbage sdiv divisor norm_shift;;
  upd sdiv (with_neg false);;
  let norm_shift := norm_shift + BN_BITS2 in
  BN_lshift garbage snum num norm_shift;;
  upd snum (with_neg false);;
  sn ← rd snum; sd ← rd sdiv;
  when no_branch (
    if bn_top sn <=? bn_top sd + 1 then
      bn_wexpand garbage snum (bn_top sd + 2);;
      put_words snum (bn_top sn) (zeros (bn_top sd + 2 - bn_top sn));;
      upd snum (with_top (bn_top sd + 2))
    else
      bn_wexpand garbage snum (bn_top sn + 1);;
      set_w snum (bn_top sn) 0;;
      upd snum (fun z => with_top (bn_top z + 1) z));;
  mret norm_shift.
(** The digits: [snum] becomes the remainder, [res] the quotient. *)
Definition div_digits (tmp snum sdiv res num divisor : Z) (no_branch : bool) : M bn_store unit :=
  sn ← rd snum; sd ← rd sdiv;
  let div_n := bn_top sd in
  let num_n := bn_top sn in
  let loop := num_n - div_n in
  let wnum := mkBn (zdrop loop (bn_d sn)) div_n (bn_dmax sn - loop) false (Z.lor (bn_flags sn) BN_FLG_STATIC_DATA) in
  x ← rd num; y ← rd divisor;
  upd res (with_neg (xorb (bn_neg x) (bn_neg y)));;
  bn_wexpand garbage res (loop + 1);;
  upd res (with_top (loop - bit no_branch));;
  bn_wexpand garbage tmp (div_n + 1);;
  (if no_branch then mret tt
   else if 0 <=? BN_ucmp wnum sd then
     put_words snum loop (fst (bn_sub_words (bn_d wnum) (bn_d sd) div_n));;
     set_w res (loop - 1) 1
   else upd res (fun z => with_top (bn_top z - 1) z));;
  z ← rd res;
  when (bn_top z =? 0) (upd res (with_neg false));;
  let resp := if bn_top z =? 0 then loop - 1 else loop - 2 in
  sn ← rd snum;
  let '(d, qs) := div_rounds (Z.to_nat (loop - 1)) (bn_d sn) (ztake div_n (bn_d sd)) div_n in
  upd snum (with_d d);;
  put_words res (resp - (loop - 2)) qs;;
  upd snum bn_correct_top.
(** The remainder is shifted back and gets the sign that [num] has now; the result of [BN_rshift] is not looked at. *)
Definition remainder_into (rm snum num norm_shift : Z) : M bn_store unit :=
  x ← rd num;
  let neg := bn_neg x in
  ignore (BN_rshift garbage rm snum norm_shift);;
  z ← rd rm;
  when (negb (BN_is_zero z)) (upd rm (with_neg neg)).
Definition BN_div_internal (dv rm : option Z) (num divisor : Z) (ct : bool) : M BnState unit :=
  x ← lift (rd num); y ← lift (rd divisor);
  if (0 <? bn_top x) && (znth (bn_d x) (bn_top x - 1) =? 0) then fail
  else
  let no_branch := ct in
  if BN_is_zero y then fail
  else if negb no_branch && (BN_ucmp x y <? 0) then lift (
    match rm with Some rm => BN_copy garbage rm num | None => mret tt end;;
    match dv with Some dv => BN_zero garbage dv | None => mret tt end)
  else in_frame garbage (
    tmp ← BN_CTX_get garbage;
    snum ← BN_CTX_get garbage;
    sdiv ← BN_CTX_get garbage;
    res ← (match dv with Some dv => mret dv | None => BN_CTX_get garbage end);
    lift (
      norm_shift ← div_normalise snum sdiv num divisor no_branch;
      div_digits tmp snum sdiv res num divisor no_branch;;
      match rm with Some rm => remainder_into rm snum num norm_shift | None => mret tt end;;
      when no_branch (upd res bn_correct_top))).
Definition BN_div (dv rm : option Z) (num divisor : Z) : M BnState unit :=
  x ← lift (rd num); y ← lift (rd divisor);
  let ct := BN_get_flags x BN_FLG_CONSTTIME || BN_get_flags y BN_FLG_CONSTTIME in
  BN_div_internal dv rm num divisor ct.
Definition BN_div_nonct (dv rm : option Z) (num divisor : Z) : M BnState unit := BN_div_internal dv rm num divisor false.
Definition BN_div_ct (dv rm : option Z) (num divisor : Z) : M BnState unit := BN_div_internal dv rm num divisor true.
End Div.
