(* ===== verification/BnDivSpec.v ===== *)
(** * Division: the digits of a quotient

    Each pass of the loop of [BN_div] takes the next digit off its window, and so all of them together divide. *)
From S2P Require Import Prelude Compat Words BnWord BnMul BnMulSpec Bn BnSpec BnCtx BnDiv.

(** ** The estimate of a digit *)
Section Estimate.
Context (d0 d1 n2 : Z) (Hd0 : 2 ^ 63 <= d0 < 2 ^ 64) (Hd1 : is_word d1) (Hn2 : is_word n2).
Abbreviation D2 := (d0 * 2 ^ 64 + d1).

(** [q] with the remainder [rem] of the two upper words by [d0]; it is lowered to the quotient of three words by two. At most two times: then [rem] overflows. *)
Lemma digit_adjust_spec fuel : forall q rem t2l t2h, is_word q -> is_word rem -> is_word t2l -> is_word t2h -> t2l + 2 ^ 64 * t2h = d1 * q ->
  2 ^ 64 <= rem + Z.of_nat fuel * d0 -> (q * d0 + rem) * 2 ^ 64 + n2 < 2 ^ 64 * D2 ->
  digit_adjust fuel q rem t2l t2h n2 d0 d1 = Z.min q (((q * d0 + rem) * 2 ^ 64 + n2) / D2).
Proof.
  unfold is_word in *. induction fuel as [|fuel IH]; intros q rem t2l t2h Hq Hrem Hl Hh Et Hf HN; cbn [digit_adjust]; [lia|].
  set (N := (q * d0 + rem) * 2 ^ 64 + n2) in *. assert (EN : N = q * d0 * 2 ^ 64 + (rem * 2 ^ 64 + n2)) by (unfold N; ring). assert (EqD : q * D2 = q * d0 * 2 ^ 64 + (t2l + 2 ^ 64 * t2h)) by (rewrite Et; ring).
  assert (EqD1 : (q - 1) * D2 = q * D2 - D2) by ring. assert (Et1 : d1 * (q - 1) = d1 * q - d1) by ring. rewrite <- Et in Et1.
  assert (Hfit : (t2h <? rem) || ((t2h =? rem) && (t2l <=? n2)) = (q * D2 <=? N)).
  { rewrite EqD, EN. clear - Hl Hn2. destruct (Z.ltb_spec t2h rem); cbn [orb]; [symmetry; apply Z.leb_le; lia|]. destruct (Z.eqb_spec t2h rem); cbn [andb]; [|symmetry; apply Z.leb_gt; lia].
    destruct (Z.leb_spec t2l n2); symmetry; [apply Z.leb_le; lia|apply Z.leb_gt; lia]. }
  rewrite Hfit. destruct (Z.leb_spec (q * D2) N) as [Hle|Hgt].
  { symmetry. apply Z.min_l. apply Z.div_le_lower_bound; lia. }
  assert (Hq0 : 0 < q) by (destruct (decide (q = 0)) as [->|]; lia). rewrite (wrap64_id (q - 1)) by (unfold is_word; lia).
  assert (HqN : N / D2 <= q - 1) by (assert (N / D2 < q); [apply Z.div_lt_upper_bound; lia|lia]). rewrite (Z.min_r q) by lia.
  assert (Eq1 : (q - 1) * d0 + (rem + d0) = q * d0 + rem) by ring.
  destruct (Z.lt_ge_cases (rem + d0) (2 ^ 64)) as [Hs|Hs].
  - rewrite (wrap64_id (rem + d0)) by (unfold is_word; lia). rewrite (proj2 (Z.ltb_ge (rem + d0) d0)) by lia.
    assert (Hb : exists t2h', (if t2l <? d1 then wrap64 (t2h - 1) else t2h) = t2h' /\ 0 <= t2h' < 2 ^ 64 /\ wrap64 (t2l - d1) + 2 ^ 64 * t2h' = d1 * (q - 1)).
    { rewrite Et1. assert (0 <= d1 * (q - 1)) by (apply Z.mul_nonneg_nonneg; lia). clear - Hl Hh Hd1 Et1 H. destruct (Z.ltb_spec t2l d1) as [Hb|Hb].
      - exists (t2h - 1). rewrite (wrap64_id (t2h - 1)) by (unfold is_word; lia). split; [done|]. split; [lia|]. unfold wrap64. rewrite <- (Z.mod_unique (t2l - d1) (2 ^ 64) (-1) (t2l - d1 + 2 ^ 64)) by lia. lia.
      - exists t2h. split; [done|]. split; [lia|]. rewrite wrap64_id by (unfold is_word; lia). lia. }
    destruct Hb as (t2h' & -> & Hh' & Et'). rewrite (IH (q - 1) (rem + d0) (wrap64 (t2l - d1)) t2h'); rewrite ?Eq1; try done; try lia; [fold N; by rewrite Z.min_r by lia|apply wrap64_word].
  - assert (Ew : wrap64 (rem + d0) = rem + d0 - 2 ^ 64) by (unfold wrap64; symmetry; apply (Z.mod_unique _ _ 1); lia). rewrite Ew. rewrite (proj2 (Z.ltb_lt (rem + d0 - 2 ^ 64) d0)) by lia.
    apply Z.le_antisymm; [|done]. apply Z.div_le_lower_bound; [lia|]. rewrite Z.mul_comm, EqD1, EqD, EN. clear - Hl Hh Hd0 Hd1 Hn2 Hs. lia.
Qed.
Lemma digit_estimate_spec n0 n1 : 0 <= n0 < d0 -> is_word n1 -> digit_estimate n0 n1 n2 d0 d1 = ((n0 * 2 ^ 64 + n1) * 2 ^ 64 + n2) / D2.
Proof.
  intros Hn0 Hn1. unfold digit_estimate. rewrite (proj2 (Z.eqb_neq n0 d0)) by lia. unfold is_word in *. rewrite (bn_div_words_spec n0 n1 d0) by (unfold is_word; lia).
  set (T := n0 * 2 ^ 64 + n1). pose proof (Z.div_mod T d0 ltac:(lia)) as Edm. pose proof (Z.mod_pos_bound T d0 ltac:(lia)) as Hr. assert (Hq : 0 <= T / d0 < 2 ^ 64) by (split; [apply Z.div_pos|apply Z.div_lt_upper_bound]; unfold T; nia).
  set (q := T / d0) in *. set (r := T mod d0) in *.
  assert (Er : Z.land (wrap64 (n1 - wrap64 (q * d0))) BN_MASK2 = r).
  { rewrite mask_id. unfold wrap64. rewrite Zminus_mod_idemp_r. rewrite <- (Z.mod_unique (n1 - q * d0) (2 ^ 64) (- n0) r); [done|lia|]. unfold T in Edm. lia. }
  rewrite Er. pose proof (mul64_word d1 q Hd1 Hq) as Hm. destruct (mul64 _ _ _ _) as [t2l t2h]. destruct Hm as (Hl & Hh & Et).
  assert (ET : q * d0 + r = T) by lia. assert (HT : T < d0 * 2 ^ 64) by (unfold T; lia). assert (Hrw : is_word r) by (unfold is_word; lia).
  rewrite (digit_adjust_spec 2 q r t2l t2h Hq Hrw Hl Hh Et), ?ET; [|lia|lia]. apply Z.min_r. apply Z.lt_succ_r. apply Z.div_lt_upper_bound; [lia|].
  assert (T + 1 <= (q + 1) * d0) by lia. assert (0 <= d1 * (q + 1)) by (apply Z.mul_nonneg_nonneg; lia). replace (D2 * Z.succ q) with ((q + 1) * d0 * 2 ^ 64 + d1 * (q + 1)) by ring. lia.
Qed.
End Estimate.
(** The estimate from the highest words is the digit, or one more. [R] is the weight of the words that are not looked at. *)
Lemma estimate_close n0 n1 n2 d0 d1 R low dlow : 2 ^ 63 <= d0 < 2 ^ 64 -> is_word d1 -> is_word n0 -> is_word n1 -> is_word n2 -> 0 <= low < R -> 0 <= dlow < R ->
  let V := ((n0 * 2 ^ 64 + n1) * 2 ^ 64 + n2) * R + low in let D := (d0 * 2 ^ 64 + d1) * R + dlow in
  V < 2 ^ 64 * D -> let q := digit_estimate n0 n1 n2 d0 d1 in is_word q /\ V / D <= q <= V / D + 1.
Proof.
  intros Hd0 Hd1 Hn0 Hn1 Hn2 Hlow Hdlow V D HV q. set (N := (n0 * 2 ^ 64 + n1) * 2 ^ 64 + n2) in *. set (D2 := d0 * 2 ^ 64 + d1) in *. unfold is_word in *.
  assert (HD2 : 2 ^ 127 <= D2 < 2 ^ 128) by (unfold D2; lia). assert (HDR : D2 * R <= D < (D2 + 1) * R) by (unfold D; lia). assert (HVN : N * R <= V < (N + 1) * R) by (unfold V; lia).
  assert (HD : 0 < D) by (assert (0 < D2 * R) by (apply Z.mul_pos_pos; lia); lia).
  assert (HN : n0 <= d0). { apply Z.nlt_ge. intros Hgt. assert ((D2 + 1) * R * 2 ^ 64 <= N * R); [|lia]. replace ((D2 + 1) * R * 2 ^ 64) with ((D2 + 1) * 2 ^ 64 * R) by ring. apply Z.mul_le_mono_nonneg_r; [lia|]. unfold N, D2. lia. }
  destruct (decide (n0 = d0)) as [E|Hne].
  - unfold q, digit_estimate. rewrite (proj2 (Z.eqb_eq _ _) E). change BN_MASK2 with (2 ^ 64 - 1). split; [lia|].
    assert (V / D < 2 ^ 64) by (apply Z.div_lt_upper_bound; lia). split; [lia|]. assert (2 ^ 64 - 2 <= V / D); [|lia]. apply Z.div_le_lower_bound; [done|].
    assert ((D2 + 1) * (2 ^ 64 - 2) <= N) by (unfold N, D2; lia). assert ((D2 + 1) * (2 ^ 64 - 2) * R <= N * R) by (apply Z.mul_le_mono_nonneg_r; lia). lia.
  - assert (Eq : q = N / D2) by (unfold q; apply digit_estimate_spec; unfold is_word; lia). pose proof (Z.div_mod N D2 ltac:(lia)) as Edm. pose proof (Z.mod_pos_bound N D2 ltac:(lia)) as Hr. rewrite <- Eq in Edm.
    assert (Hq : 0 <= q < 2 ^ 64) by (rewrite Eq; split; [apply Z.div_pos; unfold N; lia|apply Z.div_lt_upper_bound; unfold N, D2; lia]). split; [done|]. clearbody q N D2 V D. split.
    + apply Z.lt_succ_r. apply Z.div_lt_upper_bound; [done|]. assert ((N + 1) * R <= D2 * (q + 1) * R) by (apply Z.mul_le_mono_nonneg_r; lia). assert (D2 * R * (q + 1) <= D * (q + 1)) by (apply Z.mul_le_mono_nonneg_r; lia). lia.
    + assert (q - 1 <= V / D); [|lia]. destruct (decide (q = 0)) as [->|Hq0]; [assert (0 <= V) by (assert (0 <= N * R) by (apply Z.mul_nonneg_nonneg; lia); lia); pose proof (Z.div_pos V D); lia|].
      apply Z.div_le_lower_bound; [done|]. assert (D * (q - 1) <= (D2 + 1) * R * (q - 1)) by (apply Z.mul_le_mono_nonneg_r; lia). assert ((D2 + 1) * (q - 1) * R <= N * R); [|lia]. apply Z.mul_le_mono_nonneg_r; lia.
Qed.

(** ** A pass of the loop *)
Lemma words_snoc l n : words_of l n -> 0 < n -> exists l' x, l = l' ++ [x] /\ words_of l' (n - 1) /\ is_word x.
Proof.
  intros Hl Hn. destruct l as [|x l' _] using rev_ind; [destruct Hl as [Hl _]; change (zlen []) with 0 in Hl; lia|]. destruct Hl as [Hz [Hw Hx]%Forall_app]. rewrite zlen_app in Hz. change (zlen [x]) with 1 in Hz.
  exists l', x. split; [done|]. split; [split; [lia|done]|by inversion Hx].
Qed.
(** The divisor after it has been shifted: its highest bit is set. *)
Definition normalised (sd : list Z) (n : Z) : Prop := words_of sd n /\ 0 < n /\ 2 ^ 63 <= znth sd (n - 1).
Lemma window_estimate lo w hi sd n : Forall is_word lo -> 0 < zlen lo -> words_of w (n + 1) -> normalised sd n -> bn_val w < 2 ^ 64 * bn_val sd ->
  let d := lo ++ w ++ hi in let k := zlen lo in
  let q := digit_estimate (znth d (k + n)) (znth d (k + n - 1)) (znth d (k + n - 2)) (znth sd (n - 1)) (if n =? 1 then 0 else znth sd (n - 2)) in
  is_word q /\ bn_val w / bn_val sd <= q <= bn_val w / bn_val sd + 1.
Proof.
  intros Hlo Hk Hw (Hsd & Hn & Htop) HV d k. destruct (words_snoc w _ Hw ltac:(lia)) as (w1 & n0 & -> & Hw1 & Hn0). replace (n + 1 - 1) with n in Hw1 by lia. destruct (words_snoc w1 _ Hw1 Hn) as (w2 & n1 & -> & Hw2 & Hn1).
  destruct (words_snoc sd _ Hsd Hn) as (s1 & d0 & -> & Hs1 & Hd0). pose proof Hw1 as [Z1 _]. pose proof Hw2 as [Z2 _]. pose proof Hs1 as [Z3 _].
  rewrite (znth_app_at s1 d0 [] (n - 1)) in * by lia. unfold d, k. rewrite <- !app_assoc. cbn [app].
  assert (E0 : znth (lo ++ w2 ++ n1 :: n0 :: hi) (zlen lo + n) = n0) by (change (n1 :: n0 :: hi) with ([n1] ++ n0 :: hi); rewrite !app_assoc; apply znth_app_at; rewrite !zlen_app, zlen_cons, zlen_nil; lia).
  assert (E1 : znth (lo ++ w2 ++ n1 :: n0 :: hi) (zlen lo + n - 1) = n1) by (rewrite !app_assoc; apply znth_app_at; rewrite !zlen_app; lia). rewrite E0, E1. unfold is_word in Hd0.
  destruct (Z.eqb_spec n 1) as [->|Hne].
  - destruct w2; [|rewrite zlen_cons in Z2; pose proof (zlen_nonneg w2); lia]. destruct s1; [|rewrite zlen_cons in Z3; pose proof (zlen_nonneg s1); lia]. cbn [app] in *. rewrite !bn_val_cons, bn_val_nil, !Z.mul_0_r, !Z.add_0_r in *.
    destruct lo as [|n2 lo' _] using rev_ind; [change (zlen []) with 0 in Hk; lia|]. apply Forall_app in Hlo as [_ [Hn2 _]%Forall_cons]. rewrite <- app_assoc. cbn [app].
    rewrite (znth_app_at lo' n2) by (rewrite zlen_app, zlen_cons, zlen_nil; lia). unfold is_word in *. rewrite digit_estimate_spec by (unfold is_word; lia).
    replace (d0 * 2 ^ 64 + 0) with (2 ^ 64 * d0) by lia. rewrite <- Z.div_div by lia. rewrite (Z.add_comm _ n2), Z.div_add, (Z.div_small n2), Z.add_0_l by lia. replace (n0 * 2 ^ 64 + n1) with (n1 + 2 ^ 64 * n0) by lia.
    split; [|lia]. split; [apply Z.div_pos; lia|apply Z.div_lt_upper_bound; lia].
  - destruct (words_snoc w2 _ Hw2 ltac:(lia)) as (w3 & n2 & -> & Hw3 & Hn2). destruct (words_snoc s1 _ Hs1 ltac:(lia)) as (s2 & d1 & -> & Hs2 & Hd1). pose proof Hw3 as [Z4 _]. pose proof Hs2 as [Z5 _].
    rewrite <- !app_assoc. cbn [app]. rewrite (znth_app_at s2 d1) by lia. assert (E2 : znth (lo ++ w3 ++ n2 :: n1 :: n0 :: hi) (zlen lo + n - 2) = n2) by (rewrite !app_assoc; apply znth_app_at; rewrite zlen_app; lia). rewrite E2.
    pose proof (words_bound _ _ Hw3) as B3. pose proof (words_bound _ _ Hs2) as B2. replace (n - 1 - 1) with (n - 2) in * by lia.
    assert (Ew : ((w3 ++ [n2]) ++ [n1]) ++ [n0] = w3 ++ [n2; n1; n0]) by (by rewrite <- !app_assoc). assert (Es : (s2 ++ [d1]) ++ [d0] = s2 ++ [d1; d0]) by (by rewrite <- !app_assoc).
    assert (EV : bn_val (w3 ++ [n2; n1; n0]) = ((n0 * 2 ^ 64 + n1) * 2 ^ 64 + n2) * radix (n - 2) + bn_val w3) by (rewrite bn_val_app, !bn_val_cons, bn_val_nil, Z4; ring).
    assert (ED : bn_val (s2 ++ [d1; d0]) = (d0 * 2 ^ 64 + d1) * radix (n - 2) + bn_val s2) by (rewrite bn_val_app, !bn_val_cons, bn_val_nil, Z5; ring).
    rewrite Ew, Es, EV, ED in HV. rewrite EV, ED. apply (estimate_close n0 n1 n2 d0 d1 (radix (n - 2)) (bn_val w3) (bn_val s2)); (done || lia).
Qed.
Lemma normalised_lower sd n : normalised sd n -> 2 ^ 63 * radix (n - 1) <= bn_val sd < radix n.
Proof.
  intros (Hsd & Hn & Htop). split; [|by apply words_bound]. destruct (words_snoc sd n Hsd Hn) as (s & x & -> & Hs & _). rewrite (znth_app_at s x []) in Htop by (destruct Hs; lia). pose proof (words_bound _ _ Hs).
  rewrite bn_val_app, (proj1 Hs), bn_val_single. pose proof (radix_pos (n - 1) ltac:(lia)). assert (radix (n - 1) * 2 ^ 63 <= radix (n - 1) * x) by (apply Z.mul_le_mono_nonneg_l; lia). lia.
Qed.
(** [w] is the window: its quotient by the divisor is a digit, and its remainder has no use for the highest word. *)
Lemma div_round_spec lo w hi sd n : Forall is_word lo -> 0 < zlen lo -> words_of w (n + 1) -> normalised sd n -> bn_val w < 2 ^ 64 * bn_val sd ->
  exists w', div_round (zlen lo) (lo ++ w ++ hi) sd n = (lo ++ (w' ++ [0]) ++ hi, bn_val w / bn_val sd) /\ words_of w' n /\ bn_val w' = bn_val w mod bn_val sd.
Proof.
  intros Hlo Hk Hw Hsd HV. pose proof (window_estimate lo w hi sd n Hlo Hk Hw Hsd HV) as He. pose proof (normalised_lower sd n Hsd) as HD. destruct Hsd as (Hsd & Hn & _). unfold div_round. cbv zeta in He |- *. set (q := digit_estimate _ _ _ _ _) in *. destruct He as [Hq Hqd].
  pose proof (radix_pos (n - 1) ltac:(lia)) as HR1. assert (HD0 : 0 < bn_val sd) by (assert (0 < 2 ^ 63 * radix (n - 1)) by (apply Z.mul_pos_pos; lia); lia).
  pose proof (bn_mul_words_spec sd q n Hsd Hq) as Hm. destruct (bn_mul_words sd n q) as [t l0]. destruct Hm as (Ht & Hl0 & Et). pose proof (words_of_app _ _ _ _ Ht (words_single _ Hl0)) as Htl.
  assert (Etl : bn_val (t ++ [l0]) = q * bn_val sd) by (rewrite bn_val_app, (proj1 Ht), bn_val_single; exact Et).
  rewrite zdrop_app_eq by done. rewrite sub_words_take, (ztake_app_eq (n + 1) w) by (destruct Hw; lia). rewrite (ztake_ge (n + 1) (t ++ [l0])) by (destruct Htl; lia).
  pose proof (bn_sub_words_spec w (t ++ [l0]) (n + 1) Hw Htl) as Hs. destruct (bn_sub_words w _ _) as [w1 borrow]. destruct Hs as (Hw1 & Hb & E1). rewrite Etl in E1. rewrite overwrite_app by (destruct Hw, Hw1; lia).
  set (V := bn_val w) in *. set (D := bn_val sd) in *. pose proof (Z.div_mod V D ltac:(lia)) as Edm. pose proof (Z.mod_pos_bound V D HD0) as Hr. pose proof (words_bound _ _ Hw1) as B1. pose proof (radix_succ n ltac:(lia)) as Rs. replace (1 + n) with (n + 1) in Rs by lia.
  destruct (words_snoc w1 _ Hw1 ltac:(lia)) as (w2 & top & -> & Hw2 & Htop). replace (n + 1 - 1) with n in Hw2 by lia. pose proof (words_bound _ _ Hw2) as B2. rewrite bn_val_app, (proj1 Hw2), bn_val_single in E1, B1. unfold is_word in Htop.
  assert (Hqs : q = V / D \/ q = V / D + 1) by lia. destruct (Z.eqb_spec borrow 0) as [->|Hb0].
  - assert (Eq : q = V / D) by (destruct Hqs as [|Eq]; [done|exfalso; rewrite Eq in E1; replace ((V / D + 1) * D) with (D * (V / D) + D) in E1 by ring; lia]).
    rewrite Eq in E1. replace (V / D * D) with (D * (V / D)) in E1 by ring. assert (Et0 : top = 0) by (assert (radix n * top < radix n * 1) by lia; assert (top < 1) by (apply (Z.mul_lt_mono_pos_l (radix n)); lia); lia).
    exists w2. rewrite Et0, Eq. split; [done|]. split; [done|]. rewrite Et0 in E1. lia.
  - assert (borrow = 1) as -> by lia. assert (Eq : q = V / D + 1) by (destruct Hqs as [Eq|]; [exfalso; rewrite Eq in E1; replace (V / D * D) with (D * (V / D)) in E1 by ring; lia|done]).
    rewrite zdrop_app_eq by done. rewrite add_words_take, <- app_assoc, (ztake_app_eq n w2), (ztake_ge n sd) by (destruct Hw2, Hsd; lia).
    pose proof (bn_add_words_spec w2 sd n Hw2 Hsd) as Ha. destruct (bn_add_words w2 sd n) as [w3 carry]. destruct Ha as (Hw3 & Hc & E3). rewrite overwrite_app by (destruct Hw3, Hw2; lia). pose proof (words_bound _ _ Hw3) as B3.
    rewrite Eq in E1. replace ((V / D + 1) * D) with (D * (V / D) + D) in E1 by ring. fold D in E3.
    assert (Hfin : bn_val w3 + radix n * (carry + top) = V mod D + radix n * 2 ^ 64) by lia.
    assert (Hct : carry + top = 2 ^ 64) by (assert (radix n * (carry + top) < radix n * (2 ^ 64 + 1) /\ radix n * (2 ^ 64 - 1) < radix n * (carry + top)) as [H1 H2] by lia; apply Z.mul_lt_mono_pos_l in H1, H2; lia).
    assert (carry = 1 /\ top = 2 ^ 64 - 1) as [-> ->] by lia. cbn [Z.eqb]. change (1 =? 0) with false. cbv iota.
    assert (Ek : zlen lo + n = zlen (lo ++ w3)) by (rewrite zlen_app; destruct Hw3; lia). rewrite Eq, Ek. cbn [app]. rewrite (app_assoc lo w3), znth_app_at by done. rewrite insert_app_at by (unfold zlen; lia).
    exists w3. split; [|split; [done|lia]]. assert (0 <= V / D) by (apply Z.div_pos; [apply (words_bound w _ Hw)|done]). rewrite (wrap64_id (V / D + 1 - 1)) by (unfold is_word in *; lia). rewrite <- !app_assoc. change (wrap64 (2 ^ 64 - 1 + 1)) with 0. cbn [app]. f_equal. lia.
Qed.
(** All passes: the words from the second one on are divided. *)
Lemma div_rounds_spec n : forall x mid hi sd m, is_word x -> words_of mid (Z.of_nat n + m) -> normalised sd m -> bn_val (zdrop (Z.of_nat n) mid) < bn_val sd ->
  exists mid' qs, div_rounds n (x :: mid ++ hi) sd m = (x :: mid' ++ hi, qs) /\ words_of mid' (Z.of_nat n + m) /\ words_of qs (Z.of_nat n) /\
    bn_val mid' = bn_val mid mod bn_val sd /\ bn_val qs = bn_val mid / bn_val sd.
Proof.
  induction n as [|n IH]; intros x mid hi sd m Hx Hmid Hsd HV; cbn [div_rounds].
  - rewrite zdrop_nonpos in HV by lia. exists mid, []. pose proof (words_bound _ _ Hmid). rewrite Z.mod_small, Z.div_small by lia. done.
  - pose proof (normalised_lower sd m Hsd) as HD. pose proof (radix_pos (m - 1) ltac:(destruct Hsd; lia)). assert (HD0 : 0 < bn_val sd) by (assert (0 < 2 ^ 63 * radix (m - 1)) by (apply Z.mul_pos_pos; lia); lia).
    assert (Hm : 0 < m) by apply Hsd. rewrite Nat2Z.inj_succ in Hmid, HV. set (m0 := ztake (Z.of_nat n) mid). set (w := zdrop (Z.of_nat n) mid). assert (Em : mid = m0 ++ w) by (symmetry; apply ztake_zdrop).
    pose proof (words_take _ _ (Z.of_nat n) Hmid ltac:(lia)) as Hm0. pose proof (words_drop _ _ (Z.of_nat n) Hmid ltac:(lia)) as Hw. fold m0 in Hm0. fold w in Hw. replace (Z.succ (Z.of_nat n) + m - Z.of_nat n) with (m + 1) in Hw by lia.
    destruct (words_cons w _ Hw ltac:(lia)) as (w0 & wh & Ew & Hw0 & Hwh). assert (Ewh : zdrop (Z.succ (Z.of_nat n)) mid = wh).
    { rewrite Em. replace (Z.succ (Z.of_nat n)) with (zlen m0 + 1) by (destruct Hm0; lia). rewrite zdrop_app_r by lia. replace (zlen m0 + 1 - zlen m0) with 1 by lia. by rewrite Ew. }
    rewrite Ewh in HV. assert (HVw : bn_val w < 2 ^ 64 * bn_val sd) by (rewrite Ew, bn_val_cons; unfold is_word in Hw0; lia).
    destruct (div_round_spec (x :: m0) w hi sd m) as (w' & E1 & Hw' & Ew'); [by constructor; [|apply Hm0]|rewrite zlen_cons; pose proof (zlen_nonneg m0); lia|done|done|done|].
    assert (Ez : zlen (x :: m0) = Z.of_nat (S n)) by (rewrite zlen_cons; destruct Hm0; lia). rewrite Ez in E1. assert (Ed : x :: mid ++ hi = (x :: m0) ++ w ++ hi) by (rewrite Em; cbn [app]; by rewrite <- app_assoc). rewrite Ed, E1.
    assert (Ed' : (x :: m0) ++ (w' ++ [0]) ++ hi = x :: (m0 ++ w') ++ 0 :: hi) by (cbn [app]; by rewrite <- !app_assoc). rewrite Ed'.
    assert (Hmid2 : words_of (m0 ++ w') (Z.of_nat n + m)) by (by apply words_of_app). assert (Edr : zdrop (Z.of_nat n) (m0 ++ w') = w') by (apply zdrop_app_eq; destruct Hm0; lia).
    destruct (IH x (m0 ++ w') (0 :: hi) sd m Hx Hmid2 Hsd) as (mid' & qs & E2 & Hmid' & Hqs & Er & Eq); [rewrite Edr, Ew'; apply Z.mod_pos_bound; lia|]. rewrite E2.
    assert (Hwv : bn_val w = bn_val sd * (bn_val w / bn_val sd) + bn_val w') by (rewrite Ew'; apply Z.div_mod; lia). set (q := bn_val w / bn_val sd) in *.
    assert (Hval : bn_val mid = bn_val (m0 ++ w') + radix (Z.of_nat n) * q * bn_val sd) by (rewrite Em, !bn_val_app, Hwv, (proj1 Hm0); ring).
    assert (Hq : is_word q) by (pose proof (words_bound _ _ Hw); unfold q, is_word; split; [apply Z.div_pos; lia|apply Z.div_lt_upper_bound; lia]).
    exists (mid' ++ [0]), (qs ++ [q]). rewrite Nat2Z.inj_succ. split; [rewrite <- app_assoc; done|]. pose proof (words_of_app _ _ _ _ Hmid' (words_single 0 ltac:(done))) as Hm1. pose proof (words_of_app _ _ _ _ Hqs (words_single q Hq)) as Hq1.
    replace (Z.of_nat n + m + 1) with (Z.succ (Z.of_nat n) + m) in Hm1 by lia. split; [done|]. split; [done|]. rewrite !bn_val_app, !bn_val_single, Er, Eq, (proj1 Hqs), Hval, Z.mod_add, Z.div_add by lia. split; lia.
Qed.
