(* ===== verification/BnShift.v ===== *)
(** * Shifts multiply and divide by powers of two

    [BN_lshift] and [BN_rshift] by any number of bits, and the length of a number in bits. *)
From S2P Require Import Prelude Compat Words BnWord BnMul BnMulSpec Bn BnSpec BnCtx BnCtxSpec BnArith.

Lemma pow_split k : 0 <= k <= 64 -> 2 ^ 64 = 2 ^ (64 - k) * 2 ^ k /\ 0 < 2 ^ k /\ 0 < 2 ^ (64 - k).
Proof. intros Hk. rewrite <- Z.pow_add_r by lia. replace (64 - k + k) with 64 by lia. split; [done|]. split; apply Z.pow_pos_nonneg; lia. Qed.
Lemma shl_words_spec lb f : forall low, 0 < lb < 64 -> Forall is_word f -> 0 <= low < 2 ^ lb ->
  words_of (shl_words lb f low) (zlen f + 1) /\ bn_val (shl_words lb f low) = bn_val f * 2 ^ lb + low.
Proof.
  intros low Hlb Hf. revert low. destruct (pow_split lb ltac:(lia)) as (E64 & HP & HQ). induction Hf as [|l f Hl Hf IH]; intros low Hlow; cbn [shl_words].
  - change (zlen []) with 0. split; [apply words_single; unfold is_word; split; [lia|]|rewrite bn_val_single, bn_val_nil; lia]. assert (2 ^ lb * 1 <= 2 ^ lb * 2 ^ (64 - lb)) by (apply Z.mul_le_mono_nonneg_l; lia). lia.
  - change BN_BITS2 with 64. rewrite mask_id, Z.shiftr_div_pow2, Z.shiftl_mul_pow2 by lia. unfold is_word in Hl. assert (Hc : 0 <= l / 2 ^ (64 - lb) < 2 ^ lb) by (split; [apply Z.div_pos; lia|apply Z.div_lt_upper_bound; lia]).
    assert (Hcw : is_word (l / 2 ^ (64 - lb))) by (unfold is_word; assert (2 ^ lb * 1 <= 2 ^ lb * 2 ^ (64 - lb)) by (apply Z.mul_le_mono_nonneg_l; lia); lia). rewrite (land_MASK2 _ Hcw). destruct (IH _ Hc) as [Hw Ev].
    assert (El : wrap64 (l * 2 ^ lb) = l mod 2 ^ (64 - lb) * 2 ^ lb) by (unfold wrap64; rewrite E64; apply Z.mul_mod_distr_r; lia). pose proof (Z.div_mod l (2 ^ (64 - lb)) ltac:(lia)) as Edm. pose proof (Z.mod_pos_bound l (2 ^ (64 - lb)) HQ) as Hr.
    rewrite El, Z.lor_comm, <- Z.shiftl_mul_pow2, lor_shiftl by lia. set (lo := l mod 2 ^ (64 - lb)) in *. set (hi := l / 2 ^ (64 - lb)) in *. clearbody lo hi.
    assert (Hlw : is_word (low + lo * 2 ^ lb)) by (unfold is_word; assert ((lo + 1) * 2 ^ lb <= 2 ^ (64 - lb) * 2 ^ lb) by (apply Z.mul_le_mono_nonneg_r; lia); assert (0 <= lo * 2 ^ lb) by (apply Z.mul_nonneg_nonneg; lia); lia).
    rewrite !bn_val_cons, Ev, zlen_cons. split; [destruct Hw as [Hz Hw]; split; [rewrite zlen_cons; lia|by constructor]|]. rewrite Edm, E64. ring.
Qed.
Lemma shr_words_spec rb f : forall l, 0 < rb < 64 -> is_word l -> Forall is_word f ->
  let ws := shr_words rb l f in Forall is_word ws /\ zlen f <= zlen ws <= zlen f + 1 /\ bn_val ws = bn_val (l :: f) / 2 ^ rb /\ (zlen ws = zlen f + 1 -> radix (zlen f) <= bn_val ws).
Proof.
  intros l Hrb Hl Hf. revert l Hl. destruct (pow_split rb ltac:(lia)) as (E64 & HP & HQ). induction Hf as [|l' f Hl' Hf IH]; intros l Hl ws; unfold ws; cbn [shr_words]; clear ws; change BN_BITS2 with 64; rewrite Z.shiftr_div_pow2 by lia; unfold is_word in Hl.
  all: assert (Ht : is_word (l / 2 ^ rb)) by (unfold is_word; split; [apply Z.div_pos; lia|apply Z.div_lt_upper_bound; [lia|]; assert (1 * 2 ^ 64 <= 2 ^ rb * 2 ^ 64) by (apply Z.mul_le_mono_nonneg_r; lia); lia]); rewrite (land_MASK2 _ Ht).
  - rewrite bn_val_single. change (zlen []) with 0. change (radix 0) with 1. destruct (Z.eqb_spec (l / 2 ^ rb) 0) as [E|E]; [rewrite E; split; [done|]; split; [done|]; split; [done|discriminate]|].
    rewrite bn_val_single. change (zlen [_]) with 1. split; [by constructor|]. split; [lia|]. split; [done|]. unfold is_word in Ht. lia.
  - destruct (IH l' Hl') as (Hw & Hz & Ev & Hh). rewrite zlen_cons in *. rewrite !bn_val_cons, !zlen_cons. unfold is_word in Hl'.
    assert (El : wrap64 (Z.shiftl l' (64 - rb)) = l' mod 2 ^ rb * 2 ^ (64 - rb)) by (rewrite Z.shiftl_mul_pow2 by lia; unfold wrap64; rewrite E64, (Z.mul_comm (2 ^ (64 - rb))); apply Z.mul_mod_distr_r; lia).
    pose proof (Z.mod_pos_bound l' (2 ^ rb) HP) as Hr. assert (Hq : 0 <= l / 2 ^ rb < 2 ^ (64 - rb)) by (split; [apply Z.div_pos; lia|apply Z.div_lt_upper_bound; lia]).
    rewrite El, <- Z.shiftl_mul_pow2, lor_shiftl by lia. assert (Hlw : is_word (l / 2 ^ rb + l' mod 2 ^ rb * 2 ^ (64 - rb))).
    { unfold is_word. assert ((l' mod 2 ^ rb + 1) * 2 ^ (64 - rb) <= 2 ^ rb * 2 ^ (64 - rb)) by (apply Z.mul_le_mono_nonneg_r; lia). assert (0 <= l' mod 2 ^ rb * 2 ^ (64 - rb)) by (apply Z.mul_nonneg_nonneg; lia). lia. }
    rewrite (land_MASK2 _ Hlw), Ev. split; [by constructor|]. split; [lia|]. split.
    + rewrite bn_val_cons. set (v := l' + 2 ^ 64 * bn_val f). assert (Ev' : v mod 2 ^ rb = l' mod 2 ^ rb) by (unfold v; rewrite E64; replace (2 ^ (64 - rb) * 2 ^ rb * bn_val f) with (2 ^ (64 - rb) * bn_val f * 2 ^ rb) by ring; apply Z.mod_add; lia).
      rewrite <- Ev', E64. pose proof (Z.div_mod v (2 ^ rb) ltac:(lia)) as Ed. replace (l + 2 ^ (64 - rb) * 2 ^ rb * v) with (l + 2 ^ (64 - rb) * v * 2 ^ rb) by ring. rewrite Z.div_add by lia. rewrite Ed at 3. ring.
    + intros Hs. rewrite radix_succ by apply zlen_nonneg. assert (radix (zlen f) <= bn_val (shr_words rb l' f)) by (apply Hh; lia). rewrite <- Ev. unfold is_word in Hlw. lia.
Qed.

(** ** The length in bits *)
Lemma BN_num_bits_spec b : bn_ok b -> 0 < bn_top b -> 2 ^ (BN_num_bits b - 1) <= bn_abs b < 2 ^ BN_num_bits b /\ 64 * (bn_top b - 1) < BN_num_bits b <= 64 * bn_top b.
Proof.
  intros Hb Ht. pose proof (bo_top b Hb) as Htop. destruct (bo_len b Hb) as [Hl Hw]. pose proof (bo_high b Hb Ht) as Hh. pose proof (znth_word (bn_d b) (bn_top b - 1) Hw) as Hz. set (w := znth (bn_d b) (bn_top b - 1)) in *.
  unfold BN_num_bits, BN_is_zero. rewrite (proj2 (Z.eqb_neq _ 0)) by lia. change BN_BITS2 with 64. fold w. rewrite (BN_num_bits_word_spec w Hz), (proj2 (Z.eqb_neq w 0)) by done. unfold is_word in Hz.
  pose proof (Z.log2_spec w ltac:(lia)) as Hlog. pose proof (Z.log2_nonneg w). assert (Z.log2 w < 64) by (apply Z.log2_lt_pow2; lia). set (k := Z.log2 w) in *.
  assert (Ev : bn_abs b = bn_val (ztake (bn_top b - 1) (bn_d b)) + radix (bn_top b - 1) * w) by (unfold bn_abs, bn_used; replace (bn_top b) with (bn_top b - 1 + 1) at 1 by lia; rewrite znth_split by lia; done).
  pose proof (words_bound _ _ (words_take _ _ (bn_top b - 1) (conj Hl Hw) ltac:(lia))) as Hlo. unfold radix in *. split; [|lia]. replace ((bn_top b - 1) * 64 + (k + 1) - 1) with (64 * (bn_top b - 1) + k) by lia.
  replace ((bn_top b - 1) * 64 + (k + 1)) with (64 * (bn_top b - 1) + Z.succ k) by lia. rewrite !Z.pow_add_r by lia. assert (0 < 2 ^ (64 * (bn_top b - 1))) by (apply Z.pow_pos_nonneg; lia). set (R := 2 ^ (64 * (bn_top b - 1))) in *. rewrite Ev. split.
  - assert (R * 2 ^ k <= R * w) by (apply Z.mul_le_mono_nonneg_l; lia). lia.
  - assert (R * (w + 1) <= R * 2 ^ Z.succ k) by (apply Z.mul_le_mono_nonneg_l; lia). lia.
Qed.
(** The number of words of a value that has [b] bits. *)
Lemma words_of_bits v m b : 0 < m -> radix (m - 1) <= v < radix m -> 0 < b -> 2 ^ (b - 1) <= v < 2 ^ b -> m = (b + 63) / 64.
Proof.
  intros Hm Hv Hb Hbits. unfold radix in Hv. assert (64 * (m - 1) < b) by (apply (Z.pow_lt_mono_r_iff 2); lia). assert (b - 1 < 64 * m) by (apply (Z.pow_lt_mono_r_iff 2); lia). dlia.
Qed.

Lemma insert_overwrite (d : list Z) i v : 0 <= i < zlen d -> <[Z.to_nat i := v]> d = overwrite d i [v].
Proof.
  intros Hi. rewrite <- (ztake_zdrop i d) at 1. assert (Hl : zlen (ztake i d) = i) by (rewrite zlen_ztake; lia). destruct (zdrop i d) as [|x l] eqn:E; [pose proof (zlen_zdrop i d ltac:(lia)) as Hz; rewrite E in Hz; change (zlen []) with 0 in Hz; lia|].
  rewrite insert_app_at by (unfold zlen in Hl; lia). unfold overwrite. cbn [app]. do 2 f_equal. change (zlen [v]) with 1. rewrite <- zdrop_zdrop, E by lia. done.
Qed.
Section Shift.
Context `{Allocator} (garbage : Z -> Z -> Z) (Hmem : forall n, malloc_ok n = true).

(** Setting the sign of [r] first leaves every operand as it is, but for the sign. *)
Lemma sign_first (r : Z) b (a : Z) (h : bn_store) : bn_used (<[r := with_neg b (h !!! r)]> h !!! a) = bn_used (h !!! a) /\ bn_top (<[r := with_neg b (h !!! r)]> h !!! a) = bn_top (h !!! a) /\
  (bn_ok (h !!! a) -> bn_ok (<[r := with_neg b (h !!! r)]> h !!! a)).
Proof.
  destruct (decide (a = r)) as [->|Hne]; [rewrite lookup_total_insert_eq; split; [done|]; split; [done|]; apply with_neg_ok|]. by rewrite lookup_total_insert_ne.
Qed.
Lemma shl_value nw lb x : bn_ok x -> 0 <= nw -> 0 <= lb < 64 ->
  let ws := zeros nw ++ (if lb =? 0 then bn_used x ++ [0] else shl_words lb (bn_used x) 0) in words_of ws (bn_top x + nw + 1) /\ bn_val ws = bn_abs x * 2 ^ (64 * nw + lb).
Proof.
  intros Hx Hnw Hlb ws. pose proof (used_words x Hx) as Ux. assert (Hf : words_of (if lb =? 0 then bn_used x ++ [0] else shl_words lb (bn_used x) 0) (bn_top x + 1) /\ bn_val (if lb =? 0 then bn_used x ++ [0] else shl_words lb (bn_used x) 0) = bn_abs x * 2 ^ lb).
  { destruct (Z.eqb_spec lb 0) as [->|Hne].
    - split; [apply words_of_app; [done|by apply words_single]|]. rewrite bn_val_app, bn_val_single. unfold bn_abs. lia.
    - destruct (shl_words_spec lb (bn_used x) 0 ltac:(lia) (proj2 Ux) ltac:(split; [lia|by apply Z.pow_pos_nonneg; lia])) as [Hw Ev]. rewrite (proj1 Ux) in Hw. split; [done|]. rewrite Ev. unfold bn_abs. lia. }
  destruct Hf as [Hw Ev]. unfold ws. split; [replace (bn_top x + nw + 1) with (nw + (bn_top x + 1)) by lia; apply words_of_app; [by apply words_zeros|done]|].
  rewrite bn_val_app, bn_val_zeros, zlen_zeros, Ev, Z.pow_add_r by lia. unfold radix. lia.
Qed.
Lemma BN_lshift_spec r a n h : bn_ok (h !!! r) -> bn_ok (h !!! a) -> 0 <= n -> bn_top (h !!! a) + n / 64 + 1 <= BN_MAX_WORDS ->
  exists h', BN_lshift garbage r a n h = (Some tt, h') /\ result h r h' (bn_neg (h !!! a)) (bn_abs (h !!! a) * 2 ^ n).
Proof.
  intros Hr Ha Hn Hmax. unfold BN_lshift, rd, mbind, M_bind. set (x := h !!! a) in *. unfold upd at 1, modS at 1. change BN_BITS2 with 64. set (h0 := <[r := with_neg (bn_neg x) (h !!! r)]> h).
  destruct (sign_first r (bn_neg x) a h) as (Eu & Et & Ho). fold h0 x in Eu, Et, Ho. specialize (Ho Ha). assert (Hr0 : bn_ok (h0 !!! r)) by (apply (sign_first r (bn_neg x) r h); done).
  destruct (bn_wexpand_spec garbage Hmem r (bn_top (h0 !!! a) + n / 64 + 1) h0 Hr0 ltac:(rewrite Et; exact Hmax)) as (h1 & r1 & -> & Hc & Hg). pose proof (grown_at r a _ h0 r1 h1 Hr0 Ho Hc Hg) as Hga.
  pose proof (grown_used _ _ _ Ho Hga) as Eu1. destruct (gr_same _ _ _ Hga) as (Et1 & _ & _). change (ztake (bn_top (h1 !!! a)) (bn_d (h1 !!! a))) with (bn_used (h1 !!! a)). rewrite Eu1, Eu, Et1, Et.
  assert (Hmod : 0 <= n mod 64 < 64) by (apply Z.mod_pos_bound; lia). assert (Hdiv : 0 <= n / 64) by (apply Z.div_pos; lia). destruct (shl_value (n / 64) (n mod 64) x Ha Hdiv Hmod) as [Hws Hv]. rewrite <- Z.div_mod in Hv by lia.
  set (ws := zeros _ ++ _) in *. unfold put_words, upd, modS. eexists. split; [reflexivity|]. rewrite !insert_insert_eq, !lookup_total_insert_eq. destruct Hc as [Hc1 Hc2]. rewrite Hc1. rewrite Et in Hg. pose proof (bo_top x Ha). pose proof (gr_room _ _ _ Hg) as [Gr _].
  destruct (product_written _ r1 _ ws _ (bn_top x + n / 64 + 1) Hr0 Hg Hws ltac:(lia) Gr) as (P1 & P2 & P3). rewrite (ztake_ge _ ws) in P2 by (destruct Hws; lia).
  unfold with_top at 1, with_d. cbn [bn_d bn_top bn_dmax bn_neg bn_flags]. split; rewrite ?lookup_total_insert_eq; [done| |by rewrite P2, Hv|].
  - rewrite P3. destruct (gr_same _ _ _ Hg) as (_ & -> & _). unfold h0. by rewrite lookup_total_insert_eq.
  - intros q Hq. rewrite lookup_total_insert_ne, Hc2 by done. unfold h0. by apply lookup_total_insert_ne.
Qed.
(** The words of [x] from [nw] on, moved down by [rb] bits. *)
Definition shr_all (nw rb : Z) (x : BIGNUM) : list Z := let f := zdrop nw (bn_used x) in if rb =? 0 then f else match f with [] => [] | l :: f => shr_words rb l f end.
Lemma shr_value nw rb x : bn_ok x -> 0 <= nw < bn_top x -> 0 <= rb < 64 ->
  let ws := shr_all nw rb x in let i := (BN_num_bits x - (64 * nw + rb) + 63) / 64 in
  words_of ws i /\ bn_val ws = bn_abs x / 2 ^ (64 * nw + rb) /\ (0 < i -> radix (i - 1) <= bn_val ws).
Proof.
  intros Hx Hnw Hrb ws i. pose proof (used_words x Hx) as Ux. pose proof (words_drop _ _ nw Ux ltac:(lia)) as Uf. set (m := bn_top x - nw) in *. destruct (BN_num_bits_spec x Hx ltac:(lia)) as [Hbits Hb64]. set (b := BN_num_bits x) in *.
  pose proof (bn_val_split (bn_used x) nw ltac:(destruct Ux; lia)) as Hs. pose proof (words_bound _ _ (words_take _ _ nw Ux ltac:(lia))) as Hlo. change (bn_val (bn_used x)) with (bn_abs x) in Hs. pose proof (radix_pos nw ltac:(lia)) as HR.
  assert (Ef : bn_val (zdrop nw (bn_used x)) = bn_abs x / radix nw) by (apply (Z.div_unique _ _ _ (bn_val (ztake nw (bn_used x)))); lia).
  assert (Hf : radix (m - 1) <= bn_val (zdrop nw (bn_used x))).
  { rewrite Ef. apply Z.div_le_lower_bound; [done|]. rewrite <- radix_add by lia. replace (nw + (m - 1)) with (bn_top x - 1) by lia. apply abs_lower; [done|lia]. }
  assert (Hq : bn_abs x / 2 ^ (64 * nw + rb) = bn_val (zdrop nw (bn_used x)) / 2 ^ rb) by (rewrite Ef, Z.pow_add_r by lia; unfold radix; rewrite Z.div_div by (first [apply Z.pow_nonzero|apply Z.pow_pos_nonneg]; lia); done).
  rewrite Hq. unfold ws, shr_all. destruct (Z.eqb_spec rb 0) as [->|Hne].
  - assert (Ei : i = m) by (unfold i; dlia). rewrite Ei, Z.pow_0_r, Z.div_1_r. done.
  - destruct (words_cons _ _ Uf ltac:(lia)) as (l & f & E & Hl & Hf'). rewrite E in Hf |- *. destruct (shr_words_spec rb f l ltac:(lia) Hl (proj2 Hf')) as (W1 & W2 & W3 & W4). set (w := shr_words rb l f) in *. rewrite (proj1 Hf') in W2, W4. replace (m - 1 + 1) with m in * by lia.
    pose proof (bn_val_bound w W1) as Hwb. destruct (pow_split rb ltac:(lia)) as (E64 & HP & HQ).
    assert (Hlow : 0 < zlen w -> radix (zlen w - 1) <= bn_val w).
    { intros Hpos. destruct (decide (zlen w = m)) as [Em|Em]; [rewrite Em; by apply W4|]. assert (Ez : zlen w = m - 1) by lia. rewrite W3. apply Z.div_le_lower_bound; [done|]. rewrite Ez. replace (m - 1) with (1 + (m - 1 - 1)) in Hf by lia. rewrite radix_succ in Hf by lia.
      pose proof (radix_pos (m - 1 - 1) ltac:(lia)). assert (2 ^ rb * radix (m - 1 - 1) <= 2 ^ 64 * radix (m - 1 - 1)) by (apply Z.mul_le_mono_nonneg_r; [lia|]; assert (2 ^ rb * 1 <= 2 ^ (64 - rb) * 2 ^ rb) by (rewrite Z.mul_comm; apply Z.mul_le_mono_nonneg_r; lia); lia). lia. }
    assert (Hv : bn_val w = bn_abs x / 2 ^ (64 * nw + rb)) by (rewrite Hq, E; exact W3).
    assert (Ei : i = zlen w).
    { unfold i. destruct (Z.le_gt_cases b (64 * nw + rb)) as [Hle|Hgt].
      - assert (Hz : bn_val w = 0) by (rewrite Hv; apply Z.div_small; split; [apply (abs_bound x Hx)|]; assert (2 ^ b <= 2 ^ (64 * nw + rb)) by (apply Z.pow_le_mono_r; lia); lia).
        assert (zlen w = 0) by (pose proof (zlen_nonneg w); destruct (decide (zlen w = 0)); [done|]; pose proof (radix_pos (zlen w - 1)); lia). dlia.
      - set (k := 64 * nw + rb) in *. assert (Hk : 0 < 2 ^ k) by (apply Z.pow_pos_nonneg; lia). assert (Hvb : 2 ^ (b - k - 1) <= bn_val w < 2 ^ (b - k)).
        { rewrite Hv. split; [apply Z.div_le_lower_bound; [done|]; rewrite <- Z.pow_add_r by lia; replace (k + (b - k - 1)) with (b - 1) by lia; lia|apply Z.div_lt_upper_bound; [done|]; rewrite <- Z.pow_add_r by lia; replace (k + (b - k)) with b by lia; lia]. }
        assert (Hpos : 0 < zlen w) by (pose proof (zlen_nonneg w); destruct (decide (zlen w = 0)) as [Hz|]; [|lia]; rewrite Hz in Hwb; change (radix 0) with 1 in Hwb; assert (0 < 2 ^ (b - k - 1)) by (apply Z.pow_pos_nonneg; lia); lia).
        symmetry. apply (words_of_bits (bn_val w)); [done|split; [by apply Hlow|lia]|lia|done]. }
    rewrite Ei. split; [by split|]. split; [exact W3|exact Hlow].
Qed.
Lemma BN_rshift_spec r a n h : bn_ok (h !!! r) -> bn_ok (h !!! a) -> 0 <= n -> bn_top (h !!! a) <= BN_MAX_WORDS ->
  exists h' neg, BN_rshift garbage r a n h = (Some tt, h') /\ result h r h' neg (bn_abs (h !!! a) / 2 ^ n) /\ (neg = bn_neg (h !!! a) \/ neg = false).
Proof.
  intros Hr Ha Hn Hmax. unfold BN_rshift. rewrite (bind_some (rd a) _ h (h !!! a) h eq_refl). set (x := h !!! a) in *. change BN_BITS2 with 64. pose proof (bo_top x Ha) as Htop. pose proof (abs_bound x Ha) as Hab. pose proof (Z.mod_pos_bound n 64 ltac:(lia)) as Hrb. pose proof (Z.div_mod n 64 ltac:(lia)) as Edm.
  assert (Hp : 0 < 2 ^ n) by (apply Z.pow_pos_nonneg; lia). destruct ((bn_top x <=? n / 64) || (bn_top x =? 0)) eqn:E0.
  { assert (Ez : bn_abs x / 2 ^ n = 0). { apply Z.div_small. split; [lia|]. assert (bn_top x <= n / 64) by (apply orb_true_iff in E0 as [E%Z.leb_le|E%Z.eqb_eq]; [done|rewrite E; apply Z.div_pos; lia]). assert (radix (bn_top x) <= 2 ^ n) by (unfold radix; apply Z.pow_le_mono_r; lia). lia. }
    rewrite Ez. destruct (BN_zero_spec garbage Hmem r h Hr) as (h' & E & R). exists h', false. split; [done|]. split; [done|by right]. }
  apply orb_false_iff in E0 as [E1%Z.leb_gt E2%Z.eqb_neq]. assert (Hnw : 0 <= n / 64) by (apply Z.div_pos; lia). destruct (shr_value (n / 64) (n mod 64) x Ha ltac:(lia) Hrb) as (Hws & Hv & Hh). rewrite <- Edm in Hws, Hv, Hh. set (i := (BN_num_bits x - n + 63) / 64) in *. change (64 - 1) with 63. fold i.
  destruct (BN_num_bits_spec x Ha ltac:(lia)) as [_ Hbits]. assert (Hi : 0 <= i <= bn_top x) by (unfold i; dlia). set (ws := shr_all _ _ _) in *.
  assert (Hready : exists h1 b0, (when (negb (r =? a)) (upd r (with_neg (bn_neg x));; bn_wexpand garbage r i)) h = (Some tt, h1) /\ bn_ok b0 /\ grown b0 (h1 !!! r) i /\ bn_neg b0 = bn_neg x /\ grown x (h1 !!! a) 0 /\ forall q, q <> r -> h1 !!! q = h !!! q).
  { destruct (Z.eqb_spec r a) as [->|Hne]; cbn [negb when].
    - exists h, x. split; [done|]. fold x. split; [done|]. split; [split; [apply Ha|lia|done|done]|]. split; [done|]. split; [split; [apply Ha|lia|done|done]|done].
    - unfold mbind, M_bind, upd, modS. set (h0 := <[r := with_neg (bn_neg x) (h !!! r)]> h). assert (Hr0 : bn_ok (h0 !!! r)) by (apply (sign_first r (bn_neg x) r h); done).
      destruct (bn_wexpand_spec garbage Hmem r i h0 Hr0 ltac:(lia)) as (h1 & r1 & E & [Hc1 Hc2] & Hg). exists h1, (h0 !!! r). split; [done|]. split; [done|]. rewrite Hc1. split; [done|]. split; [unfold h0; by rewrite lookup_total_insert_eq|].
      assert (Hq : forall q, q <> r -> h1 !!! q = h !!! q) by (intros q Hq; rewrite Hc2 by done; unfold h0; by apply lookup_total_insert_ne). rewrite (Hq a) by done. fold x. split; [split; [apply Ha|lia|done|done]|done]. }
  destruct Hready as (h1 & b0 & E & Hb0 & Hg & Hneg & Hga & Ho). rewrite (bind_some _ _ h tt h1 E). destruct ((r =? a) && (n =? 0)) eqn:E3.
  { apply andb_true_iff in E3 as [->%Z.eqb_eq ->%Z.eqb_eq]. rewrite Z.eqb_refl in E. injection E as <-. exists h, (bn_neg x). rewrite Z.pow_0_r, Z.div_1_r. split; [done|]. split; [by split|by left]. }
  rewrite (bind_some (rd a) _ h1 (h1 !!! a) h1 eq_refl). destruct (gr_same _ _ _ Hga) as (Et & _ & _). rewrite Et. rewrite (slice_used x (h1 !!! a) 0 (n / 64) Ha Hga ltac:(lia)). change (if n mod 64 =? 0 then _ else _) with ws.
  unfold mbind, M_bind, put_words, upd, modS. exists (<[r := with_top i (with_d (overwrite (bn_d (h1 !!! r)) 0 ws) (h1 !!! r))]> h1), (bn_neg x). rewrite insert_insert_eq, lookup_total_insert_eq. split; [done|]. split; [|by left].
  set (r1 := h1 !!! r) in *. pose proof Hg as [[Gl Gw] [Gr _] _ (_ & Gn & _)]. destruct (written (bn_d r1) ws (words_of_self _ _ Hws) Gw ltac:(rewrite (proj1 Hws); lia)) as [W1 W2]. rewrite (proj1 Hws) in W2. rewrite Gl in W1.
  split; rewrite ?lookup_total_insert_eq; cbn [bn_neg with_top with_d]; [|by rewrite Gn|unfold bn_abs at 1, bn_used at 1; cbn [bn_d bn_top with_top with_d]; by rewrite W2|intros q Hq; rewrite lookup_total_insert_ne by done; by apply Ho].
  split; cbn [bn_d bn_top bn_dmax with_top with_d]; [done|lia| |by apply (flags_of_grown b0 r1 i)]. intros Hpos. apply (top_not_zero _ _ _ W1); [lia|]. rewrite W2. by apply Hh.
Qed.

(** ** One bit *)
Lemma lshift1_words_spec ap : forall c, Forall is_word ap -> 0 <= c <= 1 -> let '(rs, c') := lshift1_words ap c in words_of rs (zlen ap) /\ 0 <= c' <= 1 /\ bn_val rs + radix (zlen ap) * c' = 2 * bn_val ap + c.
Proof.
  intros c Ha. revert c. induction Ha as [|t ap Ht Ha IH]; intros c Hc; cbn [lshift1_words]; [rewrite bn_val_nil; change (radix (zlen [])) with 1; split; [done|lia]|].
  assert (Hd : t = t / 2 ^ 63 * 2 ^ 63 + t mod 2 ^ 63 /\ 0 <= t / 2 ^ 63 <= 1 /\ 0 <= t mod 2 ^ 63 < 2 ^ 63) by (unfold is_word in Ht; dlia). set (hi := t / 2 ^ 63) in *. set (lo := t mod 2 ^ 63) in *. destruct Hd as (Et & Hhi & Hlo).
  assert (Ebit : (if negb (Z.land t BN_TBIT =? 0) then 1 else 0) = hi).
  { assert (El : Z.land t BN_TBIT = hi * 2 ^ 63).
    { unfold hi. change BN_TBIT with (Z.shiftl (Z.ones 1) 63). rewrite <- Z.shiftl_mul_pow2 by lia. apply Z.bits_inj'. intros k Hk. rewrite Z.land_spec, !Z.shiftl_spec by lia. destruct (Z.ltb_spec k 63) as [Hlt|Hge]; [rewrite (Z.testbit_neg_r (Z.ones 1)), (Z.testbit_neg_r (t / 2 ^ 63)) by lia; apply andb_false_r|].
      rewrite <- Z.shiftr_div_pow2, Z.shiftr_spec by lia. replace (k - 63 + 63) with k by lia. destruct (Z.eqb_spec k 63) as [->|Hne]; [by rewrite andb_true_r|]. rewrite Z.ones_spec_high, andb_false_r by lia. symmetry. rewrite <- (Z.mod_small t (2 ^ 64)) by exact Ht. apply Z.mod_pow2_bits_high. lia. }
    rewrite El. assert (hi = 0 \/ hi = 1) as [-> | ->] by lia; done. }
  rewrite Ebit. specialize (IH hi ltac:(lia)). destruct (lshift1_words ap hi) as [rs c']. destruct IH as ([Hl Hw] & Hc' & E).
  assert (Ew : Z.land (Z.lor (wrap64 (Z.shiftl t 1)) c) BN_MASK2 = c + lo * 2).
  { assert (E2 : wrap64 (Z.shiftl t 1) = Z.shiftl lo 1) by (rewrite !Z.shiftl_mul_pow2 by lia; change (2 ^ 1) with 2; unfold wrap64; clear E Ebit; symmetry; apply (Z.mod_unique _ _ hi); lia). rewrite E2, Z.lor_comm, lor_shiftl by lia. apply land_MASK2. unfold is_word. lia. }
  rewrite Ew, zlen_cons, !bn_val_cons, radix_succ by apply zlen_nonneg. split; [split; [rewrite zlen_cons; lia|constructor; [unfold is_word; lia|done]]|]. split; [done|].
  transitivity (c + lo * 2 + 2 ^ 64 * (bn_val rs + radix (zlen ap) * c')); [ring|]. rewrite E, Et at 1. ring.
Qed.
Lemma BN_lshift1_spec r a h : bn_ok (h !!! r) -> bn_ok (h !!! a) -> bn_top (h !!! a) < BN_MAX_WORDS ->
  exists h', BN_lshift1 garbage r a h = (Some tt, h') /\ result h r h' (bn_neg (h !!! a)) (2 * bn_abs (h !!! a)).
Proof.
  intros Hr Ha Hmax. unfold BN_lshift1. rewrite (bind_some (rd a) _ h (h !!! a) h eq_refl). set (x := h !!! a) in *. pose proof (bo_top x Ha) as Htx.
  assert (Hready : exists h1 r1 b0, (if negb (r =? a) then upd r (with_neg (bn_neg x));; bn_wexpand garbage r (bn_top x + 1);; upd r (with_top (bn_top x)) else bn_wexpand garbage r (bn_top x + 1)) h = (Some tt, h1) /\
    h1 !!! r = with_top (bn_top x) r1 /\ bn_ok b0 /\ grown b0 r1 (bn_top x + 1) /\ bn_neg b0 = bn_neg x /\ bn_used (h1 !!! a) = bn_used x /\ bn_top (h1 !!! a) = bn_top x /\ forall q, q <> r -> h1 !!! q = h !!! q).
  { destruct (Z.eqb_spec r a) as [->|Hne]; cbn [negb].
    - destruct (bn_wexpand_spec garbage Hmem a (bn_top x + 1) h Ha ltac:(lia)) as (h1 & r1 & E & [C O] & G). exists h1, r1, x. split; [done|]. destruct (gr_same _ _ _ G) as (Et & _ & _). rewrite C. split; [destruct r1; cbn in *; by subst|]. split; [done|]. split; [done|]. split; [done|]. split; [by apply (grown_used x r1 (bn_top x + 1))|]. by split.
    - set (h0 := <[r := with_neg (bn_neg x) (h !!! r)]> h). rewrite (bind_some (upd r (with_neg (bn_neg x))) _ h tt h0 eq_refl). assert (Hr0 : bn_ok (h0 !!! r)) by (apply (sign_first r (bn_neg x) r h); done).
      destruct (bn_wexpand_spec garbage Hmem r (bn_top x + 1) h0 Hr0 ltac:(lia)) as (h1 & r1 & E & [C O] & G). rewrite (bind_some _ _ h0 tt h1 E). exists (<[r := with_top (bn_top x) r1]> h1), r1, (h0 !!! r). split; [unfold upd, modS; by rewrite C|].
      assert (Hq : forall q, q <> r -> <[r := with_top (bn_top x) r1]> h1 !!! q = h !!! q) by (intros q Hq; rewrite lookup_total_insert_ne, O by done; unfold h0; by apply lookup_total_insert_ne).
      rewrite lookup_total_insert_eq. split; [done|]. split; [done|]. split; [done|]. split; [unfold h0; by rewrite lookup_total_insert_eq|]. rewrite (Hq a) by done. done. }
  destruct Hready as (h1 & r1 & b0 & E1 & C1 & Hb0 & Hg & Hneg & Eu & Et & Ho). rewrite (bind_some _ _ h tt h1 E1), (bind_some (rd a) _ h1 (h1 !!! a) h1 eq_refl). change (ztake (bn_top (h1 !!! a)) (bn_d (h1 !!! a))) with (bn_used (h1 !!! a)). rewrite Eu, Et.
  pose proof (used_words x Ha) as [Ux Uw]. pose proof (lshift1_words_spec (bn_used x) 0 Uw ltac:(lia)) as Hs. destruct (lshift1_words (bn_used x) 0) as [rs c]. rewrite Ux in Hs. destruct Hs as (Hrs & Hc & Ev). fold (bn_abs x) in Ev. rewrite Z.add_0_r in Ev.
  pose proof Hg as [[Gl Gw] [Gr _] _ (_ & Gn & _)]. set (d := overwrite (bn_d r1) 0 rs). set (h2 := <[r := with_d d (with_top (bn_top x) r1)]> h1). rewrite (bind_some (put_words r 0 rs) _ h1 tt h2) by (unfold put_words, upd, modS; by rewrite C1).
  set (d' := if c =? 0 then d else <[Z.to_nat (bn_top x) := 1]> d). set (r3 := with_d d' (with_top (bn_top x + c) r1)). exists (<[r := r3]> h1). split.
  { destruct (Z.eqb_spec c 0) as [->|Hc0]; cbn [negb when]; [unfold r3, d', h2; rewrite Z.add_0_r; done|]. assert (c = 1) as -> by lia. unfold mbind, M_bind, set_w, upd, modS, h2. by rewrite !insert_insert_eq, !lookup_total_insert_eq. }
  destruct (written (bn_d r1) rs (words_of_self _ _ Hrs) Gw ltac:(rewrite (proj1 Hrs); lia)) as [W1 W2]. rewrite (proj1 Hrs) in W2. rewrite Gl in W1. fold d in W1, W2.
  assert (Hd' : words_of d' (bn_dmax r1) /\ bn_val (ztake (bn_top x + c) d') = 2 * bn_abs x).
  { unfold d'. destruct (Z.eqb_spec c 0) as [->|Hc0]; [rewrite Z.add_0_r, W2; split; [done|lia]|]. assert (c = 1) as -> by lia. destruct W1 as [L1 F1]. split; [split; [by rewrite zlen_insert|by apply Forall_insert]|].
    rewrite znth_split by (rewrite zlen_insert; lia). rewrite insert_overwrite by lia. unfold overwrite. assert (Lt : zlen (ztake (bn_top x) d) = bn_top x) by (rewrite zlen_ztake; lia). rewrite ztake_app_eq by done. cbn [app]. rewrite znth_app_at, W2 by done. lia. }
  destruct Hd' as [Hdw Hdv]. pose proof (abs_bound x Ha) as Hxb. split; rewrite ?lookup_total_insert_eq; [|unfold r3; cbn; by rewrite Gn|exact Hdv|intros q Hq; rewrite lookup_total_insert_ne by done; by apply Ho].
  split; cbn [bn_d bn_top bn_dmax r3 with_d with_top]; [done|lia| |by apply (flags_of_grown b0 r1 (bn_top x + 1))]. intros Hpos. apply (top_not_zero _ _ _ Hdw); [lia|]. rewrite Hdv.
  assert (c = 0 \/ c = 1) as [-> | ->] by lia; [rewrite Z.add_0_r; pose proof (abs_lower x Ha ltac:(lia)); lia|]. replace (bn_top x + 1 - 1) with (bn_top x) by lia. pose proof (words_bound _ _ Hrs). lia.
Qed.
End Shift.
(** -1 shifted down by a bit is a zero with a sign. *)
Lemma BN_rshift_negative_zero : exists h, @BN_rshift ample (fun _ _ => 0) 2 1 1 {[ 1 := mkBn [1] 1 1 true 0 ]} = (Some tt, h) /\ bn_top (h !!! 2) = 0 /\ bn_neg (h !!! 2) = true.
Proof. exists (snd (@BN_rshift ample (fun _ _ => 0) 2 1 1 {[ 1 := mkBn [1] 1 1 true 0 ]})). vm_compute. done. Qed.
