(* ===== verification/BnDivision.v ===== *)
(** * [BN_div] divides

    The numbers are shifted, the digits are found from the highest one down, and what is left is shifted back. *)
From S2P Require Import Prelude Compat Words BnWord BnMul BnMulSpec Bn BnSpec BnCtx BnCtxSpec BnArith BnDiv BnDivSpec BnShift.

(** The shifted dividend [X * 2^64] and divisor [Y]; the words in use of the dividend may start with a zero. *)
Record prepared (sn sd : BIGNUM) (nb : bool) (X Y : Z) : Prop := {
  pr_div : bn_ok sd /\ normalised (bn_used sd) (bn_top sd) /\ bn_abs sd = Y;
  pr_num : words_of (bn_d sn) (bn_dmax sn) /\ bn_top sd < bn_top sn <= bn_dmax sn /\ BN_get_flags sn BN_FLG_STATIC_DATA = false /\ bn_neg sn = false;
  pr_value : bn_val (bn_used sn) = 2 ^ 64 * X;
  pr_constant : if nb then bn_top sd + 2 <= bn_top sn /\ znth (bn_d sn) (bn_top sn - 1) = 0 else Y <= X /\ radix (bn_top sn - 1) <= bn_val (bn_used sn)
}.
(** Its words: a zero, those below the first window, the window. *)
Lemma dividend_words sn sd nb X Y : prepared sn sd nb X Y -> let loop := bn_top sn - bn_top sd in
  exists m0 W hi, bn_d sn = (0 :: m0) ++ W ++ hi /\ words_of m0 (loop - 1) /\ words_of W (bn_top sd) /\ bn_val m0 + radix (loop - 1) * bn_val W = X.
Proof.
  intros [[Hd1 [Hd2 Hd3]] (Hn1 & Hn2 & _) Hv _] loop. assert (Hdn : 0 < bn_top sd) by apply Hd2. pose proof (words_take _ _ (bn_top sn) Hn1 ltac:(lia)) as Hu. change (ztake (bn_top sn) (bn_d sn)) with (bn_used sn) in Hu.
  destruct (words_cons _ _ Hu ltac:(lia)) as (w0 & mid & E & Hw0 & Hmid). rewrite E, bn_val_cons in Hv. assert (w0 = 0) as -> by (unfold is_word in Hw0; lia). assert (Em : bn_val mid = X) by lia.
  exists (ztake (loop - 1) mid), (zdrop (loop - 1) mid), (zdrop (bn_top sn) (bn_d sn)). split; [|split; [|split]].
  - rewrite <- (ztake_zdrop (bn_top sn) (bn_d sn)) at 1. change (ztake (bn_top sn) (bn_d sn)) with (bn_used sn). rewrite E. rewrite app_assoc. f_equal. cbn [app]. by rewrite ztake_zdrop.
  - apply (words_take mid (bn_top sn - 1)); [done|unfold loop; lia].
  - pose proof (words_drop mid _ (loop - 1) Hmid ltac:(unfold loop; lia)) as Hw. by replace (bn_top sn - 1 - (loop - 1)) with (bn_top sd) in Hw by (unfold loop; lia).
  - rewrite <- Em. symmetry. apply bn_val_split. destruct Hmid. unfold loop. lia.
Qed.

Section Division.
Context `{Allocator} (garbage : Z -> Z -> Z) (Hmem : forall n, malloc_ok n = true).

(** ** Normalisation *)
Lemma normal_divisor y sd s : bn_ok y -> bn_ok sd -> 0 < bn_top y -> s = 64 - BN_num_bits y mod 64 -> bn_abs sd = bn_abs y * 2 ^ s -> normalised (bn_used sd) (bn_top sd) /\ bn_top sd <= bn_top y + 1.
Proof.
  intros Hy Hsd Hty Es Ev. destruct (BN_num_bits_spec y Hy Hty) as [[Hb1 Hb2] Hb3]. set (b := BN_num_bits y) in *. assert (Hs : 1 <= s <= 64) by (rewrite Es; dlia). pose proof (bo_top y Hy) as Hty2.
  assert (Em : exists m, b + s = 64 * m) by (exists (b / 64 + 1); rewrite Es; dlia). destruct Em as [m Em]. assert (Hp : 0 < 2 ^ s) by (apply Z.pow_pos_nonneg; lia).
  assert (Hv : 2 ^ 63 * radix (m - 1) <= bn_abs sd < radix m).
  { rewrite Ev. unfold radix. rewrite <- Em. replace (2 ^ 63 * 2 ^ (64 * (m - 1))) with (2 ^ (b - 1) * 2 ^ s) by (rewrite <- !Z.pow_add_r by lia; f_equal; lia). rewrite Z.pow_add_r by lia. split; [apply Z.mul_le_mono_nonneg_r; lia|by apply Z.mul_lt_mono_pos_r]. }
  pose proof (bo_top sd Hsd) as Htop. assert (Hpos : 0 < bn_top sd) by (destruct (decide (bn_top sd = 0)) as [E0|]; [|lia]; apply (abs_zero sd Hsd) in E0; pose proof (radix_pos (m - 1)); lia).
  pose proof (abs_lower sd Hsd Hpos) as Hl. pose proof (abs_bound sd Hsd) as Hu. pose proof (radix_pos (m - 1) ltac:(lia)) as HR. assert (Et : bn_top sd = m).
  { unfold radix in *. assert (64 * (bn_top sd - 1) < 64 * m) by (apply (Z.pow_lt_mono_r_iff 2); lia). assert (64 * (m - 1) < 64 * bn_top sd) by (apply (Z.pow_lt_mono_r_iff 2); lia). lia. }
  split; [|lia]. pose proof (used_words sd Hsd) as Us. split; [done|]. split; [done|]. rewrite Et in *. pose proof (words_bound _ _ (words_take _ _ (m - 1) Us ltac:(lia))) as Hlo.
  assert (Es2 : bn_val (bn_used sd) = bn_val (ztake (m - 1) (bn_used sd)) + radix (m - 1) * znth (bn_used sd) (m - 1)) by (rewrite <- znth_split by (destruct Us; lia); f_equal; symmetry; apply ztake_ge; destruct Us; lia).
  change (bn_abs sd) with (bn_val (bn_used sd)) in Hv. rewrite Es2 in Hv. apply Z.nlt_ge. intros Hlt. assert (radix (m - 1) * (znth (bn_used sd) (m - 1) + 1) <= radix (m - 1) * 2 ^ 63) by (apply Z.mul_le_mono_nonneg_l; lia). lia.
Qed.
(** A number with zeros above it. *)
Lemma padded b b1 k : bn_ok b -> grown b b1 k -> bn_top b < k -> let b2 := with_top k (with_d (overwrite (bn_d b1) (bn_top b) (zeros (k - bn_top b))) b1) in
  words_of (bn_d b2) (bn_dmax b2) /\ bn_used b2 = bn_used b ++ zeros (k - bn_top b) /\ znth (bn_d b2) (k - 1) = 0.
Proof.
  intros Hb Hg Hk b2. pose proof (bo_top b Hb) as Ht. pose proof Hg as [[Gl Gw] [Gr _] Gu _]. set (z := zeros _) in *. assert (Hz : zlen z = k - bn_top b) by (apply zlen_zeros; lia).
  assert (Ed : bn_d b2 = bn_used b ++ z ++ zdrop k (bn_d b1)) by (unfold b2, overwrite; cbn [bn_d with_top with_d]; rewrite Hz, Gu; do 3 f_equal; lia).
  pose proof (used_words b Hb) as [U1 U2]. assert (Eu : zlen (bn_used b ++ z) = k) by (rewrite zlen_app; lia). split; [|split].
  - split; [unfold b2; cbn [bn_d bn_dmax with_top with_d]; rewrite zlen_overwrite; lia|]. rewrite Ed, !Forall_app. split; [done|]. split; [apply zeros_words|by apply Forall_zdrop].
  - unfold bn_used at 1. rewrite Ed, app_assoc. cbn [bn_top b2 with_top]. by apply ztake_app_eq.
  - rewrite Ed. unfold z. replace (k - bn_top b) with (k - bn_top b - 1 + 1) by lia. unfold zeros at 1. replace (Z.to_nat (k - bn_top b - 1 + 1)) with (Z.to_nat (k - bn_top b - 1) + 1)%nat by lia. rewrite replicate_add. rewrite <- !app_assoc. cbn [replicate app]. rewrite app_assoc.
    apply znth_app_at. rewrite zlen_app, zlen_replicate. lia.
Qed.
Lemma prepared_padded sn sd X Y b1 k : bn_ok sn -> bn_neg sn = false -> bn_abs sn = 2 ^ 64 * X -> bn_ok sd -> normalised (bn_used sd) (bn_top sd) -> bn_abs sd = Y ->
  grown sn b1 k -> bn_top sn < k -> bn_top sd + 2 <= k -> prepared (with_top k (with_d (overwrite (bn_d b1) (bn_top sn) (zeros (k - bn_top sn))) b1)) sd true X Y.
Proof.
  intros Hsn Hneg HX Hsd Hnorm HY Hg Hk1 Hk2. destruct (padded sn b1 k Hsn Hg Hk1) as (P1 & P2 & P3). pose proof (bo_top sn Hsn). pose proof Hg as [_ [Gr _] _ (_ & Gn & _)]. split; [done| | |done].
  - split; [exact P1|]. split; [cbn; lia|]. split; [by apply (flags_of_grown sn b1 k)|]. cbn. by rewrite Gn.
  - rewrite P2, bn_val_app, bn_val_zeros, Z.mul_0_r, Z.add_0_r. exact HX.
Qed.
Lemma div_normalise_spec h snum sdiv num divisor nb : bn_ok (h !!! snum) -> bn_ok (h !!! sdiv) -> bn_ok (h !!! num) -> bn_ok (h !!! divisor) ->
  snum <> sdiv -> snum <> num -> snum <> divisor -> sdiv <> num -> sdiv <> divisor -> 0 < bn_top (h !!! divisor) < 2 ^ 20 -> bn_top (h !!! num) < 2 ^ 20 -> (nb = false -> bn_abs (h !!! divisor) <= bn_abs (h !!! num)) ->
  exists h' s, div_normalise garbage snum sdiv num divisor nb h = (Some (s + 64), h') /\ 1 <= s <= 64 /\ prepared (h' !!! snum) (h' !!! sdiv) nb (bn_abs (h !!! num) * 2 ^ s) (bn_abs (h !!! divisor) * 2 ^ s) /\
    (forall q, q <> snum -> q <> sdiv -> h' !!! q = h !!! q) /\ bn_top (h' !!! snum) < 2 ^ 21.
Proof.
  intros Hsn Hsd Hx Hy N1 N2 N3 N4 N5 Hty Htx Hge. set (x := h !!! num) in *. set (y := h !!! divisor) in *. unfold div_normalise. rewrite (bind_some (rd divisor) _ h y h eq_refl). change BN_BITS2 with 64. set (s := 64 - BN_num_bits y mod 64).
  assert (Hs : 1 <= s <= 64) by (unfold s; dlia). pose proof (bo_top x Hx) as Hpx. assert (Hmax : 2 ^ 20 + 2 ^ 20 <= BN_MAX_WORDS) by (change BN_MAX_WORDS with (2 ^ 23 - 1); lia).
  destruct (BN_lshift_spec garbage Hmem sdiv divisor s h Hsd Hy ltac:(lia) ltac:(fold y; dlia)) as (h1 & E1 & R1). rewrite (bind_some _ _ h tt h1 E1). pose proof R1 as [Ok1 _ V1 O1]. fold y in V1.
  set (h2 := <[sdiv := with_neg false (h1 !!! sdiv)]> h1). rewrite (bind_some (upd sdiv (with_neg false)) _ h1 tt h2 eq_refl).
  assert (S2 : h2 !!! sdiv = with_neg false (h1 !!! sdiv)) by apply lookup_total_insert_eq. assert (O2 : forall q, q <> sdiv -> h2 !!! q = h !!! q) by (intros q Hq; unfold h2; rewrite lookup_total_insert_ne by done; by apply O1).
  assert (Ex2 : h2 !!! num = x) by (apply O2; done).
  destruct (BN_lshift_spec garbage Hmem snum num (s + 64) h2 ltac:(rewrite O2 by done; done) ltac:(by rewrite Ex2) ltac:(lia) ltac:(rewrite Ex2; dlia)) as (h3 & E3 & [Ok3 _ V3 O3]). rewrite Ex2 in V3. rewrite (bind_some _ _ h2 tt h3 E3).
  set (sn := with_neg false (h3 !!! snum)). set (h4 := <[snum := sn]> h3). rewrite (bind_some (upd snum (with_neg false)) _ h3 tt h4 eq_refl).
  assert (S4 : h4 !!! snum = sn) by apply lookup_total_insert_eq. assert (O4 : forall q, q <> snum -> h4 !!! q = h2 !!! q) by (intros q Hq; unfold h4; rewrite lookup_total_insert_ne by done; by apply O3).
  assert (Hsnok : bn_ok sn) by (by apply with_neg_ok). set (sd := with_neg false (h1 !!! sdiv)) in *. assert (Hsdok : bn_ok sd) by (by apply with_neg_ok). assert (D4 : h4 !!! sdiv = sd) by (rewrite O4 by done; exact S2).
  assert (Vsn : bn_abs sn = 2 ^ 64 * (bn_abs x * 2 ^ s)) by (change (bn_abs sn) with (bn_abs (h3 !!! snum)); rewrite V3, Z.pow_add_r by lia; ring). assert (Vsd : bn_abs sd = bn_abs y * 2 ^ s) by exact V1.
  destruct (normal_divisor y sd s Hy Hsdok ltac:(lia) eq_refl Vsd) as [Hnorm Htsd]. rewrite (bind_some (rd snum) _ h4 sn h4) by (unfold rd; by rewrite S4). rewrite (bind_some (rd sdiv) _ h4 sd h4) by (unfold rd; by rewrite D4).
  pose proof (bo_top sn Hsnok) as Htsn. pose proof (abs_bound x Hx) as Hxb. assert (Hp : 0 < 2 ^ s) by (apply Z.pow_pos_nonneg; lia).
  assert (Htsn2 : bn_top sn <= bn_top x + 3).
  { apply top_bound; [done|lia|]. rewrite Vsn. replace (bn_top x + 3) with (1 + (1 + (1 + bn_top x))) by lia. rewrite !radix_succ by lia. assert (2 ^ s <= 2 ^ 64) by (apply Z.pow_le_mono_r; lia). assert (bn_abs x * 2 ^ s <= bn_abs x * 2 ^ 64) by (apply Z.mul_le_mono_nonneg_l; lia). lia. }
  destruct nb; cbn [when].
  - assert (Hfin : forall m k, bn_top sn < k -> bn_top sd + 2 <= k -> k <= 2 ^ 20 + 5 ->
      (forall b1 h5, grown sn b1 k -> h5 !!! snum = b1 -> exists h6, m h5 = (Some tt, h6) /\ changed snum h5 (with_top k (with_d (overwrite (bn_d b1) (bn_top sn) (zeros (k - bn_top sn))) b1)) h6) ->
      exists h' s', ((bn_wexpand garbage snum k;; m);; mret (s + 64)) h4 = (Some (s' + 64), h') /\ 1 <= s' <= 64 /\ prepared (h' !!! snum) (h' !!! sdiv) true (bn_abs x * 2 ^ s') (bn_abs y * 2 ^ s') /\
        (forall q, q <> snum -> q <> sdiv -> h' !!! q = h !!! q) /\ bn_top (h' !!! snum) < 2 ^ 21).
    { intros m k Hk1 Hk2 Hk3 Hm. destruct (bn_wexpand_spec garbage Hmem snum k h4 ltac:(by rewrite S4) ltac:(lia)) as (h5 & b1 & E5 & [C5 O5] & G5). rewrite S4 in G5.
      destruct (Hm b1 h5 G5 C5) as (h6 & E6 & C6 & O6). assert (E56 : (bn_wexpand garbage snum k;; m) h4 = (Some tt, h6)) by (by rewrite (bind_some _ _ h4 tt h5 E5)). rewrite (bind_some _ _ h4 tt h6 E56). exists h6, s. split; [done|]. split; [done|]. rewrite C6, (O6 sdiv), (O5 sdiv), D4 by done. split; [by apply prepared_padded|]. split; [|cbn; lia].
      intros q Hq1 Hq2. rewrite O6, O5, O4 by done. by apply O2. }
    destruct (Z.leb_spec (bn_top sn) (bn_top sd + 1)) as [Hle|Hgt].
    + apply (Hfin (put_words snum (bn_top sn) (zeros (bn_top sd + 2 - bn_top sn));; upd snum (with_top (bn_top sd + 2))) (bn_top sd + 2)); [lia|lia|lia|]. intros b1 h5 G5 C5. unfold mbind, M_bind, put_words, upd, modS. eexists. split; [reflexivity|].
      rewrite insert_insert_eq, lookup_total_insert_eq, C5. apply changed_insert.
    + apply (Hfin (set_w snum (bn_top sn) 0;; upd snum (fun z => with_top (bn_top z + 1) z)) (bn_top sn + 1)); [lia|lia|lia|]. intros b1 h5 G5 C5. unfold mbind, M_bind, set_w, upd, modS. eexists. split; [reflexivity|].
      rewrite insert_insert_eq, lookup_total_insert_eq, C5. pose proof G5 as [[Gl _] [Gr _] _ (Gt & _)]. rewrite insert_overwrite by lia. cbn [bn_top with_d]. rewrite Gt. replace (bn_top sn + 1 - bn_top sn) with 1 by lia. apply changed_insert.
  - exists h4, s. split; [done|]. split; [done|]. split; [|split; [|rewrite S4; lia]].
    2: { intros q Hq1 Hq2. rewrite O4 by done. by apply O2. }
    rewrite S4, D4. specialize (Hge eq_refl). assert (HYX : bn_abs y * 2 ^ s <= bn_abs x * 2 ^ s) by (apply Z.mul_le_mono_nonneg_r; lia).
    pose proof (abs_lower sd Hsdok ltac:(apply Hnorm)) as Hlow. rewrite Vsd in Hlow. assert (Hlt : bn_top sd < bn_top sn).
    { apply Z.nle_gt. intros Hle. pose proof (abs_bound sn Hsnok) as Hb. rewrite Vsn in Hb. pose proof (radix_le (bn_top sn) (bn_top sd) ltac:(lia)). assert (Hr : radix (bn_top sd) = 2 ^ 64 * radix (bn_top sd - 1)) by (rewrite <- radix_succ by (destruct Hnorm as (_ & ? & _); lia); f_equal; lia). lia. }
    split; [split; [done|split; [exact Hnorm|exact Vsd]]|split; [apply Hsnok|split; [lia|split; [apply Hsnok|done]]]|exact Vsn|]. split; [done|]. apply abs_lower; [done|destruct Hnorm as (_ & ? & _); lia].
Qed.

(** ** The first digit *)
Lemma first_digit_spec h sn sd nb X Y m0 W hi snum res r0 : let loop := bn_top sn - bn_top sd in let div_n := bn_top sd in
  prepared sn sd nb X Y -> bn_d sn = (0 :: m0) ++ W ++ hi -> words_of m0 (loop - 1) -> words_of W div_n -> h !!! snum = sn -> res <> snum ->
  h !!! res = r0 -> words_of (bn_d r0) (bn_dmax r0) -> loop + 1 <= bn_dmax r0 -> bn_top r0 = loop - bit nb ->
  let wnum := mkBn (zdrop loop (bn_d sn)) div_n (bn_dmax sn - loop) false (Z.lor (bn_flags sn) BN_FLG_STATIC_DATA) in
  exists h' W' t d, (if nb then mret tt
    else if 0 <=? BN_ucmp wnum sd then put_words snum loop (fst (bn_sub_words (bn_d wnum) (bn_d sd) div_n));; set_w res (loop - 1) 1
    else upd res (fun z => with_top (bn_top z - 1) z)) h = (Some tt, h') /\
    h' !!! snum = with_d ((0 :: m0) ++ W' ++ hi) sn /\ h' !!! res = with_top (loop - 1 + t) (with_d d r0) /\ (forall q, q <> snum -> q <> res -> h' !!! q = h !!! q) /\
    words_of W' div_n /\ bn_val W' + t * Y = bn_val W /\ bn_val W' < Y /\ words_of d (bn_dmax r0) /\ (t = 0 \/ t = 1 /\ znth d (loop - 1) = 1).
Proof.
  intros loop div_n Hp Ed Hm0 HW Es Hne Er Hwr Hroom Htop wnum. pose proof Hp as [(Hsd & Hnorm & HY) (Hn1 & Hn2 & _) _ Hnb]. pose proof (normalised_lower _ _ Hnorm) as HYl. fold (bn_abs sd) in HYl. rewrite HY in HYl. assert (Hdn : 0 < div_n) by apply Hnorm.
  pose proof (words_bound _ _ HW) as HWb. assert (Er2 : radix (bn_top sd) = 2 ^ 64 * radix (bn_top sd - 1)) by (rewrite <- radix_succ by (unfold div_n in *; lia); f_equal; lia). fold div_n in HYl, Er2. pose proof (radix_pos (div_n - 1) ltac:(lia)) as HR.
  assert (Hz : zlen (0 :: m0) = loop) by (rewrite zlen_cons; destruct Hm0; lia). assert (Esn : with_d ((0 :: m0) ++ W ++ hi) sn = sn) by (rewrite <- Ed; by destruct sn). assert (Hwn : bn_d wnum = W ++ hi) by (cbn [bn_d wnum]; rewrite Ed; by apply zdrop_app_eq).
  destruct nb; cbn [bit] in Htop.
  - destruct Hnb as [_ Hz0]. destruct (words_snoc W _ HW Hdn) as (W1 & w & -> & HW1 & Hw). assert (w = 0) as ->.
    { rewrite <- Hz0, Ed. symmetry. rewrite <- app_assoc. cbn [app]. rewrite app_comm_cons, app_assoc. apply znth_app_at. rewrite zlen_app, Hz, (proj1 HW1). unfold loop, div_n. lia. }
    exists h, (W1 ++ [0]), 0, (bn_d r0). split; [done|]. rewrite Esn, Er. split; [done|]. split; [destruct r0; cbn in *; unfold with_top, with_d; cbn; f_equal; lia|]. split; [done|]. split; [done|]. split; [lia|].
    split; [rewrite bn_val_app, bn_val_single; pose proof (words_bound _ _ HW1); lia|]. split; [done|by left].
  - assert (Hc : BN_ucmp wnum sd = Z.sgn (bn_val W - Y)).
    { unfold BN_ucmp. cbn [bn_top wnum]. replace (div_n - bn_top sd) with 0 by (unfold div_n; lia). cbn [Z.eqb negb]. rewrite first_difference_words. destruct (bo_len sd Hsd) as [Ls Ws]. pose proof (bo_top sd Hsd). rewrite bn_cmp_words_spec.
      - rewrite Hwn, ztake_app_eq by (destruct HW; lia). by rewrite <- HY.
      - lia.
      - rewrite Hwn, zlen_app. pose proof (zlen_nonneg hi). destruct HW. lia.
      - unfold div_n. lia.
      - rewrite Hwn. destruct Hn1 as [_ Hw]. rewrite Ed, Forall_app in Hw. apply Hw.
      - done. }
    rewrite Hc. destruct (Z.leb_spec 0 (Z.sgn (bn_val W - Y))) as [Hle|Hlt].
    + assert (HYW : Y <= bn_val W) by (destruct (Z.sgn_spec (bn_val W - Y)) as [[? ?]|[[? ?]|[? ?]]]; lia). rewrite Hwn, sub_words_take, (ztake_app_eq div_n W) by (destruct HW; done). change (ztake div_n (bn_d sd)) with (bn_used sd).
      pose proof (bn_sub_words_spec W (bn_used sd) div_n HW (used_words sd Hsd)) as Hs. destruct (bn_sub_words W _ _) as [W' b]. destruct Hs as (HW' & Hb & Ev). fold (bn_abs sd) in Ev. rewrite HY in Ev. cbn [fst].
      pose proof (words_bound _ _ HW') as HWb'. assert (b = 0) as -> by (assert (b = 0 \/ b = 1) as [-> | ->] by lia; lia).
      exists (<[res := with_d (<[Z.to_nat (loop - 1) := 1]> (bn_d r0)) r0]> (<[snum := with_d ((0 :: m0) ++ W' ++ hi) sn]> h)), W', 1, (<[Z.to_nat (loop - 1) := 1]> (bn_d r0)). split.
      { unfold mbind, M_bind, put_words, set_w, upd, modS. rewrite Es, lookup_total_insert_ne, Er by done. rewrite Ed, overwrite_app by (destruct HW, HW'; lia). done. }
      rewrite lookup_total_insert_ne, !lookup_total_insert_eq by done. split; [done|]. split; [destruct r0; cbn in *; unfold with_top, with_d; cbn; f_equal; lia|]. split; [intros q Hq1 Hq2; by rewrite !lookup_total_insert_ne|]. split; [done|]. split; [lia|]. split; [lia|].
      destruct Hwr as [Lr Wr]. split; [split; [by rewrite zlen_insert|by apply Forall_insert]|]. right. split; [done|]. rewrite insert_overwrite by (unfold loop in *; lia). unfold overwrite. cbn [app].
      apply znth_app_at. rewrite zlen_ztake by (unfold loop; lia). unfold loop in *. lia.
    + exists (<[res := with_top (loop - 1) r0]> h), W, 0, (bn_d r0). split; [unfold upd, modS; rewrite Er; do 3 f_equal; lia|]. rewrite lookup_total_insert_ne, lookup_total_insert_eq, Esn by done. split; [done|].
      split; [destruct r0; cbn in *; unfold with_top, with_d; cbn; f_equal; lia|]. split; [intros q Hq1 Hq2; by rewrite lookup_total_insert_ne|]. split; [done|]. split; [lia|].
      split; [destruct (Z.sgn_spec (bn_val W - Y)) as [[? ?]|[[? ?]|[? ?]]]; lia|]. split; [done|by left].
Qed.

(** ** The digits *)
(** The quotient in [z] before it is normalised. *)
Lemma quotient_words r d qs n t dmax : words_of d dmax -> words_of qs n -> n + 1 <= dmax -> bn_d r = overwrite d 0 qs -> bn_top r = n + t -> bn_dmax r = dmax -> t = 0 \/ t = 1 /\ znth d n = 1 ->
  words_of (bn_d r) (bn_dmax r) /\ bn_val (bn_used r) = bn_val qs + t * radix n.
Proof.
  intros [Ld Wd] Hqs Hn Ed Et Em Ht. pose proof Hqs as [Lq Wq]. destruct (written d qs (words_of_self _ _ Hqs) Wd ltac:(lia)) as [W1 W2]. rewrite Lq in W2. rewrite Em, Ed. split; [by rewrite <- Ld|]. unfold bn_used. rewrite Ed, Et. pose proof (zlen_nonneg qs). destruct Ht as [->|[-> H1]].
  - rewrite Z.add_0_r, W2. lia.
  - rewrite znth_split, W2 by (destruct W1; lia). assert (E1 : znth (overwrite d 0 qs) n = 1); [|rewrite E1; lia]. unfold overwrite. rewrite (ztake_nonpos 0) by lia. cbn [app]. rewrite Lq, Z.add_0_l.
    rewrite <- (ztake_zdrop n d) in H1 at 1. assert (Lt : zlen (ztake n d) = n) by (rewrite zlen_ztake; lia). destruct (zdrop n d) as [|v l] eqn:E; [pose proof (zlen_zdrop n d ltac:(lia)) as Hz; rewrite E in Hz; change (zlen []) with 0 in Hz; lia|].
    rewrite znth_app_at in H1 by lia. rewrite znth_app_at by lia. done.
Qed.
Lemma div_digits_spec h tmp snum sdiv res num divisor nb X Y : prepared (h !!! snum) (h !!! sdiv) nb X Y -> bn_ok (h !!! res) -> bn_ok (h !!! tmp) ->
  tmp <> snum -> tmp <> sdiv -> tmp <> res -> snum <> sdiv -> snum <> res -> sdiv <> res -> bn_top (h !!! snum) < 2 ^ 21 ->
  exists h', div_digits garbage tmp snum sdiv res num divisor nb h = (Some tt, h') /\
    (bn_ok (h' !!! snum) /\ bn_abs (h' !!! snum) = 2 ^ 64 * (X mod Y) /\ bn_neg (h' !!! snum) = false) /\ bn_ok (h' !!! tmp) /\ h' !!! sdiv = h !!! sdiv /\
    (let z := if nb then bn_correct_top (h' !!! res) else h' !!! res in bn_ok z /\ bn_abs z = X / Y /\ bn_neg z = xorb (bn_neg (h !!! num)) (bn_neg (h !!! divisor))) /\
    (forall q, q <> snum -> q <> tmp -> q <> res -> h' !!! q = h !!! q).
Proof.
  intros Hp Hres Htmp N1 N2 N3 N4 N5 N6 Hmax. set (sn := h !!! snum) in *. set (sd := h !!! sdiv) in *. destruct (dividend_words sn sd nb X Y Hp) as (m0 & W & hi & Ed & Hm0 & HW & HX). pose proof Hp as [(Hsd & Hnorm & HY) (Hn1 & Hn2 & Hnf & Hnn) _ Hnb].
  set (loop := bn_top sn - bn_top sd) in *. assert (Hdn : 0 < bn_top sd) by apply Hnorm. unfold div_digits. rewrite (bind_some (rd snum) _ h sn h eq_refl), (bind_some (rd sdiv) _ h sd h eq_refl). fold loop. cbv zeta.
  rewrite (bind_some (rd num) _ h _ h eq_refl), (bind_some (rd divisor) _ h _ h eq_refl). set (neg := xorb _ _). set (h1 := <[res := with_neg neg (h !!! res)]> h). rewrite (bind_some (upd res (with_neg neg)) _ h tt h1 eq_refl).
  assert (R1 : h1 !!! res = with_neg neg (h !!! res)) by apply lookup_total_insert_eq. assert (O1 : forall q, q <> res -> h1 !!! q = h !!! q) by (intros q Hq; by apply lookup_total_insert_ne).
  assert (Hb1 : 2 ^ 21 + 2 <= BN_MAX_WORDS) by (change BN_MAX_WORDS with (2 ^ 23 - 1); lia).
  destruct (bn_wexpand_spec garbage Hmem res (loop + 1) h1 ltac:(rewrite R1; by apply with_neg_ok) ltac:(lia)) as (h2 & r2 & E2 & [R2 O2] & G2). rewrite R1 in G2. rewrite (bind_some _ _ h1 tt h2 E2). pose proof G2 as [Gw [Gr _] _ (_ & Gn & _)]. cbn [bn_neg with_neg] in Gn.
  set (r3 := with_top (loop - bit nb) r2). set (h3 := <[res := r3]> h2). rewrite (bind_some (upd res (with_top (loop - bit nb))) _ h2 tt h3) by (unfold upd, modS, h3, r3; by rewrite R2).
  assert (R3 : h3 !!! res = r3) by apply lookup_total_insert_eq. assert (O3 : forall q, q <> res -> h3 !!! q = h !!! q) by (intros q Hq; unfold h3; rewrite lookup_total_insert_ne, O2 by done; by apply O1).
  destruct (bn_wexpand_spec garbage Hmem tmp (bn_top sd + 1) h3 ltac:(by rewrite O3) ltac:(lia)) as (h4 & t4 & E4 & [T4 O4] & G4). rewrite (O3 tmp) in G4 by done. rewrite (bind_some _ _ h3 tt h4 E4).
  assert (S4 : h4 !!! snum = sn) by (rewrite O4, O3 by done; done). assert (R4 : h4 !!! res = r3) by (by rewrite O4).
  destruct (first_digit_spec h4 sn sd nb X Y m0 W hi snum res r3 Hp Ed Hm0 HW S4 ltac:(done) R4 Gw Gr eq_refl) as (h5 & W' & t & d5 & E5 & S5 & R5 & O5 & HW' & Et & HWY & Hd5 & Ht). fold loop in E5, R5, Ht. rewrite (bind_some _ _ h4 tt h5 E5). clear E5.
  (* the quotient has a word *)
  assert (Hq0 : bn_top (h5 !!! res) <> 0). { rewrite R5. cbn [bn_top with_top]. destruct nb; [lia|]. destruct Hnb as [HYX _]. intros E0. assert (loop = 1 /\ t = 0) as [El ->] by lia. rewrite El in *. rewrite (words_nil m0 Hm0) in HX. change (radix (1 - 1)) with 1 in HX. rewrite bn_val_nil in HX. lia. }
  rewrite (bind_some (rd res) _ h5 _ h5 eq_refl). rewrite (proj2 (Z.eqb_neq _ _) Hq0). cbn [when]. rewrite (bind_some (mret tt) _ h5 tt h5 eq_refl), (bind_some (rd snum) _ h5 _ h5 eq_refl). rewrite S5. cbn [bn_d with_d].
  change (ztake (bn_top sd) (bn_d sd)) with (bn_used sd). assert (Elen : Z.of_nat (Z.to_nat (loop - 1)) = loop - 1) by lia. assert (Hmid : words_of (m0 ++ W') (Z.of_nat (Z.to_nat (loop - 1)) + bn_top sd)) by (rewrite Elen; by apply words_of_app).
  destruct (div_rounds_spec (Z.to_nat (loop - 1)) 0 (m0 ++ W') hi (bn_used sd) (bn_top sd) ltac:(done) Hmid Hnorm) as (mid & qs & Er & Hmid' & Hqs & Evr & Evq); [rewrite Elen, zdrop_app_eq by (destruct Hm0; lia); fold (bn_abs sd); lia|].
  fold (bn_abs sd) in Evr, Evq. rewrite HY in Evr, Evq. rewrite Elen in Hmid', Hqs. assert (Ea : (0 :: m0) ++ W' ++ hi = 0 :: (m0 ++ W') ++ hi) by (cbn [app]; by rewrite <- app_assoc). rewrite Ea, Er.
  pose proof (bo_top sd Hsd) as Htsd. pose proof (normalised_lower _ _ Hnorm) as HYl. fold (bn_abs sd) in HYl. rewrite HY in HYl. pose proof (radix_pos (bn_top sd - 1) ltac:(lia)) as HR. assert (HY0 : 0 < Y) by lia.
  assert (EX : X = bn_val (m0 ++ W') + radix (loop - 1) * t * Y) by (rewrite bn_val_app, (proj1 Hm0), <- HX, <- Et; ring). assert (EXq : X / Y = bn_val qs + t * radix (loop - 1)) by (rewrite EX, Z.div_add, Evq by lia; ring). assert (EXr : X mod Y = bn_val mid) by (rewrite EX, Z.mod_add, Evr by lia; done).
  set (sn' := bn_correct_top (with_d (0 :: mid ++ hi) (h5 !!! snum))). set (z := with_d (overwrite d5 0 qs) (h5 !!! res)). exists (<[snum := sn']> (<[res := z]> h5)). split.
  { unfold mbind, M_bind, put_words, upd, modS. replace (loop - 2 - (loop - 2)) with 0 by lia. rewrite (lookup_total_insert_ne _ snum res) by done. assert (Edz : bn_d (h5 !!! res) = d5) by (by rewrite R5). rewrite Edz. fold z.
    rewrite (lookup_total_insert_ne _ res snum), lookup_total_insert_eq by done. fold sn'. f_equal. rewrite (insert_insert_ne _ res snum), insert_insert_eq, (insert_insert_ne _ snum res) by done. done. }
  assert (Hs' : bn_ok sn' /\ bn_abs sn' = 2 ^ 64 * (X mod Y) /\ bn_neg sn' = false).
  { assert (Hhi : Forall is_word hi) by (destruct Hn1 as [_ Hw]; rewrite Ed, !Forall_app in Hw; apply Hw). assert (Ezm : zlen (0 :: mid) = bn_top sn) by (rewrite zlen_cons; destruct Hmid'; unfold loop in *; lia).
    assert (Ezd : zlen (bn_d sn) = bn_top sn + zlen hi) by (rewrite Ed, !zlen_app, zlen_cons; destruct Hm0, HW; unfold loop in *; lia).
    destruct (corrected_ok (with_d (0 :: mid ++ hi) sn)) as (C1 & C2 & C3); cbn [bn_d bn_dmax bn_top with_d].
    - split; [rewrite app_comm_cons, zlen_app, Ezm; destruct Hn1; lia|]. constructor; [done|]. apply Forall_app. split; [apply Hmid'|done].
    - lia.
    - done.
    - assert (Esn' : sn' = bn_correct_top (with_d (0 :: mid ++ hi) sn)) by (unfold sn'; rewrite S5; done). rewrite Esn'. split; [done|]. split; [|by rewrite C3].
      rewrite C2. unfold bn_used. cbn [bn_d bn_top with_d]. rewrite app_comm_cons, ztake_app_eq, bn_val_cons, EXr by done. lia. }
  assert (Hz : words_of (bn_d z) (bn_dmax z) /\ bn_val (bn_used z) = X / Y /\ bn_top z = loop - 1 + t /\ bn_dmax z = bn_dmax r3 /\ BN_get_flags z BN_FLG_STATIC_DATA = false /\ bn_neg z = neg).
  { unfold z. rewrite R5. destruct (quotient_words (with_d (overwrite d5 0 qs) (with_top (loop - 1 + t) (with_d d5 r3))) d5 qs (loop - 1) t (bn_dmax r3)) as [Q1 Q2]; try done; [unfold r3; cbn; lia|]. split; [done|]. split; [by rewrite Q2|]. split; [done|]. split; [done|].
    split; [exact (flags_of_grown _ r2 (loop + 1) (with_neg_ok _ neg Hres) G2)|by rewrite <- Gn]. }
  destruct Hz as (Z1 & Z2 & Z3 & Z4 & Z5 & Z6). rewrite lookup_total_insert_eq. split; [done|].
  rewrite (lookup_total_insert_ne _ snum tmp), (lookup_total_insert_ne _ res tmp), (O5 tmp), T4 by done. split; [by apply (grown_ok (h !!! tmp) t4 (bn_top sd + 1))|].
  rewrite (lookup_total_insert_ne _ snum sdiv), (lookup_total_insert_ne _ res sdiv), (O5 sdiv), O4, O3 by done. split; [done|]. split; [|intros q Hq1 Hq2 Hq3; rewrite !lookup_total_insert_ne, O5, O4 by done; by apply O3].
  rewrite (lookup_total_insert_ne _ snum res), lookup_total_insert_eq by done. assert (Htz : 0 <= bn_top z <= bn_dmax z) by (rewrite Z3, Z4; unfold r3; cbn; lia). destruct nb.
  - destruct (corrected_ok z Z1 Htz Z5) as (C1 & C2 & C3). split; [done|]. split; [by rewrite C2|by rewrite C3].
  - split; [|done]. split; [done|done| |done]. intros Hpos. apply (top_not_zero _ _ _ Z1); [lia|]. change (ztake (bn_top z) (bn_d z)) with (bn_used z). rewrite Z2. destruct Hnb as [HYX Hlow].
    apply Z.div_le_lower_bound; [done|]. rewrite (pr_value _ _ _ _ _ Hp) in Hlow. replace (bn_top sn - 1) with (1 + (bn_top sd + (loop - 2))) in Hlow by (unfold loop; lia). replace (bn_top z - 1) with (loop - 2 + t) by lia. destruct Ht as [->|[-> _]].
    + rewrite Z.add_0_r. assert (Hl2 : 0 <= loop - 2) by lia. rewrite radix_succ, radix_add in Hlow by lia. pose proof (radix_pos (loop - 2) Hl2). assert (Y * radix (loop - 2) <= radix (bn_top sd) * radix (loop - 2)) by (apply Z.mul_le_mono_nonneg_r; lia). lia.
    + replace (loop - 2 + 1) with (loop - 1) by lia. pose proof (words_bound _ _ Hmid). rewrite EX. replace (radix (loop - 1) * 1 * Y) with (Y * radix (loop - 1)) by ring. lia.
Qed.

(** ** Quotient and remainder *)
Lemma quot_value x y : bn_ok x -> bn_ok y -> bn_abs y <> 0 -> (if xorb (bn_neg x) (bn_neg y) then -1 else 1) * (bn_abs x / bn_abs y) = Z.quot (bn_value x) (bn_value y).
Proof.
  intros Hx Hy Hy0. pose proof (abs_bound x Hx). pose proof (abs_bound y Hy). unfold bn_value, bn_sign. rewrite <- Z.quot_div_nonneg by lia.
  destruct (bn_neg x), (bn_neg y); cbn [xorb]; rewrite ?Z.mul_1_l; change (-1 * bn_abs x) with (- bn_abs x); change (-1 * bn_abs y) with (- bn_abs y); rewrite ?Z.quot_opp_opp, ?Z.quot_opp_l, ?Z.quot_opp_r by lia; lia.
Qed.
Lemma rem_value x y : bn_ok x -> bn_ok y -> bn_abs y <> 0 -> bn_sign x * (bn_abs x mod bn_abs y) = Z.rem (bn_value x) (bn_value y).
Proof.
  intros Hx Hy Hy0. pose proof (abs_bound x Hx). pose proof (abs_bound y Hy). unfold bn_value, bn_sign. rewrite <- Z.rem_mod_nonneg by lia.
  destruct (bn_neg x), (bn_neg y); rewrite ?Z.mul_1_l; change (-1 * bn_abs x) with (- bn_abs x); change (-1 * bn_abs y) with (- bn_abs y); rewrite ?Z.rem_opp_opp, ?Z.rem_opp_l, ?Z.rem_opp_r by lia; lia.
Qed.
(** What the optional results have to be. *)
Definition into (h : bn_store) (p : option Z) (v : Z) : Prop := match p with Some p => bn_ok (h !!! p) /\ bn_value (h !!! p) = v | None => True end.
(** No negative zero. *)
Definition proper (b : BIGNUM) : Prop := bn_top b = 0 -> bn_neg b = false.
Definition proper_at (h : bn_store) (p : option Z) : Prop := match p with Some p => proper (h !!! p) | None => True end.
Lemma remainder_into_spec h rm snum num s v : bn_ok (h !!! rm) -> bn_ok (h !!! snum) -> bn_abs (h !!! snum) = 2 ^ 64 * (v * 2 ^ s) -> 1 <= s -> bn_neg (h !!! snum) = false -> bn_top (h !!! snum) <= BN_MAX_WORDS -> 0 <= v ->
  exists h', remainder_into garbage rm snum num (s + 64) h = (Some tt, h') /\ bn_ok (h' !!! rm) /\ bn_value (h' !!! rm) = bn_sign (h !!! num) * v /\ proper (h' !!! rm) /\ forall q, q <> rm -> h' !!! q = h !!! q.
Proof.
  intros Hr Hs Hv Hs1 Hsn Hm Hv0. unfold remainder_into. rewrite (bind_some (rd num) _ h _ h eq_refl). cbv zeta. destruct (BN_rshift_spec garbage Hmem rm snum (s + 64) h Hr Hs ltac:(lia) Hm) as (h1 & neg & E1 & [R1 R2 R3 R4] & Hn).
  assert (Ev : bn_abs (h !!! snum) / 2 ^ (s + 64) = v) by (rewrite Hv, Z.pow_add_r by lia; assert (0 < 2 ^ s) by (apply Z.pow_pos_nonneg; lia); symmetry; apply (Z.div_unique _ _ v 0); lia). rewrite Ev in *.
  rewrite (bind_some _ _ h tt h1) by (unfold ignore; by rewrite E1). rewrite (bind_some (rd rm) _ h1 _ h1 eq_refl). unfold BN_is_zero. destruct (Z.eqb_spec (bn_top (h1 !!! rm)) 0) as [E0|E0]; cbn [negb when].
  - exists h1. split; [done|]. split; [done|]. split; [|split; [intros _; destruct Hn as [-> | ->]; congruence|done]]. apply (abs_zero _ R1) in E0. unfold bn_value. rewrite E0. rewrite R3 in E0. rewrite E0. lia.
  - exists (<[rm := with_neg (bn_neg (h !!! num)) (h1 !!! rm)]> h1). split; [done|]. rewrite lookup_total_insert_eq. split; [by apply with_neg_ok|]. split; [|split; [by intros ?|intros q Hq; rewrite lookup_total_insert_ne by done; by apply R4]].
    unfold bn_value, bn_sign. cbn [bn_neg with_neg]. change (bn_abs (with_neg _ ?z)) with (bn_abs z). by rewrite R3.
Qed.
Lemma neg_correct_top z : bn_neg (bn_correct_top z) = bn_neg z.
Proof. unfold bn_correct_top. by destruct (0 <? bn_top z). Qed.
(** The body of [BN_div] on the numbers alone. *)
Lemma div_store h tmp snum sdiv res rm num divisor nb : let x := h !!! num in let y := h !!! divisor in
  bn_ok (h !!! tmp) -> bn_ok (h !!! snum) -> bn_ok (h !!! sdiv) -> bn_ok (h !!! res) -> bn_ok x -> bn_ok y -> NoDup [tmp; snum; sdiv] ->
  (forall q, q ∈ [tmp; snum; sdiv] -> q <> res /\ q <> num /\ q <> divisor) -> (forall r, rm = Some r -> bn_ok (h !!! r) /\ r ∉ [tmp; snum; sdiv; res]) ->
  0 < bn_top y < 2 ^ 20 -> bn_top x < 2 ^ 20 -> (nb = false -> bn_abs y <= bn_abs x) -> (res = num -> rm = None \/ bn_neg y = false) ->
  exists h', (norm_shift ← div_normalise garbage snum sdiv num divisor nb; div_digits garbage tmp snum sdiv res num divisor nb;;
      match rm with Some rm => remainder_into garbage rm snum num norm_shift | None => mret tt end;; when nb (upd res bn_correct_top)) h = (Some tt, h') /\
    into h' (Some res) (Z.quot (bn_value x) (bn_value y)) /\ into h' rm (Z.rem (bn_value x) (bn_value y)) /\ proper_at h' rm /\
    (forall q, q ∈ [tmp; snum; sdiv] -> bn_ok (h' !!! q)) /\ (forall q, q ∉ [tmp; snum; sdiv; res] -> rm <> Some q -> h' !!! q = h !!! q).
Proof.
  intros x y Ht Hsn Hsd Hr Hx Hy Hnd Hne Hrm Hty Htx Hge Hsign. destruct (Hne tmp) as (N1 & N2 & N3); [rewrite !elem_of_cons; tauto|]. destruct (Hne snum) as (N4 & N5 & N6); [rewrite !elem_of_cons; tauto|]. destruct (Hne sdiv) as (N7 & N8 & N9); [rewrite !elem_of_cons; tauto|].
  assert (Nts : tmp <> snum /\ tmp <> sdiv /\ snum <> sdiv) by (rewrite !NoDup_cons, !not_elem_of_cons in Hnd; tauto). destruct Nts as (Nts & Ntd & Nsd).
  destruct (div_normalise_spec h snum sdiv num divisor nb) as (h1 & s & E1 & Hs & Hp & O1 & Hm1); try done. rewrite (bind_some _ _ h _ h1 E1). fold x y in Hp.
  destruct (div_digits_spec h1 tmp snum sdiv res num divisor nb _ _ Hp) as (h2 & E2 & (S1 & S2 & S3) & T2 & D2 & Q & O2); try done; [rewrite O1; done|rewrite O1; done|]. rewrite (bind_some _ _ h1 tt h2 E2). rewrite (O1 num), (O1 divisor) in Q by done. fold x y in Q.
  assert (Hp2 : 0 < 2 ^ s) by (apply Z.pow_pos_nonneg; lia). pose proof (abs_bound x Hx) as Hxb. pose proof (abs_bound y Hy) as Hyb. assert (Hy0 : bn_abs y <> 0) by (intros E; apply (abs_zero y Hy) in E; lia).
  rewrite Z.div_mul_cancel_r in Q by lia. rewrite Z.mul_mod_distr_r in S2 by lia. pose proof (Z.mod_pos_bound (bn_abs x) (bn_abs y) ltac:(lia)) as Hrem.
  set (z := if nb then _ else _) in Q. destruct Q as (Q1 & Q2 & Q3). assert (Qv : bn_value z = Z.quot (bn_value x) (bn_value y)) by (rewrite <- quot_value by done; unfold bn_value, bn_sign; by rewrite Q2, Q3).
  assert (Qn : bn_neg (h2 !!! res) = xorb (bn_neg x) (bn_neg y)) by (rewrite <- Q3; unfold z; destruct nb; [by rewrite neg_correct_top|done]).
  assert (Hm2 : bn_top (h2 !!! snum) <= BN_MAX_WORDS).
  { assert (bn_top (h2 !!! snum) <= 1 + (1 + bn_top y)); [|change BN_MAX_WORDS with (2 ^ 23 - 1); lia]. apply top_bound; [done|lia|]. rewrite S2, !radix_succ by lia. assert (2 ^ s <= 2 ^ 64) by (apply Z.pow_le_mono_r; lia).
    assert (bn_abs x mod bn_abs y * 2 ^ s <= bn_abs x mod bn_abs y * 2 ^ 64) by (apply Z.mul_le_mono_nonneg_l; lia). lia. }
  assert (Hrest : exists h3, (match rm with Some rm => remainder_into garbage rm snum num (s + 64) | None => mret tt end) h2 = (Some tt, h3) /\ (into h3 rm (Z.rem (bn_value x) (bn_value y)) /\ proper_at h3 rm) /\ forall q, rm <> Some q -> h3 !!! q = h2 !!! q).
  { destruct rm as [r|]; [|by exists h2]. destruct (Hrm r eq_refl) as [Or Hr4]. rewrite !not_elem_of_cons in Hr4. destruct Hr4 as (M1 & M2 & M3 & M4 & _).
    destruct (remainder_into_spec h2 r snum num s _ ltac:(rewrite O2, O1 by done; done) S1 S2 ltac:(lia) S3 Hm2 ltac:(lia)) as (h3 & E3 & Ok3 & V3 & P3 & O3). exists h3. split; [done|]. split; [|intros q Hq; apply O3; congruence]. split; [|exact P3]. split; [done|].
    rewrite V3, <- rem_value by done. f_equal. unfold bn_sign. destruct (decide (num = res)) as [E|Hnr]; [|by rewrite O2, O1 by done]. rewrite E, Qn. destruct (Hsign (eq_sym E)) as [?|Hpos]; [done|]. by rewrite Hpos, xorb_false_r. }
  destruct Hrest as (h3 & E3 & [Hinto Hprop] & O3). rewrite (bind_some _ _ h2 tt h3 E3).
  assert (Hres3 : h3 !!! res = h2 !!! res) by (apply O3; intros ->; destruct (Hrm res eq_refl) as [_ Hin]; rewrite !not_elem_of_cons in Hin; tauto).
  assert (Hsafe : forall q, q ∈ [tmp; snum; sdiv] -> bn_ok (h3 !!! q)).
  { intros q Hq. rewrite O3 by (intros ->; destruct (Hrm q eq_refl) as [_ Hin]; apply Hin; rewrite !elem_of_cons in Hq; rewrite !elem_of_cons; tauto). rewrite !elem_of_cons in Hq. destruct Hq as [->|[->|[->|Hq]]]; [done|done|rewrite D2; apply Hp|by apply not_elem_of_nil in Hq]. }
  assert (Hoth : forall q, q ∉ [tmp; snum; sdiv; res] -> rm <> Some q -> h3 !!! q = h !!! q) by (intros q Hq Hqr; rewrite !not_elem_of_cons in Hq; destruct Hq as (? & ? & ? & ? & _); rewrite O3, O2 by done; by apply O1).
  assert (Hinto' : forall h4, changed res h3 z h4 -> into h4 (Some res) (Z.quot (bn_value x) (bn_value y)) /\ into h4 rm (Z.rem (bn_value x) (bn_value y)) /\ proper_at h4 rm /\ (forall q, q ∈ [tmp; snum; sdiv] -> bn_ok (h4 !!! q)) /\ (forall q, q ∉ [tmp; snum; sdiv; res] -> rm <> Some q -> h4 !!! q = h !!! q)).
  { intros h4 [C1 C2]. split; [unfold into; by rewrite C1|]. assert (Hrm4 : into h4 rm (Z.rem (bn_value x) (bn_value y)) /\ proper_at h4 rm).
    2: { split; [apply Hrm4|]. split; [apply Hrm4|]. split; [intros q Hq; rewrite C2; [by apply Hsafe|by apply Hne]|intros q Hq Hqr; rewrite C2; [by apply Hoth|intros ->; apply Hq; rewrite !elem_of_cons; tauto]]. }
    destruct rm as [r|]; [|done]. destruct (Hrm r eq_refl) as [_ Hin]. cbn in Hinto, Hprop |- *. rewrite C2; [done|intros ->; apply Hin; rewrite !elem_of_cons; tauto]. }
  destruct nb; cbn [when].
  - exists (<[res := z]> h3). split; [unfold upd, modS, z; by rewrite Hres3|]. apply Hinto', changed_insert.
  - exists h3. split; [done|]. apply Hinto'. by split.
Qed.

(** ** The whole function *)
(** [m] puts the quotient and the remainder where they are wanted, gives back the numbers it used and changes nothing else;
    if [clean], a remainder of zero is not a negative one. *)
Definition divides_with (m : M BnState unit) (s : BnState) (fs : list (list Z)) (n : Z) (dv rm : option Z) (x y : Z) (clean : Prop) : Prop :=
  exists s', m s = (Some tt, s') /\ into (bs_nums s') dv (Z.quot x y) /\ into (bs_nums s') rm (Z.rem x y) /\ (clean -> proper_at (bs_nums s') rm) /\
    (forall q, q < free_from s -> dv <> Some q -> rm <> Some q -> bs_nums s' !!! q = bs_nums s !!! q) /\ ready s' fs n /\ free_from s' = free_from s.
(** A dividend that is smaller than the divisor is the remainder. *)
Lemma small_divides s f fs n dv rm num divisor : let x := bs_nums s !!! num in let y := bs_nums s !!! divisor in
  ready s (f :: fs) n -> bn_ok x -> bn_ok y -> bn_top x <= BN_MAX_WORDS -> (forall q, dv = Some q \/ rm = Some q -> bn_ok (bs_nums s !!! q)) -> (forall q, dv = Some q -> rm <> Some q) -> bn_abs x < bn_abs y ->
  divides_with (lift (match rm with Some rm => BN_copy garbage rm num | None => mret tt end;; match dv with Some dv => BN_zero garbage dv | None => mret tt end)) s (f :: fs) n dv rm (bn_value x) (bn_value y) (proper x).
Proof.
  intros x y Hs Hx Hy Hmx Hok Hne Hlt. pose proof (abs_bound x Hx) as Hb. assert (Hy0 : bn_abs y <> 0) by lia. assert (Eq : Z.quot (bn_value x) (bn_value y) = 0) by (rewrite <- quot_value, Z.div_small by (done || lia); lia).
  assert (Er : Z.rem (bn_value x) (bn_value y) = bn_value x) by (rewrite <- rem_value, Z.mod_small by (done || lia); done).
  assert (H1 : exists h1, (match rm with Some rm => BN_copy garbage rm num | None => mret tt end) (bs_nums s) = (Some tt, h1) /\ (into h1 rm (bn_value x) /\ (proper x -> proper_at h1 rm)) /\ forall q, rm <> Some q -> h1 !!! q = bs_nums s !!! q).
  { destruct rm as [r|]; [|by exists (bs_nums s)]. destruct (decide (r = num)) as [->|Hrn]; [exists (bs_nums s); split; [unfold BN_copy; by rewrite Z.eqb_refl|by split]|].
    destruct (BN_copy_spec garbage Hmem r num (bs_nums s) (Hok r (or_intror eq_refl)) Hx Hrn Hmx) as (h1 & E1 & R). exists h1. split; [done|]. split; [|intros q Hq; apply R; congruence]. split; [split; [apply R|exact (result_value _ _ _ _ _ R)]|].
    intros Hp E0. destruct R as [R1 R2 R3 _]. rewrite R2. apply Hp. apply (abs_zero _ Hx). change (bn_abs x) with (bn_abs (bs_nums s !!! num)). rewrite <- R3. by apply (abs_zero _ R1). }
  destruct H1 as (h1 & E1 & [I1 J1] & O1). assert (H2 : exists h2, (match dv with Some dv => BN_zero garbage dv | None => mret tt end) h1 = (Some tt, h2) /\ into h2 dv 0 /\ forall q, dv <> Some q -> h2 !!! q = h1 !!! q).
  { destruct dv as [d|]; [|by exists h1]. destruct (BN_zero_spec garbage Hmem d h1) as (h2 & E2 & R); [rewrite O1 by (by apply Hne); apply Hok; by left|]. exists h2. split; [done|]. split; [split; [apply R|exact (result_value _ _ _ _ _ R)]|]. intros q Hq. apply R. congruence. }
  destruct H2 as (h2 & E2 & I2 & O2). exists (mkBs h2 (bs_ctx s)). split; [unfold lift; by rewrite (bind_some _ _ _ tt h1 E1), E2|]. cbn [bs_nums]. rewrite Eq, Er. split; [done|]. assert (I3 : into h2 rm (bn_value x) /\ (proper x -> proper_at h2 rm)) by (destruct rm as [r|]; [|done]; unfold into, proper_at in *; rewrite O2; [done|intros E; by apply (Hne r)]). split; [apply I3|]. split; [apply I3|].
  split; [intros q _ Hq1 Hq2; rewrite O2 by done; by apply O1|]. split; [|done]. apply (ready_store s); [done|]. intros q. destruct (decide (dv = Some q)) as [->|Hq1]; [left; apply I2|]. destruct (decide (rm = Some q)) as [->|Hq2]; [left; apply I3|]. right. rewrite O2 by done. by apply O1.
Qed.
(** The numbers of the frame. *)
Lemma div_numbers {B} (k : Z -> Z -> Z -> Z -> M BnState B) s f fs n dv : ready s (f :: fs) (5 + n) -> 0 <= n -> (forall q, dv = Some q -> bn_ok (bs_nums s !!! q) /\ q < free_from s) ->
  exists tmp snum sdiv res s' g, (tmp ← BN_CTX_get garbage; snum ← BN_CTX_get garbage; sdiv ← BN_CTX_get garbage; res ← (match dv with Some dv => mret dv | None => BN_CTX_get garbage end); k tmp snum sdiv res) s = k tmp snum sdiv res s' /\
    ready s' (g :: fs) (1 + n) /\ tmp = free_from s /\ snum = tmp + 1 /\ sdiv = tmp + 2 /\ (dv = Some res \/ dv = None /\ res = tmp + 3) /\ (forall q, q ∈ [tmp; snum; sdiv; res] -> bn_ok (bs_nums s' !!! q)) /\
    (forall q, q < free_from s -> bs_nums s' !!! q = bs_nums s !!! q) /\ pool_base (ctx_pool (bs_ctx s')) = pool_base (ctx_pool (bs_ctx s)).
Proof.
  intros Hs Hn Hdv. destruct (get_ready garbage Hmem s f fs (4 + n) ltac:(by replace (1 + (4 + n)) with (5 + n) by lia) ltac:(lia)) as (tmp & s1 & E1 & P1 & R1 & K1 & _ & O1 & F1 & B1). rewrite (bind_some _ _ s tmp s1 E1).
  destruct (get_ready garbage Hmem s1 _ fs (3 + n) ltac:(replace (1 + (3 + n)) with (4 + n) by lia; exact R1) ltac:(lia)) as (snum & s2 & E2 & P2 & R2 & K2 & _ & O2 & F2 & B2). rewrite (bind_some _ _ s1 snum s2 E2).
  destruct (get_ready garbage Hmem s2 _ fs (2 + n) ltac:(replace (1 + (2 + n)) with (3 + n) by lia; exact R2) ltac:(lia)) as (sdiv & s3 & E3 & P3 & R3 & K3 & _ & O3 & F3 & B3). rewrite (bind_some _ _ s2 sdiv s3 E3).
  assert (O13 : forall q, q < free_from s -> bs_nums s3 !!! q = bs_nums s !!! q) by (intros q Hq; rewrite O3, O2 by lia; apply O1; lia).
  assert (T3 : bn_ok (bs_nums s3 !!! tmp) /\ bn_ok (bs_nums s3 !!! snum)) by (rewrite (O3 tmp), (O2 tmp), (O3 snum) by lia; done). destruct T3 as [T3 S3].
  destruct dv as [d|].
  - destruct (Hdv d eq_refl) as [Kd Ld]. rewrite (bind_some (mret d) _ s3 d s3 eq_refl). exists tmp, snum, sdiv, d, s3. eexists. split; [reflexivity|]. split; [apply (ready_le _ _ _ (2 + n)); [lia|exact R3]|]. split; [done|]. split; [lia|]. split; [lia|]. split; [by left|].
    split; [|split; [done|congruence]]. intros q Hq. rewrite !elem_of_cons in Hq. destruct Hq as [->|[->|[->|[->|Hq]]]]; [done|done|done|by rewrite O13|by apply not_elem_of_nil in Hq].
  - destruct (get_ready garbage Hmem s3 _ fs (1 + n) ltac:(replace (1 + (1 + n)) with (2 + n) by lia; exact R3) ltac:(lia)) as (res & s4 & E4 & P4 & R4 & K4 & _ & O4 & F4 & B4). rewrite (bind_some _ _ s3 res s4 E4).
    exists tmp, snum, sdiv, res, s4. eexists. split; [reflexivity|]. split; [exact R4|]. split; [done|]. split; [lia|]. split; [lia|]. split; [right; split; [done|lia]|].
    split; [|split; [intros q Hq; rewrite O4 by lia; by apply O13|congruence]]. intros q Hq. rewrite !elem_of_cons in Hq. destruct Hq as [->|[->|[->|[->|Hq]]]]; [by rewrite O4 by lia|by rewrite O4 by lia|by rewrite O4 by lia|done|by apply not_elem_of_nil in Hq].
Qed.
(** What [BN_div] may be called with: numbers that are in use, a divisor that is not zero, results at two places, and no remainder by a negative divisor when the
    quotient replaces the dividend. *)
Record div_args (s : BnState) (dv rm : option Z) (num divisor : Z) : Prop := {
  da_ok : forall q, q ∈ [num; divisor] \/ dv = Some q \/ rm = Some q -> bn_ok (bs_nums s !!! q) /\ q < free_from s;
  da_sizes : bn_top (bs_nums s !!! num) < 2 ^ 20 /\ 0 < bn_top (bs_nums s !!! divisor) < 2 ^ 20;
  da_apart : forall q, dv = Some q -> rm <> Some q;
  da_sign : dv = Some num -> rm = None \/ bn_neg (bs_nums s !!! divisor) = false
}.
Lemma BN_div_internal_spec ct dv rm num divisor s f fs n : ready s (f :: fs) (6 + n) -> 0 <= n -> div_args s dv rm num divisor ->
  divides_with (BN_div_internal garbage dv rm num divisor ct) s (f :: fs) n dv rm (bn_value (bs_nums s !!! num)) (bn_value (bs_nums s !!! divisor)) (ct = true \/ proper (bs_nums s !!! num)).
Proof.
  intros Hs Hn [Hok [Htx Hty] Hne Hsign]. destruct (Hok num) as [Hx Lx]; [left; apply elem_of_cons; by left|]. destruct (Hok divisor) as [Hy Ly]; [left; apply elem_of_cons; right; apply elem_of_cons; by left|].
  unfold divides_with, BN_div_internal. rewrite !lift_rd. set (x := bs_nums s !!! num) in *. set (y := bs_nums s !!! divisor) in *.
  assert (Hpad : (0 <? bn_top x) && (znth (bn_d x) (bn_top x - 1) =? 0) = false) by (destruct (Z.ltb_spec 0 (bn_top x)) as [Hp|Hp]; [apply Z.eqb_neq; by apply (bo_high x Hx)|done]). rewrite Hpad.
  unfold BN_is_zero. rewrite (proj2 (Z.eqb_neq (bn_top y) 0)) by lia. destruct (negb ct && (BN_ucmp x y <? 0)) eqn:Ec.
  { apply andb_true_iff in Ec as [Hct Hlt%Z.ltb_lt]. pose proof (BN_ucmp_spec x y Hx Hy) as Hc. rewrite Z.sgn_neg in Hc by done. destruct (small_divides s f fs n dv rm num divisor) as (s' & S1 & S2 & S3 & S4 & S5); fold x y; try done.
    5: { exists s'. split; [done|]. split; [done|]. split; [done|]. split; [|done]. intros [->|Hp]; [done|by apply S4]. }
    - by apply (ready_le _ _ _ (6 + n)); [lia|].
    - change BN_MAX_WORDS with (2 ^ 23 - 1). lia.
    - intros q Hq. apply Hok. by right.
    - assert (Hng : bn_abs x - bn_abs y < 0) by (apply Z.sgn_neg_iff; lia). lia. }
  destruct (start_ready garbage Hmem s (f :: fs) (5 + n) ltac:(by replace (1 + (5 + n)) with (6 + n) by lia) ltac:(lia)) as (s0 & E0 & N0 & F0 & B0 & R0).
  match goal with |- context [in_frame garbage (tmp ← _; snum ← _; sdiv ← _; res ← _; @?k tmp snum sdiv res)] => destruct (div_numbers k s0 [] (f :: fs) n dv R0 Hn) as (tmp & snum & sdiv & res & s4 & g & E4 & R4 & P1 & P2 & P3 & P4 & K4 & O4 & B4) end.
  { intros q Hq. rewrite N0, F0. apply Hok. tauto. }
  rewrite N0, F0 in O4. rewrite F0 in P1. assert (Ex : bs_nums s4 !!! num = x) by (by apply O4). assert (Ey : bs_nums s4 !!! divisor = y) by (by apply O4).
  destruct (div_store (bs_nums s4) tmp snum sdiv res rm num divisor ct) as (h5 & E5 & I1 & I2 & J2 & K5 & O5); rewrite ?Ex, ?Ey; try done; try (apply K4; rewrite !elem_of_cons; tauto).
  { rewrite !NoDup_cons, !not_elem_of_cons. repeat split; try apply not_elem_of_nil; try apply NoDup_nil_2; lia. }
  { intros q Hq. assert (Hq2 : free_from s <= q <= tmp + 2) by (rewrite !elem_of_cons in Hq; destruct Hq as [->|[->|[->|Hq]]]; [lia|lia|lia|by apply not_elem_of_nil in Hq]). split; [|lia]. destruct P4 as [Ed|[_ ->]]; [|lia]. destruct (Hok res) as [_ Lr]; [tauto|lia]. }
  { intros r Er. destruct (Hok r) as [Kr Lr]; [tauto|]. rewrite O4 by done. split; [done|]. rewrite !not_elem_of_cons. repeat split; try apply not_elem_of_nil; [lia|lia|lia|]. destruct P4 as [Ed|[_ ->]]; [intros ->; by apply (Hne res)|lia]. }
  { intros ->. cbn [negb andb] in Ec. apply Z.ltb_ge in Ec. pose proof (BN_ucmp_spec x y Hx Hy) as Hc. apply Z.nlt_ge. intros Hlt. rewrite (Z.sgn_neg (bn_abs x - bn_abs y)) in Hc by lia. apply Z.sgn_neg_iff in Hc. lia. }
  { intros ->. apply Hsign. destruct P4 as [Ed|[_ ?]]; [done|lia]. }
  rewrite Ex, Ey in I1, I2. set (s5 := mkBs h5 (bs_ctx s4)). assert (R5 : ready s5 (g :: f :: fs) (1 + n)).
  { apply (ready_store s4); [done|]. intros q. destruct (decide (q ∈ [tmp; snum; sdiv])) as [Hq|Hq]; [left; by apply K5|]. destruct (decide (q = res)) as [->|Hqr]; [left; apply I1|]. destruct (decide (rm = Some q)) as [->|Hqm]; [left; apply I2|].
    right. apply O5; [|done]. rewrite !not_elem_of_cons in Hq. destruct Hq as (A1 & A2 & A3 & A4). by rewrite !not_elem_of_cons. }
  destruct (end_ready s5 g f fs n R5 Hn) as (s6 & E6 & N6 & R6 & F6). exists s6. unfold in_frame. rewrite E0. rewrite E4. rewrite (lift_eq _ s4 _ _ E5). fold s5. rewrite E6, N6. cbn [bs_nums s5].
  split; [done|]. split; [destruct dv as [d|]; [|done]; destruct P4 as [[= ->]|[? _]]; done|]. split; [done|]. split; [done|]. split; [|split; [done|]].
  - intros q Hq Hq1 Hq2. assert (Hres : q <> res) by (destruct P4 as [Ed|[_ ->]]; [congruence|lia]). assert (Hq4 : q ∉ [tmp; snum; sdiv; res]) by (rewrite !not_elem_of_cons; repeat split; try apply not_elem_of_nil; (done || lia)). rewrite O5 by done. by apply O4.
  - rewrite F6. cbn [bs_ctx s5]. by rewrite B4, B0, (free_frames s _ _ Hs).
Qed.
Lemma BN_div_spec dv rm num divisor s f fs n : ready s (f :: fs) (6 + n) -> 0 <= n -> div_args s dv rm num divisor ->
  divides_with (BN_div garbage dv rm num divisor) s (f :: fs) n dv rm (bn_value (bs_nums s !!! num)) (bn_value (bs_nums s !!! divisor)) (proper (bs_nums s !!! num)).
Proof.
  intros Hs Hn Ha. unfold divides_with, BN_div. rewrite !lift_rd. set (ct := _ || _). destruct (BN_div_internal_spec ct dv rm num divisor s f fs n Hs Hn Ha) as (s' & E & I1 & I2 & J & R). exists s'. split; [exact E|]. split; [done|]. split; [done|]. split; [intros Hp; apply J; by right|done].
Qed.
(** C25: division is exact. For normal forms at any places, whether the results replace operands or one of them is not wanted, and whether or not the flag
    for constant time is set, [BN_div] succeeds when there is memory and its results are normal forms of the quotient rounded towards zero and of the remainder with
    the sign of the dividend; the estimates of digits, their corrections and the shifts cancel out. Every temporary number goes back to the context and no other number in
    use changes. The one exception among the arguments: a quotient that replaces the dividend while a negative divisor leaves a remainder. *)
Theorem BN_div_exact dv rm num divisor s f fs n : ready s (f :: fs) (6 + n) -> 0 <= n -> div_args s dv rm num divisor ->
  divides_with (BN_div garbage dv rm num divisor) s (f :: fs) n dv rm (bn_value (bs_nums s !!! num)) (bn_value (bs_nums s !!! divisor)) (proper (bs_nums s !!! num)).
Proof. apply BN_div_spec. Qed.
(** A divisor of zero is refused. *)
Lemma BN_div_by_zero dv rm num divisor s : bn_top (bs_nums s !!! divisor) = 0 -> BN_div garbage dv rm num divisor s = (None, s).
Proof. intros E. unfold BN_div, BN_div_internal, BN_is_zero. rewrite !lift_rd, E. by destruct (_ && _). Qed.
End Division.

(** The remainder replaces the dividend, which has the flag for constant time; the highest bit of the divisor is set. *)
Definition dividing : BnState := mkBs {[ 1 := mkBn [5; 7; 9] 2 3 true BN_FLG_CONSTTIME; 2 := mkBn [2 ^ 63] 1 1 true 0; 3 := BN_init ]} (BN_CTX_new 100).
Lemma dividing_args : div_args dividing (Some 3) (Some 1) 1 2.
Proof.
  split; [|by vm_compute|intros q [= <-]; done|done]. intros q Hq. assert (Hc : q = 1 \/ q = 2 \/ q = 3).
  { destruct Hq as [Hq|[[= <-]|[= <-]]]; [|by right; right|by left]. rewrite !elem_of_cons in Hq. destruct Hq as [->|[->|Hq]]; [by left|by right; left|by apply not_elem_of_nil in Hq]. }
  destruct Hc as [->|[->| ->]]; (split; [apply bn_okb_ok; vm_compute; reflexivity|done]).
Qed.
Lemma BN_div_exact_witness : divides_with (@BN_div ample (fun n i => n * i) (Some 3) (Some 1) 1 2) dividing [[]] 0 (Some 3) (Some 1) (bn_value (bs_nums dividing !!! 1)) (bn_value (bs_nums dividing !!! 2)) (proper (bs_nums dividing !!! 1)).
Proof. exact (@BN_div_exact ample (fun n i => n * i) (fun _ => eq_refl) (Some 3) (Some 1) 1 2 dividing [] [] 0 (ready_new 100 _ 6 eq_refl eq_refl) (Z.le_refl 0) dividing_args). Defined.
(** Seven by minus two with the quotient in place of the dividend: the remainder is -1 instead of 1. *)
Lemma BN_div_wrong_sign : exists s, @BN_div ample (fun _ _ => 0) (Some 1) (Some 3) 1 2 (mkBs {[ 1 := mkBn [7] 1 1 false 0; 2 := mkBn [2] 1 1 true 0 ]} (BN_CTX_new 100)) = (Some tt, s) /\
  bn_value (bs_nums s !!! 1) = -3 /\ bn_value (bs_nums s !!! 3) = -1.
Proof.
  exists (snd (@BN_div ample (fun _ _ => 0) (Some 1) (Some 3) 1 2 (mkBs {[ 1 := mkBn [7] 1 1 false 0; 2 := mkBn [2] 1 1 true 0 ]} (BN_CTX_new 100)))).
  vm_compute. done.
Qed.
(** -1 by 2 in constant time: the quotient is a zero with a sign. *)
Lemma BN_div_negative_zero : exists s, @BN_div ample (fun _ _ => 0) (Some 3) None 1 2 (mkBs {[ 1 := mkBn [1] 1 1 true BN_FLG_CONSTTIME; 2 := mkBn [2] 1 1 false 0; 3 := BN_init ]} (BN_CTX_new 100)) = (Some tt, s) /\
  bn_top (bs_nums s !!! 3) = 0 /\ bn_neg (bs_nums s !!! 3) = true.
Proof.
  exists (snd (@BN_div ample (fun _ _ => 0) (Some 3) None 1 2 (mkBs {[ 1 := mkBn [1] 1 1 true BN_FLG_CONSTTIME; 2 := mkBn [2] 1 1 false 0; 3 := BN_init ]} (BN_CTX_new 100)))).
  vm_compute. done.
Qed.
