(* ===== verification/BnMod.v ===== *)
(** * Modular arithmetic (crypto/bn/bn_mod.c)

    The functions of bn_mod.c that divide; [BN_mod_add_quick] and [BN_mod_sub_quick], which do not, are in Bn. [BN_mod_ct] is [BN_div_ct] without a quotient. *)
From S2P Require Import Prelude Compat Words BnWord BnMul BnMulSpec Bn BnSpec BnCtx BnCtxSpec BnArith BnDiv BnDivSpec BnShift BnDivision.

Definition BN_FLG_MALLOCED : Z := 0x01.

Section Mod.
Context `{Allocator} (garbage : Z -> Z -> Z).
Definition BN_nnmod (r m d : Z) : M BnState unit :=
  BN_div_ct garbage None (Some r) m d;;
  x ← lift (rd r); y ← lift (rd d);
  if negb (bn_neg x) then mret tt
  else if bn_neg y then lift (BN_sub garbage r r d) else lift (BN_add garbage r r d).
Definition BN_mod_add (r a b m : Z) : M BnState unit := lift (BN_add garbage r a b);; BN_nnmod r r m.
Definition BN_mod_sub (r a b m : Z) : M BnState unit := lift (BN_sub garbage r a b);; BN_nnmod r r m.
Definition BN_mod_mul (r a b m : Z) : M BnState unit := in_frame garbage (
  t ← BN_CTX_get garbage;
  (if a =? b then BN_sqr garbage t a else BN_mul garbage t a b);;
  BN_nnmod r t m).
Definition BN_mod_sqr (r a m : Z) : M BnState unit := BN_sqr garbage r a;; BN_div_ct garbage None (Some r) r m.
Definition BN_mod_lshift1 (r a m : Z) : M BnState unit := lift (BN_lshift1 garbage r a);; BN_nnmod r r m.
Definition BN_mod_lshift1_quick (r a m : Z) : M bn_store unit :=
  BN_lshift1 garbage r a;;
  x ← rd r; y ← rd m;
  if 0 <=? BN_cmp x y then BN_sub garbage r r m else mret tt.
(** The loop: every pass shifts by at least one bit. *)
Fixpoint mod_lshift_loop (fuel : nat) (r n m : Z) : M bn_store unit :=
  if n <=? 0 then mret tt
  else
  x ← rd r; y ← rd m;
  let max_shift := BN_num_bits y - BN_num_bits x in
  if max_shift <? 0 then fail
  else
  let max_shift := if n <? max_shift then n else max_shift in
  (if negb (max_shift =? 0) then BN_lshift garbage r r max_shift else BN_lshift1 garbage r r);;
  let n := if negb (max_shift =? 0) then n - max_shift else n - 1 in
  x ← rd r; y ← rd m;
  when (0 <=? BN_cmp x y) (BN_sub garbage r r m);;
  match fuel with O => fail | S fuel => mod_lshift_loop fuel r n m end.
Definition BN_mod_lshift_quick (r a n m : Z) : M bn_store unit :=
  when (negb (r =? a)) (BN_copy garbage r a);;
  mod_lshift_loop (Z.to_nat n) r n m.
(** [t] is where the copy is put. *)
Definition BN_dup (t a : Z) : M bn_store unit :=
  if malloc_ok 24 then
    upd t (fun _ => mkBn [] 0 0 false BN_FLG_MALLOCED);;
    BN_copy garbage t a
  else fail.
(** [abs_m] is where [BN_dup] puts its copy. *)
Definition BN_mod_lshift (abs_m r a n m : Z) : M BnState unit :=
  BN_nnmod r a m;;
  y ← lift (rd m);
  if bn_neg y then
    lift (
      BN_dup abs_m m;;
      upd abs_m (with_neg false);;
      BN_mod_lshift_quick r r n abs_m)
  else lift (BN_mod_lshift_quick r r n m).
End Mod.

(** ** What they compute *)
Lemma nonneg_rem x y : y <> 0 -> 0 <= Z.rem x y -> Z.rem x y = x mod Z.abs y.
Proof.
  intros Hy Hr. pose proof (Z.quot_rem x y Hy) as E. pose proof (Z.rem_bound_abs x y Hy) as Hb. apply (Z.mod_unique_pos _ _ (Z.sgn y * Z.quot x y)); [lia|]. rewrite E at 1. pose proof (Z.sgn_abs y) as Es. rewrite <- (Z.abs_sgn y) at 1. ring.
Qed.
Lemma neg_rem x y : y <> 0 -> Z.rem x y < 0 -> Z.rem x y + Z.abs y = x mod Z.abs y.
Proof.
  intros Hy Hr. pose proof (Z.quot_rem x y Hy) as E. pose proof (Z.rem_bound_abs x y Hy) as Hb. apply (Z.mod_unique_pos _ _ (Z.sgn y * Z.quot x y - 1)); [lia|]. rewrite E at 1. rewrite <- (Z.abs_sgn y) at 1. ring.
Qed.

Section ModSpec.
Context `{Allocator} (garbage : Z -> Z -> Z) (Hmem : forall n, malloc_ok n = true).
Lemma lift_computes m s fs n r v : ready s fs n -> computes m (bs_nums s) r v -> computes_with (lift m) s fs n r v.
Proof.
  intros Hs (h & E & Hok & Hv & Ho). exists (mkBs h (bs_ctx s)). split; [by apply lift_eq|]. split; [done|]. split; [done|]. split; [intros q Hq _; by apply Ho|]. split; [|done].
  apply (ready_changed s _ _ r (h !!! r)); [done| |done]. split; [done|exact Ho].
Qed.
(** An operation that goes on from [s1], where only [r] is different. *)
Lemma computes_after m m1 s s1 fs n r v : m s = m1 s1 -> (forall q, q <> r -> q < free_from s -> bs_nums s1 !!! q = bs_nums s !!! q) -> free_from s1 = free_from s -> computes_with m1 s1 fs n r v -> computes_with m s fs n r v.
Proof.
  intros E Ho Ef (s2 & E2 & Hok & Hv & Ho2 & R2 & F2). exists s2. split; [by rewrite E|]. split; [done|]. split; [done|]. split; [intros q Hq Hlt; rewrite Ho2 by (done || lia); by apply Ho|]. split; [done|congruence].
Qed.
Lemma BN_nnmod_spec r a m s f fs n : ready s (f :: fs) (6 + n) -> 0 <= n -> bn_ok (bs_nums s !!! r) -> bn_ok (bs_nums s !!! a) -> bn_ok (bs_nums s !!! m) -> r <> m ->
  r < free_from s -> a < free_from s -> m < free_from s -> bn_top (bs_nums s !!! a) < 2 ^ 20 -> 0 < bn_top (bs_nums s !!! m) < 2 ^ 20 ->
  computes_with (BN_nnmod garbage r a m) s (f :: fs) n r (bn_value (bs_nums s !!! a) mod bn_abs (bs_nums s !!! m)).
Proof.
  intros Hs Hn Hr Ha Hm Hrm Lr La Lm Hta Htm. set (x := bs_nums s !!! a) in *. set (y := bs_nums s !!! m) in *. pose proof (abs_zero y Hm) as Hy0. pose proof (abs_bound y Hm) as Hyb. rewrite <- (abs_value y Hm).
  assert (Hyv : bn_value y <> 0) by (intros E; pose proof (abs_value y Hm) as Ea; rewrite E in Ea; cbn in Ea; symmetry in Ea; apply Hy0 in Ea; lia).
  destruct (BN_div_internal_spec garbage Hmem true None (Some r) a m s f fs n Hs Hn) as (s1 & E1 & _ & [Ok1 V1] & Hp & Ho & R1 & F1).
  { split; [|done|done|done]. intros q Hq. destruct Hq as [Hq|[Hq|[= <-]]]; [|done|done]. rewrite !elem_of_cons in Hq. destruct Hq as [->|[->|Hq]]; [done|done|by apply not_elem_of_nil in Hq]. }
  fold x y in V1. specialize (Hp (or_introl eq_refl)). cbn [proper_at] in Hp. assert (Em : bs_nums s1 !!! m = y) by (apply Ho; [done|done|congruence]). set (z := bs_nums s1 !!! r) in *.
  assert (Hoth : forall q, q <> r -> q < free_from s -> bs_nums s1 !!! q = bs_nums s !!! q) by (intros q Hq Hlt; apply Ho; [done|done|congruence]).
  apply (computes_after _ (lift (if negb (bn_neg z) then mret tt else if bn_neg y then BN_sub garbage r r m else BN_add garbage r r m)) s s1); [|done|done|].
  { unfold BN_nnmod. rewrite (bind_some _ _ s tt s1 E1), !lift_rd, Em. fold z. destruct (negb (bn_neg z)); [by destruct s1|by destruct (bn_neg y)]. }
  apply lift_computes; [done|]. pose proof (abs_bound z Ok1) as Hzb. destruct (bn_neg z) eqn:En; cbn [negb].
  - assert (Hz0 : bn_top z <> 0) by (intros E0; specialize (Hp E0); congruence). assert (Hneg : bn_value z < 0) by (unfold bn_value, bn_sign; rewrite En; pose proof (abs_zero z Ok1); lia). rewrite V1 in Hneg. rewrite <- (neg_rem _ _ Hyv Hneg), <- V1.
    assert (Htz : bn_top z <= bn_top y) by (apply top_bound; [done|lia|]; rewrite <- (abs_value z Ok1), V1; pose proof (Z.rem_bound_abs (bn_value x) (bn_value y) Hyv); rewrite (abs_value y Hm) in *; lia).
    assert (Hb : 2 ^ 20 < BN_MAX_WORDS) by (change BN_MAX_WORDS with (2 ^ 23 - 1); lia). destruct (bn_neg y) eqn:Ey.
    + pose proof (BN_sub_spec garbage Hmem r r m (bs_nums s1)) as Hsub. rewrite Em in Hsub. fold z in Hsub. replace (bn_value z + Z.abs (bn_value y)) with (bn_value z - bn_value y); [apply Hsub; (done || lia)|]. unfold bn_value at 2 4, bn_sign. rewrite Ey. lia.
    + pose proof (BN_add_spec garbage Hmem r r m (bs_nums s1)) as Hadd. rewrite Em in Hadd. fold z in Hadd. replace (bn_value z + Z.abs (bn_value y)) with (bn_value z + bn_value y); [apply Hadd; (done || lia)|]. unfold bn_value at 2 4, bn_sign. rewrite Ey. lia.
  - exists (bs_nums s1). split; [done|]. split; [done|]. split; [|done]. fold z. rewrite V1. apply nonneg_rem; [done|]. rewrite <- V1. unfold bn_value, bn_sign. rewrite En. lia.
Qed.
(** An operation into [r] and its reduction. *)
Lemma then_nnmod m0 r m s f fs n v k : computes_with m0 s (f :: fs) (6 + n) r v -> 0 <= n -> bn_ok (bs_nums s !!! m) -> r <> m -> r < free_from s -> m < free_from s -> Z.abs v < radix k -> 0 <= k < 2 ^ 20 -> 0 < bn_top (bs_nums s !!! m) < 2 ^ 20 ->
  computes_with (m0;; BN_nnmod garbage r r m) s (f :: fs) n r (v mod bn_abs (bs_nums s !!! m)).
Proof.
  intros (s1 & E1 & Ok1 & V1 & O1 & R1 & F1) Hn Hm Hrm Lr Lm Hv Hk Htm. assert (Em : bs_nums s1 !!! m = bs_nums s !!! m) by (by apply O1).
  assert (Ht : bn_top (bs_nums s1 !!! r) <= k) by (apply top_bound; [done|lia|]; rewrite <- (abs_value _ Ok1), V1; exact Hv).
  apply (computes_after _ (BN_nnmod garbage r r m) s s1); [by rewrite (bind_some _ _ s tt s1 E1)|done|done|]. rewrite <- V1, <- Em. apply BN_nnmod_spec; rewrite ?Em, ?F1; (done || lia).
Qed.
(** The arguments of the functions below: normal forms that are in use, and a modulus that is not zero and not the result. *)
Record mod_args (s : BnState) (r a b m size : Z) : Prop := {
  ma_ok : bn_ok (bs_nums s !!! r) /\ bn_ok (bs_nums s !!! a) /\ bn_ok (bs_nums s !!! b) /\ bn_ok (bs_nums s !!! m);
  ma_used : r < free_from s /\ a < free_from s /\ b < free_from s /\ m < free_from s;
  ma_sizes : bn_top (bs_nums s !!! a) < size /\ bn_top (bs_nums s !!! b) < size /\ 0 < bn_top (bs_nums s !!! m) < 2 ^ 20;
  ma_apart : r <> m
}.
Lemma sum_bound x y k : bn_ok x -> bn_ok y -> bn_top x <= k -> bn_top y <= k -> Z.abs (bn_value x + bn_value y) < radix (1 + k) /\ Z.abs (bn_value x - bn_value y) < radix (1 + k).
Proof.
  intros Hx Hy Hkx Hky. pose proof (bo_top x Hx). pose proof (bo_top y Hy). pose proof (abs_bound x Hx) as Bx. pose proof (abs_bound y Hy) as By. pose proof (radix_le (bn_top x) k ltac:(lia)). pose proof (radix_le (bn_top y) k ltac:(lia)).
  rewrite radix_succ by lia. pose proof (abs_value x Hx). pose proof (abs_value y Hy). lia.
Qed.
Lemma BN_mod_add_sub_spec r a b m s f fs n : ready s (f :: fs) (6 + n) -> 0 <= n -> mod_args s r a b m (2 ^ 20 - 2) ->
  computes_with (BN_mod_add garbage r a b m) s (f :: fs) n r ((bn_value (bs_nums s !!! a) + bn_value (bs_nums s !!! b)) mod bn_abs (bs_nums s !!! m)) /\
  computes_with (BN_mod_sub garbage r a b m) s (f :: fs) n r ((bn_value (bs_nums s !!! a) - bn_value (bs_nums s !!! b)) mod bn_abs (bs_nums s !!! m)).
Proof.
  intros Hs Hn [(Hr & Ha & Hb & Hm) (Lr & La & Lb & Lm) (Ta & Tb & Tm) Hrm]. assert (Hk : exists k, 0 <= k < 2 ^ 20 - 2 /\ bn_top (bs_nums s !!! a) <= k /\ bn_top (bs_nums s !!! b) <= k) by (exists (Z.max (bn_top (bs_nums s !!! a)) (bn_top (bs_nums s !!! b))); pose proof (bo_top _ Ha); lia).
  destruct Hk as (k & Hk & Hka & Hkb). destruct (sum_bound _ _ k Ha Hb Hka Hkb) as [B1 B2].
  assert (Hmax : 2 ^ 20 < BN_MAX_WORDS) by (change BN_MAX_WORDS with (2 ^ 23 - 1); lia).
  split; apply (then_nnmod _ r m s f fs n _ (1 + k)); try done; try lia; (apply lift_computes; [done|]); [apply BN_add_spec|apply BN_sub_spec]; (done || lia).
Qed.
Lemma BN_mod_mul_spec r a b m s f fs n : ready s (f :: fs) (13 + n) -> 0 <= n -> mod_args s r a b m (2 ^ 19) ->
  computes_with (BN_mod_mul garbage r a b m) s (f :: fs) n r ((bn_value (bs_nums s !!! a) * bn_value (bs_nums s !!! b)) mod bn_abs (bs_nums s !!! m)).
Proof.
  intros Hs Hn [(Hr & Ha & Hb & Hm) (Lr & La & Lb & Lm) (Ta & Tb & Tm) Hrm]. destruct (start_ready garbage Hmem s (f :: fs) (12 + n) ltac:(by replace (1 + (12 + n)) with (13 + n) by lia) ltac:(lia)) as (s0 & E0 & N0 & F0 & B0 & R0).
  destruct (get_ready garbage Hmem s0 [] (f :: fs) (11 + n) ltac:(by replace (1 + (11 + n)) with (12 + n) by lia) ltac:(lia)) as (t & s1 & E1 & P1 & R1 & K1 & _ & O1 & F1 & B1). rewrite F0 in P1, F1. rewrite N0 in O1.
  assert (Hq1 : forall q, q < free_from s -> bs_nums s1 !!! q = bs_nums s !!! q) by (intros q Hq; apply O1; lia). set (x := bs_nums s !!! a) in *. set (y := bs_nums s !!! b) in *.
  assert (Hprod : computes_with (if a =? b then BN_sqr garbage t a else BN_mul garbage t a b) s1 ([t] :: f :: fs) (6 + (1 + n)) t (bn_value x * bn_value y)).
  { assert (R1' : ready s1 ([t] :: f :: fs) (4 + (6 + (1 + n)))) by (by replace (4 + (6 + (1 + n))) with (11 + n) by lia). destruct (Z.eqb_spec a b) as [E|Hne].
    - replace (bn_value x * bn_value y) with (bn_value (bs_nums s1 !!! a) * bn_value (bs_nums s1 !!! a)) by (unfold y; rewrite <- E, Hq1 by done; done). apply (BN_sqr_spec garbage Hmem); rewrite ?(Hq1 a) by lia; fold x y; (done || lia).
    - replace (bn_value x * bn_value y) with (bn_value (bs_nums s1 !!! a) * bn_value (bs_nums s1 !!! b)) by (by rewrite !Hq1). apply (BN_mul_spec garbage Hmem); rewrite ?(Hq1 a), ?(Hq1 b) by lia; fold x y; (done || lia). }
  destruct Hprod as (s2 & E2 & K2 & V2 & O2 & R2 & F2). assert (Hq2 : forall q, q < free_from s -> bs_nums s2 !!! q = bs_nums s !!! q) by (intros q Hq; rewrite O2 by lia; by apply Hq1).
  assert (Tt : bn_top (bs_nums s2 !!! t) < 2 ^ 20) by (pose proof (product_top _ x y Ha Hb K2 V2); lia).
  destruct (BN_nnmod_spec r t m s2 [t] (f :: fs) (1 + n) R2) as (s3 & E3 & K3 & V3 & O3 & R3 & F3); rewrite ?(Hq2 r), ?(Hq2 m), ?F2, ?F1 by lia; try (done || lia). rewrite V2, (Hq2 m) in V3 by lia.
  apply (frame_computes garbage s s0 s3 [t] f fs n r _ _ (ready_le s (f :: fs) n (13 + n) ltac:(lia) Hs) E0); [|done|done|done|done|intros q Hq Hlt; rewrite O3 by lia; by apply Hq2|].
  - rewrite (bind_some _ _ s0 t s1 E1), (bind_some _ _ s1 tt s2 E2). exact E3.
  - pose proof (free_frames _ _ _ R3) as Fr3. pose proof (free_frames _ _ _ R1) as Fr1. rewrite <- B0, <- B1. lia.
Qed.
Lemma BN_mod_sqr_spec r a m s f fs n : ready s (f :: fs) (10 + n) -> 0 <= n -> mod_args s r a a m (2 ^ 19) ->
  computes_with (BN_mod_sqr garbage r a m) s (f :: fs) n r ((bn_value (bs_nums s !!! a) * bn_value (bs_nums s !!! a)) mod bn_abs (bs_nums s !!! m)).
Proof.
  intros Hs Hn [(Hr & Ha & _ & Hm) (Lr & La & _ & Lm) (Ta & _ & Tm) Hrm]. set (x := bs_nums s !!! a) in *. set (y := bs_nums s !!! m) in *.
  destruct (BN_sqr_spec garbage Hmem r a s f fs (6 + n)) as (s1 & E1 & K1 & V1 & O1 & R1 & F1); try (done || (fold x; lia)); [by replace (4 + (6 + n)) with (10 + n) by lia|]. fold x in V1. assert (Em : bs_nums s1 !!! m = y) by (by apply O1).
  assert (Tr : bn_top (bs_nums s1 !!! r) < 2 ^ 20) by (pose proof (product_top _ x x Ha Ha K1 V1); lia).
  destruct (BN_div_internal_spec garbage Hmem true None (Some r) r m s1 f fs n R1 Hn) as (s2 & E2 & _ & [K2 V2] & _ & O2 & R2 & F2).
  { split; [|by rewrite Em|done|done]. intros q Hq. rewrite F1. destruct Hq as [Hq|[Hq|[= <-]]]; [|done|done]. rewrite !elem_of_cons in Hq. destruct Hq as [->|[->|Hq]]; [done|by rewrite Em|by apply not_elem_of_nil in Hq]. }
  exists s2. split; [unfold BN_mod_sqr; by rewrite (bind_some _ _ s tt s1 E1)|]. split; [done|]. split; [|split; [|split; [done|congruence]]].
  - rewrite V2, V1, Em, <- (abs_value y Hm). pose proof (abs_zero y Hm). assert (bn_value y <> 0) by (pose proof (abs_value y Hm); intros E; rewrite E in *; cbn in *; lia). apply nonneg_rem; [done|]. apply Z.rem_nonneg; [done|]. apply Z.square_nonneg.
  - intros q Hq Hlt. rewrite O2 by (rewrite ?F1; (done || congruence)). by apply O1.
Qed.

(** ** Shifts modulo a number *)
Lemma cmp_value a b : bn_ok a -> bn_ok b -> 0 <= bn_value a -> 0 < bn_value b -> (0 <=? BN_cmp a b) = (bn_value b <=? bn_value a).
Proof.
  intros Ha Hb Va Vb. assert (Nb : bn_neg b = false) by (destruct (bn_neg b) eqn:E; [|done]; pose proof (abs_bound b Hb); unfold bn_value, bn_sign in Vb; rewrite E in Vb; lia). destruct (bn_neg a) eqn:Na.
  - assert (bn_value a = 0) by (pose proof (abs_bound a Ha); unfold bn_value, bn_sign in *; rewrite Na in *; lia). unfold BN_cmp. rewrite Na, Nb. cbn. symmetry. apply Z.leb_gt. lia.
  - rewrite BN_cmp_spec by (done || congruence). destruct (Z.leb_spec (bn_value b) (bn_value a)); [apply Z.leb_le; by apply Z.sgn_nonneg; lia|apply Z.leb_gt; rewrite Z.sgn_neg; lia].
Qed.
(** The number at [r] is less than twice the modulus: it is reduced. *)
Lemma reduce_once r m h : bn_ok (h !!! r) -> bn_ok (h !!! m) -> r <> m -> bn_top (h !!! r) < BN_MAX_WORDS -> bn_top (h !!! m) < BN_MAX_WORDS -> 0 <= bn_value (h !!! r) < 2 * bn_value (h !!! m) ->
  computes (x ← rd r; y ← rd m; when (0 <=? BN_cmp x y) (BN_sub garbage r r m)) h r (bn_value (h !!! r) mod bn_value (h !!! m)).
Proof.
  intros Hr Hm Hrm Tr Tm Hv. unfold computes. rewrite (bind_some (rd r) _ h _ h eq_refl), (bind_some (rd m) _ h _ h eq_refl), cmp_value by (done || lia). destruct (Z.leb_spec (bn_value (h !!! m)) (bn_value (h !!! r))) as [Hle|Hgt]; cbn [when].
  - rewrite <- (Z.mod_unique_pos (bn_value (h !!! r)) (bn_value (h !!! m)) 1 (bn_value (h !!! r) - bn_value (h !!! m))) by lia. by apply (BN_sub_spec garbage Hmem r r m h).
  - exists h. rewrite Z.mod_small by lia. done.
Qed.
Lemma mod_lshift_loop_spec fuel m : forall r n h, bn_ok (h !!! r) -> bn_ok (h !!! m) -> r <> m -> bn_top (h !!! m) < 2 ^ 20 -> 0 <= bn_value (h !!! r) < bn_value (h !!! m) -> n <= Z.of_nat fuel ->
  computes (mod_lshift_loop garbage fuel r n m) h r ((bn_value (h !!! r) * 2 ^ Z.max 0 n) mod bn_value (h !!! m)).
Proof.
  induction fuel as [|fuel IH]; intros r n h Hr Hm Hrm Tm Hv Hn; unfold computes; cbn [mod_lshift_loop].
  { rewrite (proj2 (Z.leb_le n 0)), Z.max_l, Z.mul_1_r, Z.mod_small by lia. by exists h. }
  destruct (Z.leb_spec n 0) as [Hn0|Hn0]; [rewrite Z.max_l, Z.mul_1_r, Z.mod_small by lia; by exists h|]. rewrite Z.max_r by lia. set (x := h !!! r) in *. set (y := h !!! m) in *.
  rewrite (bind_some (rd r) _ h x h eq_refl), (bind_some (rd m) _ h y h eq_refl). pose proof (abs_bound x Hr) as Hxb. pose proof (abs_bound y Hm) as Hyb. pose proof (bo_top x Hr) as Htx. pose proof (bo_top y Hm) as Hty.
  assert (Hax : bn_abs x = bn_value x) by (rewrite <- (abs_value x Hr); lia). assert (Hay : bn_abs y = bn_value y) by (rewrite <- (abs_value y Hm); lia).
  assert (Hpy : 0 < bn_top y) by (destruct (decide (bn_top y = 0)) as [E|]; [apply (abs_zero y Hm) in E; lia|lia]). destruct (BN_num_bits_spec y Hm Hpy) as [Hby Hby2]. set (by' := BN_num_bits y) in *.
  (* the number has no more bits than the modulus *)
  assert (Hbx : 0 <= BN_num_bits x <= by' /\ bn_value x < 2 ^ BN_num_bits x /\ bn_top x <= bn_top y).
  { destruct (decide (bn_top x = 0)) as [E|E].
    - unfold BN_num_bits, BN_is_zero. rewrite (proj2 (Z.eqb_eq _ _) E). pose proof (proj2 (abs_zero x Hr) E) as E2. rewrite Z.pow_0_r. lia.
    - destruct (BN_num_bits_spec x Hr ltac:(lia)) as [Hbx Hbx2]. split; [split; [lia|]|split; [lia|by apply top_bound; [done|lia|lia]]]. apply Z.nlt_ge. intros Hlt. assert (2 ^ by' <= 2 ^ (BN_num_bits x - 1)) by (apply Z.pow_le_mono_r; lia). lia. }
  destruct Hbx as (Hbx & Hvx & Htxy). set (bx := BN_num_bits x) in *. rewrite (proj2 (Z.ltb_ge (by' - bx) 0)) by lia. set (k := if n <? by' - bx then n else by' - bx). assert (Hk : 0 <= k <= n /\ k <= by' - bx) by (unfold k; destruct (Z.ltb_spec n (by' - bx)); lia).
  set (k' := if negb (k =? 0) then k else 1). assert (Hk' : 1 <= k' <= n /\ bn_value x * 2 ^ k' < 2 * bn_value y).
  { unfold k'. destruct (Z.eqb_spec k 0) as [E|E]; cbn [negb]; [lia|]. split; [lia|]. assert (2 ^ bx * 2 ^ k <= 2 ^ by') by (rewrite <- Z.pow_add_r by lia; apply Z.pow_le_mono_r; lia).
    assert (0 < 2 ^ k) by (apply Z.pow_pos_nonneg; lia). assert (bn_value x * 2 ^ k < 2 ^ bx * 2 ^ k) by (apply Z.mul_lt_mono_pos_r; lia). assert (2 ^ by' = 2 * 2 ^ (by' - 1)) by (rewrite <- Z.pow_succ_r by lia; f_equal; lia). lia. }
  destruct Hk' as [Hk' Hlt]. assert (Hp : 0 < 2 ^ k') by (apply Z.pow_pos_nonneg; lia). assert (Hmax : 2 ^ 20 + 2 ^ 20 < BN_MAX_WORDS) by (change BN_MAX_WORDS with (2 ^ 23 - 1); lia).
  assert (Hshift : computes (if negb (k =? 0) then BN_lshift garbage r r k else BN_lshift1 garbage r r) h r (bn_value x * 2 ^ k')).
  { assert (Hd : k / 64 <= bn_top y) by dlia. unfold k'. destruct (Z.eqb_spec k 0) as [E|E]; cbn [negb].
    - destruct (BN_lshift1_spec garbage Hmem r r h Hr Hr ltac:(fold x; lia)) as (h1 & E1 & R1). apply (computes_result _ _ _ h1 _ _ _ E1 R1). fold x. unfold bn_value, bn_sign. change (2 ^ 1) with 2. ring.
    - destruct (BN_lshift_spec garbage Hmem r r k h Hr Hr ltac:(lia) ltac:(fold x; lia)) as (h1 & E1 & R1). apply (computes_result _ _ _ h1 _ _ _ E1 R1). fold x. unfold bn_value, bn_sign. ring. }
  destruct Hshift as (h1 & E1 & K1 & V1 & O1). rewrite (bind_some _ _ h tt h1 E1). assert (Em1 : h1 !!! m = y) by (by apply O1).
  assert (T1 : bn_top (h1 !!! r) <= bn_top y + 1) by (apply top_bound; [done|lia|]; replace (bn_top y + 1) with (1 + bn_top y) by lia; rewrite radix_succ by lia; rewrite <- (abs_value _ K1), V1; lia).
  destruct (reduce_once r m h1) as (h2 & E2 & K2 & V2 & O2); rewrite ?Em1; try (done || lia). rewrite Em1 in V2.
  rewrite (bind_some (rd r) _ h1 _ h1 eq_refl), (bind_some (rd m) _ h1 _ h1 eq_refl) in E2. rewrite (bind_some (rd r) _ h1 _ h1 eq_refl), (bind_some (rd m) _ h1 _ h1 eq_refl). rewrite (bind_some _ _ h1 tt h2 E2). assert (Em2 : h2 !!! m = y) by (by rewrite O2).
  set (n' := if negb (k =? 0) then n - k else n - 1). assert (Hn' : n' = n - k') by (unfold n', k'; by destruct (negb _)).
  destruct (IH r n' h2) as (h3 & E3 & K3 & V3 & O3); rewrite ?Em2; try (done || lia); [rewrite V2; apply Z.mod_pos_bound; lia|].
  exists h3. split; [exact E3|]. split; [done|]. split; [|intros q Hq; rewrite O3, O2 by done; by apply O1].
  rewrite V3, Em2, V2, V1, Z.mul_mod_idemp_l, Z.max_r, <- Z.mul_assoc, <- Z.pow_add_r by lia. do 3 f_equal. lia.
Qed.
(** Doubling and reducing, several bits at a time, gives [a * 2 ^ n] modulo [m] when [a] is reduced. *)
Lemma BN_mod_lshift_quick_spec r a n m h : bn_ok (h !!! r) -> bn_ok (h !!! a) -> bn_ok (h !!! m) -> r <> m -> bn_top (h !!! m) < 2 ^ 20 -> 0 <= bn_value (h !!! a) < bn_value (h !!! m) -> 0 <= n ->
  computes (BN_mod_lshift_quick garbage r a n m) h r ((bn_value (h !!! a) * 2 ^ n) mod bn_value (h !!! m)).
Proof.
  intros Hr Ha Hm Hrm Tm Hv Hn. assert (Hcopy : computes (when (negb (r =? a)) (BN_copy garbage r a)) h r (bn_value (h !!! a))).
  { destruct (Z.eqb_spec r a) as [->|Hne]; cbn [negb when]; [by exists h|]. assert (Ta : bn_top (h !!! a) <= bn_top (h !!! m)) by (pose proof (abs_bound _ Hm); pose proof (bo_top _ Hm); apply top_bound; [done|lia|]; pose proof (abs_value _ Ha); pose proof (abs_value _ Hm); lia).
    destruct (BN_copy_spec garbage Hmem r a h Hr Ha Hne ltac:(change BN_MAX_WORDS with (2 ^ 23 - 1); lia)) as (h1 & E1 & R1). by apply (computes_result _ _ _ h1 _ _ _ E1 R1). }
  destruct Hcopy as (h1 & E1 & K1 & V1 & O1). assert (Em : h1 !!! m = h !!! m) by (by apply O1). destruct (mod_lshift_loop_spec (Z.to_nat n) m r n h1) as (h2 & E2 & K2 & V2 & O2); rewrite ?Em, ?V1; try (done || lia).
  rewrite Em, V1, Z.max_r in V2 by lia. exists h2. split; [unfold BN_mod_lshift_quick; by rewrite (bind_some _ _ h tt h1 E1)|]. split; [done|]. split; [done|]. intros q Hq. rewrite O2 by done. by apply O1.
Qed.

(** C26: modular arithmetic. For a modulus of either sign that is not zero, [BN_nnmod] computes the least non-negative residue, and [BN_mod_add], [BN_mod_sub], [BN_mod_mul]
    and [BN_mod_sqr] those of the sum, the difference, the product and the square of integers of any sign, also into one of their operands; they succeed when there is
    memory, every temporary number goes back to the context, and no other number in use changes. *)
Theorem BN_mod_exact r a b m s f fs n : ready s (f :: fs) (13 + n) -> 0 <= n -> mod_args s r a b m (2 ^ 19) ->
  let x := bn_value (bs_nums s !!! a) in let y := bn_value (bs_nums s !!! b) in let modulus := bn_abs (bs_nums s !!! m) in
  computes_with (BN_nnmod garbage r a m) s (f :: fs) n r (x mod modulus) /\ computes_with (BN_mod_add garbage r a b m) s (f :: fs) n r ((x + y) mod modulus) /\
  computes_with (BN_mod_sub garbage r a b m) s (f :: fs) n r ((x - y) mod modulus) /\ computes_with (BN_mod_mul garbage r a b m) s (f :: fs) n r ((x * y) mod modulus) /\
  computes_with (BN_mod_sqr garbage r a m) s (f :: fs) n r ((x * x) mod modulus).
Proof.
  intros Hs Hn Ha. pose proof Ha as [(Kr & Ka & Kb & Km) (Lr & La & Lb & Lm) (Ta & Tb & Tm) Hrm]. assert (Ha2 : mod_args s r a b m (2 ^ 20 - 2)) by (split; (done || lia)). assert (Ha3 : mod_args s r a a m (2 ^ 19)) by (by split).
  pose proof (ready_le s (f :: fs) (6 + n) (13 + n) ltac:(lia) Hs) as R6. pose proof (ready_le s (f :: fs) (10 + n) (13 + n) ltac:(lia) Hs) as R10. destruct (BN_mod_add_sub_spec r a b m s f fs n R6 Hn Ha2) as [Hadd Hsub].
  split; [apply BN_nnmod_spec; (done || lia)|]. split; [exact Hadd|]. split; [exact Hsub|]. split; [by apply BN_mod_mul_spec|by apply BN_mod_sqr_spec].
Qed.
End ModSpec.

(** Residues of two negative numbers by a negative modulus, into the first operand. *)
Definition residues : BnState := mkBs {[ 1 := mkBn [5; 7; 9] 2 3 true 0; 2 := mkBn [2 ^ 63] 1 1 true 0; 3 := mkBn [2 ^ 61 + 1] 1 1 true 0 ]} (BN_CTX_new 100).
Lemma residues_args : mod_args residues 1 1 2 3 (2 ^ 19).
Proof. split; [|done|by vm_compute|done]. repeat apply conj; apply bn_okb_ok; vm_compute; reflexivity. Qed.
Lemma BN_mod_exact_witness : let x := bn_value (bs_nums residues !!! 1) in let y := bn_value (bs_nums residues !!! 2) in let modulus := bn_abs (bs_nums residues !!! 3) in
  computes_with (@BN_nnmod ample (fun n i => n * i) 1 1 3) residues [[]] 0 1 (x mod modulus) /\ computes_with (@BN_mod_add ample (fun n i => n * i) 1 1 2 3) residues [[]] 0 1 ((x + y) mod modulus) /\
  computes_with (@BN_mod_sub ample (fun n i => n * i) 1 1 2 3) residues [[]] 0 1 ((x - y) mod modulus) /\ computes_with (@BN_mod_mul ample (fun n i => n * i) 1 1 2 3) residues [[]] 0 1 ((x * y) mod modulus) /\
  computes_with (@BN_mod_sqr ample (fun n i => n * i) 1 1 3) residues [[]] 0 1 ((x * x) mod modulus).
Proof. exact (@BN_mod_exact ample (fun n i => n * i) (fun _ => eq_refl) 1 1 2 3 residues [] [] 0 (ready_new 100 _ 13 eq_refl eq_refl) (Z.le_refl 0) residues_args). Defined.
