(* ===== verification/Buffer.v ===== *)
(** * Growing buffers and bounded strings (crypto/buffer, crypto/compat)

    A [BUF_MEM] owns an array of [max] bytes, of which the first [length] are in use.
    [BUF_MEM_grow] sets the length: it clears what it gives up, and makes the array larger when it
    must.  The string functions of buf_str.c rest on [strlcpy], [strlcat] and the functions of Compat. *)
From S2P Require Import Prelude Compat Words.

Definition LIMIT_BEFORE_EXPANSION : Z := 0x5ffffffc.

(** [None] for [data] is NULL. *)
Record BUF_MEM := mkBufMem {
  buf_length : Z;
  buf_data : option (list Z);
  buf_max : Z
}.

Section Buffer.
Context `{Allocator}.

Definition sizeof_BUF_MEM : Z := 24.
Definition BUF_MEM_new : option BUF_MEM := if malloc_ok sizeof_BUF_MEM then Some (mkBufMem 0 None 0) else None.

(** The result is 0 on failure, and also on success when [len] is 0. *)
Definition BUF_MEM_grow_clean (len : Z) : State BUF_MEM Z := fun str =>
  if len <=? buf_max str then
    let data :=
      if len <=? buf_length str then (fun d => overwrite d len (zeros (buf_length str - len))) <$> buf_data str
      else buf_data str in
    (to_int len, mkBufMem len data (buf_max str))
  else if LIMIT_BEFORE_EXPANSION <? len then (0, str)
  else
    let n := (len + 3) / 3 * 4 in
    match recallocarray (buf_data str) (buf_max str) n 1 with
    | None => (0, str)
    | Some ret => (to_int len, mkBufMem len (Some ret) n)
    end.
Definition BUF_MEM_grow (len : Z) : State BUF_MEM Z := BUF_MEM_grow_clean len.

(** ** BUF_reverse *)

(** With [in]: the array [out], filled from its end. *)
Fixpoint reverse_copy (q : Z) (inp out : list Z) : list Z :=
  match inp with
  | [] => out
  | c :: inp => reverse_copy (q - 1) inp (overwrite out q [c])
  end.
(** Without: bytes are swapped, from the ends inwards. *)
Fixpoint reverse_swap (k : nat) (p q : Z) (out : list Z) : list Z :=
  match k with
  | O => out
  | S k =>
      let c := znth out q in
      let out := overwrite out q [znth out p] in
      reverse_swap k (p + 1) (q - 1) (overwrite out p [c])
  end.
Definition BUF_reverse (out : list Z) (inp : option (list Z)) (size : Z) : list Z :=
  match inp with
  | Some i => reverse_copy (size - 1) (ztake size i) out
  | None => reverse_swap (Z.to_nat (size / 2)) 0 (size - 1) out
  end.

(** ** Strings: arrays up to their first zero byte *)

Definition strlen (s : list Z) : Z := strnlen s (length s).

(** The bytes written, whether the terminator is one of them, and what is left of [src]; [nleft] is not 0. *)
Fixpoint strlcpy_copy (nleft : Z) (src : list Z) : list Z * bool * list Z :=
  if nleft - 1 =? 0 then ([], false, src)
  else match src with
  | [] => ([], false, [])
  | c :: src => if c =? 0 then ([c], true, src) else let '(w, t, r) := strlcpy_copy (nleft - 1) src in (c :: w, t, r)
  end.
Definition strlcpy (dst src : list Z) (dsize : Z) : list Z * Z :=
  if dsize =? 0 then (dst, strlen src)
  else
    let '(w, t, r) := strlcpy_copy dsize src in
    if t : bool then (overwrite dst 0 w, zlen w - 1) else (overwrite dst 0 (w ++ [0]), zlen w + strlen r).

(** The bytes of [src] for which there is room. *)
Fixpoint strlcat_copy (n : Z) (src : list Z) : list Z :=
  match src with
  | [] => []
  | c :: src => if c =? 0 then [] else if n =? 0 then strlcat_copy n src else c :: strlcat_copy (n - 1) src
  end.
Definition strlcat (dst src : list Z) (dsize : Z) : list Z * Z :=
  let dlen := strnlen dst (Z.to_nat dsize) in
  let n := dsize - dlen in
  if n =? 0 then (dst, dlen + strlen src)
  else (overwrite dst dlen (strlcat_copy (n - 1) src ++ [0]), dlen + strlen src).

(** [None] for a pointer is NULL; copies of strings come without their terminator. *)
Definition BUF_strdup (str : option (list Z)) : option (list Z) :=
  s ← str; if malloc_ok (strlen s + 1) then Some (ztake (strlen s) s) else None.
Definition BUF_strndup (str : option (list Z)) (siz : Z) : option (list Z) := s ← str; strndup s siz.
Definition BUF_memdup (data : option (list Z)) (siz : Z) : option (list Z) :=
  d ← data; if malloc_ok siz then Some (ztake siz d) else None.
Definition BUF_strlcpy (dst src : list Z) (size : Z) : list Z * Z := strlcpy dst src size.
Definition BUF_strlcat (dst src : list Z) (size : Z) : list Z * Z := strlcat dst src size.

(** ** Growing *)

Record buf_ok (b : BUF_MEM) : Prop := {
  ok_length : 0 <= buf_length b <= buf_max b;
  ok_max : buf_max b < 2 ^ 31;
  ok_data : match buf_data b with Some d => zlen d = buf_max b | None => buf_max b = 0 end
}.
(** The bytes in use. *)
Definition contents (b : BUF_MEM) : list Z :=
  match buf_data b with Some d => ztake (buf_length b) d | None => [] end.

Lemma zlen_contents b : buf_ok b -> zlen (contents b) = buf_length b.
Proof. intros [Hl Hm Hd]. unfold contents. destruct (buf_data b); [rewrite zlen_ztake; lia|rewrite zlen_nil; lia]. Qed.
Lemma buf_new_ok b : BUF_MEM_new = Some b -> buf_ok b /\ contents b = [].
Proof. unfold BUF_MEM_new. destruct (malloc_ok _); [|done]. intros [= <-]. split; [split; cbn; lia|done]. Qed.

(** The array after the call: the old bytes that are kept, then bytes that are written by the caller. *)
Definition grows (len : Z) (b : BUF_MEM) (r : Z * BUF_MEM) : Prop :=
  r.1 = len /\ buf_ok r.2 /\ buf_length r.2 = len /\ ztake (buf_length b) (contents r.2) = ztake len (contents b) /\
  (0 < len -> is_Some (buf_data r.2)).

Lemma grow_size len : 0 < len <= LIMIT_BEFORE_EXPANSION -> len < (len + 3) / 3 * 4 < 2 ^ 31.
Proof. unfold LIMIT_BEFORE_EXPANSION. intros Hl. dlia. Qed.

Lemma overwrite_tail (d z : list Z) len n : 0 <= len -> len <= n -> zlen z = n - len -> n <= zlen d -> ztake len (overwrite d len z) = ztake len d.
Proof. intros H1 H2 H3 H4. unfold overwrite. rewrite ztake_app_l by zl. by rewrite ztake_ge by zl. Qed.

Lemma grow_ok len b : buf_ok b -> 0 <= len ->
  let r := BUF_MEM_grow len b in
  grows len b r \/ (r = (0, b) /\ buf_max b < len /\ (LIMIT_BEFORE_EXPANSION < len \/ malloc_ok ((len + 3) / 3 * 4) = false)).
Proof.
  intros [Hl Hm Hd] Hlen. unfold BUF_MEM_grow, BUF_MEM_grow_clean. cbv zeta.
  destruct (Z.leb_spec len (buf_max b)) as [Hle|Hgt].
  - left. unfold grows. cbn [fst snd buf_length]. rewrite to_int_id by lia.
    assert (Hz : forall d, zlen d = buf_max b -> zlen (overwrite d len (zeros (buf_length b - len))) = buf_max b \/ buf_length b < len).
    { intros d Hz. destruct (Z.le_gt_cases len (buf_length b)); [left|by right]. rewrite zlen_overwrite by (rewrite ?zlen_zeros by lia; lia). done. }
    destruct (Z.leb_spec len (buf_length b)) as [Hs|Hs]; unfold contents; destruct (buf_data b) as [d|] eqn:E; cbn [fmap option_fmap option_map buf_data buf_length].
    + split_and!; try done.
      * split; cbn; [lia|done|]. destruct (Hz d Hd); [done|lia].
      * rewrite (ztake_ge (buf_length b)) by (rewrite zlen_ztake by lia; lia). rewrite (overwrite_tail d _ len (buf_length b)) by (rewrite ?zlen_zeros; lia).
        rewrite ztake_ztake. f_equal. lia.
    + split_and!; try done; (lia || (unfold ztake; by rewrite !take_nil) || (split; cbn; lia)).
    + split_and!; try done; (rewrite !ztake_ztake; f_equal; lia) || (split; cbn; (lia || done)).
    + lia.
  - destruct (Z.ltb_spec LIMIT_BEFORE_EXPANSION len) as [Hlim|Hlim]; [right; by eauto|].
    pose proof (grow_size len ltac:(lia)) as Hn. set (n := (len + 3) / 3 * 4) in *.
    assert (Hz : match recallocarray (buf_data b) (buf_max b) n 1 with
                 | Some r => zlen r = n /\ ztake (buf_length b) r = contents b
                 | None => malloc_ok n = false end).
    { unfold contents. destruct (buf_data b) as [d|] eqn:E.
      - rewrite recallocarray_grow by (unfold SIZE_MAX; lia). destruct (malloc_ok n); [|done]. split; [zl|]. by rewrite ztake_app_l by lia.
      - unfold recallocarray. rewrite Z.mul_1_r. destruct (malloc_ok n); [|done]. split; [zl|]. replace (buf_length b) with 0 by lia. done. }
    destruct (recallocarray _ _ _ _) as [r|]; [left|right; by eauto]. destruct Hz as [Hz Hp]. unfold grows. cbn [fst snd buf_length buf_data].
    rewrite to_int_id by lia. split_and!; try done.
    + split; cbn; lia.
    + unfold contents at 1. cbn [buf_data buf_length]. rewrite ztake_ztake, Z.min_l by lia. rewrite Hp, ztake_ge; [done|].
      rewrite zlen_contents by (by split). lia.
Qed.
End Buffer.

(** ** Reversing *)

Lemma reverse_copy_rev inp : forall q out, zlen inp = q + 1 -> q + 1 <= zlen out -> reverse_copy q inp out = rev inp ++ zdrop (q + 1) out.
Proof.
  induction inp as [|c inp IH]; intros q out Hl Ho; cbn [reverse_copy rev].
  - rewrite zlen_nil in Hl. replace (q + 1) with 0 by lia. done.
  - rewrite zlen_cons in Hl. pose proof (zlen_nonneg inp). rewrite IH by (rewrite ?zlen_overwrite by zl; zl).
    replace (q - 1 + 1) with q by lia. unfold overwrite. rewrite zdrop_app_r by zl. rewrite zlen_ztake, Z.min_l by lia.
    replace (q - q) with 0 by lia. change (zdrop 0 ?l) with l. by rewrite <- app_assoc.
Qed.

Lemma overwrite_one {A} (a b : list A) x y : overwrite (a ++ x :: b) (zlen a) [y] = a ++ y :: b.
Proof. change (a ++ x :: b) with (a ++ [x] ++ b). by rewrite (overwrite_app a [x] b [y] (zlen a)). Qed.
Lemma znth_middle (a b : list Z) x : znth (a ++ x :: b) (zlen a) = x.
Proof. unfold znth, zlen. rewrite Nat2Z.id, app_nth2 by lia. by rewrite Nat.sub_diag. Qed.

Lemma reverse_swap_rev k : forall a m b, zlen a = zlen b -> k = Z.to_nat (zlen m / 2) ->
  reverse_swap k (zlen a) (zlen a + zlen m - 1) (a ++ m ++ b) = a ++ rev m ++ b.
Proof.
  induction k as [|k IH]; intros a m b Hab Hk; cbn [reverse_swap].
  - destruct m as [|x [|y m]]; [done|done|]. rewrite !zlen_cons in Hk. exfalso. zl_pose. assert (1 <= (1 + (1 + zlen m)) / 2) by dlia. lia.
  - destruct m as [|x m]; [done|]. destruct m as [|y m' _] using rev_ind; [done|].
    rewrite zlen_cons, zlen_app, zlen_cons, zlen_nil in *. pose proof (zlen_nonneg m').
    replace (zlen a + (1 + (zlen m' + (1 + 0))) - 1) with (zlen (a ++ x :: m')) by (rewrite zlen_app, zlen_cons; lia).
    replace (a ++ (x :: m' ++ [y]) ++ b) with ((a ++ x :: m') ++ y :: b) by (cbn; by rewrite <- !app_assoc).
    rewrite znth_middle, overwrite_one.
    replace (znth ((a ++ x :: m') ++ y :: b) (zlen a)) with x by (rewrite <- app_assoc; cbn; by rewrite znth_middle).
    replace ((a ++ x :: m') ++ x :: b) with (a ++ x :: (m' ++ x :: b)) by (cbn; by rewrite <- !app_assoc). rewrite overwrite_one.
    specialize (IH (a ++ [y]) m' (x :: b)). rewrite zlen_app, !zlen_cons, zlen_nil in IH.
    replace (zlen a + 1) with (zlen a + (1 + 0)) by lia. replace (zlen (a ++ x :: m') - 1) with (zlen a + (1 + 0) + zlen m' - 1) by (rewrite zlen_app, zlen_cons; lia).
    replace (a ++ y :: m' ++ x :: b) with ((a ++ [y]) ++ m' ++ x :: b) by (by rewrite <- app_assoc).
    rewrite IH by (lia || (assert ((1 + (zlen m' + (1 + 0))) / 2 = zlen m' / 2 + 1) by dlia; dlia)).
    cbn [rev]. rewrite rev_app_distr. cbn. by rewrite <- !app_assoc.
Qed.

(** [BUF_reverse] reverses: another array into [out], or [out] itself in place. *)
Theorem BUF_reverse_rev out inp :
  BUF_reverse out None (zlen out) = rev out /\ (zlen inp = zlen out -> BUF_reverse out (Some inp) (zlen out) = rev inp).
Proof.
  split; [|intros Hl]; unfold BUF_reverse.
  - pose proof (reverse_swap_rev _ [] out [] eq_refl eq_refl) as E. rewrite app_nil_r in E. cbn [app] in E. rewrite zlen_nil in E. rewrite Z.add_0_l in E.
    by rewrite app_nil_r in E.
  - rewrite ztake_ge by lia. rewrite reverse_copy_rev by lia. rewrite zdrop_ge by lia. apply app_nil_r.
Qed.

(** ** Bounded strings *)

Section Strings.
Context (s r : list Z) (Hs : 0 ∉ s).

Lemma strnlen_string n : strnlen (s ++ 0 :: r) n = Z.min (zlen s) (Z.of_nat n).
Proof.
  clear -Hs. revert n. induction s as [|c t IH]; intros [|n]; cbn [strnlen app].
  - done.
  - cbn [Z.eqb]. change (zlen (@nil Z)) with 0. lia.
  - rewrite zlen_cons. pose proof (zlen_nonneg t). lia.
  - apply not_elem_of_cons in Hs as [Hc Ht]. rewrite (proj2 (Z.eqb_neq c 0)) by congruence. rewrite IH, zlen_cons by done. lia.
Qed.
Lemma strlen_string : strlen (s ++ 0 :: r) = zlen s.
Proof. unfold strlen. rewrite strnlen_string, length_app. cbn [length]. unfold zlen. lia. Qed.

Lemma strlcpy_copy_string n : 0 < n ->
  strlcpy_copy n (s ++ 0 :: r) = if zlen s <? n - 1 then (s ++ [0], true, r) else (ztake (n - 1) s, false, zdrop (n - 1) s ++ 0 :: r).
Proof.
  clear -Hs. revert n. induction s as [|c t IH]; intros n Hn.
  - cbn [app strlcpy_copy]. change (zlen (@nil Z)) with 0. destruct (Z.eqb_spec (n - 1) 0) as [E|E].
    + rewrite E. done.
    + rewrite (proj2 (Z.ltb_lt 0 (n - 1))) by lia. done.
  - apply not_elem_of_cons in Hs as [Hc Ht]. cbn [app strlcpy_copy]. rewrite zlen_cons. pose proof (zlen_nonneg t). destruct (Z.eqb_spec (n - 1) 0) as [E|E].
    + rewrite E. rewrite (proj2 (Z.ltb_ge (1 + zlen t) 0)) by lia. done.
    + rewrite (proj2 (Z.eqb_neq c 0)) by congruence. rewrite IH by (done || lia).
      replace (zlen t <? n - 1 - 1) with (1 + zlen t <? n - 1) by (apply Bool.eq_iff_eq_true; rewrite !Z.ltb_lt; lia).
      destruct (1 + zlen t <? n - 1); [done|]. unfold ztake, zdrop. replace (Z.to_nat (n - 1)) with (S (Z.to_nat (n - 1 - 1))) by lia. done.
Qed.

(** [strlcpy] leaves the string, cut to what there is room for, and its terminator; it returns the length it
    would have needed. *)
Lemma strlcpy_string dst n : 0 < n -> strlcpy dst (s ++ 0 :: r) n = (overwrite dst 0 (ztake (n - 1) s ++ [0]), zlen s).
Proof.
  intros Hn. unfold strlcpy. rewrite (proj2 (Z.eqb_neq n 0)), strlcpy_copy_string by lia. destruct (Z.ltb_spec (zlen s) (n - 1)) as [Hlt|Hge].
  - rewrite ztake_ge by lia. f_equal. zl.
  - f_equal. unfold strlen. rewrite zlen_ztake, Z.min_l by lia.
    assert (E : forall t m, 0 ∉ t -> (length t < m)%nat -> strnlen (t ++ 0 :: r) m = zlen t).
    { clear. induction t as [|c t IH]; intros [|m] Ht Hm; cbn [strnlen app] in *; [lia|done|cbn in Hm; lia|].
      apply not_elem_of_cons in Ht as [Hc Ht]. rewrite (proj2 (Z.eqb_neq c 0)) by congruence. rewrite IH, zlen_cons by (done || (cbn in Hm; lia)). done. }
    rewrite E; [rewrite zlen_zdrop by lia; lia| |rewrite length_app; cbn; lia].
    intros Hin. apply Hs. unfold zdrop in Hin. rewrite <- (take_drop (Z.to_nat (n - 1)) s). apply elem_of_app. by right.
Qed.

Lemma strlcat_copy_string n : 0 <= n -> strlcat_copy n (s ++ 0 :: r) = ztake n s.
Proof.
  clear -Hs. revert n. induction s as [|c t IH]; intros n Hn; cbn [app strlcat_copy].
  - unfold ztake. by rewrite take_nil.
  - apply not_elem_of_cons in Hs as [Hc Ht]. rewrite (proj2 (Z.eqb_neq c 0)) by congruence. destruct (Z.eqb_spec n 0) as [->|Hz].
    + rewrite IH by done. done.
    + rewrite IH by (done || lia). unfold ztake. replace (Z.to_nat n) with (S (Z.to_nat (n - 1))) by lia. done.
Qed.

(** [strlcat] appends to the string [d] what there is room for; a string without a terminator within the size
    is left alone. *)
Lemma strlcat_string d e n : 0 ∉ d -> 0 <= n ->
  strlcat (d ++ 0 :: e) (s ++ 0 :: r) n =
    if zlen d <? n then (d ++ overwrite (0 :: e) 0 (ztake (n - zlen d - 1) s ++ [0]), zlen d + zlen s) else (d ++ 0 :: e, n + zlen s).
Proof.
  intros Hd Hn. unfold strlcat. rewrite strlen_string.
  assert (E : strnlen (d ++ 0 :: e) (Z.to_nat n) = Z.min (zlen d) n).
  { clear -Hd Hn. rewrite <- (Z2Nat.id n) at 2 by lia. generalize (Z.to_nat n) as k. clear Hn. induction d as [|c t IH]; intros [|k]; cbn [strnlen app].
    - done.
    - cbn [Z.eqb]. change (zlen (@nil Z)) with 0. lia.
    - rewrite zlen_cons. pose proof (zlen_nonneg t). lia.
    - apply not_elem_of_cons in Hd as [Hc Ht]. rewrite (proj2 (Z.eqb_neq c 0)) by congruence. rewrite IH, zlen_cons by done. lia. }
  rewrite E. pose proof (zlen_nonneg d). destruct (Z.ltb_spec (zlen d) n) as [Hlt|Hge].
  - rewrite Z.min_l by lia. rewrite (proj2 (Z.eqb_neq (n - zlen d) 0)), strlcat_copy_string by lia. f_equal.
    unfold overwrite. rewrite ztake_app_l, ztake_ge by lia. f_equal. change (ztake 0 ?l) with (@nil Z). cbn [app]. f_equal.
    rewrite zdrop_app_r by zl. f_equal. lia.
  - rewrite Z.min_r by lia. by rewrite Z.sub_diag.
Qed.
End Strings.
