(* ===== verification/HmacSign.v ===== *)
(** * Signing with HMAC keys (crypto/hmac/hm_pmeth.c, crypto/evp/m_sigver.c)

    TLS computes its MACs through the signature interface: a key of the type HMAC, and a digest context
    whose updates go to an HMAC context behind it.  The functions of the interface are given for such keys:
    the methods of [hmac_pkey_meth] stand where the interface calls a method, no engine implements them, and
    the context, whose flag [NO_INIT] the methods set, has no digest state of its own. *)
From S2P Require Import Prelude Compat Words EvpDigest Hmac Buffer.

(** [len] bytes of [data], or the string [data]; [str] is the old contents, [None] for NULL. *)
Definition ASN1_STRING_set `{Allocator} (data : list Z) (len : Z) : M (option (list Z)) unit := fun str =>
  let len := if len <? 0 then strlen data else len in
  let grow := match str with None => true | Some d => zlen d <? len end in
  if grow && negb (malloc_ok (len + 1)) then (None, str) else (Some tt, Some (ztake len data)).

Definition sizeof_ASN1_STRING : Z := 24.
Definition ASN1_STRING_dup `{Allocator} (str : list Z) : option (list Z) :=
  if malloc_ok sizeof_ASN1_STRING then (ASN1_STRING_set str (zlen str) None).2 else None.

Section HmacSign.
Context `{Allocator} `{Methods} `{!Engines}.

Record HMAC_PKEY_CTX := mkHmacPkey {
  pk_md : option md;
  ktmp : option (list Z);
  pk_ctx : HMAC_CTX
}.

Definition sizeof_HMAC_PKEY_CTX : Z := 320.
Definition pkey_hmac_init : option HMAC_PKEY_CTX :=
  if malloc_ok sizeof_HMAC_PKEY_CTX then Some (mkHmacPkey None None (HMAC_CTX_init blank_hmac)) else None.

Definition pkey_hmac_copy (src : HMAC_PKEY_CTX) : option HMAC_PKEY_CTX :=
  dctx ← pkey_hmac_init;
  match HMAC_CTX_copy (pk_ctx src) (HMAC_CTX_init (pk_ctx dctx)) with
  | (None, _) => None
  | (Some _, c) =>
      match ktmp src with
      | None => Some (mkHmacPkey (pk_md src) (ktmp dctx) c)
      | Some k =>
          match ASN1_STRING_set k (zlen k) (ktmp dctx) with
          | (None, _) => None
          | (Some _, k) => Some (mkHmacPkey (pk_md src) k c)
          end
      end
  end.

(** The commands of [pkey_hmac_ctrl]; [None] for [p2] is NULL. *)
Definition ctrl_set_mac_key (p1 : Z) (p2 : option (list Z)) : M HMAC_PKEY_CTX unit := fun hctx =>
  let no_key := match p2 with None => 0 <? p1 | Some _ => false end in
  if no_key || (p1 <? -1) then (None, hctx)
  else
  let set :=
    match p2 with
    | None => if p1 <? 0 then fail else ASN1_STRING_set [] 0
    | Some key => ASN1_STRING_set key p1
    end in
  let '(r, k) := set (ktmp hctx) in (r, mkHmacPkey (pk_md hctx) k (pk_ctx hctx)).
Definition ctrl_md (m : md) (hctx : HMAC_PKEY_CTX) : HMAC_PKEY_CTX := mkHmacPkey (Some m) (ktmp hctx) (pk_ctx hctx).
Definition ctrl_digestinit (key : list Z) : M HMAC_PKEY_CTX unit := fun hctx =>
  let '(r, c) := HMAC_Init_ex (Some key) (zlen key) (pk_md hctx) None (pk_ctx hctx) in (r, mkHmacPkey (pk_md hctx) (ktmp hctx) c).

(** The key that is generated. *)
Definition pkey_hmac_keygen (hctx : HMAC_PKEY_CTX) : option (list Z) := k ← ktmp hctx; ASN1_STRING_dup k.

(** *** Contexts *)

(** The digest context: [sg_pctx] is the key with the HMAC context, [None] for NULL. *)
Record sign_ctx := mkSign {
  sg_digest : option md;
  sg_flags : Z;
  sg_pctx : option (list Z * HMAC_PKEY_CTX)
}.
Definition sign_ctx_init : sign_ctx := mkSign None 0 None.

Definition int_update (data : list Z) : M sign_ctx unit := fun ctx =>
  match sg_pctx ctx with
  | None => (None, ctx)
  | Some (k, hctx) =>
      let '(r, c) := HMAC_Update data (pk_ctx hctx) in
      (r, mkSign (sg_digest ctx) (sg_flags ctx) (Some (k, mkHmacPkey (pk_md hctx) (ktmp hctx) c)))
  end.

Definition hmac_signctx_init (ctx : sign_ctx) : sign_ctx :=
  let set hctx := mkHmacPkey (pk_md hctx) (ktmp hctx) (HMAC_CTX_set_flags (Z.land (sg_flags ctx) (Z.lnot EVP_MD_CTX_FLAG_NO_INIT)) (pk_ctx hctx)) in
  mkSign (sg_digest ctx) (Z.lor (sg_flags ctx) EVP_MD_CTX_FLAG_NO_INIT) ((fun '(k, hctx) => (k, set hctx)) <$> sg_pctx ctx).

(** The MAC and its length, for a signature buffer that is not NULL. *)
Definition hmac_signctx : M sign_ctx (list Z * Z) := fun ctx =>
  match sg_digest ctx, sg_pctx ctx with
  | Some m, Some (k, hctx) =>
      if md_size m <? 0 then (None, ctx)
      else
      let '(r, c) := HMAC_Final (pk_ctx hctx) in
      (r, mkSign (sg_digest ctx) (sg_flags ctx) (Some (k, mkHmacPkey (pk_md hctx) (ktmp hctx) c)))
  | _, _ => (None, ctx)
  end.

Definition sizeof_EVP_PKEY_CTX : Z := 80.
Definition sizeof_EVP_PKEY : Z := 56.

(** The key; [keylen] is an [int]. *)
Definition EVP_PKEY_new_mac_key (key : option (list Z)) (keylen : Z) : option (list Z) :=
  if malloc_ok sizeof_EVP_PKEY_CTX then
    mac_ctx ← pkey_hmac_init;
    match ctrl_set_mac_key keylen key mac_ctx with
    | (None, _) => None
    | (Some _, mac_ctx) =>
        k ← pkey_hmac_keygen mac_ctx;
        if malloc_ok sizeof_EVP_PKEY then Some k else None
    end
  else None.

(** [EVP_PKEY_CTX_new(pkey, NULL)] where there is no context yet. *)
Definition sign_pctx (pkey : list Z) (ctx : sign_ctx) : option (list Z * HMAC_PKEY_CTX) :=
  match sg_pctx ctx with
  | Some p => Some p
  | None => if malloc_ok sizeof_EVP_PKEY_CTX then pair pkey <$> pkey_hmac_init else None
  end.

(** [EVP_DigestInit_ex] of a context with [NO_INIT]: the digest is set, and the key context told. *)
Definition sign_digest_init (type : md) : M sign_ctx unit := fun ctx =>
  let flags := Z.land (sg_flags ctx) (Z.lnot EVP_MD_CTX_FLAG_CLEANED) in
  match sg_pctx ctx with
  | None => (None, ctx)
  | Some (k, hctx) => let '(r, hctx) := ctrl_digestinit k hctx in (r, mkSign (Some type) flags (Some (k, hctx)))
  end.

Definition EVP_DigestSignInit (type : md) (pkey : list Z) : M sign_ctx unit := fun ctx =>
  match sign_pctx pkey ctx with
  | None => (None, ctx)
  | Some p =>
      let ctx := hmac_signctx_init (mkSign (sg_digest ctx) (sg_flags ctx) (Some p)) in
      let ctx := mkSign (sg_digest ctx) (sg_flags ctx) ((fun '(k, hctx) => (k, ctrl_md type hctx)) <$> sg_pctx ctx) in
      sign_digest_init type ctx
  end.

Definition EVP_DigestSignUpdate (data : list Z) : M sign_ctx unit := int_update data.

(** A copy of the context is finished, so that the context itself may go on. *)
Definition EVP_DigestSignFinal : M sign_ctx (list Z * Z) := fun ctx =>
  match sg_digest ctx, sg_pctx ctx with
  | Some _, Some (k, hctx) =>
      if malloc_ok sizeof_EVP_PKEY_CTX then
        match pkey_hmac_copy hctx with
        | None => (None, ctx)
        | Some dctx => ((hmac_signctx (mkSign (sg_digest ctx) (sg_flags ctx) (Some (k, dctx)))).1, ctx)
        end
      else (None, ctx)
  | _, _ => (None, ctx)
  end.
End HmacSign.

(** ** What they compute *)

Section Proofs.
Context `{Allocator} `{Methods} `{!Engines} `{!MdLaws}.
Context (no_engine : forall n, ENGINE_get_digest_engine n = None) (Hmem : forall n, malloc_ok n = true).

(** The calls on the digest contexts leave the key array alone. *)
Definition keeps_key {A} (f : M HMAC_CTX A) : Prop := forall c, hm_key (f c).2 = hm_key c.
Lemma keeps_key_bind {A B} (f : M HMAC_CTX A) (g : A -> M HMAC_CTX B) : keeps_key f -> (forall a, keeps_key (g a)) -> keeps_key (f ≫= g).
Proof. intros Hf Hg c. rewrite bind_eq. pose proof (Hf c) as E. destruct (f c) as [[a|] c1]; [|done]. by rewrite Hg. Qed.
Lemma keeps_md {A} (f : M Evp.EVP_MD_CTX A) : keeps_key (on_md f).
Proof. intros c. unfold on_md. by destruct (f _). Qed.
Lemma keeps_i {A} (f : M Evp.EVP_MD_CTX A) : keeps_key (on_i f).
Proof. intros c. unfold on_i. by destruct (f _). Qed.
Lemma keeps_o {A} (f : M Evp.EVP_MD_CTX A) : keeps_key (on_o f).
Proof. intros c. unfold on_o. by destruct (f _). Qed.
Lemma keeps_update x : keeps_key (HMAC_Update x).
Proof. intros c. unfold HMAC_Update. destruct (hm_md c); [apply keeps_md|done]. Qed.
Lemma keeps_start m : keeps_key (start_pads m None).
Proof. unfold start_pads. apply keeps_key_bind; [done|]. intros c. repeat (apply keeps_key_bind; [|intros _]); (apply keeps_i || apply keeps_o). Qed.

(** An HMAC context in which a key can be started, used or not. *)
Definition rekeyable (m : md) (c : HMAC_CTX) : Prop :=
  startable m (md_ctx c) /\ startable m (i_ctx c) /\ startable m (o_ctx c) /\ zlen (hm_key c) = 128.
Lemma macing_rekeyable m k c x : macing m k c x -> zlen (hm_key c) = 128 -> rekeyable m c.
Proof. intros [(_ & Hi & Ho & Hs) _] Hk. split_and!; try done; by eapply digesting_startable. Qed.

Lemma rekey_ok m k c : rekeyable m c -> Forall is_byte k -> zlen k < 2 ^ 31 ->
  exists c', HMAC_Init_ex (Some k) (zlen k) (Some m) None c = (Some tt, c') /\ macing m k c' [] /\ zlen (hm_key c') = 128.
Proof.
  intros (Hm & Hi & Ho & Hk) Hb Hl. unfold HMAC_Init_ex. rewrite (proj2 (Z.ltb_ge (zlen k) 0)) by zl. rewrite andb_false_r. cbn [set_md hm_md].
  destruct (load_key_ok no_engine m k (set_md (Some m) c)) as (c1 & E1 & F1 & K1); [by split_and!|done|lia|]. rewrite (bind_some _ _ _ _ _ E1).
  destruct (start_pads_ok no_engine m k c1 F1 K1) as (c2 & E2 & R2). rewrite (bind_some _ _ _ _ _ E2). destruct (restart_inner_ok m k c2 R2) as (c3 & E3 & M3). exists c3. split; [done|]. split; [done|].
  pose proof (keeps_start m c1) as Kc. rewrite E2 in Kc. cbn [snd] in Kc. pose proof (keeps_md (Evp.EVP_MD_CTX_copy_ex (i_ctx c2)) c2) as Kd. unfold restart_inner in E3. rewrite E3 in Kd. cbn [snd] in Kd.
  rewrite Kd, Kc. apply F1.
Qed.

Lemma HMAC_CTX_copy_ok m k c x d : macing m k c x -> zlen (hm_key c) = 128 ->
  exists c', HMAC_CTX_copy c d = (Some tt, c') /\ macing m k c' x /\ zlen (hm_key c') = 128.
Proof.
  intros [(Hmd & Hi & Ho & Hs) Hd] Hk. unfold HMAC_CTX_copy.
  destruct (copy_ok m _ _ _ Hi (new_startable m (Hmem _))) as (i' & Ei & Di). destruct (copy_ok m _ _ _ Ho (new_startable m (Hmem _))) as (o' & Eo & Do). destruct (copy_ok m _ _ _ Hd (new_startable m (Hmem _))) as (w' & Ew & Dw).
  erewrite bind_some by (apply on_i_some; exact Ei). erewrite bind_some by (apply on_o_some; exact Eo). erewrite bind_some by (apply on_md_some; exact Ew).
  eexists. split; [reflexivity|]. cbn. split; [|rewrite ztake_ge by (unfold HMAC_MAX_MD_CBLOCK; lia); done]. split; [|done]. split_and!; try done. by eapply digesting_startable.
Qed.

Lemma flags_startable m c fl : startable m c -> startable m (Evp.EVP_MD_CTX_set_flags (Z.land fl (Z.lnot EVP_MD_CTX_FLAG_NO_INIT)) c).
Proof.
  intros (He & Hf & Hp & Hd). split_and!; try done. cbn [Evp.EVP_MD_CTX_set_flags Evp.flags]. rewrite Z.land_lor_distr_l, Hf.
  by rewrite <- Z.land_assoc, (Z.land_comm (Z.lnot _)), Z.land_lnot_diag, Z.land_0_r.
Qed.

(** The key [k] has been given, and the bytes [x]. *)
Definition signing (m : md) (k : list Z) (ctx : sign_ctx) (x : list Z) : Prop :=
  sg_digest ctx = Some m /\
  exists hctx, sg_pctx ctx = Some (k, hctx) /\ pk_md hctx = Some m /\ macing m k (pk_ctx hctx) x /\ zlen (hm_key (pk_ctx hctx)) = 128.
(** New, or used with the same key. *)
Definition signable (m : md) (k : list Z) (ctx : sign_ctx) : Prop :=
  sg_pctx ctx = None \/ exists x, signing m k ctx x.

Lemma new_mac_key_ok k : zlen k < 2 ^ 31 -> EVP_PKEY_new_mac_key (Some k) (zlen k) = Some k.
Proof.
  intros Hl. pose proof (zlen_nonneg k). unfold EVP_PKEY_new_mac_key, pkey_hmac_init. rewrite !Hmem. cbn [mbind option_bind]. unfold ctrl_set_mac_key.
  rewrite (proj2 (Z.ltb_ge (zlen k) (-1))) by lia. cbn [orb ktmp]. unfold ASN1_STRING_set. rewrite Hmem, (proj2 (Z.ltb_ge (zlen k) 0)) by lia. cbn [negb andb].
  unfold pkey_hmac_keygen. cbn [ktmp mbind option_bind]. unfold ASN1_STRING_dup, ASN1_STRING_set. rewrite !Hmem. cbn [negb andb snd mbind option_bind].
  rewrite (ztake_ge (zlen k) k) by lia. rewrite (proj2 (Z.ltb_ge (zlen k) 0)) by lia. by rewrite ztake_ge by lia.
Qed.

Lemma DigestSignInit_ok m k ctx : signable m k ctx -> Forall is_byte k -> zlen k < 2 ^ 31 ->
  exists ctx', EVP_DigestSignInit m k ctx = (Some tt, ctx') /\ signing m k ctx' [].
Proof.
  intros Hs Hb Hl. unfold EVP_DigestSignInit.
  assert (Hp : exists hctx, sign_pctx k ctx = Some (k, hctx) /\ rekeyable m (pk_ctx hctx)).
  { unfold sign_pctx. destruct Hs as [->|(x & _ & hctx & -> & _ & Hm & Hk)].
    - unfold pkey_hmac_init. rewrite !Hmem. eexists. split; [reflexivity|]. cbn. split_and!; try (apply new_startable, Hmem). done.
    - exists hctx. split; [done|]. by eapply macing_rekeyable. }
  destruct Hp as (hctx & -> & (Hm & Hi & Ho & Hk)). unfold hmac_signctx_init, sign_digest_init. cbn [sg_pctx sg_flags sg_digest fmap option_fmap option_map].
  unfold ctrl_md, ctrl_digestinit. cbn [pk_md pk_ctx ktmp]. set (c := HMAC_CTX_set_flags _ _).
  assert (Hc : rekeyable m c) by (split_and!; try (by apply flags_startable); done).
  destruct (rekey_ok m k c Hc Hb Hl) as (c' & E & M' & K'). rewrite E. eexists. split; [reflexivity|]. split; [done|]. eexists. split; [reflexivity|]. done.
Qed.

Lemma DigestSignUpdate_ok m k ctx s x : signing m k ctx s -> zlen x < 2 ^ 63 ->
  exists ctx', EVP_DigestSignUpdate x ctx = (Some tt, ctx') /\ signing m k ctx' (s ++ x).
Proof.
  intros (Hd & hctx & Hp & Hmd & Hm & Hk) Hl. unfold EVP_DigestSignUpdate, int_update. rewrite Hp. destruct (HMAC_Update_ok m k _ s x Hm Hl) as (c' & E & M').
  pose proof (keeps_update x (pk_ctx hctx)) as Kc. rewrite E in *. cbn [snd] in Kc. eexists. split; [reflexivity|]. split; [done|]. eexists. split; [reflexivity|]. cbn. split_and!; try done. by rewrite Kc.
Qed.

(** The MAC of what was given; the context can go on or be started again. *)
Lemma DigestSignFinal_ok m k ctx x : signing m k ctx x -> Forall is_byte k -> Forall is_byte x ->
  EVP_DigestSignFinal ctx = (Some (hmac m k x, md_size m), ctx).
Proof.
  intros (Hd & hctx & Hp & Hmd & Hm & Hk) Hb Hx. unfold EVP_DigestSignFinal. rewrite Hd, Hp, Hmem. unfold pkey_hmac_copy, pkey_hmac_init. rewrite Hmem. cbn [mbind option_bind pk_ctx].
  destruct (HMAC_CTX_copy_ok m k _ x (HMAC_CTX_init (HMAC_CTX_init blank_hmac)) Hm Hk) as (c' & -> & M' & _). pose proof (md_sizes m) as (Hs & _).
  destruct (HMAC_Final_ok m k c' x M' Hb Hx) as (c2 & E & _).
  assert (Hsig : forall kt, (hmac_signctx (mkSign (Some m) (sg_flags ctx) (Some (k, mkHmacPkey (pk_md hctx) kt c')))).1 = Some (hmac m k x, md_size m)).
  { intros kt. unfold hmac_signctx. cbn [sg_digest sg_pctx pk_ctx]. rewrite (proj2 (Z.ltb_ge (md_size m) 0)) by lia. by rewrite E. }
  destruct (ktmp hctx) as [kt|]; [|by rewrite Hsig]. unfold ASN1_STRING_set. rewrite Hmem, andb_false_r. by rewrite Hsig.
Qed.
End Proofs.
