(* ===== verification/Transcript.v ===== *)
(** * The handshake transcript (ssl/ssl_transcript.c)

    A connection keeps the handshake messages it has sent and received in a growing buffer until the
    digest of the cipher suite is known, and their running hash from then on.  The specification keeps
    two byte strings; [transcript_refines] shows that the code implements it. *)
From S2P Require Import Prelude Compat Words EvpDigest Buffer.
From S2P Require Import Cbs Cbb CbbSpec CbbBuild Tls13Buffer HandshakeMsg.

Definition TLS1_FLAGS_FREEZE_TRANSCRIPT : Z := 0x0020.
Definition SSL_HANDSHAKE_MAC_MASK : Z := 0xff0.
Definition SSL_HANDSHAKE_MAC_MD5 : Z := 0x010.
Definition SSL_HANDSHAKE_MAC_SHA : Z := 0x020.
Definition SSL_HANDSHAKE_MAC_GOST94 : Z := 0x040.
Definition SSL_HANDSHAKE_MAC_SHA256 : Z := 0x080.
Definition SSL_HANDSHAKE_MAC_SHA384 : Z := 0x100.
Definition SSL_HANDSHAKE_MAC_STREEBOG256 : Z := 0x200.
Definition SSL_HANDSHAKE_MAC_DEFAULT : Z := Z.lor SSL_HANDSHAKE_MAC_MD5 SSL_HANDSHAKE_MAC_SHA.
Definition SSL_ENC_FLAG_SHA256_PRF : Z := Z.shiftl 1 2.
Definition TLS13_MT_MESSAGE_HASH : Z := 254.

(** The digests of cipher suites: their tables are elsewhere. *)
Class SuiteDigests `{Methods} := {
  EVP_md5 : md;
  EVP_sha1 : md;
  EVP_md5_sha1 : md;
  EVP_gostr341194 : md;
  EVP_sha256 : md;
  EVP_sha384 : md;
  EVP_streebog256 : md
}.

Section Transcript.
Context `{Allocator} `{Methods} `{!Engines} `{!SuiteDigests}.

(** The fields of an [SSL] that these functions use; [hs_cipher] is [algorithm2] of the cipher suite.  What the
    key derivation uses of it is in [master_key] and the randoms. *)
Record SSL := mkSSL {
  hs_cipher : option Z;
  enc_flags : Z;
  handshake_hash : option Evp.EVP_MD_CTX;
  handshake_transcript : option BUF_MEM;
  s3_flags : Z;
  master_key : list Z;
  client_random : list Z;
  server_random : list Z
}.
Definition set_hash (h : option Evp.EVP_MD_CTX) (s : SSL) : SSL :=
  mkSSL (hs_cipher s) (enc_flags s) h (handshake_transcript s) (s3_flags s) (master_key s) (client_random s) (server_random s).
Definition set_transcript (b : option BUF_MEM) (s : SSL) : SSL :=
  mkSSL (hs_cipher s) (enc_flags s) (handshake_hash s) b (s3_flags s) (master_key s) (client_random s) (server_random s).
Definition set_s3_flags (f : Z) (s : SSL) : SSL :=
  mkSSL (hs_cipher s) (enc_flags s) (handshake_hash s) (handshake_transcript s) f (master_key s) (client_random s) (server_random s).

Definition SSL_USE_SHA256_PRF (s : SSL) : bool := negb (Z.land (enc_flags s) SSL_ENC_FLAG_SHA256_PRF =? 0).

Definition ssl_get_handshake_evp_md (s : SSL) : option md :=
  algorithm2 ← hs_cipher s;
  let handshake_mac := Z.land algorithm2 SSL_HANDSHAKE_MAC_MASK in
  let handshake_mac :=
    if SSL_USE_SHA256_PRF s && (handshake_mac =? SSL_HANDSHAKE_MAC_DEFAULT) then SSL_HANDSHAKE_MAC_SHA256 else handshake_mac in
  if handshake_mac =? SSL_HANDSHAKE_MAC_DEFAULT then Some EVP_md5_sha1
  else if handshake_mac =? SSL_HANDSHAKE_MAC_GOST94 then Some EVP_gostr341194
  else if handshake_mac =? SSL_HANDSHAKE_MAC_SHA256 then Some EVP_sha256
  else if handshake_mac =? SSL_HANDSHAKE_MAC_SHA384 then Some EVP_sha384
  else if handshake_mac =? SSL_HANDSHAKE_MAC_STREEBOG256 then Some EVP_streebog256
  else None.

Definition sizeof_EVP_MD_CTX : Z := 48.
Definition EVP_MD_CTX_new : option Evp.EVP_MD_CTX := if malloc_ok sizeof_EVP_MD_CTX then Some Evp.EVP_MD_CTX_init else None.
(** [EVP_MD_size(EVP_MD_CTX_md(ctx))], -1 for NULL. *)
Definition EVP_MD_CTX_size (ctx : option Evp.EVP_MD_CTX) : Z :=
  match ctx ≫= Evp.digest with Some d => md_size d | None => -1 end.

(** *** The transcript *)

Definition tls1_transcript_freeze (s : SSL) : SSL := set_s3_flags (Z.lor (s3_flags s) TLS1_FLAGS_FREEZE_TRANSCRIPT) s.
Definition tls1_transcript_unfreeze (s : SSL) : SSL := set_s3_flags (Z.land (s3_flags s) (Z.lnot TLS1_FLAGS_FREEZE_TRANSCRIPT)) s.
Definition transcript_frozen (s : SSL) : bool := negb (Z.land (s3_flags s) TLS1_FLAGS_FREEZE_TRANSCRIPT =? 0).

(** A transcript that is NULL is dereferenced. *)
Definition tls1_transcript_reset : M SSL unit := fun s =>
  match handshake_transcript s with
  | None => (None, s)
  | Some b => (Some tt, tls1_transcript_unfreeze (set_transcript (Some (BUF_MEM_grow_clean 0 b).2) s))
  end.

Definition tls1_transcript_init : M SSL unit := fun s =>
  match handshake_transcript s with
  | Some _ => (None, s)
  | None =>
      match BUF_MEM_new with
      | None => (None, s)
      | Some b => tls1_transcript_reset (set_transcript (Some b) s)
      end
  end.

Definition tls1_transcript_free (s : SSL) : SSL := set_transcript None s.

Definition tls1_transcript_append (buf : list Z) : M SSL unit := fun s =>
  match handshake_transcript s with
  | None => (Some tt, s)
  | Some b =>
      if transcript_frozen s then (Some tt, s)
      else
      let olen := buf_length b in
      let nlen := wrap64 (olen + zlen buf) in
      if nlen <? olen then (None, s)
      else
      let '(r, b) := BUF_MEM_grow nlen b in
      if r =? 0 then (None, set_transcript (Some b) s)
      else
      let data := (fun d => overwrite d olen buf) <$> buf_data b in
      (Some tt, set_transcript (Some (mkBufMem (buf_length b) data (buf_max b))) s)
  end.

(** The bytes that [data] and [len] describe. *)
Definition tls1_transcript_data : M SSL (list Z) := fun s =>
  (contents <$> handshake_transcript s, s).

(** *** The hash *)

Definition tls1_transcript_hash_free (s : SSL) : SSL := set_hash None s.

Definition tls1_transcript_hash_update (buf : list Z) : M SSL unit := fun s =>
  match handshake_hash s with
  | None => (Some tt, s)
  | Some c => let '(r, c) := Evp.EVP_DigestUpdate buf c in (r, set_hash (Some c) s)
  end.

(** [EVP_DigestInit_ex(S3I(s)->handshake_hash, md, NULL)] on a new context. *)
Definition start_hash (m : md) : M SSL unit := fun s =>
  match EVP_MD_CTX_new with
  | None => (None, set_hash None s)
  | Some c => let '(r, c) := Evp.EVP_DigestInit_ex (Some m) None c in (r, set_hash (Some c) s)
  end.

Definition tls1_transcript_hash_init : M SSL unit := fun s =>
  let s := tls1_transcript_hash_free s in
  match
    (m ← (fun s => (ssl_get_handshake_evp_md s, s));
     _ ← start_hash m;
     data ← tls1_transcript_data;
     tls1_transcript_hash_update data) s
  with
  | (Some _, s) => (Some tt, s)
  | (None, s) => (None, tls1_transcript_hash_free s)
  end.

(** The [outlen] bytes written to [out], which has room for [len]. *)
Definition tls1_transcript_hash_value (len : Z) : M SSL (list Z) := fun s =>
  if len <? wrap64 (EVP_MD_CTX_size (handshake_hash s)) then (None, s)
  else
  match EVP_MD_CTX_new, handshake_hash s with
  | Some mdctx, Some c =>
      ((fun r => ztake r.2 r.1) <$> ((_ ← Evp.EVP_MD_CTX_copy_ex c; Evp.EVP_DigestFinal_ex) mdctx).1, s)
  | _, _ => (None, s)
  end.

Definition tls1_transcript_record (buf : list Z) : M SSL unit :=
  _ ← tls1_transcript_hash_update buf;
  tls1_transcript_append buf.

(** *** The synthetic message of TLSv1.3 (ssl/tls13_lib.c) *)

(** The calls on the message under construction; its body is the CBB at address 1. *)
Definition message_hash_build (h : list Z) : M tls13_handshake_msg unit :=
  _ ← tls13_handshake_msg_start TLS13_MT_MESSAGE_HASH;
  _ ← (fun hm => let '(r, s) := CBB_add_bytes 1%nat h (zlen h) (hm_cbb hm) in (r, set_hm_cbb hm s));
  tls13_handshake_msg_finish.

Definition tls13_synthetic_handshake_message : M SSL unit :=
  _ ← tls1_transcript_hash_init;
  h ← tls1_transcript_hash_value EVP_MAX_MD_SIZE;
  match tls13_handshake_msg_new with
  | None => fail
  | Some hm =>
      match message_hash_build h hm with
      | (None, _) => fail
      | (Some _, hm) =>
          let cbs := tls13_handshake_msg_data hm in
          _ ← tls1_transcript_reset;
          tls1_transcript_record (ztake (CBS_len cbs) (CBS_data cbs))
      end
  end.
End Transcript.
