(* ===== verification/TranscriptSpec.v ===== *)
(** * What the transcript promises

    The specification of ssl_transcript.c keeps the recorded bytes and the bytes that went into the hash.
    Operations are data, so that a theorem can speak of any sequence of them. *)
From S2P Require Import Prelude Compat Words EvpDigest Buffer.
From S2P Require Import Sha256 Hmac Cbs Cbb CbbSpec CbbBuild Tls13Buffer HandshakeMsg Transcript.

Section Spec.
Context `{Methods} `{!MdLaws}.

(** [suite_md] is the digest of the cipher suite, when there is one. *)
Record transcript := mkTr {
  suite_md : option md;
  recorded : option (list Z);
  hashed : option (md * list Z);
  frozen : bool
}.

Inductive transcript_op :=
| Init | Record_message (m : list Z) | Hash_init | Hash_value (room : Z) | Data | Freeze | Unfreeze | Reset | Free | Hash_free.

Definition hash_more (m : list Z) (t : transcript) : transcript :=
  mkTr (suite_md t) (recorded t) ((fun '(d, l) => (d, l ++ m)) <$> hashed t) (frozen t).

(** The result of an operation, [None] for failure, and the new transcript. *)
Definition transcript_spec (o : transcript_op) : M transcript (list Z) := fun t =>
  match o with
  | Init =>
      match recorded t with
      | Some _ => (None, t)
      | None => (Some [], mkTr (suite_md t) (Some []) (hashed t) false)
      end
  | Record_message m =>
      let t := hash_more m t in
      match recorded t with
      | None => (Some [], t)
      | Some l =>
          if frozen t then (Some [], t)
          else if bool_decide (l ++ m = []) then (None, t)   (* an empty message cannot be the first *)
          else (Some [], mkTr (suite_md t) (Some (l ++ m)) (hashed t) (frozen t))
      end
  | Hash_init =>
      match suite_md t, recorded t with
      | Some d, Some l => (Some [], mkTr (suite_md t) (recorded t) (Some (d, l)) (frozen t))
      | _, _ => (None, mkTr (suite_md t) (recorded t) None (frozen t))
      end
  | Hash_value room =>
      match hashed t with
      | Some (d, l) => (if md_size d <=? room then Some (md_hash d l) else None, t)
      | None => (None, t)
      end
  | Data => (recorded t, t)
  | Freeze => (Some [], mkTr (suite_md t) (recorded t) (hashed t) true)
  | Unfreeze => (Some [], mkTr (suite_md t) (recorded t) (hashed t) false)
  | Reset =>
      match recorded t with
      | Some _ => (Some [], mkTr (suite_md t) (Some []) (hashed t) false)
      | None => (None, t)
      end
  | Free => (Some [], mkTr (suite_md t) None (hashed t) (frozen t))
  | Hash_free => (Some [], mkTr (suite_md t) (recorded t) None (frozen t))
  end.

(** The results of a sequence of operations, of which any may fail. *)
Fixpoint run_all {S} (step : transcript_op -> M S (list Z)) (os : list transcript_op) : State S (list (option (list Z))) := fun s =>
  match os with
  | [] => ([], s)
  | o :: os => let '(r, s) := step o s in let '(rs, s) := run_all step os s in (r :: rs, s)
  end.
End Spec.

Section Code.
Context `{Allocator} `{Methods} `{!Engines} `{!SuiteDigests}.

(** The function behind an operation. *)
Definition run_op (o : transcript_op) : M SSL (list Z) :=
  let void (f : SSL -> SSL) : M SSL (list Z) := fun s => (Some [], f s) in
  let ok (m : M SSL unit) : M SSL (list Z) := _ ← m; mret [] in
  match o with
  | Init => ok tls1_transcript_init
  | Record_message m => ok (tls1_transcript_record m)
  | Hash_init => ok tls1_transcript_hash_init
  | Hash_value room => tls1_transcript_hash_value room
  | Data => tls1_transcript_data
  | Freeze => void tls1_transcript_freeze
  | Unfreeze => void tls1_transcript_unfreeze
  | Reset => ok tls1_transcript_reset
  | Free => void tls1_transcript_free
  | Hash_free => void tls1_transcript_hash_free
  end.
End Code.

(** The bytes an operation adds, at most. *)
Definition op_bytes (o : transcript_op) : list Z := match o with Record_message m => m | _ => [] end.
Definition op_ok (o : transcript_op) : Prop :=
  Forall is_byte (op_bytes o) /\ match o with Hash_value room => 0 <= room < 2 ^ 64 | _ => True end.

Section Refinement.
Context `{Allocator} `{Methods} `{!Engines} `{!MdLaws} `{!SuiteDigests}.
Context (no_engine : forall n, ENGINE_get_digest_engine n = None) (Hmem : forall n, malloc_ok n = true).

(** How much is recorded. *)
Definition recorded_len (t : transcript) : Z := match recorded t with Some l => zlen l | None => 0 end.

Record refines (s : SSL) (t : transcript) : Prop := {
  rf_md : ssl_get_handshake_evp_md s = suite_md t;
  rf_frozen : transcript_frozen s = frozen t;
  rf_recorded :
    match handshake_transcript s, recorded t with
    | Some b, Some l => buf_ok b /\ contents b = l /\ Forall is_byte l
    | None, None => True
    | _, _ => False
    end;
  rf_hashed :
    match handshake_hash s, hashed t with
    | Some c, Some (d, l) => digesting d c l /\ Forall is_byte l
    | None, None => True
    | _, _ => False
    end
}.

Lemma frozen_set f : negb (Z.land (Z.lor f TLS1_FLAGS_FREEZE_TRANSCRIPT) TLS1_FLAGS_FREEZE_TRANSCRIPT =? 0) = true.
Proof.
  unfold TLS1_FLAGS_FREEZE_TRANSCRIPT. rewrite Z.land_lor_distr_l. change (Z.land 0x20 0x20) with 0x20.
  destruct (Z.eqb_spec (Z.lor (Z.land f 0x20) 0x20) 0) as [E|]; [|done]. apply Z.lor_eq_0_iff in E. lia.
Qed.
Lemma frozen_clear f : negb (Z.land (Z.land f (Z.lnot TLS1_FLAGS_FREEZE_TRANSCRIPT)) TLS1_FLAGS_FREEZE_TRANSCRIPT =? 0) = false.
Proof. by rewrite <- Z.land_assoc, (Z.land_comm (Z.lnot _)), Z.land_lnot_diag, Z.land_0_r. Qed.

(** A buffer that is grown to a length it had before, or to one that is in the limit. *)
Lemma grow_mem len b : buf_ok b -> 0 <= len <= LIMIT_BEFORE_EXPANSION -> grows len b (BUF_MEM_grow len b).
Proof. intros Hb Hl. destruct (grow_ok len b Hb ltac:(lia)) as [Hg|(_ & _ & [Hx|Hx])]; [done|lia|by rewrite Hmem in Hx]. Qed.

(** Appending to a buffer. *)
Lemma append_ok b l x : buf_ok b -> contents b = l -> zlen l + zlen x <= LIMIT_BEFORE_EXPANSION -> 0 < zlen l + zlen x ->
  exists b', BUF_MEM_grow (zlen l + zlen x) b = (zlen l + zlen x, b') /\
    let b'' := mkBufMem (buf_length b') ((fun d => overwrite d (zlen l) x) <$> buf_data b') (buf_max b') in buf_ok b'' /\ contents b'' = l ++ x.
Proof.
  intros Hb Hc Hle Hpos. pose proof (zlen_nonneg x). pose proof (zlen_contents b Hb) as Hlen. rewrite Hc in Hlen. pose proof (zlen_nonneg l).
  destruct (grow_mem (zlen l + zlen x) b Hb ltac:(lia)) as (E1 & [Ol Om Od] & E2 & E3 & E4). destruct (BUF_MEM_grow _ b) as [r b']. cbn [fst snd] in *. subst r.
  exists b'. split; [done|]. destruct (E4 Hpos) as [d Hd]. rewrite Hd in *. cbn zeta. unfold contents in *. cbn [fmap option_fmap option_map buf_data buf_length buf_max] in *. rewrite Hd in E3.
  assert (Hz : zlen (overwrite d (zlen l) x) = buf_max b') by (rewrite zlen_overwrite by lia; lia).
  split; [split; cbn; (lia || done)|]. rewrite E2. rewrite Hc, <- Hlen in E3. rewrite ztake_ztake in E3. rewrite (ztake_ge (zlen l + zlen x) l) in E3 by lia.
  rewrite Z.min_l in E3 by lia. unfold overwrite. rewrite E3. rewrite app_assoc, ztake_app_l, ztake_ge by zl. done.
Qed.
(** The code's step and the specification's agree. *)
Definition agree (p : option (list Z) * SSL) (q : option (list Z) * transcript) : Prop := p.1 = q.1 /\ refines p.2 q.2.

Lemma update_refines x s t : refines s t -> Forall is_byte x -> zlen x < 2 ^ 63 ->
  exists s', tls1_transcript_hash_update x s = (Some tt, s') /\ refines s' (hash_more x t) /\ handshake_transcript s' = handshake_transcript s /\ s3_flags s' = s3_flags s.
Proof.
  intros [Rm Rf Rr Rh] Hx Hl. unfold tls1_transcript_hash_update, hash_more. destruct (handshake_hash s) as [c|] eqn:Ec, (hashed t) as [[d l]|] eqn:Et; try done.
  - destruct Rh as [Hd Hb]. destruct (DigestUpdate_ok d c l x Hd Hl) as (c' & E & D). rewrite E. eexists. split; [reflexivity|]. split; [|done].
    split; cbn; [exact Rm|exact Rf|exact Rr|]. split; [done|]. by apply Forall_app.
  - exists s. split; [done|]. split; [|done]. split; cbn; rewrite ?Ec; done.
Qed.

Lemma append_refines x s t : refines s t -> Forall is_byte x -> recorded_len t + zlen x <= LIMIT_BEFORE_EXPANSION ->
  agree ((_ ← tls1_transcript_append x; mret []) s)
    (match recorded t with
     | None => (Some [], t)
     | Some l =>
         if frozen t then (Some [], t)
         else if bool_decide (l ++ x = []) then (None, t)
         else (Some [], mkTr (suite_md t) (Some (l ++ x)) (hashed t) (frozen t))
     end).
Proof.
  intros R Hx Hl. pose proof R as [Rm Rf Rr Rh]. unfold tls1_transcript_append. rewrite bind_eq. unfold recorded_len in Hl.
  destruct (handshake_transcript s) as [b|] eqn:Eb, (recorded t) as [l|] eqn:El; try done. destruct Rr as (Hb & Hc & Hby).
  rewrite Rf. destruct (frozen t) eqn:Ef; [done|]. rewrite <- Ef in Rf. pose proof (zlen_contents b Hb) as Hlen. rewrite Hc in Hlen. pose proof (zlen_nonneg l). pose proof (zlen_nonneg x).
  unfold LIMIT_BEFORE_EXPANSION in Hl. rewrite <- Hlen. unfold wrap64. rewrite Z.mod_small by lia. rewrite (proj2 (Z.ltb_ge _ _)) by lia.
  destruct (decide (l ++ x = [])) as [E|E].
  - rewrite bool_decide_true by done. apply app_eq_nil in E as [-> ->]. change (zlen (@nil Z)) with 0.
    destruct (grow_mem (0 + 0) b Hb ltac:(unfold LIMIT_BEFORE_EXPANSION; lia)) as (E1 & Ok & E2 & E3 & _). destruct (BUF_MEM_grow _ b) as [r b']. cbn [fst snd] in *. subst r. change (0 + 0 =? 0) with true. cbv iota beta.
    split; [done|]. split; cbn; try done. rewrite El. split_and!; try done. apply zlen_0_nil. rewrite zlen_contents by done. done.
  - rewrite bool_decide_false by done. assert (Hpos : 0 < zlen l + zlen x).
    { destruct (Z.eq_dec (zlen l + zlen x) 0) as [Hz|]; [|lia]. exfalso. apply E, zlen_0_nil. by rewrite zlen_app. }
    destruct (append_ok b l x Hb Hc Hl Hpos) as (b' & -> & Ok & Ec). rewrite (proj2 (Z.eqb_neq _ 0)) by lia.
    split; [done|]. split; cbn; try done; [by rewrite <- Ef|]. split_and!; try done. by apply Forall_app.
Qed.

Lemma hash_init_refines s t : refines s t -> recorded_len t <= LIMIT_BEFORE_EXPANSION ->
  agree ((_ ← tls1_transcript_hash_init; mret []) s) (transcript_spec Hash_init t).
Proof.
  intros [Rm Rf Rr Rh] Hl. unfold recorded_len in Hl. unfold tls1_transcript_hash_init. rewrite bind_eq. cbn [transcript_spec].
  set (s0 := tls1_transcript_hash_free s). rewrite (bind_eq (fun s => (ssl_get_handshake_evp_md s, s))).
  change (ssl_get_handshake_evp_md s0) with (ssl_get_handshake_evp_md s). rewrite Rm. destruct (suite_md t) as [d|] eqn:Ed.
  2: { split; [done|]. split; cbn; (exact Rm || exact Rf || exact Rr || done). }
  destruct (DigestInit_ok no_engine d _ (new_startable d (Hmem _))) as (c & E & D).
  assert (Es : start_hash d s0 = (Some tt, set_hash (Some c) s0)) by (unfold start_hash, EVP_MD_CTX_new; rewrite Hmem, E; done).
  rewrite (bind_some _ _ _ _ _ Es). unfold tls1_transcript_data. rewrite (bind_eq (fun s => (contents <$> handshake_transcript s, s))).
  cbn [set_hash handshake_transcript s0 tls1_transcript_hash_free]. destruct (handshake_transcript s) as [b|] eqn:Eb, (recorded t) as [l|] eqn:El; try done; cbn [fmap option_fmap option_map].
  - destruct Rr as (Hb & Hc & Hby). rewrite Hc. unfold LIMIT_BEFORE_EXPANSION in Hl. destruct (DigestUpdate_ok d c [] l D ltac:(lia)) as (c' & E' & D').
    unfold tls1_transcript_hash_update. cbn [set_hash handshake_hash]. rewrite E'. split; [done|]. split; cbn; try done. by rewrite Eb.
  - split; [done|]. split; cbn; try done. by rewrite Eb.
Qed.

Lemma hash_value_refines room s t : refines s t -> 0 <= room < 2 ^ 64 -> agree (tls1_transcript_hash_value room s) (transcript_spec (Hash_value room) t).
Proof.
  intros R Hr. pose proof R as [Rm Rf Rr Rh]. unfold tls1_transcript_hash_value, EVP_MD_CTX_size, EVP_MD_CTX_new. rewrite Hmem. cbn [transcript_spec].
  destruct (handshake_hash s) as [c|] eqn:Ec, (hashed t) as [[d l]|] eqn:Et; try done.
  - destruct Rh as [D Hb]. cbn [mbind option_bind]. pose proof D as (_ & _ & _ & Hd & _). rewrite Hd. pose proof (md_sizes d) as (Hs & _). unfold wrap64. rewrite Z.mod_small by lia.
    destruct (Z.ltb_spec room (md_size d)) as [Hlt|Hge]; [rewrite (proj2 (Z.leb_gt _ _)) by lia; done|]. rewrite (proj2 (Z.leb_le _ _)) by lia.
    destruct (copy_ok d c l _ D (new_startable d (Hmem _))) as (c1 & E1 & D1). rewrite (bind_some _ _ _ _ _ E1). destruct (DigestFinal_ok d c1 l D1 Hb) as (c2 & E2 & _). rewrite E2.
    split; [|done]. cbn. f_equal. apply ztake_ge. rewrite (proj1 (md_hash_ok d l)). lia.
  - cbn [mbind option_bind]. destruct (_ <? _); done.
Qed.

Lemma reset_refines s t : refines s t -> agree ((_ ← tls1_transcript_reset; mret []) s) (transcript_spec Reset t).
Proof.
  intros R. pose proof R as [Rm Rf Rr Rh]. unfold tls1_transcript_reset. rewrite bind_eq. cbn [transcript_spec].
  destruct (handshake_transcript s) as [b|] eqn:Eb, (recorded t) as [l|] eqn:El; try done. destruct Rr as (Hb & Hc & Hby).
  destruct (grow_mem 0 b Hb ltac:(unfold LIMIT_BEFORE_EXPANSION; lia)) as (E1 & Ok & E2 & _). change (BUF_MEM_grow 0 b) with (BUF_MEM_grow_clean 0 b) in *.
  split; [done|]. split; cbn [snd fst]; try done; [apply frozen_clear|]. cbn. split_and!; try done. apply zlen_0_nil. by rewrite zlen_contents.
Qed.

Lemma op_refines o s t : refines s t -> op_ok o -> recorded_len t + zlen (op_bytes o) <= LIMIT_BEFORE_EXPANSION -> agree (run_op o s) (transcript_spec o t).
Proof.
  intros R [Hx Hr] Hl. pose proof R as [Rm Rf Rr Rh]. pose proof (zlen_nonneg (op_bytes o)). destruct o as [|m| |room| | | | | |]; cbn [run_op op_bytes] in *.
  - cbn [transcript_spec]. unfold tls1_transcript_init. rewrite bind_eq. destruct (handshake_transcript s) as [b|] eqn:Eb, (recorded t) as [l|] eqn:El; try done.
    unfold BUF_MEM_new. rewrite Hmem. set (b0 := mkBufMem 0 None 0).
    assert (R0 : refines (set_transcript (Some b0) s) (mkTr (suite_md t) (Some []) (hashed t) (frozen t))).
    { split; cbn; try done. }
    apply reset_refines in R0. rewrite bind_eq in R0. exact R0.
  - unfold LIMIT_BEFORE_EXPANSION in *. destruct (update_refines m s t R Hx) as (s1 & E & R1 & _); [unfold recorded_len in Hl; destruct (recorded t); zl_pose; lia|].
    unfold tls1_transcript_record. rewrite bind_eq. rewrite (bind_some _ _ _ _ _ E). cbn [transcript_spec]. rewrite <- bind_eq. by apply append_refines.
  - apply hash_init_refines; [done|lia].
  - by apply hash_value_refines.
  - split; [|done]. cbn. destruct (handshake_transcript s) as [b|], (recorded t) as [l|]; try done. cbn. by destruct Rr as (_ & -> & _).
  - split; [done|]. split; cbn; try done. apply frozen_set.
  - split; [done|]. split; cbn; try done. apply frozen_clear.
  - by apply reset_refines.
  - split; [done|]. by split.
  - split; [done|]. by split.
Qed.

Definition total_bytes (os : list transcript_op) : Z := foldr (fun o n => zlen (op_bytes o) + n) 0 os.
Lemma total_nonneg os : 0 <= total_bytes os.
Proof. induction os as [|o os IH]; [done|]. cbn [total_bytes foldr]. fold (total_bytes os). pose proof (zlen_nonneg (op_bytes o)). lia. Qed.
Lemma recorded_len_step o t : recorded_len (transcript_spec o t).2 <= recorded_len t + zlen (op_bytes o).
Proof.
  unfold recorded_len. pose proof (zlen_nonneg (op_bytes o)). destruct o as [|m| | | | | | | |]; cbn [transcript_spec op_bytes] in *; rewrite ?zlen_nil;
    repeat case_match; simplify_eq/=; repeat case_match; simplify_eq/=; zl_pose; rewrite ?zlen_app, ?zlen_nil; try lia.
Qed.

(** The steps of a sequence, one after the other. *)
Lemma run_refines os s t :
  refines s t -> Forall op_ok os -> recorded_len t + total_bytes os <= LIMIT_BEFORE_EXPANSION ->
  (run_all run_op os s).1 = (run_all transcript_spec os t).1 /\ refines (run_all run_op os s).2 (run_all transcript_spec os t).2.
Proof.
  intros R Ho. revert s t R. induction Ho as [|o os Hx _ IH]; intros s t R Hl; [done|]. cbn [run_all total_bytes foldr] in *. fold (total_bytes os) in Hl.
  pose proof (total_nonneg os). destruct (op_refines o s t R Hx ltac:(lia)) as [E R']. pose proof (recorded_len_step o t).
  destruct (run_op o s) as [r s1], (transcript_spec o t) as [r' t1]. cbn [fst snd] in *. subst r'. destruct (IH s1 t1 R' ltac:(lia)) as [E2 R2].
  destruct (run_all run_op os s1) as [rs s2], (run_all transcript_spec os t1) as [rs' t2]. cbn [fst snd] in *. by subst rs'.
Qed.

(** ** The synthetic message *)

Lemma message_hash_ok h hm : Forall is_byte h -> zlen h <= EVP_MAX_MD_SIZE ->
  exists hm', message_hash_build h hm = (Some tt, hm') /\ hm_data hm' = Some (msg_encode TLS13_MT_MESSAGE_HASH h) /\ hm_data_len hm' = zlen (msg_encode TLS13_MT_MESSAGE_HASH h).
Proof.
  unfold EVP_MAX_MD_SIZE. intros Hb Hl. set (m := Bytes h Done).
  assert (Hm : wf_msg m) by (cbn [wf_msg m]; unfold SIZE_MAX; split_and!; (done || lia)).
  assert (He : encode m = Some h) by (cbn [encode m mbind option_bind]; by rewrite app_nil_r).
  assert (E : message_hash_build h hm = msg_build TLS13_MT_MESSAGE_HASH m hm).
  { unfold message_hash_build, msg_build. cbn [m cbb_build]. rewrite !bind_eq. destruct (tls13_handshake_msg_start _ hm) as [[[]|] hm1]; [|done].
    rewrite !bind_eq. destruct (CBB_add_bytes _ _ _ (hm_cbb hm1)) as [[[]|] s1]; done. }
  rewrite E. destruct (msg_build TLS13_MT_MESSAGE_HASH m hm) as [[[]|] hm'] eqn:Eb.
  - exists hm'. split; [done|]. destruct (msg_build_spec TLS13_MT_MESSAGE_HASH m h hm hm') as (Hd & Hn & _); (done || (unfold TLS13_MT_MESSAGE_HASH; lia) || lia).
  - exfalso. rewrite msg_build_marshal in Eb.
    pose proof (cbb_marshal_spec TLS13_HANDSHAKE_MSG_INITIAL_LEN (UInt 1 TLS13_MT_MESSAGE_HASH (Prefixed 3 m Done)) (hm_cbb hm)
      ltac:(cbn [wf_msg]; unfold SIZE_MAX, TLS13_MT_MESSAGE_HASH; split_and!; (done || lia)) ltac:(unfold TLS13_HANDSHAKE_MSG_INITIAL_LEN, SIZE_MAX; lia)) as Hs.
    destruct (cbb_marshal _ _ _) as [[[buf len]|] s']; [done|]. cbn [outcome] in Hs.
    apply (Hs (msg_encode TLS13_MT_MESSAGE_HASH h)); [apply encode_message; (done || (unfold TLS13_MT_MESSAGE_HASH; lia) || lia)|].
    split; [intros; apply Hmem|]. pose proof (zlen_msg_header TLS13_MT_MESSAGE_HASH (zlen h)). unfold msg_encode, SIZE_MAX. zl.
Qed.

Lemma agree_ok (f : M SSL unit) s t : agree ((_ ← f; mret []) s) (Some [], t) -> exists s', f s = (Some tt, s') /\ refines s' t.
Proof. intros [E R]. rewrite (bind_eq f) in E, R. destruct (f s) as [[[]|] s']; [|done]. by exists s'. Qed.

(** RFC 8446, section 4.4.1: after a hello retry request the transcript starts with a [message_hash] message, whose body is
    the hash of what had been recorded.  The running hash goes on from the old bytes, until it is started again. *)
Theorem synthetic_message_rfc8446 s t d l :
  refines s t -> suite_md t = Some d -> recorded t = Some l -> zlen l <= LIMIT_BEFORE_EXPANSION ->
  let m := msg_encode TLS13_MT_MESSAGE_HASH (md_hash d l) in
  exists s', tls13_synthetic_handshake_message s = (Some tt, s') /\ refines s' (mkTr (Some d) (Some m) (Some (d, l ++ m)) false).
Proof.
  intros R Ed El Hl m. pose proof (md_sizes d) as (Hs & _). destruct (md_hash_ok d l) as [Hz Hb]. unfold tls13_synthetic_handshake_message.
  pose proof (zlen_msg_header TLS13_MT_MESSAGE_HASH (zlen (md_hash d l))) as Hh.
  assert (Hm : zlen m = 4 + md_size d) by (unfold m, msg_encode; rewrite zlen_app, Hh; lia).
  assert (Hmb : Forall is_byte m) by (unfold m, msg_encode, msg_header; rewrite !Forall_app; split_and!; auto with bytes).
  (* the hash of what was recorded *)
  pose proof (hash_init_refines s t R ltac:(unfold recorded_len; by rewrite El)) as A1. cbn [transcript_spec] in A1. rewrite Ed, El in A1.
  destruct (agree_ok _ _ _ A1) as (s1 & E1 & R1). rewrite (bind_some _ _ _ _ _ E1).
  set (t1 := mkTr _ _ _ _) in R1. destruct (hash_value_refines EVP_MAX_MD_SIZE s1 t1 R1) as [E2 R2]; [unfold EVP_MAX_MD_SIZE; lia|].
  cbn [transcript_spec t1 hashed] in E2, R2. rewrite (proj2 (Z.leb_le _ _)) in E2, R2 by (unfold EVP_MAX_MD_SIZE; lia).
  rewrite bind_eq. destruct (tls1_transcript_hash_value EVP_MAX_MD_SIZE s1) as [r s2]. cbn [fst snd] in E2, R2. subst r.
  (* the message *)
  assert (En : exists hm, tls13_handshake_msg_new = Some hm) by (unfold tls13_handshake_msg_new, tls13_buffer_new; rewrite !Hmem; by eexists).
  destruct En as [hm ->]. destruct (message_hash_ok (md_hash d l) hm Hb) as (hm' & -> & D3 & L3); [unfold EVP_MAX_MD_SIZE; lia|]. fold m in D3, L3.
  unfold tls13_handshake_msg_data, hm_bytes. rewrite D3, L3. change (ztake _ _) with (ztake (zlen m) m). rewrite (ztake_ge (zlen m) m) by lia.
  (* and the transcript that starts with it *)
  destruct (agree_ok _ _ _ (reset_refines s2 t1 R2)) as (s3 & E4 & R4). rewrite (bind_some _ _ _ _ _ E4).
  set (t3 := mkTr _ _ _ _) in R4. assert (Ok : op_ok (Record_message m)) by done.
  pose proof (op_refines (Record_message m) s3 t3 R4 Ok ltac:(unfold recorded_len, LIMIT_BEFORE_EXPANSION; cbn [t3 recorded op_bytes]; change (zlen (@nil Z)) with 0; lia)) as A5.
  cbn [run_op transcript_spec] in A5. unfold hash_more in A5. cbn [t3 recorded hashed suite_md frozen app fmap option_fmap option_map] in A5.
  rewrite bool_decide_false in A5 by (intros E; rewrite E in Hm; change (zlen (@nil Z)) with 0 in Hm; lia).
  destruct (agree_ok _ _ _ A5) as (s4 & E5 & R5). by exists s4.
Qed.

(** ** The hash of a handshake *)

Lemma records_recorded ms : forall t l rest, recorded t = Some l -> hashed t = None -> frozen t = false -> Forall (fun m => m <> []) ms ->
  run_all transcript_spec ((Record_message <$> ms) ++ rest) t =
    let '(rs, t') := run_all transcript_spec rest (mkTr (suite_md t) (Some (l ++ concat ms)) None false) in (replicate (length ms) (Some []) ++ rs, t').
Proof.
  induction ms as [|m ms IH]; intros t l rest El Eh Ef Hne; cbn [fmap list_fmap app run_all replicate length concat].
  - rewrite app_nil_r. destruct t as [a r h f]. cbn in *. subst. by destruct (run_all _ _ _).
  - apply Forall_cons in Hne as [Hm Hne]. cbn [transcript_spec]. unfold hash_more. cbn [recorded frozen hashed suite_md]. rewrite El, Ef, Eh.
    rewrite bool_decide_false by (intros E; apply app_eq_nil in E; tauto). cbn [fmap option_fmap option_map]. rewrite (IH _ (l ++ m)) by done. cbn [suite_md]. rewrite <- app_assoc.
    by destruct (run_all _ _ _).
Qed.
Lemma records_hashed ms : forall t l d h rest, recorded t = Some l -> hashed t = Some (d, h) -> frozen t = false -> Forall (fun m => m <> []) ms ->
  run_all transcript_spec ((Record_message <$> ms) ++ rest) t =
    let '(rs, t') := run_all transcript_spec rest (mkTr (suite_md t) (Some (l ++ concat ms)) (Some (d, h ++ concat ms)) false) in (replicate (length ms) (Some []) ++ rs, t').
Proof.
  induction ms as [|m ms IH]; intros t l d h rest El Eh Ef Hne; cbn [fmap list_fmap app run_all replicate length concat].
  - rewrite !app_nil_r. destruct t as [a r x f]. cbn in *. subst. by destruct (run_all _ _ _).
  - apply Forall_cons in Hne as [Hm Hne]. cbn [transcript_spec]. unfold hash_more. cbn [recorded frozen hashed suite_md]. rewrite El, Ef, Eh.
    rewrite bool_decide_false by (intros E; apply app_eq_nil in E; tauto). cbn [fmap option_fmap option_map].
    rewrite (IH _ (l ++ m) d (h ++ m)) by done. cbn [suite_md]. rewrite <- !app_assoc. by destruct (run_all _ _ _).
Qed.

Lemma total_records ms rest : total_bytes ((Record_message <$> ms) ++ rest) = zlen (concat ms) + total_bytes rest.
Proof. induction ms as [|m ms IH]; [done|]. cbn [fmap list_fmap app concat total_bytes foldr op_bytes]. fold (total_bytes ((Record_message <$> ms) ++ rest)). rewrite IH, zlen_app. lia. Qed.
Lemma records_ok ms : Forall (Forall is_byte) ms -> Forall op_ok (Record_message <$> ms).
Proof. intros H'. apply Forall_fmap. eapply Forall_impl; [exact H'|]. intros m Hm. by split. Qed.

(** The operations of a handshake: messages before the digest is known, and after. *)
Definition handshake_so_far (before after : list (list Z)) : list transcript_op := Init :: (Record_message <$> before) ++ Hash_init :: (Record_message <$> after).
Lemma spec_so_far d before after rest : Forall (fun m => m <> []) (before ++ after) ->
  run_all transcript_spec (handshake_so_far before after ++ rest) (mkTr (Some d) None None false) =
    let '(rs, t) := run_all transcript_spec rest (mkTr (Some d) (Some (concat (before ++ after))) (Some (d, concat (before ++ after))) false) in
    (Some [] :: replicate (length before) (Some []) ++ Some [] :: replicate (length after) (Some []) ++ rs, t).
Proof.
  intros Hn. apply Forall_app in Hn as [Hn1 Hn2]. unfold handshake_so_far. cbn [app]. rewrite <- app_assoc. cbn [app run_all transcript_spec recorded suite_md hashed].
  rewrite (records_recorded before _ []) by done. cbn [app run_all transcript_spec recorded suite_md hashed frozen].
  rewrite (records_hashed after _ (concat before) d (concat before)) by done. cbn [suite_md]. rewrite concat_app. by destruct (run_all _ _ _).
Qed.
Lemma handshake_ok before after : Forall (Forall is_byte) (before ++ after) -> Forall op_ok (handshake_so_far before after).
Proof.
  intros Hb. apply Forall_app in Hb as [Hb1 Hb2]. unfold handshake_so_far. constructor; [done|]. apply Forall_app. split; [by apply records_ok|]. constructor; [done|]. by apply records_ok.
Qed.
Lemma total_so_far before after rest : total_bytes (handshake_so_far before after ++ rest) = zlen (concat (before ++ after)) + total_bytes rest.
Proof.
  unfold handshake_so_far. cbn [app]. rewrite <- app_assoc. cbn [app]. change (total_bytes (Init :: ?l)) with (0 + total_bytes l). rewrite total_records.
  change (total_bytes (Hash_init :: ?l)) with (0 + total_bytes l). rewrite total_records, concat_app, zlen_app. lia.
Qed.

(** The hash of a handshake is the hash of its messages, sent and received, wherever among them the digest was chosen. *)
Theorem handshake_hash_of_messages s d before after :
  refines s (mkTr (Some d) None None false) -> Forall (Forall is_byte) (before ++ after) -> Forall (fun m => m <> []) (before ++ after) ->
  zlen (concat (before ++ after)) <= LIMIT_BEFORE_EXPANSION ->
  let s' := (run_all run_op (handshake_so_far before after) s).2 in
  refines s' (mkTr (Some d) (Some (concat (before ++ after))) (Some (d, concat (before ++ after))) false) /\
  (tls1_transcript_hash_value EVP_MAX_MD_SIZE s').1 = Some (md_hash d (concat (before ++ after))).
Proof.
  intros R Hb Hne Hl s'. pose proof (md_sizes d) as (Hs & _).
  assert (R' : refines s' (mkTr (Some d) (Some (concat (before ++ after))) (Some (d, concat (before ++ after))) false)).
  { destruct (run_refines (handshake_so_far before after) s _ R (handshake_ok _ _ Hb)) as [_ R'].
    - rewrite <- (app_nil_r (handshake_so_far _ _)), total_so_far. change (total_bytes []) with 0. unfold recorded_len. cbn [recorded]. lia.
    - fold s' in R'. rewrite <- (app_nil_r (handshake_so_far _ _)) in R'. rewrite spec_so_far in R' by done. exact R'. }
  split; [done|]. destruct (hash_value_refines EVP_MAX_MD_SIZE s' _ R') as [-> _]; [unfold EVP_MAX_MD_SIZE; lia|].
  cbn [transcript_spec hashed]. by rewrite (proj2 (Z.leb_le _ _)) by (unfold EVP_MAX_MD_SIZE; lia).
Qed.
(** C16: The transcript implements its specification: whatever the sequence of operations - messages recorded before and
    after the digest is chosen, freezing, resetting, reading the data or the hash - the functions return what the
    specification returns, failures included, as long as there is memory and the messages fit in the largest buffer.  So
    the data are the messages recorded while the transcript was not frozen, and the hash is that of the data at the
    time it was started and of everything recorded since. *)
Theorem transcript_refines os s t :
  refines s t -> Forall op_ok os -> recorded_len t + total_bytes os <= LIMIT_BEFORE_EXPANSION ->
  (run_all run_op os s).1 = (run_all transcript_spec os t).1 /\ refines (run_all run_op os s).2 (run_all transcript_spec os t).2.
Proof. apply run_refines. Qed.
End Refinement.

(** ** A connection with a suite of SHA-256 *)

#[local] Instance plenty : Allocator := {| malloc_ok := fun _ => true; getpagesize := 4096 |}.
(** The other digests do not occur below. *)
#[local] Instance sha256_suites : SuiteDigests := {|
  EVP_md5 := sha256_md; EVP_sha1 := sha256_md; EVP_md5_sha1 := sha256_md; EVP_gostr341194 := sha256_md;
  EVP_sha256 := sha256_md; EVP_sha384 := sha256_md; EVP_streebog256 := sha256_md
|}.
Definition new_ssl : SSL := mkSSL (Some SSL_HANDSHAKE_MAC_SHA256) 0 None None 0 [] [] [].
Definition new_transcript : transcript := mkTr (Some sha256_md) None None false.
Lemma new_refines : refines new_ssl new_transcript.
Proof. by split. Qed.

Definition some_ops : list transcript_op :=
  [Record_message [9]; Hash_value 64; Init; Record_message []; Record_message [1; 0; 0; 1; 7]; Hash_init; Record_message [2; 0; 0; 0];
   Hash_value 31; Hash_value 32; Freeze; Record_message [20; 0; 0; 0]; Data; Hash_value 64; Reset; Data].

Lemma transcript_refines_witness :
  (run_all run_op some_ops new_ssl).1 =
    [Some []; None; Some []; None; Some []; Some []; Some []; None; Some (md_hash sha256_md [1; 0; 0; 1; 7; 2; 0; 0; 0]); Some []; Some [];
     Some [1; 0; 0; 1; 7; 2; 0; 0; 0]; Some (md_hash sha256_md [1; 0; 0; 1; 7; 2; 0; 0; 0; 20; 0; 0; 0]); Some []; Some []].
Proof.
  refine (proj1 (transcript_refines (fun _ => eq_refl) (fun _ => eq_refl) some_ops new_ssl new_transcript new_refines _ _)).
  - repeat constructor; easy.
  - vm_compute. discriminate.
Defined.

(** The code, run: the same digest as [SHA256] of the two messages. *)
Example transcript_runs :
  (tls1_transcript_hash_value 64 (run_all run_op (handshake_so_far [[1; 0; 0; 1; 7]] [[2; 0; 0; 0]]) new_ssl).2).1 = SHA256 [1; 0; 0; 1; 7; 2; 0; 0; 0] 9.
Proof. vm_compute. reflexivity. Qed.

(** When memory for the transcript fails, a message is in the hash and not in the transcript.  Callers that ignore the
    result, such as [ssl3_do_write], go on with a hash and data that differ. *)
#[local] Instance tight : Allocator := {| malloc_ok := fun n => n <=? 200; getpagesize := 4096 |}.
Example failed_record_is_hashed :
  let s := (run_all (@run_op tight _ _ _) [Init; Record_message [1]; Hash_init; Record_message (replicate 200 7)] new_ssl).2 in
  (tls1_transcript_data s).1 = Some [1] /\ (@tls1_transcript_hash_value tight _ _ 64 s).1 = SHA256 (1 :: replicate 200 7) 201.
Proof. vm_compute. done. Qed.
