(* ===== verification/Tls1Prf.v ===== *)
(** * Keys and Finished messages of TLS up to 1.2 (ssl/t1_enc.c)

    The pseudorandom function expands a secret to the master secret, the key block, the contents of
    Finished messages and exported keys.  [tls1_finished_rfc5246] puts it together with the transcript. *)
From S2P Require Import Prelude Compat Words EvpDigest Hmac Hkdf Buffer HmacSign.
From S2P Require Import Sha256 Cbs Cbb CbbSpec CbbBuild Tls13Buffer HandshakeMsg Transcript TranscriptSpec.

Definition NID_md5_sha1 : Z := 114.
Definition SSL3_RANDOM_SIZE : Z := 32.
Definition SSL_MAX_MASTER_KEY_LENGTH : Z := 48.
Definition TLS1_FINISH_MAC_LENGTH : Z := 12.
(** "client finished", "server finished", "key expansion", "master secret" *)
Definition TLS_MD_CLIENT_FINISH_CONST : list Z := [99; 108; 105; 101; 110; 116; 32; 102; 105; 110; 105; 115; 104; 101; 100].
Definition TLS_MD_SERVER_FINISH_CONST : list Z := [115; 101; 114; 118; 101; 114; 32; 102; 105; 110; 105; 115; 104; 101; 100].
Definition TLS_MD_KEY_EXPANSION_CONST : list Z := [107; 101; 121; 32; 101; 120; 112; 97; 110; 115; 105; 111; 110].
Definition TLS_MD_MASTER_SECRET_CONST : list Z := [109; 97; 115; 116; 101; 114; 32; 115; 101; 99; 114; 101; 116].

Section Prf.
Context `{Allocator} `{Methods} `{!Engines} `{!SuiteDigests}.

(** The five seeds of [tls1_P_hash]; [None] is NULL. *)
Fixpoint update_seeds (seeds : list (option (list Z))) : M sign_ctx unit :=
  match seeds with
  | [] => mret tt
  | None :: seeds => update_seeds seeds
  | Some s :: seeds => _ ← EVP_DigestSignUpdate s; update_seeds seeds
  end.

(** [out[i] ^= hmac[i]] on the next [n] bytes. *)
Definition xor_out (n : Z) (out hmac : list Z) : list Z := zip_with Z.lxor (ztake n out) hmac ++ zdrop n out.

(** The [for (;;)] loop: [done] is the part of the output that is complete, [out] the rest. *)
Fixpoint P_hash_loop (fuel : nat) (m : md) (mac_key : list Z) (seeds : list (option (list Z))) (A1 : list Z) (done out : list Z) : M sign_ctx (list Z) :=
  match fuel with
  | O => fail
  | S fuel =>
      _ ← EVP_DigestSignInit m mac_key;
      _ ← EVP_DigestSignUpdate A1;
      _ ← update_seeds seeds;
      '(hmac, hmac_len) ← EVP_DigestSignFinal;
      let hmac_len := if zlen out <? hmac_len then zlen out else hmac_len in
      let out := xor_out hmac_len out (ztake hmac_len hmac) in
      let done := done ++ ztake hmac_len out in
      let out := zdrop hmac_len out in
      if zlen out =? 0 then mret done
      else
        _ ← EVP_DigestSignInit m mac_key;
        _ ← EVP_DigestSignUpdate A1;
        '(A1, A1_len) ← EVP_DigestSignFinal;
        P_hash_loop fuel m mac_key seeds (ztake A1_len A1) done out
  end.

(** What is written of [out], [None] for a return of 0; [secret] is not NULL. *)
Definition tls1_P_hash (m : md) (secret : list Z) (seeds : list (option (list Z))) (out : list Z) : option (list Z) :=
  mac_key ← EVP_PKEY_new_mac_key (Some secret) (to_int (zlen secret));
  (( _ ← EVP_DigestSignInit m mac_key;
     _ ← update_seeds seeds;
     '(A1, A1_len) ← EVP_DigestSignFinal;
     P_hash_loop (S (length out)) m mac_key seeds (ztake A1_len A1) [] out) sign_ctx_init).1.

Definition tls1_PRF (s : SSL) (secret : list Z) (seeds : list (option (list Z))) (out_len : Z) : option (list Z) :=
  let out := zeros out_len in
  m ← ssl_get_handshake_evp_md s;
  if type m =? NID_md5_sha1 then
    let secret_len := zlen secret in
    let half_len := secret_len - secret_len / 2 in
    out ← tls1_P_hash EVP_md5 (ztake half_len secret) seeds out;
    tls1_P_hash EVP_sha1 (ztake half_len (zdrop (secret_len - half_len) secret)) seeds out
  else tls1_P_hash m secret seeds out.

Definition tls1_generate_key_block (s : SSL) (key_block_len : Z) : option (list Z) :=
  tls1_PRF s (master_key s)
    [Some TLS_MD_KEY_EXPANSION_CONST; Some (ztake SSL3_RANDOM_SIZE (server_random s)); Some (ztake SSL3_RANDOM_SIZE (client_random s)); None; None]
    key_block_len.

(** [str] has [str_len] bytes; the result is the bytes written. *)
Definition tls1_final_finish_mac (str : list Z) (str_len : Z) : M SSL (list Z) :=
  if str_len <? 0 then fail
  else
  buf ← tls1_transcript_hash_value EVP_MAX_MD_SIZE;
  s ← getS;
  match tls1_PRF s (master_key s) [Some (ztake str_len str); Some buf; None; None; None] TLS1_FINISH_MAC_LENGTH with
  | None => fail
  | Some out => mret out
  end.

(** The master secret from the [len] bytes [p]. *)
Definition tls1_generate_master_secret (s : SSL) (p : list Z) (len : Z) : option (list Z) :=
  if len <? 0 then None
  else tls1_PRF s (ztake len p)
    [Some TLS_MD_MASTER_SECRET_CONST; Some (ztake SSL3_RANDOM_SIZE (client_random s)); None; Some (ztake SSL3_RANDOM_SIZE (server_random s)); None]
    SSL_MAX_MASTER_KEY_LENGTH.

(** The seed of an exported key; [context] is [None] without [use_context]. *)
Definition exporter_seed (s : SSL) (label : list Z) (context : option (list Z)) : list Z :=
  label ++ ztake SSL3_RANDOM_SIZE (client_random s) ++ ztake SSL3_RANDOM_SIZE (server_random s) ++
  match context with
  | None => []
  | Some c => [Z.land (Z.shiftr (zlen c) 8) 0xff; Z.land (zlen c) 0xff] ++ c
  end.
(** [memcmp(val, c, sizeof(c)) == 0]. *)
Definition starts_with (c val : list Z) : bool := bytes_eqb (ztake (zlen c) val) c.

Definition tls1_export_keying_material (init_finished : bool) (s : SSL) (olen : Z) (label : list Z) (context : option (list Z)) : option (list Z) :=
  if negb init_finished then None
  else
  let val := exporter_seed s label context in
  if malloc_ok (zlen val) then
    if starts_with TLS_MD_CLIENT_FINISH_CONST val || starts_with TLS_MD_SERVER_FINISH_CONST val ||
       starts_with TLS_MD_MASTER_SECRET_CONST val || starts_with TLS_MD_KEY_EXPANSION_CONST val
    then None
    else tls1_PRF s (master_key s) [Some val; None; None; None; None] olen
  else None.
End Prf.

(** ** RFC 5246, section 5 *)
Section Spec.
Context `{Methods} `{!MdLaws} `{!SuiteDigests}.

(** A(i), and HMAC(secret, A(i + 1) + seed) + HMAC(secret, A(i + 2) + seed) + ..., [n] blocks. *)
Fixpoint prf_A (m : md) (secret seed : list Z) (i : nat) : list Z :=
  match i with O => seed | S j => hmac m secret (prf_A m secret seed j) end.
Fixpoint P_hash_from (m : md) (secret seed : list Z) (i n : nat) : list Z :=
  match n with O => [] | S n => hmac m secret (prf_A m secret seed (S i) ++ seed) ++ P_hash_from m secret seed (S i) n end.
(** The first [len] bytes, of which there are enough in [len] blocks. *)
Definition P_hash (m : md) (secret seed : list Z) (len : Z) : list Z := ztake len (P_hash_from m secret seed 0 (Z.to_nat len)).

(** With the digest of a cipher suite; the versions before 1.2 split the secret between MD5 and SHA-1. *)
Definition prf (m : md) (secret seed : list Z) (len : Z) : list Z :=
  if type m =? NID_md5_sha1 then
    let half := (zlen secret + 1) / 2 in
    zip_with Z.lxor (P_hash EVP_md5 (ztake half secret) seed len) (P_hash EVP_sha1 (zdrop (zlen secret - half) secret) seed len)
  else P_hash m secret seed len.
End Spec.

Section Proofs.
Context `{Allocator} `{Methods} `{!Engines} `{!MdLaws} `{!SuiteDigests}.
Context (no_engine : forall n, ENGINE_get_digest_engine n = None) (Hmem : forall n, malloc_ok n = true).

Definition seed_of (seeds : list (option (list Z))) : list Z := concat (default [] <$> seeds).
Definition seeds_ok (seeds : list (option (list Z))) : Prop := Forall (fun s => Forall is_byte (default [] s) /\ zlen (default [] s) < 2 ^ 63) seeds.
Lemma seed_bytes seeds : seeds_ok seeds -> Forall is_byte (seed_of seeds).
Proof. induction 1 as [|s seeds [Hs _] _ IH]; [constructor|]. unfold seed_of. cbn [fmap list_fmap concat]. by apply Forall_app. Qed.

Lemma update_seeds_ok m k seeds : seeds_ok seeds -> forall ctx x, signing m k ctx x ->
  exists ctx', update_seeds seeds ctx = (Some tt, ctx') /\ signing m k ctx' (x ++ seed_of seeds).
Proof.
  induction 1 as [|s seeds [_ Hs] _ IH]; intros ctx x Hc; [exists ctx; unfold seed_of; cbn; by rewrite app_nil_r|].
  unfold seed_of. cbn [fmap list_fmap concat update_seeds]. fold (seed_of seeds). destruct s as [s|]; cbn [default] in *; [|by apply IH].
  destruct (DigestSignUpdate_ok m k ctx x s Hc Hs) as (c1 & E1 & S1). destruct (IH c1 _ S1) as (c2 & E2 & S2). exists c2.
  rewrite (bind_some _ _ _ _ _ E1). split; [done|]. by rewrite app_assoc.
Qed.

(** One MAC under the key: start, some input, and the end. *)
Lemma mac_ok m k (f : M sign_ctx unit) x ctx : Forall is_byte k -> zlen k < 2 ^ 31 -> Forall is_byte x -> signable m k ctx ->
  (forall ctx, signing m k ctx [] -> exists ctx', f ctx = (Some tt, ctx') /\ signing m k ctx' x) ->
  exists ctx', (_ ← EVP_DigestSignInit m k; _ ← f; EVP_DigestSignFinal) ctx = (Some (hmac m k x, md_size m), ctx') /\ signable m k ctx'.
Proof.
  intros Hb Hl Hx Hs Hf. destruct (DigestSignInit_ok no_engine Hmem m k ctx Hs Hb Hl) as (c1 & E1 & S1). destruct (Hf c1 S1) as (c2 & E2 & S2).
  exists c2. rewrite (bind_some _ _ _ _ _ E1), (bind_some _ _ _ _ _ E2). split; [by apply (DigestSignFinal_ok Hmem)|]. right. by exists x.
Qed.
(** The same, followed by [g]. *)
Lemma mac_then {A} m k (f : M sign_ctx unit) x ctx (g : list Z * Z -> M sign_ctx A) : Forall is_byte k -> zlen k < 2 ^ 31 -> Forall is_byte x -> signable m k ctx ->
  (forall ctx, signing m k ctx [] -> exists ctx', f ctx = (Some tt, ctx') /\ signing m k ctx' x) ->
  exists ctx', (_ ← EVP_DigestSignInit m k; _ ← f; r ← EVP_DigestSignFinal; g r) ctx = g (hmac m k x, md_size m) ctx' /\ signable m k ctx'.
Proof.
  intros Hb Hl Hx Hs Hf. destruct (mac_ok m k f x ctx Hb Hl Hx Hs Hf) as (c' & E & S'). exists c'. split; [|done].
  apply bind_inv in E as ([] & c1 & E1 & E). apply bind_inv in E as ([] & c2 & E2 & E3). by rewrite (bind_some _ _ _ _ _ E1), (bind_some _ _ _ _ _ E2), (bind_some _ _ _ _ _ E3).
Qed.

Section Loop.
Context (m : md) (k : list Z) (seeds : list (option (list Z))) (Hk : Forall is_byte k) (Lk : zlen k < 2 ^ 31) (Hseeds : seeds_ok seeds).

Lemma prf_A_bytes i : Forall is_byte (prf_A m k (seed_of seeds) i).
Proof. destruct i; [by apply seed_bytes|apply hmac_ok]. Qed.
Lemma zlen_prf_A i : zlen (prf_A m k (seed_of seeds) (S i)) = md_size m.
Proof. apply hmac_ok. Qed.

(** The part of the output that a block is XORed to. *)
Lemma xor_block n out hm rest : n = Z.min (zlen out) (zlen hm) ->
  zip_with Z.lxor out (hm ++ rest) = ztake n (xor_out n out (ztake n hm)) ++ zip_with Z.lxor (zdrop n (xor_out n out (ztake n hm))) rest.
Proof.
  intros Hn. pose proof (zlen_nonneg out). pose proof (zlen_nonneg hm). unfold xor_out.
  assert (Hz : zlen (zip_with Z.lxor (ztake n out) (ztake n hm)) = n).
  { unfold zlen. rewrite length_zip_with. fold (zlen (ztake n out)). assert (E1 : zlen (ztake n out) = n) by (rewrite zlen_ztake; lia). assert (E2 : zlen (ztake n hm) = n) by (rewrite zlen_ztake; lia). unfold zlen in *. lia. }
  rewrite ztake_app_l by lia. rewrite ztake_ge by lia. rewrite zdrop_app_r by lia. rewrite Hz, Z.sub_diag. change (zdrop 0 ?l) with l.
  destruct (Z.le_gt_cases (zlen hm) (zlen out)) as [Hle|Hgt].
  - replace n with (zlen hm) by lia. rewrite (ztake_ge (zlen hm) hm) by lia. rewrite <- (ztake_zdrop (zlen hm) out) at 1.
    apply zip_with_app. assert (E1 : zlen (ztake (zlen hm) out) = zlen hm) by (rewrite zlen_ztake; lia). unfold zlen in E1 at 1 3. lia.
  - replace n with (zlen out) by lia. rewrite (ztake_ge (zlen out) out), (zdrop_ge (zlen out) out) by lia. cbn [zip_with]. rewrite app_nil_r.
    rewrite <- (app_nil_r out) at 1. rewrite <- (ztake_zdrop (zlen out) hm) at 1. rewrite <- app_assoc. rewrite zip_with_app; [by rewrite app_nil_r|].
    assert (E1 : zlen (ztake (zlen out) hm) = zlen out) by (rewrite zlen_ztake; lia). unfold zlen in E1 at 1 3. lia.
Qed.

Lemma P_hash_loop_ok fuel : forall i n done out ctx,
  signable m k ctx -> (length out < fuel)%nat -> zlen out <= Z.of_nat n * md_size m ->
  (P_hash_loop fuel m k seeds (prf_A m k (seed_of seeds) (S i)) done out ctx).1 = Some (done ++ zip_with Z.lxor out (P_hash_from m k (seed_of seeds) i n)).
Proof.
  pose proof (md_sizes m) as (Hs & _).
  induction fuel as [|fuel IH]; intros i n done out ctx Hc Hf Hn; [lia|]. cbn [P_hash_loop]. set (A := prf_A m k (seed_of seeds) (S i)) in *.
  assert (HA : Forall is_byte A) by apply prf_A_bytes. assert (LA : zlen A = md_size m) by apply zlen_prf_A.
  set (hm := hmac m k (A ++ seed_of seeds)). assert (Lhm : zlen hm = md_size m) by apply hmac_ok.
  destruct (DigestSignInit_ok no_engine Hmem m k ctx Hc Hk Lk) as (c1 & E1 & S1). destruct (DigestSignUpdate_ok m k c1 [] A S1) as (c2 & E2 & S2); [lia|].
  destruct (update_seeds_ok m k seeds Hseeds c2 _ S2) as (c3 & E3 & S3). pose proof (DigestSignFinal_ok Hmem m k c3 _ S3 Hk) as E4.
  specialize (E4 ltac:(apply Forall_app; split; [done|by apply seed_bytes])). cbn [app] in E4. fold hm in E4.
  rewrite (bind_some _ _ _ _ _ E1), (bind_some _ _ _ _ _ E2), (bind_some _ _ _ _ _ E3), (bind_some _ _ _ _ _ E4). cbv beta iota zeta.
  set (l := if zlen out <? md_size m then zlen out else md_size m). pose proof (zlen_nonneg out).
  assert (Hl : l = Z.min (zlen out) (zlen hm)) by (unfold l; rewrite Lhm; destruct (Z.ltb_spec (zlen out) (md_size m)); lia). clearbody l.
  set (out' := xor_out l out (ztake l hm)).
  assert (Lo : zlen out' = zlen out).
  { unfold out', xor_out. rewrite zlen_app, zlen_zdrop by lia. unfold zlen at 1. rewrite length_zip_with. pose proof (zlen_ztake l out ltac:(lia)). pose proof (zlen_ztake l hm ltac:(lia)). unfold zlen in *. lia. }
  assert (Hb : forall rest, zip_with Z.lxor out (hm ++ rest) = ztake l out' ++ zip_with Z.lxor (zdrop l out') rest) by (intros rest; by apply xor_block).
  assert (Lz : zlen (zdrop l out') = zlen out - l) by (rewrite zlen_zdrop by lia; lia).
  destruct (Z.eqb_spec (zlen (zdrop l out')) 0) as [Hz|Hz].
  - cbn [mret M_ret fst]. f_equal. apply zlen_0_nil in Hz. destruct n as [|n].
    + assert (out = []) as E by (apply zlen_0_nil; lia). unfold out'. rewrite E in *. change (zlen (@nil Z)) with 0 in *. replace l with 0 by lia. done.
    + cbn [P_hash_from]. fold A hm. rewrite Hb, Hz. cbn [zip_with]. by rewrite app_nil_r.
  - destruct n as [|n]; [lia|]. cbn [P_hash_from]. fold A hm. rewrite Hb.
    match goal with |- ((_ ← _; _ ← _; r ← _; @?g r) _).1 = _ =>
      destruct (mac_then m k (EVP_DigestSignUpdate A) A c3 g Hk Lk HA) as (c4 & E5 & S5); [right; by eexists|intros c Sc; apply (DigestSignUpdate_ok m k c [] A Sc); lia|rewrite E5] end.
    cbv beta iota. rewrite ztake_ge by (pose proof (hmac_ok m k A) as [? _]; lia). change (hmac m k A) with (prf_A m k (seed_of seeds) (S (S i))).
    rewrite app_assoc. apply IH; [done| |]; unfold zlen in *; lia.
Qed.
End Loop.

Lemma zlen_P_hash_from m k seed n : forall i, zlen (P_hash_from m k seed i n) = Z.of_nat n * md_size m.
Proof. induction n as [|n IH]; intros i; [done|]. cbn [P_hash_from]. rewrite zlen_app, IH, (proj1 (hmac_ok m k _)). lia. Qed.

Lemma zip_xor_take out l : zip_with Z.lxor out l = zip_with Z.lxor out (ztake (zlen out) l).
Proof.
  unfold ztake, zlen. rewrite Nat2Z.id. revert l. induction out as [|x out IH]; intros [|y l]; try done. cbn. f_equal. apply IH.
Qed.
Lemma zip_xor_zeros n l : n <= zlen l -> zip_with Z.lxor (zeros n) l = ztake n l.
Proof.
  unfold zeros, ztake, zlen. intros Hn. assert (Hl : (Z.to_nat n <= length l)%nat) by lia. clear Hn. revert l Hl. induction (Z.to_nat n) as [|k IH]; intros [|y l] Hl; cbn in *; try done; try lia.
  rewrite IH by lia. by destruct y.
Qed.

(** The expansion, XORed to what is there; it always ends. *)
Lemma tls1_P_hash_ok m k seeds out : Forall is_byte k -> zlen k < 2 ^ 31 -> seeds_ok seeds ->
  tls1_P_hash m k seeds out = Some (zip_with Z.lxor out (P_hash m k (seed_of seeds) (zlen out))).
Proof.
  intros Hk Lk Hs. pose proof (md_sizes m) as (Hm & _). pose proof (zlen_nonneg k). unfold tls1_P_hash. rewrite to_int_id, (new_mac_key_ok Hmem) by lia. cbn [mbind option_bind].
  match goal with |- ((_ ← _; _ ← _; r ← _; @?g r) _).1 = _ =>
    destruct (mac_then m k (update_seeds seeds) (seed_of seeds) sign_ctx_init g Hk Lk (seed_bytes _ Hs)) as (c1 & -> & S1);
      [by left|intros c Sc; by apply (update_seeds_ok m k seeds Hs c [])|] end.
  cbv beta iota. rewrite ztake_ge by (pose proof (hmac_ok m k (seed_of seeds)) as [? _]; lia). change (hmac m k (seed_of seeds)) with (prf_A m k (seed_of seeds) 1).
  rewrite (P_hash_loop_ok m k seeds Hk Lk Hs _ 0 (length out) [] out c1 S1) by (unfold zlen; nia). cbn [app]. f_equal. unfold P_hash.
  rewrite <- zip_xor_take. unfold zlen. by rewrite Nat2Z.id.
Qed.

Lemma tls1_PRF_ok s m secret seeds out_len : ssl_get_handshake_evp_md s = Some m -> Forall is_byte secret -> zlen secret < 2 ^ 31 -> seeds_ok seeds -> 0 <= out_len ->
  tls1_PRF s secret seeds out_len = Some (prf m secret (seed_of seeds) out_len).
Proof.
  intros Em Hk Lk Hs Ho. unfold tls1_PRF, prf. rewrite Em. cbn [mbind option_bind].
  assert (Hz : forall d k, zip_with Z.lxor (zeros out_len) (P_hash d k (seed_of seeds) (zlen (zeros out_len))) = P_hash d k (seed_of seeds) out_len).
  { intros d k. pose proof (md_sizes d) as (Hd & _). rewrite zlen_zeros by done. rewrite zip_xor_zeros.
    - unfold P_hash. rewrite ztake_ztake. f_equal. lia.
    - unfold P_hash. rewrite zlen_ztake, zlen_P_hash_from by lia. nia. }
  destruct (type m =? NID_md5_sha1).
  - pose proof (zlen_nonneg secret). assert (Eh : zlen secret - zlen secret / 2 = (zlen secret + 1) / 2) by dlia. rewrite Eh. set (half := (zlen secret + 1) / 2) in *.
    assert (Hh : 0 <= half <= zlen secret) by (unfold half; dlia). rewrite (ztake_ge half) by (rewrite zlen_zdrop; lia).
    rewrite tls1_P_hash_ok; [|by apply Forall_ztake|rewrite zlen_ztake; lia|done]. cbn [mbind option_bind]. rewrite Hz.
    rewrite tls1_P_hash_ok; [|by apply Forall_zdrop|rewrite zlen_zdrop; lia|done]. do 2 f_equal. f_equal.
    pose proof (md_sizes EVP_md5) as (Hd & _). unfold P_hash at 1. rewrite zlen_ztake, zlen_P_hash_from by lia. nia.
  - rewrite tls1_P_hash_ok by done. by rewrite Hz.
Qed.

(** *** The transcript leaves the secrets alone *)

Definition same_secrets (s s' : SSL) : Prop := master_key s' = master_key s /\ client_random s' = client_random s /\ server_random s' = server_random s.
Lemma secrets_refl s : same_secrets s s.
Proof. done. Qed.
Lemma secrets_trans s1 s2 s3 : same_secrets s1 s2 -> same_secrets s2 s3 -> same_secrets s1 s3.
Proof. intros (E1 & E2 & E3) (F1 & F2 & F3). unfold same_secrets. by rewrite F1, F2, F3. Qed.
Definition keeps_secrets {A} (f : M SSL A) : Prop := forall s, same_secrets s (f s).2.
Lemma secrets_bind {A B} (f : M SSL A) (g : A -> M SSL B) : keeps_secrets f -> (forall a, keeps_secrets (g a)) -> keeps_secrets (f ≫= g).
Proof. intros Hf Hg s. rewrite bind_eq. pose proof (Hf s) as E. destruct (f s) as [[a|] s1]; [|done]. eapply secrets_trans; [exact E|apply Hg]. Qed.
Lemma update_secrets x : keeps_secrets (tls1_transcript_hash_update x).
Proof. intros s. unfold tls1_transcript_hash_update. destruct (handshake_hash s); [|done]. by destruct (Evp.EVP_DigestUpdate _ _). Qed.
Lemma reset_secrets : keeps_secrets tls1_transcript_reset.
Proof. intros s. unfold tls1_transcript_reset. by destruct (handshake_transcript s). Qed.
Lemma append_secrets x : keeps_secrets (tls1_transcript_append x).
Proof.
  intros s. unfold tls1_transcript_append. destruct (handshake_transcript s); [|done]. destruct (transcript_frozen s); [done|]. destruct (_ <? _); [done|].
  destruct (BUF_MEM_grow _ _) as [r b']. by destruct (r =? 0).
Qed.
Lemma start_secrets m : keeps_secrets (start_hash m).
Proof. intros s. unfold start_hash. destruct EVP_MD_CTX_new; [|done]. by destruct (Evp.EVP_DigestInit_ex _ _ _). Qed.
Lemma hash_init_secrets : keeps_secrets tls1_transcript_hash_init.
Proof.
  intros s. unfold tls1_transcript_hash_init. cbv zeta. set (s0 := tls1_transcript_hash_free s). assert (E0 : same_secrets s s0) by done.
  set (f := m ← (fun s : SSL => (ssl_get_handshake_evp_md s, s)); _ ← start_hash m; data ← tls1_transcript_data; tls1_transcript_hash_update data).
  assert (Hk : keeps_secrets f).
  { apply secrets_bind; [done|]. intros m. apply secrets_bind; [apply start_secrets|]. intros _. apply secrets_bind; [done|]. intros d. apply update_secrets. }
  pose proof (Hk s0) as E. destruct (f s0) as [[a|] s1]; cbn [snd] in *; exact (secrets_trans _ _ _ E0 E).
Qed.
Lemma op_secrets o : keeps_secrets (run_op o).
Proof.
  destruct o; cbn [run_op]; try done; try (apply secrets_bind; [|done]).
  - intros s. unfold tls1_transcript_init. destruct (handshake_transcript s); [done|]. destruct BUF_MEM_new as [b|]; [|done]. apply (secrets_trans s (set_transcript (Some b) s)); [done|]. apply reset_secrets.
  - apply secrets_bind; [apply update_secrets|]. intros _. apply append_secrets.
  - apply hash_init_secrets.
  - intros s. unfold tls1_transcript_hash_value. destruct (_ <? _); [done|]. by destruct EVP_MD_CTX_new, (handshake_hash s).
  - apply reset_secrets.
Qed.
Lemma run_secrets os : forall s, same_secrets s (run_all run_op os s).2.
Proof.
  induction os as [|o os IH]; intros s; [done|]. cbn [run_all]. pose proof (op_secrets o s) as E. destruct (run_op o s) as [r s1].
  pose proof (IH s1) as E2. destruct (run_all run_op os s1) as [rs s2]. exact (secrets_trans _ _ _ E E2).
Qed.

(** ** Theorems *)

(** C17: A Finished message of TLS up to 1.2 carries what RFC 5246, section 7.4.9, says: after any handshake messages have been
    recorded, before and after the digest was chosen, [tls1_final_finish_mac] returns the first twelve bytes of
    PRF(master_secret, finished_label, Hash(handshake_messages)), where the hash is of all the messages in order, and the
    function is the P_hash of HMAC with the suite's digest - or, where that is MD5 with SHA-1, the exclusive or of both
    on the two halves of the secret.  The loop that expands the secret always ends. *)
Theorem tls1_finished_rfc5246 s d before after label :
  refines s (mkTr (Some d) None None false) -> Forall (Forall is_byte) (before ++ after) -> Forall (fun m => m <> []) (before ++ after) ->
  zlen (concat (before ++ after)) <= LIMIT_BEFORE_EXPANSION ->
  Forall is_byte (master_key s) -> zlen (master_key s) < 2 ^ 31 -> Forall is_byte label -> zlen label < 2 ^ 31 ->
  let s' := (run_all run_op (handshake_so_far before after) s).2 in
  (tls1_final_finish_mac label (zlen label) s').1 =
    Some (prf d (master_key s) (label ++ md_hash d (concat (before ++ after))) TLS1_FINISH_MAC_LENGTH).
Proof.
  intros R Hb Hne Hl Hk Lk Hlab Llab s'. destruct (handshake_hash_of_messages no_engine Hmem s d before after R Hb Hne Hl) as [R' E]. fold s' in R', E.
  destruct (run_secrets (handshake_so_far before after) s) as (Em & _). fold s' in Em. destruct (md_hash_ok d (concat (before ++ after))) as [Hz Hh]. pose proof (md_sizes d) as (Hs & _).
  unfold tls1_final_finish_mac. pose proof (zlen_nonneg label). rewrite (proj2 (Z.ltb_ge (zlen label) 0)) by lia.
  assert (Es : (tls1_transcript_hash_value EVP_MAX_MD_SIZE s').2 = s').
  { unfold tls1_transcript_hash_value. destruct (_ <? _); [done|]. by destruct EVP_MD_CTX_new, (handshake_hash s'). }
  rewrite bind_eq. destruct (tls1_transcript_hash_value EVP_MAX_MD_SIZE s') as [r s2]. cbn [fst snd] in E, Es. subst r s2. rewrite bind_eq. cbn [getS].
  rewrite (ztake_ge (zlen label) label) by lia.
  rewrite (tls1_PRF_ok s' d); [|apply (rf_md _ _ R')|by rewrite Em|by rewrite Em| |unfold TLS1_FINISH_MAC_LENGTH; lia].
  - rewrite Em. unfold seed_of. cbn [fmap list_fmap default concat]. by rewrite !app_nil_r.
  - unfold seeds_ok. repeat constructor; cbn [default from_option id]; try done; try lia.
Qed.

(** The master secret and the key block are those of RFC 5246, sections 8.1 and 6.3. *)
Theorem tls1_keys_rfc5246 s d pms n :
  ssl_get_handshake_evp_md s = Some d -> Forall is_byte pms -> zlen pms < 2 ^ 31 -> Forall is_byte (master_key s) -> zlen (master_key s) < 2 ^ 31 ->
  Forall is_byte (client_random s) -> Forall is_byte (server_random s) -> zlen (client_random s) = SSL3_RANDOM_SIZE -> zlen (server_random s) = SSL3_RANDOM_SIZE -> 0 <= n ->
  tls1_generate_master_secret s pms (zlen pms) = Some (prf d pms (TLS_MD_MASTER_SECRET_CONST ++ client_random s ++ server_random s) SSL_MAX_MASTER_KEY_LENGTH) /\
  tls1_generate_key_block s n = Some (prf d (master_key s) (TLS_MD_KEY_EXPANSION_CONST ++ server_random s ++ client_random s) n).
Proof.
  intros Ed Hp Lp Hk Lk Hc Hs Lc Ls Hn. pose proof (zlen_nonneg pms). unfold SSL3_RANDOM_SIZE in *. unfold tls1_generate_master_secret, tls1_generate_key_block, SSL3_RANDOM_SIZE.
  rewrite (proj2 (Z.ltb_ge (zlen pms) 0)), !ztake_ge by lia.
  split; (rewrite (tls1_PRF_ok s d); [unfold seed_of; cbn [fmap list_fmap default from_option id concat]; by rewrite ?app_nil_r|done..| |]; try done);
    unfold seeds_ok, SSL_MAX_MASTER_KEY_LENGTH; repeat constructor; cbn [default from_option id]; try done; try lia.
Qed.

(** Exported keys are outputs of the function on a seed that starts with the label, and no seed of the handshake's own: a
    seed that starts with one of the four reserved labels is refused. *)
Theorem exporter_seed_separated s d olen label context out c rest :
  ssl_get_handshake_evp_md s = Some d -> Forall is_byte (master_key s) -> zlen (master_key s) < 2 ^ 31 ->
  Forall is_byte (exporter_seed s label context) -> zlen (exporter_seed s label context) < 2 ^ 63 -> 0 <= olen ->
  tls1_export_keying_material true s olen label context = Some out ->
  c ∈ [TLS_MD_CLIENT_FINISH_CONST; TLS_MD_SERVER_FINISH_CONST; TLS_MD_MASTER_SECRET_CONST; TLS_MD_KEY_EXPANSION_CONST] ->
  out = prf d (master_key s) (exporter_seed s label context) olen /\ exporter_seed s label context <> c ++ rest.
Proof.
  intros Ed Hk Lk Hb Lb Ho. unfold tls1_export_keying_material. cbn [negb]. rewrite Hmem. set (val := exporter_seed s label context) in *.
  destruct (_ || _) eqn:E; [done|]. intros Hout Hc. split.
  - rewrite (tls1_PRF_ok s d) in Hout; [|done..| |done]; [|unfold seeds_ok; repeat constructor; done]. injection Hout as <-. unfold seed_of. cbn [fmap list_fmap default from_option id concat]. by rewrite !app_nil_r.
  - intros Hv. assert (Hst : starts_with c val = true).
    { unfold starts_with. rewrite Hv, ztake_app_l, ztake_ge by lia. by apply bool_decide_eq_true. }
    rewrite !orb_false_iff in E. destruct E as [[[E1 E2] E3] E4]. rewrite !elem_of_cons in Hc. destruct Hc as [->|[->|[->|[->|Hc]]]]; try congruence. by apply not_elem_of_nil in Hc.
Qed.
End Proofs.

(** ** A connection with a suite of SHA-256 *)

#[local] Existing Instance TranscriptSpec.plenty.
#[local] Existing Instance TranscriptSpec.sha256_suites.

(** A published test vector of the function with SHA-256, the label "test label". *)
Definition prf_secret : list Z := [0x9b;0xbe;0x43;0x6b;0xa9;0x40;0xf0;0x17;0xb1;0x76;0x52;0x84;0x9a;0x71;0xdb;0x35].
Definition prf_seed : list Z := [0xa0;0xba;0x9f;0x93;0x6c;0xda;0x31;0x18;0x27;0xa6;0xf7;0x96;0xff;0xd5;0x19;0x8c].
Definition test_label : list Z := [116; 101; 115; 116; 32; 108; 97; 98; 101; 108].
Example prf_sha256_vector :
  tls1_PRF new_ssl prf_secret [Some test_label; Some prf_seed; None; None; None] 40 =
  Some [0xe3;0xf2;0x29;0xba;0x72;0x7b;0xe1;0x7b;0x8d;0x12;0x26;0x20;0x55;0x7c;0xd4;0x53;0xc2;0xaa;0xb2;0x1d;
        0x07;0xc3;0xd4;0x95;0x32;0x9b;0x52;0xd4;0xe6;0x1e;0xdb;0x5a;0x6b;0x30;0x17;0x91;0xe9;0x0d;0x35;0xc9].
Proof. vm_compute. reflexivity. Qed.

Definition keyed_ssl : SSL := mkSSL (Some SSL_HANDSHAKE_MAC_SHA256) 0 None None 0 prf_secret [] [].
Lemma keyed_refines : refines keyed_ssl new_transcript.
Proof. by split. Qed.

Lemma tls1_finished_rfc5246_witness :
  let s' := (run_all run_op (handshake_so_far [[1; 0; 0; 1; 7]] [[2; 0; 0; 0]; [14; 0; 0; 0]]) keyed_ssl).2 in
  (tls1_final_finish_mac TLS_MD_CLIENT_FINISH_CONST 15 s').1 =
    Some (prf sha256_md prf_secret (TLS_MD_CLIENT_FINISH_CONST ++ md_hash sha256_md [1; 0; 0; 1; 7; 2; 0; 0; 0; 14; 0; 0; 0]) 12).
Proof.
  refine (tls1_finished_rfc5246 (fun _ => eq_refl) (fun _ => eq_refl) keyed_ssl sha256_md [[1; 0; 0; 1; 7]] [[2; 0; 0; 0]; [14; 0; 0; 0]]
            TLS_MD_CLIENT_FINISH_CONST keyed_refines _ _ _ _ _ _ _); try by vm_compute.
  - repeat constructor; easy.
  - repeat constructor; easy.
  - vm_compute. repeat constructor; easy.
  - vm_compute. repeat constructor; easy.
Defined.
